(* ===== verification/_CoqProject ===== *)
-Q . S2P
Prelude.v
HashFn.v
RelPath.v
MemSmgr.v
MemSmgrInv.v
MemSmgrRefine.v
MemSmgrOps.v
MemSmgrDrop.v
MemSmgrSim.v
MemSmgrSeed.v
MemSmgrExamples.v
MemSmgrFindings.v
RowLocks.v
RowIds.v
RowState.v
RowStateProofs.v
TupleOps.v
TupleOpsProofs.v
FileSys.v
Md.v
MdInv.v
MdRefine.v
MdOps.v
MdIo.v
MdDrop.v
MdUnlink.v
MdSim.v
MdSync.v
MdTheorems.v
MdExamples.v
MdLocal.v
Smgr.v
SmgrInv.v
SmgrManagers.v
SmgrStore.v
SmgrMd.v
SmgrMem.v
SmgrExamples.v
Dynahash.v
DynahashChain.v
DynahashInv.v
DynahashKeys.v
DynahashOps.v
DynahashExpand.v
DynahashSearch.v
DynahashCreate.v
DynahashMap.v
DynahashScan.v
DynahashRekey.v
DynahashPartition.v
DynahashTheorems.v
DynahashExamples.v
RustStd.v
EngTid.v
EngTuple.v
EngPage.v
EngIndex.v
EngRelation.v
EngOverlay.v
EngState.v
EngOps.v
EngScan.v
EngFfi.v
EngTupleProofs.v
EngPageProofs.v
EngRelationProofs.v
EngInv.v
EngAppend.v
EngCalls.v
EngOutcomes.v
EngSession.v
EngCommit.v
EngTransactions.v
EngSystem.v
EngScanProofs.v
EngTheorems.v
EngFfiTheorems.v
EngLink.v
EngExamples.v
EngFindings.v
