(* ===== verification/Prelude.v ===== *)
(** * A verification development of fastpg

    fastpg is a PostgreSQL fork whose backend runs without durable storage of
    its own.  Relation blocks are kept in shared memory over a read-only seed
    image by the storage manager memsmgr.c; tables are kept as rows in one of
    two engines (Rust crates) behind the table access method
    fastpg_mem_tableam.c; where no seed is configured, blocks go to files
    through PostgreSQL's md.c.  The C code of these parts and the second engine,
    the crate fastpg-storage2, are modelled here as executable definitions, each
    under the name it has in the source, and proved correct.  Paths below are
    relative to the repository, which is under src/ (so src/backend is
    src/src/backend on disk).

    ** The parts and their files

    - Prelude (this file): machine integers, the state and error monad [M],
      its laws and tactics, and what the components share on lists and strings.
    - HashFn: src/common/hashfn.c.  RelPath: src/common/relpath.c and the
      relation locators.
    - Storage in memory, src/backend/storage/smgr/memsmgr.c.  [MemSmgr] has the
      code: the fork and page tables ([fork_hashes], [page_hashes]), the page
      arena ([page_data], [next_page]), the partition locks ([held_lwlocks])
      and the reading of the seed directory are one record [MemState]; every
      function of the file is a definition on it.  md.c is the class [MdSmgr]
      there, the process environment and seed directory the class [Env].
      [MemSmgrInv] and [MemSmgrRefine] have the invariant [mem_wf] and the view
      of a fork as a list of blocks, [MemSmgrOps] and [MemSmgrDrop] what each
      exported function does to the view, [MemSmgrSeed] the seed directory,
      which is the interface [SeedImage] of the others, and [MemSmgrSim] the
      refinement of a store of block lists by runs of calls.
      [MemSmgrExamples] is a concrete instance, [MemSmgrFindings] the places
      where the code departs from the contract.
    - Storage in files, src/backend/storage/smgr/md.c.  [FileSys] has the file
      calls md.c makes, over a directory, with a schedule that decides for each
      call whether it completes, is cut short or fails.  [Md] has the code, on
      a record of that file system, the open segments ([md_seg_fds]) and the
      requests made of the checkpointer.  [MdInv] and [MdRefine]
      relate segment files to blocks; [MdOps], [MdIo], [MdDrop] and [MdUnlink]
      follow the operations; [MdSim] proves md.c against the store that
      [MemSmgrSim] proved memsmgr.c against; [MdSync] and [MdTheorems] have what
      a run does not show, [MdLocal] what an operation leaves alone.
      [MdExamples] is a concrete disk.
    - The storage manager switch, src/backend/storage/smgr/smgr.c.  [Smgr] has
      the code, on a record of the relation objects with their cached sizes and
      pins; the table of storage managers is the record of functions [f_smgr],
      and [SmgrManagers] makes the two entries of it from [Md] and [MemSmgr].
      [SmgrInv] has the invariant of the objects.  [SmgrStore] proves the switch
      against the class [StoreSmgr], which states what a storage manager
      promises; [SmgrMd] and [SmgrMem] discharge it for md.c and memsmgr.c and
      compose the results.  [SmgrExamples] has concrete runs.
    - Dynamic hash tables, src/backend/utils/hash/dynahash.c.  [Dynahash] has
      the code: elements are linked by address in a heap, a pointer to a bucket
      header or to a link is a [slot], the scans of the process are a list, and
      a schedule decides whether the allocator returns memory.
      [DynahashChain] relates links to lists, [DynahashInv] has the arithmetic
      of buckets and the invariant [table_ok], [DynahashKeys] the functions for
      keys that are blobs or strings, [DynahashOps] free lists and allocation,
      [DynahashExpand] the splitting of a bucket, [DynahashSearch] hash_search,
      [DynahashCreate] hash_create, [DynahashScan] scans, [DynahashRekey] the
      change of a key, [DynahashPartition] partitions, [DynahashMap] and
      [DynahashTheorems] the results.  [DynahashExamples] has concrete tables.
    - The table access method, src/backend/access/fastpg/fastpg_mem_tableam.c.
      [RowLocks] models the row locks as a step relation over any number of
      threads; [RowIds] the correspondence of row numbers and TIDs and the
      table of block layouts; [RowState] what a thread remembers of the rows of
      its transaction (touched rows, redirects, lock roots, speculative
      inserts, relation visibility) and the transaction callbacks; [TupleOps]
      the handlers that delete and lock tuples, complete speculative inserts
      and clear relations.  The proofs are in the same file or in the one with
      Proofs in its name.  The engines are the classes [Storage] and [Engines]:
      the calls the C code makes of them, with no law assumed.
    - The second engine, crates/fastpg-storage2/src.  [RustStd] has what it uses
      of Rust's library.  [EngTid] is tid.rs and scan.rs, [EngTuple] tuple.rs
      (the stored form of a row), [EngPage] page.rs, [EngIndex] index.rs (keys),
      [EngRelation] relation.rs, [EngOverlay] transaction.rs (what a transaction
      has changed, and the stack of a session), [EngState] state.rs (visibility
      and the ends of transactions), [EngOps] and [EngScan] the operations on
      rows and the scans of state.rs and lib.rs, and [EngFfi] the other
      functions of lib.rs that C calls.  The state of a call is a [World]: the
      shared relations and row counters, and the session that makes the call.
      [EngTupleProofs], [EngPageProofs] and [EngRelationProofs] follow the bytes
      of rows, pages and relations; [EngInv] says what a session sees and has the
      invariant of its overlays; [EngAppend], [EngCalls] and [EngOutcomes] follow
      the calls, [EngSession], [EngCommit] and [EngTransactions] the ends of
      transactions, [EngScanProofs] the scans.
      [EngSystem] is any number of sessions over one storage as a step relation,
      a call at a time, with the invariant of the reachable states; [EngTheorems]
      and [EngFfiTheorems] are what is promised in them.  [EngLink] puts this
      engine behind the handlers of [TupleOps].  [EngExamples] has concrete
      runs, [EngFindings] runs that go wrong.

    ** What is shown

    - Storage: a sequence of storage manager calls inside the contract gives
      the answers and leaves the forks that a store of block lists does, both
      for memsmgr.c from the creation of the shared state on and for md.c from
      any disk that represents a store.  The contract is [call_pre] and
      [md_pre]; it has creations of forks that exist, in redo, and, for md.c,
      drops that leave a file to the checkpoint.  Left out are the calls that
      the code gets wrong, in [call_sound] and, for the truncation of the last
      possible segment, in [md_pre]; memsmgr.c also needs room ([call_room]),
      md.c a file system that does not fail.  Further: each operation of
      memsmgr.c on its own, with its errors and what a full table or arena does;
      reads and writes of md.c under short transfers; the two ways of
      unlinking a file; which files a sync covers; that no two relations share
      a file or a seed file; that the seed functions read a directory in
      md.c's layout as the blocks it stands for.
    - smgr.c over either storage manager: calls on forks interleaved with
      opening, pinning and releasing relations and with ends of transactions
      answer as the store, under the same conditions and sizes that come from
      the cache included; the end of a transaction closes the objects without
      pins and no others.
    - Hashing: the four code paths of the hash agree.
    - Hash tables: from hash_create on, runs of operations answer as a finite
      map; a shared table has room for the entries it was made for even when
      memory is exhausted; every operation, raising or not, keeps the table well
      formed; a scan returns every entry once and ends; partitions share no
      bucket; the outcomes of entering and of changing a key.
    - The table access method: mutual exclusion of row locks in every
      interleaving; conversions between row numbers and TIDs are inverse, and
      stay so once a layout is recorded; the cache of touched rows is a finite
      map, for touches under one transaction number; redirect chains; nothing of
      a transaction is seen by the next; what deleting a row twice and locking a
      deleted row report.
    - The second engine, for every state that calls of any number of sessions
      lead to, clearing and replacing relations not among them, and with
      deletions by the identifier of a row's newest version: a commit makes what
      the session saw what everybody sees, an abort leaves nothing of a
      transaction, and an aborted subtransaction gives back what was seen before
      it; other sessions see nothing of a transaction that
      has not ended; the row counters are the numbers of committed rows; what
      insertions, updates and deletions do and when they are refused or fail; a
      scan returns the rows that are seen, each once and in order, and ends (for
      relations that the transaction has changed, if they have a page and no
      redirects), and batches are as many single steps but for the identifier
      that indexes have of a row; unique indexes are validated exactly and an
      index entry leads to its row.  A stored row reads back as it was written,
      and the reads through raw pointers stay inside a row of any bytes.  A
      deletion through the table access method removes the row in the engine and
      no other, and C and Rust agree on row identifiers.
    - Defects: the theorems of [MemSmgrFindings] and [EngFindings], and others
      marked in their comments, run the code on a state it can reach to a result
      that the contract, a comment or the other storage manager rules out.

    ** Bounds and fuel

    Block numbers, counts and sizes are [Z] with the wrap-around of their C type
    written out.  Loops that are not structural take fuel, as much as the loop
    of the source can use: [mem_seed_nblocks] runs at most once per segment number and the
    theorem on seed directories gives the result, not only a result if there is
    one; the loops of md.c over the segments of a fork take one more than the
    number of files in the directory ([dir_fuel]), those over bytes one more
    than the number of bytes, those over blocks the number of blocks, and
    _mdfd_getseg and mdextend, which call each other, nest at most twice
    ([getseg_depth]).  The loops of dynahash.c along a chain take one more than
    the number of elements of the table ([chain_fuel]), those over buckets the
    number of buckets; a scan is shown to end after one call more than there are
    entries.  The number of buckets is a uint32, and the theorems assume that it
    does not reach [2 ^ 32].  Running out of fuel is an error of its own,
    ERRCODE_NONTERMINATING, and the theorems that give a successful result
    exclude it.  The redirect and lock-root chains of the table access method
    have the source's own bound of 32 steps, the redirects of the engine its own
    of 1,000,000 ([MAX_HOT_REDIRECT_HOPS]).  The loops of the engine over the
    overlays of a session take the length of the stack; the loop of a scan step
    takes one more than the number of candidates, so that a loop that runs out
    has met a candidate twice and does not end in the source either;
    [next_visible_spec] shows that a forward scan with committed rows ends
    before; the fuel of the calls that read keys bounds the length
    of C strings, and the theorems hold for every value of it.  Rust's panics
    are errors.

    ** What is not modelled

    The first engine, an alternative to the second, and the catalog, parser,
    protocol and session crates (Rust); of the second engine the loading of COPY text (copy.rs), the wrapper
    of replace_relation_from, the cache of index descriptions, the thread-local
    copies of row counters and of the last error, and the byte counts of the
    metrics.  Sessions interleave a call at a time; a call that takes the lock
    on the shared state more than once is one step all the same.  Clearing and
    replacing a relation are definitions, but not steps of [EngSystem]:
    [EngFindings] shows that they break what the other calls keep.  Of the table
    access method inserts, updates, scans and index access are not modelled, and
    [EngLink] takes the row lock to be granted at once.  Also left out are
    asynchronous reads beyond the completion callback of md.c; fd.c, which is
    used through the calls of [FileSys]; spinlocks and statistics of dynahash.c;
    the IPC guard, which intercepts operating system calls; and the rest of
    PostgreSQL.  Outside the files on dynahash.c hash tables are finite maps
    with a capacity, as the theorems on it justify.  Memory exhaustion is
    modelled where the C code handles it.  An error that ends the process
    (FATAL) is an error like others; warnings and log messages are left out. *)

From Stdlib Require Import ZArith Lia Strings.Byte.
From stdpp Require Import base tactics numbers list gmap strings pretty.

#[global] Set Default Goal Selector "!".

Local Open Scope Z_scope.

(** ** Machine integers

    Every C integer is a [Z]; the arithmetic of an unsigned type of width
    [w] is arithmetic modulo [2 ^ w], written out where the source computes
    with it. *)

Declare Scope pg_scope.
Delimit Scope pg_scope with pg.

Definition wrap32 (x : Z) : Z := x mod 2 ^ 32.
Definition wrap64 (x : Z) : Z := x mod 2 ^ 64.

(** Conversion of a [uint32] to a two's complement [int]. *)
Definition to_int32 (x : Z) : Z :=
  if decide (wrap32 x < 2 ^ 31) then wrap32 x else wrap32 x - 2 ^ 32.

Notation "a +u b" := (wrap32 (a + b)) (at level 50, left associativity) : pg_scope.
Notation "a -u b" := (wrap32 (a - b)) (at level 50, left associativity) : pg_scope.
Notation "a *u b" := (wrap32 (a * b)) (at level 40, left associativity) : pg_scope.

Definition is_u32 (x : Z) : Prop := 0 <= x < 2 ^ 32.
Definition is_u64 (x : Z) : Prop := 0 <= x < 2 ^ 64.

(** [lia] does not compute with [2 ^ 32]; these tactics replace the powers
    that occur by their values first. *)
Ltac pow2 :=
  change (2 ^ 16) with 65536 in *;
  change (2 ^ 31) with 2147483648 in *;
  change (2 ^ 32) with 4294967296 in *;
  change (2 ^ 64) with 18446744073709551616 in *.
Ltac mlia := unfold is_u32, is_u64 in *; pow2; lia.

Lemma wrap32_range x : is_u32 (wrap32 x).
Proof. apply Z.mod_pos_bound. lia. Qed.

Lemma wrap32_small x : is_u32 x → wrap32 x = x.
Proof. apply Z.mod_small. Qed.

Lemma wrap32_wrap32 x : wrap32 (wrap32 x) = wrap32 x.
Proof. apply wrap32_small, wrap32_range. Qed.

Lemma wrap64_range x : is_u64 (wrap64 x).
Proof. apply Z.mod_pos_bound. lia. Qed.

Lemma wrap64_small x : is_u64 x → wrap64 x = x.
Proof. apply Z.mod_small. Qed.

Lemma to_int32_small x : 0 <= x < 2 ^ 31 → to_int32 x = x.
Proof.
  intros H. unfold to_int32.
  rewrite wrap32_small by mlia. case_decide; mlia.
Qed.

(** ** Errors and the state-and-error monad

    [ereport(ERROR, ...)] does not return: it unwinds to the transaction's
    error handler.  What the code had already changed stays changed, so an
    error carries the state at the point where it was raised. *)

Inductive errcode : Type :=
| ERRCODE_INTERNAL_ERROR
| ERRCODE_OUT_OF_MEMORY
| ERRCODE_DATA_CORRUPTED
| ERRCODE_DUPLICATE_FILE
| ERRCODE_FEATURE_NOT_SUPPORTED
| ERRCODE_FILE_ACCESS
| ERRCODE_INVALID_PARAMETER_VALUE
| ERRCODE_PROGRAM_LIMIT_EXCEEDED
| ERRCODE_DISK_FULL
| ERRCODE_NONTERMINATING.

#[global] Instance errcode_eq_dec : EqDecision errcode.
Proof. solve_decision. Defined.

Inductive result (A : Type) : Type :=
| Ok (a : A)
| Error (code : errcode) (msg : string).
Arguments Ok {A} _.
Arguments Error {A} _ _.

#[global] Instance result_ret : MRet result := @Ok.
#[global] Instance result_bind : MBind result := λ A B f r,
  match r with Ok a => f a | Error c m => Error c m end.

Definition is_ok {A} (r : result A) : bool :=
  match r with Ok _ => true | Error _ _ => false end.

(** A stateful operation: the state it leaves is the same whether it
    returns or raises. *)
Definition M (S A : Type) : Type := S → result A * S.

#[global] Instance M_ret S : MRet (M S) := λ A a s, (Ok a, s).
#[global] Instance M_bind S : MBind (M S) := λ A B f m s,
  match m s with
  | (Ok a, s') => f a s'
  | (Error c e, s') => (Error c e, s')
  end.

Definition ereport {S A} (c : errcode) (e : string) : M S A := λ s, (Error c e, s).
Definition gets {S A} (f : S → A) : M S A := λ s, (Ok (f s), s).
Definition modify {S} (f : S → S) : M S unit := λ s, (Ok tt, f s).
Definition lift {S A} (r : result A) : M S A := λ s, (r, s).

(** [for (T x : xs) body(x)] *)
Fixpoint for_each {S A} (xs : list A) (body : A → M S unit) : M S unit :=
  match xs with
  | [] => mret tt
  | x :: xs' => body x;; for_each xs' body
  end.

(** ** Stepping through the monad *)

Lemma M_bind_ok {S A B} (m : M S A) (f : A → M S B) s b s' :
  (m ≫= f) s = (Ok b, s') ↔ ∃ a s1, m s = (Ok a, s1) ∧ f a s1 = (Ok b, s').
Proof.
  unfold mbind, M_bind. destruct (m s) as [[a|c e] s1]; split.
  - intros H. by exists a, s1.
  - intros (a' & s1' & [= -> ->] & H). done.
  - intros H. discriminate.
  - intros (a' & s1' & H & _). discriminate.
Qed.

Lemma M_bind_run {S A B} (m : M S A) (f : A → M S B) s a s1 :
  m s = (Ok a, s1) → (m ≫= f) s = f a s1.
Proof. intros H. unfold mbind, M_bind. by rewrite H. Qed.

Lemma M_bind_err {S A B} (m : M S A) (f : A → M S B) s c e s1 :
  m s = (Error c e, s1) → (m ≫= f) s = (Error c e, s1).
Proof. intros H. unfold mbind, M_bind. by rewrite H. Qed.

Lemma gets_run {S A B} (g : S → A) (f : A → M S B) s : (gets g ≫= f) s = f (g s) s.
Proof. done. Qed.

(** Break a hypothesis that a monadic program returned into its first step
    and the rest. *)
Tactic Notation "minv" hyp(H) "as" ident(a) ident(s1) ident(H1) :=
  apply M_bind_ok in H as (a & s1 & H1 & H).

(** ** Total correctness

    [total P m Q]: from a state in [P], [m] returns a result in [Q]. *)

Definition total {S A} (P : S → Prop) (m : M S A) (Q : A → S → Prop) : Prop :=
  ∀ s, P s → ∃ a s', m s = (Ok a, s') ∧ Q a s'.

Lemma total_ret {S A} (P : S → Prop) (a : A) : total P (mret a) (λ a' s, a' = a ∧ P s).
Proof. intros s Hs. by exists a, s. Qed.

Lemma total_conseq {S A} (P P' : S → Prop) (m : M S A) (Q Q' : A → S → Prop) :
  total P m Q → (∀ s, P' s → P s) → (∀ a s, Q a s → Q' a s) → total P' m Q'.
Proof. intros H HP HQ s Hs. destruct (H s (HP s Hs)) as (a & s' & Hm & Ha). exists a, s'. split; [done|by apply HQ]. Qed.

Lemma total_bind {S A B} (P : S → Prop) (m : M S A) (R : A → S → Prop) (k : A → M S B) (Q : B → S → Prop) :
  total P m R → (∀ a, total (R a) (k a) Q) → total P (m ≫= k) Q.
Proof.
  intros Hm Hk s Hs. destruct (Hm s Hs) as (a & s1 & H1 & Ha). destruct (Hk a s1 Ha) as (b & s2 & H2 & Hb).
  exists b, s2. by rewrite (M_bind_run _ _ _ _ _ H1).
Qed.

Lemma total_for_each {S A} (I : list A → S → Prop) (xs : list A) (body : A → M S unit) :
  (∀ x xs', total (I (x :: xs')) (body x) (λ _, I xs')) → total (I xs) (for_each xs body) (λ _, I []).
Proof.
  intros Hb. induction xs as [|x xs IH]; cbn [for_each]; [intros s Hs; by exists tt, s|].
  eapply total_bind; [apply Hb|]. by intros [].
Qed.

(** ** Computations that keep to a relation

    [respects R m]: the state that [m] leaves, whether it returns or raises, is
    related to the one it starts from.  With [R] a preorder this composes. *)

Definition respects {S A} (R : S → S → Prop) (m : M S A) : Prop := ∀ s, R s (m s).2.

(** Two states that look the same through [g]. *)
Definition same {S V} (g : S → V) (s s' : S) : Prop := g s' = g s.
#[global] Instance same_preorder {S V} (g : S → V) : PreOrder (same g).
Proof. split; [done|]. unfold same. intros s1 s2 s3. congruence. Qed.

(** A property that is not lost. *)
Definition keeping {S} (P : S → Prop) (s s' : S) : Prop := P s → P s'.
#[global] Instance keeping_preorder {S} (P : S → Prop) : PreOrder (keeping P).
Proof. split; unfold keeping; [intros s; auto|intros s1 s2 s3; auto]. Qed.

Section respects.
Context {S : Type} (R : S → S → Prop) `{!PreOrder R}.

Lemma respects_ret {A} (a : A) : respects R (mret a).
Proof. intros s. simpl. reflexivity. Qed.
Lemma respects_gets {A} (g : S → A) : respects R (gets g).
Proof. intros s. simpl. reflexivity. Qed.
Lemma respects_lift {A} (a : result A) : respects R (lift a).
Proof. intros s. simpl. reflexivity. Qed.
Lemma respects_ereport {A} c e : respects R (@ereport S A c e).
Proof. intros s. simpl. reflexivity. Qed.
Lemma respects_modify (g : S → S) : (∀ s, R s (g s)) → respects R (modify g).
Proof. intros H s. apply H. Qed.

Lemma respects_bind {A B} (m : M S A) (k : A → M S B) :
  respects R m → (∀ a, respects R (k a)) → respects R (m ≫= k).
Proof.
  intros Hm Hk s. unfold mbind, M_bind. specialize (Hm s).
  destruct (m s) as [[a|c e] s1]; simpl in *; [|done]. etrans; [exact Hm|apply Hk].
Qed.

Lemma respects_for_each {A} (xs : list A) (body : A → M S unit) :
  (∀ x, x ∈ xs → respects R (body x)) → respects R (for_each xs body).
Proof.
  induction xs as [|x xs IH]; intros H; [apply respects_ret|].
  apply respects_bind; [apply H; left|]. intros _. apply IH. intros y Hy. apply H. by right.
Qed.
End respects.

Create HintDb respects.
#[export] Hint Resolve respects_ret respects_gets respects_lift respects_ereport respects_bind : respects.
#[export] Hint Extern 1 (respects _ (match ?x with _ => _ end)) => destruct x : respects.
#[export] Hint Extern 2 (respects _ (for_each _ _)) => (apply respects_for_each; [apply _|intros ? ?]) : respects.
#[export] Hint Extern 2 (PreOrder _) => apply _ : respects.

(** Follows a program, leaving what the database does not know. *)
Ltac respects_step :=
  cbv beta zeta;
  lazymatch goal with
  | |- respects _ (mbind _ _) => apply respects_bind; [apply _| |intros ?]
  | |- respects _ (match ?x with _ => _ end) => destruct x
  | |- respects _ (for_each _ _) => apply respects_for_each; [apply _|intros ? ?]
  | |- respects _ _ => solve [eauto 5 with respects]
  end.
Ltac respects := repeat respects_step.

(** ** Families of hash tables

    A component keeps an array of hash tables (one per lock partition, one
    per backend).  [tab t m] is table [t] of the family [m]; a table that
    was never entered into is empty. *)

Section tabs.
Context {T K V : Type} `{Countable T} `{Countable K}.
Implicit Types (m : gmap T (gmap K V)).

Definition tab (t : T) m : gmap K V := default ∅ (m !! t).
Definition tab_insert (t : T) (k : K) (v : V) m : gmap T (gmap K V) :=
  <[t := <[k := v]> (tab t m)]> m.
Definition tab_delete (t : T) (k : K) m : gmap T (gmap K V) :=
  <[t := delete k (tab t m)]> m.
Definition tab_filter (t : T) (P : K → bool) m : gmap T (gmap K V) :=
  <[t := filter (λ kv, Is_true (P kv.1)) (tab t m)]> m.

Lemma tab_insert_lookup t k v m t' k' :
  tab t' (tab_insert t k v m) !! k' =
    if decide (t = t' ∧ k = k') then Some v else tab t' m !! k'.
Proof.
  unfold tab_insert, tab at 1. destruct (decide (t = t')) as [->|Ht].
  - rewrite lookup_insert_eq. simpl. destruct (decide (k = k')) as [->|Hk].
    + rewrite lookup_insert_eq. by rewrite decide_True.
    + rewrite lookup_insert_ne by done. rewrite decide_False; [done|tauto].
  - rewrite lookup_insert_ne by done. rewrite decide_False; [done|tauto].
Qed.

Lemma tab_delete_lookup t k m t' k' :
  tab t' (tab_delete t k m) !! k' =
    if decide (t = t' ∧ k = k') then None else tab t' m !! k'.
Proof.
  unfold tab_delete, tab at 1. destruct (decide (t = t')) as [->|Ht].
  - rewrite lookup_insert_eq. simpl. destruct (decide (k = k')) as [->|Hk].
    + rewrite lookup_delete_eq. by rewrite decide_True.
    + rewrite lookup_delete_ne by done. rewrite decide_False; [done|tauto].
  - rewrite lookup_insert_ne by done. rewrite decide_False; [done|tauto].
Qed.

Lemma tab_filter_lookup t P m t' k' :
  tab t' (tab_filter t P m) !! k' =
    if decide (t = t') then (if P k' then tab t' m !! k' else None)
    else tab t' m !! k'.
Proof.
  unfold tab_filter, tab at 1. case_decide as Ht; [subst|].
  - rewrite lookup_insert_eq. simpl. rewrite map_lookup_filter.
    destruct (tab t' m !! k') as [v|] eqn:E; simpl; [|by destruct (P k')].
    destruct (P k') eqn:EP.
    + by rewrite option_guard_True.
    + rewrite option_guard_False; naive_solver.
  - by rewrite lookup_insert_ne by done.
Qed.
End tabs.
