(* ===== verification/HashFn.v ===== *)
(** * HashFn: the hash functions of src/common/hashfn.c

    Bob Jenkins' hash over byte strings ([hash_bytes] and its 64-bit
    extended form), the one-word shortcuts, and [hash_combine] of
    src/include/common/hashfn.h.  [hash_bytes] has four code paths (aligned
    or not, little or big endian); all four are here, with [be] standing for
    WORDS_BIGENDIAN.  Every variable is a [uint32], so every addition,
    subtraction and left shift wraps. *)

From Stdlib Require Import ZArith Lia Strings.Byte.
From stdpp Require Import base tactics numbers list.
From S2P Require Import Prelude.

Local Open Scope Z_scope.
Local Open Scope pg_scope.

Definition byte_val (b : byte) : Z := Z.of_N (Byte.to_N b).

(** [k[i]], for an index the caller has checked against the length. *)
Definition at_ (k : list byte) (i : nat) : Z := byte_val (nth i k x00).

(** Shift of a [uint32] to the left. *)
Definition shl32 (x n : Z) : Z := wrap32 (Z.shiftl x n).

Definition pg_rotate_left32 (word n : Z) : Z :=
  Z.lor (shl32 word n) (Z.shiftr word (32 - n)).

Definition mix (a b c : Z) : Z * Z * Z :=
  let a := a -u c in let a := Z.lxor a (pg_rotate_left32 c 4) in let c := c +u b in
  let b := b -u a in let b := Z.lxor b (pg_rotate_left32 a 6) in let a := a +u c in
  let c := c -u b in let c := Z.lxor c (pg_rotate_left32 b 8) in let b := b +u a in
  let a := a -u c in let a := Z.lxor a (pg_rotate_left32 c 16) in let c := c +u b in
  let b := b -u a in let b := Z.lxor b (pg_rotate_left32 a 19) in let a := a +u c in
  let c := c -u b in let c := Z.lxor c (pg_rotate_left32 b 4) in let b := b +u a in
  (a, b, c).

Definition final (a b c : Z) : Z * Z * Z :=
  let c := Z.lxor c b in let c := c -u pg_rotate_left32 b 14 in
  let a := Z.lxor a c in let a := a -u pg_rotate_left32 c 11 in
  let b := Z.lxor b a in let b := b -u pg_rotate_left32 a 25 in
  let c := Z.lxor c b in let c := c -u pg_rotate_left32 b 16 in
  let a := Z.lxor a c in let a := a -u pg_rotate_left32 c 4 in
  let b := Z.lxor b a in let b := b -u pg_rotate_left32 a 14 in
  let c := Z.lxor c b in let c := c -u pg_rotate_left32 b 24 in
  (a, b, c).

(** A native 32-bit load of the four bytes at [i]. *)
Definition load32 (be : bool) (k : list byte) (i : nat) : Z :=
  if be then at_ k (i + 3) + at_ k (i + 2) * 2 ^ 8 + at_ k (i + 1) * 2 ^ 16 + at_ k i * 2 ^ 24
  else at_ k i + at_ k (i + 1) * 2 ^ 8 + at_ k (i + 2) * 2 ^ 16 + at_ k (i + 3) * 2 ^ 24.

(** [case n: v += x; pg_fallthrough;] of a switch on [len]. *)
Definition case_ge (len n : nat) (x v : Z) : Z := if (n <=? len)%nat then v +u x else v.

(** The last 11 bytes, aligned source: whole words are loaded at once. *)
Definition tail_aligned (be : bool) (k : list byte) (a b c : Z) : Z * Z * Z :=
  let len := length k in
  if (8 <=? len)%nat then
    let c := case_ge len 11 (shl32 (at_ k 10) (if be then 8 else 24)) c in
    let c := case_ge len 10 (shl32 (at_ k 9) 16) c in
    let c := case_ge len 9 (shl32 (at_ k 8) (if be then 24 else 8)) c in
    let b := b +u load32 be k 4 in
    let a := a +u load32 be k 0 in
    (a, b, c)
  else if (4 <=? len)%nat then
    let b := case_ge len 7 (shl32 (at_ k 6) (if be then 8 else 16)) b in
    let b := case_ge len 6 (shl32 (at_ k 5) (if be then 16 else 8)) b in
    let b := case_ge len 5 (shl32 (at_ k 4) (if be then 24 else 0)) b in
    let a := a +u load32 be k 0 in
    (a, b, c)
  else
    let a := case_ge len 3 (shl32 (at_ k 2) (if be then 8 else 16)) a in
    let a := case_ge len 2 (shl32 (at_ k 1) (if be then 16 else 8)) a in
    let a := case_ge len 1 (shl32 (at_ k 0) (if be then 24 else 0)) a in
    (a, b, c).

(** The last 11 bytes, unaligned source: byte by byte. *)
Definition tail_unaligned (be : bool) (k : list byte) (a b c : Z) : Z * Z * Z :=
  let len := length k in
  let c := case_ge len 11 (shl32 (at_ k 10) (if be then 8 else 24)) c in
  let c := case_ge len 10 (shl32 (at_ k 9) 16) c in
  let c := case_ge len 9 (shl32 (at_ k 8) (if be then 24 else 8)) c in
  let b := case_ge len 8 (shl32 (at_ k 7) (if be then 0 else 24)) b in
  let b := case_ge len 7 (shl32 (at_ k 6) (if be then 8 else 16)) b in
  let b := case_ge len 6 (shl32 (at_ k 5) (if be then 16 else 8)) b in
  let b := case_ge len 5 (shl32 (at_ k 4) (if be then 24 else 0)) b in
  let a := case_ge len 4 (shl32 (at_ k 3) (if be then 0 else 24)) a in
  let a := case_ge len 3 (shl32 (at_ k 2) (if be then 8 else 16)) a in
  let a := case_ge len 2 (shl32 (at_ k 1) (if be then 16 else 8)) a in
  let a := case_ge len 1 (shl32 (at_ k 0) (if be then 24 else 0)) a in
  (a, b, c).

(** The two [while (len >= 12)] loops and the tails after them. *)
Fixpoint hash_aligned (be : bool) (k : list byte) (a b c : Z) {struct k} : Z * Z * Z :=
  match k with
  | _ :: _ :: _ :: _ :: _ :: _ :: _ :: _ :: _ :: _ :: _ :: _ :: k' =>
      let a := a +u load32 be k 0 in
      let b := b +u load32 be k 4 in
      let c := c +u load32 be k 8 in
      let '(a, b, c) := mix a b c in
      hash_aligned be k' a b c
  | _ => tail_aligned be k a b c
  end.

Definition sum32 (be : bool) (k : list byte) (i : nat) : Z :=
  if be then at_ k (i + 3) +u shl32 (at_ k (i + 2)) 8 +u shl32 (at_ k (i + 1)) 16 +u shl32 (at_ k i) 24
  else at_ k i +u shl32 (at_ k (i + 1)) 8 +u shl32 (at_ k (i + 2)) 16 +u shl32 (at_ k (i + 3)) 24.

Fixpoint hash_unaligned (be : bool) (k : list byte) (a b c : Z) {struct k} : Z * Z * Z :=
  match k with
  | _ :: _ :: _ :: _ :: _ :: _ :: _ :: _ :: _ :: _ :: _ :: _ :: k' =>
      let a := a +u sum32 be k 0 in
      let b := b +u sum32 be k 4 in
      let c := c +u sum32 be k 8 in
      let '(a, b, c) := mix a b c in
      hash_unaligned be k' a b c
  | _ => tail_unaligned be k a b c
  end.

Definition hash_init (len : Z) : Z := 0x9e3779b9 +u len +u 3923095.

Definition hash_bytes (be aligned : bool) (k : list byte) : Z :=
  let i := hash_init (Z.of_nat (length k)) in
  let '(a, b, c) := if aligned then hash_aligned be k i i i else hash_unaligned be k i i i in
  let '(a, b, c) := final a b c in
  c.

Definition hash_bytes_extended (be aligned : bool) (k : list byte) (seed : Z) : Z :=
  let i := hash_init (Z.of_nat (length k)) in
  let '(a, b, c) :=
    if decide (seed = 0) then (i, i, i)
    else
      let a := i +u wrap32 (Z.shiftr seed 32) in
      let b := i +u wrap32 seed in
      mix a b i in
  let '(a, b, c) := if aligned then hash_aligned be k a b c else hash_unaligned be k a b c in
  let '(a, b, c) := final a b c in
  Z.lor (wrap64 (Z.shiftl b 32)) c.

Definition hash_bytes_uint32 (k : Z) : Z :=
  let i := hash_init 4 in
  let a := i +u k in
  let '(a, b, c) := final a i i in
  c.

Definition hash_bytes_uint32_extended (k seed : Z) : Z :=
  let i := hash_init 4 in
  let '(a, b, c) :=
    if decide (seed = 0) then (i, i, i)
    else
      let a := i +u wrap32 (Z.shiftr seed 32) in
      let b := i +u wrap32 seed in
      mix a b i in
  let a := a +u k in
  let '(a, b, c) := final a b c in
  Z.lor (wrap64 (Z.shiftl b 32)) c.

Definition hash_uint32 (k : Z) : Z := hash_bytes_uint32 k.

Definition hash_combine (a b : Z) : Z :=
  Z.lxor a (b +u 0x9e3779b9 +u shl32 a 6 +u Z.shiftr a 2).

(** The byte image of a [uint32] in memory. *)
Definition bytes_of_u32 (be : bool) (x : Z) : list byte :=
  let b n := default x00 (Byte.of_N (Z.to_N ((x / 2 ^ n) mod 2 ^ 8))) in
  if be then [b 24; b 16; b 8; b 0] else [b 0; b 8; b 16; b 24].

(** ** Range lemmas *)

Lemma byte_val_range b : 0 <= byte_val b < 256.
Proof. pose proof (Byte.to_N_bounded b). unfold byte_val. lia. Qed.

Lemma at_range k i : 0 <= at_ k i < 256.
Proof. apply byte_val_range. Qed.

Lemma u32_high_bits x i : is_u32 x → 32 <= i → Z.testbit x i = false.
Proof.
  intros [H0 H] Hi. destruct (decide (x = 0)) as [->|]; [apply Z.testbit_0_l|].
  apply Z.bits_above_log2; [done|]. apply Z.log2_lt_pow2; [lia|].
  eapply Z.lt_le_trans; [done|]. apply Z.pow_le_mono_r; lia.
Qed.

Lemma u32_of_high_bits x : 0 <= x → (∀ i, 32 <= i → Z.testbit x i = false) → is_u32 x.
Proof.
  intros Hx H. split; [done|]. destruct (decide (x < 2 ^ 32)) as [|Hge]; [done|exfalso].
  assert (0 < x) by mlia.
  pose proof (Z.bit_log2 x ltac:(done)) as Hb.
  rewrite H in Hb; [done|]. apply Z.log2_le_pow2; [done|]. lia.
Qed.

Lemma lxor_u32 x y : is_u32 x → is_u32 y → is_u32 (Z.lxor x y).
Proof.
  intros Hx Hy. apply u32_of_high_bits.
  - apply Z.lxor_nonneg. unfold is_u32 in *. lia.
  - intros i Hi. by rewrite Z.lxor_spec, !u32_high_bits.
Qed.

Lemma lor_u32 x y : is_u32 x → is_u32 y → is_u32 (Z.lor x y).
Proof.
  intros Hx Hy. apply u32_of_high_bits.
  - apply Z.lor_nonneg. unfold is_u32 in *. lia.
  - intros i Hi. by rewrite Z.lor_spec, !u32_high_bits.
Qed.

Lemma shiftr_u32 x n : is_u32 x → 0 <= n → is_u32 (Z.shiftr x n).
Proof.
  intros [H0 H1] Hn. rewrite Z.shiftr_div_pow2 by done.
  assert (0 < 2 ^ n) by (apply Z.pow_pos_nonneg; lia).
  split; [apply Z.div_pos; lia|].
  apply Z.div_lt_upper_bound; [lia|]. nia.
Qed.

Lemma rot_u32 x n : is_u32 x → n <= 32 → is_u32 (pg_rotate_left32 x n).
Proof.
  intros Hx Hn. apply lor_u32; [apply wrap32_range|]. apply shiftr_u32; [done|lia].
Qed.

Create HintDb u32.
#[export] Hint Resolve wrap32_range lxor_u32 lor_u32 rot_u32 shiftr_u32 : u32.
#[export] Hint Extern 5 (_ <= _) => lia : u32.

(** ** [mix] is reversible *)

(** One line of [mix]: [x -= z; x ^= rot(z, n); z += y]. *)
Lemma mix_step_inverse x y z n :
  is_u32 x → is_u32 z → n <= 32 →
  let x' := Z.lxor (x -u z) (pg_rotate_left32 z n) in
  let z' := z +u y in
  z' -u y = z ∧ Z.lxor x' (pg_rotate_left32 z n) +u z = x.
Proof.
  intros Hx Hz Hn. cbv zeta. split.
  - unfold wrap32. rewrite Zminus_mod_idemp_l, Z.add_simpl_r. by apply wrap32_small.
  - rewrite Z.lxor_assoc, Z.lxor_nilpotent, Z.lxor_0_r.
    unfold wrap32. rewrite Zplus_mod_idemp_l, Z.sub_add. by apply wrap32_small.
Qed.

(** The inverse: the lines of [mix] undone from the last to the first. *)
Definition unmix (a b c : Z) : Z * Z * Z :=
  let b := b -u a in let c := Z.lxor c (pg_rotate_left32 b 4) in let c := c +u b in
  let a := a -u c in let b := Z.lxor b (pg_rotate_left32 a 19) in let b := b +u a in
  let c := c -u b in let a := Z.lxor a (pg_rotate_left32 c 16) in let a := a +u c in
  let b := b -u a in let c := Z.lxor c (pg_rotate_left32 b 8) in let c := c +u b in
  let a := a -u c in let b := Z.lxor b (pg_rotate_left32 a 6) in let b := b +u a in
  let c := c -u b in let a := Z.lxor a (pg_rotate_left32 c 4) in let a := a +u c in
  (a, b, c).

(** The state after each line, given a name. *)
Lemma mix_lines a b c a1 c1 b2 a2 c3 b3 a4 c4 b5 a5 c6 b6 :
  a1 = Z.lxor (a -u c) (pg_rotate_left32 c 4) → c1 = c +u b →
  b2 = Z.lxor (b -u a1) (pg_rotate_left32 a1 6) → a2 = a1 +u c1 →
  c3 = Z.lxor (c1 -u b2) (pg_rotate_left32 b2 8) → b3 = b2 +u a2 →
  a4 = Z.lxor (a2 -u c3) (pg_rotate_left32 c3 16) → c4 = c3 +u b3 →
  b5 = Z.lxor (b3 -u a4) (pg_rotate_left32 a4 19) → a5 = a4 +u c4 →
  c6 = Z.lxor (c4 -u b5) (pg_rotate_left32 b5 4) → b6 = b5 +u a5 →
  mix a b c = (a5, b6, c6).
Proof. intros. subst. reflexivity. Qed.

Lemma unmix_lines a b c a1 c1 b2 a2 c3 b3 a4 c4 b5 a5 c6 b6 :
  b5 = b6 -u a5 → c4 = Z.lxor c6 (pg_rotate_left32 b5 4) +u b5 →
  a4 = a5 -u c4 → b3 = Z.lxor b5 (pg_rotate_left32 a4 19) +u a4 →
  c3 = c4 -u b3 → a2 = Z.lxor a4 (pg_rotate_left32 c3 16) +u c3 →
  b2 = b3 -u a2 → c1 = Z.lxor c3 (pg_rotate_left32 b2 8) +u b2 →
  a1 = a2 -u c1 → b = Z.lxor b2 (pg_rotate_left32 a1 6) +u a1 →
  c = c1 -u b → a = Z.lxor a1 (pg_rotate_left32 c 4) +u c →
  unmix a5 b6 c6 = (a, b, c).
Proof. intros. subst. reflexivity. Qed.

(** [mix] is reversible, as its comment says: [unmix] recovers the three
    words, so no information of the key is lost between 12-byte chunks. *)
Theorem mix_reversible a b c :
  is_u32 a → is_u32 b → is_u32 c →
  let '(a', b', c') := mix a b c in unmix a' b' c' = (a, b, c).
Proof.
  intros Ha Hb Hc.
  edestruct (mix_step_inverse a b c 4) as [E11 E12]; [done..|lia|].
  remember (Z.lxor (a -u c) (pg_rotate_left32 c 4)) as a1 eqn:Ea1.
  remember (c +u b) as c1 eqn:Ec1.
  assert (is_u32 a1 ∧ is_u32 c1) as [? ?] by (subst; auto 10 with u32).
  edestruct (mix_step_inverse b c1 a1 6) as [E9 E10]; [done..|lia|].
  remember (Z.lxor (b -u a1) (pg_rotate_left32 a1 6)) as b2 eqn:Eb2.
  remember (a1 +u c1) as a2 eqn:Ea2.
  assert (is_u32 b2 ∧ is_u32 a2) as [? ?] by (subst b2 a2; auto 10 with u32).
  edestruct (mix_step_inverse c1 a2 b2 8) as [E7 E8]; [done..|lia|].
  remember (Z.lxor (c1 -u b2) (pg_rotate_left32 b2 8)) as c3 eqn:Ec3.
  remember (b2 +u a2) as b3 eqn:Eb3.
  assert (is_u32 c3 ∧ is_u32 b3) as [? ?] by (subst c3 b3; auto 10 with u32).
  edestruct (mix_step_inverse a2 b3 c3 16) as [E5 E6]; [done..|lia|].
  remember (Z.lxor (a2 -u c3) (pg_rotate_left32 c3 16)) as a4 eqn:Ea4.
  remember (c3 +u b3) as c4 eqn:Ec4.
  assert (is_u32 a4 ∧ is_u32 c4) as [? ?] by (subst a4 c4; auto 10 with u32).
  edestruct (mix_step_inverse b3 c4 a4 19) as [E3 E4]; [done..|lia|].
  remember (Z.lxor (b3 -u a4) (pg_rotate_left32 a4 19)) as b5 eqn:Eb5.
  remember (a4 +u c4) as a5 eqn:Ea5.
  assert (is_u32 b5 ∧ is_u32 a5) as [? ?] by (subst b5 a5; auto 10 with u32).
  edestruct (mix_step_inverse c4 a5 b5 4) as [E1 E2]; [done..|lia|].
  rewrite (mix_lines a b c a1 c1 b2 a2 c3 b3 a4 c4 b5 a5
    (Z.lxor (c4 -u b5) (pg_rotate_left32 b5 4)) (b5 +u a5)) by done.
  by apply (unmix_lines a b c a1 c1 b2 a2 c3 b3 a4 c4 b5).
Qed.

(** ** The four code paths of [hash_bytes] agree *)

Lemma shl32_mul x n : 0 <= x < 256 → 0 <= n <= 24 → shl32 x n = x * 2 ^ n.
Proof.
  intros Hx Hn. unfold shl32. rewrite Z.shiftl_mul_pow2 by lia.
  apply wrap32_small. assert (2 ^ n <= 2 ^ 24) by (apply Z.pow_le_mono_r; lia).
  assert (0 < 2 ^ n) by (apply Z.pow_pos_nonneg; lia).
  change (2 ^ 24) with 16777216 in *. unfold is_u32. pow2. nia.
Qed.

Lemma load32_u32 be k i : is_u32 (load32 be k i).
Proof.
  pose proof (at_range k i). pose proof (at_range k (i + 1)).
  pose proof (at_range k (i + 2)). pose proof (at_range k (i + 3)).
  unfold load32. destruct be; unfold is_u32; pow2; change (2 ^ 8) with 256; change (2 ^ 24) with 16777216; lia.
Qed.

Lemma add_wrap_l a x : wrap32 a +u x = a +u x.
Proof. apply Zplus_mod_idemp_l. Qed.

Lemma add_wrap_r a x : a +u wrap32 x = a +u x.
Proof. apply Zplus_mod_idemp_r. Qed.

(** Drop the wraps inside a chain of additions. *)
Ltac wrap_flat := repeat (rewrite add_wrap_l || rewrite <- Z.add_assoc).

Lemma sum32_load32 be k i : sum32 be k i = load32 be k i.
Proof.
  pose proof (at_range k i). pose proof (at_range k (i + 1)).
  pose proof (at_range k (i + 2)). pose proof (at_range k (i + 3)).
  rewrite <- (wrap32_small (load32 be k i)) by apply load32_u32.
  unfold sum32, load32. destruct be; rewrite !shl32_mul by lia; wrap_flat; f_equal; lia.
Qed.

(** Four one-byte cases that all run add up to one word load. *)
Lemma case_ge_word (be : bool) k i x len n3 n2 n1 n0 :
  (n3 <= len)%nat → (n2 <= len)%nat → (n1 <= len)%nat → (n0 <= len)%nat →
  case_ge len n0 (shl32 (at_ k i) (if be then 24 else 0))
    (case_ge len n1 (shl32 (at_ k (i + 1)) (if be then 16 else 8))
      (case_ge len n2 (shl32 (at_ k (i + 2)) (if be then 8 else 16))
        (case_ge len n3 (shl32 (at_ k (i + 3)) (if be then 0 else 24)) x)))
  = x +u load32 be k i.
Proof.
  intros. unfold case_ge. rewrite !(proj2 (Nat.leb_le _ _)) by done.
  pose proof (at_range k i). pose proof (at_range k (i + 1)).
  pose proof (at_range k (i + 2)). pose proof (at_range k (i + 3)).
  destruct be; rewrite !shl32_mul by lia;
    wrap_flat; f_equal; unfold load32; lia.
Qed.

Lemma case_ge_skip len n x v : (len < n)%nat → case_ge len n x v = v.
Proof. intros H. unfold case_ge. by rewrite (proj2 (Nat.leb_gt _ _)). Qed.

Lemma tail_aligned_unaligned be k a b c :
  tail_aligned be k a b c = tail_unaligned be k a b c.
Proof.
  unfold tail_aligned, tail_unaligned. generalize (length k). intros len.
  destruct (Nat.leb_spec 8 len); [|destruct (Nat.leb_spec 4 len)]; cbv zeta.
  - rewrite (case_ge_word be k 4) by lia. by rewrite (case_ge_word be k 0) by lia.
  - rewrite !(case_ge_skip len 11), !(case_ge_skip len 10), !(case_ge_skip len 9),
      !(case_ge_skip len 8) by lia.
    by rewrite (case_ge_word be k 0) by lia.
  - rewrite !(case_ge_skip len 11), !(case_ge_skip len 10), !(case_ge_skip len 9),
      !(case_ge_skip len 8), !(case_ge_skip len 7), !(case_ge_skip len 6),
      !(case_ge_skip len 5), !(case_ge_skip len 4) by lia.
    done.
Qed.

(** Induction twelve bytes at a time. *)
Lemma chunk_ind (P : list byte → Prop) :
  (∀ k, (length k < 12)%nat → P k) →
  (∀ x0 x1 x2 x3 x4 x5 x6 x7 x8 x9 x10 x11 k, P k →
    P (x0 :: x1 :: x2 :: x3 :: x4 :: x5 :: x6 :: x7 :: x8 :: x9 :: x10 :: x11 :: k)) →
  ∀ k, P k.
Proof.
  intros Hshort Hstep k. remember (length k) as n eqn:E. revert k E.
  induction n as [n IH] using lt_wf_ind. intros k ->.
  do 12 (destruct k as [|? k]; [apply Hshort; simpl; lia|]).
  apply Hstep. eapply IH; [|done]. simpl. lia.
Qed.

Lemma hash_aligned_short be k a b c :
  (length k < 12)%nat → hash_aligned be k a b c = tail_aligned be k a b c.
Proof. intros H. do 12 (destruct k as [|? k]; [done|]). simpl in H. lia. Qed.

Lemma hash_unaligned_short be k a b c :
  (length k < 12)%nat → hash_unaligned be k a b c = tail_unaligned be k a b c.
Proof. intros H. do 12 (destruct k as [|? k]; [done|]). simpl in H. lia. Qed.

Lemma hash_aligned_unaligned be k a b c :
  hash_aligned be k a b c = hash_unaligned be k a b c.
Proof.
  revert a b c. induction k as [k Hk | x0 x1 x2 x3 x4 x5 x6 x7 x8 x9 x10 x11 k IH]
    using chunk_ind; intros a b c.
  - by rewrite hash_aligned_short, hash_unaligned_short, tail_aligned_unaligned.
  - cbn [hash_aligned hash_unaligned]. rewrite !sum32_load32.
    destruct (mix _ _ _) as [[a' b'] c']. apply IH.
Qed.

Lemma final_u32 a b c :
  let '(a', b', c') := final a b c in is_u32 a' ∧ is_u32 b' ∧ is_u32 c'.
Proof. unfold final. cbv beta iota zeta. repeat split; apply Z.mod_pos_bound; lia. Qed.

Lemma lor_high_low b c : is_u32 b → is_u32 c →
  wrap32 (Z.lor (wrap64 (Z.shiftl b 32)) c) = c.
Proof.
  intros Hb Hc. unfold wrap64. rewrite Z.shiftl_mul_pow2 by lia.
  rewrite Z.mod_small by mlia.
  rewrite <- Z.shiftl_mul_pow2 by lia. unfold wrap32.
  rewrite <- Z.land_ones by lia. rewrite Z.land_lor_distr_l.
  rewrite !Z.land_ones by lia. rewrite Z.shiftl_mul_pow2, Z_mod_mult by lia.
  by rewrite Z.mod_small.
Qed.

Lemma bytes_of_u32_byte x n :
  byte_val (default x00 (Byte.of_N (Z.to_N ((x / 2 ^ n) mod 2 ^ 8)))) = (x / 2 ^ n) mod 2 ^ 8.
Proof.
  assert (0 <= (x / 2 ^ n) mod 2 ^ 8 < 256) as Hr by (apply Z.mod_pos_bound; lia).
  destruct (Byte.of_N (Z.to_N ((x / 2 ^ n) mod 2 ^ 8))) as [b|] eqn:E; simpl.
  - apply Byte.to_of_N in E. unfold byte_val. rewrite E. lia.
  - apply Byte.of_N_None_iff in E. lia.
Qed.

Lemma load32_bytes_of_u32 be x : is_u32 x → load32 be (bytes_of_u32 be x) 0 = x.
Proof.
  intros Hx. unfold load32, bytes_of_u32, at_.
  destruct be; cbn [nth Nat.add]; rewrite !bytes_of_u32_byte; change (2 ^ 0) with 1;
    change (2 ^ 8) with 256; change (2 ^ 16) with 65536; change (2 ^ 24) with 16777216;
    unfold is_u32 in Hx; pow2; clear - Hx; rewrite Z.div_1_r;
    Z.to_euclidean_division_equations; lia.
Qed.

(** The routes to one hash value agree.  The result of [hash_bytes] and
    of [hash_bytes_extended] does not depend on the alignment of the key;
    [hash_bytes_uint32] gives what its comment promises, the hash of the
    word's bytes in memory; and with a zero seed the low half of the extended
    hash is the plain hash. *)
Theorem hash_bytes_paths_agree be aligned k x seed :
  is_u32 x →
  hash_bytes be aligned k = hash_bytes be (negb aligned) k ∧
  hash_bytes_extended be aligned k seed = hash_bytes_extended be (negb aligned) k seed ∧
  hash_bytes_uint32 x = hash_bytes be aligned (bytes_of_u32 be x) ∧
  wrap32 (hash_bytes_extended be aligned k 0) = hash_bytes be aligned k ∧
  wrap32 (hash_bytes_uint32_extended x 0) = hash_bytes_uint32 x.
Proof.
  intros Hx. unfold hash_bytes, hash_bytes_extended. split_and!.
  - by destruct aligned; simpl; rewrite hash_aligned_unaligned.
  - destruct (if decide (seed = 0) then _ else _) as [[a b] c].
    by destruct aligned; simpl; rewrite hash_aligned_unaligned.
  - transitivity (let '(a, b, c) := hash_aligned be (bytes_of_u32 be x) (hash_init 4) (hash_init 4)
      (hash_init 4) in let '(_, _, c) := final a b c in c).
    + rewrite hash_aligned_short by (destruct be; simpl; lia).
      unfold tail_aligned. assert (length (bytes_of_u32 be x) = 4%nat) as -> by (by destruct be).
      cbn [Nat.leb]. rewrite !case_ge_skip by lia. cbv beta iota zeta.
      by rewrite load32_bytes_of_u32.
    + assert (length (bytes_of_u32 be x) = 4%nat) as -> by (by destruct be).
      by destruct aligned; rewrite ?hash_aligned_unaligned.
  - rewrite decide_True by done.
    destruct (if aligned then _ else _) as [[a b] c].
    pose proof (final_u32 a b c). destruct (final a b c) as [[a' b'] c'].
    apply lor_high_low; tauto.
  - unfold hash_bytes_uint32_extended, hash_bytes_uint32. rewrite decide_True by done.
    pose proof (final_u32 (hash_init 4 +u x) (hash_init 4) (hash_init 4)).
    destruct (final _ _ _) as [[a' b'] c']. apply lor_high_low; tauto.
Qed.

Lemma hash_bytes_paths_agree_witness :
  is_u32 16384 ∧ hash_bytes_uint32 16384 = hash_bytes false true [x00; x40; x00; x00].
Proof.
  split; [unfold is_u32; lia|].
  apply (hash_bytes_paths_agree false true [] 16384 0). unfold is_u32; lia.
Defined.

Lemma mix_reversible_witness :
  is_u32 1 ∧ let '(a', b', c') := mix 1 2 3 in unmix a' b' c' = (1, 2, 3).
Proof. split; [unfold is_u32; lia|]. apply (mix_reversible 1 2 3); unfold is_u32; lia. Defined.
