(* ===== verification/RelPath.v ===== *)
(** * RelPath: relation locators and the paths of their files

    src/include/storage/relfilelocator.h (which file a relation lives in),
    the fork numbers of src/include/common/relpath.h, and the path
    construction of src/common/relpath.c.  [version_dir] is
    TABLESPACE_VERSION_DIRECTORY, a string the build makes out of the major
    version and the catalog version. *)

From Stdlib Require Import ZArith Lia Ascii.
From stdpp Require Import base tactics numbers list gmap strings pretty.
From S2P Require Import Prelude.

Local Open Scope Z_scope.

Inductive ForkNumber : Type :=
| InvalidForkNumber
| MAIN_FORKNUM
| FSM_FORKNUM
| VISIBILITYMAP_FORKNUM
| INIT_FORKNUM.

#[global] Instance ForkNumber_eq_dec : EqDecision ForkNumber.
Proof. solve_decision. Defined.

Definition fork_code (f : ForkNumber) : Z :=
  match f with
  | InvalidForkNumber => -1
  | MAIN_FORKNUM => 0
  | FSM_FORKNUM => 1
  | VISIBILITYMAP_FORKNUM => 2
  | INIT_FORKNUM => 3
  end.

#[global] Instance ForkNumber_countable : Countable ForkNumber.
Proof.
  refine (inj_countable' fork_code
    (λ z, match z with 0 => MAIN_FORKNUM | 1 => FSM_FORKNUM
          | 2 => VISIBILITYMAP_FORKNUM | 3 => INIT_FORKNUM | _ => InvalidForkNumber end) _).
  by intros [].
Defined.

(** [for (forkNum = 0; forkNum <= MAX_FORKNUM; forkNum++)] *)
Definition all_forks : list ForkNumber :=
  [MAIN_FORKNUM; FSM_FORKNUM; VISIBILITYMAP_FORKNUM; INIT_FORKNUM].

Record RelFileLocator : Type := {
  spcOid : Z;
  dbOid : Z;
  relNumber : Z;
}.

Record RelFileLocatorBackend : Type := {
  locator : RelFileLocator;
  backend : Z;
}.

#[global] Instance RelFileLocator_eq_dec : EqDecision RelFileLocator.
Proof. solve_decision. Defined.
#[global] Instance RelFileLocatorBackend_eq_dec : EqDecision RelFileLocatorBackend.
Proof. solve_decision. Defined.

#[global] Instance RelFileLocator_countable : Countable RelFileLocator.
Proof.
  refine (inj_countable' (λ r, (spcOid r, dbOid r, relNumber r))
    (λ t, {| spcOid := t.1.1; dbOid := t.1.2; relNumber := t.2 |}) _).
  by intros [].
Defined.
#[global] Instance RelFileLocatorBackend_countable : Countable RelFileLocatorBackend.
Proof.
  refine (inj_countable' (λ r, (locator r, backend r))
    (λ t, {| locator := t.1; backend := t.2 |}) _).
  by intros [].
Defined.

Definition INVALID_PROC_NUMBER : Z := -1.
Definition DEFAULTTABLESPACE_OID : Z := 1663.
Definition GLOBALTABLESPACE_OID : Z := 1664.
Definition PG_TBLSPC_DIR : string := "pg_tblspc".

Definition RelFileLocatorBackendIsTemp (r : RelFileLocatorBackend) : bool :=
  negb (backend r =? INVALID_PROC_NUMBER).

Definition RelFileLocatorBackendEquals (r1 r2 : RelFileLocatorBackend) : bool :=
  (relNumber (locator r1) =? relNumber (locator r2)) &&
  (dbOid (locator r1) =? dbOid (locator r2)) &&
  (backend r1 =? backend r2) &&
  (spcOid (locator r1) =? spcOid (locator r2)).

(** [forkNames[]]; indexing with InvalidForkNumber is out of bounds in C and
    every caller excludes it. *)
Definition forkNames (f : ForkNumber) : string :=
  match f with
  | InvalidForkNumber => ""
  | MAIN_FORKNUM => "main"
  | FSM_FORKNUM => "fsm"
  | VISIBILITYMAP_FORKNUM => "vm"
  | INIT_FORKNUM => "init"
  end.

Definition forkname_to_number (forkName : string) : result ForkNumber :=
  match List.find (λ f, bool_decide (forkNames f = forkName)) all_forks with
  | Some f => Ok f
  | None => Error ERRCODE_INVALID_PARAMETER_VALUE "invalid fork name"
  end.

(** Length of the fork name [str] begins with, and the fork; 0 if none. *)
Definition forkname_chars (str : string) : nat * ForkNumber :=
  match List.find (λ f, String.prefix (forkNames f) str)
          [FSM_FORKNUM; VISIBILITYMAP_FORKNUM; INIT_FORKNUM] with
  | Some f => (String.length (forkNames f), f)
  | None => (0%nat, InvalidForkNumber)
  end.

(** [%u] and [%d] of [sprintf]. *)
Definition fmt_u (x : Z) : string := pretty (Z.to_N x).
Definition fmt_d (x : Z) : string := pretty x.

Section paths.
Context (version_dir : string).

Definition GetDatabasePath (db spc : Z) : string :=
  if spc =? GLOBALTABLESPACE_OID then "global"
  else if spc =? DEFAULTTABLESPACE_OID then "base/" +:+ fmt_u db
  else PG_TBLSPC_DIR +:+ "/" +:+ fmt_u spc +:+ "/" +:+ version_dir +:+ "/" +:+ fmt_u db.

Definition GetRelationPath (db spc rel proc : Z) (f : ForkNumber) : string :=
  if spc =? GLOBALTABLESPACE_OID then
    if negb (bool_decide (f = MAIN_FORKNUM))
    then "global/" +:+ fmt_u rel +:+ "_" +:+ forkNames f
    else "global/" +:+ fmt_u rel
  else if spc =? DEFAULTTABLESPACE_OID then
    if proc =? INVALID_PROC_NUMBER then
      if negb (bool_decide (f = MAIN_FORKNUM))
      then "base/" +:+ fmt_u db +:+ "/" +:+ fmt_u rel +:+ "_" +:+ forkNames f
      else "base/" +:+ fmt_u db +:+ "/" +:+ fmt_u rel
    else
      if negb (bool_decide (f = MAIN_FORKNUM))
      then "base/" +:+ fmt_u db +:+ "/t" +:+ fmt_d proc +:+ "_" +:+ fmt_u rel +:+ "_" +:+ forkNames f
      else "base/" +:+ fmt_u db +:+ "/t" +:+ fmt_d proc +:+ "_" +:+ fmt_u rel
  else
    if proc =? INVALID_PROC_NUMBER then
      if negb (bool_decide (f = MAIN_FORKNUM))
      then PG_TBLSPC_DIR +:+ "/" +:+ fmt_u spc +:+ "/" +:+ version_dir +:+ "/" +:+ fmt_u db
             +:+ "/" +:+ fmt_u rel +:+ "_" +:+ forkNames f
      else PG_TBLSPC_DIR +:+ "/" +:+ fmt_u spc +:+ "/" +:+ version_dir +:+ "/" +:+ fmt_u db
             +:+ "/" +:+ fmt_u rel
    else
      if negb (bool_decide (f = MAIN_FORKNUM))
      then PG_TBLSPC_DIR +:+ "/" +:+ fmt_u spc +:+ "/" +:+ version_dir +:+ "/" +:+ fmt_u db
             +:+ "/t" +:+ fmt_d proc +:+ "_" +:+ fmt_u rel +:+ "_" +:+ forkNames f
      else PG_TBLSPC_DIR +:+ "/" +:+ fmt_u spc +:+ "/" +:+ version_dir +:+ "/" +:+ fmt_u db
             +:+ "/t" +:+ fmt_d proc +:+ "_" +:+ fmt_u rel.

Definition relpath (r : RelFileLocatorBackend) (f : ForkNumber) : string :=
  GetRelationPath (dbOid (locator r)) (spcOid (locator r)) (relNumber (locator r)) (backend r) f.
End paths.

(** ** Digit strings *)

#[local] Arguments String.append : simpl nomatch.

Definition is_digit (a : ascii) : bool :=
  let n := Ascii.N_of_ascii a in (48 <=? n)%N && (n <=? 57)%N.

Fixpoint all_digits (s : string) : bool :=
  match s with
  | EmptyString => true
  | String a s' => is_digit a && all_digits s'
  end.

(** [s] is empty or begins with something that is not a digit. *)
Definition no_digit_head (s : string) : bool :=
  match s with EmptyString => true | String a _ => negb (is_digit a) end.

Lemma digits_split d1 d2 t1 t2 :
  all_digits d1 → all_digits d2 → no_digit_head t1 → no_digit_head t2 →
  d1 +:+ t1 = d2 +:+ t2 → d1 = d2 ∧ t1 = t2.
Proof.
  revert d2. induction d1 as [|a d1 IH]; intros [|a2 d2]; simpl; intros Hd1 Hd2 Ht1 Ht2 E.
  - done.
  - subst t1. simpl in Ht1. by destruct (is_digit a2).
  - subst t2. simpl in Ht2. by destruct (is_digit a).
  - injection E as <- E. apply andb_prop_elim in Hd1 as [_ Hd1].
    apply andb_prop_elim in Hd2 as [_ Hd2].
    destruct (IH d2) as [-> ->]; done.
Qed.

Lemma pretty_N_go_digits x s : all_digits s → all_digits (pretty_N_go x s).
Proof.
  revert s. induction (N.lt_wf_0 x) as [x _ IH]. intros s Hs.
  destruct (decide (x = 0%N)) as [->|Hx]; [done|].
  rewrite pretty_N_go_step by lia. apply IH; [apply N.div_lt; lia|].
  simpl. apply andb_prop_intro. split; [|done].
  assert (x `mod` 10 < 10)%N as Hm by (by apply N.mod_lt).
  revert Hm. generalize (x `mod` 10)%N. intros m Hm.
  assert (m = 0 ∨ m = 1 ∨ m = 2 ∨ m = 3 ∨ m = 4 ∨ m = 5 ∨ m = 6 ∨ m = 7 ∨ m = 8 ∨ m = 9)%N
    as Hc by lia.
  repeat destruct Hc as [->|Hc]; [done..|]. by subst.
Qed.

Lemma fmt_u_digits x : all_digits (fmt_u x).
Proof.
  unfold fmt_u, pretty, pretty_N. case_decide; [done|]. by apply pretty_N_go_digits.
Qed.

Lemma fmt_d_u x : 0 <= x → fmt_d x = fmt_u x.
Proof. intros H. destruct x; [done|done|lia]. Qed.

Lemma fmt_u_inj x y : 0 <= x → 0 <= y → fmt_u x = fmt_u y → x = y.
Proof. intros Hx Hy E. unfold fmt_u in E. apply (inj (pretty (A:=N))) in E. lia. Qed.

(** Numbers printed in front of a separator can be read back. *)
Lemma fmt_u_split x y s t :
  0 <= x → 0 <= y → no_digit_head s → no_digit_head t →
  fmt_u x +:+ s = fmt_u y +:+ t → x = y ∧ s = t.
Proof.
  intros Hx Hy Hs Ht E.
  destruct (digits_split (fmt_u x) (fmt_u y) s t) as [E1 E2];
    [apply fmt_u_digits..|done|done|done|].
  split; [by apply fmt_u_inj|done].
Qed.

Lemma string_app_assoc (a b c : string) : (a +:+ b) +:+ c = a +:+ (b +:+ c).
Proof. induction a as [|x a IH]; simpl; [done|by f_equal]. Qed.

Lemma string_app_inj_l (a b c : string) : a +:+ b = a +:+ c → b = c.
Proof. induction a as [|x a IH]; simpl; [done|]. intros [= ?]. auto. Qed.

Lemma string_app_nil_r (a : string) : a +:+ "" = a.
Proof. induction a as [|x a IH]; simpl; [done|by f_equal]. Qed.

(** ** Paths determine relations *)

Definition valid_locator (r : RelFileLocatorBackend) : Prop :=
  0 <= spcOid (locator r) ∧ 0 <= dbOid (locator r) ∧ 0 <= relNumber (locator r) ∧
  (backend r = INVALID_PROC_NUMBER ∨ 0 <= backend r) ∧
  (spcOid (locator r) = GLOBALTABLESPACE_OID →
    dbOid (locator r) = 0 ∧ backend r = INVALID_PROC_NUMBER).

#[global] Instance valid_locator_dec r : Decision (valid_locator r).
Proof. unfold valid_locator. apply _. Defined.

(** The name of the file inside the database directory. *)
Definition fork_suffix (f : ForkNumber) : string :=
  if bool_decide (f = MAIN_FORKNUM) then "" else "_" +:+ forkNames f.
Definition file_name (rel proc : Z) (f : ForkNumber) : string :=
  (if proc =? INVALID_PROC_NUMBER then "" else "t" +:+ fmt_d proc +:+ "_") +:+
  fmt_u rel +:+ fork_suffix f.

Lemma GetRelationPath_dir version_dir db spc rel proc f :
  (spc = GLOBALTABLESPACE_OID → proc = INVALID_PROC_NUMBER) →
  GetRelationPath version_dir db spc rel proc f =
    GetDatabasePath version_dir db spc +:+ "/" +:+ file_name rel proc f.
Proof.
  intros Hg. unfold GetRelationPath, GetDatabasePath, file_name, fork_suffix.
  destruct (Z.eqb_spec spc GLOBALTABLESPACE_OID) as [->|_].
  - rewrite Hg, Z.eqb_refl by done.
    case_bool_decide; simpl; by rewrite ?string_app_nil_r.
  - destruct (spc =? DEFAULTTABLESPACE_OID), (proc =? INVALID_PROC_NUMBER);
      case_bool_decide; cbn [negb]; rewrite ?string_app_nil_r;
      repeat (rewrite string_app_assoc || cbn [String.append]); done.
Qed.

(** What may follow the path of a fork: nothing, or [.segno]. *)
Definition seg_suffix (s : string) : bool :=
  match s with EmptyString => true | String a _ => bool_decide (a = "."%char) end.

Lemma fork_suffix_inj f1 f2 s t :
  f1 ≠ InvalidForkNumber → f2 ≠ InvalidForkNumber → seg_suffix s → seg_suffix t →
  fork_suffix f1 +:+ s = fork_suffix f2 +:+ t → f1 = f2 ∧ s = t.
Proof.
  intros H1 H2 Hs Ht E.
  unfold fork_suffix in E.
  destruct f1, f2; simpl in E; simplify_eq; try done.
Qed.

Lemma suffix_no_digit f s : f ≠ InvalidForkNumber → seg_suffix s → no_digit_head (fork_suffix f +:+ s).
Proof.
  intros Hf Hs. destruct f; try done. simpl. destruct s as [|a s]; [done|].
  simpl in Hs. apply bool_decide_unpack in Hs as ->. done.
Qed.

Lemma digit_head x s : ∃ a s', fmt_u x +:+ s = String a s' ∧ is_digit a.
Proof.
  pose proof (fmt_u_digits x) as Hd.
  destruct (fmt_u x) as [|a d] eqn:E.
  - exfalso. revert E. unfold fmt_u, pretty, pretty_N. case_decide as Hx; [done|].
    intros E. assert (∀ n s, String.length s <= String.length (pretty_N_go n s))%nat as Hlen.
    { intros n. induction (N.lt_wf_0 n) as [n _ IH]. intros s0.
      destruct (decide (n = 0%N)) as [->|]; [by rewrite pretty_N_go_0|].
      rewrite pretty_N_go_step by lia. etrans; [|apply IH; apply N.div_lt; lia]. simpl. lia. }
    rewrite pretty_N_go_step in E by lia.
    match type of E with pretty_N_go ?n ?s = _ => pose proof (Hlen n s) as Hl end.
    rewrite E in Hl. simpl in Hl. lia.
  - exists a, (d +:+ s). split; [done|]. simpl in Hd. by apply andb_prop_elim in Hd as [? _].
Qed.

Lemma file_name_inj rel1 proc1 f1 rel2 proc2 f2 s t :
  0 <= rel1 → 0 <= rel2 →
  proc1 = INVALID_PROC_NUMBER ∨ 0 <= proc1 → proc2 = INVALID_PROC_NUMBER ∨ 0 <= proc2 →
  f1 ≠ InvalidForkNumber → f2 ≠ InvalidForkNumber → seg_suffix s → seg_suffix t →
  file_name rel1 proc1 f1 +:+ s = file_name rel2 proc2 f2 +:+ t →
  rel1 = rel2 ∧ proc1 = proc2 ∧ f1 = f2 ∧ s = t.
Proof.
  intros Hr1 Hr2 Hp1 Hp2 Hf1 Hf2 Hs Ht E.
  assert (∀ rel1 rel2, 0 <= rel1 → 0 <= rel2 →
    (fmt_u rel1 +:+ fork_suffix f1) +:+ s = (fmt_u rel2 +:+ fork_suffix f2) +:+ t →
    rel1 = rel2 ∧ f1 = f2 ∧ s = t) as Hbody.
  { intros x y Hx Hy E'. rewrite !string_app_assoc in E'.
    apply fmt_u_split in E' as [-> E']; [|done|done|by apply suffix_no_digit..].
    by apply fork_suffix_inj in E'. }
  unfold file_name in E.
  destruct (Z.eqb_spec proc1 INVALID_PROC_NUMBER) as [->|Hn1],
           (Z.eqb_spec proc2 INVALID_PROC_NUMBER) as [->|Hn2].
  - cbn [String.append] in E. apply Hbody in E as (-> & -> & ->); done.
  - exfalso. rewrite !string_app_assoc in E. cbn [String.append] in E.
    destruct (digit_head rel1 (fork_suffix f1 +:+ s)) as (a & s' & Ea & Hd).
    rewrite Ea in E. injection E as -> _. done.
  - exfalso. rewrite !string_app_assoc in E. cbn [String.append] in E.
    destruct (digit_head rel2 (fork_suffix f2 +:+ t)) as (a & s' & Ea & Hd).
    rewrite Ea in E. injection E as <- _. done.
  - destruct Hp1 as [|Hp1], Hp2 as [|Hp2]; try done.
    rewrite !fmt_d_u, !string_app_assoc in E by done. cbn [String.append] in E.
    injection E as E. apply fmt_u_split in E as [-> E]; [|done..].
    injection E as E. rewrite <- !string_app_assoc in E.
    apply Hbody in E as (-> & -> & ->); done.
Qed.

Lemma GetDatabasePath_inj version_dir db1 spc1 db2 spc2 s t :
  0 <= db1 → 0 <= db2 → 0 <= spc1 → 0 <= spc2 →
  (spc1 = GLOBALTABLESPACE_OID → db1 = 0) → (spc2 = GLOBALTABLESPACE_OID → db2 = 0) →
  GetDatabasePath version_dir db1 spc1 +:+ "/" +:+ s =
    GetDatabasePath version_dir db2 spc2 +:+ "/" +:+ t →
  db1 = db2 ∧ spc1 = spc2 ∧ s = t.
Proof.
  intros Hd1 Hd2 Hs1 Hs2 Hg1 Hg2. unfold GetDatabasePath.
  destruct (Z.eqb_spec spc1 GLOBALTABLESPACE_OID) as [->|?];
  destruct (Z.eqb_spec spc2 GLOBALTABLESPACE_OID) as [->|?];
  try (destruct (Z.eqb_spec spc1 DEFAULTTABLESPACE_OID) as [->|?]);
  try (destruct (Z.eqb_spec spc2 DEFAULTTABLESPACE_OID) as [->|?]);
  intros E; rewrite ?string_app_assoc in E; unfold PG_TBLSPC_DIR in E;
  cbn [String.append] in E; try discriminate.
  - rewrite Hg1, Hg2 by done. injection E as ->. done.
  - injection E as E. apply fmt_u_split in E as [-> E]; [|done..].
    injection E as ->. done.
  - injection E as E. apply fmt_u_split in E as [-> E]; [|done..].
    injection E as E. apply string_app_inj_l in E. injection E as E.
    apply fmt_u_split in E as [-> E]; [|done..]. injection E as ->. done.
Qed.

(** The path of a relation fork, with a segment suffix or without, names one
    relation, one fork and one segment. *)
Lemma relpath_app_inj version_dir r1 f1 r2 f2 s t :
  valid_locator r1 → valid_locator r2 →
  f1 ≠ InvalidForkNumber → f2 ≠ InvalidForkNumber → seg_suffix s → seg_suffix t →
  relpath version_dir r1 f1 +:+ s = relpath version_dir r2 f2 +:+ t →
  r1 = r2 ∧ f1 = f2 ∧ s = t.
Proof.
  intros (?&?&?&?&Hg1) (?&?&?&?&Hg2) Hf1 Hf2 Hs Ht. unfold relpath.
  rewrite !GetRelationPath_dir by tauto.
  rewrite !string_app_assoc. intros E.
  apply GetDatabasePath_inj in E as (Edb & Espc & E); [|done..|tauto|tauto].
  apply file_name_inj in E as (Erel & Eproc & -> & ->); [|done..].
  destruct r1 as [[] ?], r2 as [[] ?]; simpl in *; by subst.
Qed.

(** Fork names round trip.  A fork's name reads back as the fork; and a
    file name's text after the underscore is recognised as that fork, whatever
    follows it, so the scan of a database directory classifies a file the way
    [GetRelationPath] named it. *)
Theorem fork_name_roundtrip f rest :
  f ∈ all_forks →
  forkname_to_number (forkNames f) = Ok f ∧
  (f ≠ MAIN_FORKNUM →
    forkname_chars (forkNames f +:+ rest) = (String.length (forkNames f), f)).
Proof.
  intros Hf. unfold all_forks in Hf. rewrite !elem_of_cons in Hf.
  destruct Hf as [->|[->|[->|[->|Hf]]]]; [| | | |by apply elem_of_nil in Hf].
  all: split; [by vm_compute|]; intros Hne; try done.
  all: unfold forkname_chars; simpl; destruct rest; done.
Qed.

Lemma fork_name_roundtrip_witness :
  FSM_FORKNUM ∈ all_forks ∧ forkname_to_number "fsm" = Ok FSM_FORKNUM.
Proof.
  assert (FSM_FORKNUM ∈ all_forks) as H by (unfold all_forks; set_solver).
  split; [exact H|]. apply (fork_name_roundtrip FSM_FORKNUM "" H).
Defined.
