(* ===== verification/MemSmgr.v ===== *)
(** * MemSmgr: the seed-backed memory storage manager

    src/backend/storage/smgr/memsmgr.c.  Relation forks live in memory over a
    read-only seed image: a fork table says whether a fork exists, whether it
    comes from the seed ([on_disk]) and how many blocks it has, a page table
    says which blocks have been read or written, and where in one shared page
    arena their contents are.

    Every operation is a state transformer of [MemState]; an [ereport] leaves
    the state as it was when the error was raised.  A pointer to a table entry
    is the entry's key: reading through the pointer is a lookup, writing
    through it an update of the table. *)

From Stdlib Require Import ZArith Lia Strings.Byte.
From stdpp Require Import base tactics numbers list gmap strings pretty.
From S2P Require Import Prelude HashFn RelPath.

Local Open Scope Z_scope.
Local Open Scope pg_scope.

Definition MEMSMGR_SHARED_MAX_FORKS : Z := 8192.
Definition MEMSMGR_SHARED_MAX_PAGES : Z := 262144.
Definition MEMSMGR_SHARED_PARTITIONS : Z := 32.
Definition MEMSMGR_SHARED_FORKS_PER_PARTITION : Z :=
  (MEMSMGR_SHARED_MAX_FORKS + MEMSMGR_SHARED_PARTITIONS - 1) / MEMSMGR_SHARED_PARTITIONS.
Definition MEMSMGR_SHARED_PAGES_PER_PARTITION : Z :=
  (MEMSMGR_SHARED_MAX_PAGES + MEMSMGR_SHARED_PARTITIONS - 1) / MEMSMGR_SHARED_PARTITIONS.
Definition MEMSMGR_MAX_COMBINE : Z := 32.

Abbreviation BlockNumber := Z (only parsing).
Abbreviation Block := (list byte) (only parsing).

Record MemSmgrForkKey : Type := {
  fk_rlocator : RelFileLocatorBackend;
  fk_forknum : ForkNumber;
}.

Record MemSmgrPageKey : Type := {
  pk_rlocator : RelFileLocatorBackend;
  pk_forknum : ForkNumber;
  pk_blocknum : BlockNumber;
}.

Record MemSmgrForkEntry : Type := {
  exists_ : bool;
  on_disk : bool;
  nblocks : BlockNumber;
}.

(** The payload of a page entry is its index into the arena. *)
Abbreviation page_index := Z (only parsing).

#[global] Instance MemSmgrForkKey_eq_dec : EqDecision MemSmgrForkKey.
Proof. solve_decision. Defined.
#[global] Instance MemSmgrPageKey_eq_dec : EqDecision MemSmgrPageKey.
Proof. solve_decision. Defined.
#[global] Instance MemSmgrForkKey_countable : Countable MemSmgrForkKey.
Proof.
  refine (inj_countable' (λ k, (fk_rlocator k, fk_forknum k))
    (λ t, {| fk_rlocator := t.1; fk_forknum := t.2 |}) _).
  by intros [].
Defined.
#[global] Instance MemSmgrPageKey_countable : Countable MemSmgrPageKey.
Proof.
  refine (inj_countable' (λ k, (pk_rlocator k, pk_forknum k, pk_blocknum k))
    (λ t, {| pk_rlocator := t.1.1; pk_forknum := t.1.2; pk_blocknum := t.2 |}) _).
  by intros [].
Defined.

(** Which hash table: one of the shared partitions, or the local table of a
    backend (MemSmgrForkHashes[p] / LocalForkHash, and the same for pages). *)
Inductive table_id : Type :=
| SharedPartition (p : Z)
| LocalTable (b : Z).

#[global] Instance table_id_eq_dec : EqDecision table_id.
Proof. solve_decision. Defined.
#[global] Instance table_id_countable : Countable table_id.
Proof.
  refine (inj_countable' (λ t, match t with SharedPartition p => inl p | LocalTable b => inr b end)
    (λ s, match s with inl p => SharedPartition p | inr b => LocalTable b end) _).
  by intros [].
Defined.

(** ** What the storage manager runs on *)

(** [stat(path)]: a size, ENOENT, or another errno. *)
Inductive stat_result : Type :=
| StatOk (st_size : Z)
| StatENOENT
| StatError.

(** The page store md.c keeps in files, as far as memsmgr.c calls it.  Its
    state is [D]; every operation may change it and may raise. *)
Class MdSmgr (D : Type) : Type := {
  mdopen : RelFileLocatorBackend → M D unit;
  mdclose : RelFileLocatorBackend → ForkNumber → M D unit;
  mdcreate : RelFileLocatorBackend → ForkNumber → bool → M D unit;
  mdexists : RelFileLocatorBackend → ForkNumber → M D bool;
  mdunlink : RelFileLocatorBackend → ForkNumber → bool → M D unit;
  mdextend : RelFileLocatorBackend → ForkNumber → BlockNumber → Block → bool → M D unit;
  mdzeroextend : RelFileLocatorBackend → ForkNumber → BlockNumber → Z → bool → M D unit;
  mdprefetch : RelFileLocatorBackend → ForkNumber → BlockNumber → Z → M D bool;
  mdmaxcombine : RelFileLocatorBackend → ForkNumber → BlockNumber → M D Z;
  mdreadv : RelFileLocatorBackend → ForkNumber → BlockNumber → Z → M D (list Block);
  mdwritev : RelFileLocatorBackend → ForkNumber → BlockNumber → list Block → bool → M D unit;
  mdnblocks : RelFileLocatorBackend → ForkNumber → M D BlockNumber;
  mdtruncate : RelFileLocatorBackend → ForkNumber → BlockNumber → BlockNumber → M D unit;
  mdwriteback : RelFileLocatorBackend → ForkNumber → BlockNumber → BlockNumber → M D unit;
  mdimmedsync : RelFileLocatorBackend → ForkNumber → M D unit;
  mdregistersync : RelFileLocatorBackend → ForkNumber → M D unit;
  mdfd : RelFileLocatorBackend → ForkNumber → BlockNumber → M D (Z * Z);
}.

(** The process environment, the file system that holds the seed image, the
    build's constants, and who is running. *)
Class Env : Type := {
  BLCKSZ : Z;
  RELSEG_SIZE : Z;
  version_dir : string;
  getenv : string → option string;
  fs_stat : string → stat_result;
  (** [FileRead(PathNameOpenFile(path), BLCKSZ bytes at offset)]: [None] if the
      file cannot be opened or read, else the bytes read. *)
  fs_read : string → Z → option (list byte);
  IsUnderPostmaster : bool;
  MyBackend : Z;
  (** What a freshly entered page entry contains before it is filled in. *)
  uninit_page_index : Z;
}.

Record MemState (D : Type) : Type := {
  (** MemSmgrState != NULL and its page_data != NULL *)
  initialized : bool;
  next_page : Z;
  page_data : gmap Z Block;
  fork_hashes : gmap table_id (gmap MemSmgrForkKey MemSmgrForkEntry);
  page_hashes : gmap table_id (gmap MemSmgrPageKey page_index);
  held_lwlocks : gset Z;
  disk : D;
}.
Arguments Build_MemState {D}.
Arguments initialized {D} _.
Arguments next_page {D} _.
Arguments page_data {D} _.
Arguments fork_hashes {D} _.
Arguments page_hashes {D} _.
Arguments held_lwlocks {D} _.
Arguments disk {D} _.

Section memsmgr.
Context {env : Env} {D : Type} {md : MdSmgr D}.
Abbreviation MM := (M (MemState D)).
Implicit Types (s : MemState D) (r : RelFileLocatorBackend) (f : ForkNumber).

(** *** Field updates *)

Definition set_next_page n s : MemState D :=
  Build_MemState (initialized s) n (page_data s) (fork_hashes s) (page_hashes s) (held_lwlocks s) (disk s).
Definition set_page_data d s : MemState D :=
  Build_MemState (initialized s) (next_page s) d (fork_hashes s) (page_hashes s) (held_lwlocks s) (disk s).
Definition set_fork_hashes h s : MemState D :=
  Build_MemState (initialized s) (next_page s) (page_data s) h (page_hashes s) (held_lwlocks s) (disk s).
Definition set_page_hashes h s : MemState D :=
  Build_MemState (initialized s) (next_page s) (page_data s) (fork_hashes s) h (held_lwlocks s) (disk s).
Definition set_held h s : MemState D :=
  Build_MemState (initialized s) (next_page s) (page_data s) (fork_hashes s) (page_hashes s) h (disk s).
Definition set_disk d s : MemState D :=
  Build_MemState (initialized s) (next_page s) (page_data s) (fork_hashes s) (page_hashes s) (held_lwlocks s) d.

(** Calling md.c. *)
Definition on_md {A} (m : M D A) : MM A := λ s,
  let '(res, d) := m (disk s) in (res, set_disk d s).

Definition zero_block : Block := repeat x00 (Z.to_nat BLCKSZ).

(** *** Startup *)

(** Shared memory is created zeroed; the arena is an anonymous mapping,
    which reads as zeroes until it is written. *)
Definition MemSmgrShmemInit : MM unit := λ s,
  if initialized s then (Ok tt, s)
  else (Ok tt, Build_MemState true 0 ∅ (fork_hashes s) (page_hashes s) (held_lwlocks s) (disk s)).

(** The backend's local tables go away with MemSmgrLocalCxt; its arena pages
    do not. *)
Definition memshutdown : MM unit := modify (λ s,
  set_page_hashes (delete (LocalTable MyBackend) (page_hashes s))
    (set_fork_hashes (delete (LocalTable MyBackend) (fork_hashes s)) s)).

(** *** Tables, locks and the seed *)

Definition mem_seed_root : option string :=
  let nonempty v := match v with Some "" => None | _ => v end in
  match nonempty (getenv "FASTPG_PGDATA_SEED") with
  | Some root => Some root
  | None => nonempty (getenv "PG_FASTFORK_SEED_DIR")
  end.

Definition mem_use_md : bool := bool_decide (mem_seed_root = None).

Definition mem_key_is_temp r : bool := RelFileLocatorBackendIsTemp r.

Definition mem_shared_partition_for r : Z :=
  let hash := hash_uint32 (relNumber (locator r)) in
  let hash := hash_combine hash (hash_uint32 (dbOid (locator r))) in
  let hash := hash_combine hash (hash_uint32 (spcOid (locator r))) in
  let hash := hash_combine hash (hash_uint32 (wrap32 (backend r))) in
  hash mod MEMSMGR_SHARED_PARTITIONS.

(** [mem_fork_hash_for] and [mem_page_hash_for] choose the same table. *)
Definition mem_hash_for r : table_id :=
  if mem_key_is_temp r then LocalTable MyBackend
  else SharedPartition (mem_shared_partition_for r).

(** [None] is the NULL lock of temporary relations. *)
Definition mem_lock_for r : MM (option Z) := λ s,
  if mem_key_is_temp r then (Ok None, s)
  else if negb (initialized s)
  then (Error ERRCODE_INTERNAL_ERROR "memory storage manager shared state is not initialized", s)
  else (Ok (Some (mem_shared_partition_for r)), s).

Definition LWLockAcquire (p : Z) : MM unit := modify (λ s, set_held ({[p]} ∪ held_lwlocks s) s).
Definition LWLockRelease (p : Z) : MM unit := modify (λ s, set_held (held_lwlocks s ∖ {[p]}) s).
Definition acquire (lock : option Z) : MM unit :=
  match lock with Some p => LWLockAcquire p | None => mret tt end.
Definition release (lock : option Z) : MM unit :=
  match lock with Some p => LWLockRelease p | None => mret tt end.

(** [lock = mem_lock_for(...); acquire; body; release].  An error in the body
    leaves the lock to the transaction's cleanup. *)
Definition with_lock {A} r (body : MM A) : MM A :=
  lock ← mem_lock_for r;
  acquire lock;;
  a ← body;
  release lock;;
  mret a.

Definition mem_seed_active_for r : bool :=
  negb (mem_key_is_temp r) && bool_decide (mem_seed_root ≠ None).

Definition mem_seed_segment_path r f (segno : BlockNumber) : string :=
  let seed_root := default "" mem_seed_root in
  let path := relpath version_dir r f in
  if 0 <? segno then seed_root +:+ "/" +:+ path +:+ "." +:+ fmt_u segno
  else seed_root +:+ "/" +:+ path.

Definition mem_seed_segment_stat r f (segno : BlockNumber) : result (option Z) :=
  match fs_stat (mem_seed_segment_path r f segno) with
  | StatOk size => Ok (Some size)
  | StatENOENT => Ok None
  | StatError => Error ERRCODE_FILE_ACCESS "could not stat fast-fork seed relation segment"
  end.

Definition mem_seed_exists r f : result bool :=
  if negb (mem_seed_active_for r) then Ok false
  else st ← mem_seed_segment_stat r f 0; mret (bool_decide (st ≠ None)).

(** [for (segno = 0;; segno++)]: one iteration per [fuel]. *)
Fixpoint mem_seed_nblocks_loop (fuel : nat) r f (segno total_blocks : BlockNumber) : result BlockNumber :=
  match fuel with
  | O => Error ERRCODE_NONTERMINATING "mem_seed_nblocks"
  | S fuel' =>
      st ← mem_seed_segment_stat r f segno;
      match st with
      | None => if segno =? 0 then Ok 0 else Ok total_blocks
      | Some st_size =>
          if negb (st_size mod BLCKSZ =? 0)
          then Error ERRCODE_DATA_CORRUPTED "fast-fork seed relation segment has partial block"
          else
            let segment_blocks := wrap32 (st_size / BLCKSZ) in
            if RELSEG_SIZE <? segment_blocks
            then Error ERRCODE_DATA_CORRUPTED "fast-fork seed relation segment is too large"
            else
              let total_blocks := total_blocks +u segment_blocks in
              if segment_blocks <? RELSEG_SIZE then Ok total_blocks
              else mem_seed_nblocks_loop fuel' r f (segno +u 1) total_blocks
      end
  end.

(** A relation has fewer than [2^32] blocks, so at most that many over
    [RELSEG_SIZE] full segments and one that ends it. *)
Definition seed_fuel : nat := Z.to_nat (2 ^ 32 / RELSEG_SIZE + 2).

Definition mem_seed_nblocks r f : result BlockNumber :=
  mem_seed_nblocks_loop seed_fuel r f 0 0.

(** What [FileRead] leaves in a buffer that held [old], and the outcome. *)
Definition mem_seed_read_block r f (blocknum : BlockNumber) (old : Block) : result unit * Block :=
  let segno := blocknum / RELSEG_SIZE in
  let segoff := blocknum mod RELSEG_SIZE in
  let offset := BLCKSZ * segoff in
  let path := mem_seed_segment_path r f segno in
  match fs_read path offset with
  | None => (Error ERRCODE_FILE_ACCESS "could not open or read fast-fork seed relation segment", old)
  | Some bytes =>
      let buffer := bytes ++ drop (length bytes) old in
      if negb (Z.of_nat (length bytes) =? BLCKSZ)
      then (Error ERRCODE_DATA_CORRUPTED "could not read block from fast-fork seed relation segment", buffer)
      else (Ok tt, buffer)
  end.

Definition mem_build_fork_key r f : MemSmgrForkKey := {| fk_rlocator := r; fk_forknum := f |}.
Definition mem_build_page_key r f (b : BlockNumber) : MemSmgrPageKey :=
  {| pk_rlocator := r; pk_forknum := f; pk_blocknum := b |}.

(** A shared table has a fixed number of elements (HASH_FIXED_SIZE); a local
    one grows. *)
Definition table_full {K V} `{Countable K} (t : table_id) (cap : Z) (h : gmap K V) : bool :=
  match t with
  | SharedPartition _ => cap <=? Z.of_nat (size h)
  | LocalTable _ => false
  end.

(** *** Fork entries *)

Definition fork_lookup r f s : option MemSmgrForkEntry :=
  tab (mem_hash_for r) (fork_hashes s) !! mem_build_fork_key r f.
Definition fork_put r f (e : MemSmgrForkEntry) s : MemState D :=
  set_fork_hashes (tab_insert (mem_hash_for r) (mem_build_fork_key r f) e (fork_hashes s)) s.
Definition fork_remove r f s : MemState D :=
  set_fork_hashes (tab_delete (mem_hash_for r) (mem_build_fork_key r f) (fork_hashes s)) s.

Definition new_fork_entry : MemSmgrForkEntry :=
  {| exists_ := false; on_disk := false; nblocks := 0 |}.

Definition mem_lookup_fork_entry r f : MM (option MemSmgrForkEntry) := gets (fork_lookup r f).

(** Reading and writing through a [MemSmgrForkEntry *]. *)
Definition fork_get r f : MM MemSmgrForkEntry :=
  gets (λ s, default new_fork_entry (fork_lookup r f s)).
Definition fork_set r f (e : MemSmgrForkEntry) : MM unit := modify (fork_put r f e).

Definition mem_create_fork_entry r f : MM unit := λ s,
  match fork_lookup r f s with
  | Some _ => (Ok tt, s)
  | None =>
      if table_full (mem_hash_for r) MEMSMGR_SHARED_FORKS_PER_PARTITION
           (tab (mem_hash_for r) (fork_hashes s))
      then (Error ERRCODE_OUT_OF_MEMORY "memory storage manager fork table is full", s)
      else (Ok tt, fork_put r f new_fork_entry s)
  end.

(** [entry->exists = true; entry->on_disk = true; entry->nblocks = count();]
    in this order: an error in the count leaves the first two set. *)
Definition fork_fill r f (count : MM BlockNumber) : MM unit :=
  e ← fork_get r f;
  fork_set r f {| exists_ := true; on_disk := true; nblocks := nblocks e |};;
  n ← count;
  fork_set r f {| exists_ := true; on_disk := true; nblocks := n |}.

(** [None] is the NULL of a lookup that may not create. *)
Definition mem_get_fork_entry r f (create : bool) : MM (option MemSmgrForkEntry) :=
  e ← mem_lookup_fork_entry r f;
  match e with
  | Some e => mret (Some e)
  | None =>
      if negb create then mret None
      else
        mem_create_fork_entry r f;;
        seeded ← (if mem_seed_active_for r then lift (mem_seed_exists r f) else mret false);
        (if seeded : bool then fork_fill r f (lift (mem_seed_nblocks r f))
         else if negb (mem_seed_active_for r) && negb (mem_key_is_temp r) then
           ex ← on_md (mdexists r f);
           if ex : bool then fork_fill r f (on_md (mdnblocks r f)) else mret tt
         else mret tt);;
        e ← fork_get r f;
        mret (Some e)
  end.

(** *** Page entries and the arena *)

Definition page_lookup r f (b : BlockNumber) s : option page_index :=
  tab (mem_hash_for r) (page_hashes s) !! mem_build_page_key r f b.
Definition page_put r f (b : BlockNumber) (i : page_index) s : MemState D :=
  set_page_hashes (tab_insert (mem_hash_for r) (mem_build_page_key r f b) i (page_hashes s)) s.

(** [mem_page_data(entry)], read and written; untouched arena memory is zero. *)
Definition arena_block (i : page_index) s : Block := default zero_block (page_data s !! i).
Definition arena_write (i : page_index) (blk : Block) : MM unit :=
  modify (λ s, set_page_data (<[i := blk]> (page_data s)) s).

Definition mem_alloc_page_index : MM page_index := λ s,
  if negb (initialized s)
  then (Error ERRCODE_INTERNAL_ERROR "memory storage manager page arena is not initialized", s)
  else
    let i := next_page s in
    let s := set_next_page (i +u 1) s in
    if MEMSMGR_SHARED_MAX_PAGES <=? i
    then (Error ERRCODE_OUT_OF_MEMORY "memory storage manager page arena is full", s)
    else (Ok i, s).

Definition mem_get_page_entry r f (b : BlockNumber) (create : bool) : MM (option page_index) := λ s,
  match page_lookup r f b s with
  | Some i => (Ok (Some i), s)
  | None =>
      if negb create then (Ok None, s)
      else if table_full (mem_hash_for r) MEMSMGR_SHARED_PAGES_PER_PARTITION
                (tab (mem_hash_for r) (page_hashes s))
      then (Error ERRCODE_OUT_OF_MEMORY "memory storage manager page table is full", s)
      else
        (* HASH_ENTER_NULL has linked the entry before it is filled in *)
        (page_index ← mem_alloc_page_index;
         modify (page_put r f b page_index);;
         arena_write page_index zero_block;;
         mret (Some page_index)) (page_put r f b uninit_page_index s)
  end.

(** The page that [mem_get_page_entry(..., true)] returns. *)
Definition mem_page_create r f (b : BlockNumber) : MM page_index :=
  p ← mem_get_page_entry r f b true;
  match p with Some i => mret i | None => mret uninit_page_index end.

Definition mem_remove_pages r f (first_block : BlockNumber) : MM unit :=
  modify (λ s, set_page_hashes
    (tab_filter (mem_hash_for r)
       (λ k, negb (RelFileLocatorBackendEquals (pk_rlocator k) r &&
                   bool_decide (pk_forknum k = f) && (first_block <=? pk_blocknum k)))
       (page_hashes s)) s).

(** *** Removing forks *)

Fixpoint memory_only_loop r (forks : list ForkNumber) (saw_entry : bool) s : bool :=
  match forks with
  | [] => saw_entry
  | f :: forks' =>
      match fork_lookup r f s with
      | None => memory_only_loop r forks' saw_entry s
      | Some e => if on_disk e then false else memory_only_loop r forks' true s
      end
  end.

Definition mem_relation_is_memory_only r : MM bool := gets (memory_only_loop r all_forks false).

(** The last branch stats the md file in the data directory. *)
Definition mem_backing_exists r f : result bool :=
  if mem_seed_active_for r then mem_seed_exists r f
  else if mem_key_is_temp r then Ok false
  else if bool_decide (mem_seed_root = None) then
    match fs_stat (relpath version_dir r f) with
    | StatOk _ => Ok true
    | StatENOENT => Ok false
    | StatError =>
        Error ERRCODE_FILE_ACCESS "could not stat memory storage manager backing relation"
    end
  else Ok false.

Definition mem_remove_memory_only_fork r f : MM unit :=
  e ← mem_lookup_fork_entry r f;
  match e with
  | None => mret tt
  | Some e =>
      (if negb (on_disk e) then modify (fork_remove r f) else mret tt);;
      if 0 <? nblocks e then mem_remove_pages r f 0 else mret tt
  end.

Definition mem_remove_fork r f : MM unit :=
  let tombstone := {| exists_ := false; on_disk := true; nblocks := 0 |} in
  e ← mem_lookup_fork_entry r f;
  match e with
  | Some e =>
      if negb (on_disk e) then
        modify (fork_remove r f);;
        if 0 <? nblocks e then mem_remove_pages r f 0 else mret tt
      else
        fork_set r f tombstone;;
        mem_remove_pages r f 0
  | None =>
      backing ← lift (mem_backing_exists r f);
      if negb backing then mret tt
      else
        full ← gets (λ s, table_full (mem_hash_for r) MEMSMGR_SHARED_FORKS_PER_PARTITION
                            (tab (mem_hash_for r) (fork_hashes s)));
        if full : bool
        then ereport ERRCODE_OUT_OF_MEMORY "memory storage manager fork table is full"
        else
          fork_set r f tombstone;;
          mem_remove_pages r f 0
  end.

(** *** Block I/O under the lock *)

(** One iteration of the read loop: the contents of block [curblock]. *)
Definition mem_read_one r f (curblock : BlockNumber) : MM Block :=
  page ← mem_get_page_entry r f curblock false;
  fork ← fork_get r f;
  match page with
  | Some i => gets (arena_block i)
  | None =>
      if on_disk fork && mem_seed_active_for r then
        i ← mem_page_create r f curblock;
        (λ s, let '(res, buffer) := mem_seed_read_block r f curblock (arena_block i s) in
              (res, set_page_data (<[i := buffer]> (page_data s)) s));;
        gets (arena_block i)
      else if on_disk fork then
        bs ← on_md (mdreadv r f curblock 1);
        mret (nth 0 bs zero_block)
      else mret zero_block
  end.

Fixpoint mem_read_loop r f (blocknum : BlockNumber) (i : Z) (n : nat) : MM (list Block) :=
  match n with
  | O => mret []
  | S n' =>
      b ← mem_read_one r f (blocknum +u i);
      bs ← mem_read_loop r f blocknum (i + 1) n';
      mret (b :: bs)
  end.

Definition mem_readv_locked r f (blocknum n : BlockNumber) : MM (list Block) :=
  fork ← mem_get_fork_entry r f true;
  match fork with
  | None => ereport ERRCODE_DATA_CORRUPTED "could not read blocks"
  | Some fork =>
      if negb (exists_ fork) || (nblocks fork <? blocknum +u n)
      then ereport ERRCODE_DATA_CORRUPTED "could not read blocks"
      else mem_read_loop r f blocknum 0 (Z.to_nat n)
  end.

(** [fork->exists = true] and [if (n > fork->nblocks) fork->nblocks = n]. *)
Definition fork_mark_exists r f : MM unit :=
  e ← fork_get r f;
  fork_set r f {| exists_ := true; on_disk := on_disk e; nblocks := nblocks e |}.
Definition fork_grow r f (n : BlockNumber) : MM unit :=
  e ← fork_get r f;
  if nblocks e <? n
  then fork_set r f {| exists_ := exists_ e; on_disk := on_disk e; nblocks := n |}
  else mret tt.

Fixpoint mem_zero_loop r f (blocknum : BlockNumber) (i : Z) (n : nat) : MM unit :=
  match n with
  | O => mret tt
  | S n' =>
      p ← mem_page_create r f (blocknum +u i);
      arena_write p zero_block;;
      mem_zero_loop r f blocknum (i + 1) n'
  end.

(** [n] is an [int]: a negative one makes no iteration. *)
Definition mem_zeroextend_locked r f (blocknum : BlockNumber) (n : Z) : MM unit :=
  mem_get_fork_entry r f true;;
  fork_mark_exists r f;;
  mem_zero_loop r f blocknum 0 (Z.to_nat n);;
  fork_grow r f (blocknum +u n).

Fixpoint mem_write_loop r f (blocknum : BlockNumber) (i : Z) (buffers : list Block) : MM unit :=
  match buffers with
  | [] => mret tt
  | buf :: buffers' =>
      p ← mem_page_create r f (blocknum +u i);
      arena_write p buf;;
      mem_write_loop r f blocknum (i + 1) buffers'
  end.

Definition mem_writev_locked r f (blocknum : BlockNumber) (buffers : list Block) : MM unit :=
  mem_get_fork_entry r f true;;
  fork_mark_exists r f;;
  fork ← fork_get r f;
  (if nblocks fork <? blocknum
   then mem_zeroextend_locked r f (nblocks fork) (to_int32 (blocknum -u nblocks fork))
   else mret tt);;
  mem_write_loop r f blocknum 0 buffers;;
  fork_grow r f (blocknum +u Z.of_nat (length buffers)).

Definition mem_nblocks_locked r f : MM BlockNumber :=
  fork ← mem_get_fork_entry r f true;
  match fork with
  | None => mret 0
  | Some fork => if negb (exists_ fork) then mret 0 else mret (nblocks fork)
  end.

(** *** The smgr interface *)

Definition memopen r : MM unit := on_md (mdopen r).
Definition memclose r f : MM unit := on_md (mdclose r f).

Definition memcreate r f (isRedo : bool) : MM unit :=
  if mem_use_md then on_md (mdcreate r f isRedo)
  else
    lock ← mem_lock_for r;
    acquire lock;;
    e ← mem_get_fork_entry r f true;
    if default false (exists_ <$> e) && negb isRedo
    then
      release lock;;
      ereport ERRCODE_DUPLICATE_FILE "memory relation fork already exists"
    else
      fork_set r f {| exists_ := true; on_disk := false; nblocks := 0 |};;
      mem_remove_pages r f 0;;
      release lock.

(** [memexists] between the acquisition and the release of the lock. *)
Definition memexists_body r f : MM bool :=
  e ← mem_lookup_fork_entry r f;
  match e with
  | Some e => mret (exists_ e)
  | None =>
      seeded ← (if mem_seed_active_for r then lift (mem_seed_exists r f) else mret false);
      if seeded : bool then
        mem_create_fork_entry r f;;
        fork_fill r f (lift (mem_seed_nblocks r f));;
        mret true
      else if negb (mem_seed_active_for r) && negb (mem_key_is_temp r) then
        ex ← on_md (mdexists r f);
        if ex : bool then
          mem_create_fork_entry r f;;
          fork_fill r f (on_md (mdnblocks r f));;
          mret true
        else mret false
      else mret false
  end.

Definition memexists r f : MM bool :=
  if mem_use_md then on_md (mdexists r f) else with_lock r (memexists_body r f).

(** InvalidForkNumber stands for all forks. *)
Definition memunlink r (f : ForkNumber) (isRedo : bool) : MM unit :=
  if negb IsUnderPostmaster && bool_decide (mem_seed_root = None)
  then on_md (mdunlink r f isRedo)
  else with_lock r (
    if bool_decide (f = InvalidForkNumber) then
      memory_only ← mem_relation_is_memory_only r;
      if memory_only : bool
      then for_each all_forks (mem_remove_memory_only_fork r)
      else for_each all_forks (mem_remove_fork r)
    else mem_remove_fork r f).

Definition memextend r f (blocknum : BlockNumber) (buffer : Block) (skipFsync : bool) : MM unit :=
  if mem_use_md then on_md (mdextend r f blocknum buffer skipFsync)
  else with_lock r (mem_writev_locked r f blocknum [buffer]).

Definition memzeroextend r f (blocknum : BlockNumber) (n : Z) (skipFsync : bool) : MM unit :=
  if mem_use_md then on_md (mdzeroextend r f blocknum n skipFsync)
  else with_lock r (mem_zeroextend_locked r f blocknum n).

Definition memprefetch r f (blocknum : BlockNumber) (n : Z) : MM bool :=
  if mem_use_md then on_md (mdprefetch r f blocknum n)
  else
    blocks ← with_lock r (mem_nblocks_locked r f);
    mret (blocknum +u n <=? blocks).

Definition memmaxcombine r f (blocknum : BlockNumber) : MM Z :=
  if mem_use_md then on_md (mdmaxcombine r f blocknum)
  else with_lock r (
    blocks ← mem_nblocks_locked r f;
    mret (if blocks <=? blocknum then 1
          else Z.min MEMSMGR_MAX_COMBINE (blocks -u blocknum))).

Definition memreadv r f (blocknum n : BlockNumber) : MM (list Block) :=
  if mem_use_md then on_md (mdreadv r f blocknum n)
  else with_lock r (mem_readv_locked r f blocknum n).

Definition memwritev r f (blocknum : BlockNumber) (buffers : list Block) (skipFsync : bool) : MM unit :=
  if mem_use_md then on_md (mdwritev r f blocknum buffers skipFsync)
  else with_lock r (mem_writev_locked r f blocknum buffers).

Definition memnblocks r f : MM BlockNumber :=
  if mem_use_md then on_md (mdnblocks r f)
  else with_lock r (mem_nblocks_locked r f).

Definition memtruncate r f (curnblk n : BlockNumber) : MM unit :=
  if mem_use_md then on_md (mdtruncate r f curnblk n)
  else with_lock r (
    mem_get_fork_entry r f true;;
    e ← fork_get r f;
    fork_set r f {| exists_ := true; on_disk := on_disk e; nblocks := n |};;
    mem_remove_pages r f n).

Definition memwriteback r f (blocknum n : BlockNumber) : MM unit :=
  if mem_use_md then on_md (mdwriteback r f blocknum n) else mret tt.

Definition memimmedsync r f : MM unit :=
  if mem_use_md then on_md (mdimmedsync r f) else mret tt.

Definition memregistersync r f : MM unit :=
  if mem_use_md then on_md (mdregistersync r f) else mret tt.

Definition memfd r f (blocknum : BlockNumber) : MM (Z * Z) :=
  if mem_use_md then on_md (mdfd r f blocknum)
  else ereport ERRCODE_FEATURE_NOT_SUPPORTED "memory storage manager does not expose file descriptors".

Definition mem_buffer_direct_enabled r : bool := negb mem_use_md && mem_key_is_temp r.

(** A direct pointer into the arena, for backend-local relations only. *)
Definition mem_buffer_direct_page r f (blocknum : BlockNumber) (create : bool) : MM (option page_index) :=
  if negb (mem_buffer_direct_enabled r) then mret None
  else
    fork ← mem_get_fork_entry r f false;
    match fork with
    | None => mret None
    | Some fork =>
        if negb (exists_ fork) || (nblocks fork <=? blocknum) then mret None
        else mem_get_page_entry r f blocknum create
    end.
End memsmgr.
