(* ===== verification/MemSmgrInv.v ===== *)
(** * MemSmgrInv: the page arena and the invariant of the memory smgr

    Facts about single steps of MemSmgr.v: what the tables look like after an
    entry is written or removed, that distinct pages never share arena space,
    and that an operation on one fork leaves every other fork alone. *)

From Stdlib Require Import ZArith Lia Strings.Byte.
From stdpp Require Import base tactics numbers list gmap strings pretty.
From S2P Require Import Prelude HashFn RelPath MemSmgr.

Local Open Scope Z_scope.
Local Open Scope pg_scope.

Section inv.
Context {env : Env} {D : Type} {md : MdSmgr D}.
Implicit Types (s : MemState D) (r : RelFileLocatorBackend) (f : ForkNumber).

(** ** Observations *)

Definition fork_at (t : table_id) (k : MemSmgrForkKey) s := tab t (fork_hashes s) !! k.
Definition page_at (t : table_id) (k : MemSmgrPageKey) s := tab t (page_hashes s) !! k.

(** The contents of a cached page. *)
Definition content_at (t : table_id) (k : MemSmgrPageKey) s : option Block :=
  (λ i, arena_block i s) <$> page_at t k s.
Definition page_content r f (b : Z) s : option Block :=
  content_at (mem_hash_for r) (mem_build_page_key r f b) s.

Lemma page_lookup_at r f b s :
  page_lookup r f b s = page_at (mem_hash_for r) (mem_build_page_key r f b) s.
Proof. done. Qed.

(** The table a key lives in is a function of the key. *)
Lemma fork_key_eq r f r' f' :
  (mem_hash_for r = mem_hash_for r' ∧ mem_build_fork_key r f = mem_build_fork_key r' f') ↔
  r = r' ∧ f = f'.
Proof. split; [intros [_ [=]]|intros [-> ->]]; done. Qed.

Lemma page_key_eq r f b b' :
  (mem_hash_for r = mem_hash_for r ∧ mem_build_page_key r f b = mem_build_page_key r f b') ↔ b' = b.
Proof. split; [intros [_ [=]]|intros ->]; done. Qed.

Lemma fork_lookup_put r f e r' f' s :
  fork_lookup r' f' (fork_put r f e s) =
    if decide (r = r' ∧ f = f') then Some e else fork_lookup r' f' s.
Proof.
  unfold fork_lookup, fork_put. simpl. rewrite tab_insert_lookup.
  apply decide_ext, fork_key_eq.
Qed.

Lemma fork_lookup_remove r f r' f' s :
  fork_lookup r' f' (fork_remove r f s) =
    if decide (r = r' ∧ f = f') then None else fork_lookup r' f' s.
Proof.
  unfold fork_lookup, fork_remove. simpl. rewrite tab_delete_lookup.
  apply decide_ext, fork_key_eq.
Qed.

(** ** Invariant of the page tables and the arena

    No two page entries, of whichever table, share an arena page; every index
    was handed out by the allocator and is inside the arena. *)
Record arena_ok s : Prop := {
  arena_inj : ∀ t1 k1 t2 k2 i,
    page_at t1 k1 s = Some i → page_at t2 k2 s = Some i → t1 = t2 ∧ k1 = k2;
  arena_bound : ∀ t k i, page_at t k s = Some i → 0 <= i < next_page s;
  arena_next : 0 <= next_page s <= MEMSMGR_SHARED_MAX_PAGES;
}.

(** Everything but the fork [(r, f)] looks the same. *)
Record same_but r f s s' : Prop := {
  sb_init : initialized s' = initialized s;
  sb_held : held_lwlocks s' = held_lwlocks s;
  sb_disk : disk s' = disk s;
  sb_fork : ∀ t k, ¬ (fk_rlocator k = r ∧ fk_forknum k = f) → fork_at t k s' = fork_at t k s;
  sb_page : ∀ t k, ¬ (pk_rlocator k = r ∧ pk_forknum k = f) → page_at t k s' = page_at t k s;
  sb_content : ∀ t k, ¬ (pk_rlocator k = r ∧ pk_forknum k = f) → content_at t k s' = content_at t k s;
}.

Lemma same_but_refl r f s : same_but r f s s.
Proof. by constructor. Qed.

Lemma same_but_trans r f s1 s2 s3 : same_but r f s1 s2 → same_but r f s2 s3 → same_but r f s1 s3.
Proof.
  intros H1 H2. constructor; [..|intros t k Hk|intros t k Hk|intros t k Hk].
  - by rewrite (sb_init _ _ _ _ H2), (sb_init _ _ _ _ H1).
  - by rewrite (sb_held _ _ _ _ H2), (sb_held _ _ _ _ H1).
  - by rewrite (sb_disk _ _ _ _ H2), (sb_disk _ _ _ _ H1).
  - by rewrite (sb_fork _ _ _ _ H2), (sb_fork _ _ _ _ H1).
  - by rewrite (sb_page _ _ _ _ H2), (sb_page _ _ _ _ H1).
  - by rewrite (sb_content _ _ _ _ H2), (sb_content _ _ _ _ H1).
Qed.

#[global] Instance same_but_preorder r f : PreOrder (same_but r f).
Proof. split; red; eauto using same_but_refl, same_but_trans. Qed.

(** *** Changing fork entries *)

Lemma arena_ok_pages s s' :
  arena_ok s → page_hashes s' = page_hashes s → next_page s' = next_page s → arena_ok s'.
Proof.
  intros [Hi Hb Hn] E1 E2. unfold page_at in *. constructor; unfold page_at; rewrite ?E1, ?E2; eauto.
Qed.

Lemma fork_at_put r f e t k s :
  fork_at t k (fork_put r f e s) =
    if decide (mem_hash_for r = t ∧ mem_build_fork_key r f = k) then Some e else fork_at t k s.
Proof. unfold fork_at, fork_put. simpl. apply tab_insert_lookup. Qed.

Lemma same_but_fork_put r f e s : same_but r f s (fork_put r f e s).
Proof.
  constructor; try done. intros t k Hk. rewrite fork_at_put.
  rewrite decide_False; [done|]. intros [_ <-]. by apply Hk.
Qed.

Lemma same_but_fork_remove r f s : same_but r f s (fork_remove r f s).
Proof.
  constructor; try done. intros t k Hk. unfold fork_at, fork_remove. simpl.
  rewrite tab_delete_lookup, decide_False; [done|]. intros [_ <-]. by apply Hk.
Qed.

(** *** Allocating a page *)

(** The state after a page entry has been entered and given a zeroed page. *)
Definition fresh_page r f (b : Z) s : MemState D :=
  Build_MemState (initialized s) (next_page s + 1) (<[next_page s := zero_block]> (page_data s))
    (fork_hashes s) (tab_insert (mem_hash_for r) (mem_build_page_key r f b) (next_page s) (page_hashes s))
    (held_lwlocks s) (disk s).

Lemma tab_insert_twice {T K V} `{Countable T} `{Countable K} (t : T) (k : K) (v w : V) m :
  tab_insert t k w (tab_insert t k v m) = tab_insert t k w m.
Proof.
  unfold tab_insert, tab. rewrite lookup_insert_eq, insert_insert_eq. simpl.
  by rewrite insert_insert_eq.
Qed.

Definition page_table_room r (n : Z) s : Prop :=
  match mem_hash_for r with
  | SharedPartition _ =>
      Z.of_nat (size (tab (mem_hash_for r) (page_hashes s))) + n <= MEMSMGR_SHARED_PAGES_PER_PARTITION
  | LocalTable _ => True
  end.

#[global] Instance page_table_room_dec r n s : Decision (page_table_room r n s).
Proof. unfold page_table_room. destruct (mem_hash_for r); apply _. Defined.

Lemma mem_page_create_hit r f b s i :
  page_lookup r f b s = Some i → mem_page_create r f b s = (Ok i, s).
Proof.
  intros H. unfold mem_page_create, mem_get_page_entry, mbind, M_bind. by rewrite H.
Qed.

Lemma table_full_room r s :
  table_full (mem_hash_for r) MEMSMGR_SHARED_PAGES_PER_PARTITION (tab (mem_hash_for r) (page_hashes s)) = false
  ↔ page_table_room r 1 s.
Proof.
  unfold table_full, page_table_room. destruct (mem_hash_for r); [|done].
  rewrite Z.leb_gt. lia.
Qed.

Lemma mem_page_create_miss r f b s :
  page_lookup r f b s = None → initialized s = true →
  0 <= next_page s < MEMSMGR_SHARED_MAX_PAGES → page_table_room r 1 s →
  mem_page_create r f b s = (Ok (next_page s), fresh_page r f b s).
Proof.
  intros Hl Hi Hn Hroom.
  unfold mem_page_create, mem_get_page_entry, mbind, M_bind. rewrite Hl. simpl.
  rewrite (proj2 (table_full_room r s)) by done.
  unfold mem_alloc_page_index. simpl. rewrite Hi. simpl.
  rewrite (proj2 (Z.leb_gt _ _)) by lia.
  unfold arena_write, modify, set_page_data, page_put, set_page_hashes, set_next_page, fresh_page. simpl.
  rewrite tab_insert_twice, ?Hi. rewrite wrap32_small by (unfold MEMSMGR_SHARED_MAX_PAGES in *; mlia). done.
Qed.

Lemma mem_page_create_ok r f b s i s' :
  arena_ok s →
  mem_page_create r f b s = (Ok i, s') →
  (page_lookup r f b s = Some i ∧ s' = s) ∨
  (page_lookup r f b s = None ∧ initialized s = true ∧ page_table_room r 1 s ∧
   0 <= next_page s < MEMSMGR_SHARED_MAX_PAGES ∧ i = next_page s ∧ s' = fresh_page r f b s).
Proof.
  intros Hok H. destruct (page_lookup r f b s) as [j|] eqn:Hl.
  { rewrite (mem_page_create_hit _ _ _ _ _ Hl) in H. left. naive_solver. }
  right.
  destruct (decide (page_table_room r 1 s ∧ initialized s = true ∧ next_page s < MEMSMGR_SHARED_MAX_PAGES))
    as [(Hroom & Hi & Hn)|Hno].
  - assert (0 <= next_page s) by apply Hok.
    rewrite mem_page_create_miss in H by done. naive_solver.
  - exfalso. revert H.
    unfold mem_page_create, mem_get_page_entry, mbind, M_bind. rewrite Hl. simpl.
    destruct (table_full _ _ _) eqn:Hf; [done|]. apply table_full_room in Hf.
    unfold mem_alloc_page_index. simpl. destruct (initialized s) eqn:Hi; [|done]. simpl.
    destruct (Z.leb_spec MEMSMGR_SHARED_MAX_PAGES (next_page s)); [done|]. tauto.
Qed.

Lemma page_at_fresh r f b t k s :
  page_at t k (fresh_page r f b s) =
    if decide (mem_hash_for r = t ∧ mem_build_page_key r f b = k) then Some (next_page s) else page_at t k s.
Proof. unfold page_at, fresh_page. simpl. apply tab_insert_lookup. Qed.

Lemma arena_ok_fresh r f b s :
  arena_ok s → next_page s < MEMSMGR_SHARED_MAX_PAGES → arena_ok (fresh_page r f b s).
Proof.
  intros [Hinj Hb Hn] Hlt. constructor.
  - intros t1 k1 t2 k2 i. rewrite !page_at_fresh.
    destruct (decide (_ ∧ _ = k1)) as [[<- <-]|N1], (decide (_ ∧ _ = k2)) as [[<- <-]|N2];
      intros E1 E2; simplify_eq; [done|..].
    + apply Hb in E2. lia.
    + apply Hb in E1. lia.
    + by eapply Hinj.
  - intros t k i. rewrite page_at_fresh. case_decide; intros E; simplify_eq; simpl.
    + lia.
    + apply Hb in E. lia.
  - simpl. lia.
Qed.

Lemma content_at_fresh r f b t k s :
  arena_ok s →
  content_at t k (fresh_page r f b s) =
    if decide (mem_hash_for r = t ∧ mem_build_page_key r f b = k) then Some zero_block else content_at t k s.
Proof.
  intros Hok. unfold content_at. rewrite page_at_fresh. case_decide.
  - simpl. unfold arena_block. simpl. by rewrite lookup_insert_eq.
  - destruct (page_at t k s) as [i|] eqn:E; [|done]. simpl.
    apply (arena_bound _ Hok) in E. unfold arena_block. simpl.
    rewrite lookup_insert_ne by lia. done.
Qed.

Lemma same_but_fresh r f b s : arena_ok s → same_but r f s (fresh_page r f b s).
Proof.
  intros Hok. constructor; try done.
  - intros t k Hk. rewrite page_at_fresh, decide_False; [done|]. intros [_ <-]. by apply Hk.
  - intros t k Hk. rewrite content_at_fresh by done. rewrite decide_False; [done|].
    intros [_ <-]. by apply Hk.
Qed.

(** *** Writing a page *)

Definition put_block (i : Z) (blk : Block) s : MemState D :=
  set_page_data (<[i := blk]> (page_data s)) s.

Lemma content_at_put i blk t k s :
  arena_ok s →
  content_at t k (put_block i blk s) =
    if decide (page_at t k s = Some i) then Some blk else content_at t k s.
Proof.
  intros Hok. unfold content_at. change (page_at t k (put_block i blk s)) with (page_at t k s).
  destruct (page_at t k s) as [j|] eqn:E; [|by rewrite decide_False].
  simpl. unfold arena_block. simpl. case_decide as Hd.
  - injection Hd as ->. by rewrite lookup_insert_eq.
  - rewrite lookup_insert_ne; [done|congruence].
Qed.

Lemma same_but_put r f b i blk s :
  arena_ok s → page_lookup r f b s = Some i → same_but r f s (put_block i blk s).
Proof.
  intros Hok Hl. constructor; try done.
  intros t k Hk. rewrite content_at_put by done. rewrite decide_False; [done|].
  intros E. destruct (arena_inj _ Hok _ _ _ _ _ E Hl) as [_ ->]. by apply Hk.
Qed.

Lemma page_content_put r f b i blk b' s :
  arena_ok s → page_lookup r f b s = Some i →
  page_content r f b' (put_block i blk s) =
    if decide (b' = b) then Some blk else page_content r f b' s.
Proof.
  intros Hok Hl. unfold page_content. rewrite content_at_put by done.
  destruct (decide (b' = b)) as [->|Hne].
  - by rewrite decide_True.
  - rewrite decide_False; [done|]. intros E.
    destruct (arena_inj _ Hok _ _ _ _ _ E Hl) as [_ [=]]. done.
Qed.

(** One iteration of a write loop: find or make the page, then fill it. *)
Definition write_page r f (b : Z) (blk : Block) : M (MemState D) unit :=
  p ← mem_page_create r f b; arena_write p blk.

(** What a loop that wrote blocks of fork [(r, f)] has done. *)
Record wrote r f (new : Z → option Block) s s' : Prop := {
  wr_arena : arena_ok s';
  wr_same : same_but r f s s';
  wr_forks : fork_hashes s' = fork_hashes s;
  wr_content : ∀ b, page_content r f b s' =
    match new b with Some blk => Some blk | None => page_content r f b s end;
}.

Lemma wrote_none r f s : arena_ok s → wrote r f (λ _, None) s s.
Proof. by constructor. Qed.

Lemma wrote_trans r f new1 new2 s1 s2 s3 :
  wrote r f new1 s1 s2 → wrote r f new2 s2 s3 →
  wrote r f (λ b, match new2 b with Some x => Some x | None => new1 b end) s1 s3.
Proof.
  intros H1 H2. constructor.
  - apply H2.
  - etrans; [apply H1|apply H2].
  - rewrite (wr_forks _ _ _ _ _ H2). apply H1.
  - intros b. rewrite (wr_content _ _ _ _ _ H2), (wr_content _ _ _ _ _ H1).
    by destruct (new2 b).
Qed.

Lemma wrote_ext r f new new' s s' :
  (∀ b, new b = new' b) → wrote r f new s s' → wrote r f new' s s'.
Proof.
  intros E H. constructor; try apply H. intros b. rewrite <- E. apply H.
Qed.

Lemma wrote_put r f b i blk s :
  arena_ok s → page_lookup r f b s = Some i →
  wrote r f (λ b', if decide (b' = b) then Some blk else None) s (put_block i blk s).
Proof.
  intros Hok Hl. constructor.
  - by eapply arena_ok_pages.
  - by eapply same_but_put.
  - done.
  - intros b'. rewrite (page_content_put _ _ b) by done. by case_decide.
Qed.

Lemma wrote_fresh r f b s :
  arena_ok s → next_page s < MEMSMGR_SHARED_MAX_PAGES →
  wrote r f (λ b', if decide (b' = b) then Some zero_block else None) s (fresh_page r f b s).
Proof.
  intros Hok Hn. constructor.
  - by apply arena_ok_fresh.
  - by apply same_but_fresh.
  - done.
  - intros b'. unfold page_content. rewrite content_at_fresh by done.
    destruct (decide (b' = b)) as [->|Hne]; [by rewrite decide_True|].
    rewrite decide_False; [done|]. intros ?%page_key_eq. done.
Qed.

Lemma mem_page_create_wrote r f b s i s' :
  arena_ok s → mem_page_create r f b s = (Ok i, s') →
  page_lookup r f b s' = Some i ∧
  (s' = s ∨ wrote r f (λ b', if decide (b' = b) then Some zero_block else None) s s').
Proof.
  intros Hok H. apply mem_page_create_ok in H as [[Hl ->]|(Hl & Hi & Hroom & Hn & -> & ->)]; [|..|done].
  - split; [done|by left].
  - split; [|right; apply wrote_fresh; [done|lia]].
    rewrite page_lookup_at, page_at_fresh. by rewrite decide_True.
Qed.

Lemma write_page_wrote r f b blk s s' :
  arena_ok s → write_page r f b blk s = (Ok tt, s') →
  wrote r f (λ b', if decide (b' = b) then Some blk else None) s s'.
Proof.
  intros Hok H. apply M_bind_ok in H as (i & s1 & Hc & Hw).
  apply mem_page_create_wrote in Hc as [Hl Hs1]; [|done].
  assert (arena_ok s1) as Hok1 by (destruct Hs1 as [->|Hs1]; [done|apply Hs1]).
  injection Hw as <-. pose proof (wrote_put r f b i blk s1 Hok1 Hl) as Hp.
  destruct Hs1 as [->|Hs1]; [done|].
  eapply wrote_ext; [|by eapply wrote_trans]. intros b'. simpl. by case_decide.
Qed.

Lemma write_page_progress r f b blk s :
  arena_ok s → initialized s = true → page_table_room r 1 s →
  next_page s < MEMSMGR_SHARED_MAX_PAGES →
  ∃ s', write_page r f b blk s = (Ok tt, s') ∧ next_page s' <= next_page s + 1 ∧
    initialized s' = true ∧
    (Z.of_nat (size (tab (mem_hash_for r) (page_hashes s'))) <=
     Z.of_nat (size (tab (mem_hash_for r) (page_hashes s))) + 1).
Proof.
  intros Hok Hi Hroom Hn. unfold write_page.
  destruct (page_lookup r f b s) as [i|] eqn:Hl.
  - exists (put_block i blk s).
    rewrite (M_bind_run _ _ _ _ _ (mem_page_create_hit _ _ _ _ _ Hl)).
    simpl. split_and!; [done|lia|done|lia].
  - assert (0 <= next_page s) by apply Hok.
    exists (put_block (next_page s) blk (fresh_page r f b s)).
    rewrite (M_bind_run _ _ _ _ _ (mem_page_create_miss _ _ _ _ Hl Hi ltac:(lia) Hroom)).
    simpl. split_and!; [done|lia|done|].
    unfold tab_insert, tab at 1. rewrite lookup_insert_eq. simpl.
    rewrite map_size_insert_None by done. lia.
Qed.
End inv.
