(* ===== verification/MemSmgrRefine.v ===== *)
(** * MemSmgrRefine: a fork of the memory smgr is a list of blocks

    The abstract contract of a storage manager (src/backend/storage/smgr/smgr.c)
    is that a relation fork is a sequence of blocks.  [fork_view] reads that
    sequence off the tables, the arena and the seed image; the theorems say
    that every operation of memsmgr.c does to the view what the contract says
    and leaves the views of all other forks alone, and that the operations
    return whenever the tables and the arena have room. *)

From Stdlib Require Import ZArith Lia Strings.Byte.
From stdpp Require Import base tactics numbers list gmap strings pretty.
From S2P Require Import Prelude HashFn RelPath MemSmgr MemSmgrInv.

Local Open Scope Z_scope.
Local Open Scope pg_scope.

(** ** The seed image as memsmgr.c sees it

    What the operations need from the seed directory: the stat and read calls
    of the seed functions succeed and tell of one fixed sequence of blocks per
    fork. *)
Class SeedImage {env : Env} : Type := {
  seed_image : RelFileLocatorBackend → ForkNumber → option (list Block);
  seed_image_root : mem_seed_root ≠ None;
  seed_image_temp : ∀ r f, mem_key_is_temp r = true → seed_image r f = None;
  seed_image_exists : ∀ r f, mem_key_is_temp r = false →
    mem_seed_exists r f = Ok (bool_decide (seed_image r f ≠ None));
  seed_image_nblocks : ∀ r f l, seed_image r f = Some l →
    mem_seed_nblocks r f = Ok (Z.of_nat (length l)) ∧ Z.of_nat (length l) < 2 ^ 32;
  seed_image_read : ∀ r f l b blk, seed_image r f = Some l → l !! b = Some blk →
    mem_seed_read_block r f (Z.of_nat b) zero_block = (Ok tt, blk);
}.

Section refine.
Context {env : Env} {D : Type} {md : MdSmgr D} {seed : SeedImage}.
Implicit Types (s : MemState D) (r : RelFileLocatorBackend) (f : ForkNumber).

(** ** The abstract state *)

(** What a block reads as when it is not cached. *)
Definition backing_block r f (disk : bool) (b : Z) : Block :=
  if disk then default zero_block (default [] (seed_image r f) !! Z.to_nat b) else zero_block.

Definition block_view r f (e : MemSmgrForkEntry) s (b : Z) : Block :=
  default (backing_block r f (on_disk e) b) (page_content r f b s).

Definition fork_view r f s : option (list Block) :=
  match fork_lookup r f s with
  | Some e => if exists_ e then Some (block_view r f e s <$> seqZ 0 (nblocks e)) else None
  | None => seed_image r f
  end.

(** Specifications of the operations on a view. *)
Definition spec_write (v : option (list Block)) (b : nat) (bufs : list Block) : list Block :=
  let l := default [] v in
  let l := l ++ replicate (b - length l) zero_block in
  take b l ++ bufs ++ drop (b + length bufs) l.
Definition spec_truncate (v : option (list Block)) (n : nat) : list Block := take n (default [] v).
Definition spec_read (l : list Block) (b n : nat) : list Block := take n (drop b l).

(** ** The invariant *)

Record fork_ok r f s : Prop := {
  fo_page : ∀ b, page_content r f b s ≠ None →
    ∃ e, fork_lookup r f s = Some e ∧ exists_ e = true ∧ 0 <= b < nblocks e;
  fo_range : ∀ e, fork_lookup r f s = Some e → is_u32 (nblocks e);
  fo_cover : ∀ e b, fork_lookup r f s = Some e → exists_ e = true → on_disk e = true →
    0 <= b < nblocks e → page_content r f b s = None →
    is_Some (default [] (seed_image r f) !! Z.to_nat b);
  fo_temp : ∀ e, fork_lookup r f s = Some e → mem_key_is_temp r = true → on_disk e = false;
  fo_absent : ∀ e, fork_lookup r f s = Some e → exists_ e = false → nblocks e = 0;
}.

Record mem_wf s : Prop := {
  wf_arena : arena_ok s;
  wf_init : initialized s = true;
  wf_fork : ∀ r f, fork_ok r f s;
}.

Lemma same_but_lookup r f s s' r' f' :
  same_but r f s s' → ¬ (r' = r ∧ f' = f) → fork_lookup r' f' s' = fork_lookup r' f' s.
Proof. intros H Hne. by apply (sb_fork _ _ _ _ H). Qed.

Lemma same_but_content r f s s' r' f' b :
  same_but r f s s' → ¬ (r' = r ∧ f' = f) → page_content r' f' b s' = page_content r' f' b s.
Proof. intros H Hne. by apply (sb_content _ _ _ _ H). Qed.

(** Two states that agree on a fork's entry and its cached pages agree on
    everything about the fork. *)
Lemma fork_view_ext r f s s' :
  fork_lookup r f s' = fork_lookup r f s →
  (∀ b, page_content r f b s' = page_content r f b s) →
  fork_view r f s' = fork_view r f s.
Proof.
  intros E1 E2. unfold fork_view. rewrite E1.
  destruct (fork_lookup r f s) as [e|]; [|done]. destruct (exists_ e); [|done].
  f_equal. apply list_fmap_ext. intros ? b _. unfold block_view. by rewrite E2.
Qed.

Lemma fork_ok_ext r f s s' :
  fork_lookup r f s' = fork_lookup r f s →
  (∀ b, page_content r f b s' = page_content r f b s) →
  fork_ok r f s → fork_ok r f s'.
Proof.
  intros E1 E2 [H1 H2 H3 H4 H5].
  constructor; setoid_rewrite E1; try setoid_rewrite E2; done.
Qed.

Lemma mem_wf_update r f s s' :
  mem_wf s → same_but r f s s' → arena_ok s' → fork_ok r f s' → mem_wf s'.
Proof.
  intros Hwf Hsb Hok Hf. constructor; [done|rewrite (sb_init _ _ _ _ Hsb); apply Hwf|].
  intros r' f'. destruct (decide (r' = r ∧ f' = f)) as [[-> ->]|Hne]; [done|].
  eapply fork_ok_ext; [by eapply same_but_lookup|intros b; by eapply same_but_content|apply Hwf].
Qed.

(** The outcome of an operation on fork [(r, f)]: the fork's view is [v], the
    views of the other forks and the locks are as before. *)
Record updates r f (v : option (list Block)) s s' : Prop := {
  up_wf : mem_wf s';
  up_view : fork_view r f s' = v;
  up_frame : ∀ r' f', ¬ (r' = r ∧ f' = f) → fork_view r' f' s' = fork_view r' f' s;
  up_held : held_lwlocks s' = held_lwlocks s;
}.

Lemma same_but_view r f s s' r' f' :
  same_but r f s s' → ¬ (r' = r ∧ f' = f) → fork_view r' f' s' = fork_view r' f' s.
Proof.
  intros H Hne. apply fork_view_ext; [by eapply same_but_lookup|intros b; by eapply same_but_content].
Qed.

Lemma updates_intro r f v s s' :
  mem_wf s → same_but r f s s' → arena_ok s' → fork_ok r f s' → fork_view r f s' = v →
  updates r f v s s'.
Proof.
  intros. constructor; [by eapply mem_wf_update|done| |by eapply sb_held].
  intros r' f' Hne. by eapply same_but_view.
Qed.

Lemma updates_trans r f v1 v2 s1 s2 s3 :
  updates r f v1 s1 s2 → updates r f v2 s2 s3 → updates r f v2 s1 s3.
Proof.
  intros H1 H2. constructor; [apply H2|apply H2| |].
  - intros r' f' Hne. rewrite (up_frame _ _ _ _ _ H2) by done. by apply (up_frame _ _ _ _ _ H1).
  - rewrite (up_held _ _ _ _ _ H2). apply H1.
Qed.

(** *** Locks *)

Lemma seed_mode : mem_use_md = false.
Proof. unfold mem_use_md. apply bool_decide_eq_false, seed_image_root. Qed.

Lemma seed_active r : mem_seed_active_for r = negb (mem_key_is_temp r).
Proof.
  unfold mem_seed_active_for. rewrite (bool_decide_eq_true_2 _ seed_image_root).
  apply andb_true_r.
Qed.

(** No lock of [r] is held by this backend. *)
Definition unlocked r s : Prop :=
  mem_key_is_temp r = true ∨ mem_shared_partition_for r ∉ held_lwlocks s.

Lemma mem_wf_held h s : mem_wf s → mem_wf (set_held h s).
Proof.
  intros [Ha Hi Hf]. constructor; [|done|].
  - by eapply arena_ok_pages.
  - intros r f. by eapply fork_ok_ext; [..|apply Hf].
Qed.

Lemma with_lock_ok {A} r (body : M (MemState D) A) s a s' :
  unlocked r s → with_lock r body s = (Ok a, s') →
  ∃ h s1, body (set_held h s) = (Ok a, s1) ∧
    (held_lwlocks s1 = h → held_lwlocks s' = held_lwlocks s) ∧ s' = set_held (held_lwlocks s') s1.
Proof.
  intros Hun H. unfold with_lock in H. minv H as lock s0 Hlock.
  unfold mem_lock_for in Hlock. destruct (mem_key_is_temp r) eqn:Ht.
  - injection Hlock as <- <-. minv H as u s0 Hacq. injection Hacq as <- <-.
    minv H as a' s1 Hbody. minv H as u' s2 Hrel. injection Hrel as <- <-. injection H as <- <-.
    exists (held_lwlocks s), s1. split_and!; [by destruct s|done|by destruct s1].
  - destruct (initialized s) eqn:Hi; [|done]. injection Hlock as <- <-.
    minv H as u s0 Hacq. injection Hacq as <- <-.
    minv H as a' s1 Hbody. minv H as u' s2 Hrel. injection Hrel as <- <-. injection H as <- <-.
    eexists _, s1. split; [exact Hbody|]. split; [|done].
    intros E. simpl. rewrite E. destruct Hun as [|Hun]; [congruence|]. clear -Hun. set_solver.
Qed.

Lemma with_lock_progress {A} r (body : M (MemState D) A) s :
  initialized s = true → (∀ h, ∃ a s1, body (set_held h s) = (Ok a, s1)) →
  ∃ a s', with_lock r body s = (Ok a, s').
Proof.
  intros Hi Hb. unfold with_lock, mem_lock_for, mbind, M_bind.
  destruct (mem_key_is_temp r); simpl.
  - destruct (Hb (held_lwlocks s)) as (a & s1 & E).
    replace (set_held (held_lwlocks s) s) with s in E by (by destruct s).
    rewrite E. by eexists _, _.
  - rewrite Hi. simpl. destruct (Hb ({[mem_shared_partition_for r]} ∪ held_lwlocks s)) as (a & s1 & E).
    rewrite E. by eexists _, _.
Qed.

(** *** Fork entries on demand *)

(** The entry the seed gives a fork that has none. *)
Definition seed_entry r f : MemSmgrForkEntry :=
  match seed_image r f with
  | Some l => {| exists_ := true; on_disk := true; nblocks := Z.of_nat (length l) |}
  | None => new_fork_entry
  end.

Definition eff_entry r f s : MemSmgrForkEntry := default (seed_entry r f) (fork_lookup r f s).

(** The state once the fork certainly has an entry. *)
Definition with_entry r f s : MemState D :=
  match fork_lookup r f s with Some _ => s | None => fork_put r f (seed_entry r f) s end.

Lemma fork_put_twice r f e e' s : fork_put r f e' (fork_put r f e s) = fork_put r f e' s.
Proof. unfold fork_put, set_fork_hashes. simpl. by rewrite tab_insert_twice. Qed.

Lemma fork_get_put r f e s : fork_get r f (fork_put r f e s) = (Ok e, fork_put r f e s).
Proof. unfold fork_get, gets. rewrite fork_lookup_put. by rewrite decide_True. Qed.

Definition fork_table_room r f s : Prop :=
  is_Some (fork_lookup r f s) ∨
  match mem_hash_for r with
  | SharedPartition _ =>
      Z.of_nat (size (tab (mem_hash_for r) (fork_hashes s))) < MEMSMGR_SHARED_FORKS_PER_PARTITION
  | LocalTable _ => True
  end.

Lemma fork_table_full r f s :
  fork_lookup r f s = None →
  table_full (mem_hash_for r) MEMSMGR_SHARED_FORKS_PER_PARTITION (tab (mem_hash_for r) (fork_hashes s)) = false
  ↔ fork_table_room r f s.
Proof.
  intros Hl. unfold table_full, fork_table_room. rewrite Hl. destruct (mem_hash_for r).
  - rewrite Z.leb_gt. split; [by right|]. intros [[? [=]]|?]; done.
  - split; [by right|done].
Qed.

Lemma fork_fill_seed r f l e s :
  seed_image r f = Some l →
  fork_fill r f (lift (mem_seed_nblocks r f)) (fork_put r f e s) =
    (Ok tt, fork_put r f {| exists_ := true; on_disk := true; nblocks := Z.of_nat (length l) |} s).
Proof.
  intros Hl. unfold fork_fill. rewrite (M_bind_run _ _ _ _ _ (fork_get_put _ _ _ _)).
  unfold mbind, M_bind, fork_set, modify, lift.
  rewrite (proj1 (seed_image_nblocks _ _ _ Hl)). by rewrite !fork_put_twice.
Qed.

(** Creating the entry on demand, in seed mode. *)
Lemma mem_get_fork_entry_run r f s :
  fork_table_room r f s →
  mem_get_fork_entry r f true s = (Ok (Some (eff_entry r f s)), with_entry r f s).
Proof.
  intros Hroom. unfold mem_get_fork_entry, mem_lookup_fork_entry, eff_entry, with_entry.
  unfold mbind at 1, M_bind at 1, gets at 1.
  destruct (fork_lookup r f s) as [e|] eqn:Hl; [done|]. simpl.
  unfold mbind at 1, M_bind at 1, mem_create_fork_entry at 1. rewrite Hl.
  rewrite (proj2 (fork_table_full r f s Hl)) by done.
  rewrite seed_active. unfold seed_entry.
  destruct (mem_key_is_temp r) eqn:Ht; simpl.
  - rewrite seed_image_temp by done. unfold mbind, M_bind, mret, M_ret. by rewrite fork_get_put.
  - unfold mbind at 1, M_bind at 1, lift at 1. rewrite seed_image_exists by done.
    destruct (seed_image r f) as [l|] eqn:Hs.
    + rewrite bool_decide_eq_true_2 by done.
      rewrite (M_bind_run _ _ _ _ _ (fork_fill_seed _ _ _ _ _ Hs)).
      unfold mbind, M_bind, mret, M_ret. by rewrite fork_get_put.
    + rewrite bool_decide_eq_false_2 by naive_solver. simpl.
      unfold mbind, M_bind, mret, M_ret. by rewrite fork_get_put.
Qed.

Lemma mem_get_fork_entry_ok r f s e s' :
  mem_get_fork_entry r f true s = (Ok e, s') →
  fork_table_room r f s ∧ e = Some (eff_entry r f s) ∧ s' = with_entry r f s.
Proof.
  intros H. destruct (fork_lookup r f s) as [e0|] eqn:Hl.
  - assert (fork_table_room r f s) as Hroom by (left; eauto).
    rewrite mem_get_fork_entry_run in H by done. naive_solver.
  - destruct (table_full (mem_hash_for r) MEMSMGR_SHARED_FORKS_PER_PARTITION
      (tab (mem_hash_for r) (fork_hashes s))) eqn:Hf.
    + unfold mem_get_fork_entry, mem_lookup_fork_entry, mem_create_fork_entry, mbind, M_bind, gets in H.
      rewrite Hl in H. simpl in H. rewrite Hl, Hf in H. done.
    + apply (fork_table_full r f s Hl) in Hf. rewrite mem_get_fork_entry_run in H by done. naive_solver.
Qed.

Lemma with_entry_lookup r f s : fork_lookup r f (with_entry r f s) = Some (eff_entry r f s).
Proof.
  unfold with_entry, eff_entry. destruct (fork_lookup r f s) eqn:E; [by rewrite E|].
  rewrite fork_lookup_put. by rewrite decide_True.
Qed.

Lemma with_entry_content r f r' f' b s : page_content r' f' b (with_entry r f s) = page_content r' f' b s.
Proof. unfold with_entry. by destruct (fork_lookup r f s). Qed.

Lemma with_entry_same r f s : same_but r f s (with_entry r f s).
Proof. unfold with_entry. destruct (fork_lookup r f s); [done|apply same_but_fork_put]. Qed.

Lemma arena_ok_fork_put r f e s : arena_ok s → arena_ok (fork_put r f e s).
Proof. intros. by eapply arena_ok_pages. Qed.

Lemma with_entry_arena r f s : arena_ok s → arena_ok (with_entry r f s).
Proof. unfold with_entry. destruct (fork_lookup r f s); [done|]. intros. by eapply arena_ok_pages. Qed.

(** The seed's entry reads as the seed's image. *)
Lemma seed_entry_view r f s :
  fork_lookup r f s = Some (seed_entry r f) → (∀ b, page_content r f b s = None) →
  fork_view r f s = seed_image r f.
Proof.
  intros Hl Hc. unfold fork_view. rewrite Hl. unfold seed_entry.
  destruct (seed_image r f) as [l|] eqn:Hs; [|done]. simpl. f_equal.
  apply list_eq. intros i. rewrite list_lookup_fmap.
  destruct (decide (i < length l)%nat) as [Hi|Hi].
  - rewrite (lookup_seqZ_lt 0 (Z.of_nat (length l))) by lia. cbn [fmap option_fmap option_map].
    unfold block_view, backing_block. rewrite Hc, Hs. cbn [default on_disk].
    replace (Z.to_nat (0 + Z.of_nat i)) with i by lia.
    unfold id. by destruct (lookup_lt_is_Some_2 _ _ Hi) as [x ->].
  - rewrite lookup_seqZ_ge by lia. simpl. symmetry. apply lookup_ge_None. lia.
Qed.

Lemma no_entry_no_pages r f s b : mem_wf s → fork_lookup r f s = None → page_content r f b s = None.
Proof.
  intros Hwf Hl. destruct (page_content r f b s) eqn:E; [|done].
  destruct (fo_page _ _ _ (wf_fork _ Hwf r f) b) as (e & He & _); congruence.
Qed.

Lemma with_entry_updates r f s : mem_wf s → updates r f (fork_view r f s) s (with_entry r f s).
Proof.
  intros Hwf. unfold with_entry. destruct (fork_lookup r f s) as [e|] eqn:Hl; [by constructor|].
  assert (∀ b, page_content r f b s = None) as Hno by (intros; by apply no_entry_no_pages).
  set (s' := fork_put r f (seed_entry r f) s).
  assert (fork_lookup r f s' = Some (seed_entry r f)) as Hl'.
  { unfold s'. rewrite fork_lookup_put. by rewrite decide_True. }
  apply updates_intro; [done|apply same_but_fork_put|by apply arena_ok_fork_put, Hwf| |].
  - constructor; rewrite ?Hl'.
    + intros b Hb. exfalso. by apply Hb, Hno.
    + intros ? [= <-]. unfold seed_entry. destruct (seed_image r f) as [l|] eqn:Hs; [|done].
      apply seed_image_nblocks in Hs as [_ Hlen]. split; simpl; lia.
    + intros ? b [= <-] _ _ Hb _. revert Hb. unfold seed_entry.
      destruct (seed_image r f) as [l|]; simpl; [|lia]. intros Hb.
      apply lookup_lt_is_Some_2. lia.
    + intros ? [= <-] Ht. unfold seed_entry. by rewrite seed_image_temp.
    + intros ? [= <-]. unfold seed_entry. by destruct (seed_image r f).
  - rewrite (seed_entry_view r f s') by done. unfold fork_view. by rewrite Hl.
Qed.

(** *** The new state of one fork *)

(** [s'] differs from [s] in fork [(r, f)] only, whose entry is [oe] and whose
    cached pages are [pc]. *)
Record becomes r f (oe : option MemSmgrForkEntry) (pc : Z → option Block) s s' : Prop := {
  bc_arena : arena_ok s';
  bc_same : same_but r f s s';
  bc_fork : fork_lookup r f s' = oe;
  bc_page : ∀ b, page_content r f b s' = pc b;
}.

Lemma becomes_trans r f oe1 pc1 oe2 pc2 s1 s2 s3 :
  becomes r f oe1 pc1 s1 s2 → becomes r f oe2 pc2 s2 s3 → becomes r f oe2 pc2 s1 s3.
Proof.
  intros H1 H2. constructor; [apply H2|etrans; [apply H1|apply H2]|apply H2|apply H2].
Qed.

Lemma becomes_ext r f oe pc pc' s s' :
  (∀ b, pc b = pc' b) → becomes r f oe pc s s' → becomes r f oe pc' s s'.
Proof. intros E H. constructor; [apply H..|]. intros b. rewrite <- E. apply H. Qed.

Lemma becomes_entry r f s :
  arena_ok s → becomes r f (Some (eff_entry r f s)) (λ b, page_content r f b s) s (with_entry r f s).
Proof.
  intros Hok. constructor; [by apply with_entry_arena|apply with_entry_same|apply with_entry_lookup|].
  intros b. apply with_entry_content.
Qed.

Lemma becomes_put r f e s :
  arena_ok s → becomes r f (Some e) (λ b, page_content r f b s) s (fork_put r f e s).
Proof.
  intros Hok. constructor; [by apply arena_ok_fork_put|apply same_but_fork_put| |done].
  rewrite fork_lookup_put. by rewrite decide_True.
Qed.

Lemma becomes_wrote r f new s s' :
  wrote r f new s s' →
  becomes r f (fork_lookup r f s) (λ b, match new b with Some x => Some x | None => page_content r f b s end) s s'.
Proof.
  intros H. constructor; [apply H|apply H| |apply H].
  unfold fork_lookup. by rewrite (wr_forks _ _ _ _ _ H).
Qed.

(** The view a fork entry and a set of cached pages make. *)
Definition view_of r f (e : MemSmgrForkEntry) (pc : Z → option Block) : list Block :=
  (λ b, default (backing_block r f (on_disk e) b) (pc b)) <$> seqZ 0 (nblocks e).

Lemma view_of_lookup r f e pc (i : nat) :
  view_of r f e pc !! i =
    if decide (Z.of_nat i < nblocks e)
    then Some (default (backing_block r f (on_disk e) (Z.of_nat i)) (pc (Z.of_nat i))) else None.
Proof.
  unfold view_of. rewrite list_lookup_fmap. case_decide as Hi.
  - rewrite lookup_seqZ_lt by lia. by rewrite Z.add_0_l.
  - by rewrite lookup_seqZ_ge by lia.
Qed.

Lemma view_of_length r f e pc : length (view_of r f e pc) = Z.to_nat (nblocks e).
Proof. unfold view_of. by rewrite length_fmap, length_seqZ. Qed.

Lemma fork_view_becomes r f e pc s s' :
  becomes r f (Some e) pc s s' →
  fork_view r f s' = if exists_ e then Some (view_of r f e pc) else None.
Proof.
  intros H. unfold fork_view. rewrite (bc_fork _ _ _ _ _ _ H). destruct (exists_ e); [|done].
  f_equal. apply list_fmap_ext. intros ? b _. unfold block_view. by rewrite (bc_page _ _ _ _ _ _ H).
Qed.

(** The view of a fork, through the entry it has or would be given. *)
Lemma fork_view_eff r f s :
  mem_wf s →
  fork_view r f s =
    if exists_ (eff_entry r f s) then Some (view_of r f (eff_entry r f s) (λ b, page_content r f b s)) else None.
Proof.
  intros Hwf. rewrite <- (up_view _ _ _ _ _ (with_entry_updates r f s Hwf)).
  apply (fork_view_becomes _ _ _ _ s), becomes_entry, Hwf.
Qed.

Lemma eff_entry_range r f s : mem_wf s → is_u32 (nblocks (eff_entry r f s)).
Proof.
  intros Hwf. eapply (fo_range r f); [apply (with_entry_updates r f s Hwf)|apply with_entry_lookup].
Qed.

Lemma eff_page_range r f s b :
  mem_wf s → page_content r f b s ≠ None →
  exists_ (eff_entry r f s) = true ∧ 0 <= b < nblocks (eff_entry r f s).
Proof.
  intros Hwf Hb. destruct (fo_page _ _ _ (wf_fork _ Hwf r f) b Hb) as (e & He & Hex & Hr).
  unfold eff_entry. rewrite He. done.
Qed.

Lemma view_length r f s :
  mem_wf s → exists_ (eff_entry r f s) = true →
  Z.of_nat (length (default [] (fork_view r f s))) = nblocks (eff_entry r f s).
Proof.
  intros Hwf Hex. rewrite fork_view_eff, Hex by done. simpl. rewrite view_of_length.
  pose proof (eff_entry_range r f s Hwf) as Hr. unfold is_u32 in Hr. lia.
Qed.

(** A new state of a fork is well formed if its pages are inside it and every
    uncached block of a seeded fork is in the seed. *)
Lemma becomes_updates r f e pc s s' :
  mem_wf s → becomes r f (Some e) pc s s' →
  (∀ b, pc b ≠ None → exists_ e = true ∧ 0 <= b < nblocks e) →
  is_u32 (nblocks e) →
  (∀ b, exists_ e = true → on_disk e = true → 0 <= b < nblocks e → pc b = None →
    is_Some (default [] (seed_image r f) !! Z.to_nat b)) →
  (mem_key_is_temp r = true → on_disk e = false) →
  (exists_ e = false → nblocks e = 0) →
  updates r f (if exists_ e then Some (view_of r f e pc) else None) s s'.
Proof.
  intros Hwf Hb Hpages Hrange Hcover Htemp Habsent.
  apply updates_intro; [done|apply Hb|apply Hb| |by eapply fork_view_becomes].
  constructor; setoid_rewrite (bc_fork _ _ _ _ _ _ Hb); try setoid_rewrite (bc_page _ _ _ _ _ _ Hb).
  - intros b Hne. exists e. by destruct (Hpages b Hne).
  - by intros ? [= <-].
  - intros ? b [= <-]. apply Hcover.
  - intros ? [= <-]. apply Htemp.
  - intros ? [= <-]. apply Habsent.
Qed.

Lemma eff_cover r f s b :
  mem_wf s → exists_ (eff_entry r f s) = true → on_disk (eff_entry r f s) = true →
  0 <= b < nblocks (eff_entry r f s) → page_content r f b s = None →
  is_Some (default [] (seed_image r f) !! Z.to_nat b).
Proof.
  intros Hwf. pose proof (with_entry_updates r f s Hwf) as Hu.
  intros. eapply (fo_cover r f _ (wf_fork _ (up_wf _ _ _ _ _ Hu) r f));
    [apply with_entry_lookup|done..|]. by rewrite with_entry_content.
Qed.

Lemma eff_temp r f s : mem_wf s → mem_key_is_temp r = true → on_disk (eff_entry r f s) = false.
Proof.
  intros Hwf. eapply (fo_temp r f); [apply (with_entry_updates r f s Hwf)|apply with_entry_lookup].
Qed.

(** *** The loops *)

(** [bufs] laid out from block [base] on. *)
Definition laid (base : Z) (bufs : list Block) (b : Z) : option Block :=
  if decide (base <= b) then bufs !! Z.to_nat (b - base) else None.

Lemma laid_cons base buf bufs b :
  laid base (buf :: bufs) b = if decide (b = base) then Some buf else laid (base + 1) bufs b.
Proof.
  unfold laid. repeat case_decide; subst; try lia; try done.
  - by rewrite Z.sub_diag.
  - replace (Z.to_nat (b - base)) with (S (Z.to_nat (b - (base + 1)))) by lia. done.
Qed.

Lemma laid_Some base bufs b : laid base bufs b ≠ None ↔ base <= b < base + Z.of_nat (length bufs).
Proof.
  unfold laid. case_decide.
  - rewrite not_eq_None_Some, lookup_lt_is_Some. lia.
  - split; [done|lia].
Qed.

Lemma mem_write_loop_wrote r f base i bufs s s' :
  arena_ok s → 0 <= base + i → base + i + Z.of_nat (length bufs) <= 2 ^ 32 →
  mem_write_loop r f base i bufs s = (Ok tt, s') →
  wrote r f (laid (base + i) bufs) s s'.
Proof.
  revert i s. induction bufs as [|buf bufs IH]; intros i s Hok H0 Hle H.
  - injection H as <-. eapply wrote_ext; [|by apply wrote_none].
    intros b. unfold laid. by case_decide.
  - simpl in H, Hle. minv H as p s0 Hp. minv H as u s1 Hw.
    assert (write_page r f (base + i) buf s = (Ok tt, s1)) as Hwp.
    { unfold write_page. rewrite wrap32_small in Hp by (unfold is_u32; lia).
      rewrite (M_bind_run _ _ _ _ _ Hp). injection Hw as <- <-. done. }
    apply write_page_wrote in Hwp; [|done].
    apply IH in H; [|apply Hwp|lia|lia].
    eapply wrote_ext; [|by eapply wrote_trans].
    intros b. rewrite laid_cons. simpl. rewrite Z.add_assoc.
    case_decide as Hb; [|by destruct (laid _ _ b)].
    destruct (laid (base + i + 1) bufs b) eqn:E; [|done].
    assert (laid (base + i + 1) bufs b ≠ None) as Hl by congruence. apply laid_Some in Hl. lia.
Qed.

Lemma mem_zero_write_loop r f base i n s :
  mem_zero_loop r f base i n s = mem_write_loop r f base i (replicate n zero_block) s.
Proof.
  revert i s. induction n as [|n IH]; intros i s; [done|]. simpl.
  unfold mbind, M_bind. destruct (mem_page_create _ _ _ s) as [[p|c e] s1]; [|done].
  simpl. apply IH.
Qed.

Definition page_room r (n : Z) s : Prop :=
  page_table_room r n s ∧ next_page s + n <= MEMSMGR_SHARED_MAX_PAGES.

(** Between [s] and [s'] at most [n] pages were taken. *)
Definition used r (n : Z) s s' : Prop :=
  next_page s' <= next_page s + n ∧
  Z.of_nat (size (tab (mem_hash_for r) (page_hashes s'))) <=
    Z.of_nat (size (tab (mem_hash_for r) (page_hashes s))) + n.

Lemma page_room_used r m n s s' : page_room r (m + n) s → used r n s s' → page_room r m s'.
Proof.
  intros [H1 H2] [H3 H4]. split; [|lia].
  unfold page_table_room in *. destruct (mem_hash_for r); [lia|done].
Qed.

Lemma page_room_mono r m n s : n <= m → page_room r m s → page_room r n s.
Proof.
  intros Hle [H1 H2]. split; [|lia]. unfold page_table_room in *. destruct (mem_hash_for r); [lia|done].
Qed.

Lemma with_entry_room r f n s : page_room r n s → page_room r n (with_entry r f s).
Proof. unfold with_entry. by destruct (fork_lookup r f s). Qed.

Lemma mem_write_loop_progress r f base i bufs s :
  arena_ok s → initialized s = true → 0 <= base + i → base + i + Z.of_nat (length bufs) <= 2 ^ 32 →
  page_room r (Z.of_nat (length bufs)) s →
  ∃ s', mem_write_loop r f base i bufs s = (Ok tt, s') ∧ used r (Z.of_nat (length bufs)) s s'.
Proof.
  revert i s. induction bufs as [|buf bufs IH]; intros i s Hok Hi H0 Hle Hroom.
  { eexists. split; [done|]. split; simpl; lia. }
  cbn [mem_write_loop length] in *. rewrite wrap32_small by (unfold is_u32; lia).
  destruct (write_page_progress r f (base + i) buf s) as (s1 & Hw & Hn1 & Hi1 & Hsz);
    [done|done|by eapply page_room_mono; [|exact Hroom]; lia|destruct Hroom; lia|].
  pose proof (write_page_wrote _ _ _ _ _ _ Hok Hw) as Hwr.
  apply M_bind_ok in Hw as (p & s0 & Hp & Hw). rewrite (M_bind_run _ _ _ _ _ Hp).
  rewrite (M_bind_run _ _ _ _ _ Hw).
  destruct (IH (i + 1) s1) as (s' & Hrun & Hused); [apply Hwr|done|lia|lia| |].
  { eapply (page_room_used r _ 1); [|by split].
    by replace (Z.of_nat (length bufs) + 1) with (Z.of_nat (S (length bufs))) by lia. }
  exists s'. split; [done|]. destruct Hused. split; lia.
Qed.

(** *** Extending and writing *)

Lemma fork_mark_exists_run r f e s :
  fork_lookup r f s = Some e →
  fork_mark_exists r f s =
    (Ok tt, fork_put r f {| exists_ := true; on_disk := on_disk e; nblocks := nblocks e |} s).
Proof. intros Hl. unfold fork_mark_exists, mbind, M_bind, fork_get, gets. by rewrite Hl. Qed.

Lemma fork_grow_becomes r f e n s :
  arena_ok s → fork_lookup r f s = Some e →
  ∃ s', fork_grow r f n s = (Ok tt, s') ∧
    becomes r f (Some {| exists_ := exists_ e; on_disk := on_disk e; nblocks := Z.max (nblocks e) n |})
      (λ b, page_content r f b s) s s'.
Proof.
  intros Hok Hl. unfold fork_grow, mbind, M_bind, fork_get, gets. rewrite Hl. simpl.
  destruct (Z.ltb_spec (nblocks e) n) as [H|H].
  - eexists. split; [done|]. rewrite Z.max_r by lia. by apply becomes_put.
  - eexists. split; [done|]. rewrite Z.max_l by lia. constructor; try done.
    rewrite Hl. by destruct e.
Qed.

Definition extended (e : MemSmgrForkEntry) (n : Z) : MemSmgrForkEntry :=
  {| exists_ := true; on_disk := on_disk e; nblocks := Z.max (nblocks e) n |}.

Definition over (new pc : Z → option Block) (b : Z) : option Block :=
  match new b with Some x => Some x | None => pc b end.

(** The first two steps of every write: the fork has an entry that exists. *)
Lemma mark_becomes r f s s1 s2 e u :
  arena_ok s → mem_get_fork_entry r f true s = (Ok e, s1) → fork_mark_exists r f s1 = (Ok u, s2) →
  becomes r f (Some (extended (eff_entry r f s) (nblocks (eff_entry r f s)))) (λ b, page_content r f b s) s s2.
Proof.
  intros Hok Hg Hm. apply mem_get_fork_entry_ok in Hg as (_ & _ & ->).
  rewrite (fork_mark_exists_run _ _ _ _ (with_entry_lookup r f s)) in Hm. injection Hm as <- <-.
  unfold extended. rewrite Z.max_id.
  eapply becomes_trans; [by apply becomes_entry|].
  eapply becomes_ext; [|apply becomes_put, with_entry_arena; done].
  intros b. apply with_entry_content.
Qed.

Lemma write_grow_becomes r f e pc base bufs n s s1 s2 u :
  becomes r f (Some e) pc s s1 → 0 <= base → base + Z.of_nat (length bufs) < 2 ^ 32 →
  n = base + Z.of_nat (length bufs) → exists_ e = true →
  (mem_write_loop r f base 0 bufs;; fork_grow r f n) s1 = (Ok u, s2) →
  becomes r f (Some (extended e n)) (over (laid base bufs) pc) s s2.
Proof.
  intros Hb H0 Hle -> Hex H. minv H as u1 s3 Hw. destruct u1.
  apply mem_write_loop_wrote in Hw; [|apply Hb|lia|lia]. rewrite Z.add_0_r in Hw.
  apply becomes_wrote in Hw. rewrite (bc_fork _ _ _ _ _ _ Hb) in Hw.
  destruct (fork_grow_becomes r f e (base + Z.of_nat (length bufs)) s3) as (s4 & Hg & Hb4);
    [apply Hw|apply Hw|].
  rewrite Hg in H. injection H as <- <-. rewrite Hex in Hb4.
  eapply becomes_trans; [exact Hb|]. eapply becomes_trans; [exact Hw|].
  eapply becomes_ext; [|exact Hb4]. intros b. simpl. unfold over.
  rewrite (bc_page _ _ _ _ _ _ Hw). destruct (laid base bufs b); [done|]. apply Hb.
Qed.

Lemma mem_zeroextend_becomes r f base n s s' u :
  arena_ok s → 0 <= base → 0 <= n → base + n < 2 ^ 32 →
  mem_zeroextend_locked r f base n s = (Ok u, s') →
  becomes r f (Some (extended (eff_entry r f s) (base + n)))
    (over (laid base (replicate (Z.to_nat n) zero_block)) (λ b, page_content r f b s)) s s'.
Proof.
  intros Hwf H0 Hn Hle H. unfold mem_zeroextend_locked in H.
  minv H as e s1 Hg. minv H as u1 s2 Hm.
  eapply mark_becomes in Hg; [|done|exact Hm].
  rewrite wrap32_small in H by (unfold is_u32; lia).
  assert ((mem_write_loop r f base 0 (replicate (Z.to_nat n) zero_block);; fork_grow r f (base + n)) s2
    = (Ok u, s')) as H'.
  { unfold mbind, M_bind in *. by rewrite mem_zero_write_loop in H. }
  eapply write_grow_becomes in H'; [|exact Hg|lia|rewrite length_replicate; lia
    |rewrite length_replicate; lia|done].
  unfold extended in *. simpl in H'. by rewrite Z.max_id in H'.
Qed.

Lemma eff_absent r f s :
  mem_wf s → exists_ (eff_entry r f s) = false → nblocks (eff_entry r f s) = 0.
Proof.
  intros Hwf. eapply (fo_absent r f); [apply (with_entry_updates r f s Hwf)|apply with_entry_lookup].
Qed.

(** The gap a write beyond the end of the fork fills with zeroes. *)
Definition gap (e : MemSmgrForkEntry) (base : Z) : list Block :=
  replicate (Z.to_nat (base - nblocks e)) zero_block.

Lemma mem_writev_becomes r f base bufs s s' u :
  mem_wf s → 0 <= base → base + Z.of_nat (length bufs) < 2 ^ 32 →
  base - nblocks (eff_entry r f s) < 2 ^ 31 →
  mem_writev_locked r f base bufs s = (Ok u, s') →
  becomes r f (Some (extended (eff_entry r f s) (base + Z.of_nat (length bufs))))
    (over (laid base bufs) (over (laid (nblocks (eff_entry r f s)) (gap (eff_entry r f s) base))
      (λ b, page_content r f b s))) s s'.
Proof.
  intros Hwf H0 Hle Hgap H. set (e := eff_entry r f s) in *.
  pose proof (eff_entry_range r f s Hwf) as Hr. fold e in Hr. unfold is_u32 in Hr.
  unfold mem_writev_locked in H. minv H as e0 s1 Hg. minv H as u1 s2 Hm. minv H as e1 s2' Hget.
  eapply mark_becomes in Hg; [|apply Hwf|exact Hm]. fold e in Hg.
  unfold fork_get, gets in Hget. rewrite (bc_fork _ _ _ _ _ _ Hg) in Hget. injection Hget as <- <-.
  simpl in H. rewrite Z.max_id in H.
  minv H as u2 s3 Hz.
  assert (becomes r f (Some (extended e base)) (over (laid (nblocks e) (gap e base))
    (λ b, page_content r f b s)) s s3) as Hb3.
  { destruct (Z.ltb_spec (nblocks e) base) as [Hlt|Hge].
    - rewrite wrap32_small, to_int32_small in Hz by (unfold is_u32; lia).
      apply mem_zeroextend_becomes in Hz; [|apply Hg|lia..].
      unfold eff_entry in Hz. rewrite (bc_fork _ _ _ _ _ _ Hg) in Hz. simpl in Hz.
      eapply becomes_trans; [exact Hg|].
      replace (nblocks e + (base - nblocks e)) with base in Hz by lia.
      unfold extended in Hz |- *. simpl in Hz. rewrite Z.max_id in Hz.
      eapply becomes_ext; [|exact Hz]. intros b. unfold over, gap.
      by rewrite (bc_page _ _ _ _ _ _ Hg).
    - injection Hz as <- <-. unfold extended in *. rewrite Z.max_id in Hg. rewrite Z.max_l by lia.
      eapply becomes_ext; [|exact Hg]. intros b. unfold over, gap, laid.
      replace (Z.to_nat (base - nblocks e)) with 0%nat by lia.
      by case_decide. }
  rewrite wrap32_small in H by (unfold is_u32; lia).
  eapply write_grow_becomes in H; [|exact Hb3|lia|lia|done|done].
  unfold extended in *. simpl in H. rewrite <- Z.max_assoc, (Z.max_r base) in H by lia. done.
Qed.

(** *** Views after a write *)

Lemma lookup_spec_write v b bufs i :
  spec_write v b bufs !! i =
    let l := default [] v in
    if decide (i < b)%nat then (if decide (i < length l)%nat then l !! i else Some zero_block)
    else if decide (i < b + length bufs)%nat then bufs !! (i - b)%nat else l !! i.
Proof.
  unfold spec_write. set (l := default [] v). cbv zeta.
  assert (length (take b (l ++ replicate (b - length l) zero_block)) = b) as Hlen.
  { rewrite length_take, length_app, length_replicate. lia. }
  case_decide as Hib.
  - rewrite lookup_app_l by lia. rewrite lookup_take_lt by done. case_decide as Hil.
    + by rewrite lookup_app_l by lia.
    + rewrite lookup_app_r by lia. apply lookup_replicate_2. lia.
  - rewrite lookup_app_r by lia. rewrite Hlen. case_decide as Hib2.
    + by rewrite lookup_app_l by lia.
    + rewrite lookup_app_r by lia. rewrite lookup_drop.
      replace (b + length bufs + (i - b - length bufs))%nat with i by lia.
      destruct (decide (i < length l)%nat).
      * by rewrite lookup_app_l.
      * rewrite lookup_app_r by lia. rewrite lookup_ge_None_2 by (rewrite length_replicate; lia).
        by rewrite lookup_ge_None_2 by lia.
Qed.

Lemma laid_lookup base bufs (i : nat) :
  0 <= base →
  laid base bufs (Z.of_nat i) =
    if decide (i < Z.to_nat base)%nat then None else bufs !! (i - Z.to_nat base)%nat.
Proof.
  intros H. unfold laid. repeat case_decide; try lia; [|done].
  f_equal. lia.
Qed.

Lemma view_default r f s :
  mem_wf s →
  default [] (fork_view r f s) = view_of r f (eff_entry r f s) (λ b, page_content r f b s).
Proof.
  intros Hwf. rewrite fork_view_eff by done. destruct (exists_ (eff_entry r f s)) eqn:Hex; [done|].
  simpl. symmetry. apply length_zero_iff_nil. rewrite view_of_length, eff_absent; done.
Qed.

Lemma write_view r f base bufs s :
  mem_wf s → 0 <= base →
  let e := eff_entry r f s in
  view_of r f (extended e (base + Z.of_nat (length bufs)))
    (over (laid base bufs) (over (laid (nblocks e) (gap e base)) (λ b, page_content r f b s)))
  = spec_write (fork_view r f s) (Z.to_nat base) bufs.
Proof.
  intros Hwf H0 e. pose proof (eff_entry_range r f s Hwf) as Hr. unfold is_u32 in Hr. fold e in Hr.
  apply list_eq. intros i. rewrite view_of_lookup, lookup_spec_write. cbv zeta.
  rewrite view_default by done. fold e. rewrite view_of_length, view_of_lookup. simpl.
  unfold over. rewrite !laid_lookup by lia.
  destruct (decide (i < Z.to_nat base)%nat) as [Hib|Hib].
  - rewrite decide_True by lia. destruct (decide (i < Z.to_nat (nblocks e))%nat) as [Hin|Hin].
    + by rewrite decide_True by lia.
    + unfold gap. by rewrite lookup_replicate_2 by lia.
  - destruct (decide (i < Z.to_nat base + length bufs)%nat) as [Hi2|Hi2].
    + rewrite decide_True by lia.
      destruct (lookup_lt_is_Some_2 bufs (i - Z.to_nat base)) as [x Hx]; [lia|]. by rewrite Hx.
    + rewrite (lookup_ge_None_2 bufs) by lia.
      destruct (decide (Z.of_nat i < nblocks e)) as [Hin|Hin].
      * rewrite !decide_True by lia. done.
      * by rewrite decide_False by lia.
Qed.

Lemma write_updates r f base bufs s s' :
  mem_wf s → 0 <= base → base + Z.of_nat (length bufs) < 2 ^ 32 →
  let e := eff_entry r f s in
  becomes r f (Some (extended e (base + Z.of_nat (length bufs))))
    (over (laid base bufs) (over (laid (nblocks e) (gap e base)) (λ b, page_content r f b s))) s s' →
  updates r f (Some (spec_write (fork_view r f s) (Z.to_nat base) bufs)) s s'.
Proof.
  intros Hwf H0 Hle e Hb. pose proof (eff_entry_range r f s Hwf) as Hr. unfold is_u32 in Hr. fold e in Hr.
  pose proof (write_view r f base bufs s Hwf H0) as Hv. cbv zeta in Hv. fold e in Hv. rewrite <- Hv.
  apply becomes_updates in Hb; [done|done|..]; simpl.
  - intros b Hne. split; [done|]. unfold over in Hne.
    destruct (laid base bufs b) eqn:E1.
    { assert (laid base bufs b ≠ None) as Hl by congruence. apply laid_Some in Hl. lia. }
    destruct (laid (nblocks e) (gap e base) b) eqn:E2.
    { assert (laid (nblocks e) (gap e base) b ≠ None) as Hl by congruence. apply laid_Some in Hl.
      unfold gap in Hl. rewrite length_replicate in Hl. lia. }
    apply eff_page_range in Hne as [_ Hin]; [|done]. fold e in Hin. lia.
  - unfold is_u32. lia.
  - intros b _ Hd Hin Hnone. unfold over in Hnone.
    destruct (laid base bufs b) eqn:E1; [done|]. destruct (laid (nblocks e) (gap e base) b) eqn:E2; [done|].
    assert (¬ base <= b < base + Z.of_nat (length bufs)) by (rewrite <- laid_Some, E1; tauto).
    assert (¬ nblocks e <= b < nblocks e + Z.of_nat (length (gap e base))) as Hg
      by (rewrite <- laid_Some, E2; tauto).
    unfold gap in Hg. rewrite length_replicate in Hg.
    destruct (exists_ e) eqn:Hex.
    + apply (eff_cover r f s); [done..|fold e; lia|done].
    + pose proof (eff_absent r f s Hwf Hex) as Hz. fold e in Hz. lia.
  - by apply eff_temp.
  - done.
Qed.

Lemma mem_writev_updates r f base bufs s s' u :
  mem_wf s → 0 <= base → base + Z.of_nat (length bufs) < 2 ^ 32 →
  base - Z.of_nat (length (default [] (fork_view r f s))) < 2 ^ 31 →
  mem_writev_locked r f base bufs s = (Ok u, s') →
  updates r f (Some (spec_write (fork_view r f s) (Z.to_nat base) bufs)) s s'.
Proof.
  intros Hwf H0 Hle Hgap H. apply write_updates; [done..|].
  eapply mem_writev_becomes; [done..| |exact H].
  rewrite view_default, view_of_length in Hgap by done.
  pose proof (eff_entry_range r f s Hwf) as Hr. unfold is_u32 in Hr. lia.
Qed.

(** The blocks of the fork that are not cached are those of the seed image. *)
Definition from_seed r f s : bool := on_disk (eff_entry r f s).

(** A gap that is not written reads as zeroes if the fork is not of the seed. *)
Lemma gap_view r f base bufs s :
  mem_wf s → from_seed r f s = false →
  let e := extended (eff_entry r f s) (base + Z.of_nat (length bufs)) in
  view_of r f e (over (laid base bufs) (λ b, page_content r f b s)) =
  view_of r f e (over (laid base bufs) (over (laid (nblocks (eff_entry r f s)) (gap (eff_entry r f s) base))
    (λ b, page_content r f b s))).
Proof.
  intros Hwf Hd e. apply list_fmap_ext. intros i b _. unfold over. destruct (laid base bufs b); [done|].
  destruct (laid (nblocks _) _ b) as [x|] eqn:E; [|done]. assert (x = zero_block) as ->.
  { unfold laid in E. case_decide; [|done]. unfold gap in E. apply lookup_replicate in E. by destruct E. }
  assert (laid (nblocks (eff_entry r f s)) (gap (eff_entry r f s) base) b ≠ None) as Hl by congruence. apply laid_Some in Hl.
  destruct (page_content r f b s) eqn:Hp.
  - destruct (eff_page_range r f s b Hwf) as [_ ?]; [congruence|lia].
  - unfold backing_block, e. simpl. unfold from_seed in Hd. by rewrite Hd.
Qed.

Lemma unseeded_updates r f base bufs s s' :
  mem_wf s → 0 <= base → base + Z.of_nat (length bufs) < 2 ^ 32 → from_seed r f s = false →
  becomes r f (Some (extended (eff_entry r f s) (base + Z.of_nat (length bufs))))
    (over (laid base bufs) (λ b, page_content r f b s)) s s' →
  updates r f (Some (spec_write (fork_view r f s) (Z.to_nat base) bufs)) s s'.
Proof.
  intros Hwf H0 Hle Hd Hb. pose proof (eff_entry_range r f s Hwf) as Hr. unfold is_u32 in Hr.
  rewrite <- write_view, <- gap_view by done. apply becomes_updates in Hb; [done|done|..]; simpl.
  - intros b Hne. split; [done|]. unfold over in Hne. destruct (laid base bufs b) eqn:E1.
    + assert (laid base bufs b ≠ None) as Hl by congruence. apply laid_Some in Hl. lia.
    + apply eff_page_range in Hne as [_ Hin]; [|done]. lia.
  - unfold is_u32. lia.
  - intros b _ Hd'. unfold from_seed in Hd. congruence.
  - by apply eff_temp.
  - done.
Qed.

Lemma mem_zeroextend_updates r f base n s s' u :
  mem_wf s → 0 <= base → base <= Z.of_nat (length (default [] (fork_view r f s))) ∨ from_seed r f s = false →
  0 <= n → base + n < 2 ^ 32 →
  mem_zeroextend_locked r f base n s = (Ok u, s') →
  updates r f (Some (spec_write (fork_view r f s) (Z.to_nat base)
    (replicate (Z.to_nat n) zero_block))) s s'.
Proof.
  intros Hwf H0 Hb Hn Hle H. rewrite view_default, view_of_length in Hb by done.
  pose proof (eff_entry_range r f s Hwf) as Hr. unfold is_u32 in Hr.
  apply mem_zeroextend_becomes in H; [|apply Hwf|done..]. destruct Hb as [Hb|Hd].
  - apply write_updates; [done|done|rewrite length_replicate; lia|].
    rewrite length_replicate, Z2Nat.id by done.
    eapply becomes_ext; [|exact H]. intros b. unfold over.
    destruct (laid base _ b); [done|].
    unfold gap, laid. replace (Z.to_nat (base - nblocks (eff_entry r f s))) with 0%nat by lia.
    by case_decide.
  - apply unseeded_updates; [done|done|rewrite length_replicate; lia|done|].
    by rewrite length_replicate, Z2Nat.id by done.
Qed.

(** *** Removing pages *)

Lemma RelFileLocatorBackendEquals_spec r1 r2 : RelFileLocatorBackendEquals r1 r2 = bool_decide (r1 = r2).
Proof.
  unfold RelFileLocatorBackendEquals. destruct r1 as [[s1 d1 n1] b1], r2 as [[s2 d2 n2] b2]; simpl.
  destruct (Z.eqb_spec n1 n2), (Z.eqb_spec d1 d2), (Z.eqb_spec b1 b2), (Z.eqb_spec s1 s2);
    subst; simpl; symmetry; try (apply bool_decide_eq_false; congruence).
  by apply bool_decide_eq_true.
Qed.

(** The tables after [mem_remove_pages]. *)
Definition without_pages r f (first : Z) s : MemState D :=
  set_page_hashes
    (tab_filter (mem_hash_for r)
       (λ k, negb (RelFileLocatorBackendEquals (pk_rlocator k) r &&
                   bool_decide (pk_forknum k = f) && (first <=? pk_blocknum k))) (page_hashes s)) s.

Lemma page_at_without r f first t k s :
  page_at t k (without_pages r f first s) =
    if decide (mem_hash_for r = t ∧ pk_rlocator k = r ∧ pk_forknum k = f ∧ first <= pk_blocknum k)
    then None else page_at t k s.
Proof.
  unfold page_at, without_pages. simpl. rewrite tab_filter_lookup, RelFileLocatorBackendEquals_spec.
  destruct (decide (mem_hash_for r = t)) as [->|Ht]; [|by rewrite decide_False by tauto].
  repeat case_bool_decide; destruct (Z.leb_spec first (pk_blocknum k)); simpl; case_decide; try done;
    exfalso; destruct_and?; tauto || lia.
Qed.

Lemma without_pages_becomes r f first s :
  arena_ok s →
  becomes r f (fork_lookup r f s)
    (λ b, if decide (first <= b) then None else page_content r f b s) s (without_pages r f first s).
Proof.
  intros [Hinj Hbd Hn]. constructor.
  - constructor; [..|done].
    + intros t1 k1 t2 k2 i. rewrite !page_at_without. repeat case_decide; try done. apply Hinj.
    + intros t k i. rewrite !page_at_without. case_decide; [done|]. apply Hbd.
  - constructor; try done; intros t k Hk.
    + rewrite page_at_without, decide_False by tauto. done.
    + unfold content_at. rewrite page_at_without, decide_False by tauto. done.
  - done.
  - intros b. unfold page_content, content_at. rewrite page_at_without. simpl.
    repeat case_decide; try done; exfalso; tauto.
Qed.

(** *** Lifting through the lock *)

Lemma with_lock_updates {A} r f v (body : M (MemState D) A) s a s' :
  mem_wf s → unlocked r s → with_lock r body s = (Ok a, s') →
  (∀ h s1, body (set_held h s) = (Ok a, s1) → updates r f v (set_held h s) s1) →
  updates r f v s s'.
Proof.
  intros Hwf Hun H Hbody. apply with_lock_ok in H as (h & s1 & Hb & Hheld & ->); [|done].
  apply Hbody in Hb. constructor.
  - by apply mem_wf_held, Hb.
  - apply (up_view _ _ _ _ _ Hb).
  - apply (up_frame _ _ _ _ _ Hb).
  - apply Hheld, (up_held _ _ _ _ _ Hb).
Qed.

(** *** Truncation and creation *)

Lemma take_view r f e pc n :
  0 <= n <= nblocks e →
  view_of r f {| exists_ := true; on_disk := on_disk e; nblocks := n |}
    (λ b, if decide (n <= b) then None else pc b) = take (Z.to_nat n) (view_of r f e pc).
Proof.
  intros Hn. apply list_eq. intros i. rewrite view_of_lookup. simpl. case_decide as Hi.
  - rewrite (decide_False (P := n <= Z.of_nat i)) by lia.
    rewrite lookup_take_lt, view_of_lookup by lia. by rewrite decide_True by lia.
  - by rewrite lookup_take_ge by lia.
Qed.

Lemma truncate_updates r f n s s' :
  mem_wf s → 0 <= n <= Z.of_nat (length (default [] (fork_view r f s))) →
  becomes r f (Some {| exists_ := true; on_disk := on_disk (eff_entry r f s); nblocks := n |})
    (λ b, if decide (n <= b) then None else page_content r f b s) s s' →
  updates r f (Some (spec_truncate (fork_view r f s) (Z.to_nat n))) s s'.
Proof.
  intros Hwf Hn Hb. rewrite view_default, view_of_length in Hn by done.
  pose proof (eff_entry_range r f s Hwf) as Hr. unfold is_u32 in Hr.
  unfold spec_truncate. rewrite view_default, <- take_view by (done || lia).
  apply becomes_updates in Hb; [done|done|..]; simpl.
  - intros b. case_decide; [done|]. intros Hne. apply eff_page_range in Hne; [|done]. split; [done|lia].
  - unfold is_u32. lia.
  - intros b _ Hd Hin. rewrite decide_False by lia. intros Hnone.
    destruct (exists_ (eff_entry r f s)) eqn:Hex.
    + apply (eff_cover r f s); [done..|lia|done].
    + pose proof (eff_absent r f s Hwf Hex). lia.
  - by apply eff_temp.
  - done.
Qed.

Lemma memtruncate_updates r f cur n s s' u :
  mem_wf s → unlocked r s → 0 <= n <= Z.of_nat (length (default [] (fork_view r f s))) →
  memtruncate r f cur n s = (Ok u, s') →
  updates r f (Some (spec_truncate (fork_view r f s) (Z.to_nat n))) s s'.
Proof.
  intros Hwf Hun Hn H. unfold memtruncate in H. rewrite seed_mode in H.
  eapply with_lock_updates; [done|done|exact H|]. clear H. intros h s1 H.
  assert (mem_wf (set_held h s)) as Hwf' by (by apply mem_wf_held).
  apply (truncate_updates r f n (set_held h s)); [done|done|].
  revert H Hwf'. generalize (set_held h s). clear. intros s H Hwf.
  minv H as e s2 Hg. minv H as e' s2' Hget. minv H as u' s3 Hput.
  apply mem_get_fork_entry_ok in Hg as (_ & _ & ->).
  unfold fork_get, gets in Hget. rewrite with_entry_lookup in Hget. injection Hget as <- <-.
  injection Hput as <- <-. injection H as <- <-.
  eapply becomes_trans; [apply becomes_entry, Hwf|].
  eapply becomes_trans; [apply becomes_put, with_entry_arena, Hwf|].
  match goal with |- becomes _ _ _ _ ?s0 _ => pose proof (without_pages_becomes r f n s0) as Hw end.
  rewrite fork_lookup_put, decide_True in Hw by done.
  eapply becomes_ext; [|apply Hw, arena_ok_fork_put, with_entry_arena, Hwf].
  intros b. simpl. case_decide; [done|]. apply with_entry_content.
Qed.

Lemma empty_entry_updates r f s s' :
  mem_wf s →
  becomes r f (Some {| exists_ := true; on_disk := false; nblocks := 0 |}) (λ _, None) s s' →
  updates r f (Some []) s s'.
Proof.
  intros Hwf Hb. apply becomes_updates in Hb; [exact Hb|done|..]; simpl; done || lia.
Qed.

Lemma all_pages_gone r f s s' :
  arena_ok s → becomes r f (fork_lookup r f s) (λ b, if decide (0 <= b) then None else page_content r f b s) s s' →
  (∀ b, page_content r f b s ≠ None → 0 <= b) →
  becomes r f (fork_lookup r f s) (λ _, None) s s'.
Proof.
  intros Hok Hb Hnn. eapply becomes_ext; [|exact Hb]. intros b. simpl. case_decide as Hd; [done|].
  destruct (page_content r f b s) eqn:E; [|done]. exfalso. apply Hd, Hnn. congruence.
Qed.

Lemma page_nonneg r f b s : mem_wf s → page_content r f b s ≠ None → 0 <= b.
Proof. intros Hwf H. apply eff_page_range in H; [lia|done]. Qed.

(** [fork_set] followed by the removal of all the fork's pages. *)
Lemma set_and_clear r f e s s1 :
  mem_wf s → becomes r f (Some (eff_entry r f s)) (λ b, page_content r f b s) s s1 →
  becomes r f (Some e) (λ _, None) s (without_pages r f 0 (fork_put r f e s1)).
Proof.
  intros Hwf Hb. eapply becomes_trans; [exact Hb|].
  eapply becomes_trans; [apply becomes_put, Hb|].
  pose proof (without_pages_becomes r f 0 (fork_put r f e s1)) as Hw.
  assert (fork_lookup r f (fork_put r f e s1) = Some e) as Hl
    by (rewrite fork_lookup_put; by rewrite decide_True).
  rewrite <- Hl. apply all_pages_gone.
  - apply arena_ok_fork_put, Hb.
  - apply Hw, arena_ok_fork_put, Hb.
  - intros b Hne. apply (page_nonneg r f b s Hwf). rewrite <- (bc_page _ _ _ _ _ _ Hb). exact Hne.
Qed.
End refine.
