(* ===== verification/MemSmgrOps.v ===== *)
(** * MemSmgrOps: the contract of the memory smgr's operations

    The theorems about the functions memsmgr.c exports, on top of
    MemSmgrRefine.v: what each does to the view of the fork it is given, that
    it does it when the tables and the arena have room, and what its errors
    leave behind. *)

From Stdlib Require Import ZArith Lia Strings.Byte.
From stdpp Require Import base tactics numbers list gmap strings pretty.
From S2P Require Import Prelude HashFn RelPath MemSmgr MemSmgrInv MemSmgrRefine.

Local Open Scope Z_scope.
Local Open Scope pg_scope.

Section ops.
Context {env : Env} {D : Type} {md : MdSmgr D} {seed : SeedImage}.
Implicit Types (s : MemState D) (r : RelFileLocatorBackend) (f : ForkNumber).

(** ** Creation *)

Lemma memcreate_locked r f isRedo s u s' :
  memcreate r f isRedo s = (Ok u, s') →
  with_lock r (
    e ← mem_get_fork_entry r f true;
    if default false (exists_ <$> e) && negb isRedo
    then ereport ERRCODE_DUPLICATE_FILE "memory relation fork already exists"
    else fork_set r f {| exists_ := true; on_disk := false; nblocks := 0 |};; mem_remove_pages r f 0) s
  = (Ok u, s').
Proof.
  unfold memcreate, with_lock, mbind, M_bind. rewrite seed_mode.
  destruct (mem_lock_for r s) as [[lock|c e] s1]; [|done].
  destruct (acquire lock s1) as [[[]|c e] s2]; [|done].
  destruct (mem_get_fork_entry r f true s2) as [[e|c m] s3]; [|done].
  destruct (_ && _).
  - destruct (release lock s3) as [[[]|c m] s4]; done.
  - simpl. by destruct (release lock _) as [[[]|c m] s4], u.
Qed.

Lemma memcreate_updates r f isRedo s u s' :
  mem_wf s → unlocked r s → memcreate r f isRedo s = (Ok u, s') →
  (isRedo = true ∨ fork_view r f s = None) ∧ updates r f (Some []) s s'.
Proof.
  intros Hwf Hun H. apply memcreate_locked in H.
  assert (∀ h s1, mem_wf (set_held h s) → (e ← mem_get_fork_entry r f true;
    if default false (exists_ <$> e) && negb isRedo
    then ereport ERRCODE_DUPLICATE_FILE "memory relation fork already exists"
    else fork_set r f {| exists_ := true; on_disk := false; nblocks := 0 |};; mem_remove_pages r f 0)
    (set_held h s) = (Ok u, s1) →
    (isRedo = true ∨ fork_view r f s = None) ∧ updates r f (Some []) (set_held h s) s1) as Hbody.
  { intros h s1 Hwf' Hb. minv Hb as e s2 Hg. apply mem_get_fork_entry_ok in Hg as (_ & -> & ->).
    simpl in Hb. destruct (exists_ (eff_entry r f (set_held h s)) && negb isRedo) eqn:Hc; [done|].
    injection Hb as <- <-. split.
    - destruct isRedo; [by left|right]. rewrite andb_true_r in Hc.
      change (fork_view r f s) with (fork_view r f (set_held h s)). by rewrite fork_view_eff, Hc.
    - apply empty_entry_updates; [done|]. apply set_and_clear; [done|].
      apply becomes_entry, Hwf'. }
  split.
  - apply with_lock_ok in H as (h & s1 & Hb & _); [|done].
    eapply Hbody; [by apply mem_wf_held|exact Hb].
  - eapply with_lock_updates; [done|done|exact H|]. intros h s1 Hb.
    eapply Hbody; [by apply mem_wf_held|exact Hb].
Qed.

(** ** Sizes *)

Lemma mem_nblocks_updates r f s n s' :
  mem_wf s → mem_nblocks_locked r f s = (Ok n, s') →
  n = Z.of_nat (length (default [] (fork_view r f s))) ∧ updates r f (fork_view r f s) s s'.
Proof.
  intros Hwf H. minv H as e s1 Hg. apply mem_get_fork_entry_ok in Hg as (_ & -> & ->).
  pose proof (with_entry_updates r f s Hwf) as Hu.
  destruct (exists_ (eff_entry r f s)) eqn:Hex; simpl in H; injection H as <- <-; (split; [|done]).
  - by rewrite view_length.
  - by rewrite fork_view_eff, Hex by done.
Qed.

(** A lookup leaves every view alone. *)
Definition preserves s s' : Prop :=
  mem_wf s' ∧ (∀ r f, fork_view r f s' = fork_view r f s) ∧ held_lwlocks s' = held_lwlocks s.

Lemma updates_preserves r f s s' : updates r f (fork_view r f s) s s' → preserves s s'.
Proof.
  intros H. split_and!; [apply H| |apply H]. intros r' f'.
  destruct (decide (r' = r ∧ f' = f)) as [[-> ->]|Hne]; [apply H|by apply H].
Qed.

Lemma updates_refl r f s : mem_wf s → updates r f (fork_view r f s) s s.
Proof. by constructor. Qed.

Lemma memnblocks_preserves r f s n s' :
  mem_wf s → unlocked r s → memnblocks r f s = (Ok n, s') →
  n = Z.of_nat (length (default [] (fork_view r f s))) ∧ preserves s s'.
Proof.
  intros Hwf Hun H. unfold memnblocks in H. rewrite seed_mode in H. split.
  - apply with_lock_ok in H as (h & s1 & Hb & _); [|done].
    by apply mem_nblocks_updates in Hb as [-> _]; [|apply mem_wf_held].
  - apply (updates_preserves r f). eapply with_lock_updates; [done|done|exact H|].
    intros h s1 Hb. by apply mem_nblocks_updates in Hb as [_ Hb]; [|apply mem_wf_held].
Qed.

(** ** Reading *)

(** Caching a block with the contents it has does not change the view. *)
Lemma cache_updates r f e b blk s s' :
  mem_wf s → fork_lookup r f s = Some e → exists_ e = true → 0 <= b < nblocks e →
  blk = block_view r f e s b →
  wrote r f (λ b', if decide (b' = b) then Some blk else None) s s' →
  updates r f (fork_view r f s) s s'.
Proof.
  intros Hwf Hl Hex Hb Hblk Hw. apply becomes_wrote in Hw. rewrite Hl in Hw.
  assert (eff_entry r f s = e) as He by (unfold eff_entry; by rewrite Hl).
  assert (fork_view r f s = Some (view_of r f e (over (λ b', if decide (b' = b) then Some blk else None)
    (λ b, page_content r f b s)))) as ->.
  { rewrite fork_view_eff, He, Hex by done. f_equal. apply list_fmap_ext. intros _ b' _.
    unfold over. case_decide as Hd; [|done]. subst b'. simpl. by rewrite Hblk. }
  apply becomes_updates in Hw; [by rewrite Hex in Hw|done|..].
  - intros b'. case_decide; [subst; done|]. rewrite <- He. by apply eff_page_range.
  - eapply fo_range; [apply Hwf|done].
  - intros b' _ Hd Hin. case_decide; [done|]. intros Hnone.
    eapply (fo_cover r f); [apply Hwf|done..].
  - eapply fo_temp; [apply Hwf|done].
  - congruence.
Qed.

Lemma mem_read_one_updates r f e b s blk s' :
  mem_wf s → fork_lookup r f s = Some e → exists_ e = true → 0 <= b < nblocks e →
  mem_read_one r f b s = (Ok blk, s') →
  blk = block_view r f e s b ∧ updates r f (fork_view r f s) s s' ∧ fork_lookup r f s' = Some e.
Proof.
  intros Hwf Hl Hex Hb H. unfold mem_read_one in H. minv H as page s0 Hpage.
  unfold mem_get_page_entry in Hpage. minv H as e0 s0' Hget.
  assert (s0 = s ∧ page = page_lookup r f b s) as [-> ->].
  { destruct (page_lookup r f b s) as [i|]; simpl in Hpage; by injection Hpage as <- <-. }
  unfold fork_get, gets in Hget. rewrite Hl in Hget. injection Hget as <- <-.
  assert (page_content r f b s = (λ i, arena_block i s) <$> page_lookup r f b s) as Hpc by done.
  destruct (page_lookup r f b s) as [i|] eqn:Hp; simpl in Hpc.
  { injection H as <- <-. split_and!; [|by apply updates_refl|done].
    unfold block_view. by rewrite Hpc. }
  rewrite seed_active in H. destruct (on_disk e) eqn:Hd; simpl in H.
  - destruct (mem_key_is_temp r) eqn:Ht.
    { exfalso. pose proof (fo_temp _ _ _ (wf_fork _ Hwf r f) e Hl Ht). congruence. }
    simpl in H. minv H as i s1 Hc. minv H as u s2 Hr.
    destruct (fo_cover _ _ _ (wf_fork _ Hwf r f) e b Hl Hex Hd Hb Hpc) as [x Hx].
    destruct (seed_image r f) as [l|] eqn:Hs; [|done]. simpl in Hx.
    apply mem_page_create_ok in Hc as [[? _]|(_ & Hi & Hroom & Hn & -> & ->)]; [congruence| |apply Hwf].
    pose proof (seed_image_read r f l _ x Hs Hx) as Hread. rewrite Z2Nat.id in Hread by lia.
    assert (arena_block (next_page s) (fresh_page r f b s) = zero_block) as Hz
      by (unfold arena_block; simpl; by rewrite lookup_insert_eq).
    rewrite Hz, Hread in Hr. injection Hr as <- <-. injection H as <- <-.
    assert (blk_eq : block_view r f e s b = x).
    { unfold block_view, backing_block. rewrite Hpc, Hd, Hs. simpl. unfold id. by rewrite Hx. }
    split_and!.
    + rewrite blk_eq. unfold arena_block. simpl. by rewrite lookup_insert_eq.
    + eapply (cache_updates r f e b x); [done..|].
      eapply wrote_ext; [|eapply wrote_trans;
        [apply (wrote_fresh r f b s); [apply Hwf|lia]
        |apply (wrote_put r f b (next_page s) x (fresh_page r f b s))]].
      * intros b'. simpl. by case_decide.
      * apply arena_ok_fresh; [apply Hwf|lia].
      * rewrite page_lookup_at, page_at_fresh. by rewrite decide_True.
    + done.
  - injection H as <- <-. split_and!; [|by apply updates_refl|done].
    unfold block_view, backing_block. by rewrite Hpc, Hd.
Qed.

Lemma view_lookup r f e l (b : nat) s :
  fork_lookup r f s = Some e → exists_ e = true → fork_view r f s = Some l →
  (Z.of_nat b < nblocks e) → l !! b = Some (block_view r f e s (Z.of_nat b)).
Proof.
  intros Hl Hex Hv Hb. unfold fork_view in Hv. rewrite Hl, Hex in Hv. injection Hv as <-.
  rewrite list_lookup_fmap, lookup_seqZ_lt by lia. by rewrite Z.add_0_l.
Qed.

Lemma view_entry_length r f e l s :
  fork_lookup r f s = Some e → exists_ e = true → fork_view r f s = Some l →
  length l = Z.to_nat (nblocks e).
Proof.
  intros Hl Hex Hv. unfold fork_view in Hv. rewrite Hl, Hex in Hv. injection Hv as <-.
  by rewrite length_fmap, length_seqZ.
Qed.

Lemma mem_read_loop_updates r f e l base i n s bs s' :
  mem_wf s → fork_lookup r f s = Some e → exists_ e = true → fork_view r f s = Some l →
  0 <= base + i → base + i + Z.of_nat n <= nblocks e → is_u32 (nblocks e) →
  mem_read_loop r f base i n s = (Ok bs, s') →
  bs = spec_read l (Z.to_nat (base + i)) n ∧ updates r f (fork_view r f s) s s'.
Proof.
  intros Hwf Hl Hex Hv H0 Hle Hu. revert i s bs Hwf Hl Hv H0 Hle.
  induction n as [|n IH]; intros i s bs Hwf Hl Hv H0 Hle H.
  { injection H as <- <-. split; [done|by apply updates_refl]. }
  simpl in H. minv H as blk s1 H1. minv H as bs' s2 H2. injection H as <- <-.
  rewrite wrap32_small in H1 by (unfold is_u32 in *; lia).
  apply (mem_read_one_updates r f e) in H1 as (Hblk & Hup & Hl1); [|done|done|done|lia].
  apply IH in H2 as [-> Hup2]; [|apply Hup|done|by rewrite (up_view _ _ _ _ _ Hup)|lia|lia].
  split.
  - unfold spec_read. rewrite (drop_S l blk (Z.to_nat (base + i))).
    + simpl. do 3 f_equal. lia.
    + rewrite (view_lookup r f e l _ s) by (done || lia). rewrite Z2Nat.id by lia. by rewrite Hblk.
  - rewrite <- (up_view _ _ _ _ _ Hup) at 1. eapply updates_trans; [exact Hup|].
    rewrite (up_view _ _ _ _ _ Hup) in Hup2. by rewrite (up_view _ _ _ _ _ Hup).
Qed.

Lemma mem_read_one_progress r f e b s :
  mem_wf s → fork_lookup r f s = Some e → exists_ e = true → 0 <= b < nblocks e → page_room r 1 s →
  ∃ blk s', mem_read_one r f b s = (Ok blk, s') ∧ used r 1 s s'.
Proof.
  intros Hwf Hl Hex Hb [Hroom Hn]. assert (used r 1 s s) as Hrefl by (split; lia).
  unfold mem_read_one, mem_get_page_entry, fork_get, gets, mbind, M_bind.
  assert (page_content r f b s = (λ i, arena_block i s) <$> page_lookup r f b s) as Hpc by done.
  destruct (page_lookup r f b s) as [i|] eqn:Hp; simpl in Hpc |- *; rewrite ?Hl; simpl; [by eexists _, _|].
  rewrite seed_active. destruct (on_disk e) eqn:Hd; simpl; [|by eexists _, _].
  destruct (mem_key_is_temp r) eqn:Ht.
  { exfalso. pose proof (fo_temp _ _ _ (wf_fork _ Hwf r f) e Hl Ht). congruence. }
  destruct (fo_cover _ _ _ (wf_fork _ Hwf r f) e b Hl Hex Hd Hb Hpc) as [x Hx].
  destruct (seed_image r f) as [l|] eqn:Hs; [|done]. simpl in Hx.
  pose proof (seed_image_read r f l _ x Hs Hx) as Hread. rewrite Z2Nat.id in Hread by lia.
  assert (0 <= next_page s) by apply Hwf.
  simpl. rewrite mem_page_create_miss by (apply Hwf || done || lia).
  assert (arena_block (next_page s) (fresh_page r f b s) = zero_block) as ->
    by (unfold arena_block; simpl; by rewrite lookup_insert_eq).
  rewrite Hread. eexists _, _. split; [done|]. split; simpl; [lia|].
  unfold tab_insert, tab at 1. rewrite lookup_insert_eq. simpl.
  rewrite map_size_insert_None by done. lia.
Qed.

Lemma mem_read_loop_progress r f e base i n s :
  mem_wf s → fork_lookup r f s = Some e → exists_ e = true →
  0 <= base + i → base + i + Z.of_nat n <= nblocks e → is_u32 (nblocks e) → page_room r (Z.of_nat n) s →
  ∃ bs s', mem_read_loop r f base i n s = (Ok bs, s').
Proof.
  intros Hwf Hl Hex H0 Hle Hu Hroom. revert i s Hwf Hl H0 Hle Hroom.
  induction n as [|n IH]; intros i s Hwf Hl H0 Hle Hroom; [by eexists _, _|].
  simpl. rewrite wrap32_small by (unfold is_u32 in *; lia).
  destruct (mem_read_one_progress r f e (base + i) s) as (blk & s1 & H1 & Hused);
    [done..|lia|by eapply page_room_mono; [|exact Hroom]; lia|].
  pose proof H1 as H1'. apply (mem_read_one_updates r f e) in H1' as (_ & Hup & Hl1); [|done..|lia].
  destruct (IH (i + 1) s1) as (bs & s2 & H2); [apply Hup|done|lia|lia| |].
  { eapply (page_room_used r _ 1); [|exact Hused].
    by replace (Z.of_nat n + 1) with (Z.of_nat (S n)) by lia. }
  rewrite (M_bind_run _ _ _ _ _ H1), (M_bind_run _ _ _ _ _ H2). by eexists _, _.
Qed.

Lemma mem_readv_locked_run r f l base n s :
  mem_wf s → fork_view r f s = Some l → 0 <= base → 0 <= n → base + n <= Z.of_nat (length l) →
  fork_table_room r f s → page_room r n s →
  ∃ s', mem_readv_locked r f base n s = (Ok (spec_read l (Z.to_nat base) (Z.to_nat n)), s') ∧
    updates r f (fork_view r f s) s s'.
Proof.
  intros Hwf Hv H0 Hn Hle Hfr Hpr. unfold mem_readv_locked.
  pose proof (with_entry_updates r f s Hwf) as Hu. pose proof (with_entry_lookup r f s) as Hl.
  pose proof (eff_entry_range r f s Hwf) as Hr. unfold is_u32 in Hr.
  rewrite (M_bind_run _ _ _ _ _ (mem_get_fork_entry_run r f s Hfr)).
  assert (exists_ (eff_entry r f s) = true) as Hex.
  { rewrite fork_view_eff in Hv by done. by destruct (exists_ (eff_entry r f s)). }
  pose proof (view_length r f s Hwf Hex) as Hlen. rewrite Hv in Hlen. simpl in Hlen.
  rewrite Hex. simpl. rewrite wrap32_small by (unfold is_u32, id in *; lia).
  rewrite (proj2 (Z.ltb_ge _ _)) by (unfold id in *; lia).
  destruct (mem_read_loop_progress r f (eff_entry r f s) base 0 (Z.to_nat n) (with_entry r f s))
    as (bs & s' & Hrun); [apply Hu|done|done|lia|unfold id in *; lia|done| |].
  { rewrite Z2Nat.id by done. by apply with_entry_room. }
  exists s'. rewrite Hrun. apply (mem_read_loop_updates r f (eff_entry r f s) l) in Hrun as [-> Hup];
    [|apply Hu|done|done|by rewrite (up_view _ _ _ _ _ Hu)|lia|unfold id in *; lia|done].
  rewrite Z.add_0_r. split; [done|].
  rewrite (up_view _ _ _ _ _ Hu) in Hup. by eapply updates_trans.
Qed.

(** ** Writing: the operations return when there is room *)

Lemma used_refl r s : used r 0 s s.
Proof. split; lia. Qed.

Lemma used_put r f e s : used r 0 s (fork_put r f e s).
Proof. exact (used_refl r s). Qed.

Lemma fork_grow_run r f n s e :
  fork_lookup r f s = Some e → ∃ s', fork_grow r f n s = (Ok tt, s') ∧ used r 0 s s'.
Proof.
  intros Hl. unfold fork_grow, mbind, M_bind, fork_get, gets. rewrite Hl. simpl.
  destruct (nblocks e <? n); eexists; (split; [done|]); [apply used_put|apply used_refl].
Qed.

Lemma mark_run r f s :
  arena_ok s → initialized s = true → fork_table_room r f s →
  ∃ s2, (mem_get_fork_entry r f true;; fork_mark_exists r f) s = (Ok tt, s2) ∧
    becomes r f (Some (extended (eff_entry r f s) (nblocks (eff_entry r f s))))
      (λ b, page_content r f b s) s s2 ∧ used r 0 s s2.
Proof.
  intros Hok Hi Hroom. eexists.
  pose proof (mem_get_fork_entry_run r f s Hroom) as Hg.
  pose proof (fork_mark_exists_run _ _ _ _ (with_entry_lookup r f s)) as Hm.
  rewrite (M_bind_run _ _ _ _ _ Hg), Hm. split; [done|]. split; [by eapply mark_becomes|].
  unfold with_entry. destruct (fork_lookup r f s); exact (used_refl r s).
Qed.

Lemma mem_zeroextend_progress r f base n s :
  arena_ok s → initialized s = true → fork_table_room r f s →
  0 <= base → 0 <= n → base + n < 2 ^ 32 → page_room r n s →
  ∃ s', mem_zeroextend_locked r f base n s = (Ok tt, s') ∧ used r n s s'.
Proof.
  intros Hok Hi Hfr H0 Hn Hle Hpr. unfold mem_zeroextend_locked.
  destruct (mark_run r f s) as (s2 & Hm & Hb & Hu); [done..|].
  apply M_bind_ok in Hm as (e & s1 & Hg & Hm).
  rewrite (M_bind_run _ _ _ _ _ Hg), (M_bind_run _ _ _ _ _ Hm).
  destruct (mem_write_loop_progress r f base 0 (replicate (Z.to_nat n) zero_block) s2) as (s3 & Hw & Hu3);
    [apply Hb|by rewrite (sb_init _ _ _ _ (bc_same _ _ _ _ _ _ Hb))|lia|rewrite length_replicate; lia| |].
  { rewrite length_replicate, Z2Nat.id by done. eapply (page_room_used r n 0); [|exact Hu].
    by rewrite Z.add_0_r. }
  pose proof Hw as Hwr.
  apply mem_write_loop_wrote in Hwr; [|apply Hb|lia|rewrite length_replicate; lia].
  rewrite <- mem_zero_write_loop in Hw. rewrite (M_bind_run _ _ _ _ _ Hw).
  edestruct (fork_grow_run r f (base +u n) s3) as (s4 & Hg4 & Hu4).
  { unfold fork_lookup. rewrite (wr_forks _ _ _ _ _ Hwr). apply Hb. }
  exists s4. split; [done|]. rewrite length_replicate, Z2Nat.id in Hu3 by done.
  unfold used in *. lia.
Qed.

Lemma mem_writev_progress r f base bufs s :
  let e := eff_entry r f s in
  mem_wf s → fork_table_room r f s → 0 <= base → base + Z.of_nat (length bufs) < 2 ^ 32 →
  base - nblocks e < 2 ^ 31 →
  page_room r (Z.max 0 (base - nblocks e) + Z.of_nat (length bufs)) s →
  ∃ s', mem_writev_locked r f base bufs s = (Ok tt, s').
Proof.
  intros e Hwf Hfr H0 Hle Hgap Hpr. unfold mem_writev_locked.
  pose proof (eff_entry_range r f s Hwf) as Hr. unfold is_u32 in Hr. fold e in Hr.
  destruct (mark_run r f s) as (s2 & Hm & Hb & Hu); [apply Hwf|apply Hwf|done|].
  apply M_bind_ok in Hm as (e0 & s1 & Hg & Hm).
  rewrite (M_bind_run _ _ _ _ _ Hg), (M_bind_run _ _ _ _ _ Hm). fold e in Hb.
  assert (fork_get r f s2 = (Ok (extended e (nblocks e)), s2)) as Hget.
  { unfold fork_get, gets. by rewrite (bc_fork _ _ _ _ _ _ Hb). }
  rewrite (M_bind_run _ _ _ _ _ Hget). simpl. rewrite Z.max_id.
  assert (initialized s2 = true) as Hi2.
  { rewrite (sb_init _ _ _ _ (bc_same _ _ _ _ _ _ Hb)). apply Hwf. }
  assert (∃ s3 e3, (if nblocks e <? base
    then mem_zeroextend_locked r f (nblocks e) (to_int32 (base -u nblocks e)) else mret tt) s2 = (Ok tt, s3)
    ∧ used r (Z.max 0 (base - nblocks e)) s s3 ∧ arena_ok s3 ∧ initialized s3 = true ∧
    fork_lookup r f s3 = Some e3) as (s3 & e3 & Hz & Hu3 & Hok3 & Hi3 & Hl3).
  { destruct (Z.ltb_spec (nblocks e) base) as [Hlt|Hge].
    - rewrite wrap32_small, to_int32_small by (unfold is_u32; lia).
      destruct (mem_zeroextend_progress r f (nblocks e) (base - nblocks e) s2) as (s3 & Hz & Hu3);
        [apply Hb|done|left; rewrite (bc_fork _ _ _ _ _ _ Hb); eauto|lia..| |].
      { eapply (page_room_used r _ 0); [|exact Hu]. eapply page_room_mono; [|exact Hpr]. lia. }
      pose proof Hz as Hz'. apply mem_zeroextend_becomes in Hz' as Hb3; [|apply Hb|lia..].
      eexists s3, _. split; [exact Hz|]. split; [unfold used in *; lia|].
      split; [apply Hb3|]. split; [|apply Hb3].
      by rewrite (sb_init _ _ _ _ (bc_same _ _ _ _ _ _ Hb3)).
    - eexists s2, _. split; [done|]. split; [unfold used in *; lia|].
      split; [apply Hb|]. split; [done|apply Hb]. }
  rewrite (M_bind_run _ _ _ _ _ Hz).
  destruct (mem_write_loop_progress r f base 0 bufs s3) as (s4 & Hw & _); [done|done|lia|lia| |].
  { eapply (page_room_used r _ _ s s3); [|exact Hu3]. by rewrite Z.add_comm. }
  pose proof Hw as Hwr. apply mem_write_loop_wrote in Hwr; [|done|lia|lia].
  rewrite (M_bind_run _ _ _ _ _ Hw).
  edestruct (fork_grow_run r f (base +u Z.of_nat (length bufs)) s4) as (s5 & Hg5 & _).
  { unfold fork_lookup. rewrite (wr_forks _ _ _ _ _ Hwr). exact Hl3. }
  by exists s5.
Qed.

Lemma with_lock_total {A} r f v (body : M (MemState D) A) a s :
  mem_wf s → unlocked r s →
  (∀ h, mem_wf (set_held h s) → ∃ s1, body (set_held h s) = (Ok a, s1) ∧ updates r f v (set_held h s) s1) →
  ∃ s', with_lock r body s = (Ok a, s') ∧ updates r f v s s'.
Proof.
  intros Hwf Hun Hbody.
  destruct (with_lock_progress r body s) as (a' & s' & Hrun); [apply Hwf| |].
  { intros h. destruct (Hbody h) as (s1 & E & _); [by apply mem_wf_held|]. eauto. }
  assert (a' = a) as ->.
  { pose proof Hrun as Hrun'. apply with_lock_ok in Hrun' as (h & s1 & Hb & _); [|done].
    destruct (Hbody h) as (s1' & E & _); [by apply mem_wf_held|]. congruence. }
  exists s'. split; [done|]. eapply with_lock_updates; [done|done|exact Hrun|].
  intros h s1 Hb. destruct (Hbody h) as (s1' & E & Hup); [by apply mem_wf_held|]. congruence.
Qed.

(** ** The contract *)

(** Reading.  For a fork that holds the blocks [l], a read of [n] blocks
    from [base] inside the fork returns exactly those blocks of [l], whether
    they were cached, come from the seed image or were never written; and it
    changes no fork's view (the seed blocks it caches read as before). *)
Theorem memreadv_reads r f l base n s :
  mem_wf s → unlocked r s → fork_view r f s = Some l →
  0 <= base → 0 <= n → base + n <= Z.of_nat (length l) →
  fork_table_room r f s → page_room r n s →
  ∃ s', memreadv r f base n s = (Ok (spec_read l (Z.to_nat base) (Z.to_nat n)), s') ∧ preserves s s'.
Proof.
  intros Hwf Hun Hv H0 Hn Hle Hfr Hpr. unfold memreadv. rewrite seed_mode.
  destruct (with_lock_total r f (fork_view r f s) (mem_readv_locked r f base n)
    (spec_read l (Z.to_nat base) (Z.to_nat n)) s Hwf Hun) as (s' & Hrun & Hup).
  - intros h Hwf'. exact (mem_readv_locked_run r f l base n (set_held h s) Hwf' Hv H0 Hn Hle Hfr Hpr).
  - exists s'. split; [done|by eapply updates_preserves].
Qed.

(** Writing under the lock, for [memextend] and [memwritev]. *)
Lemma writev_total r f base bufs s :
  mem_wf s → unlocked r s → fork_table_room r f s →
  0 <= base → base + Z.of_nat (length bufs) < 2 ^ 32 →
  base - Z.of_nat (length (default [] (fork_view r f s))) < 2 ^ 31 →
  page_room r (Z.max 0 (base - Z.of_nat (length (default [] (fork_view r f s)))) +
               Z.of_nat (length bufs)) s →
  ∃ s', with_lock r (mem_writev_locked r f base bufs) s = (Ok tt, s') ∧
    updates r f (Some (spec_write (fork_view r f s) (Z.to_nat base) bufs)) s s'.
Proof.
  intros Hwf Hun Hfr H0 Hle Hgap Hpr.
  apply with_lock_total; [done|done|]. intros h Hwf'.
  destruct (mem_writev_progress r f base bufs (set_held h s)) as (s1 & Hrun); try done.
  - rewrite view_default, view_of_length in Hgap by done.
    pose proof (eff_entry_range r f s Hwf) as Hr. unfold is_u32 in Hr.
    change (eff_entry r f (set_held h s)) with (eff_entry r f s). lia.
  - rewrite view_default, view_of_length in Hpr by done.
    pose proof (eff_entry_range r f s Hwf) as Hr. unfold is_u32 in Hr.
    change (eff_entry r f (set_held h s)) with (eff_entry r f s).
    by rewrite Z2Nat.id in Hpr by lia.
  - exists s1. split; [done|]. by eapply (mem_writev_updates r f base bufs (set_held h s)).
Qed.

(** Writing.  A write of blocks at [base], with room for them and for the
    zeroed gap before them, gives the fork the contents a file has after a
    write at that position: the old blocks, zeroes up to [base] if the fork
    was shorter, the new blocks, and the old blocks after them; no other fork
    changes and the lock is released. *)
Theorem memwritev_writes r f base bufs skipFsync s :
  mem_wf s → unlocked r s → fork_table_room r f s →
  0 <= base → base + Z.of_nat (length bufs) < 2 ^ 32 →
  base - Z.of_nat (length (default [] (fork_view r f s))) < 2 ^ 31 →
  page_room r (Z.max 0 (base - Z.of_nat (length (default [] (fork_view r f s)))) +
               Z.of_nat (length bufs)) s →
  ∃ s', memwritev r f base bufs skipFsync s = (Ok tt, s') ∧
    updates r f (Some (spec_write (fork_view r f s) (Z.to_nat base) bufs)) s s'.
Proof. unfold memwritev. rewrite seed_mode. apply writev_total. Qed.

(** Zero-extension.  The fork then reads as the old blocks with [n] zero blocks
    written at [base]; a fork of the seed image is not extended past its end. *)
Theorem memzeroextend_extends r f base n skipFsync s :
  mem_wf s → unlocked r s → fork_table_room r f s →
  0 <= base → base <= Z.of_nat (length (default [] (fork_view r f s))) ∨ from_seed r f s = false →
  0 <= n → base + n < 2 ^ 32 → page_room r n s →
  ∃ s', memzeroextend r f base n skipFsync s = (Ok tt, s') ∧
    updates r f (Some (spec_write (fork_view r f s) (Z.to_nat base)
      (replicate (Z.to_nat n) zero_block))) s s'.
Proof.
  intros Hwf Hun Hfr H0 Hb Hn Hle Hpr. unfold memzeroextend. rewrite seed_mode.
  apply with_lock_total; [done|done|]. intros h Hwf'.
  destruct (mem_zeroextend_progress r f base n (set_held h s)) as (s1 & Hrun & _);
    [apply Hwf'|apply Hwf'|done..|].
  exists s1. split; [done|]. by eapply (mem_zeroextend_updates r f base n (set_held h s)).
Qed.

Lemma memtruncate_progress r f cur n s :
  mem_wf s → fork_table_room r f s → ∃ s', memtruncate r f cur n s = (Ok tt, s').
Proof.
  intros Hwf Hfr. unfold memtruncate. rewrite seed_mode.
  match goal with |- context [with_lock r ?b s] =>
    destruct (with_lock_progress r b s) as ([] & s' & H); [apply Hwf| |by eexists] end.
  intros h. exists tt. eexists.
  rewrite (M_bind_run _ _ _ _ _ (mem_get_fork_entry_run r f (set_held h s) Hfr)). done.
Qed.

(** Truncation to [n] blocks, not more than the fork has, keeps exactly the
    first [n]; a later extension cannot bring the cut blocks back. *)
Theorem memtruncate_truncates r f cur n s :
  mem_wf s → unlocked r s → fork_table_room r f s →
  0 <= n <= Z.of_nat (length (default [] (fork_view r f s))) →
  ∃ s', memtruncate r f cur n s = (Ok tt, s') ∧
    updates r f (Some (spec_truncate (fork_view r f s) (Z.to_nat n))) s s'.
Proof.
  intros Hwf Hun Hfr Hn. destruct (memtruncate_progress r f cur n s) as (s' & H); [done..|].
  exists s'. split; [done|by eapply memtruncate_updates].
Qed.

Lemma memcreate_run r f isRedo s :
  mem_wf s → fork_table_room r f s → isRedo = true ∨ fork_view r f s = None →
  ∃ s', memcreate r f isRedo s = (Ok tt, s').
Proof.
  intros Hwf Hfr Hc. unfold memcreate. rewrite seed_mode.
  assert (∀ h, default false (exists_ <$> Some (eff_entry r f (set_held h s))) && negb isRedo = false) as Hcond.
  { intros h. simpl. change (eff_entry r f (set_held h s)) with (eff_entry r f s).
    destruct Hc as [->|Hv]; [apply andb_false_r|]. rewrite fork_view_eff in Hv by done.
    by destruct (exists_ (eff_entry r f s)). }
  unfold mbind, M_bind, mem_lock_for. destruct (mem_key_is_temp r); simpl.
  - pose proof (mem_get_fork_entry_run r f s Hfr) as ->.
    specialize (Hcond (held_lwlocks s)).
    replace (set_held (held_lwlocks s) s) with s in Hcond by (by destruct s).
    rewrite Hcond. by eexists.
  - rewrite (wf_init _ Hwf). simpl.
    rewrite (mem_get_fork_entry_run r f (set_held _ s) Hfr). rewrite Hcond. by eexists.
Qed.

(** Creation.  Creating a fork that does not exist (or any fork, in redo)
    leaves an existing, empty fork, forgetting every page it had; creating one
    that exists is refused with DUPLICATE_FILE, with all views as before and
    the partition's lock released. *)
Theorem memcreate_creates r f isRedo s :
  mem_wf s → unlocked r s → fork_table_room r f s →
  if isRedo || bool_decide (fork_view r f s = None)
  then ∃ s', memcreate r f isRedo s = (Ok tt, s') ∧ updates r f (Some []) s s'
  else ∃ msg s', memcreate r f isRedo s = (Error ERRCODE_DUPLICATE_FILE msg, s') ∧ preserves s s'.
Proof.
  intros Hwf Hun Hfr. destruct (isRedo || bool_decide (fork_view r f s = None)) eqn:Hc.
  - destruct (memcreate_run r f isRedo s) as (s' & H); [done|done| |].
    { apply orb_prop in Hc as [->| ?%bool_decide_eq_true]; [by left|by right]. }
    exists s'. split; [done|]. by eapply memcreate_updates in H as [_ ?].
  - apply orb_false_elim in Hc as [-> Hv%bool_decide_eq_false].
    assert (exists_ (eff_entry r f s) = true) as Hex.
    { rewrite fork_view_eff in Hv by done. by destruct (exists_ (eff_entry r f s)). }
    pose proof (updates_preserves _ _ _ _ (with_entry_updates r f s Hwf)) as Hp.
    unfold memcreate. rewrite seed_mode. unfold mbind, M_bind, mem_lock_for.
    destruct (mem_key_is_temp r) eqn:Ht; simpl.
    + rewrite (mem_get_fork_entry_run r f s Hfr). simpl. rewrite Hex. simpl. by eexists _, _.
    + rewrite (wf_init _ Hwf). simpl.
      rewrite (mem_get_fork_entry_run r f (set_held _ s) Hfr). simpl.
      change (eff_entry r f (set_held _ s)) with (eff_entry r f s). rewrite Hex. simpl.
      eexists _, _. split; [done|]. destruct Hp as (Hwf' & Hv' & Hh').
      destruct Hun as [|Hun]; [congruence|].
      unfold with_entry in *. change (fork_lookup r f (set_held _ s)) with (fork_lookup r f s).
      destruct (fork_lookup r f s); simpl; (split; [exact (mem_wf_held _ _ Hwf')|split; [done|simpl]]).
      all: apply set_eq; clear -Hun; set_solver.
Qed.

(** ** Sizes and existence *)

Lemma mem_nblocks_run r f s :
  mem_wf s → fork_table_room r f s →
  ∃ s', mem_nblocks_locked r f s = (Ok (Z.of_nat (length (default [] (fork_view r f s)))), s') ∧
    updates r f (fork_view r f s) s s'.
Proof.
  intros Hwf Hfr. destruct (mem_nblocks_locked r f s) as [[n|c e] s'] eqn:H.
  - apply mem_nblocks_updates in H as [-> Hup]; [|done]. eauto.
  - exfalso. unfold mem_nblocks_locked in H.
    rewrite (M_bind_run _ _ _ _ _ (mem_get_fork_entry_run r f s Hfr)) in H.
    by destruct (negb _).
Qed.

(** Sizes.  [memnblocks] is the length of the fork (0 if it does not exist);
    [memprefetch] says whether the range is inside it; [memmaxcombine] allows
    between 1 and 32 blocks and, inside the fork, never more than a read at
    that position may ask for.  None of them changes a view. *)
Theorem mem_sizes r f base n s :
  let len := Z.of_nat (length (default [] (fork_view r f s))) in
  mem_wf s → unlocked r s → fork_table_room r f s →
  0 <= base → 0 <= n → base + n < 2 ^ 32 →
  (∃ s', memnblocks r f s = (Ok len, s') ∧ preserves s s') ∧
  (∃ s', memprefetch r f base n s = (Ok (bool_decide (base + n <= len)), s') ∧ preserves s s') ∧
  (∃ m s', memmaxcombine r f base s = (Ok m, s') ∧ preserves s s' ∧
    1 <= m <= MEMSMGR_MAX_COMBINE ∧ (base < len → base + m <= len)).
Proof.
  intros len Hwf Hun Hfr H0 Hn Hle.
  assert (∃ s', with_lock r (mem_nblocks_locked r f) s = (Ok len, s') ∧ preserves s s') as (s' & Hrun & Hp).
  { destruct (with_lock_total r f (fork_view r f s) (mem_nblocks_locked r f) len s Hwf Hun) as (s' & H1 & H2).
    - intros h Hwf'. exact (mem_nblocks_run r f (set_held h s) Hwf' Hfr).
    - exists s'. split; [done|by eapply updates_preserves]. }
  split_and!.
  - exists s'. unfold memnblocks. by rewrite seed_mode.
  - exists s'. unfold memprefetch. rewrite seed_mode, (M_bind_run _ _ _ _ _ Hrun).
    split; [|done]. rewrite wrap32_small by (unfold is_u32; lia).
    unfold mret, M_ret. do 2 f_equal. apply eq_bool_prop_intro. rewrite bool_decide_spec.
    destruct (Z.leb_spec (base + n) len); simpl; split; (done || lia).
  - unfold memmaxcombine. rewrite seed_mode.
    assert (len < 2 ^ 32) as Hlen.
    { unfold len. rewrite view_default, view_of_length by done.
      pose proof (eff_entry_range r f s Hwf) as Hr. unfold is_u32 in Hr. lia. }
    set (m := if len <=? base then 1 else Z.min MEMSMGR_MAX_COMBINE (len -u base)).
    destruct (with_lock_total r f (fork_view r f s)
      (blocks ← mem_nblocks_locked r f;
       mret (if blocks <=? base then 1 else Z.min MEMSMGR_MAX_COMBINE (blocks -u base))) m s Hwf Hun)
      as (s2 & H1 & H2).
    + intros h Hwf'. destruct (mem_nblocks_run r f (set_held h s) Hwf' Hfr) as (s1 & E & Hup).
      exists s1. rewrite (M_bind_run _ _ _ _ _ E). done.
    + exists m, s2. split; [done|]. split; [by eapply updates_preserves|].
      unfold m, MEMSMGR_MAX_COMBINE. destruct (Z.leb_spec len base); [lia|].
      rewrite wrap32_small by (unfold is_u32; lia). lia.
Qed.

Lemma mem_create_fork_entry_run r f s :
  fork_lookup r f s = None → fork_table_room r f s →
  mem_create_fork_entry r f s = (Ok tt, fork_put r f new_fork_entry s).
Proof.
  intros Hl Hfr. unfold mem_create_fork_entry. rewrite Hl.
  by rewrite (proj2 (fork_table_full r f s Hl)).
Qed.

Lemma memexists_body_run r f s :
  mem_wf s → fork_table_room r f s →
  ∃ s', memexists_body r f s = (Ok (bool_decide (fork_view r f s ≠ None)), s') ∧
    updates r f (fork_view r f s) s s'.
Proof.
  intros Hwf Hfr. unfold memexists_body.
  pose proof (with_entry_updates r f s Hwf) as Hu. unfold with_entry in Hu.
  unfold mem_lookup_fork_entry, mbind at 1, M_bind at 1, gets.
  destruct (fork_lookup r f s) as [e|] eqn:Hl.
  - exists s. split; [|done]. unfold mret, M_ret. do 2 f_equal.
    unfold fork_view. rewrite Hl. by destruct (exists_ e).
  - rewrite seed_active. unfold seed_entry in Hu.
    assert (fork_view r f s = seed_image r f) as Hv by (unfold fork_view; by rewrite Hl).
    destruct (mem_key_is_temp r) eqn:Ht; simpl.
    + exists s. rewrite Hv, seed_image_temp by done. split; [done|].
      constructor; try done. by rewrite Hv, seed_image_temp.
    + rewrite seed_image_exists by done.
      rewrite Hv in *. destruct (seed_image r f) as [l|] eqn:Hs.
      * rewrite bool_decide_eq_true_2 by done.
        rewrite (M_bind_run (lift (Ok true)) _ s true s eq_refl).
        rewrite (M_bind_run _ _ _ _ _ (mem_create_fork_entry_run r f s Hl Hfr)).
        rewrite (M_bind_run _ _ _ _ _ (fork_fill_seed _ _ _ _ _ Hs)).
        by eexists.
      * rewrite bool_decide_eq_false_2 by tauto. exists s. split; [done|by constructor].
Qed.

Lemma memexists_total r f s :
  mem_wf s → unlocked r s → fork_table_room r f s →
  ∃ s', memexists r f s = (Ok (bool_decide (fork_view r f s ≠ None)), s') ∧
    updates r f (fork_view r f s) s s'.
Proof.
  intros Hwf Hun Hfr. unfold memexists. rewrite seed_mode.
  apply (with_lock_total r f _ (memexists_body r f)); [done|done|].
  intros h Hwf'. exact (memexists_body_run r f (set_held h s) Hwf' Hfr).
Qed.

(** Existence.  [memexists] tells whether the fork has a view, opening it
    from the seed image if nobody has yet, and changes no view. *)
Theorem memexists_correct r f s :
  mem_wf s → unlocked r s → fork_table_room r f s →
  ∃ s', memexists r f s = (Ok (bool_decide (fork_view r f s ≠ None)), s') ∧ preserves s s'.
Proof.
  intros Hwf Hun Hfr. destruct (memexists_total r f s Hwf Hun Hfr) as (s' & H1 & H2).
  exists s'. split; [done|by eapply updates_preserves].
Qed.
End ops.
