(* ===== verification/MemSmgrDrop.v ===== *)
(** * MemSmgrDrop: unlinking forks, and runs of the memory smgr

    [memunlink] and its helpers, and the simulation theorem: a run of smgr
    calls that respects the smgr contract is a run over plain lists of
    blocks. *)

From Stdlib Require Import ZArith Lia Strings.Byte.
From stdpp Require Import base tactics numbers list gmap strings pretty.
From S2P Require Import Prelude HashFn RelPath MemSmgr MemSmgrInv MemSmgrRefine MemSmgrOps.

Local Open Scope Z_scope.
Local Open Scope pg_scope.

Section drop.
Context {env : Env} {D : Type} {md : MdSmgr D} {seed : SeedImage}.
Implicit Types (s : MemState D) (r : RelFileLocatorBackend) (f : ForkNumber).

(** ** One fork *)

Lemma becomes_remove r f s :
  arena_ok s → becomes r f None (λ b, page_content r f b s) s (fork_remove r f s).
Proof.
  intros Hok. constructor; [by eapply arena_ok_pages|apply same_but_fork_remove| |done].
  rewrite fork_lookup_remove. by rewrite decide_True.
Qed.

Lemma removed_updates r f s s' :
  mem_wf s → becomes r f None (λ _, None) s s' → updates r f (seed_image r f) s s'.
Proof.
  intros Hwf Hb. apply updates_intro; [done|apply Hb|apply Hb| |].
  - constructor; rewrite ?(bc_fork _ _ _ _ _ _ Hb); try done.
    intros b Hne. exfalso. apply Hne, Hb.
  - unfold fork_view. by rewrite (bc_fork _ _ _ _ _ _ Hb).
Qed.

Lemma tombstone_updates r f s s' :
  mem_wf s → mem_key_is_temp r = false →
  becomes r f (Some {| exists_ := false; on_disk := true; nblocks := 0 |}) (λ _, None) s s' →
  updates r f None s s'.
Proof.
  intros Hwf Ht Hb. apply becomes_updates in Hb; [exact Hb|done|..]; simpl; done || congruence.
Qed.

(** Removing the entry, and its pages if it says it has any. *)
Lemma remove_entry_updates r f e s s' u :
  mem_wf s → fork_lookup r f s = Some e →
  (modify (fork_remove r f);; (if 0 <? nblocks e then mem_remove_pages r f 0 else mret tt)) s = (Ok u, s') →
  updates r f (seed_image r f) s s'.
Proof.
  intros Hwf Hl H. apply removed_updates; [done|].
  pose proof (becomes_remove r f s (wf_arena _ Hwf)) as Hr.
  eapply becomes_trans; [exact Hr|]. rewrite <- (bc_fork _ _ _ _ _ _ Hr).
  minv H as u1 s1 H1. injection H1 as <- <-.
  assert (∀ b, page_content r f b s ≠ None → 0 <= b < nblocks e) as Hin.
  { intros b Hne. apply eff_page_range in Hne as [_ Hne]; [|done].
    unfold eff_entry in Hne. rewrite Hl in Hne. done. }
  destruct (Z.ltb_spec 0 (nblocks e)) as [Hpos|Hzero].
  - injection H as <- <-. pose proof (bc_arena _ _ _ _ _ _ Hr) as Hok.
    apply all_pages_gone; [done|exact (without_pages_becomes r f 0 _ Hok)|].
    intros b Hne. by apply Hin.
  - injection H as <- <-. constructor; [apply Hr|done|done|]. intros b.
    destruct (page_content r f b (fork_remove r f s)) eqn:E; [|done].
    assert (page_content r f b s ≠ None) as Hne by (change (page_content r f b s) with
      (page_content r f b (fork_remove r f s)); congruence).
    apply Hin in Hne. lia.
Qed.

(** What is left of a fork after [mem_remove_fork]. *)
Definition dropped_view r f s : option (list Block) :=
  match fork_lookup r f s with
  | Some e => if on_disk e then None else seed_image r f
  | None => None
  end.

Lemma temp_not_on_disk r f e s :
  mem_wf s → fork_lookup r f s = Some e → on_disk e = true → mem_key_is_temp r = false.
Proof.
  intros Hwf Hl Hd. destruct (mem_key_is_temp r) eqn:Ht; [|done].
  pose proof (fo_temp _ _ _ (wf_fork _ Hwf r f) e Hl Ht). congruence.
Qed.

Lemma mem_backing_exists_seed r f : mem_backing_exists r f = Ok (bool_decide (seed_image r f ≠ None)).
Proof.
  unfold mem_backing_exists. rewrite seed_active. destruct (mem_key_is_temp r) eqn:Ht; simpl.
  - by rewrite seed_image_temp.
  - by apply seed_image_exists.
Qed.

(** The number of fork entries grows by at most [n]. *)
Definition fork_used r (n : Z) s s' : Prop :=
  Z.of_nat (size (tab (mem_hash_for r) (fork_hashes s'))) <=
    Z.of_nat (size (tab (mem_hash_for r) (fork_hashes s))) + n.

Lemma size_tab_insert {T K V} `{Countable T} `{Countable K} (t : T) (k : K) (v : V) (m : gmap T (gmap K V)) :
  (size (tab t (tab_insert t k v m)) <= S (size (tab t m)))%nat.
Proof.
  assert (tab t (tab_insert t k v m) = <[k:=v]> (tab t m)) as ->
    by (unfold tab_insert; unfold tab at 1; by rewrite lookup_insert_eq).
  rewrite map_size_insert. destruct (tab t m !! k); simpl; lia.
Qed.

Lemma size_tab_delete {T K V} `{Countable T} `{Countable K} (t : T) (k : K) (m : gmap T (gmap K V)) :
  (size (tab t (tab_delete t k m)) <= size (tab t m))%nat.
Proof.
  assert (tab t (tab_delete t k m) = delete k (tab t m)) as ->
    by (unfold tab_delete; unfold tab at 1; by rewrite lookup_insert_eq).
  rewrite map_size_delete. destruct (tab t m !! k); simpl; lia.
Qed.

Definition tombstone : MemSmgrForkEntry := {| exists_ := false; on_disk := true; nblocks := 0 |}.

Lemma tombstone_used r f s : fork_used r 1 s (without_pages r f 0 (fork_put r f tombstone s)).
Proof.
  unfold fork_used. simpl.
  pose proof (size_tab_insert (mem_hash_for r) (mem_build_fork_key r f) tombstone (fork_hashes s)). lia.
Qed.

Lemma tombstone_becomes r f s :
  mem_wf s → becomes r f (Some tombstone) (λ _, None) s (without_pages r f 0 (fork_put r f tombstone s)).
Proof.
  intros Hwf. eapply becomes_trans; [apply becomes_put, Hwf|].
  assert (arena_ok (fork_put r f tombstone s)) as Hok by apply arena_ok_fork_put, Hwf.
  assert (fork_lookup r f (fork_put r f tombstone s) = Some tombstone) as <-
    by (rewrite fork_lookup_put; by rewrite decide_True).
  apply all_pages_gone; [done|by apply without_pages_becomes|].
  intros b Hne. by apply (page_nonneg r f b s).
Qed.

(** The three outcomes of dropping a fork. *)
Definition dropped r f v s s' : Prop := updates r f v s s' ∧ same_but r f s s' ∧ fork_used r 1 s s'.

Lemma tombstone_dropped r f s :
  mem_wf s → mem_key_is_temp r = false →
  dropped r f None s (without_pages r f 0 (fork_put r f tombstone s)).
Proof.
  intros Hwf Ht. pose proof (tombstone_becomes r f s Hwf) as Hb.
  split_and!; [by apply tombstone_updates|apply Hb|apply tombstone_used].
Qed.

Lemma remove_entry_dropped r f e s :
  mem_wf s → fork_lookup r f s = Some e →
  ∃ s', (modify (fork_remove r f);; (if 0 <? nblocks e then mem_remove_pages r f 0 else mret tt)) s
    = (Ok tt, s') ∧ dropped r f (seed_image r f) s s'.
Proof.
  intros Hwf Hl.
  destruct ((modify (fork_remove r f);; (if 0 <? nblocks e then mem_remove_pages r f 0 else mret tt)) s)
    as [[[]|c m] s'] eqn:Hrun; [|by destruct (0 <? nblocks e)].
  exists s'. split; [done|]. split; [by eapply remove_entry_updates|].
  assert (fork_used r 1 s (fork_remove r f s)) as Hu.
  { unfold fork_used. simpl. pose proof (size_tab_delete (mem_hash_for r) (mem_build_fork_key r f)
      (fork_hashes s)). lia. }
  minv Hrun as u1 s1 H1. injection H1 as <- <-.
  destruct (0 <? nblocks e); injection Hrun as <-; (split; [|exact Hu]).
  - etrans; [apply same_but_fork_remove|].
    apply (bc_same _ _ _ _ _ _ (without_pages_becomes r f 0 (fork_remove r f s)
      (arena_ok_pages s (fork_remove r f s) (wf_arena _ Hwf) eq_refl eq_refl))).
  - apply same_but_fork_remove.
Qed.

Lemma seed_not_temp r f l : seed_image r f = Some l → mem_key_is_temp r = false.
Proof. intros Hs. destruct (mem_key_is_temp r) eqn:Ht; [|done]. rewrite seed_image_temp in Hs; done. Qed.

Lemma mem_remove_fork_run r f s :
  mem_wf s → fork_table_room r f s →
  ∃ s', mem_remove_fork r f s = (Ok tt, s') ∧ dropped r f (dropped_view r f s) s s'.
Proof.
  intros Hwf Hfr. unfold mem_remove_fork, mem_lookup_fork_entry.
  rewrite (M_bind_run (gets (fork_lookup r f)) _ s (fork_lookup r f s) s eq_refl).
  unfold dropped_view. destruct (fork_lookup r f s) as [e|] eqn:Hl.
  - destruct (on_disk e) eqn:Hd.
    + eexists. split; [done|]. by eapply tombstone_dropped, temp_not_on_disk.
    + exact (remove_entry_dropped r f e s Hwf Hl).
  - rewrite mem_backing_exists_seed. destruct (seed_image r f) as [l|] eqn:Hs.
    + rewrite bool_decide_eq_true_2 by done. unfold mbind, M_bind, lift, gets. simpl.
      rewrite (proj2 (fork_table_full r f s Hl)) by done. eexists. split; [done|].
      by eapply tombstone_dropped, seed_not_temp.
    + rewrite bool_decide_eq_false_2 by tauto. exists s. split; [done|]. split_and!.
      * constructor; try done. unfold fork_view. by rewrite Hl.
      * done.
      * unfold fork_used. lia.
Qed.

(** ** All the forks of a relation *)

Lemma mem_remove_memory_only_fork_run r f s :
  mem_wf s → (∀ e, fork_lookup r f s = Some e → on_disk e = false) →
  ∃ s', mem_remove_memory_only_fork r f s = (Ok tt, s') ∧ dropped r f (seed_image r f) s s'.
Proof.
  intros Hwf Hmem. unfold mem_remove_memory_only_fork, mem_lookup_fork_entry.
  rewrite (M_bind_run (gets (fork_lookup r f)) _ s (fork_lookup r f s) s eq_refl).
  destruct (fork_lookup r f s) as [e|] eqn:Hl.
  - rewrite (Hmem e eq_refl). exact (remove_entry_dropped r f e s Hwf Hl).
  - exists s. split; [done|]. split_and!; [|done|unfold fork_used; lia].
    constructor; try done. unfold fork_view. by rewrite Hl.
Qed.

Definition forks_room r (n : nat) s : Prop :=
  match mem_hash_for r with
  | SharedPartition _ =>
      Z.of_nat (size (tab (mem_hash_for r) (fork_hashes s))) + Z.of_nat n <= MEMSMGR_SHARED_FORKS_PER_PARTITION
  | LocalTable _ => True
  end.

Lemma forks_room_one r f n s : forks_room r (S n) s → fork_table_room r f s.
Proof. unfold forks_room, fork_table_room. destruct (mem_hash_for r); [|by right]. intros. right. lia. Qed.

Lemma forks_room_used r n s s' : forks_room r (S n) s → fork_used r 1 s s' → forks_room r n s'.
Proof. unfold forks_room, fork_used. destruct (mem_hash_for r); [lia|done]. Qed.

(** Exactly the forks [forks] of [r] have changed, [f] to [v f]. *)
Record drops r (forks : list ForkNumber) (v : ForkNumber → option (list Block)) s s' : Prop := {
  dr_wf : mem_wf s';
  dr_view : ∀ f, f ∈ forks → fork_view r f s' = v f;
  dr_frame : ∀ r' f', ¬ (r' = r ∧ f' ∈ forks) → fork_view r' f' s' = fork_view r' f' s;
  dr_held : held_lwlocks s' = held_lwlocks s;
}.

(** A loop over distinct forks of [r] whose body drops one fork, to a view that
    depends on that fork's entry alone. *)
Lemma for_each_drops r (op : ForkNumber → M (MemState D) unit)
    (pre : ForkNumber → option MemSmgrForkEntry → Prop)
    (v : ForkNumber → option MemSmgrForkEntry → option (list Block)) forks s :
  (∀ f s0, mem_wf s0 → fork_table_room r f s0 → pre f (fork_lookup r f s0) →
    ∃ s', op f s0 = (Ok tt, s') ∧ dropped r f (v f (fork_lookup r f s0)) s0 s') →
  NoDup forks → mem_wf s → forks_room r (length forks) s → (∀ f, f ∈ forks → pre f (fork_lookup r f s)) →
  ∃ s', for_each forks op s = (Ok tt, s') ∧ drops r forks (λ f, v f (fork_lookup r f s)) s s'.
Proof.
  intros Hop. revert s. induction forks as [|f forks IH]; intros s Hnd Hwf Hroom Hpre.
  { exists s. split; [done|]. constructor; set_solver. }
  apply NoDup_cons in Hnd as [Hf Hnd].
  destruct (Hop f s) as (s1 & H1 & Hup & Hsb & Hused);
    [done|by eapply forks_room_one|apply Hpre; set_solver|].
  assert (∀ f', f' ∈ forks → fork_lookup r f' s1 = fork_lookup r f' s) as Hlk.
  { intros f' Hf'. apply (same_but_lookup r f); [done|]. intros [_ ->]. done. }
  destruct (IH s1) as (s2 & H2 & Hd); [done|apply Hup|by eapply forks_room_used| |].
  { intros f' Hf'. rewrite Hlk by done. apply Hpre. set_solver. }
  exists s2. split; [simpl; by rewrite (M_bind_run _ _ _ _ _ H1)|]. constructor.
  - apply Hd.
  - intros f' [->|Hf']%elem_of_cons.
    + rewrite (dr_frame _ _ _ _ _ Hd) by tauto. apply Hup.
    + rewrite (dr_view _ _ _ _ _ Hd) by done. by rewrite Hlk.
  - intros r' f' Hne. rewrite (dr_frame _ _ _ _ _ Hd) by set_solver.
    apply (up_frame _ _ _ _ _ Hup). set_solver.
  - rewrite (dr_held _ _ _ _ _ Hd). apply Hup.
Qed.

Lemma memory_only_loop_spec r forks saw s :
  memory_only_loop r forks saw s = true →
  ∀ f e, f ∈ forks → fork_lookup r f s = Some e → on_disk e = false.
Proof.
  revert saw. induction forks as [|f forks IH]; intros saw H f' e Hin Hl; [set_solver|].
  simpl in H. apply elem_of_cons in Hin as [->|Hin].
  - rewrite Hl in H. by destruct (on_disk e).
  - destruct (fork_lookup r f s) as [e0|]; [destruct (on_disk e0); [done|]|]; by eapply IH.
Qed.

Definition memory_only r s : bool := memory_only_loop r all_forks false s.

(** The view [memunlink] leaves of fork [f] when asked to drop all of [r]. *)
Definition unlinked_view r f s : option (list Block) :=
  if memory_only r s then seed_image r f else dropped_view r f s.

Lemma with_lock_run {A} r (body : M (MemState D) A) a s (P : MemState D → Prop) :
  initialized s = true → unlocked r s →
  (∀ h, ∃ s1, body (set_held h s) = (Ok a, s1) ∧ held_lwlocks s1 = h ∧ ∀ h', P (set_held h' s1)) →
  ∃ s', with_lock r body s = (Ok a, s') ∧ P s' ∧ held_lwlocks s' = held_lwlocks s.
Proof.
  intros Hi Hun Hbody. destruct (with_lock_progress r body s) as (a' & s' & Hrun); [done| |].
  { intros h. destruct (Hbody h) as (s1 & E & _). eauto. }
  pose proof Hrun as Hrun'. apply with_lock_ok in Hrun' as (h & s1 & Hb & Hheld & Hs'); [|done].
  destruct (Hbody h) as (s1' & E & Hh & HP). simplify_eq. rewrite E in Hb. simplify_eq.
  exists s'. split; [done|]. split; [rewrite Hs'; apply HP|by apply Hheld].
Qed.

Lemma drops_held r forks v s s' h h' :
  drops r forks v (set_held h s) s' → mem_wf (set_held h' s') ∧
  (∀ f, f ∈ forks → fork_view r f (set_held h' s') = v f) ∧
  (∀ r' f', ¬ (r' = r ∧ f' ∈ forks) → fork_view r' f' (set_held h' s') = fork_view r' f' s).
Proof.
  intros Hd. split_and!; [by apply mem_wf_held, Hd| |].
  - intros f Hf. exact (dr_view _ _ _ _ _ Hd f Hf).
  - intros r' f' Hne. exact (dr_frame _ _ _ _ _ Hd r' f' Hne).
Qed.

Lemma seed_root_unlink : negb IsUnderPostmaster && bool_decide (mem_seed_root = None) = false.
Proof. rewrite (bool_decide_eq_false_2 _ seed_image_root). apply andb_false_r. Qed.

(** Dropping one fork.  [memunlink] of a fork returns, and leaves no fork,
    except that a fork created in memory over one of the seed image gives way to
    the seed's blocks again. *)
Theorem memunlink_drops_fork r f isRedo s :
  mem_wf s → unlocked r s → f ≠ InvalidForkNumber → fork_table_room r f s →
  ∃ s', memunlink r f isRedo s = (Ok tt, s') ∧ updates r f (dropped_view r f s) s s'.
Proof.
  intros Hwf Hun Hf Hfr. unfold memunlink. rewrite seed_root_unlink.
  rewrite bool_decide_eq_false_2 by done. apply with_lock_total; [done|done|]. intros h Hwf'.
  destruct (mem_remove_fork_run r f (set_held h s)) as (s1 & H1 & Hd); [done|done|].
  exists s1. split; [done|]. apply Hd.
Qed.

Lemma all_forks_NoDup : NoDup all_forks.
Proof. unfold all_forks. repeat constructor; set_solver. Qed.

Lemma memunlink_loop r s :
  mem_wf s → forks_room r (length all_forks) s →
  ∃ s', (memory_only ← mem_relation_is_memory_only r;
         if memory_only : bool then for_each all_forks (mem_remove_memory_only_fork r)
         else for_each all_forks (mem_remove_fork r)) s = (Ok tt, s') ∧
    drops r all_forks (λ f, unlinked_view r f s) s s'.
Proof.
  intros Hwf Hroom. unfold mem_relation_is_memory_only.
  rewrite (M_bind_run (gets (memory_only_loop r all_forks false)) _ s (memory_only r s) s eq_refl).
  unfold unlinked_view. destruct (memory_only r s) eqn:Hm.
  - destruct (for_each_drops r (mem_remove_memory_only_fork r)
      (λ _ oe, ∀ e, oe = Some e → on_disk e = false) (λ f _, seed_image r f) all_forks s) as (s' & H & Hd);
      [|apply all_forks_NoDup|done|done| |eauto].
    + intros f s0 Hwf0 _ Hpre. by apply mem_remove_memory_only_fork_run.
    + intros f Hf e He. by eapply memory_only_loop_spec.
  - destruct (for_each_drops r (mem_remove_fork r) (λ _ _, True)
      (λ f oe, match oe with Some e => if on_disk e then None else seed_image r f | None => None end)
      all_forks s) as (s' & H & Hd); [|apply all_forks_NoDup|done|done|done|eauto].
    intros f s0 Hwf0 Hfr0 _. by apply mem_remove_fork_run.
Qed.

(** Dropping a relation.  [memunlink] of [InvalidForkNumber] visits all the
    forks of the relation and no other relation; a relation none of whose forks
    is known to be on disk is dropped by forgetting it. *)
Theorem memunlink_drops_relation r isRedo s :
  mem_wf s → unlocked r s → forks_room r (length all_forks) s →
  ∃ s', memunlink r InvalidForkNumber isRedo s = (Ok tt, s') ∧
    drops r all_forks (λ f, unlinked_view r f s) s s'.
Proof.
  intros Hwf Hun Hroom. unfold memunlink. rewrite seed_root_unlink.
  rewrite bool_decide_eq_true_2 by done.
  match goal with |- context [with_lock r ?b s] => destruct (with_lock_run r b tt s (λ s', mem_wf s' ∧
    (∀ f, f ∈ all_forks → fork_view r f s' = unlinked_view r f s) ∧
    (∀ r' f', ¬ (r' = r ∧ f' ∈ all_forks) → fork_view r' f' s' = fork_view r' f' s)))
    as (s' & Hrun & (Hw & Hv & Hfr) & Hh) end; [apply Hwf|done| |].
  - intros h. destruct (memunlink_loop r (set_held h s)) as (s1 & H1 & Hd);
      [by apply mem_wf_held|done|].
    exists s1. split; [done|]. split; [apply (dr_held _ _ _ _ _ Hd)|].
    intros h'. exact (drops_held r all_forks _ s s1 h h' Hd).
  - exists s'. split; [done|by constructor].
Qed.

(** ** Errors of the block reads *)

(** A read that is not inside the fork is an error, and changes no view. *)
Theorem memreadv_rejects r f base n s :
  mem_wf s → fork_table_room r f s → 0 <= base → 0 <= n → base + n < 2 ^ 32 →
  Z.of_nat (length (default [] (fork_view r f s))) < base + n ∨ fork_view r f s = None →
  ∃ msg s', memreadv r f base n s = (Error ERRCODE_DATA_CORRUPTED msg, s') ∧ mem_wf s' ∧
    ∀ r' f', fork_view r' f' s' = fork_view r' f' s.
Proof.
  intros Hwf Hfr H0 Hn Hlt Hout. unfold memreadv. rewrite seed_mode.
  assert (∀ h, mem_readv_locked r f base n (set_held h s) =
    (Error ERRCODE_DATA_CORRUPTED "could not read blocks", with_entry r f (set_held h s))) as Hbody.
  { intros h. unfold mem_readv_locked.
    rewrite (M_bind_run _ _ _ _ _ (mem_get_fork_entry_run r f (set_held h s) Hfr)).
    change (eff_entry r f (set_held h s)) with (eff_entry r f s).
    destruct (exists_ (eff_entry r f s)) eqn:Hex; [|done]. simpl. destruct Hout as [Hout|Hout].
    - rewrite view_length in Hout by done. rewrite wrap32_small by (unfold is_u32; lia).
      by rewrite (proj2 (Z.ltb_lt _ _)).
    - rewrite fork_view_eff, Hex in Hout; done. }
  assert (∀ h, mem_wf (with_entry r f (set_held h s)) ∧
    ∀ r' f', fork_view r' f' (with_entry r f (set_held h s)) = fork_view r' f' s) as Hpres.
  { intros h. pose proof (mem_wf_held h s Hwf) as Hwf'.
    destruct (updates_preserves r f _ _ (with_entry_updates r f _ Hwf')) as (? & Hv & _).
    split; [done|exact Hv]. }
  unfold with_lock, mem_lock_for, mbind, M_bind. destruct (mem_key_is_temp r).
  - simpl. replace s with (set_held (held_lwlocks s) s) by (by destruct s). rewrite Hbody.
    eexists _, _. split; [done|]. replace s with (set_held (held_lwlocks s) s) in Hpres at 1 |- * by (by destruct s).
    apply Hpres.
  - unfold gets. rewrite (wf_init _ Hwf). simpl. rewrite Hbody. eexists _, _. split; [done|apply Hpres].
Qed.
End drop.
