(* ===== verification/MemSmgrSim.v ===== *)
(** * MemSmgrSim: runs of the memory storage manager

    A run of smgr calls, from the creation of the shared state on, answers as
    a store in which a fork is a list of blocks and that starts as the seed
    image, if the calls keep to the contract ([call_pre]), find room
    ([call_room]) and are none that memsmgr.c gets wrong ([call_sound]). *)

From Stdlib Require Import ZArith Lia Strings.Byte.
From stdpp Require Import base tactics numbers list gmap strings pretty.
From S2P Require Import Prelude HashFn RelPath MemSmgr MemSmgrInv MemSmgrRefine MemSmgrOps MemSmgrDrop.

Local Open Scope Z_scope.
Local Open Scope pg_scope.

(** ** Calls, replies and the abstract store *)

Inductive call : Type :=
| CCreate (r : RelFileLocatorBackend) (f : ForkNumber) (isRedo : bool)
| CExists (r : RelFileLocatorBackend) (f : ForkNumber)
| CUnlink (r : RelFileLocatorBackend) (f : ForkNumber) (isRedo : bool)
| CExtend (r : RelFileLocatorBackend) (f : ForkNumber) (b : Z) (buffer : Block) (skipFsync : bool)
| CZeroExtend (r : RelFileLocatorBackend) (f : ForkNumber) (b n : Z) (skipFsync : bool)
| CReadv (r : RelFileLocatorBackend) (f : ForkNumber) (b n : Z)
| CWritev (r : RelFileLocatorBackend) (f : ForkNumber) (b : Z) (buffers : list Block) (skipFsync : bool)
| CNblocks (r : RelFileLocatorBackend) (f : ForkNumber)
| CTruncate (r : RelFileLocatorBackend) (f : ForkNumber) (curnblk n : Z).

Inductive reply : Type :=
| RUnit
| RBool (b : bool)
| RNum (n : Z)
| RBlocks (bs : list Block).

Definition call_rel (c : call) : RelFileLocatorBackend :=
  match c with
  | CCreate r _ _ | CExists r _ | CUnlink r _ _ | CExtend r _ _ _ _ | CZeroExtend r _ _ _ _ | CReadv r _ _ _
  | CWritev r _ _ _ _ | CNblocks r _ | CTruncate r _ _ _ => r
  end.
Definition call_fork (c : call) : ForkNumber :=
  match c with
  | CCreate _ f _ | CExists _ f | CUnlink _ f _ | CExtend _ f _ _ _ | CZeroExtend _ f _ _ _ | CReadv _ f _ _
  | CWritev _ f _ _ _ | CNblocks _ f | CTruncate _ f _ _ => f
  end.

Section sim.
Context {env : Env} {D : Type} {md : MdSmgr D} {seed : SeedImage}.
Implicit Types (s : MemState D) (r : RelFileLocatorBackend) (f : ForkNumber) (v : option (list Block)).

Definition vlen v : Z := Z.of_nat (length (default [] v)).

(** The contract of a call on a fork with blocks [v]: when it may be made, what
    it answers and what becomes of the fork. *)
Definition call_pre (c : call) v : Prop :=
  match c with
  | CCreate _ _ isRedo => v = None ∨ isRedo = true
  | CUnlink _ f _ => f ≠ InvalidForkNumber
  | CExtend _ _ b _ _ => 0 <= b ∧ b + 1 < 2 ^ 32 ∧ b - vlen v < 2 ^ 31
  | CZeroExtend _ _ b n _ => 0 <= b ∧ 0 <= n ∧ b + n < 2 ^ 32
  | CReadv _ _ b n => v ≠ None ∧ 0 <= b ∧ 0 <= n ∧ b + n <= vlen v
  | CWritev _ _ b bufs _ => 0 <= b ∧ b + Z.of_nat (length bufs) < 2 ^ 32 ∧ b - vlen v < 2 ^ 31
  | CTruncate _ _ _ n => 0 <= n <= vlen v
  | CExists _ _ | CNblocks _ _ => True
  end.

Definition spec_reply (c : call) v : reply :=
  match c with
  | CExists _ _ => RBool (bool_decide (v ≠ None))
  | CReadv _ _ b n => RBlocks (spec_read (default [] v) (Z.to_nat b) (Z.to_nat n))
  | CNblocks _ _ => RNum (vlen v)
  | _ => RUnit
  end.

Definition spec_view (c : call) v : option (list Block) :=
  match c with
  | CCreate _ _ _ => Some (default [] v)
  | CUnlink _ _ _ => None
  | CExtend _ _ b buf _ => Some (spec_write v (Z.to_nat b) [buf])
  | CZeroExtend _ _ b n _ => Some (spec_write v (Z.to_nat b) (replicate (Z.to_nat n) zero_block))
  | CWritev _ _ b bufs _ => Some (spec_write v (Z.to_nat b) bufs)
  | CTruncate _ _ _ n => Some (spec_truncate v (Z.to_nat n))
  | CExists _ _ | CReadv _ _ _ _ | CNblocks _ _ => v
  end.

(** ** The calls of memsmgr.c *)

Definition run_call (c : call) : M (MemState D) reply :=
  match c with
  | CCreate r f isRedo => memcreate r f isRedo;; mret RUnit
  | CExists r f => b ← memexists r f; mret (RBool b)
  | CUnlink r f isRedo => memunlink r f isRedo;; mret RUnit
  | CExtend r f b buf skip => memextend r f b buf skip;; mret RUnit
  | CZeroExtend r f b n skip => memzeroextend r f b n skip;; mret RUnit
  | CReadv r f b n => bs ← memreadv r f b n; mret (RBlocks bs)
  | CWritev r f b bufs skip => memwritev r f b bufs skip;; mret RUnit
  | CNblocks r f => n ← memnblocks r f; mret (RNum n)
  | CTruncate r f cur n => memtruncate r f cur n;; mret RUnit
  end.

Fixpoint run_calls (cs : list call) : M (MemState D) (list reply) :=
  match cs with
  | [] => mret []
  | c :: cs' => a ← run_call c; as_ ← run_calls cs'; mret (a :: as_)
  end.

(** Pages the call may have to allocate. *)
Definition call_pages (c : call) v : Z :=
  match c with
  | CExtend _ _ b _ _ => Z.max 0 (b - vlen v) + 1
  | CZeroExtend _ _ _ n _ | CReadv _ _ _ n => n
  | CWritev _ _ b bufs _ => Z.max 0 (b - vlen v) + Z.of_nat (length bufs)
  | _ => 0
  end.

(** The fixed-size shared tables have room for the call. *)
Definition call_room (c : call) s : Prop :=
  let v := fork_view (call_rel c) (call_fork c) s in
  fork_table_room (call_rel c) (call_fork c) s ∧ page_room (call_rel c) (call_pages c v) s.

(** Calls inside the contract that memsmgr.c does not carry out as it should
    (see MemSmgrFindings.v and [redo_create_differs]): the creation, in redo, of
    a fork that has blocks; the removal of a fork that was created in the place
    of an unlinked one of the seed image; and the zero-extension of a fork of the
    seed image that leaves a gap behind its end. *)
Definition call_sound (c : call) s : Prop :=
  match c with
  | CCreate r f _ => default [] (fork_view r f s) = []
  | CUnlink r f _ => dropped_view r f s = None
  | CZeroExtend r f b _ _ => b <= vlen (fork_view r f s) ∨ from_seed r f s = false
  | _ => True
  end.

(** Lifting a verified body to a call. *)
Lemma call_total {A} r f v (body : M (MemState D) A) (a : A) (k : A → reply) s :
  (∃ s', body s = (Ok a, s') ∧ updates r f v s s') →
  ∃ s', (x ← body; mret (k x)) s = (Ok (k a), s') ∧ updates r f v s s'.
Proof. intros (s' & H & Hu). exists s'. by rewrite (M_bind_run _ _ _ _ _ H). Qed.

Lemma sim_create r f isRedo s :
  mem_wf s → unlocked r s → fork_table_room r f s → isRedo = true ∨ fork_view r f s = None →
  ∃ s', memcreate r f isRedo s = (Ok tt, s') ∧ updates r f (Some []) s s'.
Proof.
  intros Hwf Hun Hfr Hc. destruct (memcreate_run r f isRedo s) as (s' & H); [done..|].
  exists s'. split; [done|]. by eapply memcreate_updates in H as [_ ?].
Qed.

Lemma sim_unlink r f isRedo s :
  mem_wf s → unlocked r s → f ≠ InvalidForkNumber → fork_table_room r f s →
  ∃ s', memunlink r f isRedo s = (Ok tt, s') ∧ updates r f (dropped_view r f s) s s'.
Proof.
  intros Hwf Hun Hf Hfr. unfold memunlink. rewrite seed_root_unlink, bool_decide_eq_false_2 by done.
  apply with_lock_total; [done|done|]. intros h Hwf'.
  destruct (mem_remove_fork_run r f (set_held h s)) as (s1 & H1 & Hd); [done|done|].
  exists s1. split; [done|apply Hd].
Qed.

(** One call. *)
Lemma run_call_refines c s :
  let v := fork_view (call_rel c) (call_fork c) s in
  mem_wf s → unlocked (call_rel c) s → call_pre c v → call_room c s → call_sound c s →
  ∃ s', run_call c s = (Ok (spec_reply c v), s') ∧
    updates (call_rel c) (call_fork c) (spec_view c v) s s'.
Proof.
  intros v Hwf Hun Hpre (Hfr & Hpr) Hsound. subst v. unfold call_pages, vlen in Hpr.
  destruct c as [r f redo|r f|r f redo|r f b buf|r f b n|r f b n|r f b bufs|r f|r f cur n]; simpl in *;
    (apply (call_total _ _ _ _ tt (λ _, RUnit)) || apply (call_total _ _ _ _ _ RBool) ||
     apply (call_total _ _ _ _ _ RBlocks) || apply (call_total _ _ _ _ _ RNum)).
  - rewrite Hsound. apply sim_create; [done..|tauto].
  - by apply memexists_total.
  - destruct (sim_unlink r f redo s) as (s' & H & Hu); [done..|]. rewrite Hsound in Hu. eauto.
  - unfold memextend. rewrite seed_mode. destruct Hpre as (? & ? & ?).
    by apply (writev_total r f b [buf]).
  - destruct Hpre as (? & ? & ?). by apply memzeroextend_extends.
  - unfold memreadv. rewrite seed_mode. destruct Hpre as (Hv & ? & ? & Hle).
    apply with_lock_total; [done|done|]. intros h Hwf'.
    destruct (fork_view r f s) as [l|] eqn:El; [|done].
    destruct (mem_readv_locked_run r f l b n (set_held h s)) as (s1 & H1 & Hu); [done..|].
    exists s1. split; [done|]. by rewrite <- El.
  - unfold memwritev. rewrite seed_mode. destruct Hpre as (? & ? & ?). by apply writev_total.
  - unfold memnblocks. rewrite seed_mode. apply with_lock_total; [done|done|]. intros h Hwf'.
    exact (mem_nblocks_run r f (set_held h s) Hwf' Hfr).
  - destruct (memtruncate_progress r f cur n s) as (s' & H); [done..|].
    exists s'. split; [done|]. by eapply memtruncate_updates.
Qed.

(** ** Runs *)

(** A run of the abstract store. *)
Abbreviation store := (RelFileLocatorBackend → ForkNumber → option (list Block)) (only parsing).

Definition store_set (st : store) r f v : store :=
  λ r' f', if decide (r' = r ∧ f' = f) then v else st r' f'.

Fixpoint store_run (cs : list call) (st : store) : list reply * store :=
  match cs with
  | [] => ([], st)
  | c :: cs' =>
      let v := st (call_rel c) (call_fork c) in
      let '(as_, st') := store_run cs' (store_set st (call_rel c) (call_fork c) (spec_view c v)) in
      (spec_reply c v :: as_, st')
  end.

(** Every call of the run is made inside its contract, when the shared tables
    have room for it, and is none of those that [call_sound] leaves out. *)
Fixpoint admissible (cs : list call) s : Prop :=
  match cs with
  | [] => True
  | c :: cs' =>
      call_pre c (fork_view (call_rel c) (call_fork c) s) ∧ call_room c s ∧ call_sound c s ∧ admissible cs' (run_call c s).2
  end.

Definition same_views (st : store) s : Prop := ∀ r f, fork_view r f s = st r f.

Lemma run_calls_refine cs st s :
  mem_wf s → held_lwlocks s = ∅ → same_views st s → admissible cs s →
  ∃ s', run_calls cs s = (Ok (store_run cs st).1, s') ∧ mem_wf s' ∧ held_lwlocks s' = ∅ ∧
    same_views (store_run cs st).2 s'.
Proof.
  revert st s. induction cs as [|c cs IH]; intros st s Hwf Hh Hst; [by exists s|].
  intros (Hpre & Hroom & Hsound & Hadm). destruct (run_call_refines c s) as (s1 & H1 & Hu);
    [done|right; rewrite Hh; set_solver|done..|].
  rewrite H1 in Hadm. rewrite Hst in H1, Hu.
  destruct (IH (store_set st (call_rel c) (call_fork c) (spec_view c (st (call_rel c) (call_fork c)))) s1)
    as (s2 & H2 & Hwf2 & Hh2 & Hv2); [apply Hu|by rewrite (up_held _ _ _ _ _ Hu)| |done|].
  { intros r f. unfold store_set. case_decide as Hd; [destruct Hd as [-> ->]; apply Hu|].
    rewrite (up_frame _ _ _ _ _ Hu) by done. apply Hst. }
  exists s2. simpl. rewrite (M_bind_run _ _ _ _ _ H1), (M_bind_run _ _ _ _ _ H2).
  destruct (store_run _ _); split_and!; done.
Qed.

(** The state before the postmaster creates the shared memory. *)
Definition boot (d : D) : MemState D := Build_MemState false 0 ∅ ∅ ∅ ∅ d.

Lemma tab_empty {T K V} `{Countable T} `{Countable K} (t : T) : tab t (∅ : gmap T (gmap K V)) = ∅.
Proof. unfold tab. by rewrite lookup_empty. Qed.

Lemma boot_wf d : ∃ s, MemSmgrShmemInit (boot d) = (Ok tt, s) ∧ mem_wf s ∧ held_lwlocks s = ∅ ∧
  same_views seed_image s.
Proof.
  eexists. split; [done|]. split_and!; [|done|].
  - constructor; [constructor|done|].
    + intros ????? H. unfold page_at in H. simpl in H. rewrite tab_empty in H. done.
    + intros ??? H. unfold page_at in H. simpl in H. rewrite tab_empty in H. done.
    + done.
    + intros r f. assert (∀ s, fork_hashes s = ∅ → fork_lookup r f s = None) as Hl.
      { intros s0 E. unfold fork_lookup. rewrite E, tab_empty. apply lookup_empty. }
      constructor; intros b; try (by rewrite Hl).
  - intros r f. unfold fork_view, fork_lookup. simpl. by rewrite tab_empty, lookup_empty.
Qed.

(** C1: simulation. From the creation of the shared state on, every sequence of
    create, exists, unlink, extend, zeroextend, read, write, nblocks and
    truncate calls that [admissible] allows succeeds and is answered as by a
    store that maps each fork of each relation to a list of blocks and starts as
    the seed image; the final forks are those of the store too. [admissible]
    asks of each call, in the state it is made in: the contract ([call_pre]: a
    fork that exists is created in redo only, block numbers and gaps stay within
    32 and 31 bits, reads stay inside the fork, truncation does not grow it);
    room in the shared tables and the page arena ([call_room]); and that it is
    none of the three calls inside the contract that memsmgr.c gets wrong
    ([call_sound]). *)
Theorem memsmgr_simulates_store cs d :
  (∀ s, MemSmgrShmemInit (boot d) = (Ok tt, s) → admissible cs s) →
  ∃ s', (MemSmgrShmemInit;; run_calls cs) (boot d) = (Ok (store_run cs seed_image).1, s') ∧
    mem_wf s' ∧ held_lwlocks s' = ∅ ∧ ∀ r f, fork_view r f s' = (store_run cs seed_image).2 r f.
Proof.
  intros Hadm. destruct (boot_wf d) as (s & H & Hwf & Hh & Hv).
  destruct (run_calls_refine cs seed_image s) as (s' & H' & ?); [done..|by apply Hadm|].
  exists s'. by rewrite (M_bind_run _ _ _ _ _ H).
Qed.
End sim.
