(* ===== verification/MemSmgrSeed.v ===== *)
(** * MemSmgrSeed: the seed directory

    The seed functions of memsmgr.c on a directory in which every fork is laid
    out the way md.c lays it out: files of [RELSEG_SIZE] blocks, the last one
    shorter, possibly followed by an empty one.  They see exactly the fork's
    blocks, which discharges the [SeedImage] interface. *)

From Stdlib Require Import ZArith Lia Strings.Byte.
From stdpp Require Import base tactics numbers list gmap strings pretty.
From S2P Require Import Prelude HashFn RelPath MemSmgr MemSmgrInv MemSmgrRefine.

Local Open Scope Z_scope.
Local Open Scope pg_scope.

Section seed.
Context {env : Env}.
Implicit Types (r : RelFileLocatorBackend) (f : ForkNumber) (l : list Block).

Definition segment l (segno : nat) : list Block :=
  take (Z.to_nat RELSEG_SIZE) (drop (segno * Z.to_nat RELSEG_SIZE) l).

(** The files of fork [f] of [r] hold the blocks [l]. *)
Record segmented r f l : Prop := {
  seg_len : Z.of_nat (length l) < 2 ^ 32;
  seg_block : ∀ b blk, l !! b = Some blk → Z.of_nat (length blk) = BLCKSZ;
  seg_stat : ∀ k, k = 0%nat ∨ (k * Z.to_nat RELSEG_SIZE < length l)%nat →
    fs_stat (mem_seed_segment_path r f (Z.of_nat k)) = StatOk (BLCKSZ * Z.of_nat (length (segment l k)));
  seg_end : ∀ k, k ≠ 0%nat → (k * Z.to_nat RELSEG_SIZE = length l)%nat →
    fs_stat (mem_seed_segment_path r f (Z.of_nat k)) ∈ [StatENOENT; StatOk 0];
  seg_read : ∀ k i blk, segment l k !! i = Some blk →
    fs_read (mem_seed_segment_path r f (Z.of_nat k)) (BLCKSZ * Z.of_nat i) = Some blk;
}.

Hypothesis BLCKSZ_pos : 0 < BLCKSZ.
Hypothesis RELSEG_SIZE_range : 0 < RELSEG_SIZE < 2 ^ 32.

Lemma segment_length l k :
  length (segment l k) = Nat.min (Z.to_nat RELSEG_SIZE) (length l - k * Z.to_nat RELSEG_SIZE).
Proof. unfold segment. by rewrite length_take, length_drop. Qed.

Lemma mem_seed_nblocks_loop_segments r f l fuel k :
  segmented r f l → (k * Z.to_nat RELSEG_SIZE <= length l)%nat →
  Z.of_nat (length l) / RELSEG_SIZE < Z.of_nat (k + fuel) →
  mem_seed_nblocks_loop fuel r f (Z.of_nat k) (Z.of_nat (k * Z.to_nat RELSEG_SIZE)) = Ok (Z.of_nat (length l)).
Proof.
  intros Hseg. pose proof (seg_len _ _ _ Hseg) as Hlen. revert k.
  induction fuel as [|fuel IH]; intros k Hk Hfuel.
  { exfalso. assert (Z.of_nat k <= Z.of_nat (length l) / RELSEG_SIZE); [|lia].
    apply Z.div_le_lower_bound; [lia|]. nia. }
  assert (Z.of_nat k < 2 ^ 32) as Hk32 by nia.
  simpl. unfold mem_seed_segment_stat.
  destruct (decide (k = 0%nat ∨ (k * Z.to_nat RELSEG_SIZE < length l)%nat)) as [Hin|Hout].
  - rewrite (seg_stat _ _ _ Hseg k Hin). simpl.
    pose proof (segment_length l k) as Hsl. set (n := Z.of_nat (length (segment l k))) in *.
    rewrite (Z.mul_comm BLCKSZ n), Z_mod_mult, Z_div_mult_full by lia. simpl.
    rewrite (wrap32_small n) by (unfold is_u32, n; lia).
    destruct (Z.ltb_spec RELSEG_SIZE n); [unfold n in *; lia|].
    rewrite (wrap32_small (_ + n)) by (unfold is_u32, n in *; lia).
    destruct (Z.ltb_spec n RELSEG_SIZE); [f_equal; unfold n in *; lia|].
    rewrite wrap32_small by (unfold is_u32, n in *; nia).
    replace (Z.of_nat k + 1) with (Z.of_nat (S k)) by lia.
    replace (Z.of_nat (k * Z.to_nat RELSEG_SIZE) + n) with (Z.of_nat (S k * Z.to_nat RELSEG_SIZE))
      by (unfold n in *; lia).
    apply IH; [unfold n in *; lia|lia].
  - assert (k ≠ 0%nat ∧ (k * Z.to_nat RELSEG_SIZE = length l)%nat) as [Hne Heq] by lia.
    pose proof (seg_end _ _ _ Hseg k Hne Heq) as Hend.
    apply elem_of_cons in Hend as [->|Hend%list_elem_of_singleton].
    + simpl. destruct (Z.eqb_spec (Z.of_nat k) 0); [lia|]. by rewrite Heq.
    + rewrite Hend. cbn -[Z.div Z.modulo wrap32]. rewrite Z.mod_0_l, Z.div_0_l by lia. simpl. change (wrap32 0) with 0.
      destruct (Z.ltb_spec RELSEG_SIZE 0); [lia|]. destruct (Z.ltb_spec 0 RELSEG_SIZE); [|lia].
      rewrite Z.add_0_r, Heq. by rewrite wrap32_small by (unfold is_u32; lia).
Qed.

Lemma mem_seed_nblocks_segments r f l : segmented r f l → mem_seed_nblocks r f = Ok (Z.of_nat (length l)).
Proof.
  intros Hseg. apply (mem_seed_nblocks_loop_segments r f l seed_fuel 0 Hseg); [lia|].
  pose proof (seg_len _ _ _ Hseg). unfold seed_fuel.
  assert (Z.of_nat (length l) / RELSEG_SIZE <= 2 ^ 32 / RELSEG_SIZE) by (apply Z.div_le_mono; lia).
  lia.
Qed.

Lemma mem_seed_read_block_segments r f l b blk old :
  segmented r f l → l !! b = Some blk → Z.of_nat (length old) = BLCKSZ →
  mem_seed_read_block r f (Z.of_nat b) old = (Ok tt, blk).
Proof.
  intros Hseg Hb Hold. pose proof (seg_block _ _ _ Hseg _ _ Hb) as Hblk. unfold mem_seed_read_block.
  assert (Z.of_nat b / RELSEG_SIZE = Z.of_nat (b / Z.to_nat RELSEG_SIZE)) as ->
    by (rewrite Nat2Z.inj_div; f_equal; lia).
  assert (Z.of_nat b mod RELSEG_SIZE = Z.of_nat (b mod Z.to_nat RELSEG_SIZE)) as ->
    by (rewrite Nat2Z.inj_mod; f_equal; lia).
  rewrite (seg_read _ _ _ Hseg _ _ blk).
  - rewrite Hblk, Z.eqb_refl. simpl. by rewrite drop_ge, app_nil_r by lia.
  - unfold segment. pose proof (Nat.mod_upper_bound b (Z.to_nat RELSEG_SIZE)).
    rewrite lookup_take_lt, lookup_drop by lia. rewrite <- Hb. f_equal.
    pose proof (Nat.div_mod_eq b (Z.to_nat RELSEG_SIZE)). lia.
Qed.

Lemma mem_seed_exists_segments r f l :
  mem_seed_active_for r = true → segmented r f l → mem_seed_exists r f = Ok true.
Proof.
  intros Hact Hseg. unfold mem_seed_exists. rewrite Hact. simpl. unfold mem_seed_segment_stat.
  pose proof (seg_stat _ _ _ Hseg 0%nat (or_introl eq_refl)) as Hstat.
  change (Z.of_nat 0) with 0 in Hstat. by rewrite Hstat.
Qed.

(** A directory with every fork laid out in segments, or absent. *)
Definition seed_dir (img : RelFileLocatorBackend → ForkNumber → option (list Block)) : Prop :=
  mem_seed_root ≠ None ∧
  ∀ r f, if mem_key_is_temp r then img r f = None
    else match img r f with
         | Some l => segmented r f l
         | None => fs_stat (mem_seed_segment_path r f 0) = StatENOENT
         end.

Lemma zero_block_length : Z.of_nat (length zero_block) = BLCKSZ.
Proof. unfold zero_block. rewrite repeat_length. lia. Qed.

Lemma seed_dir_segmented img r f l : seed_dir img → img r f = Some l → segmented r f l.
Proof. intros [_ H] Hl. specialize (H r f). rewrite Hl in H. by destruct (mem_key_is_temp r). Qed.

(** Such a directory is a seed image. *)
Program Definition seed_image_of img (H : seed_dir img) : SeedImage := {| seed_image := img |}.
Next Obligation. intros img [H _]. exact H. Qed.
Next Obligation. intros img [_ H] r f Ht. specialize (H r f). by rewrite Ht in H. Qed.
Next Obligation.
  intros img [Hroot H] r f Ht. specialize (H r f). rewrite Ht in H.
  assert (mem_seed_active_for r = true) as Ha
    by (unfold mem_seed_active_for; rewrite Ht; by rewrite bool_decide_eq_true_2).
  destruct (img r f) as [l|]; [by rewrite (mem_seed_exists_segments r f l)|].
  unfold mem_seed_exists, mem_seed_segment_stat. rewrite Ha, H. done.
Qed.
Next Obligation.
  intros img H r f l Hl. pose proof (seed_dir_segmented _ _ _ _ H Hl) as Hs.
  split; [by apply mem_seed_nblocks_segments|apply Hs].
Qed.
Next Obligation.
  intros img H r f l b blk Hl Hb. pose proof (seed_dir_segmented _ _ _ _ H Hl) as Hs.
  apply (mem_seed_read_block_segments r f l); [done..|apply zero_block_length].
Qed.

(** Reading the seed.  On a fork laid out in segments the seed functions
    find the fork, count all its blocks (the segment loop ends within its fuel)
    and read each block from the right place of the right file. *)
Theorem seed_segments_read r f l :
  mem_seed_active_for r = true → segmented r f l →
  mem_seed_exists r f = Ok true ∧ mem_seed_nblocks r f = Ok (Z.of_nat (length l)) ∧
  ∀ b blk old, l !! b = Some blk → Z.of_nat (length old) = BLCKSZ →
    mem_seed_read_block r f (Z.of_nat b) old = (Ok tt, blk).
Proof.
  intros Ha Hs. split_and!; [by eapply mem_seed_exists_segments|by apply mem_seed_nblocks_segments|].
  intros b blk old. by apply mem_seed_read_block_segments.
Qed.

Definition seg_string (segno : Z) : string := if 0 <? segno then "." +:+ fmt_u segno else "".

Lemma mem_seed_segment_path_app r f segno :
  mem_seed_segment_path r f segno = default "" mem_seed_root +:+ "/" +:+ (relpath version_dir r f +:+ seg_string segno).
Proof.
  unfold mem_seed_segment_path, seg_string. destruct (0 <? segno); [done|].
  by rewrite string_app_nil_r.
Qed.

(** A segment file belongs to one segment of one fork of one relation: no
    two of them share a path. *)
Theorem mem_seed_segment_path_inj r1 f1 k1 r2 f2 k2 :
  valid_locator r1 → valid_locator r2 → f1 ≠ InvalidForkNumber → f2 ≠ InvalidForkNumber →
  0 <= k1 → 0 <= k2 →
  mem_seed_segment_path r1 f1 k1 = mem_seed_segment_path r2 f2 k2 → r1 = r2 ∧ f1 = f2 ∧ k1 = k2.
Proof.
  intros Hr1 Hr2 Hf1 Hf2 H1 H2 E. rewrite !mem_seed_segment_path_app in E.
  apply string_app_inj_l, string_app_inj_l in E.
  assert (∀ k, seg_suffix (seg_string k)) as Hss by (intros k; unfold seg_string; by destruct (0 <? k)).
  apply relpath_app_inj in E as (-> & -> & E); [|done..]. split_and!; [done..|].
  unfold seg_string in E. destruct (Z.ltb_spec 0 k1), (Z.ltb_spec 0 k2); try done; [|lia].
  injection E as E. by apply fmt_u_inj in E.
Qed.
End seed.
