(* ===== verification/MemSmgrExamples.v ===== *)
(** * MemSmgrExamples: a concrete storage manager

    A two-byte-block build over a seed directory with one two-block relation,
    on which the theorems about memsmgr.c apply and its functions compute. *)

From Stdlib Require Import ZArith Lia Strings.Byte.
From stdpp Require Import base tactics numbers list gmap strings pretty.
From S2P Require Import Prelude HashFn RelPath MemSmgr MemSmgrInv MemSmgrRefine.
From S2P Require Import MemSmgrOps MemSmgrDrop MemSmgrSim MemSmgrSeed.

Local Open Scope Z_scope.
Local Open Scope pg_scope.

Definition ex_path : string := "seed/base/5/16384".
Definition ex_block1 : Block := [x01; x02].
Definition ex_block2 : Block := [x03; x04].

#[local] Instance ex_env : Env := {|
  BLCKSZ := 2;
  RELSEG_SIZE := 131072;
  version_dir := "PG_19_202511051";
  getenv := λ name, if bool_decide (name = "FASTPG_PGDATA_SEED") then Some "seed" else None;
  fs_stat := λ path, if bool_decide (path = ex_path) then StatOk 4 else StatENOENT;
  fs_read := λ path offset,
    if bool_decide (path = ex_path)
    then Some (if offset =? 0 then ex_block1 else if offset =? 2 then ex_block2 else []) else None;
  IsUnderPostmaster := true;
  MyBackend := 1;
  uninit_page_index := 0;
|}.

(** With a seed configured md.c is never called. *)
#[local] Instance ex_md : MdSmgr unit := {|
  mdopen := λ _, ereport ERRCODE_INTERNAL_ERROR "md";
  mdclose := λ _ _, ereport ERRCODE_INTERNAL_ERROR "md";
  mdcreate := λ _ _ _, ereport ERRCODE_INTERNAL_ERROR "md";
  mdexists := λ _ _, ereport ERRCODE_INTERNAL_ERROR "md";
  mdunlink := λ _ _ _, ereport ERRCODE_INTERNAL_ERROR "md";
  mdextend := λ _ _ _ _ _, ereport ERRCODE_INTERNAL_ERROR "md";
  mdzeroextend := λ _ _ _ _ _, ereport ERRCODE_INTERNAL_ERROR "md";
  mdprefetch := λ _ _ _ _, ereport ERRCODE_INTERNAL_ERROR "md";
  mdmaxcombine := λ _ _ _, ereport ERRCODE_INTERNAL_ERROR "md";
  mdreadv := λ _ _ _ _, ereport ERRCODE_INTERNAL_ERROR "md";
  mdwritev := λ _ _ _ _ _, ereport ERRCODE_INTERNAL_ERROR "md";
  mdnblocks := λ _ _, ereport ERRCODE_INTERNAL_ERROR "md";
  mdtruncate := λ _ _ _ _, ereport ERRCODE_INTERNAL_ERROR "md";
  mdwriteback := λ _ _ _ _, ereport ERRCODE_INTERNAL_ERROR "md";
  mdimmedsync := λ _ _, ereport ERRCODE_INTERNAL_ERROR "md";
  mdregistersync := λ _ _, ereport ERRCODE_INTERNAL_ERROR "md";
  mdfd := λ _ _ _, ereport ERRCODE_INTERNAL_ERROR "md";
|}.

Definition ex_img (r : RelFileLocatorBackend) (f : ForkNumber) : option (list Block) :=
  if mem_key_is_temp r then None
  else if bool_decide (mem_seed_segment_path r f 0 = ex_path) then Some [ex_block1; ex_block2] else None.

Lemma ex_segment_lookup (k : nat) i blk :
  segment [ex_block1; ex_block2] k !! i = Some blk →
  k = 0%nat ∧ (i = 0%nat ∧ blk = ex_block1 ∨ i = 1%nat ∧ blk = ex_block2).
Proof.
  unfold segment. intros H. assert (i < Z.to_nat RELSEG_SIZE)%nat as Hi.
  { apply lookup_lt_Some in H. rewrite length_take in H. lia. }
  rewrite lookup_take_lt, lookup_drop in H by done. pose proof (lookup_lt_Some _ _ _ H) as Hlt.
  change RELSEG_SIZE with 131072 in *. simpl length in Hlt.
  assert (k = 0%nat) as -> by lia. split; [done|]. simpl in H.
  destruct i as [|[|i]]; [left|right|lia]; by simplify_eq/=.
Qed.

Lemma ex_segmented r f : mem_seed_segment_path r f 0 = ex_path → segmented r f [ex_block1; ex_block2].
Proof.
  intros Hp. constructor.
  - done.
  - intros [|[|b]] blk H; by simplify_eq/=.
  - intros k Hk. assert (k = 0%nat) as ->.
    { change RELSEG_SIZE with 131072 in Hk. simpl length in Hk. lia. }
    change (Z.of_nat 0) with 0. rewrite Hp. reflexivity.
  - intros k Hk. change RELSEG_SIZE with 131072. simpl length. lia.
  - intros k i blk H. apply ex_segment_lookup in H as [-> [[-> ->]|[-> ->]]];
      change (Z.of_nat 0) with 0; rewrite Hp; reflexivity.
Qed.

Lemma ex_seed_dir : seed_dir ex_img.
Proof.
  split; [done|]. intros r f. unfold ex_img. destruct (mem_key_is_temp r); [done|].
  case_bool_decide as Hp; [by apply ex_segmented|].
  simpl. by rewrite bool_decide_eq_false_2.
Qed.

#[local] Instance ex_seed : SeedImage := seed_image_of eq_refl (conj eq_refl eq_refl) ex_img ex_seed_dir.

(** ** The storage manager after startup *)

Definition ex_rel : RelFileLocatorBackend :=
  {| locator := {| spcOid := 1663; dbOid := 5; relNumber := 16384 |}; backend := INVALID_PROC_NUMBER |}.

Definition ex_start : MemState unit := (MemSmgrShmemInit (boot tt)).2.

Lemma ex_wf : mem_wf ex_start.
Proof. by destruct (boot_wf tt) as (s & [= <-] & H & _). Qed.

Lemma ex_unlocked : unlocked ex_rel ex_start.
Proof. right. set_solver. Qed.

Lemma ex_room f : fork_table_room ex_rel f ex_start.
Proof. right. reflexivity. Qed.

Lemma ex_page_room (n : Z) : n <= 8 → page_room ex_rel n ex_start.
Proof.
  intros Hn. split.
  - change (0 + n <= MEMSMGR_SHARED_PAGES_PER_PARTITION).
    assert (8 <= MEMSMGR_SHARED_PAGES_PER_PARTITION) by done. lia.
  - change (0 + n <= MEMSMGR_SHARED_MAX_PAGES).
    assert (8 <= MEMSMGR_SHARED_MAX_PAGES) by done. lia.
Qed.

Lemma ex_view : fork_view ex_rel MAIN_FORKNUM ex_start = Some [ex_block1; ex_block2].
Proof. reflexivity. Qed.

Lemma memreadv_reads_witness :
  ∃ s', memreadv ex_rel MAIN_FORKNUM 0 2 ex_start = (Ok [ex_block1; ex_block2], s') ∧ preserves ex_start s'.
Proof.
  apply (memreadv_reads ex_rel MAIN_FORKNUM [ex_block1; ex_block2] 0 2 ex_start ex_wf ex_unlocked ex_view);
    [lia|lia|done|apply ex_room|apply ex_page_room; lia].
Defined.

Lemma memwritev_writes_witness :
  ∃ s', memwritev ex_rel MAIN_FORKNUM 3 [ex_block1] false ex_start = (Ok tt, s') ∧
    updates ex_rel MAIN_FORKNUM (Some [ex_block1; ex_block2; zero_block; ex_block1]) ex_start s'.
Proof.
  apply (memwritev_writes ex_rel MAIN_FORKNUM 3 [ex_block1] false ex_start ex_wf ex_unlocked (ex_room _));
    rewrite ?ex_view; simpl; [lia|lia|lia|]. apply ex_page_room. lia.
Defined.

Lemma memzeroextend_extends_witness :
  ∃ s', memzeroextend ex_rel MAIN_FORKNUM 2 1 false ex_start = (Ok tt, s') ∧
    updates ex_rel MAIN_FORKNUM (Some [ex_block1; ex_block2; zero_block]) ex_start s'.
Proof.
  apply (memzeroextend_extends ex_rel MAIN_FORKNUM 2 1 false ex_start ex_wf ex_unlocked (ex_room _));
    rewrite ?ex_view; simpl; [lia|lia|lia|lia|]. apply ex_page_room. lia.
Defined.

Lemma memtruncate_truncates_witness :
  ∃ s', memtruncate ex_rel MAIN_FORKNUM 2 1 ex_start = (Ok tt, s') ∧
    updates ex_rel MAIN_FORKNUM (Some [ex_block1]) ex_start s'.
Proof.
  apply (memtruncate_truncates ex_rel MAIN_FORKNUM 2 1 ex_start ex_wf ex_unlocked (ex_room _)).
  rewrite ex_view. simpl. lia.
Defined.

Lemma memcreate_creates_witness :
  ∃ s', memcreate ex_rel FSM_FORKNUM false ex_start = (Ok tt, s') ∧
    updates ex_rel FSM_FORKNUM (Some []) ex_start s'.
Proof.
  exact (memcreate_creates ex_rel FSM_FORKNUM false ex_start ex_wf ex_unlocked (ex_room _)).
Defined.

Lemma mem_sizes_witness :
  (∃ s', memnblocks ex_rel MAIN_FORKNUM ex_start = (Ok 2, s') ∧ preserves ex_start s') ∧
  (∃ s', memprefetch ex_rel MAIN_FORKNUM 1 2 ex_start = (Ok false, s') ∧ preserves ex_start s') ∧
  (∃ m s', memmaxcombine ex_rel MAIN_FORKNUM 1 ex_start = (Ok m, s') ∧ preserves ex_start s' ∧
    1 <= m <= MEMSMGR_MAX_COMBINE ∧ (1 < 2 → 1 + m <= 2)).
Proof.
  apply (mem_sizes ex_rel MAIN_FORKNUM 1 2 ex_start ex_wf ex_unlocked (ex_room _)); lia.
Defined.

Lemma memexists_correct_witness :
  ∃ s', memexists ex_rel MAIN_FORKNUM ex_start = (Ok true, s') ∧ preserves ex_start s'.
Proof. exact (memexists_correct ex_rel MAIN_FORKNUM ex_start ex_wf ex_unlocked (ex_room _)). Defined.

Lemma memunlink_drops_fork_witness :
  ∃ s', memunlink ex_rel MAIN_FORKNUM false ex_start = (Ok tt, s') ∧
    updates ex_rel MAIN_FORKNUM None ex_start s'.
Proof.
  exact (memunlink_drops_fork ex_rel MAIN_FORKNUM false ex_start ex_wf ex_unlocked
    (bool_decide_unpack (MAIN_FORKNUM ≠ InvalidForkNumber) I) (ex_room _)).
Defined.

Lemma memunlink_drops_relation_witness :
  ∃ s', memunlink ex_rel InvalidForkNumber false ex_start = (Ok tt, s') ∧
    drops ex_rel all_forks (λ _, None) ex_start s'.
Proof.
  apply (memunlink_drops_relation ex_rel false ex_start ex_wf ex_unlocked). vm_compute. discriminate.
Defined.

Lemma memreadv_rejects_witness :
  ∃ msg s', memreadv ex_rel MAIN_FORKNUM 1 2 ex_start = (Error ERRCODE_DATA_CORRUPTED msg, s') ∧ mem_wf s' ∧
    ∀ r' f', fork_view r' f' s' = fork_view r' f' ex_start.
Proof.
  apply (memreadv_rejects ex_rel MAIN_FORKNUM 1 2 ex_start ex_wf (ex_room _)); [lia|lia|lia|].
  left. rewrite ex_view. simpl. lia.
Defined.

Lemma seed_segments_read_witness :
  mem_seed_exists ex_rel MAIN_FORKNUM = Ok true ∧ mem_seed_nblocks ex_rel MAIN_FORKNUM = Ok 2 ∧
  ∀ b blk old, [ex_block1; ex_block2] !! b = Some blk → Z.of_nat (length old) = BLCKSZ →
    mem_seed_read_block ex_rel MAIN_FORKNUM (Z.of_nat b) old = (Ok tt, blk).
Proof.
  exact (seed_segments_read eq_refl (conj eq_refl eq_refl) ex_rel MAIN_FORKNUM [ex_block1; ex_block2]
    eq_refl (ex_segmented ex_rel MAIN_FORKNUM eq_refl)).
Defined.

Lemma ex_rel_valid : valid_locator ex_rel.
Proof. apply (bool_decide_unpack (valid_locator ex_rel)). vm_compute. exact I. Qed.

Lemma mem_seed_segment_path_inj_witness :
  ex_rel = ex_rel ∧ FSM_FORKNUM = FSM_FORKNUM ∧ 3 = 3.
Proof.
  apply (mem_seed_segment_path_inj ex_rel FSM_FORKNUM 3 ex_rel FSM_FORKNUM 3);
    [exact ex_rel_valid|exact ex_rel_valid|done|done|lia|lia|reflexivity].
Defined.

(** A run of every kind of call. *)
Definition ex_calls : list call :=
  [CExists ex_rel MAIN_FORKNUM; CNblocks ex_rel MAIN_FORKNUM; CReadv ex_rel MAIN_FORKNUM 0 2;
   CWritev ex_rel MAIN_FORKNUM 1 [ex_block1] false; CTruncate ex_rel MAIN_FORKNUM 2 1;
   CZeroExtend ex_rel MAIN_FORKNUM 1 1 false; CExtend ex_rel MAIN_FORKNUM 2 ex_block2 false;
   CReadv ex_rel MAIN_FORKNUM 0 3; CCreate ex_rel FSM_FORKNUM false; CZeroExtend ex_rel FSM_FORKNUM 1 1 false;
   CUnlink ex_rel FSM_FORKNUM false].

Lemma ex_admissible s : MemSmgrShmemInit (boot tt) = (Ok tt, s) → admissible ex_calls s.
Proof.
  intros [= <-]. unfold ex_calls.
  repeat (split; [by vm_compute; repeat split; auto; discriminate|split; [by vm_compute; repeat split; auto; discriminate|
    split; [by vm_compute; repeat split; auto; left; discriminate|]]]).
  exact I.
Qed.

Lemma memsmgr_simulates_store_witness :
  ∃ s', (MemSmgrShmemInit;; run_calls ex_calls) (boot tt) = (Ok
    [RBool true; RNum 2; RBlocks [ex_block1; ex_block2]; RUnit; RUnit; RUnit; RUnit;
     RBlocks [ex_block1; zero_block; ex_block2]; RUnit; RUnit; RUnit], s') ∧
    mem_wf s' ∧ held_lwlocks s' = ∅ ∧ ∀ r f, fork_view r f s' = (store_run ex_calls seed_image).2 r f.
Proof. exact (memsmgr_simulates_store ex_calls tt ex_admissible). Defined.
