(* ===== verification/MemSmgrFindings.v ===== *)
(** * MemSmgrFindings: where memsmgr.c departs from the smgr contract

    Each theorem runs the code on a state it can reach and shows a result that
    the contract of [MemSmgrSim], a comment of the source, or the smgr API
    does not allow. *)

From Stdlib Require Import ZArith Lia Strings.Byte.
From stdpp Require Import base tactics numbers list gmap strings pretty.
From S2P Require Import Prelude HashFn RelPath MemSmgr MemSmgrInv MemSmgrRefine.
From S2P Require Import MemSmgrOps MemSmgrDrop MemSmgrSim MemSmgrSeed MemSmgrExamples.

Local Open Scope Z_scope.
Local Open Scope pg_scope.

#[local] Existing Instance ex_env.
#[local] Existing Instance ex_md.
#[local] Existing Instance ex_seed.

(** The result of a computation, and the state it leaves once the locks of a
    failed call have been released. *)
Definition outcome {A} (m : M (MemState unit) A) (s : MemState unit) : result A := (m s).1.
Definition after {A} (m : M (MemState unit) A) (s : MemState unit) : MemState unit := set_held ∅ (m s).2.

(** An unlinked seed fork comes back.  After unlink, create and unlink
    the fork exists again with the blocks of the seed image: [memcreate] clears
    [on_disk] on the tombstone, so the second unlink removes the entry. *)
Theorem unlinked_seed_fork_returns :
  let s1 := after (memunlink ex_rel MAIN_FORKNUM false) ex_start in
  let s2 := after (memcreate ex_rel MAIN_FORKNUM false) s1 in
  let s3 := after (memunlink ex_rel MAIN_FORKNUM false) s2 in
  outcome (memexists ex_rel MAIN_FORKNUM) s1 = Ok false ∧
  outcome (memexists ex_rel MAIN_FORKNUM) s3 = Ok true ∧
  outcome (memreadv ex_rel MAIN_FORKNUM 0 2) s3 = Ok [ex_block1; ex_block2].
Proof. vm_compute. auto. Qed.

(** Dropping a relation may leave its main fork.  If the only fork opened
    so far has no seed file (here its free space map), the relation counts as
    memory-only and [memunlink] of all its forks does not hide the seed's. *)
Theorem relation_drop_misses_seed :
  let s1 := after (memnblocks ex_rel FSM_FORKNUM) ex_start in
  let s2 := after (memunlink ex_rel InvalidForkNumber false) s1 in
  outcome (memunlink ex_rel InvalidForkNumber false) s1 = Ok tt ∧
  outcome (memexists ex_rel MAIN_FORKNUM) s2 = Ok true ∧
  outcome (memexists ex_rel MAIN_FORKNUM) (after (memunlink ex_rel InvalidForkNumber false) ex_start) = Ok false.
Proof. vm_compute. auto. Qed.

(** A zero-extension past the end brings truncated blocks back.  The gap
    between the end of the fork and the first new block is not filled, and a
    fork of the seed image reads it from the seed. *)
Theorem zeroextend_gap_reads_seed :
  let s1 := after (memtruncate ex_rel MAIN_FORKNUM 2 0) ex_start in
  let s2 := after (memzeroextend ex_rel MAIN_FORKNUM 1 1 false) s1 in
  outcome (memnblocks ex_rel MAIN_FORKNUM) s1 = Ok 0 ∧
  outcome (memreadv ex_rel MAIN_FORKNUM 0 2) s2 = Ok [ex_block1; zero_block].
Proof. vm_compute. auto. Qed.

(** ** Errors that leave half-built entries *)

(** The same directory, with a file that can be stat-ed but not read. *)
Definition unreadable_env : Env := {|
  BLCKSZ := 2;
  RELSEG_SIZE := 131072;
  version_dir := "PG_19_202511051";
  getenv := @getenv ex_env;
  fs_stat := @fs_stat ex_env;
  fs_read := λ _ _, None;
  IsUnderPostmaster := true;
  MyBackend := 1;
  uninit_page_index := 0;
|}.

(** A failed seed read is remembered as a zero block.  The page is
    entered in the cache before the seed is read; when the read fails, the next
    read of the block succeeds and returns zeroes. *)
Theorem failed_seed_read_is_cached :
  let read := @memreadv unreadable_env unit ex_md ex_rel MAIN_FORKNUM 0 1 in
  (∃ msg, outcome read ex_start = Error ERRCODE_FILE_ACCESS msg) ∧
  outcome read (after read ex_start) = Ok [[x00; x00]].
Proof. vm_compute. eauto. Qed.

Definition other_rel : RelFileLocatorBackend :=
  {| locator := {| spcOid := 1663; dbOid := 5; relNumber := 20000 |}; backend := INVALID_PROC_NUMBER |}.

(** The arena with its first [n] pages used up. *)
Definition use_up {D} (n : Z) (s : MemState D) : MemState D :=
  Build_MemState (initialized s) n (page_data s) (fork_hashes s) (page_hashes s) (held_lwlocks s) (disk s).

Lemma use_up_wf n (s : MemState unit) : mem_wf s → next_page s <= n <= MEMSMGR_SHARED_MAX_PAGES → mem_wf (use_up n s).
Proof.
  intros [[Hinj Hb Hn] Hi Hf] Hle. constructor; [constructor|done|].
  - exact Hinj.
  - intros t k i H. apply (Hb t k i) in H. simpl. lia.
  - simpl. lia.
  - intros r f. by eapply fork_ok_ext; [..|apply Hf].
Qed.

(** One page of [ex_rel] in the arena, all the others used up. *)
Definition full_arena : MemState unit :=
  use_up MEMSMGR_SHARED_MAX_PAGES (after (memwritev ex_rel MAIN_FORKNUM 0 [ex_block2] false) ex_start).

Lemma full_arena_wf : mem_wf full_arena.
Proof.
  destruct (writev_total ex_rel MAIN_FORKNUM 0 [ex_block2] ex_start ex_wf ex_unlocked (ex_room _))
    as (s & Hs & Hu).
  - lia.
  - done.
  - rewrite ex_view. simpl. lia.
  - rewrite ex_view. apply ex_page_room. simpl. lia.
  - unfold full_arena, after, memwritev. rewrite seed_mode, Hs.
    pose proof (mem_wf_held ∅ s (up_wf _ _ _ _ _ Hu)) as Hwf.
    apply use_up_wf; [exact Hwf|]. split; [apply (arena_next _ (wf_arena _ Hwf))|done].
Qed.

(** After the arena has run out two relations share a page.  The page
    entry is in the table before a page is allocated for it; when the allocation
    fails the entry stays, with the page number its memory happened to hold (0
    in fresh shared memory), and writing the block again overwrites that page,
    which belongs to another relation. *)
Theorem full_arena_aliases_pages :
  let write := memwritev other_rel MAIN_FORKNUM 0 [[xff; xff]] false in
  mem_wf full_arena ∧
  (∃ msg, outcome write full_arena = Error ERRCODE_OUT_OF_MEMORY msg) ∧
  outcome write (after write full_arena) = Ok tt ∧
  outcome (memreadv ex_rel MAIN_FORKNUM 0 1) full_arena = Ok [ex_block2] ∧
  outcome (memreadv ex_rel MAIN_FORKNUM 0 1) (after write (after write full_arena)) = Ok [[xff; xff]].
Proof. split; [apply full_arena_wf|]. vm_compute. eauto. Qed.

(** ** Unlinking without a seed *)

Section no_seed.
Context {env : Env} {D : Type} {md : MdSmgr D}.
Implicit Types (s : MemState D) (r : RelFileLocatorBackend) (f : ForkNumber).

(** A computation that does not touch md.c's files. *)
Abbreviation keeps_disk := (respects (S := MemState D) (same disk)).

Local Hint Extern 3 (respects (same disk) _) => (intros ?; reflexivity) : respects.

Lemma mem_remove_fork_keeps_disk r f : keeps_disk (mem_remove_fork r f).
Proof. unfold mem_remove_fork. eauto 10 with respects. Qed.

Lemma mem_remove_memory_only_fork_keeps_disk r f : keeps_disk (mem_remove_memory_only_fork r f).
Proof. unfold mem_remove_memory_only_fork. eauto 10 with respects. Qed.

Lemma with_lock_keeps_disk {A} r (m : M (MemState D) A) : keeps_disk m → keeps_disk (with_lock r m).
Proof.
  intros Hm. assert (keeps_disk (mem_lock_for r)).
  { intros s. unfold mem_lock_for. by destruct (mem_key_is_temp r), (initialized s). }
  unfold with_lock, acquire, release. eauto 10 with respects.
Qed.

(** Without a seed the files of a dropped relation stay.  All other
    operations go to md.c when no seed is configured; [memunlink] does so only
    outside the postmaster's children, and in them changes nothing on disk. *)
Theorem memunlink_without_seed_keeps_files r f isRedo s :
  mem_seed_root = None → IsUnderPostmaster = true →
  mem_use_md = true ∧ disk (memunlink r f isRedo s).2 = disk s ∧
  ∀ s', memcreate r f isRedo s' = on_md (mdcreate r f isRedo) s'.
Proof.
  intros Hroot Hpm. assert (mem_use_md = true) as Hmd by by apply bool_decide_eq_true.
  split_and!; [done| |intros s'; unfold memcreate; by rewrite Hmd].
  unfold memunlink. rewrite Hpm. cbn [negb andb]. apply with_lock_keeps_disk.
  pose proof mem_remove_fork_keeps_disk. pose proof mem_remove_memory_only_fork_keeps_disk.
  eauto 10 with respects.
Qed.
End no_seed.

(** A postmaster child with no seed directory. *)
Definition no_seed_env : Env := {|
  BLCKSZ := 2;
  RELSEG_SIZE := 131072;
  version_dir := "PG_19_202511051";
  getenv := λ _, None;
  fs_stat := @fs_stat ex_env;
  fs_read := @fs_read ex_env;
  IsUnderPostmaster := true;
  MyBackend := 1;
  uninit_page_index := 0;
|}.

Lemma memunlink_without_seed_keeps_files_witness :
  @mem_use_md no_seed_env = true ∧
  disk (@memunlink no_seed_env unit ex_md ex_rel MAIN_FORKNUM false ex_start).2 = tt ∧
  ∀ s', @memcreate no_seed_env unit ex_md ex_rel MAIN_FORKNUM false s' =
    on_md (mdcreate ex_rel MAIN_FORKNUM false) s'.
Proof.
  exact (@memunlink_without_seed_keeps_files no_seed_env unit ex_md ex_rel MAIN_FORKNUM false ex_start
    eq_refl eq_refl).
Defined.
