(* ===== verification/RowLocks.v ===== *)
(** * RowLocks: the row locks of the in-memory table access method

    Model of the row lock table of src/src/backend/access/fastpg/
    fastpg_mem_tableam.c ([fastpg_mem_row_lock_hash] to
    [fastpg_mem_release_row_locks]): a hash table of mutexes shared by the
    backend threads, and the array of the mutexes each thread holds.  The
    threads interleave; a thread that waits for a mutex is in state [Waiting]. *)

From Stdlib Require Import ZArith Lia.
From stdpp Require Import base tactics numbers list gmap sets strings.
From S2P Require Import Prelude.

Local Open Scope Z_scope.
Local Open Scope pg_scope.

Module RowLocks.

Definition FASTPG_MEM_ROW_LOCK_BUCKETS : Z := 4096.

(** Entries are never freed: an address names one entry for ever.  The mutex is
    its owner. *)
Abbreviation addr := nat (only parsing).
Abbreviation thread := nat (only parsing).

Record FastPgMemRowLockEntry : Type := {
  le_mutex : option thread;
  le_row_id : Z;
  le_relid : Z;
}.

Inductive pc : Type :=
| Running
| Waiting (entry : addr).

(** [held] is fastpg_mem_held_row_locks[0 .. count - 1]. *)
Record ThreadState : Type := {
  th_held : list addr;
  th_capacity : Z;
  th_pc : pc;
}.

Record LockState : Type := {
  ls_heap : gmap addr FastPgMemRowLockEntry;
  ls_buckets : gmap Z (list addr);
  ls_threads : gmap thread ThreadState;
}.

Definition new_thread : ThreadState := {| th_held := []; th_capacity := 0; th_pc := Running |}.
Definition thread_of (t : thread) (s : LockState) : ThreadState := default new_thread (ls_threads s !! t).
Definition set_thread (t : thread) (ts : ThreadState) (s : LockState) : LockState :=
  {| ls_heap := ls_heap s; ls_buckets := ls_buckets s; ls_threads := <[t := ts]> (ls_threads s) |}.
Definition set_heap h (s : LockState) : LockState :=
  {| ls_heap := h; ls_buckets := ls_buckets s; ls_threads := ls_threads s |}.
Definition bucket_of (b : Z) (s : LockState) : list addr := default [] (ls_buckets s !! b).

(** ** The table *)

Definition fastpg_mem_row_lock_hash (relid row_id : Z) : Z :=
  let hash := Z.lxor row_id (wrap64 (Z.shiftl relid 32)) in
  let hash := Z.lxor hash (Z.shiftr hash 33) in
  let hash := wrap64 (hash * 0xff51afd7ed558ccd) in
  let hash := Z.lxor hash (Z.shiftr hash 33) in
  wrap32 (hash mod FASTPG_MEM_ROW_LOCK_BUCKETS).

(** The search loop over one bucket. *)
Fixpoint lock_search (h : gmap addr FastPgMemRowLockEntry) (relid row_id : Z) (l : list addr) : option addr :=
  match l with
  | [] => None
  | a :: l' =>
      match h !! a with
      | Some e =>
          if (le_relid e =? relid) && (le_row_id e =? row_id) then Some a
          else lock_search h relid row_id l'
      | None => lock_search h relid row_id l'
      end
  end.

(** The whole function runs under fastpg_mem_row_lock_table_mutex and is one
    step.  [alloc] is the address malloc returns, [mutex_ok] tells whether
    pthread_mutex_init succeeds. *)
Definition fastpg_mem_row_lock_entry (alloc : option addr) (mutex_ok : bool) (relid row_id : Z)
    : M LockState addr := λ s,
  let bucket := fastpg_mem_row_lock_hash relid row_id in
  match lock_search (ls_heap s) relid row_id (bucket_of bucket s) with
  | Some a => (Ok a, s)
  | None =>
      match alloc with
      | None => (Error ERRCODE_OUT_OF_MEMORY "out of memory allocating fastpg row lock", s)
      | Some a =>
          if negb mutex_ok then (Error ERRCODE_INTERNAL_ERROR "failed to initialize fastpg row lock", s)
          else (Ok a,
            {| ls_heap := <[a := {| le_mutex := None; le_row_id := row_id; le_relid := relid |}]> (ls_heap s);
               ls_buckets := <[bucket := a :: bucket_of bucket s]> (ls_buckets s);
               ls_threads := ls_threads s |})
      end
  end.

Definition fastpg_mem_row_lock_held (ts : ThreadState) (entry : addr) : bool :=
  bool_decide (entry ∈ th_held ts).

Definition mutex_set (a : addr) (m : option thread) (s : LockState) : LockState :=
  match ls_heap s !! a with
  | Some e => set_heap (<[a := {| le_mutex := m; le_row_id := le_row_id e; le_relid := le_relid e |}]> (ls_heap s)) s
  | None => s
  end.
Definition mutex_owner (a : addr) (s : LockState) : option thread := ls_heap s !! a ≫= le_mutex.

(** Called with the mutex of [entry] locked.  [realloc_ok] tells whether the
    array could be enlarged, when it has to be. *)
Definition fastpg_mem_remember_held_row_lock (realloc_ok : bool) (t : thread) (entry : addr)
    : M LockState unit := λ s,
  let ts := thread_of t s in
  let push cap := set_thread t {| th_held := th_held ts ++ [entry]; th_capacity := cap; th_pc := th_pc ts |} s in
  if th_capacity ts <=? Z.of_nat (length (th_held ts)) then
    let new_capacity := if th_capacity ts =? 0 then 8 else th_capacity ts * 2 in
    if negb realloc_ok
    then (Error ERRCODE_OUT_OF_MEMORY "out of memory tracking fastpg row lock", mutex_set entry None s)
    else (Ok tt, push new_capacity)
  else (Ok tt, push (th_capacity ts)).

Definition set_pc (t : thread) (p : pc) (s : LockState) : LockState :=
  let ts := thread_of t s in
  set_thread t {| th_held := th_held ts; th_capacity := th_capacity ts; th_pc := p |} s.

(** [fastpg_mem_acquire_row_lock] up to the call of pthread_mutex_lock: [Ok
    false] if it returns at once, [Ok true] if the thread now waits. *)
Definition fastpg_mem_acquire_row_lock (alloc : option addr) (mutex_ok : bool) (t : thread) (relid row_id : Z)
    : M LockState bool :=
  if row_id =? 0 then mret false
  else
    entry ← fastpg_mem_row_lock_entry alloc mutex_ok relid row_id;
    held ← gets (λ s, fastpg_mem_row_lock_held (thread_of t s) entry);
    if held : bool then mret false
    else modify (set_pc t (Waiting entry));; mret true.

(** pthread_mutex_lock returns, and the rest of the function. *)
Definition acquire_granted (realloc_ok : bool) (t : thread) (entry : addr) : M LockState bool :=
  modify (mutex_set entry (Some t));;
  modify (set_pc t Running);;
  fastpg_mem_remember_held_row_lock realloc_ok t entry;;
  mret true.

Fixpoint unlock_all (l : list addr) (s : LockState) : LockState :=
  match l with
  | [] => s
  | a :: l' => unlock_all l' (mutex_set a None s)
  end.

(** From the last lock taken to the first. *)
Definition fastpg_mem_release_row_locks (t : thread) (s : LockState) : LockState :=
  let ts := thread_of t s in
  set_thread t {| th_held := []; th_capacity := th_capacity ts; th_pc := th_pc ts |}
    (unlock_all (reverse (th_held ts)) s).

(** ** Interleavings

    Only a running thread calls; malloc returns an address that is not in
    use. *)
Inductive step : LockState → LockState → Prop :=
| step_acquire t relid row_id alloc mutex_ok s :
    th_pc (thread_of t s) = Running →
    (∀ a, alloc = Some a → ls_heap s !! a = None) →
    step s (fastpg_mem_acquire_row_lock alloc mutex_ok t relid row_id s).2
| step_granted t a realloc_ok s :
    th_pc (thread_of t s) = Waiting a → mutex_owner a s = None →
    step s (acquire_granted realloc_ok t a s).2
| step_release t s :
    th_pc (thread_of t s) = Running →
    step s (fastpg_mem_release_row_locks t s).

Definition init : LockState := {| ls_heap := ∅; ls_buckets := ∅; ls_threads := ∅ |}.

(** ** Lemmas on the state *)

Lemma thread_of_set t ts t' s : thread_of t' (set_thread t ts s) = if decide (t = t') then ts else thread_of t' s.
Proof.
  unfold thread_of, set_thread. simpl. case_decide; [subst; by rewrite lookup_insert_eq|].
  by rewrite lookup_insert_ne.
Qed.

Lemma thread_of_mutex t a m s : thread_of t (mutex_set a m s) = thread_of t s.
Proof. unfold mutex_set. by destruct (ls_heap s !! a). Qed.

Lemma bucket_of_mutex b a m s : bucket_of b (mutex_set a m s) = bucket_of b s.
Proof. unfold mutex_set. by destruct (ls_heap s !! a). Qed.

Lemma mutex_owner_set a m a' s :
  is_Some (ls_heap s !! a) → mutex_owner a' (mutex_set a m s) = if decide (a = a') then m else mutex_owner a' s.
Proof.
  intros [e He]. unfold mutex_set, mutex_owner. rewrite He. simpl. case_decide.
  - subst. by rewrite lookup_insert_eq.
  - by rewrite lookup_insert_ne.
Qed.

(** The key of an entry never changes. *)
Definition keys (s : LockState) : gmap addr (Z * Z) := (λ e, (le_relid e, le_row_id e)) <$> ls_heap s.

Lemma keys_mutex a m s : keys (mutex_set a m s) = keys s.
Proof.
  unfold keys, mutex_set. destruct (ls_heap s !! a) as [e|] eqn:He; [|done]. simpl.
  rewrite fmap_insert. simpl. apply insert_id. by rewrite lookup_fmap, He.
Qed.

Lemma keys_lookup a s k : keys s !! a = Some k ↔ ∃ e, ls_heap s !! a = Some e ∧ k = (le_relid e, le_row_id e).
Proof. unfold keys. rewrite lookup_fmap, fmap_Some. naive_solver. Qed.

(** The part of the invariant that is about the table, in terms of the keys. *)
Record table_ok (s : LockState) : Prop := {
  to_bucket : ∀ b a, a ∈ bucket_of b s → ∃ k, keys s !! a = Some k ∧ fastpg_mem_row_lock_hash k.1 k.2 = b;
  to_table : ∀ a k, keys s !! a = Some k → a ∈ bucket_of (fastpg_mem_row_lock_hash k.1 k.2) s;
  to_uniq : ∀ a1 a2 k, keys s !! a1 = Some k → keys s !! a2 = Some k → a1 = a2;
}.

Lemma table_ok_ext s s' : keys s' = keys s → (∀ b, bucket_of b s' = bucket_of b s) → table_ok s → table_ok s'.
Proof. intros E1 E2 [H1 H2 H3]. constructor; intros *; rewrite ?E1, ?E2; eauto. Qed.

Lemma lock_search_sound h relid row_id l a :
  lock_search h relid row_id l = Some a →
  a ∈ l ∧ ∃ e, h !! a = Some e ∧ le_relid e = relid ∧ le_row_id e = row_id.
Proof.
  induction l as [|b l IH]; [done|]. simpl. destruct (h !! b) as [e|] eqn:He.
  - destruct (Z.eqb_spec (le_relid e) relid), (Z.eqb_spec (le_row_id e) row_id); simpl; intros H;
      try (destruct (IH H) as [? ?]; split; [by right|done]).
    injection H as <-. split; [left|eauto].
  - intros H. destruct (IH H). split; [by right|done].
Qed.

Lemma lock_search_complete h relid row_id l a e :
  lock_search h relid row_id l = None → a ∈ l → h !! a = Some e → le_relid e = relid → le_row_id e ≠ row_id.
Proof.
  induction l as [|b l IH]; intros H Hin He Hr; [by apply not_elem_of_nil in Hin|]. simpl in H.
  apply elem_of_cons in Hin as [->|Hin].
  - rewrite He in H. destruct (Z.eqb_spec (le_relid e) relid), (Z.eqb_spec (le_row_id e) row_id); done.
  - apply IH; [|done..]. destruct (h !! b) as [e'|]; [|done].
    by destruct ((le_relid e' =? relid) && (le_row_id e' =? row_id)).
Qed.

(** A new entry for a row that has none, in front of its bucket. *)
Definition enter (a : addr) (relid row_id : Z) (s : LockState) : LockState :=
  let bucket := fastpg_mem_row_lock_hash relid row_id in
  {| ls_heap := <[a := {| le_mutex := None; le_row_id := row_id; le_relid := relid |}]> (ls_heap s);
     ls_buckets := <[bucket := a :: bucket_of bucket s]> (ls_buckets s);
     ls_threads := ls_threads s |}.

Lemma bucket_of_enter a relid row_id b s :
  bucket_of b (enter a relid row_id s) =
    if decide (fastpg_mem_row_lock_hash relid row_id = b) then a :: bucket_of b s else bucket_of b s.
Proof.
  unfold bucket_of, enter. simpl. case_decide; [subst; by rewrite lookup_insert_eq|].
  by rewrite lookup_insert_ne.
Qed.

Lemma keys_enter a relid row_id s : keys (enter a relid row_id s) = <[a := (relid, row_id)]> (keys s).
Proof. unfold keys, enter. simpl. by rewrite fmap_insert. Qed.

Lemma table_ok_enter a relid row_id s :
  table_ok s → keys s !! a = None → (∀ a', keys s !! a' ≠ Some (relid, row_id)) →
  table_ok (enter a relid row_id s).
Proof.
  intros Hok Ha Hno. constructor.
  - intros b a'. rewrite bucket_of_enter, keys_enter.
    assert (a' ∈ bucket_of b s → ∃ k, <[a:=(relid, row_id)]> (keys s) !! a' = Some k ∧
      fastpg_mem_row_lock_hash k.1 k.2 = b) as Hold.
    { intros Hin. destruct (to_bucket _ Hok _ _ Hin) as (k & Hk' & <-). exists k.
      rewrite lookup_insert_ne; [done|congruence]. }
    case_decide as Hb; [|done]. intros [->|Hin]%elem_of_cons; [|by apply Hold].
    exists (relid, row_id). by rewrite lookup_insert_eq.
  - intros a' k. rewrite bucket_of_enter, keys_enter. destruct (decide (a = a')) as [->|Hne].
    + rewrite lookup_insert_eq. intros [= <-]. simpl. rewrite decide_True by done. left.
    + rewrite lookup_insert_ne by done. intros H. apply (to_table _ Hok) in H.
      case_decide; [by right|done].
  - intros a1 a2 k. rewrite keys_enter. destruct (decide (a = a1)) as [<-|N1], (decide (a = a2)) as [<-|N2];
      rewrite ?lookup_insert_eq, ?lookup_insert_ne by done; try done.
    + intros [= <-] H. by apply Hno in H.
    + intros H [= <-]. by apply Hno in H.
    + apply (to_uniq _ Hok).
Qed.

(** Looking a row up finds its entry or makes it; nothing else changes. *)
Lemma row_lock_entry_spec alloc mutex_ok relid row_id s res s' :
  table_ok s → (∀ a, alloc = Some a → ls_heap s !! a = None) →
  fastpg_mem_row_lock_entry alloc mutex_ok relid row_id s = (res, s') →
  table_ok s' ∧ ls_threads s' = ls_threads s ∧ (∀ a, mutex_owner a s' = mutex_owner a s) ∧
  (∀ a k, keys s !! a = Some k → keys s' !! a = Some k) ∧
  match res with Ok a => keys s' !! a = Some (relid, row_id) | Error _ _ => s' = s end.
Proof.
  intros Hok Hal. unfold fastpg_mem_row_lock_entry.
  destruct (lock_search _ _ _ _) as [a|] eqn:Hs.
  { intros [= <- <-]. apply lock_search_sound in Hs as (_ & e & He & <- & <-).
    split_and!; try done. apply keys_lookup. eauto. }
  destruct alloc as [a|]; [|by intros [= <- <-]]. destruct mutex_ok; simpl; intros [= <- <-]; [|done].
  specialize (Hal a eq_refl).
  assert (keys s !! a = None) as Hka by (unfold keys; by rewrite lookup_fmap, Hal).
  fold (enter a relid row_id s). rewrite keys_enter. split_and!.
  - apply table_ok_enter; [done..|]. intros a' Ha'. pose proof (to_table _ Hok _ _ Ha') as Hin.
    apply keys_lookup in Ha' as (e & He & [= -> ->]).
    by eapply lock_search_complete in Hs; [| exact Hin | exact He |].
  - done.
  - intros a'. unfold mutex_owner. simpl. destruct (decide (a = a')) as [<-|Hne].
    + by rewrite lookup_insert_eq, Hal.
    + by rewrite lookup_insert_ne.
  - intros a' k Ha'. rewrite lookup_insert_ne; [done|congruence].
  - by rewrite lookup_insert_eq.
Qed.

(** ** The invariant *)

Record lock_ok (s : LockState) : Prop := {
  lo_table : table_ok s;
  (** every lock held is the thread's mutex, and every mutex taken is held *)
  lo_held : ∀ t a, a ∈ th_held (thread_of t s) ↔ mutex_owner a s = Some t;
  lo_nodup : ∀ t, NoDup (th_held (thread_of t s));
  lo_cap : ∀ t, Z.of_nat (length (th_held (thread_of t s))) <= th_capacity (thread_of t s);
  (** a thread waits for an entry of the table that it does not hold *)
  lo_wait : ∀ t a, th_pc (thread_of t s) = Waiting a →
    is_Some (keys s !! a) ∧ a ∉ th_held (thread_of t s);
}.

Lemma thread_of_threads t s s' : ls_threads s' = ls_threads s → thread_of t s' = thread_of t s.
Proof. unfold thread_of. by intros ->. Qed.

(** Changing what a thread waits for. *)
Lemma lock_ok_set_pc t p s :
  lock_ok s → (∀ a, p = Waiting a → is_Some (keys s !! a) ∧ a ∉ th_held (thread_of t s)) →
  lock_ok (set_pc t p s).
Proof.
  intros [Ht Hh Hn Hc Hw] Hp. unfold set_pc. constructor.
  - by eapply table_ok_ext; [..|exact Ht].
  - intros t' a. rewrite thread_of_set. case_decide; subst; apply Hh.
  - intros t'. rewrite thread_of_set. case_decide; subst; apply Hn.
  - intros t'. rewrite thread_of_set. case_decide; subst; apply Hc.
  - intros t' a. rewrite thread_of_set. case_decide; subst; [apply Hp|apply Hw].
Qed.

Lemma lock_ok_entry alloc mutex_ok relid row_id s res s' :
  lock_ok s → (∀ a, alloc = Some a → ls_heap s !! a = None) →
  fastpg_mem_row_lock_entry alloc mutex_ok relid row_id s = (res, s') →
  lock_ok s' ∧ ls_threads s' = ls_threads s ∧ ∀ a, res = Ok a → keys s' !! a = Some (relid, row_id).
Proof.
  intros [Ht Hh Hn Hc Hw] Hal H.
  apply row_lock_entry_spec in H as (Ht' & Eth & Eown & Ekeys & Hres); [|done..].
  assert (∀ t, thread_of t s' = thread_of t s) as E by (intros; by apply thread_of_threads).
  split; [|split; [done|]].
  - constructor; [done|..].
    + intros t a. rewrite E, Eown. apply Hh.
    + intros t. rewrite E. apply Hn.
    + intros t. rewrite E. apply Hc.
    + intros t a. rewrite E. intros H. apply Hw in H as [[k Hk] ?]. split; [|done]. eauto.
  - intros a ->. done.
Qed.

Lemma lock_ok_acquire t relid row_id alloc mutex_ok s :
  lock_ok s → (∀ a, alloc = Some a → ls_heap s !! a = None) →
  lock_ok (fastpg_mem_acquire_row_lock alloc mutex_ok t relid row_id s).2.
Proof.
  intros Hok Hal. unfold fastpg_mem_acquire_row_lock. destruct (row_id =? 0); [done|].
  unfold mbind, M_bind. destruct (fastpg_mem_row_lock_entry _ _ _ _ s) as [res s1] eqn:H.
  apply lock_ok_entry in H as (Hok1 & _ & Hres); [|done..].
  destruct res as [a|c e]; [|done]. unfold gets, fastpg_mem_row_lock_held.
  case_bool_decide as Hheld; [done|]. apply lock_ok_set_pc; [done|].
  intros a' [= <-]. split; [|done]. rewrite (Hres a eq_refl). eauto.
Qed.

(** Taking a free mutex and recording it. *)
Lemma lock_ok_take t a cap s :
  lock_ok s → is_Some (keys s !! a) → mutex_owner a s = None → th_pc (thread_of t s) = Running →
  Z.of_nat (S (length (th_held (thread_of t s)))) <= cap →
  lock_ok (set_thread t {| th_held := th_held (thread_of t s) ++ [a]; th_capacity := cap;
                           th_pc := Running |} (mutex_set a (Some t) s)).
Proof.
  intros [Ht Hh Hn Hc Hw] [k Hk] Hfree Hrun Hcap.
  assert (is_Some (ls_heap s !! a)) as Hin by (apply keys_lookup in Hk as (e & He & _); eauto).
  assert (∀ t', a ∉ th_held (thread_of t' s)) as Hnot by (intros t'; rewrite Hh; congruence).
  constructor.
  - eapply table_ok_ext; [..|exact Ht]; [exact (keys_mutex a (Some t) s)|intros b; exact (bucket_of_mutex b a (Some t) s)].
  - intros t' a'. rewrite thread_of_set, thread_of_mutex.
    change (mutex_owner a' (set_thread _ _ ?x)) with (mutex_owner a' x).
    rewrite mutex_owner_set by done. case_decide as Hd; subst; simpl.
    + rewrite elem_of_app, list_elem_of_singleton, Hh. case_decide; subst; [tauto|]. split; [intros [?|?]; congruence|auto].
    + case_decide; subst; [|apply Hh]. split; [intros H; by apply Hnot in H|congruence].
  - intros t'. rewrite thread_of_set, thread_of_mutex. case_decide; [simpl|apply Hn].
    apply NoDup_app. split_and!; [apply Hn| |apply NoDup_singleton].
    intros x Hx ->%list_elem_of_singleton. by apply Hnot in Hx.
  - intros t'. rewrite thread_of_set, thread_of_mutex. case_decide; [simpl|apply Hc].
    rewrite length_app. simpl. lia.
  - intros t' a'. rewrite thread_of_set, thread_of_mutex. case_decide as Hd; [done|]. intros Hwait.
    apply Hw in Hwait. change (keys (set_thread _ _ ?x)) with (keys x). by rewrite keys_mutex.
Qed.

Lemma set_thread_twice t ts ts' s : set_thread t ts' (set_thread t ts s) = set_thread t ts' s.
Proof. unfold set_thread. simpl. by rewrite insert_insert_eq. Qed.

(** Giving back a mutex that was free. *)
Lemma mutex_give_back t a s :
  mutex_owner a s = None → mutex_set a None (set_pc t Running (mutex_set a (Some t) s)) = set_pc t Running s.
Proof.
  unfold mutex_owner, set_pc. rewrite thread_of_mutex. unfold mutex_set.
  destruct (ls_heap s !! a) as [e|] eqn:He; simpl; [|by rewrite He]. intros Hm.
  rewrite lookup_insert_eq. unfold set_heap, set_thread. simpl. rewrite insert_insert_eq. f_equal.
  apply insert_id. rewrite He. destruct e; simpl in *; by subst.
Qed.

Lemma lock_ok_granted t a realloc_ok s :
  lock_ok s → th_pc (thread_of t s) = Waiting a → mutex_owner a s = None →
  lock_ok (acquire_granted realloc_ok t a s).2 ∧
  (acquire_granted true t a s).1 = Ok true.
Proof.
  intros Hok Hpc Hfree. destruct (lo_wait _ Hok _ _ Hpc) as [Hk Hnot].
  pose proof (lock_ok_set_pc t Running s Hok ltac:(done)) as Hok'.
  assert (thread_of t (set_pc t Running s) = {| th_held := th_held (thread_of t s);
    th_capacity := th_capacity (thread_of t s); th_pc := Running |}) as Hts.
  { unfold set_pc. rewrite thread_of_set. by rewrite decide_True. }
  assert (set_pc t Running (mutex_set a (Some t) s) = mutex_set a (Some t) (set_pc t Running s)) as Hcomm.
  { unfold set_pc. rewrite thread_of_mutex. unfold mutex_set. simpl. by destruct (ls_heap s !! a). }
  assert (∀ cap, Z.of_nat (S (length (th_held (thread_of t s)))) <= cap →
    lock_ok (set_thread t {| th_held := th_held (thread_of t s) ++ [a]; th_capacity := cap; th_pc := Running |}
      (set_pc t Running (mutex_set a (Some t) s)))) as Htake.
  { intros cap Hcap. pose proof (lock_ok_take t a cap (set_pc t Running s)) as Ht. rewrite Hts, <- Hcomm in Ht.
    by apply Ht. }
  assert (thread_of t (set_pc t Running (mutex_set a (Some t) s)) = thread_of t (set_pc t Running s)) as Hts'
    by (rewrite Hcomm; apply thread_of_mutex).
  pose proof (lo_cap _ Hok t) as Hcap.
  unfold acquire_granted, fastpg_mem_remember_held_row_lock, mbind, M_bind, modify, mret, M_ret.
  rewrite !Hts', !Hts. simpl.
  destruct (Z.leb_spec (th_capacity (thread_of t s)) (Z.of_nat (length (th_held (thread_of t s))))) as [Hle|Hlt].
  - split; [|done]. destruct realloc_ok; simpl.
    + apply Htake. destruct (Z.eqb_spec (th_capacity (thread_of t s)) 0); lia.
    + by rewrite mutex_give_back.
  - split; [|done]. apply Htake. lia.
Qed.

Lemma unlock_all_thread t l s : thread_of t (unlock_all l s) = thread_of t s.
Proof. revert s. induction l; intros s; [done|]. simpl. by rewrite IHl, thread_of_mutex. Qed.
Lemma unlock_all_keys l s : keys (unlock_all l s) = keys s.
Proof. revert s. induction l; intros s; [done|]. simpl. by rewrite IHl, keys_mutex. Qed.
Lemma unlock_all_bucket b l s : bucket_of b (unlock_all l s) = bucket_of b s.
Proof. revert s. induction l; intros s; [done|]. simpl. by rewrite IHl, bucket_of_mutex. Qed.

Lemma unlock_all_owner a l s :
  mutex_owner a (unlock_all l s) = if decide (a ∈ l) then None else mutex_owner a s.
Proof.
  revert s. induction l as [|b l IH]; intros s; [by rewrite decide_False by apply not_elem_of_nil|].
  simpl. rewrite IH. destruct (decide (a ∈ l)) as [Hin|Hin].
  - rewrite decide_True; [done|by right].
  - destruct (decide (b = a)) as [->|Hne].
    + rewrite decide_True by left. unfold mutex_set, mutex_owner.
      destruct (ls_heap s !! a) eqn:He; simpl; [by rewrite lookup_insert_eq|by rewrite He].
    + rewrite decide_False by (intros [->|?]%elem_of_cons; done).
      unfold mutex_set, mutex_owner. destruct (ls_heap s !! b) eqn:He; [|done]. simpl.
      by rewrite lookup_insert_ne.
Qed.

Lemma lock_ok_release t s : lock_ok s → lock_ok (fastpg_mem_release_row_locks t s).
Proof.
  intros [Ht Hh Hn Hc Hw]. unfold fastpg_mem_release_row_locks. constructor.
  - eapply table_ok_ext; [..|exact Ht]; [apply unlock_all_keys|intros b; apply unlock_all_bucket].
  - intros t' a. rewrite thread_of_set, unlock_all_thread.
    change (mutex_owner a (set_thread _ _ ?x)) with (mutex_owner a x).
    rewrite unlock_all_owner. destruct (decide (a ∈ reverse _)) as [Hin|Hin]; rewrite elem_of_reverse in Hin.
    + split; [|done]. apply Hh in Hin. case_decide; [intros H'; by apply not_elem_of_nil in H'|].
      intros H'. apply Hh in H'. congruence.
    + case_decide; subst; [|apply Hh]. simpl. split; [intros H'; by apply not_elem_of_nil in H'|].
      intros H'. by apply Hh in H'.
  - intros t'. rewrite thread_of_set, unlock_all_thread. case_decide; [apply NoDup_nil_2|apply Hn].
  - intros t'. rewrite thread_of_set, unlock_all_thread. case_decide; [|apply Hc]. simpl.
    pose proof (Hc t). lia.
  - intros t' a. rewrite thread_of_set, unlock_all_thread.
    change (keys (set_thread _ _ ?x)) with (keys x). rewrite unlock_all_keys.
    case_decide; [|apply Hw]. simpl. intros H'. apply Hw in H' as [? _]. split; [done|apply not_elem_of_nil].
Qed.

Lemma lock_ok_init : lock_ok init.
Proof.
  assert (∀ t, thread_of t init = new_thread) as Ht by done.
  assert (∀ b, bucket_of b init = []) as Hb by done.
  assert (∀ a, keys init !! a = None) as Hk by done.
  constructor; [constructor|..].
  - intros b a H. rewrite Hb in H. by apply not_elem_of_nil in H.
  - intros a k H. by rewrite Hk in H.
  - intros a1 a2 k H. by rewrite Hk in H.
  - intros t a. rewrite Ht. split; [intros H; by apply not_elem_of_nil in H|done].
  - intros t. rewrite Ht. apply NoDup_nil_2.
  - intros t. by rewrite Ht.
  - intros t a H. by rewrite Ht in H.
Qed.

Lemma lock_ok_step s s' : lock_ok s → step s s' → lock_ok s'.
Proof.
  intros Hok Hs. destruct Hs; [by apply lock_ok_acquire|by apply lock_ok_granted|by apply lock_ok_release].
Qed.

Lemma lock_ok_reachable s : rtc step init s → lock_ok s.
Proof.
  intros H. assert (∀ s1 s2, rtc step s1 s2 → lock_ok s1 → lock_ok s2) as Hind.
  { induction 1 as [|s1 s2 s3 Hst _ IH]; [done|]. intros. by eapply IH, lock_ok_step. }
  eapply Hind; [exact H|apply lock_ok_init].
Qed.

(** The threads that hold the lock of a row. *)
Definition holds (t : thread) (relid row_id : Z) (s : LockState) : Prop :=
  ∃ a, a ∈ th_held (thread_of t s) ∧ keys s !! a = Some (relid, row_id).

(** C25: mutual exclusion.  However the threads interleave, and whichever
    allocations fail, no two threads hold the lock of one row; a thread never
    waits for a lock it already holds, and when it releases its locks no mutex
    is left locked by it. *)
Theorem row_locks_exclusive s :
  rtc step init s →
  (∀ t1 t2 relid row_id, holds t1 relid row_id s → holds t2 relid row_id s → t1 = t2) ∧
  (∀ t a, th_pc (thread_of t s) = Waiting a → mutex_owner a s ≠ Some t) ∧
  (∀ t a, mutex_owner a (fastpg_mem_release_row_locks t s) ≠ Some t).
Proof.
  intros Hr. pose proof (lock_ok_reachable s Hr) as Hok. split_and!.
  - intros t1 t2 relid row_id (a1 & H1 & K1) (a2 & H2 & K2).
    pose proof (to_uniq _ (lo_table _ Hok) _ _ _ K1 K2) as ->.
    apply (lo_held _ Hok) in H1, H2. congruence.
  - intros t a Hw. rewrite <- (lo_held _ Hok). by apply (lo_wait _ Hok).
  - intros t a. rewrite <- (lo_held _ (lock_ok_release t s Hok)).
    unfold fastpg_mem_release_row_locks. rewrite thread_of_set, decide_True by done. apply not_elem_of_nil.
Qed.

(** ** Deadlock *)

Definition deadlocked (t1 t2 : thread) (a1 a2 : addr) (s : LockState) : Prop :=
  th_pc (thread_of t1 s) = Waiting a2 ∧ th_pc (thread_of t2 s) = Waiting a1 ∧
  mutex_owner a1 s = Some t1 ∧ mutex_owner a2 s = Some t2.

Lemma acquire_frame t relid row_id alloc mutex_ok s :
  lock_ok s → (∀ a, alloc = Some a → ls_heap s !! a = None) →
  let s' := (fastpg_mem_acquire_row_lock alloc mutex_ok t relid row_id s).2 in
  (∀ t', t' ≠ t → thread_of t' s' = thread_of t' s) ∧ ∀ a, mutex_owner a s' = mutex_owner a s.
Proof.
  intros Hok Hal. unfold fastpg_mem_acquire_row_lock. destruct (row_id =? 0); [done|].
  unfold mbind, M_bind. destruct (fastpg_mem_row_lock_entry _ _ _ _ s) as [res s1] eqn:H.
  apply row_lock_entry_spec in H as (_ & Eth & Eown & _); [|apply Hok|done].
  assert (∀ t', thread_of t' s1 = thread_of t' s) as E by (intros; by apply thread_of_threads).
  destruct res as [a|c e]; [|done]. unfold gets, fastpg_mem_row_lock_held.
  case_bool_decide; [done|]. split; [|exact Eown].
  intros t' Hne. simpl. unfold set_pc. rewrite thread_of_set. by rewrite decide_False.
Qed.

Lemma granted_state t a realloc_ok s :
  mutex_owner a s = None →
  ∃ ts m, (acquire_granted realloc_ok t a s).2 = set_thread t ts (mutex_set a m s).
Proof.
  intros Hfree.
  unfold acquire_granted, fastpg_mem_remember_held_row_lock, mbind, M_bind, modify, mret, M_ret.
  destruct (_ <=? _); simpl; [destruct realloc_ok; simpl|].
  - unfold set_pc. rewrite set_thread_twice. eauto.
  - rewrite mutex_give_back by done. eexists _, None. unfold set_pc. f_equal.
    unfold mutex_set, mutex_owner in *. destruct (ls_heap s !! a) as [[m r k]|] eqn:He; [|done].
    simpl in *. subst m. destruct s. unfold set_heap. simpl in *. by rewrite insert_id.
  - unfold set_pc. rewrite set_thread_twice. eauto.
Qed.

Lemma granted_frame t a realloc_ok s :
  mutex_owner a s = None →
  let s' := (acquire_granted realloc_ok t a s).2 in
  (∀ t', t' ≠ t → thread_of t' s' = thread_of t' s) ∧
  ∀ a', is_Some (mutex_owner a' s) → mutex_owner a' s' = mutex_owner a' s.
Proof.
  intros Hfree. destruct (granted_state t a realloc_ok s Hfree) as (ts & m & E). simpl. rewrite E. split.
  - intros t' Hne. rewrite thread_of_set, decide_False by done. apply thread_of_mutex.
  - intros a' [t' Hs]. assert (a ≠ a') as Hne by congruence.
    change (mutex_owner a' (set_thread _ _ ?x)) with (mutex_owner a' x).
    unfold mutex_owner, mutex_set. destruct (ls_heap s !! a); [|done]. simpl. by rewrite lookup_insert_ne.
Qed.

Lemma release_frame t s :
  lock_ok s →
  let s' := fastpg_mem_release_row_locks t s in
  (∀ t', t' ≠ t → thread_of t' s' = thread_of t' s) ∧
  ∀ a t', t' ≠ t → mutex_owner a s = Some t' → mutex_owner a s' = Some t'.
Proof.
  intros Hok. unfold fastpg_mem_release_row_locks. split.
  - intros t' Hne. rewrite thread_of_set, decide_False by done. apply unlock_all_thread.
  - intros a t' Hne Hown. change (mutex_owner a (set_thread _ _ ?x)) with (mutex_owner a x).
    rewrite unlock_all_owner, decide_False; [done|]. rewrite elem_of_reverse, (lo_held _ Hok). congruence.
Qed.

Lemma deadlocked_step t1 t2 a1 a2 s s' :
  lock_ok s → deadlocked t1 t2 a1 a2 s → step s s' → deadlocked t1 t2 a1 a2 s'.
Proof.
  intros Hok (W1 & W2 & O1 & O2) Hs. destruct Hs as [t relid row_id alloc mutex_ok s Hpc Hal|t a ok s Hpc Hf|t s Hpc].
  - assert (t1 ≠ t ∧ t2 ≠ t) as [N1 N2] by (split; congruence).
    destruct (acquire_frame t relid row_id alloc mutex_ok s Hok Hal) as [F1 F2].
    unfold deadlocked. rewrite !F2. by rewrite (F1 t1 N1), (F1 t2 N2).
  - assert (t1 ≠ t ∧ t2 ≠ t) as [N1 N2] by (split; intros ->; congruence).
    destruct (granted_frame t a ok s Hf) as [F1 F2]. unfold deadlocked.
    rewrite (F2 a1), (F2 a2), (F1 t1 N1), (F1 t2 N2) by eauto. done.
  - assert (t1 ≠ t ∧ t2 ≠ t) as [N1 N2] by (split; congruence).
    destruct (release_frame t s Hok) as [F1 F2]. unfold deadlocked.
    rewrite (F2 a1 t1), (F2 a2 t2), (F1 t1 N1), (F1 t2 N2) by done. done.
Qed.

Lemma deadlocked_forever t1 t2 a1 a2 s s' :
  lock_ok s → deadlocked t1 t2 a1 a2 s → rtc step s s' → deadlocked t1 t2 a1 a2 s'.
Proof.
  intros Hok Hd Hr. induction Hr as [|s1 s2 s3 Hs Hr IH]; [done|].
  apply IH; [by eapply lock_ok_step|by eapply deadlocked_step].
Qed.

(** *** A run of two threads *)

Definition lock_row (t : thread) (a : addr) (row_id : Z) (s : LockState) : LockState :=
  (fastpg_mem_acquire_row_lock (Some a) true t 16384 row_id s).2.
Definition get_lock (t : thread) (a : addr) (s : LockState) : LockState := (acquire_granted true t a s).2.

Lemma reach_lock_row t a row_id s :
  rtc step init s → th_pc (thread_of t s) = Running → ls_heap s !! a = None →
  rtc step init (lock_row t a row_id s).
Proof.
  intros Hr Hpc Ha. eapply rtc_r; [exact Hr|]. apply step_acquire; [done|]. by intros a' [= <-].
Qed.

Lemma reach_get_lock t a s :
  rtc step init s → th_pc (thread_of t s) = Waiting a → mutex_owner a s = None →
  rtc step init (get_lock t a s).
Proof. intros Hr Hpc Ha. eapply rtc_r; [exact Hr|]. by apply step_granted. Qed.

(** Thread 1 locks row 7, thread 2 row 9. *)
Definition two_locked : LockState := get_lock 2 20 (lock_row 2 20 9 (get_lock 1 10 (lock_row 1 10 7 init))).

Lemma two_locked_reachable : rtc step init two_locked.
Proof.
  unfold two_locked. apply reach_get_lock; [|by vm_compute..]. apply reach_lock_row; [|by vm_compute..].
  apply reach_get_lock; [|by vm_compute..]. apply reach_lock_row; by vm_compute.
Qed.

(** Thread 1 then asks for row 9, and thread 2 for row 7. *)
Definition crossed : LockState := lock_row 2 22 7 (lock_row 1 21 9 two_locked).

Lemma crossed_reachable : rtc step init crossed.
Proof.
  unfold crossed. apply reach_lock_row; [|by vm_compute..]. apply reach_lock_row; [|by vm_compute..].
  apply two_locked_reachable.
Qed.

Lemma row_locks_exclusive_witness :
  holds 1 16384 7 two_locked ∧ holds 2 16384 9 two_locked ∧
  (∀ t1 t2 relid row_id, holds t1 relid row_id two_locked → holds t2 relid row_id two_locked → t1 = t2) ∧
  (∀ t a, th_pc (thread_of t two_locked) = Waiting a → mutex_owner a two_locked ≠ Some t) ∧
  (∀ t a, mutex_owner a (fastpg_mem_release_row_locks t two_locked) ≠ Some t).
Proof.
  split; [exists 10%nat; split; [apply (bool_decide_unpack _); by vm_compute|by vm_compute]|].
  split; [exists 20%nat; split; [apply (bool_decide_unpack _); by vm_compute|by vm_compute]|].
  exact (row_locks_exclusive two_locked two_locked_reachable).
Defined.

(** Row locks can deadlock for good.  Two threads that take the locks of
    two rows in opposite orders reach a state from which neither ever runs
    again, whatever the other threads do: nothing in the lock table detects the
    cycle or times out. *)
Theorem row_locks_deadlock :
  ∃ s, rtc step init s ∧
    ∀ s', rtc step s s' → th_pc (thread_of 1 s') ≠ Running ∧ th_pc (thread_of 2 s') ≠ Running.
Proof.
  exists crossed. split; [apply crossed_reachable|]. intros s' Hr.
  destruct (deadlocked_forever 1 2 10 20 crossed s') as (W1 & W2 & _);
    [by apply lock_ok_reachable, crossed_reachable|by vm_compute|done|].
  by rewrite W1, W2.
Qed.
End RowLocks.
