(* ===== verification/RowIds.v ===== *)
(** * RowIds: row numbers, tuple identifiers and block layout

    The conversions between storage row numbers and tuple identifiers (TIDs) of
    src/src/backend/access/fastpg/fastpg_mem_tableam.c, and the table of rows
    per block they depend on.  The first storage engine numbers the rows of a
    relation from 1 and packs [rows_per_block] of them in a block; the second
    one packs a block number and an offset in 48 bits. *)

From Stdlib Require Import ZArith Lia Bool.
From stdpp Require Import base tactics numbers list.
From S2P Require Import Prelude.

Local Open Scope Z_scope.
Local Open Scope pg_scope.

Module RowIds.

(** ** Constants of the default build *)

Definition BLCKSZ : Z := 8192.
Definition SizeOfPageHeaderData : Z := 24.
Definition SizeofHeapTupleHeader : Z := 23.
Definition sizeof_ItemIdData : Z := 4.
Definition MAXALIGN (x : Z) : Z := Z.land (x + 7) (Z.lnot 7).
Definition MaxHeapTuplesPerPage : Z :=
  (BLCKSZ - SizeOfPageHeaderData) / (MAXALIGN SizeofHeapTupleHeader + sizeof_ItemIdData).
Definition TBM_MAX_TUPLES_PER_PAGE : Z := MaxHeapTuplesPerPage.
Definition FASTPG_MEM_MAX_ROWS_PER_BLOCK : Z := TBM_MAX_TUPLES_PER_PAGE.
Definition UINT32_MAX : Z := 2 ^ 32 - 1.
Definition UINT16_MAX : Z := 2 ^ 16 - 1.
Definition InvalidOffsetNumber : Z := 0.
Definition FirstOffsetNumber : Z := 1.
Definition MaxOffsetNumber : Z := BLCKSZ / sizeof_ItemIdData.
Definition wrap16 (x : Z) : Z := x mod 2 ^ 16.

Definition OffsetNumberIsValid (offset : Z) : bool :=
  negb (offset =? InvalidOffsetNumber) && (offset <=? MaxOffsetNumber).

(** A TID; both fields are stored at their width. *)
Record ItemPointerData : Type := {
  ip_blkid : Z;
  ip_posid : Z;
}.

Definition ItemPointerSet (block offset : Z) : ItemPointerData :=
  {| ip_blkid := wrap32 block; ip_posid := wrap16 offset |}.

Definition tid_wf (tid : ItemPointerData) : Prop := is_u32 (ip_blkid tid) ∧ 0 <= ip_posid tid < 2 ^ 16.

(** ** Block layouts *)

Record FastPgMemBlockLayout : Type := {
  bl_relid : Z;
  bl_rows_per_block : Z;
  bl_storage2_rows_per_block_applied : bool;
}.

Definition new_layout (relid : Z) : FastPgMemBlockLayout :=
  {| bl_relid := relid; bl_rows_per_block := 0; bl_storage2_rows_per_block_applied := false |}.

(** [fastpg_mem_block_layout_entry]: the entry of [relid] and the list with it. *)
Definition fastpg_mem_block_layout_entry (relid : Z) (create : bool) (l : list FastPgMemBlockLayout)
    : option FastPgMemBlockLayout * list FastPgMemBlockLayout :=
  match list_find (λ e, bl_relid e = relid) l with
  | Some (_, e) => (Some e, l)
  | None => if create then (Some (new_layout relid), new_layout relid :: l) else (None, l)
  end.

(** Rows that fit a relation none of which has been inserted yet are estimated
    from its column widths: [density] is that estimate, floored. *)
Definition fastpg_mem_clamp_rows_per_block (rows : Z) : Z :=
  if rows <? 1 then 1
  else if FASTPG_MEM_MAX_ROWS_PER_BLOCK <? rows then FASTPG_MEM_MAX_ROWS_PER_BLOCK
  else rows.

Definition fastpg_mem_relation_rows_per_block (density relid : Z) (l : list FastPgMemBlockLayout) : Z :=
  match (fastpg_mem_block_layout_entry relid false l).1 with
  | Some e => if 0 <? bl_rows_per_block e then bl_rows_per_block e
              else fastpg_mem_clamp_rows_per_block density
  | None => fastpg_mem_clamp_rows_per_block density
  end.

(** Storing through the pointer the entry function returned. *)
Fixpoint layout_store (e : FastPgMemBlockLayout) (l : list FastPgMemBlockLayout) : list FastPgMemBlockLayout :=
  match l with
  | [] => []
  | e' :: l' => if bl_relid e' =? bl_relid e then e :: l' else e' :: layout_store e l'
  end.

(** [slot_rows] is [fastpg_mem_rows_per_block_for_slot] of the row about to be
    stored.  The second component is the call of
    fastpg_storage2_relation_set_max_tuples_per_block, if it is made. *)
Definition fastpg_mem_ensure_block_layout_for_slot (uses_postgres use_storage2 : bool)
    (slot_rows relid : Z) (l : list FastPgMemBlockLayout) : list FastPgMemBlockLayout * option (Z * Z) :=
  if negb uses_postgres then (l, None)
  else
    let '(oe, l) := fastpg_mem_block_layout_entry relid true l in
    match oe with
    | None => (l, None)
    | Some e =>
        let rows := if bl_rows_per_block e =? 0 then slot_rows else bl_rows_per_block e in
        if use_storage2 && (0 <? rows) && negb (bl_storage2_rows_per_block_applied e) then
          (layout_store {| bl_relid := relid; bl_rows_per_block := rows;
                           bl_storage2_rows_per_block_applied := true |} l,
           Some (relid, wrap16 (Z.min rows UINT16_MAX)))
        else
          (layout_store {| bl_relid := relid; bl_rows_per_block := rows;
                           bl_storage2_rows_per_block_applied := bl_storage2_rows_per_block_applied e |} l,
           None)
    end.

(** [fastpg_mem_heap_pages_for_layout] and the recorded-layout variant. *)
Definition pages_of (row_count rows_per_block : Z) : Z :=
  if row_count =? 0 then 0 else wrap32 (wrap64 (row_count + rows_per_block - 1) / rows_per_block).
Definition fastpg_mem_heap_pages_for_layout (density relid row_count : Z) (l : list FastPgMemBlockLayout) : Z :=
  pages_of row_count (fastpg_mem_relation_rows_per_block density relid l).

(** ** Conversions *)

Section conversions.
(** The relation's [fastpg_mem_relation_rows_per_block]. *)
Variable rows_per_block : Z.

Definition fastpg_mem_row_id_to_tid (row_id : Z) : option ItemPointerData :=
  if row_id =? 0 then None
  else
    let zero_index := wrap64 (row_id - 1) in
    let block := zero_index / rows_per_block in
    if UINT32_MAX <? block then None
    else
      let offset := wrap16 (wrap16 (zero_index mod rows_per_block) + FirstOffsetNumber) in
      Some (ItemPointerSet (wrap32 block) offset).

Definition fastpg_mem_tid_to_row_id (tid : ItemPointerData) : option Z :=
  let block := ip_blkid tid in
  let offset := ip_posid tid in
  if negb (OffsetNumberIsValid offset) then None
  else if wrap16 rows_per_block <? offset then None
  else Some (wrap64 (wrap64 (block * rows_per_block) + offset)).
End conversions.

Definition fastpg_mem_tid_to_storage2_tid (tid : ItemPointerData) : Z :=
  let block := ip_blkid tid in
  let offset := ip_posid tid in
  if negb (OffsetNumberIsValid offset) then 0
  else Z.lor (wrap64 (Z.shiftl block 16)) offset.

Definition fastpg_mem_storage2_tid_to_tid (storage2_tid : Z) : option ItemPointerData :=
  let block := Z.shiftr storage2_tid 16 in
  let offset := wrap16 (Z.land storage2_tid 0xffff) in
  if (storage2_tid =? 0) || (UINT32_MAX <? block) || negb (OffsetNumberIsValid offset) then None
  else Some (ItemPointerSet (wrap32 block) offset).

(** The variant for a relation known by its Oid only. *)
Definition fastpg_mem_tableoid_tid_to_row_id (use_storage2 : bool) (relid : Z)
    (l : list FastPgMemBlockLayout) (tid : ItemPointerData) : option Z :=
  let block := ip_blkid tid in
  let offset := ip_posid tid in
  if negb (OffsetNumberIsValid offset) then None
  else if use_storage2 then
    let row_id := Z.lor (wrap64 (Z.shiftl block 16)) offset in
    if negb (row_id =? 0) then Some row_id else None
  else
    let rows_per_block :=
      match (fastpg_mem_block_layout_entry relid false l).1 with
      | Some e => if 0 <? bl_rows_per_block e then bl_rows_per_block e else FASTPG_MEM_MAX_ROWS_PER_BLOCK
      | None => FASTPG_MEM_MAX_ROWS_PER_BLOCK
      end in
    if wrap16 rows_per_block <? offset then None
    else Some (wrap64 (wrap64 (block * rows_per_block) + offset)).

(** ** Theorems *)

Lemma wrap16_small x : 0 <= x < 2 ^ 16 → wrap16 x = x.
Proof. intros. unfold wrap16. by apply Z.mod_small. Qed.

Lemma max_rows_value : FASTPG_MEM_MAX_ROWS_PER_BLOCK = 291.
Proof. reflexivity. Qed.

Lemma clamp_range x : 1 <= fastpg_mem_clamp_rows_per_block x <= FASTPG_MEM_MAX_ROWS_PER_BLOCK.
Proof.
  unfold fastpg_mem_clamp_rows_per_block. rewrite max_rows_value.
  destruct (Z.ltb_spec x 1); [lia|]. destruct (Z.ltb_spec 291 x); lia.
Qed.

(** A layout list whose entries are unset or in range. *)
Definition layouts_ok (l : list FastPgMemBlockLayout) : Prop :=
  Forall (λ e, 0 <= bl_rows_per_block e <= FASTPG_MEM_MAX_ROWS_PER_BLOCK) l.

Lemma relation_rows_per_block_range density relid l :
  layouts_ok l → 1 <= fastpg_mem_relation_rows_per_block density relid l <= FASTPG_MEM_MAX_ROWS_PER_BLOCK.
Proof.
  intros Hl. unfold fastpg_mem_relation_rows_per_block, fastpg_mem_block_layout_entry.
  destruct (list_find _ l) as [[i e]|] eqn:E; simpl; [|apply clamp_range].
  apply list_find_Some in E as (E & _ & _). eapply Forall_lookup_1 in E; [|exact Hl]. simpl in E.
  destruct (Z.ltb_spec 0 (bl_rows_per_block e)); [lia|apply clamp_range].
Qed.

(** From a row number to its TID and back. *)
Lemma row_id_to_tid_ok rpb row_id :
  1 <= rpb <= FASTPG_MEM_MAX_ROWS_PER_BLOCK → is_u64 row_id →
  match fastpg_mem_row_id_to_tid rpb row_id with
  | Some tid => tid_wf tid ∧ OffsetNumberIsValid (ip_posid tid) = true ∧
      fastpg_mem_tid_to_row_id rpb tid = Some row_id
  | None => row_id = 0 ∨ rpb * 2 ^ 32 < row_id
  end.
Proof.
  rewrite max_rows_value. intros Hr Hu. unfold fastpg_mem_row_id_to_tid. unfold is_u64 in Hu.
  destruct (Z.eqb_spec row_id 0) as [->|Hne]; [by left|].
  rewrite (wrap64_small (row_id - 1)) by (unfold is_u64; lia).
  pose proof (Z.div_mod (row_id - 1) rpb ltac:(lia)) as Hdm.
  pose proof (Z.mod_pos_bound (row_id - 1) rpb ltac:(lia)) as Hm.
  assert (0 <= (row_id - 1) / rpb) as Hq by (apply Z.div_pos; lia).
  destruct (Z.ltb_spec UINT32_MAX ((row_id - 1) / rpb)) as [Hbig|Hle]; unfold UINT32_MAX in *.
  { right. nia. }
  set (q := (row_id - 1) / rpb) in *. set (m := (row_id - 1) mod rpb) in *.
  unfold FirstOffsetNumber, ItemPointerSet.
  rewrite (wrap16_small m), !(wrap16_small (m + 1)), !(wrap32_small q) by (unfold is_u32; lia).
  assert (OffsetNumberIsValid (m + 1) = true) as Hval.
  { unfold OffsetNumberIsValid, InvalidOffsetNumber. change MaxOffsetNumber with 2048.
    rewrite andb_true_iff, negb_true_iff, Z.eqb_neq, Z.leb_le. lia. }
  split_and!; [split; unfold is_u32; simpl; lia|done|].
  unfold fastpg_mem_tid_to_row_id. simpl. rewrite Hval. simpl. rewrite wrap16_small by lia.
  destruct (Z.ltb_spec rpb (m + 1)); [lia|]. f_equal.
  rewrite (wrap64_small (q * rpb)) by (unfold is_u64; nia).
  rewrite wrap64_small by (unfold is_u64; nia). lia.
Qed.

(** From a TID to its row number and back. *)
Lemma tid_to_row_id_ok rpb tid row_id :
  1 <= rpb <= FASTPG_MEM_MAX_ROWS_PER_BLOCK → tid_wf tid →
  fastpg_mem_tid_to_row_id rpb tid = Some row_id →
  is_u64 row_id ∧ fastpg_mem_row_id_to_tid rpb row_id = Some tid.
Proof.
  rewrite max_rows_value. intros Hr. destruct tid as [b o]. intros [Hb Ho].
  unfold fastpg_mem_tid_to_row_id. simpl in *. unfold is_u32 in Hb.
  destruct (OffsetNumberIsValid o) eqn:Hv; [simpl|done].
  rewrite wrap16_small by lia. destruct (Z.ltb_spec rpb o) as [|Hor]; [done|].
  assert (o ≠ 0) as Ho0 by (intros ->; unfold OffsetNumberIsValid in Hv; done).
  rewrite (wrap64_small (b * rpb)), wrap64_small by (unfold is_u64; nia). intros [= <-].
  split; [unfold is_u64; nia|]. unfold fastpg_mem_row_id_to_tid.
  destruct (Z.eqb_spec (b * rpb + o) 0); [nia|].
  rewrite wrap64_small by (unfold is_u64; nia).
  assert ((b * rpb + o - 1) / rpb = b) as -> by (symmetry; apply (Z.div_unique_pos _ _ _ (o - 1)); lia).
  assert ((b * rpb + o - 1) mod rpb = o - 1) as -> by (symmetry; apply (Z.mod_unique_pos _ _ b); lia).
  unfold UINT32_MAX. destruct (Z.ltb_spec (2 ^ 32 - 1) b); [lia|].
  unfold FirstOffsetNumber, ItemPointerSet. rewrite !(wrap32_small b) by (unfold is_u32; lia).
  rewrite (wrap16_small (o - 1)) by lia. replace (o - 1 + 1) with o by lia. by rewrite !(wrap16_small o).
Qed.

(** C38: row numbers and TIDs of the first storage engine.  With the number of
    rows per block the layout code allows, every row number that fits becomes a
    valid TID and comes back as itself, and every TID the layout has a row for
    comes back as itself; the only row numbers without a TID are 0 and those
    beyond the last block. *)
Theorem row_id_tid_roundtrip rpb :
  1 <= rpb <= FASTPG_MEM_MAX_ROWS_PER_BLOCK →
  (∀ row_id, is_u64 row_id →
    match fastpg_mem_row_id_to_tid rpb row_id with
    | Some tid => tid_wf tid ∧ OffsetNumberIsValid (ip_posid tid) = true ∧
        fastpg_mem_tid_to_row_id rpb tid = Some row_id
    | None => row_id = 0 ∨ rpb * 2 ^ 32 < row_id
    end) ∧
  (∀ tid row_id, tid_wf tid → fastpg_mem_tid_to_row_id rpb tid = Some row_id →
    is_u64 row_id ∧ fastpg_mem_row_id_to_tid rpb row_id = Some tid).
Proof.
  intros Hr. split; [intros row_id; by apply row_id_to_tid_ok|].
  intros tid row_id. by apply tid_to_row_id_ok.
Qed.

Lemma row_id_tid_roundtrip_witness :
  (∀ row_id, is_u64 row_id →
    match fastpg_mem_row_id_to_tid 120 row_id with
    | Some tid => tid_wf tid ∧ OffsetNumberIsValid (ip_posid tid) = true ∧
        fastpg_mem_tid_to_row_id 120 tid = Some row_id
    | None => row_id = 0 ∨ 120 * 2 ^ 32 < row_id
    end) ∧
  (∀ tid row_id, tid_wf tid → fastpg_mem_tid_to_row_id 120 tid = Some row_id →
    is_u64 row_id ∧ fastpg_mem_row_id_to_tid 120 row_id = Some tid).
Proof. apply (row_id_tid_roundtrip 120). rewrite max_rows_value. lia. Defined.

(** ** The second storage engine *)

(** The two fields share no bit. *)
Lemma pack_value b o : is_u32 b → 0 <= o < 2 ^ 16 → Z.lor (wrap64 (Z.shiftl b 16)) o = b * 2 ^ 16 + o.
Proof.
  unfold is_u32. intros Hb Ho. rewrite wrap64_small by (unfold is_u64; rewrite Z.shiftl_mul_pow2; lia).
  assert (Z.land (Z.shiftl b 16) o = 0) as Hl.
  { apply Z.bits_inj'. intros i Hi. rewrite Z.land_spec, Z.shiftl_spec, Z.bits_0 by done.
    destruct (Z.ltb_spec i 16); [by rewrite Z.testbit_neg_r by lia|].
    rewrite andb_comm. replace o with (o mod 2 ^ 16) by (by apply Z.mod_small).
    by rewrite Z.mod_pow2_bits_high by lia. }
  rewrite <- Z.lxor_lor, <- Z.add_nocarry_lxor by done. by rewrite Z.shiftl_mul_pow2.
Qed.

Lemma unpack_value b o :
  0 <= b → 0 <= o < 2 ^ 16 →
  Z.shiftr (b * 2 ^ 16 + o) 16 = b ∧ wrap16 (Z.land (b * 2 ^ 16 + o) 0xffff) = o.
Proof.
  intros Hb Ho. rewrite Z.shiftr_div_pow2 by lia. change 0xffff with (Z.ones 16).
  rewrite Z.land_ones by lia. split.
  - symmetry. apply (Z.div_unique_pos _ _ _ o); lia.
  - assert ((b * 2 ^ 16 + o) mod 2 ^ 16 = o) as -> by (symmetry; apply (Z.mod_unique_pos _ _ b); lia).
    by apply wrap16_small.
Qed.

Lemma storage2_unpack t :
  is_u64 t → let b := Z.shiftr t 16 in let o := wrap16 (Z.land t 0xffff) in
  0 <= b ∧ 0 <= o < 2 ^ 16 ∧ t = b * 2 ^ 16 + o.
Proof.
  unfold is_u64. intros Ht. simpl. rewrite Z.shiftr_div_pow2 by lia. change 0xffff with (Z.ones 16).
  rewrite Z.land_ones by lia. pose proof (Z.mod_pos_bound t (2 ^ 16)). rewrite wrap16_small by lia.
  pose proof (Z.div_mod t (2 ^ 16)). split_and!; [apply Z.div_pos; lia|lia..].
Qed.

(** TIDs of the second storage engine.  Packing a valid TID gives a
    non-zero 48-bit number that unpacks to the TID; a number that unpacks to a
    TID is the packing of it, and every other number has no TID. *)
Theorem storage2_tid_roundtrip :
  (∀ tid, tid_wf tid → OffsetNumberIsValid (ip_posid tid) = true →
    0 < fastpg_mem_tid_to_storage2_tid tid < 2 ^ 48 ∧
    fastpg_mem_storage2_tid_to_tid (fastpg_mem_tid_to_storage2_tid tid) = Some tid) ∧
  (∀ t tid, is_u64 t → fastpg_mem_storage2_tid_to_tid t = Some tid →
    tid_wf tid ∧ OffsetNumberIsValid (ip_posid tid) = true ∧ fastpg_mem_tid_to_storage2_tid tid = t).
Proof.
  split.
  - intros [b o] [Hb Ho] Hv. unfold fastpg_mem_tid_to_storage2_tid. simpl in *. rewrite Hv. simpl.
    rewrite pack_value by done. unfold is_u32 in Hb.
    assert (o ≠ 0) as Ho0 by (intros ->; unfold OffsetNumberIsValid in Hv; done).
    split; [lia|]. unfold fastpg_mem_storage2_tid_to_tid.
    destruct (unpack_value b o) as [-> ->]; [lia|done|]. rewrite Hv.
    destruct (Z.eqb_spec (b * 2 ^ 16 + o) 0); [lia|]. unfold UINT32_MAX.
    destruct (Z.ltb_spec (2 ^ 32 - 1) b); [lia|]. simpl. unfold ItemPointerSet.
    by rewrite !(wrap32_small b), wrap16_small by done.
  - intros t tid Ht. unfold fastpg_mem_storage2_tid_to_tid.
    destruct (storage2_unpack t Ht) as (Hb & Ho & E). set (b := Z.shiftr t 16) in *.
    set (o := wrap16 (Z.land t 0xffff)) in *.
    destruct (Z.eqb_spec t 0); [done|]. unfold UINT32_MAX.
    destruct (Z.ltb_spec (2 ^ 32 - 1) b) as [|Hb']; [done|]. simpl.
    destruct (OffsetNumberIsValid o) eqn:Hv; [simpl|done]. intros [= <-]. unfold ItemPointerSet.
    assert (is_u32 b) as Hb32 by (unfold is_u32; lia).
    rewrite !(wrap32_small b), wrap16_small by done. split_and!; [done|done|].
    unfold fastpg_mem_tid_to_storage2_tid. simpl. rewrite Hv. simpl. by rewrite pack_value.
Qed.

Lemma row_id_block rpb row_id tid :
  1 <= rpb <= FASTPG_MEM_MAX_ROWS_PER_BLOCK → 1 <= row_id → is_u64 row_id →
  fastpg_mem_row_id_to_tid rpb row_id = Some tid → ip_blkid tid = (row_id - 1) / rpb.
Proof.
  intros Hr H1 Hu. unfold is_u64 in Hu. unfold fastpg_mem_row_id_to_tid.
  destruct (Z.eqb_spec row_id 0); [lia|]. rewrite (wrap64_small (row_id - 1)) by (unfold is_u64; lia).
  assert (0 <= (row_id - 1) / rpb) by (apply Z.div_pos; lia). unfold UINT32_MAX.
  destruct (Z.ltb_spec (2 ^ 32 - 1) ((row_id - 1) / rpb)); [done|]. intros [= <-]. simpl.
  by rewrite !(wrap32_small ((row_id - 1) / rpb)) by (unfold is_u32; lia).
Qed.

(** Pages.  The number of blocks reported for a relation of [row_count]
    rows is the number of blocks its rows' TIDs lie in: every row is below it
    and, if there are rows, the last one is in the last block. *)
Theorem pages_cover_rows density relid row_count l :
  let rpb := fastpg_mem_relation_rows_per_block density relid l in
  let pages := fastpg_mem_heap_pages_for_layout density relid row_count l in
  layouts_ok l → 0 <= row_count <= rpb * (2 ^ 32 - 1) →
  (∀ row_id, 1 <= row_id <= row_count →
    ∃ tid, fastpg_mem_row_id_to_tid rpb row_id = Some tid ∧ ip_blkid tid < pages) ∧
  (0 < row_count → ∃ tid, fastpg_mem_row_id_to_tid rpb row_count = Some tid ∧ ip_blkid tid = pages - 1).
Proof.
  intros rpb pages Hl Hn. pose proof (relation_rows_per_block_range density relid l Hl) as Hr. fold rpb in Hr.
  pose proof Hr as Hr'. rewrite max_rows_value in Hr'.
  assert (∀ row_id, 1 <= row_id <= row_count → is_u64 row_id ∧
    ∃ tid, fastpg_mem_row_id_to_tid rpb row_id = Some tid ∧ ip_blkid tid = (row_id - 1) / rpb) as Htid.
  { intros row_id Hi. assert (is_u64 row_id) as Hu by (unfold is_u64; nia). split; [done|].
    pose proof (row_id_to_tid_ok rpb row_id Hr Hu) as Hok.
    destruct (fastpg_mem_row_id_to_tid rpb row_id) as [tid|] eqn:E; [|nia].
    exists tid. split; [done|]. eapply row_id_block; [exact Hr|lia|done|exact E]. }
  assert (0 < row_count → pages = (row_count - 1) / rpb + 1) as Hp.
  { intros Hpos. unfold pages, fastpg_mem_heap_pages_for_layout, pages_of. fold rpb.
    destruct (Z.eqb_spec row_count 0); [lia|].
    rewrite wrap64_small by (unfold is_u64; nia).
    replace (row_count + rpb - 1) with (row_count - 1 + 1 * rpb) by lia. rewrite Z.div_add by lia.
    apply wrap32_small. unfold is_u32. split; [assert (0 <= (row_count - 1) / rpb) by (apply Z.div_pos; lia); lia|].
    assert ((row_count - 1) / rpb < 2 ^ 32 - 1); [apply Z.div_lt_upper_bound; lia|lia]. }
  split.
  - intros row_id Hi. destruct (Htid row_id Hi) as (_ & tid & E & Hb). exists tid. split; [done|].
    rewrite Hb, Hp by lia. assert ((row_id - 1) / rpb <= (row_count - 1) / rpb) by (apply Z.div_le_mono; lia). lia.
  - intros Hpos. destruct (Htid row_count) as (_ & tid & E & Hb); [lia|]. exists tid. split; [done|].
    rewrite Hb, Hp by lia. lia.
Qed.

Lemma pages_cover_rows_witness :
  (∀ row_id, 1 <= row_id <= 1000 →
    ∃ tid, fastpg_mem_row_id_to_tid 120 row_id = Some tid ∧ ip_blkid tid < 9) ∧
  (0 < 1000 → ∃ tid, fastpg_mem_row_id_to_tid 120 1000 = Some tid ∧ ip_blkid tid = 9 - 1).
Proof.
  apply (pages_cover_rows 80 16384 1000 [{| bl_relid := 16384; bl_rows_per_block := 120;
    bl_storage2_rows_per_block_applied := false |}]); [|vm_compute; split; discriminate].
  constructor; [rewrite max_rows_value; simpl; lia|constructor].
Defined.

(** ** Recording a layout *)

Definition layout_of (relid : Z) (l : list FastPgMemBlockLayout) : option FastPgMemBlockLayout :=
  (fastpg_mem_block_layout_entry relid false l).1.

Lemma layout_of_cons relid e l :
  layout_of relid (e :: l) = if decide (bl_relid e = relid) then Some e else layout_of relid l.
Proof.
  unfold layout_of, fastpg_mem_block_layout_entry. simpl. case_decide; [done|].
  by destruct (list_find _ l) as [[]|].
Qed.

Lemma layout_of_store relid e l :
  layout_of relid (layout_store e l) =
    if decide (bl_relid e = relid) then (λ _, e) <$> layout_of relid l else layout_of relid l.
Proof.
  induction l as [|e' l IH]; [simpl; by case_decide|]. simpl.
  destruct (Z.eqb_spec (bl_relid e') (bl_relid e)) as [E|E]; rewrite !layout_of_cons.
  - rewrite E. by case_decide.
  - rewrite IH. destruct (decide (bl_relid e' = relid)), (decide (bl_relid e = relid)); try done. congruence.
Qed.

Lemma layout_of_ensure uses2 slot_rows relid l relid' :
  layout_of relid' (fastpg_mem_ensure_block_layout_for_slot true uses2 slot_rows relid l).1 =
    if decide (relid = relid') then
      let e := default (new_layout relid) (layout_of relid l) in
      let rows := if bl_rows_per_block e =? 0 then slot_rows else bl_rows_per_block e in
      Some {| bl_relid := relid; bl_rows_per_block := rows;
              bl_storage2_rows_per_block_applied :=
                bl_storage2_rows_per_block_applied e || uses2 && (0 <? rows) |}
    else layout_of relid' l.
Proof.
  unfold fastpg_mem_ensure_block_layout_for_slot. simpl.
  assert (∃ l1, fastpg_mem_block_layout_entry relid true l = (Some (default (new_layout relid) (layout_of relid l)), l1) ∧
    ∀ r, layout_of r l1 = if decide (relid = r) then Some (default (new_layout relid) (layout_of relid l))
      else layout_of r l) as (l1 & E1 & Hl1).
  { unfold layout_of, fastpg_mem_block_layout_entry. destruct (list_find _ l) as [[i e]|] eqn:E; simpl.
    - exists l. split; [done|]. intros r. case_decide as Hd; [subst; by rewrite E|done].
    - eexists. split; [done|]. intros r. exact (layout_of_cons r (new_layout relid) l). }
  rewrite E1. set (e := default _ _) in *. set (rows := if _ =? 0 then _ else _).
  destruct uses2, (0 <? rows) eqn:Hr, (bl_storage2_rows_per_block_applied e) eqn:Ha; simpl;
    rewrite layout_of_store, Hl1; simpl; rewrite ?Hr, ?Ha; by case_decide; subst.
Qed.

(** A recorded layout is stable.  Once rows of a relation have been stored
    with a layout, storing further rows of any relation never changes how its
    row numbers and TIDs correspond; a layout that is not in range is never
    recorded. *)
Theorem recorded_layout_stable density uses2 slot_rows relid relid' l :
  1 <= slot_rows <= FASTPG_MEM_MAX_ROWS_PER_BLOCK → layouts_ok l →
  (∃ e, layout_of relid' l = Some e ∧ 0 < bl_rows_per_block e) →
  let l' := (fastpg_mem_ensure_block_layout_for_slot true uses2 slot_rows relid l).1 in
  fastpg_mem_relation_rows_per_block density relid' l' = fastpg_mem_relation_rows_per_block density relid' l ∧
  0 < fastpg_mem_relation_rows_per_block density relid l' <= FASTPG_MEM_MAX_ROWS_PER_BLOCK.
Proof.
  intros Hs Hl (e & He & Hpos) l'.
  assert (∀ r l0, fastpg_mem_relation_rows_per_block density r l0 = match layout_of r l0 with
    | Some e => if 0 <? bl_rows_per_block e then bl_rows_per_block e else fastpg_mem_clamp_rows_per_block density
    | None => fastpg_mem_clamp_rows_per_block density end) as Hrpb by done.
  assert (0 <= bl_rows_per_block (default (new_layout relid) (layout_of relid l)) <= FASTPG_MEM_MAX_ROWS_PER_BLOCK)
    as Hrange.
  { unfold layout_of, fastpg_mem_block_layout_entry. destruct (list_find _ l) as [[i e0]|] eqn:E; simpl.
    - apply list_find_Some in E as (E & _ & _). by eapply Forall_lookup_1 in E; [|exact Hl].
    - rewrite max_rows_value. lia. }
  rewrite !Hrpb. unfold l'. rewrite !layout_of_ensure. rewrite (decide_True (P := relid = relid)) by done. simpl. split.
  - case_decide as Hd; [|done]. subst relid'. rewrite He. simpl.
    destruct (Z.eqb_spec (bl_rows_per_block e) 0) as [?|?]; [lia|reflexivity].
  - set (rows := bl_rows_per_block (default _ _)) in *. destruct (Z.eqb_spec rows 0) as [E|E].
    + destruct (Z.ltb_spec 0 slot_rows); lia.
    + destruct (Z.ltb_spec 0 rows); lia.
Qed.

Lemma recorded_layout_stable_witness :
  let l := [{| bl_relid := 16384; bl_rows_per_block := 120; bl_storage2_rows_per_block_applied := false |}] in
  let l' := (fastpg_mem_ensure_block_layout_for_slot true true 60 16390 l).1 in
  fastpg_mem_relation_rows_per_block 80 16384 l' = fastpg_mem_relation_rows_per_block 80 16384 l ∧
  0 < fastpg_mem_relation_rows_per_block 80 16390 l' <= FASTPG_MEM_MAX_ROWS_PER_BLOCK.
Proof.
  apply (recorded_layout_stable 80 true 60 16390 16384); [rewrite max_rows_value; lia| |].
  - constructor; [rewrite max_rows_value; simpl; lia|constructor].
  - eexists. split; [reflexivity|]. done.
Defined.

(** The first recording moves TIDs.  Until a thread has recorded a layout
    it converts with an estimate; the first row it stores replaces the estimate,
    and a TID handed out before then names another row.  A relation known by its
    Oid is converted with a third number. *)
Theorem first_layout_moves_tids :
  let rpb := fastpg_mem_relation_rows_per_block 100 16384 [] in
  let l' := (fastpg_mem_ensure_block_layout_for_slot true false 120 16384 []).1 in
  let rpb' := fastpg_mem_relation_rows_per_block 100 16384 l' in
  let tid := {| ip_blkid := 1; ip_posid := 1 |} in
  fastpg_mem_row_id_to_tid rpb 101 = Some tid ∧ fastpg_mem_tid_to_row_id rpb' tid = Some 121 ∧
  fastpg_mem_tableoid_tid_to_row_id false 16384 [] tid = Some 292.
Proof. vm_compute. auto. Qed.
End RowIds.
