(* ===== verification/RowState.v ===== *)
(** * RowState: what a backend thread remembers about rows

    The thread-local bookkeeping of src/src/backend/access/fastpg/
    fastpg_mem_tableam.c: rows touched by the current command, redirects from
    updated rows to their new versions, lock roots, speculative inserts, the
    visibility state of relations, and the transaction callbacks that reset
    them.  The two storage engines (Rust crates) are behind the class
    [Storage]; the calls the callbacks make into them are recorded in order. *)

From Stdlib Require Import ZArith Lia Bool.
From stdpp Require Import base tactics numbers list gmap strings.
From S2P Require Import Prelude.

Local Open Scope Z_scope.
Local Open Scope pg_scope.

Module RowState.

Definition FASTPG_MEM_INLINE_TOUCHED_ROWS : nat := 16.
Definition FASTPG_MAX_INDEX_KEYS : nat := 32.
Definition InvalidTransactionId : Z := 0.
Definition InvalidCommandId : Z := 0xffffffff.
Definition TransactionIdIsValid (xid : Z) : bool := negb (xid =? InvalidTransactionId).

(** ** Data *)

(** The key's [cid] field is always zeroed. *)
Record FastPgMemTouchedRowKey : Type := {
  tk_row_id : Z;
  tk_relid : Z;
  tk_xid : Z;
}.

#[global] Instance touched_key_eq_dec : EqDecision FastPgMemTouchedRowKey.
Proof. solve_decision. Defined.
#[global] Instance touched_key_countable : Countable FastPgMemTouchedRowKey.
Proof.
  refine (inj_countable' (λ k, (tk_row_id k, tk_relid k, tk_xid k))
    (λ t, {| tk_row_id := t.1.1; tk_relid := t.1.2; tk_xid := t.2 |}) _).
  by intros [].
Defined.

Record FastPgMemRowRedirect : Type := {
  rr_relid : Z;
  rr_old_row_id : Z;
  rr_new_row_id : Z;
  rr_xid : Z;
}.

(** One key column: an element of each of the six parallel arrays. *)
Record key_column : Type := {
  kc_value : Z;
  kc_isnull : Z;
  kc_attnum : Z;
  kc_type_oid : Z;
  kc_typbyval : Z;
  kc_typlen : Z;
}.

(** [si_primary_key] is [None] while [has_primary_key] is false, else the index
    and its [nkeys] columns. *)
Record FastPgMemSpeculativeInsert : Type := {
  si_relid : Z;
  si_spec_token : Z;
  si_row_id : Z;
  si_xid : Z;
  si_primary_key : option (Z * list key_column);
}.

Record FastPgMemStorage2LockRoot : Type := {
  lr_relid : Z;
  lr_root_row_id : Z;
  lr_resolved_row_id : Z;
}.

Record FastPgMemVisibilityState : Type := {
  vs_relid : Z;
  vs_all_visible : bool;
  vs_known_empty : bool;
  vs_touched_xid : Z;
  vs_max_touched_cid : Z;
}.

(** Calls into the storage engines that end or begin (sub)transactions, and
    calls of the row lock table. *)
Inductive storage_call : Type :=
| rust_xact_begin_implicit | rust_xact_commit | rust_xact_abort
| rust_subxact_begin | rust_subxact_commit | rust_subxact_abort
| storage2_xact_begin_implicit
| storage2_xact_commit | storage2_xact_commit_if_implicit
| storage2_xact_abort | storage2_xact_abort_if_implicit
| storage2_subxact_begin | storage2_subxact_commit | storage2_subxact_abort
| acquire_row_lock (relid row_id : Z)
| release_row_locks.

(** The thread-local state.  [current_xid] is what
    GetCurrentTransactionIdIfAny returns; the hash table is [None] while the
    pointer is NULL; [calls] is the log of storage calls, newest last. *)
Record Session : Type := {
  current_xid : Z;
  touched_inline : list (FastPgMemTouchedRowKey * Z);
  touched_hash : option (gmap FastPgMemTouchedRowKey Z);
  row_redirects : list FastPgMemRowRedirect;
  speculative_inserts : list FastPgMemSpeculativeInsert;
  storage2_lock_roots : list FastPgMemStorage2LockRoot;
  visibility_states : list FastPgMemVisibilityState;
  last_index_key_valid : bool;
  xact_callbacks_registered : bool;
  calls : list storage_call;
}.

Definition set_touched i h (s : Session) : Session :=
  {| current_xid := current_xid s; touched_inline := i; touched_hash := h;
     row_redirects := row_redirects s; speculative_inserts := speculative_inserts s;
     storage2_lock_roots := storage2_lock_roots s; visibility_states := visibility_states s;
     last_index_key_valid := last_index_key_valid s;
     xact_callbacks_registered := xact_callbacks_registered s; calls := calls s |}.
Definition set_redirects l (s : Session) : Session :=
  {| current_xid := current_xid s; touched_inline := touched_inline s; touched_hash := touched_hash s;
     row_redirects := l; speculative_inserts := speculative_inserts s;
     storage2_lock_roots := storage2_lock_roots s; visibility_states := visibility_states s;
     last_index_key_valid := last_index_key_valid s;
     xact_callbacks_registered := xact_callbacks_registered s; calls := calls s |}.
Definition set_speculative l (s : Session) : Session :=
  {| current_xid := current_xid s; touched_inline := touched_inline s; touched_hash := touched_hash s;
     row_redirects := row_redirects s; speculative_inserts := l;
     storage2_lock_roots := storage2_lock_roots s; visibility_states := visibility_states s;
     last_index_key_valid := last_index_key_valid s;
     xact_callbacks_registered := xact_callbacks_registered s; calls := calls s |}.
Definition set_lock_roots l (s : Session) : Session :=
  {| current_xid := current_xid s; touched_inline := touched_inline s; touched_hash := touched_hash s;
     row_redirects := row_redirects s; speculative_inserts := speculative_inserts s;
     storage2_lock_roots := l; visibility_states := visibility_states s;
     last_index_key_valid := last_index_key_valid s;
     xact_callbacks_registered := xact_callbacks_registered s; calls := calls s |}.
Definition set_visibility l (s : Session) : Session :=
  {| current_xid := current_xid s; touched_inline := touched_inline s; touched_hash := touched_hash s;
     row_redirects := row_redirects s; speculative_inserts := speculative_inserts s;
     storage2_lock_roots := storage2_lock_roots s; visibility_states := l;
     last_index_key_valid := last_index_key_valid s;
     xact_callbacks_registered := xact_callbacks_registered s; calls := calls s |}.
Definition set_last_index_key_valid b (s : Session) : Session :=
  {| current_xid := current_xid s; touched_inline := touched_inline s; touched_hash := touched_hash s;
     row_redirects := row_redirects s; speculative_inserts := speculative_inserts s;
     storage2_lock_roots := storage2_lock_roots s; visibility_states := visibility_states s;
     last_index_key_valid := b;
     xact_callbacks_registered := xact_callbacks_registered s; calls := calls s |}.
Definition set_registered b (s : Session) : Session :=
  {| current_xid := current_xid s; touched_inline := touched_inline s; touched_hash := touched_hash s;
     row_redirects := row_redirects s; speculative_inserts := speculative_inserts s;
     storage2_lock_roots := storage2_lock_roots s; visibility_states := visibility_states s;
     last_index_key_valid := last_index_key_valid s;
     xact_callbacks_registered := b; calls := calls s |}.
Definition set_xid x (s : Session) : Session :=
  {| current_xid := x; touched_inline := touched_inline s; touched_hash := touched_hash s;
     row_redirects := row_redirects s; speculative_inserts := speculative_inserts s;
     storage2_lock_roots := storage2_lock_roots s; visibility_states := visibility_states s;
     last_index_key_valid := last_index_key_valid s;
     xact_callbacks_registered := xact_callbacks_registered s; calls := calls s |}.
Definition log_call c (s : Session) : Session :=
  {| current_xid := current_xid s; touched_inline := touched_inline s; touched_hash := touched_hash s;
     row_redirects := row_redirects s; speculative_inserts := speculative_inserts s;
     storage2_lock_roots := storage2_lock_roots s; visibility_states := visibility_states s;
     last_index_key_valid := last_index_key_valid s;
     xact_callbacks_registered := xact_callbacks_registered s; calls := calls s ++ [c] |}.

(** ** Resets *)

Definition fastpg_mem_reset_touched_rows (s : Session) : Session := set_touched [] None s.
Definition fastpg_mem_reset_row_redirects (s : Session) : Session := set_redirects [] s.
Definition fastpg_mem_reset_speculative_inserts (s : Session) : Session := set_speculative [] s.
Definition fastpg_mem_reset_storage2_lock_roots (s : Session) : Session := set_lock_roots [] s.

Definition FastPgMemResetCommandTouchedRows (s : Session) : Session :=
  fastpg_mem_reset_storage2_lock_roots (fastpg_mem_reset_touched_rows s).

(** ** Linked lists

    A loop that assigns through the first matching entry, one that unlinks it,
    and one that returns it. *)
Fixpoint update_first {A} (p : A → bool) (f : A → A) (l : list A) : option (list A) :=
  match l with
  | [] => None
  | x :: l' => if p x then Some (f x :: l') else (cons x) <$> update_first p f l'
  end.

Fixpoint remove_first {A} (p : A → bool) (l : list A) : option (A * list A) :=
  match l with
  | [] => None
  | x :: l' => if p x then Some (x, l') else (λ '(y, r), (y, x :: r)) <$> remove_first p l'
  end.

Fixpoint find_first {A} (p : A → bool) (l : list A) : option A :=
  match l with
  | [] => None
  | x :: l' => if p x then Some x else find_first p l'
  end.

(** ** Speculative inserts *)

Definition fastpg_mem_speculative_insert_matches (entry : FastPgMemSpeculativeInsert)
    (relid spec_token xid : Z) : bool :=
  if negb (si_relid entry =? relid) || negb (si_spec_token entry =? spec_token) then false
  else if negb (TransactionIdIsValid (si_xid entry)) || negb (TransactionIdIsValid xid) then true
  else si_xid entry =? xid.

Definition fastpg_mem_remember_speculative_insert (relid spec_token row_id : Z) (s : Session) : Session :=
  let xid := current_xid s in
  if row_id =? 0 then s
  else
    match update_first (λ e, fastpg_mem_speculative_insert_matches e relid spec_token xid)
            (λ e, {| si_relid := si_relid e; si_spec_token := si_spec_token e; si_row_id := row_id;
                     si_xid := xid; si_primary_key := None |})
            (speculative_inserts s) with
    | Some l => set_speculative l s
    | None =>
        set_speculative ({| si_relid := relid; si_spec_token := spec_token; si_row_id := row_id;
                            si_xid := xid; si_primary_key := None |} :: speculative_inserts s) s
    end.

(** The condition two of the loops share. *)
Definition speculative_row_matches (relid row_id xid : Z) (e : FastPgMemSpeculativeInsert) : bool :=
  (si_relid e =? relid) && (si_row_id e =? row_id) &&
  (negb (TransactionIdIsValid (si_xid e)) || negb (TransactionIdIsValid xid) || (si_xid e =? xid)).

Definition fastpg_mem_remember_speculative_insert_primary_key (relid row_id index_relid : Z)
    (keys : list key_column) (s : Session) : bool * Session :=
  let xid := current_xid s in
  let nkeys := length keys in
  if (row_id =? 0) || (nkeys =? 0)%nat || (FASTPG_MAX_INDEX_KEYS <? nkeys)%nat then (false, s)
  else
    match update_first (speculative_row_matches relid row_id xid)
            (λ e, {| si_relid := si_relid e; si_spec_token := si_spec_token e; si_row_id := si_row_id e;
                     si_xid := si_xid e; si_primary_key := Some (index_relid, keys) |})
            (speculative_inserts s) with
    | Some l => (true, set_speculative l s)
    | None => (false, s)
    end.

Definition fastpg_mem_take_speculative_insert (relid spec_token : Z) (s : Session)
    : option FastPgMemSpeculativeInsert * Session :=
  let xid := current_xid s in
  match remove_first (λ e, fastpg_mem_speculative_insert_matches e relid spec_token xid)
          (speculative_inserts s) with
  | Some (e, l) => (Some e, set_speculative l s)
  | None => (None, s)
  end.

Definition fastpg_mem_speculative_insert_row_exists (relid row_id : Z) (s : Session) : bool :=
  if row_id =? 0 then false
  else bool_decide (find_first (speculative_row_matches relid row_id (current_xid s)) (speculative_inserts s) ≠ None).

(** ** Following chains of entries

    [for (depth = 0; depth < 32; depth++)]: go to the next row as long as there
    is one. *)
Fixpoint follow (depth : nat) (next : Z → option Z) (row_id : Z) : Z :=
  match depth with
  | O => row_id
  | S depth' => match next row_id with Some row_id' => follow depth' next row_id' | None => row_id end
  end.

(** *** Lock roots *)

Definition fastpg_mem_record_storage2_lock_root (relid root_row_id resolved_row_id : Z) (s : Session) : Session :=
  if (root_row_id =? 0) || (resolved_row_id =? 0) || (root_row_id =? resolved_row_id) then s
  else
    match update_first (λ e, (lr_relid e =? relid) && (lr_resolved_row_id e =? resolved_row_id))
            (λ e, {| lr_relid := lr_relid e; lr_root_row_id := root_row_id;
                     lr_resolved_row_id := lr_resolved_row_id e |}) (storage2_lock_roots s) with
    | Some l => set_lock_roots l s
    | None =>
        set_lock_roots ({| lr_relid := relid; lr_root_row_id := root_row_id;
                           lr_resolved_row_id := resolved_row_id |} :: storage2_lock_roots s) s
    end.

Definition lock_root_next (l : list FastPgMemStorage2LockRoot) (relid row_id : Z) : option Z :=
  lr_root_row_id <$> find_first (λ e, (lr_relid e =? relid) && (lr_resolved_row_id e =? row_id)) l.

Definition fastpg_mem_storage2_lock_root (relid row_id : Z) (s : Session) : Z :=
  follow 32 (lock_root_next (storage2_lock_roots s) relid) row_id.

(** *** Row redirects *)

Definition fastpg_mem_record_row_redirect (relid old_row_id new_row_id : Z) (s : Session) : Session :=
  if (old_row_id =? 0) || (new_row_id =? 0) || (old_row_id =? new_row_id) then s
  else
    set_redirects ({| rr_relid := relid; rr_old_row_id := old_row_id; rr_new_row_id := new_row_id;
                      rr_xid := current_xid s |} :: row_redirects s) s.

Definition redirect_next (l : list FastPgMemRowRedirect) (relid xid row_id : Z) : option Z :=
  rr_new_row_id <$>
    find_first (λ e, (rr_relid e =? relid) && (rr_old_row_id e =? row_id) && (rr_xid e =? xid)) l.
Definition redirect_prev (l : list FastPgMemRowRedirect) (relid xid row_id : Z) : option Z :=
  rr_old_row_id <$>
    find_first (λ e, (rr_relid e =? relid) && (rr_new_row_id e =? row_id) && (rr_xid e =? xid)) l.

Definition fastpg_mem_resolve_row_redirect (relid row_id : Z) (s : Session) : Z :=
  follow 32 (redirect_next (row_redirects s) relid (current_xid s)) row_id.
Definition fastpg_mem_reverse_row_redirect (relid row_id : Z) (s : Session) : Z :=
  follow 32 (redirect_prev (row_redirects s) relid (current_xid s)) row_id.

(** ** Configuration and the storage engines' row metadata *)

Class Config : Type := {
  fastpg_catalog_mode_uses_postgres : bool;
  (** getenv("FASTPG_STORAGE_ENGINE") *)
  storage_engine : option string;
  fastpg_rust_catalog_policy_by_relation_oid : Z → Z;
}.

Definition fastpg_mem_storage2_enabled {cfg : Config} : bool :=
  match storage_engine with None => true | Some engine => bool_decide (engine = "storage2") end.
Definition fastpg_mem_storage1_xact_needed {cfg : Config} : bool :=
  negb fastpg_catalog_mode_uses_postgres || negb fastpg_mem_storage2_enabled.
Definition fastpg_mem_use_storage2_for_relid {cfg : Config} (relid : Z) : bool :=
  if negb fastpg_mem_storage2_enabled then false
  else if fastpg_catalog_mode_uses_postgres then true
  else fastpg_rust_catalog_policy_by_relation_oid relid =? 0.

(** What the engines know of a row: who inserted and who deleted it, and in
    which command; and which transactions are part of the current one. *)
Class Storage : Type := {
  fastpg_rust_relation_row_xmin : Z → Z → Z;
  fastpg_rust_relation_row_cmin : Z → Z → Z;
  fastpg_rust_relation_row_delete_xid : Z → Z → Z;
  fastpg_rust_relation_row_delete_cid : Z → Z → Z;
  fastpg_storage2_relation_row_delete_xid : Z → Z → Z;
  fastpg_storage2_relation_row_delete_cid : Z → Z → Z;
  TransactionIdIsCurrentTransactionId : Z → bool;
}.

Section operations.
Context {cfg : Config} {storage : Storage}.

(** ** Visibility state of relations *)

Definition new_visibility (relid : Z) : FastPgMemVisibilityState :=
  {| vs_relid := relid; vs_all_visible := false; vs_known_empty := false;
     vs_touched_xid := 0; vs_max_touched_cid := 0 |}.

Definition visibility_lookup (relid : Z) (l : list FastPgMemVisibilityState) : option FastPgMemVisibilityState :=
  find_first (λ e, vs_relid e =? relid) l.

(** [fastpg_mem_relation_visibility_state(relid, true)], then an assignment
    through the pointer. *)
Definition visibility_update (relid : Z) (f : FastPgMemVisibilityState → FastPgMemVisibilityState)
    (s : Session) : Session :=
  match update_first (λ e, vs_relid e =? relid) f (visibility_states s) with
  | Some l => set_visibility l s
  | None => set_visibility (f (new_visibility relid) :: visibility_states s) s
  end.

(** [fastpg_mem_relation_visibility_state(relid, false)]. *)
Definition fastpg_mem_relation_visibility_state (relid : Z) (s : Session) : option FastPgMemVisibilityState :=
  visibility_lookup relid (visibility_states s).

Definition with_all_visible b (e : FastPgMemVisibilityState) : FastPgMemVisibilityState :=
  {| vs_relid := vs_relid e; vs_all_visible := b; vs_known_empty := vs_known_empty e;
     vs_touched_xid := vs_touched_xid e; vs_max_touched_cid := vs_max_touched_cid e |}.
Definition with_known_empty b (e : FastPgMemVisibilityState) : FastPgMemVisibilityState :=
  {| vs_relid := vs_relid e; vs_all_visible := vs_all_visible e; vs_known_empty := b;
     vs_touched_xid := vs_touched_xid e; vs_max_touched_cid := vs_max_touched_cid e |}.
Definition with_touch xid cid (e : FastPgMemVisibilityState) : FastPgMemVisibilityState :=
  {| vs_relid := vs_relid e; vs_all_visible := vs_all_visible e; vs_known_empty := vs_known_empty e;
     vs_touched_xid := xid; vs_max_touched_cid := cid |}.

Definition fastpg_mem_set_relation_all_visible (relid : Z) (all_visible : bool) (s : Session) : Session :=
  if negb fastpg_catalog_mode_uses_postgres then s
  else visibility_update relid (with_all_visible all_visible) s.

Definition fastpg_mem_note_relation_changed (relid : Z) (s : Session) : Session :=
  let s := fastpg_mem_set_relation_all_visible relid false s in
  match fastpg_mem_relation_visibility_state relid s with
  | Some _ => visibility_update relid (with_known_empty false) s
  | None => s
  end.

Definition fastpg_mem_relation_touched_by_current_xact_since (relid cid : Z) (s : Session) : bool :=
  let xid := current_xid s in
  if negb (TransactionIdIsValid xid) then false
  else match fastpg_mem_relation_visibility_state relid s with
       | Some v => (vs_touched_xid v =? xid) && (cid <=? vs_max_touched_cid v)
       | None => false
       end.

Definition fastpg_mem_relation_touched_by_current_xact (relid : Z) (s : Session) : bool :=
  let xid := current_xid s in
  if negb (TransactionIdIsValid xid) then false
  else match fastpg_mem_relation_visibility_state relid s with
       | Some v => vs_touched_xid v =? xid
       | None => false
       end.

(** ** Touched rows

    The first 16 rows are in an array that is searched linearly, the others in
    a hash table. *)

Definition touched_key (relid row_id xid : Z) : FastPgMemTouchedRowKey :=
  {| tk_row_id := row_id; tk_relid := relid; tk_xid := xid |}.

Definition key_matches (k : FastPgMemTouchedRowKey) (e : FastPgMemTouchedRowKey * Z) : bool :=
  (tk_row_id e.1 =? tk_row_id k) && (tk_relid e.1 =? tk_relid k) && (tk_xid e.1 =? tk_xid k).

(** [Some touched_cid] for true. *)
Definition fastpg_mem_row_touched (relid row_id cid : Z) (s : Session) : option Z :=
  let xid := current_xid s in
  match fastpg_mem_relation_visibility_state relid s with
  | None => None
  | Some v =>
      if negb (vs_touched_xid v =? xid) || (vs_max_touched_cid v <? cid) then None
      else
        match find_first (key_matches (touched_key relid row_id xid)) (touched_inline s) with
        | Some e => if e.2 <? cid then None else Some e.2
        | None =>
            match touched_hash s with
            | None => None
            | Some h =>
                match h !! touched_key relid row_id xid with
                | None => None
                | Some c => if c <? cid then None else Some c
                end
            end
        end
  end.

Definition fastpg_mem_touched_hash_insert (relid row_id cid xid : Z) (s : Session) : Session :=
  let key := touched_key relid row_id xid in
  match update_first (key_matches key) (λ e, (e.1, if e.2 <? cid then cid else e.2)) (touched_inline s) with
  | Some l => set_touched l (touched_hash s) s
  | None =>
      if (length (touched_inline s) <? FASTPG_MEM_INLINE_TOUCHED_ROWS)%nat
      then set_touched (touched_inline s ++ [(key, cid)]) (touched_hash s) s
      else
        let h := default ∅ (touched_hash s) in
        let c := match h !! key with
                 | None => cid
                 | Some c => if c <? cid then cid else c
                 end in
        set_touched (touched_inline s) (Some (<[key := c]> h)) s
  end.

(** The assignments to the relation's visibility state. *)
Definition touch_visibility (xid cid : Z) (v : FastPgMemVisibilityState) : FastPgMemVisibilityState :=
  if negb (vs_touched_xid v =? xid) then with_touch xid cid v
  else if vs_max_touched_cid v <? cid then with_touch xid cid v
  else v.

Definition fastpg_mem_mark_row_touched (relid row_id cid : Z) (s : Session) : Session :=
  if row_id =? 0 then s
  else
    let xid := current_xid s in
    let s := fastpg_mem_touched_hash_insert relid row_id cid xid s in
    visibility_update relid (touch_visibility xid cid) s.

(** ** Rows deleted by the current transaction *)

Definition fastpg_mem_row_deleted_by_current_xact (relid row_id cid : Z) (storage2 : bool) (s : Session) : option Z :=
  if negb fastpg_catalog_mode_uses_postgres then None
  else if negb (fastpg_mem_relation_touched_by_current_xact_since relid cid s) then None
  else
    let delete_xid :=
      if storage2 then fastpg_storage2_relation_row_delete_xid relid row_id
      else fastpg_rust_relation_row_delete_xid relid row_id in
    if negb (TransactionIdIsValid delete_xid) || negb (TransactionIdIsCurrentTransactionId delete_xid) then None
    else
      let delete_cid :=
        if storage2 then fastpg_storage2_relation_row_delete_cid relid row_id
        else fastpg_rust_relation_row_delete_cid relid row_id in
      if delete_cid <? cid then None else Some delete_cid.

Definition fastpg_mem_storage2_row_deleted_by_current_xact_any_cid (relid row_id : Z) (s : Session) : option Z :=
  if negb fastpg_catalog_mode_uses_postgres then None
  else if negb (fastpg_mem_relation_touched_by_current_xact relid s) then None
  else
    let delete_xid := fastpg_storage2_relation_row_delete_xid relid row_id in
    if negb (TransactionIdIsValid delete_xid) || negb (TransactionIdIsCurrentTransactionId delete_xid) then None
    else Some (fastpg_storage2_relation_row_delete_cid relid row_id).

(** ** Transaction callbacks *)

Inductive XactEvent : Type :=
| XACT_EVENT_COMMIT | XACT_EVENT_PARALLEL_COMMIT | XACT_EVENT_ABORT | XACT_EVENT_PARALLEL_ABORT
| XACT_EVENT_PREPARE | XACT_EVENT_PRE_COMMIT | XACT_EVENT_PARALLEL_PRE_COMMIT | XACT_EVENT_PRE_PREPARE.
Inductive SubXactEvent : Type :=
| SUBXACT_EVENT_START_SUB | SUBXACT_EVENT_COMMIT_SUB | SUBXACT_EVENT_ABORT_SUB | SUBXACT_EVENT_PRE_COMMIT_SUB.

Definition when (b : bool) (f : Session → Session) (s : Session) : Session := if b then f s else s.

(** The resets both branches end with. *)
Definition end_of_xact (s : Session) : Session :=
  set_last_index_key_valid false
    (fastpg_mem_reset_storage2_lock_roots
      (fastpg_mem_reset_speculative_inserts
        (fastpg_mem_reset_row_redirects
          (fastpg_mem_reset_touched_rows
            (log_call release_row_locks s))))).

Definition fastpg_mem_xact_callback (event : XactEvent) (s : Session) : Session :=
  match event with
  | XACT_EVENT_COMMIT | XACT_EVENT_PARALLEL_COMMIT | XACT_EVENT_PREPARE =>
      let s := when fastpg_mem_storage1_xact_needed (log_call rust_xact_commit) s in
      let s := when fastpg_mem_storage2_enabled
                 (log_call (if fastpg_catalog_mode_uses_postgres
                            then storage2_xact_commit_if_implicit else storage2_xact_commit)) s in
      end_of_xact s
  | XACT_EVENT_ABORT | XACT_EVENT_PARALLEL_ABORT =>
      let s := when fastpg_mem_storage1_xact_needed (log_call rust_xact_abort) s in
      let s := when fastpg_mem_storage2_enabled
                 (log_call (if fastpg_catalog_mode_uses_postgres
                            then storage2_xact_abort_if_implicit else storage2_xact_abort)) s in
      end_of_xact s
  | _ => s
  end.

Definition fastpg_mem_subxact_callback (event : SubXactEvent) (s : Session) : Session :=
  match event with
  | SUBXACT_EVENT_START_SUB =>
      when fastpg_mem_storage2_enabled (log_call storage2_subxact_begin)
        (when fastpg_mem_storage1_xact_needed (log_call rust_subxact_begin) s)
  | SUBXACT_EVENT_COMMIT_SUB =>
      set_last_index_key_valid false
        (when fastpg_mem_storage2_enabled (log_call storage2_subxact_commit)
          (when fastpg_mem_storage1_xact_needed (log_call rust_subxact_commit) s))
  | SUBXACT_EVENT_ABORT_SUB =>
      set_last_index_key_valid false
        (when fastpg_mem_storage2_enabled (log_call storage2_subxact_abort)
          (when fastpg_mem_storage1_xact_needed (log_call rust_subxact_abort) s))
  | _ => s
  end.

Definition fastpg_mem_ensure_xact_callbacks (s : Session) : Session :=
  if negb (xact_callbacks_registered s) then set_registered true s else s.

Definition fastpg_mem_ensure_write_xact (s : Session) : Session :=
  when fastpg_mem_storage2_enabled (log_call storage2_xact_begin_implicit)
    (when fastpg_mem_storage1_xact_needed (log_call rust_xact_begin_implicit)
      (fastpg_mem_ensure_xact_callbacks s)).

(** ** Visibility of rows to a snapshot *)

Inductive SnapshotType : Type :=
| SNAPSHOT_MVCC | SNAPSHOT_SELF | SNAPSHOT_ANY | SNAPSHOT_TOAST | SNAPSHOT_DIRTY | SNAPSHOT_HISTORIC_MVCC
| SNAPSHOT_NON_VACUUMABLE.
Record SnapshotData : Type := {
  snapshot_type : SnapshotType;
  curcid : Z;
}.
Definition is_mvcc (snap : SnapshotData) : bool :=
  match snapshot_type snap with SNAPSHOT_MVCC => true | _ => false end.

(** [None] is the NULL snapshot. *)
Definition fastpg_mem_scan_needs_row_metadata (relid : Z) (snapshot : option SnapshotData) (s : Session) : bool :=
  match snapshot with
  | None => false
  | Some snap =>
      if negb fastpg_catalog_mode_uses_postgres then false
      else if negb (is_mvcc snap) then false
      else match fastpg_mem_relation_visibility_state relid s with
           | None => false
           | Some v =>
               let xid := current_xid s in
               if negb (TransactionIdIsValid xid) then false
               else if negb (vs_touched_xid v =? xid) || (vs_max_touched_cid v <? curcid snap) then false
               else true
           end
  end.

Definition fastpg_mem_row_metadata_visible_to_snapshot (xmin cmin : Z) (snap : SnapshotData) : bool :=
  if negb (TransactionIdIsValid xmin) then true
  else if negb (TransactionIdIsCurrentTransactionId xmin) then true
  else cmin <? curcid snap.

Definition fastpg_mem_effective_snapshot_curcid (snapshot : option SnapshotData) : Z :=
  match snapshot with
  | Some snap => if negb (is_mvcc snap) then InvalidCommandId else curcid snap
  | None => InvalidCommandId
  end.

Definition fastpg_mem_delete_cid_for_snapshot (cid : Z) (snapshot : option SnapshotData) : Z :=
  match snapshot with
  | Some snap =>
      if fastpg_catalog_mode_uses_postgres && is_mvcc snap
      then fastpg_mem_effective_snapshot_curcid snapshot else cid
  | None => cid
  end.

Definition fastpg_mem_row_visible_to_snapshot (relid row_id : Z) (snapshot : option SnapshotData) (s : Session) : bool :=
  let xmin := fastpg_rust_relation_row_xmin relid row_id in
  let cmin := fastpg_rust_relation_row_cmin relid row_id in
  if negb (fastpg_mem_scan_needs_row_metadata relid snapshot s) then true
  else match snapshot with
       | Some snap => fastpg_mem_row_metadata_visible_to_snapshot xmin cmin snap
       | None => true
       end.
End operations.
End RowState.
