(* ===== verification/RowStateProofs.v ===== *)
(** * RowStateProofs: correctness of the row bookkeeping

    The inline array and the hash table of touched rows against one finite map,
    chains of redirects and lock roots, and isolation of transactions. *)

From Stdlib Require Import ZArith Lia Bool.
From stdpp Require Import base tactics numbers list gmap strings.
From S2P Require Import Prelude RowState.
Import RowState.

Local Open Scope Z_scope.
Local Open Scope pg_scope.

Module RowStateProofs.

(** ** Linked lists *)

Section lists.
Context {A : Type} (p : A → bool).

Lemma find_first_app (l1 l2 : list A) :
  find_first p (l1 ++ l2) = match find_first p l1 with Some x => Some x | None => find_first p l2 end.
Proof. induction l1 as [|x l1 IH]; [done|]. simpl. by destruct (p x). Qed.

Lemma find_first_Some (l : list A) x : find_first p l = Some x → p x = true ∧ x ∈ l.
Proof.
  induction l as [|y l IH]; [done|]. simpl. destruct (p y) eqn:E; intros H.
  - injection H as <-. split; [done|left].
  - destruct (IH H). split; [done|by right].
Qed.

Lemma find_first_None (l : list A) : find_first p l = None ↔ ∀ x, x ∈ l → p x = false.
Proof.
  induction l as [|y l IH]; simpl.
  - split; [intros _ x H; by apply not_elem_of_nil in H|done].
  - destruct (p y) eqn:E; split; try done.
    + intros H. specialize (H y (list_elem_of_here _ _)). congruence.
    + intros H x [->|Hx]%elem_of_cons; [done|]. by apply IH.
    + intros H. apply IH. intros x Hx. apply H. by right.
Qed.

(** An assignment that keeps what the search looks at. *)
Lemma update_first_spec (f : A → A) (l : list A) :
  (∀ x, p x = true → p (f x) = true) →
  match update_first p f l with
  | Some l' => (∃ x, find_first p l = Some x ∧ find_first p l' = Some (f x)) ∧ length l' = length l
  | None => find_first p l = None
  end.
Proof.
  intros Hf. induction l as [|x l IH]; [done|]. simpl. destruct (p x) eqn:E; simpl.
  - rewrite Hf by done. eauto.
  - destruct (update_first p f l) as [l'|]; simpl; [|done]. rewrite E. destruct IH as [? ->]. done.
Qed.

(** ... is not seen by a search it cannot satisfy. *)
Lemma update_first_other (q : A → bool) (f : A → A) (l l' : list A) :
  (∀ x, p x = true → q x = false ∧ q (f x) = false) →
  update_first p f l = Some l' → find_first q l' = find_first q l.
Proof.
  intros Hq. revert l'. induction l as [|x l IH]; intros l' H; [done|]. simpl in *.
  destruct (p x) eqn:E.
  - injection H as <-. simpl. destruct (Hq x E) as [-> ->]. done.
  - destruct (update_first p f l) as [l1|]; [|done]. injection H as <-. simpl. by rewrite IH.
Qed.
End lists.

(** ** Touched rows *)

Abbreviation key := FastPgMemTouchedRowKey (only parsing).

(** The cid recorded for a row, wherever it is recorded. *)
Definition touched_view (s : Session) (k : key) : option Z :=
  match find_first (key_matches k) (touched_inline s) with
  | Some e => Some e.2
  | None => touched_hash s ≫= λ h, h !! k
  end.

(** The hash table is only used once the array is full. *)
Definition touched_ok (s : Session) : Prop :=
  (length (touched_inline s) <= FASTPG_MEM_INLINE_TOUCHED_ROWS)%nat ∧
  (touched_hash s ≠ None → length (touched_inline s) = FASTPG_MEM_INLINE_TOUCHED_ROWS).

Lemma key_matches_spec k e : key_matches k e = bool_decide (e.1 = k).
Proof.
  unfold key_matches. destruct k as [a b c], e as [[a' b' c'] x]. simpl.
  destruct (Z.eqb_spec a' a), (Z.eqb_spec b' b), (Z.eqb_spec c' c); simpl; symmetry;
    try (apply bool_decide_eq_false; congruence). apply bool_decide_eq_true. congruence.
Qed.

Definition touch_max (cid : Z) (o : option Z) : option Z := Some (Z.max cid (default cid o)).

(** The array and the table together are one finite map from rows to the
    newest command that touched them. *)
Lemma touched_hash_insert_view relid row_id cid xid s :
  touched_ok s →
  let k := touched_key relid row_id xid in
  let s' := fastpg_mem_touched_hash_insert relid row_id cid xid s in
  touched_ok s' ∧
  ∀ k', touched_view s' k' = if decide (k' = k) then touch_max cid (touched_view s k) else touched_view s k'.
Proof.
  intros [Hlen Hfull] k s'.
  pose proof (update_first_spec (key_matches k) (λ e, (e.1, if e.2 <? cid then cid else e.2))
    (touched_inline s)) as Hupd.
  pose proof (update_first_other (key_matches k)) as Hoth.
  unfold s', fastpg_mem_touched_hash_insert. fold k.
  destruct (update_first (key_matches k) _ (touched_inline s)) as [l|] eqn:Hu.
  - destruct Hupd as [(e & He & He') Hl]; [intros e; by rewrite !key_matches_spec|].
    split; [split; simpl; rewrite Hl; done|]. intros k'. unfold touched_view. simpl. case_decide as Hd.
    + subst k'. rewrite He', He. unfold touch_max. simpl. destruct (Z.ltb_spec e.2 cid); f_equal; lia.
    + assert (find_first (key_matches k') l = find_first (key_matches k') (touched_inline s)) as ->; [|done].
      eapply Hoth; [|exact Hu]. intros e'. rewrite !key_matches_spec. simpl.
      intros E%bool_decide_eq_true. rewrite E. split; by apply bool_decide_eq_false_2.
  - assert (find_first (key_matches k) (touched_inline s) = None) as Hno
      by (apply Hupd; intros e; by rewrite !key_matches_spec).
    destruct (Nat.ltb_spec (length (touched_inline s)) FASTPG_MEM_INLINE_TOUCHED_ROWS) as [Hlt|Hge].
    + assert (touched_hash s = None) as Hh.
      { destruct (touched_hash s); [|done]. rewrite Hfull in Hlt by done. lia. }
      split; [split; simpl; [rewrite length_app; simpl; lia|by rewrite Hh]|]. intros k'.
      unfold touched_view. simpl. rewrite find_first_app, Hh. simpl. rewrite key_matches_spec. simpl.
      case_decide as Hd.
      * subst k'. rewrite Hno, bool_decide_eq_true_2 by done. unfold touch_max. simpl. by rewrite Z.max_id.
      * rewrite bool_decide_eq_false_2 by congruence. by destruct (find_first (key_matches k') (touched_inline s)).
    + split; [split; simpl; [done|lia]|]. intros k'. unfold touched_view. simpl. case_decide as Hd.
      * subst k'. rewrite Hno, lookup_insert_eq. unfold touch_max. f_equal.
        destruct (touched_hash s) as [h|]; simpl; [|by rewrite Z.max_id].
        destruct (h !! k) as [c|]; simpl; [|by rewrite Z.max_id]. destruct (Z.ltb_spec c cid); lia.
      * rewrite lookup_insert_ne by done.
        destruct (find_first (key_matches k') (touched_inline s)); [done|]. by destruct (touched_hash s).
Qed.

(** *** Marking rows, and asking *)

Section touched.
Context {cfg : Config} {storage : Storage}.

(** The relation, row and command of a call of [fastpg_mem_mark_row_touched]. *)
Definition mark : Type := (Z * Z * Z).
Definition do_mark (m : mark) (s : Session) : Session :=
  let '(relid, row_id, cid) := m in fastpg_mem_mark_row_touched relid row_id cid s.

(** The newest command that marked a row; [marks] is newest first. *)
Fixpoint newest (relid row_id : Z) (marks : list mark) : option Z :=
  match marks with
  | [] => None
  | (relid', row_id', cid) :: marks' =>
      if decide (relid' = relid ∧ row_id' = row_id) then touch_max cid (newest relid row_id marks')
      else newest relid row_id marks'
  end.

Lemma visibility_lookup_update relid f s relid' :
  (∀ v, vs_relid (f v) = vs_relid v) →
  fastpg_mem_relation_visibility_state relid' (visibility_update relid f s) =
    if decide (relid' = relid)
    then Some (f (default (new_visibility relid) (fastpg_mem_relation_visibility_state relid s)))
    else fastpg_mem_relation_visibility_state relid' s.
Proof.
  intros Hf. unfold visibility_update, fastpg_mem_relation_visibility_state, visibility_lookup.
  pose proof (update_first_spec (λ e, vs_relid e =? relid) f (visibility_states s)) as Hupd.
  pose proof (update_first_other (λ e, vs_relid e =? relid) (λ e, vs_relid e =? relid') f) as Hoth.
  destruct (update_first _ f (visibility_states s)) as [l|] eqn:Hu; simpl.
  - destruct Hupd as [(e & He & He') _]; [intros v; by rewrite Hf|]. case_decide as Hd.
    + subst relid'. by rewrite He, He'.
    + eapply Hoth; [|exact Hu]. intros v Hv%Z.eqb_eq. rewrite Hf, Hv. split; apply Z.eqb_neq; congruence.
  - assert (find_first (λ e, vs_relid e =? relid) (visibility_states s) = None) as Hno
      by (apply Hupd; intros v; by rewrite Hf).
    rewrite Hf. simpl. case_decide as Hd.
    + subst relid'. rewrite Z.eqb_refl, Hno. done.
    + destruct (Z.eqb_spec relid relid'); [congruence|done].
Qed.

Lemma visibility_update_fields relid f s :
  touched_inline (visibility_update relid f s) = touched_inline s ∧
  touched_hash (visibility_update relid f s) = touched_hash s ∧
  current_xid (visibility_update relid f s) = current_xid s.
Proof. unfold visibility_update. by destruct (update_first _ f _). Qed.

Lemma touched_hash_insert_fields relid row_id cid xid s :
  visibility_states (fastpg_mem_touched_hash_insert relid row_id cid xid s) = visibility_states s ∧
  current_xid (fastpg_mem_touched_hash_insert relid row_id cid xid s) = current_xid s.
Proof.
  unfold fastpg_mem_touched_hash_insert. destruct (update_first _ _ _); [done|].
  by destruct (_ <? _)%nat.
Qed.

(** What holds after [marks] under transaction [xid]. *)
Record marked (xid : Z) (marks : list mark) (s : Session) : Prop := {
  mk_xid : current_xid s = xid;
  mk_ok : touched_ok s;
  mk_view : ∀ relid row_id, touched_view s (touched_key relid row_id xid) = newest relid row_id marks;
  mk_gate : ∀ relid row_id c, newest relid row_id marks = Some c →
    ∃ v, fastpg_mem_relation_visibility_state relid s = Some v ∧ vs_touched_xid v = xid ∧ c <= vs_max_touched_cid v;
}.

Lemma touch_visibility_spec xid cid v :
  let v' := touch_visibility xid cid v in
  vs_relid v' = vs_relid v ∧ vs_touched_xid v' = xid ∧ cid <= vs_max_touched_cid v' ∧
  (vs_touched_xid v = xid → vs_max_touched_cid v <= vs_max_touched_cid v').
Proof.
  unfold touch_visibility. destruct (Z.eqb_spec (vs_touched_xid v) xid); simpl; [|by split_and!].
  destruct (Z.ltb_spec (vs_max_touched_cid v) cid); simpl; split_and!; done || lia.
Qed.

Lemma marked_mark xid marks relid row_id cid s :
  row_id ≠ 0 → marked xid marks s →
  marked xid ((relid, row_id, cid) :: marks) (fastpg_mem_mark_row_touched relid row_id cid s).
Proof.
  intros Hrow [Hx Hok Hview Hgate]. unfold fastpg_mem_mark_row_touched.
  destruct (Z.eqb_spec row_id 0); [done|]. rewrite Hx.
  destruct (touched_hash_insert_view relid row_id cid xid s Hok) as [Hok1 Hview1].
  destruct (touched_hash_insert_fields relid row_id cid xid s) as [Evis Exid].
  set (s1 := fastpg_mem_touched_hash_insert relid row_id cid xid s) in *.
  destruct (visibility_update_fields relid (touch_visibility xid cid) s1) as (Ei & Eh & Ex).
  constructor.
  - congruence.
  - unfold touched_ok. by rewrite Ei, Eh.
  - intros relid' row_id'. unfold touched_view. rewrite Ei, Eh. fold (touched_view s1 (touched_key relid' row_id' xid)).
    rewrite Hview1. simpl. rewrite !Hview.
    destruct (decide (relid = relid' ∧ row_id = row_id')) as [[-> ->]|Hne].
    + by rewrite decide_True.
    + rewrite decide_False; [done|]. intros [=]; subst. by apply Hne.
  - intros relid' row_id' c Hc. rewrite visibility_lookup_update by (intros v; apply touch_visibility_spec).
    assert (fastpg_mem_relation_visibility_state relid s1 = fastpg_mem_relation_visibility_state relid s ∧
            fastpg_mem_relation_visibility_state relid' s1 = fastpg_mem_relation_visibility_state relid' s)
      as [E1 E2] by (unfold fastpg_mem_relation_visibility_state; by rewrite Evis).
    rewrite E1, E2. clear E1 E2. simpl in Hc.
    destruct (decide (relid = relid' ∧ row_id = row_id')) as [[-> ->]|Hne].
    + rewrite decide_True by done. eexists. split; [done|].
      destruct (newest relid' row_id' marks) as [c0|] eqn:Hn; unfold touch_max in Hc; simpl in Hc; injection Hc as <-.
      * destruct (Hgate _ _ _ Hn) as (v & -> & Hv & Hle). simpl. destruct (touch_visibility_spec xid cid v) as (_ & ? & ? & ?). split; [done|]. lia.
      * destruct (touch_visibility_spec xid cid (default (new_visibility relid')
          (fastpg_mem_relation_visibility_state relid' s))) as (_ & ? & ? & _).
        split; [done|]. lia.
    + destruct (Hgate _ _ _ Hc) as (v & Hv & Hvx & Hle). case_decide as Hd; [|by eauto].
      subst relid'. rewrite Hv. eexists. split; [done|]. simpl. destruct (touch_visibility_spec xid cid v) as (_ & ? & ? & ?). split; [done|]. lia.
Qed.

Lemma marked_run xid marks s :
  current_xid s = xid → Forall (λ m, m.1.2 ≠ 0) marks →
  marked xid marks (foldr do_mark (fastpg_mem_reset_touched_rows s) marks).
Proof.
  intros Hx. induction 1 as [|[[relid row_id] cid] marks Hm _ IH]; simpl.
  - constructor; [done|by split; simpl; [lia|]|done|done].
  - by apply marked_mark.
Qed.

(** C35: touched rows are found. After the rows touched so far have been
    forgotten, any number of rows of any relations may be touched under one
    transaction number: asking, under this number, whether a row has been
    touched by command [cid] or a later one then answers with the newest command
    that touched it, exactly as a map from rows to commands would; neither the
    16-entry array, the hash table behind it nor the per-relation short cut
    changes the answer. With touches of a subtransaction in between, which has a
    number of its own, it does: see [subxact_hides_touched_rows]. *)
Theorem row_touched_exact xid marks s relid row_id cid :
  current_xid s = xid → Forall (λ m, m.1.2 ≠ 0) marks →
  fastpg_mem_row_touched relid row_id cid (foldr do_mark (fastpg_mem_reset_touched_rows s) marks) =
    match newest relid row_id marks with
    | Some c => if c <? cid then None else Some c
    | None => None
    end.
Proof.
  intros Hx Hm. destruct (marked_run xid marks s Hx Hm) as [Hx' Hok Hview Hgate].
  set (s' := foldr do_mark _ marks) in *. unfold fastpg_mem_row_touched. rewrite Hx'.
  specialize (Hview relid row_id). unfold touched_view in Hview.
  assert (∀ o, match find_first (key_matches (touched_key relid row_id xid)) (touched_inline s') with
    | Some e => if e.2 <? cid then None else Some e.2
    | None => match touched_hash s' with
              | Some h => match h !! touched_key relid row_id xid with
                          | Some c => if c <? cid then None else Some c
                          | None => None end
              | None => None end end = o →
    o = match newest relid row_id marks with Some c => if c <? cid then None else Some c | None => None end) as Hbody.
  { intros o <-. rewrite <- Hview. destruct (find_first _ _); [done|]. by destruct (touched_hash s'). }
  destruct (newest relid row_id marks) as [c|] eqn:Hn.
  - destruct (Hgate _ _ _ Hn) as (v & -> & -> & Hle). rewrite Z.eqb_refl. simpl.
    destruct (Z.ltb_spec (vs_max_touched_cid v) cid) as [Hlt|_]; [|by apply Hbody].
    destruct (Z.ltb_spec c cid); [done|lia].
  - destruct (fastpg_mem_relation_visibility_state relid s'); [|done].
    destruct (negb _ || _); [done|]. by apply Hbody.
Qed.
End touched.

(** ** Chains of redirects *)

(** A row updated again and again by one transaction: its versions in order. *)
Fixpoint record_chain (relid : Z) (rows : list Z) (s : Session) : Session :=
  match rows with
  | r1 :: ((r2 :: _) as rest) => record_chain relid rest (fastpg_mem_record_row_redirect relid r1 r2 s)
  | _ => s
  end.

Definition redirect (relid xid o n : Z) : FastPgMemRowRedirect :=
  {| rr_relid := relid; rr_old_row_id := o; rr_new_row_id := n; rr_xid := xid |}.
Definition edges (relid xid : Z) (rows : list Z) : list FastPgMemRowRedirect :=
  zip_with (redirect relid xid) rows (tail rows).

Lemma record_chain_redirects relid rows s :
  NoDup rows → 0 ∉ rows →
  row_redirects (record_chain relid rows s) = reverse (edges relid (current_xid s) rows) ++ row_redirects s ∧
  current_xid (record_chain relid rows s) = current_xid s.
Proof.
  revert s. induction rows as [|r1 [|r2 rows] IH]; intros s Hnd H0; [done..|].
  assert (fastpg_mem_record_row_redirect relid r1 r2 s =
    set_redirects (redirect relid (current_xid s) r1 r2 :: row_redirects s) s) as E.
  { unfold fastpg_mem_record_row_redirect.
    destruct (Z.eqb_spec r1 0); [set_solver|]. destruct (Z.eqb_spec r2 0); [set_solver|].
    destruct (Z.eqb_spec r1 r2); [|done]. apply NoDup_cons in Hnd as [Hn _]. set_solver. }
  change (record_chain relid (r1 :: r2 :: rows) s) with
    (record_chain relid (r2 :: rows) (fastpg_mem_record_row_redirect relid r1 r2 s)).
  rewrite E. destruct (IH (set_redirects (redirect relid (current_xid s) r1 r2 :: row_redirects s) s)) as [-> ->];
    [by apply NoDup_cons in Hnd as [_ ?]|set_solver|]. split; [|done].
  change (edges relid (current_xid s) (r1 :: r2 :: rows)) with
    (redirect relid (current_xid s) r1 r2 :: edges relid (current_xid s) (r2 :: rows)).
  rewrite reverse_cons, <- app_assoc. done.
Qed.

Lemma elem_of_edges relid xid rows e :
  e ∈ edges relid xid rows ↔
    ∃ j o n, rows !! j = Some o ∧ rows !! S j = Some n ∧ e = redirect relid xid o n.
Proof.
  rewrite list_elem_of_lookup. unfold edges. setoid_rewrite lookup_zip_with_Some.
  assert (∀ j : nat, tail rows !! j = rows !! S j) as E by (intros j; by destruct rows).
  setoid_rewrite E. naive_solver.
Qed.

Lemma find_first_unique {A} (p : A → bool) (l : list A) x :
  x ∈ l → p x = true → (∀ y, y ∈ l → p y = true → y = x) → find_first p l = Some x.
Proof.
  induction l as [|y l IH]; intros Hin Hp Hu; [by apply not_elem_of_nil in Hin|]. simpl.
  destruct (p y) eqn:E; [f_equal; apply Hu; [left|done]|].
  apply IH; [|done|intros z Hz; apply Hu; by right]. apply elem_of_cons in Hin as [->|]; [congruence|done].
Qed.

(** The session has no redirect from or to a row of the chain yet. *)
Definition untouched (relid : Z) (rows : list Z) (s : Session) : Prop :=
  ∀ e, e ∈ row_redirects s → rr_relid e = relid → rr_xid e = current_xid s →
    (rr_old_row_id e ∉ rows) ∧ rr_new_row_id e ∉ rows.

Section chain.
Variables (relid : Z) (rows : list Z) (s : Session).
Hypothesis (Hnd : NoDup rows) (H0 : 0 ∉ rows) (Hun : untouched relid rows s).
Let s' := record_chain relid rows s.

Lemma chain_entry e :
  e ∈ row_redirects s' ↔ e ∈ edges relid (current_xid s) rows ∨ e ∈ row_redirects s.
Proof.
  unfold s'. destruct (record_chain_redirects relid rows s Hnd H0) as [-> _].
  rewrite elem_of_app, elem_of_reverse. done.
Qed.

Lemma rows_inj i j r : rows !! i = Some r → rows !! j = Some r → i = j.
Proof. intros Hi Hj. by eapply NoDup_lookup. Qed.

Lemma chain_next i r :
  rows !! i = Some r → redirect_next (row_redirects s') relid (current_xid s) r = rows !! S i.
Proof.
  intros Hi. unfold redirect_next. destruct (rows !! S i) as [n|] eqn:Hn.
  - rewrite (find_first_unique _ _ (redirect relid (current_xid s) r n)); [done|..].
    + apply chain_entry. left. apply elem_of_edges. eauto 6.
    + simpl. by rewrite !Z.eqb_refl.
    + intros e He Hp. rewrite !andb_true_iff, !Z.eqb_eq in Hp. destruct Hp as [[Er Eo] Ex].
      apply chain_entry in He as [He|He].
      * apply elem_of_edges in He as (j & o & n' & Hj & Hj' & ->). simpl in *. subst o.
        pose proof (rows_inj _ _ _ Hi Hj) as ->. congruence.
      * destruct (Hun e He Er Ex) as [Hno _]. rewrite Eo in Hno. by apply list_elem_of_lookup_2 in Hi.
  - destruct (find_first _ _) as [e|] eqn:Hf; [|done]. exfalso.
    apply find_first_Some in Hf as [Hp He]. rewrite !andb_true_iff, !Z.eqb_eq in Hp. destruct Hp as [[Er Eo] Ex].
    apply chain_entry in He as [He|He].
    + apply elem_of_edges in He as (j & o & n' & Hj & Hj' & ->). simpl in *. subst o.
      pose proof (rows_inj _ _ _ Hi Hj) as ->. congruence.
    + destruct (Hun e He Er Ex) as [Hno _]. rewrite Eo in Hno. by apply list_elem_of_lookup_2 in Hi.
Qed.

Lemma chain_prev i r :
  rows !! i = Some r →
  redirect_prev (row_redirects s') relid (current_xid s) r = match i with O => None | S j => rows !! j end.
Proof.
  intros Hi. unfold redirect_prev.
  assert (∀ e, e ∈ row_redirects s' → rr_relid e = relid → rr_new_row_id e = r → rr_xid e = current_xid s →
    ∃ j o, i = S j ∧ rows !! j = Some o ∧ e = redirect relid (current_xid s) o r) as Hinv.
  { intros e He Er En Ex. apply chain_entry in He as [He|He].
    - apply elem_of_edges in He as (j & o & n' & Hj & Hj' & ->). simpl in *. subst n'.
      pose proof (rows_inj _ _ _ Hi Hj') as ->. eauto.
    - destruct (Hun e He Er Ex) as [_ Hno]. rewrite En in Hno. by apply list_elem_of_lookup_2 in Hi. }
  destruct i as [|j].
  - destruct (find_first _ _) as [e|] eqn:Hf; [|done]. exfalso.
    apply find_first_Some in Hf as [Hp He]. rewrite !andb_true_iff, !Z.eqb_eq in Hp. destruct Hp as [[Er Eo] Ex].
    destruct (Hinv e He Er Eo Ex) as (j & o & ? & _). done.
  - destruct (rows !! j) as [o|] eqn:Ho.
    2:{ apply lookup_ge_None in Ho. apply lookup_lt_Some in Hi. lia. }
    rewrite (find_first_unique _ _ (redirect relid (current_xid s) o r)); [done|..].
    + apply chain_entry. left. apply elem_of_edges. eauto 6.
    + simpl. by rewrite !Z.eqb_refl.
    + intros e He Hp. rewrite !andb_true_iff, !Z.eqb_eq in Hp. destruct Hp as [[Er Eo] Ex].
      destruct (Hinv e He Er Eo Ex) as (j' & o' & [= <-] & Ho' & ->). congruence.
Qed.
End chain.

(** Following successors, and predecessors, of a list. *)
Lemma follow_next next (rows : list Z) d i r :
  (∀ j x, rows !! j = Some x → next x = rows !! S j) → rows !! i = Some r →
  rows !! Nat.min (length rows - 1) (i + d) = Some (follow d next r).
Proof.
  intros Hn. revert i r. induction d as [|d IH]; intros i r Hi; pose proof (lookup_lt_Some _ _ _ Hi) as Hlt; simpl.
  - by rewrite Nat.add_0_r, Nat.min_r by lia.
  - rewrite (Hn _ _ Hi). destruct (rows !! S i) as [r'|] eqn:Hi'.
    + rewrite <- (IH _ _ Hi'). f_equal. lia.
    + apply lookup_ge_None in Hi'. rewrite Nat.min_l by lia. by replace (length rows - 1)%nat with i by lia.
Qed.

Lemma follow_prev prev (rows : list Z) d i r :
  (∀ j x, rows !! j = Some x → prev x = match j with O => None | S k => rows !! k end) → rows !! i = Some r →
  rows !! (i - d)%nat = Some (follow d prev r).
Proof.
  intros Hp. revert i r. induction d as [|d IH]; intros i r Hi; simpl.
  - by rewrite Nat.sub_0_r.
  - rewrite (Hp _ _ Hi). destruct i as [|j]; [done|].
    pose proof (lookup_lt_Some _ _ _ Hi) as Hlt.
    destruct (rows !! j) as [r'|] eqn:Hj; [|apply lookup_ge_None in Hj; lia]. by apply IH.
Qed.

(** Redirects.  When a transaction has updated a row several times, a
    version resolves to the newest one and goes back to the first, over up to 32
    updates; over more it ends 32 versions further on, or back. *)
Theorem redirect_chain_resolves relid rows s i r :
  NoDup rows → 0 ∉ rows → untouched relid rows s → rows !! i = Some r →
  let s' := record_chain relid rows s in
  rows !! Nat.min (length rows - 1) (i + 32) = Some (fastpg_mem_resolve_row_redirect relid r s') ∧
  rows !! (i - 32)%nat = Some (fastpg_mem_reverse_row_redirect relid r s').
Proof.
  intros Hnd H0 Hun Hi s'. unfold fastpg_mem_resolve_row_redirect, fastpg_mem_reverse_row_redirect.
  unfold s'. destruct (record_chain_redirects relid rows s Hnd H0) as [_ ->].
  split; [apply follow_next|apply follow_prev]; try done; intros j x; [by apply chain_next|by apply chain_prev].
Qed.

(** ** Transactions are isolated from one another *)

Section transactions.
Context {cfg : Config} {storage : Storage}.

Definition ends_xact (event : XactEvent) : bool :=
  match event with
  | XACT_EVENT_COMMIT | XACT_EVENT_PARALLEL_COMMIT | XACT_EVENT_PREPARE
  | XACT_EVENT_ABORT | XACT_EVENT_PARALLEL_ABORT => true
  | _ => false
  end.

Lemma ended event s :
  ends_xact event = true →
  let s' := fastpg_mem_xact_callback event s in
  touched_inline s' = [] ∧ touched_hash s' = None ∧ row_redirects s' = [] ∧ speculative_inserts s' = [] ∧
  storage2_lock_roots s' = [] ∧ last_index_key_valid s' = false ∧ visibility_states s' = visibility_states s.
Proof.
  assert (∀ b f s0, visibility_states (f s0) = visibility_states s0 →
    visibility_states (when b f s0) = visibility_states s0) as Hw by (by intros []).
  destruct event; intros H; try discriminate H; simpl; split_and!; try done;
    by rewrite !Hw.
Qed.

(** C36: isolation.  Whatever a transaction did, once it has committed or
    aborted a later transaction (one whose number no relation was touched under)
    starts from nothing: no row counts as touched, no row is redirected, locked
    through a root or waiting to be inserted, and no scan needs row metadata. *)
Theorem xact_end_isolates event xid s :
  ends_xact event = true → (∀ v, v ∈ visibility_states s → vs_touched_xid v ≠ xid) →
  let s' := set_xid xid (fastpg_mem_xact_callback event s) in
  ∀ relid row_id cid snapshot,
    fastpg_mem_row_touched relid row_id cid s' = None ∧
    fastpg_mem_relation_touched_by_current_xact relid s' = false ∧
    fastpg_mem_resolve_row_redirect relid row_id s' = row_id ∧
    fastpg_mem_reverse_row_redirect relid row_id s' = row_id ∧
    fastpg_mem_storage2_lock_root relid row_id s' = row_id ∧
    (fastpg_mem_take_speculative_insert relid cid s').1 = None ∧
    fastpg_mem_scan_needs_row_metadata relid snapshot s' = false.
Proof.
  intros Hev Hfresh s' relid row_id cid snapshot.
  destruct (ended event s Hev) as (E1 & E2 & E3 & E4 & E5 & E6 & E7).
  assert (∀ v, fastpg_mem_relation_visibility_state relid s' = Some v → (vs_touched_xid v =? xid) = false) as Hv.
  { intros v Hv. unfold fastpg_mem_relation_visibility_state, visibility_lookup in Hv. simpl in Hv.
    rewrite E7 in Hv. apply find_first_Some in Hv as [_ Hv]. by apply Z.eqb_neq, Hfresh. }
  unfold fastpg_mem_row_touched, fastpg_mem_relation_touched_by_current_xact,
    fastpg_mem_resolve_row_redirect, fastpg_mem_reverse_row_redirect, fastpg_mem_storage2_lock_root,
    fastpg_mem_take_speculative_insert, fastpg_mem_scan_needs_row_metadata.
  change (current_xid s') with xid. change (row_redirects s') with (row_redirects (fastpg_mem_xact_callback event s)).
  change (storage2_lock_roots s') with (storage2_lock_roots (fastpg_mem_xact_callback event s)).
  change (speculative_inserts s') with (speculative_inserts (fastpg_mem_xact_callback event s)).
  rewrite E3, E4, E5. split_and!; try done.
  - destruct (fastpg_mem_relation_visibility_state relid s') as [v|]; [|done]. by rewrite (Hv v eq_refl).
  - destruct (negb _); [done|]. destruct (fastpg_mem_relation_visibility_state relid s') as [v|]; [|done].
    by rewrite (Hv v eq_refl).
  - destruct snapshot as [snap|]; [|done]. destruct (negb _); [done|]. destruct (negb (is_mvcc snap)); [done|].
    destruct (fastpg_mem_relation_visibility_state relid s') as [v|]; [|done]. rewrite (Hv v eq_refl).
    by destruct (negb _).
Qed.
End transactions.

(** ** Speculative inserts *)

Lemma update_first_split {A} (p : A → bool) f (l : list A) :
  match update_first p f l with
  | Some l' => ∃ pre x post, l = pre ++ x :: post ∧ l' = pre ++ f x :: post ∧ p x = true ∧ ∀ y, y ∈ pre → p y = false
  | None => ∀ y, y ∈ l → p y = false
  end.
Proof.
  induction l as [|x l IH]; simpl; [intros y H; by apply not_elem_of_nil in H|].
  destruct (p x) eqn:E.
  - exists [], x, l. split_and!; try done. intros y H. by apply not_elem_of_nil in H.
  - destruct (update_first p f l) as [l'|]; simpl.
    + destruct IH as (pre & y & post & -> & -> & Hy & Hpre). exists (x :: pre), y, post.
      split_and!; try done. intros z [->|Hz]%elem_of_cons; auto.
    + intros y [->|Hy]%elem_of_cons; auto.
Qed.

Lemma update_first_app {A} (p : A → bool) f (pre post : list A) x :
  (∀ y, y ∈ pre → p y = false) → p x = true → update_first p f (pre ++ x :: post) = Some (pre ++ f x :: post).
Proof.
  intros Hpre Hx. induction pre as [|y pre IH]; simpl; [by rewrite Hx|].
  rewrite Hpre by left. rewrite IH; [done|]. intros z Hz. apply Hpre. by right.
Qed.

Lemma remove_first_app {A} (p : A → bool) (pre post : list A) x :
  (∀ y, y ∈ pre → p y = false) → p x = true → remove_first p (pre ++ x :: post) = Some (x, pre ++ post).
Proof.
  intros Hpre Hx. induction pre as [|y pre IH]; simpl; [by rewrite Hx|].
  rewrite Hpre by left. rewrite IH; [done|]. intros z Hz. apply Hpre. by right.
Qed.

Definition speculative (relid spec_token row_id xid : Z) (pk : option (Z * list key_column)) :=
  {| si_relid := relid; si_spec_token := spec_token; si_row_id := row_id; si_xid := xid; si_primary_key := pk |}.

(** Remembering a row: it is in the list once, in front of every other entry
    that matches its token. *)
Lemma remember_split relid spec_token row_id s :
  row_id ≠ 0 →
  ∃ pre post, fastpg_mem_remember_speculative_insert relid spec_token row_id s =
      set_speculative (pre ++ speculative relid spec_token row_id (current_xid s) None :: post) s ∧
    (∀ e, e ∈ pre → fastpg_mem_speculative_insert_matches e relid spec_token (current_xid s) = false) ∧
    (∀ e, e ∈ pre ++ post → e ∈ speculative_inserts s).
Proof.
  intros Hrow. unfold fastpg_mem_remember_speculative_insert. destruct (Z.eqb_spec row_id 0); [done|].
  pose proof (update_first_split (λ e, fastpg_mem_speculative_insert_matches e relid spec_token (current_xid s))
    (λ e, {| si_relid := si_relid e; si_spec_token := si_spec_token e; si_row_id := row_id;
             si_xid := current_xid s; si_primary_key := None |}) (speculative_inserts s)) as Hu.
  destruct (update_first _ _ _) as [l|].
  - destruct Hu as (pre & e & post & El & -> & He & Hpre). exists pre, post.
    unfold fastpg_mem_speculative_insert_matches in He.
    destruct (Z.eqb_spec (si_relid e) relid) as [->|]; [simpl in He|done].
    destruct (Z.eqb_spec (si_spec_token e) spec_token) as [->|]; [|done].
    split_and!; [done|done|]. intros e'. rewrite El, !elem_of_app, elem_of_cons. tauto.
  - exists [], (speculative_inserts s). split_and!; try done. intros e H. by apply not_elem_of_nil in H.
Qed.

Lemma spec_matches_self relid spec_token row_id xid pk :
  fastpg_mem_speculative_insert_matches (speculative relid spec_token row_id xid pk) relid spec_token xid = true.
Proof.
  unfold fastpg_mem_speculative_insert_matches. simpl. rewrite !Z.eqb_refl. simpl. by destruct (negb _ || negb _).
Qed.

Lemma row_matches_self relid spec_token row_id xid pk :
  speculative_row_matches relid row_id xid (speculative relid spec_token row_id xid pk) = true.
Proof. unfold speculative_row_matches. simpl. rewrite !Z.eqb_refl. by rewrite orb_true_r. Qed.

Lemma row_matches_fresh relid row_id xid e :
  ¬ (si_relid e = relid ∧ si_row_id e = row_id) → speculative_row_matches relid row_id xid e = false.
Proof.
  intros H. unfold speculative_row_matches.
  destruct (Z.eqb_spec (si_relid e) relid), (Z.eqb_spec (si_row_id e) row_id); simpl; try done. tauto.
Qed.

(** Speculative inserts.  A row remembered under a token, and the key of
    its index entry recorded with it, are found under the row while it is there,
    handed back complete by the token, and gone afterwards. *)
Theorem speculative_insert_roundtrip relid spec_token row_id index_relid keys s :
  row_id ≠ 0 → (0 < length keys <= FASTPG_MAX_INDEX_KEYS)%nat →
  (∀ e, e ∈ speculative_inserts s → ¬ (si_relid e = relid ∧ si_row_id e = row_id)) →
  let s1 := fastpg_mem_remember_speculative_insert relid spec_token row_id s in
  let r2 := fastpg_mem_remember_speculative_insert_primary_key relid row_id index_relid keys s1 in
  let r3 := fastpg_mem_take_speculative_insert relid spec_token r2.2 in
  fastpg_mem_speculative_insert_row_exists relid row_id s1 = true ∧ r2.1 = true ∧
  r3.1 = Some (speculative relid spec_token row_id (current_xid s) (Some (index_relid, keys))) ∧
  fastpg_mem_speculative_insert_row_exists relid row_id r3.2 = false.
Proof.
  intros Hrow Hk Hfresh s1.
  destruct (remember_split relid spec_token row_id s Hrow) as (pre & post & E & Hpre & Hin).
  unfold s1. rewrite E. clear s1 E. set (xid := current_xid s) in *.
  assert (∀ e, e ∈ pre ++ post → speculative_row_matches relid row_id xid e = false) as Hno.
  { intros e He. apply row_matches_fresh, Hfresh. by apply Hin. }
  assert (fastpg_mem_remember_speculative_insert_primary_key relid row_id index_relid keys
    (set_speculative (pre ++ speculative relid spec_token row_id xid None :: post) s) =
    (true, set_speculative (pre ++ speculative relid spec_token row_id xid (Some (index_relid, keys)) :: post) s)) as ->.
  { unfold fastpg_mem_remember_speculative_insert_primary_key. simpl.
    destruct (Z.eqb_spec row_id 0); [done|]. destruct (Nat.eqb_spec (length keys) 0); [lia|].
    destruct (Nat.ltb_spec FASTPG_MAX_INDEX_KEYS (length keys)); [lia|]. simpl.
    rewrite update_first_app; [done| |apply row_matches_self].
    intros e He. apply Hno. apply elem_of_app. by left. }
  simpl. unfold fastpg_mem_take_speculative_insert. simpl.
  rewrite remove_first_app by (done || apply spec_matches_self). simpl.
  unfold fastpg_mem_speculative_insert_row_exists. simpl. destruct (Z.eqb_spec row_id 0); [done|].
  split_and!; try done.
  - apply bool_decide_eq_true_2. fold xid. intros Hf. rewrite find_first_None in Hf.
    specialize (Hf (speculative relid spec_token row_id xid None)). rewrite row_matches_self in Hf.
    by discriminate Hf; apply elem_of_app; right; left.
  - apply bool_decide_eq_false_2. intros H. apply H. by apply find_first_None.
Qed.

(** ** A subtransaction in between *)

Section savepoint.

(** PostgreSQL catalogs over the first storage engine; rows 1 and 2 of
    relation 16384 were inserted by transactions 10 and 11 in commands 5 and 6,
    and 11 is a subtransaction of the current transaction 10. *)
#[local] Instance sp_config : Config := {|
  fastpg_catalog_mode_uses_postgres := true;
  storage_engine := Some "storage1";
  fastpg_rust_catalog_policy_by_relation_oid := λ _, 0;
|}.
#[local] Instance sp_storage : Storage := {|
  fastpg_rust_relation_row_xmin := λ _ row_id, if row_id =? 1 then 10 else 11;
  fastpg_rust_relation_row_cmin := λ _ row_id, if row_id =? 1 then 5 else 6;
  fastpg_rust_relation_row_delete_xid := λ _ _, 0;
  fastpg_rust_relation_row_delete_cid := λ _ _, 0;
  fastpg_storage2_relation_row_delete_xid := λ _ _, 0;
  fastpg_storage2_relation_row_delete_cid := λ _ _, 0;
  TransactionIdIsCurrentTransactionId := λ xid, (xid =? 10) || (xid =? 11);
|}.

Definition sp_start : Session :=
  {| current_xid := 10; touched_inline := []; touched_hash := None; row_redirects := [];
     speculative_inserts := []; storage2_lock_roots := []; visibility_states := [];
     last_index_key_valid := false; xact_callbacks_registered := true; calls := [] |}.

(** Row 1 is touched, then a savepoint touches row 2 and is released. *)
Definition sp_before : Session := fastpg_mem_mark_row_touched 16384 1 5 sp_start.
Definition sp_after : Session :=
  set_xid 10 (fastpg_mem_subxact_callback SUBXACT_EVENT_COMMIT_SUB
    (fastpg_mem_mark_row_touched 16384 2 6
      (set_xid 11 (fastpg_mem_subxact_callback SUBXACT_EVENT_START_SUB sp_before)))).

Definition sp_snapshot : SnapshotData := {| snapshot_type := SNAPSHOT_MVCC; curcid := 5 |}.

(** A subtransaction makes its parent forget.  After a subtransaction has
    touched the same relation, a row the parent touched in the current command no
    longer counts as touched, and a row it inserted in that command is visible to
    the command's own snapshot, although its metadata says it is not. *)
Theorem subxact_hides_touched_rows :
  fastpg_mem_row_touched 16384 1 5 sp_before = Some 5 ∧
  fastpg_mem_row_touched 16384 1 5 sp_after = None ∧
  fastpg_mem_row_visible_to_snapshot 16384 1 (Some sp_snapshot) sp_before = false ∧
  fastpg_mem_row_visible_to_snapshot 16384 1 (Some sp_snapshot) sp_after = true ∧
  fastpg_mem_row_metadata_visible_to_snapshot 10 5 sp_snapshot = false.
Proof. vm_compute. auto. Qed.

Lemma row_touched_exact_witness :
  fastpg_mem_row_touched 16384 1 5 (foldr do_mark (fastpg_mem_reset_touched_rows sp_start)
    [(16384, 2, 7); (16384, 1, 6); (16390, 1, 9); (16384, 1, 4)]) = Some 6.
Proof.
  apply (row_touched_exact 10 [(16384, 2, 7); (16384, 1, 6); (16390, 1, 9); (16384, 1, 4)] sp_start 16384 1 5 eq_refl).
  repeat constructor; discriminate.
Defined.

Lemma redirect_chain_resolves_witness :
  let s' := record_chain 16384 [7; 9; 12] sp_start in
  [7; 9; 12] !! 2%nat = Some (fastpg_mem_resolve_row_redirect 16384 9 s') ∧
  [7; 9; 12] !! 0%nat = Some (fastpg_mem_reverse_row_redirect 16384 9 s').
Proof.
  apply (redirect_chain_resolves 16384 [7; 9; 12] sp_start 1 9).
  - apply (bool_decide_unpack _). vm_compute. exact I.
  - apply (bool_decide_unpack _). vm_compute. exact I.
  - intros e He. by apply not_elem_of_nil in He.
  - reflexivity.
Defined.

Lemma xact_end_isolates_witness :
  let s' := set_xid 12 (fastpg_mem_xact_callback XACT_EVENT_COMMIT sp_before) in
  fastpg_mem_row_touched 16384 1 5 sp_before ≠ None ∧ fastpg_mem_row_touched 16384 1 5 s' = None.
Proof.
  split; [by vm_compute|]. apply (xact_end_isolates XACT_EVENT_COMMIT 12 sp_before eq_refl) with (snapshot := None).
  intros v Hv. vm_compute in Hv. apply list_elem_of_singleton in Hv. rewrite Hv. discriminate.
Defined.

Lemma speculative_insert_roundtrip_witness :
  let k := {| kc_value := 1; kc_isnull := 0; kc_attnum := 1; kc_type_oid := 23; kc_typbyval := 1; kc_typlen := 4 |} in
  let s1 := fastpg_mem_remember_speculative_insert 16384 3 8 sp_start in
  let r2 := fastpg_mem_remember_speculative_insert_primary_key 16384 8 16386 [k] s1 in
  let r3 := fastpg_mem_take_speculative_insert 16384 3 r2.2 in
  fastpg_mem_speculative_insert_row_exists 16384 8 s1 = true ∧ r2.1 = true ∧
  r3.1 = Some (speculative 16384 3 8 10 (Some (16386, [k]))) ∧
  fastpg_mem_speculative_insert_row_exists 16384 8 r3.2 = false.
Proof.
  apply (speculative_insert_roundtrip 16384 3 8 16386 [_] sp_start); [done|split; [|apply Nat.ltb_lt]; vm_compute; auto|].
  intros e He. by apply not_elem_of_nil in He.
Defined.
End savepoint.
End RowStateProofs.
