(* ===== verification/TupleOps.v ===== *)
(** * TupleOps: deleting and locking tuples

    The handlers of src/src/backend/access/fastpg/fastpg_mem_tableam.c that
    delete a tuple, lock a tuple, complete a speculative insert and clear a
    relation, on top of the bookkeeping of [RowState], the TIDs of [RowIds] and
    the two storage engines.  The engines are Rust crates; the class [Engines]
    has the calls these handlers make of them, on a store of type [D]. *)

From Stdlib Require Import ZArith Lia Bool Ascii.
From stdpp Require Import base tactics numbers list gmap strings.
From S2P Require Import Prelude RowIds RowState.
Import RowIds RowState.

Local Open Scope Z_scope.
Local Open Scope pg_scope.

Module TupleOps.

(** ** Data *)

Inductive TM_Result : Type :=
| TM_Ok | TM_Invisible | TM_SelfModified | TM_Updated | TM_Deleted | TM_BeingModified | TM_WouldBlock.

Record TM_FailureData : Type := {
  tmfd_ctid : ItemPointerData;
  tmfd_xmax : Z;
  tmfd_cmax : Z;
  tmfd_traversed : bool;
}.

(** What the handlers read of a relation's descriptor; [rel_density] is the
    estimate of rows per page from its column widths. *)
Record RelationData : Type := {
  rel_id : Z;
  rel_is_catalog : bool;
  rel_is_toast : bool;
  rel_relkind : Ascii.ascii;
  rel_reltoastrelid : Z;
  rel_density : Z;
}.

Definition RELKIND_RELATION : Ascii.ascii := "r"%char.
Definition RELKIND_MATVIEW : Ascii.ascii := "m"%char.
Definition TUPLE_LOCK_FLAG_FIND_LAST_VERSION : Z := 2.

Record FastPgMemToastState : Type := {
  to_relid : Z;
  to_may_have_external : bool;
}.

(** Calls made for their effect outside the table access method. *)
Inductive effect : Type :=
| e_cache_invalidate_heap_tuple (relid : Z)
| e_heap_toast_delete (relid : Z)
| e_pgstat_count_heap_delete (relid : Z)
| e_count_io_write (relid : Z).

(** ** The storage engines *)

Class Engines (D Row : Type) : Type := {
  (** row metadata, as of a store *)
  store_meta : D → Storage;
  fastpg_storage2_relation_delete : Z → Z → D → bool * D;
  fastpg_storage2_relation_delete_record_primary_key : Z → Z → Z → D → bool * D;
  fastpg_storage2_relation_record_invalidate_metadata : Z → Z → Z → Z → D → bool * D;
  fastpg_storage2_relation_resolve_update_tid : Z → Z → D → option Z * D;
  fastpg_storage2_relation_current_session_owns_inserted_tid : Z → Z → D → bool;
  fastpg_storage2_relation_record_primary_key : Z → Z → D → bool * D;
  fastpg_storage2_primary_key_index_insert_with_spec : Z → Z → list key_column → Z → D → bool * D;
  fastpg_storage2_relation_clear : Z → D → D;
  fastpg_rust_relation_delete : Z → Z → D → bool * D;
  fastpg_rust_relation_delete_with_metadata : Z → Z → Z → Z → D → bool * D;
  fastpg_rust_relation_clear : Z → D → D;
  fastpg_rust_relation_clear_transactional : Z → D → D;
  fastpg_mem_forget_single_byval_index_row : Z → Z → D → D;
  (** the engines' last error, if one is pending *)
  storage_last_error : D → option (errcode * string);
  (** [fastpg_mem_tuple_fetch_row_version] *)
  fetch_row_version : Z → ItemPointerData → option SnapshotData → D → option Row;
  HeapTupleHasExternal : Row → bool;
  (** assigning a transaction number *)
  new_xid : D → Z * D;
}.

Record TupleState (D : Type) : Type := {
  ts_session : Session;
  ts_layouts : list FastPgMemBlockLayout;
  ts_toast : list FastPgMemToastState;
  ts_store : D;
  ts_effects : list effect;
}.
#[global] Arguments Build_TupleState {D}.
#[global] Arguments ts_session {D}.
#[global] Arguments ts_layouts {D}.
#[global] Arguments ts_toast {D}.
#[global] Arguments ts_store {D}.
#[global] Arguments ts_effects {D}.

Section handlers.
Context {cfg : Config} {D Row : Type} {eng : Engines D Row}.
Abbreviation MM := (M (TupleState D)) (only parsing).
Implicit Types (s : TupleState D) (rel : RelationData) (tid : ItemPointerData).

Definition set_session x s : TupleState D :=
  Build_TupleState x (ts_layouts s) (ts_toast s) (ts_store s) (ts_effects s).
Definition set_toast x s : TupleState D :=
  Build_TupleState (ts_session s) (ts_layouts s) x (ts_store s) (ts_effects s).
Definition set_store x s : TupleState D :=
  Build_TupleState (ts_session s) (ts_layouts s) (ts_toast s) x (ts_effects s).
Definition add_effect e s : TupleState D :=
  Build_TupleState (ts_session s) (ts_layouts s) (ts_toast s) (ts_store s) (ts_effects s ++ [e]).

Definition on_session (f : Session → Session) : MM unit := modify (λ s, set_session (f (ts_session s)) s).
Definition ask {A} (f : Session → A) : MM A := gets (λ s, f (ts_session s)).
Definition on_store {A} (f : D → A * D) : MM A := λ s, let '(a, d) := f (ts_store s) in (Ok a, set_store d s).
Definition effectful (e : effect) : MM unit := modify (add_effect e).

(** GetCurrentTransactionId. *)
Definition GetCurrentTransactionId : MM Z := λ s,
  if TransactionIdIsValid (current_xid (ts_session s)) then (Ok (current_xid (ts_session s)), s)
  else let '(xid, d) := new_xid (ts_store s) in (Ok xid, set_store d (set_session (set_xid xid (ts_session s)) s)).

Definition fastpg_mem_raise_storage_error {A} (fallback_message : string) : MM A := λ s,
  match storage_last_error (ts_store s) with
  | Some (code, msg) => (Error code msg, s)
  | None => (Error ERRCODE_INTERNAL_ERROR fallback_message, s)
  end.

(** ** Toast state of relations

    A process-wide list under a mutex; each function is one critical section. *)

Definition fastpg_mem_relation_can_toast rel : bool :=
  bool_decide (rel_relkind rel = RELKIND_RELATION) || bool_decide (rel_relkind rel = RELKIND_MATVIEW).

Definition fastpg_mem_relation_may_have_external_toast (relid : Z) s : bool :=
  match find_first (λ e, to_relid e =? relid) (ts_toast s) with
  | Some e => to_may_have_external e
  | None => false
  end.

(** [alloc_ok]: whether malloc succeeds for a relation without an entry. *)
Definition fastpg_mem_note_relation_external_toast (alloc_ok : bool) (relid : Z) : MM unit := modify (λ s,
  match update_first (λ e, to_relid e =? relid)
          (λ e, {| to_relid := to_relid e; to_may_have_external := true |}) (ts_toast s) with
  | Some l => set_toast l s
  | None =>
      if alloc_ok then set_toast ({| to_relid := relid; to_may_have_external := true |} :: ts_toast s) s
      else s
  end).

Definition fastpg_mem_clear_relation_external_toast (relid : Z) : MM unit := modify (λ s,
  match update_first (λ e, to_relid e =? relid)
          (λ e, {| to_relid := to_relid e; to_may_have_external := false |}) (ts_toast s) with
  | Some l => set_toast l s
  | None => s
  end).

(** ** Failure data *)

Definition fastpg_mem_fill_deleted_tmfd tid : TM_FailureData :=
  {| tmfd_ctid := tid; tmfd_xmax := InvalidTransactionId; tmfd_cmax := InvalidCommandId; tmfd_traversed := false |}.

Definition fastpg_mem_fill_self_modified_tmfd tid (cmax : Z) : MM TM_FailureData :=
  ask (λ ss, {| tmfd_ctid := tid; tmfd_xmax := current_xid ss; tmfd_cmax := cmax; tmfd_traversed := false |}).

(** ** Resolving and locking a row *)

Definition fastpg_mem_storage2_resolve_update_row_id (relid row_id : Z) : MM Z :=
  if row_id =? 0 then mret 0
  else
    resolved ← on_store (fastpg_storage2_relation_resolve_update_tid relid row_id);
    mret (default row_id resolved).

(** The row that the caller goes on with. *)
Definition fastpg_mem_acquire_storage2_update_row_lock (relid row_id : Z) : MM Z :=
  if row_id =? 0 then mret row_id
  else
    owns ← gets (λ s, fastpg_storage2_relation_current_session_owns_inserted_tid relid row_id (ts_store s));
    if owns : bool then mret row_id
    else
      on_session fastpg_mem_ensure_xact_callbacks;;
      lock_row_id ← ask (fastpg_mem_storage2_lock_root relid row_id);
      on_session (log_call (acquire_row_lock relid lock_row_id));;
      resolved_row_id ← fastpg_mem_storage2_resolve_update_row_id relid row_id;
      mret (if negb (resolved_row_id =? 0) then resolved_row_id else row_id).

Definition row_deleted (relid row_id cid : Z) (storage2 : bool) : MM (option Z) := gets (λ s,
  fastpg_mem_row_deleted_by_current_xact (storage := store_meta (ts_store s)) relid row_id cid storage2 (ts_session s)).
Definition row_deleted_any_cid (relid row_id : Z) : MM (option Z) := gets (λ s,
  fastpg_mem_storage2_row_deleted_by_current_xact_any_cid (storage := store_meta (ts_store s)) relid row_id
    (ts_session s)).

Definition tid_to_row_id rel tid : MM (option Z) := gets (λ s,
  fastpg_mem_tid_to_row_id (fastpg_mem_relation_rows_per_block (rel_density rel) (rel_id rel) (ts_layouts s)) tid).
Definition row_id_to_tid rel (row_id : Z) : MM (option ItemPointerData) := gets (λ s,
  fastpg_mem_row_id_to_tid (fastpg_mem_relation_rows_per_block (rel_density rel) (rel_id rel) (ts_layouts s)) row_id).

(** An early return of a handler, or the row it goes on with. *)
Definition outcome : Type := TM_Result * option TM_FailureData.

Definition self_modified tid (cmax : Z) : MM (outcome + Z) :=
  tmfd ← fastpg_mem_fill_self_modified_tmfd tid cmax; mret (inl (TM_SelfModified, Some tmfd)).

(** The part of [fastpg_mem_tuple_delete] before the check for touched rows. *)
Definition delete_target rel tid (cid : Z) : MM (outcome + Z) :=
  let relid := rel_id rel in
  if fastpg_mem_use_storage2_for_relid relid then
    let row_id := fastpg_mem_tid_to_storage2_tid tid in
    if row_id =? 0 then mret (inl (TM_Deleted, Some (fastpg_mem_fill_deleted_tmfd tid)))
    else if fastpg_catalog_mode_uses_postgres then
      row_id ← fastpg_mem_acquire_storage2_update_row_lock relid row_id;
      deleted ← row_deleted relid row_id cid true;
      match deleted with
      | Some delete_cid => self_modified tid delete_cid
      | None =>
          resolved_row_id ← fastpg_mem_storage2_resolve_update_row_id relid row_id;
          mret (inr (if negb (resolved_row_id =? row_id) then resolved_row_id else row_id))
      end
    else mret (inr row_id)
  else
    row ← tid_to_row_id rel tid;
    match row with
    | None => mret (inl (TM_Deleted, Some (fastpg_mem_fill_deleted_tmfd tid)))
    | Some row_id =>
        if fastpg_catalog_mode_uses_postgres then
          deleted ← row_deleted relid row_id cid false;
          match deleted with
          | Some delete_cid => self_modified tid delete_cid
          | None => row_id ← ask (fastpg_mem_resolve_row_redirect relid row_id); mret (inr row_id)
          end
        else mret (inr row_id)
    end.

(** The TID of a row in the engine that stores the relation. *)
Definition resolved_tid rel (row_id : Z) : MM ItemPointerData :=
  if fastpg_mem_use_storage2_for_relid (rel_id rel) then
    match fastpg_mem_storage2_tid_to_tid row_id with
    | Some tid => mret tid
    | None => ereport ERRCODE_INTERNAL_ERROR "fastpg_mem storage2 TID cannot be represented as a CTID"
    end
  else
    t ← row_id_to_tid rel row_id;
    match t with
    | Some tid => mret tid
    | None => ereport ERRCODE_INTERNAL_ERROR "fastpg_mem row id cannot be represented as a CTID"
    end.

Definition SnapshotAny : SnapshotData := {| snapshot_type := SNAPSHOT_ANY; curcid := 0 |}.

Definition invalidate_catalog_tuple rel : bool :=
  fastpg_catalog_mode_uses_postgres && rel_is_catalog rel && negb (rel_is_toast rel).

(** The old version of the tuple, when its toasted values or the caches have to
    be cleaned up. *)
Definition fetch_old rel (row_id : Z) : MM (option Row) :=
  if fastpg_catalog_mode_uses_postgres && fastpg_mem_relation_can_toast rel &&
     (negb (rel_reltoastrelid rel =? 0) || invalidate_catalog_tuple rel)
  then
    rtid ← resolved_tid rel row_id;
    gets (λ s, fetch_row_version (rel_id rel) rtid (Some SnapshotAny) (ts_store s))
  else mret None.

(** The call that removes the row. *)
Definition engine_delete rel (row_id cid : Z) (snapshot : option SnapshotData) : MM bool :=
  let relid := rel_id rel in
  if fastpg_mem_use_storage2_for_relid relid then on_store (fastpg_storage2_relation_delete relid row_id)
  else if fastpg_catalog_mode_uses_postgres then
    xid ← GetCurrentTransactionId;
    on_store (fastpg_rust_relation_delete_with_metadata relid row_id xid
                (fastpg_mem_delete_cid_for_snapshot cid snapshot))
  else on_store (fastpg_rust_relation_delete relid row_id).

Definition fastpg_mem_tuple_delete rel tid (cid : Z) (snapshot : option SnapshotData) : MM outcome :=
  let relid := rel_id rel in
  target ← delete_target rel tid cid;
  match target with
  | inl early => mret early
  | inr row_id =>
      touched ← ask (fastpg_mem_row_touched relid row_id cid);
      match touched with
      | Some touched_cid =>
          tmfd ← fastpg_mem_fill_self_modified_tmfd tid touched_cid;
          mret (TM_SelfModified, Some tmfd)
      | None =>
          old ← fetch_old rel row_id;
          on_session fastpg_mem_ensure_write_xact;;
          ok ← engine_delete rel row_id cid snapshot;
          if negb ok then mret (TM_Deleted, Some (fastpg_mem_fill_deleted_tmfd tid))
          else
            (if fastpg_mem_use_storage2_for_relid relid && fastpg_catalog_mode_uses_postgres then
               xid ← GetCurrentTransactionId;
               on_store (fastpg_storage2_relation_record_invalidate_metadata relid row_id xid
                           (fastpg_mem_delete_cid_for_snapshot cid snapshot));;
               mret tt
             else mret tt);;
            (if invalidate_catalog_tuple rel && bool_decide (is_Some old)
             then effectful (e_cache_invalidate_heap_tuple relid) else mret tt);;
            (if default false (HeapTupleHasExternal <$> old)
             then effectful (e_heap_toast_delete relid) else mret tt);;
            on_session (fastpg_mem_mark_row_touched relid row_id cid);;
            (if fastpg_catalog_mode_uses_postgres then
               effectful (e_pgstat_count_heap_delete relid);; effectful (e_count_io_write relid)
             else mret tt);;
            on_session (fastpg_mem_note_relation_changed relid);;
            mret (TM_Ok, None)
      end
  end.

(** ** Locking a tuple *)

(** The part of [fastpg_mem_tuple_lock] before the check for touched rows: the
    row, and whether a newer version of the tuple was followed. *)
Definition lock_target rel tid (cid : Z) (allow_current_touched : bool) : MM (outcome + Z * bool) :=
  let relid := rel_id rel in
  let self_modified cmax : MM (outcome + Z * bool) :=
    tmfd ← fastpg_mem_fill_self_modified_tmfd tid cmax; mret (inl (TM_SelfModified, Some tmfd)) in
  if fastpg_mem_use_storage2_for_relid relid then
    let row_id := fastpg_mem_tid_to_storage2_tid tid in
    if row_id =? 0 then mret (inl (TM_Deleted, Some (fastpg_mem_fill_deleted_tmfd tid)))
    else if fastpg_catalog_mode_uses_postgres then
      deleted ← (if allow_current_touched then mret None else row_deleted_any_cid relid row_id);
      match deleted with
      | Some delete_cid => self_modified delete_cid
      | None =>
          resolved_row_id ← fastpg_mem_storage2_resolve_update_row_id relid row_id;
          if negb (resolved_row_id =? row_id) then mret (inr (resolved_row_id, true))
          else
            deleted ← row_deleted_any_cid relid row_id;
            match deleted with
            | Some delete_cid => self_modified delete_cid
            | None => mret (inr (row_id, false))
            end
      end
    else mret (inr (row_id, false))
  else
    row ← tid_to_row_id rel tid;
    match row with
    | None => mret (inl (TM_Deleted, Some (fastpg_mem_fill_deleted_tmfd tid)))
    | Some row_id =>
        if fastpg_catalog_mode_uses_postgres then
          deleted ← row_deleted relid row_id cid false;
          match deleted with
          | Some delete_cid => self_modified delete_cid
          | None => row_id ← ask (fastpg_mem_resolve_row_redirect relid row_id); mret (inr (row_id, false))
          end
        else mret (inr (row_id, false))
    end.

(** The failure data is filled in at the start and [traversed] set on the way;
    the tuple, if one is found, is left in the slot. *)
Definition fastpg_mem_tuple_lock rel tid (snapshot : option SnapshotData) (cid flags : Z)
    : MM (outcome * option Row) :=
  let relid := rel_id rel in
  let allow_current_touched :=
    fastpg_mem_use_storage2_for_relid relid && negb (Z.land flags TUPLE_LOCK_FLAG_FIND_LAST_VERSION =? 0) in
  target ← lock_target rel tid cid allow_current_touched;
  match target with
  | inl early => mret (early, None)
  | inr (row_id, traversed) =>
      touched ← ask (fastpg_mem_row_touched relid row_id cid);
      match touched, allow_current_touched with
      | Some touched_cid, false =>
          tmfd ← fastpg_mem_fill_self_modified_tmfd tid touched_cid;
          mret (TM_SelfModified, Some tmfd, None)
      | _, _ =>
          let traversed := traversed || bool_decide (is_Some touched) in
          rtid ← (if fastpg_catalog_mode_uses_postgres then resolved_tid rel row_id else mret tid);
          row ← gets (λ s, fetch_row_version relid rtid snapshot (ts_store s));
          match row with
          | None => mret (TM_Deleted, Some (fastpg_mem_fill_deleted_tmfd tid), None)
          | Some r =>
              mret (TM_Ok, Some {| tmfd_ctid := tid; tmfd_xmax := InvalidTransactionId;
                                   tmfd_cmax := InvalidCommandId; tmfd_traversed := traversed |}, Some r)
          end
      end
  end.

(** ** Speculative inserts *)

(** [slot_tid] is the TID left in the slot by the insert; the result is the TID
    in the slot afterwards, [None] if it was invalidated. *)
Definition fastpg_mem_tuple_complete_speculative rel (slot_tid : ItemPointerData) (specToken : Z)
    (succeeded : bool) : MM (option ItemPointerData) :=
  let relid := rel_id rel in
  let take : MM (option FastPgMemSpeculativeInsert) := λ s,
    let '(e, ss) := fastpg_mem_take_speculative_insert relid specToken (ts_session s) in
    (Ok e, set_session ss s) in
  if negb succeeded then
    if fastpg_mem_use_storage2_for_relid relid then
      entry ← take;
      let row_id := match entry with Some e => si_row_id e | None => fastpg_mem_tid_to_storage2_tid slot_tid end in
      if row_id =? 0 then mret (Some slot_tid)
      else
        modify (λ s, set_store (fastpg_mem_forget_single_byval_index_row relid row_id (ts_store s)) s);;
        on_store (fastpg_storage2_relation_delete_record_primary_key relid row_id 0);;
        on_session (fastpg_mem_note_relation_changed relid);;
        mret None
    else
      row ← tid_to_row_id rel slot_tid;
      match row with
      | None => mret (Some slot_tid)
      | Some row_id =>
          on_store (fastpg_rust_relation_delete relid row_id);;
          on_session (fastpg_mem_note_relation_changed relid);;
          mret None
      end
  else if fastpg_mem_use_storage2_for_relid relid then
    entry ← take;
    let row_id := match entry with Some e => si_row_id e | None => fastpg_mem_tid_to_storage2_tid slot_tid end in
    if row_id =? 0 then mret (Some slot_tid)
    else
      match entry ≫= si_primary_key with
      | Some (index_relid, keys) =>
          ok ← on_store (fastpg_storage2_primary_key_index_insert_with_spec index_relid relid keys row_id);
          if negb ok
          then fastpg_mem_raise_storage_error "fastpg_mem failed to record completed speculative primary key"
          else mret (Some slot_tid)
      | None =>
          on_store (fastpg_storage2_relation_record_primary_key relid row_id);;
          mret (Some slot_tid)
      end
  else mret (Some slot_tid).

(** ** Clearing a relation *)

Definition FastPgMemRelationDropStorage rel : MM unit :=
  let relid := rel_id rel in
  (if fastpg_mem_use_storage2_for_relid relid then
     on_session fastpg_mem_ensure_write_xact;;
     modify (λ s, set_store (fastpg_storage2_relation_clear relid (ts_store s)) s)
   else if fastpg_catalog_mode_uses_postgres && bool_decide (rel_relkind rel = RELKIND_RELATION)
   then modify (λ s, set_store (fastpg_rust_relation_clear_transactional relid (ts_store s)) s)
   else modify (λ s, set_store (fastpg_rust_relation_clear relid (ts_store s)) s));;
  fastpg_mem_clear_relation_external_toast relid;;
  on_session (fastpg_mem_note_relation_changed relid).

Definition fastpg_mem_relation_nontransactional_truncate rel : MM unit :=
  let relid := rel_id rel in
  (if fastpg_mem_use_storage2_for_relid relid
   then modify (λ s, set_store (fastpg_storage2_relation_clear relid (ts_store s)) s)
   else modify (λ s, set_store (fastpg_rust_relation_clear relid (ts_store s)) s));;
  fastpg_mem_clear_relation_external_toast relid;;
  on_session (fastpg_mem_note_relation_changed relid).
End handlers.
End TupleOps.
