(* ===== verification/TupleOpsProofs.v ===== *)
(** * TupleOpsProofs: correctness of the tuple handlers *)

From Stdlib Require Import ZArith Lia Bool Ascii.
From stdpp Require Import base tactics numbers list gmap strings.
From S2P Require Import Prelude RowIds RowState RowStateProofs TupleOps.
Import RowIds RowState RowStateProofs TupleOps.

Local Open Scope Z_scope.
Local Open Scope pg_scope.

Module TupleOpsProofs.

Section proofs.
Context {cfg : Config} {D Row : Type} {eng : Engines D Row}.
Implicit Types (s : TupleState D) (rel : RelationData) (tid : ItemPointerData) (ss : Session).

(** ** A row that was marked counts as touched *)

Lemma row_touched_view relid row_id cid ss v c :
  fastpg_mem_relation_visibility_state relid ss = Some v → vs_touched_xid v = current_xid ss →
  touched_view ss (touched_key relid row_id (current_xid ss)) = Some c →
  cid <= vs_max_touched_cid v → cid <= c →
  fastpg_mem_row_touched relid row_id cid ss = Some c.
Proof.
  intros Hv Hx Hc Hmax Hle. unfold fastpg_mem_row_touched. rewrite Hv, Hx, Z.eqb_refl. simpl.
  destruct (Z.ltb_spec (vs_max_touched_cid v) cid); [lia|]. unfold touched_view in Hc.
  destruct (find_first _ _) as [e|]; [injection Hc as <-; destruct (Z.ltb_spec e.2 cid); [lia|done]|].
  destruct (touched_hash ss) as [h|]; [|done]. simpl in Hc. rewrite Hc. destruct (Z.ltb_spec c cid); [lia|done].
Qed.

(** What [fastpg_mem_note_relation_changed] leaves alone. *)
Lemma note_changed_fields relid ss :
  let ss' := fastpg_mem_note_relation_changed relid ss in
  current_xid ss' = current_xid ss ∧ touched_inline ss' = touched_inline ss ∧
  touched_hash ss' = touched_hash ss ∧ row_redirects ss' = row_redirects ss.
Proof.
  assert (∀ r f x, current_xid (visibility_update r f x) = current_xid x ∧
    touched_inline (visibility_update r f x) = touched_inline x ∧
    touched_hash (visibility_update r f x) = touched_hash x ∧
    row_redirects (visibility_update r f x) = row_redirects x) as Hu.
  { intros r f x. unfold visibility_update. by destruct (update_first _ _ _). }
  unfold fastpg_mem_note_relation_changed, fastpg_mem_set_relation_all_visible.
  destruct (negb fastpg_catalog_mode_uses_postgres); simpl.
  - destruct (fastpg_mem_relation_visibility_state relid ss); [|done]. apply Hu.
  - destruct (fastpg_mem_relation_visibility_state relid _); [|apply Hu].
    destruct (Hu relid (with_known_empty false) (visibility_update relid (with_all_visible false) ss))
      as (-> & -> & -> & ->). apply Hu.
Qed.

Lemma note_changed_visibility relid ss v :
  fastpg_mem_relation_visibility_state relid ss = Some v →
  ∃ v', fastpg_mem_relation_visibility_state relid (fastpg_mem_note_relation_changed relid ss) = Some v' ∧
    vs_touched_xid v' = vs_touched_xid v ∧ vs_max_touched_cid v' = vs_max_touched_cid v.
Proof.
  intros Hv. unfold fastpg_mem_note_relation_changed, fastpg_mem_set_relation_all_visible.
  destruct (negb fastpg_catalog_mode_uses_postgres); simpl.
  - rewrite Hv, visibility_lookup_update by done. rewrite decide_True, Hv by done. eauto.
  - rewrite visibility_lookup_update by done. rewrite decide_True by done. simpl.
    rewrite visibility_lookup_update by done. rewrite decide_True by done.
    rewrite visibility_lookup_update by done. rewrite decide_True, Hv by done. eauto.
Qed.

Lemma mark_then_touched relid row_id cid ss :
  touched_ok ss → row_id ≠ 0 →
  ∃ c, fastpg_mem_row_touched relid row_id cid
         (fastpg_mem_note_relation_changed relid (fastpg_mem_mark_row_touched relid row_id cid ss)) = Some c ∧
       cid <= c.
Proof.
  intros Hok Hrow. unfold fastpg_mem_mark_row_touched. destruct (Z.eqb_spec row_id 0); [done|].
  destruct (touched_hash_insert_view relid row_id cid (current_xid ss) ss Hok) as [_ Hview].
  destruct (touched_hash_insert_fields relid row_id cid (current_xid ss) ss) as [_ Exid].
  set (s1 := fastpg_mem_touched_hash_insert relid row_id cid (current_xid ss) ss) in *.
  set (s2 := visibility_update relid (touch_visibility (current_xid ss) cid) s1).
  destruct (visibility_update_fields relid (touch_visibility (current_xid ss) cid) s1) as (Ei & Eh & Ex).
  fold s2 in Ei, Eh, Ex. destruct (note_changed_fields relid s2) as (Nx & Ni & Nh & _).
  assert (fastpg_mem_relation_visibility_state relid s2 = Some (touch_visibility (current_xid ss) cid
    (default (new_visibility relid) (fastpg_mem_relation_visibility_state relid s1)))) as Hv2.
  { unfold s2. rewrite visibility_lookup_update by (intros; apply touch_visibility_spec). by rewrite decide_True. }
  destruct (note_changed_visibility relid s2 _ Hv2) as (v & Hv & Hvx & Hvm).
  destruct (touch_visibility_spec (current_xid ss) cid
    (default (new_visibility relid) (fastpg_mem_relation_visibility_state relid s1))) as (_ & Htx & Htm & _).
  eexists. split.
  - eapply row_touched_view; [exact Hv| | | |].
    + rewrite Hvx, Nx, Ex, Exid. exact Htx.
    + unfold touched_view. rewrite Nx, Ni, Nh, Ex, Ei, Eh, Exid.
      fold (touched_view s1 (touched_key relid row_id (current_xid ss))). rewrite Hview, decide_True by done. reflexivity.
    + by rewrite Hvm.
    + lia.
  - lia.
Qed.

Lemma ask_run {A} (f : Session → A) s : ask f s = (Ok (f (ts_session s)), s).
Proof. done. Qed.

(** ** Finding the row, with the first engine *)

(** The row before redirects, and after. *)
Definition plain_row rel tid s : option Z :=
  fastpg_mem_tid_to_row_id (fastpg_mem_relation_rows_per_block (rel_density rel) (rel_id rel) (ts_layouts s)) tid.
Definition redirected_row rel (row_id : Z) s : Z :=
  if fastpg_catalog_mode_uses_postgres then fastpg_mem_resolve_row_redirect (rel_id rel) row_id (ts_session s)
  else row_id.
Definition deleted_here rel (row_id cid : Z) s : option Z :=
  fastpg_mem_row_deleted_by_current_xact (storage := store_meta (ts_store s)) (rel_id rel) row_id cid false
    (ts_session s).
Definition self_modified_data tid (cmax : Z) s : TM_FailureData :=
  {| tmfd_ctid := tid; tmfd_xmax := current_xid (ts_session s); tmfd_cmax := cmax; tmfd_traversed := false |}.

(** [inl] is an early return. *)
Definition target1 rel tid (cid : Z) s : outcome + Z :=
  match plain_row rel tid s with
  | None => inl (TM_Deleted, Some (fastpg_mem_fill_deleted_tmfd tid))
  | Some row_id =>
      match (if fastpg_catalog_mode_uses_postgres then deleted_here rel row_id cid s else None) with
      | Some delete_cid => inl (TM_SelfModified, Some (self_modified_data tid delete_cid s))
      | None => inr (redirected_row rel row_id s)
      end
  end.

Lemma delete_target_storage1 rel tid cid s :
  fastpg_mem_use_storage2_for_relid (rel_id rel) = false →
  delete_target rel tid cid s = (Ok (target1 rel tid cid s), s).
Proof.
  intros Hs. unfold delete_target, target1, redirected_row. rewrite Hs. unfold tid_to_row_id, mbind, M_bind, gets.
  fold (plain_row rel tid s). destruct (plain_row rel tid s) as [row|]; [|done].
  destruct fastpg_catalog_mode_uses_postgres; [|done].
  unfold row_deleted, gets. fold (deleted_here rel row cid s). by destruct (deleted_here rel row cid s).
Qed.

Lemma lock_target_storage1 rel tid cid s allow :
  fastpg_mem_use_storage2_for_relid (rel_id rel) = false →
  lock_target rel tid cid allow s = (Ok (match target1 rel tid cid s with
    | inl o => inl o | inr row_id => inr (row_id, false) end), s).
Proof.
  intros Hs. unfold lock_target, target1, redirected_row. rewrite Hs. unfold tid_to_row_id, mbind, M_bind, gets.
  fold (plain_row rel tid s). destruct (plain_row rel tid s) as [row|]; [|done].
  destruct fastpg_catalog_mode_uses_postgres; [|done].
  unfold row_deleted, gets. fold (deleted_here rel row cid s). by destruct (deleted_here rel row cid s).
Qed.

(** Deleting and locking agree.  With the first engine the two handlers
    find the same row for a TID and report the same tuple as deleted, or as
    modified by the same command, with the same failure data. *)
Theorem lock_agrees_with_delete rel tid cid snapshot flags s r1 s1 r2 s2 :
  fastpg_mem_use_storage2_for_relid (rel_id rel) = false →
  fastpg_mem_tuple_delete rel tid cid snapshot s = (Ok r1, s1) →
  fastpg_mem_tuple_lock rel tid snapshot cid flags s = (Ok r2, s2) →
  s2 = s ∧ (r1.1 = TM_SelfModified ↔ r2.1.1 = TM_SelfModified) ∧ (r1.1 = TM_SelfModified → r2.1 = r1).
Proof.
  intros Hs H1 H2. unfold fastpg_mem_tuple_delete in H1. unfold fastpg_mem_tuple_lock in H2. rewrite Hs in H2. simpl in H2.
  rewrite (M_bind_run _ _ _ _ _ (delete_target_storage1 rel tid cid s Hs)) in H1.
  rewrite (M_bind_run _ _ _ _ _ (lock_target_storage1 rel tid cid s false Hs)) in H2.
  destruct (target1 rel tid cid s) as [early|row]; [injection H1 as <- <-; injection H2 as <- <-; by split_and!|].
  rewrite (M_bind_run _ _ _ _ _ (ask_run (fastpg_mem_row_touched (rel_id rel) row cid) s)) in H1.
  rewrite (M_bind_run _ _ _ _ _ (ask_run (fastpg_mem_row_touched (rel_id rel) row cid) s)) in H2.
  set (touched := fastpg_mem_row_touched (rel_id rel) row cid (ts_session s)) in *.
  destruct touched as [c|]; [injection H1 as <- <-; injection H2 as <- <-; by split_and!|].
  assert (r1.1 ≠ TM_SelfModified) as N1.
  { minv H1 as old s3 Ho. minv H1 as u s4 Hw. minv H1 as ok s5 Hd. destruct ok; simpl in H1; [|by injection H1 as <- <-].
    rewrite Hs in H1. simpl in H1. minv H1 as u1 s6 E1. minv H1 as u2 s7 E2. minv H1 as u3 s8 E3.
    minv H1 as u4 s9 E4. minv H1 as u5 s10 E5. minv H1 as u6 s11 E6. by injection H1 as <- <-. }
  assert (s2 = s ∧ r2.1.1 ≠ TM_SelfModified) as [-> N2].
  { minv H2 as rtid s3 Hr. assert (s3 = s) as ->.
    { destruct fastpg_catalog_mode_uses_postgres; [|by injection Hr as <- <-]. unfold resolved_tid in Hr. rewrite Hs in Hr.
      unfold row_id_to_tid in Hr. minv Hr as o s4 Hg. injection Hg as <- <-. destruct (fastpg_mem_row_id_to_tid _ _);
      [by injection Hr as <- <-|done]. }
    minv H2 as o s4 Hg. injection Hg as <- <-. destruct (fetch_row_version _ _ _ _);
      by injection H2 as <- <-. }
  split_and!; [done|tauto|tauto].
Qed.

(** ** Deleting twice *)

(** The session fields a delete reads are the same. *)
Definition same_rows ss ss' : Prop :=
  current_xid ss' = current_xid ss ∧ touched_inline ss' = touched_inline ss ∧
  touched_hash ss' = touched_hash ss ∧ row_redirects ss' = row_redirects ss.

Lemma ensure_write_xact_same ss : same_rows ss (fastpg_mem_ensure_write_xact ss).
Proof.
  assert (∀ b c x, same_rows x (when b (log_call c) x)) as Hw by (by intros []).
  unfold fastpg_mem_ensure_write_xact. unfold same_rows in *.
  destruct (Hw fastpg_mem_storage2_enabled storage2_xact_begin_implicit
    (when fastpg_mem_storage1_xact_needed (log_call rust_xact_begin_implicit) (fastpg_mem_ensure_xact_callbacks ss)))
    as (-> & -> & -> & ->).
  destruct (Hw fastpg_mem_storage1_xact_needed rust_xact_begin_implicit (fastpg_mem_ensure_xact_callbacks ss))
    as (-> & -> & -> & ->).
  unfold fastpg_mem_ensure_xact_callbacks. by destruct (negb _).
Qed.

(** A call that leaves the session and the layouts alone. *)
Definition frames {A} (m : M (TupleState D) A) : Prop :=
  ∀ s a s', m s = (Ok a, s') → ts_session s' = ts_session s ∧ ts_layouts s' = ts_layouts s.

Lemma frames_bind {A B} (m : M (TupleState D) A) (k : A → M (TupleState D) B) :
  frames m → (∀ a, frames (k a)) → frames (m ≫= k).
Proof.
  intros Hm Hk s b s' H. minv H as a s1 H1. destruct (Hm _ _ _ H1) as [E1 E2].
  destruct (Hk a _ _ _ H) as [-> ->]. done.
Qed.
Lemma frames_ret {A} (a : A) : frames (mret a).
Proof. intros s a' s' H. by injection H as <- <-. Qed.
Lemma frames_gets {A} (f : TupleState D → A) : frames (gets f).
Proof. intros s a s' H. by injection H as <- <-. Qed.
Lemma frames_on_store {A} (f : D → A * D) : frames (on_store f).
Proof. intros s a s' H. unfold on_store in H. destruct (f (ts_store s)). by injection H as <- <-. Qed.
Lemma frames_effectful e : frames (effectful e).
Proof. intros s a s' H. by injection H as <- <-. Qed.
Lemma frames_ereport {A} c msg : frames (A := A) (ereport c msg).
Proof. by intros s a s' H. Qed.

Lemma frames_run {A} (m : M (TupleState D) A) s a s' :
  m s = (Ok a, s') → frames m → ts_session s' = ts_session s ∧ ts_layouts s' = ts_layouts s.
Proof. intros H Hm. exact (Hm s a s' H). Qed.

Create HintDb frames.
#[local] Hint Resolve frames_bind frames_ret frames_gets frames_on_store frames_effectful frames_ereport : frames.
#[local] Hint Extern 1 (frames (match ?x with _ => _ end)) => destruct x : frames.

Lemma fetch_old_frames rel row_id : frames (fetch_old rel row_id).
Proof. unfold fetch_old, resolved_tid, row_id_to_tid. auto 10 with frames. Qed.

Lemma engine_delete_frames rel row_id cid snapshot s ok s' :
  fastpg_mem_use_storage2_for_relid (rel_id rel) = false →
  TransactionIdIsValid (current_xid (ts_session s)) = true →
  engine_delete rel row_id cid snapshot s = (Ok ok, s') →
  ts_session s' = ts_session s ∧ ts_layouts s' = ts_layouts s.
Proof.
  intros Hs Hx. unfold engine_delete. rewrite Hs. destruct fastpg_catalog_mode_uses_postgres; [|apply frames_on_store].
  assert (GetCurrentTransactionId s = (Ok (current_xid (ts_session s)), s)) as E
    by (unfold GetCurrentTransactionId; by rewrite Hx).
  rewrite (M_bind_run _ _ _ _ _ E). apply frames_on_store.
Qed.

(** The state a successful delete leaves. *)
Lemma delete_ok_state rel tid cid snapshot s o s1 :
  fastpg_mem_use_storage2_for_relid (rel_id rel) = false →
  TransactionIdIsValid (current_xid (ts_session s)) = true →
  fastpg_mem_tuple_delete rel tid cid snapshot s = (Ok (TM_Ok, o), s1) →
  ∃ row ss, target1 rel tid cid s = inr row ∧ same_rows (ts_session s) ss ∧
    ts_session s1 = fastpg_mem_note_relation_changed (rel_id rel) (fastpg_mem_mark_row_touched (rel_id rel) row cid ss) ∧
    ts_layouts s1 = ts_layouts s.
Proof.
  intros Hs Hx H. unfold fastpg_mem_tuple_delete in H.
  rewrite (M_bind_run _ _ _ _ _ (delete_target_storage1 rel tid cid s Hs)) in H.
  destruct (target1 rel tid cid s) as [early|row] eqn:Ht.
  { exfalso. injection H as -> <-. unfold target1 in Ht. destruct (plain_row rel tid s); [|done].
    by destruct (if fastpg_catalog_mode_uses_postgres then _ else _). }
  rewrite (M_bind_run _ _ _ _ _ (ask_run (fastpg_mem_row_touched (rel_id rel) row cid) s)) in H.
  destruct (fastpg_mem_row_touched _ _ _ _) as [c|]; [by injection H|].
  minv H as old s2 Ho. apply fetch_old_frames in Ho as [Eo Lo].
  minv H as u s3 Hw. injection Hw as <- <-.
  pose proof (ensure_write_xact_same (ts_session s2)) as Hsame.
  minv H as ok s4 Hd. apply engine_delete_frames in Hd as [Ed Ld]; [|done|].
  2:{ simpl. destruct Hsame as (-> & _). by rewrite Eo. }
  simpl in Ed, Ld. destruct ok; simpl in H; [|by injection H]. rewrite Hs in H. simpl in H.
  minv H as u1 s5 E1. injection E1 as <- <-.
  minv H as u2 s6 E2. apply frames_run in E2 as [E6 L6]; [|auto with frames].
  minv H as u3 s7 E3. apply frames_run in E3 as [E7 L7]; [|auto with frames].
  minv H as u4 s8 E4. injection E4 as <- <-.
  minv H as u5 s9 E5. apply frames_run in E5 as [E9 L9]; [|auto with frames].
  minv H as u6 s10 E10. injection E10 as <- <-. injection H as <- <-. simpl in *.
  exists row, (ts_session s7). rewrite E9. split_and!; try done; [|congruence].
  rewrite E7, E6, Ed. by rewrite <- Eo.
Qed.

Definition redirects_ok ss : Prop := ∀ e, e ∈ row_redirects ss → rr_new_row_id e ≠ 0.

Lemma resolve_nonzero relid row_id ss :
  redirects_ok ss → row_id ≠ 0 → fastpg_mem_resolve_row_redirect relid row_id ss ≠ 0.
Proof.
  intros Hr. unfold fastpg_mem_resolve_row_redirect. generalize 32%nat. intros d. revert row_id.
  induction d as [|d IH]; intros row_id Hne; [done|]. simpl. unfold redirect_next at 1.
  destruct (find_first _ (row_redirects ss)) as [e|] eqn:E; simpl; [|done].
  apply IH, Hr. by apply find_first_Some in E as [_ ?].
Qed.

Lemma target1_nonzero rel tid cid s row :
  layouts_ok (ts_layouts s) → tid_wf tid → redirects_ok (ts_session s) →
  target1 rel tid cid s = inr row → row ≠ 0.
Proof.
  intros Hl Ht Hr. unfold target1. destruct (plain_row rel tid s) as [row0|] eqn:E; [|done].
  assert (row0 ≠ 0) as Hne.
  { apply tid_to_row_id_ok in E as [_ E]; [|by apply relation_rows_per_block_range|done]. by intros ->. }
  destruct (if fastpg_catalog_mode_uses_postgres then _ else _); [done|]. intros [= <-]. unfold redirected_row.
  destruct fastpg_catalog_mode_uses_postgres; [by apply resolve_nonzero|done].
Qed.

(** The first check of a delete, on a state that agrees on what it reads. *)
Lemma target1_again rel tid cid s s1 row :
  current_xid (ts_session s1) = current_xid (ts_session s) →
  row_redirects (ts_session s1) = row_redirects (ts_session s) → ts_layouts s1 = ts_layouts s →
  target1 rel tid cid s = inr row →
  target1 rel tid cid s1 = inr row ∨
  ∃ tmfd, target1 rel tid cid s1 = inl (TM_SelfModified, Some tmfd) ∧ cid <= tmfd_cmax tmfd.
Proof.
  intros Ex Er El. unfold target1, plain_row. rewrite El.
  destruct (fastpg_mem_tid_to_row_id _ tid) as [row0|]; [|done].
  destruct (if fastpg_catalog_mode_uses_postgres then deleted_here rel row0 cid s else None); [done|]. intros [= <-].
  destruct (if fastpg_catalog_mode_uses_postgres then deleted_here rel row0 cid s1 else None) as [c|] eqn:E.
  - right. eexists. split; [done|]. simpl. destruct fastpg_catalog_mode_uses_postgres eqn:Hpg; [|done].
    unfold deleted_here, fastpg_mem_row_deleted_by_current_xact in E. rewrite Hpg in E. simpl in E.
    destruct (fastpg_mem_relation_touched_by_current_xact_since _ _ _); [simpl in E|done].
    destruct (_ || _); [done|]. revert E. case Z.ltb_spec; [done|]. intros Hle E.
    by injection E as <-.
  - left. f_equal. unfold redirected_row, fastpg_mem_resolve_row_redirect. by rewrite Ex, Er.
Qed.

(** A tuple is deleted once per command.  With the first engine, a delete
    that succeeded makes a second delete of the same TID in the same command
    report TM_SelfModified, with a cmax of that command or a later one, and
    change nothing at all. *)
Theorem delete_twice_self_modified rel tid cid snapshot s o s1 :
  fastpg_mem_use_storage2_for_relid (rel_id rel) = false →
  TransactionIdIsValid (current_xid (ts_session s)) = true →
  touched_ok (ts_session s) → redirects_ok (ts_session s) → layouts_ok (ts_layouts s) → tid_wf tid →
  fastpg_mem_tuple_delete rel tid cid snapshot s = (Ok (TM_Ok, o), s1) →
  ∃ tmfd, fastpg_mem_tuple_delete rel tid cid snapshot s1 = (Ok (TM_SelfModified, Some tmfd), s1) ∧
    cid <= tmfd_cmax tmfd.
Proof.
  intros Hs Hx Hok Hr Hl Ht H.
  destruct (delete_ok_state rel tid cid snapshot s o s1 Hs Hx H) as (row & ss & Htg & (Sx & Si & Sh & Sr) & E1 & L1).
  pose proof (target1_nonzero rel tid cid s row Hl Ht Hr Htg) as Hne.
  assert (touched_ok ss) as Hok' by (unfold touched_ok; by rewrite Si, Sh).
  destruct (mark_then_touched (rel_id rel) row cid ss Hok' Hne) as (c & Hc & Hle).
  destruct (note_changed_fields (rel_id rel) (fastpg_mem_mark_row_touched (rel_id rel) row cid ss)) as (Nx & _ & _ & Nr).
  assert (current_xid (fastpg_mem_mark_row_touched (rel_id rel) row cid ss) = current_xid ss ∧
    row_redirects (fastpg_mem_mark_row_touched (rel_id rel) row cid ss) = row_redirects ss) as [Mx Mr].
  { unfold fastpg_mem_mark_row_touched, visibility_update, fastpg_mem_touched_hash_insert.
    destruct (Z.eqb_spec row 0); [done|]. repeat case_match; done. }
  unfold fastpg_mem_tuple_delete.
  rewrite (M_bind_run _ _ _ _ _ (delete_target_storage1 rel tid cid s1 Hs)).
  destruct (target1_again rel tid cid s s1 row) as [->|(tmfd & -> & Hc')]; try done; [congruence|congruence| |by eexists].
  rewrite (M_bind_run _ _ _ _ _ (ask_run (fastpg_mem_row_touched (rel_id rel) row cid) s1)).
  rewrite E1, Hc. eexists. split; [reflexivity|]. done.
Qed.

(** ** Toast flags and rollback *)

(** A rolled back truncation hides toasted values.  Clearing a relation's
    storage clears the mark that says its rows may have out-of-line values; the
    abort that brings the rows back does not restore the mark. *)
Theorem aborted_drop_loses_toast_mark rel s :
  let s1 := (fastpg_mem_note_relation_external_toast true (rel_id rel) s).2 in
  let s2 := (FastPgMemRelationDropStorage rel s1).2 in
  let s3 := set_session (fastpg_mem_xact_callback XACT_EVENT_ABORT (ts_session s2)) s2 in
  fastpg_mem_relation_may_have_external_toast (rel_id rel) s1 = true ∧
  fastpg_mem_relation_may_have_external_toast (rel_id rel) s3 = false.
Proof.
  assert (∀ s0, ts_toast (FastPgMemRelationDropStorage rel s0).2 =
    ts_toast (fastpg_mem_clear_relation_external_toast (rel_id rel) s0).2) as Hdrop.
  { intros s0. unfold FastPgMemRelationDropStorage, mbind, M_bind, on_session, modify.
    destruct (fastpg_mem_use_storage2_for_relid _); [|destruct (_ && _)];
      unfold fastpg_mem_clear_relation_external_toast, modify; simpl; by destruct (update_first _ _ _). }
  assert (∀ s0 b l, update_first (λ e, to_relid e =? rel_id rel)
      (λ e, {| to_relid := to_relid e; to_may_have_external := b |}) (ts_toast s0) = Some l →
    fastpg_mem_relation_may_have_external_toast (rel_id rel) (set_toast l s0) = b) as Hset.
  { intros s0 b l Hu. pose proof (update_first_spec (λ e, to_relid e =? rel_id rel)
      (λ e, {| to_relid := to_relid e; to_may_have_external := b |}) (ts_toast s0)) as Hs.
    rewrite Hu in Hs. destruct Hs as [(e & _ & He) _]; [done|].
    unfold fastpg_mem_relation_may_have_external_toast. simpl. by rewrite He. }
  intros s1 s2 s3.
  assert (fastpg_mem_relation_may_have_external_toast (rel_id rel) s1 = true) as H1.
  { unfold s1, fastpg_mem_note_relation_external_toast, modify. simpl.
    destruct (update_first _ _ (ts_toast s)) as [l|] eqn:Hu; [by apply Hset|].
    unfold fastpg_mem_relation_may_have_external_toast. simpl. by rewrite Z.eqb_refl. }
  split; [done|]. unfold s3, fastpg_mem_relation_may_have_external_toast. simpl. unfold s2. rewrite Hdrop.
  fold (fastpg_mem_relation_may_have_external_toast (rel_id rel) (fastpg_mem_clear_relation_external_toast (rel_id rel) s1).2).
  unfold fastpg_mem_clear_relation_external_toast, modify. simpl.
  destruct (update_first _ _ (ts_toast s1)) as [l|] eqn:Hu; [by apply Hset|]. exfalso.
  pose proof (update_first_spec (λ e, to_relid e =? rel_id rel)
    (λ e, {| to_relid := to_relid e; to_may_have_external := false |}) (ts_toast s1)) as Hn.
  rewrite Hu in Hn. unfold fastpg_mem_relation_may_have_external_toast in H1. rewrite Hn in H1; done.
Qed.
End proofs.

(** ** A concrete engine

    Rows of relation 16384 are numbered from 1; the store is the list of rows
    that were deleted, each with the transaction and the command of the delete. *)
Section concrete_engine.

#[local] Instance ce_config : Config := {|
  fastpg_catalog_mode_uses_postgres := true;
  storage_engine := Some "storage1";
  fastpg_rust_catalog_policy_by_relation_oid := λ _, 0;
|}.

Definition ce_store : Type := list (Z * (Z * Z)).
Definition ce_deleted (d : ce_store) (row_id : Z) : option (Z * Z) := snd <$> find_first (λ e, e.1 =? row_id) d.
Definition ce_delete (row_id xid cid : Z) (d : ce_store) : bool * ce_store :=
  match ce_deleted d row_id with Some _ => (false, d) | None => (true, (row_id, (xid, cid)) :: d) end.

#[local] Instance ce_engines : Engines ce_store Z := {|
  store_meta := λ d, {|
    fastpg_rust_relation_row_xmin := λ _ _, 3;
    fastpg_rust_relation_row_cmin := λ _ _, 0;
    fastpg_rust_relation_row_delete_xid := λ _ row_id, default 0 (fst <$> ce_deleted d row_id);
    fastpg_rust_relation_row_delete_cid := λ _ row_id, default 0 (snd <$> ce_deleted d row_id);
    fastpg_storage2_relation_row_delete_xid := λ _ _, 0;
    fastpg_storage2_relation_row_delete_cid := λ _ _, 0;
    TransactionIdIsCurrentTransactionId := λ xid, xid =? 10;
  |};
  fastpg_storage2_relation_delete := λ _ _ d, (false, d);
  fastpg_storage2_relation_delete_record_primary_key := λ _ _ _ d, (false, d);
  fastpg_storage2_relation_record_invalidate_metadata := λ _ _ _ _ d, (false, d);
  fastpg_storage2_relation_resolve_update_tid := λ _ _ d, (None, d);
  fastpg_storage2_relation_current_session_owns_inserted_tid := λ _ _ _, false;
  fastpg_storage2_relation_record_primary_key := λ _ _ d, (false, d);
  fastpg_storage2_primary_key_index_insert_with_spec := λ _ _ _ _ d, (false, d);
  fastpg_storage2_relation_clear := λ _ d, d;
  fastpg_rust_relation_delete := λ _ row_id, ce_delete row_id 0 0;
  fastpg_rust_relation_delete_with_metadata := λ _ row_id xid cid, ce_delete row_id xid cid;
  fastpg_rust_relation_clear := λ _ _, [];
  fastpg_rust_relation_clear_transactional := λ _ _, [];
  fastpg_mem_forget_single_byval_index_row := λ _ _ d, d;
  storage_last_error := λ _, None;
  fetch_row_version := λ _ tid _ d, Some (ip_posid tid);
  HeapTupleHasExternal := λ _, false;
  new_xid := λ d, (10, d);
|}.

Definition ce_rel : RelationData :=
  {| rel_id := 16384; rel_is_catalog := false; rel_is_toast := false; rel_relkind := RELKIND_RELATION;
     rel_reltoastrelid := 0; rel_density := 100 |}.
Definition ce_session : Session :=
  {| current_xid := 10; touched_inline := []; touched_hash := None; row_redirects := [];
     speculative_inserts := []; storage2_lock_roots := []; visibility_states := [];
     last_index_key_valid := false; xact_callbacks_registered := true; calls := [] |}.
Definition ce_state : TupleState ce_store := Build_TupleState ce_session [] [] [] [].
Definition ce_tid : ItemPointerData := {| ip_blkid := 0; ip_posid := 2 |}.

(** The state after the first delete of [ce_tid] in command 4. *)
Definition ce_once : TupleState ce_store := (fastpg_mem_tuple_delete ce_rel ce_tid 4 None ce_state).2.

Lemma delete_twice_self_modified_witness :
  (fastpg_mem_tuple_delete ce_rel ce_tid 4 None ce_state).1 = Ok (TM_Ok, None) ∧
  ∃ tmfd, fastpg_mem_tuple_delete ce_rel ce_tid 4 None ce_once = (Ok (TM_SelfModified, Some tmfd), ce_once) ∧
    4 <= tmfd_cmax tmfd.
Proof.
  split; [by vm_compute|].
  apply (delete_twice_self_modified ce_rel ce_tid 4 None ce_state None ce_once); try by vm_compute.
  - split; [apply Nat.leb_le; by vm_compute|done].
  - intros e He. by apply not_elem_of_nil in He.
Defined.

Lemma lock_agrees_with_delete_witness :
  ∃ r1 s1 r2 s2,
    fastpg_mem_tuple_delete ce_rel ce_tid 4 None ce_once = (Ok r1, s1) ∧
    fastpg_mem_tuple_lock ce_rel ce_tid None 4 0 ce_once = (Ok r2, s2) ∧ r1.1 = TM_SelfModified ∧
    s2 = ce_once ∧ (r1.1 = TM_SelfModified ↔ r2.1.1 = TM_SelfModified) ∧ (r1.1 = TM_SelfModified → r2.1 = r1).
Proof.
  do 4 eexists. split; [by vm_compute|]. split; [by vm_compute|]. split; [done|].
  eapply (lock_agrees_with_delete ce_rel ce_tid 4 None 0 ce_once); by vm_compute.
Defined.
End concrete_engine.
End TupleOpsProofs.
