(* ===== verification/FileSys.v ===== *)
(** * Files and what the calls on them do

    The calls of fd.c and of the operating system that
    src/src/backend/storage/smgr/md.c makes, as it documents and uses them: a
    directory of names, files that outlive their names while they are open, and
    reads and writes at offsets.  How each call turns out (complete, cut short
    or failed) is decided by a schedule of outcomes, so that the theorems speak
    of every way the operating system may behave.

    The contents of named files and the files that are open, and lemmas that
    say of each call what it returns and changes when its outcome
    is not a failure. *)

From Stdlib Require Import ZArith Lia Bool Strings.Byte.
From stdpp Require Import base tactics numbers list gmap strings.
From S2P Require Import Prelude.

Local Open Scope Z_scope.

(** * The calls *)

(** ** Data *)

Inductive errno : Type := ENOENT | EEXIST | EACCES | EIO | ENOSPC | EBADF.

#[global] Instance errno_eq_dec : EqDecision errno.
Proof. solve_decision. Defined.

(** The outcome of one call: complete, cut short after some bytes (at least
    one), or failed. *)
Inductive io_event : Type :=
| IoFull
| IoShort (n : Z)
| IoFail (e : errno).

(** [fs_dir] maps names to file numbers, [fs_data] these to contents; [fs_vfds]
    holds the open files.  Once the schedule is used up every call completes. *)
Record FileSys : Type := {
  fs_dir : gmap string Z;
  fs_data : gmap Z (list byte);
  fs_vfds : gmap Z Z;
  fs_next : Z;
  fs_schedule : list io_event;
}.

Definition set_dir d (x : FileSys) : FileSys :=
  {| fs_dir := d; fs_data := fs_data x; fs_vfds := fs_vfds x; fs_next := fs_next x; fs_schedule := fs_schedule x |}.
Definition set_data d (x : FileSys) : FileSys :=
  {| fs_dir := fs_dir x; fs_data := d; fs_vfds := fs_vfds x; fs_next := fs_next x; fs_schedule := fs_schedule x |}.
Definition set_vfds v (x : FileSys) : FileSys :=
  {| fs_dir := fs_dir x; fs_data := fs_data x; fs_vfds := v; fs_next := fs_next x; fs_schedule := fs_schedule x |}.
Definition set_next n (x : FileSys) : FileSys :=
  {| fs_dir := fs_dir x; fs_data := fs_data x; fs_vfds := fs_vfds x; fs_next := n; fs_schedule := fs_schedule x |}.
Definition set_schedule l (x : FileSys) : FileSys :=
  {| fs_dir := fs_dir x; fs_data := fs_data x; fs_vfds := fs_vfds x; fs_next := fs_next x; fs_schedule := l |}.

(** A call that may fail with an errno. *)
Definition Sys (A : Type) : Type := FileSys → (errno + A) * FileSys.

Definition next_event (x : FileSys) : io_event * FileSys :=
  match fs_schedule x with
  | [] => (IoFull, x)
  | e :: l => (e, set_schedule l x)
  end.

(** A call that takes an outcome and, unless that is a failure, acts. *)
Definition syscall {A} (act : io_event → Sys A) : Sys A := λ x,
  let '(e, x) := next_event x in
  match e with
  | IoFail err => (inl err, x)
  | e => act e x
  end.

(** ** Contents *)

Definition zeros (n : nat) : list byte := replicate n x00.

(** Writing past the end fills the space between with zeroes; writing nothing
    does nothing. *)
Definition pwrite (c : list byte) (off : nat) (bs : list byte) : list byte :=
  match bs with
  | [] => c
  | _ => take off (c ++ zeros (off - length c)) ++ bs ++ drop (off + length bs) c
  end.
Definition pread (c : list byte) (off n : nat) : list byte := take n (drop off c).
Definition ftruncate (c : list byte) (n : nat) : list byte := take n (c ++ zeros (n - length c)).

(** How much of a transfer of [n] bytes takes place. *)
Definition transferred (e : io_event) (n : nat) : nat :=
  match e with
  | IoShort k => (Z.to_nat k `max` 1) `min` n
  | _ => n
  end.

(** ** Calls *)

Definition open_file (ino : Z) (x : FileSys) : Z * FileSys :=
  let fd := fs_next x in (fd, set_next (fd + 1) (set_vfds (<[fd := ino]> (fs_vfds x)) x)).

(** Flags O_CREAT and O_EXCL. *)
Definition PathNameOpenFile (path : string) (o_creat o_excl : bool) : Sys Z := syscall (λ _ x,
  match fs_dir x !! path with
  | Some ino => if o_creat && o_excl then (inl EEXIST, x) else let '(fd, x) := open_file ino x in (inr fd, x)
  | None =>
      if o_creat then
        let ino := fs_next x in
        let x := set_next (ino + 1) (set_data (<[ino := []]> (fs_data x)) (set_dir (<[path := ino]> (fs_dir x)) x)) in
        let '(fd, x) := open_file ino x in (inr fd, x)
      else (inl ENOENT, x)
  end).

Definition FileClose (fd : Z) (x : FileSys) : FileSys := set_vfds (delete fd (fs_vfds x)) x.

(** What the open file [fd] contains. *)
Definition file_of (fd : Z) (x : FileSys) : option (Z * list byte) :=
  ino ← fs_vfds x !! fd; c ← fs_data x !! ino; mret (ino, c).

Definition on_file {A} (fd : Z) (act : Z → list byte → FileSys → A * FileSys) : Sys A := λ x,
  match file_of fd x with
  | None => (inl EBADF, x)
  | Some (ino, c) => let '(a, x) := act ino c x in (inr a, x)
  end.

Definition put_file (ino : Z) (c : list byte) (x : FileSys) : FileSys := set_data (<[ino := c]> (fs_data x)) x.

Definition FileSize (fd : Z) : Sys Z := syscall (λ _, on_file fd (λ _ c x, (Z.of_nat (length c), x))).

(** At most [n] bytes from [off]; none at the end of the file. *)
Definition FileReadV (fd : Z) (off n : nat) : Sys (list byte) := syscall (λ e, on_file fd (λ _ c x,
  let avail := pread c off n in (take (transferred e (length avail)) avail, x))).

(** The number of bytes written. *)
Definition FileWriteV (fd : Z) (off : nat) (bs : list byte) : Sys nat := syscall (λ e, on_file fd (λ ino c x,
  let n := transferred e (length bs) in (n, put_file ino (pwrite c off (take n bs)) x))).

Definition FileTruncate (fd : Z) (n : nat) : Sys unit := syscall (λ _, on_file fd (λ ino c x,
  (tt, put_file ino (ftruncate c n) x))).

(** Writes [n] zero bytes from [off]; a write that is cut short is an error. *)
Definition FileZero (fd : Z) (off n : nat) : Sys unit := syscall (λ e x,
  match file_of fd x with
  | None => (inl EBADF, x)
  | Some (ino, c) =>
      let k := transferred e n in
      let x := put_file ino (pwrite c off (zeros k)) x in
      if (k <? n)%nat then (inl ENOSPC, x) else (inr tt, x)
  end).

(** posix_fallocate: the file is at least [off + n] bytes long afterwards; the
    bytes it already had stay. *)
Definition FileFallocate (fd : Z) (off n : nat) : Sys unit := syscall (λ _, on_file fd (λ ino c x,
  (tt, put_file ino (c ++ zeros (off + n - length c)) x))).

Definition FileSync (fd : Z) : Sys unit := syscall (λ _, on_file fd (λ _ _ x, (tt, x))).

Definition unlink (path : string) : Sys unit := syscall (λ _ x,
  match fs_dir x !! path with
  | None => (inl ENOENT, x)
  | Some _ => (inr tt, set_dir (delete path (fs_dir x)) x)
  end).

Definition pg_truncate (path : string) (n : nat) : Sys unit := syscall (λ _ x,
  match fs_dir x !! path with
  | None => (inl ENOENT, x)
  | Some ino => (inr tt, put_file ino (ftruncate (default [] (fs_data x !! ino)) n) x)
  end).

(** * What the calls do to named files *)

Implicit Types (x : FileSys) (p q : string) (c bs : list byte).

(** ** Well-formed file systems *)

(** The content of the file named [p]. *)
Definition file_at p x : option (list byte) := fs_dir x !! p ≫= λ ino, fs_data x !! ino.

(** [fd] is open on the file named [p]. *)
Definition handle (fd : Z) p x : Prop := ∃ ino, fs_vfds x !! fd = Some ino ∧ fs_dir x !! p = Some ino.

(** A file has one name and contents; numbers are handed out in order. *)
Record fs_ok x : Prop := {
  fs_dir_inj p q ino : fs_dir x !! p = Some ino → fs_dir x !! q = Some ino → p = q;
  fs_dir_data p ino : fs_dir x !! p = Some ino → is_Some (fs_data x !! ino);
  fs_dir_fresh p ino : fs_dir x !! p = Some ino → ino < fs_next x;
  fs_vfd_fresh fd ino : fs_vfds x !! fd = Some ino → fd < fs_next x;
}.

(** Schedules without failures, and without short transfers either. *)
Definition succeeds (e : io_event) : bool := match e with IoFail _ => false | _ => true end.
Definition calm x : Prop := Forall (λ e, succeeds e = true) (fs_schedule x).
Definition quiet x : Prop := Forall (λ e, e = IoFull) (fs_schedule x).

Lemma quiet_calm x : quiet x → calm x.
Proof. intros H. eapply Forall_impl; [exact H|]. by intros ? ->. Qed.

(** The file system once an outcome has been taken. *)
Definition pop x : FileSys := (next_event x).2.
Definition event x : io_event := (next_event x).1.

Lemma pop_fields x :
  fs_dir (pop x) = fs_dir x ∧ fs_data (pop x) = fs_data x ∧ fs_vfds (pop x) = fs_vfds x ∧ fs_next (pop x) = fs_next x ∧
  fs_schedule (pop x) = tail (fs_schedule x).
Proof. unfold pop, next_event. by destruct (fs_schedule x) eqn:E; simpl; rewrite ?E. Qed.

Lemma calm_event x : calm x → succeeds (event x) = true.
Proof. unfold calm, event, next_event. destruct (fs_schedule x); [done|]. intros H. by inversion H. Qed.
Lemma quiet_event x : quiet x → event x = IoFull.
Proof. unfold quiet, event, next_event. destruct (fs_schedule x); [done|]. intros H. by inversion H. Qed.

Lemma syscall_run {A} (act : io_event → Sys A) x : calm x → syscall act x = act (event x) (pop x).
Proof.
  intros H. apply calm_event in H. unfold syscall, event, pop in *. destruct (next_event x) as [[] x']; done.
Qed.

(** The two may differ in the schedule, which has gone on. *)
Record keeps_schedule x x' : Prop := {
  ks_calm : calm x → calm x';
  ks_quiet : quiet x → quiet x';
}.

#[global] Instance keeps_schedule_preorder : PreOrder keeps_schedule.
Proof.
  split.
  - by constructor.
  - intros ??? [] []. constructor; auto.
Qed.

Lemma keeps_schedule_eq x x' : fs_schedule x' = fs_schedule x → keeps_schedule x x'.
Proof. intros E. constructor; unfold calm, quiet; by rewrite E. Qed.
Lemma keeps_schedule_pop x : keeps_schedule x (pop x).
Proof.
  destruct (pop_fields x) as (_ & _ & _ & _ & E).
  constructor; unfold calm, quiet; rewrite E; by destruct 1.
Qed.
Create HintDb files.
#[export] Hint Resolve keeps_schedule_eq keeps_schedule_pop quiet_calm : files.

(** ** Changing one file *)

(** From [x] to [x']: only the file named [p] may have changed, and every open
    file still is. *)
Record touches p x x' : Prop := {
  t_ok : fs_ok x';
  t_sched : keeps_schedule x x';
  t_files q : q ≠ p → file_at q x' = file_at q x;
  t_handles fd q : handle fd q x → handle fd q x';
  t_next : fs_next x <= fs_next x';
}.

Lemma file_at_pop p x : file_at p (pop x) = file_at p x.
Proof. unfold file_at. by destruct (pop_fields x) as (-> & -> & _). Qed.
Lemma handle_pop fd p x : handle fd p (pop x) ↔ handle fd p x.
Proof. unfold handle. by destruct (pop_fields x) as (-> & _ & -> & _). Qed.
Lemma fs_ok_pop x : fs_ok x → fs_ok (pop x).
Proof.
  intros [H1 H2 H3 H4]. destruct (pop_fields x) as (E1 & E2 & E3 & E4 & _).
  constructor; rewrite ?E1, ?E2, ?E3, ?E4; done.
Qed.
Lemma touches_pop p x : fs_ok x → touches p x (pop x).
Proof.
  intros H. destruct (pop_fields x) as (_ & _ & _ & E & _). constructor.
  - by apply fs_ok_pop.
  - apply keeps_schedule_pop.
  - intros q _. apply file_at_pop.
  - intros fd q. apply handle_pop.
  - lia.
Qed.
Lemma touches_trans p x y z : touches p x y → touches p y z → touches p x z.
Proof.
  intros [H1 H2 H3 H4 H5] [G1 G2 G3 G4 G5]. constructor; try done; [by etrans| |auto|lia].
  intros q Hq. rewrite G3, H3; done.
Qed.

(** Writing the contents of a file. *)
Lemma put_file_touches p ino c x :
  fs_ok x → fs_dir x !! p = Some ino → touches p x (put_file ino c x) ∧ file_at p (put_file ino c x) = Some c.
Proof.
  intros Hok Hp. pose proof Hok as [H1 H2 H3 H4]. split.
  - constructor; [|by apply keeps_schedule_eq| |done|done].
    + constructor; simpl; try done. intros q ino' Hq. destruct (decide (ino = ino')) as [->|];
        [by rewrite lookup_insert_eq|rewrite lookup_insert_ne by done; by eapply H2].
    + intros q Hq. unfold file_at. simpl. destruct (fs_dir x !! q) as [ino'|] eqn:E; [simpl|done].
      rewrite lookup_insert_ne; [done|]. intros <-. by apply Hq, (H1 q p ino).
  - unfold file_at. simpl. rewrite Hp. simpl. by rewrite lookup_insert_eq.
Qed.

Lemma file_of_handle fd p x c :
  handle fd p x → file_at p x = Some c → ∃ ino, file_of fd x = Some (ino, c) ∧ fs_dir x !! p = Some ino.
Proof.
  intros (ino & Hv & Hd) Hf. unfold file_at in Hf. rewrite Hd in Hf. simpl in Hf.
  exists ino. split; [|done]. unfold file_of. rewrite Hv. simpl. by rewrite Hf.
Qed.

(** ** The calls *)

(** A call that looks at an open file, and one that gives it new contents. *)
Lemma get_call {A} fd p x c (g : io_event → list byte → A) :
  calm x → handle fd p x → file_at p x = Some c →
  syscall (λ e, on_file fd (λ _ c0 x0, (g e c0, x0))) x = (inr (g (event x) c), pop x).
Proof.
  intros Hc Hh Hf. rewrite syscall_run by done. rewrite <- handle_pop in Hh. rewrite <- file_at_pop in Hf.
  destruct (file_of_handle _ _ _ _ Hh Hf) as (ino & Ho & _). unfold on_file. by rewrite Ho.
Qed.

Lemma put_call {A} fd p x c (g : io_event → list byte → A) (h : io_event → list byte → list byte) :
  calm x → fs_ok x → handle fd p x → file_at p x = Some c →
  ∃ x', syscall (λ e, on_file fd (λ ino c0 x0, (g e c0, put_file ino (h e c0) x0))) x = (inr (g (event x) c), x') ∧
    touches p x x' ∧ file_at p x' = Some (h (event x) c).
Proof.
  intros Hc Hok Hh Hf. rewrite syscall_run by done. rewrite <- handle_pop in Hh. rewrite <- file_at_pop in Hf.
  destruct (file_of_handle _ _ _ _ Hh Hf) as (ino & Ho & Hd). unfold on_file. rewrite Ho.
  destruct (put_file_touches p ino (h (event x) c) (pop x) (fs_ok_pop _ Hok) Hd) as [Ht Hg].
  eexists. split; [reflexivity|]. split; [|done]. eapply touches_trans; [by apply touches_pop|done].
Qed.

Section calls.
Context (fd : Z) p x c (Hc : calm x) (Hok : fs_ok x) (Hh : handle fd p x) (Hf : file_at p x = Some c).

Lemma FileSize_run : FileSize fd x = (inr (Z.of_nat (length c)), pop x).
Proof. by apply (get_call fd p x c (λ _ c, Z.of_nat (length c))). Qed.

Lemma FileSync_run : FileSync fd x = (inr tt, pop x).
Proof. by apply (get_call fd p x c (λ _ _, tt)). Qed.

Lemma FileReadV_run off n :
  FileReadV fd off n x =
    (inr (take (transferred (event x) (length (pread c off n))) (pread c off n)), pop x).
Proof. by apply (get_call fd p x c (λ e c, take (transferred e (length (pread c off n))) (pread c off n))). Qed.

Lemma FileWriteV_run off bs :
  let n := transferred (event x) (length bs) in
  ∃ x', FileWriteV fd off bs x = (inr n, x') ∧ touches p x x' ∧ file_at p x' = Some (pwrite c off (take n bs)).
Proof.
  by apply (put_call fd p x c (λ e _, transferred e (length bs))
    (λ e c, pwrite c off (take (transferred e (length bs)) bs))).
Qed.

Lemma FileTruncate_run n :
  ∃ x', FileTruncate fd n x = (inr tt, x') ∧ touches p x x' ∧ file_at p x' = Some (ftruncate c n).
Proof. by apply (put_call fd p x c (λ _ _, tt) (λ _ c, ftruncate c n)). Qed.

Lemma FileFallocate_run off n :
  ∃ x', FileFallocate fd off n x = (inr tt, x') ∧ touches p x x' ∧
    file_at p x' = Some (c ++ zeros (off + n - length c)).
Proof. by apply (put_call fd p x c (λ _ _, tt) (λ _ c, c ++ zeros (off + n - length c))). Qed.
End calls.

Lemma FileZero_run fd p x c off n :
  quiet x → fs_ok x → handle fd p x → file_at p x = Some c →
  ∃ x', FileZero fd off n x = (inr tt, x') ∧ touches p x x' ∧ file_at p x' = Some (pwrite c off (zeros n)).
Proof.
  intros Hq Hok Hh Hf. unfold FileZero. rewrite syscall_run by auto with files. rewrite (quiet_event x) by done.
  rewrite <- handle_pop in Hh. rewrite <- file_at_pop in Hf.
  destruct (file_of_handle _ _ _ _ Hh Hf) as (ino & Ho & Hd). rewrite Ho. simpl. rewrite Nat.ltb_irrefl.
  destruct (put_file_touches p ino (pwrite c off (zeros n)) (pop x) (fs_ok_pop _ Hok) Hd) as [Ht Hg].
  eexists. split; [reflexivity|]. split; [|done]. eapply touches_trans; [by apply touches_pop|done].
Qed.

(** Opening a file gives a new number. *)
Lemma open_file_touches p ino x :
  fs_ok x → fs_dir x !! p = Some ino →
  let x' := (open_file ino x).2 in
  touches p x x' ∧ file_at p x' = file_at p x ∧ handle (fs_next x) p x' ∧ fs_next x < fs_next x'.
Proof.
  intros Hok Hp x'. pose proof Hok as [H1 H2 H3 H4]. split_and!.
  - constructor; [|by apply keeps_schedule_eq|done| |simpl; lia].
    + constructor; simpl; try done.
      * intros q i Hq. apply H3 in Hq. lia.
      * intros fd i. destruct (decide (fs_next x = fd)) as [->|]; [lia|]. rewrite lookup_insert_ne by done.
        intros E%H4. lia.
    + intros fd q (i & Hv & Hd). exists i. split; [|done]. simpl. rewrite lookup_insert_ne; [done|].
      intros <-. apply H4 in Hv. lia.
  - done.
  - exists ino. simpl. by rewrite lookup_insert_eq.
  - simpl. lia.
Qed.

Lemma PathNameOpenFile_old p x c o_creat :
  calm x → fs_ok x → file_at p x = Some c →
  ∃ fd x', PathNameOpenFile p o_creat false x = (inr fd, x') ∧ touches p x x' ∧ file_at p x' = Some c ∧
    handle fd p x' ∧ fs_next x <= fd < fs_next x'.
Proof.
  intros Hc Hok Hf. unfold PathNameOpenFile. rewrite syscall_run by done. rewrite <- file_at_pop in Hf.
  unfold file_at in Hf. destruct (fs_dir (pop x) !! p) as [ino|] eqn:Hd; [|done].
  rewrite andb_false_r. destruct (open_file_touches p ino (pop x) (fs_ok_pop _ Hok) Hd) as (H1 & H2 & H3 & H4).
  unfold open_file at 1. do 2 eexists. split; [reflexivity|]. split_and!.
  - eapply touches_trans; [by apply touches_pop|exact H1].
  - transitivity (file_at p (pop x)); [exact H2|]. unfold file_at. by rewrite Hd.
  - exact H3.
  - by destruct (pop_fields x) as (_ & _ & _ & -> & _).
  - exact H4.
Qed.

Lemma PathNameOpenFile_missing p x :
  calm x → file_at p x = None → fs_ok x → PathNameOpenFile p false false x = (inl ENOENT, pop x).
Proof.
  intros Hc Hf Hok. unfold PathNameOpenFile. rewrite syscall_run by done. rewrite <- file_at_pop in Hf.
  destruct (fs_dir (pop x) !! p) as [ino|] eqn:Hd; [|done]. exfalso.
  destruct (fs_dir_data _ (fs_ok_pop _ Hok) _ _ Hd) as [c Hc']. unfold file_at in Hf. rewrite Hd in Hf. simpl in Hf.
  by rewrite Hc' in Hf.
Qed.

Lemma PathNameOpenFile_exists p x c :
  calm x → file_at p x = Some c → PathNameOpenFile p true true x = (inl EEXIST, pop x).
Proof.
  intros Hc Hf. unfold PathNameOpenFile. rewrite syscall_run by done. rewrite <- file_at_pop in Hf.
  unfold file_at in Hf. by destruct (fs_dir (pop x) !! p).
Qed.

Lemma PathNameOpenFile_new p x o_excl :
  calm x → fs_ok x → file_at p x = None →
  ∃ fd x', PathNameOpenFile p true o_excl x = (inr fd, x') ∧ touches p x x' ∧ file_at p x' = Some [] ∧
    handle fd p x' ∧ fs_next x <= fd < fs_next x'.
Proof.
  intros Hc Hok Hf. unfold PathNameOpenFile. rewrite syscall_run by done. rewrite <- file_at_pop in Hf.
  pose proof (fs_ok_pop _ Hok) as Hok'. pose proof Hok' as [H1 H2 H3 H4].
  destruct (fs_dir (pop x) !! p) as [ino|] eqn:Hd.
  { destruct (H2 _ _ Hd) as [c Hc']. unfold file_at in Hf. rewrite Hd in Hf. simpl in Hf. by rewrite Hc' in Hf. }
  set (ino := fs_next (pop x)).
  set (y := set_next (ino + 1) (set_data (<[ino := []]> (fs_data (pop x))) (set_dir (<[p := ino]> (fs_dir (pop x))) (pop x)))).
  assert (touches p (pop x) y) as Hy.
  { constructor; [|by apply keeps_schedule_eq| | |simpl; lia].
    - constructor; simpl.
      + intros a b i. destruct (decide (a = p)) as [->|], (decide (b = p)) as [->|];
          rewrite ?lookup_insert_eq, ?lookup_insert_ne by done; try done.
        * intros [= <-] E%H3. lia.
        * intros E%H3 [= <-]. lia.
        * apply H1.
      + intros a i. destruct (decide (a = p)) as [->|];
          [rewrite lookup_insert_eq; intros [= <-]; by rewrite lookup_insert_eq|].
        rewrite lookup_insert_ne by done. intros E. destruct (decide (ino = i)) as [<-|];
          [by rewrite lookup_insert_eq|rewrite lookup_insert_ne by done; by eapply H2].
      + intros a i. destruct (decide (a = p)) as [->|]; [rewrite lookup_insert_eq; intros [= <-]; lia|].
        rewrite lookup_insert_ne by done. intros E%H3. unfold ino. lia.
      + intros fd i E%H4. unfold ino. lia.
    - intros q Hq. unfold file_at. simpl. rewrite lookup_insert_ne by done.
      destruct (fs_dir (pop x) !! q) as [i|] eqn:E; simpl; [|done]. rewrite lookup_insert_ne; [done|].
      intros <-. apply H3 in E. unfold ino in E. lia.
    - intros fd q (i & Hv & Hq). exists i. split; [done|]. simpl. rewrite lookup_insert_ne; [done|].
      intros <-. congruence. }
  destruct (open_file_touches p ino y) as (G1 & G2 & G3 & G4); [apply Hy|by apply lookup_insert_eq|].
  do 2 eexists. split; [reflexivity|]. split_and!.
  - eapply touches_trans; [by apply touches_pop|]. eapply touches_trans; [exact Hy|exact G1].
  - transitivity (file_at p y); [exact G2|]. unfold file_at. simpl. rewrite lookup_insert_eq. simpl.
    apply lookup_insert_eq.
  - exact G3.
  - simpl. destruct (pop_fields x) as (_ & _ & _ & E & _). unfold ino. lia.
  - exact G4.
Qed.

(** Closing a file keeps the others open. *)
Lemma FileClose_ok fd x :
  fs_ok x → fs_ok (FileClose fd x) ∧ keeps_schedule x (FileClose fd x) ∧ (∀ q, file_at q (FileClose fd x) = file_at q x) ∧
  (∀ fd' q, fd' ≠ fd → handle fd' q x → handle fd' q (FileClose fd x)) ∧ fs_next (FileClose fd x) = fs_next x.
Proof.
  intros [H1 H2 H3 H4]. split_and!; try done.
  - constructor; simpl; try done. intros fd' i [_ E]%lookup_delete_Some. by eapply H4.
  - intros fd' q Hne (i & Hv & Hd). exists i. split; [|done]. simpl. by rewrite lookup_delete_ne.
Qed.

(** ** Removing and truncating by name *)

Lemma unlink_run p x c :
  calm x → fs_ok x → file_at p x = Some c →
  ∃ x', unlink p x = (inr tt, x') ∧ fs_ok x' ∧ keeps_schedule x x' ∧ file_at p x' = None ∧
    (∀ q, q ≠ p → file_at q x' = file_at q x) ∧ (∀ fd q, q ≠ p → handle fd q x → handle fd q x') ∧
    fs_next x' = fs_next x ∧ (size (fs_dir x') < size (fs_dir x))%nat.
Proof.
  intros Hc Hok Hf. unfold unlink. rewrite syscall_run by done. pose proof (fs_ok_pop _ Hok) as [H1 H2 H3 H4].
  pose proof Hf as Hf'. rewrite <- file_at_pop in Hf'. unfold file_at in Hf'.
  destruct (fs_dir (pop x) !! p) as [ino|] eqn:Hd; [|done]. eexists. split; [reflexivity|]. split_and!.
  - constructor; simpl; try done.
    + intros a b i Ha%lookup_delete_Some Hb%lookup_delete_Some. destruct Ha as [_ Ha], Hb as [_ Hb]. by apply (H1 a b i).
    + intros a i [_ Ha]%lookup_delete_Some. by eapply H2.
    + intros a i [_ Ha]%lookup_delete_Some. by eapply H3.
  - transitivity (pop x); [apply keeps_schedule_pop|by apply keeps_schedule_eq].
  - unfold file_at. simpl. by rewrite lookup_delete_eq.
  - intros q Hq. rewrite <- (file_at_pop q x). unfold file_at. simpl. by rewrite lookup_delete_ne.
  - intros fd q Hq Hh. rewrite <- handle_pop in Hh. destruct Hh as (i & Hv & Hi). exists i. split; [done|]. simpl.
    by rewrite lookup_delete_ne.
  - simpl. by destruct (pop_fields x) as (_ & _ & _ & -> & _).
  - simpl. rewrite map_size_delete, Hd. destruct (pop_fields x) as (E & _). rewrite <- E.
    assert (fs_dir (pop x) ≠ ∅) as Hne by (intros Hz; by rewrite Hz in Hd). 
    apply map_size_non_empty_iff in Hne. simpl. lia.
Qed.

Lemma pg_truncate_run p x c n :
  calm x → fs_ok x → file_at p x = Some c →
  ∃ x', pg_truncate p n x = (inr tt, x') ∧ touches p x x' ∧ file_at p x' = Some (ftruncate c n) ∧ fs_dir x' = fs_dir x.
Proof.
  intros Hc Hok Hf. unfold pg_truncate. rewrite syscall_run by done. rewrite <- file_at_pop in Hf. unfold file_at in Hf.
  destruct (fs_dir (pop x) !! p) as [ino|] eqn:Hd; [|done]. simpl in Hf. rewrite Hf. simpl.
  destruct (put_file_touches p ino (ftruncate c n) (pop x) (fs_ok_pop _ Hok) Hd) as [Ht Hg].
  eexists. split; [reflexivity|]. split_and!; [|done|simpl; by destruct (pop_fields x) as (-> & _)].
  eapply touches_trans; [by apply touches_pop|done].
Qed.

Lemma missing_run p x :
  calm x → fs_ok x → file_at p x = None →
  unlink p x = (inl ENOENT, pop x) ∧ ∀ n, pg_truncate p n x = (inl ENOENT, pop x).
Proof.
  intros Hc Hok Hf. unfold unlink, pg_truncate. rewrite !syscall_run by done. rewrite <- file_at_pop in Hf.
  destruct (fs_dir (pop x) !! p) as [ino|] eqn:Hd; [exfalso|split; [done|intros n; by rewrite syscall_run, Hd by done]].
  destruct (fs_dir_data _ (fs_ok_pop _ Hok) _ _ Hd) as [c Hc']. unfold file_at in Hf. rewrite Hd in Hf. simpl in Hf.
  by rewrite Hc' in Hf.
Qed.
