(* ===== verification/Md.v ===== *)
(** * Md: the magnetic-disk storage manager

    src/src/backend/storage/smgr/md.c: relations as segment files of
    RELSEG_SIZE blocks.  The open segments of every fork, the files and the
    requests made of the checkpointer are the state; each function of md.c is a
    definition.  A call of the checkpointer's queue that fails, and every
    outcome of a file operation, is taken from the schedule of [FileSys]. *)

From Stdlib Require Import ZArith Lia Bool Strings.Byte.
From stdpp Require Import base tactics numbers list gmap strings pretty.
From S2P Require Import Prelude RelPath MemSmgr FileSys.

Local Open Scope Z_scope.
Local Open Scope pg_scope.

Module Md.

(** ** Data *)

Record MdfdVec : Type := {
  mdfd_vfd : Z;
  mdfd_segno : BlockNumber;
}.

Record FileTag : Type := {
  tag_rlocator : RelFileLocator;
  tag_forknum : ForkNumber;
  tag_segno : BlockNumber;
}.

Inductive SyncRequestType : Type :=
| SYNC_REQUEST | SYNC_UNLINK_REQUEST | SYNC_FORGET_REQUEST | SYNC_FILTER_REQUEST.

Inductive FileExtendMethod : Type := FILE_EXTEND_METHOD_POSIX_FALLOCATE | FILE_EXTEND_METHOD_WRITE_ZEROS.

Definition InvalidBlockNumber : Z := 2 ^ 32 - 1.
Definition MaxBlockNumber : Z := 2 ^ 32 - 2.

Definition EXTENSION_FAIL : Z := 1.
Definition EXTENSION_RETURN_NULL : Z := 2.
Definition EXTENSION_CREATE : Z := 4.
Definition EXTENSION_CREATE_RECOVERY : Z := 8.
Definition EXTENSION_DONT_OPEN : Z := 32.
Definition has (behavior flag : Z) : bool := negb (Z.land behavior flag =? 0).

Definition FILE_POSSIBLY_DELETED (e : errno) : bool := bool_decide (e = ENOENT).

(** Settings and build constants; [TablespaceCreateDbspace] is the call that
    makes the database's directory in a tablespace. *)
Class MdEnv {env : Env} : Type := {
  InRecovery : bool;
  IsBinaryUpgrade : bool;
  (** fastpg_catalog_mode_uses_postgres() *)
  fastpg_immediate_unlink : bool;
  zero_damaged_pages : bool;
  file_extend_method : FileExtendMethod;
  PG_IOV_MAX : Z;
  TablespaceCreateDbspace : Z → Z → bool → result unit;
  BLCKSZ_pos : 0 < BLCKSZ;
  RELSEG_SIZE_range : 0 < RELSEG_SIZE < 2 ^ 31;
}.

(** [md_open]: the arrays md_seg_fds of the relations, whose lengths are
    md_num_open_segs. *)
Record MdState : Type := {
  md_fs : FileSys;
  md_open : gmap (RelFileLocatorBackend * ForkNumber) (list MdfdVec);
  md_requests : list (SyncRequestType * FileTag);
}.

Definition set_fs x (s : MdState) : MdState :=
  {| md_fs := x; md_open := md_open s; md_requests := md_requests s |}.
Definition set_open o (s : MdState) : MdState :=
  {| md_fs := md_fs s; md_open := o; md_requests := md_requests s |}.
Definition add_request q (s : MdState) : MdState :=
  {| md_fs := md_fs s; md_open := md_open s; md_requests := md_requests s ++ [q] |}.

Section md.
Context {env : Env} {mde : MdEnv}.
Abbreviation MM := (M MdState) (only parsing).
Implicit Types (r : RelFileLocatorBackend) (f : ForkNumber) (s : MdState).

Definition on_sys {A} (c : Sys A) : MM (errno + A) := λ s,
  let '(a, x) := c (md_fs s) in (Ok a, set_fs x s).

(** [if (call < 0) ereport(ERROR, ...)] *)
Definition sys_or {A} (c : Sys A) (code : errcode) (msg : string) : MM A :=
  a ← on_sys c; match a with inl _ => ereport code msg | inr a => mret a end.

Definition open_segs r f s : list MdfdVec := default [] (md_open s !! (r, f)).
Definition num_open r f : MM nat := gets (λ s, length (open_segs r f s)).

(** [reln->md_seg_fds[forknum][i]] *)
Definition seg_fd r f (i : nat) : MM MdfdVec :=
  gets (λ s, default {| mdfd_vfd := -1; mdfd_segno := 0 |} (open_segs r f s !! i)).
Definition seg_fill r f (i : nat) (v : MdfdVec) : MM unit :=
  modify (λ s, set_open (<[(r, f) := <[i := v]> (open_segs r f s)]> (md_open s)) s).

(** New entries hold nothing of use. *)
Definition _fdvec_resize r f (nseg : nat) : MM unit := modify (λ s,
  let l := open_segs r f s in
  set_open (<[(r, f) := take nseg (l ++ replicate (nseg - length l) {| mdfd_vfd := -1; mdfd_segno := 0 |})]>
    (md_open s)) s).

(** ** Paths and requests *)

Definition _mdfd_segpath r f (segno : BlockNumber) : string :=
  let path := relpath version_dir r f in
  if 0 <? segno then path +:+ "." +:+ fmt_u segno else path.

(** Whether the request was taken; one that is retried always is. *)
Definition RegisterSyncRequest (tag : FileTag) (type : SyncRequestType) (retryOnError : bool) : MM bool :=
  if retryOnError then modify (add_request (type, tag));; mret true
  else
    λ s,
      let '(e, x) := next_event (md_fs s) in
      match e with
      | IoFail _ => (Ok false, set_fs x s)
      | _ => (Ok true, add_request (type, tag) (set_fs x s))
      end.

Definition INIT_MD_FILETAG (loc : RelFileLocator) f (segno : BlockNumber) : FileTag :=
  {| tag_rlocator := loc; tag_forknum := f; tag_segno := segno |}.

Definition register_dirty_segment r f (seg : MdfdVec) : MM unit :=
  ok ← RegisterSyncRequest (INIT_MD_FILETAG (locator r) f (mdfd_segno seg)) SYNC_REQUEST false;
  if negb ok then sys_or (FileSync (mdfd_vfd seg)) ERRCODE_FILE_ACCESS "could not fsync file" else mret tt.

Definition register_unlink_segment r f (segno : BlockNumber) : MM unit :=
  RegisterSyncRequest (INIT_MD_FILETAG (locator r) f segno) SYNC_UNLINK_REQUEST true;; mret tt.

Definition register_forget_request r f (segno : BlockNumber) : MM unit :=
  RegisterSyncRequest (INIT_MD_FILETAG (locator r) f segno) SYNC_FORGET_REQUEST true;; mret tt.

Definition ForgetDatabaseSyncRequests (dbid : Z) : MM unit :=
  RegisterSyncRequest (INIT_MD_FILETAG {| spcOid := 0; dbOid := dbid; relNumber := 0 |}
    InvalidForkNumber InvalidBlockNumber) SYNC_FILTER_REQUEST true;;
  mret tt.

Definition mdfiletagmatches (ftag candidate : FileTag) : bool :=
  dbOid (tag_rlocator ftag) =? dbOid (tag_rlocator candidate).

(** ** Opening and closing segments *)

Definition mdopenfork r f (behavior : Z) : MM (option MdfdVec) :=
  n ← num_open r f;
  if (0 <? n)%nat then v ← seg_fd r f 0; mret (Some v)
  else
    fd ← on_sys (PathNameOpenFile (relpath version_dir r f) false false);
    match fd with
    | inl e =>
        if has behavior EXTENSION_RETURN_NULL && FILE_POSSIBLY_DELETED e then mret None
        else ereport ERRCODE_FILE_ACCESS "could not open file"
    | inr fd =>
        let mdfd := {| mdfd_vfd := fd; mdfd_segno := 0 |} in
        _fdvec_resize r f 1;;
        seg_fill r f 0 mdfd;;
        mret (Some mdfd)
    end.

Definition mdopen r : MM unit :=
  for_each all_forks (λ f, modify (λ s, set_open (<[(r, f) := []]> (md_open s)) s)).

Fixpoint close_segs r f (nopensegs : nat) : MM unit :=
  match nopensegs with
  | O => mret tt
  | S n =>
      v ← seg_fd r f n;
      modify (λ s, set_fs (FileClose (mdfd_vfd v) (md_fs s)) s);;
      _fdvec_resize r f n;;
      close_segs r f n
  end.
Definition mdclose r f : MM unit := n ← num_open r f; close_segs r f n.

Definition _mdfd_openseg r f (segno : nat) (o_creat : bool) : MM (option MdfdVec * option errno) :=
  fd ← on_sys (PathNameOpenFile (_mdfd_segpath r f (Z.of_nat segno)) o_creat false);
  match fd with
  | inl e => mret (None, Some e)
  | inr fd =>
      let v := {| mdfd_vfd := fd; mdfd_segno := Z.of_nat segno |} in
      _fdvec_resize r f (S segno);;
      seg_fill r f segno v;;
      mret (Some v, None)
  end.

Definition _mdnblocks (seg : MdfdVec) : MM BlockNumber :=
  len ← sys_or (FileSize (mdfd_vfd seg)) ERRCODE_FILE_ACCESS "could not seek to end of file";
  mret (wrap32 (len / BLCKSZ)).

(** ** Finding the segment of a block *)

(** [mdextend], given the function that finds segments. *)
Definition mdextend_with (getseg : BlockNumber → Z → MM (option MdfdVec)) r f (blocknum : BlockNumber)
    (buffer : Block) (skipFsync : bool) : MM unit :=
  if blocknum =? InvalidBlockNumber
  then ereport ERRCODE_PROGRAM_LIMIT_EXCEEDED "cannot extend file"
  else
    v ← getseg blocknum EXTENSION_CREATE;
    match v with
    | None => ereport ERRCODE_INTERNAL_ERROR "null segment"
    | Some v =>
        let seekpos := BLCKSZ * (blocknum mod RELSEG_SIZE) in
        nbytes ← sys_or (FileWriteV (mdfd_vfd v) (Z.to_nat seekpos) buffer)
                   ERRCODE_FILE_ACCESS "could not extend file";
        if negb (Z.of_nat nbytes =? BLCKSZ)
        then ereport ERRCODE_DISK_FULL "could not extend file: wrote only part of a block"
        else if negb skipFsync && negb (RelFileLocatorBackendIsTemp r)
        then register_dirty_segment r f v
        else mret tt
    end.

(** The loop from the last open segment to the target; [pad] is the call of
    mdextend that fills a segment up. *)
Fixpoint getseg_loop (pad : BlockNumber → MM unit) r f (behavior : Z) (v : MdfdVec)
    (nextsegno : nat) (count : nat) : MM (option MdfdVec) :=
  match count with
  | O => mret (Some v)
  | S count' =>
      let create := has behavior EXTENSION_CREATE || (InRecovery && has behavior EXTENSION_CREATE_RECOVERY) in
      nblocks ← _mdnblocks v;
      if RELSEG_SIZE <? nblocks then ereport ERRCODE_INTERNAL_ERROR "segment too big"
      else if negb create && (nblocks <? RELSEG_SIZE) then
        if has behavior EXTENSION_RETURN_NULL then mret None
        else ereport ERRCODE_FILE_ACCESS "could not open file: previous segment is too short"
      else
        (if create && (nblocks <? RELSEG_SIZE)
         then pad (wrap32 (Z.of_nat nextsegno * RELSEG_SIZE - 1)) else mret tt);;
        v' ← _mdfd_openseg r f nextsegno create;
        match v' with
        | (Some v', _) => getseg_loop pad r f behavior v' (S nextsegno) count'
        | (None, e) =>
            if has behavior EXTENSION_RETURN_NULL && default false (FILE_POSSIBLY_DELETED <$> e) then mret None
            else ereport ERRCODE_FILE_ACCESS "could not open file"
        end
  end.

(** [_mdfd_getseg] and [mdextend] call each other; [depth] bounds the nesting.
    The inner call is for a block of the last open segment and returns at
    once, so two levels are all there is. *)
Fixpoint getseg_depth (depth : nat) r f (skipFsync : bool) (blkno : BlockNumber) (behavior : Z)
    : MM (option MdfdVec) :=
  match depth with
  | O => ereport ERRCODE_NONTERMINATING "_mdfd_getseg"
  | S depth' =>
      let targetseg := Z.to_nat (blkno / RELSEG_SIZE) in
      n ← num_open r f;
      if (targetseg <? n)%nat then v ← seg_fd r f targetseg; mret (Some v)
      else if has behavior EXTENSION_DONT_OPEN then mret None
      else
        v ← (if (0 <? n)%nat then v ← seg_fd r f (n - 1); mret (Some v) else mdopenfork r f behavior);
        match v with
        | None => mret None
        | Some v =>
            n ← num_open r f;
            getseg_loop
              (λ blk, mdextend_with (getseg_depth depth' r f skipFsync) r f blk zero_block skipFsync)
              r f behavior v n (S targetseg - n)
        end
  end.

Definition _mdfd_getseg r f (blkno : BlockNumber) (skipFsync : bool) (behavior : Z) : MM (option MdfdVec) :=
  getseg_depth 2 r f skipFsync blkno behavior.

(** A caller that does not pass EXTENSION_RETURN_NULL uses the result
    unchecked. *)
Definition getseg_or_fail r f (blkno : BlockNumber) (skipFsync : bool) (behavior : Z) : MM MdfdVec :=
  v ← _mdfd_getseg r f blkno skipFsync behavior;
  match v with None => ereport ERRCODE_INTERNAL_ERROR "null segment" | Some v => mret v end.

(** ** Creating, extending and sizing *)

Definition mdexists r f : MM bool :=
  (if negb InRecovery then mdclose r f else mret tt);;
  v ← mdopenfork r f EXTENSION_RETURN_NULL;
  mret (bool_decide (is_Some (mdfd_vfd <$> v))).

Definition mdcreate r f (isRedo : bool) : MM unit :=
  n ← num_open r f;
  if isRedo && (0 <? n)%nat then mret tt
  else
    lift (TablespaceCreateDbspace (spcOid (locator r)) (dbOid (locator r)) isRedo);;
    let path := relpath version_dir r f in
    fd ← on_sys (PathNameOpenFile path true true);
    fd ← match fd with
         | inr fd => mret fd
         | inl _ =>
             if isRedo then sys_or (PathNameOpenFile path false false) ERRCODE_FILE_ACCESS "could not create file"
             else ereport ERRCODE_FILE_ACCESS "could not create file"
         end;
    let mdfd := {| mdfd_vfd := fd; mdfd_segno := 0 |} in
    _fdvec_resize r f 1;;
    seg_fill r f 0 mdfd;;
    if negb (RelFileLocatorBackendIsTemp r) then register_dirty_segment r f mdfd else mret tt.

Definition mdextend r f (blocknum : BlockNumber) (buffer : Block) (skipFsync : bool) : MM unit :=
  mdextend_with (λ blk, _mdfd_getseg r f blk skipFsync) r f blocknum buffer skipFsync.

(** One segment per iteration; [fuel] is the number of blocks. *)
Fixpoint zeroextend_loop (fuel : nat) r f (curblocknum : BlockNumber) (remblocks : Z) (skipFsync : bool)
    : MM unit :=
  if remblocks <=? 0 then mret tt
  else match fuel with
  | O => ereport ERRCODE_NONTERMINATING "mdzeroextend"
  | S fuel' =>
      let segstartblock := curblocknum mod RELSEG_SIZE in
      let seekpos := Z.to_nat (BLCKSZ * segstartblock) in
      let numblocks := if RELSEG_SIZE <? segstartblock +u remblocks then RELSEG_SIZE - segstartblock else remblocks in
      v ← getseg_or_fail r f curblocknum skipFsync EXTENSION_CREATE;
      (if (8 <? numblocks) && negb (match file_extend_method with FILE_EXTEND_METHOD_WRITE_ZEROS => true | _ => false end)
       then sys_or (FileFallocate (mdfd_vfd v) seekpos (Z.to_nat (BLCKSZ * numblocks)))
              ERRCODE_FILE_ACCESS "could not extend file with FileFallocate()"
       else sys_or (FileZero (mdfd_vfd v) seekpos (Z.to_nat (BLCKSZ * numblocks)))
              ERRCODE_FILE_ACCESS "could not extend file");;
      (if negb skipFsync && negb (RelFileLocatorBackendIsTemp r) then register_dirty_segment r f v else mret tt);;
      zeroextend_loop fuel' r f (curblocknum +u numblocks) (remblocks - numblocks) skipFsync
  end.

Definition mdzeroextend r f (blocknum : BlockNumber) (nblocks : Z) (skipFsync : bool) : MM unit :=
  if InvalidBlockNumber <=? blocknum + nblocks
  then ereport ERRCODE_PROGRAM_LIMIT_EXCEEDED "cannot extend file"
  else zeroextend_loop (Z.to_nat nblocks) r f blocknum nblocks skipFsync.

(** Each iteration opens another file of the directory. *)
Definition dir_fuel s : nat := S (size (fs_dir (md_fs s))).

Fixpoint nblocks_loop (fuel : nat) r f (segno : nat) (v : MdfdVec) : MM BlockNumber :=
  match fuel with
  | O => ereport ERRCODE_NONTERMINATING "mdnblocks"
  | S fuel' =>
      nblocks ← _mdnblocks v;
      if RELSEG_SIZE <? nblocks then ereport ERRCODE_INTERNAL_ERROR "segment too big"
      else if nblocks <? RELSEG_SIZE then mret (Z.of_nat segno *u RELSEG_SIZE +u nblocks)
      else
        v' ← _mdfd_openseg r f (S segno) false;
        match v' with
        | (None, _) => mret (Z.of_nat (S segno) *u RELSEG_SIZE)
        | (Some v', _) => nblocks_loop fuel' r f (S segno) v'
        end
  end.

Definition mdnblocks r f : MM BlockNumber :=
  mdopenfork r f EXTENSION_FAIL;;
  n ← num_open r f;
  v ← seg_fd r f (n - 1);
  fuel ← gets dir_fuel;
  nblocks_loop fuel r f (n - 1) v.

(** ** Reading and writing *)

Definition blocks_this_segment (blocknum nblocks : Z) : Z :=
  Z.min nblocks (RELSEG_SIZE - blocknum mod RELSEG_SIZE).

(** The inner loop of mdreadv: [done] is what has been transferred.  Each
    iteration transfers at least one byte or is the last. *)
Fixpoint read_loop (fuel : nat) (vfd : Z) (seekpos size : nat) (done : list byte) : MM (list byte) :=
  match fuel with
  | O => ereport ERRCODE_NONTERMINATING "mdreadv"
  | S fuel' =>
      bytes ← sys_or (FileReadV vfd seekpos (size - length done)) ERRCODE_FILE_ACCESS "could not read blocks";
      match bytes with
      | [] =>
          if zero_damaged_pages || InRecovery
          then
            let full := (length done / Z.to_nat BLCKSZ * Z.to_nat BLCKSZ)%nat in
            mret (take full done ++ zeros (size - full))
          else ereport ERRCODE_DATA_CORRUPTED "could not read blocks"
      | _ =>
          let done := done ++ bytes in
          if (length done =? size)%nat then mret done
          else read_loop fuel' vfd (seekpos + length bytes) size done
      end
  end.

(** The buffers of a vectored transfer, one after the other. *)
Fixpoint to_blocks (n : nat) (bytes : list byte) : list Block :=
  match n with
  | O => []
  | S n' => take (Z.to_nat BLCKSZ) bytes :: to_blocks n' (drop (Z.to_nat BLCKSZ) bytes)
  end.

(** The loop over segments runs once: a transfer that crosses a segment
    boundary is an error. *)
Definition mdreadv r f (blocknum nblocks : BlockNumber) : MM (list Block) :=
  if nblocks <=? 0 then mret []
  else
    v ← getseg_or_fail r f blocknum false (Z.lor EXTENSION_FAIL EXTENSION_CREATE_RECOVERY);
    let seekpos := Z.to_nat (BLCKSZ * (blocknum mod RELSEG_SIZE)) in
    let nblocks_this_segment := Z.min (blocks_this_segment blocknum nblocks) PG_IOV_MAX in
    if negb (nblocks_this_segment =? nblocks)
    then ereport ERRCODE_INTERNAL_ERROR "read crosses segment boundary"
    else
      let size := Z.to_nat (nblocks_this_segment * BLCKSZ) in
      bytes ← read_loop (S size) (mdfd_vfd v) seekpos size [];
      mret (to_blocks (Z.to_nat nblocks) bytes).

Fixpoint write_loop (fuel : nat) (vfd : Z) (seekpos : nat) (bytes : list byte) : MM unit :=
  match fuel with
  | O => ereport ERRCODE_NONTERMINATING "mdwritev"
  | S fuel' =>
      nbytes ← sys_or (FileWriteV vfd seekpos bytes) ERRCODE_FILE_ACCESS "could not write blocks";
      if (nbytes =? length bytes)%nat then mret tt
      else write_loop fuel' vfd (seekpos + nbytes) (drop nbytes bytes)
  end.

Definition mdwritev r f (blocknum : BlockNumber) (buffers : list Block) (skipFsync : bool) : MM unit :=
  let nblocks := Z.of_nat (length buffers) in
  if nblocks <=? 0 then mret tt
  else
    v ← getseg_or_fail r f blocknum skipFsync (Z.lor EXTENSION_FAIL EXTENSION_CREATE_RECOVERY);
    let seekpos := Z.to_nat (BLCKSZ * (blocknum mod RELSEG_SIZE)) in
    let nblocks_this_segment := Z.min (blocks_this_segment blocknum nblocks) PG_IOV_MAX in
    if negb (nblocks_this_segment =? nblocks)
    then ereport ERRCODE_INTERNAL_ERROR "write crosses segment boundary"
    else
      let bytes := mjoin buffers in
      write_loop (S (length bytes)) (mdfd_vfd v) seekpos bytes;;
      if negb skipFsync && negb (RelFileLocatorBackendIsTemp r) then register_dirty_segment r f v else mret tt.

Definition mdmaxcombine (blocknum : BlockNumber) : Z := RELSEG_SIZE - blocknum mod RELSEG_SIZE.

(** The advice to the kernel changes nothing. *)
Fixpoint prefetch_loop (fuel : nat) r f (blocknum : BlockNumber) (nblocks : Z) : MM bool :=
  if nblocks <=? 0 then mret true
  else match fuel with
  | O => ereport ERRCODE_NONTERMINATING "mdprefetch"
  | S fuel' =>
      v ← _mdfd_getseg r f blocknum false (if InRecovery then EXTENSION_RETURN_NULL else EXTENSION_FAIL);
      match v with
      | None => mret false
      | Some _ =>
          let n := blocks_this_segment blocknum nblocks in
          prefetch_loop fuel' r f (blocknum +u n) (nblocks - n)
      end
  end.

Definition mdprefetch r f (blocknum : BlockNumber) (nblocks : Z) : MM bool :=
  if MaxBlockNumber + 1 <? blocknum + nblocks then mret false
  else prefetch_loop (Z.to_nat nblocks) r f blocknum nblocks.

Fixpoint writeback_loop (fuel : nat) r f (blocknum nblocks : BlockNumber) : MM unit :=
  if nblocks <=? 0 then mret tt
  else match fuel with
  | O => ereport ERRCODE_NONTERMINATING "mdwriteback"
  | S fuel' =>
      v ← _mdfd_getseg r f blocknum true EXTENSION_DONT_OPEN;
      match v with
      | None => mret tt
      | Some _ =>
          let segnum_start := blocknum / RELSEG_SIZE in
          let segnum_end := (blocknum +u nblocks -u 1) / RELSEG_SIZE in
          let nflush := if negb (segnum_start =? segnum_end) then RELSEG_SIZE - blocknum mod RELSEG_SIZE else nblocks in
          writeback_loop fuel' r f (blocknum +u nflush) (nblocks -u nflush)
      end
  end.

Definition mdwriteback r f (blocknum nblocks : BlockNumber) : MM unit :=
  writeback_loop (Z.to_nat nblocks) r f blocknum nblocks.

(** The raw descriptor is the file itself here. *)
Definition mdfd r f (blocknum : BlockNumber) : MM (Z * Z) :=
  mdopenfork r f EXTENSION_FAIL;;
  v ← getseg_or_fail r f blocknum false EXTENSION_FAIL;
  mret (mdfd_vfd v, wrap32 (BLCKSZ * (blocknum mod RELSEG_SIZE))).

(** ** Truncating *)

Fixpoint truncate_loop r f (nblocks : BlockNumber) (curopensegs : nat) : MM unit :=
  match curopensegs with
  | O => mret tt
  | S n =>
      let priorblocks := Z.of_nat n *u RELSEG_SIZE in
      v ← seg_fd r f n;
      if nblocks <? priorblocks then
        sys_or (FileTruncate (mdfd_vfd v) 0) ERRCODE_FILE_ACCESS "could not truncate file";;
        (if negb (RelFileLocatorBackendIsTemp r) then register_dirty_segment r f v else mret tt);;
        modify (λ s, set_fs (FileClose (mdfd_vfd v) (md_fs s)) s);;
        _fdvec_resize r f n;;
        truncate_loop r f nblocks n
      else if nblocks <? priorblocks +u RELSEG_SIZE then
        let lastsegblocks := nblocks -u priorblocks in
        sys_or (FileTruncate (mdfd_vfd v) (Z.to_nat (lastsegblocks * BLCKSZ))) ERRCODE_FILE_ACCESS
          "could not truncate file";;
        (if negb (RelFileLocatorBackendIsTemp r) then register_dirty_segment r f v else mret tt);;
        truncate_loop r f nblocks n
      else mret tt
  end.

Definition mdtruncate r f (curnblk nblocks : BlockNumber) : MM unit :=
  if curnblk <? nblocks then
    if InRecovery then mret tt else ereport ERRCODE_INTERNAL_ERROR "could not truncate file: it is shorter now"
  else if nblocks =? curnblk then mret tt
  else n ← num_open r f; truncate_loop r f nblocks n.

(** ** Syncing *)

(** Opens segments until one is missing; the number of the missing one. *)
Fixpoint open_inactive (fuel : nat) r f (segno : nat) : MM nat :=
  match fuel with
  | O => ereport ERRCODE_NONTERMINATING "mdimmedsync"
  | S fuel' =>
      v ← _mdfd_openseg r f segno false;
      match v with
      | (None, _) => mret segno
      | (Some _, _) => open_inactive fuel' r f (S segno)
      end
  end.

(** From the last segment down; those that were opened here are closed. *)
Fixpoint sync_segs (sync : MdfdVec → MM unit) r f (min_inactive_seg segno : nat) : MM unit :=
  match segno with
  | O => mret tt
  | S n =>
      v ← seg_fd r f n;
      sync v;;
      (if (min_inactive_seg <? segno)%nat then
         modify (λ s, set_fs (FileClose (mdfd_vfd v) (md_fs s)) s);;
         _fdvec_resize r f n
       else mret tt);;
      sync_segs sync r f min_inactive_seg n
  end.

Definition sync_relation (sync : MdfdVec → MM unit) r f : MM unit :=
  mdnblocks r f;;
  min_inactive_seg ← num_open r f;
  fuel ← gets dir_fuel;
  segno ← open_inactive fuel r f min_inactive_seg;
  sync_segs sync r f min_inactive_seg segno.

Definition mdregistersync r f : MM unit := sync_relation (register_dirty_segment r f) r f.
Definition mdimmedsync r f : MM unit :=
  sync_relation (λ v, sys_or (FileSync (mdfd_vfd v)) ERRCODE_FILE_ACCESS "could not fsync file") r f.

(** 0, or -1 with an errno; the checkpointer's calls. *)
Definition mdsyncfiletag (ftag : FileTag) : MM (errno + unit) :=
  let r := {| locator := tag_rlocator ftag; backend := INVALID_PROC_NUMBER |} in
  let f := tag_forknum ftag in
  n ← num_open r f;
  if (Z.to_nat (tag_segno ftag) <? n)%nat then
    v ← seg_fd r f (Z.to_nat (tag_segno ftag)); on_sys (FileSync (mdfd_vfd v))
  else
    file ← on_sys (PathNameOpenFile (_mdfd_segpath r f (tag_segno ftag)) false false);
    match file with
    | inl e => mret (inl e)
    | inr file =>
        result ← on_sys (FileSync file);
        modify (λ s, set_fs (FileClose file (md_fs s)) s);;
        mret result
    end.

Definition mdunlinkfiletag (ftag : FileTag) : MM (errno + unit) :=
  on_sys (unlink (relpath version_dir {| locator := tag_rlocator ftag; backend := INVALID_PROC_NUMBER |} MAIN_FORKNUM)).

(** ** Unlinking *)

(** Failures are warnings: the result is kept, never raised. *)
Definition do_truncate (path : string) : MM (errno + unit) := on_sys (pg_truncate path 0).

Definition is_enoent (ret : errno + unit) : bool := match ret with inl ENOENT => true | _ => false end.

(** Segments 1, 2, ... until one is missing or cannot be removed. *)
Fixpoint unlink_segs (fuel : nat) r f (segno : nat) : MM unit :=
  match fuel with
  | O => ereport ERRCODE_NONTERMINATING "mdunlinkfork"
  | S fuel' =>
      let segpath := relpath version_dir r f +:+ "." +:+ fmt_u (Z.of_nat segno) in
      stop ← (if negb (RelFileLocatorBackendIsTemp r) then
                ret ← do_truncate segpath;
                if is_enoent ret then mret true
                else register_forget_request r f (Z.of_nat segno);; mret false
              else mret false);
      if stop : bool then mret tt
      else
        ret ← on_sys (unlink segpath);
        match ret with
        | inl _ => mret tt
        | inr _ => unlink_segs fuel' r f (S segno)
        end
  end.

Definition mdunlinkfork r f (isRedo : bool) : MM unit :=
  let path := relpath version_dir r f in
  ret ←
    (if isRedo || IsBinaryUpgrade || negb (bool_decide (f = MAIN_FORKNUM)) || fastpg_immediate_unlink ||
        RelFileLocatorBackendIsTemp r
     then
       ret ← (if negb (RelFileLocatorBackendIsTemp r)
              then ret ← do_truncate path; register_forget_request r f 0;; mret ret
              else mret (inr tt));
       if negb (is_enoent ret) then on_sys (unlink path) else mret ret
     else
       ret ← do_truncate path;
       register_unlink_segment r f 0;;
       mret ret);
  if negb (is_enoent ret) then fuel ← gets dir_fuel; unlink_segs fuel r f 1 else mret tt.

Definition mdunlink r f (isRedo : bool) : MM unit :=
  if bool_decide (f = InvalidForkNumber)
  then for_each all_forks (λ f, mdunlinkfork r f isRedo)
  else mdunlinkfork r f isRedo.

(** ** Completion of asynchronous reads *)

Inductive PgAioResultStatus : Type := PGAIO_RS_UNKNOWN | PGAIO_RS_OK | PGAIO_RS_PARTIAL | PGAIO_RS_WARNING | PGAIO_RS_ERROR.

Record PgAioResult : Type := {
  aio_status : PgAioResultStatus;
  aio_error_data : Z;
  aio_result : Z;
}.

(** [nblocks] is that of the I/O's target; the report to the log is left out. *)
Definition md_readv_complete (nblocks : Z) (prior_result : PgAioResult) : PgAioResult :=
  if aio_result prior_result <? 0 then
    {| aio_status := PGAIO_RS_ERROR; aio_error_data := - aio_result prior_result; aio_result := 0 |}
  else
    let blocks := aio_result prior_result / BLCKSZ in
    if blocks =? 0 then {| aio_status := PGAIO_RS_ERROR; aio_error_data := 0; aio_result := blocks |}
    else
      let error := match aio_status prior_result with PGAIO_RS_ERROR => true | _ => false end in
      if negb error && (blocks <? nblocks)
      then {| aio_status := PGAIO_RS_PARTIAL; aio_error_data := aio_error_data prior_result; aio_result := blocks |}
      else {| aio_status := aio_status prior_result; aio_error_data := aio_error_data prior_result;
              aio_result := blocks |}.
End md.
End Md.
