(* ===== verification/MdInv.v ===== *)
(** * MdInv: segment files and open segments

    How the blocks of a fork are laid out in segment files, the invariant of
    the state of md.c, and what its internal functions do to the files: opening
    and closing segments, measuring and writing one. *)

From Stdlib Require Import ZArith Lia Bool Strings.Byte.
From stdpp Require Import base tactics numbers list gmap strings pretty.
From S2P Require Import Prelude RelPath MemSmgr MemSmgrRefine Md FileSys.
Import Md.

Local Open Scope Z_scope.
Local Open Scope pg_scope.

Module MdInv.

(** ** Blocks in files *)

Section blocks.
Context {env : Env} {mde : MdEnv}.
Implicit Types (l bufs : list Block).

Definition B : nat := Z.to_nat BLCKSZ.
Definition RS : nat := Z.to_nat RELSEG_SIZE.
Definition blocks_ok l : Prop := Forall (λ b, length b = B) l.

Lemma B_pos : (0 < B)%nat.
Proof. pose proof BLCKSZ_pos. unfold B. lia. Qed.
Lemma RS_pos : (0 < RS)%nat.
Proof. pose proof RELSEG_SIZE_range. unfold RS. lia. Qed.
Lemma RS_Z : Z.of_nat RS = RELSEG_SIZE.
Proof. pose proof RELSEG_SIZE_range. unfold RS. lia. Qed.
Lemma B_Z : Z.of_nat B = BLCKSZ.
Proof. pose proof BLCKSZ_pos. unfold B. lia. Qed.

Lemma zero_block_ok n : blocks_ok (replicate n zero_block).
Proof. apply Forall_replicate. apply repeat_length. Qed.
Lemma blocks_ok_app l1 l2 : blocks_ok (l1 ++ l2) ↔ blocks_ok l1 ∧ blocks_ok l2.
Proof. apply Forall_app. Qed.
Lemma blocks_ok_take n l : blocks_ok l → blocks_ok (take n l).
Proof. apply Forall_take. Qed.
Lemma blocks_ok_drop n l : blocks_ok l → blocks_ok (drop n l).
Proof. apply Forall_drop. Qed.

Lemma length_mjoin l : blocks_ok l → length (mjoin l) = (length l * B)%nat.
Proof. induction 1 as [|b l Hb _ IH]; [done|]. simpl. rewrite length_app, IH. lia. Qed.
Lemma mjoin_app l1 l2 : mjoin (l1 ++ l2) = mjoin l1 ++ mjoin l2.
Proof. induction l1 as [|b l1 IH]; [done|]. simpl. by rewrite IH, app_assoc. Qed.
Lemma take_mjoin n l : blocks_ok l → take (n * B) (mjoin l) = mjoin (take n l).
Proof.
  intros Hl. rewrite <- (take_drop n l) at 1. rewrite mjoin_app.
  pose proof (length_mjoin _ (blocks_ok_take n l Hl)) as Hlen. rewrite length_take in Hlen.
  destruct (decide (n <= length l)%nat).
  - rewrite take_app_le by nia. apply take_ge. nia.
  - rewrite (drop_ge l) by lia. simpl. rewrite app_nil_r, take_ge; [done|nia].
Qed.
Lemma drop_mjoin n l : blocks_ok l → drop (n * B) (mjoin l) = mjoin (drop n l).
Proof.
  intros Hl. rewrite <- (take_drop n l) at 1. rewrite mjoin_app.
  pose proof (length_mjoin _ (blocks_ok_take n l Hl)) as Hlen. rewrite length_take in Hlen.
  destruct (decide (n <= length l)%nat).
  - rewrite drop_app_ge by nia. replace (n * B - _)%nat with 0%nat by nia. done.
  - rewrite (drop_ge l) by lia. simpl. rewrite app_nil_r. apply drop_ge. nia.
Qed.
Lemma zero_block_zeros : zero_block = zeros B.
Proof. unfold zero_block, zeros, B. induction (Z.to_nat BLCKSZ) as [|n IH]; [done|]. simpl. by rewrite IH. Qed.
Lemma mjoin_zeros n : mjoin (replicate n zero_block) = zeros (n * B).
Proof.
  induction n as [|n IH]; [done|]. simpl. rewrite IH, zero_block_zeros. unfold zeros. by rewrite <- replicate_add.
Qed.

Lemma to_blocks_mjoin l : blocks_ok l → to_blocks (length l) (mjoin l) = l.
Proof.
  induction 1 as [|b l Hb _ IH]; [done|]. simpl. change (Z.to_nat BLCKSZ) with B. rewrite <- Hb.
  rewrite take_app_length, drop_app_length. by rewrite IH.
Qed.

(** Writing whole blocks at a block position. *)
Lemma pwrite_blocks l b bufs :
  blocks_ok l → blocks_ok bufs → bufs ≠ [] →
  pwrite (mjoin l) (b * B) (mjoin bufs) = mjoin (spec_write (Some l) b bufs).
Proof.
  intros Hl Hb Hne. pose proof B_pos. unfold pwrite.
  assert (length (mjoin bufs) = length bufs * B)%nat as Hlen by by apply length_mjoin.
  destruct (mjoin bufs) as [|x0 bs] eqn:E.
  { destruct bufs; [done|]. simpl in Hlen. nia. }
  rewrite <- E in *. unfold spec_write. simpl default. rewrite !mjoin_app. f_equal; [|f_equal].
  - rewrite <- take_mjoin.
    2:{ apply blocks_ok_app. split; [done|apply zero_block_ok]. }
    rewrite mjoin_app, mjoin_zeros, length_mjoin by done. f_equal. f_equal. f_equal. nia.
  - rewrite Hlen. replace (b * B + length bufs * B)%nat with ((b + length bufs) * B)%nat by lia.
    rewrite drop_mjoin by done. destruct (decide (b + length bufs <= length l)%nat) as [Hle|Hgt].
    + f_equal. rewrite drop_app_le by done. replace (b - length l)%nat with 0%nat by lia. simpl. by rewrite app_nil_r.
    + rewrite !drop_ge; [done| |lia]. rewrite length_app, length_replicate. destruct bufs; [done|]. simpl in *. lia.
Qed.

Lemma ftruncate_blocks l n :
  blocks_ok l → (n <= length l)%nat → ftruncate (mjoin l) (n * B) = mjoin (take n l).
Proof.
  intros Hl Hn. unfold ftruncate. rewrite length_mjoin by done.
  replace (n * B - length l * B)%nat with 0%nat by nia. simpl. by rewrite app_nil_r, take_mjoin.
Qed.

(** ** Blocks of one segment *)

Definition seg_blocks l (k : nat) : list Block := take RS (drop (k * RS) l).

Lemma seg_blocks_ok l k : blocks_ok l → blocks_ok (seg_blocks l k).
Proof. intros H. by apply blocks_ok_take, blocks_ok_drop. Qed.
Lemma seg_blocks_length l k : length (seg_blocks l k) = (RS `min` (length l - k * RS))%nat.
Proof. unfold seg_blocks. by rewrite length_take, length_drop. Qed.
Lemma seg_blocks_nil l k : (length l <= k * RS)%nat → seg_blocks l k = [].
Proof. intros H. unfold seg_blocks. rewrite drop_ge by done. by rewrite take_nil. Qed.
Lemma seg_blocks_lookup l k i : (i < RS)%nat → seg_blocks l k !! i = l !! (k * RS + i)%nat.
Proof. intros H. unfold seg_blocks. by rewrite lookup_take_lt, lookup_drop. Qed.

Lemma spec_write_length l b bufs :
  (length (spec_write (Some l) b bufs) = (b + length bufs) `max` length l)%nat.
Proof.
  unfold spec_write. simpl. rewrite !length_app, length_take, length_drop, length_app, length_replicate. lia.
Qed.

Lemma spec_write_lookup l b bufs i :
  spec_write (Some l) b bufs !! i =
    if decide (b <= i < b + length bufs)%nat then bufs !! (i - b)%nat
    else if decide (i < b)%nat then (if decide (i < length l)%nat then l !! i else Some zero_block)
    else l !! i.
Proof.
  unfold spec_write. simpl.
  assert (length (take b (l ++ replicate (b - length l) zero_block)) = b) as Hb.
  { rewrite length_take, length_app, length_replicate. lia. }
  repeat case_decide.
  - rewrite lookup_app_r by lia. rewrite Hb, lookup_app_l by lia. done.
  - rewrite lookup_app_l by lia. rewrite lookup_take_lt by lia. by rewrite lookup_app_l.
  - rewrite lookup_app_l by lia. rewrite lookup_take_lt by lia. rewrite lookup_app_r by lia.
    rewrite lookup_replicate_2; [done|lia].
  - rewrite lookup_app_r by lia. rewrite Hb, lookup_app_r by lia. rewrite lookup_drop.
    replace (b + length bufs + (i - b - length bufs))%nat with i by lia.
    destruct (decide (i < length l)%nat); [by rewrite lookup_app_l|].
    rewrite lookup_ge_None_2, lookup_ge_None_2; [done|lia|]. rewrite length_app, length_replicate. lia.
Qed.

Lemma blocks_ok_write l b bufs : blocks_ok l → blocks_ok bufs → blocks_ok (spec_write (Some l) b bufs).
Proof.
  intros Hl Hb. unfold spec_write. simpl. apply blocks_ok_app. split.
  - apply blocks_ok_take, blocks_ok_app. split; [done|apply zero_block_ok].
  - apply blocks_ok_app. split; [done|]. apply blocks_ok_drop, blocks_ok_app. split; [done|apply zero_block_ok].
Qed.

(** A write inside a segment that is reached changes that segment only. *)
Lemma seg_blocks_write l k off bufs j :
  (k * RS <= length l)%nat → (off + length bufs <= RS)%nat → bufs ≠ [] →
  seg_blocks (spec_write (Some l) (k * RS + off) bufs) j =
    if decide (j = k) then spec_write (Some (seg_blocks l k)) off bufs else seg_blocks l j.
Proof.
  intros Hk Hoff Hne. assert (0 < length bufs)%nat by (destruct bufs; [done|simpl; lia]). pose proof RS_pos.
  apply list_eq. intros i. destruct (decide (i < RS)%nat) as [Hi|Hi].
  2:{ transitivity (@None Block); [apply lookup_ge_None_2; rewrite seg_blocks_length; lia|symmetry].
      apply lookup_ge_None_2. case_decide.
      - rewrite spec_write_length, seg_blocks_length. lia.
      - rewrite seg_blocks_length. lia. }
  rewrite seg_blocks_lookup by done. rewrite spec_write_lookup. destruct (decide (j = k)) as [->|Hj].
  - rewrite spec_write_lookup, seg_blocks_length.
    destruct (decide (off <= i < off + length bufs)%nat).
    { rewrite decide_True by lia. f_equal. lia. }
    rewrite (decide_False (P := (k * RS + off <= k * RS + i < _)%nat)) by lia.
    destruct (decide (i < off)%nat).
    + rewrite decide_True by lia. destruct (decide (k * RS + i < length l)%nat).
      * rewrite decide_True by lia. by rewrite seg_blocks_lookup.
      * by rewrite decide_False by lia.
    + rewrite decide_False by lia. by rewrite seg_blocks_lookup.
  - rewrite seg_blocks_lookup by done.
    assert (j < k ∨ k < j)%nat as [Hlt|Hgt] by lia.
    + assert ((j + 1) * RS <= k * RS)%nat by (apply Nat.mul_le_mono_r; lia).
      rewrite decide_False by lia. rewrite decide_True by lia. by rewrite decide_True by lia.
    + assert ((k + 1) * RS <= j * RS)%nat by (apply Nat.mul_le_mono_r; lia).
      rewrite decide_False by lia. by rewrite decide_False by lia.
Qed.

Lemma seg_blocks_take l n k : seg_blocks (take n l) k = take (n - k * RS) (seg_blocks l k).
Proof.
  unfold seg_blocks. rewrite skipn_firstn_comm, !take_take. f_equal. lia.
Qed.

(** Padding up to the start of segment [k] fills the segments before it. *)
Definition padded l (n : nat) : list Block := l ++ replicate (n - length l) zero_block.
Lemma padded_length l n : length (padded l n) = (length l `max` n)%nat.
Proof. unfold padded. rewrite length_app, length_replicate. lia. Qed.
Lemma padded_id l n : (n <= length l)%nat → padded l n = l.
Proof. intros H. unfold padded. replace (n - length l)%nat with 0%nat by lia. apply app_nil_r. Qed.
Lemma padded_padded l n m : (n <= m)%nat → padded (padded l n) m = padded l m.
Proof.
  intros H. unfold padded. rewrite length_app, length_replicate, <- app_assoc, <- replicate_add. f_equal. f_equal. lia.
Qed.
Lemma padded_write l n : (length l < n)%nat → spec_write (Some l) (n - 1) [zero_block] = padded l n.
Proof.
  intros H. unfold spec_write, padded. simpl. rewrite take_ge.
  2:{ rewrite length_app, length_replicate. lia. }
  rewrite drop_ge.
  2:{ rewrite length_app, length_replicate. simpl. lia. }
  rewrite <- app_assoc. f_equal. replace (n - length l)%nat with ((n - 1 - length l) + 1)%nat by lia.
  by rewrite replicate_add.
Qed.
Lemma spec_write_padded l n b bufs : (n <= b)%nat → spec_write (Some (padded l n)) b bufs = spec_write (Some l) b bufs.
Proof.
  intros H. apply list_eq. intros i. rewrite !spec_write_lookup, padded_length. repeat case_decide; try done; try lia.
  - unfold padded. by rewrite lookup_app_l.
  - unfold padded. rewrite lookup_app_r by lia. rewrite lookup_replicate_2; [done|lia].
  - unfold padded. destruct (decide (i < length l)%nat); [by rewrite lookup_app_l|].
    rewrite lookup_app_r by lia. rewrite !lookup_ge_None_2; [done|lia|]. rewrite length_replicate. lia.
Qed.
Lemma blocks_ok_padded l n : blocks_ok l → blocks_ok (padded l n).
Proof. intros H. apply blocks_ok_app. split; [done|apply zero_block_ok]. Qed.
End blocks.

(** ** The state *)

Section state.
Context {env : Env} {mde : MdEnv}.
Implicit Types (r : RelFileLocatorBackend) (f : ForkNumber) (s : MdState) (v : MdfdVec).

Definition path r f (k : nat) : string := _mdfd_segpath r f (Z.of_nat k).
Definition seg r f (k : nat) s : option (list byte) := file_at (path r f k) (md_fs s).

Lemma string_app_self (a b : string) : a = a +:+ b → b = "".
Proof. intros E. apply (string_app_inj_l a). by rewrite <- E, string_app_nil_r. Qed.

Lemma path_inj r f j k : path r f j = path r f k → j = k.
Proof.
  unfold path, _mdfd_segpath. destruct (Z.ltb_spec 0 (Z.of_nat j)), (Z.ltb_spec 0 (Z.of_nat k)); intros E; [|..|lia].
  - apply string_app_inj_l, string_app_inj_l, fmt_u_inj in E; lia.
  - symmetry in E. by apply string_app_self in E.
  - by apply string_app_self in E.
Qed.

Definition valid_fork r f : Prop := valid_locator r ∧ f ≠ InvalidForkNumber.

(** Forks of valid relations have different files. *)
Lemma path_valid_inj r f j r' f' k :
  valid_fork r f → valid_fork r' f' → path r f j = path r' f' k → (r, f, j) = (r', f', k).
Proof.
  intros [H1 H2] [H3 H4]. unfold path, _mdfd_segpath.
  assert (∀ r0 f0 (i : nat), (if 0 <? Z.of_nat i then relpath version_dir r0 f0 +:+ "." +:+ fmt_u (Z.of_nat i)
    else relpath version_dir r0 f0) =
    relpath version_dir r0 f0 +:+ (if 0 <? Z.of_nat i then "." +:+ fmt_u (Z.of_nat i) else "")) as E.
  { intros r0 f0 i. destruct (0 <? Z.of_nat i); [done|by rewrite string_app_nil_r]. }
  rewrite !E. intros Hp. apply relpath_app_inj in Hp as (<- & <- & Hk); [|done..|by destruct (0 <? Z.of_nat j)
    |by destruct (0 <? Z.of_nat k)]. f_equal.
  destruct (Z.ltb_spec 0 (Z.of_nat j)), (Z.ltb_spec 0 (Z.of_nat k)); [|done|done|lia].
  apply string_app_inj_l, fmt_u_inj in Hk; lia.
Qed.

(** Open segments are numbered from 0, open on the segment's file, and no two
    share a descriptor. *)
Record md_ok s : Prop := {
  mo_fs : fs_ok (md_fs s);
  mo_open r f i v : open_segs r f s !! i = Some v →
    mdfd_segno v = Z.of_nat i ∧ handle (mdfd_vfd v) (path r f i) (md_fs s);
  mo_inj r f i v r' f' i' v' : open_segs r f s !! i = Some v → open_segs r' f' s !! i' = Some v' →
    mdfd_vfd v = mdfd_vfd v' → (r, f, i) = (r', f', i');
  mo_valid r f : open_segs r f s ≠ [] → valid_fork r f;
}.

(** From [s] to [s'] only files and open segments of fork [f] of [r] change; no
    request made of the checkpointer is taken back. *)
Record only r f s s' : Prop := {
  on_ok : md_ok s';
  on_files q : (∀ k, q ≠ path r f k) → file_at q (md_fs s') = file_at q (md_fs s);
  on_open r' f' : (r', f') ≠ (r, f) → open_segs r' f' s' = open_segs r' f' s;
  on_sched : keeps_schedule (md_fs s) (md_fs s');
  on_requests : md_requests s `prefix_of` md_requests s';
}.

Lemma only_trans r f s1 s2 s3 : only r f s1 s2 → only r f s2 s3 → only r f s1 s3.
Proof.
  intros [? A1 A2 A3 A4] [? B1 B2 B3 B4]. constructor; [done| | |by etrans|by etrans].
  - intros q Hq. by rewrite B1, A1.
  - intros r' f' Hne. by rewrite B2, A2.
Qed.

(** ** Calls on files *)

Lemma on_sys_run {A} (c : Sys A) s a x : c (md_fs s) = (a, x) → on_sys c s = (Ok a, set_fs x s).
Proof. intros H. unfold on_sys. by rewrite H. Qed.
Lemma sys_or_run {A} (c : Sys A) code msg s a x :
  c (md_fs s) = (inr a, x) → sys_or c code msg s = (Ok a, set_fs x s).
Proof. intros H. unfold sys_or. by rewrite (M_bind_run _ _ _ _ _ (on_sys_run c s _ _ H)). Qed.

(** A call that changes one segment file. *)
Lemma touched_only r f k s x :
  md_ok s → touches (path r f k) (md_fs s) x →
  only r f s (set_fs x s) ∧ (∀ j, j ≠ k → seg r f j (set_fs x s) = seg r f j s) ∧
  open_segs r f (set_fs x s) = open_segs r f s.
Proof.
  intros [H1 H2 H3 H4] [T1 T2 T3 T4 T5]. split_and!; [|intros j Hj; apply T3; by intros E%path_inj|done].
  constructor; [|intros q Hq; by apply T3|done|done|done].
  constructor; [done| |done|done]. intros r' f' i v Hv. destruct (H2 _ _ _ _ Hv). split; [done|]. by apply T4.
Qed.

(** ... and one that changes none. *)
Lemma pop_only r f s :
  md_ok s → only r f s (set_fs (pop (md_fs s)) s) ∧
  (∀ j, seg r f j (set_fs (pop (md_fs s)) s) = seg r f j s).
Proof.
  intros H. destruct (touched_only r f 0 s (pop (md_fs s))) as (A1 & A2 & A3); [done|apply touches_pop, H|].
  split; [done|]. intros j. unfold seg. simpl. apply file_at_pop.
Qed.

(** Requests to the checkpointer change no file. *)
Lemma request_only r f q s : md_ok s → only r f s (add_request q s).
Proof. intros []. constructor; [done..|by apply prefix_app_r]. Qed.

(** ** The array of open segments *)

Lemma open_segs_set r f l s : open_segs r f (set_open (<[(r, f) := l]> (md_open s)) s) = l.
Proof. unfold open_segs. simpl. by rewrite lookup_insert_eq. Qed.
Lemma open_segs_set_ne r f l s r' f' :
  (r', f') ≠ (r, f) → open_segs r' f' (set_open (<[(r, f) := l]> (md_open s)) s) = open_segs r' f' s.
Proof. intros Hne. unfold open_segs. simpl. by rewrite lookup_insert_ne. Qed.

Definition with_segs r f l s : MdState := set_open (<[(r, f) := l]> (md_open s)) s.

(** Adding the next segment. *)
Lemma append_run {A} r f v s (k : M MdState A) :
  (_fdvec_resize r f (S (length (open_segs r f s)));; seg_fill r f (length (open_segs r f s)) v;; k) s =
    k (with_segs r f (open_segs r f s ++ [v]) s).
Proof.
  unfold _fdvec_resize, seg_fill, modify, mbind, M_bind. cbv beta iota. f_equal.
  rewrite open_segs_set. unfold with_segs, set_open. simpl. f_equal.
  rewrite insert_insert_eq. f_equal. set (l := open_segs r f s).
  replace (S (length l) - length l)%nat with 1%nat by lia.
  rewrite take_ge by (rewrite length_app; simpl; lia). rewrite insert_app_r_alt by lia.
  by rewrite Nat.sub_diag.
Qed.

(** Dropping the last segments. *)
Lemma resize_run r f n s :
  (n <= length (open_segs r f s))%nat →
  _fdvec_resize r f n s = (Ok tt, with_segs r f (take n (open_segs r f s)) s).
Proof.
  intros H. unfold _fdvec_resize, modify, with_segs. replace (n - _)%nat with 0%nat by lia. simpl. by rewrite app_nil_r.
Qed.

Lemma seg_fd_run r f i v s : open_segs r f s !! i = Some v → seg_fd r f i s = (Ok v, s).
Proof. intros H. unfold seg_fd, gets. by rewrite H. Qed.

(** A segment opened on its file. *)
Lemma append_only r f v s fd x :
  md_ok s → valid_fork r f → only r f s (set_fs x s) → fs_next (md_fs s) <= fd →
  handle fd (path r f (length (open_segs r f s))) x →
  v = {| mdfd_vfd := fd; mdfd_segno := Z.of_nat (length (open_segs r f s)) |} →
  only r f s (with_segs r f (open_segs r f s ++ [v]) (set_fs x s)).
Proof.
  intros Hok Hval Ho Hfd Hh ->. pose proof Ho as [[F1 F2 F3 F4] A2 A3 A4 A5].
  assert (∀ r' f' i v', open_segs r' f' s !! i = Some v' → mdfd_vfd v' < fd) as Hfresh.
  { intros r' f' i v' Hv. apply (mo_open _ Hok) in Hv as [_ (ino & Hv & _)]. apply (fs_vfd_fresh _ (mo_fs _ Hok)) in Hv. lia. }
  set (v := {| mdfd_vfd := fd; mdfd_segno := _ |}).
  assert (∀ r' f' i v', open_segs r' f' (with_segs r f (open_segs r f s ++ [v]) (set_fs x s)) !! i = Some v' →
    open_segs r' f' s !! i = Some v' ∨ (r', f') = (r, f) ∧ i = length (open_segs r f s) ∧ v' = v) as Hcase.
  { intros r' f' i v'. unfold with_segs. destruct (decide ((r', f') = (r, f))) as [[= -> ->]|Hne].
    - rewrite open_segs_set. intros [?|[? E]]%lookup_app_Some; [by left|right]. split_and!; [done| |].
      + apply lookup_lt_Some in E. simpl in E. lia.
      + apply list_lookup_singleton_Some in E. by destruct E.
    - rewrite open_segs_set_ne by done. by left. }
  constructor; [|done| |done|done].
  - constructor; [done| | |].
    + intros r' f' i v' [Hv|([= -> ->] & -> & ->)]%Hcase; [by apply F2|done].
    + intros r1 f1 i1 v1 r2 f2 i2 v2 [H1|(E1 & -> & ->)]%Hcase [H2|(E2 & -> & ->)]%Hcase E; [by eapply F3|..].
      * apply Hfresh in H1. simpl in E. lia.
      * apply Hfresh in H2. simpl in E. lia.
      * by simplify_eq.
    + intros r' f'. unfold with_segs. destruct (decide ((r', f') = (r, f))) as [[= -> ->]|Hne]; [done|].
      rewrite open_segs_set_ne by done. apply F4.
  - intros r' f' Hne. unfold with_segs. by rewrite open_segs_set_ne.
Qed.
End state.
End MdInv.
