(* ===== verification/MdRefine.v ===== *)
(** * MdRefine: forks on disk as lists of blocks

    [fork_files] relates the segment files of a fork to its blocks; the lemmas
    follow md.c from opening a segment to finding, measuring and writing one,
    on schedules without failures. *)

From Stdlib Require Import ZArith Lia Bool Strings.Byte.
From stdpp Require Import base tactics numbers list gmap strings pretty.
From S2P Require Import Prelude RelPath MemSmgr MemSmgrRefine Md FileSys MdInv.
Import Md MdInv.

Local Open Scope Z_scope.
Local Open Scope pg_scope.

Module MdRefine.

Section refine.
Context {env : Env} {mde : MdEnv}.
Implicit Types (r : RelFileLocatorBackend) (f : ForkNumber) (s : MdState) (v : MdfdVec) (l bufs : list Block).

(** The fork has the blocks [l], in [n] segment files; segments beyond the
    blocks are empty, and none of those beyond the first of them is open. *)
Record fork_files r f (n : nat) l s : Prop := {
  ff_cover : (length l <= n * RS)%nat;
  ff_pos : (0 < n)%nat;
  ff_blocks : blocks_ok l;
  ff_segs k : (k < n)%nat → seg r f k s = Some (mjoin (seg_blocks l k));
  ff_none k : (n <= k)%nat → seg r f k s = None;
  ff_open : (length (open_segs r f s) <= S (length l / RS))%nat;
  ff_max : Z.of_nat (length l) <= InvalidBlockNumber;
  ff_valid : valid_fork r f;
}.

(** From [s] to [s'] the fork and its open segments stay. *)
Record stays r f n l s s' : Prop := {
  st_only : only r f s s';
  st_fork : fork_files r f n l s';
  st_open : open_segs r f s' = open_segs r f s;
}.

Lemma stays_trans r f n l s1 s2 s3 : stays r f n l s1 s2 → stays r f n l s2 s3 → stays r f n l s1 s3.
Proof. intros [] []. constructor; [by eapply only_trans|done|congruence]. Qed.

Lemma fork_files_ext r f n l s s' :
  fork_files r f n l s → (∀ k, seg r f k s' = seg r f k s) →
  (length (open_segs r f s') <= S (length l / RS))%nat → fork_files r f n l s'.
Proof. intros [] E Ho. constructor; try done; intros k Hk; rewrite E; auto. Qed.

Lemma pop_stays r f n l s : md_ok s → fork_files r f n l s → stays r f n l s (set_fs (pop (md_fs s)) s).
Proof.
  intros Hok Hf. destruct (pop_only r f s Hok) as [H1 H2]. constructor; [done| |done].
  eapply fork_files_ext; [done|done|]. apply Hf.
Qed.

(** ** Open segments are among the files *)

Lemma open_seg r f n l s k v :
  md_ok s → fork_files r f n l s → open_segs r f s !! k = Some v →
  (k < n)%nat ∧ (k * RS <= length l)%nat ∧ mdfd_segno v = Z.of_nat k ∧ handle (mdfd_vfd v) (path r f k) (md_fs s) ∧
  seg r f k s = Some (mjoin (seg_blocks l k)).
Proof.
  intros Hok Hf Hv. destruct (mo_open _ Hok _ _ _ _ Hv) as [Hn Hh].
  assert (k < n)%nat as Hk.
  { destruct (decide (k < n)%nat); [done|exfalso]. pose proof (ff_none _ _ _ _ _ Hf k) as Hz.
    destruct Hh as (ino & _ & Hd). destruct (fs_dir_data _ (mo_fs _ Hok) _ _ Hd) as [c Hc].
    unfold seg, file_at in Hz. rewrite Hd in Hz. simpl in Hz. rewrite Hc in Hz. specialize (Hz ltac:(lia)). done. }
  split_and!; try done; [|by apply Hf]. pose proof (ff_open _ _ _ _ _ Hf). apply lookup_lt_Some in Hv.
  pose proof RS_pos. pose proof (Nat.div_mod (length l) RS). assert (k <= length l / RS)%nat by lia. nia.
Qed.

Lemma open_count r f n l s : md_ok s → fork_files r f n l s → (length (open_segs r f s) <= n)%nat.
Proof.
  intros Hok Hf. destruct (length (open_segs r f s)) as [|m] eqn:E; [lia|].
  destruct (lookup_lt_is_Some_2 (open_segs r f s) m) as [v Hv]; [lia|].
  destruct (open_seg _ _ _ _ _ _ _ Hok Hf Hv). lia.
Qed.

(** ** Opening the next segment *)

Lemma openseg_next r f n l s o_creat :
  let k := length (open_segs r f s) in
  md_ok s → calm (md_fs s) → fork_files r f n l s → (k < n)%nat → (k * RS <= length l)%nat →
  ∃ v s', _mdfd_openseg r f k o_creat s = (Ok (Some v, None), s') ∧ only r f s s' ∧
    fork_files r f n l s' ∧ open_segs r f s' = open_segs r f s ++ [v].
Proof.
  intros k Hok Hc Hf Hk Hact. unfold _mdfd_openseg.
  destruct (PathNameOpenFile_old (path r f k) (md_fs s) (mjoin (seg_blocks l k)) o_creat) as
    (fd & x & Ho & Ht & Hx & Hh & Hfd); [done|apply Hok|by apply Hf|].
  rewrite (M_bind_run _ _ _ _ _ (on_sys_run _ s _ _ Ho)).
  destruct (touched_only r f k s x Hok Ht) as (Hon & Hseg & Hos). subst k.
  change (length (open_segs r f s)) with (length (open_segs r f (set_fs x s))). rewrite append_run, Hos.
  do 2 eexists. split; [reflexivity|]. split_and!.
  - eapply append_only; [done|apply Hf|done|apply Hfd|done|done].
  - eapply fork_files_ext; [done| |].
    + intros j. destruct (decide (j = length (open_segs r f s))) as [->|Hj]; [|by apply Hseg].
      transitivity (Some (mjoin (seg_blocks l (length (open_segs r f s))))); [exact Hx|by symmetry; apply Hf].
    + unfold with_segs. rewrite open_segs_set, length_app. simpl. pose proof RS_pos.
      assert (length (open_segs r f s) <= length l / RS)%nat by (apply Nat.div_le_lower_bound; lia). lia.
  - unfold with_segs. by rewrite open_segs_set.
Qed.

Lemma openseg_new r f n l s :
  md_ok s → calm (md_fs s) → fork_files r f n l s → length (open_segs r f s) = n → (n * RS <= length l)%nat →
  ∃ v s', _mdfd_openseg r f n true s = (Ok (Some v, None), s') ∧ only r f s s' ∧
    fork_files r f (S n) l s' ∧ open_segs r f s' = open_segs r f s ++ [v].
Proof.
  intros Hok Hc Hf Hn Hfull. unfold _mdfd_openseg.
  destruct (PathNameOpenFile_new (path r f n) (md_fs s) false) as
    (fd & x & Ho & Ht & Hx & Hh & Hfd); [done|apply Hok|by apply Hf|].
  rewrite (M_bind_run _ _ _ _ _ (on_sys_run _ s _ _ Ho)).
  destruct (touched_only r f n s x Hok Ht) as (Hon & Hseg & Hos). subst n.
  change (length (open_segs r f s)) with (length (open_segs r f (set_fs x s))). rewrite append_run, Hos.
  do 2 eexists. split; [reflexivity|]. split_and!.
  - eapply append_only; [done|apply Hf|done|apply Hfd|done|done].
  - destruct Hf as [F1 F2 F3 F4 F5 F6 F7 F8]. constructor; [lia|lia|done| | | |done|done].
    + intros k Hk. destruct (decide (k = length (open_segs r f s))) as [->|Hj].
      * rewrite seg_blocks_nil by lia. exact Hx.
      * transitivity (seg r f k s); [by apply Hseg|apply F4; lia].
    + intros k Hk. transitivity (seg r f k s); [apply Hseg; lia|apply F5; lia].
    + unfold with_segs. rewrite open_segs_set, length_app. simpl. pose proof RS_pos.
      assert (length (open_segs r f s) <= length l / RS)%nat by (apply Nat.div_le_lower_bound; lia). lia.
  - unfold with_segs. by rewrite open_segs_set.
Qed.

Lemma openseg_missing r f n l s :
  md_ok s → calm (md_fs s) → fork_files r f n l s →
  _mdfd_openseg r f n false s = (Ok (None, Some ENOENT), set_fs (pop (md_fs s)) s).
Proof.
  intros Hok Hc Hf. unfold _mdfd_openseg.
  rewrite (M_bind_run _ _ _ (inl ENOENT) (set_fs (pop (md_fs s)) s)); [done|]. apply on_sys_run.
  apply PathNameOpenFile_missing; [done| |apply Hok]. by apply (ff_none _ _ _ _ _ Hf n).
Qed.

(** ** Using an open segment *)

Section segment.
Context r f n l s k v (Hok : md_ok s) (Hc : calm (md_fs s)) (Hf : fork_files r f n l s)
  (Hv : open_segs r f s !! k = Some v).

Lemma mdnblocks_run :
  _mdnblocks v s = (Ok (Z.of_nat (length (seg_blocks l k))), set_fs (pop (md_fs s)) s).
Proof.
  destruct (open_seg _ _ _ _ _ _ _ Hok Hf Hv) as (_ & _ & _ & Hh & Hs). unfold _mdnblocks.
  rewrite (M_bind_run _ _ _ _ _ (sys_or_run _ _ _ _ _ _ (FileSize_run _ _ _ _ Hc Hh Hs))).
  unfold mret, M_ret. f_equal. f_equal. rewrite length_mjoin by apply seg_blocks_ok, Hf.
  pose proof B_pos. rewrite Nat2Z.inj_mul, <- B_Z, Z.div_mul by lia. apply wrap32_small.
  rewrite seg_blocks_length. pose proof RELSEG_SIZE_range. pose proof RS_Z. mlia.
Qed.

Lemma register_dirty_run : ∃ s', register_dirty_segment r f v s = (Ok tt, s') ∧ stays r f n l s s'.
Proof.
  unfold register_dirty_segment, RegisterSyncRequest, mbind, M_bind.
  pose proof (calm_event _ Hc) as He. pose proof (pop_stays r f n l s Hok Hf) as Hp. unfold event, pop in *.
  destruct (next_event (md_fs s)) as [e x]. simpl in He, Hp.
  assert (stays r f n l s (add_request (SYNC_REQUEST, INIT_MD_FILETAG (locator r) f (mdfd_segno v)) (set_fs x s))) as Hr.
  { destruct Hp as [P1 P2 P3]. constructor; [|by eapply fork_files_ext; [exact P2|done|apply P2]|done].
    eapply only_trans; [exact P1|]. apply request_only, P1. }
  destruct e; [by eexists|by eexists|done].
Qed.

(** The request that follows a change of the segment, unless it is skipped. *)
Lemma maybe_dirty_run (b : bool) :
  ∃ s', (if b then register_dirty_segment r f v else mret tt) s = (Ok tt, s') ∧ stays r f n l s s'.
Proof.
  destruct b; [apply register_dirty_run|]. exists s. split; [done|]. constructor; [|done|done].
  by constructor.
Qed.

(** Writing blocks into the segment. *)
Lemma segment_write (off : nat) bufs x :
  touches (path r f k) (md_fs s) x → bufs ≠ [] → blocks_ok bufs → (off + length bufs <= RS)%nat →
  Z.of_nat (k * RS + off + length bufs) <= InvalidBlockNumber →
  file_at (path r f k) x = Some (pwrite (mjoin (seg_blocks l k)) (off * B) (mjoin bufs)) →
  only r f s (set_fs x s) ∧ open_segs r f (set_fs x s) = open_segs r f s ∧
  fork_files r f n (spec_write (Some l) (k * RS + off) bufs) (set_fs x s).
Proof.
  intros Ht Hne Hb Hoff Hmax Hx. destruct (touched_only r f k s x Hok Ht) as (Hon & Hseg & Hos).
  destruct (open_seg _ _ _ _ _ _ _ Hok Hf Hv) as (Hk & Hkl & _ & _ & _). split_and!; [done|done|].
  pose proof Hf as [F1 F2 F3 F4 F5 F6 F7 F8]. pose proof RS_pos.
  assert (length (spec_write (Some l) (k * RS + off) bufs) <= n * RS)%nat.
  { rewrite spec_write_length. assert ((k + 1) * RS <= n * RS)%nat by (apply Nat.mul_le_mono_r; lia). lia. }
  constructor; [done|done|by apply blocks_ok_write| | | | |done].
  - intros j Hj. rewrite seg_blocks_write by done. destruct (decide (j = k)) as [->|Hjk].
    + rewrite <- pwrite_blocks by (try done; by apply seg_blocks_ok). exact Hx.
    + rewrite <- F4 by done. by apply Hseg.
  - intros j Hj. rewrite <- (F5 j Hj). apply Hseg. lia.
  - rewrite Hos. etrans; [exact F6|]. apply le_n_S, Nat.Div0.div_le_mono. rewrite spec_write_length. lia.
  - rewrite spec_write_length. lia.
Qed.
End segment.
End refine.
End MdRefine.
