(* ===== verification/MdOps.v ===== *)
(** * MdOps: the operations of md.c on a fork

    Finding segments, extending, measuring, reading, writing and truncating,
    each with the blocks the fork has afterwards. *)

From Stdlib Require Import ZArith Lia Bool Strings.Byte.
From stdpp Require Import base tactics numbers list gmap strings pretty.
From S2P Require Import Prelude RelPath MemSmgr MemSmgrRefine Md FileSys MdInv MdRefine.
Import Md MdInv MdRefine.

Local Open Scope Z_scope.
Local Open Scope pg_scope.

Module MdOps.

Section ops.
Context {env : Env} {mde : MdEnv}.
Implicit Types (r : RelFileLocatorBackend) (f : ForkNumber) (s : MdState) (v : MdfdVec) (l bufs : list Block).

(** ** Finding a segment *)

(** From [s] to [s'] more segments may have been opened, and the fork has
    become [l] in [n] files. *)
Record opens r f n l s s' : Prop := {
  os_only : only r f s s';
  os_fork : fork_files r f n l s';
  os_prefix : open_segs r f s `prefix_of` open_segs r f s';
}.

Lemma stays_opens r f n l s s' : stays r f n l s s' → opens r f n l s s'.
Proof. intros [? ? E]. constructor; [done..|by rewrite E]. Qed.
Lemma opens_trans r f n l n' l' s1 s2 s3 : opens r f n l s1 s2 → opens r f n' l' s2 s3 → opens r f n' l' s1 s3.
Proof. intros [] []. constructor; [by eapply only_trans|done|by etrans]. Qed.
Lemma opens_refl r f n l s : md_ok s → fork_files r f n l s → opens r f n l s s.
Proof. intros H Hf. constructor; [by constructor|done|done]. Qed.

Lemma mdopenfork_run r f n l s behavior :
  md_ok s → calm (md_fs s) → fork_files r f n l s →
  ∃ v s', mdopenfork r f behavior s = (Ok (Some v), s') ∧ opens r f n l s s' ∧
    open_segs r f s' !! 0%nat = Some v ∧ (open_segs r f s ≠ [] → s' = s) ∧
    length (open_segs r f s') = (1 `max` length (open_segs r f s))%nat.
Proof.
  intros Hok Hc Hf. unfold mdopenfork. rewrite (M_bind_run _ _ _ (length (open_segs r f s)) s) by done.
  destruct (open_segs r f s) as [|v0 vs] eqn:E.
  - assert (0 < n)%nat by apply Hf. cbn [length Nat.ltb Nat.leb].
    destruct (PathNameOpenFile_old (path r f 0) (md_fs s) (mjoin (seg_blocks l 0)) false) as
      (fd & x & Ho & Ht & Hx & Hh & Hfd); [done|apply Hok|by apply Hf|].
    rewrite (M_bind_run _ _ _ _ _ (on_sys_run _ s _ _ Ho)).
    destruct (touched_only r f 0 s x Hok Ht) as (Hon & Hseg & Hos). rewrite E in Hos.
    pose proof (append_run r f {| mdfd_vfd := fd; mdfd_segno := 0 |} (set_fs x s)
      (mret (Some {| mdfd_vfd := fd; mdfd_segno := 0 |}))) as Ha.
    rewrite Hos in Ha. simpl in Ha. cbv zeta. rewrite Ha.
    do 2 eexists. split; [reflexivity|]. split_and!; [|unfold with_segs; by rewrite open_segs_set|done
      |unfold with_segs; by rewrite open_segs_set].
    constructor; [|eapply fork_files_ext; [done|..]|rewrite E; apply prefix_nil].
    + pose proof (append_only r f {| mdfd_vfd := fd; mdfd_segno := 0 |} s fd x) as Hap. rewrite E in Hap. apply Hap; [done|apply Hf|done|lia|done|done].
    + intros j. destruct (decide (j = 0)%nat) as [->|Hj]; [|by apply Hseg].
      transitivity (Some (mjoin (seg_blocks l 0))); [exact Hx|by symmetry; apply Hf].
    + unfold with_segs. rewrite open_segs_set. simpl. lia.
  - cbn [length Nat.ltb Nat.leb]. rewrite (M_bind_run _ _ _ v0 s) by (apply seg_fd_run; by rewrite E).
    exists v0, s. split; [done|]. split_and!; [by apply opens_refl|by rewrite E|done|by rewrite E].
Qed.

(** The segment the loop starts from: the last open one, or the first. *)
Lemma last_seg_run r f n l s behavior :
  let m := length (open_segs r f s) in
  md_ok s → calm (md_fs s) → fork_files r f n l s →
  ∃ v s1, (if (0 <? m)%nat then v ← seg_fd r f (m - 1); mret (Some v) else mdopenfork r f behavior) s =
    (Ok (Some v), s1) ∧ opens r f n l s s1 ∧ length (open_segs r f s1) = (1 `max` m)%nat ∧
    open_segs r f s1 !! ((1 `max` m) - 1)%nat = Some v.
Proof.
  intros m Hok Hc Hf. destruct (Nat.ltb_spec 0 m) as [Hm|Hm].
  - destruct (lookup_lt_is_Some_2 (open_segs r f s) (m - 1)) as [v Hv]; [lia|]. exists v, s.
    rewrite (M_bind_run _ _ _ v s) by by apply seg_fd_run. split_and!; [done|by apply opens_refl|lia|].
    by replace (1 `max` m - 1)%nat with (m - 1)%nat by lia.
  - destruct (mdopenfork_run r f n l s behavior Hok Hc Hf) as (v & s1 & H1 & H2 & H3 & H4 & H5).
    exists v, s1. split_and!; try done. by replace (1 `max` m - 1)%nat with 0%nat by lia.
Qed.

(** The loop over segments that are full. *)
Lemma getseg_loop_within pad r f n l behavior count v m s :
  md_ok s → calm (md_fs s) → fork_files r f n l s →
  length (open_segs r f s) = m → (0 < m)%nat → open_segs r f s !! (m - 1)%nat = Some v →
  (count = 0 ∨ (m + count - 1) * RS < length l)%nat →
  ∃ v' s', getseg_loop pad r f behavior v m count s = (Ok (Some v'), s') ∧ opens r f n l s s' ∧
    open_segs r f s' !! (m + count - 1)%nat = Some v'.
Proof.
  revert v m s. induction count as [|count IH]; intros v m s Hok Hc Hf Hm Hpos Hv Hl.
  { exists v, s. split; [done|]. split; [by apply opens_refl|]. by rewrite Nat.add_0_r. }
  destruct Hl as [?|Hl]; [done|]. pose proof RS_pos.
  assert (m * RS <= (m + S count - 1) * RS)%nat by (apply Nat.mul_le_mono_r; lia).
  cbn [getseg_loop]. rewrite (M_bind_run _ _ _ _ _ (mdnblocks_run r f n l s (m - 1) v Hok Hc Hf Hv)).
  assert (length (seg_blocks l (m - 1)) = RS) as Hfull.
  { rewrite seg_blocks_length. assert ((m - 1) * RS + RS = m * RS)%nat by (rewrite <- Nat.mul_succ_l; f_equal; lia). lia. }
  rewrite Hfull, RS_Z, Z.ltb_irrefl, !andb_false_r.
  destruct (pop_stays r f n l s Hok Hf) as [P1 P2 P3]. set (s1 := set_fs (pop (md_fs s)) s) in *.
  assert (open_segs r f s1 = open_segs r f s) as E1 by done.
  set (create := has behavior EXTENSION_CREATE || (InRecovery && has behavior EXTENSION_CREATE_RECOVERY)).
  destruct (openseg_next r f n l s1 create) as (v' & s2 & Ho & Hon & Hf2 & Hos);
    [apply P1|by apply (on_sched _ _ _ _ P1)|done|rewrite E1, Hm; pose proof (ff_cover _ _ _ _ _ Hf); nia
    |rewrite E1, Hm; lia|].
  rewrite E1, Hm in Ho. rewrite (M_bind_run _ _ _ tt s1) by done.
  rewrite (M_bind_run _ _ _ _ _ Ho). rewrite E1 in Hos.
  destruct (IH v' (S m) s2) as (v'' & s3 & H1 & H2 & H3); [apply Hon| |done|rewrite Hos, length_app; simpl; lia|lia| | |].
  - apply (on_sched _ _ _ _ Hon). by apply (on_sched _ _ _ _ P1).
  - rewrite Hos. rewrite lookup_app_r by lia. by replace (S m - 1 - _)%nat with 0%nat by lia.
  - destruct count; [by left|right]. replace (S m + S count - 1)%nat with (m + S (S count) - 1)%nat by lia. done.
  - exists v'', s3. split; [exact H1|]. split; [|replace (m + S count - 1)%nat with (S m + count - 1)%nat by lia; done].
    eapply opens_trans; [|exact H2]. constructor; [by eapply only_trans|done|].
    rewrite Hos. by apply prefix_app_r.
Qed.

Lemma getseg_unfold d r f skip blkno behavior :
  getseg_depth (S d) r f skip blkno behavior =
    (let targetseg := Z.to_nat (blkno / RELSEG_SIZE) in
     n ← num_open r f;
     if (targetseg <? n)%nat then v ← seg_fd r f targetseg; mret (Some v)
     else if has behavior EXTENSION_DONT_OPEN then mret None
     else
       v ← (if (0 <? n)%nat then v ← seg_fd r f (n - 1); mret (Some v) else mdopenfork r f behavior);
       match v with
       | None => mret None
       | Some v =>
           n ← num_open r f;
           getseg_loop (λ blk, mdextend_with (getseg_depth d r f skip) r f blk zero_block skip)
             r f behavior v n (S targetseg - n)
       end).
Proof. done. Qed.

(** The segment of a block the fork has. *)
Lemma getseg_within d r f n l s skip behavior (b : nat) :
  md_ok s → calm (md_fs s) → fork_files r f n l s → (b < length l)%nat → has behavior EXTENSION_DONT_OPEN = false →
  ∃ v s', getseg_depth (S d) r f skip (Z.of_nat b) behavior s = (Ok (Some v), s') ∧ opens r f n l s s' ∧
    open_segs r f s' !! (b / RS)%nat = Some v.
Proof.
  intros Hok Hc Hf Hb Hd. pose proof RS_pos. rewrite getseg_unfold. cbv zeta.
  assert (Z.to_nat (Z.of_nat b / RELSEG_SIZE) = b / RS)%nat as ->.
  { rewrite <- RS_Z, <- Nat2Z.inj_div. lia. }
  rewrite (M_bind_run _ _ _ (length (open_segs r f s)) s) by done.
  destruct (Nat.ltb_spec (b / RS) (length (open_segs r f s))) as [Hlt|Hge].
  { destruct (lookup_lt_is_Some_2 _ _ Hlt) as [v Hv]. rewrite (M_bind_run _ _ _ v s) by by apply seg_fd_run.
    exists v, s. split; [done|]. split; [by apply opens_refl|done]. }
  rewrite Hd. set (m := length (open_segs r f s)) in *.
  destruct (last_seg_run r f n l s behavior Hok Hc Hf) as (v & s1 & H1 & Ho1 & Hl1 & Hv1). fold m in H1, Hl1, Hv1.
  rewrite (M_bind_run _ _ _ _ _ H1). rewrite (M_bind_run _ _ _ (1 `max` m)%nat s1) by (unfold num_open, gets; by rewrite Hl1).
  destruct (getseg_loop_within
    (λ blk, mdextend_with (getseg_depth d r f skip) r f blk zero_block skip) r f n l behavior
    (S (b / RS) - 1 `max` m) v (1 `max` m) s1) as (v' & s2 & G1 & G2 & G3);
    [apply Ho1|by apply (on_sched _ _ _ _ (os_only _ _ _ _ _ _ Ho1))|apply Ho1|done|lia|done| |].
  { right. replace (1 `max` m + (S (b / RS) - 1 `max` m) - 1)%nat with (b / RS)%nat by lia.
    pose proof (Nat.div_mod b RS). lia. }
  exists v', s2. split; [exact G1|]. split; [by eapply opens_trans|].
  by replace (1 `max` m + (S (b / RS) - 1 `max` m) - 1)%nat with (b / RS)%nat in G3 by lia.
Qed.

(** ** Extending *)

Lemma seekpos_nat (b : nat) : Z.to_nat (BLCKSZ * (Z.of_nat b mod RELSEG_SIZE)) = (b mod RS * B)%nat.
Proof. rewrite <- RS_Z, <- B_Z, <- Nat2Z.inj_mod, <- Nat2Z.inj_mul, Nat2Z.id. lia. Qed.

Lemma block_split (b : nat) : (b = b / RS * RS + b mod RS ∧ b mod RS < RS)%nat.
Proof.
  pose proof RS_pos. split; [rewrite (Nat.div_mod b RS) at 1; lia|by apply Nat.mod_upper_bound; lia].
Qed.

(** [mdextend] once the segment has been found. *)
Lemma mdextend_found getseg r f n l s0 s (b : nat) buf skip v :
  md_ok s → quiet (md_fs s) → fork_files r f n l s → length buf = B → Z.of_nat b < InvalidBlockNumber →
  open_segs r f s !! (b / RS)%nat = Some v → getseg (Z.of_nat b) EXTENSION_CREATE s0 = (Ok (Some v), s) →
  ∃ s', mdextend_with getseg r f (Z.of_nat b) buf skip s0 = (Ok tt, s') ∧ only r f s s' ∧
    fork_files r f n (spec_write (Some l) b [buf]) s' ∧ open_segs r f s' = open_segs r f s.
Proof.
  intros Hok Hq Hf Hbuf Hb Hv Hg. pose proof (quiet_calm _ Hq) as Hc. unfold mdextend_with.
  destruct (Z.eqb_spec (Z.of_nat b) InvalidBlockNumber); [lia|]. rewrite (M_bind_run _ _ _ _ _ Hg). cbv zeta.
  rewrite seekpos_nat. destruct (open_seg _ _ _ _ _ _ _ Hok Hf Hv) as (_ & _ & _ & Hh & Hs).
  destruct (FileWriteV_run _ _ _ _ Hc (mo_fs _ Hok) Hh Hs (b mod RS * B) buf) as (x & Hw & Ht & Hx).
  rewrite (quiet_event _ Hq) in Hw, Hx. simpl in Hw, Hx. rewrite firstn_all in Hx.
  rewrite (M_bind_run _ _ _ _ _ (sys_or_run _ _ _ _ _ _ Hw)). rewrite Hbuf, B_Z, Z.eqb_refl. simpl negb.
  destruct (block_split b) as [Hbs Hlt].
  destruct (segment_write r f n l s (b / RS) v Hok Hf Hv (b mod RS) [buf] x) as (W1 & W2 & W3); [done|done|
    by apply Forall_singleton|simpl; lia|rewrite <- Hbs; simpl; lia|simpl mjoin; by rewrite app_nil_r|].
  rewrite <- Hbs in W3. set (l' := spec_write (Some l) b [buf]) in *.
  destruct (maybe_dirty_run r f n l' (set_fs x s) v) with (b := negb skip && negb (RelFileLocatorBackendIsTemp r))
    as (s' & H1 & [S1 S2 S3]); [apply W1|by apply (on_sched _ _ _ _ W1)|done|].
  exists s'. split; [exact H1|]. split_and!; [by eapply only_trans|done|congruence].
Qed.

(** Filling the last open segment up before the next one is opened. *)
Lemma pad_run d r f n l s skip m v :
  md_ok s → quiet (md_fs s) → fork_files r f n l s → length (open_segs r f s) = m → (0 < m)%nat →
  open_segs r f s !! (m - 1)%nat = Some v → Z.of_nat (m * RS) < InvalidBlockNumber →
  ∃ s', (if Z.of_nat (length (seg_blocks l (m - 1))) <? RELSEG_SIZE
         then mdextend_with (getseg_depth (S d) r f skip) r f (wrap32 (Z.of_nat m * RELSEG_SIZE - 1)) zero_block skip
         else mret tt) s = (Ok tt, s') ∧
    only r f s s' ∧ fork_files r f n (padded l (m * RS)) s' ∧ open_segs r f s' = open_segs r f s.
Proof.
  intros Hok Hq Hf Hm Hpos Hv Hb. pose proof RS_pos. rewrite <- RS_Z, seg_blocks_length.
  destruct (open_seg _ _ _ _ _ _ _ Hok Hf Hv) as (_ & Hl & _).
  assert ((m - 1) * RS + RS = m * RS)%nat as Hsum by (rewrite <- Nat.mul_succ_l; f_equal; lia).
  destruct (Z.ltb_spec (Z.of_nat (RS `min` (length l - (m - 1) * RS))) (Z.of_nat RS)) as [Hlt|Hge].
  - assert (wrap32 (Z.of_nat m * Z.of_nat RS - 1) = Z.of_nat (m * RS - 1)) as ->.
    { rewrite wrap32_small; [lia|]. unfold InvalidBlockNumber in Hb. mlia. }
    assert ((m * RS - 1) / RS = m - 1)%nat as Hdiv.
    { symmetry. apply (Nat.div_unique _ _ _ (RS - 1)); lia. }
    destruct (mdextend_found (getseg_depth (S d) r f skip) r f n l s s (m * RS - 1) zero_block skip v)
      as (s' & H1 & H2 & H3 & H4); [done|done|done|apply repeat_length|lia|by rewrite Hdiv| |].
    { rewrite getseg_unfold. cbv zeta. rewrite (M_bind_run _ _ _ m s) by (unfold num_open, gets; by rewrite Hm).
      rewrite <- RS_Z, <- Nat2Z.inj_div, Nat2Z.id, Hdiv. destruct (Nat.ltb_spec (m - 1) m); [|lia].
      by rewrite (M_bind_run _ _ _ _ _ (seg_fd_run _ _ _ _ _ Hv)). }
    rewrite padded_write in H3 by lia. by exists s'.
  - exists s. split; [done|]. rewrite padded_id by lia. split_and!; [by constructor|done|done].
Qed.

Lemma getseg_loop_create d r f behavior count v m n l s skip :
  has behavior EXTENSION_CREATE = true →
  md_ok s → quiet (md_fs s) → fork_files r f n l s → length (open_segs r f s) = m → (0 < m)%nat →
  open_segs r f s !! (m - 1)%nat = Some v → Z.of_nat ((m + count - 1) * RS) < InvalidBlockNumber →
  ∃ n' v' s', getseg_loop (λ blk, mdextend_with (getseg_depth (S d) r f skip) r f blk zero_block skip)
      r f behavior v m count s = (Ok (Some v'), s') ∧
    opens r f n' (padded l ((m + count - 1) * RS)) s s' ∧ open_segs r f s' !! (m + count - 1)%nat = Some v'.
Proof.
  intros Hcr. revert v m n l s. induction count as [|count IH]; intros v m n l s Hok Hq Hf Hm Hpos Hv Hb.
  { destruct (open_seg _ _ _ _ _ _ _ Hok Hf Hv) as (_ & Hl & _). rewrite Nat.add_0_r, padded_id by done.
    exists n, v, s. split; [done|]. split; [by apply opens_refl|done]. }
  pose proof RS_pos. pose proof (quiet_calm _ Hq) as Hc.
  assert (m * RS <= (m + S count - 1) * RS)%nat by (apply Nat.mul_le_mono_r; lia).
  cbn [getseg_loop]. rewrite (M_bind_run _ _ _ _ _ (mdnblocks_run r f n l s (m - 1) v Hok Hc Hf Hv)).
  destruct (Z.ltb_spec RELSEG_SIZE (Z.of_nat (length (seg_blocks l (m - 1))))) as [Hbig|_].
  { rewrite seg_blocks_length in Hbig. pose proof RS_Z. lia. }
  rewrite Hcr. cbn [orb negb andb].
  destruct (pop_stays r f n l s Hok Hf) as [P1 P2 P3]. set (s1 := set_fs (pop (md_fs s)) s) in *.
  destruct (pad_run d r f n l s1 skip m v) as (s2 & H2 & Hon2 & Hf2 & Hos2); [apply P1|by apply (on_sched _ _ _ _ P1)|done|
    by rewrite P3|done|by rewrite P3|lia|].
  rewrite (M_bind_run _ _ _ _ _ H2). rewrite P3 in Hos2.
  assert (quiet (md_fs s2)) as Hq2 by (apply (on_sched _ _ _ _ Hon2); by apply (on_sched _ _ _ _ P1)).
  assert (m * RS <= length (padded l (m * RS)))%nat as Hlen by (rewrite padded_length; lia).
  assert (∃ n' v' s3, _mdfd_openseg r f m true s2 = (Ok (Some v', None), s3) ∧ only r f s2 s3 ∧
    fork_files r f n' (padded l (m * RS)) s3 ∧ open_segs r f s3 = open_segs r f s2 ++ [v'])
    as (n' & v' & s3 & H3 & Hon3 & Hf3 & Hos3).
  { pose proof (open_count _ _ _ _ _ (on_ok _ _ _ _ Hon2) Hf2) as Hn. rewrite Hos2, Hm in Hn.
    destruct (decide (m < n)%nat).
    - destruct (openseg_next r f n (padded l (m * RS)) s2 true) as (v' & s3 & G); [apply Hon2|by apply quiet_calm|done|
        rewrite Hos2; lia|rewrite Hos2; lia|]. rewrite Hos2, Hm in G. rewrite Hos2. by exists n, v', s3.
    - assert (m = n) as -> by lia.
      destruct (openseg_new r f n (padded l (n * RS)) s2) as (v' & s3 & G); [apply Hon2|by apply quiet_calm|done|
        by rewrite Hos2|done|]. by exists (S n), v', s3. }
  rewrite (M_bind_run _ _ _ _ _ H3).
  destruct (IH v' (S m) n' (padded l (m * RS)) s3) as (n'' & v'' & s4 & G1 & G2 & G3);
    [apply Hon3|by apply (on_sched _ _ _ _ Hon3)|done|rewrite Hos3, length_app, Hos2; simpl; lia|lia| | |].
  - rewrite Hos3, Hos2, lookup_app_r by lia. by replace (S m - 1 - _)%nat with 0%nat by lia.
  - replace (S m + count - 1)%nat with (m + S count - 1)%nat by lia. done.
  - replace (S m + count - 1)%nat with (m + S count - 1)%nat in G2, G3 by lia.
    rewrite padded_padded in G2 by lia. exists n'', v'', s4. split; [exact G1|]. split; [|done].
    eapply (opens_trans r f n' (padded l (m * RS))); [|exact G2].
    constructor; [eapply only_trans; [exact P1|by eapply only_trans]|done|].
    rewrite Hos3, Hos2. by apply prefix_app_r.
Qed.

(** The segment of any block, created with those before it if need be. *)
Lemma getseg_create d r f n l s skip behavior (b : nat) :
  has behavior EXTENSION_CREATE = true → has behavior EXTENSION_DONT_OPEN = false →
  md_ok s → quiet (md_fs s) → fork_files r f n l s → Z.of_nat b < InvalidBlockNumber →
  ∃ n' v s', getseg_depth (S (S d)) r f skip (Z.of_nat b) behavior s = (Ok (Some v), s') ∧
    opens r f n' (padded l (b / RS * RS)) s s' ∧ open_segs r f s' !! (b / RS)%nat = Some v.
Proof.
  intros Hcr Hd Hok Hq Hf Hb. pose proof RS_pos. pose proof (quiet_calm _ Hq) as Hc.
  rewrite getseg_unfold. cbv zeta.
  assert (Z.to_nat (Z.of_nat b / RELSEG_SIZE) = b / RS)%nat as ->.
  { rewrite <- RS_Z, <- Nat2Z.inj_div. lia. }
  rewrite (M_bind_run _ _ _ (length (open_segs r f s)) s) by done.
  destruct (block_split b) as [Hbs Hbm].
  destruct (Nat.ltb_spec (b / RS) (length (open_segs r f s))) as [Hlt|Hge].
  { destruct (lookup_lt_is_Some_2 _ _ Hlt) as [v Hv]. rewrite (M_bind_run _ _ _ v s) by by apply seg_fd_run.
    destruct (open_seg _ _ _ _ _ _ _ Hok Hf Hv) as (_ & Hl & _). rewrite padded_id by done.
    exists n, v, s. split; [done|]. split; [by apply opens_refl|done]. }
  rewrite Hd. set (m := length (open_segs r f s)) in *.
  destruct (last_seg_run r f n l s behavior Hok Hc Hf) as (v & s1 & H1 & Ho1 & Hl1 & Hv1). fold m in H1, Hl1, Hv1.
  rewrite (M_bind_run _ _ _ _ _ H1). rewrite (M_bind_run _ _ _ (1 `max` m)%nat s1) by (unfold num_open, gets; by rewrite Hl1).
  assert (1 `max` m + (S (b / RS) - 1 `max` m) - 1 = b / RS)%nat as Hidx by lia.
  destruct (getseg_loop_create d r f behavior (S (b / RS) - 1 `max` m) v (1 `max` m) n l s1 skip)
    as (n' & v' & s2 & G1 & G2 & G3);
    [done|apply Ho1|by apply (on_sched _ _ _ _ (os_only _ _ _ _ _ _ Ho1))|apply Ho1|done|lia|done|rewrite Hidx; lia|].
  rewrite Hidx in G2, G3. exists n', v', s2. split; [exact G1|]. split; [by eapply opens_trans|done].
Qed.

Lemma mdextend_run r f n l s (b : nat) buf skip :
  md_ok s → quiet (md_fs s) → fork_files r f n l s → length buf = B → Z.of_nat b < InvalidBlockNumber →
  ∃ n' s', mdextend r f (Z.of_nat b) buf skip s = (Ok tt, s') ∧ opens r f n' (spec_write (Some l) b [buf]) s s' ∧
    (b / RS < length (open_segs r f s'))%nat.
Proof.
  intros Hok Hq Hf Hbuf Hb. destruct (block_split b) as [Hbs _].
  destruct (getseg_create 0 r f n l s skip EXTENSION_CREATE b) as (n' & v & s1 & H1 & [O1 O2 O3] & Hv); [done..|].
  destruct (mdextend_found (λ blk, _mdfd_getseg r f blk skip) r f n' (padded l (b / RS * RS)) s s1 b buf skip v (on_ok _ _ _ _ O1))
    as (s' & H2 & W1 & W2 & W3); [by apply (on_sched _ _ _ _ O1)|done|done|done|done|done|].
  rewrite spec_write_padded in W2 by lia. exists n', s'. split; [exact H2|].
  split; [constructor; [by eapply only_trans|done|by rewrite W3]|]. rewrite W3. by eapply lookup_lt_Some.
Qed.

(** ** Extending with zeroes *)

Lemma spec_write_end l b bufs : (length l <= b)%nat → spec_write (Some l) b bufs = padded l b ++ bufs.
Proof.
  intros H. unfold spec_write, padded. simpl. rewrite take_ge.
  2:{ rewrite length_app, length_replicate. lia. }
  rewrite drop_ge; [by rewrite app_nil_r|]. rewrite length_app, length_replicate. lia.
Qed.

Lemma spec_write_zeros l b m k :
  (length l <= b)%nat →
  spec_write (Some (spec_write (Some l) b (replicate m zero_block))) (b + m) (replicate k zero_block) =
    spec_write (Some l) b (replicate (m + k) zero_block).
Proof.
  intros H. rewrite (spec_write_end l b) by done. rewrite spec_write_end.
  2:{ rewrite length_app, padded_length, length_replicate. lia. }
  rewrite (spec_write_end l b) by done. rewrite padded_id.
  2:{ rewrite length_app, padded_length, length_replicate. lia. }
  by rewrite replicate_add, app_assoc.
Qed.

(** Both ways of extending a file that ends before the new blocks. *)
Lemma zero_file_run (b1 : bool) r f n l s k v off m :
  md_ok s → quiet (md_fs s) → fork_files r f n l s → open_segs r f s !! k = Some v →
  (0 < m)%nat → (length (seg_blocks l k) <= off)%nat →
  ∃ x, (if b1
        then sys_or (FileFallocate (mdfd_vfd v) (off * B) (m * B)) ERRCODE_FILE_ACCESS "could not extend file with FileFallocate()"
        else sys_or (FileZero (mdfd_vfd v) (off * B) (m * B)) ERRCODE_FILE_ACCESS "could not extend file") s =
      (Ok tt, set_fs x s) ∧ touches (path r f k) (md_fs s) x ∧
    file_at (path r f k) x = Some (pwrite (mjoin (seg_blocks l k)) (off * B) (mjoin (replicate m zero_block))).
Proof.
  intros Hok Hq Hf Hv Hm Hoff. pose proof (quiet_calm _ Hq) as Hc. pose proof B_pos.
  destruct (open_seg _ _ _ _ _ _ _ Hok Hf Hv) as (_ & _ & _ & Hh & Hs). rewrite mjoin_zeros. destruct b1.
  - destruct (FileFallocate_run _ _ _ _ Hc (mo_fs _ Hok) Hh Hs (off * B) (m * B)) as (x & H1 & H2 & H3).
    exists x. split; [by apply sys_or_run|]. split; [done|]. rewrite H3. f_equal.
    assert (length (mjoin (seg_blocks l k)) = length (seg_blocks l k) * B)%nat as Hlen by by apply length_mjoin, seg_blocks_ok, Hf.
    unfold pwrite. destruct (zeros (m * B)) as [|z zs] eqn:Ez.
    { apply (f_equal length) in Ez. unfold zeros in Ez. rewrite length_replicate in Ez. simpl in Ez. nia. }
    rewrite <- Ez. rewrite take_ge.
    2:{ rewrite length_app. unfold zeros. rewrite length_replicate. nia. }
    rewrite drop_ge; [|nia]. rewrite app_nil_r, <- app_assoc. f_equal. unfold zeros. rewrite <- replicate_add. f_equal. nia.
  - destruct (FileZero_run _ _ _ _ (off * B) (m * B) Hq (mo_fs _ Hok) Hh Hs) as (x & H1 & H2 & H3).
    exists x. split; [by apply sys_or_run|]. by split.
Qed.

Lemma zeroextend_loop_run fuel r f n l s (b m : nat) skip :
  md_ok s → quiet (md_fs s) → fork_files r f n l s → (length l <= b)%nat → (0 < m <= fuel)%nat →
  Z.of_nat m < 2 ^ 31 → Z.of_nat b + Z.of_nat m < InvalidBlockNumber →
  ∃ n' s', zeroextend_loop fuel r f (Z.of_nat b) (Z.of_nat m) skip s = (Ok tt, s') ∧
    opens r f n' (spec_write (Some l) b (replicate m zero_block)) s s' ∧
    ((b + m - 1) / RS < length (open_segs r f s'))%nat.
Proof.
  revert n l s b m. induction fuel as [|fuel IH]; intros n l s b m Hok Hq Hf Hl Hm Hmax Hb; [lia|].
  pose proof RS_pos. destruct (block_split b) as [Hbs Hbm]. pose proof RELSEG_SIZE_range as HRS. rewrite <- RS_Z in HRS.
  cbn [zeroextend_loop]. destruct (Z.leb_spec (Z.of_nat m) 0); [lia|].
  assert (Z.of_nat b mod RELSEG_SIZE = Z.of_nat (b mod RS)) as Hmod by by rewrite <- RS_Z, <- Nat2Z.inj_mod.
  rewrite Hmod. set (k := (m `min` (RS - b mod RS))%nat).
  assert ((if RELSEG_SIZE <? Z.of_nat (b mod RS) +u Z.of_nat m then RELSEG_SIZE - Z.of_nat (b mod RS) else Z.of_nat m) =
    Z.of_nat k) as ->.
  { rewrite wrap32_small by mlia. rewrite <- RS_Z. destruct (Z.ltb_spec (Z.of_nat RS) (Z.of_nat (b mod RS) + Z.of_nat m)); lia. }
  destruct (getseg_create 0 r f n l s skip EXTENSION_CREATE b) as (n1 & v & s1 & H1 & [O1 O2 O3] & Hv);
    [done..|lia|].
  set (l1 := padded l (b / RS * RS)) in *.
  rewrite (M_bind_run _ _ _ v s1) by (unfold getseg_or_fail; by rewrite (M_bind_run _ _ _ _ _ H1)).
  assert (quiet (md_fs s1)) as Hq1 by by apply (on_sched _ _ _ _ O1).
  assert (length (seg_blocks l1 (b / RS)) <= b mod RS)%nat as Hend.
  { rewrite seg_blocks_length. unfold l1. rewrite padded_length. lia. }
  destruct (zero_file_run ((8 <? Z.of_nat k) && negb (match file_extend_method with FILE_EXTEND_METHOD_WRITE_ZEROS => true | _ => false end))
    r f n1 l1 s1 (b / RS) v (b mod RS) k) as (x & H2 & Ht & Hx); [apply O1|done|done|done|lia|done|].
  replace (Z.to_nat (BLCKSZ * Z.of_nat (b mod RS))) with (b mod RS * B)%nat by (rewrite <- B_Z; lia).
  replace (Z.to_nat (BLCKSZ * Z.of_nat k)) with (k * B)%nat by (rewrite <- B_Z; lia).
  rewrite (M_bind_run _ _ _ _ _ H2).
  destruct (segment_write r f n1 l1 s1 (b / RS) v (on_ok _ _ _ _ O1) O2 Hv (b mod RS) (replicate k zero_block) x)
    as (W1 & W2 & W3); [done|intros E%(f_equal length); rewrite length_replicate in E; simpl in E; lia|apply zero_block_ok|rewrite length_replicate; lia
    |rewrite <- Hbs, length_replicate; lia|done|].
  rewrite <- Hbs in W3. unfold l1 in W3. rewrite spec_write_padded in W3 by lia.
  set (l2 := spec_write (Some l) b (replicate k zero_block)) in *.
  destruct (maybe_dirty_run r f n1 l2 (set_fs x s1) v) with (b := negb skip && negb (RelFileLocatorBackendIsTemp r))
    as (s2 & H3 & [D1 D2 D3]); [apply W1|by apply quiet_calm, (on_sched _ _ _ _ W1)|done|].
  rewrite (M_bind_run _ _ _ _ _ H3).
  assert (opens r f n1 l2 s s2) as Ho2.
  { constructor; [by eapply only_trans; [exact O1|eapply only_trans]|done|by rewrite D3, W2]. }
  assert (wrap32 (Z.of_nat b + Z.of_nat k) = Z.of_nat (b + k)) as ->.
  { unfold InvalidBlockNumber in Hb. rewrite wrap32_small; [lia|]. mlia. }
  replace (Z.of_nat m - Z.of_nat k) with (Z.of_nat (m - k)) by lia.
  destruct (decide (m = k)) as [Hmk|Hne].
  { replace (m - k)%nat with 0%nat by lia. exists n1, s2. split; [by destruct fuel|]. split; [by rewrite Hmk|].
    rewrite D3, W2. apply lookup_lt_Some in Hv. replace ((b + m - 1) / RS)%nat with (b / RS)%nat; [done|].
    apply (Nat.div_unique _ _ _ (b mod RS + m - 1)); lia. }
  destruct (IH n1 l2 s2 (b + k)%nat (m - k)%nat) as (n3 & s3 & G1 & G2 & G3); [apply D1| |done| |lia|lia|lia|].
  - apply (on_sched _ _ _ _ D1). by apply (on_sched _ _ _ _ W1).
  - unfold l2. rewrite spec_write_length, length_replicate. lia.
  - unfold l2 in G2. rewrite spec_write_zeros in G2 by done. replace (k + (m - k))%nat with m in G2 by lia.
    exists n3, s3. split; [exact G1|]. split; [by eapply opens_trans|].
    by replace (b + k + (m - k) - 1)%nat with (b + m - 1)%nat in G3 by lia.
Qed.
End ops.
End MdOps.
