(* ===== verification/MdIo.v ===== *)
(** * MdIo: measuring, reading, writing and truncating a fork

    The loops of mdnblocks, mdreadv, mdwritev and mdtruncate, on schedules in
    which transfers may be cut short. *)

From Stdlib Require Import ZArith Lia Bool Strings.Byte.
From stdpp Require Import base tactics numbers list gmap strings pretty.
From S2P Require Import Prelude RelPath MemSmgr MemSmgrRefine Md FileSys MdInv MdRefine MdOps.
Import Md MdInv MdRefine MdOps.

Local Open Scope Z_scope.
Local Open Scope pg_scope.

Module MdIo.

Section io.
Context {env : Env} {mde : MdEnv}.
Implicit Types (r : RelFileLocatorBackend) (f : ForkNumber) (s : MdState) (v : MdfdVec) (l bufs : list Block).

(** ** Measuring *)

(** Every segment file has a name of its own in the directory. *)
Lemma files_in_dir r f n l s : fork_files r f n l s → (n <= size (fs_dir (md_fs s)))%nat.
Proof.
  intros Hf. rewrite <- (size_dom (fs_dir (md_fs s))).
  assert (NoDup (path r f <$> seq 0 n)) as Hnd.
  { apply NoDup_fmap_2; [|apply NoDup_seq]. intros j k. apply path_inj. }
  rewrite <- (length_seq n 0), <- (length_fmap (path r f)), <- (size_list_to_set (C := gset string)) by done.
  apply subseteq_size. intros p Hp%elem_of_list_to_set. apply list_elem_of_fmap in Hp as (k & -> & Hk).
  apply elem_of_seq in Hk. apply elem_of_dom. pose proof (ff_segs _ _ _ _ _ Hf k ltac:(lia)) as Hs.
  unfold seg, file_at in Hs. by destruct (fs_dir (md_fs s) !! path r f k).
Qed.

Lemma nblocks_loop_run fuel r f n l s k v :
  md_ok s → calm (md_fs s) → fork_files r f n l s → length (open_segs r f s) = S k →
  open_segs r f s !! k = Some v → (n <= k + fuel)%nat →
  ∃ s', nblocks_loop fuel r f k v s = (Ok (Z.of_nat (length l)), s') ∧ opens r f n l s s' ∧
    (length l <= length (open_segs r f s') * RS)%nat.
Proof.
  revert k v s. induction fuel as [|fuel IH]; intros k v s Hok Hc Hf Hk Hv Hfuel.
  { destruct (open_seg _ _ _ _ _ _ _ Hok Hf Hv). lia. }
  destruct (open_seg _ _ _ _ _ _ _ Hok Hf Hv) as (Hkn & Hkl & _). pose proof RS_pos.
  pose proof (ff_max _ _ _ _ _ Hf) as Hmax. unfold InvalidBlockNumber in Hmax.
  destruct (pop_stays r f n l s Hok Hf) as [P1 P2 P3]. set (s1 := set_fs (pop (md_fs s)) s) in *.
  cbn [nblocks_loop]. rewrite (M_bind_run _ _ _ _ _ (mdnblocks_run r f n l s k v Hok Hc Hf Hv)).
  rewrite seg_blocks_length, <- RS_Z.
  destruct (Z.ltb_spec (Z.of_nat RS) (Z.of_nat (RS `min` (length l - k * RS)))); [lia|].
  destruct (Z.ltb_spec (Z.of_nat (RS `min` (length l - k * RS))) (Z.of_nat RS)) as [Hlt|Hge].
  { exists s1. split; [|split; [by apply stays_opens|rewrite P3, Hk; simpl; lia]]. unfold mret, M_ret. f_equal. f_equal.
    rewrite (wrap32_small (Z.of_nat k * Z.of_nat RS)) by mlia. rewrite wrap32_small by mlia. lia. }
  assert (length l >= S k * RS)%nat as Hfull by (simpl; lia).
  assert (calm (md_fs s1)) as Hc1 by by apply (on_sched _ _ _ _ P1).
  destruct (decide (S k < n)%nat) as [Hn|Hn].
  - destruct (openseg_next r f n l s1 false) as (v' & s2 & Ho & Hon & Hf2 & Hos2); [apply P1|done|done|
      rewrite P3, Hk; lia|rewrite P3, Hk; lia|].
    rewrite P3, Hk in Ho. rewrite P3 in Hos2. rewrite (M_bind_run _ _ _ _ _ Ho).
    destruct (IH (S k) v' s2) as (s3 & G1 & G2 & G3); [apply Hon|by apply (on_sched _ _ _ _ Hon)|done
      |rewrite Hos2, length_app, Hk; simpl; lia|rewrite Hos2, lookup_app_r by lia; by rewrite Hk, Nat.sub_diag|lia|].
    exists s3. split; [exact G1|]. split; [|done]. eapply opens_trans; [|exact G2].
    constructor; [by eapply only_trans|done|rewrite Hos2; by apply prefix_app_r].
  - assert (n = S k) as -> by lia. rewrite (M_bind_run _ _ _ _ _ (openseg_missing r f (S k) l s1 (on_ok _ _ _ _ P1) Hc1 P2)).
    pose proof (ff_cover _ _ _ _ _ Hf). destruct (pop_stays r f (S k) l s1 (on_ok _ _ _ _ P1) P2) as [Q1 Q2 Q3].
    eexists. split; [|split; [eapply opens_trans; [by apply stays_opens|by apply stays_opens]|rewrite Q3, P3, Hk; lia]].
    unfold mret, M_ret. f_equal. f_equal. rewrite wrap32_small; [lia|]. mlia.
Qed.

Lemma mdnblocks_fork r f n l s :
  md_ok s → calm (md_fs s) → fork_files r f n l s →
  ∃ s', mdnblocks r f s = (Ok (Z.of_nat (length l)), s') ∧ opens r f n l s s' ∧
    (length l <= length (open_segs r f s') * RS)%nat.
Proof.
  intros Hok Hc Hf. unfold mdnblocks.
  destruct (mdopenfork_run r f n l s EXTENSION_FAIL Hok Hc Hf) as (v0 & s1 & H1 & O1 & H3 & _ & H5).
  rewrite (M_bind_run _ _ _ _ _ H1). set (m := length (open_segs r f s1)) in *.
  destruct (lookup_lt_is_Some_2 (open_segs r f s1) (m - 1)) as [v Hv]; [lia|].
  rewrite (M_bind_run _ _ _ m s1) by done. rewrite (M_bind_run _ _ _ _ _ (seg_fd_run _ _ _ _ _ Hv)).
  rewrite (M_bind_run _ _ _ (dir_fuel s1) s1) by done.
  destruct (nblocks_loop_run (dir_fuel s1) r f n l s1 (m - 1) v) as (s2 & G1 & G2 & G3);
    [apply O1|by apply (on_sched _ _ _ _ (os_only _ _ _ _ _ _ O1))|apply O1|unfold m; lia|done| |].
  - pose proof (files_in_dir _ _ _ _ _ (os_fork _ _ _ _ _ _ O1)). unfold dir_fuel. lia.
  - exists s2. split; [exact G1|]. split; [by eapply opens_trans|done].
Qed.

(** ** Reading *)

Lemma transferred_range e m : (0 < m)%nat → (1 <= transferred e m <= m)%nat.
Proof. destruct e; simpl; lia. Qed.

Lemma read_loop_run fuel vfd p c (pos size : nat) acc s :
  calm (md_fs s) → fs_ok (md_fs s) → handle vfd p (md_fs s) → file_at p (md_fs s) = Some c →
  (length acc < size)%nat → (pos + (size - length acc) <= length c)%nat → (size - length acc < fuel)%nat →
  ∃ x, read_loop fuel vfd pos size acc s = (Ok (acc ++ take (size - length acc) (drop pos c)), set_fs x s) ∧
    touches p (md_fs s) x ∧ file_at p x = Some c.
Proof.
  revert pos acc s. induction fuel as [|fuel IH]; intros pos acc s Hc Hok Hh Hf Hacc Hpos Hfuel; [lia|].
  cbn [read_loop].
  rewrite (M_bind_run _ _ _ _ _ (sys_or_run _ _ _ _ _ _ (FileReadV_run _ _ _ _ Hc Hh Hf pos (size - length acc)))).
  set (rest := pread c pos (size - length acc)). assert (length rest = size - length acc)%nat as Hrest.
  { unfold rest, pread. rewrite length_take, length_drop. lia. }
  set (t := transferred (event (md_fs s)) (length rest)).
  assert (1 <= t <= length rest)%nat as Ht by (apply transferred_range; lia).
  pose proof (length_take rest t) as Hlen. destruct (take t rest) as [|b0 bs] eqn:Eb; [simpl in Hlen; lia|].
  rewrite <- Eb in *. rewrite length_app.
  pose proof (touches_pop p (md_fs s) Hok) as Hpop. pose proof (file_at_pop p (md_fs s)) as Hfp. rewrite Hf in Hfp.
  destruct (Nat.eqb_spec (length acc + length (take t rest)) size) as [Heq|Hne].
  - eexists. split; [|split; [exact Hpop|done]]. unfold mret, M_ret. f_equal. f_equal. f_equal.
    rewrite take_ge by lia. done.
  - set (s1 := set_fs (pop (md_fs s)) s).
    destruct (IH (pos + length (take t rest))%nat (acc ++ take t rest) s1) as (x & G1 & G2 & G3);
      [by apply keeps_schedule_pop|by apply fs_ok_pop|by apply handle_pop|done|rewrite length_app; lia|rewrite length_app; lia|
       rewrite length_app; lia|].
    exists x. split; [|split; [by eapply touches_trans|done]]. rewrite G1. f_equal. f_equal.
    rewrite <- app_assoc, length_app. f_equal. assert (length (take t rest) = t) as -> by lia. unfold rest, pread.
    rewrite <- (take_drop t (take (size - length acc) (drop pos c))) at 2. f_equal.
    rewrite skipn_firstn_comm, drop_drop. f_equal. lia.
Qed.

(** The part of a fork that one transfer may address. *)
Record in_segment (b m : nat) : Prop := {
  is_pos : (0 < m)%nat;
  is_end : (b mod RS + m <= RS)%nat;
  is_iov : Z.of_nat m <= PG_IOV_MAX;
}.

Lemma in_segment_blocks b m : in_segment b m →
  (Z.of_nat m <=? 0) = false ∧
  Z.min (blocks_this_segment (Z.of_nat b) (Z.of_nat m)) PG_IOV_MAX = Z.of_nat m.
Proof.
  intros [H1 H2 H3]. split; [lia|]. unfold blocks_this_segment. rewrite <- RS_Z, <- Nat2Z.inj_mod. lia.
Qed.

Lemma mdreadv_run r f n l s (b m : nat) :
  md_ok s → calm (md_fs s) → fork_files r f n l s → (b + m <= length l)%nat → in_segment b m →
  ∃ s', mdreadv r f (Z.of_nat b) (Z.of_nat m) s = (Ok (spec_read l b m), s') ∧ opens r f n l s s'.
Proof.
  intros Hok Hc Hf Hbm Hin. destruct (in_segment_blocks b m Hin) as [Hz Hmin]. destruct Hin as [H1 H2 H3].
  unfold mdreadv. rewrite Hz. pose proof RS_pos. destruct (block_split b) as [Hbs _].
  destruct (getseg_within 1 r f n l s false (Z.lor EXTENSION_FAIL EXTENSION_CREATE_RECOVERY) b)
    as (v & s1 & G1 & O1 & Hv); [done|done|done|lia|done|].
  rewrite (M_bind_run _ _ _ v s1) by (unfold getseg_or_fail; by rewrite (M_bind_run _ _ _ _ _ G1)).
  cbv zeta. rewrite Hmin, Z.eqb_refl, seekpos_nat. cbn [negb].
  replace (Z.to_nat (Z.of_nat m * BLCKSZ)) with (m * B)%nat by (rewrite <- B_Z; lia).
  pose proof (on_ok _ _ _ _ (os_only _ _ _ _ _ _ O1)) as Hok1.
  destruct (open_seg _ _ _ _ _ _ _ Hok1 (os_fork _ _ _ _ _ _ O1) Hv) as (_ & _ & _ & Hh & Hs).
  assert (blocks_ok (seg_blocks l (b / RS))) as Hbok by apply seg_blocks_ok, Hf. pose proof B_pos.
  destruct (read_loop_run (S (m * B)) (mdfd_vfd v) (path r f (b / RS)) (mjoin (seg_blocks l (b / RS))) (b mod RS * B) (m * B) [] s1) as (x & R1 & R2 & R3);
    [by apply (on_sched _ _ _ _ (os_only _ _ _ _ _ _ O1))|apply Hok1|done|exact Hs|simpl; nia| |simpl; lia|].
  { rewrite length_mjoin, seg_blocks_length by done. simpl. nia. }
  simpl length in R1. rewrite Nat.sub_0_r in R1. simpl app in R1. rewrite (M_bind_run _ _ _ _ _ R1).
  destruct (touched_only r f (b / RS) s1 x Hok1 R2) as (T1 & T2 & T3).
  exists (set_fs x s1). split.
  - unfold mret, M_ret. f_equal. f_equal. rewrite drop_mjoin, take_mjoin, Nat2Z.id by (try done; by apply blocks_ok_drop).
    assert (take m (drop (b mod RS) (seg_blocks l (b / RS))) = spec_read l b m) as ->.
    { unfold seg_blocks, spec_read. rewrite skipn_firstn_comm, take_take, drop_drop, <- Hbs. f_equal. lia. }
    assert (length (spec_read l b m) = m) as Hlen by (unfold spec_read; rewrite length_take, length_drop; lia).
    rewrite <- Hlen at 1. apply to_blocks_mjoin. unfold spec_read. apply blocks_ok_take, blocks_ok_drop, Hf.
  - eapply opens_trans; [exact O1|]. constructor; [done| |by rewrite T3].
    eapply fork_files_ext; [apply O1| |rewrite T3; apply O1]. intros j.
    destruct (decide (j = b / RS)%nat) as [->|]; [by rewrite Hs|by apply T2].
Qed.

(** ** Writing *)

Lemma length_pwrite c off bs : bs ≠ [] → length (pwrite c off bs) = ((off + length bs) `max` length c)%nat.
Proof.
  intros Hne. unfold pwrite. destruct bs as [|b0 bs']; [done|]. set (bs := b0 :: bs'). unfold zeros.
  rewrite !length_app, length_take, length_drop, length_app, length_replicate. lia.
Qed.

Lemma pwrite_app c off b1 b2 : b1 ≠ [] → b2 ≠ [] → pwrite (pwrite c off b1) (off + length b1) b2 = pwrite c off (b1 ++ b2).
Proof.
  intros H1 H2. pose proof (length_pwrite c off b1 H1) as Hl.
  unfold pwrite at 1 3. destruct b2 as [|y2 t2]; [done|]. set (b2 := y2 :: t2) in *.
  destruct (b1 ++ b2) as [|y t] eqn:E; [by destruct b1|]. rewrite <- E. clear E y t.
  replace (off + length b1 - length (pwrite c off b1))%nat with 0%nat by lia. simpl zeros. rewrite app_nil_r.
  assert (pwrite c off b1 = (take off (c ++ zeros (off - length c)) ++ b1) ++ drop (off + length b1) c) as ->.
  { unfold pwrite. destruct b1; [done|]. by rewrite <- app_assoc. }
  assert (length (take off (c ++ zeros (off - length c))) = off) as Ht.
  { unfold zeros. rewrite length_take, length_app, length_replicate. lia. }
  rewrite take_app_length' by (rewrite length_app; lia). rewrite <- !app_assoc. f_equal. f_equal. f_equal.
  rewrite app_assoc. rewrite drop_app_ge by (rewrite length_app; lia). rewrite drop_drop, !length_app, Ht. f_equal. lia.
Qed.

Lemma write_loop_run fuel vfd p c (pos : nat) bytes s :
  calm (md_fs s) → fs_ok (md_fs s) → handle vfd p (md_fs s) → file_at p (md_fs s) = Some c →
  (0 < length bytes < fuel)%nat →
  ∃ x, write_loop fuel vfd pos bytes s = (Ok tt, set_fs x s) ∧ touches p (md_fs s) x ∧
    file_at p x = Some (pwrite c pos bytes).
Proof.
  revert pos bytes c s. induction fuel as [|fuel IH]; intros pos bytes c s Hc Hok Hh Hf Hlen; [lia|].
  cbn [write_loop]. destruct (FileWriteV_run _ _ _ _ Hc Hok Hh Hf pos bytes) as (x & H1 & H2 & H3).
  set (t := transferred (event (md_fs s)) (length bytes)) in *.
  assert (1 <= t <= length bytes)%nat as Ht by (apply transferred_range; lia).
  rewrite (M_bind_run _ _ _ _ _ (sys_or_run _ _ _ _ _ _ H1)).
  destruct (Nat.eqb_spec t (length bytes)) as [Heq|Hne].
  { exists x. split; [done|]. split; [done|]. by rewrite H3, take_ge by lia. }
  destruct (IH (pos + t)%nat (drop t bytes) (pwrite c pos (take t bytes)) (set_fs x s)) as (x' & G1 & G2 & G3);
    [by apply (t_sched _ _ _ H2)|apply H2|by apply (t_handles _ _ _ H2)|exact H3|rewrite length_drop; lia|].
  exists x'. split; [exact G1|]. split; [by eapply touches_trans|]. rewrite G3. f_equal.
  replace (pos + t)%nat with (pos + length (take t bytes))%nat by (rewrite length_take; lia).
  assert (length (take t bytes) = t) as Hlt by (rewrite length_take; lia).
  rewrite pwrite_app; [by rewrite take_drop|..]; intros E%(f_equal length); simpl in E; rewrite ?length_drop in E; lia.
Qed.

Lemma mdwritev_run r f n l s (b : nat) bufs skip :
  md_ok s → calm (md_fs s) → fork_files r f n l s → (b + length bufs <= length l)%nat → in_segment b (length bufs) →
  blocks_ok bufs →
  ∃ s', mdwritev r f (Z.of_nat b) bufs skip s = (Ok tt, s') ∧ opens r f n (spec_write (Some l) b bufs) s s'.
Proof.
  intros Hok Hc Hf Hbm Hin Hbufs. destruct (in_segment_blocks b _ Hin) as [Hz Hmin]. destruct Hin as [H1 H2 H3].
  unfold mdwritev. rewrite Hz. pose proof RS_pos. destruct (block_split b) as [Hbs _].
  destruct (getseg_within 1 r f n l s skip (Z.lor EXTENSION_FAIL EXTENSION_CREATE_RECOVERY) b)
    as (v & s1 & G1 & O1 & Hv); [done|done|done|lia|done|].
  rewrite (M_bind_run _ _ _ v s1) by (unfold getseg_or_fail; by rewrite (M_bind_run _ _ _ _ _ G1)).
  cbv zeta. rewrite Hmin, Z.eqb_refl, seekpos_nat. cbn [negb].
  pose proof (on_ok _ _ _ _ (os_only _ _ _ _ _ _ O1)) as Hok1.
  pose proof (os_fork _ _ _ _ _ _ O1) as Hf1. pose proof B_pos.
  destruct (open_seg _ _ _ _ _ _ _ Hok1 Hf1 Hv) as (_ & _ & _ & Hh & Hs).
  destruct (write_loop_run (S (length (mjoin bufs))) (mdfd_vfd v) (path r f (b / RS)) (mjoin (seg_blocks l (b / RS))) (b mod RS * B) (mjoin bufs) s1)
    as (x & R1 & R2 & R3);
    [by apply (on_sched _ _ _ _ (os_only _ _ _ _ _ _ O1))|apply Hok1|done|exact Hs|rewrite length_mjoin by done; nia|].
  rewrite (M_bind_run _ _ _ _ _ R1). pose proof (ff_max _ _ _ _ _ Hf) as Hmax.
  destruct (segment_write r f n l s1 (b / RS) v Hok1 Hf1 Hv (b mod RS) bufs x) as (W1 & W2 & W3);
    [done|by destruct bufs; [simpl in *; lia|]|done|done|rewrite <- Hbs; lia|done|].
  rewrite <- Hbs in W3. set (l' := spec_write (Some l) b bufs) in *.
  destruct (maybe_dirty_run r f n l' (set_fs x s1) v) with (b := negb skip && negb (RelFileLocatorBackendIsTemp r))
    as (s2 & D0 & [D1 D2 D3]); [apply W1| |done|].
  { apply (on_sched _ _ _ _ W1). by apply (on_sched _ _ _ _ (os_only _ _ _ _ _ _ O1)). }
  exists s2. split; [exact D0|].
  constructor; [eapply only_trans; [apply O1|by eapply only_trans]|done|rewrite D3, W2; apply O1].
Qed.
End io.
End MdIo.
