(* ===== verification/MdDrop.v ===== *)
(** * MdDrop: closing, truncating, creating and unlinking a fork *)

From Stdlib Require Import ZArith Lia Bool Strings.Byte.
From stdpp Require Import base tactics numbers list gmap strings pretty.
From S2P Require Import Prelude RelPath MemSmgr MemSmgrRefine Md FileSys MdInv MdRefine MdOps MdIo.
Import Md MdInv MdRefine MdOps MdIo.

Local Open Scope Z_scope.
Local Open Scope pg_scope.

Module MdDrop.

Section drop.
Context {env : Env} {mde : MdEnv}.
Implicit Types (r : RelFileLocatorBackend) (f : ForkNumber) (s : MdState) (v : MdfdVec) (l bufs : list Block).

(** ** Closing *)

Definition close_seg r f v (vs : list MdfdVec) s : MdState :=
  with_segs r f vs (set_fs (FileClose (mdfd_vfd v) (md_fs s)) s).

Lemma close_last r f vs v s :
  md_ok s → open_segs r f s = vs ++ [v] →
  only r f s (close_seg r f v vs s) ∧ (∀ k, seg r f k (close_seg r f v vs s) = seg r f k s) ∧
  open_segs r f (close_seg r f v vs s) = vs.
Proof.
  intros Hok Ho. destruct (FileClose_ok (mdfd_vfd v) (md_fs s) (mo_fs _ Hok)) as (C1 & C2 & C3 & C4 & C5).
  assert (open_segs r f s !! length vs = Some v) as Hv.
  { rewrite Ho, lookup_app_r by lia. by rewrite Nat.sub_diag. }
  assert (∀ r' f' i v', open_segs r' f' (close_seg r f v vs s) !! i = Some v' →
    open_segs r' f' s !! i = Some v' ∧ (r', f', i) ≠ (r, f, length vs)) as Hcase.
  { intros r' f' i v'. unfold close_seg, with_segs. destruct (decide ((r', f') = (r, f))) as [[= -> ->]|Hne].
    - rewrite open_segs_set. intros E. pose proof (lookup_lt_Some _ _ _ E). split; [|intros [= ->]; lia].
      rewrite Ho. by apply lookup_app_l_Some.
    - rewrite open_segs_set_ne by done. intros E. split; [done|]. intros [= -> ->]. done. }
  split_and!; [|done|unfold close_seg, with_segs; by rewrite open_segs_set].
  constructor; [|intros q _; apply C3| |done|done].
  - constructor; [done| | |].
    + intros r' f' i v' [Hv' Hne]%Hcase. destruct (mo_open _ Hok _ _ _ _ Hv') as [H1 H2]. split; [done|].
      apply C4; [|done]. intros E. apply Hne. by apply (mo_inj _ Hok r' f' i v' r f (length vs) v).
    + intros r1 f1 i1 v1 r2 f2 i2 v2 [H1 _]%Hcase [H2 _]%Hcase. by apply (mo_inj _ Hok).
    + intros r' f' Hne. apply (mo_valid _ Hok). destruct (open_segs r' f' _) as [|v' ?] eqn:E in Hne; [done|].
      destruct (Hcase r' f' 0%nat v') as [E' _]; [by rewrite E|]. by intros Hz; rewrite Hz in E'.
  - intros r' f' Hne. unfold close_seg, with_segs. by rewrite open_segs_set_ne.
Qed.

(** Reading off the last open segment, closing it and shrinking the array. *)
Lemma close_step {A} r f vs v s (k : M MdState A) :
  open_segs r f s = vs ++ [v] →
  (modify (λ s, set_fs (FileClose (mdfd_vfd v) (md_fs s)) s);; _fdvec_resize r f (length vs);; k) s =
    k (close_seg r f v vs s).
Proof.
  intros Ho. rewrite (M_bind_run _ _ _ tt (set_fs (FileClose (mdfd_vfd v) (md_fs s)) s)) by done.
  set (s1 := set_fs _ s). assert (open_segs r f s1 = vs ++ [v]) as Ho1 by exact Ho.
  rewrite (M_bind_run _ _ _ _ _ (resize_run r f (length vs) s1 ltac:(rewrite Ho1, length_app; lia))).
  f_equal. rewrite Ho1, take_app_length. done.
Qed.

Lemma last_seg r f s n : length (open_segs r f s) = S n → ∃ vs v, open_segs r f s = vs ++ [v] ∧ length vs = n.
Proof.
  intros H. destruct (open_segs r f s) as [|v vs] eqn:E using rev_ind; [done|]. exists vs, v.
  rewrite length_app in H. simpl in H. split; [done|lia].
Qed.

Lemma close_segs_run r f n s :
  md_ok s → length (open_segs r f s) = n →
  ∃ s', close_segs r f n s = (Ok tt, s') ∧ only r f s s' ∧ (∀ k, seg r f k s' = seg r f k s) ∧ open_segs r f s' = [].
Proof.
  revert s. induction n as [|n IH]; intros s Hok Hn.
  { exists s. split; [done|]. split_and!; [by constructor|done|by apply nil_length_inv]. }
  destruct (last_seg r f s n Hn) as (vs & v & Ho & Hl). cbn [close_segs].
  rewrite (M_bind_run _ _ _ v s).
  2:{ apply seg_fd_run. rewrite Ho, lookup_app_r by lia. by rewrite Hl, Nat.sub_diag. }
  rewrite <- Hl, (close_step r f vs v s _ Ho). destruct (close_last r f vs v s Hok Ho) as (C1 & C2 & C3).
  destruct (IH (close_seg r f v vs s)) as (s' & G1 & G2 & G3 & G4); [apply C1|by rewrite C3|].
  rewrite Hl. exists s'. split; [exact G1|]. split_and!; [by eapply only_trans|intros k; by rewrite G3|done].
Qed.

Lemma mdclose_run r f s :
  md_ok s → ∃ s', mdclose r f s = (Ok tt, s') ∧ only r f s s' ∧ (∀ k, seg r f k s' = seg r f k s) ∧ open_segs r f s' = [].
Proof.
  intros Hok. unfold mdclose. rewrite (M_bind_run _ _ _ (length (open_segs r f s)) s) by done. by apply close_segs_run.
Qed.

(** ** Truncating *)

(** Nothing to do below the segment the new end lies in. *)
Lemma truncate_loop_done r f (m k : nat) s :
  (k * RS <= m)%nat → Z.of_nat (k * RS) < 2 ^ 32 → (k <= length (open_segs r f s))%nat →
  truncate_loop r f (Z.of_nat m) k s = (Ok tt, s).
Proof.
  intros Hk Hmax Hl. destruct k as [|k]; [done|]. cbn [truncate_loop]. pose proof RS_pos.
  destruct (lookup_lt_is_Some_2 (open_segs r f s) k) as [v Hv]; [lia|].
  rewrite (M_bind_run _ _ _ _ _ (seg_fd_run _ _ _ _ _ Hv)). rewrite <- RS_Z.
  assert (wrap32 (Z.of_nat k * Z.of_nat RS) = Z.of_nat (k * RS)) as -> by (rewrite wrap32_small; mlia).
  rewrite wrap32_small by mlia. destruct (Z.ltb_spec (Z.of_nat m) (Z.of_nat (k * RS))); [lia|].
  destruct (Z.ltb_spec (Z.of_nat m) (Z.of_nat (k * RS) + Z.of_nat RS)); [lia|done].
Qed.

(** Cutting the open segment [k] to the blocks before [m]. *)
Lemma truncate_seg r f n l s k v (m : nat) :
  md_ok s → calm (md_fs s) → fork_files r f n l s → open_segs r f s !! k = Some v → length (open_segs r f s) = S k →
  (k * RS <= m)%nat → (m <= length l)%nat → (length l <= S k * RS)%nat →
  ∃ s', (sys_or (FileTruncate (mdfd_vfd v) ((m - k * RS) * B)) ERRCODE_FILE_ACCESS "could not truncate file";;
         (if negb (RelFileLocatorBackendIsTemp r) then register_dirty_segment r f v else mret tt)) s = (Ok tt, s') ∧
    only r f s s' ∧ fork_files r f n (take m l) s' ∧ open_segs r f s' = open_segs r f s.
Proof.
  intros Hok Hc Hf Hv Hlen Hkm Hml Hlk. destruct (open_seg _ _ _ _ _ _ _ Hok Hf Hv) as (Hkn & Hkl & _ & Hh & Hs).
  destruct (FileTruncate_run _ _ _ _ Hc (mo_fs _ Hok) Hh Hs ((m - k * RS) * B)) as (x & H1 & H2 & H3).
  rewrite (M_bind_run _ _ _ _ _ (sys_or_run _ _ _ _ _ _ H1)).
  rewrite ftruncate_blocks in H3 by (try apply seg_blocks_ok, Hf; rewrite seg_blocks_length; lia).
  destruct (touched_only r f k s x Hok H2) as (T1 & T2 & T3). pose proof Hf as [F1 F2 F3 F4 F5 F6 F7 F8]. pose proof RS_pos.
  assert (fork_files r f n (take m l) (set_fs x s)) as Hf'.
  { constructor; [rewrite length_take; lia|done|by apply blocks_ok_take| | | |rewrite length_take; lia|done].
    - intros j Hj. rewrite seg_blocks_take. destruct (decide (j = k)) as [->|Hjk]; [exact H3|].
      etrans; [by apply T2|]. rewrite F4 by done. f_equal. f_equal. symmetry. apply take_ge. rewrite seg_blocks_length.
      assert (j < k ∨ k < j)%nat as [Hlt|Hgt] by lia.
      + assert (S j * RS <= k * RS)%nat by (apply Nat.mul_le_mono_r; lia). simpl in *. lia.
      + assert (S k * RS <= j * RS)%nat by (apply Nat.mul_le_mono_r; lia). lia.
    - intros j Hj. rewrite <- (F5 j Hj). apply T2. lia.
    - rewrite T3, Hlen, length_take. apply le_n_S. apply Nat.div_le_lower_bound; lia. }
  destruct (maybe_dirty_run r f n (take m l) (set_fs x s) v) with (b := negb (RelFileLocatorBackendIsTemp r))
    as (s2 & D0 & [D1 D2 D3]); [apply T1|by apply (on_sched _ _ _ _ T1)|done|].
  exists s2. split; [exact D0|]. split_and!; [by eapply only_trans|done|by rewrite D3, T3].
Qed.

Lemma truncate_loop_run r f n l s (m k : nat) :
  md_ok s → calm (md_fs s) → fork_files r f n l s → length (open_segs r f s) = k → (length l <= k * RS)%nat →
  (m <= length l)%nat → Z.of_nat (k * RS) < 2 ^ 32 →
  ∃ s', truncate_loop r f (Z.of_nat m) k s = (Ok tt, s') ∧ only r f s s' ∧ fork_files r f n (take m l) s' ∧
    (m <= length (open_segs r f s') * RS)%nat.
Proof.
  revert l s. induction k as [|k IH]; intros l s Hok Hc Hf Hlen Hl Hm Hmax.
  { exists s. split; [done|]. split; [by constructor|]. rewrite take_ge by lia. split; [done|lia]. }
  destruct (last_seg r f s k Hlen) as (vs & v & Ho & Hvs). pose proof RS_pos.
  assert (open_segs r f s !! k = Some v) as Hv by (rewrite Ho, lookup_app_r by lia; by rewrite Hvs, Nat.sub_diag).
  destruct (open_seg _ _ _ _ _ _ _ Hok Hf Hv) as (Hkn & Hkl & _). cbn [truncate_loop].
  rewrite (M_bind_run _ _ _ _ _ (seg_fd_run _ _ _ _ _ Hv)). rewrite <- RS_Z.
  assert (wrap32 (Z.of_nat k * Z.of_nat RS) = Z.of_nat (k * RS)) as -> by (rewrite wrap32_small; mlia).
  destruct (Z.ltb_spec (Z.of_nat m) (Z.of_nat (k * RS))) as [Hlt|Hge].
  - destruct (truncate_seg r f n l s k v (k * RS)) as (s1 & T0 & T1 & T2 & T3); [done..|].
    rewrite Nat.sub_diag in T0. simpl in T0. apply M_bind_ok in T0 as (? & s0 & Ta & Tb).
    rewrite (M_bind_run _ _ _ _ _ Ta), (M_bind_run _ _ _ _ _ Tb). rewrite Ho in T3.
    pose proof (close_step r f vs v s1 (truncate_loop r f (Z.of_nat m) k) T3) as Hcs. rewrite Hvs in Hcs. rewrite Hcs.
    destruct (close_last r f vs v s1 (on_ok _ _ _ _ T1) T3) as (C1 & C2 & C3).
    destruct (IH (take (k * RS) l) (close_seg r f v vs s1)) as (s' & G1 & G2 & G3 & G4);
      [apply C1|apply (on_sched _ _ _ _ C1); by apply (on_sched _ _ _ _ T1)| |by rewrite C3|rewrite length_take; lia
      |rewrite length_take; lia|mlia|].
    + eapply fork_files_ext; [exact T2|done|]. rewrite C3, Hvs, length_take.
      apply Nat.le_le_succ_r, Nat.div_le_lower_bound; lia.
    + rewrite take_take in G3. replace (m `min` (k * RS))%nat with m in G3 by lia. exists s'. split; [exact G1|].
      split; [by eapply only_trans; [exact T1|eapply only_trans]|done].
  - rewrite wrap32_small by mlia.
    destruct (Z.ltb_spec (Z.of_nat m) (Z.of_nat (k * RS) + Z.of_nat RS)) as [Hin|Hout].
    + replace (wrap32 (Z.of_nat m - Z.of_nat (k * RS))) with (Z.of_nat (m - k * RS)) by (rewrite wrap32_small; mlia).
      rewrite <- B_Z, <- Nat2Z.inj_mul, Nat2Z.id.
      destruct (truncate_seg r f n l s k v m) as (s1 & T0 & T1 & T2 & T3); [done|done|done|done|done|lia|done|done|].
      apply M_bind_ok in T0 as (? & s0 & Ta & Tb).
      rewrite (M_bind_run _ _ _ _ _ Ta), (M_bind_run _ _ _ _ _ Tb).
      rewrite truncate_loop_done; [|lia|mlia|rewrite T3; lia]. exists s1. split_and!; [done..|]. rewrite T3, Hlen. lia.
    + exists s. split; [done|]. split; [by constructor|]. rewrite take_ge by lia. split; [done|]. rewrite Hlen. lia.
Qed.

Lemma mdtruncate_run r f n l s (m : nat) :
  md_ok s → calm (md_fs s) → fork_files r f n l s → (length l <= length (open_segs r f s) * RS)%nat →
  (m <= length l)%nat → Z.of_nat (length (open_segs r f s) * RS) < 2 ^ 32 →
  ∃ s', mdtruncate r f (Z.of_nat (length l)) (Z.of_nat m) s = (Ok tt, s') ∧ only r f s s' ∧ fork_files r f n (take m l) s' ∧
    (m <= length (open_segs r f s') * RS)%nat.
Proof.
  intros Hok Hc Hf Ho Hm Hmax. unfold mdtruncate.
  destruct (Z.ltb_spec (Z.of_nat (length l)) (Z.of_nat m)); [lia|].
  destruct (Z.eqb_spec (Z.of_nat m) (Z.of_nat (length l))) as [E|Hne].
  { exists s. split; [done|]. split; [by constructor|]. rewrite take_ge by lia. split; [done|lia]. }
  rewrite (M_bind_run _ _ _ (length (open_segs r f s)) s) by done. by apply truncate_loop_run.
Qed.

(** ** Creating *)

(** The fork has no file and no open segment. *)
Record md_absent r f s : Prop := {
  ab_files k : seg r f k s = None;
  ab_open : open_segs r f s = [];
}.

Lemma pop_absent r f s :
  md_ok s → md_absent r f s → only r f s (set_fs (pop (md_fs s)) s) ∧ md_absent r f (set_fs (pop (md_fs s)) s).
Proof.
  intros Hok [A1 A2]. destruct (pop_only r f s Hok) as [P1 P2]. split; [done|]. constructor; [|done].
  intros k. by rewrite P2.
Qed.

(** The end of mdcreate: the first segment becomes the open one. *)
Lemma create_tail r f n l s fd x v :
  md_ok s → valid_fork r f → open_segs r f s = [] → only r f s (set_fs x s) → fs_next (md_fs s) <= fd →
  handle fd (path r f 0) x → calm x → v = {| mdfd_vfd := fd; mdfd_segno := 0 |} →
  fork_files r f n l (set_fs x s) →
  ∃ s', (_fdvec_resize r f 1;; seg_fill r f 0 v;;
         if negb (RelFileLocatorBackendIsTemp r) then register_dirty_segment r f v else mret tt) (set_fs x s) = (Ok tt, s') ∧
    only r f s s' ∧ fork_files r f n l s' ∧ open_segs r f s' = [v].
Proof.
  intros Hok Hval Ho Hon Hfd Hh Hc Hv Hf. assert (open_segs r f (set_fs x s) = []) as Ho' by exact Ho.
  pose proof (append_run r f v (set_fs x s)
    (if negb (RelFileLocatorBackendIsTemp r) then register_dirty_segment r f v else mret tt)) as Ha.
  rewrite Ho' in Ha. simpl in Ha. rewrite Ha.
  pose proof (append_only r f v s fd x Hok Hval Hon Hfd) as Hap. rewrite Ho in Hap. specialize (Hap Hh Hv).
  set (s1 := with_segs r f [v] (set_fs x s)) in *.
  assert (open_segs r f s1 = [v]) as Ho1 by (unfold s1, with_segs; by rewrite open_segs_set).
  destruct (maybe_dirty_run r f n l s1 v) with (b := negb (RelFileLocatorBackendIsTemp r)) as (s2 & D0 & [D1 D2 D3]);
    [apply Hap|done|eapply fork_files_ext; [exact Hf|done|rewrite Ho1; simpl; lia]|].
  exists s2. split; [exact D0|]. split_and!; [by eapply only_trans|done|by rewrite D3].
Qed.

Lemma mdcreate_new r f isRedo s :
  md_ok s → calm (md_fs s) → valid_fork r f → md_absent r f s →
  TablespaceCreateDbspace (spcOid (locator r)) (dbOid (locator r)) isRedo = Ok tt →
  ∃ s', mdcreate r f isRedo s = (Ok tt, s') ∧ only r f s s' ∧ fork_files r f 1 [] s'.
Proof.
  intros Hok Hc Hval [A1 A2] Hts. unfold mdcreate. rewrite (M_bind_run _ _ _ 0%nat s) by (unfold num_open, gets; by rewrite A2).
  rewrite andb_false_r. rewrite (M_bind_run _ _ _ tt s) by (unfold lift; by rewrite Hts). cbv zeta.
  destruct (PathNameOpenFile_new (path r f 0) (md_fs s) true) as (fd & x & Ho & Ht & Hx & Hh & Hfd);
    [done|apply Hok|apply A1|].
  rewrite (M_bind_run _ _ _ _ _ (on_sys_run _ s _ _ Ho)). rewrite (M_bind_run _ _ _ fd (set_fs x s)) by done.
  destruct (touched_only r f 0 s x Hok Ht) as (Hon & Hseg & Hos).
  destruct (create_tail r f 1 [] s fd x {| mdfd_vfd := fd; mdfd_segno := 0 |}) as (s' & G1 & G2 & G3 & G4);
    [done|done|done|done|apply Hfd|done|by apply (on_sched _ _ _ _ Hon)|done| |by exists s'].
  constructor; [simpl; lia|lia|by constructor| | |rewrite Hos, A2; simpl; lia|by vm_compute|done].
  - intros k Hk. assert (k = 0)%nat as -> by lia. rewrite seg_blocks_nil by (simpl; lia). exact Hx.
  - intros k Hk. rewrite Hseg by lia. apply A1.
Qed.

(** In redo the fork may exist, and keeps its blocks. *)
Lemma mdcreate_redo r f n l s :
  md_ok s → calm (md_fs s) → fork_files r f n l s →
  TablespaceCreateDbspace (spcOid (locator r)) (dbOid (locator r)) true = Ok tt →
  ∃ s', mdcreate r f true s = (Ok tt, s') ∧ only r f s s' ∧ fork_files r f n l s' ∧
    open_segs r f s `prefix_of` open_segs r f s'.
Proof.
  intros Hok Hc Hf Hts. unfold mdcreate. rewrite (M_bind_run _ _ _ (length (open_segs r f s)) s) by done.
  destruct (open_segs r f s) as [|v0 vs] eqn:E.
  2: { exists s. split_and!; [done|by constructor|done|]. by rewrite E. }
  cbn [length Nat.ltb Nat.leb andb]. rewrite (M_bind_run _ _ _ tt s) by (unfold lift; by rewrite Hts). cbv zeta.
  assert (0 < n)%nat by apply Hf. pose proof (ff_segs _ _ _ _ _ Hf 0%nat ltac:(lia)) as Hs.
  rewrite (M_bind_run _ _ _ _ _ (on_sys_run _ s _ _ (PathNameOpenFile_exists (path r f 0) (md_fs s) _ Hc Hs))).
  destruct (pop_stays r f n l s Hok Hf) as [P1 P2 P3]. set (s1 := set_fs (pop (md_fs s)) s) in *.
  assert (calm (md_fs s1)) as Hc1 by by apply (on_sched _ _ _ _ P1).
  destruct (PathNameOpenFile_old (path r f 0) (md_fs s1) (mjoin (seg_blocks l 0)) false) as
    (fd & x & Ho & Ht & Hx & Hh & Hfd); [done|apply P1|by apply P2|].
  rewrite (M_bind_run _ _ _ fd (set_fs x s1)) by (by apply sys_or_run).
  destruct (touched_only r f 0 s1 x (on_ok _ _ _ _ P1) Ht) as (Hon & Hseg & Hos). rewrite P3, E in Hos.
  destruct (create_tail r f n l s1 fd x {| mdfd_vfd := fd; mdfd_segno := 0 |}) as (s' & G1 & G2 & G3 & G4);
    [apply P1|apply Hf|by rewrite P3|done|apply Hfd|done|by apply (on_sched _ _ _ _ Hon)|done| |].
  - eapply fork_files_ext; [exact P2| |rewrite Hos; simpl; lia]. intros j.
    destruct (decide (j = 0)%nat) as [->|Hj]; [|by apply Hseg]. etrans; [exact Hx|symmetry; by apply P2].
  - exists s'. split_and!; [exact G1|by eapply only_trans|done|apply prefix_nil].
Qed.

Lemma mdcreate_exists r f n l s :
  md_ok s → calm (md_fs s) → fork_files r f n l s →
  TablespaceCreateDbspace (spcOid (locator r)) (dbOid (locator r)) false = Ok tt →
  ∃ msg s', mdcreate r f false s = (Error ERRCODE_FILE_ACCESS msg, s') ∧ only r f s s' ∧ fork_files r f n l s'.
Proof.
  intros Hok Hc Hf Hts. unfold mdcreate. rewrite (M_bind_run _ _ _ (length (open_segs r f s)) s) by done.
  cbn [andb]. rewrite (M_bind_run _ _ _ tt s) by (unfold lift; by rewrite Hts). cbv zeta.
  assert (0 < n)%nat by apply Hf. pose proof (ff_segs _ _ _ _ _ Hf 0%nat ltac:(lia)) as Hs.
  rewrite (M_bind_run _ _ _ _ _ (on_sys_run _ s _ _ (PathNameOpenFile_exists (path r f 0) (md_fs s) _ Hc Hs))).
  destruct (pop_stays r f n l s Hok Hf) as [P1 P2 P3]. do 2 eexists. split; [reflexivity|]. by split.
Qed.

(** ** Existence *)

Lemma maybe_close_run (b : bool) r f s :
  md_ok s → ∃ s', (if b then mdclose r f else mret tt) s = (Ok tt, s') ∧ only r f s s' ∧
    (∀ k, seg r f k s' = seg r f k s) ∧ (length (open_segs r f s') <= length (open_segs r f s))%nat ∧
    (b = false → s' = s).
Proof.
  intros Hok. destruct b; [|by exists s; split_and!; [|constructor| | |]].
  destruct (mdclose_run r f s Hok) as (s' & H1 & H2 & H3 & H4). exists s'. split_and!; try done. rewrite H4. simpl. lia.
Qed.

Lemma mdexists_run r f n l s :
  md_ok s → calm (md_fs s) → fork_files r f n l s →
  ∃ s', mdexists r f s = (Ok true, s') ∧ only r f s s' ∧ fork_files r f n l s' ∧
    (InRecovery = true → open_segs r f s `prefix_of` open_segs r f s').
Proof.
  intros Hok Hc Hf. unfold mdexists.
  destruct (maybe_close_run (negb InRecovery) r f s Hok) as (s1 & H1 & H2 & H3 & H4 & H5).
  rewrite (M_bind_run _ _ _ _ _ H1). assert (fork_files r f n l s1) as Hf1.
  { eapply fork_files_ext; [done|done|]. pose proof (ff_open _ _ _ _ _ Hf). lia. }
  destruct (mdopenfork_run r f n l s1 EXTENSION_RETURN_NULL) as (v & s2 & G1 & G2 & _);
    [apply H2|by apply (on_sched _ _ _ _ H2)|done|].
  rewrite (M_bind_run _ _ _ _ _ G1). exists s2. split; [done|].
  split_and!; [eapply only_trans; [done|apply G2]|apply G2|]. intros Hr. rewrite Hr in H5. rewrite <- (H5 eq_refl). apply G2.
Qed.

Lemma mdexists_absent r f s :
  md_ok s → calm (md_fs s) → md_absent r f s →
  ∃ s', mdexists r f s = (Ok false, s') ∧ only r f s s' ∧ md_absent r f s'.
Proof.
  intros Hok Hc [A1 A2]. unfold mdexists.
  destruct (maybe_close_run (negb InRecovery) r f s Hok) as (s1 & H1 & H2 & H3 & H4 & _).
  rewrite (M_bind_run _ _ _ _ _ H1). rewrite A2 in H4. simpl in H4. apply Nat.le_0_r, nil_length_inv in H4.
  assert (md_absent r f s1) as Ha by (constructor; [intros k; by rewrite H3|done]).
  destruct (pop_absent r f s1 (on_ok _ _ _ _ H2) Ha) as [P1 P2]. exists (set_fs (pop (md_fs s1)) s1).
  split; [|by split; [eapply only_trans|]]. unfold mdopenfork.
  rewrite (M_bind_run _ _ _ None (set_fs (pop (md_fs s1)) s1)); [done|].
  rewrite (M_bind_run _ _ _ 0%nat s1) by (unfold num_open, gets; by rewrite H4). cbn [Nat.ltb Nat.leb].
  rewrite (M_bind_run _ _ _ _ _ (on_sys_run _ s1 _ _ (PathNameOpenFile_missing (path r f 0) (md_fs s1)
    (ks_calm _ _ (on_sched _ _ _ _ H2) Hc) (ab_files _ _ _ Ha 0) (mo_fs _ (on_ok _ _ _ _ H2))))).
  done.
Qed.
End drop.
End MdDrop.
