(* ===== verification/MdUnlink.v ===== *)
(** * MdUnlink: unlinking a fork

    [mdunlinkfork] removes every segment file of a closed fork, active or not;
    or, where the name has to be kept until the next checkpoint, leaves an
    empty first segment and asks the checkpointer to remove it. *)

From Stdlib Require Import ZArith Lia Bool Strings.Byte.
From stdpp Require Import base tactics numbers list gmap strings pretty.
From S2P Require Import Prelude RelPath MemSmgr MemSmgrRefine Md FileSys MdInv MdRefine MdOps MdIo MdDrop.
Import Md MdInv MdRefine MdOps MdIo MdDrop.

Local Open Scope Z_scope.
Local Open Scope pg_scope.

Module MdUnlink.

Section unlink.
Context {env : Env} {mde : MdEnv}.
Implicit Types (r : RelFileLocatorBackend) (f : ForkNumber) (s : MdState) (v : MdfdVec) (l bufs : list Block).

(** ** One file *)

(** Of a closed fork, from [s] to [s'] only the file of segment [k] changes. *)
Record one_file r f (k : nat) (c : option (list byte)) s s' : Prop := {
  of_only : only r f s s';
  of_open : open_segs r f s' = [];
  of_here : seg r f k s' = c;
  of_other j : j ≠ k → seg r f j s' = seg r f j s;
  of_requests : md_requests s `prefix_of` md_requests s';
}.

Section file.
Context r f (Hval : valid_fork r f) s (Hok : md_ok s) (Hc : calm (md_fs s)) (Ho : open_segs r f s = []).

Lemma unlink_file k c :
  seg r f k s = Some c →
  ∃ s', on_sys (unlink (path r f k)) s = (Ok (inr tt), s') ∧ one_file r f k None s s'.
Proof.
  intros Hk. destruct (unlink_run (path r f k) (md_fs s) c Hc (mo_fs _ Hok) Hk) as (x & H1 & H2 & H3 & H4 & H5 & H6 & H7 & H8).
  exists (set_fs x s). split; [by apply on_sys_run|]. constructor; [|done|done|intros j Hj; apply H5; by intros E%path_inj|done].
  constructor; [|intros q Hq; by apply H5|done|done|done]. constructor; [done| |apply Hok|apply Hok].
  intros r' f' i v Hv. destruct (mo_open _ Hok _ _ _ _ Hv) as [G1 G2]. split; [done|]. apply H6; [|done].
  intros E. assert (valid_fork r' f') as Hval'.
  { apply (mo_valid _ Hok). intros Hz. unfold open_segs in *. simpl in Hv. by rewrite Hz in Hv. }
  apply path_valid_inj in E; [|done|done]. injection E as -> -> ->.
  change (open_segs r f s !! k = Some v) in Hv. by rewrite Ho in Hv.
Qed.

Lemma truncate_file k c :
  seg r f k s = Some c →
  ∃ s', do_truncate (path r f k) s = (Ok (inr tt), s') ∧ one_file r f k (Some []) s s'.
Proof.
  intros Hk. destruct (pg_truncate_run (path r f k) (md_fs s) c 0 Hc (mo_fs _ Hok) Hk) as (x & H1 & H2 & H3 & H4).
  exists (set_fs x s). split; [by apply on_sys_run|].
  destruct (touched_only r f k s x Hok H2) as (T1 & T2 & T3). constructor; [done|by rewrite T3| |done|done].
  unfold seg. simpl. by rewrite H3.
Qed.

Lemma missing_file k :
  seg r f k s = None →
  on_sys (unlink (path r f k)) s = (Ok (inl ENOENT), set_fs (pop (md_fs s)) s) ∧
  do_truncate (path r f k) s = (Ok (inl ENOENT), set_fs (pop (md_fs s)) s) ∧
  one_file r f k None s (set_fs (pop (md_fs s)) s).
Proof.
  intros Hk. destruct (missing_run (path r f k) (md_fs s) Hc (mo_fs _ Hok) Hk) as [H1 H2].
  split_and!; [by apply on_sys_run|by apply on_sys_run|]. destruct (pop_only r f s Hok) as [P1 P2].
  constructor; [done|done|by rewrite P2|intros j _; apply P2|done].
Qed.
End file.

Lemma one_file_request r f k c s s' q : one_file r f k c s s' → one_file r f k c s (add_request q s').
Proof.
  intros [O1 O2 O3 O4 O5]. constructor; [|done|done|done|by apply prefix_app_r].
  eapply only_trans; [exact O1|]. apply request_only, O1.
Qed.
Lemma one_file_trans r f k c1 c2 s1 s2 s3 : one_file r f k c1 s1 s2 → one_file r f k c2 s2 s3 → one_file r f k c2 s1 s3.
Proof.
  intros [O1 O2 O3 O4 O5] [P1 P2 P3 P4 P5]. constructor; [by eapply only_trans|done|done| |by etrans].
  intros j Hj. by rewrite P4, O4.
Qed.
Lemma one_file_calm r f k c s s' : one_file r f k c s s' → calm (md_fs s) → calm (md_fs s').
Proof. intros H. apply (on_sched _ _ _ _ (of_only _ _ _ _ _ _ H)). Qed.

(** ** The later segments *)

Lemma segpath_later r f k : (0 < k)%nat → relpath version_dir r f +:+ "." +:+ fmt_u (Z.of_nat k) = path r f k.
Proof. intros Hk. unfold path, _mdfd_segpath. by destruct (Z.ltb_spec 0 (Z.of_nat k)); [|lia]. Qed.

Lemma unlink_segs_run fuel r f k n s :
  valid_fork r f → md_ok s → calm (md_fs s) → open_segs r f s = [] → (0 < k <= n)%nat →
  (∀ j, (k <= j < n)%nat → is_Some (seg r f j s)) → (∀ j, (n <= j)%nat → seg r f j s = None) → (n - k < fuel)%nat →
  ∃ s', unlink_segs fuel r f k s = (Ok tt, s') ∧ only r f s s' ∧ open_segs r f s' = [] ∧
    (∀ j, (k <= j)%nat → seg r f j s' = None) ∧ (∀ j, (j < k)%nat → seg r f j s' = seg r f j s) ∧
    md_requests s `prefix_of` md_requests s'.
Proof.
  intros Hval. revert k s. induction fuel as [|fuel IH]; intros k s Hok Hc Ho Hk Hsome Hnone Hfuel; [lia|].
  cbn [unlink_segs]. cbv zeta. rewrite segpath_later by lia. destruct (decide (k = n)) as [->|Hkn].
  - destruct (missing_file r f s Hok Hc Ho n (Hnone n ltac:(lia))) as (M1 & M2 & [O1 O2 O3 O4 O5]).
    set (s1 := set_fs (pop (md_fs s)) s) in *. exists s1. split.
    + destruct (RelFileLocatorBackendIsTemp r); cbn [negb].
      * rewrite (M_bind_run _ _ _ false s) by done. by rewrite (M_bind_run _ _ _ _ _ M1).
      * rewrite (M_bind_run _ _ _ true s1); [done|]. by rewrite (M_bind_run _ _ _ _ _ M2).
    + split_and!; [done|done| |intros j Hj; apply O4; lia|done]. intros j Hj.
      destruct (decide (j = n)) as [->|]; [done|rewrite O4 by done; apply Hnone; lia].
  - destruct (Hsome k ltac:(lia)) as [c Hsk].
    assert (∃ c1 s1, (if negb (RelFileLocatorBackendIsTemp r) then
        ret ← do_truncate (path r f k);
        if is_enoent ret then mret true else register_forget_request r f (Z.of_nat k);; mret false
      else mret false) s = (Ok false, s1) ∧ one_file r f k (Some c1) s s1) as (c1 & s1 & T1 & T2).
    { destruct (RelFileLocatorBackendIsTemp r); cbn [negb]; [by exists c, s; split; [done|constructor; [by constructor|..]]|].
      destruct (truncate_file r f s Hok Hc Ho k c Hsk) as (s1 & T1 & T2). eexists [], _. split.
      - rewrite (M_bind_run _ _ _ _ _ T1). reflexivity.
      - by apply one_file_request. }
    rewrite (M_bind_run _ _ _ _ _ T1). pose proof (one_file_calm _ _ _ _ _ _ T2 Hc) as Hc1.
    destruct (unlink_file r f Hval s1 (on_ok _ _ _ _ (of_only _ _ _ _ _ _ T2)) Hc1 (of_open _ _ _ _ _ _ T2) k c1
      (of_here _ _ _ _ _ _ T2)) as (s2 & U1 & U2).
    rewrite (M_bind_run _ _ _ _ _ U1). pose proof (one_file_trans _ _ _ _ _ _ _ _ T2 U2) as [O1 O2 O3 O4 O5].
    destruct (IH (S k) s2) as (s3 & G1 & G2 & G3 & G4 & G5 & G6); [apply O1|by apply (one_file_calm _ _ _ _ _ _ U2)|done|lia| | |lia|].
    + intros j Hj. rewrite O4 by lia. apply Hsome. lia.
    + intros j Hj. rewrite O4 by lia. by apply Hnone.
    + exists s3. split; [exact G1|]. split_and!; [by eapply only_trans|done| | |by etrans].
      * intros j Hj. destruct (decide (j = k)) as [->|]; [by rewrite G5 by lia|apply G4; lia].
      * intros j Hj. rewrite G5, O4 by lia. done.
Qed.

(** ** A fork *)

(** Whether the first segment is removed at once. *)
Definition unlinks_now r f (isRedo : bool) : bool :=
  isRedo || IsBinaryUpgrade || negb (bool_decide (f = MAIN_FORKNUM)) || fastpg_immediate_unlink ||
  RelFileLocatorBackendIsTemp r.

Definition unlink_tag r f : FileTag := INIT_MD_FILETAG (locator r) f 0.

(** The segments after the first, in a fork that is empty but for it. *)
Lemma unlink_rest r f n s :
  valid_fork r f → md_ok s → calm (md_fs s) → open_segs r f s = [] → (0 < n <= size (fs_dir (md_fs s)) + 1)%nat →
  (∀ j, (0 < j < n)%nat → is_Some (seg r f j s)) → (∀ j, (n <= j)%nat → seg r f j s = None) →
  ∃ s', (fuel ← gets dir_fuel; unlink_segs fuel r f 1) s = (Ok tt, s') ∧ only r f s s' ∧ open_segs r f s' = [] ∧
    (∀ j, (0 < j)%nat → seg r f j s' = None) ∧ seg r f 0 s' = seg r f 0 s ∧ md_requests s `prefix_of` md_requests s'.
Proof.
  intros Hval Hok Hc Ho Hn Hsome Hnone. rewrite (M_bind_run _ _ _ (dir_fuel s) s) by done.
  destruct (unlink_segs_run (dir_fuel s) r f 1 n s) as (s' & G1 & G2 & G3 & G4 & G5 & G6);
    [done|done|done|done|lia|intros j Hj; apply Hsome; lia|done|unfold dir_fuel; lia|].
  exists s'. split_and!; try done. apply G5. lia.
Qed.

(** The number of files is below the size of the directory, up to one that was
    just removed. *)
Lemma files_bound r f n s :
  md_ok s → (∀ j, (0 < j < n)%nat → is_Some (seg r f j s)) → (n <= size (fs_dir (md_fs s)) + 1)%nat.
Proof.
  intros Hok Hsome. rewrite <- (size_dom (fs_dir (md_fs s))).
  assert (NoDup (path r f <$> seq 1 (n - 1))) as Hnd.
  { apply NoDup_fmap_2; [|apply NoDup_seq]. intros j k. apply path_inj. }
  assert (length (path r f <$> seq 1 (n - 1)) <= size (dom (fs_dir (md_fs s))))%nat as Hle.
  { rewrite <- (size_list_to_set (C := gset string)) by done. apply subseteq_size.
    intros p Hp%elem_of_list_to_set. apply list_elem_of_fmap in Hp as (k & -> & Hk).
    apply elem_of_seq in Hk. apply elem_of_dom. destruct (Hsome k ltac:(lia)) as [c Hs].
    unfold seg, file_at in Hs. by destruct (fs_dir (md_fs s) !! path r f k). }
  rewrite length_fmap, length_seq in Hle. lia.
Qed.

Lemma mdunlinkfork_now r f n l s isRedo :
  md_ok s → calm (md_fs s) → fork_files r f n l s → open_segs r f s = [] → unlinks_now r f isRedo = true →
  ∃ s', mdunlinkfork r f isRedo s = (Ok tt, s') ∧ only r f s s' ∧ md_absent r f s'.
Proof.
  intros Hok Hc Hf Ho Hnow. pose proof (ff_valid _ _ _ _ _ Hf) as Hval. unfold mdunlinkfork. cbv zeta.
  unfold unlinks_now in Hnow. rewrite Hnow. change (relpath version_dir r f) with (path r f 0).
  assert (0 < n)%nat as Hn by apply Hf. pose proof (ff_segs _ _ _ _ _ Hf 0 Hn) as Hs0.
  assert (∃ c1 s1, (if negb (RelFileLocatorBackendIsTemp r)
    then ret ← do_truncate (path r f 0); register_forget_request r f 0;; mret ret else mret (inr tt)) s =
      (Ok (inr tt), s1) ∧ one_file r f 0 (Some c1) s s1) as (c1 & s1 & T1 & T2).
  { destruct (RelFileLocatorBackendIsTemp r); cbn [negb]; [by eexists _, s; split; [done|constructor; [by constructor|..]]|].
    destruct (truncate_file r f s Hok Hc Ho 0 _ Hs0) as (s1 & T1 & T2). eexists [], _. split.
    - rewrite (M_bind_run _ _ _ _ _ T1). reflexivity.
    - by apply one_file_request. }
  pose proof (one_file_calm _ _ _ _ _ _ T2 Hc) as Hc1.
  destruct (unlink_file r f Hval s1 (on_ok _ _ _ _ (of_only _ _ _ _ _ _ T2)) Hc1 (of_open _ _ _ _ _ _ T2) 0 c1
    (of_here _ _ _ _ _ _ T2)) as (s2 & U1 & U2).
  rewrite (M_bind_run _ _ _ (inr tt) s2).
  2:{ rewrite (M_bind_run _ _ _ _ _ T1). cbn [is_enoent negb]. exact U1. }
  cbn [is_enoent negb]. pose proof (one_file_trans _ _ _ _ _ _ _ _ T2 U2) as [O1 O2 O3 O4 O5].
  assert (∀ j, (0 < j < n)%nat → is_Some (seg r f j s2)) as Hsome.
  { intros j Hj. rewrite O4 by lia. rewrite (ff_segs _ _ _ _ _ Hf) by lia. done. }
  destruct (unlink_rest r f n s2) as (s3 & G1 & G2 & G3 & G4 & G5 & G6); [done|apply O1|by apply (one_file_calm _ _ _ _ _ _ U2)|done|
    |done|intros j Hj; rewrite O4 by lia; by apply Hf|].
  { split; [done|]. apply (files_bound r f); [apply O1|done]. }
  exists s3. split; [exact G1|]. split; [by eapply only_trans|]. constructor; [|done]. intros [|j]; [by rewrite G5|apply G4; lia].
Qed.

(** Unlinking a fork that has no files does nothing. *)
Lemma mdunlinkfork_absent r f s isRedo :
  md_ok s → calm (md_fs s) → md_absent r f s →
  ∃ s', mdunlinkfork r f isRedo s = (Ok tt, s') ∧ only r f s s' ∧ md_absent r f s'.
Proof.
  intros Hok Hc [A1 A2]. unfold mdunlinkfork. cbv zeta.
  fold (unlinks_now r f isRedo). change (relpath version_dir r f) with (path r f 0).
  destruct (missing_file r f s Hok Hc A2 0 (A1 0%nat)) as (M1 & M2 & Hone).
  set (s1 := set_fs (pop (md_fs s)) s) in *.
  match goal with |- context [(mbind _ ?m) s] => assert (∃ s2, m s = (Ok (inl ENOENT), s2) ∧ one_file r f 0 None s s2)
    as (s2 & H1 & [O1 O2 O3 O4 O5]) end.
  { destruct (unlinks_now r f isRedo); [destruct (RelFileLocatorBackendIsTemp r); cbn [negb]|].
    - exists s1. split; [|done]. rewrite (M_bind_run _ _ _ (inr tt) s) by done. exact M1.
    - eexists. split; [|by apply one_file_request]. erewrite M_bind_run; [|rewrite (M_bind_run _ _ _ _ _ M2); reflexivity].
      reflexivity.
    - eexists. split; [|by apply one_file_request]. rewrite (M_bind_run _ _ _ _ _ M2). reflexivity. }
  rewrite (M_bind_run _ _ _ _ _ H1). exists s2. split; [done|]. split; [done|]. constructor; [|done].
  intros k. destruct (decide (k = 0)%nat) as [->|]; [done|]. by rewrite O4.
Qed.

(** The first segment is kept, empty, until the checkpointer has removed it. *)
Lemma mdunlinkfork_later r f n l s isRedo :
  md_ok s → calm (md_fs s) → fork_files r f n l s → open_segs r f s = [] → unlinks_now r f isRedo = false →
  ∃ s', mdunlinkfork r f isRedo s = (Ok tt, s') ∧ only r f s s' ∧ fork_files r f 1 [] s' ∧ open_segs r f s' = [] ∧
    (SYNC_UNLINK_REQUEST, unlink_tag r f) ∈ md_requests s'.
Proof.
  intros Hok Hc Hf Ho Hnow. pose proof (ff_valid _ _ _ _ _ Hf) as Hval. unfold mdunlinkfork. cbv zeta.
  unfold unlinks_now in Hnow. rewrite Hnow. change (relpath version_dir r f) with (path r f 0).
  assert (0 < n)%nat as Hn by apply Hf. pose proof (ff_segs _ _ _ _ _ Hf 0 Hn) as Hs0.
  destruct (truncate_file r f s Hok Hc Ho 0 _ Hs0) as (s1 & T1 & T2).
  set (s2 := add_request (SYNC_UNLINK_REQUEST, unlink_tag r f) s1).
  rewrite (M_bind_run _ _ _ (inr tt) s2).
  2:{ rewrite (M_bind_run _ _ _ _ _ T1). reflexivity. }
  pose proof (one_file_request r f 0 (Some []) s s1 (SYNC_UNLINK_REQUEST, unlink_tag r f) T2) as T3. fold s2 in T3.
  pose proof T3 as [O1 O2 O3 O4 O5]. cbn [is_enoent negb].
  assert (∀ j, (0 < j < n)%nat → is_Some (seg r f j s2)) as Hsome.
  { intros j Hj. rewrite O4 by lia. rewrite (ff_segs _ _ _ _ _ Hf) by lia. done. }
  destruct (unlink_rest r f n s2) as (s3 & G1 & G2 & G3 & G4 & G5 & G6); [done|apply O1|by apply (one_file_calm _ _ _ _ _ _ T3)|done|
    |done|intros j Hj; rewrite O4 by lia; by apply Hf|].
  { split; [done|]. apply (files_bound r f); [apply O1|done]. }
  exists s3. split; [exact G1|]. split_and!; [by eapply only_trans| |done|].
  - constructor; [simpl; lia|lia|by constructor| |intros k Hk; apply G4; lia|rewrite G3; simpl; lia|by vm_compute|done].
    intros k Hk. assert (k = 0)%nat as -> by lia. rewrite G5, O3. by rewrite seg_blocks_nil by (simpl; lia).
  - destruct G6 as [q E]. rewrite E. apply elem_of_app. left. simpl. set_solver.
Qed.
End unlink.
End MdUnlink.
