(* ===== verification/MdSim.v ===== *)
(** * MdSim: runs of the magnetic-disk storage manager

    md.c against the abstract store of [MemSmgrSim]: the same calls, the same
    replies and the same forks, with segment files under it. *)

From Stdlib Require Import ZArith Lia Bool Strings.Byte.
From stdpp Require Import base tactics numbers list gmap strings pretty.
From S2P Require Import Prelude RelPath MemSmgr MemSmgrRefine MemSmgrSim Md FileSys.
From S2P Require Import MdInv MdRefine MdOps MdIo MdDrop MdUnlink.
Import Md MdInv MdRefine MdOps MdIo MdDrop MdUnlink.

Local Open Scope Z_scope.
Local Open Scope pg_scope.

Module MdSim.

Section sim.
Context {env : Env} {mde : MdEnv}.
Implicit Types (r : RelFileLocatorBackend) (f : ForkNumber) (s : MdState) (l : list Block) (v : option (list Block)).

(** ** Calls *)

(** The calls of md.c, each with what its caller has to have done: the fork is
    closed before it is unlinked, and measured before it is truncated. *)
Definition md_call (c : call) : M MdState reply :=
  match c with
  | CCreate r f isRedo => mdcreate r f isRedo;; mret RUnit
  | CExists r f => b ← mdexists r f; mret (RBool b)
  | CUnlink r f isRedo => mdclose r f;; mdunlink r f isRedo;; mret RUnit
  | CExtend r f b buf skip => mdextend r f b buf skip;; mret RUnit
  | CZeroExtend r f b n skip => mdzeroextend r f b n skip;; mret RUnit
  | CReadv r f b n => bs ← mdreadv r f b n; mret (RBlocks bs)
  | CWritev r f b bufs skip => mdwritev r f b bufs skip;; mret RUnit
  | CNblocks r f => n ← mdnblocks r f; mret (RNum n)
  | CTruncate r f cur n => mdnblocks r f;; mdtruncate r f cur n;; mret RUnit
  end.

Fixpoint md_calls (cs : list call) : M MdState (list reply) :=
  match cs with
  | [] => mret []
  | c :: cs' => a ← md_call c; as_ ← md_calls cs'; mret (a :: as_)
  end.

(** The fork was dropped and its name is kept until the next checkpoint. *)
Definition awaits r f s : Prop := (SYNC_UNLINK_REQUEST, unlink_tag r f) ∈ md_requests s.

(** The contract of a call on a fork with blocks [v].  The name of a dropped fork
    is not used again before the checkpoint; a fork that exists is created again
    in redo only; a read or a write stays inside one segment; a fork is truncated
    only where the end of its last segment is a block number. *)
Definition md_pre (c : call) v s : Prop :=
  valid_fork (call_rel c) (call_fork c) ∧ (v = None → ¬ awaits (call_rel c) (call_fork c) s) ∧
  match c with
  | CCreate r _ isRedo =>
      (v = None ∨ isRedo = true) ∧ TablespaceCreateDbspace (spcOid (locator r)) (dbOid (locator r)) isRedo = Ok tt
  | CExists _ _ | CUnlink _ _ _ => True
  | CExtend _ _ b buf _ => v ≠ None ∧ 0 <= b < InvalidBlockNumber ∧ Z.of_nat (length buf) = BLCKSZ
  | CZeroExtend _ _ b n _ => v ≠ None ∧ vlen v <= b ∧ 0 < n < 2 ^ 31 ∧ b + n < InvalidBlockNumber
  | CReadv _ _ b n => v ≠ None ∧ 0 <= b ∧ b + n <= vlen v ∧ in_segment (Z.to_nat b) (Z.to_nat n)
  | CWritev _ _ b bufs _ => v ≠ None ∧ 0 <= b ∧ b + Z.of_nat (length bufs) <= vlen v ∧
      in_segment (Z.to_nat b) (length bufs) ∧ blocks_ok bufs
  | CNblocks _ _ => v ≠ None
  | CTruncate _ _ cur n => v ≠ None ∧ cur = vlen v ∧ 0 <= n <= cur ∧ (cur / RELSEG_SIZE + 1) * RELSEG_SIZE < 2 ^ 32
  end.

(** ** The state and the store *)

(** What is left of a dropped fork until the checkpoint: an empty first segment. *)
Definition leftover r f s : Prop := awaits r f s ∧ fork_files r f 1 [] s ∧ open_segs r f s = [].

Definition fork_is r f v s : Prop :=
  match v with Some l => ∃ n, fork_files r f n l s | None => md_absent r f s ∨ leftover r f s end.

(** Every fork of every valid relation is as the store has it. *)
Record md_rep (st : RelFileLocatorBackend → ForkNumber → option (list Block)) s : Prop := {
  rep_ok : md_ok s;
  rep_forks r f : valid_fork r f → fork_is r f (st r f) s;
}.

Lemma awaits_still r f s s' : awaits r f s → md_requests s `prefix_of` md_requests s' → awaits r f s'.
Proof. intros H [q E]. unfold awaits. rewrite E. apply elem_of_app. by left. Qed.

Lemma fork_is_absent r f s : fork_is r f None s → ¬ awaits r f s → md_absent r f s.
Proof. intros [H|[H _]]; done. Qed.

Lemma fork_is_none_closed r f s : fork_is r f None s → open_segs r f s = [].
Proof. by intros [[_ H]|(_ & _ & H)]. Qed.

(** What changes one fork leaves the others. *)
Lemma fork_is_frame r f r' f' v s s' :
  only r f s s' → valid_fork r f → valid_fork r' f' → (r', f') ≠ (r, f) → fork_is r' f' v s → fork_is r' f' v s'.
Proof.
  intros Hon Hv Hv' Hne. assert (∀ k, seg r' f' k s' = seg r' f' k s) as Hseg.
  { intros k. apply (on_files _ _ _ _ Hon). intros j E. apply path_valid_inj in E; [|done..]. naive_solver. }
  pose proof (on_open _ _ _ _ Hon r' f' Hne) as Ho. destruct v as [l|]; simpl.
  - intros [n Hf]. exists n. eapply fork_files_ext; [done|done|]. rewrite Ho. apply Hf.
  - intros [[A1 A2]|(A1 & A2 & A3)]; [left; constructor; [intros k; by rewrite Hseg|by rewrite Ho]|right].
    split; [by eapply awaits_still, (on_requests _ _ _ _ Hon)|]. split; [|by rewrite Ho].
    eapply fork_files_ext; [done|done|]. rewrite Ho. apply A2.
Qed.

Lemma rep_update st r f v s s' :
  md_rep st s → valid_fork r f → only r f s s' → fork_is r f v s' → md_rep (store_set st r f v) s'.
Proof.
  intros [H1 H2] Hv Hon Hf. constructor; [apply Hon|]. intros r' f' Hv'. unfold store_set.
  case_decide as Hd; [by destruct Hd as [-> ->]|]. eapply fork_is_frame; [done|done|done| |by apply H2]. naive_solver.
Qed.

(** ** One call *)

(** The open segments reach to the end of the fork, as mdtruncate requires. *)
Definition covered r f v s : Prop := (length (default [] v) <= length (open_segs r f s) * RS)%nat.

(** What a call on one fork with blocks [v] establishes; during recovery, when
    nothing is closed in between, open segments go on covering the fork. *)
Definition answers r f v v' {A} (m : M MdState A) (a : A) s : Prop :=
  ∃ s', m s = (Ok a, s') ∧ only r f s s' ∧ fork_is r f v' s' ∧ (InRecovery = true → covered r f v s → covered r f v' s').

Lemma covered_prefix r f v v' s s' :
  open_segs r f s `prefix_of` open_segs r f s' → (length (default [] v') <= length (default [] v))%nat →
  covered r f v s → covered r f v' s'.
Proof.
  unfold covered. intros Hp%prefix_length Hl H. assert (length (open_segs r f s) * RS <= length (open_segs r f s') * RS)%nat by
    by apply Nat.mul_le_mono_r. lia.
Qed.

(** Covering a fork that has grown to a block whose segment is open. *)
Lemma covered_grow r f l l' s s' b :
  open_segs r f s `prefix_of` open_segs r f s' → (b / RS < length (open_segs r f s'))%nat →
  (length l' <= length l `max` S b)%nat → covered r f (Some l) s → covered r f (Some l') s'.
Proof.
  unfold covered. simpl. intros Hp%prefix_length Hb Hl H.
  assert (length (open_segs r f s) * RS <= length (open_segs r f s') * RS)%nat by by apply Nat.mul_le_mono_r.
  assert (S (b / RS) * RS <= length (open_segs r f s') * RS)%nat by (apply Nat.mul_le_mono_r; lia).
  destruct (block_split b). lia.
Qed.

Lemma answers_opens {A} r f n l l' (m : M MdState A) a s s' :
  m s = (Ok a, s') → opens r f n l' s s' → (length l' <= length l)%nat → answers r f (Some l) (Some l') m a s.
Proof.
  intros H [O1 O2 O3] Hl. exists s'. split_and!; [done|done|by exists n|]. intros _. by apply covered_prefix.
Qed.

Lemma answers_map {A} r f v v' (m : M MdState A) a (k : A → reply) s :
  answers r f v v' m a s → answers r f v v' (x ← m; mret (k x)) (k a) s.
Proof. intros (s' & H & Hr). exists s'. split; [|done]. by rewrite (M_bind_run _ _ _ _ _ H). Qed.

Lemma sim_unlink_closed r f v isRedo s :
  md_ok s → calm (md_fs s) → valid_fork r f → open_segs r f s = [] → fork_is r f v s → (v = None → ¬ awaits r f s) →
  answers r f v None (mdunlink r f isRedo) tt s.
Proof.
  intros Hok Hc Hval Ho Hf Hfree. unfold mdunlink. rewrite bool_decide_eq_false_2 by apply Hval.
  assert (∃ s', mdunlinkfork r f isRedo s = (Ok tt, s') ∧ only r f s s' ∧ fork_is r f None s') as (s' & G1 & G2 & G3).
  { destruct v as [l|].
    - destruct Hf as [n Hf]. destruct (unlinks_now r f isRedo) eqn:Hnow.
      + destruct (mdunlinkfork_now r f n l s isRedo) as (s2 & G1 & G2 & G3); [done..|]. exists s2. split_and!; [done|done|by left].
      + destruct (mdunlinkfork_later r f n l s isRedo) as (s2 & G1 & G2 & G3 & G4 & G5); [done..|].
        exists s2. split_and!; [done|done|by right].
    - destruct (mdunlinkfork_absent r f s isRedo) as (s2 & G1 & G2 & G3); [done|done|by apply fork_is_absent, Hfree|].
      exists s2. split_and!; [done|done|by left]. }
  exists s'. split_and!; [done|done|done|]. intros _ _. unfold covered. simpl. lia.
Qed.

Lemma fork_is_closed r f v s s' :
  (∀ k, seg r f k s' = seg r f k s) → md_requests s `prefix_of` md_requests s' → open_segs r f s' = [] →
  fork_is r f v s → fork_is r f v s'.
Proof.
  intros Hs Hq Ho. assert (∀ n l, fork_files r f n l s → fork_files r f n l s') as Hf.
  { intros n l Hf. eapply fork_files_ext; [done|done|]. rewrite Ho. simpl. lia. }
  destruct v as [l|]; simpl.
  - intros [n H]. exists n. auto.
  - intros [[A1 A2]|(A1 & A2 & A3)]; [left|right].
    + constructor; [intros k; by rewrite Hs|done].
    + split_and!; [by eapply awaits_still|auto|done].
Qed.

Lemma mdclose_closed r f s : open_segs r f s = [] → mdclose r f s = (Ok tt, s).
Proof. intros E. unfold mdclose. rewrite (M_bind_run _ _ _ (length (open_segs r f s)) s) by done. by rewrite E. Qed.

Lemma sim_unlink_call r f v isRedo s :
  md_ok s → quiet (md_fs s) → valid_fork r f → fork_is r f v s → (v = None → ¬ awaits r f s) →
  answers r f v None (mdclose r f;; mdunlink r f isRedo) tt s.
Proof.
  intros Hok Hq Hval Hf Hfree. unfold answers. destruct v as [l|].
  - destruct (mdclose_run r f s Hok) as (s1 & H1 & H2 & H3 & H4). rewrite (M_bind_run _ _ _ _ _ H1).
    destruct (sim_unlink_closed r f (Some l) isRedo s1) as (s2 & G1 & G2 & G3 & G4);
      [apply H2|by apply quiet_calm, (on_sched _ _ _ _ H2)|done|done|eapply fork_is_closed; [done|apply H2|done|done]|done|].
    exists s2. split_and!; [exact G1|by eapply only_trans|done|]. intros Hr _. unfold covered. simpl. lia.
  - pose proof (fork_is_none_closed _ _ _ Hf) as Ho. rewrite (M_bind_run _ _ _ _ _ (mdclose_closed r f s Ho)).
    apply sim_unlink_closed; [done|by apply quiet_calm|done..].
Qed.

(** Truncating, once the open segments cover the fork. *)
Lemma sim_truncate_covered r f n l (m : nat) s :
  md_ok s → quiet (md_fs s) → fork_files r f n l s → covered r f (Some l) s → (m <= length l)%nat →
  (Z.of_nat (length l) / RELSEG_SIZE + 1) * RELSEG_SIZE < 2 ^ 32 →
  answers r f (Some l) (Some (take m l)) (mdtruncate r f (Z.of_nat (length l)) (Z.of_nat m)) tt s.
Proof.
  intros Hok Hq Hf Hcov Hm Hmax. pose proof (ff_open _ _ _ _ _ Hf) as Hle.
  rewrite <- RS_Z in Hmax. rewrite <- Nat2Z.inj_div in Hmax.
  destruct (mdtruncate_run r f n l s m) as (s2 & G1 & G2 & G3 & G4); [done|by apply quiet_calm|done|done|done| |].
  { assert (length (open_segs r f s) * RS <= (S (length l / RS)) * RS)%nat by (apply Nat.mul_le_mono_r; done). nia. }
  exists s2. split_and!; [exact G1|done|by exists n|]. intros _ _. unfold covered. simpl. rewrite length_take. lia.
Qed.

Lemma sim_truncate_call r f n l (m : nat) s :
  md_ok s → quiet (md_fs s) → fork_files r f n l s → (m <= length l)%nat →
  (Z.of_nat (length l) / RELSEG_SIZE + 1) * RELSEG_SIZE < 2 ^ 32 →
  answers r f (Some l) (Some (take m l)) (mdnblocks r f;; mdtruncate r f (Z.of_nat (length l)) (Z.of_nat m)) tt s.
Proof.
  intros Hok Hq Hf Hm Hmax. destruct (mdnblocks_fork r f n l s Hok (quiet_calm _ Hq) Hf) as (s1 & H1 & [O1 O2 O3] & Ho).
  unfold answers. rewrite (M_bind_run _ _ _ _ _ H1).
  destruct (sim_truncate_covered r f n l m s1) as (s2 & G1 & G2 & G3 & G4);
    [apply O1|by apply (on_sched _ _ _ _ O1)|done|done|done|done|].
  exists s2. split_and!; [exact G1|by eapply only_trans|done|]. intros Hr _. by apply G4.
Qed.

Lemma md_call_answers c v s :
  md_ok s → quiet (md_fs s) → fork_is (call_rel c) (call_fork c) v s → md_pre c v s →
  answers (call_rel c) (call_fork c) v (spec_view c v) (md_call c) (spec_reply c v) s.
Proof.
  intros Hok Hq Hf (Hval & Hfree & Hpre). pose proof (quiet_calm _ Hq) as Hc. destruct c; simpl in *.
  - destruct Hpre as [Hv Hts]. apply (answers_map r f _ _ _ tt (λ _, RUnit)). destruct v as [l|].
    + destruct Hv as [Hv| ->]; [done|]. destruct Hf as [n Hf].
      destruct (mdcreate_redo r f n l s Hok Hc Hf Hts) as (s' & H1 & H2 & H3 & H4).
      exists s'. split_and!; [done|done|by exists n|]. intros _. by apply covered_prefix.
    + destruct (mdcreate_new r f isRedo s Hok Hc Hval (fork_is_absent _ _ _ Hf (Hfree eq_refl)) Hts) as (s' & H1 & H2 & H3).
      exists s'. split_and!; [done|done|by exists 1%nat|]. intros _ _. unfold covered. simpl. lia.
  - apply (answers_map r f _ _ _ _ RBool). destruct v as [l|].
    + destruct Hf as [n Hf]. destruct (mdexists_run r f n l s Hok Hc Hf) as (s' & H1 & H2 & H3 & H4).
      exists s'. split_and!; [done|done|by exists n|]. intros Hr. apply covered_prefix; [by apply H4|done].
    + destruct (mdexists_absent r f s Hok Hc (fork_is_absent _ _ _ Hf (Hfree eq_refl))) as (s' & H1 & H2 & H3).
      exists s'. split_and!; [done|done|by left|]. intros _ _. unfold covered. simpl. lia.
  - destruct (sim_unlink_call r f v isRedo s) as (s' & H1 & H2); [done..|]. exists s'. split; [|done].
    apply M_bind_ok in H1 as (u & s1 & H1 & H1'). by rewrite (M_bind_run _ _ _ _ _ H1), (M_bind_run _ _ _ _ _ H1').
  - destruct Hpre as (Hv & Hb & Hlen). destruct v as [l|]; [|done]. destruct Hf as [n Hf].
    destruct (mdextend_run r f n l s (Z.to_nat b) buffer skipFsync) as (n' & s' & H1 & [O1 O2 O3] & H3);
      [done|done|done|unfold B; lia|lia|]. rewrite Z2Nat.id in H1 by lia.
    apply (answers_map r f _ _ _ tt (λ _, RUnit)). exists s'. split_and!; [done|done|by exists n'|]. intros _.
    apply (covered_grow r f l _ s s' (Z.to_nat b)); [done|done|]. rewrite spec_write_length. simpl. lia.
  - destruct Hpre as (Hv & Hlen & Hn & Hmax). destruct v as [l|]; [|done]. destruct Hf as [n' Hf].
    unfold vlen in Hlen. simpl in Hlen.
    destruct (zeroextend_loop_run (Z.to_nat n) r f n' l s (Z.to_nat b) (Z.to_nat n) skipFsync)
      as (n'' & s' & H1 & [O1 O2 O3] & H3); [done|done|done|lia|lia|lia|lia|]. rewrite !Z2Nat.id in H1 by lia.
    apply (answers_map r f _ _ _ tt (λ _, RUnit)). exists s'. split_and!; [|done|by exists n''|].
    + unfold mdzeroextend. destruct (Z.leb_spec InvalidBlockNumber (b + n)); [lia|done].
    + intros _. apply (covered_grow r f l _ s s' (Z.to_nat b + Z.to_nat n - 1)); [done|done|].
      rewrite spec_write_length, length_replicate. lia.
  - destruct Hpre as (Hv & Hb & Hlen & Hin). destruct v as [l|]; [|done]. destruct Hf as [n' Hf].
    unfold vlen in Hlen. simpl in Hlen. pose proof (is_pos _ _ Hin).
    destruct (mdreadv_run r f n' l s (Z.to_nat b) (Z.to_nat n)) as (s' & H1 & H2); [done|done|done|lia|done|].
    rewrite !Z2Nat.id in H1 by lia. apply (answers_map r f _ _ _ _ RBlocks). by eapply answers_opens.
  - destruct Hpre as (Hv & Hb & Hlen & Hin & Hbl). destruct v as [l|]; [|done]. destruct Hf as [n' Hf].
    unfold vlen in Hlen. simpl in Hlen.
    destruct (mdwritev_run r f n' l s (Z.to_nat b) buffers skipFsync) as (s' & H1 & H2); [done|done|done|lia|done|done|].
    rewrite Z2Nat.id in H1 by lia. apply (answers_map r f _ _ _ tt (λ _, RUnit)). eapply answers_opens; [done|done|].
    rewrite spec_write_length. lia.
  - destruct v as [l|]; [|done]. destruct Hf as [n Hf].
    destruct (mdnblocks_fork r f n l s Hok Hc Hf) as (s' & H1 & H2 & _).
    apply (answers_map r f _ _ _ _ RNum). by eapply answers_opens.
  - destruct Hpre as (Hv & -> & Hn & Hmax). destruct v as [l|]; [|done]. destruct Hf as [n' Hf]. unfold vlen in *. simpl in *.
    destruct (sim_truncate_call r f n' l (Z.to_nat n) s) as (s' & H1 & H2 & H3); [done|done|done|lia|done|].
    rewrite Z2Nat.id in H1 by lia. exists s'. split; [|done].
    apply M_bind_ok in H1 as (u & s1 & H1 & H1'). by rewrite (M_bind_run _ _ _ _ _ H1), (M_bind_run _ _ _ _ _ H1').
Qed.

(** ** Runs *)

(** Every call of the run is made inside its contract. *)
Fixpoint md_admissible (cs : list call) (st : RelFileLocatorBackend → ForkNumber → option (list Block)) s : Prop :=
  match cs with
  | [] => True
  | c :: cs' =>
      let v := st (call_rel c) (call_fork c) in
      md_pre c v s ∧ md_admissible cs' (store_set st (call_rel c) (call_fork c) (spec_view c v)) (md_call c s).2
  end.

(** C2: md.c implements the store. From any state of the disk that represents a
    store, on a file system that does not fail, every sequence of calls that
    [md_admissible] allows succeeds and is answered as the store answers it; the
    disk represents the store's forks afterwards. The store and the calls are
    those memsmgr.c was proved against. Drops are included whose first segment
    stays until the checkpoint. [md_admissible] asks of each call, in the state
    it is made in ([md_pre]): a valid relation and fork; that the name of a
    dropped fork is not used again before the checkpoint; that a fork that
    exists is created in redo only, its tablespace directory can be made, and
    only such a fork is otherwise worked on; that a read or a write stays inside
    the fork and one segment, a zero-extension begins at the end of the fork or
    behind it, and a truncation does not grow the fork and finds the end of the
    last segment to be a block number (see [mdtruncate_last_segment]). *)
Theorem md_simulates_store cs st s :
  md_rep st s → quiet (md_fs s) → md_admissible cs st s →
  ∃ s', md_calls cs s = (Ok (store_run cs st).1, s') ∧ md_rep (store_run cs st).2 s'.
Proof.
  revert st s. induction cs as [|c cs IH]; intros st s Hrep Hq; [by exists s|].
  intros [Hpre Hadm]. destruct (md_call_answers c (st (call_rel c) (call_fork c)) s) as (s1 & H1 & H2 & H3 & _);
    [apply Hrep|done|apply Hrep, Hpre|done|]. rewrite H1 in Hadm.
  destruct (IH (store_set st (call_rel c) (call_fork c) (spec_view c (st (call_rel c) (call_fork c)))) s1)
    as (s2 & G1 & G2); [eapply rep_update; [done|apply Hpre|done|done]|by apply (on_sched _ _ _ _ H2)|done|].
  exists s2. simpl. rewrite (M_bind_run _ _ _ _ _ H1), (M_bind_run _ _ _ _ _ G1).
  destruct (store_run _ _). by split.
Qed.
End sim.
End MdSim.
