(* ===== verification/MdSync.v ===== *)
(** * MdSync: syncing a whole fork

    [mdregistersync] asks for a sync of every segment of a fork, the inactive
    ones included, and leaves open what mdnblocks opens. *)

From Stdlib Require Import ZArith Lia Bool Strings.Byte.
From stdpp Require Import base tactics numbers list gmap strings pretty.
From S2P Require Import Prelude RelPath MemSmgr MemSmgrRefine Md FileSys MdInv MdRefine MdOps MdIo MdDrop.
Import Md MdInv MdRefine MdOps MdIo MdDrop.

Local Open Scope Z_scope.
Local Open Scope pg_scope.

Module MdSync.

Section sync.
Context {env : Env} {mde : MdEnv}.
Implicit Types (r : RelFileLocatorBackend) (f : ForkNumber) (s : MdState) (v : MdfdVec) (l : list Block).

(** From [s] to [s'] no file of the fork changes, and requests are only added. *)
Record same_files r f s s' : Prop := {
  sf_only : only r f s s';
  sf_segs k : seg r f k s' = seg r f k s;
  sf_requests : md_requests s `prefix_of` md_requests s';
}.

Lemma same_files_trans r f s1 s2 s3 : same_files r f s1 s2 → same_files r f s2 s3 → same_files r f s1 s3.
Proof.
  intros [A1 A2 A3] [B1 B2 B3]. constructor; [by eapply only_trans|intros k; by rewrite B2|by etrans].
Qed.
Lemma same_files_refl r f s : md_ok s → same_files r f s s.
Proof. intros H. constructor; [by constructor|done|done]. Qed.

Lemma openseg_any r f s c :
  let k := length (open_segs r f s) in
  md_ok s → calm (md_fs s) → valid_fork r f → seg r f k s = Some c →
  ∃ v s', _mdfd_openseg r f k false s = (Ok (Some v, None), s') ∧ same_files r f s s' ∧
    open_segs r f s' = open_segs r f s ++ [v].
Proof.
  intros k Hok Hc Hval Hs. unfold _mdfd_openseg.
  destruct (PathNameOpenFile_old (path r f k) (md_fs s) c false) as (fd & x & Ho & Ht & Hx & Hh & Hfd);
    [done|apply Hok|done|].
  rewrite (M_bind_run _ _ _ _ _ (on_sys_run _ s _ _ Ho)).
  destruct (touched_only r f k s x Hok Ht) as (Hon & Hseg & Hos). subst k.
  change (length (open_segs r f s)) with (length (open_segs r f (set_fs x s))). rewrite append_run, Hos.
  do 2 eexists. split; [reflexivity|]. split; [|unfold with_segs; by rewrite open_segs_set].
  constructor; [eapply append_only; [done|done|done|apply Hfd|done|done]| |done].
  intros j. destruct (decide (j = length (open_segs r f s))) as [->|Hj]; [by rewrite Hs|by apply Hseg].
Qed.

Lemma open_inactive_run fuel r f n s :
  let m := length (open_segs r f s) in
  md_ok s → calm (md_fs s) → valid_fork r f → (m <= n)%nat → (∀ k, (k < n)%nat → is_Some (seg r f k s)) →
  seg r f n s = None → (n - m < fuel)%nat →
  ∃ vs s', open_inactive fuel r f m s = (Ok n, s') ∧ same_files r f s s' ∧ open_segs r f s' = open_segs r f s ++ vs ∧
    (m + length vs = n)%nat.
Proof.
  revert s. induction fuel as [|fuel IH]; intros s m Hok Hc Hval Hm Hsome Hnone Hfuel; [lia|]. cbn [open_inactive].
  destruct (decide (m = n)) as [Hmn|Hne].
  - assert (_mdfd_openseg r f m false s = (Ok (None, Some ENOENT), set_fs (pop (md_fs s)) s)) as Ho.
    { unfold _mdfd_openseg. rewrite (M_bind_run _ _ _ (inl ENOENT) (set_fs (pop (md_fs s)) s)); [done|]. apply on_sys_run.
      apply PathNameOpenFile_missing; [done| |apply Hok]. rewrite Hmn. exact Hnone. }
    rewrite (M_bind_run _ _ _ _ _ Ho). destruct (pop_only r f s Hok) as [P1 P2].
    exists [], (set_fs (pop (md_fs s)) s). split; [by rewrite Hmn|]. split; [by constructor|].
    split; [by rewrite app_nil_r|simpl; lia].
  - destruct (Hsome m ltac:(lia)) as [c Hs]. destruct (openseg_any r f s c Hok Hc Hval Hs) as (v & s1 & H1 & H2 & H3).
    fold m in H1. rewrite (M_bind_run _ _ _ _ _ H1).
    assert (length (open_segs r f s1) = S m) as Hl by (rewrite H3, length_app; simpl; lia).
    destruct (IH s1) as (vs & s2 & G1 & G2 & G3 & G4); [apply H2|by apply (on_sched _ _ _ _ (sf_only _ _ _ _ H2))|done|lia| | |lia|].
    + intros k Hk. rewrite (sf_segs _ _ _ _ H2). by apply Hsome.
    + by rewrite (sf_segs _ _ _ _ H2).
    + rewrite Hl in G1, G4. exists (v :: vs), s2. split; [exact G1|]. split; [by eapply same_files_trans|].
      split; [by rewrite G3, H3, <- app_assoc|simpl; lia].
Qed.

Definition seg_tag r f (k : nat) : FileTag := INIT_MD_FILETAG (locator r) f (Z.of_nat k).

Lemma register_dirty_request r f s k v :
  md_ok s → calm (md_fs s) → open_segs r f s !! k = Some v →
  ∃ s', register_dirty_segment r f v s = (Ok tt, s') ∧ same_files r f s s' ∧ open_segs r f s' = open_segs r f s ∧
    (SYNC_REQUEST, seg_tag r f k) ∈ md_requests s'.
Proof.
  intros Hok Hc Hv. destruct (mo_open _ Hok _ _ _ _ Hv) as [Hn _].
  unfold register_dirty_segment, RegisterSyncRequest, mbind, M_bind. rewrite Hn.
  pose proof (calm_event _ Hc) as He. destruct (pop_only r f s Hok) as [P1 P2]. unfold event, pop in *.
  destruct (next_event (md_fs s)) as [e x]. simpl in He, P1, P2.
  set (s1 := add_request (SYNC_REQUEST, INIT_MD_FILETAG (locator r) f (Z.of_nat k)) (set_fs x s)).
  assert (same_files r f s s1) as Hs1.
  { constructor; [|done|by apply prefix_app_r]. eapply only_trans; [exact P1|]. apply request_only, P1. }
  assert ((SYNC_REQUEST, seg_tag r f k) ∈ md_requests s1) as Hin.
  { apply elem_of_app. right. by apply list_elem_of_singleton. }
  destruct e; [by exists s1|by exists s1|done].
Qed.

Lemma sync_segs_run r f m (k : nat) s :
  md_ok s → calm (md_fs s) → (m <= length (open_segs r f s))%nat → (k = length (open_segs r f s) ∨ k < m)%nat →
  ∃ s', sync_segs (register_dirty_segment r f) r f m k s = (Ok tt, s') ∧ same_files r f s s' ∧
    open_segs r f s' = (if decide (k < m)%nat then open_segs r f s else take m (open_segs r f s)) ∧
    ∀ j, (j < k)%nat → (SYNC_REQUEST, seg_tag r f j) ∈ md_requests s'.
Proof.
  revert s. induction k as [|k IH]; intros s Hok Hc Hm Hk.
  { exists s. split; [done|]. split; [by apply same_files_refl|]. split; [|intros j Hj; lia].
    case_decide; [done|]. assert (m = 0)%nat as -> by lia. destruct Hk as [Hk|Hk]; [|lia].
    symmetry in Hk. by rewrite (nil_length_inv _ Hk). }
  cbn [sync_segs]. destruct (lookup_lt_is_Some_2 (open_segs r f s) k) as [v Hv]; [lia|].
  rewrite (M_bind_run _ _ _ _ _ (seg_fd_run _ _ _ _ _ Hv)).
  destruct (register_dirty_request r f s k v Hok Hc Hv) as (s1 & H1 & H2 & H3 & H4).
  rewrite (M_bind_run _ _ _ _ _ H1).
  assert (calm (md_fs s1)) as Hc1 by by apply (on_sched _ _ _ _ (sf_only _ _ _ _ H2)).
  destruct (Nat.ltb_spec m (S k)) as [Hlt|Hge].
  - destruct Hk as [Hk|Hk]; [|lia]. destruct (last_seg r f s1 k) as (vs & v' & Ho & Hvs); [by rewrite H3|].
    assert (v' = v) as ->.
    { rewrite <- H3, Ho, lookup_app_r in Hv by lia. rewrite Hvs, Nat.sub_diag in Hv. by injection Hv. }
    pose proof (close_step r f vs v s1 (mret tt) Ho) as Hcs. rewrite Hvs in Hcs.
    assert ((modify (λ s, set_fs (FileClose (mdfd_vfd v) (md_fs s)) s);; _fdvec_resize r f k) s1 =
      (Ok tt, close_seg r f v vs s1)) as Hcl.
    { unfold _fdvec_resize, modify, mbind, M_bind, mret, M_ret in Hcs |- *. exact Hcs. }
    rewrite (M_bind_run _ _ _ _ _ Hcl). destruct (close_last r f vs v s1) as (C1 & C2 & C3); [apply H2|done|].
    assert (same_files r f s1 (close_seg r f v vs s1)) as Hsf by by constructor.
    destruct (IH (close_seg r f v vs s1)) as (s' & G1 & G2 & G3 & G4);
      [apply C1|by apply (on_sched _ _ _ _ C1)|rewrite C3; lia|left; by rewrite C3|].
    exists s'. split; [exact G1|]. split; [by eapply same_files_trans; [exact H2|eapply same_files_trans]|]. split.
    + rewrite G3, C3, (decide_False (P := (S k < m)%nat)) by lia. rewrite <- H3, Ho. case_decide; [lia|].
      rewrite take_app_le by lia. done.
    + intros j Hj. destruct (decide (j = k)) as [->|]; [|apply G4; lia]. destruct (sf_requests _ _ _ _ G2) as [q E].
      rewrite E. apply elem_of_app. by left.
  - rewrite (M_bind_run _ _ _ tt s1) by done.
    destruct (IH s1) as (s' & G1 & G2 & G3 & G4); [apply H2|done|by rewrite H3|right; lia|].
    exists s'. split; [exact G1|]. split; [by eapply same_files_trans|]. split.
    + rewrite G3, H3, (decide_True (P := (k < m)%nat)) by lia. destruct (decide (S k < m)%nat); [done|].
      by rewrite take_ge by lia.
    + intros j Hj. destruct (decide (j = k)) as [->|]; [|apply G4; lia]. destruct (sf_requests _ _ _ _ G2) as [q E].
      rewrite E. apply elem_of_app. by left.
Qed.

(** C37: a sync covers the whole fork. On a file system whose calls do not fail,
    where the files of the fork are what md.c makes of its blocks,
    [mdregistersync] leaves a request for every segment file of the fork, those
    that a truncation left empty included, and changes neither the fork nor what
    is open beyond opening the active segments. *)
Theorem mdregistersync_covers r f n l s :
  md_ok s → calm (md_fs s) → fork_files r f n l s →
  ∃ s', mdregistersync r f s = (Ok tt, s') ∧ only r f s s' ∧ fork_files r f n l s' ∧
    open_segs r f s `prefix_of` open_segs r f s' ∧
    ∀ k, (k < n)%nat → (SYNC_REQUEST, seg_tag r f k) ∈ md_requests s'.
Proof.
  intros Hok Hc Hf. unfold mdregistersync, sync_relation.
  destruct (mdnblocks_fork r f n l s Hok Hc Hf) as (s1 & H1 & [O1 O2 O3] & Hcov). rewrite (M_bind_run _ _ _ _ _ H1).
  pose proof (on_ok _ _ _ _ O1) as Hok1. set (m := length (open_segs r f s1)).
  rewrite (M_bind_run _ _ _ m s1) by done. rewrite (M_bind_run _ _ _ (dir_fuel s1) s1) by done.
  pose proof (open_count _ _ _ _ _ Hok1 O2) as Hmn. pose proof (files_in_dir _ _ _ _ _ O2) as Hsz.
  destruct (open_inactive_run (dir_fuel s1) r f n s1) as (vs & s2 & G1 & G2 & G3 & G4);
    [done|by apply (on_sched _ _ _ _ O1)|apply Hf|done|intros k Hk; rewrite (ff_segs _ _ _ _ _ O2) by done; done|
     by apply (ff_none _ _ _ _ _ O2)|unfold dir_fuel; lia|].
  rewrite (M_bind_run _ _ _ _ _ G1).
  destruct (sync_segs_run r f m n s2) as (s3 & S1 & S2 & S3 & S4);
    [apply G2|apply (on_sched _ _ _ _ (sf_only _ _ _ _ G2)); by apply (on_sched _ _ _ _ O1)|rewrite G3, length_app; lia|left; rewrite G3, length_app; lia|].
  pose proof (same_files_trans _ _ _ _ _ G2 S2) as Hsf.
  assert (open_segs r f s3 = open_segs r f s1) as Ho3.
  { rewrite S3, G3. case_decide; [lia|]. unfold m. by rewrite take_app_length. }
  exists s3. split; [exact S1|]. split_and!; [eapply only_trans; [exact O1|apply Hsf]| |by rewrite Ho3|done].
  eapply fork_files_ext; [exact O2|apply Hsf|rewrite Ho3; apply O2].
Qed.
End sync.
End MdSync.
