(* ===== verification/MdTheorems.v ===== *)
(** * MdTheorems: what md.c promises of single operations

    Transfers that the operating system cuts short, files that are kept until a
    checkpoint, the completion of asynchronous reads, and two places where the
    code does not do what it should. *)

From Stdlib Require Import ZArith Lia Bool Strings.Byte.
From stdpp Require Import base tactics numbers list gmap strings pretty.
From S2P Require Import Prelude RelPath MemSmgr MemSmgrInv MemSmgrRefine MemSmgrSim Md FileSys.
From S2P Require Import MdInv MdRefine MdOps MdIo MdDrop MdUnlink.
Import Md MdInv MdRefine MdOps MdIo MdDrop MdUnlink.

Local Open Scope Z_scope.
Local Open Scope pg_scope.

Module MdTheorems.

Section theorems.
Context {env : Env} {mde : MdEnv}.
Implicit Types (r : RelFileLocatorBackend) (f : ForkNumber) (s : MdState) (l bufs : list Block).

(** C33: reads survive short transfers.  However many bytes each call of the
    operating system delivers, as long as none fails, a read inside the fork
    and inside one segment returns the fork's blocks and changes nothing but
    which segments are open. *)
Theorem mdreadv_short_reads r f n l s (b m : nat) :
  md_ok s → calm (md_fs s) → fork_files r f n l s → (b + m <= length l)%nat → in_segment b m →
  ∃ s', mdreadv r f (Z.of_nat b) (Z.of_nat m) s = (Ok (spec_read l b m), s') ∧ opens r f n l s s'.
Proof. apply mdreadv_run. Qed.

(** C34: writes survive short transfers.  However many bytes each call takes, a
    write inside the fork and inside one segment replaces exactly its blocks. *)
Theorem mdwritev_short_writes r f n l s (b : nat) bufs skipFsync :
  md_ok s → calm (md_fs s) → fork_files r f n l s → (b + length bufs <= length l)%nat → in_segment b (length bufs) →
  blocks_ok bufs →
  ∃ s', mdwritev r f (Z.of_nat b) bufs skipFsync s = (Ok tt, s') ∧ opens r f n (spec_write (Some l) b bufs) s s'.
Proof. apply mdwritev_run. Qed.

(** C30: a dropped relation's name is kept until the checkpoint.  Where the
    first segment is not removed at once, unlinking leaves it empty, with every
    other segment gone and a request pending; a relation of that name cannot be
    created, and once the checkpointer has carried out the request no file is
    left. *)
Theorem mdunlink_until_checkpoint r n l s :
  let f := MAIN_FORKNUM in
  md_ok s → calm (md_fs s) → fork_files r f n l s → open_segs r f s = [] → unlinks_now r f false = false →
  TablespaceCreateDbspace (spcOid (locator r)) (dbOid (locator r)) false = Ok tt →
  ∃ s1, mdunlink r f false s = (Ok tt, s1) ∧ only r f s s1 ∧ fork_files r f 1 [] s1 ∧
    (SYNC_UNLINK_REQUEST, unlink_tag r f) ∈ md_requests s1 ∧
    (∃ msg s2, mdcreate r f false s1 = (Error ERRCODE_FILE_ACCESS msg, s2)) ∧
    ∃ s2, mdunlinkfiletag (unlink_tag r f) s1 = (Ok (inr tt), s2) ∧ only r f s s2 ∧ md_absent r f s2.
Proof.
  intros f Hok Hc Hf Ho Hlater Hts. unfold mdunlink. rewrite bool_decide_eq_false_2 by done.
  destruct (mdunlinkfork_later r f n l s false Hok Hc Hf Ho Hlater) as (s1 & H1 & H2 & H3 & H4 & H5).
  assert (calm (md_fs s1)) as Hc1 by by apply (on_sched _ _ _ _ H2).
  exists s1. split_and!; try done.
  - destruct (mdcreate_exists r f 1 [] s1) as (msg & s2 & G1 & _); [apply H2|done|done|done|]. by exists msg, s2.
  - destruct (unlink_file r f (ff_valid _ _ _ _ _ Hf) s1 (on_ok _ _ _ _ H2) Hc1 H4 0 _
      (ff_segs _ _ _ _ _ H3 0 ltac:(lia))) as (s2 & U1 & U2).
    exists s2. split; [|split; [eapply only_trans; [exact H2|apply U2]|]].
    + unfold mdunlinkfiletag, unlink_tag. simpl. assert (backend r = INVALID_PROC_NUMBER) as Hb.
      { unfold unlinks_now, RelFileLocatorBackendIsTemp in Hlater. apply orb_false_iff in Hlater as [_ E].
        by apply negb_false_iff, Z.eqb_eq in E. }
      destruct r as [loc bk]. simpl in *. subst bk. exact U1.
    + constructor; [|apply U2]. intros k. destruct (decide (k = 0)%nat) as [->|Hk]; [apply U2|].
      rewrite (of_other _ _ _ _ _ _ U2) by done. apply (ff_none _ _ _ _ _ H3). lia.
Qed.

(** Completion of an asynchronous read.  The number of bytes transferred is
    reported as whole blocks; the read counts as done only when it was
    complete, as failed when not even one block arrived, and as partial, to be
    retried, in between. *)
Theorem md_readv_complete_blocks nblocks bytes :
  let res := md_readv_complete nblocks {| aio_status := PGAIO_RS_OK; aio_error_data := 0; aio_result := bytes |} in
  0 < nblocks → 0 <= bytes <= nblocks * BLCKSZ →
  aio_result res = bytes / BLCKSZ ∧
  (aio_status res = PGAIO_RS_ERROR ↔ bytes < BLCKSZ) ∧
  (aio_status res = PGAIO_RS_OK ↔ bytes = nblocks * BLCKSZ) ∧
  (aio_status res = PGAIO_RS_PARTIAL ↔ BLCKSZ <= bytes < nblocks * BLCKSZ).
Proof.
  intros res Hn Hb. pose proof BLCKSZ_pos as HB. unfold res, md_readv_complete. simpl.
  destruct (Z.ltb_spec bytes 0); [lia|]. pose proof (Z.div_mod bytes BLCKSZ) as Hdm. pose proof (Z.mod_pos_bound bytes BLCKSZ HB).
  set (q := bytes / BLCKSZ) in *. destruct (Z.eqb_spec q 0) as [Hq|Hq]; simpl.
  - rewrite Hq in Hdm. split; [done|]. split; [split; [intros _; nia|done]|]. split; (split; [done|nia]).
  - assert (1 <= q) by nia. assert (BLCKSZ <= bytes) by nia. destruct (Z.ltb_spec q nblocks) as [Hlt|Hge]; simpl; (split; [done|]).
    + split; [split; [done|lia]|]. split; [split; [done|nia]|]. split; [intros _; nia|done].
    + split; [split; [done|lia]|]. split; [split; [nia|done]|]. split; [done|nia].
Qed.

(** The last possible segment cannot be shortened.  When the end of the
    last open segment is block 2^32, the sum that should be that block number
    is 0, and truncating inside the segment reports success and does nothing. *)
Theorem mdtruncate_last_segment r f (curnblk nblocks : Z) s :
  let m := Z.of_nat (length (open_segs r f s)) in
  m * RELSEG_SIZE = 2 ^ 32 → (m - 1) * RELSEG_SIZE <= nblocks < curnblk → curnblk < 2 ^ 32 →
  mdtruncate r f curnblk nblocks s = (Ok tt, s).
Proof.
  intros m Hm Hn Hc. pose proof RELSEG_SIZE_range as HR. unfold mdtruncate.
  destruct (Z.ltb_spec curnblk nblocks); [lia|]. destruct (Z.eqb_spec nblocks curnblk); [lia|].
  rewrite (M_bind_run _ _ _ (length (open_segs r f s)) s) by done. subst m.
  destruct (length (open_segs r f s)) as [|k] eqn:E; [done|]. cbn [truncate_loop].
  destruct (lookup_lt_is_Some_2 (open_segs r f s) k) as [v Hv]; [lia|].
  rewrite (M_bind_run _ _ _ _ _ (seg_fd_run _ _ _ _ _ Hv)).
  assert (0 <= Z.of_nat k * RELSEG_SIZE < 2 ^ 32) as Hk by (pow2; nia).
  rewrite (wrap32_small (Z.of_nat k * RELSEG_SIZE)) by exact Hk.
  assert (wrap32 (Z.of_nat k * RELSEG_SIZE + RELSEG_SIZE) = 0) as ->.
  { replace (Z.of_nat k * RELSEG_SIZE + RELSEG_SIZE) with (2 ^ 32) by lia. apply Z_mod_same_full. }
  destruct (Z.ltb_spec nblocks (Z.of_nat k * RELSEG_SIZE)); [lia|]. destruct (Z.ltb_spec nblocks 0); [lia|done].
Qed.

(** The two managers differ on creation during redo.  Creating a fork that
    exists, in redo, keeps its blocks with md.c and discards them with
    memsmgr.c. *)
Theorem redo_create_differs {D} {md : MdSmgr D} {seed : SeedImage} r f n l s (mem : MemState D) :
  md_ok s → calm (md_fs s) → fork_files r f n l s →
  TablespaceCreateDbspace (spcOid (locator r)) (dbOid (locator r)) true = Ok tt →
  mem_wf mem → unlocked r mem → fork_table_room r f mem → fork_view r f mem = Some l →
  (∃ s', mdcreate r f true s = (Ok tt, s') ∧ fork_files r f n l s') ∧
  (∃ mem', memcreate r f true mem = (Ok tt, mem') ∧ fork_view r f mem' = Some []).
Proof.
  intros Hok Hc Hf Hts Hwf Hun Hroom Hv. split.
  - destruct (mdcreate_redo r f n l s Hok Hc Hf Hts) as (s' & H1 & _ & H2 & _). by exists s'.
  - destruct (sim_create r f true mem Hwf Hun Hroom (or_introl eq_refl)) as (mem' & H1 & H2). exists mem'. split; [done|apply H2].
Qed.
End theorems.
End MdTheorems.
