(* ===== verification/MdExamples.v ===== *)
(** * MdExamples: a concrete disk

    A build with two-byte blocks and two blocks to a segment, on a directory
    with one relation of three blocks, and a file system that cuts its first
    transfers short.  The theorems about md.c apply there, and its functions
    compute. *)

From Stdlib Require Import ZArith Lia Bool Strings.Byte.
From stdpp Require Import base tactics numbers list gmap strings pretty.
From S2P Require Import Prelude RelPath MemSmgr MemSmgrInv MemSmgrRefine MemSmgrSim MemSmgrExamples Md FileSys.
From S2P Require Import MdInv MdRefine MdOps MdIo MdDrop MdUnlink MdSim MdSync MdTheorems.
Import Md MdInv MdRefine MdOps MdIo MdDrop MdUnlink MdSim MdSync MdTheorems.

Local Open Scope Z_scope.
Local Open Scope pg_scope.

(** ** States with nothing open *)

Section closed.
Context {env : Env} {mde : MdEnv}.

Definition md_closed (x : FileSys) : MdState := {| md_fs := x; md_open := ∅; md_requests := [] |}.

Lemma md_closed_open r f x : open_segs r f (md_closed x) = [].
Proof. unfold open_segs, md_closed. simpl. by rewrite lookup_empty. Qed.

Lemma md_closed_ok x : fs_ok x → md_ok (md_closed x).
Proof.
  intros H. constructor; [done|..].
  - intros r f i v Hv. by rewrite md_closed_open in Hv.
  - intros r f i v r' f' i' v' Hv. by rewrite md_closed_open in Hv.
  - intros r f Ho. by rewrite md_closed_open in Ho.
Qed.

Definition fs_blank : FileSys :=
  {| fs_dir := ∅; fs_data := ∅; fs_vfds := ∅; fs_next := 0; fs_schedule := [] |}.

Lemma fs_blank_ok : fs_ok fs_blank.
Proof. constructor; simpl; intros *; by rewrite lookup_empty. Qed.

Lemma md_blank_rep : md_rep (λ _ _, None) (md_closed fs_blank).
Proof.
  constructor; [apply md_closed_ok, fs_blank_ok|]. intros r f _. left. constructor; [|apply md_closed_open].
  intros k. unfold seg, file_at. simpl. by rewrite lookup_empty.
Qed.

(** One file. *)
Definition fs_one (p : string) (c : list byte) : FileSys :=
  {| fs_dir := {[p := 0]}; fs_data := {[0 := c]}; fs_vfds := ∅; fs_next := 1; fs_schedule := [] |}.

Lemma fs_one_ok p c : fs_ok (fs_one p c).
Proof.
  constructor; simpl; intros *; rewrite ?lookup_empty; try done.
  - by intros [<- <-]%lookup_singleton_Some [<- _]%lookup_singleton_Some.
  - intros [<- <-]%lookup_singleton_Some. by rewrite lookup_singleton_eq.
  - intros [<- <-]%lookup_singleton_Some. lia.
Qed.

Lemma fork_one r f l :
  valid_fork r f → blocks_ok l → (length l <= RS)%nat → Z.of_nat (length l) <= InvalidBlockNumber →
  fork_files r f 1 l (md_closed (fs_one (path r f 0) (mjoin l))).
Proof.
  intros Hv Hb Hl Hmax. constructor; try (done || lia).
  - intros k Hk. assert (k = 0)%nat as -> by lia. unfold seg, file_at. simpl. rewrite lookup_singleton_eq. simpl.
    rewrite lookup_singleton_eq. unfold seg_blocks. by rewrite drop_0, take_ge by done.
  - intros k Hk. unfold seg, file_at. simpl. rewrite lookup_singleton_ne; [done|]. intros E%path_inj. lia.
  - rewrite md_closed_open. simpl. lia.
Qed.
End closed.

(** ** A small build *)

#[local] Instance md_env : Env := {|
  BLCKSZ := 2;
  RELSEG_SIZE := 2;
  version_dir := "PG_19_202511051";
  getenv := λ _, None;
  fs_stat := λ _, StatENOENT;
  fs_read := λ _ _, None;
  IsUnderPostmaster := true;
  MyBackend := 1;
  uninit_page_index := 0;
|}.

#[local] Instance md_mde : MdEnv.
Proof.
  refine {| InRecovery := false; IsBinaryUpgrade := false; fastpg_immediate_unlink := false; zero_damaged_pages := false;
    file_extend_method := FILE_EXTEND_METHOD_POSIX_FALLOCATE; PG_IOV_MAX := 32; TablespaceCreateDbspace := λ _ _ _, Ok tt |}.
  - abstract done.
  - abstract done.
Defined.

Definition md_blocks : list Block := [[x01; x02]; [x03; x04]; [x05; x06]].

Definition md_dir : gmap string Z := {[path ex_rel MAIN_FORKNUM 0 := 0; path ex_rel MAIN_FORKNUM 1 := 1]}.
Definition md_data : gmap Z (list byte) := {[0 := [x01; x02; x03; x04]; 1 := [x05; x06]]}.

Definition md_disk (schedule : list io_event) : FileSys :=
  {| fs_dir := md_dir; fs_data := md_data; fs_vfds := ∅; fs_next := 2; fs_schedule := schedule |}.

Lemma md_dir_lookup p ino :
  md_dir !! p = Some ino → (p = path ex_rel MAIN_FORKNUM 0 ∧ ino = 0) ∨ (p = path ex_rel MAIN_FORKNUM 1 ∧ ino = 1).
Proof.
  unfold md_dir. intros [[<- <-]|[_ [<- <-]%lookup_singleton_Some]]%lookup_insert_Some; [by left|by right].
Qed.

Lemma md_disk_ok l : fs_ok (md_disk l).
Proof.
  constructor; simpl.
  - by intros p q ino [[-> ->]|[-> ->]]%md_dir_lookup [[-> ?]|[-> ?]]%md_dir_lookup.
  - by intros p ino [[-> ->]|[-> ->]]%md_dir_lookup.
  - intros p ino [[-> ->]|[-> ->]]%md_dir_lookup; lia.
  - intros *. by rewrite lookup_empty.
Qed.

Lemma ex_rel_fork : valid_fork ex_rel MAIN_FORKNUM.
Proof. split; [apply ex_rel_valid|done]. Qed.

Lemma md_disk_fork l : fork_files ex_rel MAIN_FORKNUM 2 md_blocks (md_closed (md_disk l)).
Proof.
  constructor; [vm_compute; lia|lia|by repeat constructor| | |rewrite md_closed_open; simpl; lia|done|apply ex_rel_fork].
  - intros [|[|k]] Hk; [reflexivity|reflexivity|lia].
  - intros k Hk. unfold seg, file_at. simpl. destruct (md_dir !! path ex_rel MAIN_FORKNUM k) as [ino|] eqn:E; [|done].
    apply md_dir_lookup in E as [[E%path_inj _]|[E%path_inj _]]; lia.
Qed.

(** Every second transfer delivers one byte. *)
Definition md_short : list io_event := [IoShort 1; IoShort 1; IoFull; IoShort 1].
Lemma md_short_calm : calm (md_fs (md_closed (md_disk md_short))).
Proof. by repeat constructor. Qed.

Lemma md_in_segment : in_segment 0 2.
Proof. split; [lia|vm_compute; lia|done]. Qed.

Lemma mdreadv_short_reads_witness :
  ∃ s', mdreadv ex_rel MAIN_FORKNUM 0 2 (md_closed (md_disk md_short)) = (Ok [[x01; x02]; [x03; x04]], s') ∧
    opens ex_rel MAIN_FORKNUM 2 md_blocks (md_closed (md_disk md_short)) s'.
Proof.
  apply (mdreadv_short_reads ex_rel MAIN_FORKNUM 2 md_blocks (md_closed (md_disk md_short)) 0 2);
    [apply md_closed_ok, md_disk_ok|apply md_short_calm|apply md_disk_fork|simpl; lia|apply md_in_segment].
Defined.

Lemma mdwritev_short_writes_witness :
  ∃ s', mdwritev ex_rel MAIN_FORKNUM 0 [[x07; x08]; [x09; x0a]] false (md_closed (md_disk md_short)) = (Ok tt, s') ∧
    opens ex_rel MAIN_FORKNUM 2 [[x07; x08]; [x09; x0a]; [x05; x06]] (md_closed (md_disk md_short)) s'.
Proof.
  apply (mdwritev_short_writes ex_rel MAIN_FORKNUM 2 md_blocks (md_closed (md_disk md_short)) 0 [[x07; x08]; [x09; x0a]]);
    [apply md_closed_ok, md_disk_ok|apply md_short_calm|apply md_disk_fork|simpl; lia|apply md_in_segment|by repeat constructor].
Defined.

Lemma mdunlink_until_checkpoint_witness :
  ∃ s1, mdunlink ex_rel MAIN_FORKNUM false (md_closed (md_disk md_short)) = (Ok tt, s1) ∧
    ∃ s2, mdunlinkfiletag (unlink_tag ex_rel MAIN_FORKNUM) s1 = (Ok (inr tt), s2) ∧ md_absent ex_rel MAIN_FORKNUM s2.
Proof.
  destruct (mdunlink_until_checkpoint ex_rel 2 md_blocks (md_closed (md_disk md_short)))
    as (s1 & H1 & _ & _ & _ & _ & s2 & H2 & _ & H3);
    [apply md_closed_ok, md_disk_ok|apply md_short_calm|apply md_disk_fork|apply md_closed_open|done|done|].
  exists s1. split; [exact H1|]. exists s2. split; [exact H2|exact H3].
Defined.

Lemma mdregistersync_covers_witness :
  ∃ s', mdregistersync ex_rel MAIN_FORKNUM (md_closed (md_disk md_short)) = (Ok tt, s') ∧
    (SYNC_REQUEST, seg_tag ex_rel MAIN_FORKNUM 1) ∈ md_requests s'.
Proof.
  destruct (mdregistersync_covers ex_rel MAIN_FORKNUM 2 md_blocks (md_closed (md_disk md_short)))
    as (s' & H1 & _ & _ & _ & H2); [apply md_closed_ok, md_disk_ok|apply md_short_calm|apply md_disk_fork|].
  exists s'. split; [exact H1|]. apply H2. lia.
Defined.

(** A relation grows over the end of a segment, is created again in redo, is
    rewritten, cut and dropped, the removal of its first segment left to the next
    checkpoint. *)
Definition md_ex_calls : list call :=
  [CCreate ex_rel MAIN_FORKNUM false; CExtend ex_rel MAIN_FORKNUM 0 [x01; x02] false; CZeroExtend ex_rel MAIN_FORKNUM 1 3 true;
   CCreate ex_rel MAIN_FORKNUM true;
   CWritev ex_rel MAIN_FORKNUM 2 [[x03; x04]; [x05; x06]] false; CReadv ex_rel MAIN_FORKNUM 2 2; CNblocks ex_rel MAIN_FORKNUM;
   CTruncate ex_rel MAIN_FORKNUM 4 1; CReadv ex_rel MAIN_FORKNUM 0 1; CExists ex_rel MAIN_FORKNUM;
   CUnlink ex_rel MAIN_FORKNUM false].

Lemma md_ex_admissible : md_admissible md_ex_calls (λ _ _, None) (md_closed fs_blank).
Proof.
  unfold md_ex_calls. cbn [md_admissible].
  repeat (split; [split; [apply ex_rel_fork|split]|]); try done.
  all: try (intros Hv; exfalso; revert Hv; vm_compute; discriminate).
  all: try (vm_compute; repeat split; (done || lia || (by repeat constructor) || auto)).
  intros _. apply not_elem_of_nil.
Qed.

Lemma md_simulates_store_witness :
  ∃ s', md_calls md_ex_calls (md_closed fs_blank) =
    (Ok [RUnit; RUnit; RUnit; RUnit; RUnit; RBlocks [[x03; x04]; [x05; x06]]; RNum 4; RUnit; RBlocks [[x01; x02]]; RBool true;
         RUnit], s').
Proof.
  destruct (md_simulates_store md_ex_calls (λ _ _, None) (md_closed fs_blank)) as (s' & H & _);
    [apply md_blank_rep|by repeat constructor|apply md_ex_admissible|]. exists s'. rewrite H. reflexivity.
Defined.

(** The functions compute: the same calls, evaluated. *)
Example md_ex_evaluates :
  (md_calls md_ex_calls (md_closed fs_blank)).1 =
  Ok [RUnit; RUnit; RUnit; RUnit; RUnit; RBlocks [[x03; x04]; [x05; x06]]; RNum 4; RUnit; RBlocks [[x01; x02]]; RBool true;
      RUnit].
Proof. vm_compute. reflexivity. Qed.

Lemma md_readv_complete_blocks_witness :
  let res := md_readv_complete 2 {| aio_status := PGAIO_RS_OK; aio_error_data := 0; aio_result := 3 |} in
  aio_result res = 1 ∧ aio_status res = PGAIO_RS_PARTIAL.
Proof.
  destruct (md_readv_complete_blocks 2 3) as (H1 & _ & _ & H4); [lia|simpl; lia|].
  split; [exact H1|]. apply H4. simpl. lia.
Defined.

(** ** The largest relation *)

(** Four segments of 2^30 blocks reach the last block number. *)
#[local] Instance big_env : Env := {|
  BLCKSZ := 2;
  RELSEG_SIZE := 1073741824;
  version_dir := "PG_19_202511051";
  getenv := λ _, None;
  fs_stat := λ _, StatENOENT;
  fs_read := λ _ _, None;
  IsUnderPostmaster := true;
  MyBackend := 1;
  uninit_page_index := 0;
|}.

#[local] Instance big_mde : @MdEnv big_env.
Proof.
  refine {| InRecovery := false; IsBinaryUpgrade := false; fastpg_immediate_unlink := false; zero_damaged_pages := false;
    file_extend_method := FILE_EXTEND_METHOD_POSIX_FALLOCATE; PG_IOV_MAX := 32; TablespaceCreateDbspace := λ _ _ _, Ok tt |}.
  - abstract done.
  - abstract done.
Defined.

Definition big_open : MdState :=
  {| md_fs := fs_blank;
     md_open := {[(ex_rel, MAIN_FORKNUM) := (λ k, {| mdfd_vfd := k; mdfd_segno := k |}) <$> [0; 1; 2; 3]]};
     md_requests := [] |}.

Lemma mdtruncate_last_segment_witness :
  @mdtruncate big_env big_mde ex_rel MAIN_FORKNUM 4294967290 4294967280 big_open = (Ok tt, big_open).
Proof.
  apply (@mdtruncate_last_segment big_env big_mde ex_rel MAIN_FORKNUM 4294967290 4294967280 big_open); vm_compute; done.
Defined.

(** ** Creation during redo *)

#[local] Instance seeded_mde : @MdEnv ex_env.
Proof.
  refine {| InRecovery := true; IsBinaryUpgrade := false; fastpg_immediate_unlink := false; zero_damaged_pages := false;
    file_extend_method := FILE_EXTEND_METHOD_POSIX_FALLOCATE; PG_IOV_MAX := 32; TablespaceCreateDbspace := λ _ _ _, Ok tt |}.
  - abstract done.
  - abstract done.
Defined.

(** The relation of the seed directory, on disk and in memory. *)
Lemma redo_create_differs_witness :
  let s := @md_closed (@fs_one (@path ex_env ex_rel MAIN_FORKNUM 0) (ex_block1 ++ ex_block2)) in
  (∃ s', @mdcreate ex_env seeded_mde ex_rel MAIN_FORKNUM true s = (Ok tt, s') ∧
     @fork_files ex_env ex_rel MAIN_FORKNUM 1 [ex_block1; ex_block2] s') ∧
  (∃ mem', @memcreate ex_env unit ex_md ex_rel MAIN_FORKNUM true ex_start = (Ok tt, mem') ∧
     @fork_view ex_env unit ex_seed ex_rel MAIN_FORKNUM mem' = Some []).
Proof.
  apply (@redo_create_differs ex_env seeded_mde unit ex_md ex_seed ex_rel MAIN_FORKNUM 1 [ex_block1; ex_block2]).
  - apply md_closed_ok, fs_one_ok.
  - by repeat constructor.
  - apply (@fork_one ex_env ex_rel MAIN_FORKNUM [ex_block1; ex_block2]);
      [apply ex_rel_fork|apply Forall_cons_2; [done|]; apply Forall_cons_2; [done|]; apply Forall_nil_2|unfold RS; change (@RELSEG_SIZE ex_env) with 131072; simpl length; lia|done].
  - done.
  - apply ex_wf.
  - apply ex_unlocked.
  - apply ex_room.
  - apply ex_view.
Defined.
