(* ===== verification/MdLocal.v ===== *)
(** * MdLocal: md.c opens files of the relation it is called for only

    Whatever the outcome of a call of md.c, also when a file operation in the
    middle of it fails, the open segments of other relations stay as they are;
    and closing a fork always succeeds and leaves none of it open. *)

From Stdlib Require Import ZArith Lia Bool.
From stdpp Require Import base tactics numbers list gmap strings.
From S2P Require Import Prelude RelPath MemSmgr FileSys Md.
Import Md.

Local Open Scope Z_scope.

Module MdLocal.

Section local.
Context {env : Env} {mde : MdEnv}.
Implicit Types (r : RelFileLocatorBackend) (f : ForkNumber) (s : MdState).

(** The open segments of relation [r] stay. *)
Definition same_segs r s s' : Prop := ∀ f, open_segs r f s' = open_segs r f s.
#[global] Instance same_segs_preorder r : PreOrder (same_segs r).
Proof. split; [done|]. intros s1 s2 s3 H1 H2 f. by rewrite H2, H1. Qed.

Context (r' r : RelFileLocatorBackend) (Hne : r' ≠ r).
Abbreviation local := (respects (S := MdState) (same_segs r')).

Lemma on_sys_local {A} (c : Sys A) : local (on_sys c).
Proof. intros s f. unfold on_sys. by destruct (c (md_fs s)). Qed.
Lemma set_fs_local g : local (modify (λ s, set_fs (g s) s)).
Proof. by apply respects_modify. Qed.
Lemma request_local q : local (modify (add_request q)).
Proof. by apply respects_modify. Qed.
Lemma resize_local f n : local (_fdvec_resize r f n).
Proof.
  apply respects_modify. intros s f'. unfold open_segs. simpl. rewrite lookup_insert_ne; [done|]. congruence.
Qed.
Lemma fill_local f n v : local (seg_fill r f n v).
Proof.
  apply respects_modify. intros s f'. unfold open_segs. simpl. rewrite lookup_insert_ne; [done|]. congruence.
Qed.
Local Hint Resolve on_sys_local set_fs_local request_local resize_local fill_local : respects.
Local Hint Extern 2 (respects _ (num_open _ _)) => apply respects_gets; apply _ : respects.
Local Hint Extern 2 (respects _ (seg_fd _ _ _)) => apply respects_gets; apply _ : respects.

Lemma sys_or_local {A} (c : Sys A) code msg : local (sys_or c code msg).
Proof. unfold sys_or. eauto with respects. Qed.
Lemma register_local tag type retry : local (RegisterSyncRequest tag type retry).
Proof.
  unfold RegisterSyncRequest. destruct retry; [eauto with respects|]. intros s f.
  by destruct (next_event (md_fs s)) as [[] x].
Qed.
Local Hint Resolve sys_or_local register_local : respects.

Lemma dirty_local f v : local (register_dirty_segment r f v).
Proof. unfold register_dirty_segment. eauto with respects. Qed.
Local Hint Resolve dirty_local : respects.

Lemma close_segs_local f n : local (close_segs r f n).
Proof. induction n; cbn [close_segs]; respects. Qed.
Lemma openseg_local f n c : local (_mdfd_openseg r f n c).
Proof. unfold _mdfd_openseg. respects. Qed.
Lemma openfork_local f b : local (mdopenfork r f b).
Proof. unfold mdopenfork. respects. Qed.
Lemma seg_nblocks_local v : local (_mdnblocks v).
Proof. unfold _mdnblocks. respects. Qed.
Local Hint Resolve close_segs_local openseg_local openfork_local seg_nblocks_local : respects.

Lemma extend_with_local getseg f b buf skip :
  (∀ blk beh, local (getseg blk beh)) → local (mdextend_with getseg r f b buf skip).
Proof. intros H. unfold mdextend_with. respects. Qed.
Lemma getseg_loop_local pad f beh v n count :
  (∀ blk, local (pad blk)) → local (getseg_loop pad r f beh v n count).
Proof.
  intros H. revert v n. induction count; intros v n; cbn [getseg_loop]; respects.
Qed.
Lemma getseg_depth_local depth f skip b beh : local (getseg_depth depth r f skip b beh).
Proof.
  revert b beh. induction depth as [|depth IH]; intros b beh; cbn [getseg_depth]; [auto with respects|].
  assert (∀ v n count, local (getseg_loop (λ blk, mdextend_with (getseg_depth depth r f skip) r f blk zero_block skip) r f beh v n count)).
  { intros v n count. apply getseg_loop_local. intros blk. by apply extend_with_local. }
  respects.
Qed.
Lemma getseg_local f b skip beh : local (_mdfd_getseg r f b skip beh).
Proof. apply getseg_depth_local. Qed.
Local Hint Resolve getseg_local : respects.
Lemma getseg_or_fail_local f b skip beh : local (getseg_or_fail r f b skip beh).
Proof. unfold getseg_or_fail. eauto with respects. Qed.
Local Hint Resolve getseg_or_fail_local : respects.

Lemma mdopen_local : local (mdopen r).
Proof.
  apply respects_for_each; [apply _|]. intros f _. apply respects_modify. intros s f'. unfold open_segs. simpl.
  rewrite lookup_insert_ne; [done|]. congruence.
Qed.
Lemma mdclose_local f : local (mdclose r f).
Proof. unfold mdclose. eauto with respects. Qed.
Lemma mdcreate_local f isRedo : local (mdcreate r f isRedo).
Proof. unfold mdcreate. respects. Qed.
Lemma mdexists_local f : local (mdexists r f).
Proof. unfold mdexists, mdclose. respects. Qed.
Lemma unlink_segs_local fuel f n : local (unlink_segs fuel r f n).
Proof.
  revert n. induction fuel; intros n; cbn [unlink_segs]; unfold register_forget_request, do_truncate;
    respects.
Qed.
Local Hint Resolve unlink_segs_local : respects.
Lemma mdunlink_local f isRedo : local (mdunlink r f isRedo).
Proof.
  assert (∀ f, local (mdunlinkfork r f isRedo)).
  { intros f0. unfold mdunlinkfork, register_forget_request, register_unlink_segment, do_truncate. respects. }
  unfold mdunlink. eauto with respects.
Qed.
Lemma mdextend_local f b buf skip : local (mdextend r f b buf skip).
Proof. apply extend_with_local. auto with respects. Qed.
Lemma mdzeroextend_local f b n skip : local (mdzeroextend r f b n skip).
Proof.
  assert (∀ fuel b n, local (zeroextend_loop fuel r f b n skip)).
  { intros fuel. induction fuel; intros b0 n0; cbn [zeroextend_loop]; respects. }
  unfold mdzeroextend. eauto with respects.
Qed.
Lemma mdprefetch_local f b n : local (mdprefetch r f b n).
Proof.
  assert (∀ fuel b n, local (prefetch_loop fuel r f b n)).
  { intros fuel. induction fuel; intros b0 n0; cbn [prefetch_loop]; respects. }
  unfold mdprefetch. eauto with respects.
Qed.
Lemma mdreadv_local f b n : local (mdreadv r f b n).
Proof.
  assert (∀ fuel vfd pos size acc, local (read_loop fuel vfd pos size acc)).
  { intros fuel. induction fuel; intros vfd pos size acc; cbn [read_loop]; respects. }
  unfold mdreadv. respects.
Qed.
Lemma mdwritev_local f b bufs skip : local (mdwritev r f b bufs skip).
Proof.
  assert (∀ fuel vfd pos bytes, local (write_loop fuel vfd pos bytes)).
  { intros fuel. induction fuel; intros vfd pos bytes; cbn [write_loop]; respects. }
  unfold mdwritev. respects.
Qed.
Lemma mdwriteback_local f b n : local (mdwriteback r f b n).
Proof.
  unfold mdwriteback. generalize (Z.to_nat n). intros fuel. revert b n.
  induction fuel; intros b n; cbn [writeback_loop]; respects.
Qed.
Lemma mdnblocks_local f : local (mdnblocks r f).
Proof.
  assert (∀ fuel n v, local (nblocks_loop fuel r f n v)).
  { intros fuel. induction fuel; intros n v; cbn [nblocks_loop]; respects. }
  unfold mdnblocks. respects.
Qed.
Lemma mdtruncate_local f old n : local (mdtruncate r f old n).
Proof.
  assert (∀ k, local (truncate_loop r f n k)).
  { intros k. induction k; cbn [truncate_loop]; respects. }
  unfold mdtruncate. respects.
Qed.
Lemma sync_relation_local sync f : (∀ v, local (sync v)) → local (sync_relation sync r f).
Proof.
  intros Hs. assert (∀ fuel n, local (open_inactive fuel r f n)).
  { intros fuel. induction fuel; intros n; cbn [open_inactive]; respects. }
  assert (∀ m n, local (sync_segs sync r f m n)).
  { intros m n. induction n; cbn [sync_segs]; respects. }
  pose proof (mdnblocks_local f). unfold sync_relation. respects.
Qed.
Lemma mdregistersync_local f : local (mdregistersync r f).
Proof. apply sync_relation_local. auto with respects. Qed.
Lemma mdimmedsync_local f : local (mdimmedsync r f).
Proof. apply sync_relation_local. auto with respects. Qed.
Lemma mdfd_local f b : local (mdfd r f b).
Proof. unfold mdfd. respects. Qed.
End local.

(** ** Closing *)

Section close.
Context {env : Env} {mde : MdEnv}.
Implicit Types (r : RelFileLocatorBackend) (f : ForkNumber) (s : MdState).

Lemma open_segs_insert r f l o s : open_segs r f (set_open (<[(r, f) := l]> o) s) = l.
Proof. unfold open_segs. simpl. by rewrite lookup_insert_eq. Qed.

Lemma close_segs_closes r f n s :
  (length (open_segs r f s) <= n)%nat →
  ∃ s', close_segs r f n s = (Ok tt, s') ∧ open_segs r f s' = [] ∧
    ∀ r' f', (r', f') ≠ (r, f) → open_segs r' f' s' = open_segs r' f' s.
Proof.
  revert s. induction n as [|n IH]; intros s Hn.
  { exists s. split; [done|]. split; [apply nil_length_inv; lia|done]. }
  cbn [close_segs]. unfold seg_fd, _fdvec_resize, gets, modify, mbind, M_bind in *. simpl.
  set (s1 := set_open _ _). destruct (IH s1) as (s' & H1 & H2 & H3).
  { unfold s1. rewrite open_segs_insert, length_take. simpl. lia. }
  exists s'. split; [exact H1|]. split; [done|]. intros r' f' Hne. rewrite H3 by done.
  unfold s1, open_segs. simpl. by rewrite lookup_insert_ne.
Qed.

Lemma mdclose_closes r f s :
  ∃ s', mdclose r f s = (Ok tt, s') ∧ open_segs r f s' = [] ∧
    ∀ r' f', (r', f') ≠ (r, f) → open_segs r' f' s' = open_segs r' f' s.
Proof. unfold mdclose. rewrite (M_bind_run _ _ _ (length (open_segs r f s)) s) by done. by apply close_segs_closes. Qed.

Lemma mdclose_forks fs r s :
  ∃ s', for_each fs (mdclose r) s = (Ok tt, s') ∧ (∀ f, f ∈ fs → open_segs r f s' = []) ∧
    ∀ f, f ∉ fs → open_segs r f s' = open_segs r f s.
Proof.
  revert s. induction fs as [|f fs IH]; intros s.
  { exists s. split; [done|]. split; [by intros f ?%not_elem_of_nil|done]. }
  cbn [for_each]. destruct (mdclose_closes r f s) as (s1 & H1 & H2 & H3). rewrite (M_bind_run _ _ _ _ _ H1).
  destruct (IH s1) as (s2 & G1 & G2 & G3). exists s2. split; [exact G1|]. split.
  - intros f' Hf'. destruct (decide (f' ∈ fs)) as [Hin|Hin]; [by apply G2|]. rewrite G3 by done.
    apply elem_of_cons in Hf' as [->|?]; done.
  - intros f' [Hne Hin]%not_elem_of_cons. rewrite G3 by done. apply H3. congruence.
Qed.
End close.
End MdLocal.
