(* ===== verification/Smgr.v ===== *)
(** * Smgr: the storage manager switch

    src/src/backend/storage/smgr/smgr.c: the table of storage managers, the
    relation objects of a backend with their cached sizes and pins, and the
    functions the rest of PostgreSQL calls.  A pointer to a relation object is
    the key of its entry in SMgrRelationHash; following the pointer of an object
    that has been destroyed is an error here.

    What the storage managers keep is a state of type [S], the buffer manager's
    a state of type [B]; the messages sent to other backends are recorded in
    order. *)

From Stdlib Require Import ZArith Lia Bool Strings.Byte.
From stdpp Require Import base tactics numbers list gmap strings.
From S2P Require Import Prelude RelPath MemSmgr FileSys Md.

Local Open Scope Z_scope.
Local Open Scope pg_scope.

Module Smgr.

(** ** The table of storage managers *)

(** The functions of one storage manager.  They are passed the relation object,
    of which they use its locator; what md.c keeps in it is part of [S]. *)
Record f_smgr (S : Type) : Type := {
  smgr_init : option (M S unit);
  smgr_shutdown : option (M S unit);
  smgr_open : RelFileLocatorBackend → M S unit;
  smgr_close : RelFileLocatorBackend → ForkNumber → M S unit;
  smgr_create : RelFileLocatorBackend → ForkNumber → bool → M S unit;
  smgr_exists : RelFileLocatorBackend → ForkNumber → M S bool;
  smgr_unlink : RelFileLocatorBackend → ForkNumber → bool → M S unit;
  smgr_extend : RelFileLocatorBackend → ForkNumber → BlockNumber → Block → bool → M S unit;
  smgr_zeroextend : RelFileLocatorBackend → ForkNumber → BlockNumber → Z → bool → M S unit;
  smgr_prefetch : RelFileLocatorBackend → ForkNumber → BlockNumber → Z → M S bool;
  smgr_maxcombine : RelFileLocatorBackend → ForkNumber → BlockNumber → M S Z;
  smgr_readv : RelFileLocatorBackend → ForkNumber → BlockNumber → BlockNumber → M S (list Block);
  smgr_writev : RelFileLocatorBackend → ForkNumber → BlockNumber → list Block → bool → M S unit;
  smgr_writeback : RelFileLocatorBackend → ForkNumber → BlockNumber → BlockNumber → M S unit;
  smgr_nblocks : RelFileLocatorBackend → ForkNumber → M S BlockNumber;
  smgr_truncate : RelFileLocatorBackend → ForkNumber → BlockNumber → BlockNumber → M S unit;
  smgr_immedsync : RelFileLocatorBackend → ForkNumber → M S unit;
  smgr_registersync : RelFileLocatorBackend → ForkNumber → M S unit;
  smgr_fd : RelFileLocatorBackend → ForkNumber → BlockNumber → M S (Z * Z);
}.
Arguments smgr_init {S} _.
Arguments smgr_shutdown {S} _.
Arguments smgr_open {S} _ _ _.
Arguments smgr_close {S} _ _ _ _.
Arguments smgr_create {S} _ _ _ _ _.
Arguments smgr_exists {S} _ _ _ _.
Arguments smgr_unlink {S} _ _ _ _ _.
Arguments smgr_extend {S} _ _ _ _ _ _ _.
Arguments smgr_zeroextend {S} _ _ _ _ _ _ _.
Arguments smgr_prefetch {S} _ _ _ _ _ _.
Arguments smgr_maxcombine {S} _ _ _ _ _.
Arguments smgr_readv {S} _ _ _ _ _ _.
Arguments smgr_writev {S} _ _ _ _ _ _ _.
Arguments smgr_writeback {S} _ _ _ _ _ _.
Arguments smgr_nblocks {S} _ _ _ _.
Arguments smgr_truncate {S} _ _ _ _ _ _.
Arguments smgr_immedsync {S} _ _ _ _.
Arguments smgr_registersync {S} _ _ _ _.
Arguments smgr_fd {S} _ _ _ _ _.

Inductive SMgrWhich : Type := SMGR_MD | SMGR_MEM.

(** FASTPG_USE_MEM_SMGR is a switch of the build. *)
Class SmgrSwitch (S : Type) : Type := {
  FASTPG_USE_MEM_SMGR : bool;
  smgrsw : SMgrWhich → f_smgr S;
}.

Definition all_smgrs {S} {sw : SmgrSwitch S} : list SMgrWhich :=
  if FASTPG_USE_MEM_SMGR then [SMGR_MD; SMGR_MEM] else [SMGR_MD].

(** ** State *)

Record SMgrRelationData : Type := {
  smgr_targblock : BlockNumber;
  smgr_cached_nblocks : ForkNumber → BlockNumber;
  smgr_which : SMgrWhich;
  pincount : Z;
}.

(** A hash table that has not been created yet is empty. *)
Record SmgrState (S B : Type) : Type := {
  SMgrRelationHash : gmap RelFileLocatorBackend SMgrRelationData;
  unpinned_relns : list RelFileLocatorBackend;
  smgr_initialized : bool;
  InterruptHoldoffCount : Z;
  sm_store : S;
  sm_buffers : B;
  sm_messages : list RelFileLocatorBackend;
}.
Arguments SMgrRelationHash {S B} _.
Arguments unpinned_relns {S B} _.
Arguments smgr_initialized {S B} _.
Arguments InterruptHoldoffCount {S B} _.
Arguments sm_store {S B} _.
Arguments sm_buffers {S B} _.
Arguments sm_messages {S B} _.
Arguments Build_SmgrState {S B} _ _ _ _ _ _ _.

(** What smgr.c asks of the buffer manager: to forget the buffers of relations,
    or of blocks from given numbers on, which does not write them, and to write
    the buffers of relations out, which comes back through smgr.c. *)
Class BufMgr (S B : Type) : Type := {
  DropRelationsAllBuffers : list RelFileLocatorBackend → B → B;
  DropRelationBuffers : RelFileLocatorBackend → list (ForkNumber * BlockNumber) → B → B;
  FlushRelationsAllBuffers : list RelFileLocatorBackend → M (SmgrState S B) unit;
}.

Section smgr.
Context {env : Env} {mde : Md.MdEnv} {S B : Type} {sw : SmgrSwitch S} {buf : BufMgr S B}.
Abbreviation MM := (M (SmgrState S B)) (only parsing).
Implicit Types (r reln : RelFileLocatorBackend) (f forknum : ForkNumber) (s : SmgrState S B) (d : SMgrRelationData).

Definition with_relns h s : SmgrState S B :=
  {| SMgrRelationHash := h; unpinned_relns := unpinned_relns s; smgr_initialized := smgr_initialized s;
     InterruptHoldoffCount := InterruptHoldoffCount s; sm_store := sm_store s; sm_buffers := sm_buffers s;
     sm_messages := sm_messages s |}.
Definition with_unpinned l s : SmgrState S B :=
  {| SMgrRelationHash := SMgrRelationHash s; unpinned_relns := l; smgr_initialized := smgr_initialized s;
     InterruptHoldoffCount := InterruptHoldoffCount s; sm_store := sm_store s; sm_buffers := sm_buffers s;
     sm_messages := sm_messages s |}.
Definition with_initialized i s : SmgrState S B :=
  {| SMgrRelationHash := SMgrRelationHash s; unpinned_relns := unpinned_relns s; smgr_initialized := i;
     InterruptHoldoffCount := InterruptHoldoffCount s; sm_store := sm_store s; sm_buffers := sm_buffers s;
     sm_messages := sm_messages s |}.
Definition with_holdoff n s : SmgrState S B :=
  {| SMgrRelationHash := SMgrRelationHash s; unpinned_relns := unpinned_relns s; smgr_initialized := smgr_initialized s;
     InterruptHoldoffCount := n; sm_store := sm_store s; sm_buffers := sm_buffers s; sm_messages := sm_messages s |}.
Definition with_store x s : SmgrState S B :=
  {| SMgrRelationHash := SMgrRelationHash s; unpinned_relns := unpinned_relns s; smgr_initialized := smgr_initialized s;
     InterruptHoldoffCount := InterruptHoldoffCount s; sm_store := x; sm_buffers := sm_buffers s;
     sm_messages := sm_messages s |}.
Definition with_buffers b s : SmgrState S B :=
  {| SMgrRelationHash := SMgrRelationHash s; unpinned_relns := unpinned_relns s; smgr_initialized := smgr_initialized s;
     InterruptHoldoffCount := InterruptHoldoffCount s; sm_store := sm_store s; sm_buffers := b;
     sm_messages := sm_messages s |}.
Definition with_messages m s : SmgrState S B :=
  {| SMgrRelationHash := SMgrRelationHash s; unpinned_relns := unpinned_relns s; smgr_initialized := smgr_initialized s;
     InterruptHoldoffCount := InterruptHoldoffCount s; sm_store := sm_store s; sm_buffers := sm_buffers s;
     sm_messages := m |}.

(** A call of a storage manager. *)
Definition on_store {A} (m : M S A) : MM A := λ s,
  let '(a, x) := m (sm_store s) in (a, with_store x s).

(** [reln->...]: what a pointer to a relation object points to. *)
Definition deref r : MM SMgrRelationData := λ s,
  match SMgrRelationHash s !! r with
  | Some d => (Ok d, s)
  | None => (Error ERRCODE_INTERNAL_ERROR "no such SMgrRelation", s)
  end.
Definition update_reln r (g : SMgrRelationData → SMgrRelationData) : MM unit :=
  modify (λ s, with_relns (alter g r (SMgrRelationHash s)) s).

Definition set_cached f (n : BlockNumber) d : SMgrRelationData :=
  {| smgr_targblock := smgr_targblock d;
     smgr_cached_nblocks := λ f', if decide (f' = f) then n else smgr_cached_nblocks d f';
     smgr_which := smgr_which d; pincount := pincount d |}.
Definition set_targblock (n : BlockNumber) d : SMgrRelationData :=
  {| smgr_targblock := n; smgr_cached_nblocks := smgr_cached_nblocks d; smgr_which := smgr_which d; pincount := pincount d |}.
Definition set_pincount (n : Z) d : SMgrRelationData :=
  {| smgr_targblock := smgr_targblock d; smgr_cached_nblocks := smgr_cached_nblocks d; smgr_which := smgr_which d;
     pincount := n |}.

(** [smgrsw[reln->smgr_which].f(reln, ...)] *)
Definition dispatch {A} r (call : f_smgr S → M S A) : MM A :=
  d ← deref r; on_store (call (smgrsw (smgr_which d))).

(** HOLD_INTERRUPTS(); ...; RESUME_INTERRUPTS().  An error leaves them held
    until the transaction's error handler resets the count. *)
Definition hold_interrupts {A} (m : MM A) : MM A :=
  modify (λ s, with_holdoff (InterruptHoldoffCount s + 1) s);;
  a ← m;
  modify (λ s, with_holdoff (InterruptHoldoffCount s - 1) s);;
  mret a.

Definition dlist_push_tail r : MM unit := modify (λ s, with_unpinned (unpinned_relns s ++ [r]) s).
Definition dlist_delete r : MM unit := modify (λ s, with_unpinned (filter (λ r', r' ≠ r) (unpinned_relns s)) s).

Definition CacheInvalidateSmgr r : MM unit := modify (λ s, with_messages (sm_messages s ++ [r]) s).

(** ** Relation objects *)

Definition smgrinit : MM unit :=
  done ← gets smgr_initialized;
  if done : bool then mret tt
  else
    hold_interrupts (for_each all_smgrs (λ w,
      match smgr_init (smgrsw w) with Some init => on_store init | None => mret tt end));;
    modify (with_initialized true).

Definition FastPgEnsureThreadSmgr : MM unit := smgrinit.

Definition smgrshutdown : MM unit :=
  hold_interrupts (for_each all_smgrs (λ w,
    match smgr_shutdown (smgrsw w) with Some shutdown => on_store shutdown | None => mret tt end)).

Definition smgrchoose (rlocator : RelFileLocatorBackend) : SMgrWhich :=
  if FASTPG_USE_MEM_SMGR then SMGR_MEM else SMGR_MD.

Definition smgropen (rlocator : RelFileLocator) (backend : Z) : MM RelFileLocatorBackend :=
  hold_interrupts (
    let brlocator := {| locator := rlocator; RelPath.backend := backend |} in
    found ← gets (λ s, SMgrRelationHash s !! brlocator);
    match found with
    | Some _ => mret brlocator
    | None =>
        let which := smgrchoose brlocator in
        modify (λ s, with_relns (<[brlocator :=
          {| smgr_targblock := Md.InvalidBlockNumber; smgr_cached_nblocks := λ _, Md.InvalidBlockNumber;
             smgr_which := which; pincount := 0 |}]> (SMgrRelationHash s)) s);;
        dlist_push_tail brlocator;;
        on_store (smgr_open (smgrsw which) brlocator);;
        mret brlocator
    end).

Definition smgrpin reln : MM unit :=
  d ← deref reln;
  (if pincount d =? 0 then dlist_delete reln else mret tt);;
  update_reln reln (λ d, set_pincount (pincount d + 1) d).

Definition smgrunpin reln : MM unit :=
  update_reln reln (λ d, set_pincount (pincount d - 1) d);;
  d ← deref reln;
  if pincount d =? 0 then dlist_push_tail reln else mret tt.

Definition smgrdestroy reln : MM unit :=
  hold_interrupts (
    for_each all_forks (λ f, dispatch reln (λ m, smgr_close m reln f));;
    dlist_delete reln;;
    found ← gets (λ s, SMgrRelationHash s !! reln);
    modify (λ s, with_relns (delete reln (SMgrRelationHash s)) s);;
    match found with
    | None => ereport ERRCODE_INTERNAL_ERROR "SMgrRelation hashtable corrupted"
    | Some _ => mret tt
    end).

Definition smgrrelease reln : MM unit :=
  hold_interrupts (
    for_each all_forks (λ f,
      dispatch reln (λ m, smgr_close m reln f);;
      update_reln reln (set_cached f Md.InvalidBlockNumber));;
    update_reln reln (set_targblock Md.InvalidBlockNumber)).

Definition smgrclose reln : MM unit := smgrrelease reln.

(** Each call takes its own object off the list that is walked. *)
Definition smgrdestroyall : MM unit :=
  hold_interrupts (l ← gets unpinned_relns; for_each l smgrdestroy).

Definition smgrreleaseall : MM unit :=
  hold_interrupts (l ← gets (λ s, (map_to_list (SMgrRelationHash s)).*1); for_each l smgrrelease).

Definition smgrreleaserellocator (rlocator : RelFileLocatorBackend) : MM unit :=
  found ← gets (λ s, SMgrRelationHash s !! rlocator);
  match found with Some _ => smgrrelease rlocator | None => mret tt end.

Definition AtEOXact_SMgr : MM unit := smgrdestroyall.

Definition ProcessBarrierSmgrRelease : MM bool := smgrreleaseall;; mret true.

(** ** Operations on forks *)

Definition smgrexists reln forknum : MM bool := hold_interrupts (dispatch reln (λ m, smgr_exists m reln forknum)).

Definition smgrcreate reln forknum (isRedo : bool) : MM unit :=
  hold_interrupts (dispatch reln (λ m, smgr_create m reln forknum isRedo)).

Definition smgrdosyncall (rels : list RelFileLocatorBackend) : MM unit :=
  match rels with
  | [] => mret tt
  | _ =>
      FlushRelationsAllBuffers rels;;
      hold_interrupts (for_each rels (λ r, for_each all_forks (λ f,
        ex ← dispatch r (λ m, smgr_exists m r f);
        if ex : bool then dispatch r (λ m, smgr_immedsync m r f) else mret tt)))
  end.

Definition smgrdounlinkall (rels : list RelFileLocatorBackend) (isRedo : bool) : MM unit :=
  match rels with
  | [] => mret tt
  | _ =>
      hold_interrupts (
        modify (λ s, with_buffers (DropRelationsAllBuffers rels (sm_buffers s)) s);;
        for_each rels (λ r, for_each all_forks (λ f, dispatch r (λ m, smgr_close m r f)));;
        for_each rels CacheInvalidateSmgr;;
        for_each rels (λ r, for_each all_forks (λ f, dispatch r (λ m, smgr_unlink m r f isRedo))))
  end.

Definition smgrextend reln forknum (blocknum : BlockNumber) (buffer : Block) (skipFsync : bool) : MM unit :=
  hold_interrupts (
    dispatch reln (λ m, smgr_extend m reln forknum blocknum buffer skipFsync);;
    update_reln reln (λ d,
      set_cached forknum
        (if smgr_cached_nblocks d forknum =? blocknum then blocknum +u 1 else Md.InvalidBlockNumber) d)).

Definition smgrzeroextend reln forknum (blocknum : BlockNumber) (nblocks : Z) (skipFsync : bool) : MM unit :=
  hold_interrupts (
    dispatch reln (λ m, smgr_zeroextend m reln forknum blocknum nblocks skipFsync);;
    update_reln reln (λ d,
      set_cached forknum
        (if smgr_cached_nblocks d forknum =? blocknum then blocknum +u nblocks else Md.InvalidBlockNumber) d)).

Definition smgrprefetch reln forknum (blocknum : BlockNumber) (nblocks : Z) : MM bool :=
  hold_interrupts (dispatch reln (λ m, smgr_prefetch m reln forknum blocknum nblocks)).

Definition smgrmaxcombine reln forknum (blocknum : BlockNumber) : MM Z :=
  hold_interrupts (dispatch reln (λ m, smgr_maxcombine m reln forknum blocknum)).

Definition smgrreadv reln forknum (blocknum nblocks : BlockNumber) : MM (list Block) :=
  hold_interrupts (dispatch reln (λ m, smgr_readv m reln forknum blocknum nblocks)).

Definition smgrwritev reln forknum (blocknum : BlockNumber) (buffers : list Block) (skipFsync : bool) : MM unit :=
  hold_interrupts (dispatch reln (λ m, smgr_writev m reln forknum blocknum buffers skipFsync)).

Definition smgrwriteback reln forknum (blocknum nblocks : BlockNumber) : MM unit :=
  hold_interrupts (dispatch reln (λ m, smgr_writeback m reln forknum blocknum nblocks)).

Definition smgrnblocks_cached reln forknum : MM BlockNumber :=
  d ← deref reln;
  mret (if Md.InRecovery && negb (smgr_cached_nblocks d forknum =? Md.InvalidBlockNumber)
        then smgr_cached_nblocks d forknum else Md.InvalidBlockNumber).

Definition smgrnblocks reln forknum : MM BlockNumber :=
  result ← smgrnblocks_cached reln forknum;
  if negb (result =? Md.InvalidBlockNumber) then mret result
  else
    hold_interrupts (
      result ← dispatch reln (λ m, smgr_nblocks m reln forknum);
      update_reln reln (set_cached forknum result);;
      mret result).

(** The forks, their sizes and the sizes to truncate them to. *)
Definition smgrtruncate reln (forks : list (ForkNumber * BlockNumber * BlockNumber)) : MM unit :=
  modify (λ s, with_buffers
    (DropRelationBuffers reln ((λ '(f, old, n), (f, n)) <$> forks) (sm_buffers s)) s);;
  CacheInvalidateSmgr reln;;
  for_each forks (λ '(f, old_nblocks, nblocks),
    update_reln reln (set_cached f Md.InvalidBlockNumber);;
    dispatch reln (λ m, smgr_truncate m reln f old_nblocks nblocks);;
    update_reln reln (set_cached f (if old_nblocks <? nblocks then old_nblocks else nblocks))).

Definition smgrregistersync reln forknum : MM unit := hold_interrupts (dispatch reln (λ m, smgr_registersync m reln forknum)).

Definition smgrimmedsync reln forknum : MM unit := hold_interrupts (dispatch reln (λ m, smgr_immedsync m reln forknum)).

Definition smgrfd reln forknum (blocknum : BlockNumber) : MM (Z * Z) := dispatch reln (λ m, smgr_fd m reln forknum blocknum).
End smgr.
End Smgr.
