(* ===== verification/SmgrInv.v ===== *)
(** * SmgrInv: the life of relation objects

    The objects of smgr.c against what the storage managers hold for them: the
    list of unpinned relations has exactly the objects without pins, and a
    manager holds resources (open files) only for relations that have an
    object.  So the end of a transaction closes every file but those of pinned
    relations, whatever failed on the way. *)

From Stdlib Require Import ZArith Lia Bool.
From stdpp Require Import base tactics numbers list gmap relations.
From S2P Require Import Prelude RelPath MemSmgr Md Smgr.
Import Smgr.

Local Open Scope Z_scope.
Local Open Scope pg_scope.

Module SmgrInv.

(** The calls a storage manager gets for relation [r]. *)
Inductive op_of {S} (m : f_smgr S) (r : RelFileLocatorBackend) : ∀ A, M S A → Prop :=
| op_open : op_of m r unit (smgr_open m r)
| op_close f : op_of m r unit (smgr_close m r f)
| op_create f isRedo : op_of m r unit (smgr_create m r f isRedo)
| op_exists f : op_of m r bool (smgr_exists m r f)
| op_unlink f isRedo : op_of m r unit (smgr_unlink m r f isRedo)
| op_extend f b buf skip : op_of m r unit (smgr_extend m r f b buf skip)
| op_zeroextend f b n skip : op_of m r unit (smgr_zeroextend m r f b n skip)
| op_prefetch f b n : op_of m r bool (smgr_prefetch m r f b n)
| op_maxcombine f b : op_of m r Z (smgr_maxcombine m r f b)
| op_readv f b n : op_of m r (list Block) (smgr_readv m r f b n)
| op_writev f b bufs skip : op_of m r unit (smgr_writev m r f b bufs skip)
| op_writeback f b n : op_of m r unit (smgr_writeback m r f b n)
| op_nblocks f : op_of m r BlockNumber (smgr_nblocks m r f)
| op_truncate f old n : op_of m r unit (smgr_truncate m r f old n)
| op_immedsync f : op_of m r unit (smgr_immedsync m r f)
| op_registersync f : op_of m r unit (smgr_registersync m r f)
| op_fd f b : op_of m r (Z * Z) (smgr_fd m r f b).

(** What smgr.c relies on: [opened r x] says that the manager holds something
    for [r].  An operation on [r], successful or not, opens nothing of other
    relations; closing always works, and after all forks of a relation have
    been closed nothing of it is open. *)
Class SmgrResources {S} (sw : SmgrSwitch S) : Type := {
  opened : RelFileLocatorBackend → S → Prop;
  opened_local w r A (c : M S A) x r' : op_of (smgrsw w) r A c → r' ≠ r → opened r' (c x).2 → opened r' x;
  opened_init w c x r : smgr_init (smgrsw w) = Some c ∨ smgr_shutdown (smgrsw w) = Some c →
    opened r (c x).2 → opened r x;
  close_returns w r f x : (smgr_close (smgrsw w) r f x).1 = Ok tt;
  close_closes w r x : ¬ opened r (for_each all_forks (smgr_close (smgrsw w) r) x).2;
}.

Section inv.
Context {env : Env} {mde : Md.MdEnv} {S B : Type} {sw : SmgrSwitch S} {buf : BufMgr S B} {res : SmgrResources sw}.
Implicit Types (r : RelFileLocatorBackend) (f : ForkNumber) (s : SmgrState S B) (d : SMgrRelationData).

(** ** The invariant *)

Record smgr_inv s : Prop := {
  inv_nodup : NoDup (unpinned_relns s);
  inv_unpinned r : r ∈ unpinned_relns s ↔ ∃ d, SMgrRelationHash s !! r = Some d ∧ pincount d = 0;
  inv_pins r d : SMgrRelationHash s !! r = Some d → 0 <= pincount d;
  inv_opened r : opened r (sm_store s) → is_Some (SMgrRelationHash s !! r);
}.

Definition smgr_start (x : S) (b : B) : SmgrState S B :=
  {| SMgrRelationHash := ∅; unpinned_relns := []; smgr_initialized := false; InterruptHoldoffCount := 0;
     sm_store := x; sm_buffers := b; sm_messages := [] |}.

Lemma smgr_start_inv x b : (∀ r, ¬ opened r x) → smgr_inv (smgr_start x b).
Proof.
  intros Hx. constructor; simpl.
  - constructor.
  - intros r. rewrite lookup_empty. split; [by intros ?%not_elem_of_nil|naive_solver].
  - intros r d. by rewrite lookup_empty.
  - intros r Hr. by destruct (Hx r).
Qed.

Abbreviation keeps_inv := (respects (S := SmgrState S B) (keeping smgr_inv)).

(** ** What the pieces do *)

(** Same objects, pins and resources. *)
Lemma inv_ext s s' :
  SMgrRelationHash s' = SMgrRelationHash s → unpinned_relns s' = unpinned_relns s → sm_store s' = sm_store s →
  smgr_inv s → smgr_inv s'.
Proof. intros E1 E2 E3 []. constructor; rewrite ?E1, ?E2, ?E3; done. Qed.

Lemma hold_keeps {A} (m : M (SmgrState S B) A) : keeps_inv m → keeps_inv (hold_interrupts m).
Proof.
  intros Hm. assert (∀ g, keeps_inv (modify (λ s, with_holdoff (g s) s))).
  { intros g. apply respects_modify. intros s Hs. by apply (inv_ext s). }
  unfold hold_interrupts. eauto with respects.
Qed.

Lemma on_store_inv {A} r (c : M S A) s :
  (∀ x r', r' ≠ r → opened r' (c x).2 → opened r' x) → is_Some (SMgrRelationHash s !! r) →
  smgr_inv s → smgr_inv (on_store c s).2.
Proof.
  intros Hc Hr [H1 H2 H3 H4]. unfold on_store. specialize (Hc (sm_store s)). destruct (c (sm_store s)) as [a x]. simpl in *.
  constructor; simpl; [done..|]. intros r' Ho. destruct (decide (r' = r)) as [->|]; [done|]. apply H4. by apply Hc.
Qed.

Lemma dispatch_keeps {A} r (call : f_smgr S → M S A) :
  (∀ m, op_of m r A (call m)) → keeps_inv (dispatch r call).
Proof.
  intros Hop s Hs. unfold dispatch, mbind, M_bind, deref. destruct (SMgrRelationHash s !! r) as [d|] eqn:E; [|done].
  apply (on_store_inv r); [|by rewrite E|done]. intros x r'. by eapply opened_local.
Qed.

Lemma update_keeps r g : (∀ d, pincount (g d) = pincount d) → keeps_inv (update_reln r g).
Proof.
  intros Hg. apply respects_modify. intros s [H1 H2 H3 H4].
  assert (∀ r', SMgrRelationHash (with_relns (alter g r (SMgrRelationHash s)) s) !! r' =
    (if decide (r = r') then g <$> SMgrRelationHash s !! r' else SMgrRelationHash s !! r')) as E.
  { intros r'. simpl. case_decide as Hd; [subst; apply lookup_alter_eq|by apply lookup_alter_ne]. }
  constructor; [done|..].
  - intros r'. simpl unpinned_relns. rewrite H2, E. case_decide; [|done].
    destruct (SMgrRelationHash s !! r') as [d|]; simpl; [|naive_solver].
    split; intros (d' & [= <-] & Hd); eexists; (split; [done|]); by rewrite ?Hg in *.
  - intros r' d. rewrite E. case_decide; [|by apply H3].
    destruct (SMgrRelationHash s !! r') as [d'|] eqn:E'; [|done]. intros [= <-]. rewrite Hg. by eapply H3.
  - intros r' Ho. rewrite E. case_decide; [|by apply H4]. rewrite fmap_is_Some. by apply H4.
Qed.

Lemma deref_keeps r : keeps_inv (deref r).
Proof. intros s Hs. unfold deref. by destruct (SMgrRelationHash s !! r). Qed.

Lemma message_keeps r : keeps_inv (CacheInvalidateSmgr r).
Proof. apply respects_modify. intros s Hs. by apply (inv_ext s). Qed.

Lemma buffers_keep g : keeps_inv (modify (λ s, with_buffers (g s) s)).
Proof. apply respects_modify. intros s Hs. by apply (inv_ext s). Qed.

Local Hint Resolve hold_keeps deref_keeps message_keeps buffers_keep : respects.
Local Hint Extern 2 (respects _ (dispatch _ _)) => (apply dispatch_keeps; intros ?; constructor) : respects.
Local Hint Extern 2 (respects _ (update_reln _ _)) => (apply update_keeps; intros ?; reflexivity) : respects.

(** ** Objects *)

Lemma smgropen_keeps loc b : keeps_inv (smgropen loc b).
Proof.
  apply hold_keeps. intros s Hs. set (r := {| locator := loc; backend := b |}).
  unfold mbind, M_bind, gets. destruct (SMgrRelationHash s !! r) as [d|] eqn:E; [done|]. simpl.
  set (s1 := with_unpinned _ _). cut (smgr_inv s1 ∧ is_Some (SMgrRelationHash s1 !! r)).
  { intros [Hs1 Hr]. pose proof (on_store_inv r (smgr_open (smgrsw (smgrchoose r)) r) s1) as H.
    unfold on_store in *. destruct (smgr_open _ _ _) as [[a|] x] eqn:Eo; simpl in *.
    all: apply H; [intros x' r'; by eapply (opened_local _ _ _ _ _ _ (op_open _ _))|done|done]. }
  destruct Hs as [H1 H2 H3 H4]. split; [|subst s1; simpl; by rewrite lookup_insert_eq]. constructor; simpl.
  - apply NoDup_app. split_and!; [done| |apply NoDup_singleton]. intros r' Hr' ->%list_elem_of_singleton.
    apply H2 in Hr' as (d & Hd & _). by pose proof (eq_trans (eq_sym E) Hd).
  - intros r'. rewrite elem_of_app, list_elem_of_singleton, H2. destruct (decide (r' = r)) as [->|Hne].
    + rewrite lookup_insert_eq. split; [eauto|by right].
    + rewrite lookup_insert_ne by done. naive_solver.
  - intros r' d. rewrite lookup_insert_Some. intros [[<- <-]|[_ Hd]]; [simpl; lia|by eapply H3].
  - intros r' Ho. destruct (decide (r' = r)) as [->|Hne]; [by rewrite lookup_insert_eq|].
    rewrite lookup_insert_ne by done. by apply H4.
Qed.

(** Setting the pins of an object, with the list to match. *)
Lemma repin_inv s r d n l :
  smgr_inv s → SMgrRelationHash s !! r = Some d → 0 <= n → NoDup l →
  (∀ r', r' ∈ l ↔ if decide (r' = r) then n = 0 else r' ∈ unpinned_relns s) →
  smgr_inv (with_relns (<[r := set_pincount n d]> (SMgrRelationHash s)) (with_unpinned l s)).
Proof.
  intros [H1 H2 H3 H4] E Hn Hl Hmem. constructor; simpl; [done|..].
  - intros r'. rewrite Hmem. case_decide as Hr; [subst; rewrite lookup_insert_eq|rewrite lookup_insert_ne by done; apply H2].
    split; [eauto|]. by intros (d' & [= <-] & Hd).
  - intros r' d'. rewrite lookup_insert_Some. intros [[<- <-]|[_ Hd]]; [done|by eapply H3].
  - intros r' Ho. destruct (decide (r' = r)) as [->|Hne]; [by rewrite lookup_insert_eq|].
    rewrite lookup_insert_ne by done. by apply H4.
Qed.

Lemma alter_at {K V} `{Countable K} (g : V → V) (k : K) (m : gmap K V) v :
  m !! k = Some v → alter g k m = <[k := g v]> m.
Proof.
  intros E. apply map_eq. intros k'. destruct (decide (k' = k)) as [->|Hne].
  - by rewrite lookup_alter_eq, lookup_insert_eq, E.
  - by rewrite lookup_alter_ne, lookup_insert_ne.
Qed.

Lemma smgrpin_keeps r : keeps_inv (smgrpin r).
Proof.
  intros s Hs. unfold smgrpin, mbind, M_bind, deref. destruct (SMgrRelationHash s !! r) as [d|] eqn:E; [|done].
  pose proof (inv_pins _ Hs _ _ E). pose proof (inv_unpinned _ Hs r) as Hu.
  destruct (Z.eqb_spec (pincount d) 0) as [Hp|Hp]; simpl; rewrite (alter_at _ _ _ _ E).
  - apply (repin_inv s); [done|done|lia|apply NoDup_filter, Hs|]. intros r'. rewrite list_elem_of_filter.
    case_decide; [split; [naive_solver|lia]|naive_solver].
  - apply (repin_inv s r d (pincount d + 1) (unpinned_relns s)); [done|done|lia|apply Hs|]. intros r'.
    case_decide; [subst|done]. rewrite Hu. split; [naive_solver|lia].
Qed.

Lemma smgrunpin_inv r d s :
  smgr_inv s → SMgrRelationHash s !! r = Some d → 0 < pincount d → smgr_inv (smgrunpin r s).2.
Proof.
  intros Hs E Hd. unfold smgrunpin, update_reln, modify, mbind, M_bind, deref. simpl.
  rewrite (alter_at _ _ _ _ E), lookup_insert_eq. simpl. pose proof (inv_unpinned _ Hs r) as Hu.
  assert (r ∉ unpinned_relns s) as Hr. { rewrite Hu. intros (d' & E' & ?). simplify_eq. lia. }
  destruct (Z.eqb_spec (pincount d - 1) 0) as [Hp|Hp]; simpl.
  - apply (repin_inv s r d (pincount d - 1)); [done|done|lia| |].
    + apply NoDup_app. split_and!; [apply Hs| |apply NoDup_singleton]. by intros r' Hr' ->%list_elem_of_singleton.
    + intros r'. rewrite elem_of_app, list_elem_of_singleton. case_decide; naive_solver.
  - apply (repin_inv s r d (pincount d - 1) (unpinned_relns s)); [done|done|lia|apply Hs|]. intros r'.
    case_decide; [subst|done]. split; [done|lia].
Qed.

(** ** Destroying *)

Lemma close_forks_run r d fs s :
  SMgrRelationHash s !! r = Some d →
  for_each fs (λ f, dispatch r (λ m, smgr_close m r f)) s =
    (Ok tt, with_store (for_each fs (smgr_close (smgrsw (smgr_which d)) r) (sm_store s)).2 s).
Proof.
  revert s. induction fs as [|f fs IH]; intros s E; [by destruct s|]. cbn [for_each].
  pose proof (close_returns (smgr_which d) r f (sm_store s)) as Hc.
  assert (dispatch r (λ m, smgr_close m r f) s =
    (Ok tt, with_store (smgr_close (smgrsw (smgr_which d)) r f (sm_store s)).2 s)) as H1.
  { unfold dispatch, mbind, M_bind, deref. rewrite E. unfold on_store.
    destruct (smgr_close _ _ _ _) as [a x]. simpl in *. by subst a. }
  rewrite (M_bind_run _ _ _ _ _ H1), IH by done. unfold mbind, M_bind. simpl.
  destruct (smgr_close _ _ _ _) as [a x]. simpl in *. by subst a.
Qed.

(** The state after an object without pins has been destroyed. *)
Definition destroyed r x s : SmgrState S B :=
  with_relns (delete r (SMgrRelationHash s)) (with_unpinned (filter (λ r', r' ≠ r) (unpinned_relns s)) (with_store x s)).

Lemma smgrdestroy_run r d s :
  SMgrRelationHash s !! r = Some d →
  smgrdestroy r s = (Ok tt, destroyed r (for_each all_forks (smgr_close (smgrsw (smgr_which d)) r) (sm_store s)).2 s).
Proof.
  intros E. unfold smgrdestroy, hold_interrupts. set (s1 := with_holdoff (InterruptHoldoffCount s + 1) s).
  rewrite (M_bind_run _ _ _ tt s1) by done.
  set (x := (for_each all_forks (smgr_close (smgrsw (smgr_which d)) r) (sm_store s)).2).
  erewrite M_bind_run with (s1 := destroyed r x s1) (a := tt).
  - unfold destroyed, mbind, M_bind, modify, s1, with_holdoff, with_relns, with_unpinned, with_store. simpl.
    do 2 f_equal. lia.
  - rewrite (M_bind_run _ _ _ _ _ (close_forks_run r d all_forks s1 E)). unfold mbind, M_bind, modify, gets. simpl. by rewrite E.
Qed.

Lemma destroy_inv r s x :
  smgr_inv s → r ∈ unpinned_relns s → (∀ r', r' ≠ r → opened r' x → opened r' (sm_store s)) → ¬ opened r x →
  smgr_inv (destroyed r x s).
Proof.
  intros [H1 H2 H3 H4] Hr Hx Hc. constructor; simpl.
  - by apply NoDup_filter.
  - intros r'. rewrite list_elem_of_filter, H2. destruct (decide (r' = r)) as [->|Hne].
    + rewrite lookup_delete_eq. naive_solver.
    + rewrite lookup_delete_ne by done. naive_solver.
  - intros r' d' Hd. apply lookup_delete_Some in Hd as [_ Hd]. by eapply H3.
  - intros r' Ho. destruct (decide (r' = r)) as [->|Hne]; [done|]. rewrite lookup_delete_ne by done. by apply H4, Hx.
Qed.

Lemma destroy_all_run l s :
  smgr_inv s → NoDup l → (∀ r, r ∈ l → r ∈ unpinned_relns s) →
  ∃ s', for_each l smgrdestroy s = (Ok tt, s') ∧ smgr_inv s' ∧
    (∀ r, SMgrRelationHash s' !! r = if decide (r ∈ l) then None else SMgrRelationHash s !! r) ∧
    InterruptHoldoffCount s' = InterruptHoldoffCount s.
Proof.
  revert s. induction l as [|r l IH]; intros s Hs Hnd Hl.
  { exists s. split_and!; [done|done| |done]. intros r. by rewrite decide_False by apply not_elem_of_nil. }
  apply NoDup_cons in Hnd as [Hr Hnd]. pose proof (Hl r ltac:(left)) as Hu.
  destruct (proj1 (inv_unpinned _ Hs r) Hu) as (d & E & _). cbn [for_each].
  rewrite (M_bind_run _ _ _ _ _ (smgrdestroy_run r d s E)).
  set (x := (for_each all_forks (smgr_close (smgrsw (smgr_which d)) r) (sm_store s)).2).
  assert (smgr_inv (destroyed r x s)) as Hs1.
  { apply destroy_inv; [done|done| |apply close_closes]. intros r' Hne. unfold x. generalize (sm_store s).
    generalize all_forks. intros fs. induction fs as [|f fs IHf]; intros y; [done|]. cbn [for_each].
    unfold mbind, M_bind. pose proof (close_returns (smgr_which d) r f y) as Hc.
    pose proof (opened_local (smgr_which d) r _ _ y r' (op_close _ _ f) Hne) as Ho.
    destruct (smgr_close _ _ _ _) as [a y']. simpl in Hc, Ho. subst a. intros H. apply Ho, IHf, H. }
  destruct (IH (destroyed r x s) Hs1 Hnd) as (s' & H1 & H2 & H3 & H4).
  { intros r' Hr'. simpl. apply list_elem_of_filter. split; [by intros ->|]. apply Hl. by right. }
  exists s'. split_and!; [exact H1|done| |by rewrite H4]. intros r'. rewrite H3. simpl.
  destruct (decide (r' = r)) as [->|Hne].
  - rewrite lookup_delete_eq. rewrite (decide_True (P := r ∈ r :: l)) by left. by case_decide.
  - rewrite lookup_delete_ne by done. destruct (decide (r' ∈ l)) as [Hin|Hin].
    + rewrite decide_True; [done|by right].
    + rewrite decide_False; [done|]. by intros [?|?]%elem_of_cons.
Qed.

Lemma smgrdestroyall_run s :
  smgr_inv s →
  ∃ s', smgrdestroyall s = (Ok tt, s') ∧ smgr_inv s' ∧ InterruptHoldoffCount s' = InterruptHoldoffCount s ∧
    ∀ r, SMgrRelationHash s' !! r =
      match SMgrRelationHash s !! r with Some d => if pincount d =? 0 then None else Some d | None => None end.
Proof.
  intros Hs. unfold smgrdestroyall, hold_interrupts. set (s1 := with_holdoff (InterruptHoldoffCount s + 1) s).
  rewrite (M_bind_run _ _ _ tt s1) by done. assert (smgr_inv s1) as Hs1 by by apply (inv_ext s).
  destruct (destroy_all_run (unpinned_relns s) s1 Hs1 (inv_nodup _ Hs)) as (s' & H1 & H2 & H3 & H4); [done|].
  erewrite M_bind_run; [|rewrite (M_bind_run _ _ _ (unpinned_relns s) s1) by done; exact H1].
  eexists. split; [reflexivity|]. split; [by apply (inv_ext s')|]. split; [simpl; rewrite H4; simpl; lia|].
  intros r. simpl. rewrite H3. destruct (SMgrRelationHash s !! r) as [d|] eqn:E.
  - case_decide as Hr.
    + apply (inv_unpinned _ Hs) in Hr as (d' & E' & Hd). simplify_eq. by rewrite (proj2 (Z.eqb_eq _ _) Hd).
    + destruct (Z.eqb_spec (pincount d) 0) as [Hd|]; [|done]. destruct Hr. apply (inv_unpinned _ Hs). eauto.
  - simpl. rewrite E. by case_decide.
Qed.

(** ** Everything smgr.c can be asked to do *)

Context (flush_keeps : ∀ rels, keeps_inv (FlushRelationsAllBuffers rels)).

(** The functions that may be called in any state. *)
Inductive api : ∀ A, M (SmgrState S B) A → Prop :=
| api_init : api unit smgrinit
| api_shutdown : api unit smgrshutdown
| api_open loc b : api RelFileLocatorBackend (smgropen loc b)
| api_pin r : api unit (smgrpin r)
| api_release r : api unit (smgrrelease r)
| api_releaserellocator r : api unit (smgrreleaserellocator r)
| api_releaseall : api unit smgrreleaseall
| api_eoxact : api unit AtEOXact_SMgr
| api_barrier : api bool ProcessBarrierSmgrRelease
| api_exists r f : api bool (smgrexists r f)
| api_create r f isRedo : api unit (smgrcreate r f isRedo)
| api_dosyncall rels : api unit (smgrdosyncall rels)
| api_dounlinkall rels isRedo : api unit (smgrdounlinkall rels isRedo)
| api_extend r f b page skip : api unit (smgrextend r f b page skip)
| api_zeroextend r f b n skip : api unit (smgrzeroextend r f b n skip)
| api_prefetch r f b n : api bool (smgrprefetch r f b n)
| api_maxcombine r f b : api Z (smgrmaxcombine r f b)
| api_readv r f b n : api (list Block) (smgrreadv r f b n)
| api_writev r f b bufs skip : api unit (smgrwritev r f b bufs skip)
| api_writeback r f b n : api unit (smgrwriteback r f b n)
| api_nblocks r f : api BlockNumber (smgrnblocks r f)
| api_truncate r forks : api unit (smgrtruncate r forks)
| api_registersync r f : api unit (smgrregistersync r f)
| api_immedsync r f : api unit (smgrimmedsync r f)
| api_fd r f b : api (Z * Z) (smgrfd r f b).

(** One call, whatever its outcome.  An object is unpinned only as often as it
    was pinned; the handler of an error lets interrupts in again. *)
Inductive smgr_step : SmgrState S B → SmgrState S B → Prop :=
| step_api A (m : M (SmgrState S B) A) s : api A m → smgr_step s (m s).2
| step_unpin r d s : SMgrRelationHash s !! r = Some d → 0 < pincount d → smgr_step s (smgrunpin r s).2
| step_error s : smgr_step s (with_holdoff 0 s).

Lemma smgrrelease_keeps r : keeps_inv (smgrrelease r).
Proof. unfold smgrrelease. eauto 10 with respects. Qed.

Lemma for_smgrs_keeps (g : SMgrWhich → option (M S unit)) :
  (∀ w c, g w = Some c → smgr_init (smgrsw w) = Some c ∨ smgr_shutdown (smgrsw w) = Some c) →
  keeps_inv (for_each all_smgrs (λ w, match g w with Some c => on_store c | None => mret tt end)).
Proof.
  intros Hg. apply respects_for_each; [apply _|]. intros w _. destruct (g w) as [c|] eqn:E; [|auto with respects].
  intros s [H1 H2 H3 H4]. unfold on_store. pose proof (opened_init w c (sm_store s)) as Hi.
  destruct (c (sm_store s)) as [a x]. constructor; simpl; [done..|]. intros r Ho. apply H4. eapply Hi; [|done]. by apply Hg.
Qed.

Local Hint Resolve smgrrelease_keeps smgropen_keeps smgrpin_keeps flush_keeps : respects.

Lemma api_keeps A (m : M (SmgrState S B) A) : api A m → keeps_inv m.
Proof.
  pose proof (for_smgrs_keeps (λ w, smgr_init (smgrsw w))) as Hi.
  pose proof (for_smgrs_keeps (λ w, smgr_shutdown (smgrsw w))) as Hd.
  assert (keeps_inv (modify (with_initialized true))) by (apply respects_modify; intros s Hs; by apply (inv_ext s)).
  assert (keeps_inv AtEOXact_SMgr).
  { intros s Hs. unfold AtEOXact_SMgr. by destruct (smgrdestroyall_run s Hs) as (s' & -> & ? & _). }
  destruct 1; try (unfold smgrinit, smgrshutdown, smgrreleaserellocator, ProcessBarrierSmgrRelease, smgrreleaseall,
    smgrexists, smgrcreate, smgrextend, smgrzeroextend, smgrprefetch, smgrmaxcombine, smgrreadv, smgrwritev, smgrwriteback,
    smgrnblocks, smgrnblocks_cached, smgrregistersync, smgrimmedsync, smgrfd; eauto 10 with respects; fail).
  - unfold smgrdosyncall. destruct rels; eauto 10 with respects.
  - unfold smgrdounlinkall. destruct rels; eauto 10 with respects.
Qed.

Lemma step_inv s s' : smgr_step s s' → smgr_inv s → smgr_inv s'.
Proof.
  intros [A m s0 Hm|r d s0 Hr Hd|s0] Hs; [by apply (api_keeps A m)|by eapply smgrunpin_inv|by apply (inv_ext s0)].
Qed.

(** C17: no file outlives its transaction unless its relation is pinned.  In every
    state that calls of smgr.c lead to, successful or not, the end of the
    transaction succeeds; it removes the objects without pins and only those,
    and afterwards the storage managers hold something open only for relations
    that are pinned. *)
Theorem eoxact_closes_unpinned x b s :
  (∀ r, ¬ opened r x) → rtc smgr_step (smgr_start x b) s →
  ∃ s', AtEOXact_SMgr s = (Ok tt, s') ∧ unpinned_relns s' = [] ∧
    InterruptHoldoffCount s' = InterruptHoldoffCount s ∧
    (∀ r d, SMgrRelationHash s' !! r = Some d ↔ SMgrRelationHash s !! r = Some d ∧ 0 < pincount d) ∧
    (∀ r, opened r (sm_store s') → ∃ d, SMgrRelationHash s' !! r = Some d ∧ 0 < pincount d).
Proof.
  intros Hx Hs. assert (smgr_inv s) as Hinv.
  { pose proof (smgr_start_inv x b Hx) as H0. induction Hs as [|s1 s2 s3 H12 _ IH]; [done|]. apply IH. by eapply step_inv. }
  destruct (smgrdestroyall_run s Hinv) as (s' & H1 & H2 & H3 & H4).
  assert (∀ r d, SMgrRelationHash s' !! r = Some d ↔ SMgrRelationHash s !! r = Some d ∧ 0 < pincount d) as Hd.
  { intros r d. rewrite H4. destruct (SMgrRelationHash s !! r) as [d'|] eqn:E; [|naive_solver].
    pose proof (inv_pins _ Hinv _ _ E). destruct (Z.eqb_spec (pincount d') 0); [split; [done|]|split].
    - intros [[= ->] ?]. lia.
    - intros [= ->]. split; [done|lia].
    - by intros [? _]. }
  exists s'. split_and!; [exact H1| |done|done|].
  - destruct (unpinned_relns s') as [|r l] eqn:E; [done|].
    destruct (proj1 (inv_unpinned _ H2 r)) as (d & Hr & Hp); [rewrite E; left|]. apply Hd in Hr as [_ ?]. lia.
  - intros r Ho. destruct (inv_opened _ H2 r Ho) as [d Hr]. exists d. split; [done|]. by apply Hd in Hr as [_ ?].
Qed.
End inv.
End SmgrInv.
