(* ===== verification/SmgrManagers.v ===== *)
(** * SmgrManagers: the two storage managers of the switch

    The table smgrsw[] of smgr.c, with md.c and memsmgr.c as its entries.  Both
    work on one state: memsmgr.c keeps its tables beside the state of md.c, to
    which it passes calls on.  They meet what [SmgrInv] relies on. *)

From Stdlib Require Import ZArith Lia Bool.
From stdpp Require Import base tactics numbers list gmap relations.
From S2P Require Import Prelude RelPath MemSmgr FileSys Md MdLocal Smgr SmgrInv.
Import MdLocal Smgr SmgrInv.

Local Open Scope Z_scope.
Local Open Scope pg_scope.

Module SmgrManagers.

Section managers.
Context {env : Env} {mde : Md.MdEnv}.
Implicit Types (r : RelFileLocatorBackend) (f : ForkNumber).

(** md.c, as memsmgr.c calls it. *)
#[export] Instance md_smgr : MdSmgr Md.MdState := {|
  mdopen := Md.mdopen;
  mdclose := Md.mdclose;
  mdcreate := Md.mdcreate;
  mdexists := Md.mdexists;
  mdunlink := Md.mdunlink;
  mdextend := Md.mdextend;
  mdzeroextend := Md.mdzeroextend;
  mdprefetch := Md.mdprefetch;
  mdmaxcombine := λ _ _ b, mret (Md.mdmaxcombine b);
  mdreadv := Md.mdreadv;
  mdwritev := Md.mdwritev;
  mdnblocks := Md.mdnblocks;
  mdtruncate := Md.mdtruncate;
  mdwriteback := Md.mdwriteback;
  mdimmedsync := Md.mdimmedsync;
  mdregistersync := Md.mdregistersync;
  mdfd := Md.mdfd;
|}.

Abbreviation Store := (MemState Md.MdState).

(** mdinit and meminit make memory contexts, which are not modelled. *)
Definition smgrsw_md : f_smgr Store := {|
  smgr_init := Some (mret tt);
  smgr_shutdown := None;
  smgr_open := λ r, on_md (Md.mdopen r);
  smgr_close := λ r f, on_md (Md.mdclose r f);
  smgr_create := λ r f isRedo, on_md (Md.mdcreate r f isRedo);
  smgr_exists := λ r f, on_md (Md.mdexists r f);
  smgr_unlink := λ r f isRedo, on_md (Md.mdunlink r f isRedo);
  smgr_extend := λ r f b buf skip, on_md (Md.mdextend r f b buf skip);
  smgr_zeroextend := λ r f b n skip, on_md (Md.mdzeroextend r f b n skip);
  smgr_prefetch := λ r f b n, on_md (Md.mdprefetch r f b n);
  smgr_maxcombine := λ r f b, mret (Md.mdmaxcombine b);
  smgr_readv := λ r f b n, on_md (Md.mdreadv r f b n);
  smgr_writev := λ r f b bufs skip, on_md (Md.mdwritev r f b bufs skip);
  smgr_writeback := λ r f b n, on_md (Md.mdwriteback r f b n);
  smgr_nblocks := λ r f, on_md (Md.mdnblocks r f);
  smgr_truncate := λ r f old n, on_md (Md.mdtruncate r f old n);
  smgr_immedsync := λ r f, on_md (Md.mdimmedsync r f);
  smgr_registersync := λ r f, on_md (Md.mdregistersync r f);
  smgr_fd := λ r f b, on_md (Md.mdfd r f b);
|}.

Definition smgrsw_mem : f_smgr Store := {|
  smgr_init := Some (mret tt);
  smgr_shutdown := Some memshutdown;
  smgr_open := memopen;
  smgr_close := memclose;
  smgr_create := memcreate;
  smgr_exists := memexists;
  smgr_unlink := memunlink;
  smgr_extend := memextend;
  smgr_zeroextend := memzeroextend;
  smgr_prefetch := memprefetch;
  smgr_maxcombine := memmaxcombine;
  smgr_readv := memreadv;
  smgr_writev := memwritev;
  smgr_writeback := memwriteback;
  smgr_nblocks := memnblocks;
  smgr_truncate := memtruncate;
  smgr_immedsync := memimmedsync;
  smgr_registersync := memregistersync;
  smgr_fd := memfd;
|}.

Definition smgr_switch (use_mem : bool) : SmgrSwitch Store := {|
  FASTPG_USE_MEM_SMGR := use_mem;
  smgrsw := λ w, match w with SMGR_MD => smgrsw_md | SMGR_MEM => smgrsw_mem end;
|}.

(** ** What they hold open *)

Section local.
Context (r' r : RelFileLocatorBackend) (Hne : r' ≠ r).

(** The segments of [r'] that md.c has open stay. *)
Definition same_disk_segs (s s' : Store) : Prop := same_segs r' (disk s) (disk s').
#[local] Instance same_disk_segs_preorder : PreOrder same_disk_segs.
Proof. unfold same_disk_segs. split; [done|]. intros s1 s2 s3 H1 H2. by etrans. Qed.
Abbreviation local := (respects same_disk_segs).

Lemma on_md_local {A} (m : M Md.MdState A) : respects (same_segs r') m → local (on_md m).
Proof. intros H s. unfold on_md. specialize (H (disk s)). by destruct (m (disk s)). Qed.
Lemma modify_local g : (∀ s : Store, disk (g s) = disk s) → local (modify g).
Proof. intros H. apply respects_modify. intros s f. by rewrite H. Qed.

Local Hint Extern 2 (respects _ (on_md _)) => (apply on_md_local;
  cbn [MemSmgr.mdopen MemSmgr.mdclose MemSmgr.mdcreate MemSmgr.mdexists MemSmgr.mdunlink MemSmgr.mdextend
    MemSmgr.mdzeroextend MemSmgr.mdprefetch MemSmgr.mdmaxcombine MemSmgr.mdreadv MemSmgr.mdwritev MemSmgr.mdnblocks
    MemSmgr.mdtruncate MemSmgr.mdwriteback MemSmgr.mdimmedsync MemSmgr.mdregistersync MemSmgr.mdfd md_smgr]) : respects.
Local Hint Resolve mdopen_local mdclose_local mdcreate_local mdexists_local mdunlink_local mdextend_local
  mdzeroextend_local mdprefetch_local mdreadv_local mdwritev_local mdnblocks_local mdtruncate_local mdwriteback_local
  mdimmedsync_local mdregistersync_local mdfd_local : respects.
Local Hint Extern 2 (respects _ (modify _)) => (apply modify_local; intros ?; reflexivity) : respects.
Local Hint Extern 2 (respects _ (fork_get _ _)) => (apply respects_gets; apply _) : respects.
Local Hint Extern 2 (respects _ (fork_set _ _ _)) => (apply modify_local; intros ?; reflexivity) : respects.
Local Hint Extern 2 (respects _ (arena_write _ _)) => (apply modify_local; intros ?; reflexivity) : respects.

Lemma lock_for_local : local (mem_lock_for r).
Proof. intros s. unfold mem_lock_for. by destruct (mem_key_is_temp r), (initialized s). Qed.
Lemma create_fork_entry_local f : local (mem_create_fork_entry r f).
Proof. intros s. unfold mem_create_fork_entry. by repeat case_match. Qed.
Lemma alloc_page_local : local mem_alloc_page_index.
Proof. intros s. unfold mem_alloc_page_index. by repeat case_match. Qed.
Local Hint Resolve lock_for_local create_fork_entry_local alloc_page_local : respects.

Lemma get_page_entry_local f b create : local (mem_get_page_entry r f b create).
Proof.
  intros s. unfold mem_get_page_entry. destruct (page_lookup r f b s); [done|]. destruct create; [|done]. simpl.
  case_match; [done|]. assert (local (page_index ← mem_alloc_page_index;
    modify (page_put r f b page_index);; arena_write page_index zero_block;; mret (Some page_index))) as Hr by respects.
  etrans; [|apply Hr]. done.
Qed.
Local Hint Resolve get_page_entry_local : respects.

Lemma fork_fill_local f count : local count → local (fork_fill r f count).
Proof. intros H. unfold fork_fill. respects. Qed.
Local Hint Resolve fork_fill_local : respects.
Lemma get_fork_entry_local f create : local (mem_get_fork_entry r f create).
Proof. unfold mem_get_fork_entry, mem_lookup_fork_entry. respects. Qed.
Lemma page_create_local f b : local (mem_page_create r f b).
Proof. unfold mem_page_create. respects. Qed.
Local Hint Resolve get_fork_entry_local page_create_local : respects.

Lemma with_lock_local {A} (m : M Store A) : local m → local (with_lock r m).
Proof. intros H. unfold with_lock, acquire, release, LWLockAcquire, LWLockRelease. respects. Qed.
Local Hint Resolve with_lock_local : respects.

Lemma read_loop_local f b i n : local (mem_read_loop r f b i n).
Proof.
  assert (∀ b, local (mem_read_one r f b)).
  { intros b0. unfold mem_read_one. respects. intros s. by destruct (mem_seed_read_block _ _ _ _). }
  revert i. induction n; intros i; cbn [mem_read_loop]; respects.
Qed.
Lemma zero_loop_local f b i n : local (mem_zero_loop r f b i n).
Proof. revert i. induction n; intros i; cbn [mem_zero_loop]; respects. Qed.
Lemma write_loop_local f b i bufs : local (mem_write_loop r f b i bufs).
Proof. revert i. induction bufs; intros i; cbn [mem_write_loop]; respects. Qed.
Local Hint Resolve read_loop_local zero_loop_local write_loop_local : respects.

Lemma zeroextend_locked_local f b n : local (mem_zeroextend_locked r f b n).
Proof. unfold mem_zeroextend_locked, fork_mark_exists, fork_grow. respects. Qed.
Local Hint Resolve zeroextend_locked_local : respects.

Lemma remove_fork_local f : local (mem_remove_fork r f) ∧ local (mem_remove_memory_only_fork r f).
Proof.
  unfold mem_remove_fork, mem_remove_memory_only_fork, mem_lookup_fork_entry, mem_remove_pages. split; respects.
Qed.

Lemma mem_ops_local A (c : M Store A) : op_of smgrsw_mem r A c → local c.
Proof.
  assert (∀ f, local (mem_remove_fork r f)) by apply remove_fork_local.
  assert (∀ f, local (mem_remove_memory_only_fork r f)) by apply remove_fork_local.
  destruct 1; simpl; unfold memopen, memclose, memcreate, memexists, memexists_body, memunlink, memextend, memzeroextend,
    memprefetch, memmaxcombine, memreadv, mem_readv_locked, memwritev, mem_writev_locked, memwriteback, memnblocks,
    mem_nblocks_locked, memtruncate, memimmedsync, memregistersync, memfd, acquire, release, LWLockAcquire, LWLockRelease,
    mem_relation_is_memory_only, mem_lookup_fork_entry, mem_remove_pages, fork_mark_exists, fork_grow; repeat (apply with_lock_local || respects_step).
Qed.

Lemma md_ops_local A (c : M Store A) : op_of smgrsw_md r A c → local c.
Proof. destruct 1; simpl; respects. Qed.
End local.

Lemma on_md_close_forks fs r (x : Store) :
  for_each fs (λ f, on_md (Md.mdclose r f)) x =
    ((for_each fs (Md.mdclose r) (disk x)).1, set_disk (for_each fs (Md.mdclose r) (disk x)).2 x).
Proof.
  revert x. induction fs as [|f fs IH]; intros x; [by destruct x|]. cbn [for_each]. unfold mbind, M_bind, on_md at 1.
  destruct (Md.mdclose r f (disk x)) as [[a|c e] d] eqn:E; simpl; [|done]. rewrite IH. done.
Qed.

(** Both managers hold files open through md.c only. *)
#[export] Instance smgr_resources use_mem : SmgrResources (smgr_switch use_mem).
Proof.
  refine {| opened := λ r (x : Store), ∃ f, f ∈ all_forks ∧ Md.open_segs r f (disk x) ≠ [] |}.
  - intros w r A c x r' Hop Hne (f & Hin & Hf). exists f. split; [done|]. assert (respects (same_disk_segs r') c) as Hl.
    { destruct w; [by apply (md_ops_local r' r Hne)|by apply (mem_ops_local r' r Hne)]. }
    by rewrite <- (Hl x f).
  - intros w c x r [Hc|Hc] (f & Hin & Hf); exists f; (split; [done|]); destruct w; simpl in Hc; by simplify_eq.
  - intros w r f x. assert (smgr_close (@smgrsw _ (smgr_switch use_mem) w) r f = on_md (Md.mdclose r f)) as -> by by destruct w.
    unfold on_md. by destruct (mdclose_closes r f (disk x)) as (d & -> & _).
  - intros w r x (f & Hin & Hf). assert (for_each all_forks (smgr_close (@smgrsw _ (smgr_switch use_mem) w) r) x =
      for_each all_forks (λ f, on_md (Md.mdclose r f)) x) as E by by destruct w.
    destruct (mdclose_forks all_forks r (disk x)) as (d & Hd & H1 & H2).
    rewrite E, on_md_close_forks, Hd in Hf. simpl in Hf.
    by rewrite H1 in Hf.
Defined.
End managers.
End SmgrManagers.
