(* ===== verification/SmgrStore.v ===== *)
(** * SmgrStore: smgr.c over any storage manager is a store of block lists

    [StoreSmgr] is the contract of one storage manager towards smgr.c: its
    calls do to a store of block lists what their names say.  Against that
    contract, runs of smgr.c that open, pin, release and destroy relation
    objects in any order between the calls answer as the store does.  In
    particular a size that smgr.c has cached is the fork's size whenever it is
    used, and a truncation finds every segment open, also when it was a cached
    size that told where the fork ends. *)

From Stdlib Require Import ZArith Lia Bool.
From stdpp Require Import base tactics numbers list gmap strings relations.
From S2P Require Import Prelude RelPath MemSmgr MemSmgrRefine MemSmgrSim Md MdInv Smgr SmgrInv.
Import MdInv Smgr SmgrInv.

Local Open Scope Z_scope.
Local Open Scope pg_scope.

Module SmgrStore.

Abbreviation store := (RelFileLocatorBackend → ForkNumber → option (list Block)).

(** The calls of one storage manager; unlinking and truncating have contracts of
    their own. *)
Definition io_call (c : call) : bool := match c with CUnlink _ _ _ | CTruncate _ _ _ _ => false | _ => true end.

Definition manager_call {S} (m : f_smgr S) (c : call) : M S reply :=
  match c with
  | CCreate r f isRedo => smgr_create m r f isRedo;; mret RUnit
  | CExists r f => b ← smgr_exists m r f; mret (RBool b)
  | CUnlink r f isRedo => smgr_unlink m r f isRedo;; mret RUnit
  | CExtend r f b buf skip => smgr_extend m r f b buf skip;; mret RUnit
  | CZeroExtend r f b n skip => smgr_zeroextend m r f b n skip;; mret RUnit
  | CReadv r f b n => bs ← smgr_readv m r f b n; mret (RBlocks bs)
  | CWritev r f b bufs skip => smgr_writev m r f b bufs skip;; mret RUnit
  | CNblocks r f => n ← smgr_nblocks m r f; mret (RNum n)
  | CTruncate r f cur n => smgr_truncate m r f cur n;; mret RUnit
  end.

(** What smgr.c's comments require of the caller. *)
Definition call_args (c : call) (v : option (list Block)) : Prop :=
  match c with
  | CExtend _ _ b _ _ => 0 <= b < Md.InvalidBlockNumber
  | CZeroExtend _ _ b n _ => 0 <= b ∧ 0 <= n ∧ b + n <= Md.InvalidBlockNumber
  | CWritev _ _ b bufs _ => 0 <= b ∧ b + Z.of_nat (length bufs) <= vlen v
  | CTruncate _ _ cur n => cur = vlen v ∧ 0 <= n <= cur
  | CCreate _ _ _ | CExists _ _ | CReadv _ _ _ _ | CNblocks _ _ | CUnlink _ _ _ => True
  end.

(** [srep st x]: the manager's state [x] represents the store [st].  [sready]:
    the manager has looked at all of a fork with given blocks since it was last
    closed, which truncating it requires; [sclosed]: nothing of the fork is
    open, which unlinking requires.  [spre] is what the manager requires of a
    call on a fork with given blocks. *)
Class StoreSmgr {env : Env} {mde : Md.MdEnv} {S} (m : f_smgr S) : Type := {
  srep : store → S → Prop;
  sready : RelFileLocatorBackend → ForkNumber → option (list Block) → S → Prop;
  sclosed : RelFileLocatorBackend → ForkNumber → S → Prop;
  spre : call → option (list Block) → S → Prop;
  law_open st r x : srep st x →
    ∃ x', smgr_open m r x = (Ok tt, x') ∧ srep st x' ∧ (∀ r' f v, r' ≠ r → sready r' f v x → sready r' f v x');
  law_close st r f x : srep st x →
    ∃ x', smgr_close m r f x = (Ok tt, x') ∧ srep st x' ∧ sclosed r f x' ∧
      (∀ r' f' v, (r', f') ≠ (r, f) → sready r' f' v x → sready r' f' v x') ∧
      (∀ r' f', sclosed r' f' x → sclosed r' f' x');
  law_unlink st r f isRedo x : srep st x → sclosed r f x → spre (CUnlink r f isRedo) (st r f) x →
    ∃ x', smgr_unlink m r f isRedo x = (Ok tt, x') ∧ srep (store_set st r f None) x' ∧
      (∀ r' f' v, (r', f') ≠ (r, f) → sready r' f' v x → sready r' f' v x') ∧
      (∀ r' f', sclosed r' f' x → sclosed r' f' x');
  law_call st c x :
    let v := st (call_rel c) (call_fork c) in
    io_call c = true → srep st x → spre c v x →
    ∃ x', manager_call m c x = (Ok (spec_reply c v), x') ∧
      srep (store_set st (call_rel c) (call_fork c) (spec_view c v)) x' ∧
      (Md.InRecovery = true → ∀ r f, sready r f (st r f) x →
        sready r f (store_set st (call_rel c) (call_fork c) (spec_view c v) r f) x');
  law_nblocks st r f x : srep st x → spre (CNblocks r f) (st r f) x →
    sready r f (st r f) (smgr_nblocks m r f x).2;
  law_truncate st r f n x :
    srep st x → spre (CTruncate r f (vlen (st r f)) n) (st r f) x → sready r f (st r f) x →
    ∃ x', smgr_truncate m r f (vlen (st r f)) n x = (Ok tt, x') ∧
      srep (store_set st r f (spec_view (CTruncate r f (vlen (st r f)) n) (st r f))) x' ∧
      (Md.InRecovery = true → ∀ r' f', sready r' f' (st r' f') x →
        sready r' f' (store_set st r f (spec_view (CTruncate r f (vlen (st r f)) n) (st r f)) r' f') x');
  law_ext st st' x : (∀ r f, st' r f = st r f) → srep st x → srep st' x;
  law_args c v x : spre c v x → call_args c v;
}.

Section store.
Context {env : Env} {mde : Md.MdEnv} {S B : Type} {sw : SmgrSwitch S} {buf : BufMgr S B} {res : SmgrResources sw}.
Implicit Types (r : RelFileLocatorBackend) (f : ForkNumber) (s : SmgrState S B) (d : SMgrRelationData) (st : store).

(** The manager that every relation gets. *)
Definition chosen : SMgrWhich := if FASTPG_USE_MEM_SMGR then SMGR_MEM else SMGR_MD.
Context {laws : StoreSmgr (smgrsw chosen)}.
Abbreviation mgr := (smgrsw chosen).

(** ** Runs *)

(** What a backend does: calls on forks, each with the object that smgropen
    gives for the relation, and the management of the objects.  A relation is
    dropped, and its object released, as smgrDoPendingDeletes does it. *)
Inductive sop : Type :=
| SCall (c : call)
| SDrop (r : RelFileLocatorBackend) (isRedo : bool)
| SOpen (r : RelFileLocatorBackend)
| SPin (r : RelFileLocatorBackend)
| SUnpin (r : RelFileLocatorBackend)
| SRelease (r : RelFileLocatorBackend)
| SReleaseAll
| SEOXact.

Definition open_reln r : M (SmgrState S B) RelFileLocatorBackend := smgropen (locator r) (backend r).

Definition smgr_call reln (c : call) : M (SmgrState S B) reply :=
  match c with
  | CCreate _ f isRedo => smgrcreate reln f isRedo;; mret RUnit
  | CExists _ f => b ← smgrexists reln f; mret (RBool b)
  | CUnlink _ _ _ => ereport ERRCODE_INTERNAL_ERROR "no such call"
  | CExtend _ f b buf skip => smgrextend reln f b buf skip;; mret RUnit
  | CZeroExtend _ f b n skip => smgrzeroextend reln f b n skip;; mret RUnit
  | CReadv _ f b n => bs ← smgrreadv reln f b n; mret (RBlocks bs)
  | CWritev _ f b bufs skip => smgrwritev reln f b bufs skip;; mret RUnit
  | CNblocks _ f => n ← smgrnblocks reln f; mret (RNum n)
  | CTruncate _ f _ n => old ← smgrnblocks reln f; smgrtruncate reln [(f, old, n)];; mret RUnit
  end.

Definition sop_run (op : sop) : M (SmgrState S B) reply :=
  match op with
  | SCall c => reln ← open_reln (call_rel c); smgr_call reln c
  | SDrop r isRedo => reln ← open_reln r; smgrdounlinkall [reln] isRedo;; smgrclose reln;; mret RUnit
  | SOpen r => open_reln r;; mret RUnit
  | SPin r => reln ← open_reln r; smgrpin reln;; mret RUnit
  | SUnpin r => smgrunpin r;; mret RUnit
  | SRelease r => reln ← open_reln r; smgrrelease reln;; mret RUnit
  | SReleaseAll => smgrreleaseall;; mret RUnit
  | SEOXact => AtEOXact_SMgr;; mret RUnit
  end.

Fixpoint sops_run (ops : list sop) : M (SmgrState S B) (list reply) :=
  match ops with
  | [] => mret []
  | op :: ops' => a ← sop_run op; as_ ← sops_run ops'; mret (a :: as_)
  end.

(** On the store, only calls and drops do anything. *)
Definition drop_forks r (fs : list ForkNumber) st : store := foldl (λ st f, store_set st r f None) st fs.

Definition sop_spec (op : sop) st : reply * store :=
  match op with
  | SCall c =>
      let v := st (call_rel c) (call_fork c) in
      (spec_reply c v, store_set st (call_rel c) (call_fork c) (spec_view c v))
  | SDrop r _ => (RUnit, drop_forks r all_forks st)
  | _ => (RUnit, st)
  end.

Fixpoint sops_spec (ops : list sop) st : list reply * store :=
  match ops with
  | [] => ([], st)
  | op :: ops' =>
      let '(a, st') := sop_spec op st in
      let '(as_, st'') := sops_spec ops' st' in
      (a :: as_, st'')
  end.

(** The manager takes each call, in the state the run has reached. *)
Fixpoint unlink_pre r (fs : list ForkNumber) isRedo st (x : S) : Prop :=
  match fs with
  | [] => True
  | f :: fs' =>
      spre (CUnlink r f isRedo) (st r f) x ∧
      unlink_pre r fs' isRedo (store_set st r f None) (smgr_unlink mgr r f isRedo x).2
  end.

Definition sop_pre (op : sop) st s : Prop :=
  match op with
  | SCall c =>
      let s1 := (open_reln (call_rel c) s).2 in
      let v := st (call_rel c) (call_fork c) in
      match c with
      | CUnlink _ _ _ => False
      | CTruncate r f _ _ =>
          spre (CNblocks r f) v (sm_store s1) ∧ spre c v (sm_store (smgrnblocks r f s1).2)
      | _ => spre c v (sm_store s1)
      end
  | SDrop r isRedo =>
      let s1 := (open_reln r s).2 in
      unlink_pre r all_forks isRedo st (for_each all_forks (smgr_close mgr r) (sm_store s1)).2
  | SUnpin r => ∃ d, SMgrRelationHash s !! r = Some d ∧ 0 < pincount d
  | SOpen _ | SPin _ | SRelease _ | SReleaseAll | SEOXact => True
  end.

Fixpoint sops_pre (ops : list sop) st s : Prop :=
  match ops with
  | [] => True
  | op :: ops' => sop_pre op st s ∧ sops_pre ops' (sop_spec op st).2 (sop_run op s).2
  end.

(** ** What holds in between *)

Abbreviation relns := (gmap RelFileLocatorBackend SMgrRelationData).

(** [rep_core ok st0 st h x]: the manager's state [x] represents [st]; the sizes
    that the objects [h] have cached for the forks in [ok] are those of [st0],
    and during recovery, where they are used, the manager is ready to truncate
    the forks as they are in [st]. *)
Record rep_core (ok : RelFileLocatorBackend → ForkNumber → Prop) (st0 st : store) (h : relns) (x : S) : Prop := {
  rep_store : srep st x;
  rep_which r d : h !! r = Some d → smgr_which d = chosen;
  rep_cache r d f : h !! r = Some d → ok r f →
    smgr_cached_nblocks d f = Md.InvalidBlockNumber ∨
    (smgr_cached_nblocks d f = vlen (st0 r f) ∧ (Md.InRecovery = true → sready r f (st r f) x));
}.
Definition all_ok : RelFileLocatorBackend → ForkNumber → Prop := λ _ _, True.
(** All forks but those of [r] in [fs]. *)
Definition but r (fs : list ForkNumber) : RelFileLocatorBackend → ForkNumber → Prop := λ r' f', r' ≠ r ∨ f' ∉ fs.

Definition smgr_rep st s : Prop := rep_core all_ok st st (SMgrRelationHash s) (sm_store s).

Lemma rep_weaken (ok ok' : RelFileLocatorBackend → ForkNumber → Prop) st0 st h x :
  (∀ r f, ok' r f → ok r f) → rep_core ok st0 st h x → rep_core ok' st0 st h x.
Proof. intros H [H1 H2 H3]. constructor; eauto. Qed.

(** Forks of the same sizes. *)
Lemma rep_sizes (ok : RelFileLocatorBackend → ForkNumber → Prop) st0 st1 st h x :
  (∀ r f, ok r f → vlen (st0 r f) = vlen (st1 r f)) → rep_core ok st0 st h x → rep_core ok st1 st h x.
Proof. intros H [H1 H2 H3]. constructor; [done|done|]. intros r d f Hd Hok. rewrite <- H by done. by apply H3. Qed.

Lemma rep_ext ok st0 st st' h x : (∀ r f, st' r f = st r f) → rep_core ok st0 st h x → rep_core ok st0 st' h x.
Proof.
  intros H [H1 H2 H3]. constructor; [by apply (law_ext st)|done|]. intros r d f. rewrite H. apply H3.
Qed.

Lemma smgr_rep_ext st st' s : (∀ r f, st' r f = st r f) → smgr_rep st s → smgr_rep st' s.
Proof.
  intros H Hs. apply (rep_ext _ _ st); [done|]. apply (rep_sizes _ st); [|done]. intros r f _. by rewrite H.
Qed.

(** A new state of the manager. *)
Lemma rep_manager (ok : RelFileLocatorBackend → ForkNumber → Prop) st0 st st' h x x' :
  rep_core ok st0 st h x → srep st' x' →
  (Md.InRecovery = true → ∀ r f, ok r f → sready r f (st r f) x → sready r f (st' r f) x') →
  rep_core ok st0 st' h x'.
Proof.
  intros [H1 H2 H3] Hx Hr. constructor; [done|done|]. intros r d f Hd Hok. destruct (H3 r d f Hd Hok) as [?|[? ?]]; auto.
Qed.

(** A new cached size. *)
Lemma rep_set_cached (ok ok' : RelFileLocatorBackend → ForkNumber → Prop) st0 st h x r d f n :
  rep_core ok st0 st h x → h !! r = Some d →
  (∀ r' f', ok' r' f' → (r', f') ≠ (r, f) → ok r' f' ∧ vlen (st0 r' f') = vlen (st r' f')) →
  (n = Md.InvalidBlockNumber ∨ (n = vlen (st r f) ∧ (Md.InRecovery = true → sready r f (st r f) x))) →
  rep_core ok' st st (<[r := set_cached f n d]> h) x.
Proof.
  intros [H1 H2 H3] Hd Hok Hn. constructor; [done|..].
  - intros r' d'. rewrite lookup_insert_Some. intros [[<- <-]|[_ Hd']]; [exact (H2 r d Hd)|exact (H2 r' d' Hd')].
  - intros r' d' f' Hd' Hf'. destruct (decide ((r', f') = (r, f))) as [[= -> ->]|Hne].
    + rewrite lookup_insert_eq in Hd'. simplify_eq. simpl. by rewrite decide_True.
    + destruct (Hok r' f' Hf' Hne) as [? Hv]. rewrite <- Hv.
      apply lookup_insert_Some in Hd' as [[<- <-]|[_ ?]]; [|by apply H3].
      simpl. rewrite decide_False by congruence. by apply H3.
Qed.

(** ** Runs of the pieces *)

Lemma hold_run {A} (m : M (SmgrState S B) A) s a (Q : SmgrState S B → Prop) :
  (∃ s', m (with_holdoff (InterruptHoldoffCount s + 1) s) = (Ok a, s') ∧ Q s') →
  (∀ s n, Q s → Q (with_holdoff n s)) →
  ∃ s', hold_interrupts m s = (Ok a, s') ∧ Q s'.
Proof.
  intros (s' & Hm & Hs') HQ. eexists. split; [|apply (HQ s' (InterruptHoldoffCount s' - 1)), Hs'].
  unfold hold_interrupts, mbind, M_bind, modify. by rewrite Hm.
Qed.

Lemma dispatch_run {A} r d (call : f_smgr S → M S A) s a x' :
  SMgrRelationHash s !! r = Some d → smgr_which d = chosen → call mgr (sm_store s) = (Ok a, x') →
  dispatch r call s = (Ok a, with_store x' s).
Proof. intros E Hw Hc. unfold dispatch, mbind, M_bind, deref, on_store. by rewrite E, Hw, Hc. Qed.

Lemma dispatch_forks_run r d (call : f_smgr S → ForkNumber → M S unit) fs s x' :
  SMgrRelationHash s !! r = Some d → smgr_which d = chosen → for_each fs (call mgr) (sm_store s) = (Ok tt, x') →
  for_each fs (λ f, dispatch r (λ m, call m f)) s = (Ok tt, with_store x' s).
Proof.
  revert s. induction fs as [|f fs IH]; intros s E Hw; cbn [for_each]; [intros [= <-]; by destruct s|].
  intros Hc. destruct (call mgr f (sm_store s)) as [[[]|] x1] eqn:E1.
  - rewrite (M_bind_run _ _ _ _ _ E1) in Hc. rewrite (M_bind_run _ _ _ _ _ (dispatch_run r d (λ m, call m f) s _ _ E Hw E1)).
    rewrite IH; done.
  - unfold mbind, M_bind in Hc. by rewrite E1 in Hc.
Qed.

Lemma update_run r g d s :
  SMgrRelationHash s !! r = Some d → update_reln r g s = (Ok tt, with_relns (<[r := g d]> (SMgrRelationHash s)) s).
Proof. intros E. unfold update_reln, modify. by rewrite (alter_at _ _ _ _ E). Qed.

Lemma but_cons r f fs r' f' : but r (f :: fs) r' f' → but r fs r' f' ∧ (r', f') ≠ (r, f).
Proof.
  intros [?|[? ?]%not_elem_of_cons]; (split; [first [by left|by right]|congruence]).
Qed.
Lemma store_set_eq st r f v : store_set st r f v r f = v.
Proof. unfold store_set. by rewrite decide_True. Qed.
Lemma store_set_ne st r f v r' f' : (r', f') ≠ (r, f) → store_set st r f v r' f' = st r' f'.
Proof. intros Hne. unfold store_set. rewrite decide_False; [done|]. by intros [-> ->]. Qed.

Lemma store_set_same st r f r' f' : store_set st r f (st r f) r' f' = st r' f'.
Proof. unfold store_set. case_decide as H; [|done]. by destruct H as [-> ->]. Qed.

(** Closing and unlinking forks one after the other. *)
Lemma close_forks st r fs x :
  srep st x →
  ∃ x', for_each fs (smgr_close mgr r) x = (Ok tt, x') ∧ srep st x' ∧ (∀ f, f ∈ fs → sclosed r f x') ∧
    (∀ r' f' v, but r fs r' f' → sready r' f' v x → sready r' f' v x') ∧ (∀ r' f', sclosed r' f' x → sclosed r' f' x').
Proof.
  revert x. induction fs as [|f fs IH]; intros x Hx; cbn [for_each].
  { exists x. split_and!; [done|done| |done|done]. by intros f ?%not_elem_of_nil. }
  destruct (law_close st r f x Hx) as (x1 & E1 & Hx1 & Hc1 & Hr1 & Hk1).
  destruct (IH x1 Hx1) as (x2 & E2 & Hx2 & Hc2 & Hr2 & Hk2).
  exists x2. rewrite (M_bind_run _ _ _ _ _ E1). split_and!; [done|done|..].
  - intros f' [->|?]%elem_of_cons; auto.
  - intros r' f' v [? ?]%but_cons Hv. auto.
  - auto.
Qed.

Lemma unlink_forks r isRedo fs st x :
  srep st x → (∀ f, f ∈ fs → sclosed r f x) → unlink_pre r fs isRedo st x →
  ∃ x', for_each fs (λ f, smgr_unlink mgr r f isRedo) x = (Ok tt, x') ∧ srep (drop_forks r fs st) x' ∧
    (∀ r' f' v, but r fs r' f' → sready r' f' v x → sready r' f' v x').
Proof.
  revert st x. induction fs as [|f fs IH]; intros st x Hx Hc Hp; cbn [for_each]; [by exists x|].
  destruct Hp as [Hp1 Hp2]. destruct (law_unlink st r f isRedo x Hx) as (x1 & E1 & Hx1 & Hr1 & Hk1); [apply Hc; left|done|].
  rewrite E1 in Hp2. destruct (IH _ x1 Hx1) as (x2 & E2 & Hx2 & Hr2); [|done|].
  { intros f' Hf'. apply Hk1, Hc. by right. }
  exists x2. rewrite (M_bind_run _ _ _ _ _ E1). split_and!; [done|done|].
  intros r' f' v [? ?]%but_cons Hv. auto.
Qed.

Lemma drop_forks_other r fs st r' f : but r fs r' f → drop_forks r fs st r' f = st r' f.
Proof.
  unfold drop_forks. revert st. induction fs as [|f' fs IH]; intros st; [done|]. intros [? ?]%but_cons. simpl.
  rewrite IH by done. by apply store_set_ne.
Qed.

(** ** The operations *)

(** With the object at hand. *)
Definition rep_with r st s : Prop := smgr_rep st s ∧ is_Some (SMgrRelationHash s !! r).

Lemma open_run st r s : smgr_rep st s → ∃ s', open_reln r s = (Ok r, s') ∧ rep_with r st s'.
Proof.
  intros Hs. unfold open_reln, smgropen. destruct r as [loc be]. cbn [locator backend]. apply hold_run; [|by intros].
  set (r := {| locator := loc; backend := be |}). unfold mbind, M_bind, gets. cbn [SMgrRelationHash with_holdoff].
  destruct (SMgrRelationHash s !! r) as [d|] eqn:E; [by eexists|].
  destruct (law_open st r (sm_store s) (rep_store _ _ _ _ _ Hs)) as (x' & Ex & Hx' & Hr').
  unfold on_store, dlist_push_tail, modify. cbn [sm_store with_unpinned with_relns with_holdoff].
  change (smgrchoose r) with chosen. rewrite Ex. eexists. split; [done|]. split.
  2:{ simpl. by rewrite lookup_insert_eq. }
  destruct Hs as [H1 H2 H3]. constructor; simpl; [done|..].
  - intros r' d. rewrite lookup_insert_Some. intros [[<- <-]|[_ Hd]]; [done|exact (H2 r' d Hd)].
  - intros r' d f. rewrite lookup_insert_Some. intros [[<- <-]|[Hne Hd]] _; [by left|].
    destruct (H3 r' d f Hd I) as [?|[? ?]]; auto.
Qed.

(** A call leaves the sizes as they were cached. *)
Lemma call_run {A} st r f c (call : f_smgr S → M S A) (ret : A → reply) s :
  let v := st r f in
  call_rel c = r → call_fork c = f → io_call c = true →
  (∀ m, manager_call m c = (a ← call m; mret (ret a))) →
  rep_with r st s → spre c v (sm_store s) →
  ∃ a s', dispatch r call s = (Ok a, s') ∧ ret a = spec_reply c v ∧
    rep_core all_ok st (store_set st r f (spec_view c v)) (SMgrRelationHash s') (sm_store s') ∧
    SMgrRelationHash s' = SMgrRelationHash s ∧ (call mgr (sm_store s)).2 = sm_store s'.
Proof.
  intros v Hr Hf Hio Hm [Hs [d Hd]] Hp. subst r f. pose proof (law_call st c (sm_store s) Hio (rep_store _ _ _ _ _ Hs) Hp) as Hl.
  simpl in Hl. destruct Hl as (x' & Ex & Hx' & Hrd). rewrite Hm in Ex. unfold mbind, M_bind in Ex.
  destruct (call mgr (sm_store s)) as [[a|] x1] eqn:E1; [|done]. injection Ex as Hret ->.
  exists a. eexists. split; [|split; [done|]].
  - eapply dispatch_run; [done|exact (rep_which _ _ _ _ _ Hs _ _ Hd)|done].
  - split; [|done]. simpl. apply (rep_manager _ _ st _ _ (sm_store s)); [done|done|]. intros HR r' f' _. by apply Hrd.
Qed.

(** The calls that change no cached size. *)
Lemma plain_call_run {A} st r f c (call : f_smgr S → M S A) (ret : A → reply) s :
  let v := st r f in
  call_rel c = r → call_fork c = f → io_call c = true → vlen (spec_view c v) = vlen v →
  (∀ m, manager_call m c = (a ← call m; mret (ret a))) →
  rep_with r st s → spre c v (sm_store s) →
  ∃ s', (a ← hold_interrupts (dispatch r call); mret (ret a)) s = (Ok (spec_reply c v), s') ∧
    rep_with r (store_set st r f (spec_view c v)) s'.
Proof.
  intros v Hr Hf Hio Hv Hm Hs Hp. destruct (call_run st r f c call ret (with_holdoff (InterruptHoldoffCount s + 1) s))
    as (a & s1 & E1 & Ha & Hs1 & Hh & _); [done..|]. fold v in Ha, Hs1.
  destruct (hold_run (dispatch r call) s a (rep_with r (store_set st r f (spec_view c v)))) as (s2 & E2 & Hs2).
  - exists s1. split; [done|]. split; [|rewrite Hh; apply Hs]. eapply rep_sizes; [|done]. intros r' f' _.
    destruct (decide ((r', f') = (r, f))) as [[= -> ->]|Hne]; [by rewrite store_set_eq, Hv|by rewrite store_set_ne].
  - by intros.
  - exists s2. rewrite (M_bind_run _ _ _ _ _ E2), <- Ha. done.
Qed.

(** The calls that extend a fork: a cached size that was right stays right. *)
Lemma grow_run st r f c (call : f_smgr S → M S unit) b n s :
  let v := st r f in
  call_rel c = r → call_fork c = f → io_call c = true → 0 <= b → 0 <= n → b + n <= Md.InvalidBlockNumber →
  (∀ m, manager_call m c = (call m;; mret RUnit)) → spec_reply c v = RUnit →
  vlen (spec_view c v) = (b + n) `max` vlen v →
  rep_with r st s → spre c v (sm_store s) →
  ∃ s', hold_interrupts (
      dispatch r call;;
      update_reln r (λ d, set_cached f (if smgr_cached_nblocks d f =? b then b +u n else Md.InvalidBlockNumber) d)) s =
      (Ok tt, s') ∧ rep_with r (store_set st r f (spec_view c v)) s'.
Proof.
  intros v Hr Hf Hio Hb Hn Hbn Hm Hrep Hv Hs Hp. apply hold_run; [|by intros].
  destruct (call_run st r f c call (λ _, RUnit) (with_holdoff (InterruptHoldoffCount s + 1) s))
    as (a & s1 & E1 & Ha & Hs1 & Hh & _); [done..|]. fold v in Ha, Hs1. destruct a.
  destruct (proj2 Hs) as [d Hd]. assert (SMgrRelationHash s1 !! r = Some d) as Hd1 by by rewrite Hh.
  rewrite (M_bind_run _ _ _ _ _ E1), (update_run _ _ _ _ Hd1). eexists. split; [done|].
  split; [|simpl; by rewrite lookup_insert_eq]. simpl.
  eapply (rep_set_cached all_ok all_ok); [done|done|intros r' f' _ Hne; by rewrite store_set_ne|].
  rewrite store_set_eq.
  destruct (Z.eqb_spec (smgr_cached_nblocks d f) b) as [Hc|]; [|by left].
  pose proof (rep_cache _ _ _ _ _ Hs1 r d f Hd1 I) as Hcache. rewrite store_set_eq, Hc in Hcache. fold v in Hcache.
  rewrite wrap32_small by (unfold Md.InvalidBlockNumber in Hbn; mlia).
  destruct Hcache as [Hi|[Hi Hrd]]; [left; lia|right]. split; [lia|done].
Qed.

Lemma vlen_write v b bufs :
  0 <= b → vlen (Some (spec_write v (Z.to_nat b) bufs)) = (b + Z.of_nat (length bufs)) `max` vlen v.
Proof.
  intros Hb. change (spec_write v) with (spec_write (Some (default [] v))). unfold vlen. simpl. rewrite spec_write_length. lia.
Qed.

(** The size, cached or counted; the fork may now be truncated. *)
Lemma nblocks_run st r f s :
  rep_with r st s → spre (CNblocks r f) (st r f) (sm_store s) →
  ∃ s', smgrnblocks r f s = (Ok (vlen (st r f)), s') ∧ rep_with r st s' ∧ sready r f (st r f) (sm_store s').
Proof.
  intros Hs Hp. destruct (proj2 Hs) as [d Hd]. unfold smgrnblocks.
  set (c := if Md.InRecovery && negb (smgr_cached_nblocks d f =? Md.InvalidBlockNumber)
        then smgr_cached_nblocks d f else Md.InvalidBlockNumber).
  assert (smgrnblocks_cached r f s = (Ok c, s)) as E0.
  { unfold smgrnblocks_cached, mbind, M_bind, deref. by rewrite Hd. }
  rewrite (M_bind_run _ _ _ _ _ E0). destruct (Z.eqb_spec c Md.InvalidBlockNumber) as [Hc|Hc]; cbn [negb].
  - apply (hold_run _ s (vlen (st r f)) (λ s', rep_with r st s' ∧ sready r f (st r f) (sm_store s'))); [|by intros].
    destruct (call_run st r f (CNblocks r f) (λ m, smgr_nblocks m r f) RNum (with_holdoff (InterruptHoldoffCount s + 1) s))
      as (a & s1 & E1 & Ha & Hs1 & Hh & Hx); [done..|]. injection Ha as ->. simpl in Hs1.
    assert (SMgrRelationHash s1 !! r = Some d) as Hd1 by by rewrite Hh.
    assert (sready r f (st r f) (sm_store s1)) as Hrd.
    { rewrite <- Hx. apply law_nblocks; [apply Hs|done]. }
    rewrite (M_bind_run _ _ _ _ _ E1), (M_bind_run _ _ _ _ _ (update_run _ _ _ _ Hd1)).
    eexists. split; [done|]. split; [|done]. split; [|simpl; by rewrite lookup_insert_eq]. unfold smgr_rep. simpl.
    eapply (rep_set_cached all_ok all_ok); [|done|done|by right; split].
    eapply rep_ext; [|exact Hs1]. intros r' f'. by rewrite store_set_same.
  - subst c. destruct Md.InRecovery eqn:HR; [|done]. simpl in *.
    destruct (rep_cache _ _ _ _ _ (proj1 Hs) r d f Hd I) as [Hi|[Hi Hrd]].
    + by rewrite Hi, Z.eqb_refl in Hc.
    + destruct (smgr_cached_nblocks d f =? Md.InvalidBlockNumber); [done|]. simpl. rewrite Hi. eexists. eauto.
Qed.

Lemma truncate_run st r f n s :
  let c := CTruncate r f (vlen (st r f)) n in
  rep_with r st s → spre c (st r f) (sm_store s) → sready r f (st r f) (sm_store s) →
  ∃ s', smgrtruncate r [(f, vlen (st r f), n)] s = (Ok tt, s') ∧ rep_with r (store_set st r f (spec_view c (st r f))) s'.
Proof.
  intros c Hs Hp Hrd. destruct (proj2 Hs) as [d Hd]. destruct (law_args _ _ _ Hp) as [_ Hn].
  destruct (law_truncate st r f n (sm_store s) (rep_store _ _ _ _ _ (proj1 Hs)) Hp Hrd) as (x' & Ex & Hx' & Hrd').
  unfold smgrtruncate. cbn [for_each]. unfold CacheInvalidateSmgr, modify at 1 2, mbind, M_bind.
  set (s1 := with_messages _ _). assert (SMgrRelationHash s1 !! r = Some d) as Hd1 by done.
  rewrite (update_run _ _ _ _ Hd1). set (s2 := with_relns _ s1).
  assert (SMgrRelationHash s2 !! r = Some (set_cached f Md.InvalidBlockNumber d)) as Hd2.
  { simpl. by rewrite lookup_insert_eq. }
  rewrite (dispatch_run r _ (λ m, smgr_truncate m r f _ n) s2 tt x' Hd2); [|exact (rep_which _ _ _ _ _ (proj1 Hs) _ _ Hd)|done].
  rewrite (update_run r _ (set_cached f Md.InvalidBlockNumber d)) by done.
  eexists. split; [done|]. split; [|simpl; by rewrite lookup_insert_eq]. unfold smgr_rep. simpl.
  eapply (rep_set_cached (λ r' f', (r', f') ≠ (r, f)) all_ok st).
  - apply (rep_manager _ _ st _ _ (sm_store s)); [|done|intros HR r' f' _; by apply Hrd'].
    eapply (rep_set_cached all_ok); [apply Hs|done|done|by left].
  - by rewrite lookup_insert_eq.
  - intros r' f' _ Hne. by rewrite store_set_ne.
  - right. rewrite store_set_eq. split.
    + unfold c. cbn [spec_view]. unfold spec_truncate. destruct (Z.ltb_spec (vlen (st r f)) n); [lia|].
      unfold vlen in *. simpl. rewrite length_take. lia.
    + intros HR. specialize (Hrd' HR r f). rewrite store_set_eq in Hrd'. by apply Hrd'.
Qed.

(** Releasing an object: its forks are closed, its sizes forgotten. *)
Lemma release_run st r s :
  rep_core (but r all_forks) st st (SMgrRelationHash s) (sm_store s) → is_Some (SMgrRelationHash s !! r) →
  ∃ s', smgrrelease r s = (Ok tt, s') ∧ rep_with r st s' ∧
    ∀ r', is_Some (SMgrRelationHash s' !! r') ↔ is_Some (SMgrRelationHash s !! r').
Proof.
  intros Hs Hd. unfold smgrrelease.
  apply (hold_run _ s tt (λ s', rep_with r st s' ∧
    ∀ r', is_Some (SMgrRelationHash s' !! r') ↔ is_Some (SMgrRelationHash s !! r'))); [|by intros].
  set (s0 := with_holdoff _ s).
  assert (∀ fs s1, rep_core (but r fs) st st (SMgrRelationHash s1) (sm_store s1) → is_Some (SMgrRelationHash s1 !! r) →
    ∃ s2, for_each fs (λ f, dispatch r (λ m, smgr_close m r f);; update_reln r (set_cached f Md.InvalidBlockNumber)) s1 =
      (Ok tt, s2) ∧ rep_core (but r []) st st (SMgrRelationHash s2) (sm_store s2) ∧
      ∀ r', is_Some (SMgrRelationHash s2 !! r') ↔ is_Some (SMgrRelationHash s1 !! r')) as Hloop.
  { induction fs as [|f fs IH]; intros s1 Hs1 [d Hd1]; cbn [for_each]; [by exists s1|].
    destruct (law_close st r f (sm_store s1) (rep_store _ _ _ _ _ Hs1)) as (x' & Ex & Hx' & _ & Hr' & _).
    pose proof (dispatch_run r d (λ m, smgr_close m r f) s1 tt x' Hd1 (rep_which _ _ _ _ _ Hs1 _ _ Hd1) Ex) as E1.
    erewrite M_bind_run; [|rewrite (M_bind_run _ _ _ _ _ E1); by apply update_run]. set (s2 := with_relns _ _).
    destruct (IH s2) as (s3 & E3 & Hs3 & Hh3).
    - simpl. eapply (rep_set_cached (but r (f :: fs))); [|done| |by left].
      + apply (rep_manager _ _ st _ _ (sm_store s1)); [done|done|]. intros _ r' f' [_ ?]%but_cons. by apply Hr'.
      + intros r' f' [?|Hf] Hne; (split; [|done]); [by left|]. destruct (decide (r' = r)) as [->|]; [|by left].
        right. apply not_elem_of_cons. split; [congruence|done].
    - simpl. by rewrite lookup_insert_eq.
    - exists s3. split; [done|]. split; [done|]. intros r'. rewrite Hh3. simpl. destruct (decide (r = r')) as [<-|].
      + rewrite lookup_insert_eq, Hd1. by split.
      + by rewrite lookup_insert_ne. }
  destruct (Hloop all_forks s0 Hs Hd) as (s1 & E1 & Hs1 & Hh). rewrite (M_bind_run _ _ _ _ _ E1).
  destruct (proj2 (Hh r) Hd) as [d Hd1]. rewrite (update_run r _ d) by done. eexists. split; [done|]. simpl.
  assert (∀ r', is_Some (<[r:=set_targblock Md.InvalidBlockNumber d]> (SMgrRelationHash s1) !! r') ↔
    is_Some (SMgrRelationHash s !! r')) as Hdom.
  { intros r'. change (SMgrRelationHash s) with (SMgrRelationHash s0). rewrite <- (Hh r'). destruct (decide (r = r')) as [<-|]; [|by rewrite lookup_insert_ne].
    rewrite lookup_insert_eq, Hd1. by split. }
  split; [|done]. split; [|by apply Hdom]. destruct Hs1 as [H1 H2 H3]. constructor; simpl; [done|..].
  - intros r' d'. rewrite lookup_insert_Some. intros [[<- <-]|[_ Hd']]; [exact (H2 r d Hd1)|exact (H2 r' d' Hd')].
  - intros r' d' f. rewrite lookup_insert_Some. intros [[<- <-]|[_ Hd']] _; [apply (H3 r d f Hd1)|apply (H3 r' d' f Hd')].
    all: right; apply not_elem_of_nil.
Qed.

Lemma release_rep st r s :
  rep_with r st s →
  ∃ s', smgrrelease r s = (Ok tt, s') ∧ rep_with r st s' ∧
    ∀ r', is_Some (SMgrRelationHash s' !! r') ↔ is_Some (SMgrRelationHash s !! r').
Proof. intros [Hs Hr]. apply release_run; [|done]. by eapply rep_weaken; [|exact Hs]. Qed.

Lemma releaseall_run st s : smgr_rep st s → ∃ s', smgrreleaseall s = (Ok tt, s') ∧ smgr_rep st s'.
Proof.
  intros Hs. unfold smgrreleaseall. apply hold_run; [|by intros]. set (s0 := with_holdoff _ s).
  rewrite (M_bind_run _ _ _ (map_to_list (SMgrRelationHash s0)).*1 s0) by done.
  assert (∀ r, r ∈ (map_to_list (SMgrRelationHash s0)).*1 → is_Some (SMgrRelationHash s0 !! r)) as Hl.
  { intros r ([r' d] & -> & Hd)%list_elem_of_fmap. apply elem_of_map_to_list in Hd. by exists d. }
  revert Hl. generalize (map_to_list (SMgrRelationHash s0)).*1. intros l.
  assert (smgr_rep st s0) as H0 by done. revert H0. generalize s0. clear s0 Hs.
  induction l as [|r l IH]; intros s0 H0 Hl; cbn [for_each]; [by exists s0|].
  destruct (release_rep st r s0) as (s1 & E1 & Hs1 & Hh); [split; [done|apply Hl; left]|].
  rewrite (M_bind_run _ _ _ _ _ E1). apply IH; [apply Hs1|]. intros r' Hr'. apply Hh, Hl. by right.
Qed.

(** Dropping a relation. *)
Lemma drop_run st r isRedo s :
  rep_with r st s → unlink_pre r all_forks isRedo st (for_each all_forks (smgr_close mgr r) (sm_store s)).2 →
  ∃ s', (smgrdounlinkall [r] isRedo;; smgrclose r) s = (Ok tt, s') ∧ rep_with r (drop_forks r all_forks st) s'.
Proof.
  intros [Hs [d Hd]] Hp. destruct (close_forks st r all_forks _ (rep_store _ _ _ _ _ Hs)) as (x1 & E1 & Hx1 & Hc1 & Hr1 & _).
  rewrite E1 in Hp. destruct (unlink_forks r isRedo all_forks st x1 Hx1 Hc1 Hp) as (x2 & E2 & Hx2 & Hr2).
  pose proof (rep_which _ _ _ _ _ Hs _ _ Hd) as Hw. set (st' := drop_forks r all_forks st) in *.
  destruct (hold_run (modify (λ s, with_buffers (DropRelationsAllBuffers [r] (sm_buffers s)) s);;
    for_each [r] (λ r, for_each all_forks (λ f, dispatch r (λ m, smgr_close m r f)));;
    for_each [r] CacheInvalidateSmgr;;
    for_each [r] (λ r, for_each all_forks (λ f, dispatch r (λ m, smgr_unlink m r f isRedo)))) s tt
    (λ s', rep_core (but r all_forks) st' st' (SMgrRelationHash s') (sm_store s') ∧ is_Some (SMgrRelationHash s' !! r)))
    as (s1 & F1 & Hs1 & Hd1); [|by intros|].
  - unfold for_each at 1 3 4. cbv beta. set (s0 := with_holdoff _ s). unfold mbind, M_bind, modify at 1.
    set (s1 := with_buffers _ s0). rewrite (dispatch_forks_run r d (λ m f, smgr_close m r f) all_forks s1 x1 Hd Hw E1).
    unfold mret, M_ret, CacheInvalidateSmgr, modify. set (s2 := with_messages _ _).
    rewrite (dispatch_forks_run r d (λ m f, smgr_unlink m r f isRedo) all_forks s2 x2 Hd Hw E2).
    eexists. split; [done|]. simpl. split; [|by rewrite Hd]. apply (rep_sizes _ st).
    { intros r' f' Hb. unfold st'. by rewrite drop_forks_other. }
    apply (rep_manager _ _ st _ _ x1); [|done|].
    + apply (rep_manager _ _ st _ _ (sm_store s)); [|done|intros _ r' f' Hb; by apply Hr1]. by eapply rep_weaken; [|exact Hs].
    + intros _ r' f' Hb. unfold st'. rewrite drop_forks_other by done. by apply Hr2.
  - destruct (release_run st' r s1 Hs1 Hd1) as (s2 & F2 & Hs2 & _). exists s2. split; [|done].
    unfold smgrdounlinkall. by rewrite (M_bind_run _ _ _ _ _ F1).
Qed.

(** The end of a transaction. *)
Lemma destroyed_rep st r d s :
  smgr_rep st s → SMgrRelationHash s !! r = Some d →
  ∃ x, smgrdestroy r s = (Ok tt, destroyed r x s) ∧ smgr_rep st (destroyed r x s).
Proof.
  intros Hs Hd. destruct (close_forks st r all_forks _ (rep_store _ _ _ _ _ Hs)) as (x1 & E1 & Hx1 & _ & Hr1 & _).
  exists x1. rewrite (smgrdestroy_run r d s Hd), (rep_which _ _ _ _ _ Hs _ _ Hd), E1. split; [done|].
  destruct Hs as [H1 H2 H3]. constructor; simpl; [done|..].
  - intros r' d' [_ Hd']%lookup_delete_Some. exact (H2 r' d' Hd').
  - intros r' d' f [Hne Hd']%lookup_delete_Some _. destruct (H3 r' d' f Hd' I) as [?|[? ?]]; [by left|].
    right. split; [done|]. intros HR. apply Hr1; [by left|auto].
Qed.

Lemma eoxact_run st s : smgr_inv s → smgr_rep st s → ∃ s', AtEOXact_SMgr s = (Ok tt, s') ∧ smgr_rep st s'.
Proof.
  intros Hi Hs. unfold AtEOXact_SMgr, smgrdestroyall. apply hold_run; [|by intros]. set (s0 := with_holdoff _ s).
  rewrite (M_bind_run _ _ _ (unpinned_relns s) s0) by done.
  assert (∀ r, r ∈ unpinned_relns s → is_Some (SMgrRelationHash s0 !! r)) as Hl.
  { intros r (d & Hd & _)%(inv_unpinned _ Hi). by exists d. }
  pose proof (inv_nodup _ Hi) as Hnd. revert Hl Hnd. generalize (unpinned_relns s). intros l.
  assert (smgr_rep st s0) as H0 by done. revert H0. generalize s0. clear s0 Hi Hs.
  induction l as [|r l IH]; intros s0 H0 Hl Hnd; cbn [for_each]; [by exists s0|].
  apply NoDup_cons in Hnd as [Hr Hnd]. destruct (Hl r ltac:(left)) as [d Hd].
  destruct (destroyed_rep st r d s0 H0 Hd) as (x & E1 & Hs1). rewrite (M_bind_run _ _ _ _ _ E1). apply IH; [done| |done].
  intros r' Hr'. simpl. rewrite lookup_delete_ne by (by intros ->). apply Hl. by right.
Qed.

(** Pins change nothing here. *)
Lemma rep_pin st s s' r d n :
  smgr_rep st s → SMgrRelationHash s !! r = Some d → sm_store s' = sm_store s →
  SMgrRelationHash s' = <[r := set_pincount n d]> (SMgrRelationHash s) → smgr_rep st s'.
Proof.
  intros [H1 H2 H3] Hd Hx Hh. unfold smgr_rep. rewrite Hx, Hh. constructor; [done|..].
  - intros r' d'. rewrite lookup_insert_Some. intros [[<- <-]|[_ Hd']]; [exact (H2 r d Hd)|exact (H2 r' d' Hd')].
  - intros r' d' f. rewrite lookup_insert_Some. intros [[<- <-]|[_ Hd']]; [exact (H3 r d f Hd)|exact (H3 r' d' f Hd')].
Qed.

Lemma pin_run st r s : rep_with r st s → ∃ s', smgrpin r s = (Ok tt, s') ∧ smgr_rep st s'.
Proof.
  intros [Hs [d Hd]]. unfold smgrpin, mbind, M_bind, deref, update_reln, modify, dlist_delete. rewrite Hd.
  destruct (pincount d =? 0); simpl; rewrite (alter_at _ _ _ _ Hd); eexists; (split; [done|]); by eapply (rep_pin st s).
Qed.

Lemma unpin_run st r d s :
  smgr_rep st s → SMgrRelationHash s !! r = Some d → ∃ s', smgrunpin r s = (Ok tt, s') ∧ smgr_rep st s'.
Proof.
  intros Hs Hd. unfold smgrunpin, mbind, M_bind, deref, update_reln, modify, dlist_push_tail.
  simpl. rewrite (alter_at _ _ _ _ Hd), lookup_insert_eq.
  destruct (pincount _ =? 0); simpl; eexists; (split; [done|]); by eapply (rep_pin st s).
Qed.

(** ** Runs are runs of the store *)

Abbreviation keeps_inv := (respects (S := SmgrState S B) (keeping smgr_inv)).
Local Hint Resolve hold_keeps deref_keeps message_keeps buffers_keep smgrrelease_keeps smgropen_keeps smgrpin_keeps : respects.
Local Hint Extern 2 (respects _ (dispatch _ _)) => (apply dispatch_keeps; intros ?; constructor) : respects.
Local Hint Extern 2 (respects _ (update_reln _ _)) => (apply update_keeps; intros ?; reflexivity) : respects.

Lemma smgr_call_keeps r c : keeps_inv (smgr_call r c).
Proof.
  destruct c; cbn [smgr_call]; unfold smgrcreate, smgrexists, smgrextend, smgrzeroextend, smgrreadv, smgrwritev, smgrnblocks,
    smgrnblocks_cached, smgrtruncate; repeat (apply hold_keeps || respects_step).
Qed.

Lemma scall_run st c s :
  let v := st (call_rel c) (call_fork c) in
  rep_with (call_rel c) st s →
  match c with
  | CUnlink _ _ _ => False
  | CTruncate r f _ _ => spre (CNblocks r f) v (sm_store s) ∧ spre c v (sm_store (smgrnblocks r f s).2)
  | _ => spre c v (sm_store s)
  end →
  ∃ s', smgr_call (call_rel c) c s = (Ok (spec_reply c v), s') ∧
    rep_with (call_rel c) (store_set st (call_rel c) (call_fork c) (spec_view c v)) s'.
Proof.
  intros v Hs Hp. destruct c as [r f isRedo|r f|r f isRedo|r f b page skip|r f b n skip|r f b n|r f b bufs skip|r f|r f cur n];
    cbn [smgr_call call_rel call_fork] in *; fold v in Hp.
  - apply (plain_call_run st r f (CCreate r f isRedo) _ (λ _, RUnit)); [done..| |done|done|done]. fold v. by destruct v.
  - by apply (plain_call_run st r f (CExists r f) _ RBool); [..|exact Hp].
  - done.
  - destruct (law_args _ _ _ Hp : 0 <= b < Md.InvalidBlockNumber) as [Hb Hmax].
    destruct (grow_run st r f (CExtend r f b page skip) (λ m, smgr_extend m r f b page skip) b 1 s) as (s' & E & Hs');
      [try done; lia..|apply (vlen_write _ b [page]); done|done|done|].
    exists s'. split; [|done]. unfold smgrextend. by rewrite (M_bind_run _ _ _ _ _ E).
  - destruct (law_args _ _ _ Hp : 0 <= b ∧ 0 <= n ∧ b + n <= Md.InvalidBlockNumber) as (Hb & Hn & Hmax).
    destruct (grow_run st r f (CZeroExtend r f b n skip) (λ m, smgr_zeroextend m r f b n skip) b n s) as (s' & E & Hs');
      [done..| |done|done|]; [cbn [spec_view]; rewrite vlen_write, length_replicate by done; lia|].
    exists s'. split; [|done]. unfold smgrzeroextend. by rewrite (M_bind_run _ _ _ _ _ E).
  - by apply (plain_call_run st r f (CReadv r f b n) _ RBlocks).
  - destruct (law_args _ _ _ Hp : 0 <= b ∧ b + Z.of_nat (length bufs) <= vlen v) as [Hb Hn].
    apply (plain_call_run st r f (CWritev r f b bufs skip) _ (λ _, RUnit)); [done..| |done|done|done].
    cbn [spec_view]. rewrite vlen_write by done. unfold v in *. lia.
  - destruct (nblocks_run st r f s Hs Hp) as (s' & E & Hs' & _). rewrite (M_bind_run _ _ _ _ _ E).
    exists s'. split; [done|]. split; [|apply Hs']. apply (smgr_rep_ext st); [|apply Hs']. apply store_set_same.
  - destruct Hp as [Hp1 Hp2]. destruct (nblocks_run st r f s Hs Hp1) as (s1 & E1 & Hs1 & Hrd). rewrite E1 in Hp2.
    destruct (law_args _ _ _ Hp2 : cur = vlen v ∧ 0 <= n <= cur) as [-> _].
    destruct (truncate_run st r f n s1 Hs1 Hp2 Hrd) as (s2 & E2 & Hs2). exists s2.
    rewrite (M_bind_run _ _ _ _ _ E1), (M_bind_run _ _ _ _ _ E2). done.
Qed.

Lemma sop_step op st s :
  smgr_inv s → smgr_rep st s → sop_pre op st s →
  ∃ s', sop_run op s = (Ok (sop_spec op st).1, s') ∧ smgr_rep (sop_spec op st).2 s'.
Proof.
  intros Hi Hs Hp. destruct op as [c|r isRedo|r|r|r|r| |]; cbn [sop_run sop_spec sop_pre fst snd] in *.
  - destruct (open_run st (call_rel c) s Hs) as (s1 & E1 & Hs1). rewrite E1 in Hp. cbn [snd] in Hp.
    destruct (scall_run st c s1 Hs1 Hp) as (s2 & E2 & Hs2 & _). exists s2.
    rewrite (M_bind_run _ _ _ _ _ E1). exact (conj E2 Hs2).
  - destruct (open_run st r s Hs) as (s1 & E1 & Hs1). rewrite E1 in Hp. cbn [snd] in Hp.
    destruct (drop_run st r isRedo s1 Hs1 Hp) as (s2 & E2 & Hs2 & _). exists s2. split; [|exact Hs2].
    rewrite (M_bind_run _ _ _ _ _ E1). revert E2. unfold mbind, M_bind.
    destruct (smgrdounlinkall [r] isRedo s1) as [[]]; [|discriminate]. intros ->. reflexivity.
  - destruct (open_run st r s Hs) as (s1 & E1 & Hs1 & _). exists s1. rewrite (M_bind_run _ _ _ _ _ E1). exact (conj eq_refl Hs1).
  - destruct (open_run st r s Hs) as (s1 & E1 & Hs1). destruct (pin_run st r s1 Hs1) as (s2 & E2 & Hs2). exists s2.
    rewrite (M_bind_run _ _ _ _ _ E1), (M_bind_run _ _ _ _ _ E2). exact (conj eq_refl Hs2).
  - destruct Hp as (d & Hd & _). destruct (unpin_run st r d s Hs Hd) as (s1 & E1 & Hs1). exists s1.
    rewrite (M_bind_run _ _ _ _ _ E1). exact (conj eq_refl Hs1).
  - destruct (open_run st r s Hs) as (s1 & E1 & Hs1). destruct (release_rep st r s1 Hs1) as (s2 & E2 & [Hs2 _] & _). exists s2.
    rewrite (M_bind_run _ _ _ _ _ E1), (M_bind_run _ _ _ _ _ E2). exact (conj eq_refl Hs2).
  - destruct (releaseall_run st s Hs) as (s1 & E1 & Hs1). exists s1. rewrite (M_bind_run _ _ _ _ _ E1). exact (conj eq_refl Hs1).
  - destruct (eoxact_run st s Hi Hs) as (s1 & E1 & Hs1). exists s1. rewrite (M_bind_run _ _ _ _ _ E1). exact (conj eq_refl Hs1).
Qed.

Lemma sop_inv op st s : smgr_inv s → sop_pre op st s → smgr_inv (sop_run op s).2.
Proof.
  assert (∀ r, keeps_inv (open_reln r)) as Ho by (intros r; exact (smgropen_keeps (locator r) (backend r))).
  assert (keeps_inv AtEOXact_SMgr) as He.
  { intros s0 Hs. destruct (smgrdestroyall_run s0 Hs) as (s' & E & Hs' & _). unfold AtEOXact_SMgr. rewrite E. exact Hs'. }
  pose proof smgr_call_keeps as Hc. intros Hi Hp.
  cut (match op with SUnpin _ => True | _ => keeps_inv (sop_run op) end).
  { intros Hk. destruct op; try exact (Hk s Hi). destruct Hp as (d & Hd & Hpin).
    pose proof (smgrunpin_inv r d s Hi Hd Hpin) as H1. unfold sop_run, mbind, M_bind.
    destruct (smgrunpin r s) as [[] s1]; exact H1. }
  destruct op; cbn [sop_run]; try exact I; unfold smgrdounlinkall, smgrclose, smgrreleaseall;
    repeat (apply Ho || apply He || apply Hc || apply smgrrelease_keeps || apply hold_keeps || respects_step).
Qed.

Lemma sops_simulate ops st s :
  smgr_inv s → smgr_rep st s → sops_pre ops st s →
  ∃ s', sops_run ops s = (Ok (sops_spec ops st).1, s') ∧ smgr_rep (sops_spec ops st).2 s'.
Proof.
  revert st s. induction ops as [|op ops IH]; intros st s Hi Hs Hp; [by exists s|]. destruct Hp as [Hp1 Hp2].
  pose proof (sop_inv op st s Hi Hp1) as Hi1. destruct (sop_step op st s Hi Hs Hp1) as (s1 & E1 & Hs1). rewrite E1 in Hi1, Hp2.
  destruct (IH _ s1 Hi1 Hs1 Hp2) as (s2 & E2 & Hs2). exists s2. cbn [sops_run sops_spec].
  rewrite (M_bind_run _ _ _ _ _ E1), (M_bind_run _ _ _ _ _ E2). destruct (sop_spec op st) as [a st1]. simpl in *.
  by destruct (sops_spec ops st1).
Qed.

Lemma smgr_start_rep st x b : srep st x → smgr_rep st (smgr_start x b).
Proof. intros Hx. constructor; simpl; [done|..]; intros r d; by rewrite lookup_empty. Qed.
End store.
End SmgrStore.
