(* ===== verification/SmgrMd.v ===== *)
(** * SmgrMd: smgr.c over md.c is a store of block lists

    md.c, as the storage manager of smgr.c, meets the contract [StoreSmgr]:
    what it requires of its callers is what smgr.c does.  smgr.c closes every
    fork before it unlinks it, and asks for a fork's size, or remembers it from
    a count that opened every segment, before it truncates it. *)

From Stdlib Require Import ZArith Lia Bool.
From stdpp Require Import base tactics numbers list gmap relations.
From S2P Require Import Prelude RelPath MemSmgr MemSmgrRefine MemSmgrSim Md FileSys MdInv MdRefine MdOps MdIo MdDrop MdUnlink MdSim.
From S2P Require Import MdLocal Smgr SmgrInv SmgrManagers SmgrStore.
Import MdInv MdRefine MdOps MdIo MdDrop MdUnlink MdSim MdLocal Smgr SmgrInv SmgrManagers SmgrStore.

Local Open Scope Z_scope.
Local Open Scope pg_scope.

Module SmgrMd.
Section md.
Context {env : Env} {mde : Md.MdEnv}.
Implicit Types (r : RelFileLocatorBackend) (f : ForkNumber) (s : Md.MdState) (x : MemState Md.MdState) (st : SmgrStore.store).

(** The disk represents the store, and the file system does not fail. *)
Definition md_store st s : Prop := md_rep st s ∧ quiet (Md.md_fs s).

(** ** Opening and closing *)

Lemma mdopen_forks fs r s :
  ∃ s', for_each fs (λ f, modify (λ s, Md.set_open (<[(r, f) := []]> (Md.md_open s)) s)) s = (Ok tt, s') ∧
    Md.md_fs s' = Md.md_fs s ∧ Md.md_requests s' = Md.md_requests s ∧
    ∀ r' f', Md.open_segs r' f' s' = if decide (r' = r ∧ f' ∈ fs) then [] else Md.open_segs r' f' s.
Proof.
  revert s. induction fs as [|f fs IH]; intros s; cbn [for_each].
  { exists s. split_and!; [done|done|done|]. intros r' f'. rewrite decide_False; [done|]. by intros [_ ?%not_elem_of_nil]. }
  destruct (IH (Md.set_open (<[(r, f) := []]> (Md.md_open s)) s)) as (s' & E & Hfs & Hq & Ho).
  exists s'. split_and!; [exact E|exact Hfs|exact Hq|]. intros r' f'. rewrite Ho.
  destruct (decide (r' = r ∧ f' ∈ fs)) as [[-> Hin]|Hn].
  { rewrite decide_True; [done|]. split; [done|by right]. }
  unfold Md.open_segs. cbn [Md.md_open Md.set_open]. destruct (decide ((r', f') = (r, f))) as [[= -> ->]|Hne].
  - rewrite lookup_insert_eq. rewrite decide_True; [done|]. split; [done|by left].
  - rewrite lookup_insert_ne by done. rewrite decide_False; [done|]. intros [-> [->|?]%elem_of_cons]; naive_solver.
Qed.

(** Forgetting segments keeps the representation. *)
Lemma md_ok_forget s s' :
  Md.md_fs s' = Md.md_fs s → (∀ r f, Md.open_segs r f s' = Md.open_segs r f s ∨ Md.open_segs r f s' = []) →
  md_ok s → md_ok s'.
Proof.
  intros Hfs Ho [H1 H2 H3 H4].
  assert (∀ r f i v, Md.open_segs r f s' !! i = Some v → Md.open_segs r f s !! i = Some v) as Hsub.
  { intros r f i v Hv. destruct (Ho r f) as [E|E]; rewrite E in Hv; [done|]. by rewrite lookup_nil in Hv. }
  constructor; rewrite ?Hfs; [done|..].
  - intros r f i v Hv. by apply H2, Hsub.
  - intros r f i v r' f' i' v' Hv Hv'. by eapply H3; apply Hsub.
  - intros r f Hne. apply H4. destruct (Ho r f) as [E|E]; by rewrite E in Hne.
Qed.

Lemma fork_is_forget r f v s s' :
  Md.md_fs s' = Md.md_fs s → Md.md_requests s' = Md.md_requests s →
  (Md.open_segs r f s' = Md.open_segs r f s ∨ Md.open_segs r f s' = []) → fork_is r f v s → fork_is r f v s'.
Proof.
  intros Hfs Hq Ho. assert (∀ k, seg r f k s' = seg r f k s) as Hs by (intros k; unfold seg; by rewrite Hfs).
  destruct Ho as [E|E]; [|apply fork_is_closed; [done|by rewrite Hq|done]]. destruct v as [l|]; simpl.
  - intros [n Hf]. exists n. eapply fork_files_ext; [done|done|]. rewrite E. apply Hf.
  - intros Hf. destruct (Md.open_segs r f s) eqn:Eo; [|apply fork_is_none_closed in Hf; congruence].
    eapply (fork_is_closed r f None s); [done|by rewrite Hq|done|done].
Qed.

Lemma mdopen_store st r s :
  md_store st s →
  ∃ s', Md.mdopen r s = (Ok tt, s') ∧ md_store st s' ∧ ∀ r' f, r' ≠ r → Md.open_segs r' f s' = Md.open_segs r' f s.
Proof.
  intros [[H1 H2] Hq]. destruct (mdopen_forks all_forks r s) as (s' & E & Hfs & Hrq & Ho). exists s'.
  assert (∀ r' f', Md.open_segs r' f' s' = Md.open_segs r' f' s ∨ Md.open_segs r' f' s' = []) as Hor.
  { intros r' f'. rewrite Ho. case_decide; auto. }
  split_and!; [done| |].
  - split; [|by rewrite Hfs]. constructor; [by eapply md_ok_forget|]. intros r' f' Hv. eapply fork_is_forget; [done|done|done|auto].
  - intros r' f Hne. rewrite Ho. rewrite decide_False; [done|]. by intros [? _].
Qed.

Lemma mdclose_store st r f s :
  md_store st s →
  ∃ s', Md.mdclose r f s = (Ok tt, s') ∧ md_store st s' ∧ Md.open_segs r f s' = [] ∧
    ∀ r' f', (r', f') ≠ (r, f) → Md.open_segs r' f' s' = Md.open_segs r' f' s.
Proof.
  intros [[H1 H2] Hq]. destruct (Md.open_segs r f s) as [|v vs] eqn:E.
  - exists s. split_and!; [|done|done|done]. unfold Md.mdclose. rewrite (M_bind_run _ _ _ (length (Md.open_segs r f s)) s) by done.
    by rewrite E.
  - assert (valid_fork r f) as Hval by (apply (mo_valid _ H1); by rewrite E).
    destruct (mdclose_run r f s H1) as (s' & E1 & Hon & Hs & Ho). exists s'. split_and!; [done| |done|].
    + split; [|by apply (on_sched _ _ _ _ Hon)]. constructor; [apply Hon|]. intros r' f' Hv'.
      destruct (decide ((r', f') = (r, f))) as [[= -> ->]|Hne]; [eapply fork_is_closed; [done|apply Hon|done|auto]|].
      eapply fork_is_frame; [done|done|done|done|auto].
    + apply (on_open _ _ _ _ Hon).
Qed.

(** ** Calls *)

(** A call that md.c answers, on the whole disk. *)
Lemma answers_store {A} st r f v' (m : M Md.MdState A) a s :
  md_store st s → valid_fork r f → answers r f (st r f) v' m a s →
  ∃ s', m s = (Ok a, s') ∧ md_store (store_set st r f v') s' ∧
    (Md.InRecovery = true → covered r f (st r f) s → covered r f v' s') ∧
    ∀ r' f', (r', f') ≠ (r, f) → Md.open_segs r' f' s' = Md.open_segs r' f' s.
Proof.
  intros [Hrep Hq] Hval (s' & E & Hon & Hf & Hc). exists s'. split_and!; [done| |done|apply (on_open _ _ _ _ Hon)].
  split; [by eapply rep_update|by apply (on_sched _ _ _ _ Hon)].
Qed.

Lemma covered_same r f v s s' : Md.open_segs r f s' = Md.open_segs r f s → covered r f v s → covered r f v s'.
Proof. unfold covered. by intros ->. Qed.

Lemma on_md_run {A} (m : M Md.MdState A) x a s' : m (disk x) = (Ok a, s') → on_md m x = (Ok a, set_disk s' x).
Proof. intros E. unfold on_md. by rewrite E. Qed.

Lemma md_manager_call c x : io_call c = true → manager_call smgrsw_md c x = on_md (md_call c) x.
Proof.
  destruct c; try discriminate; intros _; cbn [manager_call md_call smgrsw_md smgr_create smgr_exists smgr_extend
    smgr_zeroextend smgr_readv smgr_writev smgr_nblocks]; unfold on_md, mbind, M_bind;
    match goal with |- context [let '(_, _) := ?m (disk x) in _] => destruct (m (disk x)) as [[] ?] end; reflexivity.
Qed.

#[export] Instance md_store_smgr : StoreSmgr smgrsw_md.
Proof.
  refine {| srep := λ st x, md_store st (disk x);
            sready := λ r f v x, covered r f v (disk x);
            sclosed := λ r f x, Md.open_segs r f (disk x) = [];
            spre := λ c v x, md_pre c v (disk x) |}.
  - intros st r x Hx. destruct (mdopen_store st r (disk x) Hx) as (s' & E & Hs' & Ho).
    exists (set_disk s' x). split_and!; [by apply on_md_run|done|]. intros r' f v Hne. apply covered_same. simpl. by apply Ho.
  - intros st r f x Hx. destruct (mdclose_store st r f (disk x) Hx) as (s' & E & Hs' & Hc & Ho).
    exists (set_disk s' x). split_and!; [by apply on_md_run|done|done|..].
    + intros r' f' v Hne. apply covered_same. by apply Ho.
    + intros r' f' Hcl. destruct (decide ((r', f') = (r, f))) as [[= -> ->]|Hne]; [done|]. simpl. by rewrite Ho.
  - intros st r f isRedo x [Hrep Hq] Hc (Hval & Hfree & _). destruct (answers_store st r f None (Md.mdunlink r f isRedo) tt (disk x))
      as (s' & E & Hs' & _ & Ho); [done|done| |].
    { apply sim_unlink_closed; [apply Hrep|by apply quiet_calm|done|done|by apply Hrep|done]. }
    exists (set_disk s' x). split_and!; [by apply on_md_run|done|..].
    + intros r' f' v Hne. apply covered_same. by apply Ho.
    + intros r' f' Hcl. destruct (decide ((r', f') = (r, f))) as [[= -> ->]|Hne]; [|simpl; by rewrite Ho].
      apply fork_is_none_closed. pose proof (rep_forks _ _ (proj1 Hs') r f Hval) as Hf. by rewrite store_set_eq in Hf.
  - intros st c x v Hio [Hrep Hq] Hp. destruct (answers_store st (call_rel c) (call_fork c) (spec_view c v) (md_call c) (spec_reply c v) (disk x))
      as (s' & E & Hs' & Hc & Ho); [done|apply Hp| |].
    { apply md_call_answers; [apply Hrep|done|apply Hrep, Hp|done]. }
    exists (set_disk s' x). split_and!; [rewrite md_manager_call by done; by apply on_md_run|done|].
    intros HR r f. destruct (decide ((r, f) = (call_rel c, call_fork c))) as [[= -> ->]|Hne].
    + rewrite store_set_eq. by apply Hc.
    + rewrite store_set_ne by done. apply covered_same. by apply Ho.
  - intros st r f x [Hrep Hq] (Hval & _ & Hp). pose proof (rep_forks _ _ Hrep r f Hval) as Hf. simpl in Hp.
    destruct (st r f) as [l|]; [|done]. destruct Hf as [n Hf].
    destruct (mdnblocks_fork r f n l (disk x) (rep_ok _ _ Hrep) (quiet_calm _ Hq) Hf) as (s1 & H1 & _ & Ho).
    cbn [smgr_nblocks smgrsw_md]. rewrite (on_md_run _ _ _ _ H1). exact Ho.
  - intros st r f n x [Hrep Hq] (Hval & _ & Hv & _ & Hn & Hmax) Hcov. pose proof (rep_forks _ _ Hrep r f Hval) as Hf.
    destruct (answers_store st r f (spec_view (CTruncate r f (vlen (st r f)) n) (st r f))
      (Md.mdtruncate r f (vlen (st r f)) n) tt (disk x)) as (s' & E & Hs' & Hc & Ho); [done|done| |].
    { cbn [spec_view]. unfold spec_truncate, vlen in *. cbn [call_rel call_fork] in *. destruct (st r f) as [l|]; [|done].
      destruct Hf as [n' Hf]. simpl in *. rewrite <- (Z2Nat.id n) at 2 by lia.
      apply (sim_truncate_covered r f n'); try done; [apply Hrep|lia]. }
    exists (set_disk s' x). split_and!; [by apply on_md_run|done|].
    intros HR r' f'. destruct (decide ((r', f') = (r, f))) as [[= -> ->]|Hne].
    + rewrite store_set_eq. by apply Hc.
    + rewrite store_set_ne by done. apply covered_same. by apply Ho.
  - intros st st' x H [[H1 H2] Hq]. split; [|done]. constructor; [done|]. intros r f Hv. rewrite H. auto.
  - intros c v x (_ & _ & Hp). destruct c; simpl in *; try exact I; destruct_and?; unfold vlen in *; repeat split; try assumption; lia.
Defined.

Section runs.
Context {B : Type} {buf : BufMgr (MemState Md.MdState) B}.
Local Instance md_switch : SmgrSwitch (MemState Md.MdState) := smgr_switch false.
Local Instance md_resources : SmgrResources md_switch := smgr_resources false.
Local Instance md_laws : StoreSmgr (smgrsw chosen) := md_store_smgr.

(** C3: smgr.c with md.c behind it implements the store. A backend that starts
    with no file open, on a disk that represents a store and a file system that
    does not fail, may interleave calls on forks with opening, pinning,
    unpinning, releasing and dropping relations and with ends of transactions:
    everything succeeds, every call is answered as the store answers it, also
    when the size it needs is one that smgr.c has cached, and the disk
    represents the store's forks afterwards. Asked of the calls ([sops_pre]) is
    what md.c asks of them ([md_pre]), with a fork unlinked only as part of its
    relation and measured before it is truncated, and of unpinning that the
    relation is pinned. *)
Theorem smgr_md_simulates_store ops st x (b : B) :
  md_rep st (disk x) → quiet (Md.md_fs (disk x)) → (∀ r f, Md.open_segs r f (disk x) = []) →
  sops_pre ops st (smgr_start x b) →
  ∃ s' : SmgrState (MemState Md.MdState) B, sops_run ops (smgr_start x b) = (Ok (sops_spec ops st).1, s') ∧
    md_rep (sops_spec ops st).2 (disk (sm_store s')).
Proof.
  intros Hrep Hq Ho Hp. destruct (sops_simulate ops st (smgr_start x b)) as (s' & E & [Hs' _ _]); [|by apply smgr_start_rep|done|].
  - apply smgr_start_inv. intros r (f & _ & Hf). by rewrite Ho in Hf.
  - exists s'. split; [exact E|apply Hs'].
Qed.
End runs.
End md.
End SmgrMd.
