(* ===== verification/SmgrMem.v ===== *)
(** * SmgrMem: smgr.c over memsmgr.c is a store of block lists

    memsmgr.c, as the storage manager of smgr.c, is an instance of [StoreSmgr] as
    md.c is, with conditions on the calls of its own, on a store that starts as
    the seed image. *)

From Stdlib Require Import ZArith Lia Bool.
From stdpp Require Import base tactics numbers list gmap relations.
From S2P Require Import Prelude RelPath MemSmgr MemSmgrInv MemSmgrRefine MemSmgrOps MemSmgrSim Md MdLocal Smgr SmgrInv SmgrManagers SmgrStore SmgrMd.
Import MdLocal Smgr SmgrInv SmgrManagers SmgrStore SmgrMd.

Local Open Scope Z_scope.
Local Open Scope pg_scope.

Module SmgrMem.
Section mem.
Context {env : Env} {mde : Md.MdEnv} {seed : SeedImage}.
Implicit Types (r : RelFileLocatorBackend) (f : ForkNumber) (x : MemState Md.MdState) (st : SmgrStore.store).

Definition mem_store st x : Prop := mem_wf x ∧ held_lwlocks x = ∅ ∧ same_views st x.

(** What md.c has open is no part of it. *)
Lemma mem_store_disk st x d : mem_store st x → mem_store st (set_disk d x).
Proof. intros ([[] ? Hf] & Hh & Hv). split; [|done]. constructor; [by constructor|done|]. intros r f. destruct (Hf r f). by constructor. Qed.

Lemma mdopen_returns r s : ∃ s', Md.mdopen r s = (Ok tt, s').
Proof. destruct (mdopen_forks all_forks r s) as (s' & E & _). by exists s'. Qed.

Lemma mem_call_store st c x :
  let v := st (call_rel c) (call_fork c) in
  mem_store st x → call_pre c v → call_room c x → call_sound c x →
  ∃ x', run_call c x = (Ok (spec_reply c v), x') ∧ mem_store (store_set st (call_rel c) (call_fork c) (spec_view c v)) x'.
Proof.
  intros v (Hwf & Hh & Hv) Hpre Hroom Hsound. subst v. rewrite <- (Hv (call_rel c)) in *.
  destruct (run_call_refines c x) as (x' & E & Hu); [done|right; rewrite Hh; set_solver|done|done|done|].
  exists x'. split; [done|]. split_and!; [apply Hu|by rewrite (up_held _ _ _ _ _ Hu)|]. intros r f. unfold store_set.
  case_decide as Hd; [destruct Hd as [-> ->]; apply Hu|]. by rewrite (up_frame _ _ _ _ _ Hu).
Qed.

#[export] Instance mem_store_smgr : StoreSmgr smgrsw_mem.
Proof.
  refine {| srep := mem_store;
            sready := λ r f v x, True;
            sclosed := λ r f x, True;
            spre := λ c v x, call_args c v ∧ call_pre c v ∧ call_room c x ∧ call_sound c x |}.
  - intros st r x Hx. destruct (mdopen_returns r (disk x)) as (s' & E). exists (set_disk s' x).
    split_and!; [by apply on_md_run|by apply mem_store_disk|done].
  - intros st r f x Hx. destruct (mdclose_closes r f (disk x)) as (s' & E & _). exists (set_disk s' x).
    split_and!; [by apply on_md_run|by apply mem_store_disk|done..].
  - intros st r f isRedo x Hx _ (_ & Hpre & Hroom & Hsound). destruct (mem_call_store st (CUnlink r f isRedo) x Hx Hpre Hroom Hsound) as (x' & E & Hx').
    exists x'. split_and!; [|done|done|done]. apply M_bind_ok in E as ([] & x1 & E & [= <-]). exact E.
  - intros st c x v Hio Hx (_ & Hpre & Hroom & Hsound). destruct (mem_call_store st c x Hx Hpre Hroom Hsound) as (x' & E & Hx').
    exists x'. split_and!; [by destruct c|done|done].
  - done.
  - intros st r f n x Hx (_ & Hpre & Hroom & Hsound) _.
    destruct (mem_call_store st (CTruncate r f (vlen (st r f)) n) x Hx Hpre Hroom Hsound) as (x' & E & Hx').
    exists x'. split_and!; [|done|done]. apply M_bind_ok in E as ([] & x1 & E & [= <-]). exact E.
  - intros st st' x H (Hwf & Hh & Hv). split_and!; [done|done|]. intros r f. by rewrite H.
  - by intros c v x [? _].
Defined.

(** Truncation sets the size, also to a larger one. *)
Lemma memtruncate_size r f cur n x x' u :
  mem_wf x → unlocked r x → memtruncate r f cur n x = (Ok u, x') →
  ∃ e, fork_lookup r f x' = Some e ∧ exists_ e = true ∧ nblocks e = n.
Proof.
  intros Hwf Hun H. unfold memtruncate in H. rewrite seed_mode in H. apply with_lock_ok in H as (h & x1 & H & _ & ->); [|done].
  minv H as e x2 Hg. apply mem_get_fork_entry_ok in Hg as (_ & _ & ->).
  minv H as e' x3 Hget. unfold fork_get, gets in Hget. rewrite with_entry_lookup in Hget. injection Hget as <- <-.
  minv H as u' x4 Hput. injection Hput as <- <-. injection H as <- <-.
  set (e0 := {| exists_ := true; on_disk := _; nblocks := n |}). exists e0. split; [|done].
  change (fork_lookup r f (fork_put r f e0 (with_entry r f (set_held h x))) = Some e0).
  rewrite fork_lookup_put. by rewrite decide_True.
Qed.

Section runs.
Context {B : Type} {buf : BufMgr (MemState Md.MdState) B}.
Local Instance mem_switch : SmgrSwitch (MemState Md.MdState) := smgr_switch true.
Local Instance mem_resources : SmgrResources mem_switch := smgr_resources true.
Local Instance mem_laws : StoreSmgr (smgrsw chosen) := mem_store_smgr.

(** C4: smgr.c with memsmgr.c behind it implements the store that starts as the
    seed image. From the creation of the shared memory on, with no file open,
    calls on forks interleaved with opening, pinning, unpinning, releasing and
    dropping relations and with ends of transactions succeed and are answered as
    the store answers them. Asked of the calls ([sops_pre]) is the contract of
    smgr.c and of memsmgr.c ([call_args], [call_pre]), room in the shared tables
    and the page arena ([call_room]) and that they are none of the three that
    memsmgr.c gets wrong ([call_sound]): a drop must not meet a fork that was
    created again in the place of a dropped one of the seed image. Only pinned
    relations are unpinned. *)
Theorem smgr_mem_simulates_store ops d (b : B) :
  (∀ r f, Md.open_segs r f d = []) →
  (∀ x, MemSmgrShmemInit (boot d) = (Ok tt, x) → sops_pre ops seed_image (smgr_start x b)) →
  ∃ x (s' : SmgrState (MemState Md.MdState) B), MemSmgrShmemInit (boot d) = (Ok tt, x) ∧
    sops_run ops (smgr_start x b) = (Ok (sops_spec ops seed_image).1, s') ∧
    ∀ r f, fork_view r f (sm_store s') = (sops_spec ops seed_image).2 r f.
Proof.
  intros Ho Hp. destruct (boot_wf d) as (x & E & Hwf & Hh & Hv). specialize (Hp x E). exists x.
  destruct (sops_simulate ops seed_image (smgr_start x b)) as (s' & E' & [Hs' _ _]);
    [|by apply smgr_start_rep; split_and!|done|].
  - apply smgr_start_inv. intros r (f & _ & Hf). injection E as <-. by rewrite Ho in Hf.
  - exists s'. split_and!; [exact E|exact E'|apply Hs'].
Qed.

(** A size cached during recovery outlives the fork's contents.  smgrcreate
    leaves the cached size alone, and creating a fork again during recovery
    empties it in memsmgr.c (md.c keeps it): smgrnblocks goes on answering the
    old size of a fork that has no blocks. *)
Theorem redo_create_stale_size st (s : SmgrState (MemState Md.MdState) B) r f l d :
  Md.InRecovery = true → mem_store st (sm_store s) → st r f = Some l → l ≠ [] → vlen (Some l) < Md.InvalidBlockNumber →
  SMgrRelationHash s !! r = Some d → smgr_which d = SMGR_MEM → smgr_cached_nblocks d f = vlen (Some l) →
  fork_table_room r f (sm_store s) →
  ∃ s', smgrcreate r f true s = (Ok tt, s') ∧ fork_view r f (sm_store s') = Some [] ∧
    smgrnblocks r f s' = (Ok (vlen (Some l)), s') ∧ 0 < vlen (Some l).
Proof.
  intros HR Hx Hl Hne Hmax Hd Hw Hc Hroom.
  destruct Hx as (Hwf & Hh & Hv).
  destruct (sim_create r f true (sm_store s) Hwf) as (x1 & E & Hu); [right; rewrite Hh; set_solver|done|by left|].
  destruct (hold_run (dispatch r (λ m, smgr_create m r f true)) s tt
    (λ s', SMgrRelationHash s' !! r = Some d ∧ sm_store s' = x1)) as (s' & E1 & Hd' & Hx1); [|by intros|].
  { eexists. split; [by eapply dispatch_run|done]. }
  exists s'. split_and!; [exact E1| | |destruct l; [done|unfold vlen; simpl; lia]].
  - rewrite Hx1. apply Hu.
  - unfold smgrnblocks, smgrnblocks_cached, mbind, M_bind, deref. rewrite Hd'. simpl. rewrite HR, Hc. simpl.
    assert ((vlen (Some l) =? Md.InvalidBlockNumber) = false) as E2 by (apply Z.eqb_neq; lia). rewrite E2. simpl. by rewrite E2.
Qed.

(** Truncating a fork to more blocks than it has.  smgrtruncate caches the old
    size, since, its comment says, the storage manager does nothing then.  md.c
    does nothing during recovery; memsmgr.c makes the fork larger, and smgrnblocks
    answers another size than the fork has. *)
Theorem truncate_upwards_grows st (s : SmgrState (MemState Md.MdState) B) r f l d n :
  Md.InRecovery = true → mem_store st (sm_store s) → st r f = Some l → vlen (Some l) < n < 2 ^ 32 →
  SMgrRelationHash s !! r = Some d → smgr_which d = SMGR_MEM → fork_table_room r f (sm_store s) →
  (∀ m, Md.mdtruncate r f (vlen (Some l)) n m = (Ok tt, m)) ∧
  ∃ s' l', smgrtruncate r [(f, vlen (Some l), n)] s = (Ok tt, s') ∧ fork_view r f (sm_store s') = Some l' ∧
    vlen (Some l') = n ∧ smgrnblocks r f s' = (Ok (vlen (Some l)), s').
Proof.
  intros HR (Hwf & Hh & Hv) Hl Hn Hd Hw Hroom. split.
  { intros m. unfold Md.mdtruncate. rewrite HR. by destruct (Z.ltb_spec (vlen (Some l)) n); [|lia]. }
  destruct (memtruncate_progress r f (vlen (Some l)) n (sm_store s) Hwf Hroom) as (x' & E).
  destruct (memtruncate_size r f (vlen (Some l)) n (sm_store s) x' tt Hwf) as (e & He & Hex & Hen);
    [right; rewrite Hh; set_solver|done|].
  unfold smgrtruncate. cbn [for_each]. unfold CacheInvalidateSmgr, modify at 1 2, mbind, M_bind.
  set (s1 := with_messages _ _). assert (SMgrRelationHash s1 !! r = Some d) as Hd1 by done.
  rewrite (update_run _ _ _ _ Hd1). set (s2 := with_relns _ s1).
  assert (SMgrRelationHash s2 !! r = Some (set_cached f Md.InvalidBlockNumber d)) as Hd2.
  { simpl. by rewrite lookup_insert_eq. }
  rewrite (dispatch_run r _ (λ m, smgr_truncate m r f _ n) s2 tt x' Hd2); [|done|done].
  rewrite (update_run r _ (set_cached f Md.InvalidBlockNumber d)) by done.
  do 2 eexists. split_and!; [reflexivity| | |].
  - unfold fork_view. simpl. by rewrite He, Hex.
  - unfold vlen. simpl. rewrite length_fmap, length_seqZ, Hen. unfold vlen in Hn. lia.
  - unfold smgrnblocks, smgrnblocks_cached, mbind, M_bind, deref. simpl. rewrite lookup_insert_eq. simpl.
    rewrite HR, decide_True by done. destruct (Z.ltb_spec (vlen (Some l)) n); [|lia].
    assert ((vlen (Some l) =? Md.InvalidBlockNumber) = false) as E2 by (apply Z.eqb_neq; unfold Md.InvalidBlockNumber; lia).
    rewrite E2. simpl. by rewrite E2.
Qed.
End runs.
End mem.
End SmgrMem.
