(* ===== verification/SmgrExamples.v ===== *)
(** * SmgrExamples: concrete runs of smgr.c

    The theorems about smgr.c on the disk of [MdExamples] and the seed directory
    of [MemSmgrExamples], during recovery, where cached sizes are used. *)

From Stdlib Require Import ZArith Lia Bool Strings.Byte.
From stdpp Require Import base tactics numbers list gmap strings relations.
From S2P Require Import Prelude RelPath MemSmgr MemSmgrInv MemSmgrRefine MemSmgrSim MemSmgrExamples Md FileSys MdInv MdSim MdExamples.
From S2P Require Import Smgr SmgrInv SmgrManagers SmgrStore SmgrMd SmgrMem.
Import MdInv MdSim Smgr SmgrInv SmgrManagers SmgrStore SmgrMd SmgrMem.

Local Open Scope Z_scope.
Local Open Scope pg_scope.

(** No buffers. *)
#[local] Instance no_buffers S : BufMgr S unit := {|
  DropRelationsAllBuffers := λ _ b, b;
  DropRelationBuffers := λ _ _ b, b;
  FlushRelationsAllBuffers := λ _, mret tt;
|}.

(** ** On disk *)

Definition disk_start : MemState Md.MdState := boot (md_closed fs_blank).

Section disk.
#[local] Existing Instances md_env.
Local Instance recovery_mde : Md.MdEnv.
Proof.
  refine {| Md.InRecovery := true; Md.IsBinaryUpgrade := false; Md.fastpg_immediate_unlink := false;
    Md.zero_damaged_pages := false; Md.file_extend_method := Md.FILE_EXTEND_METHOD_POSIX_FALLOCATE;
    Md.PG_IOV_MAX := 32; Md.TablespaceCreateDbspace := λ _ _ _, Ok tt |}.
  - abstract done.
  - abstract done.
Defined.
#[local] Existing Instances md_switch md_resources md_laws.

(** A relation grows, with its size cached, is released, cut and dropped; its
    object is pinned over the end of a transaction. *)
Definition disk_ops : list sop :=
  [SPin ex_rel; SCall (CCreate ex_rel MAIN_FORKNUM true); SCall (CNblocks ex_rel MAIN_FORKNUM);
   SCall (CExtend ex_rel MAIN_FORKNUM 0 [x01; x02] false); SCall (CZeroExtend ex_rel MAIN_FORKNUM 1 3 true);
   SCall (CNblocks ex_rel MAIN_FORKNUM); SEOXact; SCall (CTruncate ex_rel MAIN_FORKNUM 4 1); SRelease ex_rel;
   SCall (CReadv ex_rel MAIN_FORKNUM 0 1); SCall (CNblocks ex_rel MAIN_FORKNUM); SUnpin ex_rel; SEOXact;
   SCall (CExists ex_rel MAIN_FORKNUM); SDrop ex_rel false; SReleaseAll].

(** No removal of the fork is pending: the requests, evaluated, do not name it. *)
Local Ltac not_awaited :=
  let Hv := fresh in let H := fresh in
  intros Hv H; exfalso; revert Hv H; vm_compute; intros Hv H;
  first [discriminate Hv
        |repeat match goal with
         | E : list_elem_of _ _ |- _ => inversion E; clear E; subst
         | E : _ ∈ _ |- _ => inversion E; clear E; subst
         end].

Lemma disk_ops_pre : sops_pre disk_ops (λ _ _, None) (smgr_start disk_start ()).
Proof.
  assert (∀ f, f ≠ InvalidForkNumber → valid_fork ex_rel f) as Hval by (intros f; split; [apply ex_rel_valid|done]).
  assert (∀ c v s, call_rel c = ex_rel → call_fork c ≠ InvalidForkNumber →
    (valid_fork (call_rel c) (call_fork c) → md_pre c v s) → md_pre c v s) as Hpre.
  { intros c v s Hr Hf H. apply H. rewrite Hr. auto. }
  unfold disk_ops. cbn [sops_pre].
  repeat match goal with
  | |- True => exact I
  | |- sop_pre (SUnpin _) _ _ ∧ _ => split; [eexists; split; [vm_compute; reflexivity|vm_compute; reflexivity]|]
  | |- sop_pre (SCall ?c) _ _ ∧ _ => split; [cbn [sop_pre]|]
  | |- sop_pre (SDrop _ _) _ _ ∧ _ => split; [cbn [sop_pre]; unfold all_forks at 1; cbn [unlink_pre]|]
  | |- sop_pre _ _ _ ∧ _ => split; [exact I|]
  | |- spre _ _ _ => apply Hpre; [reflexivity|discriminate|intros; split; [assumption|split; [not_awaited|]]];
      vm_compute; repeat split; (done || lia || (by repeat constructor) || auto)
  | |- spre _ _ _ ∧ _ => split
  end.
Qed.

Lemma disk_open r f : Md.open_segs r f (disk disk_start) = [].
Proof. apply md_closed_open. Qed.

Lemma smgr_md_simulates_store_witness :
  ∃ s', sops_run disk_ops (smgr_start disk_start ()) =
    (Ok [RUnit; RUnit; RNum 0; RUnit; RUnit; RNum 4; RUnit; RUnit; RUnit; RBlocks [[x01; x02]]; RNum 1; RUnit; RUnit;
         RBool true; RUnit; RUnit], s').
Proof.
  destruct (smgr_md_simulates_store disk_ops (λ _ _, None) disk_start ()) as (s' & H & _);
    [apply md_blank_rep|by repeat constructor|apply disk_open|apply disk_ops_pre|]. exists s'. rewrite H. reflexivity.
Defined.

Example disk_ops_evaluate :
  (sops_run disk_ops (smgr_start disk_start ())).1 =
    Ok [RUnit; RUnit; RNum 0; RUnit; RUnit; RNum 4; RUnit; RUnit; RUnit; RBlocks [[x01; x02]]; RNum 1; RUnit; RUnit;
         RBool true; RUnit; RUnit].
Proof. vm_compute. reflexivity. Qed.

(** A file that is left open when the transaction ends. *)
Lemma eoxact_closes_unpinned_witness :
  let s := (smgrcreate ex_rel MAIN_FORKNUM false (smgropen (locator ex_rel) (backend ex_rel) (smgr_start disk_start ())).2).2 in
  Md.open_segs ex_rel MAIN_FORKNUM (disk (sm_store s)) ≠ [] ∧
  ∃ s', AtEOXact_SMgr s = (Ok tt, s') ∧ unpinned_relns s' = [] ∧ ¬ opened ex_rel (sm_store s').
Proof.
  set (s := (smgrcreate _ _ _ _).2). split; [vm_compute; discriminate|].
  destruct (eoxact_closes_unpinned (buf := no_buffers _) (λ _ _ H, H) disk_start () s) as (s' & H1 & H2 & _ & H4 & H5).
  - intros r (f & _ & Hf). by rewrite disk_open in Hf.
  - eapply rtc_l; [exact (step_api _ _ _ (api_open (locator ex_rel) (backend ex_rel)))|].
    eapply rtc_l; [exact (step_api _ _ _ (api_create ex_rel MAIN_FORKNUM false))|]. apply rtc_refl.
  - exists s'. split; [exact H1|]. split; [exact H2|]. intros Ho. destruct (H5 ex_rel Ho) as (d & Hd & Hp).
    apply H4 in Hd as [Hd _]. revert Hp. injection Hd as <-. vm_compute. discriminate.
Defined.
End disk.

(** ** In memory *)

Section memory.
#[local] Existing Instances ex_env seeded_mde ex_seed mem_switch mem_resources mem_laws.

Definition mem_start : MemState Md.MdState := (MemSmgrShmemInit (boot (md_closed fs_blank))).2.

(** The relation of the seed directory, and another fork of it. *)
Definition mem_ops : list sop :=
  [SCall (CNblocks ex_rel MAIN_FORKNUM); SPin ex_rel; SCall (CExtend ex_rel MAIN_FORKNUM 2 ex_block1 false);
   SCall (CNblocks ex_rel MAIN_FORKNUM); SEOXact; SCall (CTruncate ex_rel MAIN_FORKNUM 3 1); SRelease ex_rel;
   SCall (CNblocks ex_rel MAIN_FORKNUM); SCall (CCreate ex_rel FSM_FORKNUM true); SUnpin ex_rel; SEOXact;
   SCall (CReadv ex_rel MAIN_FORKNUM 0 1); SReleaseAll].

Lemma mem_ops_pre x : MemSmgrShmemInit (boot (md_closed fs_blank)) = (Ok tt, x) → sops_pre mem_ops seed_image (smgr_start x ()).
Proof.
  intros [= <-]. unfold mem_ops. cbn [sops_pre].
  repeat match goal with
  | |- True => exact I
  | |- sop_pre (SUnpin _) _ _ ∧ _ => split; [eexists; split; [vm_compute; reflexivity|vm_compute; reflexivity]|]
  | |- sop_pre (SCall ?c) _ _ ∧ _ => split; [cbn [sop_pre]|]
  | |- sop_pre _ _ _ ∧ _ => split; [exact I|]
  | |- spre _ _ _ => vm_compute; repeat split; auto; discriminate
  | |- spre _ _ _ ∧ _ => split
  end.
Qed.

Lemma smgr_mem_simulates_store_witness :
  ∃ s', sops_run mem_ops (smgr_start mem_start ()) =
    (Ok [RNum 2; RUnit; RUnit; RNum 3; RUnit; RUnit; RUnit; RNum 1; RUnit; RUnit; RUnit; RBlocks [ex_block1]; RUnit], s') ∧
    fork_view ex_rel MAIN_FORKNUM (sm_store s') = Some [ex_block1].
Proof.
  destruct (smgr_mem_simulates_store mem_ops (md_closed fs_blank) ()) as (x & s' & [= <-] & H1 & H2);
    [intros r f; apply md_closed_open|apply mem_ops_pre|]. exists s'. split; [exact H1|]. rewrite H2. reflexivity.
Defined.

(** Two blocks of the seed directory, whose number is cached. *)
Definition opened_start : SmgrState (MemState Md.MdState) () := (open_reln ex_rel (smgr_start mem_start ())).2.
Definition cached_start : SmgrState (MemState Md.MdState) () := (smgrnblocks ex_rel MAIN_FORKNUM opened_start).2.

Lemma cached_start_store : mem_store seed_image (sm_store cached_start).
Proof.
  destruct (boot_wf (md_closed fs_blank)) as (x & E & Hwf & Hh & Hv). injection E as <-.
  destruct (open_run seed_image ex_rel (smgr_start mem_start ())) as (s1 & E1 & Hs1); [by apply smgr_start_rep; split_and!|].
  destruct (nblocks_run seed_image ex_rel MAIN_FORKNUM s1 Hs1) as (s2 & E2 & [[Hs2 _ _] _] & _).
  - assert (s1 = opened_start) as -> by (unfold opened_start; by rewrite E1). vm_compute; repeat split; auto; discriminate.
  - unfold cached_start, opened_start. rewrite E1. cbn [snd]. rewrite E2. exact Hs2.
Qed.

Lemma redo_create_stale_size_witness :
  ∃ s', smgrcreate ex_rel MAIN_FORKNUM true cached_start = (Ok tt, s') ∧ fork_view ex_rel MAIN_FORKNUM (sm_store s') = Some [] ∧
    smgrnblocks ex_rel MAIN_FORKNUM s' = (Ok 2, s') ∧ 0 < 2.
Proof.
  eapply (redo_create_stale_size seed_image cached_start ex_rel MAIN_FORKNUM [ex_block1; ex_block2]);
    [reflexivity|apply cached_start_store|reflexivity|discriminate|reflexivity|vm_compute; reflexivity|reflexivity|reflexivity|].
  vm_compute; repeat split; auto; discriminate.
Defined.

Lemma truncate_upwards_grows_witness :
  (∀ m, Md.mdtruncate ex_rel MAIN_FORKNUM 2 5 m = (Ok tt, m)) ∧
  ∃ s' l', smgrtruncate ex_rel [(MAIN_FORKNUM, 2, 5)] cached_start = (Ok tt, s') ∧
    fork_view ex_rel MAIN_FORKNUM (sm_store s') = Some l' ∧ vlen (Some l') = 5 ∧
    smgrnblocks ex_rel MAIN_FORKNUM s' = (Ok 2, s').
Proof.
  eapply (truncate_upwards_grows seed_image cached_start ex_rel MAIN_FORKNUM [ex_block1; ex_block2] _ 5);
    [reflexivity|apply cached_start_store|reflexivity|split; reflexivity|vm_compute; reflexivity|reflexivity|].
  vm_compute; repeat split; auto; discriminate.
Defined.
End memory.
