(* ===== verification/Dynahash.v ===== *)
(** * Dynahash: dynamic hash tables

    src/backend/utils/hash/dynahash.c: tables of linked chains that grow by
    splitting one bucket at a time.  Elements live in a heap and are linked by
    address, as in the source; a [HASHBUCKET *] is a [slot], either a bucket
    header or the link of an element.  Keys are memory, and the functions that
    hash, compare and copy them are fields of the table.  What an element's
    memory holds before it is first filled is the parameter [uninit]; whether
    the allocator returns memory is decided by a schedule.  Following an address
    that is no element is an error here. *)

From Stdlib Require Import ZArith Lia Bool Strings.Byte.
From stdpp Require Import base tactics numbers list gmap strings.
From S2P Require Import Prelude HashFn.

Local Open Scope Z_scope.
Local Open Scope pg_scope.

Module Dynahash.

Definition HASH_SEGSIZE : Z := 256.
Definition HASH_SEGSIZE_SHIFT : Z := 8.
Definition DEF_DIRSIZE : Z := 256.
Definition NUM_FREELISTS : Z := 32.
Definition NO_MAX_DSIZE : Z := -1.
Definition MAX_SEQ_SCANS : Z := 100.
Definition INT_MAX : Z := 2 ^ 31 - 1.
Definition PG_INT64_MAX : Z := 2 ^ 63 - 1.

(** Flags of hash_create. *)
Definition HASH_PARTITION : Z := 0x0001.
Definition HASH_STRINGS : Z := 0x0010.
Definition HASH_BLOBS : Z := 0x0020.
Definition HASH_FUNCTION : Z := 0x0040.
Definition HASH_COMPARE : Z := 0x0080.
Definition HASH_KEYCOPY : Z := 0x0100.
Definition HASH_SHARED_MEM : Z := 0x0800.
Definition HASH_ATTACH : Z := 0x1000.
Definition HASH_FIXED_SIZE : Z := 0x2000.
Definition has (flags flag : Z) : bool := negb (Z.land flags flag =? 0).

Inductive HASHACTION : Type := HASH_FIND | HASH_ENTER | HASH_REMOVE | HASH_ENTER_NULL.

(** ** Data *)

Abbreviation ptr := Z (only parsing).

(** The element and the entry behind it: the key and the caller's data. *)
Record HASHELEMENT (V : Type) : Type := {
  link : option ptr;
  hashvalue : Z;
  elem_key : list byte;
  elem_data : V;
}.
Arguments link {V} _.
Arguments hashvalue {V} _.
Arguments elem_key {V} _.
Arguments elem_data {V} _.

(** Where a link to an element is kept. *)
Inductive slot : Type :=
| SBucket (segment_num segment_ndx : Z)
| SLink (p : ptr).

Record FreeListData : Type := {
  nentries : Z;
  freeList : option ptr;
}.

Record HASHHDR : Type := {
  freeLists : list FreeListData;
  dsize : Z;
  nsegs : Z;
  max_bucket : Z;
  high_mask : Z;
  low_mask : Z;
  entrysize : Z;
  num_partitions : Z;
  max_dsize : Z;
  nelem_alloc : Z;
  isfixed : bool;
}.

Record HTAB (V : Type) : Type := {
  hctl : HASHHDR;
  dir : list (option (list (option ptr)));
  hash : list byte → Z → Z;
  match_ : list byte → list byte → Z → Z;
  keycopy : list byte → Z → list byte;
  isshared : bool;
  frozen : bool;
  keysize : Z;
  heap : gmap ptr (HASHELEMENT V);
  next_ptr : ptr;
}.
Arguments hctl {V} _.
Arguments dir {V} _.
Arguments hash {V} _ _ _.
Arguments match_ {V} _ _ _ _.
Arguments keycopy {V} _ _ _.
Arguments isshared {V} _.
Arguments frozen {V} _.
Arguments keysize {V} _.
Arguments heap {V} _.
Arguments next_ptr {V} _.

(** A table at address [self], the scans of the process (the table scanned and
    the transaction nest level), and what the allocator will answer. *)
Record HashState (V : Type) : Type := {
  self : Z;
  tab : HTAB V;
  seq_scans : list (Z * Z);
  nest_level : Z;
  alloc_schedule : list bool;
}.
Arguments self {V} _.
Arguments tab {V} _.
Arguments seq_scans {V} _.
Arguments nest_level {V} _.
Arguments alloc_schedule {V} _.

(** [info_string_hash]: whether [info_hash] is the function string_hash. *)
Record HASHCTL : Type := {
  info_num_partitions : Z;
  info_keysize : Z;
  info_entrysize : Z;
  info_hash : list byte → Z → Z;
  info_string_hash : bool;
  info_match : list byte → list byte → Z → Z;
  info_keycopy : list byte → Z → list byte;
}.

Record HASH_SEQ_STATUS : Type := {
  curBucket : Z;
  curEntry : option ptr;
  hasHashvalue : bool;
  seq_hashvalue : Z;
}.

(** ** Sizes *)

Definition pg_ceil_log2_64 (num : Z) : Z := if num <? 2 then 0 else Z.log2 (num - 1) + 1.
Definition my_log2 (num : Z) : Z :=
  pg_ceil_log2_64 (if PG_INT64_MAX / 2 <? num then PG_INT64_MAX / 2 else num).
Definition next_pow2_int64 (num : Z) : Z := Z.shiftl 1 (my_log2 num).
Definition next_pow2_int (num : Z) : Z := Z.shiftl 1 (my_log2 (if INT_MAX / 2 <? num then INT_MAX / 2 else num)).

Definition MAXALIGN (n : Z) : Z := (n + 7) / 8 * 8.
Definition sizeof_HASHELEMENT : Z := 16.
Definition sizeof_HASHSEGMENT : Z := 8.
Definition sizeof_HASHBUCKET : Z := 8.

(** [do { allocSize <<= 1; nelem_alloc = allocSize / elementSize; } while (nelem_alloc < 32)] *)
Fixpoint choose_nelem_alloc_loop (fuel : nat) (elementSize allocSize : Z) : option Z :=
  match fuel with
  | O => None
  | S fuel' =>
      let allocSize := Z.shiftl allocSize 1 in
      let nelem_alloc := allocSize / elementSize in
      if nelem_alloc <? 32 then choose_nelem_alloc_loop fuel' elementSize allocSize else Some nelem_alloc
  end.
Definition element_size (entrysize : Z) : Z := MAXALIGN sizeof_HASHELEMENT + MAXALIGN entrysize.
Definition choose_nelem_alloc (entrysize : Z) : option Z :=
  choose_nelem_alloc_loop 64 (element_size entrysize) (32 * 4).

Definition hash_estimate_size (sizeof_HASHHDR num_entries entrysize : Z) : option Z :=
  let nBuckets := next_pow2_int64 num_entries in
  let nSegments := next_pow2_int64 ((nBuckets - 1) / HASH_SEGSIZE + 1) in
  let nDirEntries := Z.max DEF_DIRSIZE nSegments in
  let size := MAXALIGN sizeof_HASHHDR in
  let size := size + nDirEntries * sizeof_HASHSEGMENT in
  let size := size + nSegments * MAXALIGN (HASH_SEGSIZE * sizeof_HASHBUCKET) in
  elementAllocCnt ← choose_nelem_alloc entrysize;
  let nElementAllocs := (num_entries - 1) / elementAllocCnt + 1 in
  Some (size + nElementAllocs * (elementAllocCnt * element_size entrysize)).

(** ** Key functions *)

Definition tag_hash (key : list byte) (keysize : Z) : Z := hash_bytes false false (take (Z.to_nat keysize) key).
Definition uint32_hash (key : list byte) (keysize : Z) : Z := hash_bytes_uint32 (load32 false key 0).

(** The bytes before the first NUL. *)
Fixpoint cstring (key : list byte) : list byte :=
  match key with
  | [] => []
  | c :: key' => if Byte.eqb c x00 then [] else c :: cstring key'
  end.
Definition string_hash (key : list byte) (keysize : Z) : Z :=
  hash_bytes false false (take (Z.to_nat (Z.min (Z.of_nat (length (cstring key))) (keysize - 1))) key).

(** The sign of the first difference. *)
Fixpoint compare_bytes (a b : list byte) : Z :=
  match a, b with
  | x :: a', y :: b' =>
      if byte_val x =? byte_val y then compare_bytes a' b' else if byte_val x <? byte_val y then -1 else 1
  | [], _ :: _ => -1
  | _ :: _, [] => 1
  | [], [] => 0
  end.
Definition memcmp (a b : list byte) (n : Z) : Z := compare_bytes (take (Z.to_nat n) a) (take (Z.to_nat n) b).
Definition strncmp (a b : list byte) (n : Z) : Z :=
  compare_bytes (take (Z.to_nat n) (cstring a)) (take (Z.to_nat n) (cstring b)).
Definition string_compare (key1 key2 : list byte) (keysize : Z) : Z := strncmp key1 key2 (keysize - 1).

Definition memcpy (src : list byte) (n : Z) : list byte := take (Z.to_nat n) src.
Definition strlcpy (src : list byte) (n : Z) : list byte := take (Z.to_nat (n - 1)) (cstring src) ++ [x00].

(** ** The code *)

Section dynahash.
Context {V : Type} (uninit : ptr → HASHELEMENT V).
Abbreviation MM := (M (HashState V)) (only parsing).
Implicit Types (t : HTAB V) (s : HashState V) (h : HASHHDR) (p : ptr).

Definition with_tab t s : HashState V :=
  {| self := self s; tab := t; seq_scans := seq_scans s; nest_level := nest_level s; alloc_schedule := alloc_schedule s |}.
Definition with_scans l s : HashState V :=
  {| self := self s; tab := tab s; seq_scans := l; nest_level := nest_level s; alloc_schedule := alloc_schedule s |}.
Definition with_schedule l s : HashState V :=
  {| self := self s; tab := tab s; seq_scans := seq_scans s; nest_level := nest_level s; alloc_schedule := l |}.

Definition with_hctl h t : HTAB V :=
  {| hctl := h; dir := dir t; hash := hash t; match_ := match_ t; keycopy := keycopy t; isshared := isshared t;
     frozen := frozen t; keysize := keysize t; heap := heap t; next_ptr := next_ptr t |}.
Definition with_dir d t : HTAB V :=
  {| hctl := hctl t; dir := d; hash := hash t; match_ := match_ t; keycopy := keycopy t; isshared := isshared t;
     frozen := frozen t; keysize := keysize t; heap := heap t; next_ptr := next_ptr t |}.
Definition with_heap m n t : HTAB V :=
  {| hctl := hctl t; dir := dir t; hash := hash t; match_ := match_ t; keycopy := keycopy t; isshared := isshared t;
     frozen := frozen t; keysize := keysize t; heap := m; next_ptr := n |}.
Definition with_frozen b t : HTAB V :=
  {| hctl := hctl t; dir := dir t; hash := hash t; match_ := match_ t; keycopy := keycopy t; isshared := isshared t;
     frozen := b; keysize := keysize t; heap := heap t; next_ptr := next_ptr t |}.

Definition with_freeLists l h : HASHHDR :=
  {| freeLists := l; dsize := dsize h; nsegs := nsegs h; max_bucket := max_bucket h; high_mask := high_mask h;
     low_mask := low_mask h; entrysize := entrysize h; num_partitions := num_partitions h; max_dsize := max_dsize h;
     nelem_alloc := nelem_alloc h; isfixed := isfixed h |}.
Definition with_dsize d h : HASHHDR :=
  {| freeLists := freeLists h; dsize := d; nsegs := nsegs h; max_bucket := max_bucket h; high_mask := high_mask h;
     low_mask := low_mask h; entrysize := entrysize h; num_partitions := num_partitions h; max_dsize := max_dsize h;
     nelem_alloc := nelem_alloc h; isfixed := isfixed h |}.
Definition with_nsegs n h : HASHHDR :=
  {| freeLists := freeLists h; dsize := dsize h; nsegs := n; max_bucket := max_bucket h; high_mask := high_mask h;
     low_mask := low_mask h; entrysize := entrysize h; num_partitions := num_partitions h; max_dsize := max_dsize h;
     nelem_alloc := nelem_alloc h; isfixed := isfixed h |}.
Definition with_masks mx hi lo h : HASHHDR :=
  {| freeLists := freeLists h; dsize := dsize h; nsegs := nsegs h; max_bucket := mx; high_mask := hi;
     low_mask := lo; entrysize := entrysize h; num_partitions := num_partitions h; max_dsize := max_dsize h;
     nelem_alloc := nelem_alloc h; isfixed := isfixed h |}.

Definition on_tab (g : HTAB V → HTAB V) : MM unit := modify (λ s, with_tab (g (tab s)) s).
Definition on_hctl (g : HASHHDR → HASHHDR) : MM unit := on_tab (λ t, with_hctl (g (hctl t)) t).

(** [hashp->alloc(...)]: whether it returned memory. *)
Definition alloc : MM bool := λ s,
  match alloc_schedule s with
  | [] => (Ok true, s)
  | b :: l => (Ok b, with_schedule l s)
  end.

Definition set_link (l : option ptr) (e : HASHELEMENT V) : HASHELEMENT V :=
  {| link := l; hashvalue := hashvalue e; elem_key := elem_key e; elem_data := elem_data e |}.
Definition set_key (hv : Z) (k : list byte) (e : HASHELEMENT V) : HASHELEMENT V :=
  {| link := link e; hashvalue := hv; elem_key := k; elem_data := elem_data e |}.

Definition element p : MM (HASHELEMENT V) := λ s,
  match heap (tab s) !! p with
  | Some e => (Ok e, s)
  | None => (Error ERRCODE_INTERNAL_ERROR "no such element", s)
  end.
Definition put_element p (e : HASHELEMENT V) : MM unit :=
  on_tab (λ t, with_heap (<[p := e]> (heap t)) (next_ptr t) t).

(** [*ptr] and [*ptr = p] for a [HASHBUCKET *]. *)
Definition read_slot (b : slot) : MM (option ptr) :=
  match b with
  | SLink p => e ← element p; mret (link e)
  | SBucket segment_num segment_ndx =>
      d ← gets (λ s, dir (tab s) !! Z.to_nat segment_num);
      match d with
      | Some (Some seg) =>
          match seg !! Z.to_nat segment_ndx with
          | Some p => mret p
          | None => ereport ERRCODE_INTERNAL_ERROR "no such bucket"
          end
      | _ => ereport ERRCODE_INTERNAL_ERROR "no such segment"
      end
  end.
Definition write_slot (b : slot) (v : option ptr) : MM unit :=
  match b with
  | SLink p => e ← element p; put_element p (set_link v e)
  | SBucket segment_num segment_ndx =>
      on_tab (λ t, with_dir (alter (option_map (λ seg, <[Z.to_nat segment_ndx := v]> seg)) (Z.to_nat segment_num) (dir t)) t)
  end.

Definition IS_PARTITIONED h : bool := negb (num_partitions h =? 0).
Definition FREELIST_IDX h (hashcode : Z) : Z := if IS_PARTITIONED h then hashcode mod NUM_FREELISTS else 0.

Definition no_freelist : FreeListData := {| nentries := 0; freeList := None |}.
Definition get_freelist (idx : Z) h : FreeListData := nth (Z.to_nat idx) (freeLists h) no_freelist.
Definition put_freelist (idx : Z) (fl : FreeListData) : MM unit :=
  on_hctl (λ h, with_freeLists (<[Z.to_nat idx := fl]> (freeLists h)) h).

(** *** Scan tracking *)

Definition register_seq_scan : MM unit :=
  l ← gets seq_scans;
  if MAX_SEQ_SCANS <=? Z.of_nat (length l) then ereport ERRCODE_INTERNAL_ERROR "too many active hash_seq_search scans"
  else modify (λ s, with_scans (l ++ [(self s, nest_level s)]) s).

(** The last element moves to place [i]. *)
Definition remove_scan (i : nat) (l : list (Z * Z)) : list (Z * Z) :=
  match last l with
  | Some x => removelast (<[i := x]> l)
  | None => l
  end.

Fixpoint deregister_loop (i : nat) : MM unit :=
  match i with
  | O => ereport ERRCODE_INTERNAL_ERROR "no hash_seq_search scan for hash table"
  | S i' =>
      l ← gets seq_scans;
      me ← gets self;
      match l !! i' with
      | Some (t, _) => if t =? me then modify (with_scans (remove_scan i' l)) else deregister_loop i'
      | None => deregister_loop i'
      end
  end.
Definition deregister_seq_scan : MM unit := l ← gets seq_scans; deregister_loop (length l).

Definition has_seq_scans : MM bool := gets (λ s, existsb (λ '(t, _), t =? self s) (seq_scans s)).

Definition AtEOXact_HashTables (isCommit : bool) : MM unit := modify (with_scans []).

Fixpoint eosubxact_loop (nestDepth : Z) (i : nat) : MM unit :=
  match i with
  | O => mret tt
  | S i' =>
      l ← gets seq_scans;
      (match l !! i' with
       | Some (_, level) => if nestDepth <=? level then modify (with_scans (remove_scan i' l)) else mret tt
       | None => mret tt
       end);;
      eosubxact_loop nestDepth i'
  end.
Definition AtEOSubXact_HashTables (isCommit : bool) (nestDepth : Z) : MM unit :=
  l ← gets seq_scans; eosubxact_loop nestDepth (length l).

(** *** Allocation *)

(** [seg_alloc(hashp)]: a segment of empty buckets. *)
Definition seg_alloc : MM (option (list (option ptr))) :=
  ok ← alloc;
  mret (if ok : bool then Some (replicate (Z.to_nat HASH_SEGSIZE) None) else None).

Definition dir_realloc : MM bool :=
  h ← gets (hctl ∘ tab);
  if negb (max_dsize h =? NO_MAX_DSIZE) then mret false
  else
    let new_dsize := Z.shiftl (dsize h) 1 in
    ok ← alloc;
    if ok : bool then
      on_tab (λ t, with_dir (dir t ++ replicate (Z.to_nat (new_dsize - dsize h)) None) t);;
      on_hctl (with_dsize new_dsize);;
      mret true
    else mret false.

Fixpoint link_elements (nelem : nat) (tmpElement : ptr) (prevElement : option ptr) : MM (option ptr) :=
  match nelem with
  | O => mret prevElement
  | S n =>
      put_element tmpElement (set_link prevElement (uninit tmpElement));;
      link_elements n (tmpElement + 1) (Some tmpElement)
  end.

Definition element_alloc (nelem freelist_idx : Z) : MM bool :=
  h ← gets (hctl ∘ tab);
  if isfixed h then mret false
  else
    ok ← alloc;
    if negb ok then mret false
    else
      firstElement ← gets (next_ptr ∘ tab);
      on_tab (λ t, with_heap (heap t) (firstElement + nelem) t);;
      prevElement ← link_elements (Z.to_nat nelem) firstElement None;
      fl ← gets (get_freelist freelist_idx ∘ hctl ∘ tab);
      write_slot (SLink firstElement) (freeList fl);;
      put_freelist freelist_idx {| nentries := nentries fl; freeList := prevElement |};;
      mret true.

(** The first free element of the lists behind [idx], which loses it. *)
Fixpoint borrow_loop (n : nat) (freelist_idx borrow_from_idx : Z) : MM (option ptr) :=
  match n with
  | O => mret None
  | S n' =>
      let borrow_from_idx := (borrow_from_idx + 1) mod NUM_FREELISTS in
      if borrow_from_idx =? freelist_idx then mret None
      else
        fl ← gets (get_freelist borrow_from_idx ∘ hctl ∘ tab);
        match freeList fl with
        | Some newElement =>
            e ← element newElement;
            put_freelist borrow_from_idx {| nentries := nentries fl; freeList := link e |};;
            own ← gets (get_freelist freelist_idx ∘ hctl ∘ tab);
            put_freelist freelist_idx {| nentries := nentries own + 1; freeList := freeList own |};;
            mret (Some newElement)
        | None => borrow_loop n' freelist_idx borrow_from_idx
        end
  end.

Fixpoint get_hash_entry_loop (fuel : nat) (freelist_idx : Z) : MM (option ptr) :=
  match fuel with
  | O => ereport ERRCODE_NONTERMINATING "get_hash_entry"
  | S fuel' =>
      h ← gets (hctl ∘ tab);
      let fl := get_freelist freelist_idx h in
      match freeList fl with
      | Some newElement =>
          e ← element newElement;
          put_freelist freelist_idx {| nentries := nentries fl + 1; freeList := link e |};;
          mret (Some newElement)
      | None =>
          ok ← element_alloc (nelem_alloc h) freelist_idx;
          if negb ok then
            if negb (IS_PARTITIONED h) then mret None
            else borrow_loop (Z.to_nat NUM_FREELISTS) freelist_idx freelist_idx
          else get_hash_entry_loop fuel' freelist_idx
      end
  end.
Definition get_hash_entry : Z → MM (option ptr) := get_hash_entry_loop 2.

(** *** Lookup *)

Definition calc_bucket h (hash_val : Z) : Z :=
  let bucket := Z.land hash_val (high_mask h) in
  if max_bucket h <? bucket then Z.land bucket (low_mask h) else bucket.

Definition hash_corrupted {A} : MM A := ereport ERRCODE_DATA_CORRUPTED "hash table corrupted".

Definition hash_initial_lookup (hv : Z) : MM (Z * slot) :=
  h ← gets (hctl ∘ tab);
  let bucket := calc_bucket h hv in
  let segment_num := Z.shiftr bucket HASH_SEGSIZE_SHIFT in
  let segment_ndx := Z.land bucket (HASH_SEGSIZE - 1) in
  segp ← gets (λ s, dir (tab s) !! Z.to_nat segment_num);
  match segp with
  | Some (Some _) => mret (bucket, SBucket segment_num segment_ndx)
  | _ => hash_corrupted
  end.

(** The loops that follow a chain: the first element [stop] accepts, or NULL, and
    where the link to it is. *)
Fixpoint follow_chain (fuel : nat) (stop : ptr → HASHELEMENT V → bool) (prevBucketPtr : slot) : MM (option ptr * slot) :=
  match fuel with
  | O => ereport ERRCODE_NONTERMINATING "collision chain"
  | S fuel' =>
      currBucket ← read_slot prevBucketPtr;
      match currBucket with
      | None => mret (None, prevBucketPtr)
      | Some p =>
          e ← element p;
          if stop p e then mret (Some p, prevBucketPtr) else follow_chain fuel' stop (SLink p)
      end
  end.
Definition chain_fuel t : nat := S (size (heap t)).
Definition follow (stop : ptr → HASHELEMENT V → bool) (prevBucketPtr : slot) : MM (option ptr * slot) :=
  t ← gets tab; follow_chain (chain_fuel t) stop prevBucketPtr.

(** [currBucket->hashvalue == hashvalue && match(ELEMENTKEY(currBucket), keyPtr, keysize) == 0] *)
Definition key_matches t (key : list byte) (hv : Z) (p : ptr) (e : HASHELEMENT V) : bool :=
  (hashvalue e =? hv) && (match_ t (elem_key e) key (keysize t) =? 0).

(** *** Growing *)

Fixpoint relocate_loop (fuel : nat) (old_bucket : Z) (currElement : option ptr) (oldlink newlink : slot) : MM (slot * slot) :=
  match fuel with
  | O => ereport ERRCODE_NONTERMINATING "expand_table"
  | S fuel' =>
      match currElement with
      | None => mret (oldlink, newlink)
      | Some p =>
          e ← element p;
          let nextElement := link e in
          h ← gets (hctl ∘ tab);
          if calc_bucket h (hashvalue e) =? old_bucket then
            write_slot oldlink (Some p);;
            relocate_loop fuel' old_bucket nextElement (SLink p) newlink
          else
            write_slot newlink (Some p);;
            relocate_loop fuel' old_bucket nextElement oldlink (SLink p)
      end
  end.

Definition bucket_slot (bucket : Z) : slot :=
  SBucket (Z.shiftr bucket HASH_SEGSIZE_SHIFT) (Z.land bucket (HASH_SEGSIZE - 1)).

(** Whether there is a segment for bucket [new_bucket], made if need be. *)
Definition expand_segment (new_bucket : Z) : MM bool :=
  h ← gets (hctl ∘ tab);
  let new_segnum := Z.shiftr new_bucket HASH_SEGSIZE_SHIFT in
  if nsegs h <=? new_segnum then
    room ← (if dsize h <=? new_segnum then dir_realloc else mret true);
    if negb room then mret false
    else
      seg ← seg_alloc;
      on_tab (λ t, with_dir (<[Z.to_nat new_segnum := seg]> (dir t)) t);;
      match seg with
      | None => mret false
      | Some _ => on_hctl (λ h, with_nsegs (nsegs h + 1) h);; mret true
      end
  else mret true.

Definition expand_table : MM bool :=
  h ← gets (hctl ∘ tab);
  let new_bucket := max_bucket h +u 1 in
  ok ← expand_segment new_bucket;
  if negb ok then mret false
  else
    let old_bucket := Z.land new_bucket (low_mask h) in
    on_hctl (λ h,
      if high_mask h <? new_bucket
      then with_masks (max_bucket h +u 1) (Z.lor new_bucket (high_mask h)) (high_mask h) h
      else with_masks (max_bucket h +u 1) (high_mask h) (low_mask h) h);;
    let oldlink := bucket_slot old_bucket in
    let newlink := bucket_slot new_bucket in
    first ← read_slot oldlink;
    t ← gets tab;
    ends ← relocate_loop (chain_fuel t) old_bucket first oldlink newlink;
    write_slot ends.1 None;;
    write_slot ends.2 None;;
    mret true.

(** *** Searching *)

(** The address of the entry, and whether it was found. *)
Definition hash_search_with_hash_value (key : list byte) (hv : Z) (action : HASHACTION) : MM (option ptr * bool) :=
  h ← gets (hctl ∘ tab);
  let freelist_idx := FREELIST_IDX h hv in
  (match action with
   | HASH_ENTER | HASH_ENTER_NULL =>
       frz ← gets (frozen ∘ tab);
       scanned ← has_seq_scans;
       if (max_bucket h <? nentries (get_freelist 0 h)) && negb (IS_PARTITIONED h) && negb frz && negb scanned
       then expand_table;; mret tt else mret tt
   | _ => mret tt
   end);;
  lk ← hash_initial_lookup hv;
  t ← gets tab;
  r ← follow (key_matches t key hv) lk.2;
  let '(currBucket, prevBucketPtr) := r in
  match action with
  | HASH_FIND => mret (currBucket, bool_decide (is_Some currBucket))
  | HASH_REMOVE =>
      match currBucket with
      | Some p =>
          fl ← gets (get_freelist freelist_idx ∘ hctl ∘ tab);
          put_freelist freelist_idx {| nentries := nentries fl - 1; freeList := freeList fl |};;
          e ← element p;
          write_slot prevBucketPtr (link e);;
          fl ← gets (get_freelist freelist_idx ∘ hctl ∘ tab);
          write_slot (SLink p) (freeList fl);;
          put_freelist freelist_idx {| nentries := nentries fl; freeList := Some p |};;
          mret (Some p, true)
      | None => mret (None, false)
      end
  | HASH_ENTER | HASH_ENTER_NULL =>
      match currBucket with
      | Some p => mret (Some p, true)
      | None =>
          if frozen t then ereport ERRCODE_INTERNAL_ERROR "cannot insert into frozen hashtable"
          else
            newElement ← get_hash_entry freelist_idx;
            match newElement with
            | None =>
                match action with
                | HASH_ENTER_NULL => mret (None, false)
                | _ => ereport ERRCODE_OUT_OF_MEMORY (if isshared t then "out of shared memory" else "out of memory")
                end
            | Some p =>
                write_slot prevBucketPtr (Some p);;
                write_slot (SLink p) None;;
                e ← element p;
                put_element p (set_key hv (keycopy t key (keysize t)) e);;
                mret (Some p, false)
            end
      end
  end.

Definition get_hash_value (key : list byte) : MM Z := t ← gets tab; mret (hash t key (keysize t)).

Definition hash_search (key : list byte) (action : HASHACTION) : MM (option ptr * bool) :=
  hv ← get_hash_value key; hash_search_with_hash_value key hv action.

(** The caller's use of the entry. *)
Definition entry_data p : MM V := e ← element p; mret (elem_data e).
Definition set_entry_data p (v : V) : MM unit :=
  e ← element p;
  put_element p {| link := link e; hashvalue := hashvalue e; elem_key := elem_key e; elem_data := v |}.

Definition hash_update_hash_key (existing : ptr) (newKey : list byte) : MM bool :=
  t ← gets tab;
  if frozen t then ereport ERRCODE_INTERNAL_ERROR "cannot update in frozen hashtable"
  else
    e ← element existing;
    lk ← hash_initial_lookup (hashvalue e);
    r ← follow (λ p _, p =? existing) lk.2;
    match r.1 with
    | None => ereport ERRCODE_INTERNAL_ERROR "hash_update_hash_key argument is not in hashtable"
    | Some _ =>
        let oldPrevPtr := r.2 in
        newhashvalue ← get_hash_value newKey;
        lk' ← hash_initial_lookup newhashvalue;
        r' ← follow (key_matches t newKey newhashvalue) lk'.2;
        match r'.1 with
        | Some _ => mret false
        | None =>
            (if negb (lk.1 =? lk'.1) then
               e ← element existing;
               write_slot oldPrevPtr (link e);;
               write_slot r'.2 (Some existing);;
               write_slot (SLink existing) None
             else mret tt);;
            e ← element existing;
            put_element existing (set_key newhashvalue (keycopy t newKey (keysize t)) e);;
            mret true
        end
    end.

Definition hash_get_num_entries : MM Z :=
  h ← gets (hctl ∘ tab);
  mret (if IS_PARTITIONED h
        then foldl (λ sum i, sum + nentries (get_freelist i h)) (nentries (get_freelist 0 h)) (seqZ 1 (NUM_FREELISTS - 1))
        else nentries (get_freelist 0 h)).

(** *** Scanning *)

Definition hash_seq_init : MM HASH_SEQ_STATUS :=
  frz ← gets (frozen ∘ tab);
  (if negb frz then register_seq_scan else mret tt);;
  mret {| curBucket := 0; curEntry := None; hasHashvalue := false; seq_hashvalue := 0 |}.

Definition hash_seq_init_with_hash_value (hv : Z) : MM HASH_SEQ_STATUS :=
  hash_seq_init;;
  lk ← hash_initial_lookup hv;
  first ← read_slot lk.2;
  mret {| curBucket := lk.1; curEntry := first; hasHashvalue := true; seq_hashvalue := hv |}.

Definition hash_seq_term : MM unit :=
  frz ← gets (frozen ∘ tab);
  if negb frz then deregister_seq_scan else mret tt.

Fixpoint seq_hash_loop (fuel : nat) (hv : Z) (entry : option ptr) : MM (option ptr * option ptr) :=
  match fuel with
  | O => ereport ERRCODE_NONTERMINATING "hash_seq_search"
  | S fuel' =>
      match entry with
      | None => mret (None, None)
      | Some p =>
          e ← element p;
          if negb (hv =? hashvalue e) then seq_hash_loop fuel' hv (link e) else mret (Some p, link e)
      end
  end.

(** The first element of the first chain from [bucket] on that is not empty, and
    the bucket it is in, or the one behind the last. *)
Fixpoint seq_bucket_loop (fuel : nat) (max_bucket bucket : Z) : MM (option ptr * Z) :=
  match fuel with
  | O => ereport ERRCODE_NONTERMINATING "hash_seq_search"
  | S fuel' =>
      curElem ← read_slot (bucket_slot bucket);
      match curElem with
      | Some p => mret (Some p, bucket)
      | None =>
          let bucket := bucket +u 1 in
          if max_bucket <? bucket then mret (None, bucket) else seq_bucket_loop fuel' max_bucket bucket
      end
  end.

Definition hash_seq_search (status : HASH_SEQ_STATUS) : MM (option ptr * HASH_SEQ_STATUS) :=
  let at_ bucket entry :=
    {| curBucket := bucket; curEntry := entry; hasHashvalue := hasHashvalue status; seq_hashvalue := seq_hashvalue status |} in
  if hasHashvalue status then
    t ← gets tab;
    r ← seq_hash_loop (chain_fuel t) (seq_hashvalue status) (curEntry status);
    match r.1 with
    | Some p => mret (Some p, at_ (curBucket status) r.2)
    | None => hash_seq_term;; mret (None, at_ (curBucket status) None)
    end
  else
    match curEntry status with
    | Some p =>
        e ← element p;
        mret (Some p, at_ (match link e with None => curBucket status +u 1 | Some _ => curBucket status end) (link e))
    | None =>
        h ← gets (hctl ∘ tab);
        if max_bucket h <? curBucket status then hash_seq_term;; mret (None, status)
        else
          r ← seq_bucket_loop (Z.to_nat (max_bucket h - curBucket status + 1)) (max_bucket h) (curBucket status);
          match r.1 with
          | None => hash_seq_term;; mret (None, at_ r.2 None)
          | Some p =>
              e ← element p;
              mret (Some p, at_ (match link e with None => r.2 +u 1 | Some _ => r.2 end) (link e))
          end
    end.

Definition hash_freeze : MM unit :=
  t ← gets tab;
  scanned ← has_seq_scans;
  if isshared t then ereport ERRCODE_INTERNAL_ERROR "cannot freeze shared hashtable"
  else if negb (frozen t) && scanned then ereport ERRCODE_INTERNAL_ERROR "cannot freeze hashtable because it has active scans"
  else on_tab (with_frozen true).

(** *** Creation *)

(** [while (nbuckets < hctl->num_partitions) nbuckets <<= 1;] *)
Fixpoint partition_buckets (fuel : nat) (nbuckets partitions : Z) : Z :=
  match fuel with
  | O => nbuckets
  | S fuel' => if nbuckets <? partitions then partition_buckets fuel' (Z.shiftl nbuckets 1) partitions else nbuckets
  end.

Fixpoint init_segments (n : nat) (segnum : Z) : MM bool :=
  match n with
  | O => mret true
  | S n' =>
      seg ← seg_alloc;
      on_tab (λ t, with_dir (<[Z.to_nat segnum := seg]> (dir t)) t);;
      match seg with
      | None => mret false
      | Some _ => on_hctl (λ h, with_nsegs (nsegs h + 1) h);; init_segments n' (segnum + 1)
      end
  end.

Definition hdefault : HASHHDR :=
  {| freeLists := replicate (Z.to_nat NUM_FREELISTS) no_freelist; dsize := 0; nsegs := 0; max_bucket := 0; high_mask := 0;
     low_mask := 0; entrysize := 0; num_partitions := 0; max_dsize := NO_MAX_DSIZE; nelem_alloc := 0; isfixed := false |}.

Definition init_htab (nelem : Z) : MM bool :=
  h ← gets (hctl ∘ tab);
  let nbuckets := partition_buckets 32 (next_pow2_int nelem) (num_partitions h) in
  let nsegments := next_pow2_int ((nbuckets - 1) / HASH_SEGSIZE + 1) in
  let size := Z.max DEF_DIRSIZE nsegments in
  shared ← gets (isshared ∘ tab);
  on_hctl (λ h, {| freeLists := freeLists h; dsize := size; nsegs := nsegs h; max_bucket := nbuckets - 1;
    high_mask := wrap32 (Z.shiftl nbuckets 1 - 1); low_mask := nbuckets - 1; entrysize := entrysize h;
    num_partitions := num_partitions h; max_dsize := (if shared : bool then size else max_dsize h);
    nelem_alloc := nelem_alloc h; isfixed := isfixed h |});;
  ok ← alloc;
  if negb ok then mret false
  else
    on_tab (with_dir (replicate (Z.to_nat size) None));;
    ok ← init_segments (Z.to_nat nsegments) 0;
    if negb ok then mret false
    else
      match choose_nelem_alloc (entrysize h) with
      | None => ereport ERRCODE_NONTERMINATING "choose_nelem_alloc"
      | Some n =>
          on_hctl (λ h, {| freeLists := freeLists h; dsize := dsize h; nsegs := nsegs h; max_bucket := max_bucket h;
            high_mask := high_mask h; low_mask := low_mask h; entrysize := entrysize h; num_partitions := num_partitions h;
            max_dsize := max_dsize h; nelem_alloc := n; isfixed := isfixed h |});;
          mret true
      end.

(** The elements of list [i] of [n] lists that get [first] or [rest] elements. *)
Definition prealloc (n : Z) (first rest : Z) : MM unit :=
  for_each (seqZ 0 n) (λ i,
    ok ← element_alloc (if i =? 0 then first else rest) i;
    if ok : bool then mret tt else ereport ERRCODE_OUT_OF_MEMORY "out of memory").

Definition hash_create (nelem : Z) (info : HASHCTL) (flags : Z) : MM unit :=
  let blobs := has flags HASH_BLOBS in
  let strings := if has flags HASH_FUNCTION then info_string_hash info else negb blobs in
  let attach := has flags HASH_SHARED_MEM && has flags HASH_ATTACH in
  on_tab (λ t,
    {| hctl := hctl t; dir := dir t;
       hash := if has flags HASH_FUNCTION then info_hash info
               else if blobs then (if info_keysize info =? 4 then uint32_hash else tag_hash) else string_hash;
       match_ := if has flags HASH_COMPARE then info_match info else if strings then string_compare else memcmp;
       keycopy := if has flags HASH_KEYCOPY then info_keycopy info else if strings then strlcpy else memcpy;
       isshared := has flags HASH_SHARED_MEM; frozen := false;
       keysize := if attach then keysize t else info_keysize info;
       heap := heap t; next_ptr := next_ptr t |});;
  if attach then mret tt
  else
    ok ← alloc;
    if negb ok then ereport ERRCODE_OUT_OF_MEMORY "out of memory"
    else
      on_tab (λ t, with_heap ∅ (next_ptr t) (with_dir [] (with_hctl
        {| freeLists := freeLists hdefault; dsize := dsize hdefault; nsegs := nsegs hdefault; max_bucket := max_bucket hdefault;
           high_mask := high_mask hdefault; low_mask := low_mask hdefault; entrysize := info_entrysize info;
           num_partitions := (if has flags HASH_PARTITION then info_num_partitions info else num_partitions hdefault);
           max_dsize := max_dsize hdefault; nelem_alloc := nelem_alloc hdefault; isfixed := isfixed hdefault |} t)));;
      ok ← init_htab nelem;
      if negb ok then ereport ERRCODE_INTERNAL_ERROR "failed to initialize hash table"
      else
        h ← gets (hctl ∘ tab);
        (if has flags HASH_SHARED_MEM || (nelem <? nelem_alloc h) then
           let freelist_partitions := if IS_PARTITIONED h then NUM_FREELISTS else 1 in
           let n := to_int32 (nelem / freelist_partitions) in
           let n := if n <=? 0 then 1 else n in
           let first := if n * freelist_partitions <? nelem then to_int32 (nelem - n * (freelist_partitions - 1)) else n in
           prealloc freelist_partitions first n
         else mret tt);;
        (if has flags HASH_FIXED_SIZE then
           on_hctl (λ h, {| freeLists := freeLists h; dsize := dsize h; nsegs := nsegs h; max_bucket := max_bucket h;
             high_mask := high_mask h; low_mask := low_mask h; entrysize := entrysize h; num_partitions := num_partitions h;
             max_dsize := max_dsize h; nelem_alloc := nelem_alloc h; isfixed := true |})
         else mret tt).
End dynahash.
End Dynahash.
