(* ===== verification/DynahashChain.v ===== *)
(** * DynahashChain: chains of elements

    What the links of a table's heap spell: [chain m p l] says that the links
    from [p] lead through the elements [l] to NULL.  A place in the chain of a
    bucket is given by the elements before it ([place]); reading and writing the
    slot of a place moves along the chain and cuts or extends it there, without
    touching chains that share no element with it. *)

From Stdlib Require Import ZArith Lia Bool Strings.Byte.
From stdpp Require Import base tactics numbers list gmap strings.
From S2P Require Import Prelude HashFn Dynahash.
Import Dynahash.

Local Open Scope Z_scope.
Local Open Scope pg_scope.

#[local] Arguments Nat.div : simpl never.
#[local] Arguments Nat.modulo : simpl never.

Module DynahashChain.

Section chain.
Context {V : Type}.
Implicit Types (m : gmap Z (HASHELEMENT V)) (p q : Z) (l : list Z) (t : HTAB V) (s : HashState V) (b : nat).

(** ** Chains *)

Fixpoint chain m (h : option Z) l : Prop :=
  match l with
  | [] => h = None
  | p :: l' => h = Some p ∧ ∃ e, m !! p = Some e ∧ chain m (link e) l'
  end.

Lemma chain_elem m h l p : chain m h l → p ∈ l → is_Some (m !! p).
Proof.
  revert h. induction l as [|q l IH]; intros h; [by intros _ ?%not_elem_of_nil|]. intros (-> & e & He & Hc) [->|Hp]%elem_of_cons; eauto.
Qed.

Lemma chain_unique m h l l' : chain m h l → chain m h l' → l = l'.
Proof.
  revert h l'. induction l as [|q l IH]; intros h l'; simpl.
  - intros ->. by destruct l' as [|q' l']; [|intros [? _]].
  - intros (-> & e & He & Hc). destruct l' as [|q' l']; [done|]. intros ([= <-] & e' & He' & Hc').
    simplify_eq. f_equal. eauto.
Qed.

Lemma chain_ext m m' h l : (∀ p, p ∈ l → link <$> m' !! p = link <$> m !! p) → chain m h l → chain m' h l.
Proof.
  revert h. induction l as [|q l IH]; intros h Hm; [done|]. intros (-> & e & He & Hc). split; [done|].
  pose proof (Hm q ltac:(left)) as Hq. rewrite He in Hq. simpl in Hq. apply fmap_Some in Hq as (e' & He' & Hl).
  exists e'. split; [done|]. rewrite <- Hl. apply IH; [|done]. intros p Hp. apply Hm. by right.
Qed.

Lemma chain_other m h l p e : p ∉ l → chain m h l → chain (<[p := e]> m) h l.
Proof. intros Hp. apply chain_ext. intros q Hq. by rewrite lookup_insert_ne by (by intros ->). Qed.

(** A new end behind the element [p]. *)
Lemma chain_relink m h l1 p l2 e v l' :
  chain m h (l1 ++ p :: l2) → p ∉ l1 → m !! p = Some e → p ∉ l' → chain m v l' →
  chain (<[p := set_link v e]> m) h (l1 ++ p :: l').
Proof.
  revert h. induction l1 as [|q l1 IH]; intros h; simpl.
  - intros (-> & _) _ He Hp Hv. split; [done|]. exists (set_link v e). rewrite lookup_insert_eq. split; [done|].
    simpl. by apply chain_other.
  - intros (-> & e' & He' & Hc) [Hne Hp1]%not_elem_of_cons He Hp Hv. split; [done|]. exists e'.
    rewrite lookup_insert_ne by done. split; [done|]. by apply IH.
Qed.

Lemma chain_snoc_end m h l p e : chain m h (l ++ [p]) → m !! p = Some e → link e = None.
Proof.
  revert h. induction l as [|q l IH]; intros h; simpl.
  - intros (-> & e' & He' & Hc) He. by simplify_eq.
  - intros (-> & e' & He' & Hc) He. eauto.
Qed.

(** The link behind [l1] leads to the rest. *)
Lemma chain_rest m h l1 p l2 e : chain m h (l1 ++ p :: l2) → m !! p = Some e → chain m (link e) l2.
Proof.
  revert h. induction l1 as [|q l1 IH]; intros h; simpl.
  - intros (-> & e' & He' & Hc) He. by simplify_eq.
  - intros (-> & e' & He' & Hc) He. eauto.
Qed.

(** A chain without repetition is no longer than the heap. *)
Lemma chain_length m h l : chain m h l → NoDup l → (length l <= size m)%nat.
Proof.
  intros Hc Hnd. rewrite <- size_dom, <- (size_list_to_set (C := gset Z) l) by done. apply subseteq_size.
  intros p Hp. apply elem_of_list_to_set in Hp. apply elem_of_dom. by eapply chain_elem.
Qed.

(** ** Buckets *)

(** The header of bucket [b]. *)
Definition bucket_head t b : option (option Z) :=
  seg ← dir t !! (b / 256)%nat; seg ← seg; seg !! (b mod 256)%nat.

Definition bchain t b l : Prop := ∃ h, bucket_head t b = Some h ∧ chain (heap t) h l.

(** The place in bucket [b] behind the elements [l]. *)
Definition place b l : slot := match last l with None => bucket_slot (Z.of_nat b) | Some p => SLink p end.

Lemma shiftr_bucket b : Z.to_nat (Z.shiftr (Z.of_nat b) HASH_SEGSIZE_SHIFT) = (b / 256)%nat.
Proof. unfold HASH_SEGSIZE_SHIFT. rewrite Z.shiftr_div_pow2 by lia. change (2 ^ 8) with (Z.of_nat 256). rewrite <- Nat2Z.inj_div. lia. Qed.
Lemma land_bucket b : Z.to_nat (Z.land (Z.of_nat b) (HASH_SEGSIZE - 1)) = (b mod 256)%nat.
Proof.
  change (HASH_SEGSIZE - 1) with (Z.ones 8). rewrite Z.land_ones by lia. change (2 ^ 8) with (Z.of_nat 256).
  rewrite <- Nat2Z.inj_mod. lia.
Qed.

Lemma read_bucket t b h s :
  tab s = t → bucket_head t b = Some h → read_slot (bucket_slot (Z.of_nat b)) s = (Ok h, s).
Proof.
  intros <- Hb. unfold read_slot, bucket_slot, mbind, M_bind, gets. rewrite shiftr_bucket, land_bucket.
  unfold bucket_head in Hb. destruct (dir (tab s) !! (b / 256)%nat) as [[seg|]|]; simpl in Hb; try done. by rewrite Hb.
Qed.

(** What a place holds. *)
Lemma read_place b l1 l2 s :
  bchain (tab s) b (l1 ++ l2) →
  ∃ h, read_slot (place b l1) s = (Ok h, s) ∧ chain (heap (tab s)) h l2.
Proof.
  intros (h & Hb & Hc). unfold place. destruct l1 as [|q l1 _] using rev_ind.
  - exists h. split; [by eapply read_bucket|done].
  - rewrite last_snoc. rewrite <- (assoc_L app) in Hc. simpl in Hc.
    destruct (chain_elem _ _ _ q Hc) as [e He]; [apply elem_of_app; right; left|].
    exists (link e). split; [|by eapply chain_rest]. unfold read_slot, element, mbind, M_bind. by rewrite He.
Qed.

(** Elements keep all but their links. *)
Definition payload (e : HASHELEMENT V) : Z * list byte * V := (hashvalue e, elem_key e, elem_data e).
Definition same_payload m m' : Prop := ∀ p, payload <$> m' !! p = payload <$> m !! p.

#[global] Instance same_payload_preorder : PreOrder same_payload.
Proof. split; [done|]. intros m1 m2 m3 H1 H2 p. by rewrite H2, H1. Qed.

Lemma same_payload_relink m p e v : m !! p = Some e → same_payload m (<[p := set_link v e]> m).
Proof.
  intros He q. destruct (decide (p = q)) as [<-|Hne]; [by rewrite lookup_insert_eq, He|by rewrite lookup_insert_ne].
Qed.

(** Writes as functions of the table. *)
Definition set_slot (b : slot) (v : option Z) t : HTAB V :=
  match b with
  | SLink p => with_heap (alter (set_link v) p (heap t)) (next_ptr t) t
  | SBucket i j => with_dir (alter (option_map (λ seg, <[Z.to_nat j := v]> seg)) (Z.to_nat i) (dir t)) t
  end.

Lemma alter_insert (g : HASHELEMENT V → HASHELEMENT V) m p e : m !! p = Some e → alter g p m = <[p := g e]> m.
Proof.
  intros He. apply map_eq. intros q. destruct (decide (q = p)) as [->|Hne].
  - by rewrite lookup_alter_eq, lookup_insert_eq, He.
  - by rewrite lookup_alter_ne, lookup_insert_ne.
Qed.

Lemma write_link p v s : is_Some (heap (tab s) !! p) → write_slot (SLink p) v s = (Ok tt, with_tab (set_slot (SLink p) v (tab s)) s).
Proof.
  intros [e He]. unfold write_slot, element, put_element, on_tab, modify, mbind, M_bind, set_slot. rewrite He. simpl.
  by rewrite (alter_insert _ _ _ _ He).
Qed.

(** What writes of places of the buckets [ks], behind the elements [l1], leave as
    it was. *)
Record touches (ks : list nat) l1 t t' : Prop := {
  to_hctl : hctl t' = hctl t;
  to_next : next_ptr t' = next_ptr t;
  to_keys : hash t' = hash t ∧ match_ t' = match_ t ∧ keycopy t' = keycopy t ∧ keysize t' = keysize t;
  to_flags : frozen t' = frozen t ∧ isshared t' = isshared t;
  to_payload : same_payload (heap t) (heap t');
  to_links p : p ∉ l1 → heap t' !! p = heap t !! p;
  to_heads b : b ∉ ks → bucket_head t' b = bucket_head t b;
  to_dir : length (dir t') = length (dir t) ∧
    ∀ i seg, dir t !! i = Some (Some seg) → ∃ seg', dir t' !! i = Some (Some seg') ∧ length seg' = length seg;
}.

Lemma slot_touches_refl ks l t : touches ks l t t.
Proof. constructor; try done. split; [done|]. eauto. Qed.

Lemma slot_touches_trans ks l t1 t2 t3 : touches ks l t1 t2 → touches ks l t2 t3 → touches ks l t1 t3.
Proof.
  intros [A1 A2 (A3 & A4 & A5 & A6) (A7 & A8) A9 A10 A11 [A12 A13]] [B1 B2 (B3 & B4 & B5 & B6) (B7 & B8) B9 B10 B11 [B12 B13]].
  constructor; [congruence|congruence|split_and!; congruence|split_and!; congruence|by etrans|..].
  - intros p Hp. by rewrite B10, A10.
  - intros b Hb. by rewrite B11, A11.
  - split; [congruence|]. intros i seg Hi. destruct (A13 i seg Hi) as (seg' & Hi' & Hl). destruct (B13 i seg' Hi') as (seg'' & ? & ?).
    exists seg''. split; [done|congruence].
Qed.

Lemma slot_touches_weaken ks ks' l l' t t' : (∀ b, b ∈ ks → b ∈ ks') → (∀ p, p ∈ l → p ∈ l') → touches ks l t t' → touches ks' l' t t'.
Proof. intros Hk Hl [A1 A2 A3 A4 A5 A6 A7 A8]. constructor; auto. Qed.

Lemma to_chains ks l1 t t' h l : touches ks l1 t t' → l ## l1 → chain (heap t) h l → chain (heap t') h l.
Proof. intros Ht Hd. apply chain_ext. intros p Hp. rewrite (to_links _ _ _ _ Ht); [done|]. intros Hp'. by apply (Hd p). Qed.

(** ** Leading up to a place *)

(** From [h] through [l] to what the last link holds. *)
Fixpoint lead m (h : option Z) l (x : option Z) : Prop :=
  match l with
  | [] => h = x
  | p :: l' => h = Some p ∧ ∃ e, m !! p = Some e ∧ lead m (link e) l' x
  end.

Lemma lead_chain m h l x l' : lead m h l x → chain m x l' → chain m h (l ++ l').
Proof.
  revert h. induction l as [|p l IH]; intros h; simpl; [by intros ->|]. intros (-> & e & He & Hl) Hc. split; [done|]. eauto.
Qed.
Lemma chain_lead m h l l' : chain m h (l ++ l') → ∃ x, lead m h l x ∧ chain m x l'.
Proof.
  revert h. induction l as [|p l IH]; intros h; simpl; [eauto|]. intros (-> & e & He & Hc).
  destruct (IH _ Hc) as (x & Hx & Hc'). exists x. eauto.
Qed.
Lemma lead_snoc m h l p e : lead m h l (Some p) → m !! p = Some e → lead m h (l ++ [p]) (link e).
Proof.
  revert h. induction l as [|q l IH]; intros h; simpl; [intros ->; eauto|]. intros (-> & e' & He' & Hl) He. split; [done|]. eauto.
Qed.
Lemma lead_elem m h l x p : lead m h l x → p ∈ l → is_Some (m !! p).
Proof.
  revert h. induction l as [|q l IH]; intros h; [by intros _ ?%not_elem_of_nil|]. intros (-> & e & He & Hl) [->|Hp]%elem_of_cons; eauto.
Qed.
Lemma lead_ext m m' h l x : (∀ p, p ∈ l → link <$> m' !! p = link <$> m !! p) → lead m h l x → lead m' h l x.
Proof.
  revert h. induction l as [|q l IH]; intros h Hm; [done|]. intros (-> & e & He & Hc). split; [done|].
  pose proof (Hm q ltac:(left)) as Hq. rewrite He in Hq. simpl in Hq. apply fmap_Some in Hq as (e' & He' & Hl).
  exists e'. split; [done|]. rewrite <- Hl. apply IH; [|done]. intros p Hp. apply Hm. by right.
Qed.
Lemma lead_relink m h l p x e v :
  lead m h (l ++ [p]) x → p ∉ l → m !! p = Some e → lead (<[p := set_link v e]> m) h (l ++ [p]) v.
Proof.
  revert h. induction l as [|q l IH]; intros h; simpl.
  - intros (-> & _) _ He. split; [done|]. eexists. by rewrite lookup_insert_eq.
  - intros (-> & e' & He' & Hl) [Hne Hp]%not_elem_of_cons He. split; [done|]. exists e'. rewrite lookup_insert_ne by done. eauto.
Qed.

Definition blead t b l x : Prop := ∃ h, bucket_head t b = Some h ∧ lead (heap t) h l x.

Lemma to_lead ks l1 t t' b l x : touches ks l1 t t' → b ∉ ks → l ## l1 → blead t b l x → blead t' b l x.
Proof.
  intros Ht Hb Hd (h & Hh & Hl). exists h. split; [by rewrite (to_heads _ _ _ _ Ht)|]. eapply lead_ext; [|exact Hl].
  intros p Hp. rewrite (to_links _ _ _ _ Ht); [done|]. intros Hp'. by apply (Hd p).
Qed.

Lemma bucket_head_set t b b' v :
  is_Some (bucket_head t b) →
  bucket_head (with_dir (alter (option_map (λ seg, <[(b mod 256)%nat := v]> seg)) (b / 256)%nat (dir t)) t) b' =
    if decide (b' = b) then Some v else bucket_head t b'.
Proof.
  intros [h Hb]. unfold bucket_head in *. simpl. destruct (decide (b' / 256 = b / 256)%nat) as [E|E].
  - rewrite E, list_lookup_alter_eq. destruct (dir t !! (b / 256)%nat) as [[seg|]|]; simpl in *; try done.
    destruct (decide (b' mod 256 = b mod 256)%nat) as [E'|E'].
    + rewrite decide_True; [|pose proof (Nat.div_mod b 256); pose proof (Nat.div_mod b' 256); lia].
      rewrite E'. apply list_lookup_insert_eq. by eapply lookup_lt_Some.
    + rewrite decide_False by (by intros ->). by rewrite list_lookup_insert_ne.
  - rewrite list_lookup_alter_ne by done. by rewrite decide_False by (by intros ->).
Qed.

(** Writing a place. *)
Lemma set_place_lead b l x v t :
  blead t b l x → NoDup l →
  blead (set_slot (place b l) v t) b l v ∧ touches [b] l t (set_slot (place b l) v t).
Proof.
  intros (h & Hb & Hl) Hnd. unfold place. destruct l as [|q l _] using rev_ind.
  - simpl. rewrite shiftr_bucket, land_bucket. split.
    + exists v. rewrite bucket_head_set by done. by rewrite decide_True.
    + constructor; try done; simpl.
      * intros b' Hne%not_elem_of_cons. rewrite bucket_head_set by done. by rewrite decide_False by naive_solver.
      * rewrite length_alter. split; [done|]. intros i seg Hi. rewrite list_lookup_alter. case_decide; [|by eauto].
        subst i. rewrite Hi. simpl. eexists. split; [done|]. by rewrite length_insert.
  - rewrite last_snoc. apply NoDup_app in Hnd as (Hnd1 & Hq & _). assert (q ∉ l) as Hq1 by (intros Hin; apply (Hq _ Hin); left).
    destruct (lead_elem _ _ _ _ q Hl) as [e He]; [apply elem_of_app; right; left|]. simpl. rewrite (alter_insert _ _ _ _ He). split.
    + exists h. split; [done|]. by eapply lead_relink.
    + constructor; try done; simpl.
      * by apply same_payload_relink.
      * intros p Hp. rewrite lookup_insert_ne; [done|]. intros ->. apply Hp, elem_of_app. right. left.
      * split; [done|]. eauto.
Qed.

(** The chain goes on from there with what was written. *)
Lemma set_place b l1 l2 v l' t :
  bchain t b (l1 ++ l2) → NoDup l1 → chain (heap t) v l' → l' ## l1 →
  bchain (set_slot (place b l1) v t) b (l1 ++ l') ∧ touches [b] l1 t (set_slot (place b l1) v t).
Proof.
  intros (h & Hb & Hc) Hnd Hv Hdis. destruct (chain_lead _ _ _ _ Hc) as (x & Hx & _).
  destruct (set_place_lead b l1 x v t) as [(h' & Hb' & Hl') Ht]; [by exists h|done|]. split; [|done].
  exists h'. split; [done|]. eapply lead_chain; [done|]. by eapply to_chains.
Qed.

Lemma write_lead b l x v s :
  blead (tab s) b l x → write_slot (place b l) v s = (Ok tt, with_tab (set_slot (place b l) v (tab s)) s).
Proof.
  intros (h & Hb & Hl). unfold place. destruct l as [|q l _] using rev_ind; [done|]. rewrite last_snoc. apply write_link.
  eapply lead_elem; [done|]. apply elem_of_app. right. left.
Qed.
Lemma write_place b l1 l2 v s :
  bchain (tab s) b (l1 ++ l2) → write_slot (place b l1) v s = (Ok tt, with_tab (set_slot (place b l1) v (tab s)) s).
Proof. intros (h & Hb & Hc). destruct (chain_lead _ _ _ _ Hc) as (x & Hx & _). eapply write_lead. by exists h. Qed.

(** Writes of different links. *)
Lemma set_place_link b l v p w t :
  p ∉ l → set_slot (SLink p) w (set_slot (place b l) v t) = set_slot (place b l) v (set_slot (SLink p) w t).
Proof.
  intros Hp. unfold place. destruct (last l) as [q|] eqn:E; [|done]. unfold set_slot. simpl. unfold with_heap. simpl. f_equal.
  assert (q ≠ p) as Hne. { intros ->. apply Hp. by apply last_Some_elem_of. }
  apply map_eq. intros x. rewrite !lookup_alter. by repeat case_decide; subst.
Qed.

(** ** Following a chain *)

Lemma place_snoc b l p : place b (l ++ [p]) = SLink p.
Proof. unfold place. by rewrite last_snoc. Qed.

(** Where [stop] first accepts an element of [l], or the end. *)
Inductive stops m (stop : Z → HASHELEMENT V → bool) l : option Z → list Z → Prop :=
| stops_at la p lb e : l = la ++ p :: lb → m !! p = Some e → stop p e = true →
    (∀ q e', q ∈ la → m !! q = Some e' → stop q e' = false) → stops m stop l (Some p) la
| stops_end : (∀ q e, q ∈ l → m !! q = Some e → stop q e = false) → stops m stop l None l.

Lemma follow_chain_run fuel stop b l1 l2 s :
  bchain (tab s) b (l1 ++ l2) → (length l2 < fuel)%nat →
  ∃ r la, follow_chain fuel stop (place b l1) s = (Ok (r, place b (l1 ++ la)), s) ∧ stops (heap (tab s)) stop l2 r la.
Proof.
  revert l1 l2. induction fuel as [|fuel IH]; intros l1 l2 Hc Hl; [lia|]. cbn [follow_chain].
  destruct (read_place b l1 l2 s Hc) as (h & Hr & Hh). rewrite (M_bind_run _ _ _ _ _ Hr). destruct l2 as [|p l2].
  - simpl in Hh. subst h. exists None, []. split; [by rewrite app_nil_r|]. constructor. by intros q e ?%not_elem_of_nil.
  - destruct Hh as (-> & e & He & Hh). unfold mbind, M_bind, element. rewrite He.
    destruct (stop p e) eqn:Hs.
    + exists (Some p), []. split; [by rewrite app_nil_r|]. eapply (stops_at _ _ _ []); [done|done|done|].
      by intros q e' ?%not_elem_of_nil.
    + rewrite <- (place_snoc b l1 p). destruct (IH (l1 ++ [p]) l2) as (r & la & E & Hst).
      * by rewrite <- (assoc_L app).
      * simpl in Hl. lia.
      * exists r, (p :: la). rewrite <- (assoc_L app) in E. split; [exact E|]. inversion Hst as [la' q lb e' E1 H1 H2 H3|H1]; subst.
        -- eapply (stops_at _ _ _ (p :: la)); [done|done|done|]. intros q' e'' [->|?]%elem_of_cons ?; [by simplify_eq|eauto].
        -- constructor. intros q' e'' [->|?]%elem_of_cons ?; [by simplify_eq|eauto].
Qed.

Lemma follow_run stop b l s :
  bchain (tab s) b l → NoDup l →
  ∃ r la, follow stop (bucket_slot (Z.of_nat b)) s = (Ok (r, place b la), s) ∧ stops (heap (tab s)) stop l r la.
Proof.
  intros Hc Hnd. apply (follow_chain_run _ stop b [] l s Hc). unfold chain_fuel. destruct Hc as (h & _ & Hc).
  pose proof (chain_length _ _ _ Hc Hnd). lia.
Qed.
End chain.
End DynahashChain.
