(* ===== verification/DynahashInv.v ===== *)
(** * DynahashInv: what a hash table is

    The arithmetic of bucket numbers, the invariant of a table and the entries it
    stands for.  Entries are named by the addresses that the functions return:
    [entries_are t bs E] says that the elements in the buckets [bs] are the
    entries [E], a finite map from addresses to keys and data. *)

From Stdlib Require Import ZArith Lia Bool Strings.Byte.
From stdpp Require Import base tactics numbers list gmap strings.
From S2P Require Import Prelude HashFn Dynahash DynahashChain.
Import Dynahash DynahashChain.

Local Open Scope Z_scope.
Local Open Scope pg_scope.

#[local] Arguments Nat.div : simpl never.
#[local] Arguments Nat.modulo : simpl never.

Module DynahashInv.

(** ** Bucket numbers *)

(** The masks are those of a table whose size is between [2 ^ k] and [2 ^ (k + 1)]. *)
Record masks_ok (h : HASHHDR) (k : Z) : Prop := {
  mk_k : 0 <= k <= 31;
  mk_low : low_mask h = Z.ones k;
  mk_high : high_mask h = Z.ones (k + 1);
  mk_max : low_mask h <= max_bucket h <= high_mask h;
}.

Lemma calc_bucket_mod h k x :
  masks_ok h k →
  calc_bucket h x = if max_bucket h <? x mod 2 ^ (k + 1) then x mod 2 ^ k else x mod 2 ^ (k + 1).
Proof.
  intros [Hk Hlo Hhi _]. unfold calc_bucket. rewrite Hlo, Hhi, !Z.land_ones by lia.
  destruct (max_bucket h <? x mod 2 ^ (k + 1)); [|done]. rewrite Z.pow_add_r by lia.
  apply Z.mod_mod_divide. exists 2. lia.
Qed.

Lemma calc_bucket_range h k x : masks_ok h k → 0 <= calc_bucket h x <= max_bucket h.
Proof.
  intros Hm. rewrite (calc_bucket_mod h k x Hm). destruct Hm as [Hk Hlo Hhi Hmx]. rewrite Hlo, Z.ones_equiv in Hmx.
  pose proof (Z.mod_pos_bound x (2 ^ k) ltac:(lia)). pose proof (Z.mod_pos_bound x (2 ^ (k + 1)) ltac:(lia)).
  destruct (Z.ltb_spec (max_bucket h) (x mod 2 ^ (k + 1))); lia.
Qed.

(** The header after one more bucket. *)
Definition grown (h : HASHHDR) : HASHHDR :=
  let new_bucket := max_bucket h + 1 in
  if high_mask h <? new_bucket
  then with_masks new_bucket (Z.lor new_bucket (high_mask h)) (high_mask h) h
  else with_masks new_bucket (high_mask h) (low_mask h) h.

Lemma lor_pow2_ones k : 0 <= k → Z.lor (2 ^ k) (Z.ones k) = Z.ones (k + 1).
Proof.
  intros Hk. apply Z.bits_inj'. intros i Hi. rewrite Z.lor_spec, Z.pow2_bits_eqb, !Z.testbit_ones_nonneg by lia.
  destruct (Z.eqb_spec k i), (Z.ltb_spec i k), (Z.ltb_spec i (k + 1)); try done; lia.
Qed.

Lemma grown_ok h k :
  masks_ok h k → max_bucket h + 1 < 2 ^ 32 →
  ∃ k', masks_ok (grown h) k' ∧
    (k' = k ∧ max_bucket h + 1 <= high_mask h ∨ k' = k + 1 ∧ max_bucket h + 1 = 2 ^ (k + 1)).
Proof.
  intros [Hk Hlo Hhi Hmx] Hlt. unfold grown.
  assert (Z.ones (k + 1) = 2 ^ (k + 1) - 1) as Hones by (rewrite Z.ones_equiv; lia).
  destruct (Z.ltb_spec (high_mask h) (max_bucket h + 1)).
  - exists (k + 1). assert (max_bucket h + 1 = 2 ^ (k + 1)) as E by lia. split; [|by right].
    assert (k + 1 < 32) by (apply (Z.pow_lt_mono_r_iff 2); lia).
    constructor; simpl; [lia|done| |].
    + by rewrite E, Hhi, lor_pow2_ones by lia.
    + rewrite E, Hhi, lor_pow2_ones by lia. rewrite !Z.ones_equiv, (Z.pow_add_r 2 (k + 1)) by lia. lia.
  - exists k. split; [|left; lia]. constructor; simpl; [done|done|done|lia].
Qed.

(** Only the elements of one bucket go to the new one. *)
Lemma calc_bucket_grown h k x :
  masks_ok h k → max_bucket h + 1 < 2 ^ 32 →
  calc_bucket (grown h) x = calc_bucket h x ∧ calc_bucket (grown h) x ≠ max_bucket h + 1 ∨
  calc_bucket (grown h) x = max_bucket h + 1 ∧ calc_bucket h x = Z.land (max_bucket h + 1) (low_mask h).
Proof.
  intros Hm Hlt. destruct (grown_ok h k Hm Hlt) as (k' & Hm' & Hk').
  pose proof (calc_bucket_range h k x Hm) as Hrange.
  rewrite (calc_bucket_mod _ _ x Hm'), (calc_bucket_mod _ _ x Hm) in *.
  assert (max_bucket (grown h) = max_bucket h + 1) as Emax by (unfold grown; by destruct (high_mask h <? _)). rewrite Emax.
  destruct Hm as [Hk Hlo Hhi Hmx]. rewrite Hlo, Hhi in *. rewrite Z.land_ones by lia. rewrite Z.ones_equiv in Hmx.
  assert (2 ^ (k + 1) = 2 * 2 ^ k) as Epow by (rewrite Z.pow_add_r by lia; lia).
  pose proof (Z.mod_pos_bound x (2 ^ k) ltac:(lia)). pose proof (Z.mod_pos_bound x (2 ^ (k + 1)) ltac:(lia)).
  destruct Hk' as [[-> Hle]|[-> E]].
  - destruct (Z.ltb_spec (max_bucket h + 1) (x mod 2 ^ (k + 1))), (Z.ltb_spec (max_bucket h) (x mod 2 ^ (k + 1))); try lia.
    right. assert (x mod 2 ^ (k + 1) = max_bucket h + 1) as Ex by lia. split; [lia|]. rewrite <- Ex.
    symmetry. apply Z.mod_mod_divide. exists 2. lia.
  - assert (2 ^ (k + 1 + 1) = 2 * 2 ^ (k + 1)) as Epow' by (rewrite (Z.pow_add_r 2 (k + 1)) by lia; lia).
    assert (x mod 2 ^ (k + 1) = (x mod 2 ^ (k + 1 + 1)) mod 2 ^ (k + 1)) as Ed.
    { symmetry. apply Z.mod_mod_divide. exists 2. lia. }
    pose proof (Z.mod_pos_bound x (2 ^ (k + 1 + 1)) ltac:(lia)). set (y := x mod 2 ^ (k + 1 + 1)) in *.
    destruct (Z.ltb_spec (max_bucket h) (x mod 2 ^ (k + 1))); [lia|].
    destruct (Z.ltb_spec (max_bucket h + 1) y); [left; lia|].
    destruct (decide (y = max_bucket h + 1)) as [Ey|].
    + right. split; [done|]. rewrite Ed, Ey, E, Z_mod_same_full. symmetry. rewrite Epow. apply Z_mod_mult.
    + left. rewrite Ed, Z.mod_small by lia. lia.
Qed.

(** ** The invariant *)

Section inv.
Context {V : Type} (valid : list byte → Prop).
Implicit Types (m : gmap Z (HASHELEMENT V)) (p q : Z) (l : list Z) (t : HTAB V) (s : HashState V) (b : nat).
Implicit Types (bs fs : list (list Z)) (E : gmap Z (list byte * V)).

(** What a table relies on in its key functions, for valid keys. *)
Record key_laws t : Prop := {
  kl_hash k : valid k → is_u32 (hash t k (keysize t));
  kl_copy k : valid k → valid (keycopy t k (keysize t)) ∧ match_ t (keycopy t k (keysize t)) k (keysize t) = 0;
  kl_sym k1 k2 : valid k1 → valid k2 → match_ t k1 k2 (keysize t) = 0 → match_ t k2 k1 (keysize t) = 0;
  kl_trans k1 k2 k3 : valid k1 → valid k2 → valid k3 →
    match_ t k1 k2 (keysize t) = 0 → match_ t k2 k3 (keysize t) = 0 → match_ t k1 k3 (keysize t) = 0;
  kl_match k1 k2 : valid k1 → valid k2 → match_ t k1 k2 (keysize t) = 0 → hash t k1 (keysize t) = hash t k2 (keysize t);
}.

(** The directory has a segment for every bucket. *)
Record dir_ok t : Prop := {
  do_length : Z.of_nat (length (dir t)) = dsize (hctl t);
  do_nsegs : 0 < nsegs (hctl t) <= dsize (hctl t);
  do_segs (i : nat) : Z.of_nat i < nsegs (hctl t) → ∃ seg, dir t !! i = Some (Some seg) ∧ length seg = 256%nat;
  do_max : max_bucket (hctl t) < nsegs (hctl t) * 256;
}.

(** The chains of buckets and free lists, which share no element. *)
Record shape t bs fs : Prop := {
  sh_masks : ∃ k, masks_ok (hctl t) k;
  sh_dir : dir_ok t;
  sh_nb : Z.of_nat (length bs) = max_bucket (hctl t) + 1;
  sh_buckets b l : bs !! b = Some l → bchain t b l;
  sh_nf : length fs = 32%nat ∧ length (freeLists (hctl t)) = 32%nat;
  sh_free (i : nat) l : fs !! i = Some l → chain (heap t) (freeList (get_freelist (Z.of_nat i) (hctl t))) l;
  sh_part : IS_PARTITIONED (hctl t) = false → ∀ (i : nat) l, fs !! i = Some l → i ≠ 0%nat → l = [];
  sh_nodup : NoDup (mjoin bs ++ mjoin fs);
  sh_fresh p : is_Some (heap t !! p) → p < next_ptr t;
  sh_alloc : 1 <= nelem_alloc (hctl t);
}.

(** Every element is in the bucket of its key. *)
Definition placed t bs : Prop := ∀ b l p e,
  bs !! b = Some l → p ∈ l → heap t !! p = Some e →
  hashvalue e = hash t (elem_key e) (keysize t) ∧ calc_bucket (hctl t) (hashvalue e) = Z.of_nat b.

Definition entry (e : HASHELEMENT V) : list byte * V := (elem_key e, elem_data e).
Definition entries_are t bs E : Prop := ∀ p, E !! p = if decide (p ∈ mjoin bs) then entry <$> heap t !! p else None.

(** The entries that count for free list [i]. *)
Definition counted t (i : Z) E : gmap Z (list byte * V) :=
  filter (λ '(_, (k, _)), FREELIST_IDX (hctl t) (hash t k (keysize t)) = i) E.

Record entries_ok t E : Prop := {
  eo_valid p k v : E !! p = Some (k, v) → valid k;
  eo_unique p q k v k' v' : E !! p = Some (k, v) → E !! q = Some (k', v') → match_ t k k' (keysize t) = 0 → p = q;
  eo_count (i : nat) : (i < 32)%nat → nentries (get_freelist (Z.of_nat i) (hctl t)) = Z.of_nat (size (counted t (Z.of_nat i) E));
}.

(** A table with entries [E] and [F] free elements. *)
Record table_ok t E (F : nat) : Prop := {
  ok_keys : key_laws t;
  ok_entries : entries_ok t E;
  ok_layout : ∃ bs fs, shape t bs fs ∧ placed t bs ∧ entries_are t bs E ∧ length (mjoin fs) = F;
}.

(** ** Lists of lists *)

Lemma join_take_drop (ls : list (list Z)) b l : ls !! b = Some l → mjoin ls ≡ₚ l ++ mjoin (take b ls ++ drop (S b) ls).
Proof.
  intros Hb. rewrite <- (take_drop_middle ls b l Hb) at 1. rewrite !join_app. simpl. solve_Permutation.
Qed.
Lemma join_insert (ls : list (list Z)) b l l' :
  ls !! b = Some l → mjoin (<[b := l']> ls) ≡ₚ l' ++ mjoin (take b ls ++ drop (S b) ls).
Proof.
  intros Hb. rewrite insert_take_drop by (by eapply lookup_lt_Some). rewrite !join_app. simpl. solve_Permutation.
Qed.

Lemma elem_of_join (ls : list (list Z)) p : p ∈ mjoin ls ↔ ∃ b l, ls !! b = Some l ∧ p ∈ l.
Proof.
  rewrite list_elem_of_join. split.
  - intros (l & Hp & (b & Hb)%list_elem_of_lookup). eauto.
  - intros (b & l & Hb & Hp). exists l. split; [done|]. by eapply list_elem_of_lookup_2.
Qed.

Lemma join_disjoint (ls : list (list Z)) b l b' l' :
  NoDup (mjoin ls) → ls !! b = Some l → ls !! b' = Some l' → b ≠ b' → l ## l'.
Proof.
  revert b b'. induction ls as [|x ls IH]; intros b b'; [done|]. simpl. intros (Hx & Hd & Hnd)%NoDup_app Hb Hb' Hne.
  destruct b as [|b], b' as [|b']; simpl in *; simplify_eq.
  - intros p Hp Hp'. apply (Hd p Hp), elem_of_join. eauto.
  - intros p Hp Hp'. apply (Hd p Hp'), elem_of_join. eauto.
  - eapply IH; eauto.
Qed.

Lemma join_nodup (ls : list (list Z)) b l : NoDup (mjoin ls) → ls !! b = Some l → NoDup l.
Proof. intros Hnd Hb. rewrite (join_take_drop ls b l Hb) in Hnd. by apply NoDup_app in Hnd as [? _]. Qed.

(** ** Facts of the shape *)

Section shape.
Context {t : HTAB V} {bs fs : list (list Z)} (Hsh : shape t bs fs).

Lemma shape_bs_nodup : NoDup (mjoin bs).
Proof. by destruct (proj1 (NoDup_app _ _) (sh_nodup _ _ _ Hsh)) as (? & _). Qed.
Lemma shape_fs_nodup : NoDup (mjoin fs).
Proof. by destruct (proj1 (NoDup_app _ _) (sh_nodup _ _ _ Hsh)) as (_ & _ & ?). Qed.
Lemma shape_bs_fs p : p ∈ mjoin bs → p ∈ mjoin fs → False.
Proof. destruct (proj1 (NoDup_app _ _) (sh_nodup _ _ _ Hsh)) as (_ & H & _). apply H. Qed.

Lemma shape_bucket_disjoint b l b' l' : bs !! b = Some l → bs !! b' = Some l' → b ≠ b' → l ## l'.
Proof. apply join_disjoint, shape_bs_nodup. Qed.
Lemma shape_free_disjoint i f i' f' : fs !! i = Some f → fs !! i' = Some f' → i ≠ i' → f ## f'.
Proof. apply join_disjoint, shape_fs_nodup. Qed.
Lemma shape_bucket_free b l i f : bs !! b = Some l → fs !! i = Some f → l ## f.
Proof. intros Hb Hi p Hp Hp'. apply (shape_bs_fs p); apply elem_of_join; eauto. Qed.

Lemma shape_calc x : ∃ b l, calc_bucket (hctl t) x = Z.of_nat b ∧ bs !! b = Some l.
Proof.
  destruct (sh_masks _ _ _ Hsh) as [k Hk]. pose proof (calc_bucket_range _ k x Hk). pose proof (sh_nb _ _ _ Hsh).
  destruct (lookup_lt_is_Some_2 bs (Z.to_nat (calc_bucket (hctl t) x))) as [l Hl]; [lia|].
  exists (Z.to_nat (calc_bucket (hctl t) x)), l. split; [lia|done].
Qed.

Lemma shape_elem p : p ∈ mjoin bs → is_Some (heap t !! p).
Proof.
  intros (b & l & Hb & Hp)%elem_of_join. destruct (sh_buckets _ _ _ Hsh b l Hb) as (h & _ & Hc). by eapply chain_elem.
Qed.
Lemma shape_free_elem p : p ∈ mjoin fs → is_Some (heap t !! p).
Proof. intros (i & l & Hi & Hp)%elem_of_join. eapply chain_elem; [by apply (sh_free _ _ _ Hsh i)|done]. Qed.
End shape.

Lemma lookup_run bs fs hv s :
  shape (tab s) bs fs →
  ∃ b l, calc_bucket (hctl (tab s)) hv = Z.of_nat b ∧ bs !! b = Some l ∧
    hash_initial_lookup hv s = (Ok (Z.of_nat b, bucket_slot (Z.of_nat b)), s).
Proof.
  intros Hsh. destruct (shape_calc Hsh hv) as (b & l & Hb & Hl). exists b, l. split; [done|]. split; [done|].
  unfold hash_initial_lookup, mbind, M_bind, gets. simpl. rewrite Hb, shiftr_bucket.
  destruct (sh_buckets _ _ _ Hsh b l Hl) as (h & Hh & _). unfold bucket_head in Hh.
  destruct (dir (tab s) !! (b / 256)%nat) as [[seg|]|]; [done|done|done].
Qed.
End inv.
End DynahashInv.
