(* ===== verification/DynahashKeys.v ===== *)
(** * DynahashKeys: keys that are blobs and keys that are strings

    The functions that hash_create chooses for HASH_BLOBS and for HASH_STRINGS
    agree on which keys are the same: two keys match when their copies in the
    table would be equal, and then they hash alike. *)

From Stdlib Require Import ZArith Lia Bool Strings.Byte.
From stdpp Require Import base tactics numbers list gmap strings.
From S2P Require Import Prelude HashFn Dynahash DynahashInv.
Import Dynahash DynahashInv.

Local Open Scope Z_scope.
Local Open Scope pg_scope.

Module DynahashKeys.

(** ** Canonical keys *)

Section canon.
Context {V : Type} (valid : list byte → Prop).
Implicit Types (t : HTAB V) (k : list byte).

(** The copy that an entry of key [k] holds. *)
Definition canon t k : list byte := keycopy t k (keysize t).

Record key_canon t : Prop := {
  kc_hash k : valid k → is_u32 (hash t k (keysize t));
  kc_valid k : valid k → valid (canon t k);
  kc_idem k : valid k → canon t (canon t k) = canon t k;
  kc_match k1 k2 : valid k1 → valid k2 → match_ t k1 k2 (keysize t) = 0 ↔ canon t k1 = canon t k2;
  kc_resp k1 k2 : valid k1 → valid k2 → canon t k1 = canon t k2 → hash t k1 (keysize t) = hash t k2 (keysize t);
}.

Lemma key_canon_laws t : key_canon t → key_laws valid t.
Proof.
  intros [H1 H2 H3 H4 H5]. constructor.
  - done.
  - intros k Hk. split; [by apply H2|]. apply H4; [by apply H2|done|by apply H3].
  - intros k1 k2 Hk1 Hk2. rewrite !H4 by done. done.
  - intros k1 k2 k3 Hk1 Hk2 Hk3. rewrite !H4 by done. congruence.
  - intros k1 k2 Hk1 Hk2 Hm. apply H5; [done|done|]. by apply H4.
Qed.
End canon.

(** ** Comparing bytes *)

Lemma byte_val_inj x y : byte_val x = byte_val y → x = y.
Proof.
  unfold byte_val. intros H. apply N2Z.inj in H. apply (f_equal Byte.of_N) in H. rewrite !Byte.of_to_N in H. by injection H.
Qed.

Lemma compare_bytes_eq a b : compare_bytes a b = 0 ↔ a = b.
Proof.
  revert b. induction a as [|x a IH]; intros [|y b]; simpl; [done|done|done|].
  destruct (Z.eqb_spec (byte_val x) (byte_val y)) as [E|E].
  - apply byte_val_inj in E as ->. rewrite IH. split; [by intros ->|by intros [= ->]].
  - split; [|by intros [= -> ->]]. by destruct (byte_val x <? byte_val y).
Qed.

Lemma hash_bytes_u32 be aligned k : is_u32 (hash_bytes be aligned k).
Proof.
  unfold hash_bytes. destruct (if aligned then _ else _) as [[a b] c]. pose proof (final_u32 a b c) as H.
  destruct (final a b c) as [[a' b'] c']. apply H.
Qed.

(** ** Blobs *)

Section blobs.
Context {V : Type}.
Implicit Types (t : HTAB V) (k : list byte).

Definition blob_key t k : Prop := keysize t <= Z.of_nat (length k).

Lemma load32_take n k : (4 <= n)%nat → load32 false (take n k) 0 = load32 false k 0.
Proof. intros Hn. unfold load32, at_. rewrite !nth_lookup, !lookup_take_lt by lia. done. Qed.

Lemma blob_canon t :
  0 < keysize t → hash t = tag_hash ∨ hash t = uint32_hash ∧ keysize t = 4 → match_ t = memcmp → keycopy t = memcpy →
  key_canon (blob_key t) t.
Proof.
  intros Hks Hh Hm Hc. unfold blob_key. constructor; unfold canon; rewrite ?Hm, ?Hc; unfold memcpy, memcmp.
  - intros k _. destruct Hh as [-> | [-> _]]; [apply hash_bytes_u32|].
    unfold uint32_hash, hash_bytes_uint32. pose proof (final_u32 (hash_init 4 +u load32 false k 0) (hash_init 4) (hash_init 4)) as H.
    destruct (final _ _ _) as [[a' b'] c']. apply H.
  - intros k Hk. rewrite length_take. lia.
  - intros k Hk. rewrite take_take. f_equal. lia.
  - intros k1 k2 _ _. apply compare_bytes_eq.
  - intros k1 k2 _ _ E. destruct Hh as [-> | [-> E4]]; [unfold tag_hash; by rewrite E|]. unfold uint32_hash. rewrite E4 in E.
    rewrite <- (load32_take 4 k1), <- (load32_take 4 k2) by lia. f_equal. change (Z.to_nat 4) with 4%nat in E. by rewrite E.
Qed.
End blobs.

(** ** Strings *)

Lemma cstring_prefix k : ∃ r, k = cstring k ++ r.
Proof.
  induction k as [|c k [r IH]]; simpl; [by exists []|]. destruct (Byte.eqb c x00) eqn:E; [by exists (c :: k)|]. exists r. simpl. by f_equal.
Qed.
Lemma cstring_no_nul k : x00 ∉ cstring k.
Proof.
  induction k as [|c k IH]; simpl; [apply not_elem_of_nil|]. destruct (Byte.eqb c x00) eqn:E; [apply not_elem_of_nil|].
  apply not_elem_of_cons. split; [|done]. intros <-. by vm_compute in E.
Qed.
Lemma cstring_terminated l : x00 ∉ l → cstring (l ++ [x00]) = l.
Proof.
  induction l as [|c l IH]; simpl; [done|]. intros [Hc Hl]%not_elem_of_cons. destruct (Byte.eqb c x00) eqn:E.
  - destruct Hc. symmetry. by apply Byte.byte_dec_bl.
  - by rewrite IH.
Qed.

Section strings.
Context {V : Type}.
Implicit Types (t : HTAB V) (k : list byte).

(** Keys are NUL-terminated. *)
Definition string_key k : Prop := x00 ∈ k.

Lemma string_hash_prefix k n :
  1 <= n → string_hash k n = hash_bytes false false (take (Z.to_nat (n - 1)) (cstring k)).
Proof.
  intros Hn. unfold string_hash. f_equal. destruct (cstring_prefix k) as [r E].
  rewrite E at 2. destruct (Z.min_spec (Z.of_nat (length (cstring k))) (n - 1)) as [[H ->]|[H ->]].
  - rewrite Nat2Z.id, take_app_length. symmetry. apply take_ge. lia.
  - rewrite take_app_le by lia. done.
Qed.

Lemma take_no_nul n k : x00 ∉ take n (cstring k).
Proof. intros Hin. apply (cstring_no_nul k). by eapply elem_of_take in Hin as (? & ? & _); eapply list_elem_of_lookup_2. Qed.

Lemma string_canon t :
  1 <= keysize t → hash t = string_hash → match_ t = string_compare → keycopy t = strlcpy → key_canon string_key t.
Proof.
  intros Hks Hh Hm Hc. unfold canon, string_key.
  assert (∀ k, cstring (strlcpy k (keysize t)) = take (Z.to_nat (keysize t - 1)) (cstring k)) as Hcs.
  { intros k. apply cstring_terminated, take_no_nul. }
  constructor; unfold canon; rewrite ?Hm, ?Hc, ?Hh.
  - intros k _. apply hash_bytes_u32.
  - intros k _. unfold strlcpy. apply elem_of_app. right. left.
  - intros k _. unfold strlcpy at 1. rewrite Hcs, take_take. unfold strlcpy. do 2 f_equal. lia.
  - intros k1 k2 _ _. unfold string_compare, strncmp, strlcpy. rewrite compare_bytes_eq. split; [by intros ->|].
    intros E. by apply app_inj_tail in E as [? _].
  - intros k1 k2 _ _ E. rewrite !string_hash_prefix by done. unfold strlcpy in E. apply app_inj_tail in E as [-> _]. done.
Qed.
End strings.
End DynahashKeys.
