(* ===== verification/DynahashOps.v ===== *)
(** * DynahashOps: finding, entering and removing

    The steps of the operations on a well-shaped table: writing a place of a
    bucket, changing a free list, taking and returning elements.  From them,
    what hash_search does to the entries, for every action and outcome. *)

From Stdlib Require Import ZArith Lia Bool Strings.Byte.
From stdpp Require Import base tactics numbers list gmap strings.
From S2P Require Import Prelude HashFn Dynahash DynahashChain DynahashInv.
Import Dynahash DynahashChain DynahashInv.

Local Open Scope Z_scope.
Local Open Scope pg_scope.
#[local] Arguments Nat.div : simpl never.
#[local] Arguments Nat.modulo : simpl never.

Module DynahashOps.

Section ops.
Context {V : Type} (uninit : Z → HASHELEMENT V) (valid : list byte → Prop).
Implicit Types (m : gmap Z (HASHELEMENT V)) (p q : Z) (l : list Z) (t : HTAB V) (s : HashState V) (b i : nat).
Implicit Types (bs fs : list (list Z)) (E : gmap Z (list byte * V)).

(** ** Steps that keep the shape *)

Lemma payload_dom m m' p : same_payload m m' → is_Some (m' !! p) ↔ is_Some (m !! p).
Proof. intros H. specialize (H p). rewrite <- !(fmap_is_Some payload), H. done. Qed.

Lemma dir_ok_touches ks l1 t t' : touches ks l1 t t' → dir_ok t → dir_ok t'.
Proof.
  intros Ht [H1 H2 H3 H4]. destruct (to_dir _ _ _ _ Ht) as [Hl Hd]. constructor; rewrite ?(to_hctl _ _ _ _ Ht); [by rewrite Hl|done| |done].
  intros i Hi. destruct (H3 i Hi) as (seg & Hs & Hlen). destruct (Hd i seg Hs) as (seg' & Hs' & Hlen'). exists seg'. split; [done|lia].
Qed.

Lemma shape_write t bs fs b l1 l2 v l' :
  shape t bs fs → bs !! b = Some (l1 ++ l2) → chain (heap t) v l' →
  NoDup (mjoin (<[b := l1 ++ l']> bs) ++ mjoin fs) →
  shape (set_slot (place b l1) v t) (<[b := l1 ++ l']> bs) fs ∧ touches [b] l1 t (set_slot (place b l1) v t).
Proof.
  intros Hsh Hb Hv Hnd. pose proof (join_nodup _ _ _ (shape_bs_nodup Hsh) Hb) as Hndl.
  apply NoDup_app in Hndl as (Hnd1 & _ & _).
  assert (l' ## l1) as Hdis.
  { assert (NoDup (l1 ++ l')) as (_ & Hd & _)%NoDup_app; [|intros p Hp Hp'; by apply (Hd p)].
    apply NoDup_app in Hnd as (Hnd & _). eapply join_nodup; [exact Hnd|]. apply list_lookup_insert_eq. by eapply lookup_lt_Some. }
  destruct (set_place b l1 l2 v l' t (sh_buckets _ _ _ Hsh _ _ Hb) Hnd1 Hv Hdis) as [Hbc Hto]. split; [|done].
  assert (∀ b' l, b' ≠ b → bs !! b' = Some l → l ## l1) as Hother.
  { intros b' l Hne Hl p Hp Hp'. apply (shape_bucket_disjoint Hsh b' l b (l1 ++ l2) Hl Hb Hne p Hp). apply elem_of_app. by left. }
  destruct Hsh as [A1 A2 A3 A4 A5 A6 A7 A8 A9 A10].
  constructor; rewrite ?(to_hctl _ _ _ _ Hto), ?(to_next _ _ _ _ Hto); try done.
  - by eapply dir_ok_touches.
  - by rewrite length_insert.
  - intros b' l Hl. destruct (decide (b' = b)) as [->|Hne].
    + rewrite list_lookup_insert_eq in Hl by (by eapply lookup_lt_Some). by simplify_eq.
    + rewrite list_lookup_insert_ne in Hl by done. destruct (A4 b' l Hl) as (h & Hh & Hc). exists h.
      split; [by rewrite (to_heads _ _ _ _ Hto) by (by rewrite list_elem_of_singleton)|]. apply (to_chains _ _ _ _ _ _ Hto); [by eapply Hother|done].
  - intros i l Hl. apply (to_chains _ _ _ _ _ _ Hto); [|by apply A6]. intros p Hp Hp'.
    apply NoDup_app in A8 as (_ & Hd & _). apply (Hd p); apply elem_of_join; [|eauto].
    exists b, (l1 ++ l2). split; [done|]. apply elem_of_app. by left.
  - intros p Hp. apply A9. by rewrite (payload_dom _ _ p (to_payload _ _ _ _ Hto)) in Hp.
Qed.

(** The link of an element that is in no chain. *)
Lemma shape_link t bs fs p v :
  shape t bs fs → p ∉ mjoin bs → p ∉ mjoin fs → shape (set_slot (SLink p) v t) bs fs.
Proof.
  intros Hsh Hpb Hpf.
  assert (∀ h l, p ∉ l → chain (heap t) h l → chain (alter (set_link v) p (heap t)) h l) as Hch.
  { intros h l Hp. apply chain_ext. intros q Hq. rewrite lookup_alter_ne; [done|]. by intros ->. }
  destruct Hsh as [A1 A2 A3 A4 A5 A6 A7 A8 A9 A10]. constructor; try done.
  - by destruct A2.
  - intros b l Hl. destruct (A4 b l Hl) as (h & Hh & Hc). exists h. split; [done|]. apply Hch; [|done].
    intros Hin. apply Hpb, elem_of_join. eauto.
  - intros i l Hl. simpl. apply Hch; [|by apply A6]. intros Hin. apply Hpf, elem_of_join. eauto.
  - intros q. simpl. rewrite lookup_alter. case_decide; [subst; rewrite fmap_is_Some|]; apply A9.
Qed.

Lemma set_link_payload t p v : same_payload (heap t) (heap (set_slot (SLink p) v t)).
Proof. intros q. simpl. rewrite lookup_alter. case_decide; [|done]. subst. by destruct (heap t !! q). Qed.

Definition set_freelist i (fl : FreeListData) t : HTAB V :=
  with_hctl (with_freeLists (<[i := fl]> (freeLists (hctl t))) (hctl t)) t.

Lemma put_freelist_run i fl s : put_freelist (Z.of_nat i) fl s = (Ok tt, with_tab (set_freelist i fl (tab s)) s).
Proof. unfold put_freelist, on_hctl, on_tab, modify, set_freelist. by rewrite Nat2Z.id. Qed.

Lemma get_set_freelist i fl t j :
  (i < length (freeLists (hctl t)))%nat →
  get_freelist (Z.of_nat j) (hctl (set_freelist i fl t)) = if decide (j = i) then fl else get_freelist (Z.of_nat j) (hctl t).
Proof.
  intros Hi. unfold get_freelist, set_freelist. simpl. rewrite !Nat2Z.id, !nth_lookup. case_decide as Hj.
  - subst. by rewrite list_lookup_insert_eq.
  - by rewrite list_lookup_insert_ne by done.
Qed.

Lemma shape_freelist t bs fs i f fl f' :
  shape t bs fs → fs !! i = Some f → chain (heap t) (freeList fl) f' →
  NoDup (mjoin bs ++ mjoin (<[i := f']> fs)) → (IS_PARTITIONED (hctl t) = false → i = 0%nat) →
  shape (set_freelist i fl t) bs (<[i := f']> fs).
Proof.
  intros Hsh Hi Hc Hnd Hpart. destruct Hsh as [A1 A2 A3 A4 A5 A6 A7 A8 A9 A10].
  assert (i < 32)%nat as Hi32 by (destruct A5 as [<- _]; by eapply lookup_lt_Some).
  constructor; try done.
  - destruct A1 as [k []]. exists k. by constructor.
  - by destruct A2.
  - simpl. by rewrite !length_insert.
  - intros j l Hl. rewrite get_set_freelist by lia. destruct (decide (j = i)) as [->|Hne].
    + rewrite list_lookup_insert_eq in Hl by lia. by simplify_eq.
    + rewrite list_lookup_insert_ne in Hl by done. by apply A6.
  - intros HP j l Hl Hj. rewrite (Hpart HP), list_lookup_insert_ne in Hl by done. by eapply A7.
Qed.

(** ** Taking a free element *)

(** [p] is in no chain. *)
Definition loose t bs fs p : Prop := is_Some (heap t !! p) ∧ (p ∉ mjoin bs) ∧ (p ∉ mjoin fs).

(** What the operations leave of a table's parameters. *)
Record same_conf t t' : Prop := {
  sc_keys : hash t' = hash t ∧ match_ t' = match_ t ∧ keycopy t' = keycopy t ∧ keysize t' = keysize t;
  sc_flags : frozen t' = frozen t ∧ isshared t' = isshared t;
  sc_part : num_partitions (hctl t') = num_partitions (hctl t) ∧ isfixed (hctl t') = isfixed (hctl t) ∧
    nelem_alloc (hctl t') = nelem_alloc (hctl t);
}.
#[global] Instance same_conf_preorder : PreOrder same_conf.
Proof.
  split; [by constructor|]. intros t1 t2 t3 [(? & ? & ? & ?) (? & ?) (? & ? & ?)] [(? & ? & ? & ?) (? & ?) (? & ? & ?)].
  constructor; split_and!; congruence.
Qed.

(** Same buckets: bucket numbers and free-list numbers are computed alike. *)
Definition same_masks t t' : Prop :=
  max_bucket (hctl t') = max_bucket (hctl t) ∧ high_mask (hctl t') = high_mask (hctl t) ∧ low_mask (hctl t') = low_mask (hctl t).

Lemma calc_bucket_same t t' x : same_masks t t' → calc_bucket (hctl t') x = calc_bucket (hctl t) x.
Proof. intros (E1 & E2 & E3). unfold calc_bucket. by rewrite E1, E2, E3. Qed.

Lemma idx_same t t' x : same_conf t t' → FREELIST_IDX (hctl t') x = FREELIST_IDX (hctl t) x.
Proof. intros [_ _ (E & _)]. unfold FREELIST_IDX, IS_PARTITIONED. by rewrite E. Qed.

Lemma pop_free t bs fs i p f n e :
  shape t bs fs → fs !! i = Some (p :: f) → heap t !! p = Some e → (IS_PARTITIONED (hctl t) = false → i = 0%nat) →
  shape (set_freelist i {| nentries := n; freeList := link e |} t) bs (<[i := f]> fs) ∧
  loose (set_freelist i {| nentries := n; freeList := link e |} t) bs (<[i := f]> fs) p ∧
  S (length (mjoin (<[i := f]> fs))) = length (mjoin fs).
Proof.
  intros Hsh Hi He Hpart.
  pose proof (join_take_drop fs i _ Hi) as P1. pose proof (join_insert fs i _ f Hi) as P2.
  pose proof (sh_nodup _ _ _ Hsh) as Hnd. rewrite P1 in Hnd. simpl in Hnd.
  assert (NoDup (p :: (mjoin bs ++ mjoin (<[i := f]> fs)))) as [Hp Hnd']%NoDup_cons.
  { rewrite P2. eapply NoDup_Permutation_proper; [|exact Hnd]. solve_Permutation. }
  rewrite not_elem_of_app in Hp. destruct Hp as [Hpb Hpf].
  split_and!; [|split_and!; [by exists e|done|done]|].
  - eapply shape_freelist; [done|exact Hi| |done|done]. pose proof (sh_free _ _ _ Hsh i _ Hi) as (_ & e' & He' & Hc).
    by simplify_eq.
  - rewrite P1, P2. done.
Qed.

Lemma push_free t bs fs i f p n :
  shape t bs fs → loose t bs fs p → fs !! i = Some f → (IS_PARTITIONED (hctl t) = false → i = 0%nat) →
  let t1 := set_slot (SLink p) (freeList (get_freelist (Z.of_nat i) (hctl t))) t in
  shape (set_freelist i {| nentries := n; freeList := Some p |} t1) bs (<[i := p :: f]> fs) ∧
  length (mjoin (<[i := p :: f]> fs)) = S (length (mjoin fs)).
Proof.
  intros Hsh ([e He] & Hpb & Hpf) Hi Hpart t1.
  pose proof (join_take_drop fs i _ Hi) as P1. pose proof (join_insert fs i _ (p :: f) Hi) as P2.
  split; [|by rewrite P1, P2].
  pose proof (shape_link t bs fs p (freeList (get_freelist (Z.of_nat i) (hctl t))) Hsh Hpb Hpf) as Hsh1. fold t1 in Hsh1.
  eapply shape_freelist; [done|exact Hi| | |done].
  - split; [done|]. unfold t1. simpl. rewrite lookup_alter_eq, He. eexists. split; [done|]. simpl.
    apply (sh_free _ _ _ Hsh1 i _ Hi).
  - pose proof (sh_nodup _ _ _ Hsh) as Hnd. rewrite P2. rewrite P1 in Hnd, Hpf.
    assert (NoDup (p :: (mjoin bs ++ f ++ mjoin (take i fs ++ drop (S i) fs)))) as Hnd'.
    { apply NoDup_cons. rewrite not_elem_of_app. done. }
    eapply NoDup_Permutation_proper; [|exact Hnd']. solve_Permutation.
Qed.

(** ** New elements *)

Lemma link_elements_run n tmp prev l s :
  chain (heap (tab s)) prev l → (∀ q, is_Some (heap (tab s) !! q) → q < tmp) →
  ∃ m r, link_elements uninit n tmp prev s = (Ok r, with_tab (with_heap m (next_ptr (tab s)) (tab s)) s) ∧
    chain m r (reverse (seqZ tmp (Z.of_nat n)) ++ l) ∧
    (∀ q, q < tmp → m !! q = heap (tab s) !! q) ∧ (∀ q, is_Some (m !! q) → q < tmp + Z.of_nat n).
Proof.
  revert tmp prev l s. induction n as [|n IH]; intros tmp prev l s Hc Hf; cbn [link_elements].
  { exists (heap (tab s)), prev. split_and!; [by destruct s as [? []]|done|done|]. intros q Hq. apply Hf in Hq. lia. }
  unfold put_element, on_tab, modify, mbind, M_bind.
  set (m1 := <[tmp := set_link prev (uninit tmp)]> (heap (tab s))).
  set (s1 := with_tab (with_heap m1 (next_ptr (tab s)) (tab s)) s).
  destruct (IH (tmp + 1) (Some tmp) (tmp :: l) s1) as (m & r & E & H1 & H2 & H3).
  - split; [done|]. simpl. unfold m1. rewrite lookup_insert_eq. eexists. split; [done|]. simpl. apply chain_other; [|done].
    intros Hin. destruct (chain_elem _ _ _ _ Hc Hin) as [e He]. assert (tmp < tmp); [apply Hf; by exists e|lia].
  - simpl. intros q. unfold m1. rewrite lookup_insert. case_decide; [subst; lia|]. intros Hq. apply Hf in Hq. lia.
  - exists m, r. split_and!; [exact E| | |].
    + rewrite (seqZ_cons tmp) by lia. rewrite reverse_cons, <- (assoc_L app). simpl.
      replace (Z.succ tmp) with (tmp + 1) by lia. replace (Z.pred (Z.of_nat (S n))) with (Z.of_nat n) by lia. done.
    + intros q Hq. rewrite H2 by lia. simpl. unfold m1. by rewrite lookup_insert_ne by lia.
    + intros q Hq. apply H3 in Hq. lia.
Qed.

(** Everything but the table; the allocator moves on in its schedule. *)
Record same_env s s' : Prop := {
  se_self : self s' = self s;
  se_scans : seq_scans s' = seq_scans s;
  se_nest : nest_level s' = nest_level s;
  se_schedule ok : ok ∈ alloc_schedule s' → ok ∈ alloc_schedule s;
}.
#[global] Instance same_env_preorder : PreOrder same_env.
Proof. split; [by constructor|]. intros s1 s2 s3 [] []. constructor; [congruence..|auto]. Qed.

Lemma same_env_tab t s : same_env s (with_tab t s).
Proof. by constructor. Qed.

Lemma alloc_run s :
  ∃ ok s', alloc s = (Ok ok, s') ∧ tab s' = tab s ∧ same_env s s' ∧ (ok = false → false ∈ alloc_schedule s).
Proof.
  unfold alloc. destruct (alloc_schedule s) as [|ok l] eqn:E; [exists true, s; by split_and!|].
  exists ok, (with_schedule l s). split_and!; [done|done| |intros ->; left]. constructor; [done..|]. rewrite E. simpl. by right.
Qed.

(** Element memory is not to be had. *)
Definition no_memory s : Prop := isfixed (hctl (tab s)) = true ∨ false ∈ alloc_schedule s.

(** Elements of new memory come to a free list. *)
Lemma free_added_nodup bs fs i f new first : fs !! i = Some f → NoDup (mjoin bs ++ mjoin fs) → NoDup new →
  (∀ q, q ∈ new → first <= q) → (∀ q, q ∈ mjoin bs ∨ q ∈ mjoin fs → q < first) →
  NoDup (mjoin bs ++ mjoin (<[i := new ++ f]> fs)).
Proof.
  intros Hi Hnd Hnew Hge Hlt. rewrite (join_insert fs i _ _ Hi). rewrite (join_take_drop fs i _ Hi) in Hnd.
  assert (NoDup (new ++ (mjoin bs ++ f ++ mjoin (take i fs ++ drop (S i) fs)))) as Hnd'.
  { apply NoDup_app. split_and!; [done|intros q Hq%Hge Hq'|done]. assert (q < first); [|lia].
    apply Hlt. rewrite (join_take_drop fs i _ Hi). rewrite elem_of_app in Hq'. naive_solver. }
  eapply NoDup_Permutation_proper; [|exact Hnd']. solve_Permutation.
Qed.

(** New memory leaves the chains as they are. *)
Lemma shape_new_memory t bs fs m n : shape t bs fs → (∀ q, q < next_ptr t → m !! q = heap t !! q) →
  (∀ q, is_Some (m !! q) → q < n) → (∀ q, q ∈ mjoin bs ∨ q ∈ mjoin fs → q < next_ptr t) → shape (with_heap m n t) bs fs.
Proof.
  intros [A1 A2 A3 A4 A5 A6 A7 A8 A9 A10] Hold Hnew Hlt. constructor; try done.
  - by destruct A2.
  - intros b l Hl. destruct (A4 b l Hl) as (h & Hh & Hc). exists h. split; [done|]. eapply chain_ext; [|exact Hc].
    intros q Hq. simpl. rewrite Hold; [done|]. apply Hlt. left. apply elem_of_join. eauto.
  - intros k l Hl. eapply chain_ext; [|by apply A6]. intros q Hq. simpl. rewrite Hold; [done|]. apply Hlt. right.
    apply elem_of_join. eauto.
Qed.

(** Element memory was not in use. *)
Lemma element_alloc_run bs fs i f n s :
  shape (tab s) bs fs → fs !! i = Some f → 1 <= n → (IS_PARTITIONED (hctl (tab s)) = false → i = 0%nat) →
  ∃ ok s', element_alloc uninit n (Z.of_nat i) s = (Ok ok, s') ∧
    same_env s s' ∧
    if ok then
      isfixed (hctl (tab s)) = false ∧
      ∃ new, Z.of_nat (length new) = n ∧ shape (tab s') bs (<[i := new ++ f]> fs) ∧
        same_conf (tab s) (tab s') ∧ same_masks (tab s) (tab s') ∧
        (∀ q, q < next_ptr (tab s) → payload <$> heap (tab s') !! q = payload <$> heap (tab s) !! q) ∧
        (∀ j, nentries (get_freelist (Z.of_nat j) (hctl (tab s'))) = nentries (get_freelist (Z.of_nat j) (hctl (tab s))))
    else tab s' = tab s ∧ no_memory s.
Proof.
  intros Hsh Hi Hn Hpart. unfold element_alloc. rewrite (M_bind_run _ _ _ (hctl (tab s)) s) by done.
  destruct (isfixed (hctl (tab s))) eqn:Hfix; [exists false, s; split_and!; [done..|by left]|].
  destruct (alloc_run s) as (ok & s1 & E1 & Ht & Henv & Hno). rewrite (M_bind_run _ _ _ _ _ E1).
  destruct ok; cbn [negb]; [clear Hno|exists false, s1; split_and!; [done..|right; auto]].
  set (first := next_ptr (tab s)). rewrite (M_bind_run _ _ _ first s1) by (unfold first; rewrite <- Ht; done).
  set (t2 := with_heap (heap (tab s)) (first + n) (tab s)).
  rewrite (M_bind_run _ _ _ tt (with_tab t2 s1)) by (unfold t2; rewrite <- Ht; done).
  destruct (link_elements_run (Z.to_nat n) first None [] (with_tab t2 s1)) as (m & r & E2 & Hch & Hold & Hnew);
    [done|intros q; apply (sh_fresh _ _ _ Hsh)|].
  rewrite (M_bind_run _ _ _ _ _ E2), Z2Nat.id in * by lia. rewrite app_nil_r in Hch. clear E2.
  set (t3 := with_heap m (first + n) (tab s)) in *.
  change (with_heap m (next_ptr (tab (with_tab t2 s1))) (tab (with_tab t2 s1))) with t3.
  assert (reverse (seqZ first n) = reverse (seqZ (Z.succ first) (Z.pred n)) ++ [first]) as Hrev.
  { rewrite (seqZ_cons first) by lia. by rewrite reverse_cons. }
  set (new' := reverse (seqZ (Z.succ first) (Z.pred n))) in *. rewrite Hrev in Hch.
  destruct (chain_elem _ _ _ first Hch) as [e He]; [apply elem_of_app; right; left|].
  assert (∀ q, q ∈ new' ↔ first < q < first + n) as Hnew'.
  { intros q. unfold new'. rewrite elem_of_reverse, elem_of_seqZ. lia. }
  assert (∀ q, q ∈ mjoin bs ∨ q ∈ mjoin fs → q < first) as Hlt.
  { intros q Hq. apply (sh_fresh _ _ _ Hsh). destruct Hq; [by apply (shape_elem Hsh)|by apply (shape_free_elem Hsh)]. }
  assert (shape t3 bs fs) as Hsh3 by (by apply shape_new_memory).
  set (fl := get_freelist (Z.of_nat i) (hctl (tab s))).
  rewrite (M_bind_run _ _ _ fl (with_tab t3 (with_tab t2 s1))) by done.
  rewrite (M_bind_run _ _ _ _ _ (write_link first (freeList fl) (with_tab t3 (with_tab t2 s1)) ltac:(by exists e))).
  rewrite (M_bind_run _ _ _ _ _ (put_freelist_run i _ _)). cbn [tab with_tab].
  set (t4 := set_slot (SLink first) (freeList fl) t3).
  exists true. eexists. split; [reflexivity|]. cbn [tab with_tab]. split; [etrans; [exact Henv|by constructor]|]. split; [done|].
  exists (new' ++ [first]). assert ((first ∉ mjoin bs) ∧ (first ∉ mjoin fs)) as [Hfb Hff].
  { split; intros Hin; specialize (Hlt first); assert (first < first) by auto; lia. }
  pose proof (shape_link t3 bs fs first (freeList fl) Hsh3 Hfb Hff) as Hsh4. fold t4 in Hsh4.
  split_and!.
  - unfold new'. rewrite length_app, length_reverse, length_seqZ. simpl. lia.
  - eapply shape_freelist; [exact Hsh4|exact Hi| | |done].
    + unfold t4. simpl. rewrite (alter_insert _ _ _ _ He), <- (assoc_L app). simpl.
      eapply chain_relink; [exact Hch| |done| |].
      * rewrite Hnew'. lia.
      * intros Hin. assert (first < first); [|lia]. apply Hlt. right. apply elem_of_join. eauto.
      * eapply (sh_free _ _ _ Hsh3). done.
    + apply (free_added_nodup bs fs i f _ first Hi (sh_nodup _ _ _ Hsh)); [|intros q Hq|exact Hlt].
      * rewrite <- Hrev, reverse_Permutation. apply NoDup_seqZ.
      * rewrite elem_of_app, Hnew', list_elem_of_singleton in Hq. lia.
  - by constructor.
  - done.
  - intros q Hq. etrans; [apply (set_link_payload t3 first (freeList fl) q)|]. simpl. by rewrite Hold.
  - intros j. rewrite get_set_freelist by (destruct (sh_nf _ _ _ Hsh) as [_ Hnf]; simpl; rewrite Hnf;
      destruct (sh_nf _ _ _ Hsh) as [<- _]; by eapply lookup_lt_Some).
    case_decide; [by subst|done].
Qed.

(** ** Taking an element *)

(** What changes of a table when elements are taken: not the live ones. *)
Record takes bs s s' : Prop := {
  ta_env : same_env s s';
  ta_conf : same_conf (tab s) (tab s');
  ta_masks : same_masks (tab s) (tab s');
  ta_payload q : q ∈ mjoin bs → payload <$> heap (tab s') !! q = payload <$> heap (tab s) !! q;
}.

(** [p] was taken and counted in free list [i]. *)
Record taken i bs fs' p s s' : Prop := {
  tk_takes : takes bs s s';
  tk_shape : shape (tab s') bs fs';
  tk_loose : loose (tab s') bs fs' p;
  tk_count j : (j < 32)%nat → nentries (get_freelist (Z.of_nat j) (hctl (tab s'))) =
    nentries (get_freelist (Z.of_nat j) (hctl (tab s))) + (if decide (j = i) then 1 else 0);
}.

Lemma take_own bs fs i p f s e :
  shape (tab s) bs fs → fs !! i = Some (p :: f) → heap (tab s) !! p = Some e → (IS_PARTITIONED (hctl (tab s)) = false → i = 0%nat) →
  let fl := {| nentries := nentries (get_freelist (Z.of_nat i) (hctl (tab s))) + 1; freeList := link e |} in
  taken i bs (<[i := f]> fs) p s (with_tab (set_freelist i fl (tab s)) s) ∧
  S (length (mjoin (<[i := f]> fs))) = length (mjoin fs).
Proof.
  intros Hsh Hi He Hpart fl. destruct (pop_free (tab s) bs fs i p f (nentries fl) e Hsh Hi He Hpart) as (H1 & H2 & H3).
  split; [|done]. constructor; [|done|done|].
  - constructor; done.
  - intros j Hj. cbn [tab with_tab]. rewrite get_set_freelist by (destruct (sh_nf _ _ _ Hsh) as [<- ->]; by eapply lookup_lt_Some).
    case_decide; [by subst|lia].
Qed.

Lemma free_head t bs fs i f :
  shape t bs fs → fs !! i = Some f →
  match freeList (get_freelist (Z.of_nat i) (hctl t)) with
  | Some p => ∃ f' e, f = p :: f' ∧ heap t !! p = Some e
  | None => f = []
  end.
Proof.
  intros Hsh Hi. pose proof (sh_free _ _ _ Hsh i f Hi) as Hc. destruct f as [|p f]; simpl in Hc; [by rewrite Hc|].
  destruct Hc as (-> & e & He & _). eauto.
Qed.

(** From another list. *)
Lemma take_other bs fs i k p f s e :
  shape (tab s) bs fs → fs !! k = Some (p :: f) → k ≠ i → (i < 32)%nat → heap (tab s) !! p = Some e →
  IS_PARTITIONED (hctl (tab s)) = true →
  let t1 := set_freelist k {| nentries := nentries (get_freelist (Z.of_nat k) (hctl (tab s))); freeList := link e |} (tab s) in
  let own := get_freelist (Z.of_nat i) (hctl t1) in
  taken i bs (<[k := f]> fs) p s
    (with_tab (set_freelist i {| nentries := nentries own + 1; freeList := freeList own |} t1) s) ∧
  S (length (mjoin (<[k := f]> fs))) = length (mjoin fs).
Proof.
  intros Hsh Hk Hne Hi He HP t1 own.
  destruct (pop_free (tab s) bs fs k p f (nentries (get_freelist (Z.of_nat k) (hctl (tab s)))) e Hsh Hk He) as (H1 & H2 & H3);
    [by rewrite HP|]. fold t1 in H1, H2. split; [|done].
  assert (k < 32)%nat as Hk32 by (destruct (sh_nf _ _ _ Hsh) as [<- _]; by eapply lookup_lt_Some).
  destruct (sh_nf _ _ _ H1) as [Hnf Hnl]. destruct (lookup_lt_is_Some_2 (<[k := f]> fs) i) as [fi Hfi]; [lia|].
  constructor; [constructor; done| |done|].
  - cbn [tab with_tab]. rewrite <- (list_insert_id (<[k := f]> fs) i fi Hfi).
    eapply shape_freelist; [exact H1|exact Hfi|by apply (sh_free _ _ _ H1)| |].
    + rewrite list_insert_id by done. apply H1.
    + change (IS_PARTITIONED (hctl t1)) with (IS_PARTITIONED (hctl (tab s))). by rewrite HP.
  - intros j Hj. cbn [tab with_tab]. rewrite get_set_freelist by lia. destruct (sh_nf _ _ _ Hsh) as [_ Hnl0].
    unfold own, t1. rewrite !get_set_freelist by lia. repeat case_decide; subst; simpl; lia || done.
Qed.

(** The lists between [i] and the one reached are empty. *)
Lemma borrow_run bs fs i s n d :
  shape (tab s) bs fs → IS_PARTITIONED (hctl (tab s)) = true → (i < 32)%nat → d + Z.of_nat n = 32 → 0 <= d →
  (∀ k f, 1 <= (Z.of_nat k - Z.of_nat i) mod 32 <= d → fs !! k = Some f → f = []) →
  (∃ p fs' s', borrow_loop n (Z.of_nat i) ((Z.of_nat i + d) mod 32) s = (Ok (Some p), s') ∧
     taken i bs fs' p s s' ∧ S (length (mjoin fs')) = length (mjoin fs)) ∨
  (borrow_loop n (Z.of_nat i) ((Z.of_nat i + d) mod 32) s = (Ok None, s) ∧ ∀ k f, k ≠ i → fs !! k = Some f → f = []).
Proof.
  intros Hsh HP Hi. assert (∀ k f, fs !! k = Some f → (k < 32)%nat) as Hk32.
  { intros k f Hk. destruct (sh_nf _ _ _ Hsh) as [<- _]. by eapply lookup_lt_Some. }
  revert d. induction n as [|n IH]; intros d Hd Hd0 Hempty; cbn [borrow_loop].
  { right. split; [done|]. intros k f Hne Hk. apply (Hempty k); [|done]. pose proof (Hk32 k f Hk).
    Z.to_euclidean_division_equations; lia. }
  unfold NUM_FREELISTS.
  assert (((Z.of_nat i + d) mod 32 + 1) mod 32 = (Z.of_nat i + (d + 1)) mod 32) as -> by (Z.to_euclidean_division_equations; lia).
  destruct (Z.eqb_spec ((Z.of_nat i + (d + 1)) mod 32) (Z.of_nat i)) as [E|E].
  { right. split; [done|]. intros k f Hne Hk. apply (Hempty k); [|done]. pose proof (Hk32 k f Hk).
    Z.to_euclidean_division_equations; lia. }
  set (k := Z.to_nat ((Z.of_nat i + (d + 1)) mod 32)).
  assert (Z.of_nat k = (Z.of_nat i + (d + 1)) mod 32) as Ek by (unfold k; Z.to_euclidean_division_equations; lia).
  rewrite <- Ek in *. destruct (lookup_lt_is_Some_2 fs k) as [f Hf].
  { destruct (sh_nf _ _ _ Hsh) as [-> _]. Z.to_euclidean_division_equations; lia. }
  rewrite gets_run. cbn [compose].
  pose proof (free_head (tab s) bs fs k f Hsh Hf) as Hhead.
  destruct (freeList (get_freelist (Z.of_nat k) (hctl (tab s)))) as [p|] eqn:Efl.
  - left. destruct Hhead as (f' & e & -> & He). assert (k ≠ i) as Hki by (intros ->; lia).
    destruct (take_other bs fs i k p f' s e Hsh Hf Hki Hi He HP) as [Ht Hl]. exists p, (<[k := f']> fs).
    eexists. split; [|split; [exact Ht|exact Hl]].
    assert (element p s = (Ok e, s)) as Ee by (unfold element; by rewrite He).
    rewrite (M_bind_run _ _ _ _ _ Ee), (M_bind_run _ _ _ _ _ (put_freelist_run k _ _)).
    rewrite gets_run.
    rewrite (M_bind_run _ _ _ _ _ (put_freelist_run i _ _)). done.
  - subst f. rewrite Ek. apply IH; [lia|lia|]. intros k' f' Hk' Hf'. destruct (decide (k' = k)) as [->|Hne]; [by simplify_eq|].
    apply (Hempty k'); [|done]. pose proof (Hk32 k' f' Hf'). assert ((Z.of_nat k' - Z.of_nat i) mod 32 ≠ d + 1); [|lia].
    intros Hk1. apply Hne. apply Nat2Z.inj. rewrite Ek. Z.to_euclidean_division_equations; lia.
Qed.

Lemma takes_trans bs s1 s2 s3 : takes bs s1 s2 → takes bs s2 s3 → takes bs s1 s3.
Proof.
  intros [A1 A4 (A5 & A6 & A7) A8] [B1 B4 (B5 & B6 & B7) B8].
  constructor; [by etrans|by etrans|split_and!; congruence|]. intros q Hq. by rewrite B8, A8.
Qed.

Lemma join_nil (ls : list (list Z)) : (∀ k f, ls !! k = Some f → f = []) → mjoin ls = [].
Proof.
  intros H. destruct (mjoin ls) as [|p l] eqn:E; [done|]. assert (p ∈ mjoin ls) as (k & f & Hk & Hp)%elem_of_join by (rewrite E; left).
  rewrite (H k f Hk) in Hp. by apply not_elem_of_nil in Hp.
Qed.

(** get_hash_entry: an element in no chain, or NULL when no list has one left and
    the allocator gives none. *)
Lemma get_hash_entry_run bs fs i s :
  shape (tab s) bs fs → (i < 32)%nat → (IS_PARTITIONED (hctl (tab s)) = false → i = 0%nat) →
  (∃ p fs' s', get_hash_entry uninit (Z.of_nat i) s = (Ok (Some p), s') ∧ taken i bs fs' p s s' ∧
     (S (length (mjoin fs')) = length (mjoin fs) ∨
      isfixed (hctl (tab s)) = false ∧ Z.of_nat (S (length (mjoin fs'))) = Z.of_nat (length (mjoin fs)) + nelem_alloc (hctl (tab s)))) ∨
  (∃ s', get_hash_entry uninit (Z.of_nat i) s = (Ok None, s') ∧ takes bs s s' ∧ tab s' = tab s ∧ mjoin fs = [] ∧ no_memory s).
Proof.
  intros Hsh Hi Hpart. destruct (lookup_lt_is_Some_2 fs i) as [f Hf]; [by destruct (sh_nf _ _ _ Hsh) as [-> _]|].
  assert (∀ s bs fs p f, shape (tab s) bs fs → fs !! i = Some (p :: f) → (IS_PARTITIONED (hctl (tab s)) = false → i = 0%nat) →
    ∀ n, ∃ s', get_hash_entry_loop uninit (S n) (Z.of_nat i) s = (Ok (Some p), s') ∧ taken i bs (<[i := f]> fs) p s s' ∧
      S (length (mjoin (<[i := f]> fs))) = length (mjoin fs)) as Hown.
  { clear s bs fs f Hsh Hf Hpart. intros s bs fs p f Hsh Hf Hpart n. cbn [get_hash_entry_loop]. rewrite gets_run. cbn [compose].
    pose proof (free_head (tab s) bs fs i _ Hsh Hf) as Hhead.
    destruct (freeList (get_freelist (Z.of_nat i) (hctl (tab s)))) as [q|]; [|done]. destruct Hhead as (f' & e & [= <- <-] & He).
    destruct (take_own bs fs i p f s e Hsh Hf He Hpart) as [Ht Hl]. eexists. split; [|split; [exact Ht|exact Hl]].
    assert (element p s = (Ok e, s)) as Ee by (unfold element; by rewrite He).
    by rewrite (M_bind_run _ _ _ _ _ Ee), (M_bind_run _ _ _ _ _ (put_freelist_run i _ _)). }
  unfold get_hash_entry. destruct f as [|p f].
  2:{ left. destruct (Hown s bs fs p f Hsh Hf Hpart 1%nat) as (s' & E & Ht & Hl). exists p, (<[i := f]> fs), s'. eauto. }
  remember 1%nat as n eqn:En in |- *. cbn [get_hash_entry_loop]. rewrite gets_run. cbn [compose].
  pose proof (free_head (tab s) bs fs i _ Hsh Hf) as Hhead.
  destruct (freeList (get_freelist (Z.of_nat i) (hctl (tab s)))) as [q|]; [by destruct Hhead as (? & ? & ? & _)|].
  destruct (element_alloc_run bs fs i [] (nelem_alloc (hctl (tab s))) s Hsh Hf (sh_alloc _ _ _ Hsh) Hpart)
    as (ok & s1 & E1 & Henv & Hok). rewrite (M_bind_run _ _ _ _ _ E1). destruct ok; cbn [negb].
  - destruct Hok as (Hfix & new & Hnew & Hsh1 & Hconf & Hmasks & Hpay & Hcnt). left. rewrite app_nil_r in Hsh1.
    assert (takes bs s s1) as Ht1.
    { constructor; [done|done|done|]. intros q Hq. apply Hpay, (sh_fresh _ _ _ Hsh), (shape_elem Hsh), Hq. }
    destruct new as [|p new]; [pose proof (sh_alloc _ _ _ Hsh); simpl in Hnew; lia|].
    destruct (Hown s1 bs (<[i := p :: new]> fs) p new Hsh1) with (n := 0%nat) as (s2 & E2 & [Ht2 Hsh2 Hlo2 Hc2] & Hl2).
    { apply list_lookup_insert_eq. by eapply lookup_lt_Some. }
    { unfold IS_PARTITIONED in *. destruct (sc_part _ _ Hconf) as (-> & _). done. }
    subst n. exists p. eexists. exists s2. split; [exact E2|]. split.
    + constructor; [by eapply takes_trans|exact Hsh2|exact Hlo2|]. intros j Hj. rewrite Hc2, Hcnt by done. done.
    + right. split; [done|]. rewrite Hl2. rewrite (join_insert fs i _ _ Hf), (join_take_drop fs i _ Hf), !length_app. cbn [length] in *. lia.
  - destruct Hok as [Hok Hno]. assert (takes bs s s1) as Ht1 by (constructor; rewrite ?Hok; done).
    destruct (IS_PARTITIONED (hctl (tab s))) eqn:HP; cbn [negb].
    + rewrite <- Hok in Hsh, HP. destruct (borrow_run bs fs i s1 32 0 Hsh HP Hi) as [(p & fs' & s2 & E2 & [Ht2 ? ? Hc2] & Hl2)|[E2 Hall]].
      * done.
      * done.
      * intros k f' Hk. lia.
      * rewrite Z.add_0_r, Z.mod_small in E2 by lia. left. exists p, fs', s2. split; [exact E2|]. split; [|by left].
        constructor; [by eapply takes_trans|done|done|]. intros j Hj. by rewrite Hc2, Hok by done.
      * rewrite Z.add_0_r, Z.mod_small in E2 by lia. right. exists s1. split_and!; [exact E2|done|done| |done].
        apply join_nil. intros k f' Hk. destruct (decide (k = i)) as [->|Hne]; [by simplify_eq|eauto].
    + right. exists s1. split_and!; [done|done|done| |done]. apply join_nil. intros k f' Hk.
      destruct (decide (k = 0%nat)) as [->|Hne]; [|by eapply (sh_part _ _ _ Hsh HP)].
      rewrite (Hpart eq_refl) in Hf. by simplify_eq.
Qed.

(** ** Entries *)

Lemma payload_inv (x y : option (HASHELEMENT V)) e :
  payload <$> y = payload <$> x → y = Some e →
  ∃ e0, x = Some e0 ∧ hashvalue e = hashvalue e0 ∧ elem_key e = elem_key e0 ∧ elem_data e = elem_data e0.
Proof. intros H ->. destruct x as [e0|]; [|done]. simpl in H. injection H as ? ? ?. eauto. Qed.

Lemma placed_keeps t t' bs :
  placed t bs → same_conf t t' → same_masks t t' →
  (∀ q, q ∈ mjoin bs → payload <$> heap t' !! q = payload <$> heap t !! q) → placed t' bs.
Proof.
  intros Hp Hc Hm Hpay b l p e Hb Hin He. destruct (sc_keys _ _ Hc) as (-> & _ & _ & ->). rewrite (calc_bucket_same _ _ _ Hm).
  destruct (payload_inv _ _ e (Hpay p ltac:(apply elem_of_join; eauto)) He) as (e0 & He0 & -> & -> & _). by eapply Hp.
Qed.

Lemma entries_keep t t' bs E :
  entries_are t bs E → (∀ q, q ∈ mjoin bs → payload <$> heap t' !! q = payload <$> heap t !! q) → entries_are t' bs E.
Proof.
  intros HE Hpay p. rewrite HE. case_decide as Hin; [|done]. specialize (Hpay p Hin).
  destruct (heap t' !! p) as [e'|], (heap t !! p) as [e|]; simpl in *; try done. injection Hpay as _ Hk Hd. unfold entry. by rewrite Hk, Hd.
Qed.

(** The entry of a key, or that there is none. *)
Definition finds t E (k : list byte) (r : option Z) : Prop :=
  match r with
  | Some p => ∃ k' v, E !! p = Some (k', v) ∧ match_ t k' k (keysize t) = 0
  | None => ∀ p k' v, E !! p = Some (k', v) → match_ t k' k (keysize t) ≠ 0
  end.

Lemma entry_elem t bs fs E p k v :
  shape t bs fs → entries_are t bs E → E !! p = Some (k, v) →
  ∃ b l e, bs !! b = Some l ∧ p ∈ l ∧ heap t !! p = Some e ∧ elem_key e = k ∧ elem_data e = v.
Proof.
  intros Hsh HE Hp. rewrite HE in Hp. case_decide as Hin; [|done]. apply fmap_Some in Hp as (e & He & [= -> ->]).
  apply elem_of_join in Hin as (b & l & Hb & Hl). by exists b, l, e.
Qed.

Lemma locate_run bs fs E k s :
  key_laws valid (tab s) → entries_ok valid (tab s) E → shape (tab s) bs fs → placed (tab s) bs → entries_are (tab s) bs E → valid k →
  let hv := hash (tab s) k (keysize (tab s)) in
  ∃ b l r la, bs !! b = Some l ∧ calc_bucket (hctl (tab s)) hv = Z.of_nat b ∧
    hash_initial_lookup hv s = (Ok (Z.of_nat b, bucket_slot (Z.of_nat b)), s) ∧
    follow (key_matches (tab s) k hv) (bucket_slot (Z.of_nat b)) s = (Ok (r, place b la), s) ∧
    finds (tab s) E k r ∧ match r with Some p => ∃ lb, l = la ++ p :: lb | None => la = l end.
Proof.
  intros Hk HEok Hsh Hpl HE Hval hv. destruct (lookup_run bs fs hv s Hsh) as (b & l & Hb & Hl & E1).
  destruct (follow_run (key_matches (tab s) k hv) b l s (sh_buckets _ _ _ Hsh b l Hl) (join_nodup _ _ _ (shape_bs_nodup Hsh) Hl))
    as (r & la & E2 & Hst). exists b, l, r, la. split_and!; [done|done|done|done| |].
  - destruct Hst as [la p lb e -> He Hs _|Hnone].
    + unfold key_matches in Hs. apply andb_prop in Hs as [_ Hm%Z.eqb_eq]. exists (elem_key e), (elem_data e). split; [|done].
      rewrite HE. rewrite decide_True; [by rewrite He|]. apply elem_of_join. exists b, (la ++ p :: lb). split; [done|].
      apply elem_of_app. right. left.
    + intros p k' v Hp Hm. destruct (entry_elem _ _ _ _ _ _ _ Hsh HE Hp) as (b' & l' & e & Hb' & Hin & He & <- & <-).
      destruct (Hpl b' l' p e Hb' Hin He) as [Hhv Hcb]. pose proof (eo_valid _ _ _ HEok _ _ _ Hp) as Hv'.
      rewrite (kl_match _ _ Hk _ _ Hv' Hval Hm) in Hhv. fold hv in Hhv. rewrite Hhv, Hb in Hcb. apply Nat2Z.inj in Hcb. subst b'.
      simplify_eq. pose proof (Hnone p e Hin He) as Hf. unfold key_matches in Hf. rewrite Hhv, Hm, !Z.eqb_refl in Hf. done.
  - destruct Hst as [la p lb e -> He Hs _|_]; [by exists lb|done].
Qed.

(** The free list of a key. *)
Lemma key_freelist bs fs k s :
  key_laws valid (tab s) → shape (tab s) bs fs → valid k →
  ∃ i f, FREELIST_IDX (hctl (tab s)) (hash (tab s) k (keysize (tab s))) = Z.of_nat i ∧ fs !! i = Some f ∧ (i < 32)%nat ∧
    (IS_PARTITIONED (hctl (tab s)) = false → i = 0%nat).
Proof.
  intros Hk Hsh Hval. pose proof (kl_hash _ _ Hk k Hval) as Hu. unfold FREELIST_IDX.
  destruct (IS_PARTITIONED (hctl (tab s))) eqn:HP.
  - pose proof (Z.mod_pos_bound (hash (tab s) k (keysize (tab s))) NUM_FREELISTS ltac:(done)) as Hr. unfold NUM_FREELISTS in *.
    destruct (lookup_lt_is_Some_2 fs (Z.to_nat (hash (tab s) k (keysize (tab s)) mod 32))) as [f Hf].
    { destruct (sh_nf _ _ _ Hsh) as [-> _]. lia. }
    eexists _, f. split_and!; [|exact Hf|lia|done]. lia.
  - destruct (lookup_lt_is_Some_2 fs 0) as [f Hf]; [destruct (sh_nf _ _ _ Hsh) as [-> _]; lia|].
    exists 0%nat, f. split_and!; [done|done|lia|done].
Qed.
End ops.
End DynahashOps.
