(* ===== verification/DynahashExpand.v ===== *)
(** * DynahashExpand: growing a table by one bucket

    expand_table splits one bucket in two and moves no element in memory: the
    entries of the table and their addresses are what they were, and every
    element is in the bucket that the new masks give its hash value.  When there
    is no memory for a segment or a larger directory, the table stays as large as
    it was. *)

From Stdlib Require Import ZArith Lia Bool Strings.Byte.
From stdpp Require Import base tactics numbers list gmap strings.
From S2P Require Import Prelude HashFn Dynahash DynahashChain DynahashInv DynahashOps.
Import Dynahash DynahashChain DynahashInv DynahashOps.

Local Open Scope Z_scope.
Local Open Scope pg_scope.
#[local] Arguments Nat.div : simpl never.
#[local] Arguments Nat.modulo : simpl never.

Module DynahashExpand.

Section expand.
Context {V : Type} (valid : list byte → Prop).
Implicit Types (m : gmap Z (HASHELEMENT V)) (p q : Z) (l : list Z) (t : HTAB V) (s : HashState V) (b i : nat).
Implicit Types (bs fs : list (list Z)) (E : gmap Z (list byte * V)).

(** ** The directory *)

(** What the directory's growth leaves as it was. *)
Record grows s s' : Prop := {
  gr_env : same_env s s';
  gr_conf : same_conf (tab s) (tab s');
  gr_masks : same_masks (tab s) (tab s');
  gr_heap : heap (tab s') = heap (tab s) ∧ next_ptr (tab s') = next_ptr (tab s);
  gr_free : freeLists (hctl (tab s')) = freeLists (hctl (tab s));
}.
#[global] Instance grows_preorder : PreOrder grows.
Proof.
  split; [by constructor|].
  intros s1 s2 s3 [A' A (? & ? & ?) (? & ?) ?] [B' B (? & ? & ?) (? & ?) ?].
  constructor; [by etrans|by etrans|split_and!; congruence|split_and!; congruence|congruence].
Qed.

Lemma shape_grows bs fs s s' :
  shape (tab s) bs fs → grows s s' → dir_ok (tab s') →
  (∀ b, Z.of_nat b <= max_bucket (hctl (tab s)) → bucket_head (tab s') b = bucket_head (tab s) b) →
  shape (tab s') bs fs.
Proof.
  intros [[k [B1 B2 B3 B4]] A2 A3 A4 A5 A6 A7 A8 A9 A10] [_ [_ _ (C1 & C2 & C3)] (D1 & D2 & D3) [D4 D5] D6] Hd Hb.
  constructor; [exists k; constructor; congruence|done|congruence| |congruence| | |done| |congruence].
  - intros b l Hl. destruct (A4 b l Hl) as (h & Hh & Hc). exists h. split; [|by rewrite D4]. rewrite Hb; [done|].
    apply lookup_lt_Some in Hl. lia.
  - intros i l Hl. rewrite D4. unfold get_freelist. rewrite D6. by apply A6.
  - unfold IS_PARTITIONED. rewrite C1. done.
  - rewrite D4, D5. done.
Qed.

(** The segments in use are those of the buckets in use. *)
Lemma bucket_in_segs t b : dir_ok t → Z.of_nat b < nsegs (hctl t) * 256 → Z.of_nat (b / 256) < nsegs (hctl t) ∧ is_Some (bucket_head t b).
Proof.
  intros Hd Hb. assert (Z.of_nat (b / 256) < nsegs (hctl t)) as Hs by (rewrite Nat2Z.inj_div; apply Z.div_lt_upper_bound; lia).
  split; [done|]. destruct (do_segs _ Hd _ Hs) as (seg & Hseg & Hlen). unfold bucket_head. rewrite Hseg. simpl.
  apply lookup_lt_is_Some. rewrite Hlen. apply Nat.mod_upper_bound. lia.
Qed.

Lemma dir_realloc_run bs fs s :
  shape (tab s) bs fs →
  ∃ ok s', dir_realloc s = (Ok ok, s') ∧ grows s s' ∧ shape (tab s') bs fs ∧ nsegs (hctl (tab s')) = nsegs (hctl (tab s)) ∧
    (ok = true → dsize (hctl (tab s)) < dsize (hctl (tab s'))).
Proof.
  intros Hsh. unfold dir_realloc. rewrite gets_run. cbn [compose].
  destruct (max_dsize (hctl (tab s)) =? NO_MAX_DSIZE); cbn [negb]; [|by exists false, s].
  destruct (alloc_run s) as (ok & s1 & E1 & Ht & Henv & _). rewrite (M_bind_run _ _ _ _ _ E1).
  assert (grows s s1) as G1 by (constructor; by rewrite ?Ht).
  destruct ok; [|exists false, s1; rewrite Ht; done]. exists true. eexists. split; [reflexivity|]. cbn [tab with_tab on_hctl].
  rewrite Ht, Z.shiftl_mul_pow2 by lia. destruct (sh_dir _ _ _ Hsh) as [D1 D2 D3 D4]. set (s2 := with_tab _ _).
  assert (grows s s2) as G2 by (constructor; [etrans; [exact Henv|by constructor]|done..]).
  split; [done|]. split_and!; [|done|intros _; cbn [dsize with_dsize hctl with_hctl]; lia].
  apply (shape_grows bs fs s s2); [done|done| |].
  - constructor; simpl; [rewrite length_app, length_replicate; lia|lia| |done].
    intros i Hi. rewrite lookup_app_l; [by apply D3|]. lia.
  - intros b Hb. unfold bucket_head. simpl. destruct (bucket_in_segs (tab s) b (sh_dir _ _ _ Hsh)) as [Hlt _]; [lia|].
    rewrite lookup_app_l by lia. done.
Qed.

Lemma seg_alloc_run s :
  ∃ seg s', seg_alloc s = (Ok seg, s') ∧ tab s' = tab s ∧ grows s s' ∧ ∀ x, seg = Some x → length x = 256%nat.
Proof.
  unfold seg_alloc. destruct (alloc_run s) as (ok & s1 & E1 & Ht & Henv & _). rewrite (M_bind_run _ _ _ _ _ E1).
  eexists _, s1. split; [reflexivity|]. split; [done|]. split; [by constructor; rewrite ?Ht|].
  destruct ok; intros x [= <-]; done.
Qed.

Lemma new_segment bs fs seg s :
  shape (tab s) bs fs → nsegs (hctl (tab s)) < dsize (hctl (tab s)) →
  let n := nsegs (hctl (tab s)) in
  let t1 := with_dir (<[Z.to_nat n := seg]> (dir (tab s))) (tab s) in
  grows s (with_tab t1 s) ∧ shape t1 bs fs ∧
  (∀ x, seg = Some x → length x = 256%nat →
    let t2 := with_hctl (with_nsegs (n + 1) (hctl (tab s))) t1 in grows s (with_tab t2 s) ∧ shape t2 bs fs).
Proof.
  intros Hsh Hlt n t1. destruct (sh_dir _ _ _ Hsh) as [D1 D2 D3 D4].
  assert (∀ i, Z.of_nat i < n → dir t1 !! i = dir (tab s) !! i) as Hdir by (intros i Hi; simpl; apply list_lookup_insert_ne; lia).
  assert (∀ b, Z.of_nat b <= max_bucket (hctl (tab s)) → bucket_head t1 b = bucket_head (tab s) b) as Hheads.
  { intros b Hb. destruct (bucket_in_segs (tab s) b (sh_dir _ _ _ Hsh)) as [Hb' _]; [lia|]. unfold bucket_head. by rewrite Hdir. }
  split; [by constructor|]. split.
  - apply (shape_grows bs fs s (with_tab t1 s)); [done|by constructor| |done].
    constructor; simpl; [by rewrite length_insert|done| |done]. intros i Hi. fold n in Hi. pose proof (Hdir i Hi) as Hi'. simpl in Hi'. fold n.
    rewrite Hi'. by apply D3.
  - intros x -> Hx t2. split; [by constructor|]. apply (shape_grows bs fs s (with_tab t2 s)); [done|by constructor| |done].
    constructor; simpl; [by rewrite length_insert|fold n; lia| |fold n; lia].
    intros i Hi. fold n. destruct (decide (Z.of_nat i = n)) as [Hn|Hn].
    + exists x. split; [|done]. rewrite <- Hn, Nat2Z.id. apply list_lookup_insert_eq. lia.
    + pose proof (Hdir i ltac:(lia)) as Hi'. simpl in Hi'. rewrite Hi'. apply D3. fold n. lia.
Qed.

(** A segment for the next bucket, or no memory for one. *)
Lemma expand_segment_run bs fs s :
  shape (tab s) bs fs →
  ∃ ok s', expand_segment (max_bucket (hctl (tab s)) + 1) s = (Ok ok, s') ∧ grows s s' ∧ shape (tab s') bs fs ∧
    (ok = true → max_bucket (hctl (tab s)) + 1 < nsegs (hctl (tab s')) * 256).
Proof.
  intros Hsh. unfold expand_segment. rewrite gets_run. cbn [compose].
  destruct (sh_dir _ _ _ Hsh) as [D1 D2 D3 D4]. set (h := hctl (tab s)) in *. unfold HASH_SEGSIZE_SHIFT. rewrite Z.shiftr_div_pow2 by lia.
  change (2 ^ 8) with 256. destruct (Z.leb_spec (nsegs h) ((max_bucket h + 1) / 256)) as [Hle|Hgt].
  2:{ exists true, s. split_and!; [done|done|done|]. intros _. fold h. Z.to_euclidean_division_equations; lia. }
  assert ((max_bucket h + 1) / 256 = nsegs h ∧ max_bucket h + 1 = nsegs h * 256) as [-> Emax] by (Z.to_euclidean_division_equations; lia).
  assert (∃ room s1, (if dsize h <=? nsegs h then dir_realloc else mret true) s = (Ok room, s1) ∧ grows s s1 ∧ shape (tab s1) bs fs ∧
    nsegs (hctl (tab s1)) = nsegs h ∧ (room = true → nsegs h < dsize (hctl (tab s1)))) as (room & s1 & E1 & G1 & Sh1 & N1 & R1).
  { destruct (Z.leb_spec (dsize h) (nsegs h)); [|by exists true, s].
    destruct (dir_realloc_run bs fs s Hsh) as (ok & s1 & E1 & G1 & Sh1 & N1 & R1). exists ok, s1. split_and!; [done..|].
    intros Hok. apply R1 in Hok. fold h in Hok. lia. }
  rewrite (M_bind_run _ _ _ _ _ E1). destruct room; cbn [negb]; [|by exists false, s1].
  destruct (seg_alloc_run s1) as (seg & s2 & E2 & Ht2 & G2 & Hlen). rewrite (M_bind_run _ _ _ _ _ E2).
  rewrite <- Ht2 in *. destruct (new_segment bs fs seg s2 Sh1) as (G3 & Sh3 & H4); [rewrite N1; auto|].
  rewrite N1 in *. set (t3 := with_dir (<[Z.to_nat (nsegs h) := seg]> (dir (tab s2))) (tab s2)) in *.
  rewrite (M_bind_run _ _ _ tt (with_tab t3 s2)) by done. destruct seg as [x|].
  - destruct (H4 x eq_refl (Hlen x eq_refl)) as [G4 Sh4]. exists true. eexists. split; [reflexivity|].
    change (nsegs (hctl (tab (with_tab t3 s2)))) with (nsegs (hctl (tab s2))).
    cbn [tab with_tab]. change (hctl t3) with (hctl (tab s2)). rewrite N1.
    split; [etrans; [exact G1|etrans; [exact G2|exact G4]]|]. split; [exact Sh4|]. intros _. cbn [nsegs with_nsegs hctl with_hctl]. lia.
  - exists false, (with_tab t3 s2). split_and!; [done| |done|done]. etrans; [exact G1|etrans; [exact G2|exact G3]].
Qed.

(** ** Splitting a bucket *)

(** Linking the next element of the bucket that is split behind those that bucket
    [b] has already got. *)
Lemma relocate_step b l1 x b' l2 y p e rest t :
  blead t b l1 x → blead t b' l2 y → b ≠ b' → heap t !! p = Some e → chain (heap t) (link e) rest → NoDup (l1 ++ l2 ++ p :: rest) →
  let t' := set_slot (place b l1) (Some p) t in
  blead t' b (l1 ++ [p]) (link e) ∧ blead t' b' l2 y ∧ chain (heap t') (link e) rest ∧ heap t' !! p = Some e ∧ touches [b] l1 t t'.
Proof.
  intros Hb Hb' Hne He Hc (Hnd1 & Hd1 & _)%NoDup_app t'.
  destruct (set_place_lead b l1 x (Some p) t Hb Hnd1) as [(h & Hh & Hl) Hto]. fold t' in Hh, Hl, Hto.
  assert (heap t' !! p = Some e) as He'.
  { rewrite (to_links _ _ _ _ Hto); [done|]. intros Hp. apply (Hd1 p Hp). rewrite elem_of_app. right. left. }
  split_and!; [|eapply to_lead; [exact Hto|by rewrite list_elem_of_singleton| |exact Hb']|eapply to_chains; [exact Hto| |done]|done|done].
  - exists h. split; [done|]. by apply lead_snoc.
  - intros q Hq Hq'. apply (Hd1 q Hq'). rewrite elem_of_app. by left.
  - intros q Hq Hq'. apply (Hd1 q Hq'). rewrite elem_of_app. right. by right.
Qed.

(** The elements whose hash value stays in bucket [old]. *)
Definition stays t (old : nat) p : Prop := ∃ e, heap t !! p = Some e ∧ calc_bucket (hctl t) (hashvalue e) = Z.of_nat old.

Lemma stays_touches ks l t t' old p : touches ks l t t' → stays t old p ↔ stays t' old p.
Proof.
  intros Ht. unfold stays. rewrite (to_hctl _ _ _ _ Ht). pose proof (to_payload _ _ _ _ Ht p) as Hp.
  destruct (heap t' !! p) as [e'|], (heap t !! p) as [e|]; simpl in Hp; [|done|done|naive_solver]. injection Hp as Hh _ _.
  split; intros (e0 & [= <-] & Hc); eexists; (split; [done|]); congruence.
Qed.

Lemma relocate_run fuel old new rest : ∀ lo ln x y cur s,
  old ≠ new → blead (tab s) old lo x → blead (tab s) new ln y → chain (heap (tab s)) cur rest → NoDup (lo ++ ln ++ rest) →
  (length rest < fuel)%nat →
  ∃ t' lo' ln' x' y',
    relocate_loop fuel (Z.of_nat old) cur (place old lo) (place new ln) s =
      (Ok (place old (lo ++ lo'), place new (ln ++ ln')), with_tab t' s) ∧
    rest ≡ₚ lo' ++ ln' ∧ blead t' old (lo ++ lo') x' ∧ blead t' new (ln ++ ln') y' ∧
    touches [old; new] (lo ++ ln ++ rest) (tab s) t' ∧
    (∀ p, p ∈ lo' → stays (tab s) old p) ∧ (∀ p, p ∈ ln' → ¬ stays (tab s) old p).
Proof.
  revert rest. induction fuel as [|fuel IH]; intros rest lo ln x y cur s Hne Ho Hn Hc Hnd Hf; [lia|]. cbn [relocate_loop].
  destruct rest as [|p rest].
  { rewrite Hc. exists (tab s), [], [], x, y. rewrite !app_nil_r. split_and!; [by destruct s|done|done|done|apply slot_touches_refl| |];
      intros p Hp; by apply not_elem_of_nil in Hp. }
  destruct Hc as (-> & e & He & Hc). cbn [length] in Hf.
  assert (element p s = (Ok e, s)) as Ee by (unfold element; by rewrite He). rewrite (M_bind_run _ _ _ _ _ Ee), gets_run. cbn [compose].
  destruct (Z.eqb_spec (calc_bucket (hctl (tab s)) (hashvalue e)) (Z.of_nat old)) as [Hst|Hst].
  - destruct (relocate_step old lo x new ln y p e rest (tab s)) as (Ho' & Hn' & Hc' & He' & Hto); [done..|].
    set (t1 := set_slot (place old lo) (Some p) (tab s)) in *. rewrite (M_bind_run _ _ _ _ _ (write_lead old lo x (Some p) s Ho)). fold t1.
    destruct (IH rest (lo ++ [p]) ln (link e) y (link e) (with_tab t1 s)) as (t' & lo' & ln' & x' & y' & E & P & L1 & L2 & Ht & S1 & S2);
      [done|done|done|done| |lia|].
    { eapply NoDup_Permutation_proper; [|exact Hnd]. solve_Permutation. }
    rewrite place_snoc in E. rewrite <- (assoc_L app lo [p]) in *. exists t', (p :: lo'), ln', x', y'.
    split_and!; [exact E|by rewrite P|done|done| | |].
    + eapply slot_touches_trans; [eapply slot_touches_weaken; [| |exact Hto]|eapply slot_touches_weaken; [| |exact Ht]]; set_solver.
    + intros q [->|Hq]%elem_of_cons; [by exists e|]. rewrite (stays_touches _ _ _ _ _ _ Hto). auto.
    + intros q Hq. rewrite (stays_touches _ _ _ _ _ _ Hto). auto.
  - destruct (relocate_step new ln y old lo x p e rest (tab s)) as (Hn' & Ho' & Hc' & He' & Hto); [done..| |].
    { eapply NoDup_Permutation_proper; [|exact Hnd]. solve_Permutation. }
    set (t1 := set_slot (place new ln) (Some p) (tab s)) in *. rewrite (M_bind_run _ _ _ _ _ (write_lead new ln y (Some p) s Hn)). fold t1.
    destruct (IH rest lo (ln ++ [p]) x (link e) (link e) (with_tab t1 s)) as (t' & lo' & ln' & x' & y' & E & P & L1 & L2 & Ht & S1 & S2);
      [done|done|done|done| |lia|].
    { eapply NoDup_Permutation_proper; [|exact Hnd]. solve_Permutation. }
    rewrite place_snoc in E. rewrite <- (assoc_L app ln [p]) in *. exists t', lo', (p :: ln'), x', y'.
    split_and!; [exact E|rewrite P; solve_Permutation|done|done| | |].
    + eapply slot_touches_trans; [eapply slot_touches_weaken; [| |exact Hto]|eapply slot_touches_weaken; [| |exact Ht]]; set_solver.
    + intros q Hq. rewrite (stays_touches _ _ _ _ _ _ Hto). auto.
    + intros q [->|Hq]%elem_of_cons.
      * intros (e0 & He0 & Hc0). by simplify_eq.
      * rewrite (stays_touches _ _ _ _ _ _ Hto). auto.
Qed.

Lemma split_run old new l s :
  old ≠ new → bchain (tab s) old l → is_Some (bucket_head (tab s) new) → NoDup l →
  ∃ t' lo ln,
    (first ← read_slot (bucket_slot (Z.of_nat old)); t ← gets tab;
     ends ← relocate_loop (chain_fuel t) (Z.of_nat old) first (bucket_slot (Z.of_nat old)) (bucket_slot (Z.of_nat new));
     write_slot ends.1 None;; write_slot ends.2 None;; mret true) s = (Ok true, with_tab t' s) ∧
    l ≡ₚ lo ++ ln ∧ bchain t' old lo ∧ bchain t' new ln ∧ touches [old; new] l (tab s) t' ∧
    (∀ p, p ∈ lo → stays (tab s) old p) ∧ (∀ p, p ∈ ln → ¬ stays (tab s) old p).
Proof.
  intros Hne (h & Hh & Hc) [h' Hh'] Hnd. rewrite (M_bind_run _ _ _ _ _ (read_bucket _ _ _ s eq_refl Hh)), gets_run.
  destruct (relocate_run (chain_fuel (tab s)) old new l [] [] h h' h s) as (t1 & lo & ln & x & y & E & P & Lo & Ln & Ht & So & Sn);
    [done|by exists h|by exists h'|done|done| |].
  { unfold chain_fuel. pose proof (chain_length _ _ _ Hc Hnd). lia. }
  simpl in E, Lo, Ln, Ht. rewrite (M_bind_run _ _ _ _ _ E). cbn [fst snd].
  assert (NoDup (lo ++ ln)) as (Hndo & Hdis & Hndn)%NoDup_app by by rewrite <- P.
  destruct (set_place_lead old lo x None t1 Lo Hndo) as [Lo2 Ht2].
  rewrite (M_bind_run _ _ _ _ _ (write_lead old lo x None (with_tab t1 s) Lo)). set (t2 := set_slot (place old lo) None _) in *.
  assert (blead t2 new ln y) as Ln2.
  { eapply to_lead; [exact Ht2|by rewrite list_elem_of_singleton| |exact Ln]. intros p Hp Hp'. by apply (Hdis p). }
  destruct (set_place_lead new ln y None t2 Ln2 Hndn) as [Ln3 Ht3].
  rewrite (M_bind_run _ _ _ _ _ (write_lead new ln y None (with_tab t2 (with_tab t1 s)) Ln2)). cbn [tab with_tab].
  set (t3 := set_slot (place new ln) None t2) in *.
  assert (blead t3 old lo None) as Lo3.
  { eapply to_lead; [exact Ht3|by rewrite list_elem_of_singleton| |exact Lo2]. intros p Hp Hp'. by apply (Hdis p). }
  assert (∀ t b l, blead t b l None → bchain t b l) as Hend.
  { intros t b l' (hb & Hb & Hl). exists hb. split; [done|]. rewrite <- (app_nil_r l'). by eapply lead_chain. }
  exists t3, lo, ln. split_and!; [done|done|by apply Hend|by apply Hend| |done|done].
  eapply slot_touches_trans; [exact Ht|]. clear -Ht2 Ht3 P.
  eapply slot_touches_trans; (eapply slot_touches_weaken; [| |eassumption]); intros q; rewrite ?P, ?elem_of_app, ?elem_of_cons; tauto.
Qed.

(** The masks of a table with one more bucket; the directory has room for it. *)
Lemma grown_dir t : dir_ok t → max_bucket (hctl t) + 1 < nsegs (hctl t) * 256 → dir_ok (with_hctl (grown (hctl t)) t).
Proof. intros [D1 D2 D3 D4] Hlt. unfold grown. destruct (high_mask (hctl t) <? max_bucket (hctl t) + 1); by constructor. Qed.

Lemma grown_fields h : nsegs (grown h) = nsegs h ∧ freeLists (grown h) = freeLists h ∧ num_partitions (grown h) = num_partitions h ∧
  isfixed (grown h) = isfixed h ∧ nelem_alloc (grown h) = nelem_alloc h ∧ max_bucket (grown h) = max_bucket h + 1.
Proof. unfold grown. by destruct (high_mask h <? max_bucket h + 1). Qed.

(** The buckets after the split. *)
Definition split_buckets bs old lo ln : list (list Z) := <[old := lo]> bs ++ [ln].

Lemma split_join bs old l lo ln : bs !! old = Some l → l ≡ₚ lo ++ ln → mjoin (split_buckets bs old lo ln) ≡ₚ mjoin bs.
Proof.
  intros Hl P. unfold split_buckets. rewrite join_app, (join_insert bs old l lo Hl), (join_take_drop bs old l Hl), P. simpl.
  rewrite app_nil_r. solve_Permutation.
Qed.

Lemma split_lookup bs old lo ln b l : (old < length bs)%nat → split_buckets bs old lo ln !! b = Some l →
  b = old ∧ l = lo ∨ b = length bs ∧ l = ln ∨ (b ≠ old ∧ (b < length bs)%nat ∧ bs !! b = Some l).
Proof.
  intros Ho [Hb|[Hle Hb]]%lookup_app_Some.
  - destruct (decide (b = old)) as [->|Hne].
    + rewrite list_lookup_insert_eq in Hb by done. left. by simplify_eq.
    + rewrite list_lookup_insert_ne in Hb by done. right. right. split_and!; [done|by eapply lookup_lt_Some|done].
  - rewrite length_insert in *. apply list_lookup_singleton_Some in Hb as [Hb <-]. right. left. split; [lia|done].
Qed.

Lemma split_shape t bs fs old l lo ln t' :
  shape t bs fs → max_bucket (hctl t) + 1 < 2 ^ 32 → max_bucket (hctl t) + 1 < nsegs (hctl t) * 256 → bs !! old = Some l →
  l ≡ₚ lo ++ ln → bchain t' old lo → bchain t' (length bs) ln → touches [old; length bs] l (with_hctl (grown (hctl t)) t) t' →
  shape t' (split_buckets bs old lo ln) fs.
Proof.
  intros Hsh Hmax Hseg Hl P Bo Bn Hto. pose proof (lookup_lt_Some _ _ _ Hl) as Hold.
  destruct (grown_fields (hctl t)) as (G1 & G2 & G3 & G4 & G5 & G6). pose proof (to_hctl _ _ _ _ Hto) as Hh. simpl in Hh.
  constructor.
  - destruct (sh_masks _ _ _ Hsh) as [k Hk]. destruct (grown_ok _ k Hk Hmax) as (k' & Hk' & _). exists k'. by rewrite Hh.
  - eapply dir_ok_touches; [exact Hto|]. apply grown_dir; [apply (sh_dir _ _ _ Hsh)|done].
  - unfold split_buckets. rewrite length_app, length_insert, Hh, G6. pose proof (sh_nb _ _ _ Hsh). simpl. lia.
  - intros b l' [[-> ->]|[[-> ->]|(Hne & Hlt & Hb)]]%split_lookup; [done|done| |done].
    destruct (sh_buckets _ _ _ Hsh b l' Hb) as (h & Hhd & Hc). exists h. split.
    + rewrite (to_heads _ _ _ _ Hto); [exact Hhd|]. rewrite !not_elem_of_cons. split_and!; [done|lia|apply not_elem_of_nil].
    + eapply to_chains; [exact Hto| |exact Hc]. by eapply (shape_bucket_disjoint Hsh).
  - rewrite Hh, G2. apply (sh_nf _ _ _ Hsh).
  - intros i f Hi. rewrite Hh. unfold get_freelist. rewrite G2. eapply to_chains; [exact Hto| |by apply (sh_free _ _ _ Hsh i)].
    intros p Hp Hp'. eapply (shape_bucket_free Hsh); [exact Hl|exact Hi|done|done].
  - unfold IS_PARTITIONED. rewrite Hh, G3. apply (sh_part _ _ _ Hsh).
  - rewrite (split_join bs old l lo ln Hl P). apply Hsh.
  - intros p. rewrite (payload_dom _ _ p (to_payload _ _ _ _ Hto)), (to_next _ _ _ _ Hto). apply (sh_fresh _ _ _ Hsh).
  - rewrite Hh, G5. apply (sh_alloc _ _ _ Hsh).
Qed.

Lemma split_conf t t' ks l : touches ks l (with_hctl (grown (hctl t)) t) t' → same_conf t t'.
Proof.
  intros Hto. destruct (grown_fields (hctl t)) as (_ & _ & G3 & G4 & G5 & _). pose proof (to_hctl _ _ _ _ Hto) as Hh. simpl in Hh.
  constructor; [exact (to_keys _ _ _ _ Hto)|exact (to_flags _ _ _ _ Hto)|]. by rewrite Hh, G3, G4, G5.
Qed.

(** Every element is in the bucket that the new masks give it. *)
Lemma split_placed t bs fs old l lo ln t' :
  shape t bs fs → placed t bs → max_bucket (hctl t) + 1 < 2 ^ 32 → bs !! old = Some l →
  Z.of_nat old = Z.land (max_bucket (hctl t) + 1) (low_mask (hctl t)) → l ≡ₚ lo ++ ln →
  touches [old; length bs] l (with_hctl (grown (hctl t)) t) t' →
  (∀ p, p ∈ lo → stays (with_hctl (grown (hctl t)) t) old p) → (∀ p, p ∈ ln → ¬ stays (with_hctl (grown (hctl t)) t) old p) →
  placed t' (split_buckets bs old lo ln).
Proof.
  intros Hsh Hpl Hmax Hl Hold P Hto So Sn b l' q e' Hb Hq He'. pose proof (lookup_lt_Some _ _ _ Hl) as Hlt. set (t2 := with_hctl _ t) in *.
  destruct (payload_inv _ _ e' (to_payload _ _ _ _ Hto q) He') as (e & He & -> & -> & _). change (heap t2) with (heap t) in He.
  destruct (to_keys _ _ _ _ Hto) as (-> & _ & _ & ->). rewrite (to_hctl _ _ _ _ Hto). change (hctl t2) with (grown (hctl t)).
  destruct (sh_masks _ _ _ Hsh) as [k Hk]. pose proof (calc_bucket_grown _ k (hashvalue e) Hk Hmax) as Hg.
  pose proof (sh_nb _ _ _ Hsh) as Hnb.
  apply split_lookup in Hb as [[-> ->]|[[-> ->]|(Hne & Hlt' & Hb)]]; [| | |done].
  - destruct (Hpl old l q e Hl ltac:(rewrite P, elem_of_app; by left) He) as [Hh _]. split; [done|].
    destruct (So q Hq) as (e0 & He0 & Hc). change (heap t2) with (heap t) in He0. by simplify_eq.
  - destruct (Hpl old l q e Hl ltac:(rewrite P, elem_of_app; by right) He) as [Hh Hcb]. split; [done|].
    destruct Hg as [[Hg _]|[Hg _]]; [|lia]. destruct (Sn q Hq). exists e. split; [done|]. simpl. by rewrite Hg.
  - destruct (Hpl b l' q e Hb Hq He) as [Hh Hcb]. split; [done|]. destruct Hg as [[Hg _]|[_ Hg]]; [by rewrite Hg|]. lia.
Qed.

Lemma entries_grow t t' bs bs' E :
  entries_are t bs E → mjoin bs' ≡ₚ mjoin bs → same_payload (heap t) (heap t') → entries_are t' bs' E.
Proof.
  intros HE P Hpay q. pose proof (entries_keep t t' bs E HE (λ q _, Hpay q) q) as Hq. rewrite Hq. apply decide_ext. by rewrite P.
Qed.

Lemma entries_ok_conf t t' E :
  entries_ok valid t E → same_conf t t' → freeLists (hctl t') = freeLists (hctl t) → entries_ok valid t' E.
Proof.
  intros [H1 H2 H3] Hc Hf. constructor; [done| |].
  - destruct (sc_keys _ _ Hc) as (_ & -> & _ & ->). done.
  - intros i Hi. unfold get_freelist. rewrite Hf. fold (get_freelist (Z.of_nat i) (hctl t)). rewrite H3 by done. do 2 f_equal.
    unfold counted. apply map_filter_ext. intros p [k v] _. rewrite (idx_same _ _ _ Hc). by destruct (sc_keys _ _ Hc) as (-> & _ & _ & ->).
Qed.

Lemma key_laws_conf t t' : same_conf t t' → key_laws valid t → key_laws valid t'.
Proof. intros Hc [H1 H2 H3 H4 H5]. destruct (sc_keys _ _ Hc) as (E1 & E2 & E3 & E4). by constructor; rewrite ?E1, ?E2, ?E3, ?E4. Qed.

Lemma table_ok_grows s s' bs fs E F :
  key_laws valid (tab s) → entries_ok valid (tab s) E → placed (tab s) bs → entries_are (tab s) bs E → length (mjoin fs) = F →
  grows s s' → shape (tab s') bs fs → table_ok valid (tab s') E F ∧ placed (tab s') bs ∧ entries_are (tab s') bs E.
Proof.
  intros Hk HEok Hpl HE HF [_ Gc Gm [Gh _] Gf] Hsh.
  assert (placed (tab s') bs) as Hpl' by (eapply placed_keeps; [done..|]; intros q _; by rewrite Gh).
  assert (entries_are (tab s') bs E) as HE' by (eapply entries_keep; [done|]; intros q _; by rewrite Gh).
  split; [|done]. constructor; [by eapply key_laws_conf|by eapply entries_ok_conf|]. by exists bs, fs.
Qed.

(** expand_table keeps the entries and their addresses, whether it adds a bucket
    or not. *)
Lemma expand_table_run E F s :
  table_ok valid (tab s) E F → max_bucket (hctl (tab s)) + 1 < 2 ^ 32 →
  ∃ ok s', expand_table s = (Ok ok, s') ∧ same_env s s' ∧
    table_ok valid (tab s') E F ∧ same_conf (tab s) (tab s') ∧
    if ok then max_bucket (hctl (tab s')) = max_bucket (hctl (tab s)) + 1 else same_masks (tab s) (tab s').
Proof.
  intros [Hk HEok (bs & fs & Hsh & Hpl & HE & HF)] Hmax. unfold expand_table. rewrite gets_run. cbn [compose].
  assert (0 <= max_bucket (hctl (tab s))) as Hpos by (destruct (sh_masks _ _ _ Hsh) as [k Hm]; pose proof (calc_bucket_range _ k 0 Hm); lia).
  assert (max_bucket (hctl (tab s)) +u 1 = max_bucket (hctl (tab s)) + 1) as Emax by (apply wrap32_small; mlia). rewrite Emax.
  destruct (expand_segment_run bs fs s Hsh) as (ok & s1 & E1 & G1 & Sh1 & Hok). rewrite (M_bind_run _ _ _ _ _ E1).
  destruct (table_ok_grows s s1 bs fs E F Hk HEok Hpl HE HF G1 Sh1) as (Ok1 & Hpl1 & HE1).
  destruct (gr_masks _ _ G1) as (M1 & M2 & M3).
  destruct ok; cbn [negb]; [|by exists false, s1; split_and!; [|apply G1|..|apply G1|apply G1]].
  rewrite <- M1, <- M3 in *. specialize (Hok eq_refl). set (t1 := tab s1) in *.
  set (t2 := with_hctl (grown (hctl t1)) t1). set (s2 := with_tab t2 s1).
  match goal with |- context [(on_hctl ?f ≫= ?g) s1] => assert (on_hctl f s1 = (Ok tt, s2)) as E2 end.
  { unfold on_hctl, on_tab, modify, s2, t2, grown. fold t1. rewrite Emax. done. }
  rewrite (M_bind_run _ _ _ _ _ E2). clear E2.
  destruct (sh_masks _ _ _ Sh1) as [k Hm]. pose proof (sh_nb _ _ _ Sh1) as Hnb.
  assert (0 <= Z.land (max_bucket (hctl t1) + 1) (low_mask (hctl t1)) <= max_bucket (hctl t1)) as Hland.
  { destruct Hm as [Hk' Hlo Hhi Hmx]. rewrite Hlo, Z.land_ones in * by lia. rewrite Z.ones_equiv in Hmx.
    pose proof (Z.mod_pos_bound (max_bucket (hctl t1) + 1) (2 ^ k) ltac:(lia)). lia. }
  set (old := Z.to_nat (Z.land (max_bucket (hctl t1) + 1) (low_mask (hctl t1)))).
  assert (Z.of_nat old = Z.land (max_bucket (hctl t1) + 1) (low_mask (hctl t1))) as Hold by lia. rewrite <- Hold.
  replace (max_bucket (hctl t1) + 1) with (Z.of_nat (length bs)) by lia.
  destruct (lookup_lt_is_Some_2 bs old) as [l Hl]; [lia|].
  destruct (split_run old (length bs) l s2) as (t' & lo & ln & E3 & P & Bo & Bn & Hto & So & Sn).
  { lia. }
  { exact (sh_buckets _ _ _ Sh1 old l Hl). }
  { apply (bucket_in_segs t1); [apply Sh1|lia]. }
  { by eapply join_nodup; [apply (shape_bs_nodup Sh1)|]. }
  change (tab s2) with t2 in *. pose proof (split_conf t1 t' _ _ Hto) as Hconf.
  exists true, (with_tab t' s2). split; [exact E3|]. split_and!; [etrans; [apply G1|by constructor]| |cbn [tab with_tab]; etrans; [apply G1|done]|].
  - constructor; [by eapply key_laws_conf, (ok_keys _ _ _ _ Ok1)|eapply entries_ok_conf; [apply (ok_entries _ _ _ _ Ok1)|done|]|].
    + cbn [tab with_tab]. rewrite (to_hctl _ _ _ _ Hto). apply grown_fields.
    + exists (split_buckets bs old lo ln), fs. split_and!; [by eapply split_shape|by eapply split_placed| |done].
      eapply entries_grow; [exact HE1|by eapply split_join|]. exact (to_payload _ _ _ _ Hto).
  - cbn [tab with_tab]. rewrite (to_hctl _ _ _ _ Hto), Hnb. apply grown_fields.
Qed.
End expand.
End DynahashExpand.
