(* ===== verification/DynahashSearch.v ===== *)
(** * DynahashSearch: hash_search

    What hash_search returns and does to the entries of a table, for every
    action.  Entries keep their addresses and contents whatever else is entered
    or removed, and when the table grows. *)

From Stdlib Require Import ZArith Lia Bool Strings.Byte.
From stdpp Require Import base tactics numbers list gmap strings.
From S2P Require Import Prelude HashFn Dynahash DynahashChain DynahashInv DynahashOps DynahashExpand.
Import Dynahash DynahashChain DynahashInv DynahashOps DynahashExpand.

Local Open Scope Z_scope.
Local Open Scope pg_scope.
#[local] Arguments Nat.div : simpl never.
#[local] Arguments Nat.modulo : simpl never.

Module DynahashSearch.

Section search.
Context {V : Type} (uninit : Z → HASHELEMENT V) (valid : list byte → Prop).
Implicit Types (m : gmap Z (HASHELEMENT V)) (p q : Z) (l : list Z) (t : HTAB V) (s : HashState V) (b i : nat).
Implicit Types (bs fs : list (list Z)) (E : gmap Z (list byte * V)).

(** ** Counting *)

Definition idx_of t (k : list byte) : Z := FREELIST_IDX (hctl t) (hash t k (keysize t)).

Lemma idx_of_same t t' k : same_conf t t' → idx_of t' k = idx_of t k.
Proof. intros Hc. unfold idx_of. rewrite (idx_same _ _ _ Hc). by destruct (sc_keys _ _ Hc) as (-> & _ & _ & ->). Qed.

Lemma counted_same t t' (i : Z) E : same_conf t t' → counted t' i E = counted t i E.
Proof.
  intros Hc. unfold counted. apply map_filter_ext. intros p [k v] _. fold (idx_of t' k) (idx_of t k). by rewrite (idx_of_same _ _ _ Hc).
Qed.

Lemma counted_delete t (i : Z) E p k v :
  E !! p = Some (k, v) →
  Z.of_nat (size (counted t i (delete p E))) = Z.of_nat (size (counted t i E)) - (if decide (idx_of t k = i) then 1 else 0).
Proof.
  intros Hp. unfold counted. rewrite map_filter_delete. case_decide as Hi.
  - assert (filter (λ '(_, (k, _)), FREELIST_IDX (hctl t) (hash t k (keysize t)) = i) E !! p = Some (k, v)) as Hf
      by by apply map_lookup_filter_Some.
    rewrite <- (insert_delete_id _ _ _ Hf) at 2. rewrite map_size_insert_None by apply lookup_delete_eq. lia.
  - rewrite delete_id; [lia|]. apply map_lookup_filter_None. right. intros [k' v'] Hp'. by simplify_eq.
Qed.

Lemma counted_insert t (i : Z) E p k v :
  E !! p = None →
  Z.of_nat (size (counted t i (<[p := (k, v)]> E))) = Z.of_nat (size (counted t i E)) + (if decide (idx_of t k = i) then 1 else 0).
Proof.
  intros Hp. unfold counted. case_decide as Hi.
  - rewrite map_filter_insert_True by done. rewrite map_size_insert_None; [lia|]. apply map_lookup_filter_None. by left.
  - rewrite map_filter_insert_False by done. rewrite delete_id by done. lia.
Qed.

(** The table after a change that keeps its parameters. *)
Lemma finds_same t t' E k r : same_conf t t' → finds t E k r → finds t' E k r.
Proof. intros Hc. unfold finds. by destruct (sc_keys _ _ Hc) as (_ & -> & _ & ->). Qed.

(** ** Finding *)

Lemma hash_search_hv k action s :
  hash_search uninit k action s = hash_search_with_hash_value uninit k (hash (tab s) k (keysize (tab s))) action s.
Proof. done. Qed.

Lemma search_find E F k s :
  table_ok valid (tab s) E F → valid k →
  ∃ r, hash_search uninit k HASH_FIND s = (Ok (r, bool_decide (is_Some r)), s) ∧ finds (tab s) E k r.
Proof.
  intros [Hk HEok (bs & fs & Hsh & Hpl & HE & HF)] Hval.
  destruct (locate_run valid bs fs E k s Hk HEok Hsh Hpl HE Hval) as (b & l & r & la & _ & _ & E1 & E2 & Hf & _).
  exists r. split; [|done]. rewrite hash_search_hv. unfold hash_search_with_hash_value. rewrite gets_run.
  rewrite (M_bind_run _ _ _ tt s) by done. rewrite (M_bind_run _ _ _ _ _ E1), gets_run, (M_bind_run _ _ _ _ _ E2). done.
Qed.

(** ** Removing *)

Lemma entries_ok_delete t t' E p k v i :
  entries_ok valid t E → E !! p = Some (k, v) → same_conf t t' → idx_of t k = Z.of_nat i →
  (∀ j, (j < 32)%nat → nentries (get_freelist (Z.of_nat j) (hctl t')) =
    nentries (get_freelist (Z.of_nat j) (hctl t)) - (if decide (j = i) then 1 else 0)) →
  entries_ok valid t' (delete p E).
Proof.
  intros [H1 H2 H3] Hp Hc Hi Hn. constructor.
  - intros q k' v' [_ Hq]%lookup_delete_Some. eauto.
  - intros q q' k1 v1 k2 v2 [_ Hq]%lookup_delete_Some [_ Hq']%lookup_delete_Some.
    destruct (sc_keys _ _ Hc) as (_ & -> & _ & ->). eauto.
  - intros j Hj. rewrite Hn, H3 by done. rewrite (counted_same t t') by done. rewrite (counted_delete t _ E p k v Hp), Hi.
    repeat case_decide; lia.
Qed.

Lemma entries_are_delete t t' bs b la p lb E :
  entries_are t bs E → bs !! b = Some (la ++ p :: lb) → NoDup (mjoin bs) →
  (∀ q, payload <$> heap t' !! q = payload <$> heap t !! q) →
  entries_are t' (<[b := la ++ lb]> bs) (delete p E).
Proof.
  intros HE Hb Hnd Hpay. pose proof (join_take_drop bs b _ Hb) as P1. pose proof (join_insert bs b _ (la ++ lb) Hb) as P2.
  assert (mjoin bs ≡ₚ p :: mjoin (<[b := la ++ lb]> bs)) as P by (rewrite P1, P2; solve_Permutation).
  rewrite P in Hnd. apply NoDup_cons in Hnd as [Hp Hnd].
  intros q. destruct (decide (q = p)) as [->|Hne].
  - rewrite lookup_delete_eq. by rewrite decide_False.
  - rewrite lookup_delete_ne by done. pose proof (entries_keep t t' bs E HE (λ q _, Hpay q) q) as Hq. rewrite Hq.
    apply decide_ext. rewrite P, elem_of_cons. split; [intros [?|?]; done|by right].
Qed.

(** Elements stay in their buckets. *)
Lemma placed_sub t t' bs bs' :
  placed t bs → same_conf t t' → same_masks t t' → same_payload (heap t) (heap t') →
  (∀ b l q, bs' !! b = Some l → q ∈ l → ∃ l0, bs !! b = Some l0 ∧ q ∈ l0) → placed t' bs'.
Proof.
  intros Hp Hc Hm Hpay Hsub b l q e Hb Hq He. destruct (Hsub b l q Hb Hq) as (l0 & Hb0 & Hq0).
  destruct (sc_keys _ _ Hc) as (-> & _ & _ & ->). rewrite (calc_bucket_same _ _ _ Hm).
  destruct (payload_inv _ _ e (Hpay q) He) as (e0 & He0 & -> & -> & _). by eapply Hp.
Qed.

(** Unlinking an element and putting it on a free list. *)
Lemma remove_shape t bs fs b la p lb i f e n :
  shape t bs fs → bs !! b = Some (la ++ p :: lb) → fs !! i = Some f → heap t !! p = Some e →
  (IS_PARTITIONED (hctl t) = false → i = 0%nat) →
  let t1 := set_freelist i {| nentries := n; freeList := freeList (get_freelist (Z.of_nat i) (hctl t)) |} t in
  let t2 := set_slot (place b la) (link e) t1 in
  let t4 := set_freelist i {| nentries := n; freeList := Some p |}
    (set_slot (SLink p) (freeList (get_freelist (Z.of_nat i) (hctl t2))) t2) in
  shape t1 bs fs ∧ shape t4 (<[b := la ++ lb]> bs) (<[i := p :: f]> fs) ∧ hctl t2 = hctl t1 ∧
  same_payload (heap t) (heap t4) ∧ is_Some (heap t2 !! p) ∧ same_conf t t4 ∧ same_masks t t4 ∧
  length (mjoin (<[i := p :: f]> fs)) = S (length (mjoin fs)) ∧
  ∀ j, (j < 32)%nat → nentries (get_freelist (Z.of_nat j) (hctl t4)) = if decide (j = i) then n else nentries (get_freelist (Z.of_nat j) (hctl t)).
Proof.
  intros Hsh Hb Hi He Hpart t1 t2 t4.
  assert (i < length (freeLists (hctl t)))%nat as Hil by (destruct (sh_nf _ _ _ Hsh) as [Hn ->]; rewrite <- Hn; by eapply lookup_lt_Some).
  assert (shape t1 bs fs) as Hsh1.
  { rewrite <- (list_insert_id fs i f Hi). eapply shape_freelist; [done|done|by apply (sh_free _ _ _ Hsh)| |done].
    rewrite list_insert_id by done. apply Hsh. }
  pose proof (join_take_drop bs b _ Hb) as P1. pose proof (join_insert bs b _ (la ++ lb) Hb) as P2.
  assert (NoDup (p :: (mjoin (<[b := la ++ lb]> bs) ++ mjoin fs))) as [Hp Hnd]%NoDup_cons.
  { eapply NoDup_Permutation_proper; [|exact (sh_nodup _ _ _ Hsh)]. rewrite P1, P2. solve_Permutation. }
  rewrite not_elem_of_app in Hp. destruct Hp as [Hpb Hpf].
  destruct (shape_write t1 bs fs b la (p :: lb) (link e) lb) as [Hsh2 Hto]; [done|done| |done|].
  { destruct (sh_buckets _ _ _ Hsh1 b _ Hb) as (h & _ & Hc). by eapply chain_rest. }
  fold t2 in Hsh2, Hto. assert (is_Some (heap t2 !! p)) as Hp2 by (rewrite (payload_dom _ _ p (to_payload _ _ _ _ Hto)); by exists e).
  assert (IS_PARTITIONED (hctl t2) = false → i = 0%nat) as Hpart2 by by rewrite (to_hctl _ _ _ _ Hto).
  destruct (push_free t2 _ fs i f p n Hsh2 (conj Hp2 (conj Hpb Hpf)) Hi Hpart2) as [Hsh4 Hlen].
  split_and!; [done|exact Hsh4|apply (to_hctl _ _ _ _ Hto)| |done| | |done|].
  - etrans; [apply (to_payload _ _ _ _ Hto)|]. apply set_link_payload.
  - destruct (to_keys _ _ _ _ Hto) as (? & ? & ? & ?), (to_flags _ _ _ _ Hto) as (? & ?).
    constructor; simpl; [done|done|]. by rewrite (to_hctl _ _ _ _ Hto).
  - split_and!; simpl; by rewrite (to_hctl _ _ _ _ Hto).
  - intros j Hj. unfold t4. rewrite get_set_freelist by (simpl; rewrite (to_hctl _ _ _ _ Hto); simpl; by rewrite length_insert).
    case_decide; [done|]. simpl. rewrite (to_hctl _ _ _ _ Hto). unfold t1. rewrite get_set_freelist by done. by rewrite decide_False.
Qed.

(** Where the element was. *)
Lemma search_remove_at bs fs E k s :
  key_laws valid (tab s) → entries_ok valid (tab s) E → shape (tab s) bs fs → placed (tab s) bs → entries_are (tab s) bs E → valid k →
  ∃ r s', hash_search uninit k HASH_REMOVE s = (Ok (r, bool_decide (is_Some r)), s') ∧ finds (tab s) E k r ∧
    match r with
    | Some p => ∃ b la lb fs', bs !! b = Some (la ++ p :: lb) ∧ shape (tab s') (<[b := la ++ lb]> bs) fs' ∧
        placed (tab s') (<[b := la ++ lb]> bs) ∧ entries_are (tab s') (<[b := la ++ lb]> bs) (delete p E) ∧
        entries_ok valid (tab s') (delete p E) ∧ length (mjoin fs') = S (length (mjoin fs)) ∧
        same_conf (tab s) (tab s') ∧ same_masks (tab s) (tab s') ∧ s' = with_tab (tab s') s
    | None => s' = s
    end.
Proof.
  intros Hk HEok Hsh Hpl HE Hval.
  destruct (locate_run valid bs fs E k s Hk HEok Hsh Hpl HE Hval) as (b & l & r & la & Hl & Hb & E1 & E2 & Hf & Hr).
  destruct (key_freelist valid bs fs k s Hk Hsh Hval) as (i & f & Hi & Hfi & Hi32 & Hpart).
  exists r. rewrite hash_search_hv. unfold hash_search_with_hash_value. rewrite gets_run. cbn [compose].
  rewrite (M_bind_run _ _ _ tt s) by done. rewrite (M_bind_run _ _ _ _ _ E1), gets_run, (M_bind_run _ _ _ _ _ E2).
  destruct r as [p|]; [|by exists s]. destruct Hr as [lb ->]. pose proof Hf as (k' & v & Hp & Hm).
  destruct (entry_elem _ _ _ _ _ _ _ Hsh HE Hp) as (_ & _ & e & _ & _ & He & <- & <-).
  set (n := nentries (get_freelist (Z.of_nat i) (hctl (tab s))) - 1).
  destruct (remove_shape (tab s) bs fs b la p lb i f e n Hsh Hl Hfi He Hpart)
    as (Hsh1 & Hsh4 & Hh2 & Hpay & Hp2 & Hc & Hms & Hlen & Hcnt).
  rewrite gets_run. cbn [compose]. rewrite Hi. rewrite (M_bind_run _ _ _ _ _ (put_freelist_run i _ _)). fold n.
  set (t1 := set_freelist i {| nentries := n; freeList := _ |} (tab s)) in *. set (s1 := with_tab t1 s).
  assert (element p s1 = (Ok e, s1)) as Ee by (unfold element, s1; simpl; by rewrite He). rewrite (M_bind_run _ _ _ _ _ Ee).
  rewrite (M_bind_run _ _ _ _ _ (write_place b la (p :: lb) (link e) s1 (sh_buckets _ _ _ Hsh1 b _ Hl))).
  set (t2 := set_slot (place b la) (link e) (tab s1)) in *. rewrite gets_run. cbn [compose tab with_tab].
  rewrite (M_bind_run _ _ _ _ _ (write_link p _ (with_tab t2 s1) Hp2)). cbn [tab with_tab].
  rewrite (M_bind_run _ _ _ _ _ (put_freelist_run i _ _)). cbn [tab with_tab].
  assert (nentries (get_freelist (Z.of_nat i) (hctl t2)) = n) as ->.
  { unfold t2. cbn [tab with_tab s1]. etrans; [exact (f_equal (λ h, nentries (get_freelist (Z.of_nat i) h)) Hh2)|].
    unfold t1. rewrite get_set_freelist by (destruct (sh_nf _ _ _ Hsh) as [_ ->]; done). by rewrite decide_True. }
  eexists. split; [reflexivity|]. split; [done|]. cbn [tab with_tab]. exists b, la, lb, (<[i := p :: f]> fs).
  split_and!; [done|exact Hsh4| |by eapply entries_are_delete; [..|apply (shape_bs_nodup Hsh)|]| |done|done|done|done].
  - eapply placed_sub; [done|done|done|done|]. intros b' l' q Hb' Hq. destruct (decide (b' = b)) as [->|Hne].
    + rewrite list_lookup_insert_eq in Hb' by (by eapply lookup_lt_Some). simplify_eq. exists (la ++ p :: lb). split; [done|].
      rewrite elem_of_app in *. rewrite elem_of_cons. naive_solver.
    + rewrite list_lookup_insert_ne in Hb' by done. eauto.
  - eapply entries_ok_delete; [done|exact Hp|done| |].
    + unfold idx_of. rewrite <- Hi. f_equal. apply (kl_match _ _ Hk); [by eapply (eo_valid _ _ _ HEok)|done|done].
    + intros j Hj. rewrite Hcnt by done. case_decide; [subst; lia|lia].
Qed.

Lemma search_remove E F k s :
  table_ok valid (tab s) E F → valid k →
  ∃ r s', hash_search uninit k HASH_REMOVE s = (Ok (r, bool_decide (is_Some r)), s') ∧ finds (tab s) E k r ∧
    match r with
    | Some p => table_ok valid (tab s') (delete p E) (S F) ∧ same_conf (tab s) (tab s') ∧ same_masks (tab s) (tab s') ∧
        s' = with_tab (tab s') s
    | None => s' = s
    end.
Proof.
  intros [Hk HEok (bs & fs & Hsh & Hpl & HE & HF)] Hval.
  destruct (search_remove_at bs fs E k s Hk HEok Hsh Hpl HE Hval) as (r & s' & E1 & Hf & Hr). exists r, s'. split; [done|]. split; [done|].
  destruct r as [p|]; [|done]. destruct Hr as (b & la & lb & fs' & _ & Hsh' & Hpl' & HE' & HEok' & Hlen & Hc & Hm & Hs').
  split_and!; [|done|done|done]. constructor; [by eapply key_laws_conf|done|]. eexists _, fs'. split_and!; [done|done|done|]. by rewrite Hlen, HF.
Qed.

(** ** Entering *)

(** A new payload for an element. *)
Lemma shape_payload t bs fs p e e' :
  shape t bs fs → heap t !! p = Some e → link e' = link e →
  shape (with_heap (<[p := e']> (heap t)) (next_ptr t) t) bs fs.
Proof.
  intros Hsh He Hl. assert (∀ h l, chain (heap t) h l → chain (<[p := e']> (heap t)) h l) as Hch.
  { intros h l. apply chain_ext. intros q _. destruct (decide (p = q)) as [<-|]; [|by rewrite lookup_insert_ne].
    rewrite lookup_insert_eq, He. simpl. by rewrite Hl. }
  destruct Hsh as [A1 A2 A3 A4 A5 A6 A7 A8 A9 A10]. constructor; try done.
  - by destruct A2.
  - intros b l Hb. destruct (A4 b l Hb) as (h & Hh & Hc). exists h. split; [done|]. by apply Hch.
  - intros i l Hi. by apply Hch, A6.
  - intros q. simpl. rewrite lookup_insert. case_decide; [subst; intros _; apply A9; by exists e|apply A9].
Qed.

(** Linking an element that is in no chain behind the end of a bucket. *)
Lemma attach_links bs fs b l p e s :
  shape (tab s) bs fs → loose (tab s) bs fs p → bs !! b = Some l → heap (tab s) !! p = Some e →
  ∃ t', (write_slot (place b l) (Some p);; write_slot (SLink p) None) s = (Ok tt, with_tab t' s) ∧
    shape t' (<[b := l ++ [p]]> bs) fs ∧ same_conf (tab s) t' ∧ hctl t' = hctl (tab s) ∧
    same_payload (heap (tab s)) (heap t') ∧ heap t' !! p = Some (set_link None e).
Proof.
  intros Hsh (_ & Hpb & Hpf) Hb He. assert (p ∉ l) as Hpl by (intros Hin; apply Hpb, elem_of_join; eauto).
  pose proof (sh_buckets _ _ _ Hsh b l Hb) as Hbc. rewrite <- (app_nil_r l) in Hbc.
  rewrite (M_bind_run _ _ _ _ _ (write_place b l [] (Some p) s Hbc)).
  set (t1 := set_slot (SLink p) None (tab s)).
  pose proof (shape_link (tab s) bs fs p None Hsh Hpb Hpf) as Hsh1. fold t1 in Hsh1.
  assert (heap t1 !! p = Some (set_link None e)) as He1 by (simpl; by rewrite lookup_alter_eq, He).
  pose proof (join_insert bs b _ (l ++ [p]) Hb) as P2. pose proof (join_take_drop bs b _ Hb) as P1.
  destruct (shape_write t1 bs fs b l [] (Some p) [p]) as [Hsh2 Hto]; [done|by rewrite app_nil_r| | |].
  { split; [done|]. exists (set_link None e). split; [done|done]. }
  { assert (NoDup (p :: (mjoin bs ++ mjoin fs))) as Hnd.
    { apply NoDup_cons. split; [by rewrite not_elem_of_app|apply Hsh]. }
    eapply NoDup_Permutation_proper; [|exact Hnd]. rewrite P1, P2. solve_Permutation. }
  set (t2 := set_slot (place b l) (Some p) t1) in *.
  assert (heap t2 !! p = Some (set_link None e)) as He2.
  { pose proof (to_payload _ _ _ _ Hto p) as Hpay. rewrite He1 in Hpay.
    destruct (heap t2 !! p) as [e2|] eqn:Ee2; [|done]. simpl in Hpay. injection Hpay as Hh Hk Hd.
    destruct (sh_buckets _ _ _ Hsh2 b (l ++ [p])) as (h & _ & Hc); [apply list_lookup_insert_eq; by eapply lookup_lt_Some|].
    pose proof (chain_snoc_end _ _ _ _ _ Hc Ee2) as Hlk. destruct e2. simpl in *. subst. done. }
  assert (is_Some (heap (tab (with_tab (set_slot (place b l) (Some p) (tab s)) s)) !! p)) as Hp1.
  { simpl. unfold place. destruct (last l) as [q|] eqn:Eq; [|by exists e]. simpl. rewrite lookup_alter_ne; [by exists e|].
    intros ->. apply Hpl. by apply last_Some_elem_of. }
  rewrite (write_link p None _ Hp1). cbn [tab with_tab]. rewrite (set_place_link b l (Some p) p None (tab s) Hpl).
  fold t1. fold t2. exists t2. split_and!; [done|done| |by rewrite (to_hctl _ _ _ _ Hto)| |done].
  - destruct (to_keys _ _ _ _ Hto) as (? & ? & ? & ?), (to_flags _ _ _ _ Hto) as (? & ?).
    constructor; simpl; [done|done|]. by rewrite (to_hctl _ _ _ _ Hto).
  - etrans; [|apply (to_payload _ _ _ _ Hto)]. apply set_link_payload.
Qed.

(** Writing the key of an element. *)
Lemma put_key bs fs p e hv key s :
  shape (tab s) bs fs → heap (tab s) !! p = Some e →
  ∃ t', (e ← element p; put_element p (set_key hv key e)) s = (Ok tt, with_tab t' s) ∧ shape t' bs fs ∧ same_conf (tab s) t' ∧
    hctl t' = hctl (tab s) ∧ (∀ q, q ≠ p → heap t' !! q = heap (tab s) !! q) ∧ heap t' !! p = Some (set_key hv key e).
Proof.
  intros Hsh He. assert (element p s = (Ok e, s)) as Ee by (unfold element; by rewrite He). rewrite (M_bind_run _ _ _ _ _ Ee).
  eexists. split; [reflexivity|]. split_and!; [by eapply shape_payload|done|done| |simpl; by rewrite lookup_insert_eq].
  intros q Hq. simpl. by rewrite lookup_insert_ne.
Qed.

Lemma attach_run bs fs b l p hv key s :
  shape (tab s) bs fs → loose (tab s) bs fs p → bs !! b = Some l →
  ∃ t' v, (write_slot (place b l) (Some p);; write_slot (SLink p) None;;
      e ← element p; put_element p (set_key hv key e);; mret (Some p, false)) s = (Ok (Some p, false), with_tab t' s) ∧
    shape t' (<[b := l ++ [p]]> bs) fs ∧ same_conf (tab s) t' ∧ hctl t' = hctl (tab s) ∧
    (∀ q, q ≠ p → payload <$> heap t' !! q = payload <$> heap (tab s) !! q) ∧
    heap t' !! p = Some {| link := None; hashvalue := hv; elem_key := key; elem_data := v |}.
Proof.
  intros Hsh Hlo Hb. pose proof Hlo as ([e He] & _). destruct (attach_links bs fs b l p e s Hsh Hlo Hb He) as (t1 & E1 & Hsh1 & Hc1 & Hh1 & Hp1 & He1).
  destruct (put_key _ fs p _ hv key (with_tab t1 s) Hsh1 He1) as (t2 & E2 & Hsh2 & Hc2 & Hh2 & Hq2 & He2).
  exists t2, (elem_data e). split_and!; [|done|by etrans|by etrans| |done].
  - apply M_bind_ok in E1 as (u & s1 & Ea & Eb). rewrite (M_bind_run _ _ _ _ _ Ea), (M_bind_run _ _ _ _ _ Eb).
    apply M_bind_ok in E2 as (e2 & s2 & Ec & Ed). rewrite (M_bind_run _ _ _ _ _ Ec), (M_bind_run _ _ _ _ _ Ed). done.
  - intros q Hq. by rewrite Hq2.
Qed.

Lemma entries_ok_insert t t' E p k v i :
  key_laws valid t → entries_ok valid t E → valid k → E !! p = None → finds t E k None → same_conf t t' → idx_of t k = Z.of_nat i →
  (∀ j, (j < 32)%nat → nentries (get_freelist (Z.of_nat j) (hctl t')) =
    nentries (get_freelist (Z.of_nat j) (hctl t)) + (if decide (j = i) then 1 else 0)) →
  entries_ok valid t' (<[p := (k, v)]> E).
Proof.
  intros Hk [H1 H2 H3] Hv Hp Hf Hc Hi Hn. constructor.
  - intros q k' v' [[_ [= <- _]]|[_ Hq]]%lookup_insert_Some; eauto.
  - destruct (sc_keys _ _ Hc) as (_ & -> & _ & ->).
    intros q q' k1 v1 k2 v2 [[<- [= <- _]]|[_ Hq]]%lookup_insert_Some [[<- [= <- _]]|[_ Hq']]%lookup_insert_Some Hm; [done| | |by eauto].
    + destruct (Hf _ _ _ Hq'). apply (kl_sym _ _ Hk); eauto.
    + by destruct (Hf _ _ _ Hq).
  - intros j Hj. rewrite Hn, H3 by done. rewrite (counted_same t t') by done. rewrite (counted_insert t _ E p k v Hp), Hi.
    repeat case_decide; lia.
Qed.

Lemma insert_join bs b l p : bs !! b = Some l → mjoin (<[b := l ++ [p]]> bs) ≡ₚ p :: mjoin bs.
Proof. intros Hb. rewrite (join_insert bs b l _ Hb), (join_take_drop bs b l Hb). solve_Permutation. Qed.

Lemma entries_are_insert t t' bs b l p e E :
  entries_are t bs E → bs !! b = Some l → p ∉ mjoin bs → heap t' !! p = Some e →
  (∀ q, q ∈ mjoin bs → payload <$> heap t' !! q = payload <$> heap t !! q) →
  entries_are t' (<[b := l ++ [p]]> bs) (<[p := entry e]> E).
Proof.
  intros HE Hb Hp He Hpay q. pose proof (insert_join bs b l p Hb) as P. destruct (decide (q = p)) as [->|Hne].
  - rewrite lookup_insert_eq, decide_True by (rewrite P; left). by rewrite He.
  - rewrite lookup_insert_ne by done. pose proof (entries_keep t t' bs E HE Hpay q) as Hq. rewrite Hq.
    apply decide_ext. rewrite P, elem_of_cons. naive_solver.
Qed.

Lemma placed_insert t t' bs b l p e :
  placed t bs → bs !! b = Some l → p ∉ mjoin bs → heap t' !! p = Some e → same_conf t t' → same_masks t t' →
  hashvalue e = hash t (elem_key e) (keysize t) → calc_bucket (hctl t) (hashvalue e) = Z.of_nat b →
  (∀ q, q ∈ mjoin bs → payload <$> heap t' !! q = payload <$> heap t !! q) →
  placed t' (<[b := l ++ [p]]> bs).
Proof.
  intros Hpl Hb Hp He Hc Hm Hh Hcb Hpay b' l' q e' Hb' Hq He'.
  destruct (decide (q = p)) as [->|Hne].
  - simplify_eq. destruct (sc_keys _ _ Hc) as (-> & _ & _ & ->). rewrite (calc_bucket_same _ _ _ Hm). split; [done|].
    destruct (decide (b' = b)) as [->|Hne]; [done|]. rewrite list_lookup_insert_ne in Hb' by done.
    destruct Hp. apply elem_of_join. eauto.
  - apply (placed_keeps t t' bs Hpl Hc Hm Hpay b' (if decide (b' = b) then l else l') q); [|..|done].
    + case_decide; [by subst|]. by rewrite list_lookup_insert_ne in Hb'.
    + case_decide; [subst|done]. rewrite list_lookup_insert_eq in Hb' by (by eapply lookup_lt_Some). simplify_eq.
      apply elem_of_app in Hq as [?|Hq]; [done|]. by apply list_elem_of_singleton in Hq.
Qed.

(** What HASH_ENTER and HASH_ENTER_NULL come to. *)
Inductive enters s E (F : nat) (k : list byte) (action : HASHACTION) : result (option Z * bool) → HTAB V → Prop :=
| enters_found p t' :
    finds (tab s) E k (Some p) → table_ok valid t' E F → enters s E F k action (Ok (Some p, true)) t'
| enters_frozen t' :
    finds (tab s) E k None → frozen (tab s) = true → table_ok valid t' E F →
    enters s E F k action (Error ERRCODE_INTERNAL_ERROR "cannot insert into frozen hashtable") t'
| enters_new p v F' t' :
    finds (tab s) E k None → frozen (tab s) = false → E !! p = None →
    table_ok valid t' (<[p := (keycopy (tab s) k (keysize (tab s)), v)]> E) F' →
    S F' = F ∨ isfixed (hctl (tab s)) = false ∧ Z.of_nat (S F') = Z.of_nat F + nelem_alloc (hctl (tab s)) →
    enters s E F k action (Ok (Some p, false)) t'
| enters_full t' :
    finds (tab s) E k None → frozen (tab s) = false → F = 0%nat → no_memory s → table_ok valid t' E F →
    enters s E F k action
      match action with
      | HASH_ENTER_NULL => Ok (None, false)
      | _ => Error ERRCODE_OUT_OF_MEMORY (if isshared (tab s) then "out of shared memory" else "out of memory")
      end t'.

(** The code behind the expansion. *)
Definition enter_tail (idx : Z) (key : list byte) (hv : Z) (action : HASHACTION) : M (HashState V) (option Z * bool) :=
  lk ← hash_initial_lookup hv;
  t ← gets tab;
  r ← follow (key_matches t key hv) lk.2;
  let '(currBucket, prevBucketPtr) := r in
  match currBucket with
  | Some p => mret (Some p, true)
  | None =>
      if frozen t then ereport ERRCODE_INTERNAL_ERROR "cannot insert into frozen hashtable"
      else
        newElement ← get_hash_entry uninit idx;
        match newElement with
        | None =>
            match action with
            | HASH_ENTER_NULL => mret (None, false)
            | _ => ereport ERRCODE_OUT_OF_MEMORY (if isshared t then "out of shared memory" else "out of memory")
            end
        | Some p =>
            write_slot prevBucketPtr (Some p);;
            write_slot (SLink p) None;;
            e ← element p;
            put_element p (set_key hv (keycopy t key (keysize t)) e);;
            mret (Some p, false)
        end
  end.

Lemma enter_tail_run E F k s action :
  table_ok valid (tab s) E F → valid k →
  let hv := hash (tab s) k (keysize (tab s)) in
  ∃ r s', enter_tail (FREELIST_IDX (hctl (tab s)) hv) k hv action s = (r, s') ∧ same_env s s' ∧ same_conf (tab s) (tab s') ∧
    same_masks (tab s) (tab s') ∧ enters s E F k action r (tab s').
Proof.
  intros Hok Hval hv. pose proof Hok as [Hk HEok (bs & fs & Hsh & Hpl & HE & HF)].
  destruct (locate_run valid bs fs E k s Hk HEok Hsh Hpl HE Hval) as (b & l & r & la & Hl & Hb & E1 & E2 & Hf & Hr).
  destruct (key_freelist valid bs fs k s Hk Hsh Hval) as (i & f & Hi & Hfi & Hi32 & Hpart). fold hv in Hb, E1, E2, Hi.
  unfold enter_tail. rewrite (M_bind_run _ _ _ _ _ E1), gets_run, (M_bind_run _ _ _ _ _ E2). cbn [fst snd].
  destruct r as [p|]; [by eexists _, s; split_and!; [..|apply enters_found]|]. subst la.
  destruct (frozen (tab s)) eqn:Hfr; [by eexists _, s; split_and!; [..|apply enters_frozen]|]. rewrite Hi.
  destruct (get_hash_entry_run uninit bs fs i s Hsh Hi32 Hpart) as [(p & fs' & s1 & E3 & [Ht Hsh1 Hlo Hcnt] & Hlen)|(s1 & E3 & Ht & Hs & Hnil & Hno)];
    rewrite (M_bind_run _ _ _ _ _ E3).
  2:{ exists (match action with
              | HASH_ENTER_NULL => Ok (None, false)
              | _ => Error ERRCODE_OUT_OF_MEMORY (if isshared (tab s) then "out of shared memory" else "out of memory")
              end), s1.
      split; [by destruct action|]. rewrite Hs. split_and!; [apply Ht|done|done|]. subst F. rewrite Hnil in *.
      by apply enters_full. }
  set (kc := keycopy (tab s) k (keysize (tab s))).
  destruct (attach_run bs fs' b l p hv kc s1 Hsh1 Hlo Hl) as (t' & v & E4 & Hsh4 & Hconf & Hhc & Hpay & Hp).
  destruct Ht as [Henv Hc1 Hm1 Hpay1]. destruct Hlo as (_ & Hpb & Hpf).
  destruct (kl_copy _ _ Hk k Hval) as [Hkc Hmc]. fold kc in Hkc, Hmc. pose proof (kl_match _ _ Hk kc k Hkc Hval Hmc) as Hhash. fold hv in Hhash.
  assert (∀ q, q ∈ mjoin bs → payload <$> heap t' !! q = payload <$> heap (tab s) !! q) as Hpay'.
  { intros q Hq. rewrite Hpay by (intros ->; done). by apply Hpay1. }
  assert (same_conf (tab s) t') as Hc by by etrans. assert (same_masks (tab s) t') as Hm by (unfold same_masks; by rewrite Hhc).
  assert (E !! p = None) as HpE by (rewrite HE; by rewrite decide_False).
  eexists _, (with_tab t' s1). split; [exact E4|]. split_and!; [etrans; [exact Henv|apply same_env_tab]|done|done|].
  apply (enters_new _ _ _ _ _ p v (length (mjoin fs'))); [done|done|done| |by rewrite <- HF]. constructor; [by eapply key_laws_conf| |].
  - eapply (entries_ok_insert (tab s) _ E p kc v i); [done|done|done|done| |done|unfold idx_of; by rewrite Hhash|].
    + intros q k' v' Hq Hmk. apply (Hf q k' v' Hq). eapply (kl_trans _ _ Hk k' kc); [by eapply (eo_valid _ _ _ HEok)|done..].
    + intros j Hj. cbn [tab with_tab]. rewrite Hhc. by apply Hcnt.
  - exists (<[b := l ++ [p]]> bs), fs'. split_and!; [done| | |done].
    + by eapply (placed_insert (tab s)).
    + by eapply (entries_are_insert (tab s) _ _ _ _ _ _ _ HE Hl Hpb Hp).
Qed.

(** The table may grow first, but not while it is scanned. *)
Lemma expansion_run E F s :
  table_ok valid (tab s) E F → max_bucket (hctl (tab s)) + 1 < 2 ^ 32 →
  ∃ s', (frz ← gets (frozen ∘ tab); scanned ← has_seq_scans;
         if (max_bucket (hctl (tab s)) <? nentries (get_freelist 0 (hctl (tab s)))) && negb (IS_PARTITIONED (hctl (tab s))) && negb frz && negb scanned
         then expand_table;; mret tt else mret tt) s = (Ok tt, s') ∧
    same_env s s' ∧ same_conf (tab s) (tab s') ∧ table_ok valid (tab s') E F ∧
    (existsb (λ '(t, _), t =? self s) (seq_scans s) = true ∨ IS_PARTITIONED (hctl (tab s)) = true → s' = s) ∧
    max_bucket (hctl (tab s')) <= max_bucket (hctl (tab s)) + 1.
Proof.
  intros Hok Hmax. rewrite gets_run. unfold has_seq_scans. rewrite gets_run.
  destruct (existsb _ _); cbn [negb]; rewrite ?andb_false_r, ?andb_true_r; [exists s; split_and!; [done..|lia]|].
  destruct (_ && _) eqn:Econd; [|exists s; split_and!; [done..|lia]].
  destruct (expand_table_run valid E F s Hok Hmax) as (ok & s' & E1 & Henv & Hok' & Hc & Hm).
  exists s'. rewrite (M_bind_run _ _ _ _ _ E1). split_and!; [done..| |].
  { intros [?|HP]; [done|]. rewrite HP in Econd. cbn [negb] in Econd. by rewrite andb_false_r in Econd. }
  destruct ok; [lia|]. destruct Hm as (-> & _). lia.
Qed.

(** Entering, for a table with fewer than [2 ^ 32] buckets. *)
Lemma search_enter E F k s action :
  action = HASH_ENTER ∨ action = HASH_ENTER_NULL →
  table_ok valid (tab s) E F → valid k → max_bucket (hctl (tab s)) + 1 < 2 ^ 32 →
  ∃ r s', hash_search uninit k action s = (r, s') ∧ same_env s s' ∧ same_conf (tab s) (tab s') ∧
    (existsb (λ '(t, _), t =? self s) (seq_scans s) = true ∨ IS_PARTITIONED (hctl (tab s)) = true → same_masks (tab s) (tab s')) ∧
    max_bucket (hctl (tab s')) <= max_bucket (hctl (tab s)) + 1 ∧
    enters s E F k action r (tab s').
Proof.
  intros Hact Hok Hval Hmax. destruct (expansion_run E F s Hok Hmax) as (s1 & E1 & Henv & Hc & Hok1 & Hsame & Hle).
  destruct (enter_tail_run E F k s1 action Hok1 Hval) as (r & s2 & E2 & Henv2 & Hc2 & Hm2 & Hr).
  destruct (sc_keys _ _ Hc) as (K1 & K2 & K3 & K4), (sc_flags _ _ Hc) as (K5 & K9), (sc_part _ _ Hc) as (K6 & K7 & K8).
  exists r, s2. split; [|split_and!; [by etrans|by etrans|intros Hx; by rewrite <- (Hsame Hx)|destruct Hm2 as (-> & _); done|]].
  - rewrite K1, K4, (idx_same _ _ _ Hc) in E2. rewrite hash_search_hv. unfold hash_search_with_hash_value. rewrite gets_run.
    destruct Hact as [-> | ->]; rewrite (M_bind_run _ _ _ _ _ E1); exact E2.
  - assert (∀ x, finds (tab s1) E k x → finds (tab s) E k x) as Hf by (intros x; unfold finds; by rewrite K2, K4).
    destruct Hr as [p t' H1 H2|t' H1 H2 H3|p v F' t' H1 H2 H3 H4 H5|t' H1 H2 H3 H4 H5].
    + apply enters_found; auto.
    + apply enters_frozen; auto; congruence.
    + apply (enters_new _ _ _ _ _ p v F'); [auto|congruence|done|by rewrite <- K3, <- K4|by rewrite <- K7, <- K8].
    + rewrite K9. apply enters_full; auto; [congruence|]. destruct H4 as [H4|H4]; [left; congruence|right]. by apply (se_schedule _ _ Henv).
Qed.
End search.
End DynahashSearch.
