(* ===== verification/DynahashCreate.v ===== *)
(** * DynahashCreate: hash_create

    The sizes that hash_create computes, and the table it returns: no entries,
    the functions its flags ask for, and, for a shared table, a free element for
    every entry the caller announced.  It fails only when the allocator does. *)

From Stdlib Require Import ZArith Lia Bool Strings.Byte.
From stdpp Require Import base tactics numbers list gmap strings.
From S2P Require Import Prelude HashFn Dynahash DynahashChain DynahashInv DynahashKeys DynahashOps.
Import Dynahash DynahashChain DynahashInv DynahashKeys DynahashOps.

Local Open Scope Z_scope.
Local Open Scope pg_scope.
#[local] Arguments Nat.div : simpl never.
#[local] Arguments Nat.modulo : simpl never.

Module DynahashCreate.

(** ** Sizes *)

Lemma pow_0_30 j : 0 <= j <= 30 → 1 <= 2 ^ j <= 2 ^ 30.
Proof. intros Hj. split; [|apply Z.pow_le_mono_r; lia]. change 1 with (2 ^ 0). apply Z.pow_le_mono_r; lia. Qed.

Lemma ceil_log2_spec n : n <= 2 ^ pg_ceil_log2_64 n ∧ 0 <= pg_ceil_log2_64 n.
Proof.
  unfold pg_ceil_log2_64. destruct (Z.ltb_spec n 2); [lia|].
  pose proof (Z.log2_spec (n - 1) ltac:(lia)) as [_ H1]. pose proof (Z.log2_nonneg (n - 1)).
  replace (Z.succ (Z.log2 (n - 1))) with (Z.log2 (n - 1) + 1) in H1 by lia. lia.
Qed.

Lemma ceil_log2_le n k : 0 <= k → n <= 2 ^ k → pg_ceil_log2_64 n <= k.
Proof.
  intros Hk Hn. unfold pg_ceil_log2_64. destruct (Z.ltb_spec n 2); [done|].
  assert (Z.log2 (n - 1) < k); [|lia]. apply Z.log2_lt_pow2; lia.
Qed.

(** The power of two is at least the number, up to [2 ^ 30]. *)
Lemma next_pow2_int_spec n : ∃ j, next_pow2_int n = 2 ^ j ∧ 0 <= j <= 30 ∧ (n < 2 ^ 30 → n <= 2 ^ j).
Proof.
  unfold next_pow2_int, my_log2. change (INT_MAX / 2) with 1073741823. change (PG_INT64_MAX / 2) with 4611686018427387903.
  set (x := if 1073741823 <? n then 1073741823 else n).
  assert (x <= 1073741823 ∧ (n < 2 ^ 30 → x = n)) as [Hx Hxn].
  { unfold x. change (2 ^ 30) with 1073741824. destruct (Z.ltb_spec 1073741823 n); split; lia. }
  assert ((4611686018427387903 <? x) = false) as -> by (apply Z.ltb_ge; lia).
  exists (pg_ceil_log2_64 x). destruct (ceil_log2_spec x) as [H1 H2]. rewrite Z.shiftl_1_l.
  split; [done|]. split; [split; [done|]; apply ceil_log2_le; [lia|]; change (2 ^ 30) with 1073741824; lia|].
  intros Hn. rewrite (Hxn Hn) in *. lia.
Qed.

Lemma partition_buckets_spec fuel j parts :
  0 <= j <= 30 → 0 <= parts <= 2 ^ 30 →
  ∃ k, partition_buckets fuel (2 ^ j) parts = 2 ^ k ∧ j <= k <= 30 ∧ (30 - j <= Z.of_nat fuel → parts <= 2 ^ k).
Proof.
  revert j. induction fuel as [|fuel IH]; intros j Hj Hp; cbn [partition_buckets].
  - exists j. split_and!; [done|lia|lia|]. intros Hf. assert (j = 30) as -> by lia. lia.
  - destruct (Z.ltb_spec (2 ^ j) parts) as [Hlt|Hge].
    + assert (j < 30) as Hj' by (apply (Z.pow_lt_mono_r_iff 2); lia).
      rewrite Z.shiftl_mul_pow2 by lia. rewrite <- Z.pow_add_r by lia.
      destruct (IH (j + 1)) as (k & E & Hk & Hle); [lia|done|]. exists k. split_and!; [done|lia|lia|]. intros Hf. apply Hle. lia.
    + exists j. split_and!; [done|lia|lia|]. lia.
Qed.

Lemma choose_loop_spec fuel es a :
  0 < es → 0 < a → 32 * es <= a * 2 ^ Z.of_nat fuel → (0 < fuel)%nat → ∃ n, choose_nelem_alloc_loop fuel es a = Some n ∧ 32 <= n.
Proof.
  intros Hes. revert a. induction fuel as [|fuel IH]; intros a Ha Hle Hf; [lia|]. cbn [choose_nelem_alloc_loop].
  rewrite Z.shiftl_mul_pow2 by lia. change (2 ^ 1) with 2. destruct (Z.ltb_spec (a * 2 / es) 32) as [Hlt|Hge]; [|eauto].
  assert (a * 2 < 32 * es) as Hs by (apply Z.nle_gt; intros H; apply (Z.div_le_mono _ _ es) in H; [rewrite Z.div_mul in H|]; lia).
  apply IH; [lia| |].
  - rewrite Nat2Z.inj_succ, Z.pow_succ_r in Hle by lia. lia.
  - destruct fuel; [|lia]. change (2 ^ Z.of_nat 1) with 2 in Hle. lia.
Qed.

Lemma choose_nelem_alloc_spec entrysize : 0 <= entrysize <= 2 ^ 40 → ∃ n, choose_nelem_alloc entrysize = Some n ∧ 32 <= n.
Proof.
  intros He. apply choose_loop_spec; [| |change (2 ^ Z.of_nat 64) with (2 ^ 24 * 2 ^ 40)|lia].
  - unfold element_size, MAXALIGN, sizeof_HASHELEMENT. Z.to_euclidean_division_equations; lia.
  - lia.
  - unfold element_size, MAXALIGN, sizeof_HASHELEMENT. change (2 ^ 40) with 1099511627776 in *. change (2 ^ 24) with 16777216.
    Z.to_euclidean_division_equations; lia.
Qed.

Section create.
Context {V : Type} (uninit : Z → HASHELEMENT V).
Implicit Types (t : HTAB V) (s : HashState V) (b i n : nat) (bs fs : list (list Z)).

(** ** The directory *)

(** The first [n] segments are there and empty. *)
Definition segs_made (n : nat) t : Prop :=
  nsegs (hctl t) = Z.of_nat n ∧ ∀ i, (i < n)%nat → dir t !! i = Some (Some (replicate 256 None)).

(** A table but for its directory's contents and the number of segments. *)
Definition same_but_dir t t' : Prop :=
  t' = with_dir (dir t') (with_hctl (with_nsegs (nsegs (hctl t')) (hctl t)) t) ∧ length (dir t') = length (dir t).
#[global] Instance same_but_dir_preorder : PreOrder same_but_dir.
Proof.
  split.
  - intros [[] ]. done.
  - intros t1 t2 t3 [E2 L2] [E3 L3]. split; [|congruence]. rewrite E3, E2. done.
Qed.

Lemma init_segments_run n k s :
  segs_made k (tab s) → (k + n <= length (dir (tab s)))%nat →
  ∃ ok s', init_segments n (Z.of_nat k) s = (Ok ok, s') ∧ same_env s s' ∧ same_but_dir (tab s) (tab s') ∧
    if ok then segs_made (k + n) (tab s') else false ∈ alloc_schedule s.
Proof.
  revert k s. induction n as [|n IH]; intros k s Hk Hle; cbn [init_segments].
  { exists true, s. rewrite Nat.add_0_r. by split_and!. }
  unfold seg_alloc. destruct (alloc_run s) as (ok & s1 & E1 & Ht & Henv & Hno).
  rewrite (M_bind_run _ _ _ (if ok then Some (replicate 256 None) else None) s1) by (rewrite (M_bind_run _ _ _ _ _ E1); by destruct ok).
  rewrite Nat2Z.id. set (seg := if ok then _ else _). set (t2 := with_dir (<[k := seg]> (dir (tab s))) (tab s)).
  rewrite (M_bind_run _ _ _ tt (with_tab t2 s1)) by (unfold t2; by rewrite <- Ht).
  assert (same_but_dir (tab s) t2) as B2 by (split; [by destruct (tab s) as [[]]|simpl; by rewrite length_insert]).
  destruct ok; unfold seg; [clear Hno|].
  2:{ exists false, (with_tab t2 s1). split_and!; [done|etrans; [exact Henv|apply same_env_tab]|done|auto]. }
  destruct Hk as [Hn Hsegs]. set (t3 := with_hctl (with_nsegs (nsegs (hctl t2) + 1) (hctl t2)) t2).
  rewrite (M_bind_run _ _ _ tt (with_tab t3 s1)) by done. replace (Z.of_nat k + 1) with (Z.of_nat (S k)) by lia.
  destruct (IH (S k) (with_tab t3 s1)) as (ok & s' & E2 & Henv2 & B & H).
  - split; [simpl; lia|]. intros i Hi. simpl. destruct (decide (i = k)) as [->|Hne]; [by rewrite list_lookup_insert_eq by lia|].
    rewrite list_lookup_insert_ne by done. apply Hsegs. lia.
  - simpl. rewrite length_insert. lia.
  - exists ok, s'. split_and!; [exact E2|etrans; [exact Henv|etrans; [apply same_env_tab|exact Henv2]]| |].
    + etrans; [exact B2|]. etrans; [|exact B]. done.
    + destruct ok; [by replace (k + S n)%nat with (S k + n)%nat by lia|]. by apply (se_schedule _ _ Henv).
Qed.

Lemma segs_made_ok n t :
  segs_made n t → (0 < n)%nat → Z.of_nat (length (dir t)) = dsize (hctl t) → Z.of_nat n <= dsize (hctl t) →
  max_bucket (hctl t) < Z.of_nat n * 256 → dir_ok t ∧ ∀ b, Z.of_nat b <= max_bucket (hctl t) → bucket_head t b = Some None.
Proof.
  intros [Hn Hs] Hpos Hlen Hle Hmax. split.
  - constructor; rewrite ?Hn; [done|lia| |done]. intros i Hi. rewrite Hs by lia. eexists. split; [done|]. done.
  - intros b Hb. unfold bucket_head. rewrite Hs by (apply Nat.Div0.div_lt_upper_bound; lia). simpl.
    assert (b mod 256 < 256)%nat as Hlt by (apply Nat.mod_upper_bound; lia). revert Hlt. generalize (b mod 256)%nat. intros j Hj.
    change (replicate 256 (@None Z) !! j = Some None). by apply lookup_replicate.
Qed.

Lemma join_replicate_nil n : mjoin (replicate n ([] : list Z)) = [].
Proof. induction n; simpl; auto. Qed.

(** No entries and no elements. *)
Lemma empty_shape t k :
  masks_ok (hctl t) k → dir_ok t → (∀ b, Z.of_nat b <= max_bucket (hctl t) → bucket_head t b = Some None) →
  freeLists (hctl t) = replicate 32 no_freelist → heap t = ∅ → 1 <= nelem_alloc (hctl t) →
  shape t (replicate (Z.to_nat (max_bucket (hctl t) + 1)) []) (replicate 32 []).
Proof.
  intros Hm Hd Hh Hf He Ha. pose proof (calc_bucket_range _ _ 0 Hm) as Hr. constructor; [by exists k|done|..].
  - rewrite length_replicate. lia.
  - intros b l [-> Hlt]%lookup_replicate. exists None. split; [apply Hh; lia|done].
  - rewrite Hf. done.
  - intros i l [-> Hlt]%lookup_replicate. simpl. unfold get_freelist. rewrite Hf, Nat2Z.id, nth_lookup, lookup_replicate_2 by done. done.
  - intros _ i l [-> Hlt]%lookup_replicate. done.
  - rewrite !join_replicate_nil. constructor.
  - rewrite He. intros p [e Hp]. by rewrite lookup_empty in Hp.
  - done.
Qed.

(** ** init_htab *)

(** What a table keeps while its directory is made. *)
Record same_kind t t' : Prop := {
  sk_keys : hash t' = hash t ∧ match_ t' = match_ t ∧ keycopy t' = keycopy t ∧ keysize t' = keysize t;
  sk_flags : frozen t' = frozen t ∧ isshared t' = isshared t;
  sk_part : num_partitions (hctl t') = num_partitions (hctl t);
}.

Lemma conf_kind t t' : same_conf t t' → same_kind t t'.
Proof. intros [? ? (? & _)]. by constructor. Qed.

(** A table without elements, with [2 ^ k] buckets. *)
Record blank t (nelem k : Z) : Prop := {
  bl_shape : shape t (replicate (Z.to_nat (max_bucket (hctl t) + 1)) []) (replicate 32 []);
  bl_free : freeLists (hctl t) = replicate 32 no_freelist;
  bl_range : 0 <= k <= 30;
  bl_buckets : max_bucket (hctl t) = 2 ^ k - 1 ∧ low_mask (hctl t) = 2 ^ k - 1;
  bl_enough : nelem <= 2 ^ k;
  bl_parts : num_partitions (hctl t) <= 2 ^ k;
}.

(** A table of [2 ^ k] buckets is full at its masks. *)
Lemma full_masks h k :
  0 <= k <= 30 → max_bucket h = 2 ^ k - 1 → low_mask h = 2 ^ k - 1 → high_mask h = wrap32 (Z.shiftl (2 ^ k) 1 - 1) → masks_ok h k.
Proof.
  intros Hk Hmx Hlo Hhi. pose proof (pow_0_30 k Hk) as H30.
  assert (high_mask h = Z.ones (k + 1)) as Hhi'.
  { rewrite Hhi, Z.ones_equiv, Z.shiftl_mul_pow2, Z.pow_add_r by lia. apply wrap32_small.
    change (2 ^ 30) with 1073741824 in *. change (2 ^ 1) with 2. mlia. }
  constructor; [lia|by rewrite Hlo, Z.ones_equiv; lia|done|]. rewrite Hmx, Hlo, Hhi', Z.ones_equiv, Z.pow_add_r by lia. lia.
Qed.

Lemma init_htab_run nelem s :
  let h := hctl (tab s) in
  freeLists h = replicate 32 no_freelist → nsegs h = 0 → heap (tab s) = ∅ → 0 <= num_partitions h <= 2 ^ 30 →
  0 <= entrysize h <= 2 ^ 40 → nelem < 2 ^ 30 →
  ∃ ok s', init_htab nelem s = (Ok ok, s') ∧ same_env s s' ∧
    if ok then same_kind (tab s) (tab s') ∧ isfixed (hctl (tab s')) = isfixed h ∧ ∃ k, blank (tab s') nelem k else false ∈ alloc_schedule s.
Proof.
  intros h Hf Hns Hheap Hp He Hn. unfold init_htab. rewrite gets_run. cbn [compose]. fold h.
  destruct (next_pow2_int_spec nelem) as (j & -> & Hj & Hge). specialize (Hge Hn).
  destruct (partition_buckets_spec 32 j (num_partitions h) Hj Hp) as (k & -> & Hk & Hpk). specialize (Hpk ltac:(lia)).
  pose proof (pow_0_30 k ltac:(lia)) as Hk30. assert (2 ^ j <= 2 ^ k) as Hjk by (apply Z.pow_le_mono_r; lia).
  destruct (next_pow2_int_spec ((2 ^ k - 1) / HASH_SEGSIZE + 1)) as (m & -> & Hm & Hgem). unfold HASH_SEGSIZE in *.
  specialize (Hgem ltac:(change (2 ^ 30) with 1073741824 in *; Z.to_euclidean_division_equations; lia)).
  pose proof (pow_0_30 m Hm) as Hm30. rewrite gets_run. cbn [compose]. set (size := Z.max DEF_DIRSIZE (2 ^ m)).
  match goal with |- context [on_hctl ?f] => set (h1 := f h); rewrite (M_bind_run (on_hctl f) _ s tt (with_tab (with_hctl h1 (tab s)) s)) by done end.
  set (s1 := with_tab (with_hctl h1 (tab s)) s). destruct (alloc_run s1) as (ok & s2 & E2 & Ht2 & Henv2 & Hno).
  rewrite (M_bind_run _ _ _ _ _ E2). assert (same_env s s2) as Henv by (etrans; [apply same_env_tab|exact Henv2]).
  destruct ok; cbn [negb]; [clear Hno|by exists false, s2; split_and!; [..|by apply Hno]].
  set (t3 := with_dir (replicate (Z.to_nat size) None) (with_hctl h1 (tab s))).
  rewrite (M_bind_run _ _ _ tt (with_tab t3 s2)) by (unfold on_tab, modify; by rewrite Ht2).
  assert (2 ^ m <= size ∧ 0 <= size) as [Hms Hsize] by lia.
  destruct (init_segments_run (Z.to_nat (2 ^ m)) 0 (with_tab t3 s2)) as (ok & s4 & E4 & Henv4 & [B4 L4] & H4).
  { split; [done|]. intros i Hi. lia. }
  { cbn [tab with_tab t3 dir with_dir]. rewrite length_replicate. lia. }
  change (Z.of_nat 0) with 0 in E4. rewrite (M_bind_run _ _ _ _ _ E4). assert (same_env s s4) as Henv' by (etrans; [exact Henv|]; etrans; [apply same_env_tab|exact Henv4]).
  destruct ok; cbn [negb]; [|exists false, s4; split_and!; [done|done|]; by apply (se_schedule _ _ Henv)].
  destruct (choose_nelem_alloc_spec (entrysize h) He) as (n & -> & Hn32). exists true. eexists. split; [reflexivity|].
  split; [etrans; [exact Henv'|by constructor]|]. cbn [tab with_tab] in *. set (t5 := with_hctl _ (tab s4)).
  set (d := dir (tab s4)) in *. set (ns := nsegs (hctl (tab s4))) in *. destruct H4 as [N4 S4]. rewrite Nat.add_0_l in N4, S4. fold ns in N4.
  assert (hctl t5 = {| freeLists := freeLists h; dsize := size; nsegs := ns; max_bucket := 2 ^ k - 1;
    high_mask := wrap32 (Z.shiftl (2 ^ k) 1 - 1); low_mask := 2 ^ k - 1; entrysize := entrysize h;
    num_partitions := num_partitions h; max_dsize := max_dsize h1; nelem_alloc := n; isfixed := isfixed h |}) as Hh5.
  { unfold t5. rewrite B4. done. }
  assert (t5 = with_dir d (with_hctl (hctl t5) (tab s))) as Et5 by (rewrite Hh5; unfold t5; rewrite B4; done).
  clearbody t5. split; [rewrite Et5; constructor; simpl; rewrite ?Hh5; done|]. split; [by rewrite Hh5|]. exists k.
  assert (masks_ok (hctl t5) k) as Hmask by (apply full_masks; rewrite ?Hh5; [lia|done..]).
  assert (dir t5 = d) as Hd5 by (rewrite Et5; done).
  destruct (segs_made_ok (Z.to_nat (2 ^ m)) t5) as [Hdir Hheads].
  { split; [rewrite Hh5; simpl; done|]. rewrite Hd5. exact S4. }
  { lia. }
  { rewrite Hd5, Hh5, L4. simpl. rewrite length_replicate. lia. }
  { rewrite Hh5. simpl. lia. }
  { rewrite Hh5. simpl. Z.to_euclidean_division_equations; lia. }
  constructor; [|by rewrite Hh5|lia|by rewrite Hh5|lia|by rewrite Hh5].
  apply (empty_shape t5 k); [done|done|done|by rewrite Hh5|by rewrite Et5|by rewrite Hh5; simpl; lia].
Qed.

(** ** The first elements *)

Definition share (first rest i : Z) : Z := if i =? 0 then first else rest.

Definition shares (first rest : Z) (ix : list Z) : Z := foldr (λ (i n : Z), share first rest i + n) 0 ix.

Lemma prealloc_loop first rest (ix : list Z) : ∀ bs fs s,
  shape (tab s) bs fs → mjoin bs = [] → 1 <= first → 1 <= rest → (∀ i : Z, i ∈ ix → 0 <= i < 32) →
  (IS_PARTITIONED (hctl (tab s)) = false → ∀ i : Z, i ∈ ix → i = 0) →
  ∃ r s', for_each ix (λ (i : Z), ok ← element_alloc uninit (if i =? 0 then first else rest) i;
      if ok : bool then mret tt else ereport ERRCODE_OUT_OF_MEMORY "out of memory") s = (r, s') ∧ same_env s s' ∧
    (r = Ok tt ∧ same_conf (tab s) (tab s') ∧ same_masks (tab s) (tab s') ∧
       (∀ j : nat, nentries (get_freelist (Z.of_nat j) (hctl (tab s'))) = nentries (get_freelist (Z.of_nat j) (hctl (tab s)))) ∧
       (∃ fs', shape (tab s') bs fs' ∧ Z.of_nat (length (mjoin fs')) = Z.of_nat (length (mjoin fs)) + shares first rest ix) ∨
     r = Error ERRCODE_OUT_OF_MEMORY "out of memory" ∧ no_memory s).
Proof.
  induction ix as [|i ix IH]; intros bs fs s Hsh Hbs H1 H2 Hi Hpart; cbn [for_each].
  { exists (Ok tt), s. split_and!; [done|done|]. left. split_and!; [done..|]. exists fs. split; [done|]. simpl. lia. }
  pose proof (Hi i ltac:(left)) as Hi0. destruct (lookup_lt_is_Some_2 fs (Z.to_nat i)) as [f Hf]; [destruct (sh_nf _ _ _ Hsh) as [-> _]; lia|].
  destruct (element_alloc_run uninit bs fs (Z.to_nat i) f (share first rest i) s Hsh Hf) as (ok & s1 & E1 & Henv & Hok).
  { unfold share. destruct (i =? 0); lia. }
  { intros HP. rewrite (Hpart HP i) by left. done. }
  rewrite Z2Nat.id in E1 by lia. fold (share first rest i).
  match goal with |- context [(?m ≫= ?f) s] => assert (m s = (if ok then Ok tt else Error ERRCODE_OUT_OF_MEMORY "out of memory", s1)) as Eb end.
  { rewrite (M_bind_run _ _ _ _ _ E1). by destruct ok. }
  destruct ok.
  - rewrite (M_bind_run _ _ _ _ _ Eb). destruct Hok as (Hfix & new & Hnew & Hsh1 & Hc & Hm & _ & Hcnt).
    destruct (IH bs (<[Z.to_nat i := new ++ f]> fs) s1) as (r & s' & E2 & Henv2 & Hr); [done|done|done|done| | |].
    { intros j Hj. apply Hi. by right. }
    { unfold IS_PARTITIONED. destruct (sc_part _ _ Hc) as (-> & _). intros HP j Hj. apply (Hpart HP). by right. }
    exists r, s'. split; [exact E2|]. split; [by etrans|]. destruct Hr as [(-> & Hc2 & Hm2 & Hcnt2 & fs' & Hsh' & Hlen)|[-> Hno]].
    + left. split_and!; [done|by etrans| | |].
      * destruct Hm as (? & ? & ?), Hm2 as (? & ? & ?). split_and!; congruence.
      * intros j. by rewrite Hcnt2.
      * exists fs'. split; [done|]. rewrite Hlen, (join_insert fs _ f _ Hf), (join_take_drop fs _ f Hf), !length_app. cbn [shares foldr]. fold (shares first rest ix). lia.
    + right. split; [done|]. destruct Hno as [Hno|Hno]; [destruct (sc_part _ _ Hc) as (_ & Hx & _); congruence|right].
      by apply (se_schedule _ _ Henv).
  - destruct Hok as [Hs Hno]. eexists _, s1. split; [exact (M_bind_err _ _ _ _ _ _ Eb)|]. split; [done|]. right. done.
Qed.

(** The elements preallocated are enough. *)
Lemma shares_enough nelem parted :
  0 <= nelem < 2 ^ 30 →
  let parts := if parted : bool then NUM_FREELISTS else 1 in
  let n := to_int32 (nelem / parts) in
  let n := if n <=? 0 then 1 else n in
  let first := if n * parts <? nelem then to_int32 (nelem - n * (parts - 1)) else n in
  1 <= first ∧ 1 <= n ∧ nelem <= shares first n (seqZ 0 parts) ∧ (∀ i : Z, i ∈ seqZ 0 parts → 0 <= i < 32).
Proof.
  intros Hn parts n0 n first. assert (n0 = nelem / parts) as En0.
  { apply to_int32_small. unfold parts, NUM_FREELISTS. change (2 ^ 30) with 1073741824 in *. change (2 ^ 31) with 2147483648.
    destruct parted; Z.to_euclidean_division_equations; lia. }
  assert (1 <= n ∧ (n * parts < nelem → n = nelem / parts) ∧ 1 <= parts <= 32) as (Hn1 & Hnn & Hparts).
  { assert (1 <= parts <= 32) as Hp by (unfold parts, NUM_FREELISTS; destruct parted; lia). unfold n. rewrite En0.
    pose proof (Z.div_pos nelem parts ltac:(lia) ltac:(lia)). pose proof (Z.div_mod nelem parts ltac:(lia)).
    pose proof (Z.mod_pos_bound nelem parts ltac:(lia)). destruct (Z.leb_spec (nelem / parts) 0); split_and!; try lia; nia. }
  assert (1 <= first ∧ nelem <= first + n * (parts - 1)) as [Hf Hsum].
  { unfold first. destruct (Z.ltb_spec (n * parts) nelem) as [Hlt|Hge]; [|lia]. specialize (Hnn Hlt). rewrite to_int32_small; [lia|].
    change (2 ^ 30) with 1073741824 in *. change (2 ^ 31) with 2147483648. split; nia. }
  split_and!; [done|done| |].
  - clearbody first n. unfold parts, NUM_FREELISTS in *. destruct parted.
    + change (seqZ 0 32) with [0; 1; 2; 3; 4; 5; 6; 7; 8; 9; 10; 11; 12; 13; 14; 15; 16; 17; 18; 19; 20; 21; 22; 23; 24; 25; 26; 27; 28; 29; 30; 31].
      unfold shares, share. cbn [foldr Z.eqb]. lia.
    + change (seqZ 0 1) with [0]. unfold shares, share. cbn [foldr Z.eqb]. lia.
  - intros i [? ?]%elem_of_seqZ. lia.
Qed.

(** ** hash_create *)

(** What the caller has to respect. *)
Record create_args (nelem : Z) (info : HASHCTL) (flags : Z) : Prop := {
  ca_nelem : 0 <= nelem < 2 ^ 30;
  ca_sizes : 0 < info_keysize info <= info_entrysize info ∧ info_entrysize info <= 2 ^ 40;
  ca_parts : has flags HASH_PARTITION = true → 0 < info_num_partitions info <= 2 ^ 30;
  ca_attach : has flags HASH_ATTACH = false;
}.

(** The functions and flags that the table has then. *)
Record chosen (info : HASHCTL) (flags : Z) t : Prop := {
  ch_keysize : keysize t = info_keysize info;
  ch_hash : hash t = if has flags HASH_FUNCTION then info_hash info
    else if has flags HASH_BLOBS then (if info_keysize info =? 4 then uint32_hash else tag_hash) else string_hash;
  ch_match : match_ t = if has flags HASH_COMPARE then info_match info
    else if (if has flags HASH_FUNCTION then info_string_hash info else negb (has flags HASH_BLOBS)) then string_compare else memcmp;
  ch_keycopy : keycopy t = if has flags HASH_KEYCOPY then info_keycopy info
    else if (if has flags HASH_FUNCTION then info_string_hash info else negb (has flags HASH_BLOBS)) then strlcpy else memcpy;
  ch_frozen : frozen t = false;
  ch_shared : isshared t = has flags HASH_SHARED_MEM;
  ch_parts : num_partitions (hctl t) = if has flags HASH_PARTITION then info_num_partitions info else 0;
}.

Lemma chosen_kind info flags t t' : same_kind t t' → chosen info flags t → chosen info flags t'.
Proof. intros [(A1 & A2 & A3 & A4) (A5 & A6) A7] [B1 B2 B3 B4 B5 B6 B7]. constructor; congruence. Qed.

Record created (nelem : Z) (info : HASHCTL) (flags : Z) t (F : nat) : Prop := {
  cr_chosen : chosen info flags t;
  cr_fixed : isfixed (hctl t) = has flags HASH_FIXED_SIZE;
  cr_buckets : ∃ k, 0 <= k <= 30 ∧ max_bucket (hctl t) = 2 ^ k - 1 ∧ low_mask (hctl t) = 2 ^ k - 1 ∧
    nelem <= 2 ^ k ∧ num_partitions (hctl t) <= 2 ^ k;
  cr_shape : ∃ n fs, shape t (replicate n []) fs ∧ length (mjoin fs) = F;
  cr_count (j : nat) : (j < 32)%nat → nentries (get_freelist (Z.of_nat j) (hctl t)) = 0;
  cr_capacity : has flags HASH_SHARED_MEM = true ∨ nelem < nelem_alloc (hctl t) → nelem <= Z.of_nat F;
}.

Lemma shape_fixed t bs fs h : shape t bs fs →
  h = {| freeLists := freeLists (hctl t); dsize := dsize (hctl t); nsegs := nsegs (hctl t); max_bucket := max_bucket (hctl t);
         high_mask := high_mask (hctl t); low_mask := low_mask (hctl t); entrysize := entrysize (hctl t);
         num_partitions := num_partitions (hctl t); max_dsize := max_dsize (hctl t); nelem_alloc := nelem_alloc (hctl t); isfixed := true |} →
  shape (with_hctl h t) bs fs.
Proof.
  intros [[k []] [] A3 A4 A5 A6 A7 A8 A9 A10] ->. constructor; try done. by exists k.
Qed.

(** The preallocation, if there is one. *)
Lemma prealloc_run nelem (doit : bool) bs fs s :
  shape (tab s) bs fs → mjoin bs = [] → 0 <= nelem < 2 ^ 30 →
  let h := hctl (tab s) in
  let parts := if IS_PARTITIONED h then NUM_FREELISTS else 1 in
  let n := to_int32 (nelem / parts) in
  let n := if n <=? 0 then 1 else n in
  let first := if n * parts <? nelem then to_int32 (nelem - n * (parts - 1)) else n in
  ∃ r s', (if doit then prealloc uninit parts first n else mret tt) s = (r, s') ∧ same_env s s' ∧
    (r = Ok tt ∧ same_conf (tab s) (tab s') ∧ same_masks (tab s) (tab s') ∧
       (∀ j : nat, nentries (get_freelist (Z.of_nat j) (hctl (tab s'))) = nentries (get_freelist (Z.of_nat j) (hctl (tab s)))) ∧
       (∃ fs', shape (tab s') bs fs' ∧ (doit = true → nelem <= Z.of_nat (length (mjoin fs')))) ∨
     r = Error ERRCODE_OUT_OF_MEMORY "out of memory" ∧ no_memory s).
Proof.
  intros Hsh Hbs Hn h parts n0 n first. destruct (shares_enough nelem (IS_PARTITIONED h) Hn) as (H1 & H2 & H3 & H4).
  fold parts in H1, H2, H3, H4. fold n0 in H1, H2, H3. fold n in H1, H2, H3. fold first in H1, H3.
  destruct doit; [|by exists (Ok tt), s; split_and!; [..|left; split_and!; [..|by exists fs]]].
  destruct (prealloc_loop first n (seqZ 0 parts) bs fs s Hsh Hbs H1 H2 H4) as (r & s' & E1 & Henv & Hr).
  { fold h. intros HP i. unfold parts. rewrite HP. change (seqZ 0 1) with [0]. by intros ->%list_elem_of_singleton. }
  exists r, s'. split; [exact E1|]. split; [done|]. destruct Hr as [(-> & Hc & Hm & Hcnt & fs' & Hsh' & Hlen)|?]; [left|by right].
  split_and!; [done..|]. exists fs'. split; [done|]. lia.
Qed.

Lemma replicate_nth_empty (j : nat) h : freeLists h = replicate 32 no_freelist → get_freelist (Z.of_nat j) h = no_freelist.
Proof.
  intros Hf. unfold get_freelist. rewrite Hf, nth_lookup. destruct (replicate 32 no_freelist !! Z.to_nat (Z.of_nat j)) as [x|] eqn:E; [|done].
  by apply lookup_replicate in E as [-> _].
Qed.

(** The last step: a table of fixed size. *)
Lemma fix_size nelem info flags bs fs F s :
  has flags HASH_FIXED_SIZE = isfixed (hctl (tab s)) || has flags HASH_FIXED_SIZE →
  (∀ t, same_kind (tab s) t → isfixed (hctl t) = has flags HASH_FIXED_SIZE → same_masks (tab s) t →
     freeLists (hctl t) = freeLists (hctl (tab s)) → nelem_alloc (hctl t) = nelem_alloc (hctl (tab s)) → shape t bs fs →
     created nelem info flags t F) →
  shape (tab s) bs fs →
  ∃ s', (if has flags HASH_FIXED_SIZE then
           on_hctl (λ h, {| freeLists := freeLists h; dsize := dsize h; nsegs := nsegs h; max_bucket := max_bucket h;
             high_mask := high_mask h; low_mask := low_mask h; entrysize := entrysize h; num_partitions := num_partitions h;
             max_dsize := max_dsize h; nelem_alloc := nelem_alloc h; isfixed := true |})
         else mret tt) s = (Ok tt, s') ∧ same_env s s' ∧ created nelem info flags (tab s') F.
Proof.
  intros Hfix Hcr Hsh. destruct (has flags HASH_FIXED_SIZE).
  - eexists. split; [reflexivity|]. split; [apply same_env_tab|]. apply Hcr; [done..|]. by eapply shape_fixed.
  - exists s. rewrite orb_false_r in Hfix. split_and!; [done|done|]. by apply Hcr.
Qed.

Lemma hash_create_run nelem info flags s :
  create_args nelem info flags →
  ∃ r s', hash_create uninit nelem info flags s = (r, s') ∧ same_env s s' ∧
    (r = Ok tt ∧ (∃ F, created nelem info flags (tab s') F) ∨ (∃ c e, r = Error c e) ∧ false ∈ alloc_schedule s).
Proof.
  intros [Hn [Hks Hes] Hparts Hatt]. unfold hash_create. rewrite Hatt, andb_false_r.
  match goal with |- context [on_tab ?f] => set (t0 := f (tab s)); rewrite (M_bind_run (on_tab f) _ s tt (with_tab t0 s)) by done end.
  destruct (alloc_run (with_tab t0 s)) as (ok & s1 & E1 & Ht1 & Henv1 & Hno). rewrite (M_bind_run _ _ _ _ _ E1).
  assert (same_env s s1) as Henv by (etrans; [apply same_env_tab|exact Henv1]).
  destruct ok; cbn [negb]; [clear Hno|by eexists _, s1; split_and!; [..|right; split; [by eauto|by apply Hno]]].
  match goal with |- context [on_tab ?f] => set (t2 := f t0);
    rewrite (M_bind_run (on_tab f) _ s1 tt (with_tab t2 s1)) by (unfold on_tab, modify; by rewrite Ht1) end.
  destruct (init_htab_run nelem (with_tab t2 s1)) as (ok & s3 & E3 & Henv3 & H3); [done|done|done| |simpl; lia|lia|].
  { simpl. destruct (has flags HASH_PARTITION) eqn:EP; [specialize (Hparts eq_refl); lia|done]. }
  rewrite (M_bind_run _ _ _ _ _ E3). assert (same_env s s3) as Henv' by (etrans; [exact Henv|]; etrans; [apply same_env_tab|exact Henv3]).
  destruct ok; cbn [negb].
  2:{ eexists _, s3. split; [done|]. split; [done|]. right. split; [by eauto|]. by apply (se_schedule _ _ Henv). }
  destruct H3 as (Hkind & Hfx & k & [Bsh Bf Bk [Bm Bl] Be Bp]). rewrite gets_run. cbn [compose].
  set (bs := replicate (Z.to_nat (max_bucket (hctl (tab s3)) + 1)) []) in *.
  destruct (prealloc_run nelem (has flags HASH_SHARED_MEM || (nelem <? nelem_alloc (hctl (tab s3)))) bs _ s3 Bsh
    (join_replicate_nil _) Hn) as (r & s4 & E4 & Henv4 & Hr).
  assert (same_env s s4) as Henv'' by by etrans.
  destruct Hr as [(-> & Hc & Hm & Hcnt & fs' & Hsh' & Hcap)|[-> Hno]].
  2:{ rewrite (M_bind_err _ _ _ _ _ _ E4). eexists _, s4. split; [done|]. split; [done|]. right. split; [by eauto|].
      destruct Hno as [Hno|Hno]; [by rewrite Hfx in Hno|]. by apply (se_schedule _ _ Henv'). }
  rewrite (M_bind_run _ _ _ _ _ E4). destruct (sc_part _ _ Hc) as (C7 & C8 & C9), Hm as (M1 & M2 & M3).
  destruct (fix_size nelem info flags bs fs' (length (mjoin fs')) s4) as (s5 & E5 & Henv5 & Hcr); [by rewrite C8, Hfx| |done|].
  - intros t Hk Hf (X1 & X2 & X3) Hfl Hna Hsh. constructor.
    + apply (chosen_kind _ _ (tab s4)); [done|]. apply (chosen_kind _ _ (tab s3)); [by apply conf_kind|].
      by apply (chosen_kind _ _ t2); [exact Hkind|].
    + done.
    + exists k. rewrite X1, X3, (sk_part _ _ Hk), C7, M1, M3. split_and!; try done; lia.
    + by eexists _, fs'.
    + intros j Hj. unfold get_freelist. rewrite Hfl. etrans; [apply Hcnt|]. by rewrite replicate_nth_empty.
    + rewrite Hna, C9. intros Hor. apply Hcap. destruct Hor as [->|Hor]; [done|]. apply orb_true_intro. right. by apply Z.ltb_lt.
  - exists (Ok tt), s5. split; [exact E5|]. split; [by etrans|]. left. eauto.
Qed.
End create.
End DynahashCreate.
