(* ===== verification/DynahashMap.v ===== *)
(** * DynahashMap: a hash table is a finite map

    A caller that enters, looks up, removes and counts gets what a finite map
    from keys to values would give, whatever buckets are split and elements
    allocated, taken and returned meanwhile. *)

From Stdlib Require Import ZArith Lia Bool Strings.Byte.
From stdpp Require Import base tactics numbers list gmap strings.
From S2P Require Import Prelude HashFn Dynahash DynahashChain DynahashInv DynahashKeys DynahashOps DynahashExpand DynahashSearch DynahashCreate.
Import Dynahash DynahashChain DynahashInv DynahashKeys DynahashOps DynahashExpand DynahashSearch DynahashCreate.

Local Open Scope Z_scope.
Local Open Scope pg_scope.
#[local] Arguments Nat.div : simpl never.
#[local] Arguments Nat.modulo : simpl never.

Module DynahashMap.

#[global] Instance byte_eq_dec : EqDecision byte := Byte.byte_eq_dec.
#[global, program] Instance byte_countable : Countable byte := {| encode b := encode (Byte.to_N b); decode n := decode n ≫= Byte.of_N |}.
Next Obligation. intros b. simpl. rewrite decode_encode. simpl. apply Byte.of_to_N. Qed.

Section map.
Context {V : Type} (uninit : Z → HASHELEMENT V) (valid : list byte → Prop).
Implicit Types (p q : Z) (t : HTAB V) (s : HashState V) (k : list byte) (v : V) (A : gmap (list byte) V).
Implicit Types (bs fs : list (list Z)) (E : gmap Z (list byte * V)) (F : nat).

(** ** Counting entries *)

Definition sum_over (f : Z → Z) (ix : list Z) : Z := foldr (λ i n, f i + n) 0 ix.

Lemma sum_cons f i ix : sum_over f (i :: ix) = f i + sum_over f ix.
Proof. done. Qed.
Lemma sum_ext f g ix : (∀ i, i ∈ ix → f i = g i) → sum_over f ix = sum_over g ix.
Proof.
  induction ix as [|i ix IH]; intros H; [done|]. rewrite !sum_cons, (H i) by left. f_equal. apply IH. intros j Hj. apply H. by right.
Qed.
Lemma sum_add f g ix : sum_over (λ i, f i + g i) ix = sum_over f ix + sum_over g ix.
Proof. induction ix as [|i ix IH]; [done|]. rewrite !sum_cons, IH. lia. Qed.
Lemma sum_zero (f : Z → Z) ix : (∀ i, i ∈ ix → f i = 0) → sum_over f ix = 0.
Proof. induction ix as [|i ix IH]; intros H; [done|]. rewrite sum_cons, (H i) by left. apply IH. intros j Hj. apply H. by right. Qed.
Lemma sum_one x ix : NoDup ix → x ∈ ix → sum_over (λ i, if decide (x = i) then 1 else 0) ix = 1.
Proof.
  induction 1 as [|i ix Hi Hnd IH]; [by intros ?%not_elem_of_nil|]. rewrite sum_cons. intros [->|Hx]%elem_of_cons.
  - rewrite decide_True by done. rewrite sum_zero; [done|]. intros j Hj. rewrite decide_False; [done|]. by intros ->.
  - rewrite decide_False by (by intros ->). by rewrite IH.
Qed.
Lemma foldl_sum f ix : ∀ a, foldl (λ sum i, sum + f i) a ix = a + sum_over f ix.
Proof. induction ix as [|i ix IH]; intros a; cbn [foldl]; [unfold sum_over; simpl; lia|]. rewrite IH, sum_cons. lia. Qed.

Lemma counted_sum t E ix :
  NoDup ix → (∀ p k v, E !! p = Some (k, v) → idx_of t k ∈ ix) →
  sum_over (λ i, Z.of_nat (size (counted t i E))) ix = Z.of_nat (size E).
Proof.
  intros Hnd. induction E as [|p [k v] E Hp IH] using map_ind; intros Hin.
  - apply sum_zero. intros i _. unfold counted. rewrite map_filter_empty. done.
  - rewrite map_size_insert_None by done. rewrite (sum_ext _ (λ i, Z.of_nat (size (counted t i E)) + (if decide (idx_of t k = i) then 1 else 0))).
    2:{ intros i _. by apply counted_insert. }
    rewrite sum_add, sum_one, IH; [lia| |done|].
    + intros q k' v' Hq. apply (Hin q k' v'). rewrite lookup_insert_ne; [done|]. intros ->. congruence.
    + apply (Hin p k v). by rewrite lookup_insert_eq.
Qed.

(** hash_get_num_entries counts the entries, partitioned or not. *)
Lemma num_entries_run E F s :
  table_ok valid (tab s) E F → hash_get_num_entries s = (Ok (Z.of_nat (size E)), s).
Proof.
  intros [Hk [Hv _ Hc] _]. unfold hash_get_num_entries. rewrite gets_run. cbn [compose]. unfold mret, M_ret. do 2 f_equal.
  assert (∀ i, 0 <= i < 32 → nentries (get_freelist i (hctl (tab s))) = Z.of_nat (size (counted (tab s) i E))) as Hc'.
  { intros i Hi. rewrite <- (Z2Nat.id i) by lia. apply Hc. lia. }
  destruct (IS_PARTITIONED (hctl (tab s))) eqn:HP.
  - rewrite foldl_sum.
    rewrite <- (counted_sum (tab s) E (seqZ 0 32)); [|apply NoDup_seqZ|].
    + change (seqZ 0 32) with (0 :: seqZ 1 31). rewrite sum_cons, Hc' by lia. f_equal.
      apply sum_ext. intros i Hi. apply Hc'. change (seqZ 1 (NUM_FREELISTS - 1)) with (seqZ 1 31) in Hi. apply elem_of_seqZ in Hi. lia.
    + intros p k v Hp. apply elem_of_seqZ. unfold idx_of, FREELIST_IDX. rewrite HP.
      pose proof (Z.mod_pos_bound (hash (tab s) k (keysize (tab s))) NUM_FREELISTS ltac:(done)). unfold NUM_FREELISTS in *. lia.
  - rewrite Hc' by lia. rewrite <- (counted_sum (tab s) E [0]); [|apply NoDup_singleton|].
    + rewrite sum_cons. unfold sum_over. simpl. lia.
    + intros p k v Hp. unfold idx_of, FREELIST_IDX. rewrite HP. left.
Qed.

(** ** The data of an entry *)

Lemma set_data_run E F p k v0 v s :
  table_ok valid (tab s) E F → E !! p = Some (k, v0) →
  ∃ t', set_entry_data p v s = (Ok tt, with_tab t' s) ∧ table_ok valid t' (<[p := (k, v)]> E) F ∧ same_conf (tab s) t' ∧ same_masks (tab s) t'.
Proof.
  intros [Hk HEok (bs & fs & Hsh & Hpl & HE & HF)] Hp.
  destruct (entry_elem _ _ _ _ _ _ _ Hsh HE Hp) as (b & l & e & Hb & Hin & He & Hke & Hve).
  set (e' := {| link := link e; hashvalue := hashvalue e; elem_key := elem_key e; elem_data := v |}).
  set (t' := with_heap (<[p := e']> (heap (tab s))) (next_ptr (tab s)) (tab s)). exists t'. split_and!.
  - unfold set_entry_data, element, put_element, on_tab, modify, mbind, M_bind. rewrite He. done.
  - assert (same_conf (tab s) t') as Hc by done. assert (∀ q e1, heap t' !! q = Some e1 →
      ∃ e0, heap (tab s) !! q = Some e0 ∧ hashvalue e1 = hashvalue e0 ∧ elem_key e1 = elem_key e0) as Hold.
    { intros q e1. simpl. intros [[<- <-]|[_ Hq]]%lookup_insert_Some; eauto. }
    constructor; [by eapply key_laws_conf| |].
    + destruct HEok as [H1 H2 H3]. constructor.
      * intros q k' v' [[<- [= <- <-]]|[_ Hq]]%lookup_insert_Some; eauto.
      * intros q q' k1 v1 k2 v2 Hq Hq'. assert (∀ q k' v', <[p := (k, v)]> E !! q = Some (k', v') → ∃ v0, E !! q = Some (k', v0)) as Hx.
        { intros r k' v' [[<- [= <- <-]]|[_ Hr]]%lookup_insert_Some; eauto. }
        destruct (Hx _ _ _ Hq) as [? ?], (Hx _ _ _ Hq') as [? ?]. by eapply H2.
      * intros i Hi. change (hctl t') with (hctl (tab s)). rewrite (H3 i Hi). rewrite (counted_same (tab s) t') by done.
        rewrite <- insert_delete_eq. rewrite counted_insert by apply lookup_delete_eq. rewrite (counted_delete (tab s) _ E p k v0 Hp). lia.
    + exists bs, fs. split_and!; [by eapply shape_payload| | |done].
      * intros b' l' q e1 Hb' Hq He1. destruct (Hold q e1 He1) as (e0 & He0 & -> & ->). by eapply Hpl.
      * intros q. simpl. destruct (decide (q = p)) as [->|Hne].
        -- rewrite !lookup_insert_eq. rewrite decide_True by (apply elem_of_join; eauto). simpl. unfold entry. simpl. by rewrite Hke.
        -- rewrite !lookup_insert_ne by done. apply HE.
  - done.
  - done.
Qed.

(** ** Entries and the map they stand for *)

Section models.
Context (c : list byte → list byte).

(** Entries hold canonical keys, and every key of the map once. *)
Record models E A : Prop := {
  mo_entry p k v : E !! p = Some (k, v) → c k = k ∧ A !! k = Some v;
  mo_key k v : A !! k = Some v → ∃ p, E !! p = Some (k, v);
  mo_unique p q k v v' : E !! p = Some (k, v) → E !! q = Some (k, v') → p = q;
}.

Lemma models_empty : models ∅ ∅.
Proof. constructor; intros *; by rewrite lookup_empty. Qed.

Lemma models_set E A p k v :
  models E A → c k = k → (∀ q v', E !! q = Some (k, v') → q = p) → (∀ k' v', E !! p = Some (k', v') → k' = k) →
  models (<[p := (k, v)]> E) (<[k := v]> A).
Proof.
  intros [H1 H2 H3] Hk Hu Hp. constructor.
  - intros q k' v' [[<- [= <- <-]]|[Hne Hq]]%lookup_insert_Some; [by rewrite lookup_insert_eq|].
    destruct (H1 _ _ _ Hq) as [Hc HA]. split; [done|]. rewrite lookup_insert_ne; [done|]. intros <-. by apply Hne, eq_sym, (Hu _ v').
  - intros k' v' [[<- <-]|[Hne HA]]%lookup_insert_Some; [exists p; by rewrite lookup_insert_eq|].
    destruct (H2 _ _ HA) as [q Hq]. exists q. rewrite lookup_insert_ne; [done|]. intros <-. by apply Hne, eq_sym, (Hp _ v').
  - intros q q' k' v1 v2 [[<- Hq]|[Hne Hq]]%lookup_insert_Some [[<- Hq']|[Hne' Hq']]%lookup_insert_Some; simplify_eq; [done| | |by eapply H3].
    + symmetry. by eapply Hu.
    + by eapply Hu.
Qed.

Lemma models_delete E A p k v : models E A → E !! p = Some (k, v) → models (delete p E) (delete k A).
Proof.
  intros [H1 H2 H3] Hp. constructor.
  - intros q k' v' [Hne Hq]%lookup_delete_Some. destruct (H1 _ _ _ Hq) as [Hc HA]. split; [done|].
    rewrite lookup_delete_ne; [done|]. intros <-. by apply Hne, (H3 _ _ _ _ _ Hp Hq).
  - intros k' v' [Hne HA]%lookup_delete_Some. destruct (H2 _ _ HA) as [q Hq]. exists q. rewrite lookup_delete_ne; [done|].
    intros <-. congruence.
  - intros q q' k' v1 v2 [_ Hq]%lookup_delete_Some [_ Hq']%lookup_delete_Some. by eapply H3.
Qed.

Lemma models_size E A : models E A → size E = size A.
Proof.
  intros [H1 H2 H3]. rewrite <- !length_map_to_list, <- (length_fmap snd (map_to_list E)). apply Permutation_length, NoDup_Permutation.
  - apply NoDup_fmap_2_strong; [|apply NoDup_map_to_list]. intros [p [k v]] [q [k' v']] Hp%elem_of_map_to_list Hq%elem_of_map_to_list [= <- <-].
    by rewrite (H3 _ _ _ _ _ Hp Hq).
  - apply NoDup_map_to_list.
  - intros [k v]. rewrite elem_of_map_to_list, list_elem_of_fmap. split.
    + intros ([p [k' v']] & [= <- <-] & Hp%elem_of_map_to_list). by apply (H1 p).
    + intros HA. destruct (H2 _ _ HA) as [p Hp]. exists (p, (k, v)). by rewrite elem_of_map_to_list.
Qed.
End models.

(** ** A caller's operations *)

Inductive hop : Type := HPut (k : list byte) (v : V) | HGet (k : list byte) | HDel (k : list byte) | HCount.
Inductive hres : Type := HFound (found : bool) | HValue (v : option V) | HNumber (n : Z).

Definition hop_run (o : hop) : M (HashState V) hres :=
  match o with
  | HPut k v =>
      r ← hash_search uninit k HASH_ENTER;
      match r.1 with
      | Some p => set_entry_data p v;; mret (HFound r.2)
      | None => mret (HFound false)
      end
  | HGet k =>
      r ← hash_search uninit k HASH_FIND;
      match r.1 with
      | Some p => v ← entry_data p; mret (HValue (Some v))
      | None => mret (HValue None)
      end
  | HDel k => r ← hash_search uninit k HASH_REMOVE; mret (HFound r.2)
  | HCount => n ← hash_get_num_entries; mret (HNumber n)
  end.

Fixpoint hops_run (os : list hop) : M (HashState V) (list hres) :=
  match os with
  | [] => mret []
  | o :: os' => r ← hop_run o; rs ← hops_run os'; mret (r :: rs)
  end.

(** The same on a finite map from canonical keys. *)
Definition hop_spec (c : list byte → list byte) (o : hop) A : hres * gmap (list byte) V :=
  match o with
  | HPut k v => (HFound (bool_decide (is_Some (A !! c k))), <[c k := v]> A)
  | HGet k => (HValue (A !! c k), A)
  | HDel k => (HFound (bool_decide (is_Some (A !! c k))), delete (c k) A)
  | HCount => (HNumber (Z.of_nat (size A)), A)
  end.

Fixpoint hops_spec (c : list byte → list byte) (os : list hop) A : list hres * gmap (list byte) V :=
  match os with
  | [] => ([], A)
  | o :: os' => let '(r, A1) := hop_spec c o A in let '(rs, A2) := hops_spec c os' A1 in (r :: rs, A2)
  end.

Definition hop_key (o : hop) : option (list byte) :=
  match o with HPut k _ | HGet k | HDel k => Some k | HCount => None end.

(** New keys fit in a table for [cap] entries. *)
Definition hop_fits (c : list byte → list byte) (cap : option Z) (o : hop) A : bool :=
  match o, cap with
  | HPut k _, Some n => bool_decide (is_Some (A !! c k)) || (Z.of_nat (size A) <? n)
  | _, _ => true
  end.
Fixpoint hops_fit (c : list byte → list byte) (cap : option Z) (os : list hop) A : bool :=
  match os with
  | [] => true
  | o :: os' => hop_fits c cap o A && hops_fit c cap os' (hop_spec c o A).2
  end.

(** A table that stands for the map [A] and can take [cap] entries, or as many as
    the allocator has memory for. *)
Record is_map (c : list byte → list byte) (cap : option Z) s A : Prop := {
  im_canon k : canon (tab s) k = c k;
  im_keys : key_canon valid (tab s);
  im_frozen : frozen (tab s) = false;
  im_table : ∃ E F, table_ok valid (tab s) E F ∧ models c E A ∧
    match cap with
    | Some n => n <= Z.of_nat (size E + F)
    | None => isfixed (hctl (tab s)) = false ∧ false ∉ alloc_schedule s
    end;
}.

Section step.
Context (c : list byte → list byte) (cap : option Z).
Implicit Types (o : hop) (os : list hop).

Lemma canon_conf t t' k : same_conf t t' → canon t' k = canon t k.
Proof. intros [(_ & _ & E1 & E2) _ _]. unfold canon. by rewrite E1, E2. Qed.
Lemma key_canon_conf t t' : same_conf t t' → key_canon valid t → key_canon valid t'.
Proof.
  intros Hc [H1 H2 H3 H4 H5]. pose proof (λ k, canon_conf t t' k Hc) as Hk. destruct (sc_keys _ _ Hc) as (E1 & E2 & E3 & E4).
  constructor; intros *; rewrite ?E1, ?E2, ?E4, ?Hk; auto.
Qed.

(** What a search found, in the map. *)
Lemma finds_model s A E F k r :
  is_map c cap s A → table_ok valid (tab s) E F → models c E A → valid k → finds (tab s) E k r →
  match r with
  | Some p => ∃ v, E !! p = Some (c k, v) ∧ A !! c k = Some v
  | None => A !! c k = None
  end.
Proof.
  intros [Hcn Hk _ _] [_ [Hv _ _] _] [H1 H2 H3] Hval Hf. destruct r as [p|].
  - destruct Hf as (k' & v & Hp & Hm). apply (kc_match _ _ Hk) in Hm; [|by eapply Hv|done]. rewrite !Hcn in Hm.
    destruct (H1 _ _ _ Hp) as [Hck HA]. rewrite Hck in Hm. subst k'. eauto.
  - destruct (A !! c k) as [v|] eqn:HA; [|done]. destruct (H2 _ _ HA) as [p Hp]. destruct (Hf p (c k) v Hp).
    apply (kc_match _ _ Hk); [by eapply Hv|done|]. rewrite !Hcn. by apply (H1 _ _ _ Hp).
Qed.

Lemma is_map_next s s' A A' E E' F F' :
  is_map c cap s A → same_conf (tab s) (tab s') → same_env s s' → table_ok valid (tab s) E F → models c E A →
  match cap with
  | Some n => n <= Z.of_nat (size E + F)
  | None => isfixed (hctl (tab s)) = false ∧ false ∉ alloc_schedule s
  end →
  table_ok valid (tab s') E' F' → models c E' A' → (size E + F <= size E' + F')%nat → is_map c cap s' A'.
Proof.
  intros [H1 H2 H3 _] Hc He Hok Hmo Hcap Hok' Hmo' Hle. constructor.
  - intros k. by rewrite (canon_conf _ _ _ Hc).
  - by eapply key_canon_conf.
  - by destruct (sc_flags _ _ Hc) as [-> _].
  - exists E', F'. split_and!; [done|done|]. destruct cap; [lia|]. destruct (sc_part _ _ Hc) as (_ & -> & _). destruct Hcap as [Hfx Hs].
    split; [done|]. intros Hin. by apply Hs, (se_schedule _ _ He).
Qed.

(** Writing the data of the entry that was entered. *)
Lemma put_data s s1 A E F E1 F1 p k v0 v :
  is_map c cap s A → valid k → same_conf (tab s) (tab s1) → same_env s s1 → table_ok valid (tab s) E F → models c E A →
  match cap with
  | Some n => n <= Z.of_nat (size E + F)
  | None => isfixed (hctl (tab s)) = false ∧ false ∉ alloc_schedule s
  end →
  table_ok valid (tab s1) E1 F1 → (E1 = E ∧ F1 = F ∧ E !! p = Some (c k, v0) ∨
    E1 = <[p := (c k, v0)]> E ∧ E !! p = None ∧ A !! c k = None ∧ (F <= S F1)%nat) →
  ∃ t', set_entry_data p v s1 = (Ok tt, with_tab t' s1) ∧ is_map c cap (with_tab t' s1) (<[c k := v]> A) ∧ same_masks (tab s1) t'.
Proof.
  intros HR Hval Hc He Hok Hmo Hcap Hok1 HE1. assert (E1 !! p = Some (c k, v0)) as Hp.
  { destruct HE1 as [(-> & _ & ?)|(-> & _ & _)]; [done|]. by rewrite lookup_insert_eq. }
  destruct (set_data_run E1 F1 p (c k) v0 v s1 Hok1 Hp) as (t' & Er & Hok' & Hc' & Hm'). exists t'. split; [done|]. split; [|done].
  assert (c (c k) = c k) as Hcc.
  { rewrite <- !(im_canon _ _ _ _ HR). by apply (kc_idem _ _ (im_keys _ _ _ _ HR)). }
  assert (<[p := (c k, v)]> E1 = <[p := (c k, v)]> E) as EE.
  { destruct HE1 as [(-> & _ & _)|(-> & _ & _)]; [done|]. apply insert_insert_eq. }
  eapply (is_map_next s _ A _ E (<[p := (c k, v)]> E) F F1); [done|by etrans| |done|done|done|by rewrite <- EE| |].
  - etrans; [exact He|apply same_env_tab].
  - apply models_set; [done|done| |].
    + intros q v' Hq. destruct HE1 as [(_ & _ & Hp0)|(_ & _ & HA & _)]; [by eapply (mo_unique _ _ _ Hmo)|].
      destruct (mo_entry _ _ _ Hmo _ _ _ Hq). congruence.
    + intros k' v' Hq. destruct HE1 as [(_ & _ & Hp0)|(_ & Hn & _)]; congruence.
  - destruct HE1 as [(_ & -> & Hp0)|(_ & Hn & _ & Hle)].
    + rewrite map_size_insert_Some by eauto. lia.
    + rewrite map_size_insert_None by done. lia.
Qed.

Lemma put_step k v s A :
  is_map c cap s A → valid k → hop_fits c cap (HPut k v) A = true → max_bucket (hctl (tab s)) + 1 < 2 ^ 32 →
  ∃ s', hop_run (HPut k v) s = (Ok (HFound (bool_decide (is_Some (A !! c k)))), s') ∧ is_map c cap s' (<[c k := v]> A) ∧
    max_bucket (hctl (tab s')) <= max_bucket (hctl (tab s)) + 1.
Proof.
  intros HR Hval Hfit Hmax. destruct (im_table _ _ _ _ HR) as (E & F & Hok & Hmo & Hcap). cbn [hop_run].
  destruct (search_enter uninit valid E F k s HASH_ENTER (or_introl eq_refl) Hok Hval Hmax) as (r & s1 & E1 & He & Hc & _ & Hle & Hr).
  inversion Hr as [p t' Hf Hok1|t' Hf Hfz Hok1|p v0 F' t' Hf Hfz Hp Hok1 HF'|t' Hf Hfz HF0 Hno Hok1]; subst r t'.
  - destruct (finds_model s A E F k _ HR Hok Hmo Hval Hf) as (v0 & Hp & HA). rewrite (M_bind_run _ _ _ _ _ E1). cbn [fst snd].
    destruct (put_data s s1 A E F E F p k v0 v HR Hval Hc He Hok Hmo Hcap Hok1) as (t2 & E2 & HR2 & Hm2); [by left|].
    rewrite (M_bind_run _ _ _ _ _ E2). eexists. split; [rewrite HA; reflexivity|]. split; [done|]. simpl. by destruct Hm2 as (-> & _).
  - by rewrite (im_frozen _ _ _ _ HR) in Hfz.
  - pose proof (finds_model s A E F k _ HR Hok Hmo Hval Hf) as HA. simpl in HA. rewrite (M_bind_run _ _ _ _ _ E1). cbn [fst snd].
    change (keycopy (tab s) k (keysize (tab s))) with (canon (tab s) k) in Hok1. rewrite (im_canon _ _ _ _ HR) in Hok1.
    destruct (put_data s s1 A E F _ F' p k v0 v HR Hval Hc He Hok Hmo Hcap Hok1) as (t2 & E2 & HR2 & Hm2).
    { right. split_and!; [done|done|done|]. destruct Hok as [_ _ (bs & fs & Hsh & _)]. pose proof (sh_alloc _ _ _ Hsh). lia. }
    rewrite (M_bind_run _ _ _ _ _ E2). eexists. split; [rewrite HA; reflexivity|]. split; [done|]. simpl. by destruct Hm2 as (-> & _).
  - exfalso. pose proof (finds_model s A E F k _ HR Hok Hmo Hval Hf) as HA. simpl in HA. unfold hop_fits in Hfit. destruct cap as [n|].
    + rewrite HA in Hfit. apply Z.ltb_lt in Hfit. rewrite (models_size c E A Hmo) in Hcap. lia.
    + destruct Hcap as [Hfx Hs], Hno; [congruence|done].
Qed.

Lemma hop_step o s A :
  is_map c cap s A → (∀ k, hop_key o = Some k → valid k) → hop_fits c cap o A = true → max_bucket (hctl (tab s)) + 1 < 2 ^ 32 →
  ∃ s', hop_run o s = (Ok (hop_spec c o A).1, s') ∧ is_map c cap s' (hop_spec c o A).2 ∧
    max_bucket (hctl (tab s')) <= max_bucket (hctl (tab s)) + 1.
Proof.
  intros HR Hval Hfit Hmax. destruct o as [k v|k|k|]; [by apply put_step; [|apply Hval|..]|..];
    destruct (im_table _ _ _ _ HR) as (E & F & Hok & Hmo & Hcap); cbn [hop_run hop_spec fst snd].
  - specialize (Hval k eq_refl). destruct (search_find uninit valid E F k s Hok Hval) as (r & E1 & Hf).
    pose proof (finds_model s A E F k r HR Hok Hmo Hval Hf) as HA. rewrite (M_bind_run _ _ _ _ _ E1). cbn [fst]. exists s. destruct r as [p|].
    + destruct HA as (v & Hp & ->). destruct Hok as [_ _ (bs & fs & Hsh & _ & HE & _)].
      destruct (entry_elem _ _ _ _ _ _ _ Hsh HE Hp) as (_ & _ & e & _ & _ & Hh & _ & <-).
      split; [|split; [done|lia]]. unfold entry_data, element, mbind, M_bind. by rewrite Hh.
    + rewrite HA. split; [done|]. split; [done|lia].
  - specialize (Hval k eq_refl). destruct (search_remove uninit valid E F k s Hok Hval) as (r & s' & E1 & Hf & Hr).
    pose proof (finds_model s A E F k r HR Hok Hmo Hval Hf) as HA. rewrite (M_bind_run _ _ _ _ _ E1). cbn [snd]. exists s'. destruct r as [p|].
    + destruct HA as (v & Hp & ->), Hr as (Hok' & Hc & Hm & Hs'). split; [done|].
      split; [|destruct Hm as (-> & _); lia].
      eapply (is_map_next s s' A _ E (delete p E) F (S F)); [done|done| |done|done|done|done|by eapply models_delete|].
      * rewrite Hs'. apply same_env_tab.
      * rewrite map_size_delete, Hp. simpl. assert (size E ≠ 0)%nat; [|lia]. intros ->%map_size_empty_inv. by rewrite lookup_empty in Hp.
    + subst s'. rewrite HA. split; [done|]. split; [|lia]. by rewrite delete_id.
  - rewrite (M_bind_run _ _ _ _ _ (num_entries_run E F s Hok)), (models_size c E A Hmo). exists s. split; [done|]. split; [done|lia].
Qed.

Lemma hops_simulate os : ∀ s A,
  is_map c cap s A → (∀ o k, o ∈ os → hop_key o = Some k → valid k) → hops_fit c cap os A = true →
  max_bucket (hctl (tab s)) + Z.of_nat (length os) < 2 ^ 32 →
  ∃ s', hops_run os s = (Ok (hops_spec c os A).1, s') ∧ is_map c cap s' (hops_spec c os A).2.
Proof.
  induction os as [|o os IH]; intros s A HR Hval Hfit Hmax; cbn [hops_run hops_spec]; [by exists s|].
  cbn [hops_fit length] in *. apply andb_prop in Hfit as [Hfit Hfits].
  destruct (hop_step o s A HR) as (s1 & E1 & HR1 & Hle); [intros k; apply Hval; left|done|lia|].
  destruct (hop_spec c o A) as [r A1]. cbn [fst snd] in *.
  destruct (IH s1 A1 HR1) as (s2 & E2 & HR2); [intros o' k Ho; apply Hval; by right|done|lia|].
  rewrite (M_bind_run _ _ _ _ _ E1), (M_bind_run _ _ _ _ _ E2). destruct (hops_spec c os A1) as [rs A2]. by exists s2.
Qed.
End step.
End map.
End DynahashMap.
