(* ===== verification/DynahashScan.v ===== *)
(** * DynahashScan: sequential scans

    A scan of a table returns every entry once and then ends, also when the caller
    removes each entry it has been given.  The scan is registered meanwhile, so
    that entering does not split buckets, and no longer when it has ended. *)

From Stdlib Require Import ZArith Lia Bool Strings.Byte.
From stdpp Require Import base tactics numbers list gmap strings.
From S2P Require Import Prelude HashFn Dynahash DynahashChain DynahashInv DynahashOps DynahashExpand DynahashSearch.
Import Dynahash DynahashChain DynahashInv DynahashOps DynahashExpand DynahashSearch.

Local Open Scope Z_scope.
Local Open Scope pg_scope.
#[local] Arguments Nat.div : simpl never.
#[local] Arguments Nat.modulo : simpl never.

Module DynahashScan.

Section scan.
Context {V : Type} (uninit : Z → HASHELEMENT V) (valid : list byte → Prop).
Implicit Types (p q : Z) (l : list Z) (t : HTAB V) (s : HashState V) (b i : nat).
Implicit Types (bs fs : list (list Z)) (E : gmap Z (list byte * V)) (st : HASH_SEQ_STATUS).

(** ** Where a scan is *)

(** The elements that a scan has still to return. *)
Definition remaining bs st (rest : list Z) : Prop :=
  hasHashvalue st = false ∧
  match curEntry st with
  | Some q => ∃ b la lb, curBucket st = Z.of_nat b ∧ bs !! b = Some (la ++ q :: lb) ∧ rest = q :: lb ++ mjoin (drop (S b) bs)
  | None => ∃ b, curBucket st = Z.of_nat b ∧ (b <= length bs)%nat ∧ rest = mjoin (drop b bs)
  end.

(** Behind the elements [la ++ [p]] of bucket [b]. *)
Lemma remaining_next t bs fs st b la p lb e bucket entry :
  shape t bs fs → max_bucket (hctl t) + 1 < 2 ^ 32 → bs !! b = Some (la ++ p :: lb) → heap t !! p = Some e → hasHashvalue st = false →
  bucket = Z.of_nat b → entry = link e →
  remaining bs {| curBucket := match entry with None => bucket +u 1 | Some _ => bucket end; curEntry := entry;
    hasHashvalue := hasHashvalue st; seq_hashvalue := seq_hashvalue st |} (lb ++ mjoin (drop (S b) bs)).
Proof.
  intros Hsh Hmax Hb He Hst -> ->. pose proof (lookup_lt_Some _ _ _ Hb) as Hlt. pose proof (sh_nb _ _ _ Hsh) as Hnb.
  destruct (sh_buckets _ _ _ Hsh b _ Hb) as (h & _ & Hc). pose proof (chain_rest _ _ _ _ _ _ Hc He) as Hrest.
  split; [done|]. destruct lb as [|q lb]; simpl in Hrest.
  - rewrite Hrest. simpl. exists (S b). split_and!; [rewrite wrap32_small by mlia; lia|lia|done].
  - destruct Hrest as (-> & _). simpl. exists b, (la ++ [p]), lb. split_and!; [done|by rewrite <- (assoc_L app)|done].
Qed.

Lemma bucket_loop_run bs fs s fuel : ∀ b,
  shape (tab s) bs fs → max_bucket (hctl (tab s)) + 1 < 2 ^ 32 → (b < length bs)%nat → (length bs <= b + fuel)%nat →
  (∃ b' p l, seq_bucket_loop fuel (max_bucket (hctl (tab s))) (Z.of_nat b) s = (Ok (Some p, Z.of_nat b'), s) ∧ bs !! b' = Some (p :: l) ∧
     mjoin (drop b bs) = p :: l ++ mjoin (drop (S b') bs)) ∨
  (seq_bucket_loop fuel (max_bucket (hctl (tab s))) (Z.of_nat b) s = (Ok (None, Z.of_nat (length bs)), s) ∧ mjoin (drop b bs) = []).
Proof.
  induction fuel as [|fuel IH]; intros b Hsh Hmax Hb Hf; [lia|]. cbn [seq_bucket_loop].
  destruct (lookup_lt_is_Some_2 bs b Hb) as [l Hl]. destruct (sh_buckets _ _ _ Hsh b l Hl) as (h & Hh & Hc).
  pose proof (sh_nb _ _ _ Hsh) as Hnb. rewrite (M_bind_run _ _ _ _ _ (read_bucket _ _ _ s eq_refl Hh)).
  rewrite (drop_S _ _ _ Hl). destruct l as [|p l]; simpl in Hc.
  - subst h. rewrite wrap32_small by mlia. replace (Z.of_nat b + 1) with (Z.of_nat (S b)) by lia.
    destruct (Z.ltb_spec (max_bucket (hctl (tab s))) (Z.of_nat (S b))) as [Hlt|Hge].
    + right. replace (S b) with (length bs) by lia. split; [done|]. by rewrite drop_ge by lia.
    + simpl. apply IH; [done|done|lia|lia].
  - destruct Hc as (-> & _). left. exists b, p, l. done.
Qed.

(** ** One step *)

Lemma seq_search_run bs fs st rest s :
  shape (tab s) bs fs → max_bucket (hctl (tab s)) + 1 < 2 ^ 32 → remaining bs st rest →
  match rest with
  | p :: rest' => ∃ st', hash_seq_search st s = (Ok (Some p, st'), s) ∧ remaining bs st' rest'
  | [] => ∀ s', hash_seq_term s = (Ok tt, s') → ∃ st', hash_seq_search st s = (Ok (None, st'), s')
  end.
Proof.
  intros Hsh Hmax [Hst Hrem]. unfold hash_seq_search. rewrite Hst. pose proof (sh_nb _ _ _ Hsh) as Hnb.
  destruct (curEntry st) as [q|] eqn:Ecur.
  - destruct Hrem as (b & la & lb & Hb & Hl & ->). destruct (shape_elem Hsh q) as [e He].
    { apply elem_of_join. exists b, (la ++ q :: lb). split; [done|]. apply elem_of_app. right. left. }
    assert (element q s = (Ok e, s)) as Ee by (unfold element; by rewrite He). rewrite (M_bind_run _ _ _ _ _ Ee).
    eexists. split; [reflexivity|]. rewrite <- Hst. by eapply remaining_next.
  - destruct Hrem as (b & Hb & Hle & ->). rewrite gets_run. cbn [compose]. rewrite Hb.
    destruct (Z.ltb_spec (max_bucket (hctl (tab s))) (Z.of_nat b)) as [Hlt|Hge].
    { rewrite drop_ge by lia. simpl. intros s' Ht. rewrite (M_bind_run _ _ _ _ _ Ht). by eexists. }
    destruct (bucket_loop_run bs fs s (Z.to_nat (max_bucket (hctl (tab s)) - Z.of_nat b + 1)) b Hsh Hmax)
      as [(b' & p & l & E1 & Hl & ->)|[E1 ->]]; [lia|lia|..].
    + rewrite (M_bind_run _ _ _ _ _ E1). cbn [fst snd]. destruct (shape_elem Hsh p) as [e He].
      { apply elem_of_join. exists b', (p :: l). split; [done|left]. }
      assert (element p s = (Ok e, s)) as Ee by (unfold element; by rewrite He). rewrite (M_bind_run _ _ _ _ _ Ee).
      eexists. split; [reflexivity|]. rewrite <- Hst. by eapply (remaining_next _ _ _ _ b' []).
    + intros s' Ht. rewrite (M_bind_run _ _ _ _ _ E1). cbn [fst snd]. rewrite (M_bind_run _ _ _ _ _ Ht). by eexists.
Qed.

(** ** Removing what was returned *)

Lemma nodup_split (l1 l2 l3 l4 : list Z) p : NoDup (l1 ++ p :: l2) → l1 ++ p :: l2 = l3 ++ p :: l4 → l1 = l3 ∧ l2 = l4.
Proof.
  revert l3. induction l1 as [|x l1 IH]; intros [|y l3]; simpl; intros [Hx Hnd]%NoDup_cons Heq.
  - by injection Heq.
  - injection Heq as -> ->. destruct Hx. apply elem_of_app. right. left.
  - injection Heq as -> <-. destruct Hx. apply elem_of_app. right. left.
  - injection Heq as -> Heq. by destruct (IH _ Hnd Heq) as [-> ->].
Qed.

Lemma elem_of_drop_join bs n b l p : (n <= b)%nat → bs !! b = Some l → p ∈ l → p ∈ mjoin (drop n bs).
Proof. intros Hle Hb Hp. apply elem_of_join. exists (b - n)%nat, l. split; [|done]. rewrite lookup_drop. by replace (n + (b - n))%nat with b by lia. Qed.

(** Removing an element that the scan has passed. *)
Lemma remaining_remove bs st rest b la p lb :
  NoDup (mjoin bs) → bs !! b = Some (la ++ p :: lb) → p ∉ rest → remaining bs st rest → remaining (<[b := la ++ lb]> bs) st rest.
Proof.
  intros Hnd Hb Hp [Hst Hrem]. split; [done|]. assert (p ∈ la ++ p :: lb) as Hin by (apply elem_of_app; right; left).
  destruct (curEntry st) as [q|].
  - destruct Hrem as (b0 & la0 & lb0 & Hc & Hb0 & ->). assert (b <= b0)%nat as Hle.
    { apply Nat.nlt_ge. intros Hlt. apply Hp. apply elem_of_cons. right. apply elem_of_app. right. by eapply elem_of_drop_join. }
    destruct (decide (b = b0)) as [<-|Hne].
    + assert (p ∈ la0) as (x1 & x2 & ->)%list_elem_of_split.
      { rewrite Hb0 in Hb. injection Hb as Hb. rewrite <- Hb, elem_of_app in Hin. destruct Hin as [?|Hin]; [done|]. destruct Hp.
        apply elem_of_cons in Hin as [->|Hin]; [left|right]. apply elem_of_app. by left. }
      rewrite Hb in Hb0. injection Hb0 as Hb0. rewrite <- (assoc_L app) in Hb0.
      destruct (nodup_split _ _ _ _ _ (join_nodup _ _ _ Hnd Hb) Hb0) as [-> ->].
      exists b, (x1 ++ x2), lb0. split_and!; [done| |by rewrite drop_insert_lt by lia]. rewrite list_lookup_insert_eq by (by eapply lookup_lt_Some). by rewrite <- (assoc_L app).
    + exists b0, la0, lb0. split_and!; [done| |by rewrite drop_insert_lt by lia]. by rewrite list_lookup_insert_ne.
  - destruct Hrem as (b0 & Hc & Hle & ->). exists b0. rewrite length_insert. split_and!; [done|done|].
    rewrite drop_insert_lt; [done|]. apply Nat.nle_gt. intros Hle'. apply Hp. by eapply elem_of_drop_join.
Qed.

(** ** Registered scans *)

Lemma remove_last_scan (L : list (Z * Z)) x : remove_scan (length L) (L ++ [x]) = L.
Proof.
  unfold remove_scan. rewrite last_snoc. rewrite list_insert_id by (by rewrite lookup_app_r, Nat.sub_diag by lia). apply removelast_last.
Qed.

Lemma deregister_run L n s : seq_scans s = L ++ [(self s, n)] → deregister_seq_scan s = (Ok tt, with_scans L s).
Proof.
  intros Hs. unfold deregister_seq_scan. rewrite gets_run, Hs, length_app, Nat.add_1_r. cbn [deregister_loop].
  rewrite gets_run, gets_run, Hs. rewrite lookup_app_r, Nat.sub_diag by lia. simpl. rewrite Z.eqb_refl. unfold modify. by rewrite remove_last_scan.
Qed.

(** Whether the scans of the process are [L] and a scan of this table. *)
Definition scanning (L : list (Z * Z)) s : Prop :=
  if frozen (tab s) then seq_scans s = L else ∃ n, seq_scans s = L ++ [(self s, n)].

Lemma seq_term_run L s : scanning L s → ∃ s', hash_seq_term s = (Ok tt, s') ∧ tab s' = tab s ∧ self s' = self s ∧
  nest_level s' = nest_level s ∧ alloc_schedule s' = alloc_schedule s ∧ seq_scans s' = L.
Proof.
  unfold scanning, hash_seq_term. rewrite gets_run. cbn [compose]. destruct (frozen (tab s)); cbn [negb].
  - intros Hs. exists s. by split_and!.
  - intros [n Hs]. rewrite (deregister_run L n s Hs). by eexists.
Qed.

(** A table that is not frozen can be scanned when fewer than MAX_SEQ_SCANS scans are
    active. *)
Lemma seq_init_run bs s :
  frozen (tab s) = true ∨ Z.of_nat (length (seq_scans s)) < MAX_SEQ_SCANS →
  ∃ st s', hash_seq_init s = (Ok st, s') ∧ remaining bs st (mjoin bs) ∧ scanning (seq_scans s) s' ∧ tab s' = tab s ∧ self s' = self s ∧
    nest_level s' = nest_level s ∧ alloc_schedule s' = alloc_schedule s.
Proof.
  intros Hroom. unfold hash_seq_init. rewrite gets_run. cbn [compose].
  assert (remaining bs {| curBucket := 0; curEntry := None; hasHashvalue := false; seq_hashvalue := 0 |} (mjoin bs)) as Hrem.
  { split; [done|]. exists 0%nat. split_and!; [done|simpl; lia|done]. }
  unfold scanning. destruct (frozen (tab s)) eqn:Hfr; cbn [negb].
  - eexists _, s. split; [reflexivity|]. split_and!; [done|by rewrite Hfr|done..].
  - destruct Hroom as [?|Hroom]; [done|]. unfold register_seq_scan, mbind, M_bind, gets. simpl.
    assert ((MAX_SEQ_SCANS <=? Z.of_nat (length (seq_scans s))) = false) as -> by (by apply Z.leb_gt). simpl.
    eexists _, _. split; [reflexivity|]. split_and!; [done| |done..]. simpl. rewrite Hfr. by exists (nest_level s).
Qed.

(** Taking out the scan at the end of [l1]. *)
Lemma remove_scan_at (l1 l2 : list (Z * Z)) x : ∃ l2' : list (Z * Z), remove_scan (length l1) (l1 ++ x :: l2) = l1 ++ l2' ∧ l2' ≡ₚ l2.
Proof.
  destruct l2 as [|y l2 _] using rev_ind; [exists []; rewrite remove_last_scan, app_nil_r; done|].
  exists (y :: l2). unfold remove_scan. rewrite (app_comm_cons l2 [y] x), (assoc_L app l1), last_snoc, <- (assoc_L app l1).
  rewrite insert_app_r_alt, Nat.sub_diag by lia. simpl. rewrite app_comm_cons, (assoc_L app l1), removelast_last. split; [done|solve_Permutation].
Qed.

Definition outer_scan (depth : Z) (x : Z * Z) : Prop := x.2 < depth.
#[global] Instance outer_scan_dec depth x : Decision (outer_scan depth x).
Proof. unfold outer_scan. apply _. Defined.

Lemma eosubxact_loop_run depth (l1 : list (Z * Z)) : ∀ (l2 : list (Z * Z)) s,
  seq_scans s = l1 ++ l2 → Forall (outer_scan depth) l2 →
  ∃ l : list (Z * Z), eosubxact_loop depth (length l1) s = (Ok tt, with_scans l s) ∧ l ≡ₚ filter (outer_scan depth) l1 ++ l2.
Proof.
  induction l1 as [|[t level] l1 IH] using rev_ind; intros l2 s Hs Hall.
  { exists l2. split; [|done]. cbn [length eosubxact_loop]. rewrite <- (app_nil_l l2), <- Hs. by destruct s. }
  rewrite length_app, Nat.add_1_r. cbn [eosubxact_loop]. rewrite <- (assoc_L app) in Hs. simpl in Hs. rewrite gets_run, Hs.
  rewrite lookup_app_r, Nat.sub_diag by lia. simpl. rewrite filter_app, <- (assoc_L app).
  destruct (Z.leb_spec depth level) as [Hle|Hlt].
  - destruct (remove_scan_at l1 l2 (t, level)) as (l2' & E & P). rewrite E. rewrite (M_bind_run _ _ _ tt (with_scans (l1 ++ l2') s)) by done.
    destruct (IH l2' (with_scans (l1 ++ l2') s)) as (l & E2 & P2); [done|by rewrite P|]. exists l. split; [exact E2|].
    rewrite P2, P, filter_cons_False by (unfold outer_scan; simpl; lia). done.
  - rewrite (M_bind_run _ _ _ tt s) by done. destruct (IH ((t, level) :: l2) s) as (l & E2 & P2); [done|by constructor|].
    exists l. split; [done|]. rewrite P2, filter_cons_True by (unfold outer_scan; simpl; lia). done.
Qed.

(** The end of a subtransaction forgets the scans begun in it, and those only. *)
Lemma eosubxact_run commit depth s :
  ∃ l : list (Z * Z), AtEOSubXact_HashTables commit depth s = (Ok tt, with_scans l s) ∧ l ≡ₚ filter (outer_scan depth) (seq_scans s).
Proof.
  unfold AtEOSubXact_HashTables. rewrite gets_run. destruct (eosubxact_loop_run depth (seq_scans s) [] s) as (l & E & P); [by rewrite app_nil_r|done|].
  exists l. rewrite app_nil_r in P. done.
Qed.

(** ** A whole scan *)

(** A caller's loop over the entries, which removes those that [del] accepts. *)
Fixpoint scan_loop (fuel : nat) (del : Z → bool) st : M (HashState V) (list Z) :=
  match fuel with
  | O => ereport ERRCODE_NONTERMINATING "hash_seq_search"
  | S fuel' =>
      r ← hash_seq_search st;
      match r.1 with
      | None => mret []
      | Some p =>
          (if del p then e ← element p; hash_search uninit (elem_key e) HASH_REMOVE;; mret tt else mret tt);;
          rest ← scan_loop fuel' del r.2;
          mret (p :: rest)
      end
  end.

Definition scan_step (del : Z → bool) E p : gmap Z (list byte * V) := if del p then delete p E else E.

Lemma match_refl t k : key_laws valid t → valid k → match_ t k k (keysize t) = 0.
Proof.
  intros Hk Hv. destruct (kl_copy _ _ Hk k Hv) as [Hc Hm].
  eapply (kl_trans _ _ Hk k _ k); [done|exact Hc|done|by apply (kl_sym _ _ Hk)|done].
Qed.

(** Removing the entry that was just returned. *)
Lemma remove_current (del : Z → bool) bs fs E p rest st s :
  key_laws valid (tab s) → entries_ok valid (tab s) E → shape (tab s) bs fs → placed (tab s) bs → entries_are (tab s) bs E →
  is_Some (E !! p) → p ∉ rest → remaining bs st rest →
  ∃ s' bs' fs', (if del p then e ← element p; hash_search uninit (elem_key e) HASH_REMOVE;; mret tt else mret tt) s = (Ok tt, s') ∧
    s' = with_tab (tab s') s ∧ same_conf (tab s) (tab s') ∧ same_masks (tab s) (tab s') ∧ entries_ok valid (tab s') (scan_step del E p) ∧
    shape (tab s') bs' fs' ∧ placed (tab s') bs' ∧ entries_are (tab s') bs' (scan_step del E p) ∧ remaining bs' st rest.
Proof.
  intros Hk HEok Hsh Hpl HE [[k v] Hp] Hnot Hrem. unfold scan_step.
  destruct (del p); [|exists s, bs, fs; split_and!; by destruct s].
  destruct (entry_elem _ _ _ _ _ _ _ Hsh HE Hp) as (_ & _ & e & _ & _ & He & <- & <-).
  assert (element p s = (Ok e, s)) as Ee by (unfold element; by rewrite He). rewrite (M_bind_run _ _ _ _ _ Ee).
  pose proof (eo_valid _ _ _ HEok _ _ _ Hp) as Hval.
  destruct (search_remove_at uninit valid bs fs E (elem_key e) s Hk HEok Hsh Hpl HE Hval) as (r & s' & E1 & Hf & Hr).
  rewrite (M_bind_run _ _ _ _ _ E1). destruct r as [p'|]; [|by destruct (Hf _ _ _ Hp); apply match_refl].
  assert (p' = p) as -> by (destruct Hf as (k' & v' & Hp' & Hm); by eapply (eo_unique _ _ _ HEok)).
  destruct Hr as (b & la & lb & fs' & Hb & Hsh' & Hpl' & HE' & HEok' & _ & Hc & Hm & Hs').
  exists s', (<[b := la ++ lb]> bs), fs'. split_and!; try done. apply (remaining_remove _ _ _ _ _ p); try done. apply (shape_bs_nodup Hsh).
Qed.

Lemma scan_loop_run (del : Z → bool) L rest : ∀ fuel bs fs E st s,
  key_laws valid (tab s) → entries_ok valid (tab s) E → shape (tab s) bs fs → placed (tab s) bs → entries_are (tab s) bs E →
  max_bucket (hctl (tab s)) + 1 < 2 ^ 32 → scanning L s → remaining bs st rest → NoDup rest → (∀ p, p ∈ rest → is_Some (E !! p)) →
  (length rest < fuel)%nat →
  ∃ s' F', scan_loop fuel del st s = (Ok rest, s') ∧ seq_scans s' = L ∧ same_conf (tab s) (tab s') ∧ same_masks (tab s) (tab s') ∧
    table_ok valid (tab s') (foldl (scan_step del) E rest) F'.
Proof.
  induction rest as [|p rest IH]; intros fuel bs fs E st s Hk HEok Hsh Hpl HE Hmax Hscan Hrem Hnd Hin Hf; (destruct fuel as [|fuel]; [cbn [length] in Hf; lia|]);
    cbn [scan_loop]; pose proof (seq_search_run bs fs st _ s Hsh Hmax Hrem) as Hstep; cbn beta iota in Hstep.
  - destruct (seq_term_run L s Hscan) as (s' & Et & Htab & _ & _ & _ & Hs'). destruct (Hstep s' Et) as (st' & E1).
    rewrite (M_bind_run _ _ _ _ _ E1). exists s', (length (mjoin fs)). split; [done|]. rewrite Htab. split_and!; [done..|].
    constructor; [done|done|]. by exists bs, fs.
  - destruct Hstep as (st' & E1 & Hrem'). rewrite (M_bind_run _ _ _ _ _ E1). cbn [fst snd].
    apply NoDup_cons in Hnd as [Hnot Hnd].
    destruct (remove_current del bs fs E p rest st' s Hk HEok Hsh Hpl HE (Hin p ltac:(left)) Hnot Hrem')
      as (s1 & bs1 & fs1 & E2 & Hs1 & Hc & Hm & HEok1 & Hsh1 & Hpl1 & HE1 & Hrem1).
    rewrite (M_bind_run _ _ _ _ _ E2).
    destruct (IH fuel bs1 fs1 (scan_step del E p) st' s1) as (s2 & F' & E3 & HL & Hc2 & Hm2 & Hok2); try done.
    + by eapply key_laws_conf.
    + by destruct Hm as (-> & _).
    + unfold scanning in *. destruct (sc_flags _ _ Hc) as [-> _]. by rewrite Hs1.
    + intros q Hq. unfold scan_step. destruct (del p); [|apply Hin; by right]. rewrite lookup_delete_ne by (by intros ->). apply Hin. by right.
    + cbn [length] in Hf. lia.
    + rewrite (M_bind_run _ _ _ _ _ E3). exists s2, F'. split; [done|]. split_and!; [done|by etrans| |done].
      destruct Hm as (? & ? & ?), Hm2 as (? & ? & ?). split_and!; congruence.
Qed.

Lemma foldl_step del l : ∀ E q, foldl (scan_step del) E l !! q = if decide (q ∈ l ∧ del q = true) then None else E !! q.
Proof.
  induction l as [|p l IH]; intros E q; cbn [foldl].
  - rewrite decide_False; [done|]. by intros [?%not_elem_of_nil _].
  - rewrite IH. unfold scan_step. destruct (decide (q = p)) as [->|Hne].
    + destruct (del p) eqn:Hd.
      * rewrite lookup_delete_eq, (decide_True (P := p ∈ p :: l ∧ _)) by (split; [left|done]). by case_decide.
      * rewrite !decide_False by (by intros [_ ?]). done.
    + assert (E !! q = (if del p then delete p E else E) !! q) as -> by (destruct (del p); [by rewrite lookup_delete_ne by done|done]).
      apply decide_ext. rewrite elem_of_cons. split; [intros [? ?]; auto|intros [[?|?] ?]; done].
Qed.

(** Every entry once, in [size E + 1] calls. *)
Lemma scan_run (del : Z → bool) E F s :
  table_ok valid (tab s) E F → max_bucket (hctl (tab s)) + 1 < 2 ^ 32 →
  frozen (tab s) = true ∨ Z.of_nat (length (seq_scans s)) < MAX_SEQ_SCANS →
  ∃ l s' F', (st ← hash_seq_init; scan_loop (S (size E)) del st) s = (Ok l, s') ∧ NoDup l ∧ (∀ p, p ∈ l ↔ is_Some (E !! p)) ∧
    seq_scans s' = seq_scans s ∧ same_conf (tab s) (tab s') ∧ same_masks (tab s) (tab s') ∧
    table_ok valid (tab s') (filter (λ '(p, _), del p = false) E) F'.
Proof.
  intros [Hk HEok (bs & fs & Hsh & Hpl & HE & HF)] Hmax Hroom.
  destruct (seq_init_run bs s Hroom) as (st & s1 & E1 & Hrem & Hscan & Ht & _). rewrite (M_bind_run _ _ _ _ _ E1).
  assert (∀ p, p ∈ mjoin bs ↔ is_Some (E !! p)) as Hdom.
  { intros p. rewrite HE. split; [intros Hp|]; [rewrite decide_True by done; apply fmap_is_Some, (shape_elem Hsh), Hp|].
    case_decide; [done|]. by intros [? ?]. }
  pose proof (shape_bs_nodup Hsh) as Hnd. assert (length (mjoin bs) = size E) as Hlen.
  { rewrite <- size_dom, <- (size_list_to_set (C := gset Z)) by done. f_equal. apply set_eq. intros p. by rewrite elem_of_list_to_set, elem_of_dom. }
  rewrite <- Ht in *. destruct (scan_loop_run del (seq_scans s) (mjoin bs) (S (size E)) bs fs E st s1) as (s2 & F' & E2 & HL & Hc & Hm & Hok); try done.
  - intros p Hp. by apply Hdom.
  - lia.
  - exists (mjoin bs), s2, F'. split_and!; [done|done|done|done|done|done|].
    assert (foldl (scan_step del) E (mjoin bs) = filter (λ '(p, _), del p = false) E) as <-; [|done].
    apply map_eq. intros q. rewrite foldl_step. case_decide as Hq.
    + symmetry. apply map_lookup_filter_None. right. intros [k v] _. by destruct Hq as [_ ->].
    + symmetry. destruct (E !! q) as [[k v]|] eqn:HEq.
      * apply map_lookup_filter_Some. split; [done|]. destruct (del q) eqn:Hd; [|done]. destruct Hq. rewrite Hdom. eauto.
      * apply map_lookup_filter_None. by left.
Qed.

(** ** Scans of one hash value *)

Definition has_hash t (hv : Z) p : Prop := hashvalue <$> heap t !! p = Some hv.
#[global] Instance has_hash_dec t hv p : Decision (has_hash t hv p).
Proof. unfold has_hash. apply _. Defined.

Lemma hash_loop_run hv l : ∀ fuel cur s,
  chain (heap (tab s)) cur l → (length l < fuel)%nat →
  match filter (has_hash (tab s) hv) l with
  | [] => seq_hash_loop fuel hv cur s = (Ok (None, None), s)
  | p :: rest => ∃ next l', seq_hash_loop fuel hv cur s = (Ok (Some p, next), s) ∧ chain (heap (tab s)) next l' ∧
      filter (has_hash (tab s) hv) l' = rest ∧ ∃ l1, l = l1 ++ l' ∧ l1 ≠ []
  end.
Proof.
  induction l as [|p l IH]; intros fuel cur s Hc Hf; (destruct fuel as [|fuel]; [cbn [length] in Hf; lia|]); cbn [seq_hash_loop].
  { simpl in Hc. by rewrite Hc. }
  destruct Hc as (-> & e & He & Hc). assert (element p s = (Ok e, s)) as Ee by (unfold element; by rewrite He). rewrite (M_bind_run _ _ _ _ _ Ee).
  rewrite filter_cons. assert (has_hash (tab s) hv p ↔ hv = hashvalue e) as Hhas by (unfold has_hash; rewrite He; simpl; naive_solver).
  destruct (Z.eqb_spec hv (hashvalue e)) as [Heq|Hne]; cbn [negb].
  - rewrite decide_True by by apply Hhas. exists (link e), l. split_and!; [done|done|done|by exists [p]].
  - rewrite decide_False by by rewrite Hhas. cbn [length] in Hf. specialize (IH fuel (link e) s Hc ltac:(lia)).
    destruct (filter (has_hash (tab s) hv) l) as [|q rest]; [done|]. destruct IH as (next & l' & H1 & H2 & H3 & l1 & -> & _).
    exists next, l'. split_and!; [done|done|done|by exists (p :: l1)].
Qed.

Lemma hash_scan_loop hv L : ∀ fuel l st s,
  hasHashvalue st = true → seq_hashvalue st = hv → chain (heap (tab s)) (curEntry st) l → NoDup l → scanning L s →
  (length l < fuel)%nat →
  ∃ s', scan_loop fuel (λ _, false) st s = (Ok (filter (has_hash (tab s) hv) l), s') ∧ seq_scans s' = L ∧ tab s' = tab s.
Proof.
  induction fuel as [|fuel IH]; intros l st s Hh Hv Hc Hnd Hscan Hf; [lia|]. cbn [scan_loop].
  assert (length l < chain_fuel (tab s))%nat as Hfuel by (pose proof (chain_length _ _ _ Hc Hnd); unfold chain_fuel; lia).
  pose proof (hash_loop_run hv l (chain_fuel (tab s)) (curEntry st) s Hc Hfuel) as Hrun.
  destruct (filter (has_hash (tab s) hv) l) as [|p rest].
  - destruct (seq_term_run L s Hscan) as (s' & Et & Htab & _ & _ & _ & Hs'). exists s'. split; [|done].
    rewrite (M_bind_run _ _ _ (None, {| curBucket := curBucket st; curEntry := None; hasHashvalue := true; seq_hashvalue := hv |}) s'); [done|].
    unfold hash_seq_search. rewrite Hh, Hv, gets_run, (M_bind_run _ _ _ _ _ Hrun). cbn [fst snd]. by rewrite (M_bind_run _ _ _ _ _ Et).
  - destruct Hrun as (next & l' & E1 & Hc' & Hfl & l1 & -> & Hne).
    set (st' := {| curBucket := curBucket st; curEntry := next; hasHashvalue := true; seq_hashvalue := hv |}).
    destruct (IH l' st' s) as (s' & E2 & HL & Ht); [done|done|done|by apply NoDup_app in Hnd as (_ & _ & ?)|done| |].
    { rewrite length_app in Hf. destruct l1; [done|]. cbn [length] in Hf. lia. }
    exists s'. split; [|done]. assert (hash_seq_search st s = (Ok (Some p, st'), s)) as Es.
    { unfold hash_seq_search. rewrite Hh, Hv, gets_run, (M_bind_run _ _ _ _ _ E1). done. }
    rewrite (M_bind_run _ _ _ _ _ Es). cbn [fst snd]. rewrite (M_bind_run _ _ _ tt s) by done. rewrite (M_bind_run _ _ _ _ _ E2), Hfl. done.
Qed.

(** The entries whose key has the hash value, each once. *)
Lemma hash_scan_run hv E F s :
  table_ok valid (tab s) E F → frozen (tab s) = true ∨ Z.of_nat (length (seq_scans s)) < MAX_SEQ_SCANS →
  ∃ l s', (st ← hash_seq_init_with_hash_value hv; scan_loop (S (size (heap (tab s)))) (λ _, false) st) s = (Ok l, s') ∧ NoDup l ∧
    (∀ p, p ∈ l ↔ ∃ k v, E !! p = Some (k, v) ∧ hash (tab s) k (keysize (tab s)) = hv) ∧ seq_scans s' = seq_scans s ∧ tab s' = tab s.
Proof.
  intros [Hk HEok (bs & fs & Hsh & Hpl & HE & HF)] Hroom.
  destruct (seq_init_run bs s Hroom) as (st & s1 & E1 & _ & Hscan & Ht & _). rewrite <- Ht in *.
  destruct (lookup_run bs fs hv s1 Hsh) as (b & l & Hb & Hl & E2). destruct (sh_buckets _ _ _ Hsh b l Hl) as (h & Hh & Hc).
  pose proof (join_nodup _ _ _ (shape_bs_nodup Hsh) Hl) as Hnd.
  set (st' := {| curBucket := Z.of_nat b; curEntry := h; hasHashvalue := true; seq_hashvalue := hv |}).
  destruct (hash_scan_loop hv (seq_scans s) (S (size (heap (tab s1)))) l st' s1) as (s2 & E3 & HL & Ht2); [done|done|done|done|done| |].
  { pose proof (chain_length _ _ _ Hc Hnd). lia. }
  exists (filter (has_hash (tab s1) hv) l), s2. split_and!; [|by apply NoDup_filter| |done|done].
  - unfold hash_seq_init_with_hash_value. unfold mbind, M_bind in *. rewrite E1, E2. cbn [fst snd].
    rewrite (read_bucket _ _ _ s1 eq_refl Hh). exact E3.
  - intros p. rewrite list_elem_of_filter. unfold has_hash. split.
    + intros [(e & He & Hhv)%fmap_Some Hp]. destruct (Hpl b l p e Hl Hp He) as [Hhe _]. exists (elem_key e), (elem_data e).
      split; [|congruence]. rewrite HE, decide_True by (apply elem_of_join; eauto). by rewrite He.
    + intros (k & v & Hp & Hhv). destruct (entry_elem _ _ _ _ _ _ _ Hsh HE Hp) as (b' & l' & e & Hb' & Hin & He & Hke & _).
      destruct (Hpl b' l' p e Hb' Hin He) as [Hhe Hcb]. rewrite Hke, Hhv in Hhe. rewrite Hhe, Hb in Hcb. apply Nat2Z.inj in Hcb. subst b'.
      simplify_eq. split; [rewrite He; simpl; congruence|done].
Qed.
End scan.
End DynahashScan.
