(* ===== verification/DynahashRekey.v ===== *)
(** * DynahashRekey: hash_update_hash_key

    An entry gets a new key where it is: its address and its data stay, it moves
    to the chain of the new key, and the other entries are as they were.  When an
    entry has the new key already, nothing changes. *)

From Stdlib Require Import ZArith Lia Bool Strings.Byte.
From stdpp Require Import base tactics numbers list gmap strings.
From S2P Require Import Prelude HashFn Dynahash DynahashChain DynahashInv DynahashOps DynahashExpand DynahashSearch.
Import Dynahash DynahashChain DynahashInv DynahashOps DynahashExpand DynahashSearch.

Local Open Scope Z_scope.
Local Open Scope pg_scope.
#[local] Arguments Nat.div : simpl never.
#[local] Arguments Nat.modulo : simpl never.

Module DynahashRekey.

Section rekey.
Context {V : Type} (valid : list byte → Prop).
Implicit Types (p q : Z) (l : list Z) (t : HTAB V) (s : HashState V) (b i : nat).
Implicit Types (bs fs : list (list Z)) (E : gmap Z (list byte * V)).

(** The chain of an element, found by its hash value. *)
Lemma find_element bs fs p b l e s :
  shape (tab s) bs fs → bs !! b = Some l → p ∈ l → heap (tab s) !! p = Some e →
  ∃ la lb, l = la ++ p :: lb ∧ follow (λ q _, q =? p) (bucket_slot (Z.of_nat b)) s = (Ok (Some p, place b la), s).
Proof.
  intros Hsh Hb Hp He.
  destruct (follow_run (λ q _, q =? p) b l s (sh_buckets _ _ _ Hsh b l Hb) (join_nodup _ _ _ (shape_bs_nodup Hsh) Hb)) as (r & la & E1 & Hst).
  destruct Hst as [la q lb e' -> _ Hq%Z.eqb_eq _|Hnone]; [subst q; eauto|].
  specialize (Hnone p e Hp He). simpl in Hnone. by rewrite Z.eqb_refl in Hnone.
Qed.

(** The buckets when [p] has moved from bucket [b] to the end of bucket [b']. *)
Definition moved bs b la lb b' l' p : list (list Z) :=
  if decide (b = b') then bs else <[b' := l' ++ [p]]> (<[b := la ++ lb]> bs).

Lemma moved_join bs b la p lb b' l' :
  bs !! b = Some (la ++ p :: lb) → bs !! b' = Some l' → mjoin (moved bs b la lb b' l' p) ≡ₚ mjoin bs.
Proof.
  intros Hb Hb'. unfold moved. case_decide as Hne; [done|].
  rewrite (insert_join (<[b := la ++ lb]> bs) b' l' p) by (by rewrite list_lookup_insert_ne).
  rewrite (join_insert bs b _ (la ++ lb) Hb), (join_take_drop bs b _ Hb). solve_Permutation.
Qed.

(** [q] is in the new bucket if it is [p], and in its own otherwise. *)
Lemma moved_lookup bs b la p lb b' l' c x q :
  NoDup (mjoin bs) → bs !! b = Some (la ++ p :: lb) → bs !! b' = Some l' → moved bs b la lb b' l' p !! c = Some x → q ∈ x →
  q = p ∧ c = b' ∨ q ≠ p ∧ ∃ x0, bs !! c = Some x0 ∧ q ∈ x0.
Proof.
  intros Hnd Hb Hb' Hc Hq. pose proof (lookup_lt_Some _ _ _ Hb) as Hlt. pose proof (lookup_lt_Some _ _ _ Hb') as Hlt'. unfold moved in Hc.
  destruct (decide (q = p)) as [->|Hqp].
  - left. split; [done|]. destruct (decide (b = b')) as [<-|Hne].
    { destruct (decide (c = b)) as [|Hcb]; [done|]. destruct (join_disjoint _ _ _ _ _ Hnd Hc Hb Hcb p); [done|]. apply elem_of_app. right. left. }
    destruct (decide (c = b')) as [|Hcb']; [done|]. rewrite list_lookup_insert_ne in Hc by done.
    pose proof (join_nodup _ _ _ Hnd Hb) as Hndb. destruct (decide (c = b)) as [->|Hcb].
    + rewrite list_lookup_insert_eq in Hc by done. simplify_eq. rewrite <- (Permutation_middle la lb p) in Hndb.
      by apply NoDup_cons in Hndb as [? _].
    + rewrite list_lookup_insert_ne in Hc by done. destruct (join_disjoint _ _ _ _ _ Hnd Hc Hb Hcb p); [done|]. apply elem_of_app. right. left.
  - right. split; [done|]. destruct (decide (b = b')) as [<-|Hne]; [eauto|]. destruct (decide (c = b')) as [->|Hcb'].
    + rewrite list_lookup_insert_eq in Hc by (by rewrite length_insert). simplify_eq. exists l'. split; [done|].
      apply elem_of_app in Hq as [?|Hq]; [done|]. by apply list_elem_of_singleton in Hq.
    + rewrite list_lookup_insert_ne in Hc by done. destruct (decide (c = b)) as [->|Hcb].
      * rewrite list_lookup_insert_eq in Hc by done. simplify_eq. eexists. split; [done|]. rewrite elem_of_app, elem_of_cons in *. naive_solver.
      * rewrite list_lookup_insert_ne in Hc by done. eauto.
Qed.

(** Relinking. *)
Lemma move_run bs fs b la p lb b' l' e s :
  shape (tab s) bs fs → bs !! b = Some (la ++ p :: lb) → bs !! b' = Some l' → heap (tab s) !! p = Some e →
  ∃ t' e', (if negb (Z.of_nat b =? Z.of_nat b') then
       e ← element p; write_slot (place b la) (link e);; write_slot (place b' l') (Some p);; write_slot (SLink p) None
     else mret tt) s = (Ok tt, with_tab t' s) ∧
    shape t' (moved bs b la lb b' l' p) fs ∧ same_conf (tab s) t' ∧ hctl t' = hctl (tab s) ∧ same_payload (heap (tab s)) (heap t') ∧
    heap t' !! p = Some e' ∧ payload e' = payload e.
Proof.
  intros Hsh Hb Hb' He. unfold moved. destruct (Z.eqb_spec (Z.of_nat b) (Z.of_nat b')) as [Heq|Hne]; cbn [negb].
  { rewrite decide_True by lia. exists (tab s), e. by split_and!; destruct s. }
  rewrite decide_False by lia. assert (b ≠ b') as Hbb by lia.
  assert (element p s = (Ok e, s)) as Ee by (unfold element; by rewrite He). rewrite (M_bind_run _ _ _ _ _ Ee).
  rewrite (M_bind_run _ _ _ _ _ (write_place b la (p :: lb) (link e) s (sh_buckets _ _ _ Hsh b _ Hb))).
  pose proof (join_take_drop bs b _ Hb) as P1. pose proof (join_insert bs b _ (la ++ lb) Hb) as P2.
  assert (NoDup (p :: (mjoin (<[b := la ++ lb]> bs) ++ mjoin fs))) as [Hp Hnd]%NoDup_cons.
  { eapply NoDup_Permutation_proper; [|exact (sh_nodup _ _ _ Hsh)]. rewrite P1, P2. solve_Permutation. }
  rewrite not_elem_of_app in Hp. destruct Hp as [Hpb Hpf].
  destruct (shape_write (tab s) bs fs b la (p :: lb) (link e) lb) as [Hsh1 Hto]; [done|done| |done|].
  { destruct (sh_buckets _ _ _ Hsh b _ Hb) as (h & _ & Hc). by eapply chain_rest. }
  set (t1 := set_slot (place b la) (link e) (tab s)) in *.
  assert (∃ e1, heap t1 !! p = Some e1 ∧ payload e1 = payload e) as (e1 & He1 & Hpe1).
  { pose proof (to_payload _ _ _ _ Hto p) as Hpp. rewrite He in Hpp. apply fmap_Some in Hpp as (e1 & ? & ?). eauto. }
  destruct (attach_links (<[b := la ++ lb]> bs) fs b' l' p e1 (with_tab t1 s)) as (t2 & E2 & Hsh2 & Hc2 & Hh2 & Hp2 & He2).
  { exact Hsh1. } { split_and!; [by exists e1|done|done]. } { by rewrite list_lookup_insert_ne. } { done. }
  exists t2, (set_link None e1). cbn [tab with_tab] in *. split_and!; [exact E2|done| | | |done|done].
  - etrans; [|exact Hc2]. destruct (to_keys _ _ _ _ Hto) as (? & ? & ? & ?), (to_flags _ _ _ _ Hto) as (? & ?).
    constructor; [done|done|]. by rewrite (to_hctl _ _ _ _ Hto).
  - by rewrite Hh2, (to_hctl _ _ _ _ Hto).
  - etrans; [apply (to_payload _ _ _ _ Hto)|exact Hp2].
Qed.

Lemma entries_ok_rekey t t' E p k0 k v :
  key_laws valid t → entries_ok valid t E → valid k → E !! p = Some (k0, v) → finds t E k None → same_conf t t' → hctl t' = hctl t →
  idx_of t k = idx_of t k0 → entries_ok valid t' (<[p := (k, v)]> E).
Proof.
  intros Hk [H1 H2 H3] Hv Hp Hf Hc Hh Hi. constructor.
  - intros q k' v' [[_ [= <- _]]|[_ Hq]]%lookup_insert_Some; eauto.
  - destruct (sc_keys _ _ Hc) as (_ & -> & _ & ->).
    intros q q' k1 v1 k2 v2 [[<- [= <- _]]|[_ Hq]]%lookup_insert_Some [[<- [= <- _]]|[_ Hq']]%lookup_insert_Some Hm; [done| | |by eauto].
    + destruct (Hf _ _ _ Hq'). apply (kl_sym _ _ Hk); eauto.
    + by destruct (Hf _ _ _ Hq).
  - intros j Hj. rewrite Hh, (H3 j Hj). rewrite (counted_same t t') by done. rewrite <- insert_delete_eq.
    rewrite counted_insert by apply lookup_delete_eq. rewrite (counted_delete t _ E p k0 v Hp), Hi. lia.
Qed.

(** The outcomes for an entry [p] of the table with key [k0] and data [v]. *)
Lemma update_key_run E F p k0 v k s :
  table_ok valid (tab s) E F → E !! p = Some (k0, v) → valid k → frozen (tab s) = false →
  idx_of (tab s) k = idx_of (tab s) k0 →
  ∃ r s', hash_update_hash_key p k s = (Ok (bool_decide (r = None)), s') ∧ finds (tab s) E k r ∧ same_conf (tab s) (tab s') ∧
    hctl (tab s') = hctl (tab s) ∧
    match r with
    | Some _ => s' = s
    | None => table_ok valid (tab s') (<[p := (keycopy (tab s) k (keysize (tab s)), v)]> E) F
    end.
Proof.
  intros Hok Hp Hval Hfr Hidx. pose proof Hok as [Hk HEok (bs & fs & Hsh & Hpl & HE & HF)].
  destruct (entry_elem _ _ _ _ _ _ _ Hsh HE Hp) as (b & l & e & Hb & Hin & He & Hke & Hve).
  destruct (Hpl b l p e Hb Hin He) as [Hhe Hcb]. destruct (find_element bs fs p b l e s Hsh Hb Hin He) as (la & lb & -> & Ef).
  destruct (lookup_run bs fs (hashvalue e) s Hsh) as (b0 & l0 & Hb0 & _ & El). rewrite Hcb in Hb0. apply Nat2Z.inj in Hb0. subst b0.
  destruct (locate_run valid bs fs E k s Hk HEok Hsh Hpl HE Hval) as (b' & l' & r & la' & Hl' & Hb' & E1 & E2 & Hf & Hr).
  exists r. unfold hash_update_hash_key. rewrite gets_run, Hfr.
  assert (element p s = (Ok e, s)) as Ee by (unfold element; by rewrite He). rewrite (M_bind_run _ _ _ _ _ Ee), (M_bind_run _ _ _ _ _ El).
  cbn [fst snd]. rewrite (M_bind_run _ _ _ _ _ Ef). cbn [fst snd].
  rewrite (M_bind_run (get_hash_value k) _ s (hash (tab s) k (keysize (tab s))) s) by done.
  rewrite (M_bind_run _ _ _ _ _ E1). cbn [fst snd]. rewrite (M_bind_run _ _ _ _ _ E2). cbn [fst snd].
  destruct r as [p'|]; [by exists s|]. subst la'. set (hv := hash (tab s) k (keysize (tab s))) in *. set (kc := keycopy (tab s) k (keysize (tab s))).
  destruct (move_run bs fs b la p lb b' l' e s Hsh Hb Hl' He) as (t1 & e1 & Em & Hsh1 & Hc1 & Hh1 & Hpay1 & He1 & Hpe1).
  rewrite (M_bind_run _ _ _ _ _ Em).
  destruct (put_key _ fs p e1 hv kc (with_tab t1 s) Hsh1 He1) as (t2 & Eq & Hsh2 & Hc2 & Hh2 & Hq2 & He2). cbn [tab with_tab] in *.
  apply M_bind_ok in Eq as (e2 & s2 & Ec & Ed). rewrite (M_bind_run _ _ _ _ _ Ec), (M_bind_run _ _ _ _ _ Ed).
  exists (with_tab t2 s). assert (same_conf (tab s) t2) as Hc by by etrans. assert (hctl t2 = hctl (tab s)) as Hh by by etrans.
  destruct (kl_copy _ _ Hk k Hval) as [Hkc Hmc]. fold kc in Hkc, Hmc. pose proof (kl_match _ _ Hk kc k Hkc Hval Hmc) as Hhash. fold hv in Hhash.
  assert (∀ q, q ≠ p → payload <$> heap t2 !! q = payload <$> heap (tab s) !! q) as Hpay by (intros q Hq; rewrite Hq2 by done; apply Hpay1).
  split_and!; [done|done|done|done|]. constructor; [by eapply key_laws_conf| |].
  - eapply (entries_ok_rekey (tab s) _ E p k0); [done|done|done|done| |done|done|].
    + intros q k' v' Hq Hmk. apply (Hf q k' v' Hq). eapply (kl_trans _ _ Hk k' kc); [by eapply (eo_valid _ _ _ HEok)|done..].
    + unfold idx_of. rewrite Hhash. exact Hidx.
  - exists (moved bs b la lb b' l' p), fs. pose proof (moved_join bs b la p lb b' l' Hb Hl') as P. split_and!; [done| | |done].
    + intros c x q eq Hc' Hq Heq. cbn [tab with_tab] in Heq |- *. destruct (sc_keys _ _ Hc) as (-> & _ & _ & ->). rewrite Hh.
      destruct (moved_lookup _ _ _ _ _ _ _ _ _ _ (shape_bs_nodup Hsh) Hb Hl' Hc' Hq) as [[-> ->]|(Hne & x0 & Hx0 & Hqx)].
      * rewrite He2 in Heq. injection Heq as <-. simpl. by rewrite Hhash.
      * destruct (payload_inv _ _ eq (Hpay q Hne) Heq) as (e0 & He0 & -> & -> & _). by eapply Hpl.
    + intros q. cbn [tab with_tab]. destruct (decide (q = p)) as [->|Hne].
      * rewrite lookup_insert_eq, decide_True by (rewrite P; apply elem_of_join; exists b, (la ++ p :: lb); done).
        rewrite He2. simpl. unfold entry. simpl. injection Hpe1 as _ _ ->. by rewrite Hve.
      * rewrite lookup_insert_ne by done. rewrite HE. rewrite (decide_ext (q ∈ mjoin (moved bs b la lb b' l' p)) (q ∈ mjoin bs)) by by rewrite P.
        case_decide; [|done]. specialize (Hpay q Hne). destruct (heap t2 !! q) as [x|], (heap (tab s) !! q) as [y|]; simpl in *; try done.
        injection Hpay as _ Hk' Hd. unfold entry. by rewrite Hk', Hd.
Qed.
End rekey.
End DynahashRekey.
