(* ===== verification/DynahashPartition.v ===== *)
(** * DynahashPartition: the partitions of a table

    A partitioned table is not split while it is used, so that the buckets of a
    partition stay its own: two hash values that fall in one bucket belong to one
    partition.  Processes that hold the locks of different partitions never
    follow or change the same chain. *)

From Stdlib Require Import ZArith Lia Bool Strings.Byte.
From stdpp Require Import base tactics numbers list gmap strings.
From S2P Require Import Prelude HashFn Dynahash DynahashChain DynahashInv DynahashOps DynahashCreate DynahashMap DynahashScan.
Import Dynahash DynahashChain DynahashInv DynahashOps DynahashCreate DynahashMap DynahashScan.

Local Open Scope Z_scope.
Local Open Scope pg_scope.

Module DynahashPartition.

(** ** Bucket numbers of a partition *)

Section numbers.
Context {V : Type}.
Implicit Types (t : HTAB V) (s : HashState V).

(** The partition of a hash value, as the callers compute it. *)
Definition partition_of t (hv : Z) : Z := hv mod num_partitions (hctl t).

Definition partitions_apart t : Prop :=
  ∀ hv hv', calc_bucket (hctl t) hv = calc_bucket (hctl t) hv' → partition_of t hv = partition_of t hv'.

Lemma calc_bucket_partition h k j x : masks_ok h k → 0 <= j <= k → calc_bucket h x mod 2 ^ j = x mod 2 ^ j.
Proof.
  intros Hm Hj. pose proof (mk_k _ _ Hm). rewrite (calc_bucket_mod h k x Hm).
  destruct (max_bucket h <? x mod 2 ^ (k + 1)); apply Z.mod_mod_divide.
  - exists (2 ^ (k - j)). rewrite <- Z.pow_add_r by lia. f_equal. lia.
  - exists (2 ^ (k + 1 - j)). rewrite <- Z.pow_add_r by lia. f_equal. lia.
Qed.

Lemma masks_apart t k j : masks_ok (hctl t) k → 0 <= j <= k → num_partitions (hctl t) = 2 ^ j → partitions_apart t.
Proof.
  intros Hm Hj Hp hv hv' E. unfold partition_of.
  rewrite Hp, <- (calc_bucket_partition _ k j hv Hm Hj), <- (calc_bucket_partition _ k j hv' Hm Hj). by rewrite E.
Qed.
End numbers.

(** ** Partitioned tables do not grow *)

Section keeps.
Context {V : Type} (uninit : Z → HASHELEMENT V).
Implicit Types (t : HTAB V) (s : HashState V).

(** The number of partitions stays, and the masks of a partitioned table. *)
Definition keeps_partitions s s' : Prop :=
  num_partitions (hctl (tab s')) = num_partitions (hctl (tab s)) ∧
  (IS_PARTITIONED (hctl (tab s)) = true → same_masks (tab s) (tab s')).
#[local] Instance keeps_partitions_preorder : PreOrder keeps_partitions.
Proof.
  split; [done|]. unfold keeps_partitions, IS_PARTITIONED. intros s1 s2 s3 [E1 H1] [E2 H2]. split; [congruence|]. intros HP.
  rewrite E1 in H2. destruct (H1 HP) as (? & ? & ?), (H2 HP) as (? & ? & ?). split_and!; congruence.
Qed.
Local Abbreviation keeps := (respects keeps_partitions).

Lemma keeps_tab (g : HTAB V → HTAB V) :
  (∀ t, num_partitions (hctl (g t)) = num_partitions (hctl t) ∧ same_masks t (g t)) → keeps (on_tab g).
Proof. intros H. apply respects_modify. intros s. split; [apply H|]. intros _. apply H. Qed.
Lemma keeps_alloc : keeps alloc.
Proof. intros s. unfold alloc. by destruct (alloc_schedule s). Qed.
Lemma keeps_element p : keeps (element (V := V) p).
Proof. intros s. unfold element. by destruct (heap (tab s) !! p). Qed.
#[local] Hint Resolve keeps_alloc keeps_element : respects.
#[local] Hint Extern 1 (respects _ (on_tab _)) => apply keeps_tab; done : respects.
#[local] Hint Extern 1 (respects _ (modify _)) => apply respects_modify; done : respects.

Lemma keeps_put_element p e : keeps (put_element (V := V) p e).
Proof. unfold put_element. respects. Qed.
Lemma keeps_freelist i fl : keeps (put_freelist (V := V) i fl).
Proof. unfold put_freelist, on_hctl. respects. Qed.
#[local] Hint Resolve keeps_put_element keeps_freelist : respects.
Lemma keeps_read b : keeps (read_slot (V := V) b).
Proof. unfold read_slot. respects. Qed.
Lemma keeps_write b v : keeps (write_slot (V := V) b v).
Proof. unfold write_slot. respects. Qed.
Lemma keeps_lookup hv : keeps (hash_initial_lookup (V := V) hv).
Proof. unfold hash_initial_lookup, hash_corrupted. respects. Qed.
#[local] Hint Resolve keeps_read keeps_write keeps_lookup : respects.

Lemma keeps_follow_chain fuel stop b : keeps (follow_chain (V := V) fuel stop b).
Proof. revert b. induction fuel as [|fuel IH]; intros b; cbn [follow_chain]; respects. Qed.
#[local] Hint Resolve keeps_follow_chain : respects.
Lemma keeps_follow stop b : keeps (follow (V := V) stop b).
Proof. unfold follow. respects. Qed.
Lemma keeps_link n p prev : keeps (link_elements uninit n p prev).
Proof. revert p prev. induction n as [|n IH]; intros p prev; cbn [link_elements]; respects. Qed.
#[local] Hint Resolve keeps_follow keeps_link : respects.
Lemma keeps_element_alloc n i : keeps (element_alloc uninit n i).
Proof. unfold element_alloc. respects. Qed.
Lemma keeps_borrow n i j : keeps (borrow_loop (V := V) n i j).
Proof. revert j. induction n as [|n IH]; intros j; cbn [borrow_loop]; respects. Qed.
#[local] Hint Resolve keeps_element_alloc keeps_borrow : respects.
Lemma keeps_get_entry i : keeps (get_hash_entry uninit i).
Proof. unfold get_hash_entry. generalize 2%nat. induction n as [|n IH]; cbn [get_hash_entry_loop]; respects. Qed.
#[local] Hint Resolve keeps_get_entry : respects.

(** Growing keeps the number of partitions only. *)
Definition same_partitions s s' : Prop := num_partitions (hctl (tab s')) = num_partitions (hctl (tab s)).
#[local] Instance same_partitions_preorder : PreOrder same_partitions.
Proof. split; [done|]. unfold same_partitions. intros s1 s2 s3. congruence. Qed.

Lemma keeps_same {A} (m : M (HashState V) A) : keeps m → respects same_partitions m.
Proof. intros H s. apply H. Qed.
Lemma same_tab (g : HTAB V → HTAB V) : (∀ t, num_partitions (hctl (g t)) = num_partitions (hctl t)) → respects same_partitions (on_tab g).
Proof. intros H. apply respects_modify. intros s. apply H. Qed.
#[local] Hint Extern 1 (respects same_partitions (on_tab _)) => apply same_tab; done : respects.

Lemma same_dir_realloc : respects same_partitions (dir_realloc (V := V)).
Proof. unfold dir_realloc, on_hctl. respects. apply keeps_same, keeps_alloc. Qed.
Lemma same_seg_alloc : respects same_partitions (seg_alloc (V := V)).
Proof. unfold seg_alloc. respects. apply keeps_same, keeps_alloc. Qed.
#[local] Hint Resolve same_dir_realloc same_seg_alloc : respects.
Lemma same_write b v : respects same_partitions (write_slot (V := V) b v).
Proof. apply keeps_same, keeps_write. Qed.
Lemma same_read b : respects same_partitions (read_slot (V := V) b).
Proof. apply keeps_same, keeps_read. Qed.
Lemma same_element p : respects same_partitions (element (V := V) p).
Proof. apply keeps_same, keeps_element. Qed.
#[local] Hint Resolve same_write same_read same_element : respects.
Lemma same_relocate fuel old cur b b' : respects same_partitions (relocate_loop (V := V) fuel old cur b b').
Proof. revert cur b b'. induction fuel as [|fuel IH]; intros cur b b'; cbn [relocate_loop]; respects. Qed.
#[local] Hint Resolve same_relocate : respects.
Lemma same_expand : respects same_partitions (expand_table (V := V)).
Proof.
  unfold expand_table, expand_segment, on_hctl. respects. apply same_tab. intros t. by destruct (high_mask (hctl t) <? _).
Qed.

Lemma keeps_search k action : keeps (hash_search uninit k action).
Proof.
  unfold hash_search, get_hash_value. respects_step; [respects|]. unfold hash_search_with_hash_value. intros s. rewrite gets_run. cbn [compose].
  match goal with |- keeps_partitions s ((?e ≫= ?f) s).2 => set (grow := e); set (rest := f) end.
  assert (keeps_partitions s (grow s).2) as Hgrow.
  { unfold grow. destruct action; try reflexivity; rewrite gets_run; unfold has_seq_scans; rewrite gets_run;
      (destruct (IS_PARTITIONED (hctl (tab s))) eqn:HP; cbn [negb]; rewrite ?andb_false_r; [reflexivity|]; split; [|by rewrite HP]);
      (match goal with |- context [if ?c then _ else _] => destruct c end; [|done]);
      apply (respects_bind same_partitions expand_table (λ _, mret tt)); apply same_expand || (intros ?; apply respects_ret; apply _). }
  assert (∀ u, keeps (rest u)) as Hrest by (intros u; unfold rest; respects).
  unfold mbind, M_bind. destruct (grow s) as [[u|c e] s1]; [|done]. etrans; [exact Hgrow|apply Hrest].
Qed.
#[local] Hint Resolve keeps_search : respects.

Lemma keeps_hop o : keeps (hop_run uninit o).
Proof. unfold hop_run, set_entry_data, entry_data, hash_get_num_entries. respects. Qed.
#[local] Hint Resolve keeps_hop : respects.
Lemma keeps_hops os : keeps (hops_run uninit os).
Proof. induction os as [|o os IH]; cbn [hops_run]; respects. Qed.

Lemma apart_kept s s' : keeps_partitions s s' → IS_PARTITIONED (hctl (tab s)) = true → partitions_apart (tab s) → partitions_apart (tab s').
Proof.
  intros [E H] HP Ha hv hv'. rewrite !(calc_bucket_same (tab s) (tab s')) by auto. unfold partition_of. rewrite E. apply Ha.
Qed.

Lemma created_apart nelem info flags t F j :
  created nelem info flags t F → has flags HASH_PARTITION = true → 0 <= j → info_num_partitions info = 2 ^ j →
  partitions_apart t ∧ IS_PARTITIONED (hctl t) = true.
Proof.
  intros Hcr Hp Hj Hinfo. destruct (cr_buckets _ _ _ _ _ Hcr) as (k & Hk & _ & Hlo & _ & Hle), (cr_shape _ _ _ _ _ Hcr) as (n & fs & Hsh & _).
  pose proof (ch_parts _ _ _ (cr_chosen _ _ _ _ _ Hcr)) as Hnp. rewrite Hp, Hinfo in Hnp. destruct (sh_masks _ _ _ Hsh) as [k' Hm].
  assert (k' = k) as ->.
  { pose proof (mk_k _ _ Hm). pose proof (mk_low _ _ Hm) as Hlo'. rewrite Hlo, Z.ones_equiv in Hlo'.
    apply (Z.pow_inj_r 2); lia. }
  split; [|unfold IS_PARTITIONED; rewrite Hnp; pose proof (Z.pow_pos_nonneg 2 j); destruct (Z.eqb_spec (2 ^ j) 0); [lia|done]].
  apply (masks_apart t k j); [done| |done]. split; [done|]. rewrite Hnp in Hle. apply (Z.pow_le_mono_r_iff 2); lia.
Qed.

(** C29: in a table that was created with a power of two of partitions, hash
    values of different partitions are never in the same bucket, after any
    sequence of operations, failing ones included.  The locks of two partitions
    thus guard disjoint chains. *)
Theorem partitions_share_no_bucket nelem info flags j os s s1 :
  create_args nelem info flags → has flags HASH_PARTITION = true → 0 <= j → info_num_partitions info = 2 ^ j →
  hash_create uninit nelem info flags s = (Ok tt, s1) →
  partitions_apart (tab (hops_run uninit os s1).2).
Proof.
  intros Ha Hp Hj Hinfo E1. destruct (hash_create_run uninit nelem info flags s Ha) as (r & s1' & E1' & _ & Hr).
  rewrite E1 in E1'. injection E1' as <- <-. destruct Hr as [[_ [F Hcr]]|[(? & ? & ?) _]]; [|done].
  destruct (created_apart nelem info flags (tab s1) F j Hcr Hp Hj Hinfo) as [Hap HP]. eapply apart_kept; [apply keeps_hops|done|done].
Qed.
End keeps.
End DynahashPartition.
