(* ===== verification/DynahashTheorems.v ===== *)
(** * DynahashTheorems: what dynahash.c promises

    From hash_create on: runs of operations answer as a finite map does, shared
    tables take the entries they were made for, the partitions of a table share no
    bucket, scans return every entry once and end, and no sequence of operations,
    failing ones included, leaves a table that is not well formed. *)

From Stdlib Require Import ZArith Lia Bool Strings.Byte.
From stdpp Require Import base tactics numbers list gmap strings relations.
From S2P Require Import Prelude HashFn Dynahash DynahashChain DynahashInv DynahashKeys DynahashOps DynahashExpand DynahashSearch DynahashCreate DynahashMap DynahashScan DynahashRekey.
Import Dynahash DynahashChain DynahashInv DynahashKeys DynahashOps DynahashExpand DynahashSearch DynahashCreate DynahashMap DynahashScan DynahashRekey.

Local Open Scope Z_scope.
Local Open Scope pg_scope.
#[local] Arguments Nat.div : simpl never.
#[local] Arguments Nat.modulo : simpl never.

Module DynahashTheorems.

(** ** Keys without functions of the caller's *)

Definition default_keys (flags : Z) : bool :=
  negb (has flags HASH_FUNCTION) && negb (has flags HASH_COMPARE) && negb (has flags HASH_KEYCOPY).

(** A blob of the key's size, or a NUL-terminated string. *)
Definition key_ok (info : HASHCTL) (flags : Z) (k : list byte) : Prop :=
  if has flags HASH_BLOBS then info_keysize info <= Z.of_nat (length k) else x00 ∈ k.

(** What distinguishes keys: the bytes of the key's size, or the string up to
    that size. *)
Definition stored_key (info : HASHCTL) (flags : Z) (k : list byte) : list byte :=
  if has flags HASH_BLOBS then memcpy k (info_keysize info) else strlcpy k (info_keysize info).

Section theorems.
Context {V : Type} (uninit : Z → HASHELEMENT V).
Implicit Types (p : Z) (t : HTAB V) (s : HashState V) (k : list byte) (v : V) (info : HASHCTL) (flags nelem : Z).
Implicit Types (E : gmap Z (list byte * V)) (F : nat) (os : list (hop (V := V))).

Lemma chosen_canon info flags t :
  default_keys flags = true → 0 < info_keysize info → chosen info flags t →
  key_canon (key_ok info flags) t ∧ ∀ k, canon t k = stored_key info flags k.
Proof.
  intros Hd Hks [C1 C2 C3 C4 _ _ _]. unfold default_keys in Hd.
  destruct (has flags HASH_FUNCTION), (has flags HASH_COMPARE), (has flags HASH_KEYCOPY); try done. unfold key_ok, stored_key, canon.
  rewrite C4. destruct (has flags HASH_BLOBS); cbn [negb] in *; rewrite <- C1 in *.
  - split; [|done]. apply blob_canon; [done| |done|done]. destruct (Z.eqb_spec (keysize t) 4); [by right|by left].
  - split; [|done]. apply string_canon; [lia|done|done|done].
Qed.

Lemma created_table nelem info flags t F valid :
  created nelem info flags t F → key_laws valid t → table_ok valid t ∅ F.
Proof.
  intros Hcr Hk. destruct (cr_shape _ _ _ _ _ Hcr) as (n & fs & Hsh & HF). constructor; [done| |].
  - constructor.
    + intros p k v. by rewrite lookup_empty.
    + intros p q k v k' v'. by rewrite lookup_empty.
    + intros i Hi. rewrite (cr_count _ _ _ _ _ Hcr) by done. unfold counted. by rewrite map_filter_empty.
  - exists (replicate n []), fs. split_and!; [done| | |done].
    + intros b l p e Hb Hp. apply lookup_replicate in Hb as [-> _]. by apply not_elem_of_nil in Hp.
    + intros p. rewrite lookup_empty, join_replicate_nil. rewrite decide_False by apply not_elem_of_nil. done.
Qed.

(** A new table stands for the empty map. *)
Lemma created_is_map nelem info flags s F cap :
  default_keys flags = true → 0 < info_keysize info → created nelem info flags (tab s) F →
  match cap with Some n => n <= Z.of_nat F | None => has flags HASH_FIXED_SIZE = false ∧ false ∉ alloc_schedule s end →
  is_map (key_ok info flags) (stored_key info flags) cap s ∅.
Proof.
  intros Hd Hks Hcr Hcap. destruct (chosen_canon info flags (tab s) Hd Hks (cr_chosen _ _ _ _ _ Hcr)) as [Hk Hc]. constructor.
  - done.
  - done.
  - apply (ch_frozen _ _ _ (cr_chosen _ _ _ _ _ Hcr)).
  - exists ∅, F. split; [eapply created_table; [done|by apply key_canon_laws]|]. split; [apply models_empty|].
    destruct cap; [rewrite map_size_empty; lia|]. by rewrite (cr_fixed _ _ _ _ _ Hcr).
Qed.

Lemma created_max nelem info flags t F : created nelem info flags t F → max_bucket (hctl t) < 2 ^ 30.
Proof.
  intros Hcr. destruct (cr_buckets _ _ _ _ _ Hcr) as (k & Hk & -> & _). pose proof (pow_0_30 k Hk). lia.
Qed.

(** C11: a hash table made for keys that are blobs or strings answers every
    sequence of insertions, lookups, removals and counts as a finite map from
    keys does, while the allocator has memory: buckets are split and elements
    allocated and reused without a caller noticing.  Strings are distinguished
    up to the key size. *)
Theorem hash_table_refines_map nelem info flags os s :
  create_args nelem info flags → default_keys flags = true → has flags HASH_FIXED_SIZE = false → false ∉ alloc_schedule s →
  (∀ o k, o ∈ os → hop_key o = Some k → key_ok info flags k) → Z.of_nat (length os) < 2 ^ 31 →
  ∃ s', (hash_create uninit nelem info flags;; hops_run uninit os) s = (Ok (hops_spec (stored_key info flags) os ∅).1, s').
Proof.
  intros Ha Hd Hfx Hsched Hkeys Hlen. destruct (hash_create_run uninit nelem info flags s Ha) as (r & s1 & E1 & Henv & Hr).
  destruct Hr as [[-> [F Hcr]]|[_ ?]]; [|done]. rewrite (M_bind_run _ _ _ _ _ E1).
  destruct (hops_simulate uninit (key_ok info flags) (stored_key info flags) None os s1 ∅) as (s2 & E2 & _).
  - eapply created_is_map; [done|destruct (ca_sizes _ _ _ Ha); lia|done|]. split; [done|]. intros Hin. by apply Hsched, (se_schedule _ _ Henv).
  - done.
  - clear. generalize (∅ : gmap (list byte) V). induction os as [|o os IH]; intros A; [done|]. cbn [hops_fit]. rewrite IH, andb_true_r. by destruct o.
  - pose proof (created_max _ _ _ _ _ Hcr). change (2 ^ 30) with 1073741824 in *. pow2. lia.
  - by exists s2.
Qed.

(** C24: a shared table takes as many entries as it was created for, whatever
    the allocator answers from then on, and even if its size is fixed: a
    sequence of operations that never needs more entries than that succeeds,
    with the answers of a finite map.  In a partitioned table the elements of
    other free lists are borrowed. *)
Theorem shared_table_has_room nelem info flags os s s1 schedule :
  create_args nelem info flags → default_keys flags = true → has flags HASH_SHARED_MEM = true →
  hash_create uninit nelem info flags s = (Ok tt, s1) →
  (∀ o k, o ∈ os → hop_key o = Some k → key_ok info flags k) → Z.of_nat (length os) < 2 ^ 31 →
  hops_fit (stored_key info flags) (Some nelem) os ∅ = true →
  ∃ s', hops_run uninit os (with_schedule schedule s1) = (Ok (hops_spec (stored_key info flags) os ∅).1, s').
Proof.
  intros Ha Hd Hsh E1 Hkeys Hlen Hfit. destruct (hash_create_run uninit nelem info flags s Ha) as (r & s1' & E1' & Henv & Hr).
  rewrite E1 in E1'. injection E1' as <- <-. destruct Hr as [[_ [F Hcr]]|[(? & ? & ?) _]]; [|done].
  destruct (hops_simulate uninit (key_ok info flags) (stored_key info flags) (Some nelem) os (with_schedule schedule s1) ∅) as (s2 & E2 & _).
  - eapply created_is_map; [done|destruct (ca_sizes _ _ _ Ha); lia|exact Hcr|]. apply (cr_capacity _ _ _ _ _ Hcr). by left.
  - done.
  - done.
  - pose proof (created_max _ _ _ _ _ Hcr). change (2 ^ 30) with 1073741824 in *. pow2. simpl. lia.
  - by exists s2.
Qed.

(** ** Well-formed tables *)

(** What may be done with a table, from the outside. *)
Definition rekey (k k' : list byte) : M (HashState V) bool :=
  r ← hash_search uninit k HASH_FIND;
  match r.1 with Some p => hash_update_hash_key p k' | None => mret false end.

Section steps.
Context (valid : list byte → Prop).

(** One operation, whether it returns or raises. *)
Inductive hstep s : HashState V → Prop :=
| step_hop o : (∀ k, hop_key o = Some k → valid k) → hstep s (hop_run uninit o s).2
| step_enter_null k : valid k → hstep s (hash_search uninit k HASH_ENTER_NULL s).2
| step_rekey k k' : valid k → valid k' → IS_PARTITIONED (hctl (tab s)) = false → hstep s (rekey k k' s).2
| step_freeze : hstep s (hash_freeze s).2
| step_seq_init : hstep s (hash_seq_init s).2
| step_seq_init_hash hv : hstep s (hash_seq_init_with_hash_value hv s).2
| step_seq_search st : hstep s (hash_seq_search st s).2
| step_seq_term : hstep s (hash_seq_term s).2
| step_eoxact commit : hstep s (AtEOXact_HashTables commit s).2
| step_eosubxact commit depth : hstep s (AtEOSubXact_HashTables commit depth s).2.

Definition well_formed (n : Z) s : Prop := (∃ E F, table_ok valid (tab s) E F) ∧ max_bucket (hctl (tab s)) < n.

Lemma well_formed_same n s s' : tab s' = tab s → well_formed n s → well_formed n s'.
Proof. unfold well_formed. by intros ->. Qed.
Lemma well_formed_next n s : well_formed n s → well_formed (n + 1) s.
Proof. intros [H1 H2]. split; [done|lia]. Qed.
Lemma well_formed_masks n s s' E F :
  well_formed n s → table_ok valid (tab s') E F → max_bucket (hctl (tab s')) <= max_bucket (hctl (tab s)) + 1 → well_formed (n + 1) s'.
Proof. intros [_ H2] Hok Hle. split; [eauto|lia]. Qed.

Lemma table_ok_frozen t E F : table_ok valid t E F → table_ok valid (with_frozen true t) E F.
Proof.
  intros [[K1 K2 K3 K4 K5] [H1 H2 H3] (bs & fs & [[k []] [] A3 A4 A5 A6 A7 A8 A9 A10] & Hpl & HE & HF)].
  constructor; [done|done|]. exists bs, fs. split_and!; [constructor; try done; by exists k|done|done|done].
Qed.

(** Scans change no table. *)
Local Abbreviation keeps_tab := (respects (same (tab (V := V)))).
#[local] Hint Extern 1 (respects _ (modify _)) => apply respects_modify; done : respects.
Lemma tab_element p : keeps_tab (element p).
Proof. intros s. unfold element, same. by destruct (heap (tab s) !! p). Qed.
#[local] Hint Resolve tab_element : respects.
Lemma tab_read b : keeps_tab (read_slot b).
Proof. unfold read_slot. respects. Qed.
Lemma tab_deregister_loop n : keeps_tab (deregister_loop n).
Proof. induction n as [|n IH]; cbn [deregister_loop]; respects. Qed.
#[local] Hint Resolve tab_read tab_deregister_loop : respects.
Lemma tab_seq_term : keeps_tab hash_seq_term.
Proof. unfold hash_seq_term, deregister_seq_scan. respects. Qed.
Lemma tab_seq_init : keeps_tab hash_seq_init.
Proof. unfold hash_seq_init, register_seq_scan. respects. Qed.
Lemma tab_hash_loop fuel hv x : keeps_tab (seq_hash_loop fuel hv x).
Proof. revert x. induction fuel as [|fuel IH]; intros x; cbn [seq_hash_loop]; respects. Qed.
Lemma tab_bucket_loop fuel mx b : keeps_tab (seq_bucket_loop fuel mx b).
Proof. revert b. induction fuel as [|fuel IH]; intros b; cbn [seq_bucket_loop]; respects. Qed.
#[local] Hint Resolve tab_seq_term tab_seq_init tab_hash_loop tab_bucket_loop : respects.
Lemma tab_seq_search st : keeps_tab (hash_seq_search st).
Proof. unfold hash_seq_search. respects. Qed.
Lemma tab_seq_init_hash hv : keeps_tab (hash_seq_init_with_hash_value hv).
Proof. unfold hash_seq_init_with_hash_value, hash_initial_lookup, hash_corrupted. respects. Qed.
Lemma tab_eosubxact commit d : keeps_tab (AtEOSubXact_HashTables commit d).
Proof.
  unfold AtEOSubXact_HashTables. respects_step; [respects|]. generalize (length a). intros n. induction n as [|n IH]; cbn [eosubxact_loop]; respects.
Qed.

Lemma enter_well_formed n k action s :
  well_formed n s → n < 2 ^ 32 → valid k → action = HASH_ENTER ∨ action = HASH_ENTER_NULL →
  ∃ r s', hash_search uninit k action s = (r, s') ∧ max_bucket (hctl (tab s')) <= max_bucket (hctl (tab s)) + 1 ∧
    ∃ E F, table_ok valid (tab s') E F ∧ ∀ p b, r = Ok (Some p, b) → is_Some (E !! p).
Proof.
  intros [(E & F & Hok) Hmax] Hn Hv Hact.
  destruct (search_enter uninit valid E F k s action Hact Hok Hv ltac:(lia)) as (r & s' & E1 & _ & _ & _ & Hle & Hr).
  exists r, s'. split_and!; [done|done|].
  inversion Hr as [p t' Hf Hok1|t' Hf Hfz Hok1|p v0 F' t' Hf Hfz Hp Hok1 HF'|t' Hf Hfz HF0 Hno Hok1]; subst.
  - exists E, F. split; [done|]. intros q b [= <- <-]. destruct Hf as (k' & v & Hp & _). eauto.
  - exists E, F. split; [done|]. intros q b [=].
  - eexists _, F'. split; [done|]. intros q b [= <- <-]. rewrite lookup_insert_eq. eauto.
  - eexists E, _. split; [done|]. intros q b. by destruct action.
Qed.

Lemma hop_well_formed n o s :
  well_formed n s → n < 2 ^ 32 → (∀ k, hop_key o = Some k → valid k) → well_formed (n + 1) (hop_run uninit o s).2.
Proof.
  intros Hwf Hn Hv. destruct o as [k v|k|k|]; cbn [hop_run].
  - destruct (enter_well_formed n k HASH_ENTER s Hwf Hn (Hv k eq_refl) (or_introl eq_refl)) as (r & s1 & E1 & Hle & E & F & Hok & Hp).
    destruct r as [[[p|] b]|c e]; [rewrite (M_bind_run _ _ _ _ _ E1)..|rewrite (M_bind_err _ _ _ _ _ _ E1)]; cbn [fst snd];
      [|by eapply well_formed_masks..].
    destruct (Hp p b eq_refl) as [[k0 v0] Hp0]. destruct (set_data_run valid E F p k0 v0 v s1 Hok Hp0) as (t' & E2 & Hok' & _ & Hm & _).
    rewrite (M_bind_run _ _ _ _ _ E2). eapply well_formed_masks; [done|exact Hok'|]. simpl. lia.
  - destruct Hwf as [(E & F & Hok) Hmax]. destruct (search_find uninit valid E F k s Hok (Hv k eq_refl)) as (r & E1 & _).
    rewrite (M_bind_run _ _ _ _ _ E1). cbn [fst snd]. apply (well_formed_same _ s); [|apply well_formed_next; split; eauto].
    destruct r as [p|]; [|done]. unfold entry_data. apply (respects_bind (same tab) (element p ≫= λ e, mret (elem_data e)) (λ v, mret (HValue (Some v))));
      [|intros ?; apply respects_ret; apply _]. respects.
  - destruct Hwf as [(E & F & Hok) Hmax]. destruct (search_remove uninit valid E F k s Hok (Hv k eq_refl)) as (r & s1 & E1 & _ & Hr).
    rewrite (M_bind_run _ _ _ _ _ E1). cbn [snd]. destruct r as [p|].
    + destruct Hr as (Hok' & _ & (Hm & _) & _). eapply (well_formed_masks n s); [split; eauto|exact Hok'|]. simpl. lia.
    + subst s1. apply well_formed_next. split; eauto.
  - destruct Hwf as [(E & F & Hok) Hmax]. rewrite (M_bind_run _ _ _ _ _ (num_entries_run valid E F s Hok)).
    apply well_formed_next. split; eauto.
Qed.

Lemma rekey_well_formed n k k' s :
  well_formed n s → valid k → valid k' → IS_PARTITIONED (hctl (tab s)) = false → well_formed (n + 1) (rekey k k' s).2.
Proof.
  intros [(E & F & Hok) Hmax] Hk Hk' HP. unfold rekey. destruct (search_find uninit valid E F k s Hok Hk) as (r & E1 & Hf).
  rewrite (M_bind_run _ _ _ _ _ E1). cbn [fst snd].
  assert (well_formed (n + 1) s) as Hwf by (apply well_formed_next; split; eauto).
  destruct r as [p|]; [|done]. destruct Hf as (k0 & v & Hp & _). destruct (frozen (tab s)) eqn:Hfr.
  { unfold hash_update_hash_key. rewrite gets_run, Hfr. done. }
  destruct (update_key_run valid E F p k0 v k' s Hok Hp Hk' Hfr) as (r & s' & E2 & _ & _ & Hh & Hr); [unfold idx_of, FREELIST_IDX; by rewrite HP|].
  rewrite E2. cbn [snd]. destruct r; [by subst s'|]. eapply (well_formed_masks n s); [split; eauto|exact Hr|]. rewrite Hh. lia.
Qed.

Lemma hstep_well_formed n s s' : well_formed n s → n < 2 ^ 32 → hstep s s' → well_formed (n + 1) s'.
Proof.
  intros Hwf Hn Hst. pose proof (well_formed_next n s Hwf) as Hsame. destruct Hst as [o Hv|k Hv|k k' Hk Hk' HP| | |hv|st| |c|c d].
  - by apply hop_well_formed.
  - destruct (enter_well_formed n k HASH_ENTER_NULL s Hwf Hn Hv (or_intror eq_refl)) as (r & s1 & E1 & Hle & E & F & Hok & _).
    rewrite E1. by eapply well_formed_masks.
  - by apply rekey_well_formed.
  - unfold hash_freeze. rewrite gets_run. unfold has_seq_scans. rewrite gets_run. destruct (isshared (tab s)); [done|]. destruct (_ && _); [done|].
    destruct Hsame as [(E & F & Hok) Hmax]. split; [|done]. exists E, F. by apply table_ok_frozen.
  - apply (well_formed_same _ s); [apply tab_seq_init|done].
  - apply (well_formed_same _ s); [apply tab_seq_init_hash|done].
  - apply (well_formed_same _ s); [apply tab_seq_search|done].
  - apply (well_formed_same _ s); [apply tab_seq_term|done].
  - done.
  - apply (well_formed_same _ s); [apply tab_eosubxact|done].
Qed.

Lemma hsteps_well_formed m : ∀ n s s', well_formed n s → n + Z.of_nat m <= 2 ^ 32 → nsteps hstep m s s' → well_formed (n + Z.of_nat m) s'.
Proof.
  induction m as [|m IH]; intros n s s' Hwf Hn Hst; inversion Hst as [|? ? s1 ? H1 H2]; subst; [by rewrite Z.add_0_r|].
  replace (n + Z.of_nat (S m)) with (n + 1 + Z.of_nat m) by lia. apply (IH _ s1); [|lia|done]. eapply hstep_well_formed; [done|lia|done].
Qed.
End steps.

(** C31: whatever is done with a table for blobs or strings after its creation,
    operations that raise included, it stays well formed: the masks fit the
    number of buckets, every element is in the chain of its bucket or on a free
    list and in no other, no two entries have the same key, and the counts are
    right. Up to 2 ^ 31 operations are followed, and the key of an entry is
    changed in tables without partitions only: in others hash_update_hash_key
    leaves the counts wrong ([rekey_leaves_counts]). *)
Theorem table_stays_well_formed nelem info flags m s s1 s2 :
  create_args nelem info flags → default_keys flags = true → hash_create uninit nelem info flags s = (Ok tt, s1) →
  nsteps (hstep (key_ok info flags)) m s1 s2 → Z.of_nat m <= 2 ^ 31 →
  ∃ E F, table_ok (key_ok info flags) (tab s2) E F.
Proof.
  intros Ha Hd E1 Hst Hm. destruct (hash_create_run uninit nelem info flags s Ha) as (r & s1' & E1' & Henv & Hr).
  rewrite E1 in E1'. injection E1' as <- <-. destruct Hr as [[_ [F Hcr]]|[(? & ? & ?) _]]; [|done].
  destruct (chosen_canon info flags (tab s1) Hd) as [Hk _]; [destruct (ca_sizes _ _ _ Ha); lia|apply Hcr|].
  destruct (hsteps_well_formed (key_ok info flags) m (2 ^ 30) s1 s2) as [? _]; [|change (2 ^ 30) with 1073741824; pow2; lia|done|done].
  split; [|by eapply created_max]. exists ∅, F. eapply created_table; [done|by apply key_canon_laws].
Qed.

(** ** One operation *)

(** C32: HASH_ENTER and HASH_ENTER_NULL return the entry of the key if there is
    one; else a new element with a copy of the key, at an address where no entry
    was; else, only when no free list has an element and none can be allocated,
    NULL or the error, with the entries as they were.  A frozen table takes no
    new key.  All other entries keep their addresses, keys and data, also when
    the table grows first, which it does not do while it is scanned or when it is
    partitioned. *)
Theorem enter_outcomes valid E F k s action :
  action = HASH_ENTER ∨ action = HASH_ENTER_NULL →
  table_ok valid (tab s) E F → valid k → max_bucket (hctl (tab s)) + 1 < 2 ^ 32 →
  ∃ r s', hash_search uninit k action s = (r, s') ∧ same_env s s' ∧ same_conf (tab s) (tab s') ∧
    (existsb (λ '(t, _), t =? self s) (seq_scans s) = true ∨ IS_PARTITIONED (hctl (tab s)) = true → same_masks (tab s) (tab s')) ∧
    enters valid s E F k action r (tab s').
Proof.
  intros Hact Hok Hv Hmax. destruct (search_enter uninit valid E F k s action Hact Hok Hv Hmax) as (r & s' & H1 & H2 & H3 & H4 & _ & H5).
  by exists r, s'.
Qed.

(** C23: a scan returns every entry exactly once and then NULL, in one call more
    than there are entries, also when the caller removes entries as it gets them.
    Afterwards the process has the scans it had before, and the table the entries
    that were not removed. *)
Theorem scan_returns_every_entry_once valid (del : Z → bool) E F s :
  table_ok valid (tab s) E F → max_bucket (hctl (tab s)) + 1 < 2 ^ 32 →
  frozen (tab s) = true ∨ Z.of_nat (length (seq_scans s)) < MAX_SEQ_SCANS →
  ∃ l s' F', (st ← hash_seq_init; scan_loop uninit (S (size E)) del st) s = (Ok l, s') ∧
    NoDup l ∧ (∀ p, p ∈ l ↔ is_Some (E !! p)) ∧ seq_scans s' = seq_scans s ∧
    table_ok valid (tab s') (filter (λ '(p, _), del p = false) E) F'.
Proof.
  intros Hok Hmax Hroom. destruct (scan_run uninit valid del E F s Hok Hmax Hroom) as (l & s' & F' & H1 & H2 & H3 & H4 & _ & _ & H5).
  by exists l, s', F'.
Qed.

(** Hash_update_hash_key gives an entry another key where it is: address and
    data stay, it is found under the new key and no longer under the old one, and
    all other entries stay.  It returns false, and changes nothing, when there is
    an entry with that key. *)
Theorem rekey_moves_entry valid E F p k0 v k s :
  table_ok valid (tab s) E F → E !! p = Some (k0, v) → valid k → frozen (tab s) = false →
  FREELIST_IDX (hctl (tab s)) (hash (tab s) k (keysize (tab s))) = FREELIST_IDX (hctl (tab s)) (hash (tab s) k0 (keysize (tab s))) →
  ∃ r s', hash_update_hash_key p k s = (Ok (bool_decide (r = None)), s') ∧ finds (tab s) E k r ∧
    match r with
    | Some _ => s' = s
    | None => table_ok valid (tab s') (<[p := (keycopy (tab s) k (keysize (tab s)), v)]> E) F ∧
        hash_search uninit k HASH_FIND s' = (Ok (Some p, true), s') ∧ hash_search uninit k0 HASH_FIND s' = (Ok (None, false), s')
    end.
Proof.
  intros Hok Hp Hv Hfr Hidx. pose proof (ok_keys _ _ _ _ Hok) as Hk. pose proof (ok_entries _ _ _ _ Hok) as HE.
  destruct (update_key_run valid E F p k0 v k s Hok Hp Hv Hfr Hidx) as (r & s' & E1 & Hf & Hc & _ & Hr). exists r, s'. split; [done|]. split; [done|].
  destruct r; [done|]. set (kc := keycopy (tab s) k (keysize (tab s))) in *. destruct (kl_copy _ _ Hk k Hv) as [Hkc Hmc]. fold kc in Hkc, Hmc.
  pose proof (eo_valid _ _ _ HE _ _ _ Hp) as Hv0. pose proof (key_laws_conf valid _ _ Hc Hk) as Hk'. destruct (sc_keys _ _ Hc) as (_ & C2 & _ & C4).
  split_and!; [done|..].
  - destruct (search_find uninit valid _ F k s' Hr Hv) as (r & E2 & Hfind). rewrite E2. destruct r as [q|].
    + destruct Hfind as (kq & vq & Hq & Hm). rewrite C2, C4 in Hm. apply lookup_insert_Some in Hq as [[<- _]|[_ Hq]]; [done|]. by destruct (Hf _ _ _ Hq).
    + destruct (Hfind p kc v); [by rewrite lookup_insert_eq|]. by rewrite C2, C4.
  - destruct (search_find uninit valid _ F k0 s' Hr Hv0) as (r & E2 & Hfind). rewrite E2. destruct r as [q|]; [exfalso|done].
    destruct Hfind as (kq & vq & Hq & Hm). rewrite C2, C4 in Hm. apply lookup_insert_Some in Hq as [[<- [= <- <-]]|[Hne Hq]].
    + apply (Hf _ _ _ Hp). eapply (kl_trans _ _ Hk k0 kc k); [done|done|done| |done]. by apply (kl_sym _ _ Hk).
    + apply Hne. eapply (eo_unique _ _ _ HE); [exact Hp|exact Hq|]. apply (kl_sym _ _ Hk); [by eapply (eo_valid _ _ _ HE)|done|done].
Qed.
End theorems.
End DynahashTheorems.
