(* ===== verification/DynahashExamples.v ===== *)
(** * DynahashExamples: concrete hash tables

    Tables that satisfy the hypotheses of the theorems, and two uses that the
    comments of dynahash.c and hsearch.h allow and the code does not serve. *)

From Stdlib Require Import ZArith Lia Bool Strings.Byte.
From stdpp Require Import base tactics numbers list gmap strings relations.
From S2P Require Import Prelude HashFn Dynahash DynahashChain DynahashInv DynahashKeys DynahashOps DynahashSearch DynahashCreate DynahashMap DynahashScan DynahashPartition DynahashTheorems.
Import Dynahash DynahashChain DynahashInv DynahashKeys DynahashOps DynahashSearch DynahashCreate DynahashMap DynahashScan DynahashPartition DynahashTheorems.

Local Open Scope Z_scope.
Local Open Scope pg_scope.

Module DynahashExamples.

Definition raw (p : Z) : HASHELEMENT Z := {| link := None; hashvalue := 0; elem_key := []; elem_data := 0 |}.

(** A process with no table yet. *)
Definition no_table : HTAB Z :=
  {| hctl := hdefault; dir := []; hash := tag_hash; match_ := memcmp; keycopy := memcpy; isshared := false; frozen := false;
     keysize := 0; heap := ∅; next_ptr := 0 |}.
Definition start : HashState Z := {| self := 1; tab := no_table; seq_scans := []; nest_level := 1; alloc_schedule := [] |}.

Definition keys_of (n : Z) : HASHCTL :=
  {| info_num_partitions := 16; info_keysize := n; info_entrysize := n + 8; info_hash := tag_hash; info_string_hash := false;
     info_match := memcmp; info_keycopy := memcpy |}.

Definition ops : list (hop (V := Z)) :=
  [HPut [x01; x02] 10; HPut [x03; x04] 20; HPut [x05; x06] 30; HPut [x01; x02; x07] 11; HGet [x01; x02]; HDel [x03; x04]; HGet [x03; x04]; HCount].

(** Every key is as long as it has to be. *)
Lemma blob_ops_ok (n : Z) flags (os : list (hop (V := Z))) :
  has flags HASH_BLOBS = true →
  forallb (λ o, match hop_key o with Some k => info_keysize (keys_of n) <=? Z.of_nat (length k) | None => true end) os = true →
  ∀ o k, o ∈ os → hop_key o = Some k → key_ok (keys_of n) flags k.
Proof.
  intros Hf Hall o k Ho Hk. rewrite forallb_forall in Hall. apply list_elem_of_In in Ho. specialize (Hall o Ho). rewrite Hk in Hall.
  unfold key_ok. rewrite Hf. by apply Z.leb_le.
Qed.

Definition local_flags : Z := HASH_BLOBS.
Definition shared_flags : Z := HASH_BLOBS + HASH_SHARED_MEM + HASH_PARTITION + HASH_FIXED_SIZE.

Lemma local_args : create_args 3 (keys_of 2) local_flags.
Proof. constructor; [lia|simpl; lia|by vm_compute|done]. Qed.
Lemma shared_args : create_args 3 (keys_of 2) shared_flags.
Proof. constructor; [lia|simpl; lia|simpl; lia|done]. Qed.

Lemma hash_table_refines_map_witness :
  create_args 3 (keys_of 2) local_flags ∧
  ∃ s', (hash_create raw 3 (keys_of 2) local_flags;; hops_run raw ops) start =
    (Ok [HFound false; HFound false; HFound false; HFound true; HValue (Some 11); HFound true; HValue None; HNumber 2], s').
Proof.
  split; [exact local_args|].
  assert ((hops_spec (stored_key (keys_of 2) local_flags) ops ∅).1 =
    [HFound false; HFound false; HFound false; HFound true; HValue (Some 11); HFound true; HValue None; HNumber 2]) as <- by (vm_compute; reflexivity).
  apply (hash_table_refines_map raw 3 (keys_of 2) local_flags ops start); [exact local_args|reflexivity|reflexivity| | |].
  - apply not_elem_of_nil.
  - apply blob_ops_ok; reflexivity.
  - vm_compute. reflexivity.
Defined.

(** A created table. *)
Definition made (n : Z) flags : HashState Z := (hash_create raw n (keys_of 2) flags start).2.
Lemma made_run n flags : (hash_create raw n (keys_of 2) flags start).1 = Ok tt → hash_create raw n (keys_of 2) flags start = (Ok tt, made n flags).
Proof. unfold made. destruct (hash_create raw n (keys_of 2) flags start). simpl. by intros ->. Qed.

Lemma shared_table_has_room_witness :
  hops_fit (stored_key (keys_of 2) shared_flags) (Some 3) ops ∅ = true ∧
  ∃ s', hops_run raw ops (with_schedule [false; false; false] (made 3 shared_flags)) =
    (Ok (hops_spec (stored_key (keys_of 2) shared_flags) ops ∅).1, s').
Proof.
  split; [vm_compute; reflexivity|].
  apply (shared_table_has_room raw 3 (keys_of 2) shared_flags ops start (made 3 shared_flags) [false; false; false]).
  - exact shared_args.
  - reflexivity.
  - reflexivity.
  - apply made_run. vm_compute. reflexivity.
  - apply blob_ops_ok; reflexivity.
  - vm_compute. reflexivity.
  - vm_compute. reflexivity.
Defined.

Lemma partitions_share_no_bucket_witness :
  info_num_partitions (keys_of 2) = 2 ^ 4 ∧ partitions_apart (tab (hops_run raw ops (made 3 shared_flags)).2).
Proof.
  split; [reflexivity|]. apply (partitions_share_no_bucket raw 3 (keys_of 2) shared_flags 4 ops start (made 3 shared_flags)).
  - exact shared_args.
  - reflexivity.
  - lia.
  - reflexivity.
  - apply made_run. vm_compute. reflexivity.
Defined.

Lemma table_stays_well_formed_witness :
  let s1 := made 3 local_flags in
  let s2 := (hash_search raw [x01; x02] HASH_ENTER_NULL s1).2 in
  nsteps (hstep raw (key_ok (keys_of 2) local_flags)) 1 s1 s2 ∧ ∃ E F, table_ok (key_ok (keys_of 2) local_flags) (tab s2) E F.
Proof.
  intros s1 s2. assert (nsteps (hstep raw (key_ok (keys_of 2) local_flags)) 1 s1 s2) as Hst.
  { apply nsteps_once, step_enter_null. unfold key_ok. simpl. lia. }
  split; [exact Hst|]. apply (table_stays_well_formed raw 3 (keys_of 2) local_flags 1 start s1 s2).
  - exact local_args.
  - reflexivity.
  - apply made_run. vm_compute. reflexivity.
  - exact Hst.
  - lia.
Defined.

(** A table with two entries. *)
Definition two : HashState Z := (hops_run raw [HPut [x01; x02] 10; HPut [x03; x04] 20] (made 3 local_flags)).2.

Lemma two_entries : ∃ E F p, table_ok (key_ok (keys_of 2) local_flags) (tab two) E F ∧ E !! p = Some ([x01; x02], 10) ∧ size E = 2%nat.
Proof.
  assert ((hash_create raw 3 (keys_of 2) local_flags start).1 = Ok tt) as H1 by (vm_compute; reflexivity).
  apply made_run in H1. destruct (hash_create_run raw 3 (keys_of 2) local_flags start local_args) as (r & s1 & E1 & Henv & Hr).
  rewrite H1 in E1. apply pair_equal_spec in E1 as [<- <-]. destruct Hr as [[_ [F Hcr]]|[(? & ? & ?) _]]; [|done].
  destruct (hops_simulate raw (key_ok (keys_of 2) local_flags) (stored_key (keys_of 2) local_flags) None
    [HPut [x01; x02] 10; HPut [x03; x04] 20] (made 3 local_flags) ∅) as (s2 & E2 & [_ _ _ (E & F' & Hok & Hmo & _)]).
  - eapply (created_is_map 3); [reflexivity|simpl; lia|exact Hcr|]. split; [reflexivity|]. intros Hin. apply (se_schedule _ _ Henv) in Hin.
    by apply not_elem_of_nil in Hin.
  - apply blob_ops_ok; reflexivity.
  - reflexivity.
  - vm_compute. reflexivity.
  - unfold two. rewrite E2. cbn [snd].
    set (A := (hops_spec (stored_key (keys_of 2) local_flags) [HPut [x01; x02] 10; HPut [x03; x04] 20] ∅).2) in *.
    assert (A !! [x01; x02] = Some 10) as HA by (vm_compute; reflexivity). destruct (mo_key _ _ _ Hmo _ _ HA) as [p Hp].
    exists E, F', p. split_and!; [done|done|]. rewrite (models_size _ E A Hmo). vm_compute. reflexivity.
Qed.

Lemma two_max : max_bucket (hctl (tab two)) + 1 < 2 ^ 32.
Proof. vm_compute. reflexivity. Qed.

Lemma enter_outcomes_witness :
  ∃ E F, table_ok (key_ok (keys_of 2) local_flags) (tab two) E F ∧
  ∃ r s', hash_search raw [x05; x06] HASH_ENTER two = (r, s') ∧ enters (key_ok (keys_of 2) local_flags) two E F [x05; x06] HASH_ENTER r (tab s').
Proof.
  destruct two_entries as (E & F & p & Hok & _). exists E, F. split; [exact Hok|].
  destruct (enter_outcomes raw (key_ok (keys_of 2) local_flags) E F [x05; x06] two HASH_ENTER (or_introl eq_refl) Hok) as (r & s' & H1 & _ & _ & _ & H2).
  - unfold key_ok. simpl. lia.
  - exact two_max.
  - exists r, s'. split; [exact H1|exact H2].
Defined.

Lemma scan_returns_every_entry_once_witness :
  ∃ E F, table_ok (key_ok (keys_of 2) local_flags) (tab two) E F ∧ size E = 2%nat ∧
  ∃ l s' F', (st ← hash_seq_init; scan_loop raw (S (size E)) (λ p, Z.even p) st) two = (Ok l, s') ∧
    NoDup l ∧ (∀ p, p ∈ l ↔ is_Some (E !! p)) ∧ seq_scans s' = seq_scans two ∧
    table_ok (key_ok (keys_of 2) local_flags) (tab s') (filter (λ '(p, _), Z.even p = false) E) F'.
Proof.
  destruct two_entries as (E & F & p & Hok & _ & Hsize). exists E, F. split; [exact Hok|]. split; [exact Hsize|].
  apply (scan_returns_every_entry_once raw (key_ok (keys_of 2) local_flags) (λ p, Z.even p) E F two Hok).
  - exact two_max.
  - right. vm_compute. reflexivity.
Defined.

Lemma rekey_moves_entry_witness :
  ∃ E F p, table_ok (key_ok (keys_of 2) local_flags) (tab two) E F ∧ E !! p = Some ([x01; x02], 10) ∧
  ∃ r s', hash_update_hash_key p [x05; x06] two = (Ok (bool_decide (r = None)), s') ∧ finds (tab two) E [x05; x06] r.
Proof.
  destruct two_entries as (E & F & p & Hok & Hp & _). exists E, F, p. split; [exact Hok|]. split; [exact Hp|].
  destruct (rekey_moves_entry raw (key_ok (keys_of 2) local_flags) E F p [x01; x02] 10 [x05; x06] two Hok Hp) as (r & s' & H1 & H2 & _).
  - unfold key_ok. simpl. lia.
  - vm_compute. reflexivity.
  - vm_compute. reflexivity.
  - exists r, s'. split; [exact H1|exact H2].
Defined.

(** ** Counts of a partitioned table *)

(** The partitioned table of above after its entry has got another key, with a hash
    value of another free list. *)
Definition rekeyed : result bool * HashState Z :=
  (hop_run raw (HPut [x01; x02] 10);; rekey raw [x01; x02] [x05; x06]) (made 3 shared_flags).

(** hash_update_hash_key says it is equivalent to removing the entry and making a
    new one, in another partition if the caller holds its lock; but the entry goes
    on counting for the free list of its old key.  The list of its new key counts
    no entry, where HASH_REMOVE of it asserts that there is one, and removing it
    makes the count negative.  The sum over the lists is right. *)
Theorem rekey_leaves_counts :
  let s := rekeyed.2 in
  let idx s k := FREELIST_IDX (hctl (tab s)) (hash (tab s) k (keysize (tab s))) in
  rekeyed.1 = Ok true ∧ (hash_search raw [x05; x06] HASH_FIND s).1 ≠ Ok (None, false) ∧
  nentries (get_freelist (idx s [x05; x06]) (hctl (tab s))) = 0 ∧
  nentries (get_freelist (idx s [x05; x06]) (hctl (tab (hash_search raw [x05; x06] HASH_REMOVE s).2))) = -1 ∧
  (hash_get_num_entries s).1 = Ok 1.
Proof. vm_compute. split_and!; try reflexivity. discriminate. Qed.

(** ** A local table of fixed size *)

(** HASH_FIXED_SIZE: the initial size is a hard limit.  For a table that is not
    shared, elements are preallocated only if they are fewer than one allocation
    would make; a larger table is fixed at no elements at all, and takes none of
    the entries it was made for. *)
Theorem fixed_local_table_takes_nothing :
  let run := hash_create raw 100 (keys_of 2) (HASH_BLOBS + HASH_FIXED_SIZE);; hop_run raw (HPut [x01; x02] 10) in
  alloc_schedule start = [] ∧ (run start).1 = Error ERRCODE_OUT_OF_MEMORY "out of memory".
Proof. vm_compute. split; reflexivity. Qed.
End DynahashExamples.
