(* ===== verification/RustStd.v ===== *)
(** * What the Rust crates use of their standard library

    Integers of Rust are [Z] in the range of their type, with checked,
    saturating and wrapping operations written out ([usize] has 64 bits, and
    arithmetic that overflows wraps, as in a release build); [BTreeSet] is a
    [gset] visited in order; [Vec::swap_remove], [Vec::resize] and the binary
    search of slices are list functions. *)

From Stdlib Require Import ZArith Lia.
From stdpp Require Import base tactics numbers list gmap sorting strings.
From S2P Require Import Prelude.

Local Open Scope Z_scope.

(** ** Integers *)

Definition U16_MAX : Z := 65535.
Definition U32_MAX : Z := 4294967295.
Definition USIZE_MAX : Z := 18446744073709551615.

Definition saturating_add (max a b : Z) : Z := Z.min max (a + b).
Definition saturating_sub (a b : Z) : Z := Z.max 0 (a - b).
Definition saturating_mul (max a b : Z) : Z := Z.min max (a * b).
Definition checked_add (max a b : Z) : option Z := if a + b <=? max then Some (a + b) else None.
Definition checked_mul (max a b : Z) : option Z := if a * b <=? max then Some (a * b) else None.
Definition checked_sub (a b : Z) : option Z := if b <=? a then Some (a - b) else None.

(** [T::try_from(x).ok()] of an unsigned [x]. *)
Definition try_from (max x : Z) : option Z := if x <=? max then Some x else None.

Definition next_multiple_of (a m : Z) : Z :=
  let r := a mod m in if r =? 0 then a else wrap64 (a + (m - r)).
Definition next_power_of_two (a : Z) : Z := wrap64 (2 ^ Z.log2_up a).
Definition div_ceil (a b : Z) : Z := (a + b - 1) / b.
Definition clamp (lo hi x : Z) : Z := Z.max lo (Z.min hi x).

Definition len {A} (l : list A) : Z := Z.of_nat (length l).

(** A panic ends the computation; it is an error of the monad like others. *)
Definition panic {A} (msg : string) : result A := Error ERRCODE_INTERNAL_ERROR msg.

Lemma len_nil {A} : len (@nil A) = 0.
Proof. done. Qed.
Lemma len_cons {A} (x : A) l : len (x :: l) = 1 + len l.
Proof. unfold len. simpl. lia. Qed.
Lemma len_app {A} (l k : list A) : len (l ++ k) = len l + len k.
Proof. unfold len. rewrite length_app. lia. Qed.
Lemma len_nonneg {A} (l : list A) : 0 <= len l.
Proof. unfold len. lia. Qed.
Lemma len_to_nat {A} (l : list A) : Z.to_nat (len l) = length l.
Proof. unfold len. lia. Qed.

Lemma next_multiple_of_spec a m : 0 <= a → 0 < m → a + m < 2 ^ 64 →
  let b := next_multiple_of a m in a <= b < a + m ∧ b mod m = 0.
Proof.
  intros Ha Hm Hb. cbv zeta. unfold next_multiple_of. pose proof (Z.mod_pos_bound a m Hm) as Hr.
  destruct (a mod m =? 0) eqn:E; [apply Z.eqb_eq in E; lia|]. apply Z.eqb_neq in E.
  rewrite wrap64_small by mlia. split; [lia|].
  replace (a + (m - a mod m)) with ((a / m + 1) * m); [apply Z.mod_mul; lia|].
  rewrite (Z.div_mod a m) at 2 by lia. ring.
Qed.

Lemma next_multiple_of_fix a m : a mod m = 0 → next_multiple_of a m = a.
Proof. intros E. unfold next_multiple_of. by rewrite E. Qed.

Lemma next_power_of_two_ge a : 0 <= a <= 2 ^ 63 → a <= next_power_of_two a < 2 ^ 64.
Proof.
  intros Ha. unfold next_power_of_two.
  assert (0 <= Z.log2_up a) by apply Z.log2_up_nonneg.
  assert (Z.log2_up a <= 63).
  { change 63 with (Z.log2_up (2 ^ 63)). apply Z.log2_up_le_mono. lia. }
  assert (2 ^ Z.log2_up a <= 2 ^ 63) by (apply Z.pow_le_mono_r; lia).
  assert (a <= 2 ^ Z.log2_up a).
  { destruct (decide (1 < a)); [apply Z.log2_up_spec; lia|].
    etrans; [|apply (Z.pow_le_mono_r 2 0); lia]. simpl. lia. }
  assert (0 < 2 ^ Z.log2_up a) by (apply Z.pow_pos_nonneg; lia).
  assert (2 ^ 63 < 2 ^ 64) by done.
  rewrite wrap64_small; [lia|]. split; lia.
Qed.

(** ** Vectors *)

(** [vec.swap_remove(i)]: the last element takes the place of the removed one. *)
Definition swap_remove {A} (i : nat) (l : list A) : list A :=
  match last l with
  | Some x => take (length l - 1) (<[i := x]> l)
  | None => l
  end.

(** [vec.resize(n, x)] when the vector is shorter than [n]. *)
Definition resize_to {A} (n : nat) (x : A) (l : list A) : list A :=
  if (length l <? n)%nat then l ++ replicate (n - length l) x else l.

Lemma resize_to_lookup {A} n (x : A) l i :
  resize_to n x l !! i = if decide (length l ≤ i < n)%nat then Some x else l !! i.
Proof.
  unfold resize_to. destruct (Nat.ltb_spec (length l) n).
  - case_decide as Hi.
    + rewrite lookup_app_r by lia. apply lookup_replicate_2. lia.
    + destruct (decide (i < length l)%nat); [by rewrite lookup_app_l|].
      rewrite !lookup_ge_None_2; [done|..]; rewrite ?length_app, ?length_replicate; lia.
  - rewrite decide_False by lia. done.
Qed.

Lemma resize_to_length {A} n (x : A) l : length (resize_to n x l) = Nat.max n (length l).
Proof.
  unfold resize_to. destruct (Nat.ltb_spec (length l) n); [|lia].
  rewrite length_app, length_replicate. lia.
Qed.

(** [bytes[start..start + len(src)].copy_from_slice(src)], in range. *)
Definition copy_into {A} (start : Z) (src l : list A) : list A :=
  take (Z.to_nat start) l ++ src ++ drop (Z.to_nat start + length src) l.

(** [slice.get(start..end)] *)
Definition slice_get {A} (l : list A) (start stop : Z) : option (list A) :=
  if (start <=? stop) && (stop <=? len l) then
    Some (take (Z.to_nat (stop - start)) (drop (Z.to_nat start) l))
  else None.

Lemma copy_into_length {A} start (src l : list A) :
  0 <= start → start + len src <= len l → length (copy_into start src l) = length l.
Proof.
  unfold len, copy_into. intros H0 H. rewrite !length_app, length_take, length_drop. lia.
Qed.

Lemma slice_get_copy_same {A} start (src l : list A) :
  0 <= start → start + len src <= len l →
  slice_get (copy_into start src l) start (start + len src) = Some src.
Proof.
  intros H0 H. unfold slice_get, len in *. rewrite copy_into_length by (unfold len; lia).
  rewrite !(proj2 (Z.leb_le _ _)) by lia. simpl. f_equal. unfold copy_into.
  rewrite drop_app_length' by (rewrite length_take; lia).
  rewrite take_app_length' by lia. done.
Qed.

Lemma slice_get_copy_before {A} start (src l : list A) i j :
  0 <= i → j <= start → start + len src <= len l →
  slice_get (copy_into start src l) i j = slice_get l i j.
Proof.
  intros Hi Hj H. unfold slice_get. pose proof (len_nonneg src).
  destruct (Z.leb_spec i j); simpl; [|done].
  assert (El : len (copy_into start src l) = len l) by (unfold len; rewrite copy_into_length; unfold len in *; lia).
  rewrite El. destruct (Z.leb_spec j (len l)); [|done]. simpl. f_equal. unfold copy_into.
  rewrite drop_app_le by (rewrite length_take; unfold len in *; lia).
  rewrite take_app_le by (rewrite length_drop, length_take; unfold len in *; lia).
  rewrite skipn_firstn_comm, take_take. f_equal. unfold len in *. lia.
Qed.

Lemma slice_get_copy_after {A} start (src l : list A) i j :
  0 <= start → start + len src <= i → start + len src <= len l →
  slice_get (copy_into start src l) i j = slice_get l i j.
Proof.
  intros Hs Hi H. unfold slice_get. pose proof (len_nonneg src).
  destruct (Z.leb_spec i j); simpl; [|done].
  assert (El : len (copy_into start src l) = len l) by (unfold len; rewrite copy_into_length; unfold len in *; lia).
  rewrite El. destruct (Z.leb_spec j (len l)); [|done]. simpl. f_equal. f_equal. unfold copy_into.
  unfold len in *. rewrite app_assoc, drop_app_ge by (rewrite length_app, length_take; lia).
  rewrite drop_drop, length_app, length_take. f_equal. lia.
Qed.

Lemma slice_get_length {A} (l : list A) i j s : slice_get l i j = Some s → 0 <= i → len s = j - i.
Proof.
  unfold slice_get. destruct (_ && _) eqn:E; [|done]. intros [= <-] Hi.
  apply andb_true_iff in E as [E1 E2]. apply Z.leb_le in E1, E2. unfold len in *.
  rewrite length_take, length_drop. lia.
Qed.

(** ** Ordered sets *)

(** [set.iter()] of a BTreeSet: its elements in order. *)
Definition btree_iter {A} (R : relation A) `{∀ x y, Decision (R x y)} `{Countable A} (s : gset A) : list A :=
  merge_sort R (elements s).

Section btree.
Context {A : Type} (R : relation A) `{∀ x y, Decision (R x y)} `{Countable A}.
Context `{!Transitive R, !Total R, !AntiSymm (=) R}.

Lemma btree_iter_elem (s : gset A) x : x ∈ btree_iter R s ↔ x ∈ s.
Proof. unfold btree_iter. by rewrite merge_sort_Permutation, elem_of_elements. Qed.

Lemma btree_iter_NoDup (s : gset A) : NoDup (btree_iter R s).
Proof. unfold btree_iter. rewrite merge_sort_Permutation. apply NoDup_elements. Qed.

Lemma btree_iter_sorted (s : gset A) : StronglySorted R (btree_iter R s).
Proof. apply StronglySorted_merge_sort; apply _. Qed.

Lemma btree_iter_empty : btree_iter R (∅ : gset A) = [].
Proof. unfold btree_iter. by rewrite elements_empty. Qed.

Lemma btree_iter_nil (s : gset A) : btree_iter R s = [] → s = ∅.
Proof.
  intros E. apply set_eq. intros x. rewrite <- btree_iter_elem, E. set_solver.
Qed.
End btree.

(** The first element of a sorted list that satisfies [f] is the least one. *)
Lemma find_sorted {A} (R : relation A) (f : A → bool) (l : list A) x :
  StronglySorted R l → List.find f l = Some x →
  x ∈ l ∧ f x = true ∧ ∀ y, y ∈ l → f y = true → y = x ∨ R x y.
Proof.
  induction 1 as [|a l Hs IH Hf]; simpl; [done|]. destruct (f a) eqn:E.
  - intros [= <-]. split; [left|]. split; [done|]. intros y [->|Hy]%elem_of_cons Hfy; [by left|].
    right. by eapply Forall_forall in Hf.
  - intros Hx. destruct (IH Hx) as (H1 & H2 & H3). split; [by right|]. split; [done|].
    intros y [->|Hy]%elem_of_cons Hfy; [congruence|by apply H3].
Qed.

Lemma find_none {A} (f : A → bool) (l : list A) : List.find f l = None → ∀ y, y ∈ l → f y = false.
Proof. intros E y Hy. apply (find_none f l E y). by apply list_elem_of_In. Qed.

Lemma find_elem {A} (f : A → bool) (l : list A) x : List.find f l = Some x → x ∈ l ∧ f x = true.
Proof. intros E. apply find_some in E as [Hi Hf]. split; [by apply list_elem_of_In|done]. Qed.

(** ** Binary search

    [slice.binary_search]: halve the range until one element is left, then
    compare with it.  [inl i] is [Ok(i)] and [inr i] is [Err(i)]. *)
Fixpoint binary_search_loop {A} (cmp : A → comparison) (fuel : nat) (l : list A) (base size : nat) : nat :=
  match fuel with
  | O => base
  | S fuel =>
    if (1 <? size)%nat then
      let half := (size / 2)%nat in
      let mid := (base + half)%nat in
      let base := match cmp <$> l !! mid with Some Gt => base | _ => mid end in
      binary_search_loop cmp fuel l base (size - half)
    else base
  end.

Definition binary_search {A} (cmp : A → comparison) (l : list A) : nat + nat :=
  match l with
  | [] => inr O
  | _ =>
    let base := binary_search_loop cmp (length l) l 0 (length l) in
    match cmp <$> l !! base with
    | Some Eq => inl base
    | Some Lt => inr (S base)
    | _ => inr base
    end
  end.
