(* ===== verification/EngTid.v ===== *)
(** * Row identifiers and scan positions of the second engine

    crates/fastpg-storage2/src/tid.rs and scan.rs: the identifier of a row
    ([Tid], ordered by block and offset, packed into 48 bits), the position of
    a scan and the high-water marks that a scan keeps per block. *)

From Stdlib Require Import ZArith Lia.
From stdpp Require Import base tactics numbers list gmap countable strings.
From S2P Require Import Prelude RustStd.

Local Open Scope Z_scope.

(** ** Identifiers *)

Record Tid := mkTid { tid_block : Z; tid_offset : Z }.

#[global] Instance Tid_eq_dec : EqDecision Tid.
Proof. solve_decision. Defined.
#[global] Instance Tid_countable : Countable Tid.
Proof.
  apply (inj_countable' (λ t, (tid_block t, tid_offset t)) (λ p, mkTid p.1 p.2)). by intros [].
Defined.

Definition tid_wf (t : Tid) : Prop := is_u32 (tid_block t) ∧ 0 <= tid_offset t < 2 ^ 16.

(** The derived order: block first. *)
Definition tid_compare (a b : Tid) : comparison :=
  match tid_block a ?= tid_block b with
  | Eq => tid_offset a ?= tid_offset b
  | c => c
  end.
Definition tid_le (a b : Tid) : Prop := tid_compare a b ≠ Gt.
Definition tid_ltb (a b : Tid) : bool := match tid_compare a b with Lt => true | _ => false end.
Definition tid_leb (a b : Tid) : bool := match tid_compare a b with Gt => false | _ => true end.
Definition tid_min (a b : Tid) : Tid := if tid_leb a b then a else b.
Definition tid_max (a b : Tid) : Tid := if tid_leb a b then b else a.

#[global] Instance tid_le_dec a b : Decision (tid_le a b).
Proof. unfold tid_le. apply _. Defined.

(** [set.iter()] of a [BTreeSet<Tid>]. *)
Definition tid_iter (s : gset Tid) : list Tid := btree_iter tid_le s.

Definition pack (t : Tid) : Z := Z.lor (Z.shiftl (tid_block t) 16) (tid_offset t).

Definition unpack (value : Z) : option Tid :=
  let offset := Z.land value 0xffff in
  if offset =? 0 then None
  else Some (mkTid (wrap32 (Z.shiftr value 16)) offset).

(** ** Positions of scans *)

Record ScanCursor := mkCursor { cur_block : Z; cur_offset : Z }.
#[global] Instance ScanCursor_eq_dec : EqDecision ScanCursor.
Proof. solve_decision. Defined.

Definition forward_start : ScanCursor := mkCursor 0 1.
Definition backward_start : ScanCursor := mkCursor U32_MAX U16_MAX.

Definition cursor_after (t : Tid) : ScanCursor :=
  match checked_add U16_MAX (tid_offset t) 1 with
  | Some offset => mkCursor (tid_block t) offset
  | None => mkCursor (saturating_add U32_MAX (tid_block t) 1) 1
  end.

Definition cursor_before (t : Tid) : ScanCursor :=
  if 1 <? tid_offset t then mkCursor (tid_block t) (tid_offset t - 1)
  else if tid_block t =? 0 then mkCursor 0 0
  else mkCursor (saturating_sub (tid_block t) 1) U16_MAX.

Definition before_cursor (c : ScanCursor) : ScanCursor :=
  if 1 <? cur_offset c then mkCursor (cur_block c) (cur_offset c - 1)
  else if cur_block c =? 0 then mkCursor 0 0
  else mkCursor (cur_block c - 1) U16_MAX.

Definition after_cursor (c : ScanCursor) : ScanCursor :=
  match checked_add U16_MAX (cur_offset c) 1 with
  | Some offset => mkCursor (cur_block c) offset
  | None => mkCursor (saturating_add U32_MAX (cur_block c) 1) 1
  end.

Record ScanState := {
  scan_relid : Z;
  high_water_offsets : list Z;
  forward_cursor : ScanCursor;
  backward_cursor : ScanCursor;
  forward_exhausted : bool;
  backward_exhausted : bool;
  scan_has_visibility_deltas : bool;
  overlay_only : bool;
  snapshot_curcid : option Z;
}.

Definition tid_beyond_high_water (t : Tid) (high_water : list Z) : bool :=
  match high_water !! Z.to_nat (tid_block t) with
  | None => true
  | Some max_offset => max_offset <? tid_offset t
  end.

(** The last block with a row, counted from the end: [iter().enumerate().rev().find()]. *)
Definition last_used_block (high_water : list Z) : option (Z * Z) :=
  List.find (λ bo, 0 <? bo.2) (reverse (imap (λ i o, (Z.of_nat i, o)) high_water)).

Definition scan_backward_end_tid (c : ScanCursor) (high_water : list Z) : option Tid :=
  if cur_block c =? U32_MAX then
    bo ← last_used_block high_water;
    block ← try_from U32_MAX bo.1;
    Some (mkTid block bo.2)
  else if (cur_offset c =? 0) || (len high_water <=? cur_block c) then None
  else Some (mkTid (cur_block c) (cur_offset c)).

(** ** The order *)

Lemma tid_compare_eq a b : tid_compare a b = Eq ↔ a = b.
Proof.
  destruct a as [b1 o1], b as [b2 o2]. unfold tid_compare. simpl. split.
  - destruct (Z.compare_spec b1 b2); [|done..]. intros Ho%Z.compare_eq. congruence.
  - intros [= -> ->]. by rewrite !Z.compare_refl.
Qed.

Lemma tid_leb_le a b : tid_leb a b = true ↔ tid_le a b.
Proof. unfold tid_leb, tid_le. by destruct (tid_compare a b). Qed.

Lemma tid_ltb_lt a b : tid_ltb a b = true ↔ tid_le a b ∧ a ≠ b.
Proof.
  unfold tid_ltb, tid_le. rewrite <- (tid_compare_eq a b). destruct (tid_compare a b); naive_solver.
Qed.

Lemma tid_le_alt a b :
  tid_le a b ↔ tid_block a < tid_block b ∨ tid_block a = tid_block b ∧ tid_offset a <= tid_offset b.
Proof.
  unfold tid_le, tid_compare. destruct (Z.compare_spec (tid_block a) (tid_block b)).
  - destruct (Z.compare_spec (tid_offset a) (tid_offset b)); split; intros; try done; try lia.
  - split; [|done]. intros. lia.
  - split; [done|]. intros. lia.
Qed.

Lemma tid_compare_lt a b : tid_compare a b = Lt ↔ tid_le a b ∧ a ≠ b.
Proof. rewrite <- tid_ltb_lt. unfold tid_ltb. destruct (tid_compare a b); naive_solver. Qed.

#[global] Instance tid_le_total : Total tid_le.
Proof. intros a b. rewrite !tid_le_alt. lia. Qed.
#[global] Instance tid_le_trans : Transitive tid_le.
Proof. intros a b c. rewrite !tid_le_alt. lia. Qed.
#[global] Instance tid_le_refl : Reflexive tid_le.
Proof. intros a. rewrite tid_le_alt. lia. Qed.
#[global] Instance tid_le_antisymm : AntiSymm (=) tid_le.
Proof. intros [] []. rewrite !tid_le_alt. simpl. intros. f_equal; lia. Qed.

Lemma tid_leb_false a b : tid_leb a b = false ↔ tid_le b a ∧ a ≠ b.
Proof.
  rewrite <- not_true_iff_false, tid_leb_le, !tid_le_alt. destruct a as [b1 o1], b as [b2 o2]. simpl. split.
  - intros H. split; [lia|]. intros [= -> ->]. lia.
  - intros [H Hne] H'. apply Hne. f_equal; lia.
Qed.

Lemma tid_ltb_false a b : tid_ltb a b = false ↔ tid_le b a.
Proof.
  rewrite <- not_true_iff_false, tid_ltb_lt, !tid_le_alt. destruct a as [b1 o1], b as [b2 o2]. simpl. split.
  - intros H. destruct (decide (b1 = b2 ∧ o1 = o2)) as [[-> ->]|Hne]; [lia|].
    apply dec_stable. intros H'. apply H. split; [lia|]. intros [= -> ->]. tauto.
  - intros H [H' Hne]. apply Hne. f_equal; lia.
Qed.

(** ** Packing *)

Lemma tid_pack_value t : tid_wf t → pack t = tid_block t * 2 ^ 16 + tid_offset t.
Proof.
  intros [Hb Ho]. unfold pack. rewrite Z.shiftl_mul_pow2 by lia.
  rewrite <- Z.add_lor_land.
  replace (Z.land (tid_block t * 2 ^ 16) (tid_offset t)) with 0; [lia|]. symmetry.
  apply Z.bits_inj'. intros n Hn. rewrite Z.land_spec, Z.bits_0. apply andb_false_iff.
  destruct (decide (n < 16)); [left; apply Z.mul_pow2_bits_low; lia|right].
  destruct (decide (tid_offset t = 0)) as [->|]; [apply Z.bits_0|].
  apply Z.bits_above_log2; [lia|]. apply Z.lt_le_trans with 16; [|lia]. apply Z.log2_lt_pow2; lia.
Qed.

Lemma tid_unpack_value v : 0 <= v →
  unpack v = if v mod 2 ^ 16 =? 0 then None else Some (mkTid (wrap32 (v / 2 ^ 16)) (v mod 2 ^ 16)).
Proof.
  intros Hv. unfold unpack. change 0xffff with (Z.ones 16).
  rewrite Z.land_ones, Z.shiftr_div_pow2 by lia. done.
Qed.

Lemma unpack_pack t : tid_wf t → tid_offset t ≠ 0 → unpack (pack t) = Some t.
Proof.
  intros Hw Hz. rewrite (tid_pack_value t Hw). destruct t as [b o]. destruct Hw as [Hb Ho]. simpl in *.
  unfold is_u32 in Hb. rewrite tid_unpack_value by lia.
  rewrite Z.add_comm, Z.mod_add, (Z.mod_small o) by lia. destruct (Z.eqb_spec o 0); [done|].
  do 2 f_equal. rewrite Z.div_add, (Z.div_small o) by lia. apply wrap32_small. done.
Qed.

(** Packing and unpacking are inverse on identifiers of rows and on the 48-bit
    numbers with a non-zero offset; the bits above are dropped. *)
Theorem tid_pack_roundtrip :
  (∀ t, tid_wf t → tid_offset t ≠ 0 → is_u64 (pack t) ∧ pack t < 2 ^ 48 ∧ unpack (pack t) = Some t) ∧
  (∀ v t, 0 <= v < 2 ^ 64 → unpack v = Some t → tid_wf t ∧ tid_offset t ≠ 0 ∧ pack t = v mod 2 ^ 48).
Proof.
  split.
  - intros t Hw Hz. split; [|split]; [..|by apply unpack_pack];
      rewrite (tid_pack_value t Hw); destruct Hw as [Hb Ho]; unfold is_u32, is_u64 in *; pow2;
      change (2 ^ 48) with 281474976710656; lia.
  - intros v t Hv Hu. rewrite tid_unpack_value in Hu by lia. destruct (Z.eqb_spec (v mod 2 ^ 16) 0); [done|].
    injection Hu as <-. assert (Hw : tid_wf (mkTid (wrap32 (v / 2 ^ 16)) (v mod 2 ^ 16))).
    { split; [apply wrap32_range|apply Z.mod_pos_bound; lia]. }
    split; [done|]. split; [done|]. rewrite (tid_pack_value _ Hw). simpl. unfold wrap32.
    change (2 ^ 48) with (2 ^ 16 * 2 ^ 32). rewrite Z.rem_mul_r by lia. lia.
Qed.

(** ** Cursors

    The forward position after a row lets through exactly the later rows, the
    backward position before a row exactly the earlier ones. *)

Definition cursor_tid (c : ScanCursor) : Tid := mkTid (cur_block c) (cur_offset c).

Lemma cursor_after_spec t t' :
  tid_wf t → tid_wf t' → 0 < tid_offset t' → tid_block t < U32_MAX →
  tid_le (cursor_tid (cursor_after t)) t' ↔ tid_le t t' ∧ t ≠ t'.
Proof.
  destruct t as [b o], t' as [b' o']. unfold cursor_after, checked_add, saturating_add, cursor_tid, tid_wf, U16_MAX, U32_MAX.
  simpl. intros [? ?] [? ?] Hz ?. rewrite !tid_le_alt. pow2. destruct (Z.leb_spec (o + 1) 65535); simpl; split.
  - intros Hc. split; [lia|]. intros [= -> ->]. lia.
  - intros [Hc Hne]. destruct (decide (b = b')) as [->|]; [|lia].
    destruct (decide (o = o')) as [->|]; [done|lia].
  - unfold is_u32 in *. pow2. intros Hc. split; [lia|]. intros [= -> ->]. lia.
  - unfold is_u32 in *. pow2. intros [Hc Hne]. destruct (decide (b = b')) as [->|]; [|lia].
    destruct (decide (o = o')) as [->|]; [done|lia].
Qed.
