(* ===== verification/EngTuple.v ===== *)
(** * The stored form of a row

    crates/fastpg-storage2/src/tuple.rs: a row given as arrays of values is
    written into a slice of bytes (a header, a bitmap of nulls, a directory
    with one entry per attribute and the by-reference values), and read back
    in three ways: decoded, copied into the caller's arrays, and compared in
    one attribute.  Pointers in the arrays are addresses of a memory given as
    an argument. *)

From Stdlib Require Import ZArith Lia.
From stdpp Require Import base tactics numbers list strings.
From S2P Require Import Prelude RustStd EngTid.

Local Open Scope Z_scope.

(** The byte order of the machine. *)
Class Target := { little_endian : bool }.

Definition TUPLE_MAGIC : list Z := [70; 80; 50; 84].
Definition TUPLE_HEADER_LEN : Z := 16.
Definition ATTR_ENTRY_LEN : Z := 24.
Definition DATUM_ALIGNMENT : Z := 8.

Definition invalid_ffi_argument {A} (msg : string) : result A := Error ERRCODE_INVALID_PARAMETER_VALUE msg.
Definition storage_limit_error {A} (msg : string) : result A := Error ERRCODE_PROGRAM_LIMIT_EXCEEDED msg.

Inductive DecodedDatum :=
| DNull
| DByValue (v : Z)
| DByRef (bytes : list Z).
#[global] Instance DecodedDatum_eq_dec : EqDecision DecodedDatum.
Proof. solve_decision. Defined.

Record DecodedTuple := { dt_tid : Tid; dt_values : list DecodedDatum }.

Record RowInput := {
  in_values : list Z;
  in_is_null : list Z;
  in_byval : list Z;
  in_value_lens : list Z;
}.

(** ** Integers as bytes in the order of the machine *)

Fixpoint le_bytes (n : nat) (v : Z) : list Z :=
  match n with
  | O => []
  | S n => v mod 256 :: le_bytes n (v / 256)
  end.
Fixpoint le_value (bs : list Z) : Z :=
  match bs with
  | [] => 0
  | b :: bs => b + 256 * le_value bs
  end.

Definition to_ne_bytes `{Target} (n : nat) (v : Z) : list Z :=
  if little_endian then le_bytes n v else reverse (le_bytes n v).
Definition from_ne_bytes `{Target} (bs : list Z) : Z :=
  le_value (if little_endian then bs else reverse bs).

(** A write to a part of a slice panics when the part is not inside it. *)
Definition write_slice (offset : Z) (src : list Z) : M (list Z) unit := λ bytes,
  if (0 <=? offset) && (offset + len src <=? len bytes) then (Ok tt, copy_into offset src bytes)
  else (panic "range end index out of range", bytes).

Definition write_u16 `{Target} (offset v : Z) : M (list Z) unit := write_slice offset (to_ne_bytes 2 v).
Definition write_u32 `{Target} (offset v : Z) : M (list Z) unit := write_slice offset (to_ne_bytes 4 v).
Definition write_u64 `{Target} (offset v : Z) : M (list Z) unit := write_slice offset (to_ne_bytes 8 v).

Definition read_u16 `{Target} (bytes : list Z) (offset : Z) : option Z :=
  from_ne_bytes <$> slice_get bytes offset (offset + 2).
Definition read_u32 `{Target} (bytes : list Z) (offset : Z) : option Z :=
  from_ne_bytes <$> slice_get bytes offset (offset + 4).
Definition read_u64 `{Target} (bytes : list Z) (offset : Z) : option Z :=
  from_ne_bytes <$> slice_get bytes offset (offset + 8).

Definition byte_at (bytes : list Z) (i : Z) : option Z := bytes !! Z.to_nat i.

(** ** Writing a row *)

(** Attribute [i] of the arrays; indexing panics out of range. *)
Record InAttr := { ia_value : Z; ia_null : Z; ia_byval : Z; ia_len : Z }.

Definition input_attr (input : RowInput) (i : nat) : result InAttr :=
  match in_values input !! i, in_is_null input !! i, in_byval input !! i, in_value_lens input !! i with
  | Some v, Some n, Some b, Some l => Ok {| ia_value := v; ia_null := n; ia_byval := b; ia_len := l |}
  | _, _, _, _ => panic "index out of bounds"
  end.

Definition validate_input (input : RowInput) : result unit :=
  if negb (len (in_values input) =? len (in_is_null input))
     || negb (len (in_values input) =? len (in_byval input))
     || negb (len (in_values input) =? len (in_value_lens input)) then
    invalid_ffi_argument "row input arrays have mismatched lengths"
  else Ok tt.

Fixpoint tuple_storage_len_loop (input : RowInput) (indices : list nat) (length : Z) : result Z :=
  match indices with
  | [] => Ok length
  | index :: indices =>
    a ← input_attr input index;
    if negb (ia_null a =? 0) || negb (ia_byval a =? 0) then tuple_storage_len_loop input indices length
    else
      let value_len := ia_len a in
      if (ia_value a =? 0) && (0 <? value_len) then
        invalid_ffi_argument "non-null by-reference value has null pointer"
      else
        match checked_add USIZE_MAX (next_multiple_of length DATUM_ALIGNMENT) value_len with
        | None => storage_limit_error "storage2 tuple is too large"
        | Some length => tuple_storage_len_loop input indices length
        end
  end.

(** [u16::try_from(x).map_err(..)] *)
Definition try_into (max x : Z) (msg : string) : result Z :=
  match try_from max x with Some y => Ok y | None => invalid_ffi_argument msg end.

Definition null_bitmap_len (natts : Z) : Z := div_ceil natts 8.
Definition attr_dir_offset (natts : Z) : Z := TUPLE_HEADER_LEN + null_bitmap_len natts.
Definition payload_offset (natts : Z) : Z :=
  next_multiple_of (saturating_add USIZE_MAX (attr_dir_offset natts)
                      (saturating_mul USIZE_MAX natts ATTR_ENTRY_LEN)) DATUM_ALIGNMENT.

Definition tuple_storage_len (input : RowInput) : result Z :=
  validate_input input;;
  let natts := len (in_values input) in
  try_into U16_MAX natts "row input has too many attributes for storage2 tuple";;
  try_into U16_MAX (null_bitmap_len natts) "null bitmap is too large";;
  try_into U32_MAX (attr_dir_offset natts) "attribute directory offset is too large";;
  try_into U32_MAX (payload_offset natts) "tuple payload offset is too large";;
  length ← tuple_storage_len_loop input (seq 0 (Z.to_nat natts)) (payload_offset natts);
  if U32_MAX <? length then storage_limit_error "storage2 tuple is too large"
  else Ok length.

(** [slice::from_raw_parts(addr, n)] *)
Definition read_memory (mem : Z → Z) (addr n : Z) : list Z := (λ k, mem (addr + k)) <$> seqZ 0 n.

(** [bytes[16 + index / 8] |= 1 << (index % 8)] *)
Definition set_null_bit (index : Z) : M (list Z) unit := λ bytes,
  let i := TUPLE_HEADER_LEN + index / 8 in
  match byte_at bytes i with
  | Some b => write_slice i [Z.lor b (Z.shiftl 1 (index mod 8))] bytes
  | None => (panic "index out of bounds", bytes)
  end.

Fixpoint write_attrs `{Target} (mem : Z → Z) (input : RowInput) (dir payload : Z) (indices : list nat)
    (payload_len : Z) : M (list Z) unit :=
  match indices with
  | [] => mret tt
  | i :: indices =>
    let index := Z.of_nat i in
    let entry := dir + index * ATTR_ENTRY_LEN in
    a ← lift (input_attr input i);
    if negb (ia_null a =? 0) then
      set_null_bit index;;
      write_slice entry [0];;
      write_attrs mem input dir payload indices payload_len
    else if negb (ia_byval a =? 0) then
      write_slice entry [1];;
      write_u64 (entry + 8) (ia_value a);;
      write_attrs mem input dir payload indices payload_len
    else
      let n := ia_len a in
      if (ia_value a =? 0) && (0 <? n) then
        lift (invalid_ffi_argument "non-null by-reference value has null pointer")
      else
        let source := if n =? 0 then [] else read_memory mem (ia_value a) n in
        let payload_len := next_multiple_of payload_len DATUM_ALIGNMENT in
        write_slice (payload + payload_len) source;;
        write_slice entry [2];;
        write_u64 (entry + 8) payload_len;;
        write_u64 (entry + 16) n;;
        write_attrs mem input dir payload indices (payload_len + n)
  end.

Definition write_tuple_to_slice_known_len `{Target} (mem : Z → Z) (input : RowInput) (expected_len : Z) :
    M (list Z) unit :=
  actual ← gets len;
  if negb (actual =? expected_len) then
    lift (invalid_ffi_argument "tuple output buffer has the wrong length")
  else
    modify (λ bytes, replicate (length bytes) 0);;
    let natts := len (in_values input) in
    write_slice 0 TUPLE_MAGIC;;
    n ← lift (try_into U16_MAX natts "row input has too many attributes for storage2 tuple");
    write_u16 4 n;;
    n ← lift (try_into U16_MAX (null_bitmap_len natts) "null bitmap is too large");
    write_u16 6 n;;
    n ← lift (try_into U32_MAX (attr_dir_offset natts) "attribute directory offset is too large");
    write_u32 8 n;;
    n ← lift (try_into U32_MAX (payload_offset natts) "tuple payload offset is too large");
    write_u32 12 n;;
    write_attrs mem input (attr_dir_offset natts) (payload_offset natts) (seq 0 (Z.to_nat natts)) 0.

(** ** Reading a row *)

Definition null_bit (byte index : Z) : bool := negb (Z.land byte (Z.shiftl 1 (index mod 8)) =? 0).

Fixpoint decode_attrs `{Target} (tuple : list Z) (dir payload : Z) (indices : list nat) :
    option (list DecodedDatum) :=
  match indices with
  | [] => Some []
  | i :: indices =>
    let index := Z.of_nat i in
    let null := match byte_at tuple (TUPLE_HEADER_LEN + index / 8) with
                | Some byte => null_bit byte index
                | None => false
                end in
    let entry := dir + index * ATTR_ENTRY_LEN in
    tag ← byte_at tuple entry;
    d ← (if null || (tag =? 0) then Some DNull
         else if tag =? 1 then DByValue <$> read_u64 tuple (entry + 8)
         else if tag =? 2 then
           offset ← read_u64 tuple (entry + 8);
           n ← read_u64 tuple (entry + 16);
           start ← checked_add USIZE_MAX payload offset;
           stop ← checked_add USIZE_MAX start n;
           DByRef <$> slice_get tuple start stop
         else None);
    ds ← decode_attrs tuple dir payload indices;
    Some (d :: ds)
  end.

Definition has_magic (tuple : list Z) : bool :=
  (TUPLE_HEADER_LEN <=? len tuple) && bool_decide (slice_get tuple 0 4 = Some TUPLE_MAGIC).

Definition decode_tuple `{Target} (tid : Tid) (tuple : list Z) : option DecodedTuple :=
  if negb (has_magic tuple) then None else
  natts ← read_u16 tuple 4;
  null_bitmap_len ← read_u16 tuple 6;
  dir ← read_u32 tuple 8;
  payload ← read_u32 tuple 12;
  if negb (dir =? TUPLE_HEADER_LEN + null_bitmap_len) then None else
  entries ← checked_mul USIZE_MAX natts ATTR_ENTRY_LEN;
  stop ← checked_add USIZE_MAX dir entries;
  if (payload <? dir) || (len tuple <? payload)
     || negb (payload =? next_multiple_of stop DATUM_ALIGNMENT) then None else
  values ← decode_attrs tuple dir payload (seq 0 (Z.to_nat natts));
  Some {| dt_tid := tid; dt_values := values |}.

(** Is attribute [attnum] of the row the by-value [value] (or null)?  The reads
    are through raw pointers: one outside the row would be undefined, which
    [inr tt] stands for. *)
Definition read_raw {A} (o : option A) : A + unit := match o with Some a => inl a | None => inr tt end.

Definition tuple_byval_attr_equals `{Target} (tuple : list Z) (attnum value is_null : Z) : option bool + unit :=
  if (attnum =? 0) || negb (has_magic tuple) then inl None else
  let index := attnum - 1 in
  match read_u16 tuple 4 with
  | None => inr tt
  | Some natts =>
    if natts <=? index then inl (Some (negb (is_null =? 0))) else
    let dir := attr_dir_offset natts in
    match (entries ← checked_mul USIZE_MAX natts ATTR_ENTRY_LEN; checked_add USIZE_MAX dir entries) with
    | None => inl None
    | Some stop =>
      if len tuple <? next_multiple_of stop DATUM_ALIGNMENT then inl None else
      match byte_at tuple (TUPLE_HEADER_LEN + index / 8) with
      | None => inr tt
      | Some byte =>
        let old_null := null_bit byte index in
        let new_null := negb (is_null =? 0) in
        if old_null || new_null then inl (Some (eqb old_null new_null)) else
        let entry := dir + index * ATTR_ENTRY_LEN in
        match checked_add USIZE_MAX entry ATTR_ENTRY_LEN with
        | None => inl None
        | Some stop =>
          if len tuple <? stop then inl None else
          match byte_at tuple entry with
          | None => inr tt
          | Some tag =>
            if negb (tag =? 1) then inl (Some false) else
            match read_u64 tuple (entry + 8) with
            | None => inr tt
            | Some old => inl (Some (old =? value))
            end
          end
        end
      end
    end
  end.

(** ** Copying a row into the caller's arrays

    [base] is the address of the row; a by-reference value is handed out as a
    pointer into it.  The result is what was written to the two arrays, and
    whether the function returned true. *)

Record Outputs := { out_values : list Z; out_is_null : list Z; out_ok : bool }.

Definition out_cons (v n : Z) (o : Outputs) : Outputs :=
  {| out_values := v :: out_values o; out_is_null := n :: out_is_null o; out_ok := out_ok o |}.

Fixpoint copy_attrs `{Target} (base : Z) (tuple : list Z) (dir payload : Z) (indices : list nat)
    (rest : Outputs) : Outputs + unit :=
  match indices with
  | [] => inl rest
  | i :: indices =>
    let index := Z.of_nat i in
    let entry := dir + index * ATTR_ENTRY_LEN in
    match byte_at tuple (TUPLE_HEADER_LEN + index / 8), byte_at tuple entry with
    | Some null_byte, Some tag =>
      let continue v n :=
        match copy_attrs base tuple dir payload indices rest with
        | inl o => inl (out_cons v n o)
        | inr u => inr u
        end in
      let fail := inl {| out_values := []; out_is_null := []; out_ok := false |} in
      if null_bit null_byte index || (tag =? 0) then continue 0 1
      else if tag =? 1 then
        match read_u64 tuple (entry + 8) with Some v => continue v 0 | None => inr tt end
      else if tag =? 2 then
        match read_u64 tuple (entry + 8), read_u64 tuple (entry + 16) with
        | Some offset, Some n =>
          match (start ← checked_add USIZE_MAX payload offset;
                 stop ← checked_add USIZE_MAX start n; Some (start, stop)) with
          | Some (start, stop) => if len tuple <? stop then fail else continue (base + start) 0
          | None => fail
          end
        | _, _ => inr tt
        end
      else fail
    | _, _ => inr tt
    end
  end.

Definition copy_tuple_to_outputs `{Target} (base : Z) (tuple : list Z) (outputs_null : bool) (natts : Z) :
    Outputs * option Z + unit :=
  let fail := {| out_values := []; out_is_null := []; out_ok := false |} in
  if negb (has_magic tuple) then inl (fail, None) else
  match read_u16 tuple 4 with
  | None => inr tt
  | Some tuple_natts =>
    if (0 <? natts) && outputs_null then inl (fail, None)
    else if len tuple <? payload_offset tuple_natts then inl (fail, None)
    else
      let output_natts := Z.min tuple_natts natts in
      let missing := Z.to_nat (natts - output_natts) in
      match copy_attrs base tuple (attr_dir_offset tuple_natts) (payload_offset tuple_natts)
              (seq 0 (Z.to_nat output_natts))
              {| out_values := replicate missing 0; out_is_null := replicate missing 1; out_ok := true |} with
      | inl o => inl (o, if out_ok o then Some tuple_natts else None)
      | inr u => inr u
      end
  end.

(** ** Lengths of by-reference values *)

Definition varlena_payload_range `{Target} (mem : Z → Z) (value : Z) : option (Z * Z) :=
  if value =? 0 then None else
  let tag := mem value in
  if negb (Z.land tag 1 =? 0) then
    if tag =? 1 then None
    else let n := Z.shiftr tag 1 in if 1 <=? n then Some (1, n - 1) else None
  else
    let raw := from_ne_bytes (read_memory mem value 4) in
    let n := if little_endian then Z.shiftr raw 2 else raw in
    if 4 <=? n then Some (4, n - 4) else None.

Definition varlena_payload_len `{Target} (mem : Z → Z) (value : Z) : option Z :=
  if value =? 0 then None else
  let tag := mem value in
  if negb (Z.land tag 1 =? 0) then
    if tag =? 1 then None
    else let n := Z.shiftr tag 1 in if 1 <=? n then Some n else None
  else
    let raw := from_ne_bytes (read_memory mem value 4) in
    let n := if little_endian then Z.shiftr raw 2 else raw in
    if 4 <=? n then Some n else None.

Definition varlena_payload_range_from_bytes `{Target} (bytes : list Z) : option (Z * Z) :=
  tag ← head bytes;
  if negb (Z.land tag 1 =? 0) then
    if tag =? 1 then None
    else let n := Z.shiftr tag 1 in if (1 <=? n) && (n <=? len bytes) then Some (1, n - 1) else None
  else
    header ← slice_get bytes 0 4;
    let raw := from_ne_bytes header in
    let n := if little_endian then Z.shiftr raw 2 else raw in
    if (4 <=? n) && (n <=? len bytes) then Some (4, n - 4) else None.

(** The C string at [value]; [fuel] bounds the bytes that are looked at. *)
Fixpoint c_string_payload_len_loop (mem : Z → Z) (fuel : nat) (value n : Z) : option Z :=
  match fuel with
  | O => None
  | S fuel =>
    if mem (value + n) =? 0 then checked_add USIZE_MAX n 1
    else n ← checked_add USIZE_MAX n 1; c_string_payload_len_loop mem fuel value n
  end.
Definition c_string_payload_len (mem : Z → Z) (fuel : nat) (value : Z) : option Z :=
  if value =? 0 then None else c_string_payload_len_loop mem fuel value 0.

Definition byref_len `{Target} (mem : Z → Z) (fuel : nat) (typlen value : Z) (fallback_len : option Z) : option Z :=
  if 0 <? typlen then Some typlen
  else
    let by_type := if typlen =? -1 then varlena_payload_len mem value
                   else if typlen =? -2 then c_string_payload_len mem fuel value
                   else None in
    match fallback_len with
    | Some n => if 0 <? n then Some n else by_type
    | None => by_type
    end.

(** The bytes of a by-reference key value given by address. *)
Definition byref_key_bytes `{Target} (mem : Z → Z) (fuel : nat) (typlen value : Z) (fallback_len : option Z) :
    option (list Z) :=
  if typlen =? -1 then
    range ← varlena_payload_range mem value;
    Some (read_memory mem (value + range.1) range.2)
  else
    n ← byref_len mem fuel typlen value fallback_len;
    if n =? 0 then Some []
    else if value =? 0 then None
    else Some (read_memory mem value n).

(** The same for a value in a stored row.  [varlena_payload_len] is applied to
    the address [value] of the bytes in memory; where there are less than four of
    them it reads what lies behind them. *)
Definition byref_len_from_bytes `{Target} (mem : Z → Z) (value : Z) (typlen : Z) (bytes : list Z) : option Z :=
  if 0 <? typlen then Some (Z.min typlen (len bytes))
  else if typlen =? -1 then
    n ← varlena_payload_len mem value;
    if n <=? len bytes then Some n else None
  else if typlen =? -2 then (λ found, Z.of_nat found.1 + 1) <$> list_find (λ b, b = 0) bytes
  else Some (len bytes).

(** The address is of no account here: a varlena is taken from the slice. *)
Definition byref_key_bytes_from_bytes `{Target} (typlen : Z) (bytes : list Z) : option (list Z) :=
  if typlen =? -1 then
    range ← varlena_payload_range_from_bytes bytes;
    slice_get bytes range.1 (range.1 + range.2)
  else
    n ← byref_len_from_bytes (λ _, 0) 0 typlen bytes;
    slice_get bytes 0 n.
