(* ===== verification/EngPage.v ===== *)
(** * Pages of rows

    crates/fastpg-storage2/src/page.rs: a page is a block of bytes into which
    rows are appended at multiples of eight, with a vector of line pointers
    that say where each row is, whether it is pending, live or dead, and which
    transactions made and deleted it. *)

From Stdlib Require Import ZArith Lia.
From stdpp Require Import base tactics numbers list strings.
From S2P Require Import Prelude RustStd EngTid EngTuple.

Local Open Scope Z_scope.

Definition PAGE_SIZE : Z := 8192.
Definition MAX_CTID_OFFSET : Z := 2047.

Inductive LinePointerState := LPending | LLive | LDead.
#[global] Instance LinePointerState_eq_dec : EqDecision LinePointerState.
Proof. solve_decision. Defined.

Record LinePointer := {
  lp_offset : Z;
  lp_len : Z;
  lp_state : LinePointerState;
  lp_xmin : Z;
  lp_cmin : Z;
  lp_xmax : Z;
}.

Record Page := {
  pg_block : Z;
  pg_epoch : Z;
  pg_generation : Z;
  pg_bytes : list Z;
  pg_used : Z;
  line_pointers : list LinePointer;
  pg_pending_bytes : Z;
  pg_live_bytes : Z;
  pg_dead_bytes : Z;
}.

Definition set_pg_bytes (v : list Z) (p : Page) : Page :=
  {| pg_block := pg_block p; pg_epoch := pg_epoch p; pg_generation := pg_generation p; pg_bytes := v;
     pg_used := pg_used p; line_pointers := line_pointers p; pg_pending_bytes := pg_pending_bytes p;
     pg_live_bytes := pg_live_bytes p; pg_dead_bytes := pg_dead_bytes p |}.
Definition set_pg_used (v : Z) (p : Page) : Page :=
  {| pg_block := pg_block p; pg_epoch := pg_epoch p; pg_generation := pg_generation p; pg_bytes := pg_bytes p;
     pg_used := v; line_pointers := line_pointers p; pg_pending_bytes := pg_pending_bytes p;
     pg_live_bytes := pg_live_bytes p; pg_dead_bytes := pg_dead_bytes p |}.
Definition set_line_pointers (v : list LinePointer) (p : Page) : Page :=
  {| pg_block := pg_block p; pg_epoch := pg_epoch p; pg_generation := pg_generation p; pg_bytes := pg_bytes p;
     pg_used := pg_used p; line_pointers := v; pg_pending_bytes := pg_pending_bytes p;
     pg_live_bytes := pg_live_bytes p; pg_dead_bytes := pg_dead_bytes p |}.
Definition set_pg_pending_bytes (v : Z) (p : Page) : Page :=
  {| pg_block := pg_block p; pg_epoch := pg_epoch p; pg_generation := pg_generation p; pg_bytes := pg_bytes p;
     pg_used := pg_used p; line_pointers := line_pointers p; pg_pending_bytes := v;
     pg_live_bytes := pg_live_bytes p; pg_dead_bytes := pg_dead_bytes p |}.
Definition set_pg_live_bytes (v : Z) (p : Page) : Page :=
  {| pg_block := pg_block p; pg_epoch := pg_epoch p; pg_generation := pg_generation p; pg_bytes := pg_bytes p;
     pg_used := pg_used p; line_pointers := line_pointers p; pg_pending_bytes := pg_pending_bytes p;
     pg_live_bytes := v; pg_dead_bytes := pg_dead_bytes p |}.
Definition set_pg_dead_bytes (v : Z) (p : Page) : Page :=
  {| pg_block := pg_block p; pg_epoch := pg_epoch p; pg_generation := pg_generation p; pg_bytes := pg_bytes p;
     pg_used := pg_used p; line_pointers := line_pointers p; pg_pending_bytes := pg_pending_bytes p;
     pg_live_bytes := pg_live_bytes p; pg_dead_bytes := v |}.

Definition set_lp_state (s : LinePointerState) (l : LinePointer) : LinePointer :=
  {| lp_offset := lp_offset l; lp_len := lp_len l; lp_state := s;
     lp_xmin := lp_xmin l; lp_cmin := lp_cmin l; lp_xmax := lp_xmax l |}.

Definition page_new (block epoch generation min_capacity : Z) : Page :=
  let capacity := Z.max PAGE_SIZE (next_power_of_two min_capacity) in
  {| pg_block := block; pg_epoch := epoch; pg_generation := generation;
     pg_bytes := replicate (Z.to_nat capacity) 0; pg_used := 0; line_pointers := [];
     pg_pending_bytes := 0; pg_live_bytes := 0; pg_dead_bytes := 0 |}.

Definition aligned_used (p : Page) : Z := next_multiple_of (pg_used p) DATUM_ALIGNMENT.
Definition remaining (p : Page) : Z := saturating_sub (len (pg_bytes p)) (aligned_used p).
Definition can_fit (p : Page) (tuple_len : Z) : bool :=
  (tuple_len <=? remaining p) && (len (line_pointers p) <? MAX_CTID_OFFSET).

(** The statistics of a page, by the state of a row. *)
Definition state_bytes (s : LinePointerState) (p : Page) : Z :=
  match s with LPending => pg_pending_bytes p | LLive => pg_live_bytes p | LDead => pg_dead_bytes p end.
Definition set_state_bytes (s : LinePointerState) (v : Z) (p : Page) : Page :=
  match s with
  | LPending => set_pg_pending_bytes v p
  | LLive => set_pg_live_bytes v p
  | LDead => set_pg_dead_bytes v p
  end.
Definition add_state_bytes (s : LinePointerState) (n : Z) (p : Page) : Page :=
  set_state_bytes s (saturating_add USIZE_MAX (state_bytes s p) n) p.
Definition sub_state_bytes (s : LinePointerState) (n : Z) (p : Page) : Page :=
  set_state_bytes s (saturating_sub (state_bytes s p) n) p.

Definition new_line (offset length : Z) (s : LinePointerState) : LinePointer :=
  {| lp_offset := offset; lp_len := length; lp_state := s; lp_xmin := 0; lp_cmin := 0; lp_xmax := 0 |}.

(** The identifier of the row just pushed. *)
Definition last_tid (p : Page) : option Tid :=
  offset ← try_from U16_MAX (len (line_pointers p)); Some (mkTid (pg_block p) offset).

Definition append_tuple_with_state (tuple : list Z) (s : LinePointerState) (p : Page) : option Tid * Page :=
  if (remaining p <? len tuple) || (MAX_CTID_OFFSET <=? len (line_pointers p)) then (None, p) else
  let offset := aligned_used p in
  match checked_add USIZE_MAX offset (len tuple) with
  | None => (None, p)
  | Some stop =>
    if len (pg_bytes p) <? stop then (None, p) else
    let p := set_pg_used stop (set_pg_bytes (copy_into offset tuple (pg_bytes p)) p) in
    match try_from U32_MAX offset, try_from U32_MAX (len tuple) with
    | Some offset, Some length =>
      let p := set_line_pointers (line_pointers p ++ [new_line offset length s]) p in
      let p := add_state_bytes s (len tuple) p in
      (last_tid p, p)
    | _, _ => (None, p)
    end
  end.

Definition append_input_tuple_with_state `{Target} (mem : Z → Z) (input : RowInput) (tuple_len : Z)
    (s : LinePointerState) : M Page (option Tid) := λ p,
  if (remaining p <? tuple_len) || (MAX_CTID_OFFSET <=? len (line_pointers p)) then (Ok None, p) else
  let offset := aligned_used p in
  match checked_add USIZE_MAX offset tuple_len with
  | None => (Ok None, p)
  | Some stop =>
    if len (pg_bytes p) <? stop then (Ok None, p) else
    let slice := take (Z.to_nat tuple_len) (drop (Z.to_nat offset) (pg_bytes p)) in
    let '(written, slice) := write_tuple_to_slice_known_len mem input tuple_len slice in
    let p := set_pg_bytes (copy_into offset slice (pg_bytes p)) p in
    match written with
    | Error c m => (Error c m, p)
    | Ok _ =>
      let p := set_pg_used stop p in
      match try_from U32_MAX offset with
      | None => (storage_limit_error "storage2 tuple offset is too large", p)
      | Some offset =>
        match try_from U32_MAX tuple_len with
        | None => (storage_limit_error "storage2 tuple is too large", p)
        | Some length =>
          let p := set_line_pointers (line_pointers p ++ [new_line offset length s]) p in
          let p := add_state_bytes s tuple_len p in
          match last_tid p with
          | Some tid => (Ok (Some tid), p)
          | None => (storage_limit_error "storage2 tuple offset is too large", p)
          end
        end
      end
    end
  end.

(** [line_pointers.get(offset.checked_sub(1)?)] *)
Definition page_line (p : Page) (offset : Z) : option LinePointer :=
  index ← checked_sub offset 1; line_pointers p !! Z.to_nat index.

Definition line_bytes (p : Page) (line : LinePointer) : option (list Z) :=
  stop ← checked_add USIZE_MAX (lp_offset line) (lp_len line);
  slice_get (pg_bytes p) (lp_offset line) stop.

Definition page_tuple_slice (p : Page) (offset : Z) (include_pending : bool) : option (list Z) :=
  line ← page_line p offset;
  match lp_state line with
  | LDead => None
  | LPending => if include_pending then line_bytes p line else None
  | LLive => line_bytes p line
  end.

Definition page_tuple_slice_any (p : Page) (offset : Z) : option (list Z) :=
  line ← page_line p offset; line_bytes p line.

(** Change line [offset] in place. *)
Definition update_line (offset : Z) (f : LinePointer → LinePointer) (p : Page) : Page :=
  set_line_pointers (alter f (Z.to_nat (offset - 1)) (line_pointers p)) p.

Definition page_mark_dead (offset : Z) (p : Page) : bool * Page :=
  match page_line p offset with
  | None => (false, p)
  | Some line =>
    match lp_state line with
    | LDead => (false, p)
    | previous =>
      let n := lp_len line in
      let p := update_line offset (set_lp_state LDead) p in
      let p := sub_state_bytes previous n p in
      (true, add_state_bytes LDead n p)
    end
  end.

Definition page_mark_live (offset : Z) (p : Page) : bool * Page :=
  match page_line p offset with
  | None => (false, p)
  | Some line =>
    match lp_state line with
    | LPending =>
      let n := lp_len line in
      let p := update_line offset (set_lp_state LLive) p in
      let p := sub_state_bytes LPending n p in
      (true, add_state_bytes LLive n p)
    | _ => (false, p)
    end
  end.

(** ** Checkpoints *)

Record PageCheckpoint := {
  pc_used : Z;
  pc_line_count : Z;
  pc_line_states : list LinePointerState;
  pc_pending_bytes : Z;
  pc_live_bytes : Z;
  pc_dead_bytes : Z;
}.

Definition page_checkpoint (p : Page) : PageCheckpoint :=
  {| pc_used := pg_used p; pc_line_count := len (line_pointers p); pc_line_states := [];
     pc_pending_bytes := pg_pending_bytes p; pc_live_bytes := pg_live_bytes p;
     pc_dead_bytes := pg_dead_bytes p |}.

Definition recompute_tuple_bytes (p : Page) : Page :=
  foldl (λ p line, add_state_bytes (lp_state line) (lp_len line) p)
    (set_pg_pending_bytes 0 (set_pg_live_bytes 0 (set_pg_dead_bytes 0 p))) (line_pointers p).

(** [lines.iter_mut().take(n).zip(states)]: the states are those of the first lines. *)
Fixpoint assign_states (states : list LinePointerState) (lines : list LinePointer) : list LinePointer :=
  match states, lines with
  | s :: states, l :: lines => set_lp_state s l :: assign_states states lines
  | _, _ => lines
  end.

Definition restore_to_preserving_tid_space (c : PageCheckpoint) (p : Page) : Page :=
  let count := Z.to_nat (Z.min (pc_line_count c) (len (line_pointers p))) in
  let kept := take count (line_pointers p) in
  let later := drop count (line_pointers p) in
  let kept := match pc_line_states c with [] => kept | states => assign_states states kept end in
  recompute_tuple_bytes (set_line_pointers (kept ++ (set_lp_state LDead <$> later)) p).

Definition mark_all_dead (p : Page) : Page :=
  recompute_tuple_bytes (set_line_pointers (set_lp_state LDead <$> line_pointers p) p).
