(* ===== verification/EngIndex.v ===== *)
(** * Keys of unique indexes

    crates/fastpg-storage2/src/index.rs: the description of a unique index and
    the key of a row under it, computed from the caller's arrays, from a
    stored row or from the arguments of a lookup.  The catalog crate is the
    class [Catalog]. *)

From Stdlib Require Import ZArith Lia.
From stdpp Require Import base tactics numbers list gmap countable strings.
From S2P Require Import Prelude RustStd EngTid EngTuple.

Local Open Scope Z_scope.

Inductive IndexKeyPart :=
| KNull
| KByValue (v : Z)
| KBytes (bytes : list Z).
#[global] Instance IndexKeyPart_eq_dec : EqDecision IndexKeyPart.
Proof. solve_decision. Defined.
#[global] Instance IndexKeyPart_countable : Countable IndexKeyPart.
Proof.
  apply (inj_countable'
    (λ k, match k with KNull => inl (inl tt) | KByValue v => inl (inr v) | KBytes b => inr b end)
    (λ s, match s with inl (inl _) => KNull | inl (inr v) => KByValue v | inr b => KBytes b end)).
  by intros [].
Defined.

Inductive IndexKey :=
| KSingle (part : IndexKeyPart)
| KParts (parts : list IndexKeyPart).
#[global] Instance IndexKey_eq_dec : EqDecision IndexKey.
Proof. solve_decision. Defined.
#[global] Instance IndexKey_countable : Countable IndexKey.
Proof.
  apply (inj_countable'
    (λ k, match k with KSingle p => inl p | KParts ps => inr ps end)
    (λ s, match s with inl p => KSingle p | inr ps => KParts ps end)).
  by intros [].
Defined.

Definition key_of_parts (parts : list IndexKeyPart) : IndexKey :=
  match parts with [part] => KSingle part | _ => KParts parts end.

Record IndexColumnSpec := {
  column_index : Z;
  column_type_oid : Z;
  column_typbyval : bool;
  column_typlen : Z;
}.

Record UniqueIndexSpec := {
  index_oid : Z;
  relation_oid : Z;
  is_primary : bool;
  nulls_not_distinct : bool;
  columns : list IndexColumnSpec;
}.

(** What the catalog crate knows of an index. *)
Record IndexRecord := {
  ir_index_oid : Z;
  ir_relation_oid : Z;
  ir_key_attnums : list Z;
  ir_is_unique : bool;
  ir_is_primary : bool;
  ir_nulls_not_distinct : bool;
  ir_is_valid : bool;
  ir_is_ready : bool;
  ir_is_live : bool;
}.

Class Catalog := {
  unique_index_records_for_relation_oid : Z → list IndexRecord;
  relation_column_type : Z → Z → option Z;
  lookup_type : Z → option (bool * Z);
  primary_key_index_oid_for_relation_oid : Z → option Z;
  relation_oid_for_index_oid : Z → option Z;
}.

Definition BPCHAR_OID : Z := 1042.

Section specs.
Context `{Catalog}.

Fixpoint index_columns (relation : Z) (attnums : list Z) : option (list IndexColumnSpec) :=
  match attnums with
  | [] => Some []
  | attnum :: attnums =>
    if attnum <=? 0 then None else
    type_oid ← relation_column_type relation attnum;
    pg_type ← lookup_type type_oid;
    rest ← index_columns relation attnums;
    Some ({| column_index := attnum - 1; column_type_oid := type_oid;
             column_typbyval := pg_type.1; column_typlen := pg_type.2 |} :: rest)
  end.

Definition unique_index_spec_for_record (record : IndexRecord) : option UniqueIndexSpec :=
  if negb (ir_is_unique record) || negb (ir_is_valid record) || negb (ir_is_ready record)
     || negb (ir_is_live record) then None else
  columns ← index_columns (ir_relation_oid record) (ir_key_attnums record);
  match columns with
  | [] => None
  | _ => Some {| index_oid := ir_index_oid record; relation_oid := ir_relation_oid record;
                 is_primary := ir_is_primary record; nulls_not_distinct := ir_nulls_not_distinct record;
                 columns := columns |}
  end.

(** The three lookups, without the cache in front of them. *)
Definition unique_index_specs_for_relation_oid (relation : Z) : list UniqueIndexSpec :=
  omap unique_index_spec_for_record (unique_index_records_for_relation_oid relation).

Definition primary_index_spec_for_index_oid (index : Z) : option UniqueIndexSpec :=
  relid ← relation_oid_for_index_oid index;
  primary ← primary_key_index_oid_for_relation_oid relid;
  if primary =? index then
    List.find (λ spec, (index_oid spec =? index) && is_primary spec) (unique_index_specs_for_relation_oid relid)
  else None.

Definition primary_index_spec_for_relation_oid (relation : Z) : option UniqueIndexSpec :=
  primary_key_index_oid_for_relation_oid relation ≫= primary_index_spec_for_index_oid.
End specs.

(** ** Keys *)

(** [while bytes.last() == Some(&b' ') { bytes.pop(); }] *)
Definition trim_blanks (bytes : list Z) : list Z :=
  reverse ((fix go (l : list Z) := match l with
            | b :: l' => if b =? 32 then go l' else l
            | [] => []
            end) (reverse bytes)).
Definition canonical_key_bytes (column : IndexColumnSpec) (bytes : list Z) : list Z :=
  if column_type_oid column =? BPCHAR_OID then trim_blanks bytes else bytes.

Definition null_part (spec : UniqueIndexSpec) : option IndexKeyPart :=
  if nulls_not_distinct spec then Some KNull else None.

Definition index_key_part_for_input `{Target} (mem : Z → Z) (fuel : nat) (spec : UniqueIndexSpec)
    (column : IndexColumnSpec) (input : RowInput) : option IndexKeyPart :=
  let index := Z.to_nat (column_index column) in
  is_null ← in_is_null input !! index;
  if negb (is_null =? 0) then null_part spec else
  byval ← (if column_typbyval column then Some 1 else in_byval input !! index);
  value ← in_values input !! index;
  if negb (byval =? 0) then Some (KByValue value) else
  value_len ← in_value_lens input !! index;
  bytes ← byref_key_bytes mem fuel (column_typlen column) value (Some value_len);
  Some (KBytes (canonical_key_bytes column bytes)).

Definition index_key_part_for_decoded `{Target} (spec : UniqueIndexSpec) (column : IndexColumnSpec)
    (values : list DecodedDatum) : option IndexKeyPart :=
  datum ← values !! Z.to_nat (column_index column);
  match datum with
  | DNull => null_part spec
  | DByValue value => Some (KByValue value)
  | DByRef bytes =>
    if column_typbyval column then None
    else bytes ← byref_key_bytes_from_bytes (column_typlen column) bytes;
         Some (KBytes (canonical_key_bytes column bytes))
  end.

Definition index_key_part_for_key_datum `{Target} (mem : Z → Z) (fuel : nat) (spec : UniqueIndexSpec)
    (column : IndexColumnSpec) (value is_null : Z) : option IndexKeyPart :=
  if negb (is_null =? 0) then null_part spec
  else if column_typbyval column then Some (KByValue value)
  else bytes ← byref_key_bytes mem fuel (column_typlen column) value None;
       Some (KBytes (canonical_key_bytes column bytes)).

Definition index_key_for_input `{Target} (mem : Z → Z) (fuel : nat) (spec : UniqueIndexSpec) (input : RowInput) :
    option IndexKey :=
  match columns spec with
  | [column] => KSingle <$> index_key_part_for_input mem fuel spec column input
  | columns => key_of_parts <$> mapM (λ column, index_key_part_for_input mem fuel spec column input) columns
  end.

Definition index_key_for_decoded `{Target} (spec : UniqueIndexSpec) (values : list DecodedDatum) : option IndexKey :=
  match columns spec with
  | [column] => KSingle <$> index_key_part_for_decoded spec column values
  | columns => key_of_parts <$> mapM (λ column, index_key_part_for_decoded spec column values) columns
  end.

Definition index_key_for_key_datums `{Target} (mem : Z → Z) (fuel : nat) (spec : UniqueIndexSpec)
    (values is_null : list Z) : option IndexKey :=
  if negb (len values =? len (columns spec)) || negb (len values =? len is_null) then None else
  match columns spec, values, is_null with
  | [column], value :: _, null :: _ => KSingle <$> index_key_part_for_key_datum mem fuel spec column value null
  | columns, _, _ =>
    key_of_parts <$>
      mapM (λ cvn, index_key_part_for_key_datum mem fuel spec cvn.1 cvn.2.1 cvn.2.2)
        (zip columns (zip values is_null))
  end.
