(* ===== verification/EngRelation.v ===== *)
(** * Storage of a relation

    crates/fastpg-storage2/src/relation.rs: the pages of a relation with what
    is kept about them: the live rows in order, the blocks that take further
    rows, statistics, redirects from old to new versions of rows, and the
    entries of indexes.  Rust's [BTreeSet] and [HashMap] are finite sets and
    maps. *)

From Stdlib Require Import ZArith Lia.
From stdpp Require Import base tactics numbers list gmap strings.
From S2P Require Import Prelude RustStd EngTid EngTuple EngPage EngIndex.

Local Open Scope Z_scope.

Record RelationStorage := {
  pages : list (option Page);
  physical_blocks : gset Z;
  primary_key_index : gmap IndexKey Tid;
  indexes : gmap Z (gmap IndexKey (list Tid));
  hot_redirects : gmap Tid Tid;
  hot_redirect_roots : gset Tid;
  hot_redirect_targets : gset Tid;
  hot_redirect_target_roots : gmap Tid Tid;
  update_redirects : gmap Tid Tid;
  row_delete_xids : gmap Tid Z;
  row_delete_cids : gmap Tid Z;
  live_tids : gset Tid;
  pending_reserved_tids : gset Tid;
  pending_reserved_blocks : gset Z;
  appendable_blocks : gset Z;
  next_block : Z;
  append_hint : option Z;
  live_tuple_count : Z;
  pending_tuple_count : Z;
  dead_tuple_count : Z;
  live_tuple_bytes : Z;
  pending_tuple_bytes : Z;
  dead_tuple_bytes : Z;
  max_tuples_per_block : option Z;
}.

Definition relation_default : RelationStorage :=
  {| pages := []; physical_blocks := ∅; primary_key_index := ∅; indexes := ∅; hot_redirects := ∅;
     hot_redirect_roots := ∅; hot_redirect_targets := ∅; hot_redirect_target_roots := ∅; update_redirects
     := ∅; row_delete_xids := ∅; row_delete_cids := ∅; live_tids := ∅; pending_reserved_tids := ∅;
     pending_reserved_blocks := ∅; appendable_blocks := ∅; next_block := 0; append_hint := None;
     live_tuple_count := 0; pending_tuple_count := 0; dead_tuple_count := 0; live_tuple_bytes := 0;
     pending_tuple_bytes := 0; dead_tuple_bytes := 0; max_tuples_per_block := None |}.

Definition set_pages (v : list (option Page)) (r : RelationStorage) : RelationStorage :=
  {| pages := v; physical_blocks := physical_blocks r; primary_key_index := primary_key_index r;
     indexes := indexes r; hot_redirects := hot_redirects r; hot_redirect_roots := hot_redirect_roots r;
     hot_redirect_targets := hot_redirect_targets r; hot_redirect_target_roots := hot_redirect_target_roots r;
     update_redirects := update_redirects r; row_delete_xids := row_delete_xids r;
     row_delete_cids := row_delete_cids r; live_tids := live_tids r;
     pending_reserved_tids := pending_reserved_tids r; pending_reserved_blocks := pending_reserved_blocks r;
     appendable_blocks := appendable_blocks r; next_block := next_block r; append_hint := append_hint r;
     live_tuple_count := live_tuple_count r; pending_tuple_count := pending_tuple_count r;
     dead_tuple_count := dead_tuple_count r; live_tuple_bytes := live_tuple_bytes r;
     pending_tuple_bytes := pending_tuple_bytes r; dead_tuple_bytes := dead_tuple_bytes r;
     max_tuples_per_block := max_tuples_per_block r |}.
Definition set_physical_blocks (v : gset Z) (r : RelationStorage) : RelationStorage :=
  {| pages := pages r; physical_blocks := v; primary_key_index := primary_key_index r; indexes := indexes r;
     hot_redirects := hot_redirects r; hot_redirect_roots := hot_redirect_roots r;
     hot_redirect_targets := hot_redirect_targets r; hot_redirect_target_roots := hot_redirect_target_roots r;
     update_redirects := update_redirects r; row_delete_xids := row_delete_xids r;
     row_delete_cids := row_delete_cids r; live_tids := live_tids r;
     pending_reserved_tids := pending_reserved_tids r; pending_reserved_blocks := pending_reserved_blocks r;
     appendable_blocks := appendable_blocks r; next_block := next_block r; append_hint := append_hint r;
     live_tuple_count := live_tuple_count r; pending_tuple_count := pending_tuple_count r;
     dead_tuple_count := dead_tuple_count r; live_tuple_bytes := live_tuple_bytes r;
     pending_tuple_bytes := pending_tuple_bytes r; dead_tuple_bytes := dead_tuple_bytes r;
     max_tuples_per_block := max_tuples_per_block r |}.
Definition set_primary_key_index (v : gmap IndexKey Tid) (r : RelationStorage) : RelationStorage :=
  {| pages := pages r; physical_blocks := physical_blocks r; primary_key_index := v; indexes := indexes r;
     hot_redirects := hot_redirects r; hot_redirect_roots := hot_redirect_roots r;
     hot_redirect_targets := hot_redirect_targets r; hot_redirect_target_roots := hot_redirect_target_roots r;
     update_redirects := update_redirects r; row_delete_xids := row_delete_xids r;
     row_delete_cids := row_delete_cids r; live_tids := live_tids r;
     pending_reserved_tids := pending_reserved_tids r; pending_reserved_blocks := pending_reserved_blocks r;
     appendable_blocks := appendable_blocks r; next_block := next_block r; append_hint := append_hint r;
     live_tuple_count := live_tuple_count r; pending_tuple_count := pending_tuple_count r;
     dead_tuple_count := dead_tuple_count r; live_tuple_bytes := live_tuple_bytes r;
     pending_tuple_bytes := pending_tuple_bytes r; dead_tuple_bytes := dead_tuple_bytes r;
     max_tuples_per_block := max_tuples_per_block r |}.
Definition set_indexes (v : gmap Z (gmap IndexKey (list Tid))) (r : RelationStorage) : RelationStorage :=
  {| pages := pages r; physical_blocks := physical_blocks r; primary_key_index := primary_key_index r;
     indexes := v; hot_redirects := hot_redirects r; hot_redirect_roots := hot_redirect_roots r;
     hot_redirect_targets := hot_redirect_targets r; hot_redirect_target_roots := hot_redirect_target_roots r;
     update_redirects := update_redirects r; row_delete_xids := row_delete_xids r;
     row_delete_cids := row_delete_cids r; live_tids := live_tids r;
     pending_reserved_tids := pending_reserved_tids r; pending_reserved_blocks := pending_reserved_blocks r;
     appendable_blocks := appendable_blocks r; next_block := next_block r; append_hint := append_hint r;
     live_tuple_count := live_tuple_count r; pending_tuple_count := pending_tuple_count r;
     dead_tuple_count := dead_tuple_count r; live_tuple_bytes := live_tuple_bytes r;
     pending_tuple_bytes := pending_tuple_bytes r; dead_tuple_bytes := dead_tuple_bytes r;
     max_tuples_per_block := max_tuples_per_block r |}.
Definition set_hot_redirects (v : gmap Tid Tid) (r : RelationStorage) : RelationStorage :=
  {| pages := pages r; physical_blocks := physical_blocks r; primary_key_index := primary_key_index r;
     indexes := indexes r; hot_redirects := v; hot_redirect_roots := hot_redirect_roots r;
     hot_redirect_targets := hot_redirect_targets r; hot_redirect_target_roots := hot_redirect_target_roots r;
     update_redirects := update_redirects r; row_delete_xids := row_delete_xids r;
     row_delete_cids := row_delete_cids r; live_tids := live_tids r;
     pending_reserved_tids := pending_reserved_tids r; pending_reserved_blocks := pending_reserved_blocks r;
     appendable_blocks := appendable_blocks r; next_block := next_block r; append_hint := append_hint r;
     live_tuple_count := live_tuple_count r; pending_tuple_count := pending_tuple_count r;
     dead_tuple_count := dead_tuple_count r; live_tuple_bytes := live_tuple_bytes r;
     pending_tuple_bytes := pending_tuple_bytes r; dead_tuple_bytes := dead_tuple_bytes r;
     max_tuples_per_block := max_tuples_per_block r |}.
Definition set_hot_redirect_roots (v : gset Tid) (r : RelationStorage) : RelationStorage :=
  {| pages := pages r; physical_blocks := physical_blocks r; primary_key_index := primary_key_index r;
     indexes := indexes r; hot_redirects := hot_redirects r; hot_redirect_roots := v;
     hot_redirect_targets := hot_redirect_targets r; hot_redirect_target_roots := hot_redirect_target_roots r;
     update_redirects := update_redirects r; row_delete_xids := row_delete_xids r;
     row_delete_cids := row_delete_cids r; live_tids := live_tids r;
     pending_reserved_tids := pending_reserved_tids r; pending_reserved_blocks := pending_reserved_blocks r;
     appendable_blocks := appendable_blocks r; next_block := next_block r; append_hint := append_hint r;
     live_tuple_count := live_tuple_count r; pending_tuple_count := pending_tuple_count r;
     dead_tuple_count := dead_tuple_count r; live_tuple_bytes := live_tuple_bytes r;
     pending_tuple_bytes := pending_tuple_bytes r; dead_tuple_bytes := dead_tuple_bytes r;
     max_tuples_per_block := max_tuples_per_block r |}.
Definition set_hot_redirect_targets (v : gset Tid) (r : RelationStorage) : RelationStorage :=
  {| pages := pages r; physical_blocks := physical_blocks r; primary_key_index := primary_key_index r;
     indexes := indexes r; hot_redirects := hot_redirects r; hot_redirect_roots := hot_redirect_roots r;
     hot_redirect_targets := v; hot_redirect_target_roots := hot_redirect_target_roots r;
     update_redirects := update_redirects r; row_delete_xids := row_delete_xids r;
     row_delete_cids := row_delete_cids r; live_tids := live_tids r;
     pending_reserved_tids := pending_reserved_tids r; pending_reserved_blocks := pending_reserved_blocks r;
     appendable_blocks := appendable_blocks r; next_block := next_block r; append_hint := append_hint r;
     live_tuple_count := live_tuple_count r; pending_tuple_count := pending_tuple_count r;
     dead_tuple_count := dead_tuple_count r; live_tuple_bytes := live_tuple_bytes r;
     pending_tuple_bytes := pending_tuple_bytes r; dead_tuple_bytes := dead_tuple_bytes r;
     max_tuples_per_block := max_tuples_per_block r |}.
Definition set_hot_redirect_target_roots (v : gmap Tid Tid) (r : RelationStorage) : RelationStorage :=
  {| pages := pages r; physical_blocks := physical_blocks r; primary_key_index := primary_key_index r;
     indexes := indexes r; hot_redirects := hot_redirects r; hot_redirect_roots := hot_redirect_roots r;
     hot_redirect_targets := hot_redirect_targets r; hot_redirect_target_roots := v;
     update_redirects := update_redirects r; row_delete_xids := row_delete_xids r;
     row_delete_cids := row_delete_cids r; live_tids := live_tids r;
     pending_reserved_tids := pending_reserved_tids r; pending_reserved_blocks := pending_reserved_blocks r;
     appendable_blocks := appendable_blocks r; next_block := next_block r; append_hint := append_hint r;
     live_tuple_count := live_tuple_count r; pending_tuple_count := pending_tuple_count r;
     dead_tuple_count := dead_tuple_count r; live_tuple_bytes := live_tuple_bytes r;
     pending_tuple_bytes := pending_tuple_bytes r; dead_tuple_bytes := dead_tuple_bytes r;
     max_tuples_per_block := max_tuples_per_block r |}.
Definition set_update_redirects (v : gmap Tid Tid) (r : RelationStorage) : RelationStorage :=
  {| pages := pages r; physical_blocks := physical_blocks r; primary_key_index := primary_key_index r;
     indexes := indexes r; hot_redirects := hot_redirects r; hot_redirect_roots := hot_redirect_roots r;
     hot_redirect_targets := hot_redirect_targets r; hot_redirect_target_roots := hot_redirect_target_roots r;
     update_redirects := v; row_delete_xids := row_delete_xids r; row_delete_cids := row_delete_cids r;
     live_tids := live_tids r; pending_reserved_tids := pending_reserved_tids r;
     pending_reserved_blocks := pending_reserved_blocks r; appendable_blocks := appendable_blocks r;
     next_block := next_block r; append_hint := append_hint r; live_tuple_count := live_tuple_count r;
     pending_tuple_count := pending_tuple_count r; dead_tuple_count := dead_tuple_count r;
     live_tuple_bytes := live_tuple_bytes r; pending_tuple_bytes := pending_tuple_bytes r;
     dead_tuple_bytes := dead_tuple_bytes r; max_tuples_per_block := max_tuples_per_block r |}.
Definition set_row_delete_xids (v : gmap Tid Z) (r : RelationStorage) : RelationStorage :=
  {| pages := pages r; physical_blocks := physical_blocks r; primary_key_index := primary_key_index r;
     indexes := indexes r; hot_redirects := hot_redirects r; hot_redirect_roots := hot_redirect_roots r;
     hot_redirect_targets := hot_redirect_targets r; hot_redirect_target_roots := hot_redirect_target_roots r;
     update_redirects := update_redirects r; row_delete_xids := v; row_delete_cids := row_delete_cids r;
     live_tids := live_tids r; pending_reserved_tids := pending_reserved_tids r;
     pending_reserved_blocks := pending_reserved_blocks r; appendable_blocks := appendable_blocks r;
     next_block := next_block r; append_hint := append_hint r; live_tuple_count := live_tuple_count r;
     pending_tuple_count := pending_tuple_count r; dead_tuple_count := dead_tuple_count r;
     live_tuple_bytes := live_tuple_bytes r; pending_tuple_bytes := pending_tuple_bytes r;
     dead_tuple_bytes := dead_tuple_bytes r; max_tuples_per_block := max_tuples_per_block r |}.
Definition set_row_delete_cids (v : gmap Tid Z) (r : RelationStorage) : RelationStorage :=
  {| pages := pages r; physical_blocks := physical_blocks r; primary_key_index := primary_key_index r;
     indexes := indexes r; hot_redirects := hot_redirects r; hot_redirect_roots := hot_redirect_roots r;
     hot_redirect_targets := hot_redirect_targets r; hot_redirect_target_roots := hot_redirect_target_roots r;
     update_redirects := update_redirects r; row_delete_xids := row_delete_xids r; row_delete_cids := v;
     live_tids := live_tids r; pending_reserved_tids := pending_reserved_tids r;
     pending_reserved_blocks := pending_reserved_blocks r; appendable_blocks := appendable_blocks r;
     next_block := next_block r; append_hint := append_hint r; live_tuple_count := live_tuple_count r;
     pending_tuple_count := pending_tuple_count r; dead_tuple_count := dead_tuple_count r;
     live_tuple_bytes := live_tuple_bytes r; pending_tuple_bytes := pending_tuple_bytes r;
     dead_tuple_bytes := dead_tuple_bytes r; max_tuples_per_block := max_tuples_per_block r |}.
Definition set_live_tids (v : gset Tid) (r : RelationStorage) : RelationStorage :=
  {| pages := pages r; physical_blocks := physical_blocks r; primary_key_index := primary_key_index r;
     indexes := indexes r; hot_redirects := hot_redirects r; hot_redirect_roots := hot_redirect_roots r;
     hot_redirect_targets := hot_redirect_targets r; hot_redirect_target_roots := hot_redirect_target_roots r;
     update_redirects := update_redirects r; row_delete_xids := row_delete_xids r;
     row_delete_cids := row_delete_cids r; live_tids := v; pending_reserved_tids := pending_reserved_tids r;
     pending_reserved_blocks := pending_reserved_blocks r; appendable_blocks := appendable_blocks r;
     next_block := next_block r; append_hint := append_hint r; live_tuple_count := live_tuple_count r;
     pending_tuple_count := pending_tuple_count r; dead_tuple_count := dead_tuple_count r;
     live_tuple_bytes := live_tuple_bytes r; pending_tuple_bytes := pending_tuple_bytes r;
     dead_tuple_bytes := dead_tuple_bytes r; max_tuples_per_block := max_tuples_per_block r |}.
Definition set_pending_reserved_tids (v : gset Tid) (r : RelationStorage) : RelationStorage :=
  {| pages := pages r; physical_blocks := physical_blocks r; primary_key_index := primary_key_index r;
     indexes := indexes r; hot_redirects := hot_redirects r; hot_redirect_roots := hot_redirect_roots r;
     hot_redirect_targets := hot_redirect_targets r; hot_redirect_target_roots := hot_redirect_target_roots r;
     update_redirects := update_redirects r; row_delete_xids := row_delete_xids r;
     row_delete_cids := row_delete_cids r; live_tids := live_tids r; pending_reserved_tids := v;
     pending_reserved_blocks := pending_reserved_blocks r; appendable_blocks := appendable_blocks r;
     next_block := next_block r; append_hint := append_hint r; live_tuple_count := live_tuple_count r;
     pending_tuple_count := pending_tuple_count r; dead_tuple_count := dead_tuple_count r;
     live_tuple_bytes := live_tuple_bytes r; pending_tuple_bytes := pending_tuple_bytes r;
     dead_tuple_bytes := dead_tuple_bytes r; max_tuples_per_block := max_tuples_per_block r |}.
Definition set_pending_reserved_blocks (v : gset Z) (r : RelationStorage) : RelationStorage :=
  {| pages := pages r; physical_blocks := physical_blocks r; primary_key_index := primary_key_index r;
     indexes := indexes r; hot_redirects := hot_redirects r; hot_redirect_roots := hot_redirect_roots r;
     hot_redirect_targets := hot_redirect_targets r; hot_redirect_target_roots := hot_redirect_target_roots r;
     update_redirects := update_redirects r; row_delete_xids := row_delete_xids r;
     row_delete_cids := row_delete_cids r; live_tids := live_tids r;
     pending_reserved_tids := pending_reserved_tids r; pending_reserved_blocks := v;
     appendable_blocks := appendable_blocks r; next_block := next_block r; append_hint := append_hint r;
     live_tuple_count := live_tuple_count r; pending_tuple_count := pending_tuple_count r;
     dead_tuple_count := dead_tuple_count r; live_tuple_bytes := live_tuple_bytes r;
     pending_tuple_bytes := pending_tuple_bytes r; dead_tuple_bytes := dead_tuple_bytes r;
     max_tuples_per_block := max_tuples_per_block r |}.
Definition set_appendable_blocks (v : gset Z) (r : RelationStorage) : RelationStorage :=
  {| pages := pages r; physical_blocks := physical_blocks r; primary_key_index := primary_key_index r;
     indexes := indexes r; hot_redirects := hot_redirects r; hot_redirect_roots := hot_redirect_roots r;
     hot_redirect_targets := hot_redirect_targets r; hot_redirect_target_roots := hot_redirect_target_roots r;
     update_redirects := update_redirects r; row_delete_xids := row_delete_xids r;
     row_delete_cids := row_delete_cids r; live_tids := live_tids r;
     pending_reserved_tids := pending_reserved_tids r; pending_reserved_blocks := pending_reserved_blocks r;
     appendable_blocks := v; next_block := next_block r; append_hint := append_hint r;
     live_tuple_count := live_tuple_count r; pending_tuple_count := pending_tuple_count r;
     dead_tuple_count := dead_tuple_count r; live_tuple_bytes := live_tuple_bytes r;
     pending_tuple_bytes := pending_tuple_bytes r; dead_tuple_bytes := dead_tuple_bytes r;
     max_tuples_per_block := max_tuples_per_block r |}.
Definition set_next_block (v : Z) (r : RelationStorage) : RelationStorage :=
  {| pages := pages r; physical_blocks := physical_blocks r; primary_key_index := primary_key_index r;
     indexes := indexes r; hot_redirects := hot_redirects r; hot_redirect_roots := hot_redirect_roots r;
     hot_redirect_targets := hot_redirect_targets r; hot_redirect_target_roots := hot_redirect_target_roots r;
     update_redirects := update_redirects r; row_delete_xids := row_delete_xids r;
     row_delete_cids := row_delete_cids r; live_tids := live_tids r;
     pending_reserved_tids := pending_reserved_tids r; pending_reserved_blocks := pending_reserved_blocks r;
     appendable_blocks := appendable_blocks r; next_block := v; append_hint := append_hint r;
     live_tuple_count := live_tuple_count r; pending_tuple_count := pending_tuple_count r;
     dead_tuple_count := dead_tuple_count r; live_tuple_bytes := live_tuple_bytes r;
     pending_tuple_bytes := pending_tuple_bytes r; dead_tuple_bytes := dead_tuple_bytes r;
     max_tuples_per_block := max_tuples_per_block r |}.
Definition set_append_hint (v : option Z) (r : RelationStorage) : RelationStorage :=
  {| pages := pages r; physical_blocks := physical_blocks r; primary_key_index := primary_key_index r;
     indexes := indexes r; hot_redirects := hot_redirects r; hot_redirect_roots := hot_redirect_roots r;
     hot_redirect_targets := hot_redirect_targets r; hot_redirect_target_roots := hot_redirect_target_roots r;
     update_redirects := update_redirects r; row_delete_xids := row_delete_xids r;
     row_delete_cids := row_delete_cids r; live_tids := live_tids r;
     pending_reserved_tids := pending_reserved_tids r; pending_reserved_blocks := pending_reserved_blocks r;
     appendable_blocks := appendable_blocks r; next_block := next_block r; append_hint := v;
     live_tuple_count := live_tuple_count r; pending_tuple_count := pending_tuple_count r;
     dead_tuple_count := dead_tuple_count r; live_tuple_bytes := live_tuple_bytes r;
     pending_tuple_bytes := pending_tuple_bytes r; dead_tuple_bytes := dead_tuple_bytes r;
     max_tuples_per_block := max_tuples_per_block r |}.
Definition set_live_tuple_count (v : Z) (r : RelationStorage) : RelationStorage :=
  {| pages := pages r; physical_blocks := physical_blocks r; primary_key_index := primary_key_index r;
     indexes := indexes r; hot_redirects := hot_redirects r; hot_redirect_roots := hot_redirect_roots r;
     hot_redirect_targets := hot_redirect_targets r; hot_redirect_target_roots := hot_redirect_target_roots r;
     update_redirects := update_redirects r; row_delete_xids := row_delete_xids r;
     row_delete_cids := row_delete_cids r; live_tids := live_tids r;
     pending_reserved_tids := pending_reserved_tids r; pending_reserved_blocks := pending_reserved_blocks r;
     appendable_blocks := appendable_blocks r; next_block := next_block r; append_hint := append_hint r;
     live_tuple_count := v; pending_tuple_count := pending_tuple_count r;
     dead_tuple_count := dead_tuple_count r; live_tuple_bytes := live_tuple_bytes r;
     pending_tuple_bytes := pending_tuple_bytes r; dead_tuple_bytes := dead_tuple_bytes r;
     max_tuples_per_block := max_tuples_per_block r |}.
Definition set_pending_tuple_count (v : Z) (r : RelationStorage) : RelationStorage :=
  {| pages := pages r; physical_blocks := physical_blocks r; primary_key_index := primary_key_index r;
     indexes := indexes r; hot_redirects := hot_redirects r; hot_redirect_roots := hot_redirect_roots r;
     hot_redirect_targets := hot_redirect_targets r; hot_redirect_target_roots := hot_redirect_target_roots r;
     update_redirects := update_redirects r; row_delete_xids := row_delete_xids r;
     row_delete_cids := row_delete_cids r; live_tids := live_tids r;
     pending_reserved_tids := pending_reserved_tids r; pending_reserved_blocks := pending_reserved_blocks r;
     appendable_blocks := appendable_blocks r; next_block := next_block r; append_hint := append_hint r;
     live_tuple_count := live_tuple_count r; pending_tuple_count := v; dead_tuple_count := dead_tuple_count r;
     live_tuple_bytes := live_tuple_bytes r; pending_tuple_bytes := pending_tuple_bytes r;
     dead_tuple_bytes := dead_tuple_bytes r; max_tuples_per_block := max_tuples_per_block r |}.
Definition set_dead_tuple_count (v : Z) (r : RelationStorage) : RelationStorage :=
  {| pages := pages r; physical_blocks := physical_blocks r; primary_key_index := primary_key_index r;
     indexes := indexes r; hot_redirects := hot_redirects r; hot_redirect_roots := hot_redirect_roots r;
     hot_redirect_targets := hot_redirect_targets r; hot_redirect_target_roots := hot_redirect_target_roots r;
     update_redirects := update_redirects r; row_delete_xids := row_delete_xids r;
     row_delete_cids := row_delete_cids r; live_tids := live_tids r;
     pending_reserved_tids := pending_reserved_tids r; pending_reserved_blocks := pending_reserved_blocks r;
     appendable_blocks := appendable_blocks r; next_block := next_block r; append_hint := append_hint r;
     live_tuple_count := live_tuple_count r; pending_tuple_count := pending_tuple_count r;
     dead_tuple_count := v; live_tuple_bytes := live_tuple_bytes r;
     pending_tuple_bytes := pending_tuple_bytes r; dead_tuple_bytes := dead_tuple_bytes r;
     max_tuples_per_block := max_tuples_per_block r |}.
Definition set_live_tuple_bytes (v : Z) (r : RelationStorage) : RelationStorage :=
  {| pages := pages r; physical_blocks := physical_blocks r; primary_key_index := primary_key_index r;
     indexes := indexes r; hot_redirects := hot_redirects r; hot_redirect_roots := hot_redirect_roots r;
     hot_redirect_targets := hot_redirect_targets r; hot_redirect_target_roots := hot_redirect_target_roots r;
     update_redirects := update_redirects r; row_delete_xids := row_delete_xids r;
     row_delete_cids := row_delete_cids r; live_tids := live_tids r;
     pending_reserved_tids := pending_reserved_tids r; pending_reserved_blocks := pending_reserved_blocks r;
     appendable_blocks := appendable_blocks r; next_block := next_block r; append_hint := append_hint r;
     live_tuple_count := live_tuple_count r; pending_tuple_count := pending_tuple_count r;
     dead_tuple_count := dead_tuple_count r; live_tuple_bytes := v;
     pending_tuple_bytes := pending_tuple_bytes r; dead_tuple_bytes := dead_tuple_bytes r;
     max_tuples_per_block := max_tuples_per_block r |}.
Definition set_pending_tuple_bytes (v : Z) (r : RelationStorage) : RelationStorage :=
  {| pages := pages r; physical_blocks := physical_blocks r; primary_key_index := primary_key_index r;
     indexes := indexes r; hot_redirects := hot_redirects r; hot_redirect_roots := hot_redirect_roots r;
     hot_redirect_targets := hot_redirect_targets r; hot_redirect_target_roots := hot_redirect_target_roots r;
     update_redirects := update_redirects r; row_delete_xids := row_delete_xids r;
     row_delete_cids := row_delete_cids r; live_tids := live_tids r;
     pending_reserved_tids := pending_reserved_tids r; pending_reserved_blocks := pending_reserved_blocks r;
     appendable_blocks := appendable_blocks r; next_block := next_block r; append_hint := append_hint r;
     live_tuple_count := live_tuple_count r; pending_tuple_count := pending_tuple_count r;
     dead_tuple_count := dead_tuple_count r; live_tuple_bytes := live_tuple_bytes r; pending_tuple_bytes := v;
     dead_tuple_bytes := dead_tuple_bytes r; max_tuples_per_block := max_tuples_per_block r |}.
Definition set_dead_tuple_bytes (v : Z) (r : RelationStorage) : RelationStorage :=
  {| pages := pages r; physical_blocks := physical_blocks r; primary_key_index := primary_key_index r;
     indexes := indexes r; hot_redirects := hot_redirects r; hot_redirect_roots := hot_redirect_roots r;
     hot_redirect_targets := hot_redirect_targets r; hot_redirect_target_roots := hot_redirect_target_roots r;
     update_redirects := update_redirects r; row_delete_xids := row_delete_xids r;
     row_delete_cids := row_delete_cids r; live_tids := live_tids r;
     pending_reserved_tids := pending_reserved_tids r; pending_reserved_blocks := pending_reserved_blocks r;
     appendable_blocks := appendable_blocks r; next_block := next_block r; append_hint := append_hint r;
     live_tuple_count := live_tuple_count r; pending_tuple_count := pending_tuple_count r;
     dead_tuple_count := dead_tuple_count r; live_tuple_bytes := live_tuple_bytes r;
     pending_tuple_bytes := pending_tuple_bytes r; dead_tuple_bytes := v;
     max_tuples_per_block := max_tuples_per_block r |}.
Definition set_max_tuples_per_block (v : option Z) (r : RelationStorage) : RelationStorage :=
  {| pages := pages r; physical_blocks := physical_blocks r; primary_key_index := primary_key_index r;
     indexes := indexes r; hot_redirects := hot_redirects r; hot_redirect_roots := hot_redirect_roots r;
     hot_redirect_targets := hot_redirect_targets r; hot_redirect_target_roots := hot_redirect_target_roots r;
     update_redirects := update_redirects r; row_delete_xids := row_delete_xids r;
     row_delete_cids := row_delete_cids r; live_tids := live_tids r;
     pending_reserved_tids := pending_reserved_tids r; pending_reserved_blocks := pending_reserved_blocks r;
     appendable_blocks := appendable_blocks r; next_block := next_block r; append_hint := append_hint r;
     live_tuple_count := live_tuple_count r; pending_tuple_count := pending_tuple_count r;
     dead_tuple_count := dead_tuple_count r; live_tuple_bytes := live_tuple_bytes r;
     pending_tuple_bytes := pending_tuple_bytes r; dead_tuple_bytes := dead_tuple_bytes r;
     max_tuples_per_block := v |}.

Record RelationCheckpoint := {
  rc_pages_len : Z;
  rc_next_block : Z;
  rc_append_hint : option Z;
  rc_live_tuple_count : Z;
  rc_pending_tuple_count : Z;
  rc_dead_tuple_count : Z;
  rc_live_tuple_bytes : Z;
  rc_pending_tuple_bytes : Z;
  rc_dead_tuple_bytes : Z;
  rc_max_tuples_per_block : option Z;
}.

Definition relation_checkpoint (r : RelationStorage) : RelationCheckpoint :=
  {| rc_pages_len := len (pages r); rc_next_block := next_block r; rc_append_hint := append_hint r;
     rc_live_tuple_count := live_tuple_count r; rc_pending_tuple_count := pending_tuple_count r;
     rc_dead_tuple_count := dead_tuple_count r; rc_live_tuple_bytes := live_tuple_bytes r;
     rc_pending_tuple_bytes := pending_tuple_bytes r; rc_dead_tuple_bytes := dead_tuple_bytes r;
     rc_max_tuples_per_block := max_tuples_per_block r |}.

(** [option.is_none_or(|max| n < max)] *)
Definition below_max (max : option Z) (n : Z) : bool :=
  match max with None => true | Some max => n <? max end.

(** ** Pages *)

Definition page (r : RelationStorage) (block : Z) : option Page :=
  if 0 <=? block then mjoin (pages r !! Z.to_nat block) else None.

(** Change the page of a block in place, if there is one. *)
Definition page_mut (block : Z) (f : Page → Page) (r : RelationStorage) : RelationStorage :=
  set_pages (alter (fmap f) (Z.to_nat block) (pages r)) r.

Definition page_can_accept_tuple (r : RelationStorage) (p : Page) (tuple_len : Z) : bool :=
  can_fit p tuple_len && below_max (max_tuples_per_block r) (len (line_pointers p)).

(** [appendable_blocks.iter().next_back()] *)
Definition last_appendable (s : gset Z) : option Z := last (btree_iter Z.le s).

Definition block_accepts (r : RelationStorage) (tuple_len : Z) (block : Z) : bool :=
  match page r block with Some p => page_can_accept_tuple r p tuple_len | None => false end.

Definition refresh_appendable_block (block : Z) (r : RelationStorage) : RelationStorage :=
  let s := if block_accepts r 1 block then {[block]} ∪ appendable_blocks r
           else appendable_blocks r ∖ {[block]} in
  set_append_hint (last_appendable s) (set_appendable_blocks s r).

Definition recompute_appendable_blocks (r : RelationStorage) : RelationStorage :=
  let s := foldl (λ (s : gset Z) block, if block_accepts r 1 block then {[block]} ∪ s else s)
             ∅ (btree_iter Z.le (physical_blocks r)) in
  set_append_hint (last_appendable s) (set_appendable_blocks s r).

Definition reserve_block (r : RelationStorage) : option Z * RelationStorage :=
  match checked_add U32_MAX (next_block r) 1 with
  | None => (None, r)
  | Some next => (Some (next_block r), set_next_block next r)
  end.

Definition insert_page (p : Page) (r : RelationStorage) : RelationStorage :=
  let block := Z.to_nat (pg_block p) in
  let r := set_pages (<[block := Some p]> (resize_to (S block) None (pages r))) r in
  let r := set_physical_blocks ({[pg_block p]} ∪ physical_blocks r) r in
  refresh_appendable_block (pg_block p) r.

Definition mark_page_dead (block : Z) (r : RelationStorage) : RelationStorage :=
  refresh_appendable_block block (page_mut block mark_all_dead r).

(** ** Rows *)

Definition rel_tuple_slice (r : RelationStorage) (t : Tid) (include_pending : bool) : option (list Z) :=
  p ← page r (tid_block t); page_tuple_slice p (tid_offset t) include_pending.

Definition rel_tuple_slice_any (r : RelationStorage) (t : Tid) : option (list Z) :=
  p ← page r (tid_block t); page_tuple_slice_any p (tid_offset t).

Definition line_pointer (r : RelationStorage) (t : Tid) : option LinePointer :=
  index ← checked_sub (tid_offset t) 1;
  p ← page r (tid_block t);
  line_pointers p !! Z.to_nat index.

Definition line_pointer_state (r : RelationStorage) (t : Tid) : option LinePointerState :=
  lp_state <$> line_pointer r t.

Definition line_pointer_mut (t : Tid) (f : LinePointer → LinePointer) (r : RelationStorage) :
    bool * RelationStorage :=
  match line_pointer r t with
  | None => (false, r)
  | Some _ => (true, page_mut (tid_block t) (update_line (tid_offset t) f) r)
  end.

Definition rel_set_insert_metadata (t : Tid) (xmin cmin : Z) (r : RelationStorage) : bool * RelationStorage :=
  line_pointer_mut t (λ l, {| lp_offset := lp_offset l; lp_len := lp_len l; lp_state := lp_state l;
                              lp_xmin := xmin; lp_cmin := cmin; lp_xmax := lp_xmax l |}) r.

Definition rel_set_row_xmax (t : Tid) (xmax : Z) (r : RelationStorage) : bool * RelationStorage :=
  line_pointer_mut t (λ l, {| lp_offset := lp_offset l; lp_len := lp_len l; lp_state := lp_state l;
                              lp_xmin := lp_xmin l; lp_cmin := lp_cmin l; lp_xmax := xmax |}) r.

Definition rel_row_xmin (r : RelationStorage) (t : Tid) : option Z := lp_xmin <$> line_pointer r t.
Definition rel_row_cmin (r : RelationStorage) (t : Tid) : option Z := lp_cmin <$> line_pointer r t.
Definition rel_row_xmax (r : RelationStorage) (t : Tid) : option Z := lp_xmax <$> line_pointer r t.

(** The statistics of the relation, by the state of a row. *)
Definition rel_add_stats (s : LinePointerState) (n : Z) (r : RelationStorage) : RelationStorage :=
  let add := saturating_add USIZE_MAX in
  match s with
  | LPending => set_pending_tuple_bytes (add (pending_tuple_bytes r) n)
                  (set_pending_tuple_count (add (pending_tuple_count r) 1) r)
  | LLive => set_live_tuple_bytes (add (live_tuple_bytes r) n)
               (set_live_tuple_count (add (live_tuple_count r) 1) r)
  | LDead => set_dead_tuple_bytes (add (dead_tuple_bytes r) n)
               (set_dead_tuple_count (add (dead_tuple_count r) 1) r)
  end.
Definition rel_sub_stats (s : LinePointerState) (n : Z) (r : RelationStorage) : RelationStorage :=
  match s with
  | LPending => set_pending_tuple_bytes (saturating_sub (pending_tuple_bytes r) n)
                  (set_pending_tuple_count (saturating_sub (pending_tuple_count r) 1) r)
  | LLive => set_live_tuple_bytes (saturating_sub (live_tuple_bytes r) n)
               (set_live_tuple_count (saturating_sub (live_tuple_count r) 1) r)
  | LDead => r
  end.

Definition rel_mark_dead (t : Tid) (r : RelationStorage) : bool * RelationStorage :=
  match page r (tid_block t) with
  | None => (false, r)
  | Some p =>
    match page_line p (tid_offset t) with
    | None => (false, r)
    | Some line =>
      if fst (page_mark_dead (tid_offset t) p) then
        let r := page_mut (tid_block t) (λ p, snd (page_mark_dead (tid_offset t) p)) r in
        let n := lp_len line in
        match lp_state line with
        | LDead => (false, r)
        | LPending => (true, rel_add_stats LDead n (rel_sub_stats LPending n r))
        | LLive =>
          let r := rel_sub_stats LLive n r in
          (true, rel_add_stats LDead n (set_live_tids (live_tids r ∖ {[t]}) r))
        end
      else (false, r)
    end
  end.

Definition rel_mark_live (t : Tid) (r : RelationStorage) : bool * RelationStorage :=
  match page r (tid_block t) with
  | None => (false, r)
  | Some p =>
    match page_line p (tid_offset t) with
    | None => (false, r)
    | Some line =>
      if bool_decide (lp_state line = LPending) && fst (page_mark_live (tid_offset t) p) then
        let r := page_mut (tid_block t) (λ p, snd (page_mark_live (tid_offset t) p)) r in
        let n := lp_len line in
        let r := rel_add_stats LLive n (rel_sub_stats LPending n r) in
        (true, set_live_tids ({[t]} ∪ live_tids r) r)
      else (false, r)
    end
  end.

(** ** Appending *)

Definition append_target_block (tuple_len epoch generation : Z) (r : RelationStorage) :
    option Z * RelationStorage :=
  match (block ← append_hint r; if block_accepts r tuple_len block then Some block else None) with
  | Some block => (Some block, r)
  | None =>
    match List.find (block_accepts r tuple_len) (reverse (btree_iter Z.le (appendable_blocks r))) with
    | Some block => (Some block, set_append_hint (Some block) r)
    | None =>
      match reserve_block r with
      | (None, r) => (None, r)
      | (Some block, r) => (Some block, insert_page (page_new block epoch generation tuple_len) r)
      end
    end
  end.

(** After a row was pushed to a block: statistics and the set of blocks with room. *)
Definition note_appended (block tuple_len : Z) (p : Page) (r : RelationStorage) : RelationStorage :=
  let can_fit_more := can_fit p 1 && below_max (max_tuples_per_block r) (len (line_pointers p)) in
  let r := rel_add_stats LPending tuple_len r in
  let s := if can_fit_more then {[block]} ∪ appendable_blocks r else appendable_blocks r ∖ {[block]} in
  set_append_hint (last_appendable s) (set_appendable_blocks s r).

Definition rel_append_pending_tuple (block : Z) (tuple : list Z) (r : RelationStorage) :
    option Tid * RelationStorage :=
  match page r block with
  | None => (None, r)
  | Some p =>
    let '(tid, p) := append_tuple_with_state tuple LPending p in
    let r := page_mut block (λ _, p) r in
    match tid with
    | None => (None, r)
    | Some tid => (Some tid, note_appended block (len tuple) p r)
    end
  end.

Definition rel_append_pending_input_tuple `{Target} (mem : Z → Z) (block : Z) (input : RowInput)
    (tuple_len : Z) : M RelationStorage (option Tid) := λ r,
  match page r block with
  | None => (Ok None, r)
  | Some p =>
    let '(res, p) := append_input_tuple_with_state mem input tuple_len LPending p in
    let r := page_mut block (λ _, p) r in
    match res with
    | Error c m => (Error c m, r)
    | Ok None => (Ok None, r)
    | Ok (Some tid) => (Ok (Some tid), note_appended block tuple_len p r)
    end
  end.

(** ** Indexes and redirects *)

Definition push_unique {A} `{EqDecision A} (x : A) (l : list A) : list A :=
  if bool_decide (x ∈ l) then l else l ++ [x].

Definition rel_insert_index_entry (index_relid : Z) (key : IndexKey) (t : Tid) (r : RelationStorage) :
    RelationStorage :=
  let entries := default ∅ (indexes r !! index_relid) in
  let tids := default [] (entries !! key) in
  set_indexes (<[index_relid := <[key := push_unique t tids]> entries]> (indexes r)) r.

Definition rel_insert_hot_redirect (old_tid new_tid : Tid) (r : RelationStorage) : RelationStorage :=
  let root_tid := default old_tid (hot_redirect_target_roots r !! old_tid) in
  let previous := hot_redirects r !! old_tid in
  let r := set_hot_redirects (<[old_tid := new_tid]> (hot_redirects r)) r in
  let r :=
    match previous with
    | Some previous_tid =>
      if negb (bool_decide (previous_tid = new_tid))
         && negb (existsb (λ kv, bool_decide (kv.2 = previous_tid)) (map_to_list (hot_redirects r))) then
        set_hot_redirect_target_roots (delete previous_tid (hot_redirect_target_roots r))
          (set_hot_redirect_targets (hot_redirect_targets r ∖ {[previous_tid]}) r)
      else r
    | None => r
    end in
  let r := set_hot_redirect_roots ({[root_tid]} ∪ hot_redirect_roots r) r in
  let r := set_hot_redirect_targets ({[new_tid]} ∪ hot_redirect_targets r) r in
  set_hot_redirect_target_roots (<[new_tid := root_tid]> (hot_redirect_target_roots r)) r.

Definition is_hot_redirect_root (r : RelationStorage) (t : Tid) : bool := bool_decide (t ∈ hot_redirect_roots r).
Definition is_hot_redirect_target (r : RelationStorage) (t : Tid) : bool := bool_decide (t ∈ hot_redirect_targets r).
Definition hot_redirect_root_for_target (r : RelationStorage) (t : Tid) : option Tid :=
  hot_redirect_target_roots r !! t.

(** ** Statistics and checkpoints *)

Definition page_count (r : RelationStorage) : Z := Z.of_nat (size (physical_blocks r)).
Definition block_count (r : RelationStorage) : Z := next_block r.

Definition set_max_tuples (max_tuples : Z) (r : RelationStorage) : RelationStorage :=
  recompute_appendable_blocks (set_max_tuples_per_block (Some (clamp 1 MAX_CTID_OFFSET max_tuples)) r).

(** The lines of a page, with their identifiers. *)
Definition page_lines (p : Page) : list (Z * LinePointer) :=
  imap (λ i l, (Z.of_nat i + 1, l)) (line_pointers p).

Definition recompute_line (block : Z) (r : RelationStorage) (ol : Z * LinePointer) : RelationStorage :=
  let r := rel_add_stats (lp_state ol.2) (lp_len ol.2) r in
  match lp_state ol.2, try_from U16_MAX ol.1 with
  | LLive, Some offset => set_live_tids ({[mkTid block offset]} ∪ live_tids r) r
  | _, _ => r
  end.

Definition recompute_page (r : RelationStorage) (p : Page) : RelationStorage :=
  foldl (recompute_line (pg_block p))
    (set_physical_blocks ({[pg_block p]} ∪ physical_blocks r) r) (page_lines p).

Definition recompute_tuple_stats (r : RelationStorage) : RelationStorage :=
  let r := set_live_tuple_count 0 (set_pending_tuple_count 0 (set_dead_tuple_count 0 r)) in
  let r := set_live_tuple_bytes 0 (set_pending_tuple_bytes 0 (set_dead_tuple_bytes 0 r)) in
  let r := set_physical_blocks ∅ (set_live_tids ∅ r) in
  foldl recompute_page r (omap id (pages r)).

Definition restore_metadata_preserving_tid_space (c : RelationCheckpoint) (r : RelationStorage) :
    RelationStorage :=
  let next := Z.max (Z.max (next_block r) (rc_next_block c)) (default U32_MAX (try_from U32_MAX (len (pages r)))) in
  let r := set_max_tuples_per_block (rc_max_tuples_per_block c) (set_next_block next r) in
  recompute_tuple_stats (recompute_appendable_blocks r).

Definition restore_rollback_metadata_preserving_tid_space (c : RelationCheckpoint) (r : RelationStorage) :
    RelationStorage :=
  let next := Z.max (Z.max (next_block r) (rc_next_block c)) (default U32_MAX (try_from U32_MAX (len (pages r)))) in
  let r := set_next_block next r in
  if bool_decide (max_tuples_per_block r = rc_max_tuples_per_block c) then r
  else recompute_appendable_blocks (set_max_tuples_per_block (rc_max_tuples_per_block c) r).
