(* ===== verification/EngOverlay.v ===== *)
(** * Changes of a transaction

    crates/fastpg-storage2/src/transaction.rs: what a transaction or
    subtransaction has changed and not yet committed is kept in a
    [TransactionOverlay], by relation; a session has a stack of them, the last
    one being that of the innermost subtransaction. *)

From Stdlib Require Import ZArith Lia.
From stdpp Require Import base tactics numbers list gmap strings.
From S2P Require Import Prelude RustStd EngTid EngTuple EngPage EngIndex EngRelation.

Local Open Scope Z_scope.

(** ** Maps kept as vectors *)

Section assoc.
Context {K V : Type} `{EqDecision K}.
Implicit Types (l : list (K * V)) (k : K).

Fixpoint assoc_get k l : option V :=
  match l with
  | [] => None
  | (k', v) :: l => if decide (k' = k) then Some v else assoc_get k l
  end.

(** Change the value of a key in place, or push a new entry. *)
Fixpoint assoc_upsert k (f : option V → V) l : list (K * V) :=
  match l with
  | [] => [(k, f None)]
  | (k', v) :: l => if decide (k' = k) then (k', f (Some v)) :: l else (k', v) :: assoc_upsert k f l
  end.

Fixpoint assoc_alter k (f : V → V) l : list (K * V) :=
  match l with
  | [] => []
  | (k', v) :: l => if decide (k' = k) then (k', f v) :: l else (k', v) :: assoc_alter k f l
  end.

Definition assoc_position k l : option nat := fst <$> list_find (λ kv, kv.1 = k) l.
End assoc.

(** [RelidMap<V>]: a vector of entries searched from the front. *)
Definition RelidMap (V : Type) : Type := list (Z * V).

Definition relid_is_empty {V} (m : RelidMap V) : bool := match m with [] => true | _ => false end.
Definition relid_get {V} (relid : Z) (m : RelidMap V) : option V := assoc_get relid m.
Definition relid_get_mut {V} (relid : Z) (f : V → V) (m : RelidMap V) : RelidMap V := assoc_alter relid f m.
Definition relid_contains_key {V} (relid : Z) (m : RelidMap V) : bool :=
  match relid_get relid m with Some _ => true | None => false end.
Definition relid_insert {V} (relid : Z) (v : V) (m : RelidMap V) : RelidMap V :=
  assoc_upsert relid (λ _, v) m.
Definition relid_remove {V} (relid : Z) (m : RelidMap V) : RelidMap V :=
  match assoc_position relid m with
  | Some index => swap_remove index m
  | None => m
  end.

(** [map.entry(relid).or_insert(v)] followed by a change of the entry. *)
Definition relid_entry {V} (relid : Z) (v : V) (f : V → V) (m : RelidMap V) : RelidMap V :=
  assoc_upsert relid (λ o, f (default v o)) m.

(** ** The overlay *)

Record DeleteMetadata := mkDelete { dm_xid : Z; dm_cid : Z }.
#[global] Instance DeleteMetadata_eq_dec : EqDecision DeleteMetadata.
Proof. solve_decision. Defined.

Definition IndexInsertMap : Type := gmap Z (gmap IndexKey (list Tid)).

Record TransactionOverlay := {
  pending_pages : RelidMap (list Page);
  relation_checkpoints : RelidMap RelationCheckpoint;
  page_checkpoints : RelidMap (list (Z * PageCheckpoint));
  new_pages : RelidMap (list Z);
  inserted_tids : RelidMap (list Tid);
  inserted_cids : RelidMap (list (Tid * Z));
  invalidated_tids : RelidMap (list Tid);
  invalidated_metadata : RelidMap (list (Tid * DeleteMetadata));
  hot_redirect_inserts : RelidMap (list (Tid * Tid));
  update_redirect_inserts : RelidMap (list (Tid * Tid));
  primary_key_inserts : RelidMap (gmap IndexKey Tid);
  primary_key_deletes : RelidMap (gset IndexKey);
  index_inserts : RelidMap IndexInsertMap;
  cleared_relations : RelidMap RelationStorage;
}.

Definition overlay_default : TransactionOverlay :=
  {| pending_pages := []; relation_checkpoints := []; page_checkpoints := []; new_pages := [];
     inserted_tids := []; inserted_cids := []; invalidated_tids := []; invalidated_metadata := [];
     hot_redirect_inserts := []; update_redirect_inserts := []; primary_key_inserts := [];
     primary_key_deletes := []; index_inserts := []; cleared_relations := [] |}.

Definition set_pending_pages (v : RelidMap (list Page)) (o : TransactionOverlay) : TransactionOverlay :=
  {| pending_pages := v; relation_checkpoints := relation_checkpoints o;
     page_checkpoints := page_checkpoints o; new_pages := new_pages o; inserted_tids := inserted_tids o;
     inserted_cids := inserted_cids o; invalidated_tids := invalidated_tids o;
     invalidated_metadata := invalidated_metadata o; hot_redirect_inserts := hot_redirect_inserts o;
     update_redirect_inserts := update_redirect_inserts o; primary_key_inserts := primary_key_inserts o;
     primary_key_deletes := primary_key_deletes o; index_inserts := index_inserts o;
     cleared_relations := cleared_relations o |}.
Definition set_relation_checkpoints (v : RelidMap RelationCheckpoint) (o : TransactionOverlay) : TransactionOverlay :=
  {| pending_pages := pending_pages o; relation_checkpoints := v; page_checkpoints := page_checkpoints o;
     new_pages := new_pages o; inserted_tids := inserted_tids o; inserted_cids := inserted_cids o;
     invalidated_tids := invalidated_tids o; invalidated_metadata := invalidated_metadata o;
     hot_redirect_inserts := hot_redirect_inserts o; update_redirect_inserts := update_redirect_inserts o;
     primary_key_inserts := primary_key_inserts o; primary_key_deletes := primary_key_deletes o;
     index_inserts := index_inserts o; cleared_relations := cleared_relations o |}.
Definition set_page_checkpoints (v : RelidMap (list (Z * PageCheckpoint))) (o : TransactionOverlay) : TransactionOverlay :=
  {| pending_pages := pending_pages o; relation_checkpoints := relation_checkpoints o; page_checkpoints := v;
     new_pages := new_pages o; inserted_tids := inserted_tids o; inserted_cids := inserted_cids o;
     invalidated_tids := invalidated_tids o; invalidated_metadata := invalidated_metadata o;
     hot_redirect_inserts := hot_redirect_inserts o; update_redirect_inserts := update_redirect_inserts o;
     primary_key_inserts := primary_key_inserts o; primary_key_deletes := primary_key_deletes o;
     index_inserts := index_inserts o; cleared_relations := cleared_relations o |}.
Definition set_new_pages (v : RelidMap (list Z)) (o : TransactionOverlay) : TransactionOverlay :=
  {| pending_pages := pending_pages o; relation_checkpoints := relation_checkpoints o;
     page_checkpoints := page_checkpoints o; new_pages := v; inserted_tids := inserted_tids o;
     inserted_cids := inserted_cids o; invalidated_tids := invalidated_tids o;
     invalidated_metadata := invalidated_metadata o; hot_redirect_inserts := hot_redirect_inserts o;
     update_redirect_inserts := update_redirect_inserts o; primary_key_inserts := primary_key_inserts o;
     primary_key_deletes := primary_key_deletes o; index_inserts := index_inserts o;
     cleared_relations := cleared_relations o |}.
Definition set_inserted_tids (v : RelidMap (list Tid)) (o : TransactionOverlay) : TransactionOverlay :=
  {| pending_pages := pending_pages o; relation_checkpoints := relation_checkpoints o;
     page_checkpoints := page_checkpoints o; new_pages := new_pages o; inserted_tids := v;
     inserted_cids := inserted_cids o; invalidated_tids := invalidated_tids o;
     invalidated_metadata := invalidated_metadata o; hot_redirect_inserts := hot_redirect_inserts o;
     update_redirect_inserts := update_redirect_inserts o; primary_key_inserts := primary_key_inserts o;
     primary_key_deletes := primary_key_deletes o; index_inserts := index_inserts o;
     cleared_relations := cleared_relations o |}.
Definition set_inserted_cids (v : RelidMap (list (Tid * Z))) (o : TransactionOverlay) : TransactionOverlay :=
  {| pending_pages := pending_pages o; relation_checkpoints := relation_checkpoints o;
     page_checkpoints := page_checkpoints o; new_pages := new_pages o; inserted_tids := inserted_tids o;
     inserted_cids := v; invalidated_tids := invalidated_tids o;
     invalidated_metadata := invalidated_metadata o; hot_redirect_inserts := hot_redirect_inserts o;
     update_redirect_inserts := update_redirect_inserts o; primary_key_inserts := primary_key_inserts o;
     primary_key_deletes := primary_key_deletes o; index_inserts := index_inserts o;
     cleared_relations := cleared_relations o |}.
Definition set_invalidated_tids (v : RelidMap (list Tid)) (o : TransactionOverlay) : TransactionOverlay :=
  {| pending_pages := pending_pages o; relation_checkpoints := relation_checkpoints o;
     page_checkpoints := page_checkpoints o; new_pages := new_pages o; inserted_tids := inserted_tids o;
     inserted_cids := inserted_cids o; invalidated_tids := v; invalidated_metadata := invalidated_metadata o;
     hot_redirect_inserts := hot_redirect_inserts o; update_redirect_inserts := update_redirect_inserts o;
     primary_key_inserts := primary_key_inserts o; primary_key_deletes := primary_key_deletes o;
     index_inserts := index_inserts o; cleared_relations := cleared_relations o |}.
Definition set_invalidated_metadata (v : RelidMap (list (Tid * DeleteMetadata))) (o : TransactionOverlay) : TransactionOverlay :=
  {| pending_pages := pending_pages o; relation_checkpoints := relation_checkpoints o;
     page_checkpoints := page_checkpoints o; new_pages := new_pages o; inserted_tids := inserted_tids o;
     inserted_cids := inserted_cids o; invalidated_tids := invalidated_tids o; invalidated_metadata := v;
     hot_redirect_inserts := hot_redirect_inserts o; update_redirect_inserts := update_redirect_inserts o;
     primary_key_inserts := primary_key_inserts o; primary_key_deletes := primary_key_deletes o;
     index_inserts := index_inserts o; cleared_relations := cleared_relations o |}.
Definition set_hot_redirect_inserts (v : RelidMap (list (Tid * Tid))) (o : TransactionOverlay) : TransactionOverlay :=
  {| pending_pages := pending_pages o; relation_checkpoints := relation_checkpoints o;
     page_checkpoints := page_checkpoints o; new_pages := new_pages o; inserted_tids := inserted_tids o;
     inserted_cids := inserted_cids o; invalidated_tids := invalidated_tids o;
     invalidated_metadata := invalidated_metadata o; hot_redirect_inserts := v;
     update_redirect_inserts := update_redirect_inserts o; primary_key_inserts := primary_key_inserts o;
     primary_key_deletes := primary_key_deletes o; index_inserts := index_inserts o;
     cleared_relations := cleared_relations o |}.
Definition set_update_redirect_inserts (v : RelidMap (list (Tid * Tid))) (o : TransactionOverlay) : TransactionOverlay :=
  {| pending_pages := pending_pages o; relation_checkpoints := relation_checkpoints o;
     page_checkpoints := page_checkpoints o; new_pages := new_pages o; inserted_tids := inserted_tids o;
     inserted_cids := inserted_cids o; invalidated_tids := invalidated_tids o;
     invalidated_metadata := invalidated_metadata o; hot_redirect_inserts := hot_redirect_inserts o;
     update_redirect_inserts := v; primary_key_inserts := primary_key_inserts o;
     primary_key_deletes := primary_key_deletes o; index_inserts := index_inserts o;
     cleared_relations := cleared_relations o |}.
Definition set_primary_key_inserts (v : RelidMap (gmap IndexKey Tid)) (o : TransactionOverlay) : TransactionOverlay :=
  {| pending_pages := pending_pages o; relation_checkpoints := relation_checkpoints o;
     page_checkpoints := page_checkpoints o; new_pages := new_pages o; inserted_tids := inserted_tids o;
     inserted_cids := inserted_cids o; invalidated_tids := invalidated_tids o;
     invalidated_metadata := invalidated_metadata o; hot_redirect_inserts := hot_redirect_inserts o;
     update_redirect_inserts := update_redirect_inserts o; primary_key_inserts := v;
     primary_key_deletes := primary_key_deletes o; index_inserts := index_inserts o;
     cleared_relations := cleared_relations o |}.
Definition set_primary_key_deletes (v : RelidMap (gset IndexKey)) (o : TransactionOverlay) : TransactionOverlay :=
  {| pending_pages := pending_pages o; relation_checkpoints := relation_checkpoints o;
     page_checkpoints := page_checkpoints o; new_pages := new_pages o; inserted_tids := inserted_tids o;
     inserted_cids := inserted_cids o; invalidated_tids := invalidated_tids o;
     invalidated_metadata := invalidated_metadata o; hot_redirect_inserts := hot_redirect_inserts o;
     update_redirect_inserts := update_redirect_inserts o; primary_key_inserts := primary_key_inserts o;
     primary_key_deletes := v; index_inserts := index_inserts o; cleared_relations := cleared_relations o |}.
Definition set_index_inserts (v : RelidMap IndexInsertMap) (o : TransactionOverlay) : TransactionOverlay :=
  {| pending_pages := pending_pages o; relation_checkpoints := relation_checkpoints o;
     page_checkpoints := page_checkpoints o; new_pages := new_pages o; inserted_tids := inserted_tids o;
     inserted_cids := inserted_cids o; invalidated_tids := invalidated_tids o;
     invalidated_metadata := invalidated_metadata o; hot_redirect_inserts := hot_redirect_inserts o;
     update_redirect_inserts := update_redirect_inserts o; primary_key_inserts := primary_key_inserts o;
     primary_key_deletes := primary_key_deletes o; index_inserts := v;
     cleared_relations := cleared_relations o |}.
Definition set_cleared_relations (v : RelidMap RelationStorage) (o : TransactionOverlay) : TransactionOverlay :=
  {| pending_pages := pending_pages o; relation_checkpoints := relation_checkpoints o;
     page_checkpoints := page_checkpoints o; new_pages := new_pages o; inserted_tids := inserted_tids o;
     inserted_cids := inserted_cids o; invalidated_tids := invalidated_tids o;
     invalidated_metadata := invalidated_metadata o; hot_redirect_inserts := hot_redirect_inserts o;
     update_redirect_inserts := update_redirect_inserts o; primary_key_inserts := primary_key_inserts o;
     primary_key_deletes := primary_key_deletes o; index_inserts := index_inserts o; cleared_relations := v |}.

Definition overlay_is_empty (o : TransactionOverlay) : bool :=
  relid_is_empty (pending_pages o) && relid_is_empty (relation_checkpoints o) && relid_is_empty
  (page_checkpoints o) && relid_is_empty (new_pages o) && relid_is_empty (inserted_tids o) &&
  relid_is_empty (inserted_cids o) && relid_is_empty (invalidated_tids o) && relid_is_empty
  (invalidated_metadata o) && relid_is_empty (hot_redirect_inserts o) && relid_is_empty
  (update_redirect_inserts o) && relid_is_empty (primary_key_inserts o) && relid_is_empty
  (primary_key_deletes o) && relid_is_empty (index_inserts o) && relid_is_empty (cleared_relations o).

(** [entries.iter_mut().find(..)] or push: the lists of pairs of the overlay. *)
Definition upsert {V} (t : Tid) (v : V) (l : list (Tid * V)) : list (Tid * V) := assoc_upsert t (λ _, v) l.

Definition upsert_page_checkpoint (block : Z) (c : PageCheckpoint) (l : list (Z * PageCheckpoint)) :
    list (Z * PageCheckpoint) :=
  match assoc_get block l with Some _ => l | None => l ++ [(block, c)] end.

Definition remap_tid (remaps : list (Tid * Tid)) (t : Tid) : Tid := default t (assoc_get t remaps).

Definition checkpoint_relation (relid : Z) (r : RelationStorage) (o : TransactionOverlay) : TransactionOverlay :=
  set_relation_checkpoints (relid_entry relid (relation_checkpoint r) id (relation_checkpoints o)) o.

Definition checkpoint_page (relid : Z) (p : Page) (o : TransactionOverlay) : TransactionOverlay :=
  if (match relid_get relid (new_pages o) with Some blocks => bool_decide (pg_block p ∈ blocks) | None => false end)
  then o
  else set_page_checkpoints
         (relid_entry relid [] (upsert_page_checkpoint (pg_block p) (page_checkpoint p)) (page_checkpoints o)) o.

Definition record_new_page (relid block : Z) (o : TransactionOverlay) : TransactionOverlay :=
  set_new_pages (relid_entry relid [] (push_unique block) (new_pages o)) o.

Definition insert_tid (relid : Z) (t : Tid) (o : TransactionOverlay) : TransactionOverlay :=
  set_inserted_tids (relid_entry relid [] (push_unique t) (inserted_tids o)) o.

(** [pages.iter().rev().find(..)]: the position of the last page that satisfies [f]. *)
Definition rposition {A} (f : A → bool) (l : list A) : option nat :=
  ia ← list_find (λ a, Is_true (f a)) (reverse l); Some (length l - 1 - ia.1)%nat.

Definition page_has_room (tuple_len : Z) (max : option Z) (p : Page) : bool :=
  can_fit p tuple_len && below_max max (len (line_pointers p)).

Definition append_pending_tuple_to_existing_page (relid : Z) (tuple : list Z) (max : option Z)
    (o : TransactionOverlay) : option Tid * TransactionOverlay :=
  match (ps ← relid_get relid (pending_pages o);
         i ← rposition (page_has_room (len tuple) max) ps;
         p ← ps !! i; Some (i, p)) with
  | None => (None, o)
  | Some (i, p) =>
    let '(tid, p) := append_tuple_with_state tuple LPending p in
    (tid, set_pending_pages (relid_get_mut relid (λ ps, <[i := p]> ps) (pending_pages o)) o)
  end.

Definition push_pending_page (relid : Z) (p : Page) (o : TransactionOverlay) : TransactionOverlay :=
  set_pending_pages (relid_entry relid [] (λ ps, ps ++ [p]) (pending_pages o)) o.

Definition append_pending_tuple_to_new_page (relid : Z) (p : Page) (tuple : list Z) (o : TransactionOverlay) :
    option Tid * TransactionOverlay :=
  let '(tid, p) := append_tuple_with_state tuple LPending p in
  match tid with
  | None => (None, o)
  | Some tid => (Some tid, push_pending_page relid p o)
  end.

Definition append_pending_input_tuple_to_existing_page `{Target} (mem : Z → Z) (relid : Z) (input : RowInput)
    (tuple_len : Z) (max : option Z) : M TransactionOverlay (option Tid) := λ o,
  match (ps ← relid_get relid (pending_pages o);
         i ← rposition (page_has_room tuple_len max) ps;
         p ← ps !! i; Some (i, p)) with
  | None => (Ok None, o)
  | Some (i, p) =>
    let '(res, p) := append_input_tuple_with_state mem input tuple_len LPending p in
    (res, set_pending_pages (relid_get_mut relid (λ ps, <[i := p]> ps) (pending_pages o)) o)
  end.

Definition append_pending_input_tuple_to_new_page `{Target} (mem : Z → Z) (relid : Z) (p : Page)
    (input : RowInput) (tuple_len : Z) : M TransactionOverlay (option Tid) := λ o,
  let '(res, p) := append_input_tuple_with_state mem input tuple_len LPending p in
  match res with
  | Error c m => (Error c m, o)
  | Ok None => (storage_limit_error "storage2 could not allocate tuple page", o)
  | Ok (Some tid) => (Ok (Some tid), push_pending_page relid p o)
  end.

(** The last pending page of a block. *)
Definition pending_page (relid block : Z) (o : TransactionOverlay) : option Page :=
  ps ← relid_get relid (pending_pages o);
  List.find (λ p, pg_block p =? block) (reverse ps).

Definition pending_page_mut (relid block : Z) (f : Page → Page) (o : TransactionOverlay) : TransactionOverlay :=
  match (ps ← relid_get relid (pending_pages o); rposition (λ p, pg_block p =? block) ps) with
  | None => o
  | Some i => set_pending_pages (relid_get_mut relid (alter f i) (pending_pages o)) o
  end.

Definition pending_tuple_slice (relid : Z) (t : Tid) (o : TransactionOverlay) : option (list Z) :=
  p ← pending_page relid (tid_block t) o; page_tuple_slice p (tid_offset t) true.

Definition pending_line (relid : Z) (t : Tid) (o : TransactionOverlay) : option LinePointer :=
  index ← checked_sub (tid_offset t) 1;
  p ← pending_page relid (tid_block t) o;
  line_pointers p !! Z.to_nat index.

Definition pending_line_pointer_state (relid : Z) (t : Tid) (o : TransactionOverlay) : option LinePointerState :=
  lp_state <$> pending_line relid t o.
Definition pending_row_xmin (relid : Z) (t : Tid) (o : TransactionOverlay) : option Z :=
  lp_xmin <$> pending_line relid t o.
Definition pending_row_xmax (relid : Z) (t : Tid) (o : TransactionOverlay) : option Z :=
  lp_xmax <$> pending_line relid t o.

Definition redirects_of (relid : Z) (m : RelidMap (list (Tid * Tid))) : list (Tid * Tid) :=
  default [] (relid_get relid m).

Definition pending_page_needs_stable_tid (relid block : Z) (o : TransactionOverlay) : bool :=
  existsb (λ e, tid_block e.2 =? block)
    (redirects_of relid (hot_redirect_inserts o) ++ redirects_of relid (update_redirect_inserts o)).

Definition pending_line_mut (relid : Z) (t : Tid) (f : LinePointer → LinePointer) (o : TransactionOverlay) :
    bool * TransactionOverlay :=
  match pending_line relid t o with
  | None => (false, o)
  | Some _ => (true, pending_page_mut relid (tid_block t) (update_line (tid_offset t) f) o)
  end.

Definition set_pending_insert_metadata (relid : Z) (t : Tid) (xmin cmin : Z) (o : TransactionOverlay) :
    bool * TransactionOverlay :=
  pending_line_mut relid t
    (λ l, {| lp_offset := lp_offset l; lp_len := lp_len l; lp_state := lp_state l;
             lp_xmin := xmin; lp_cmin := cmin; lp_xmax := lp_xmax l |}) o.

Definition set_pending_row_xmax (relid : Z) (t : Tid) (xmax : Z) (o : TransactionOverlay) :
    bool * TransactionOverlay :=
  pending_line_mut relid t
    (λ l, {| lp_offset := lp_offset l; lp_len := lp_len l; lp_state := lp_state l;
             lp_xmin := lp_xmin l; lp_cmin := lp_cmin l; lp_xmax := xmax |}) o.

Definition extend_high_water_page (offsets : list Z) (p : Page) : list Z :=
  let block := Z.to_nat (pg_block p) in
  let offsets := resize_to (S block) 0 offsets in
  match try_from U16_MAX (len (line_pointers p)) with
  | Some offset => alter (λ old, Z.max old offset) block offsets
  | None => offsets
  end.

Definition extend_high_water_offsets (relid : Z) (o : TransactionOverlay) (offsets : list Z) : list Z :=
  foldl extend_high_water_page offsets (default [] (relid_get relid (pending_pages o))).

Definition set_insert_cid (relid : Z) (t : Tid) (cid : Z) (o : TransactionOverlay) : TransactionOverlay :=
  set_inserted_cids (relid_entry relid [] (upsert t cid) (inserted_cids o)) o.

Definition invalidate (relid : Z) (t : Tid) (o : TransactionOverlay) : TransactionOverlay :=
  set_invalidated_tids (relid_entry relid [] (push_unique t) (invalidated_tids o)) o.

Definition set_invalidate_metadata (relid : Z) (t : Tid) (xid cid : Z) (o : TransactionOverlay) : TransactionOverlay :=
  set_invalidated_metadata (relid_entry relid [] (upsert t (mkDelete xid cid)) (invalidated_metadata o)) o.

Definition ov_insert_hot_redirect (relid : Z) (old_tid new_tid : Tid) (o : TransactionOverlay) : TransactionOverlay :=
  if bool_decide (old_tid = new_tid) then o
  else set_hot_redirect_inserts (relid_entry relid [] (upsert old_tid new_tid) (hot_redirect_inserts o)) o.

Definition ov_insert_update_redirect (relid : Z) (old_tid new_tid : Tid) (o : TransactionOverlay) : TransactionOverlay :=
  if bool_decide (old_tid = new_tid) then o
  else set_update_redirect_inserts (relid_entry relid [] (upsert old_tid new_tid) (update_redirect_inserts o)) o.

Definition delete_primary_key (relid : Z) (key : IndexKey) (o : TransactionOverlay) : TransactionOverlay :=
  set_primary_key_deletes (relid_entry relid ∅ (λ s, {[key]} ∪ s) (primary_key_deletes o)) o.

Definition insert_primary_key (relid : Z) (key : IndexKey) (t : Tid) (o : TransactionOverlay) : TransactionOverlay :=
  set_primary_key_inserts (relid_entry relid ∅ (λ m, <[key := t]> m) (primary_key_inserts o)) o.

Definition ov_insert_index_entry (relid index_relid : Z) (key : IndexKey) (t : Tid) (o : TransactionOverlay) :
    TransactionOverlay :=
  set_index_inserts
    (relid_entry relid ∅ (λ m, let entries := default ∅ (m !! index_relid) in
                               let tids := default [] (entries !! key) in
                               <[index_relid := <[key := push_unique t tids]> entries]> m) (index_inserts o)) o.

Definition remove_primary_key_insert (relid : Z) (key : IndexKey) (o : TransactionOverlay) : TransactionOverlay :=
  match relid_get relid (primary_key_inserts o) with
  | None => o
  | Some entries =>
    let entries := delete key entries in
    if bool_decide (entries = ∅) then set_primary_key_inserts (relid_remove relid (primary_key_inserts o)) o
    else set_primary_key_inserts (relid_get_mut relid (λ _, entries) (primary_key_inserts o)) o
  end.

(** Bring a relation back to what it was before the changes of the overlay. *)
Definition restore_relation_snapshot (relid : Z) (o : TransactionOverlay) (r : RelationStorage) : RelationStorage :=
  let r := foldl (λ r block, mark_page_dead block r) r (default [] (relid_get relid (new_pages o))) in
  let r := foldl (λ r bc, page_mut bc.1 (restore_to_preserving_tid_space bc.2) r) r
             (default [] (relid_get relid (page_checkpoints o))) in
  match relid_get relid (relation_checkpoints o) with
  | Some c => restore_metadata_preserving_tid_space c r
  | None => r
  end.

(** Drop what the overlay has inserted into a relation. *)
Definition forget_inserts (relid : Z) (o : TransactionOverlay) : TransactionOverlay :=
  let o := set_pending_pages (relid_remove relid (pending_pages o)) o in
  let o := set_inserted_tids (relid_remove relid (inserted_tids o)) o in
  let o := set_inserted_cids (relid_remove relid (inserted_cids o)) o in
  let o := set_primary_key_inserts (relid_remove relid (primary_key_inserts o)) o in
  set_index_inserts (relid_remove relid (index_inserts o)) o.

Definition record_relation_clear (relid : Z) (r : RelationStorage) (o : TransactionOverlay) : TransactionOverlay :=
  let o := forget_inserts relid o in
  if relid_contains_key relid (cleared_relations o) then o
  else set_cleared_relations (relid_insert relid (restore_relation_snapshot relid o r) (cleared_relations o)) o.

Definition tids_of (relid : Z) (m : RelidMap (list Tid)) : list Tid := default [] (relid_get relid m).

Definition contains_inserted_tid (relid : Z) (t : Tid) (o : TransactionOverlay) : bool :=
  bool_decide (t ∈ tids_of relid (inserted_tids o)).
Definition contains_invalidated_tid (relid : Z) (t : Tid) (o : TransactionOverlay) : bool :=
  bool_decide (t ∈ tids_of relid (invalidated_tids o)).

Definition inserted_cid (relid : Z) (t : Tid) (o : TransactionOverlay) : option Z :=
  if contains_inserted_tid relid t o then
    Some (default 0 (cids ← relid_get relid (inserted_cids o); assoc_get t cids))
  else None.

Definition invalidated_cid (relid : Z) (t : Tid) (o : TransactionOverlay) : option Z :=
  if contains_invalidated_tid relid t o then
    Some (default 0 (entries ← relid_get relid (invalidated_metadata o); dm_cid <$> assoc_get t entries))
  else None.

Definition insert_shadows_invalidation (insert_cid : Z) (invalidated_cid : option Z) : bool :=
  let invalidated_cid := default 0 invalidated_cid in
  (invalidated_cid <? insert_cid) || ((insert_cid =? 0) && (invalidated_cid =? 0)).

Definition clear_insert_shadows_invalidation (relid : Z) (t : Tid) (o : TransactionOverlay) : bool :=
  relid_contains_key relid (cleared_relations o)
  && match inserted_cid relid t o with
     | Some insert_cid => insert_shadows_invalidation insert_cid (invalidated_cid relid t o)
     | None => false
     end.

Definition ov_has_visibility_deltas (relid : Z) (o : TransactionOverlay) : bool :=
  negb (bool_decide (tids_of relid (inserted_tids o) = []))
  || negb (bool_decide (tids_of relid (invalidated_tids o) = [])).

(** ** Merging a subtransaction into its parent *)

(** [for (relid, xs) in other.drain() { for x in xs { f(target(relid), x) } }] *)
Definition merge_into {V A} (d : V) (f : V → A → V) (m : RelidMap V) (other : RelidMap (list A)) : RelidMap V :=
  foldl (λ m kv, relid_entry kv.1 d (λ target, foldl f target kv.2) m) m other.

Definition merge_cleared (self : TransactionOverlay) (kv : Z * RelationStorage) : TransactionOverlay :=
  let relid := kv.1 in
  let self := forget_inserts relid self in
  if relid_contains_key relid (cleared_relations self) then self
  else set_cleared_relations
         (relid_insert relid (restore_relation_snapshot relid self kv.2) (cleared_relations self)) self.

Definition merge_index_map (target : IndexInsertMap) (entries : IndexInsertMap) : IndexInsertMap :=
  foldl (λ target (ie : Z * gmap IndexKey (list Tid)),
    foldl (λ target (kt : IndexKey * list Tid),
      let es := default ∅ (target !! ie.1) in
      let tids := default [] (es !! kt.1) in
      <[ie.1 := <[kt.1 := foldl (λ l t, push_unique t l) tids kt.2]> es]> target)
      (<[ie.1 := default ∅ (target !! ie.1)]> target) (map_to_list ie.2))
    target (map_to_list entries).

Definition append_from (other self : TransactionOverlay) : TransactionOverlay :=
  let self := foldl merge_cleared self (cleared_relations other) in
  let self := set_pending_pages
    (merge_into [] (λ ps p, ps ++ [p]) (pending_pages self) (pending_pages other)) self in
  let self := set_relation_checkpoints
    (foldl (λ m kv, relid_entry kv.1 kv.2 id m) (relation_checkpoints self) (relation_checkpoints other)) self in
  let self := set_page_checkpoints
    (foldl (λ m kv, relid_entry kv.1 [] (λ target,
       foldl (λ target bc,
         if (match relid_get kv.1 (new_pages self) with
             | Some blocks => bool_decide (bc.1 ∈ blocks) | None => false end) then target
         else upsert_page_checkpoint bc.1 bc.2 target) target kv.2) m)
       (page_checkpoints self) (page_checkpoints other)) self in
  let self := set_new_pages
    (merge_into [] (λ l b, push_unique b l) (new_pages self) (new_pages other)) self in
  let self := set_inserted_tids
    (merge_into [] (λ l t, push_unique t l) (inserted_tids self) (inserted_tids other)) self in
  let self := set_invalidated_tids
    (merge_into [] (λ l t, push_unique t l) (invalidated_tids self) (invalidated_tids other)) self in
  let self := set_inserted_cids
    (merge_into [] (λ l tc, upsert tc.1 tc.2 l) (inserted_cids self) (inserted_cids other)) self in
  let self := set_invalidated_metadata
    (merge_into [] (λ l tm, upsert tm.1 tm.2 l) (invalidated_metadata self) (invalidated_metadata other)) self in
  let self := set_hot_redirect_inserts
    (merge_into [] (λ l tt, upsert tt.1 tt.2 l) (hot_redirect_inserts self) (hot_redirect_inserts other)) self in
  let self := set_update_redirect_inserts
    (merge_into [] (λ l tt, upsert tt.1 tt.2 l) (update_redirect_inserts self) (update_redirect_inserts other)) self in
  let self := set_primary_key_deletes
    (foldl (λ m kv, relid_entry kv.1 ∅ (λ s, kv.2 ∪ s) m) (primary_key_deletes self) (primary_key_deletes other)) self in
  let self := set_primary_key_inserts
    (foldl (λ m kv, relid_entry kv.1 ∅ (λ s, kv.2 ∪ s) m) (primary_key_inserts self) (primary_key_inserts other)) self in
  set_index_inserts
    (foldl (λ m kv, relid_entry kv.1 ∅ (λ s, merge_index_map s kv.2) m) (index_inserts self) (index_inserts other)) self.

(** Replace identifiers of rows of a relation by the ones they got on commit. *)
Definition remap_tids (relid : Z) (remaps : list (Tid * Tid)) (o : TransactionOverlay) : TransactionOverlay :=
  match remaps with
  | [] => o
  | _ =>
    let f := remap_tid remaps in
    let o := set_inserted_tids (relid_get_mut relid (fmap f) (inserted_tids o)) o in
    let o := set_inserted_cids (relid_get_mut relid (fmap (prod_map f id)) (inserted_cids o)) o in
    let o := set_invalidated_tids (relid_get_mut relid (fmap f) (invalidated_tids o)) o in
    let o := set_invalidated_metadata (relid_get_mut relid (fmap (prod_map f id)) (invalidated_metadata o)) o in
    let o := set_hot_redirect_inserts (relid_get_mut relid (fmap (prod_map f f)) (hot_redirect_inserts o)) o in
    let o := set_update_redirect_inserts (relid_get_mut relid (fmap (prod_map f f)) (update_redirect_inserts o)) o in
    let o := set_primary_key_inserts (relid_get_mut relid (fmap f) (primary_key_inserts o)) o in
    set_index_inserts (relid_get_mut relid (λ m : IndexInsertMap,
      (λ es : gmap IndexKey (list Tid), (λ l : list Tid, f <$> l) <$> es) <$> m) (index_inserts o)) o
  end.

(** ** What a stack of overlays says of a row

    The functions look at the stack from its top, the last element. *)

Abbreviation overlays_t := (list TransactionOverlay).

(** [overlays.iter().rev().find_map(f)] *)
Fixpoint find_map {A B} (f : A → option B) (l : list A) : option B :=
  match l with
  | [] => None
  | a :: l => match f a with Some b => Some b | None => find_map f l end
  end.

Fixpoint own_inserted_loop (relid : Z) (t : Tid) (rev : overlays_t) : bool :=
  match rev with
  | [] => false
  | o :: rev =>
    if contains_inserted_tid relid t o then true
    else if relid_contains_key relid (cleared_relations o) then false
    else own_inserted_loop relid t rev
  end.
Definition overlays_own_inserted_tid (overlays : overlays_t) (relid : Z) (t : Tid) : bool :=
  own_inserted_loop relid t (reverse overlays).

Fixpoint clear_tid_loop (relid : Z) (t : Tid) (rev : overlays_t) : bool :=
  match rev with
  | [] => false
  | o :: rev =>
    if contains_inserted_tid relid t o then false
    else if relid_contains_key relid (cleared_relations o) then true
    else clear_tid_loop relid t rev
  end.
Definition overlays_clear_tid (overlays : overlays_t) (relid : Z) (t : Tid) : bool :=
  clear_tid_loop relid t (reverse overlays).

Definition overlay_inserted_cid (overlays : overlays_t) (relid : Z) (t : Tid) : option Z :=
  find_map (inserted_cid relid t) (reverse overlays).

Definition overlays_own_inserted_tid_before (overlays : overlays_t) (relid : Z) (t : Tid) (curcid : Z) : bool :=
  match overlay_inserted_cid overlays relid t with Some cid => cid <? curcid | None => false end.

(** [cid.is_some_and(|c| c < curcid)], with no command number standing for all. *)
Definition cid_before (curcid : option Z) (cid : Z) : bool :=
  match curcid with Some curcid => cid <? curcid | None => true end.

Fixpoint invalidate_loop (curcid : option Z) (relid : Z) (t : Tid) (rev : overlays_t) (later : option Z) : bool :=
  match rev with
  | [] => false
  | o :: rev =>
    let later := match inserted_cid relid t o with
                 | Some cid => if cid_before curcid cid then Some cid else later
                 | None => later
                 end in
    match invalidated_cid relid t o with
    | Some cid =>
      if cid_before curcid cid then
        negb (relid_contains_key relid (cleared_relations o)
              && match later with
                 | Some insert_cid => insert_shadows_invalidation insert_cid (Some cid)
                 | None => false
                 end)
      else invalidate_loop curcid relid t rev later
    | None => invalidate_loop curcid relid t rev later
    end
  end.
Definition overlays_invalidate_tid (overlays : overlays_t) (relid : Z) (t : Tid) : bool :=
  invalidate_loop None relid t (reverse overlays) None.
Definition overlays_invalidate_tid_before (overlays : overlays_t) (relid : Z) (t : Tid) (curcid : Z) : bool :=
  invalidate_loop (Some curcid) relid t (reverse overlays) None.

Definition overlay_tid_redirect (overlays : overlays_t) (relid : Z) (t : Tid) : option Tid :=
  find_map (λ o, assoc_get t (redirects_of relid (hot_redirect_inserts o))) (reverse overlays).

Definition overlay_update_redirect (overlays : overlays_t) (relid : Z) (t : Tid) : option Tid :=
  find_map (λ o, assoc_get t (redirects_of relid (update_redirect_inserts o))) (reverse overlays).

Definition overlay_tid_redirect_target (overlays : overlays_t) (relid : Z) (t : Tid) : bool :=
  existsb (λ o, existsb (λ e, bool_decide (e.2 = t)) (redirects_of relid (hot_redirect_inserts o))) (reverse overlays).

(** The bound of the loops that follow redirects. *)
Definition MAX_HOT_REDIRECT_HOPS : nat := Z.to_nat 1000000.

Fixpoint redirect_root_loop (overlays : overlays_t) (relid : Z) (fuel : nat) (root : Tid) : Tid :=
  match fuel with
  | O => root
  | S fuel =>
    match find_map (λ o, fst <$> List.find (λ e, bool_decide (e.2 = root)) (redirects_of relid (hot_redirect_inserts o)))
            (reverse overlays) with
    | Some previous => redirect_root_loop overlays relid fuel previous
    | None => root
    end
  end.
Definition overlay_tid_redirect_root_for_target (overlays : overlays_t) (relid : Z) (t : Tid) : option Tid :=
  if overlay_tid_redirect_target overlays relid t then
    let root := redirect_root_loop overlays relid MAX_HOT_REDIRECT_HOPS t in
    if bool_decide (root = t) then None else Some root
  else None.

Fixpoint pending_slice_loop (relid : Z) (t : Tid) (rev : overlays_t) : option (list Z) :=
  match rev with
  | [] => None
  | o :: rev =>
    match pending_tuple_slice relid t o with
    | Some tuple => Some tuple
    | None => if relid_contains_key relid (cleared_relations o) then None else pending_slice_loop relid t rev
    end
  end.
Definition overlay_pending_tuple_slice (overlays : overlays_t) (relid : Z) (t : Tid) : option (list Z) :=
  pending_slice_loop relid t (reverse overlays).

Definition overlay_pending_line_pointer_state (overlays : overlays_t) (relid : Z) (t : Tid) : option LinePointerState :=
  find_map (pending_line_pointer_state relid t) (reverse overlays).
Definition overlay_pending_row_xmin (overlays : overlays_t) (relid : Z) (t : Tid) : option Z :=
  find_map (pending_row_xmin relid t) (reverse overlays).
Definition overlay_pending_row_xmax (overlays : overlays_t) (relid : Z) (t : Tid) : option Z :=
  find_map (pending_row_xmax relid t) (reverse overlays).

(** The shortened decision for a stack of one overlay: [None] if the row is
    not visible, else whether it is a pending row of the transaction. *)
Definition single_overlay_tid_visibility (o : TransactionOverlay) (relid : Z) (t : Tid) (curcid : option Z) :
    option bool :=
  let relation_cleared := relid_contains_key relid (cleared_relations o) in
  let inserted := contains_inserted_tid relid t o in
  let invalidated := contains_invalidated_tid relid t o in
  if bool_decide (curcid = None) && negb relation_cleared then
    if invalidated then None else Some inserted
  else
    let inserted_cid := if inserted then Some (default 0 (inserted_cid relid t o)) else None in
    let invalidated_cid := if invalidated then Some (default 0 (invalidated_cid relid t o)) else None in
    let shadows := match inserted_cid with
                   | Some cid => cid_before curcid cid && insert_shadows_invalidation cid invalidated_cid
                   | None => false
                   end in
    match curcid with
    | Some curcid =>
      if match invalidated_cid with Some cid => cid <? curcid | None => false end
         && negb (relation_cleared && shadows) then None
      else
        let include_pending := match inserted_cid with Some cid => cid <? curcid | None => false end in
        if bool_decide (is_Some inserted_cid) && negb include_pending then None
        else if negb include_pending && relation_cleared then None
        else Some include_pending
    | None =>
      if bool_decide (is_Some invalidated_cid) && negb (relation_cleared && shadows) then None
      else if bool_decide (inserted_cid = None) && relation_cleared then None
      else Some (bool_decide (is_Some inserted_cid))
    end.

Definition single_overlay_visible_pending_tuple_slice (o : TransactionOverlay) (relid : Z) (t : Tid)
    (curcid : option Z) : option (list Z) :=
  visible ← single_overlay_tid_visibility o relid t curcid;
  if (visible : bool) then pending_tuple_slice relid t o else None.

(** ** Sessions *)

Record SessionStorage := {
  transaction_stack : overlays_t;
  explicit_transaction : bool;
  scans : list (option ScanState);
}.
Definition session_default : SessionStorage :=
  {| transaction_stack := []; explicit_transaction := false; scans := [] |}.

Definition set_transaction_stack (v : overlays_t) (s : SessionStorage) : SessionStorage :=
  {| transaction_stack := v; explicit_transaction := explicit_transaction s; scans := scans s |}.
Definition set_explicit_transaction (v : bool) (s : SessionStorage) : SessionStorage :=
  {| transaction_stack := transaction_stack s; explicit_transaction := v; scans := scans s |}.
Definition set_scans (v : list (option ScanState)) (s : SessionStorage) : SessionStorage :=
  {| transaction_stack := transaction_stack s; explicit_transaction := explicit_transaction s; scans := v |}.

Definition ensure_transaction (s : SessionStorage) : SessionStorage :=
  match transaction_stack s with
  | [] => set_transaction_stack [overlay_default] s
  | _ => s
  end.

(** [transaction_stack.last_mut()], changed by [f]. *)
Definition last_overlay_mut (f : TransactionOverlay → TransactionOverlay) (s : SessionStorage) : SessionStorage :=
  set_transaction_stack (alter f (length (transaction_stack s) - 1)%nat (transaction_stack s)) s.

(** [transaction_stack.pop()] *)
Definition pop_overlay (s : SessionStorage) : option TransactionOverlay * SessionStorage :=
  match last (transaction_stack s) with
  | None => (None, s)
  | Some o => (Some o, set_transaction_stack (take (length (transaction_stack s) - 1)%nat (transaction_stack s)) s)
  end.

Definition commit_empty_implicit_transaction (s : SessionStorage) : bool * SessionStorage :=
  if explicit_transaction s then (true, s)
  else match last (transaction_stack s) with
       | None => (true, s)
       | Some o => if overlay_is_empty o then (true, snd (pop_overlay s)) else (false, s)
       end.

Definition abort_empty_implicit_transaction (s : SessionStorage) : bool * SessionStorage :=
  if explicit_transaction s then (true, s)
  else if existsb (λ o, negb (overlay_is_empty o)) (transaction_stack s) then (false, s)
  else (true, set_transaction_stack [] s).

Definition allocate_scan_handle (s : SessionStorage) : Z * SessionStorage :=
  match list_find (λ o : option ScanState, ¬ is_Some o) (scans s) with
  | Some (index, _) => (Z.of_nat index + 1, s)
  | None => let s := set_scans (scans s ++ [None]) s in (len (scans s), s)
  end.

Definition scan_slot (handle : Z) (s : SessionStorage) : option ScanState :=
  index ← checked_sub handle 1; mjoin (scans s !! Z.to_nat index).

Definition scan_slot_mut (handle : Z) (f : ScanState → ScanState) (s : SessionStorage) : SessionStorage :=
  match checked_sub handle 1 with
  | Some index => set_scans (alter (fmap f) (Z.to_nat index) (scans s)) s
  | None => s
  end.

Definition insert_scan (handle : Z) (scan : ScanState) (s : SessionStorage) : bool * SessionStorage :=
  match checked_sub handle 1 with
  | None => (false, s)
  | Some index =>
    match scans s !! Z.to_nat index with
    | None => (false, s)
    | Some _ => (true, set_scans (<[Z.to_nat index := Some scan]> (scans s)) s)
    end
  end.

Definition remove_scan (handle : Z) (s : SessionStorage) : SessionStorage :=
  match checked_sub handle 1 with
  | Some index => set_scans (<[Z.to_nat index := None]> (scans s)) s
  | None => s
  end.

Definition set_scan_deltas (v : bool) (scan : ScanState) : ScanState :=
  {| scan_relid := scan_relid scan; high_water_offsets := high_water_offsets scan;
     forward_cursor := forward_cursor scan; backward_cursor := backward_cursor scan;
     forward_exhausted := forward_exhausted scan; backward_exhausted := backward_exhausted scan;
     scan_has_visibility_deltas := v; overlay_only := overlay_only scan; snapshot_curcid := snapshot_curcid scan |}.

Definition mark_scans_visibility_delta (relid : Z) (s : SessionStorage) : SessionStorage :=
  set_scans (fmap (M := list) (fmap (M := option) (λ scan,
    if scan_relid scan =? relid then set_scan_deltas true scan else scan)) (scans s)) s.

Definition owns_inserted_tid (s : SessionStorage) (relid : Z) (t : Tid) : bool :=
  overlays_own_inserted_tid (transaction_stack s) relid t.

Definition transaction_has_visibility_deltas (s : SessionStorage) (relid : Z) : bool :=
  existsb (ov_has_visibility_deltas relid) (transaction_stack s).

(** [if let Some(i) = tids.iter().position(|e| e == t) { tids.swap_remove(i) }] *)
Definition swap_remove_tid (tids : list Tid) (t : Tid) : list Tid :=
  match list_find (λ e, e = t) tids with
  | Some (index, _) => swap_remove index tids
  | None => tids
  end.

Definition transaction_visible_insert_count (s : SessionStorage) (relid : Z) : Z :=
  len (foldl (λ tids o,
    let tids := foldl (λ l t, push_unique t l) tids (tids_of relid (inserted_tids o)) in
    foldl swap_remove_tid tids (tids_of relid (invalidated_tids o))) [] (transaction_stack s)).

Definition transaction_invalidated_live_count (s : SessionStorage) (relid : Z) : Z :=
  let tids := foldl (λ tids o, foldl (λ l t, push_unique t l) tids (tids_of relid (invalidated_tids o)))
                [] (transaction_stack s) in
  len (filter (λ t, Is_true (negb (owns_inserted_tid s relid t))) tids).

Definition single_overlay_row_count_delta (s : SessionStorage) (relid : Z) : option Z :=
  match transaction_stack s with
  | [o] => Some (len (tids_of relid (inserted_tids o)) - len (tids_of relid (invalidated_tids o)))
  | _ => None
  end.
