(* ===== verification/EngState.v ===== *)
(** * The engine: committed relations and transactions

    crates/fastpg-storage2/src/state.rs: the relations shared by all sessions,
    the end of transactions, what a session sees of a row, inserting, updating
    and clearing.  The state of a call is a [World]: the shared relations, the
    shared row counters and the session that makes the call. *)

From Stdlib Require Import ZArith Lia.
From stdpp Require Import base tactics numbers list gmap sorting strings.
From S2P Require Import Prelude RustStd EngTid EngTuple EngPage EngIndex EngRelation EngOverlay.

Local Open Scope Z_scope.

Record StorageState := {
  relations : gmap Z RelationStorage;
  st_epoch : Z;
  st_generation : Z;
}.
Definition storage_default : StorageState := {| relations := ∅; st_epoch := 0; st_generation := 0 |}.

Definition set_relations (v : gmap Z RelationStorage) (st : StorageState) : StorageState :=
  {| relations := v; st_epoch := st_epoch st; st_generation := st_generation st |}.

(** [relations.get_mut(&relid)], and [relations.entry(relid).or_default()]. *)
Definition relation_get_mut (relid : Z) (f : RelationStorage → RelationStorage) (st : StorageState) : StorageState :=
  set_relations (alter f relid (relations st)) st.
Definition relation_of (st : StorageState) (relid : Z) : RelationStorage :=
  default relation_default (relations st !! relid).
Definition relation_mut (relid : Z) (f : RelationStorage → RelationStorage) (st : StorageState) : StorageState :=
  set_relations (<[relid := f (relation_of st relid)]> (relations st)) st.

Record World := {
  w_storage : StorageState;
  w_row_counts : gmap Z Z;
  w_session : SessionStorage;
}.
Definition set_w_storage (v : StorageState) (w : World) : World :=
  {| w_storage := v; w_row_counts := w_row_counts w; w_session := w_session w |}.
Definition set_w_row_counts (v : gmap Z Z) (w : World) : World :=
  {| w_storage := w_storage w; w_row_counts := v; w_session := w_session w |}.
Definition set_w_session (v : SessionStorage) (w : World) : World :=
  {| w_storage := w_storage w; w_row_counts := w_row_counts w; w_session := v |}.

Definition on_storage (f : StorageState → StorageState) (w : World) : World := set_w_storage (f (w_storage w)) w.
Definition on_session (f : SessionStorage → SessionStorage) (w : World) : World := set_w_session (f (w_session w)) w.
Definition w_stack (w : World) : list TransactionOverlay := transaction_stack (w_session w).

(** Run an operation on the relation of a relid, made if need be, and on the top overlay. *)
Definition in_relation {A} (relid : Z) (m : M RelationStorage A) : M World A := λ w,
  let '(res, r) := m (relation_of (w_storage w) relid) in
  (res, on_storage (set_relations (<[relid := r]> (relations (w_storage w)))) w).
Definition in_overlay {A} (m : M TransactionOverlay A) : M World A := λ w,
  match last (w_stack w) with
  | None => (panic "transaction was just ensured", w)
  | Some o => let '(res, o) := m o in (res, on_session (last_overlay_mut (λ _, o)) w)
  end.
(** A function that also returns something, as an operation. *)
Definition returning {S A} (f : S → A * S) : M S A := λ s, let '(a, s) := f s in (Ok a, s).

(** ** Redirects *)

Definition next_redirect (hot : bool) (st : StorageState) (overlays : list TransactionOverlay) (relid : Z) (t : Tid) :
    option Tid :=
  match (if hot then overlay_tid_redirect overlays relid t else overlay_update_redirect overlays relid t) with
  | Some next => Some next
  | None => r ← relations st !! relid; (if hot then hot_redirects r else update_redirects r) !! t
  end.

Fixpoint resolve_loop (next : Tid → option Tid) (fuel : nat) (t : Tid) : Tid :=
  match fuel with
  | O => t
  | S fuel => match next t with Some t => resolve_loop next fuel t | None => t end
  end.

Definition resolve_tid_redirect_in_overlays (st : StorageState) (overlays : list TransactionOverlay) (relid : Z)
    (t : Tid) : Tid :=
  resolve_loop (next_redirect true st overlays relid) MAX_HOT_REDIRECT_HOPS t.

Definition resolve_update_redirect_in_overlays (st : StorageState) (overlays : list TransactionOverlay) (relid : Z)
    (t : Tid) : Tid :=
  resolve_loop (next_redirect false st overlays relid) MAX_HOT_REDIRECT_HOPS t.

(** The same, remembering the rows left through a committed redirect, and
    whether a redirect of the transaction was followed. *)
Fixpoint compress_loop (overlay_next committed_next : Tid → option Tid) (fuel : nat)
    (t : Tid) (visited : list Tid) (followed : bool) : Tid * list Tid * bool :=
  match fuel with
  | O => (t, visited, followed)
  | S fuel =>
    match overlay_next t with
    | Some next => compress_loop overlay_next committed_next fuel next visited true
    | None =>
      match committed_next t with
      | Some next =>
        compress_loop overlay_next committed_next fuel next (if followed then visited else visited ++ [t]) followed
      | None => (t, visited, followed)
      end
    end
  end.

Definition resolve_tid_redirect_in_overlays_compress (overlays : list TransactionOverlay) (relid : Z) (t : Tid)
    (st : StorageState) : Tid * StorageState :=
  let '(final, visited, followed) :=
    compress_loop (overlay_tid_redirect overlays relid) (λ t, r ← relations st !! relid; hot_redirects r !! t)
      MAX_HOT_REDIRECT_HOPS t [] false in
  (final,
   if negb followed && negb (bool_decide (final = t)) then
     relation_get_mut relid (λ r, foldl (λ r v, if bool_decide (v = final) then r
                                                else rel_insert_hot_redirect v final r) r visited) st
   else st).

Definition resolve_update_redirect_in_overlays_compress (overlays : list TransactionOverlay) (relid : Z) (t : Tid)
    (st : StorageState) : Tid * StorageState :=
  let '(final, visited, followed) :=
    compress_loop (overlay_update_redirect overlays relid) (λ t, r ← relations st !! relid; update_redirects r !! t)
      MAX_HOT_REDIRECT_HOPS t [] false in
  (final,
   if negb followed && negb (bool_decide (final = t)) then
     relation_get_mut relid (λ r, foldl (λ r v, if bool_decide (v = final) then r
                                    else set_update_redirects (<[v := final]> (update_redirects r)) r) r visited) st
   else st).

(** ** Visibility *)

Definition physical_visible_tuple_slice_in_overlays (st : StorageState) (overlays : list TransactionOverlay)
    (relid : Z) (t : Tid) : option (list Z) :=
  let committed include_pending := r ← relations st !! relid; rel_tuple_slice r t include_pending in
  match overlays with
  | [o] =>
    include_pending ← single_overlay_tid_visibility o relid t None;
    match (if (include_pending : bool) then pending_tuple_slice relid t o else None) with
    | Some tuple => Some tuple
    | None => committed include_pending
    end
  | _ =>
    if overlays_invalidate_tid overlays relid t then None
    else if overlays_clear_tid overlays relid t then None
    else
      let own := overlays_own_inserted_tid overlays relid t in
      match (if own then overlay_pending_tuple_slice overlays relid t else None) with
      | Some tuple => Some tuple
      | None => committed own
      end
  end.

Definition visible_tuple_slice_in_overlays (st : StorageState) (overlays : list TransactionOverlay)
    (relid : Z) (t : Tid) : option (list Z) :=
  physical_visible_tuple_slice_in_overlays st overlays relid (resolve_tid_redirect_in_overlays st overlays relid t).

Definition physical_visible_tuple_slice_for_session (st : StorageState) (s : SessionStorage) (relid : Z) (t : Tid)
    (has_visibility_deltas : bool) : option (list Z) :=
  if has_visibility_deltas then physical_visible_tuple_slice_in_overlays st (transaction_stack s) relid t
  else r ← relations st !! relid; rel_tuple_slice r t false.

Definition physical_visible_tuple_slice_in_overlays_at_cid (st : StorageState) (overlays : list TransactionOverlay)
    (relid : Z) (t : Tid) (curcid : Z) : option (list Z) :=
  let committed include_pending := r ← relations st !! relid; rel_tuple_slice r t include_pending in
  match overlays with
  | [o] =>
    include_pending ← single_overlay_tid_visibility o relid t (Some curcid);
    match (if (include_pending : bool) then pending_tuple_slice relid t o else None) with
    | Some tuple => Some tuple
    | None => committed include_pending
    end
  | _ =>
    if overlays_invalidate_tid_before overlays relid t curcid then None
    else if overlays_clear_tid overlays relid t then None
    else
      let owns_pending := overlays_own_inserted_tid overlays relid t in
      let include_pending := overlays_own_inserted_tid_before overlays relid t curcid in
      if owns_pending && negb include_pending then None
      else match (if include_pending then overlay_pending_tuple_slice overlays relid t else None) with
           | Some tuple => Some tuple
           | None => committed include_pending
           end
  end.

Fixpoint visible_at_cid_loop (st : StorageState) (overlays : list TransactionOverlay) (relid curcid : Z)
    (fuel : nat) (t : Tid) : option (list Z) :=
  match fuel with
  | O => None
  | S fuel =>
    match physical_visible_tuple_slice_in_overlays_at_cid st overlays relid t curcid with
    | Some tuple => Some tuple
    | None => match next_redirect true st overlays relid t with
              | Some next => visible_at_cid_loop st overlays relid curcid fuel next
              | None => None
              end
    end
  end.
Definition visible_tuple_slice_in_overlays_at_cid (st : StorageState) (overlays : list TransactionOverlay)
    (relid : Z) (t : Tid) (curcid : Z) : option (list Z) :=
  visible_at_cid_loop st overlays relid curcid MAX_HOT_REDIRECT_HOPS t.

Definition find_visible_tuple_in_overlays `{Target} (st : StorageState) (overlays : list TransactionOverlay)
    (relid : Z) (t : Tid) : option DecodedTuple :=
  let t := resolve_tid_redirect_in_overlays st overlays relid t in
  tuple ← visible_tuple_slice_in_overlays st overlays relid t;
  decode_tuple t tuple.
Definition find_visible_tuple `{Target} (st : StorageState) (s : SessionStorage) (relid : Z) (t : Tid) :
    option DecodedTuple :=
  find_visible_tuple_in_overlays st (transaction_stack s) relid t.

Definition index_tid_all_dead (st : StorageState) (s : SessionStorage) (relid : Z) (t : Tid) : bool :=
  let overlays := transaction_stack s in
  let t := resolve_tid_redirect_in_overlays st overlays relid t in
  if bool_decide (is_Some (physical_visible_tuple_slice_in_overlays st overlays relid t)) then false
  else match overlay_pending_line_pointer_state overlays relid t with
       | Some state => bool_decide (state = LDead)
       | None =>
         match relations st !! relid with
         | None => true
         | Some r =>
           bool_decide (t ∉ pending_reserved_tids r) && bool_decide (tid_block t ∉ pending_reserved_blocks r)
           && match line_pointer_state r t with None => true | Some state => bool_decide (state = LDead) end
         end
       end.

(** The rows that a session sees, in order. *)
Definition visible_tids (st : StorageState) (s : SessionStorage) (relid : Z) : list Tid :=
  let committed := match relations st !! relid with Some r => tid_iter (live_tids r) | None => [] end in
  let inserted := concat ((λ o, tids_of relid (inserted_tids o)) <$> transaction_stack s) in
  filter (λ t, is_Some (physical_visible_tuple_slice_in_overlays st (transaction_stack s) relid t))
    (tid_iter (list_to_set (committed ++ inserted))).

(** Metadata of rows: that of the transaction first. *)
Definition row_xmin (st : StorageState) (s : SessionStorage) (relid : Z) (t : Tid) : Z :=
  match overlay_pending_row_xmin (transaction_stack s) relid t with
  | Some xmin => xmin
  | None => default 0 (r ← relations st !! relid; rel_row_xmin r t)
  end.
Definition row_cmin (st : StorageState) (s : SessionStorage) (relid : Z) (t : Tid) : Z :=
  match find_map (λ o, cids ← relid_get relid (inserted_cids o); assoc_get t cids) (reverse (transaction_stack s)) with
  | Some cid => cid
  | None => default 0 (r ← relations st !! relid; rel_row_cmin r t)
  end.
Definition row_xmax (st : StorageState) (s : SessionStorage) (relid : Z) (t : Tid) : Z :=
  match overlay_pending_row_xmax (transaction_stack s) relid t with
  | Some xmax => xmax
  | None => default 0 (r ← relations st !! relid; rel_row_xmax r t)
  end.
Definition delete_metadata (s : SessionStorage) (relid : Z) (t : Tid) : option DeleteMetadata :=
  find_map (λ o, es ← relid_get relid (invalidated_metadata o); assoc_get t es) (reverse (transaction_stack s)).
Definition row_delete_xid (st : StorageState) (s : SessionStorage) (relid : Z) (t : Tid) : Z :=
  match delete_metadata s relid t with
  | Some m => dm_xid m
  | None => default 0 (r ← relations st !! relid; row_delete_xids r !! t)
  end.
Definition row_delete_cid (st : StorageState) (s : SessionStorage) (relid : Z) (t : Tid) : Z :=
  match delete_metadata s relid t with
  | Some m => dm_cid m
  | None => default 0 (r ← relations st !! relid; row_delete_cids r !! t)
  end.

(** ** The end of transactions *)

Definition refresh_cached_row_count (relid : Z) (w : World) : World :=
  set_w_row_counts (<[relid := default 0 (live_tuple_count <$> relations (w_storage w) !! relid)]> (w_row_counts w)) w.

(** [existing += delta] or push. *)
Definition add_row_count_delta (relid delta : Z) (deltas : list (Z * Z)) : list (Z * Z) :=
  assoc_upsert relid (λ o, default 0 o + delta) deltas.

(** One pending row is appended to the committed pages under a new identifier. *)
Definition commit_line (epoch generation : Z) (p : Page) (ol : Z * LinePointer) :
    M (RelationStorage * list (Tid * Tid)) unit := λ '(r, remaps),
  let line := ol.2 in
  if bool_decide (lp_state line = LDead) then (Ok tt, (r, remaps)) else
  match try_from U16_MAX ol.1 with
  | None => (Ok tt, (r, remaps))
  | Some offset =>
    let old_tid := mkTid (pg_block p) offset in
    match page_tuple_slice p offset true with
    | None => (Ok tt, (r, remaps))
    | Some tuple =>
      let r := set_pending_reserved_tids (pending_reserved_tids r ∖ {[old_tid]}) r in
      match append_target_block (len tuple) epoch generation r with
      | (None, r) => (panic "reserved pending tuple should fit into committed relation", (r, remaps))
      | (Some block, r) =>
        match rel_append_pending_tuple block tuple r with
        | (None, r) => (panic "reserved pending tuple should append into committed relation", (r, remaps))
        | (Some new_tid, r) =>
          let r := snd (rel_set_insert_metadata new_tid (lp_xmin line) (lp_cmin line) r) in
          let r := snd (rel_set_row_xmax new_tid (lp_xmax line) r) in
          let r := if bool_decide (old_tid = new_tid) then r
                   else set_update_redirects (<[old_tid := new_tid]> (update_redirects r))
                          (set_hot_redirects (<[old_tid := new_tid]> (hot_redirects r)) r) in
          (Ok tt, (r, remaps ++ [(old_tid, new_tid)]))
        end
      end
    end
  end.

Definition relation_is_fresh (r : RelationStorage) : bool :=
  (live_tuple_count r =? 0) && (pending_tuple_count r =? 0) && (dead_tuple_count r =? 0)
  && bool_decide (physical_blocks r = ∅).

(** A pending page becomes a page of the relation as it is, or its rows are appended. *)
Definition commit_page (epoch generation : Z) (stable : Z → bool) (p : Page) :
    M (RelationStorage * list (Tid * Tid)) unit := λ '(r, remaps),
  let r := set_pending_reserved_blocks (pending_reserved_blocks r ∖ {[pg_block p]}) r in
  if stable (pg_block p) || relation_is_fresh r then
    let reserved := omap (λ ol : Z * LinePointer, mkTid (pg_block p) <$> try_from U16_MAX ol.1) (page_lines p) in
    let r := set_pending_reserved_tids (pending_reserved_tids r ∖ list_to_set reserved) r in
    (Ok tt, (insert_page p r, remaps))
  else for_each (page_lines p) (commit_line epoch generation p) (r, remaps).

(** The pending pages of one relation; the overlay gets the new identifiers. *)
Definition commit_pages (overlay : TransactionOverlay) (relid : Z) (ps : list Page) : M StorageState TransactionOverlay :=
  λ st,
  let stable block := pending_page_needs_stable_tid relid block overlay in
  let '(res, (r, remaps)) :=
    for_each ps (commit_page (st_epoch st) (st_generation st) stable) (relation_of st relid, []) in
  let st := set_relations (<[relid := r]> (relations st)) st in
  match res with
  | Ok _ => (Ok (remap_tids relid remaps overlay), st)
  | Error c m => (Error c m, st)
  end.

Fixpoint commit_all_pages (overlay : TransactionOverlay) (pending : list (Z * list Page)) :
    M StorageState TransactionOverlay :=
  match pending with
  | [] => mret overlay
  | (relid, ps) :: pending => overlay ← commit_pages overlay relid ps; commit_all_pages overlay pending
  end.

Definition commit_inserted (relid : Z) (acc : StorageState * list (Z * Z)) (t : Tid) : StorageState * list (Z * Z) :=
  let '(st, deltas) := acc in
  match relations st !! relid with
  | None => acc
  | Some r => let '(live, r) := rel_mark_live t r in
              (set_relations (<[relid := r]> (relations st)) st,
               if live then add_row_count_delta relid 1 deltas else deltas)
  end.

Definition commit_invalidated (overlay : TransactionOverlay) (relid : Z) (acc : StorageState * list (Z * Z)) (t : Tid) :
    StorageState * list (Z * Z) :=
  let '(st, deltas) := acc in
  match relations st !! relid with
  | None => acc
  | Some r =>
    if negb (relid_is_empty (cleared_relations overlay)) && clear_insert_shadows_invalidation relid t overlay then acc
    else
      let '(dead, r) := rel_mark_dead t r in
      let deltas := if dead then add_row_count_delta relid (-1) deltas else deltas in
      let r := match (es ← relid_get relid (invalidated_metadata overlay); assoc_get t es) with
               | Some m => set_row_delete_cids (<[t := dm_cid m]> (row_delete_cids r))
                             (set_row_delete_xids (<[t := dm_xid m]> (row_delete_xids r)) r)
               | None => r
               end in
      (set_relations (<[relid := r]> (relations st)) st, deltas)
  end.

(** [for (relid, xs) in map { if let Some(relation) = get_mut(relid) { for x in xs { f } } }] *)
Definition for_relations {V} (f : V → RelationStorage → RelationStorage) (m : RelidMap V) (st : StorageState) :
    StorageState :=
  foldl (λ st kv, relation_get_mut kv.1 (f kv.2) st) st m.

Definition commit_primary_key (r : RelationStorage) (kt : IndexKey * Tid) : RelationStorage :=
  match rel_tuple_slice r kt.2 false with
  | Some _ => set_primary_key_index (<[kt.1 := kt.2]> (primary_key_index r)) r
  | None => r
  end.

Definition commit_index_map (entries : IndexInsertMap) (r : RelationStorage) : RelationStorage :=
  foldl (λ r (ie : Z * gmap IndexKey (list Tid)),
    foldl (λ r (kt : IndexKey * list Tid),
      foldl (λ r t, match rel_tuple_slice r t false with
                    | Some _ => rel_insert_index_entry ie.1 kt.1 t r
                    | None => r
                    end) r kt.2) r (map_to_list ie.2)) r (map_to_list entries).

Definition commit_overlay_to_relations (overlay : TransactionOverlay) : M World unit := λ w,
  let pending := pending_pages overlay in
  let overlay := set_pending_pages [] overlay in
  match commit_all_pages overlay pending (w_storage w) with
  | (Error c m, st) => (Error c m, set_w_storage st w)
  | (Ok overlay, st) =>
    let '(st, deltas) := foldl (λ acc kv, foldl (commit_inserted kv.1) acc kv.2) (st, []) (inserted_tids overlay) in
    let '(st, deltas) :=
      foldl (λ acc kv, foldl (commit_invalidated overlay kv.1) acc kv.2) (st, deltas) (invalidated_tids overlay) in
    let st := for_relations (λ rs r, foldl (λ r tt, rel_insert_hot_redirect tt.1 tt.2 r) r rs)
                (hot_redirect_inserts overlay) st in
    let st := for_relations
                (λ rs r, set_update_redirects (foldl (λ m tt, <[tt.1 := tt.2]> m) (update_redirects r) rs) r)
                (update_redirect_inserts overlay) st in
    let st := for_relations
                (λ ks r, set_primary_key_index (filter (λ kv, kv.1 ∉ ks) (primary_key_index r)) r)
                (primary_key_deletes overlay) st in
    let st := for_relations (λ es r, foldl commit_primary_key r (map_to_list es)) (primary_key_inserts overlay) st in
    let st := for_relations commit_index_map (index_inserts overlay) st in
    (Ok tt, foldl (λ w rd, if rd.2 =? 0 then w else refresh_cached_row_count rd.1 w) (set_w_storage st w) deltas)
  end.

Definition commit_top_overlay : M World unit := λ w,
  match pop_overlay (w_session w) with
  | (None, _) => (Ok tt, w)
  | (Some o, s) =>
    let w := set_w_session s w in
    match transaction_stack s with
    | [] => commit_overlay_to_relations o w
    | _ => (Ok tt, on_session (last_overlay_mut (append_from o)) w)
    end
  end.

(** [while !session.transaction_stack.is_empty()]; every round pops one overlay. *)
Fixpoint commit_stack_loop (fuel : nat) : M World unit :=
  match fuel with
  | O => mret tt
  | S fuel => stack ← gets w_stack;
              match stack with [] => mret tt | _ => commit_top_overlay;; commit_stack_loop fuel end
  end.
Definition commit_stack : M World unit := λ w, commit_stack_loop (length (w_stack w)) w.

Definition bump_generation : M World unit :=
  modify (on_storage (λ st, {| relations := relations st; st_epoch := st_epoch st;
                               st_generation := saturating_add (2 ^ 64 - 1) (st_generation st) 1 |})).
Definition bump_epoch : M World unit :=
  modify (on_storage (λ st, {| relations := relations st; st_epoch := saturating_add (2 ^ 64 - 1) (st_epoch st) 1;
                               st_generation := st_generation st |})).

Definition commit_explicit_transaction : M World unit :=
  commit_stack;; modify (on_session (set_explicit_transaction false));; bump_generation.

Definition commit_implicit_transaction : M World unit :=
  explicit ← gets (λ w, explicit_transaction (w_session w));
  if (explicit : bool) then mret tt else commit_stack;; bump_generation.

Definition begin_explicit_transaction : M World unit :=
  explicit ← gets (λ w, explicit_transaction (w_session w));
  (if (explicit : bool) then mret tt else commit_implicit_transaction);;
  modify (on_session ensure_transaction);;
  modify (on_session (set_explicit_transaction true)).

(** Undo the effects that an overlay already had on the shared relations. *)
Definition rollback_overlay_from_relations (overlay : TransactionOverlay) (w : World) : World :=
  let w := on_storage (for_relations (λ tids r,
    foldl (λ r t, snd (rel_mark_dead t (set_pending_reserved_tids (pending_reserved_tids r ∖ {[t]}) r))) r tids)
    (inserted_tids overlay)) w in
  let w := on_storage (for_relations (λ ps r,
    foldl (λ r p, set_pending_reserved_blocks (pending_reserved_blocks r ∖ {[pg_block p]}) r) r ps)
    (pending_pages overlay)) w in
  let w := foldl (λ w kc,
    match relations (w_storage w) !! kc.1 with
    | Some _ => refresh_cached_row_count kc.1
                  (on_storage (relation_get_mut kc.1 (restore_rollback_metadata_preserving_tid_space kc.2)) w)
    | None => w
    end) w (relation_checkpoints overlay) in
  let w := foldl (λ w kr,
    refresh_cached_row_count kr.1 (on_storage (λ st, set_relations (<[kr.1 := kr.2]> (relations st)) st) w))
    w (cleared_relations overlay) in
  foldl (λ w relid, refresh_cached_row_count relid w) w (fst <$> cleared_relations overlay).

(** [while let Some(overlay) = session.transaction_stack.pop()] *)
Fixpoint rollback_loop (fuel : nat) (w : World) : World :=
  match fuel with
  | O => w
  | S fuel =>
    match pop_overlay (w_session w) with
    | (None, _) => w
    | (Some o, s) => rollback_loop fuel (rollback_overlay_from_relations o (set_w_session s w))
    end
  end.
Definition rollback_all_overlays (w : World) : World := rollback_loop (length (w_stack w)) w.

Definition abort_explicit_transaction : M World unit :=
  modify rollback_all_overlays;; modify (on_session (set_explicit_transaction false));; bump_epoch.

Definition abort_implicit_transaction : M World unit :=
  explicit ← gets (λ w, explicit_transaction (w_session w));
  if (explicit : bool) then mret tt else modify rollback_all_overlays;; bump_epoch.
