(* ===== verification/EngOps.v ===== *)
(** * Inserting, updating, deleting and clearing

    The operations of crates/fastpg-storage2/src/state.rs and lib.rs that
    change rows.  [mem] is the memory that by-reference values point into, and
    [fuel] bounds the length of C strings in keys. *)

From Stdlib Require Import ZArith Lia.
From stdpp Require Import base tactics numbers list gmap strings.
From S2P Require Import Prelude RustStd EngTid EngTuple EngPage EngIndex EngRelation EngOverlay EngState.

Local Open Scope Z_scope.

Inductive UniqueCheck := Enforce | Skip.
#[global] Instance UniqueCheck_eq_dec : EqDecision UniqueCheck.
Proof. solve_decision. Defined.

Record InsertMetadata := { im_xid : Z; im_cid : Z }.
Record UpdateMetadata := {
  um_delete_xid : Z;
  um_delete_cid : Z;
  um_insert_xid : Z;
  um_insert_cid : Z;
  um_row_xmax : Z;
}.
Record SingleByvalHotKey := { hk_attnum : Z; hk_value : Z; hk_is_null : Z }.

Section ops.
Context `{Target} `{Catalog} (mem : Z → Z) (fuel : nat).

(** [relations.get(&relid).and_then(|relation| relation.max_tuples_per_block)] *)
Definition max_tuples_of (relid : Z) (w : World) : option Z :=
  r ← relations (w_storage w) !! relid; max_tuples_per_block r.

(** ** Appending pending rows *)

Definition reserve_pending_page (relid tuple_len : Z) : M World Page := λ w,
  let st := w_storage w in
  match reserve_block (relation_of st relid) with
  | (None, r) => (storage_limit_error "storage2 could not allocate tuple page",
                  on_storage (set_relations (<[relid := r]> (relations st))) w)
  | (Some block, r) =>
    let r := set_pending_reserved_blocks ({[block]} ∪ pending_reserved_blocks r) r in
    (Ok (page_new block (st_epoch st) (st_generation st) tuple_len),
     on_storage (set_relations (<[relid := r]> (relations st))) w)
  end.

Definition append_pending_tuple (relid : Z) (tuple : list Z) : M World Tid :=
  modify (on_session ensure_transaction);;
  max ← gets (max_tuples_of relid);
  found ← in_overlay (returning (append_pending_tuple_to_existing_page relid tuple max));
  match found with
  | Some tid => in_overlay (modify (insert_tid relid tid));; mret tid
  | None =>
    p ← reserve_pending_page relid (len tuple);
    res ← in_overlay (returning (append_pending_tuple_to_new_page relid p tuple));
    match res with
    | None => lift (storage_limit_error "storage2 could not allocate tuple page")
    | Some tid => in_overlay (modify (insert_tid relid tid));; mret tid
    end
  end.

(** Where no unique index has to be enforced, a row goes to a page of the
    relation itself. *)
Definition append_pending_input_tuple_to_relation_page (relid : Z) (input : RowInput) (tuple_len : Z) :
    M World (option Tid) :=
  if negb (bool_decide (unique_index_specs_for_relation_oid relid = [])) then mret None else
  st ← gets w_storage;
  in_relation relid (mret tt);;
  r ← gets (λ w, relation_of (w_storage w) relid);
  in_overlay (modify (checkpoint_relation relid r));;
  target ← in_relation relid (returning (append_target_block tuple_len (st_epoch st) (st_generation st)));
  match target with
  | None => mret None
  | Some block =>
    r ← gets (λ w, relation_of (w_storage w) relid);
    in_overlay (modify (λ o, match page r block with Some p => checkpoint_page relid p o | None => o end));;
    res ← in_relation relid (rel_append_pending_input_tuple mem block input tuple_len);
    match res with
    | None => mret None
    | Some tid => in_overlay (modify (insert_tid relid tid));; mret (Some tid)
    end
  end.

Definition append_pending_input_tuple_with_len (relid : Z) (input : RowInput) (tuple_len : Z) : M World Tid :=
  modify (on_session ensure_transaction);;
  max ← gets (max_tuples_of relid);
  found ← in_overlay (append_pending_input_tuple_to_existing_page mem relid input tuple_len max);
  match found with
  | Some tid => in_overlay (modify (insert_tid relid tid));; mret tid
  | None =>
    found ← append_pending_input_tuple_to_relation_page relid input tuple_len;
    match found with
    | Some tid => mret tid
    | None =>
      p ← reserve_pending_page relid tuple_len;
      res ← in_overlay (append_pending_input_tuple_to_new_page mem relid p input tuple_len);
      match res with
      | None => lift (storage_limit_error "storage2 could not allocate tuple page")
      | Some tid => in_overlay (modify (insert_tid relid tid));; mret tid
      end
    end
  end.

Definition append_pending_input_tuple (relid : Z) (input : RowInput) : M World Tid :=
  tuple_len ← lift (tuple_storage_len input);
  append_pending_input_tuple_with_len relid input tuple_len.

(** The pending pages of the session first, which needs no write lock. *)
Definition append_pending_input_tuple_current_session (relid : Z) (input : RowInput) : M World Tid :=
  tuple_len ← lift (tuple_storage_len input);
  max ← gets (max_tuples_of relid);
  modify (on_session ensure_transaction);;
  found ← in_overlay (append_pending_input_tuple_to_existing_page mem relid input tuple_len max);
  match found with
  | Some tid => in_overlay (modify (insert_tid relid tid));; mret tid
  | None => append_pending_input_tuple_with_len relid input tuple_len
  end.

(** ** Metadata *)

Definition st_set_insert_metadata (relid : Z) (t : Tid) (xid cid : Z) : M World unit :=
  modify (on_storage (relation_get_mut relid (λ r, snd (rel_set_insert_metadata t xid cid r)))).
Definition st_set_row_xmax (relid : Z) (t : Tid) (xmax : Z) : M World unit :=
  modify (on_storage (relation_get_mut relid (λ r, snd (rel_set_row_xmax t xmax r)))).

(** An operation on the top overlay, where there is one. *)
Definition if_overlay {A} (d : A) (m : M TransactionOverlay A) : M World A := λ w,
  match last (w_stack w) with None => (Ok d, w) | Some _ => in_overlay m w end.

Definition record_insert_metadata (relid : Z) (t : Tid) (xid cid : Z) : M World unit :=
  mine ← if_overlay false (gets (contains_inserted_tid relid t));
  if (mine : bool) then
    in_overlay (modify (set_insert_cid relid t cid));;
    recorded ← in_overlay (returning (set_pending_insert_metadata relid t xid cid));
    if (recorded : bool) then mret tt else st_set_insert_metadata relid t xid cid
  else mret tt.

Definition record_invalidate_metadata (relid : Z) (t : Tid) (xid cid : Z) : M World unit :=
  mine ← if_overlay false (gets (contains_invalidated_tid relid t));
  if (mine : bool) then in_overlay (modify (set_invalidate_metadata relid t xid cid)) else mret tt.

Definition record_row_xmax (relid : Z) (t : Tid) (xmax : Z) : M World unit :=
  mine ← if_overlay false (gets (contains_inserted_tid relid t));
  if (mine : bool) then
    recorded ← in_overlay (returning (set_pending_row_xmax relid t xmax));
    if (recorded : bool) then mret tt else st_set_row_xmax relid t xmax
  else mret tt.

Definition record_current_session_insert_metadata (relid : Z) (t : Tid) (m : InsertMetadata) : M World bool :=
  if_overlay false (
    modify (set_insert_cid relid t (im_cid m));;
    returning (set_pending_insert_metadata relid t (im_xid m) (im_cid m))).

Definition record_current_session_primary_key_insert (relid : Z) (input : RowInput) (t : Tid) : M World unit :=
  match (spec ← primary_index_spec_for_relation_oid relid; index_key_for_input mem fuel spec input) with
  | Some key => in_overlay (modify (insert_primary_key relid key t))
  | None => mret tt
  end.

(** ** Unique indexes *)

(** The newest entry of the key in the transaction: a row, a deletion or nothing. *)
Fixpoint primary_key_overlays (visible : Tid → option Tid) (relid : Z) (key : IndexKey) (rev : list TransactionOverlay) :
    option (option Tid) :=
  match rev with
  | [] => None
  | o :: rev =>
    match (es ← relid_get relid (primary_key_inserts o); t ← es !! key; visible t) with
    | Some t => Some (Some t)
    | None =>
      if (match relid_get relid (primary_key_deletes o) with Some keys => bool_decide (key ∈ keys) | None => false end)
      then Some None
      else primary_key_overlays visible relid key rev
    end
  end.

(** A row reached through redirects, if the session sees it. *)
Definition visible_resolved (st : StorageState) (overlays : list TransactionOverlay) (relid : Z) (t : Tid) : option Tid :=
  let t := resolve_tid_redirect_in_overlays st overlays relid t in
  if bool_decide (is_Some (physical_visible_tuple_slice_in_overlays st overlays relid t)) then Some t else None.

Definition primary_key_lookup_read (st : StorageState) (s : SessionStorage) (relid : Z) (key : IndexKey) : option Tid :=
  if negb (transaction_has_visibility_deltas s relid) then
    r ← relations st !! relid;
    t ← primary_key_index r !! key;
    let t := resolve_tid_redirect_in_overlays st [] relid t in
    if bool_decide (is_Some (rel_tuple_slice r t false)) then Some t else None
  else
    let overlays := transaction_stack s in
    match primary_key_overlays (visible_resolved st overlays relid) relid key (reverse overlays) with
    | Some found => found
    | None =>
      r ← relations st !! relid;
      t ← primary_key_index r !! key;
      visible_resolved st overlays relid t
    end.

Definition find_visible_by_index_key_excluding_read (st : StorageState) (s : SessionStorage) (relid : Z)
    (spec : UniqueIndexSpec) (key : IndexKey) (replacing : option Tid) : option Tid :=
  let replacing := resolve_tid_redirect_in_overlays st (transaction_stack s) relid <$> replacing in
  if is_primary spec then
    t ← primary_key_lookup_read st s relid key;
    if bool_decide (Some t = replacing) then None else Some t
  else
    List.find (λ t, negb (bool_decide (Some t = replacing))
                    && bool_decide ((tuple ← find_visible_tuple st s relid t;
                                     index_key_for_decoded spec (dt_values tuple)) = Some key))
      (visible_tids st s relid).

Definition unique_index_conflict_for_input_read (st : StorageState) (s : SessionStorage) (relid : Z)
    (input : RowInput) (replacing : option Tid) : option Z :=
  find_map (λ spec,
    key ← index_key_for_input mem fuel spec input;
    _ ← find_visible_by_index_key_excluding_read st s relid spec key replacing;
    Some (index_oid spec)) (unique_index_specs_for_relation_oid relid).

(** The same lookups as they are made by updates, which also compress the
    redirects that they follow. *)
Definition resolve_compress (relid : Z) (overlays : list TransactionOverlay) (t : Tid) : M StorageState Tid :=
  returning (resolve_tid_redirect_in_overlays_compress overlays relid t).

Definition visible_resolved_compress (relid : Z) (overlays : list TransactionOverlay) (t : Tid) :
    M StorageState (option Tid) :=
  t ← resolve_compress relid overlays t;
  st ← gets id;
  mret (if bool_decide (is_Some (physical_visible_tuple_slice_in_overlays st overlays relid t)) then Some t else None).

Fixpoint primary_key_overlays_compress (overlays : list TransactionOverlay) (relid : Z) (key : IndexKey)
    (rev : list TransactionOverlay) : M StorageState (option (option Tid)) :=
  match rev with
  | [] => mret None
  | o :: rev =>
    found ← match (es ← relid_get relid (primary_key_inserts o); es !! key) with
            | Some t => visible_resolved_compress relid overlays t
            | None => mret None
            end;
    match found with
    | Some t => mret (Some (Some t))
    | None =>
      if (match relid_get relid (primary_key_deletes o) with Some keys => bool_decide (key ∈ keys) | None => false end)
      then mret (Some None)
      else primary_key_overlays_compress overlays relid key rev
    end
  end.

Definition primary_key_lookup (s : SessionStorage) (relid : Z) (key : IndexKey) : M StorageState (option Tid) :=
  st ← gets id;
  let committed := r ← relations st !! relid; primary_key_index r !! key in
  if negb (transaction_has_visibility_deltas s relid) then
    match committed with
    | None => mret None
    | Some t =>
      t ← resolve_compress relid [] t;
      st ← gets id;
      mret (r ← relations st !! relid; _ ← rel_tuple_slice r t false; Some t)
    end
  else
    let overlays := transaction_stack s in
    found ← primary_key_overlays_compress overlays relid key (reverse overlays);
    match found with
    | Some found => mret found
    | None => match committed with
              | None => mret None
              | Some t => visible_resolved_compress relid overlays t
              end
    end.

Definition find_visible_by_index_key_excluding (s : SessionStorage) (relid : Z) (spec : UniqueIndexSpec)
    (key : IndexKey) (replacing : option Tid) : M StorageState (option Tid) :=
  replacing ← match replacing with
              | Some t => t ← resolve_compress relid (transaction_stack s) t; mret (Some t)
              | None => mret None
              end;
  if is_primary spec then
    found ← primary_key_lookup s relid key;
    mret (t ← found; if bool_decide (Some t = replacing) then None else Some t)
  else
    gets (λ st, List.find (λ t, negb (bool_decide (Some t = replacing))
                                && bool_decide ((tuple ← find_visible_tuple st s relid t;
                                                 index_key_for_decoded spec (dt_values tuple)) = Some key))
                  (visible_tids st s relid)).

Fixpoint unique_index_conflict_loop (s : SessionStorage) (relid : Z) (input : RowInput) (replacing : option Tid)
    (specs : list UniqueIndexSpec) : M StorageState (option Z) :=
  match specs with
  | [] => mret None
  | spec :: specs =>
    match index_key_for_input mem fuel spec input with
    | None => unique_index_conflict_loop s relid input replacing specs
    | Some key =>
      found ← find_visible_by_index_key_excluding s relid spec key replacing;
      match found with
      | Some _ => mret (Some (index_oid spec))
      | None => unique_index_conflict_loop s relid input replacing specs
      end
    end
  end.
Definition unique_index_conflict_for_input (relid : Z) (input : RowInput) (replacing : option Tid) : M World (option Z) :=
  λ w, let '(res, st) := unique_index_conflict_loop (w_session w) relid input replacing
                           (unique_index_specs_for_relation_oid relid) (w_storage w) in
       (res, set_w_storage st w).

(** ** Inserting *)

Definition relation_insert_impl (relid : Z) (input : RowInput) (check : UniqueCheck)
    (metadata : option InsertMetadata) (record_primary_key : bool) : M World (option Tid) :=
  conflict ← gets (λ w, bool_decide (check = Enforce)
    && bool_decide (is_Some (unique_index_conflict_for_input_read (w_storage w) (w_session w) relid input None)));
  if (conflict : bool) then mret None else
  tid ← append_pending_input_tuple_current_session relid input;
  match metadata with
  | Some m => recorded ← record_current_session_insert_metadata relid tid m;
              if (recorded : bool) then mret tt else st_set_insert_metadata relid tid (im_xid m) (im_cid m)
  | None => mret tt
  end;;
  (if record_primary_key then record_current_session_primary_key_insert relid input tid else mret tt);;
  mret (Some tid).

(** ** Updating *)

(** The overlays that redirects are looked up in. *)
Definition delta_overlays (relid : Z) (w : World) : list TransactionOverlay :=
  if transaction_has_visibility_deltas (w_session w) relid then w_stack w else [].

(** The newest version of a row, through both kinds of redirects, compressing them. *)
Definition resolve_row (relid : Z) (t : Tid) : M World Tid :=
  overlays ← gets (delta_overlays relid);
  t ← returning (λ w, let '(t, st) := resolve_update_redirect_in_overlays_compress overlays relid t (w_storage w) in
                      (t, set_w_storage st w));
  returning (λ w, let '(t, st) := resolve_tid_redirect_in_overlays_compress overlays relid t (w_storage w) in
                  (t, set_w_storage st w)).

(** Only the redirects of the transaction. *)
Definition resolve_update_redirect_current_session (relid : Z) (t : Tid) (w : World) : Tid :=
  resolve_loop (overlay_update_redirect (w_stack w) relid) MAX_HOT_REDIRECT_HOPS t.

(** What an update records of the old and the new version. *)
Definition record_new_version (relid : Z) (old_tid new_tid : Tid) (hot : bool) : M World unit :=
  in_overlay (
    modify (invalidate relid old_tid);;
    modify (ov_insert_update_redirect relid old_tid new_tid);;
    modify (λ o, if hot then ov_insert_hot_redirect relid old_tid new_tid o else o)).

(** The new version of a pending row of the session is put on a pending page. *)
Definition update_current_session_pending_hot (relid : Z) (old_tid : Tid) (input : RowInput) (hot : bool)
    (metadata : option UpdateMetadata) : M World (option Tid) :=
  old_tid ← gets (resolve_update_redirect_current_session relid old_tid);
  tuple_len ← lift (tuple_storage_len input);
  max ← gets (max_tuples_of relid);
  stack ← gets w_stack;
  if negb (overlays_own_inserted_tid stack relid old_tid) || overlays_invalidate_tid stack relid old_tid
     || bool_decide (overlay_pending_tuple_slice stack relid old_tid = None) then mret None
  else
    found ← if_overlay None (append_pending_input_tuple_to_existing_page mem relid input tuple_len max);
    match found with
    | None => mret None
    | Some new_tid =>
      in_overlay (modify (insert_tid relid new_tid));;
      record_new_version relid old_tid new_tid hot;;
      match metadata with
      | None => mret tt
      | Some m =>
        in_overlay (modify (set_invalidate_metadata relid old_tid (um_delete_xid m) (um_delete_cid m)));;
        in_overlay (modify (set_insert_cid relid new_tid (um_insert_cid m)));;
        recorded ← in_overlay (returning (set_pending_insert_metadata relid new_tid (um_insert_xid m) (um_insert_cid m)));
        if negb recorded then lift (storage_limit_error "storage2 could not record pending update metadata") else
        recorded ← in_overlay (returning (set_pending_row_xmax relid new_tid (um_row_xmax m)));
        if negb recorded then lift (storage_limit_error "storage2 could not record pending update metadata") else
        mret tt
      end;;
      modify (on_session (mark_scans_visibility_delta relid));;
      mret (Some new_tid)
    end.

(** The end of an update: versions, metadata and the primary key. *)
Definition finish_update (relid : Z) (old_tid new_tid : Tid) (hot : bool) (metadata : option UpdateMetadata)
    (old_is_own_insert : bool) (old_key new_key : option IndexKey) : M World unit :=
  record_new_version relid old_tid new_tid hot;;
  match metadata with
  | None => mret tt
  | Some m =>
    in_overlay (modify (set_invalidate_metadata relid old_tid (um_delete_xid m) (um_delete_cid m)));;
    in_overlay (modify (set_insert_cid relid new_tid (um_insert_cid m)));;
    recorded ← in_overlay (returning (set_pending_insert_metadata relid new_tid (um_insert_xid m) (um_insert_cid m)));
    (if (recorded : bool) then mret tt
     else st_set_insert_metadata relid new_tid (um_insert_xid m) (um_insert_cid m));;
    recorded ← in_overlay (returning (set_pending_row_xmax relid new_tid (um_row_xmax m)));
    (if (recorded : bool) then mret tt else st_set_row_xmax relid new_tid (um_row_xmax m))
  end;;
  match old_key with
  | Some key =>
    if bool_decide (old_key = new_key) then mret tt
    else if old_is_own_insert then in_overlay (modify (remove_primary_key_insert relid key))
    else in_overlay (modify (delete_primary_key relid key))
  | None => mret tt
  end;;
  match new_key with
  | Some key => in_overlay (modify (insert_primary_key relid key new_tid))
  | None => mret tt
  end;;
  modify (on_session (mark_scans_visibility_delta relid)).

Definition primary_key_of_decoded (relid : Z) (tuple : DecodedTuple) : option IndexKey :=
  spec ← primary_index_spec_for_relation_oid relid; index_key_for_decoded spec (dt_values tuple).
Definition primary_key_of_input (relid : Z) (input : RowInput) : option IndexKey :=
  spec ← primary_index_spec_for_relation_oid relid; index_key_for_input mem fuel spec input.

(** The row to be replaced, as the session sees it. *)
Definition visible_for_session (relid : Z) (t : Tid) (w : World) : option (list Z) :=
  physical_visible_tuple_slice_for_session (w_storage w) (w_session w) relid t
    (transaction_has_visibility_deltas (w_session w) relid).

Definition relation_update_impl (relid packed_tid : Z) (input : RowInput) (check : UniqueCheck) (hot : bool)
    (metadata : option UpdateMetadata) : M World (option Tid) :=
  match unpack packed_tid with
  | None => mret None
  | Some old_tid =>
    let hot_unchecked := hot && bool_decide (check = Skip) in
    done ← (if hot_unchecked then update_current_session_pending_hot relid old_tid input hot metadata else mret None);
    match done with
    | Some tid => mret (Some tid)
    | None =>
      old_tid ← resolve_row relid old_tid;
      slice ← gets (visible_for_session relid old_tid);
      match slice with
      | None => mret None
      | Some old_tuple =>
        match (if hot_unchecked then Some None
               else decoded ← decode_tuple old_tid old_tuple; Some (primary_key_of_decoded relid decoded)) with
        | None => mret None
        | Some old_key =>
          own ← gets (λ w, negb hot_unchecked && owns_inserted_tid (w_session w) relid old_tid);
          conflict ← (if bool_decide (check = Enforce) then unique_index_conflict_for_input relid input (Some old_tid)
                      else mret None);
          if bool_decide (is_Some conflict) then mret None else
          new_tid ← append_pending_input_tuple relid input;
          let new_key := if hot_unchecked then None else primary_key_of_input relid input in
          finish_update relid old_tid new_tid hot metadata own old_key new_key;;
          mret (Some new_tid)
        end
      end
    end
  end.

Definition update_current_session_pending_if_single_byval_preserved (relid : Z) (old_tid : Tid) (input : RowInput)
    (key : SingleByvalHotKey) (metadata : option UpdateMetadata) : M World (option Tid) :=
  old_tid ← gets (resolve_update_redirect_current_session relid old_tid);
  stack ← gets w_stack;
  if negb (overlays_own_inserted_tid stack relid old_tid) || overlays_invalidate_tid stack relid old_tid then mret None
  else
    match overlay_pending_tuple_slice stack relid old_tid with
    | None => mret None
    | Some old_tuple =>
      match tuple_byval_attr_equals old_tuple (hk_attnum key) (hk_value key) (hk_is_null key) with
      | inr _ => lift (panic "read outside the tuple")
      | inl preserved =>
        if default false preserved then update_current_session_pending_hot relid old_tid input true metadata
        else mret None
      end
    end.

(** The update is recorded as one that no index needs to know of if the key attribute keeps its value. *)
Definition relation_update_hot_if_single_byval_preserved_impl (relid packed_tid : Z) (input : RowInput)
    (key : SingleByvalHotKey) (metadata : option UpdateMetadata) : M World (option (Tid * bool)) :=
  match unpack packed_tid with
  | None => mret None
  | Some old_tid =>
    if hk_attnum key =? 0 then mret None else
    old_tid ← gets (resolve_update_redirect_current_session relid old_tid);
    done ← update_current_session_pending_if_single_byval_preserved relid old_tid input key metadata;
    match done with
    | Some tid => mret (Some (tid, true))
    | None =>
      old_tid ← resolve_row relid old_tid;
      slice ← gets (visible_for_session relid old_tid);
      match slice with
      | None => mret None
      | Some old_tuple =>
        match tuple_byval_attr_equals old_tuple (hk_attnum key) (hk_value key) (hk_is_null key) with
        | inr _ => lift (panic "read outside the tuple")
        | inl preserved =>
          let hot := default false preserved in
          match (if (hot : bool) then Some None
                 else decoded ← decode_tuple old_tid old_tuple; Some (primary_key_of_decoded relid decoded)) with
          | None => mret None
          | Some old_key =>
            own ← gets (λ w, negb hot && owns_inserted_tid (w_session w) relid old_tid);
            new_tid ← append_pending_input_tuple relid input;
            let new_key := if hot then None else primary_key_of_input relid input in
            finish_update relid old_tid new_tid hot metadata own old_key new_key;;
            mret (Some (new_tid, hot))
          end
        end
      end
    end
  end.

(** ** Deleting *)

Definition relation_delete_impl (relid packed_tid : Z) (record_primary_key : bool) : M World bool :=
  match unpack packed_tid with
  | None => mret false
  | Some tid =>
    tid ← resolve_row relid tid;
    own_insert ← gets (λ w, owns_inserted_tid (w_session w) relid tid);
    found ← gets (λ w, find_visible_tuple (w_storage w) (w_session w) relid tid);
    match found with
    | None => mret false
    | Some tuple =>
      modify (on_session ensure_transaction);;
      in_overlay (modify (invalidate relid tid));;
      match primary_key_of_decoded relid tuple with
      | Some key =>
        if record_primary_key then
          if (own_insert : bool) then in_overlay (modify (remove_primary_key_insert relid key))
          else in_overlay (modify (delete_primary_key relid key))
        else mret tt
      | None => mret tt
      end;;
      modify (on_session (mark_scans_visibility_delta relid));;
      mret true
    end
  end.

(** ** Clearing and replacing a relation *)

Definition replacement_for (preserve_tid_space : bool) (old : RelationStorage) : RelationStorage :=
  let r := set_max_tuples_per_block (max_tuples_per_block old) relation_default in
  if preserve_tid_space then set_next_block (next_block old) r else r.

Definition clear_relation_impl (relid : Z) (preserve_tid_space : bool) (w : World) : World :=
  let st := w_storage w in
  let old := relation_of st relid in
  let replaced := on_storage (set_relations (<[relid := replacement_for preserve_tid_space old]> (relations st))) w in
  match w_stack w with
  | [] => refresh_cached_row_count relid replaced
  | _ =>
    let tids := visible_tids st (w_session w) relid in
    let keys := match primary_index_spec_for_relation_oid relid with
                | Some spec => omap (λ t, tuple ← find_visible_tuple st (w_session w) relid t;
                                          index_key_for_decoded spec (dt_values tuple)) tids
                | None => []
                end in
    on_session (λ s, mark_scans_visibility_delta relid (last_overlay_mut (λ o,
      let o := record_relation_clear relid old o in
      let o := foldl (λ o t, invalidate relid t o) o tids in
      foldl (λ o key, delete_primary_key relid key o) o keys) s)) replaced
  end.

Definition clear_relation (relid : Z) : M World unit := modify (clear_relation_impl relid false).

Fixpoint replace_rows (dst_relid : Z) (spec : option UniqueIndexSpec) (tuples : list (list Z)) : M World unit :=
  match tuples with
  | [] => mret tt
  | tuple :: tuples =>
    tid ← append_pending_tuple dst_relid tuple;
    match (spec ← spec; decoded ← decode_tuple tid tuple; index_key_for_decoded spec (dt_values decoded)) with
    | Some key => in_overlay (modify (insert_primary_key dst_relid key tid))
    | None => mret tt
    end;;
    replace_rows dst_relid spec tuples
  end.

Definition replace_relation_from (dst_relid src_relid : Z) : M World unit :=
  tuples ← gets (λ w, omap (visible_tuple_slice_in_overlays (w_storage w) (w_stack w) src_relid)
                        (visible_tids (w_storage w) (w_session w) src_relid));
  let spec := primary_index_spec_for_relation_oid dst_relid in
  modify (clear_relation_impl dst_relid true);;
  replace_rows dst_relid spec tuples;;
  modify (on_session (mark_scans_visibility_delta dst_relid)).
End ops.

(** ** Row counts *)

Definition committed_row_count_cached (relid : Z) (w : World) : Z := default 0 (w_row_counts w !! relid).

Definition visible_row_count_cached (relid : Z) (w : World) : Z :=
  let committed := committed_row_count_cached relid w in
  let s := w_session w in
  if negb (transaction_has_visibility_deltas s relid) then committed
  else match single_overlay_row_count_delta s relid with
       | Some delta =>
         if 0 <=? delta then saturating_add USIZE_MAX committed delta
         else saturating_sub committed (Z.abs delta)
       | None =>
         saturating_sub (saturating_add USIZE_MAX committed (transaction_visible_insert_count s relid))
           (transaction_invalidated_live_count s relid)
       end.

(** ** Transactions of the C interface *)

Definition fastpg_storage2_xact_begin : M World unit := λ w,
  let s := w_session w in
  if explicit_transaction s then (Ok tt, set_w_session (ensure_transaction s) w)
  else match commit_empty_implicit_transaction s with
       | (true, s) => (Ok tt, set_w_session (set_explicit_transaction true (ensure_transaction s)) w)
       | (false, s) => begin_explicit_transaction (set_w_session s w)
       end.

Definition fastpg_storage2_xact_begin_implicit : M World unit := modify (on_session ensure_transaction).
Definition fastpg_storage2_xact_commit : M World unit := commit_explicit_transaction.
Definition fastpg_storage2_xact_abort : M World unit := abort_explicit_transaction.

Definition fastpg_storage2_xact_commit_if_implicit : M World unit := λ w,
  match commit_empty_implicit_transaction (w_session w) with
  | (true, s) => (Ok tt, set_w_session s w)
  | (false, s) => commit_implicit_transaction (set_w_session s w)
  end.
Definition fastpg_storage2_xact_abort_if_implicit : M World unit := λ w,
  match abort_empty_implicit_transaction (w_session w) with
  | (true, s) => (Ok tt, set_w_session s w)
  | (false, s) => abort_implicit_transaction (set_w_session s w)
  end.

Definition fastpg_storage2_subxact_begin : M World unit :=
  modify (on_session (λ s, let s := ensure_transaction s in
                           set_transaction_stack (transaction_stack s ++ [overlay_default]) s)).
Definition fastpg_storage2_subxact_commit : M World unit := λ w,
  if (1 <? length (w_stack w))%nat then commit_top_overlay w else (Ok tt, w).
Definition fastpg_storage2_subxact_abort : M World unit := λ w,
  if (1 <? length (w_stack w))%nat then
    match pop_overlay (w_session w) with
    | (Some o, s) => (Ok tt, rollback_overlay_from_relations o (set_w_session s w))
    | (None, _) => (Ok tt, w)
    end
  else (Ok tt, w).
