(* ===== verification/EngScan.v ===== *)
(** * Scans

    The scans of crates/fastpg-storage2/src/state.rs and lib.rs: the next row
    after a position, in one of three ways (committed rows only, rows of the
    session only, both), and the calls that begin, advance, position and end a
    scan.  A scan keeps the high-water marks of the blocks as they were when it
    began, so that it does not see rows that are added meanwhile. *)

From Stdlib Require Import ZArith Lia.
From stdpp Require Import base tactics numbers list gmap strings.
From S2P Require Import Prelude RustStd EngTid EngTuple EngPage EngIndex EngRelation EngOverlay EngState EngOps.

Local Open Scope Z_scope.

Record VisibleTupleSlice := { vs_cursor_tid : Tid; vs_output_tid : Tid; vs_tuple : list Z }.

(** ** Candidates *)

(** [set.range(start..).find(f)] and [set.range(..=end).rev().find(f)] *)
Definition range_from_find (start : Tid) (f : Tid → bool) (s : gset Tid) : option Tid :=
  List.find (λ t, tid_leb start t && f t) (tid_iter s).
Definition range_to_rfind (stop : Tid) (f : Tid → bool) (s : gset Tid) : option Tid :=
  List.find (λ t, tid_leb t stop && f t) (reverse (tid_iter s)).

Definition merge_opt (f : Tid → Tid → Tid) (a b : option Tid) : option Tid :=
  match a, b with
  | Some a, Some b => Some (f a b)
  | Some a, None => Some a
  | None, b => b
  end.

(** [usize::try_from(cursor.block) >= high_water_offsets.len()] and offset 0 end a forward scan. *)
Definition forward_ended (c : ScanCursor) (high_water : list Z) : bool :=
  (cur_offset c =? 0) || (len high_water <=? cur_block c).

Definition overlay_candidates (overlays : list TransactionOverlay) (relid : Z) : list Tid :=
  concat ((λ o, tids_of relid (inserted_tids o)) <$> overlays).

Definition next_forward_candidate_tid_in_overlays (st : StorageState) (overlays : list TransactionOverlay) (relid : Z)
    (c : ScanCursor) (high_water : list Z) : option Tid :=
  if forward_ended c high_water then None else
  let start_tid := mkTid (cur_block c) (cur_offset c) in
  let within t := negb (tid_beyond_high_water t high_water) in
  let candidate :=
    r ← relations st !! relid;
    merge_opt tid_min (range_from_find start_tid within (live_tids r))
      (range_from_find start_tid within (hot_redirect_roots r)) in
  foldl (λ candidate t, if tid_ltb t start_tid || tid_beyond_high_water t high_water then candidate
                        else merge_opt tid_min candidate (Some t))
    candidate (overlay_candidates overlays relid).

Definition next_backward_candidate_tid_in_overlays (st : StorageState) (overlays : list TransactionOverlay) (relid : Z)
    (c : ScanCursor) (high_water : list Z) : option Tid :=
  end_tid ← scan_backward_end_tid c high_water;
  let within t := negb (tid_beyond_high_water t high_water) in
  let candidate :=
    r ← relations st !! relid;
    merge_opt tid_max (range_to_rfind end_tid within (live_tids r))
      (range_to_rfind end_tid within (hot_redirect_roots r)) in
  foldl (λ candidate t, if tid_ltb end_tid t || tid_beyond_high_water t high_water then candidate
                        else merge_opt tid_max candidate (Some t))
    candidate (overlay_candidates overlays relid).

Definition next_candidate_tid_in_overlays (st : StorageState) (overlays : list TransactionOverlay) (relid : Z)
    (c : ScanCursor) (high_water : list Z) (forward : bool) : option Tid :=
  if forward then next_forward_candidate_tid_in_overlays st overlays relid c high_water
  else next_backward_candidate_tid_in_overlays st overlays relid c high_water.

(** ** The next row *)

Definition physical_visible (st : StorageState) (overlays : list TransactionOverlay) (relid : Z) (t : Tid)
    (curcid : option Z) : option (list Z) :=
  match curcid with
  | Some curcid => physical_visible_tuple_slice_in_overlays_at_cid st overlays relid t curcid
  | None => physical_visible_tuple_slice_in_overlays st overlays relid t
  end.

Definition visible_update_redirect_tid_beyond_high_water (st : StorageState) (overlays : list TransactionOverlay)
    (relid : Z) (t : Tid) (high_water : list Z) (curcid : option Z) : option Tid :=
  next_tid ← next_redirect false st overlays relid t;
  if negb (tid_beyond_high_water next_tid high_water) then None else
  let redirect_tid := resolve_update_redirect_in_overlays st overlays relid t in
  if negb (tid_beyond_high_water redirect_tid high_water) then None else
  _ ← physical_visible st overlays relid redirect_tid curcid;
  Some redirect_tid.

Definition advance (forward : bool) (t : Tid) : ScanCursor := if forward then cursor_after t else cursor_before t.

(** A row that a candidate stands for: itself, or a newer version of it. *)
Definition candidate_row (st : StorageState) (overlays : list TransactionOverlay) (relid : Z)
    (high_water : list Z) (curcid : option Z) (t : Tid) : option VisibleTupleSlice :=
  let visible := physical_visible st overlays relid in
  match visible t curcid with
  | Some tuple => Some {| vs_cursor_tid := t; vs_output_tid := t; vs_tuple := tuple |}
  | None =>
    let follows := bool_decide (is_Some (overlay_tid_redirect overlays relid t))
                   || match relations st !! relid with Some r => is_hot_redirect_root r t | None => false end in
    let hot_tid := resolve_tid_redirect_in_overlays st overlays relid t in
    match (if follows && negb (bool_decide (hot_tid = t)) then visible hot_tid curcid else None) with
    | Some tuple => Some {| vs_cursor_tid := t; vs_output_tid := hot_tid; vs_tuple := tuple |}
    | None =>
      redirect_tid ← visible_update_redirect_tid_beyond_high_water st overlays relid t high_water curcid;
      tuple ← visible redirect_tid curcid;
      Some {| vs_cursor_tid := t; vs_output_tid := redirect_tid; vs_tuple := tuple |}
    end
  end.

Definition is_redirect_target (st : StorageState) (overlays : list TransactionOverlay) (relid : Z) (t : Tid) : bool :=
  overlay_tid_redirect_target overlays relid t
  || match relations st !! relid with Some r => is_hot_redirect_target r t | None => false end.

(** The loop of the source: every round passes one candidate, and the next round
    depends on this candidate only.  With one round more than there are
    candidates, the loop has met a candidate for the second time when the rounds
    are used up, and does not end. *)
Fixpoint next_visible_loop (candidate : ScanCursor → option Tid) (skip : Tid → bool)
    (row : Tid → option VisibleTupleSlice) (forward : bool) (fuel : nat) (c : ScanCursor) : result (option VisibleTupleSlice) :=
  match fuel with
  | O => Error ERRCODE_NONTERMINATING "next_visible_tuple_slice"
  | S fuel =>
    match candidate c with
    | None => Ok None
    | Some t =>
      if skip t then next_visible_loop candidate skip row forward fuel (advance forward t)
      else match row t with
           | Some v => Ok (Some v)
           | None => next_visible_loop candidate skip row forward fuel (advance forward t)
           end
    end
  end.

Definition scan_fuel (st : StorageState) (overlays : list TransactionOverlay) (relid : Z) : nat :=
  S (match relations st !! relid with
     | Some r => size (live_tids r) + size (hot_redirect_roots r)
     | None => 0
     end + length (overlay_candidates overlays relid))%nat.

Definition next_visible_tuple_slice_in_overlays (st : StorageState) (overlays : list TransactionOverlay) (relid : Z)
    (c : ScanCursor) (high_water : list Z) (forward : bool) (curcid : option Z) : result (option VisibleTupleSlice) :=
  next_visible_loop (λ c, next_candidate_tid_in_overlays st overlays relid c high_water forward)
    (is_redirect_target st overlays relid) (candidate_row st overlays relid high_water curcid)
    forward (scan_fuel st overlays relid) c.

(** Committed rows only: the first live row at or after the position. *)
Definition next_committed_tuple_slice (st : StorageState) (relid : Z) (c : ScanCursor) (high_water : list Z)
    (forward : bool) : option VisibleTupleSlice :=
  r ← relations st !! relid;
  let found t :=
    if tid_beyond_high_water t high_water then None
    else tuple ← rel_tuple_slice r t false;
         Some {| vs_cursor_tid := t; vs_output_tid := t; vs_tuple := tuple |} in
  if forward then
    if forward_ended c high_water then None
    else t ← range_from_find (mkTid (cur_block c) (cur_offset c)) (λ _, true) (live_tids r); found t
  else
    end_tid ← (if cur_block c =? U32_MAX then
                 n ← checked_sub (len high_water) 1;
                 block ← try_from U32_MAX n;
                 offset ← high_water !! Z.to_nat block;
                 Some (mkTid block offset)
               else if cur_offset c =? 0 then None
               else Some (mkTid (cur_block c) (cur_offset c)));
    t ← range_to_rfind end_tid (λ _, true) (live_tids r);
    found t.

(** ** Rows of the session only *)

Definition overlay_visible_tuple_slice (overlays : list TransactionOverlay) (relid : Z) (t : Tid) (curcid : option Z) :
    option (list Z) :=
  match overlays with
  | [o] => single_overlay_visible_pending_tuple_slice o relid t curcid
  | _ =>
    let hidden :=
      match curcid with
      | Some curcid =>
        overlays_invalidate_tid_before overlays relid t curcid
        || (overlays_own_inserted_tid overlays relid t
            && negb (overlays_own_inserted_tid_before overlays relid t curcid))
      | None => overlays_invalidate_tid overlays relid t
      end in
    if hidden then None
    else if overlays_clear_tid overlays relid t then None
    else overlay_pending_tuple_slice overlays relid t
  end.

(** The candidate of a single overlay is found by binary search in its vector of inserted rows. *)
Definition next_single_overlay_candidate_tid (o : TransactionOverlay) (relid : Z) (c : ScanCursor) (high_water : list Z)
    (forward : bool) : option Tid :=
  tids ← relid_get relid (inserted_tids o);
  let within t := negb (tid_beyond_high_water t high_water) in
  if forward then
    if forward_ended c high_water then None
    else
      let start_tid := mkTid (cur_block c) (cur_offset c) in
      let start_index := match binary_search (λ t, tid_compare t start_tid) tids with inl i => i | inr i => i end in
      List.find within (drop start_index tids)
  else
    end_tid ← scan_backward_end_tid c high_water;
    let end_index := match binary_search (λ t, tid_compare t end_tid) tids with inl i => S i | inr i => i end in
    List.find within (reverse (take end_index tids)).

Definition next_overlay_candidate_tid (overlays : list TransactionOverlay) (relid : Z) (c : ScanCursor)
    (high_water : list Z) (forward : bool) : option Tid :=
  match (match overlays with
         | [o] => next_single_overlay_candidate_tid o relid c high_water forward
         | _ => None
         end) with
  | Some candidate => Some candidate
  | None =>
    if forward then
      if forward_ended c high_water then None
      else
        let start_tid := mkTid (cur_block c) (cur_offset c) in
        foldl (λ candidate t, if tid_ltb t start_tid || tid_beyond_high_water t high_water then candidate
                              else merge_opt tid_min candidate (Some t))
          None (overlay_candidates overlays relid)
    else
      end_tid ← scan_backward_end_tid c high_water;
      foldl (λ candidate t, if tid_ltb end_tid t || tid_beyond_high_water t high_water then candidate
                            else merge_opt tid_max candidate (Some t))
        None (overlay_candidates overlays relid)
  end.

Definition resolve_overlay_update_redirect (overlays : list TransactionOverlay) (relid : Z) (t : Tid) : Tid :=
  resolve_loop (overlay_update_redirect overlays relid) MAX_HOT_REDIRECT_HOPS t.
Definition resolve_overlay_tid_redirect (overlays : list TransactionOverlay) (relid : Z) (t : Tid) : Tid :=
  resolve_loop (overlay_tid_redirect overlays relid) MAX_HOT_REDIRECT_HOPS t.

Definition visible_overlay_update_redirect_tid_beyond_high_water (overlays : list TransactionOverlay) (relid : Z)
    (t : Tid) (high_water : list Z) (curcid : option Z) : option Tid :=
  next_tid ← overlay_update_redirect overlays relid t;
  if negb (tid_beyond_high_water next_tid high_water) then None else
  let redirect_tid := resolve_overlay_update_redirect overlays relid t in
  if negb (tid_beyond_high_water redirect_tid high_water) then None else
  _ ← overlay_visible_tuple_slice overlays relid redirect_tid curcid;
  Some redirect_tid.

Definition overlay_candidate_row (overlays : list TransactionOverlay) (relid : Z) (high_water : list Z)
    (curcid : option Z) (t : Tid) : option VisibleTupleSlice :=
  match overlay_visible_tuple_slice overlays relid t curcid with
  | Some tuple => Some {| vs_cursor_tid := t; vs_output_tid := t; vs_tuple := tuple |}
  | None =>
    let hot_tid := resolve_overlay_tid_redirect overlays relid t in
    match (if bool_decide (hot_tid = t) then None else overlay_visible_tuple_slice overlays relid hot_tid curcid) with
    | Some tuple => Some {| vs_cursor_tid := t; vs_output_tid := hot_tid; vs_tuple := tuple |}
    | None =>
      redirect_tid ← visible_overlay_update_redirect_tid_beyond_high_water overlays relid t high_water curcid;
      tuple ← overlay_visible_tuple_slice overlays relid redirect_tid curcid;
      Some {| vs_cursor_tid := t; vs_output_tid := redirect_tid; vs_tuple := tuple |}
    end
  end.

Definition next_overlay_tuple_slice (overlays : list TransactionOverlay) (relid : Z) (c : ScanCursor)
    (high_water : list Z) (forward : bool) (curcid : option Z) : result (option VisibleTupleSlice) :=
  next_visible_loop (λ c, next_overlay_candidate_tid overlays relid c high_water forward)
    (overlay_tid_redirect_target overlays relid) (overlay_candidate_row overlays relid high_water curcid)
    forward (S (length (overlay_candidates overlays relid))) c.

(** ** Beginning, positioning and ending a scan *)

Definition new_scan (relid : Z) (high_water : list Z) (deltas only : bool) (curcid : option Z) : ScanState :=
  {| scan_relid := relid; high_water_offsets := high_water; forward_cursor := forward_start;
     backward_cursor := backward_start; forward_exhausted := false; backward_exhausted := false;
     scan_has_visibility_deltas := deltas; overlay_only := only; snapshot_curcid := curcid |}.

Definition extend_by_stack (s : SessionStorage) (relid : Z) (high_water : list Z) : list Z :=
  foldl (λ offsets o, extend_high_water_offsets relid o offsets) high_water (transaction_stack s).

Definition begin_scan (scan : ScanState) (w : World) : option Z * World :=
  let '(handle, s) := allocate_scan_handle (w_session w) in
  let '(ok, s) := insert_scan handle scan s in
  (if ok then Some handle else None, set_w_session s w).

Definition scan_begin_committed_empty_impl (relid : Z) (curcid : option Z) (w : World) : option Z * World :=
  if negb (committed_row_count_cached relid w =? 0) then (None, w)
  else if match relations (w_storage w) !! relid with
          | Some r => negb (bool_decide (physical_blocks r = ∅))
          | None => false
          end then (None, w)
  else
    let s := w_session w in
    let deltas := transaction_has_visibility_deltas s relid in
    if negb deltas then (None, w)
    else begin_scan (new_scan relid (extend_by_stack s relid []) deltas true curcid) w.

(** The rows of every block at the start of a scan. *)
Definition relation_high_water (r : RelationStorage) : list Z :=
  (λ p, default 0 (p ← p; try_from U16_MAX (len (line_pointers p)))) <$> pages r.

Definition scan_begin_impl (relid : Z) (curcid : option Z) : M World Z := λ w,
  match scan_begin_committed_empty_impl relid curcid w with
  | (Some handle, w) => (Ok handle, w)
  | (None, w) =>
    let s := w_session w in
    let only := match relations (w_storage w) !! relid with
                | Some r => bool_decide (live_tids r = ∅) && (pending_tuple_count r =? 0)
                            && bool_decide (physical_blocks r = ∅)
                | None => true
                end in
    let high_water := match relations (w_storage w) !! relid with Some r => relation_high_water r | None => [] end in
    let '(handle, w) :=
      begin_scan (new_scan relid (extend_by_stack s relid high_water)
                    (transaction_has_visibility_deltas s relid) only curcid) w in
    (Ok (default 0 handle), w)
  end.

Definition move_cursors (fc bc : ScanCursor) (fe be : bool) (scan : ScanState) : ScanState :=
  {| scan_relid := scan_relid scan; high_water_offsets := high_water_offsets scan;
     forward_cursor := fc; backward_cursor := bc; forward_exhausted := fe; backward_exhausted := be;
     scan_has_visibility_deltas := scan_has_visibility_deltas scan; overlay_only := overlay_only scan;
     snapshot_curcid := snapshot_curcid scan |}.

Definition fastpg_storage2_scan_reset (handle : Z) : M World unit :=
  modify (on_session (λ s, scan_slot_mut handle (λ scan,
    set_scan_deltas (transaction_has_visibility_deltas s (scan_relid scan))
      (move_cursors forward_start backward_start false false scan)) s)).

Definition fastpg_storage2_scan_set_position (handle packed_tid : Z) : M World bool := λ w,
  match unpack packed_tid with
  | None => (Ok false, w)
  | Some t =>
    match scan_slot handle (w_session w) with
    | None => (Ok false, w)
    | Some _ => (Ok true, on_session (scan_slot_mut handle (move_cursors (cursor_after t) (cursor_before t) false false)) w)
    end
  end.

Definition fastpg_storage2_scan_end (handle : Z) : M World unit := modify (on_session (remove_scan handle)).

(** ** Advancing a scan *)

(** The row after a position, by the kind of the scan. *)
Definition scan_row (st : StorageState) (overlays : list TransactionOverlay) (scan : ScanState) (forward : bool)
    (c : ScanCursor) : result (option VisibleTupleSlice) :=
  if negb (scan_has_visibility_deltas scan) then
    Ok (next_committed_tuple_slice st (scan_relid scan) c (high_water_offsets scan) forward)
  else if overlay_only scan then
    next_overlay_tuple_slice overlays (scan_relid scan) c (high_water_offsets scan) forward (snapshot_curcid scan)
  else
    next_visible_tuple_slice_in_overlays st overlays (scan_relid scan) c (high_water_offsets scan) forward
      (snapshot_curcid scan).

(** Past the last row: the opposite direction starts from here. *)
Definition exhaust (forward : bool) (scan : ScanState) : ScanState :=
  if forward then
    move_cursors (forward_cursor scan) (before_cursor (forward_cursor scan)) true false scan
  else
    move_cursors (after_cursor (backward_cursor scan)) (backward_cursor scan) false true scan.

Definition pass_row (forward : bool) (t : Tid) (scan : ScanState) : ScanState :=
  if forward then
    move_cursors (cursor_after t) (cursor_before t) (forward_exhausted scan) false scan
  else
    move_cursors (cursor_after t) (cursor_before t) false (backward_exhausted scan) scan.

Definition exhausted_in (forward : bool) (scan : ScanState) : bool :=
  if forward then forward_exhausted scan else backward_exhausted scan.
Definition cursor_in (forward : bool) (scan : ScanState) : ScanCursor :=
  if forward then forward_cursor scan else backward_cursor scan.

(** Did [copy_tuple_to_outputs] return true?  The row is at some address [base]. *)
Definition copies `{Target} (natts : Z) (tuple : list Z) : bool :=
  match copy_tuple_to_outputs 0 tuple false natts with
  | inl (o, _) => out_ok o
  | inr _ => false
  end.

(** What a call hands out: the row, and the identifier that stands for it in indexes. *)
Definition scan_next_impl `{Target} (handle : Z) (forward : bool) (natts : Z) :
    M World (option (VisibleTupleSlice * Tid)) := λ w,
  match scan_slot handle (w_session w) with
  | None => (Ok None, w)
  | Some scan =>
    if exhausted_in forward scan then (Ok None, w) else
    match scan_row (w_storage w) (w_stack w) scan forward (cursor_in forward scan) with
    | Error code msg => (Error code msg, w)
    | Ok None => (Ok None, on_session (scan_slot_mut handle (exhaust forward)) w)
    | Ok (Some v) =>
      let passed := on_session (scan_slot_mut handle (pass_row forward (vs_cursor_tid v))) w in
      if negb (scan_has_visibility_deltas scan) then
        let index_tid := default (vs_cursor_tid v)
          (r ← relations (w_storage w) !! scan_relid scan; hot_redirect_root_for_target r (vs_output_tid v)) in
        (Ok (if copies natts (vs_tuple v) then Some (v, index_tid) else None), passed)
      else if copies natts (vs_tuple v) then (Ok (Some (v, vs_cursor_tid v)), passed)
      else (Ok None, w)
    end
  end.

(** [while written < max_rows]: the rows, the cursors and whether the scan ended. *)
Fixpoint batch_loop `{Target} (row : ScanCursor → result (option VisibleTupleSlice)) (forward : bool) (natts : Z)
    (max_rows : nat) (fc bc : ScanCursor) : result (list VisibleTupleSlice * (ScanCursor * ScanCursor) * bool) :=
  match max_rows with
  | O => Ok ([], (fc, bc), false)
  | S max_rows =>
    match row (if forward then fc else bc) with
    | Error code msg => Error code msg
    | Ok None => Ok ([], if forward then (fc, before_cursor fc) else (after_cursor bc, bc), true)
    | Ok (Some v) =>
      if copies natts (vs_tuple v) then
        match batch_loop row forward natts max_rows (cursor_after (vs_cursor_tid v)) (cursor_before (vs_cursor_tid v)) with
        | Error code msg => Error code msg
        | Ok (vs, cursors, ended) => Ok (v :: vs, cursors, ended)
        end
      else Ok ([], (fc, bc), false)
    end
  end.

Definition scan_next_batch_impl `{Target} (handle : Z) (forward : bool) (natts : Z) (max_rows : nat) :
    M World (list VisibleTupleSlice) := λ w,
  match scan_slot handle (w_session w) with
  | None => (Ok [], w)
  | Some scan =>
    if exhausted_in forward scan then (Ok [], w) else
    match batch_loop (scan_row (w_storage w) (w_stack w) scan forward) forward natts max_rows
            (forward_cursor scan) (backward_cursor scan) with
    | Error code msg => (Error code msg, w)
    | Ok (vs, (fc, bc), ended) =>
      let some := negb (bool_decide (vs = [])) in
      let fe := if ended then forward else if some && negb forward then false else forward_exhausted scan in
      let be := if ended then negb forward else if some && forward then false else backward_exhausted scan in
      (Ok vs, on_session (scan_slot_mut handle (move_cursors fc bc fe be)) w)
    end
  end.

(** ** Fetching a row by its identifier *)

Definition fetch_tid_impl `{Target} (relid packed_tid natts : Z) : M World (option (list Z)) := λ w,
  match unpack packed_tid with
  | None => (Ok None, w)
  | Some t =>
    let '(t, st) := resolve_tid_redirect_in_overlays_compress (w_stack w) relid t (w_storage w) in
    let w := set_w_storage st w in
    (Ok (tuple ← visible_tuple_slice_in_overlays st (w_stack w) relid t;
         if copies natts tuple then Some tuple else None), w)
  end.

Definition fetch_tid_snapshot_impl `{Target} (relid packed_tid curcid natts : Z) (w : World) : option (list Z) :=
  t ← unpack packed_tid;
  tuple ← visible_tuple_slice_in_overlays_at_cid (w_storage w) (w_stack w) relid t curcid;
  if copies natts tuple then Some tuple else None.

Definition fetch_tid_any_impl `{Target} (relid packed_tid natts : Z) (w : World) : option (list Z) :=
  t ← unpack packed_tid;
  tuple ← match overlay_pending_tuple_slice (w_stack w) relid t with
          | Some tuple => Some tuple
          | None => r ← relations (w_storage w) !! relid; rel_tuple_slice_any r t
          end;
  if copies natts tuple then Some tuple else None.
