(* ===== verification/EngFfi.v ===== *)
(** * The C interface of the second engine

    The functions of crates/fastpg-storage2/src/lib.rs that the table access
    method calls, beside those of transactions (EngOps.v) and scans (EngScan.v):
    facts about relations, redirects and rows, the forms of insertion, update
    and deletion, and the indexes.  Arrays are lists, and a value that is
    written through a pointer next to a result of [true] is an option. *)

From Stdlib Require Import ZArith Lia.
From stdpp Require Import base tactics numbers list gmap strings.
From S2P Require Import Prelude RustStd EngTid EngTuple EngPage EngIndex EngRelation EngOverlay EngState EngOps EngScan.

Local Open Scope Z_scope.

Section ffi.
Context `{Target, Catalog} (mem : Z → Z) (fuel : nat).

(** ** Relations *)

Definition fastpg_storage2_relation_clear (relid : Z) : M World unit := clear_relation relid.
Definition fastpg_storage2_relation_row_count (relid : Z) (w : World) : Z := visible_row_count_cached relid w.
Definition fastpg_storage2_relation_has_visibility_deltas (relid : Z) (w : World) : bool :=
  transaction_has_visibility_deltas (w_session w) relid.
Definition fastpg_storage2_relation_row_count_if_visibility_deltas (relid : Z) (w : World) : option Z :=
  if negb (transaction_has_visibility_deltas (w_session w) relid) then None
  else Some (visible_row_count_cached relid w).

Definition fastpg_storage2_relation_page_count (relid : Z) (w : World) : Z :=
  default 0 (page_count <$> relations (w_storage w) !! relid).
Definition fastpg_storage2_relation_block_count (relid : Z) (w : World) : Z :=
  default 0 (block_count <$> relations (w_storage w) !! relid).
Definition fastpg_storage2_relation_set_max_tuples_per_block (relid max_tuples : Z) : M World unit :=
  in_relation relid (modify (set_max_tuples max_tuples)).
(** The number of line pointers, where it fits in 16 bits. *)
Definition page_offsets (p : Page) : option Z := try_from U16_MAX (len (line_pointers p)).
Definition fastpg_storage2_relation_block_max_offset (relid block : Z) (w : World) : Z :=
  default 0 (r ← relations (w_storage w) !! relid; p ← page r block; page_offsets p).

(** [consider] of [next_scan_block], with the candidate it updates. *)
Definition consider (start_block : Z) (candidate : option (Z * Z)) (entry : Z * Z) : option (Z * Z) :=
  let '(block, max_offset) := entry in
  if (max_offset =? 0) || (block <? start_block) then candidate
  else match candidate with
       | Some (candidate_block, candidate_offset) =>
         if block =? candidate_block then Some (block, Z.max candidate_offset max_offset)
         else if candidate_block <? block then candidate
         else Some (block, max_offset)
       | None => Some (block, max_offset)
       end.

(** The blocks that are considered, with the offsets they are considered with. *)
Definition relation_scan_blocks (r : RelationStorage) (start_block : Z) (include_current_inserted : bool) : list (Z * Z) :=
  let start_tid := mkTid start_block 0 in
  omap (λ t, p ← page r (tid_block t); offsets ← page_offsets p; Some (tid_block t, offsets))
    (option_list (range_from_find start_tid (λ _, true) (live_tids r)) ++
     option_list (range_from_find start_tid (λ _, true) (hot_redirect_roots r)) ++
     (if include_current_inserted
      then filter (λ t, start_block <= tid_block t) (map_to_list (update_redirects r)).*1 else [])).
Definition overlay_scan_blocks (relid start_block : Z) (include_current_inserted : bool) (o : TransactionOverlay) :
    list (Z * Z) :=
  (if include_current_inserted
   then (λ t, (tid_block t, tid_offset t)) <$> filter (λ t, start_block <= tid_block t) (tids_of relid (inserted_tids o))
   else []) ++
  omap (λ p, offsets ← page_offsets p; Some (pg_block p, offsets)) (default [] (relid_get relid (pending_pages o))).

Definition fastpg_storage2_relation_next_scan_block (relid start_block : Z) (include_current_inserted : bool) (w : World) :
    option (Z * Z) :=
  foldl (consider start_block) None
    (match relations (w_storage w) !! relid with
     | Some r => relation_scan_blocks r start_block include_current_inserted
     | None => []
     end ++ (w_stack w ≫= overlay_scan_blocks relid start_block include_current_inserted)).

Definition fastpg_storage2_relation_visible_tid_at (relid : Z) (index : nat) (w : World) : option Z :=
  pack <$> visible_tids (w_storage w) (w_session w) relid !! index.

(** ** Rows and redirects *)

Definition fastpg_storage2_relation_contains_tid (relid packed_tid : Z) (w : World) : bool :=
  match unpack packed_tid with
  | None => false
  | Some t => bool_decide (is_Some (find_visible_tuple (w_storage w) (w_session w) relid t))
  end.
Definition fastpg_storage2_relation_current_session_owns_inserted_tid (relid packed_tid : Z) (w : World) : bool :=
  match unpack packed_tid with
  | None => false
  | Some t => owns_inserted_tid (w_session w) relid t
  end.

Definition fastpg_storage2_relation_current_session_visible_tid (relid packed_tid : Z) (curcid : option Z) (w : World) :
    option Z :=
  t ← unpack packed_tid;
  let st := w_storage w in
  let resolved := resolve_update_redirect_in_overlays st (w_stack w) relid t in
  _ ← match curcid with
      | Some curcid => visible_tuple_slice_in_overlays_at_cid st (w_stack w) relid resolved curcid
      | None => visible_tuple_slice_in_overlays st (w_stack w) relid resolved
      end;
  Some (pack resolved).
Definition fastpg_storage2_relation_current_session_hot_visible_tid (relid packed_tid : Z) (curcid : option Z) (w : World) :
    option Z :=
  t ← unpack packed_tid;
  let st := w_storage w in
  let resolved := resolve_tid_redirect_in_overlays st (w_stack w) relid t in
  _ ← match curcid with
      | Some curcid => physical_visible_tuple_slice_in_overlays_at_cid st (w_stack w) relid resolved curcid
      | None => physical_visible_tuple_slice_in_overlays st (w_stack w) relid resolved
      end;
  Some (pack resolved).

Definition fastpg_storage2_relation_index_tid_all_dead (relid packed_tid : Z) (w : World) : bool :=
  match unpack packed_tid with
  | None => true
  | Some t => index_tid_all_dead (w_storage w) (w_session w) relid t
  end.

(** A test of the transaction's redirects or of the relation's. *)
Definition tid_test (in_overlays : list TransactionOverlay → Z → Tid → bool) (in_relation : RelationStorage → Tid → bool)
    (relid packed_tid : Z) (w : World) : bool :=
  match unpack packed_tid with
  | None => false
  | Some t => in_overlays (w_stack w) relid t
              || match relations (w_storage w) !! relid with Some r => in_relation r t | None => false end
  end.
Definition fastpg_storage2_relation_tid_is_hot_redirect_target : Z → Z → World → bool :=
  tid_test overlay_tid_redirect_target is_hot_redirect_target.
Definition fastpg_storage2_relation_tid_is_hot_redirect_root : Z → Z → World → bool :=
  tid_test (λ overlays relid t, bool_decide (is_Some (overlay_tid_redirect overlays relid t))) is_hot_redirect_root.
Definition fastpg_storage2_relation_tid_has_update_redirect : Z → Z → World → bool :=
  tid_test (λ overlays relid t, bool_decide (is_Some (overlay_update_redirect overlays relid t)))
    (λ r t, bool_decide (is_Some (update_redirects r !! t))).

Definition fastpg_storage2_relation_hot_root_tid (relid packed_tid : Z) (w : World) : option Z :=
  t ← unpack packed_tid;
  let root_in_relation t := r ← relations (w_storage w) !! relid; hot_redirect_root_for_target r t in
  Some (pack (match overlay_tid_redirect_root_for_target (w_stack w) relid t with
              | Some root => default root (root_in_relation root)
              | None => default t (root_in_relation t)
              end)).

(** The forms that also compress the redirects, and those that only read. *)
Definition resolve_with (resolve : Z → Tid → World → Tid * World) (relid packed_tid : Z) : M World (option Z) :=
  match unpack packed_tid with
  | None => mret None
  | Some t => resolved ← returning (resolve relid t); mret (Some (pack resolved))
  end.
Definition fastpg_storage2_relation_resolve_tid : Z → Z → M World (option Z) :=
  resolve_with (λ relid t w,
    let '(t, st) := resolve_tid_redirect_in_overlays_compress (w_stack w) relid t (w_storage w) in (t, set_w_storage st w)).
Definition fastpg_storage2_relation_resolve_update_tid : Z → Z → M World (option Z) :=
  resolve_with (λ relid t w,
    let '(t, st) := resolve_update_redirect_in_overlays_compress (w_stack w) relid t (w_storage w) in (t, set_w_storage st w)).
Definition fastpg_storage2_relation_resolve_tid_read (relid packed_tid : Z) (w : World) : option Z :=
  t ← unpack packed_tid; Some (pack (resolve_tid_redirect_in_overlays (w_storage w) (w_stack w) relid t)).
Definition fastpg_storage2_relation_resolve_update_tid_read (relid packed_tid : Z) (w : World) : option Z :=
  t ← unpack packed_tid; Some (pack (resolve_update_redirect_in_overlays (w_storage w) (w_stack w) relid t)).

(** ** Metadata of rows *)

(** A change at a row; [false] if the number is not one of a row. *)
Definition at_tid (packed_tid : Z) (f : Tid → M World unit) : M World bool :=
  match unpack packed_tid with
  | None => mret false
  | Some t => f t;; mret true
  end.
Definition fastpg_storage2_relation_record_insert_metadata (relid packed_tid xid cid : Z) : M World bool :=
  at_tid packed_tid (λ t, record_insert_metadata relid t xid cid).
Definition fastpg_storage2_relation_record_invalidate_metadata (relid packed_tid xid cid : Z) : M World bool :=
  at_tid packed_tid (λ t, record_invalidate_metadata relid t xid cid).
Definition fastpg_storage2_relation_record_row_xmax (relid packed_tid xmax : Z) : M World bool :=
  at_tid packed_tid (λ t, record_row_xmax relid t xmax).

Definition row_number (read : StorageState → SessionStorage → Z → Tid → Z) (relid packed_tid : Z) (w : World) : Z :=
  match unpack packed_tid with
  | None => 0
  | Some t => read (w_storage w) (w_session w) relid t
  end.
Definition fastpg_storage2_relation_row_xmin : Z → Z → World → Z := row_number row_xmin.
Definition fastpg_storage2_relation_row_cmin : Z → Z → World → Z := row_number row_cmin.
Definition fastpg_storage2_relation_row_xmax : Z → Z → World → Z := row_number row_xmax.
Definition fastpg_storage2_relation_row_delete_xid : Z → Z → World → Z := row_number row_delete_xid.
Definition fastpg_storage2_relation_row_delete_cid : Z → Z → World → Z := row_number row_delete_cid.

(** ** Insertions, updates and deletions *)

Definition packed (m : M World (option Tid)) : M World (option Z) := t ← m; mret (pack <$> t).

Definition fastpg_storage2_relation_insert (relid : Z) (input : RowInput) : M World (option Z) :=
  packed (relation_insert_impl mem fuel relid input Enforce None true).
Definition fastpg_storage2_relation_insert_unchecked (relid : Z) (input : RowInput) : M World (option Z) :=
  packed (relation_insert_impl mem fuel relid input Skip None true).
Definition fastpg_storage2_relation_insert_unchecked_with_metadata_record_primary_key (relid : Z) (m : InsertMetadata)
    (input : RowInput) (record_primary_key : bool) : M World (option Z) :=
  packed (relation_insert_impl mem fuel relid input Skip (Some m) record_primary_key).
Definition fastpg_storage2_relation_insert_unchecked_with_metadata (relid : Z) (m : InsertMetadata) (input : RowInput) :
    M World (option Z) :=
  packed (relation_insert_impl mem fuel relid input Skip (Some m) true).
Definition fastpg_storage2_relation_insert_unchecked_no_index_with_metadata (relid : Z) (m : InsertMetadata)
    (input : RowInput) : M World (option Z) :=
  packed (relation_insert_impl mem fuel relid input Skip (Some m) false).

Definition fastpg_storage2_relation_update (relid packed_tid : Z) (input : RowInput) : M World (option Z) :=
  packed (relation_update_impl mem fuel relid packed_tid input Enforce false None).
Definition fastpg_storage2_relation_update_unchecked (relid packed_tid : Z) (input : RowInput) : M World (option Z) :=
  packed (relation_update_impl mem fuel relid packed_tid input Skip false None).
Definition fastpg_storage2_relation_update_unchecked_with_metadata (relid packed_tid : Z) (m : UpdateMetadata)
    (input : RowInput) : M World (option Z) :=
  packed (relation_update_impl mem fuel relid packed_tid input Skip false (Some m)).
Definition fastpg_storage2_relation_update_redirect_unchecked (relid packed_tid : Z) (input : RowInput) :
    M World (option Z) :=
  packed (relation_update_impl mem fuel relid packed_tid input Skip true None).
Definition fastpg_storage2_relation_update_hot_unchecked (relid packed_tid : Z) (input : RowInput) : M World (option Z) :=
  packed (relation_update_impl mem fuel relid packed_tid input Skip true None).
Definition fastpg_storage2_relation_update_hot_unchecked_with_metadata (relid packed_tid : Z) (m : UpdateMetadata)
    (input : RowInput) : M World (option Z) :=
  packed (relation_update_impl mem fuel relid packed_tid input Skip true (Some m)).
Definition fastpg_storage2_relation_update_hot_if_single_byval_preserved_with_metadata (relid packed_tid : Z)
    (key : SingleByvalHotKey) (m : UpdateMetadata) (input : RowInput) : M World (option (Z * bool)) :=
  res ← relation_update_hot_if_single_byval_preserved_impl mem fuel relid packed_tid input key (Some m);
  mret ((λ tp, (pack tp.1, tp.2)) <$> res).

Definition fastpg_storage2_relation_delete (relid packed_tid : Z) : M World bool := relation_delete_impl relid packed_tid true.
Definition fastpg_storage2_relation_delete_record_primary_key (relid packed_tid : Z) (record_primary_key : bool) :
    M World bool := relation_delete_impl relid packed_tid record_primary_key.

(** ** Rows by their identifiers *)

Definition fastpg_storage2_fetch_current_session_tid_with_stored_natts (relid packed_tid : Z) (curcid : option Z)
    (natts : Z) (w : World) : option (list Z * Z) :=
  t ← unpack packed_tid;
  let st := w_storage w in
  let resolved := resolve_update_redirect_in_overlays st (w_stack w) relid t in
  tuple ← match curcid with
          | Some curcid => visible_tuple_slice_in_overlays_at_cid st (w_stack w) relid resolved curcid
          | None => visible_tuple_slice_in_overlays st (w_stack w) relid resolved
          end;
  if copies natts tuple then Some (tuple, pack resolved) else None.
Definition fastpg_storage2_fetch_resolved_tid_with_stored_natts (relid packed_tid natts : Z) (w : World) : option (list Z) :=
  t ← unpack packed_tid;
  tuple ← visible_tuple_slice_in_overlays (w_storage w) (w_stack w) relid t;
  if copies natts tuple then Some tuple else None.

(** ** Keys of the primary index *)

Inductive OverlayLookup := OFound (t : Tid) | OHidden | OMissing.
Inductive ConflictLookup := CFound (t : Tid) | CNoConflict | CMissing.

Definition overlay_lookup (found : option (option Tid)) : OverlayLookup :=
  match found with
  | Some (Some t) => OFound t
  | Some None => OHidden
  | None => OMissing
  end.

(** An entry of the transaction leads to a row that [visible] shows and that is not invalidated. *)
Definition visible_entry (relid : Z) (visible : Tid → bool) (w : World) (t : Tid) : option Tid :=
  let t := resolve_overlay_update_redirect (w_stack w) relid t in
  if visible t && negb (overlays_invalidate_tid (w_stack w) relid t) then Some t else None.

(** Where nothing is committed the session's own data are tried first. *)
Definition primary_key_overlay_lookup_current_session (relid : Z) (key : IndexKey) (w : World) : OverlayLookup :=
  let lookup visible := overlay_lookup (primary_key_overlays (visible_entry relid visible w) relid key (reverse (w_stack w))) in
  let in_storage := lookup (λ t, bool_decide (is_Some (find_visible_tuple (w_storage w) (w_session w) relid t))) in
  if committed_row_count_cached relid w =? 0 then
    match lookup (λ t, bool_decide (is_Some (overlay_visible_tuple_slice (w_stack w) relid t None))) with
    | OMissing => in_storage
    | found => found
    end
  else in_storage.

Definition resolve_replacing_tid_current_session (relid : Z) (replacing : option Tid) (w : World) : option Tid :=
  resolve_overlay_update_redirect (w_stack w) relid <$> replacing.

Definition primary_key_conflict_current_session_or_empty (relid : Z) (key : IndexKey) (replacing : option Tid) (w : World) :
    ConflictLookup :=
  let replacing := resolve_replacing_tid_current_session relid replacing w in
  match primary_key_overlay_lookup_current_session relid key w with
  | OFound t => if bool_decide (Some t = replacing) then CNoConflict else CFound t
  | OHidden | OMissing => if committed_row_count_cached relid w =? 0 then CNoConflict else CMissing
  end.

(** An operation on the storage with the session at hand. *)
Definition in_storage {A} (m : SessionStorage → M StorageState A) : M World A := λ w,
  let '(res, st) := m (w_session w) (w_storage w) in (res, set_w_storage st w).

Definition lookup_primary_key (relid : Z) (key : IndexKey) (missing : M World (option Tid)) : M World (option Z) :=
  found ← gets (primary_key_overlay_lookup_current_session relid key);
  packed match found with
         | OFound t => mret (Some t)
         | OHidden => mret None
         | OMissing => missing
         end.

(** An optional argument: without it there is nothing to do. *)
Definition given {A B} (a : option A) (none : B) (f : A → M World B) : M World B :=
  match a with Some a => f a | None => mret none end.

Definition fastpg_storage2_primary_key_index_lookup (index_relid : Z) (values is_null : list Z) : M World (option Z) :=
  given (spec ← primary_index_spec_for_index_oid index_relid;
         key ← index_key_for_key_datums mem fuel spec values is_null; Some (relation_oid spec, key)) None
    (λ '(relid, key), lookup_primary_key relid key (in_storage (λ s, primary_key_lookup s relid key))).

Definition fastpg_storage2_primary_key_index_lookup_single_byval_with_spec (heap_relid value is_null : Z) :
    M World (option Z) :=
  if negb (is_null =? 0) then mret None
  else let key := KSingle (KByValue value) in
       lookup_primary_key heap_relid key (in_storage (λ s, primary_key_lookup s heap_relid key)).

(** *** Indexes described by the caller *)

(** The arrays that describe the columns of an index, by column. *)
Record FfiColumn := { fc_attnum : Z; fc_type_oid : Z; fc_typbyval : Z; fc_typlen : Z }.

Definition ffi_column (c : FfiColumn) : option IndexColumnSpec :=
  if fc_attnum c <=? 0 then None
  else Some {| column_index := fc_attnum c - 1; column_type_oid := fc_type_oid c;
               column_typbyval := negb (fc_typbyval c =? 0); column_typlen := fc_typlen c |}.
Definition unique_index_spec_from_ffi (index_relid heap_relid : Z) (ffi_columns : list FfiColumn)
    (primary nulls_equal : bool) : option UniqueIndexSpec :=
  match ffi_columns with
  | [] => None
  | _ => cs ← mapM ffi_column ffi_columns;
         Some {| index_oid := index_relid; relation_oid := heap_relid; is_primary := primary;
                 nulls_not_distinct := nulls_equal; columns := cs |}
  end.

Definition with_is_primary (primary : bool) (spec : UniqueIndexSpec) : UniqueIndexSpec :=
  {| index_oid := index_oid spec; relation_oid := relation_oid spec; is_primary := primary;
     nulls_not_distinct := nulls_not_distinct spec; columns := columns spec |}.
(** [columns.truncate(prefix_len)] *)
Definition with_prefix (prefix_len : nat) (spec : UniqueIndexSpec) : UniqueIndexSpec :=
  {| index_oid := index_oid spec; relation_oid := relation_oid spec; is_primary := is_primary spec;
     nulls_not_distinct := nulls_not_distinct spec; columns := take prefix_len (columns spec) |}.

Definition fastpg_storage2_primary_key_index_insert_with_spec (index_relid heap_relid : Z) (cols : list FfiColumn)
    (values is_null : list Z) (packed_tid : Z) : M World bool :=
  given (t ← unpack packed_tid; spec ← unique_index_spec_from_ffi index_relid heap_relid cols true false;
         key ← index_key_for_key_datums mem fuel spec values is_null; Some (key, t)) false
    (λ '(key, t), modify (on_session ensure_transaction);;
                  in_overlay (modify (insert_primary_key heap_relid key t));;
                  mret true).

Definition fastpg_storage2_relation_record_primary_key (relid packed_tid : Z) : M World bool :=
  match unpack packed_tid, primary_index_spec_for_relation_oid relid with
  | None, _ => mret false
  | Some _, None => mret true
  | Some t, Some spec =>
    found ← gets (λ w, find_visible_tuple (w_storage w) (w_session w) relid t);
    match found with
    | None => mret false
    | Some tuple =>
      match index_key_for_decoded spec (dt_values tuple) with
      | None => mret true
      | Some key =>
        modify (on_session ensure_transaction);;
        in_overlay (modify (insert_primary_key relid key t));;
        mret true
      end
    end
  end.

Definition fastpg_storage2_primary_key_index_lookup_with_spec (index_relid heap_relid : Z) (cols : list FfiColumn)
    (values is_null : list Z) : M World (option Z) :=
  given (spec ← unique_index_spec_from_ffi index_relid heap_relid cols true false;
         key ← index_key_for_key_datums mem fuel spec values is_null; Some (spec, key)) None
    (λ '(spec, key), lookup_primary_key heap_relid key (in_storage (λ s,
       found ← primary_key_lookup s heap_relid key;
       match found with
       | Some t => mret (Some t)
       | None => find_visible_by_index_key_excluding s heap_relid (with_is_primary false spec) key None
       end))).

(** The entries of the rows that the session sees. *)
Definition index_entries (st : StorageState) (s : SessionStorage) (relid : Z) (spec : UniqueIndexSpec) :
    list (IndexKey * Tid) :=
  omap (λ t, tuple ← find_visible_tuple st s relid t; key ← index_key_for_decoded spec (dt_values tuple); Some (key, t))
    (visible_tids st s relid).
Definition rebuild_primary_key (relid : Z) (spec : UniqueIndexSpec) : M World bool :=
  entries ← gets (λ w, index_entries (w_storage w) (w_session w) relid spec);
  modify (on_session ensure_transaction);;
  in_overlay (modify (λ o, foldl (λ o kt, insert_primary_key relid kt.1 kt.2 o) o entries));;
  mret true.
Definition fastpg_storage2_rebuild_primary_key_index (index_relid : Z) : M World bool :=
  given (primary_index_spec_for_index_oid index_relid) false (λ spec, rebuild_primary_key (relation_oid spec) spec).
Definition fastpg_storage2_rebuild_primary_key_index_with_spec (index_relid heap_relid : Z) (cols : list FfiColumn) :
    M World bool :=
  given (unique_index_spec_from_ffi index_relid heap_relid cols true false) false (rebuild_primary_key heap_relid).

(** ** Conflicts *)

Definition index_conflict (relid : Z) (spec : UniqueIndexSpec) (key : IndexKey) (replacing_tid : Z) (w : World) : option Z :=
  let replacing := if replacing_tid =? 0 then None else unpack replacing_tid in
  let search := pack <$> find_visible_by_index_key_excluding_read (w_storage w) (w_session w) relid spec key replacing in
  if is_primary spec then
    match primary_key_conflict_current_session_or_empty relid key replacing w with
    | CFound t => Some (pack t)
    | CNoConflict => None
    | CMissing => search
    end
  else search.

Definition fastpg_storage2_unique_index_conflict (index_relid : Z) (values is_null : list Z) (replacing_tid : Z) (w : World) :
    option Z :=
  relid ← relation_oid_for_index_oid index_relid;
  spec ← List.find (λ spec, index_oid spec =? index_relid)
           (omap unique_index_spec_for_record (unique_index_records_for_relation_oid relid));
  key ← index_key_for_key_datums mem fuel spec values is_null;
  index_conflict relid spec key replacing_tid w.
Definition fastpg_storage2_unique_index_conflict_with_spec (index_relid heap_relid : Z) (cols : list FfiColumn)
    (values is_null : list Z) (primary nulls_equal : bool) (replacing_tid : Z) (w : World) : option Z :=
  spec ← unique_index_spec_from_ffi index_relid heap_relid cols primary nulls_equal;
  key ← index_key_for_key_datums mem fuel spec values is_null;
  index_conflict heap_relid spec key replacing_tid w.

Fixpoint validate_loop (entries : list (IndexKey * Tid)) (seen : gmap IndexKey Tid) : option Tid :=
  match entries with
  | [] => None
  | (key, t) :: entries =>
    match seen !! key with
    | Some existing => Some existing
    | None => validate_loop entries (<[key := t]> seen)
    end
  end.
Definition fastpg_storage2_unique_index_validate_with_spec (index_relid heap_relid : Z) (cols : list FfiColumn)
    (nulls_equal : bool) (w : World) : option Z :=
  spec ← unique_index_spec_from_ffi index_relid heap_relid cols false nulls_equal;
  pack <$> validate_loop (index_entries (w_storage w) (w_session w) heap_relid spec) ∅.

(** ** Other indexes *)

(** Every prefix of the key gets an entry. *)
Definition fastpg_storage2_index_insert_with_spec (index_relid heap_relid : Z) (cols : list FfiColumn)
    (values is_null : list Z) (packed_tid : Z) : M World bool :=
  given (t ← unpack packed_tid; spec ← unique_index_spec_from_ffi index_relid heap_relid cols false true; Some (spec, t)) false
    (λ '(spec, t),
       modify (on_session ensure_transaction);;
       in_overlay (modify (λ o, foldl (λ o prefix_len,
         match index_key_for_key_datums mem fuel (with_prefix prefix_len spec) (take prefix_len values)
                 (take prefix_len is_null) with
         | Some key => ov_insert_index_entry heap_relid index_relid key t o
         | None => o
         end) o (seq 1 (length values))));;
       mret true).

Definition visible_index_candidate_tid (heap_relid : Z) (w : World) (t : Tid) : option Tid :=
  let st := w_storage w in
  let t := resolve_update_redirect_in_overlays st (w_stack w) heap_relid t in
  let t := resolve_tid_redirect_in_overlays st (w_stack w) heap_relid t in
  _ ← visible_tuple_slice_in_overlays st (w_stack w) heap_relid t;
  Some t.
Definition visible_overlay_index_candidate_tid (heap_relid : Z) (w : World) (t : Tid) : option Tid :=
  let t := resolve_overlay_update_redirect (w_stack w) heap_relid t in
  let t := resolve_overlay_tid_redirect (w_stack w) heap_relid t in
  _ ← overlay_visible_tuple_slice (w_stack w) heap_relid t None;
  Some t.

(** [consider_tid] for the rows in turn: given up at a row that is not visible
    and at a row too many. *)
Fixpoint collect_tids (visible : Tid → option Tid) (max_tids : Z) (tids : list Tid) (output : gset Tid) : option (gset Tid) :=
  match tids with
  | [] => Some output
  | t :: tids =>
    t ← visible t;
    let output := {[t]} ∪ output in
    if Z.of_nat (size output) <=? max_tids then collect_tids visible max_tids tids output else None
  end.

(** What an index has under a key, or altogether; [None] where it has no entries. *)
Definition under_key (key : IndexKey) (index : gmap IndexKey (list Tid)) : option (list Tid) := index !! key.
Definition all_keys (index : gmap IndexKey (list Tid)) : option (list Tid) := Some (concat (map_to_list index).*2).
Definition relation_index_tids (select : gmap IndexKey (list Tid) → option (list Tid)) (heap_relid index_relid : Z) (w : World) :
    option (list Tid) :=
  r ← relations (w_storage w) !! heap_relid; index ← indexes r !! index_relid; select index.
Definition overlay_index_tids (select : gmap IndexKey (list Tid) → option (list Tid)) (heap_relid index_relid : Z) (w : World) :
    list (list Tid) :=
  omap (λ o, ms ← relid_get heap_relid (index_inserts o); index ← ms !! index_relid; select index) (w_stack w).

Definition collect_index_prefix_matches (heap_relid index_relid : Z) (key : IndexKey) (max_tids : Z) (w : World) :
    option (list Tid) :=
  tid_iter <$> collect_tids (visible_index_candidate_tid heap_relid w) max_tids
    (default [] (relation_index_tids (under_key key) heap_relid index_relid w)
     ++ concat (overlay_index_tids (under_key key) heap_relid index_relid w)) ∅.

(** [saw_index.then(..)] *)
Definition collect_seen (visible : Tid → option Tid) (max_tids : Z) (lists : list (list Tid)) : option (list Tid) :=
  output ← collect_tids visible max_tids (concat lists) ∅;
  match lists with
  | [] => None
  | _ => Some (tid_iter output)
  end.
Definition collect_overlay_index_prefix_matches (heap_relid index_relid : Z) (key : IndexKey) (max_tids : Z) (w : World) :
    option (list Tid) :=
  collect_seen (visible_overlay_index_candidate_tid heap_relid w) max_tids
    (overlay_index_tids (under_key key) heap_relid index_relid w).
Definition collect_index_candidate_matches (heap_relid index_relid max_tids : Z) (w : World) : option (list Tid) :=
  collect_seen (visible_index_candidate_tid heap_relid w) max_tids
    (option_list (relation_index_tids all_keys heap_relid index_relid w)
     ++ overlay_index_tids all_keys heap_relid index_relid w).
Definition collect_overlay_index_candidate_matches (heap_relid index_relid max_tids : Z) (w : World) : option (list Tid) :=
  collect_seen (visible_overlay_index_candidate_tid heap_relid w) max_tids
    (overlay_index_tids all_keys heap_relid index_relid w).

(** The session's own entries where nothing is committed, else all. *)
Definition own_or_all (relid : Z) (own all : option (list Tid)) (w : World) : option (list Tid) :=
  match (if committed_row_count_cached relid w =? 0 then own else None) with
  | Some matches => Some matches
  | None => all
  end.

Definition fastpg_storage2_index_prefix_lookup_with_spec (index_relid heap_relid : Z) (cols : list FfiColumn)
    (values is_null : list Z) (max_tids : Z) (w : World) : option (list Z) :=
  spec ← (if max_tids =? 0 then None else unique_index_spec_from_ffi index_relid heap_relid cols false false);
  key ← index_key_for_key_datums mem fuel spec values is_null;
  matches ← own_or_all heap_relid (collect_overlay_index_prefix_matches heap_relid index_relid key max_tids w)
              (collect_index_prefix_matches heap_relid index_relid key max_tids w) w;
  Some (pack <$> (matches : list Tid)).
Definition fastpg_storage2_index_candidate_lookup (index_relid heap_relid max_tids : Z) (w : World) : option (list Z) :=
  matches ← (if max_tids =? 0 then None
             else own_or_all heap_relid (collect_overlay_index_candidate_matches heap_relid index_relid max_tids w)
                    (collect_index_candidate_matches heap_relid index_relid max_tids w) w);
  Some (pack <$> (matches : list Tid)).
End ffi.
