(* ===== verification/EngTupleProofs.v ===== *)
(** * A stored row reads back as it was written

    [tuple_roundtrip]: the length computed for a row is the length its writing
    needs, writing succeeds in a slice of that length, and decoding gives the
    values back.  [stored_row_reads] follows the two ways of reading a row
    through raw pointers on such a row; [raw_reads_in_bounds] shows that they
    stay inside a row with any bytes. *)

From Stdlib Require Import ZArith Lia.
From stdpp Require Import base tactics numbers list strings.
From S2P Require Import Prelude RustStd EngTid EngTuple.

Local Open Scope Z_scope.

(** ** Bytes *)

Lemma le_bytes_length n v : length (le_bytes n v) = n.
Proof. revert v. induction n as [|n IH]; intros v; simpl; [done|]. by rewrite IH. Qed.

Lemma le_value_bytes n v : 0 <= v < 2 ^ (8 * Z.of_nat n) → le_value (le_bytes n v) = v.
Proof.
  revert v. induction n as [|n IH]; intros v Hv; simpl; [simpl in Hv; lia|].
  rewrite IH.
  - rewrite (Z.div_mod v 256) at 3 by lia. lia.
  - replace (8 * Z.of_nat (S n)) with (8 + 8 * Z.of_nat n) in Hv by lia.
    rewrite Z.pow_add_r in Hv by lia. change (2 ^ 8) with 256 in Hv.
    split; [apply Z.div_pos; lia|]. apply Z.div_lt_upper_bound; lia.
Qed.

Lemma to_ne_bytes_length `{Target} n v : length (to_ne_bytes n v) = n.
Proof. unfold to_ne_bytes. destruct little_endian; rewrite ?length_reverse; apply le_bytes_length. Qed.

Lemma from_to_ne_bytes `{Target} n v : 0 <= v < 2 ^ (8 * Z.of_nat n) → from_ne_bytes (to_ne_bytes n v) = v.
Proof.
  intros Hv. unfold from_ne_bytes, to_ne_bytes. destruct little_endian; [|rewrite reverse_involutive];
    by apply le_value_bytes.
Qed.

Lemma null_bit_testbit b i : null_bit b i = Z.testbit b (i mod 8).
Proof.
  unfold null_bit. pose proof (Z.mod_pos_bound i 8 ltac:(lia)) as Hm. set (k := i mod 8) in *.
  rewrite Z.shiftl_1_l. destruct (Z.testbit b k) eqn:E.
  - apply negb_true_iff, Z.eqb_neq. intros Hz.
    assert (Z.testbit (Z.land b (2 ^ k)) k = false) by (rewrite Hz; apply Z.bits_0).
    rewrite Z.land_spec, E, Z.pow2_bits_true in *; [done|lia].
  - apply negb_false_iff, Z.eqb_eq. apply Z.bits_inj'. intros n Hn.
    rewrite Z.land_spec, Z.bits_0. destruct (decide (n = k)) as [->|]; [by rewrite E|].
    rewrite Z.pow2_bits_false by lia. by rewrite andb_false_r.
Qed.

(** ** Slices *)

Lemma slice_get_byte (l : list Z) i : 0 <= i → (λ b, [b]) <$> byte_at l i = slice_get l i (i + 1).
Proof.
  intros Hi. unfold byte_at, slice_get, len. rewrite (proj2 (Z.leb_le _ _)) by lia. simpl.
  replace (i + 1 - i) with 1 by lia. destruct (Z.leb_spec (i + 1) (Z.of_nat (length l))).
  - destruct (lookup_lt_is_Some_2 l (Z.to_nat i)) as [x Hx]; [lia|]. rewrite Hx. simpl. f_equal.
    rewrite (drop_S _ _ _ Hx). done.
  - rewrite lookup_ge_None_2 by lia. done.
Qed.

Lemma byte_at_slice (l : list Z) i b : 0 <= i → byte_at l i = Some b ↔ slice_get l i (i + 1) = Some [b].
Proof.
  intros Hi. rewrite <- slice_get_byte by done. destruct (byte_at l i); simpl; split; congruence.
Qed.

(** A part of a slice that a write does not touch. *)
Lemma slice_get_disjoint start (src l : list Z) i j :
  0 <= i → 0 <= start → start + len src <= len l → j <= start ∨ start + len src <= i →
  slice_get (copy_into start src l) i j = slice_get l i j.
Proof. intros ? ? ? [?|?]; [by apply slice_get_copy_before|by apply slice_get_copy_after]. Qed.

Lemma byte_at_disjoint start (src l : list Z) i :
  0 <= i → 0 <= start → start + len src <= len l → i < start ∨ start + len src <= i →
  byte_at (copy_into start src l) i = byte_at l i.
Proof.
  intros ? ? ? Hd.
  assert (E : (λ b, [b]) <$> byte_at (copy_into start src l) i = (λ b, [b]) <$> byte_at l i).
  { rewrite !slice_get_byte by done. apply slice_get_disjoint; try done. lia. }
  destruct (byte_at (copy_into start src l) i), (byte_at l i); simpl in E; congruence.
Qed.

Lemma write_slice_ok offset src bytes :
  0 <= offset → offset + len src <= len bytes → write_slice offset src bytes = (Ok tt, copy_into offset src bytes).
Proof. intros ? ?. unfold write_slice. rewrite !(proj2 (Z.leb_le _ _)) by lia. done. Qed.

(** ** The layout *)

Section layout.
Context (natts : Z) (Hn : 0 <= natts <= U16_MAX).

Lemma bitmap_bound : 8 * null_bitmap_len natts < natts + 8 ∧ natts <= 8 * null_bitmap_len natts.
Proof. unfold null_bitmap_len, div_ceil. Z.to_euclidean_division_equations. lia. Qed.

Lemma dir_bound : TUPLE_HEADER_LEN <= attr_dir_offset natts <= 16 + 8192.
Proof. unfold attr_dir_offset, TUPLE_HEADER_LEN. pose proof bitmap_bound. unfold U16_MAX in *. lia. Qed.

Lemma payload_offset_spec :
  attr_dir_offset natts + 24 * natts <= payload_offset natts < attr_dir_offset natts + 24 * natts + 8 ∧
  payload_offset natts mod 8 = 0.
Proof.
  pose proof dir_bound. unfold payload_offset, saturating_add, saturating_mul, ATTR_ENTRY_LEN, DATUM_ALIGNMENT.
  unfold USIZE_MAX, U16_MAX in *. rewrite (Z.min_r _ (natts * 24)) by lia. rewrite Z.min_r by lia.
  assert (E : 2 ^ 64 = 18446744073709551616) by done.
  pose proof (next_multiple_of_spec (attr_dir_offset natts + natts * 24) 8) as Hs. unfold TUPLE_HEADER_LEN in *.
  destruct Hs as [Hs1 Hs2]; [lia..|]. split; [lia|done].
Qed.
End layout.

(** The attributes of the arrays. *)
Definition in_attrs (input : RowInput) : list InAttr :=
  zip_with (λ vn bl, {| ia_value := vn.1; ia_null := vn.2; ia_byval := bl.1; ia_len := bl.2 |})
    (zip (in_values input) (in_is_null input)) (zip (in_byval input) (in_value_lens input)).

(** The value of an attribute. *)
Definition attr_source (mem : Z → Z) (a : InAttr) : list Z :=
  if ia_len a =? 0 then [] else read_memory mem (ia_value a) (ia_len a).
Definition attr_datum (mem : Z → Z) (a : InAttr) : DecodedDatum :=
  if negb (ia_null a =? 0) then DNull
  else if negb (ia_byval a =? 0) then DByValue (ia_value a)
  else DByRef (attr_source mem a).

(** Arrays of one length whose values are machine words and whose by-reference values are below 4 GB. *)
Definition input_ok (input : RowInput) : Prop :=
  length (in_is_null input) = length (in_values input) ∧
  length (in_byval input) = length (in_values input) ∧
  length (in_value_lens input) = length (in_values input) ∧
  Forall is_u64 (in_values input) ∧ Forall is_u32 (in_value_lens input).

Lemma input_attr_ok input i : input_ok input →
  input_attr input i = match in_attrs input !! i with Some a => Ok a | None => panic "index out of bounds" end.
Proof.
  intros (H1 & H2 & H3 & _). unfold input_attr, in_attrs. rewrite !lookup_zip_with.
  destruct (in_values input !! i) as [v|] eqn:E; simpl; [|done].
  apply lookup_lt_Some in E.
  destruct (lookup_lt_is_Some_2 (in_is_null input) i) as [n ->]; [lia|].
  destruct (lookup_lt_is_Some_2 (in_byval input) i) as [b ->]; [lia|].
  destruct (lookup_lt_is_Some_2 (in_value_lens input) i) as [l ->]; [lia|]. done.
Qed.

Lemma in_attrs_length input : input_ok input → length (in_attrs input) = length (in_values input).
Proof. intros (H1 & H2 & H3 & _). unfold in_attrs. rewrite !length_zip_with. lia. Qed.

Lemma in_attrs_bounds input i a : input_ok input → in_attrs input !! i = Some a → is_u64 (ia_value a) ∧ is_u32 (ia_len a).
Proof.
  intros (H1 & H2 & H3 & Hv & Hl) Ha. unfold in_attrs in Ha. rewrite !lookup_zip_with in Ha.
  destruct (in_values input !! i) as [v|] eqn:Ev; simpl in Ha; [|done].
  destruct (in_is_null input !! i) as [n|]; simpl in Ha; [|done].
  destruct (in_byval input !! i) as [b|]; simpl in Ha; [|done].
  destruct (in_value_lens input !! i) as [l|] eqn:El; simpl in Ha; [|done]. injection Ha as <-. simpl.
  split; [by eapply Forall_lookup_1 in Hv|by eapply Forall_lookup_1 in Hl].
Qed.

(** The length of the payload after an attribute. *)
Definition is_byref (a : InAttr) : bool := (ia_null a =? 0) && (ia_byval a =? 0).
Definition payload_after (pl : Z) (a : InAttr) : Z :=
  if is_byref a then next_multiple_of pl DATUM_ALIGNMENT + ia_len a else pl.

Lemma next_mult8 x : 0 <= x < 2 ^ 63 → x <= next_multiple_of x 8 < x + 8 ∧ next_multiple_of x 8 mod 8 = 0.
Proof. intros Hx. apply next_multiple_of_spec; [lia..|]. assert (2 ^ 63 + 8 < 2 ^ 64) by done. lia. Qed.

Lemma next_mult8_shift b x : b mod 8 = 0 → 0 <= b → 0 <= x → b + x < 2 ^ 63 →
  next_multiple_of (b + x) 8 = b + next_multiple_of x 8.
Proof.
  intros Hb H0 Hx Hs. unfold next_multiple_of.
  assert (E : (b + x) mod 8 = x mod 8) by (rewrite Z.add_mod, Hb, Z.add_0_l, Z.mod_mod by lia; done).
  rewrite E. pose proof (Z.mod_pos_bound x 8). assert (2 ^ 63 + 8 < 2 ^ 64) by done.
  destruct (x mod 8 =? 0); [done|]. rewrite !wrap64_small by mlia. lia.
Qed.

Lemma payload_after_ge pl a : 0 <= pl < 2 ^ 63 → 0 <= ia_len a → pl <= payload_after pl a.
Proof.
  intros Hp Hl. unfold payload_after, DATUM_ALIGNMENT. destruct (is_byref a); [|lia].
  pose proof (next_mult8 pl Hp). lia.
Qed.

(** How far the payload can get: what comes in, eight bytes of padding and a value per attribute. *)
Lemma payload_fold_bound (as_ : list InAttr) pl :
  0 <= pl → Forall (λ a, is_u32 (ia_len a)) as_ → pl + len as_ * (2 ^ 32 + 8) < 2 ^ 63 →
  pl <= foldl payload_after pl as_ <= pl + len as_ * (2 ^ 32 + 8).
Proof.
  revert pl. induction as_ as [|a as_ IH]; intros pl Hp HF Hb; simpl; [unfold len; simpl; lia|].
  apply Forall_cons in HF as [Ha HF]. rewrite len_cons in *. pose proof (len_nonneg as_).
  assert (Hs : pl <= payload_after pl a <= pl + (2 ^ 32 + 8)).
  { unfold payload_after, DATUM_ALIGNMENT. unfold is_u32 in Ha. destruct (is_byref a); [|lia].
    pose proof (next_mult8 pl). lia. }
  destruct (IH (payload_after pl a)) as [H1 H2]; [lia|done|lia|]. lia.
Qed.

Lemma storage_len_loop_spec input P : input_ok input → P mod 8 = 0 → 0 <= P <= 2 ^ 32 → ∀ k i pl n,
  (i + k = length (in_values input))%nat →
  0 <= pl → pl + Z.of_nat k * (2 ^ 32 + 8) < 2 ^ 62 →
  tuple_storage_len_loop input (seq i k) (P + pl) = Ok n →
  n = P + foldl payload_after pl (drop i (in_attrs input)) ∧
  ∀ j a, (i ≤ j)%nat → in_attrs input !! j = Some a → is_byref a = true → ¬ (ia_value a = 0 ∧ 0 < ia_len a).
Proof.
  intros Hok HP8 HP. induction k as [|k IH]; intros i pl n Hik Hpl Hb; simpl.
  - intros [= <-]. rewrite drop_ge by (rewrite in_attrs_length by done; lia). split; [done|].
    intros j a Hj Ha. apply lookup_lt_Some in Ha. rewrite in_attrs_length in Ha by done. lia.
  - rewrite input_attr_ok by done.
    destruct (lookup_lt_is_Some_2 (in_attrs input) i) as [a Ha]; [rewrite in_attrs_length by done; lia|].
    rewrite Ha. simpl. destruct (in_attrs_bounds _ _ _ Hok Ha) as [_ Hl]. unfold is_u32 in Hl.
    rewrite (drop_S _ _ _ Ha). simpl. unfold payload_after at 2.
    assert (Hskip : is_byref a = false → ∀ n, tuple_storage_len_loop input (seq (S i) k) (P + pl) = Ok n →
      n = P + foldl payload_after pl (drop (S i) (in_attrs input)) ∧
      ∀ j a, (i ≤ j)%nat → in_attrs input !! j = Some a → is_byref a = true → ¬ (ia_value a = 0 ∧ 0 < ia_len a)).
    { intros Hb' m Hm. destruct (IH (S i) pl m) as [-> Hj]; [lia|done|lia|done|]. split; [done|].
      intros j a' Hij Ha' Hr. destruct (decide (j = i)) as [->|]; [congruence|]. apply (Hj j); [lia|done..]. }
    unfold is_byref in *. destruct (ia_null a =? 0) eqn:En; simpl in *; [|by apply Hskip].
    destruct (ia_byval a =? 0) eqn:Eb; simpl in *; [|by apply Hskip].
    destruct ((ia_value a =? 0) && (0 <? ia_len a)) eqn:Ez; [done|].
    assert (2 ^ 62 < 2 ^ 63) by done. assert (2 ^ 32 < 2 ^ 62) by done.
    assert (0 <= Z.of_nat k * (2 ^ 32 + 8)) by lia.
    assert (2 ^ 62 + 2 ^ 62 = 2 ^ 63) by done.
    unfold DATUM_ALIGNMENT. rewrite next_mult8_shift by (done || lia).
    pose proof (next_mult8 pl) as [Hm1 Hm2]; [lia|].
    unfold checked_add, USIZE_MAX. destruct (Z.leb_spec (P + next_multiple_of pl 8 + ia_len a) 18446744073709551615); [|done].
    rewrite <- Z.add_assoc. intros Hloop.
    destruct (IH (S i) (next_multiple_of pl 8 + ia_len a) n) as [-> Hj]; [lia|lia|lia|done|].
    split; [done|]. intros j a' Hij Ha' Hr. destruct (decide (j = i)) as [->|]; [|apply (Hj j); [lia|done..]].
    rewrite Ha in Ha'. injection Ha' as <-. intros [Hv Hl']. rewrite Hv in Ez. simpl in Ez.
    apply Z.ltb_ge in Ez. lia.
Qed.

(** ** What a written attribute looks like *)

Section written.
Context `{Target} (mem : Z → Z) (D P : Z).

Definition bitmap_bit (bytes : list Z) (j : nat) (v : bool) : Prop :=
  ∃ b, byte_at bytes (TUPLE_HEADER_LEN + Z.of_nat j / 8) = Some b ∧ null_bit b (Z.of_nat j) = v.

(** Entry [j] of the directory, of an attribute whose payload is at [off]. *)
Definition attr_written (bytes : list Z) (pl : Z) (j : nat) (a : InAttr) : Prop :=
  let entry := D + Z.of_nat j * ATTR_ENTRY_LEN in
  bitmap_bit bytes j (negb (ia_null a =? 0)) ∧
  if negb (ia_null a =? 0) then byte_at bytes entry = Some 0
  else if negb (ia_byval a =? 0) then
    byte_at bytes entry = Some 1 ∧ slice_get bytes (entry + 8) (entry + 16) = Some (to_ne_bytes 8 (ia_value a))
  else ∃ off, 0 <= off ∧ off + ia_len a <= pl ∧
    byte_at bytes entry = Some 2 ∧
    slice_get bytes (entry + 8) (entry + 16) = Some (to_ne_bytes 8 off) ∧
    slice_get bytes (entry + 16) (entry + 24) = Some (to_ne_bytes 8 (ia_len a)) ∧
    slice_get bytes (P + off) (P + off + ia_len a) = Some (attr_source mem a).

(** Two slices that agree on the bitmap bit, the entry and the payload of an attribute. *)
Lemma attr_written_agree bytes bytes' pl pl' j a :
  pl <= pl' → 0 <= D → 0 <= P →
  (∀ v, bitmap_bit bytes j v → bitmap_bit bytes' j v) →
  (∀ x y, D + Z.of_nat j * 24 <= x → x <= y → y <= D + Z.of_nat j * 24 + 24 → slice_get bytes' x y = slice_get bytes x y) →
  (∀ x y, P <= x → x <= y → y <= P + pl → slice_get bytes' x y = slice_get bytes x y) →
  0 <= ia_len a →
  attr_written bytes pl j a → attr_written bytes' pl' j a.
Proof.
  intros Hpl HD HP Hbit He Hp Hl (Hb & Hw). split; [by apply Hbit|]. unfold ATTR_ENTRY_LEN in *.
  assert (Hbyte : ∀ v, byte_at bytes (D + Z.of_nat j * 24) = Some v → byte_at bytes' (D + Z.of_nat j * 24) = Some v).
  { intros v. rewrite !byte_at_slice by lia. by rewrite He by lia. }
  destruct (negb (ia_null a =? 0)); [by apply Hbyte|].
  destruct (negb (ia_byval a =? 0)).
  - destruct Hw as [H1 H2]. split; [by apply Hbyte|]. by rewrite He by lia.
  - destruct Hw as (off & Ho & Ho2 & H1 & H2 & H3 & H4). exists off.
    split; [done|]. split; [lia|]. split; [by apply Hbyte|].
    rewrite !He by lia. rewrite Hp by lia. done.
Qed.
End written.

(** ** Writes *)

Lemma write_slice_run s src b : 0 <= s → s + len src <= len b →
  ∃ b', write_slice s src b = (Ok tt, b') ∧ len b' = len b ∧
    slice_get b' s (s + len src) = Some src ∧
    ∀ x y, 0 <= x → y <= s ∨ s + len src <= x → slice_get b' x y = slice_get b x y.
Proof.
  intros Hs Hl. exists (copy_into s src b). rewrite write_slice_ok by done. split; [done|]. split.
  { unfold len in *. rewrite copy_into_length; unfold len; lia. }
  split; [by apply slice_get_copy_same|]. intros x y Hx Hd. by apply slice_get_disjoint.
Qed.

Lemma set_null_bit_run i b : 0 <= i → TUPLE_HEADER_LEN + i / 8 < len b →
  ∃ b', set_null_bit i b = (Ok tt, b') ∧ len b' = len b ∧
    (∀ x y, 0 <= x → y <= TUPLE_HEADER_LEN + i / 8 ∨ TUPLE_HEADER_LEN + i / 8 + 1 <= x →
            slice_get b' x y = slice_get b x y) ∧
    bitmap_bit b' (Z.to_nat i) true ∧
    ∀ j v, Z.of_nat j ≠ i → bitmap_bit b j v → bitmap_bit b' j v.
Proof.
  intros Hi Hl. unfold set_null_bit, TUPLE_HEADER_LEN in *. assert (0 <= i / 8) by (apply Z.div_pos; lia).
  destruct (byte_at b (16 + i / 8)) as [x|] eqn:Ex; cycle 1.
  { unfold byte_at in Ex. apply lookup_ge_None_1 in Ex. unfold len in Hl. lia. }
  destruct (write_slice_run (16 + i / 8) [Z.lor x (Z.shiftl 1 (i mod 8))] b) as (b' & Hw & Hlb & Hs & Hf);
    [lia|unfold len in *; simpl; lia|].
  exists b'. change (len [Z.lor x (Z.shiftl 1 (i mod 8))]) with 1 in *. rewrite Hw. split; [done|]. split; [done|].
  split; [intros; apply Hf; [done|lia]|].
  apply byte_at_slice in Hs; [|lia]. pose proof (Z.mod_pos_bound i 8 ltac:(lia)).
  split.
  { exists (Z.lor x (Z.shiftl 1 (i mod 8))). unfold TUPLE_HEADER_LEN. rewrite Z2Nat.id by lia. split; [done|].
    rewrite null_bit_testbit, Z.lor_spec, Z.shiftl_1_l, Z.pow2_bits_true by lia. apply orb_true_r. }
  intros j v Hj (y & Hy & Hv). unfold bitmap_bit, TUPLE_HEADER_LEN in *.
  assert (0 <= Z.of_nat j / 8) by (apply Z.div_pos; lia).
  destruct (decide (Z.of_nat j / 8 = i / 8)) as [Ed|Ed].
  - rewrite Ed in *. rewrite Ex in Hy. injection Hy as <-. exists (Z.lor x (Z.shiftl 1 (i mod 8))).
    split; [done|]. rewrite null_bit_testbit in *. pose proof (Z.mod_pos_bound (Z.of_nat j) 8 ltac:(lia)).
    rewrite Z.lor_spec, Hv, Z.shiftl_1_l, Z.pow2_bits_false; [apply orb_false_r|].
    intros Em. apply Hj. rewrite (Z.div_mod (Z.of_nat j) 8), (Z.div_mod i 8) by lia. lia.
  - exists y. split; [|done]. apply byte_at_slice; [lia|]. rewrite Hf by lia. by apply byte_at_slice; [lia|].
Qed.

Section write.
Context `{Target} (mem : Z → Z) (input : RowInput) (Hok : input_ok input).
Let N : nat := length (in_values input).
Let D : Z := attr_dir_offset (len (in_values input)).
Let P : Z := payload_offset (len (in_values input)).
Context (HN : Z.of_nat N <= U16_MAX) (total : Z) (Htotal : total <= U32_MAX) (HPt : P <= total).

Definition header_written (bytes : list Z) : Prop :=
  slice_get bytes 0 4 = Some TUPLE_MAGIC ∧
  slice_get bytes 4 6 = Some (to_ne_bytes 2 (Z.of_nat N)) ∧
  slice_get bytes 6 8 = Some (to_ne_bytes 2 (null_bitmap_len (Z.of_nat N))) ∧
  slice_get bytes 8 12 = Some (to_ne_bytes 4 D) ∧
  slice_get bytes 12 16 = Some (to_ne_bytes 4 P).

(** The attributes before [i] are written, the payload has length [pl], and the rest of the bitmap is clear. *)
Record written (i : nat) (pl : Z) (bytes : list Z) : Prop := {
  wr_len : len bytes = total;
  wr_header : header_written bytes;
  wr_done : ∀ j a, (j < i)%nat → in_attrs input !! j = Some a → attr_written mem D P bytes pl j a;
  wr_clear : ∀ j, (i ≤ j < N)%nat → bitmap_bit bytes j false;
}.

Lemma geometry : 16 <= D ∧ D + 24 * Z.of_nat N <= P ∧ P < 2 ^ 32 ∧
  ∀ j, (j < N)%nat → 0 <= Z.of_nat j / 8 ∧ 16 + Z.of_nat j / 8 + 1 <= D.
Proof.
  pose proof (dir_bound (len (in_values input))) as Hd. pose proof (payload_offset_spec (len (in_values input))) as Hp.
  pose proof (bitmap_bound (len (in_values input))) as Hb. fold D in Hd, Hp. fold P in Hp.
  unfold TUPLE_HEADER_LEN, U16_MAX in *. change (len (in_values input)) with (Z.of_nat N) in *.
  split; [lia|]. split; [lia|]. assert (2 ^ 32 = 4294967296) by done. split; [lia|].
  intros j Hj. unfold D, attr_dir_offset, TUPLE_HEADER_LEN. change (len (in_values input)) with (Z.of_nat N).
  Z.to_euclidean_division_equations. lia.
Qed.

(** A slice that agrees with the one before on the header, the entries before
    [i], the bits of the other attributes and the payload keeps what was
    written. *)
Lemma written_frame i pl pl' bytes bytes' a :
  (i < N)%nat → in_attrs input !! i = Some a →
  written i pl bytes → len bytes' = total → 0 <= pl <= pl' →
  (∀ x y, 0 <= x → y <= 16 → slice_get bytes' x y = slice_get bytes x y) →
  (∀ x y, D <= x → y <= D + Z.of_nat i * 24 → slice_get bytes' x y = slice_get bytes x y) →
  (∀ x y, P <= x → y <= P + pl → slice_get bytes' x y = slice_get bytes x y) →
  (∀ j v, (j < N)%nat → j ≠ i → bitmap_bit bytes j v → bitmap_bit bytes' j v) →
  attr_written mem D P bytes' pl' i a →
  written (S i) pl' bytes'.
Proof.
  intros Hi Ha [Hl Hh Hd Hc] Hl' Hpl Hhdr Hlow Hhigh Hbit Hw. destruct geometry as (G1 & G2 & G3 & G4). split; [done|..].
  - unfold header_written. by rewrite !Hhdr by lia.
  - intros j a' Hj Ha'. destruct (decide (j = i)) as [->|Hne]; [congruence|].
    destruct (in_attrs_bounds _ _ _ Hok Ha') as [_ Hla]. unfold is_u32 in Hla.
    eapply attr_written_agree; [| | | | | | |apply Hd; [|exact Ha']]; try lia.
    + intros v. apply Hbit; lia.
    + intros x y ? ? ?. apply Hlow; lia.
    + intros x y ? ? ?. apply Hhigh; lia.
  - intros j Hj. apply Hbit; [lia|lia|]. apply Hc. lia.
Qed.

(** A write beyond the bitmap keeps its bits. *)
Lemma bitmap_bit_frame b b' j v :
  (j < N)%nat → (∀ x y, 0 <= x → y <= D → slice_get b' x y = slice_get b x y) → bitmap_bit b j v → bitmap_bit b' j v.
Proof.
  intros Hj F (x & Hx & Hv). destruct geometry as (_ & _ & _ & G4). destruct (G4 j Hj). exists x. split; [|done].
  unfold TUPLE_HEADER_LEN in *. apply byte_at_slice; [lia|]. rewrite F by lia. by apply byte_at_slice; [lia|].
Qed.

Lemma attr_lens_ok : Forall (λ a, is_u32 (ia_len a)) (in_attrs input).
Proof. apply Forall_lookup_2. intros i a Ha. by eapply in_attrs_bounds. Qed.

Lemma payload_after_bound pl a : 0 <= pl < 2 ^ 62 → is_u32 (ia_len a) → pl <= payload_after pl a <= pl + (2 ^ 32 + 8).
Proof.
  intros Hp Ha. assert (2 ^ 62 < 2 ^ 63) by done. unfold payload_after, DATUM_ALIGNMENT. unfold is_u32 in Ha.
  destruct (is_byref a); [|lia]. pose proof (next_mult8 pl). lia.
Qed.

(** One attribute, in each of the three forms. *)
Definition write_attr (i : nat) (pl : Z) (a : InAttr) : M (list Z) unit :=
  let entry := D + Z.of_nat i * ATTR_ENTRY_LEN in
  if negb (ia_null a =? 0) then set_null_bit (Z.of_nat i);; write_slice entry [0]
  else if negb (ia_byval a =? 0) then write_slice entry [1];; write_u64 (entry + 8) (ia_value a)
  else
    let pl := next_multiple_of pl DATUM_ALIGNMENT in
    write_slice (P + pl) (attr_source mem a);; write_slice entry [2];;
    write_u64 (entry + 8) pl;; write_u64 (entry + 16) (ia_len a).

Lemma write_null_run i pl a bytes :
  (i < N)%nat → in_attrs input !! i = Some a → written i pl bytes → 0 <= pl → P + pl <= total →
  negb (ia_null a =? 0) = true →
  ∃ bytes', write_attr i pl a bytes = (Ok tt, bytes') ∧ written (S i) pl bytes'.
Proof.
  destruct geometry as (G1 & G2 & G3 & G4). intros Hi Ha Hw Hpl Ht Hnull.
  pose proof (wr_len _ _ _ Hw) as Hlen. destruct (G4 i Hi) as [G5 G6].
  unfold write_attr. rewrite Hnull. unfold ATTR_ENTRY_LEN.
  destruct (set_null_bit_run (Z.of_nat i) bytes) as (b1 & R1 & L1 & F1 & B1 & K1); [lia|unfold TUPLE_HEADER_LEN; lia|].
  rewrite (M_bind_run _ _ _ _ _ R1). unfold TUPLE_HEADER_LEN in *. rewrite Nat2Z.id in B1.
  destruct (write_slice_run (D + Z.of_nat i * 24) [0] b1) as (b2 & R2 & L2 & S2 & F2); [lia|change (len [0]) with 1; lia|].
  change (len [0]) with 1 in *. exists b2. split; [done|].
  assert (Kb : ∀ j v, (j < N)%nat → bitmap_bit b1 j v → bitmap_bit b2 j v).
  { intros j v Hj. apply bitmap_bit_frame; [done|]. intros x y ? ?. apply F2; lia. }
  eapply written_frame; [done..| | | | | | |]; [lia|lia|..].
  - intros x y ? ?. rewrite F2, F1 by lia. done.
  - intros x y ? ?. rewrite F2, F1 by lia. done.
  - intros x y ? ?. rewrite F2, F1 by lia. done.
  - intros j v Hj Hne Hb. apply Kb; [done|]. apply K1; [lia|done].
  - split; [rewrite Hnull; by apply Kb|]. rewrite Hnull. unfold ATTR_ENTRY_LEN. apply byte_at_slice; [lia|]. done.
Qed.

Lemma write_byval_run i pl a bytes :
  (i < N)%nat → in_attrs input !! i = Some a → written i pl bytes → 0 <= pl → P + pl <= total →
  negb (ia_null a =? 0) = false → negb (ia_byval a =? 0) = true →
  ∃ bytes', write_attr i pl a bytes = (Ok tt, bytes') ∧ written (S i) pl bytes'.
Proof.
  destruct geometry as (G1 & G2 & G3 & G4). intros Hi Ha Hw Hpl Ht Hnull Hval.
  pose proof (wr_len _ _ _ Hw) as Hlen. unfold write_attr. rewrite Hnull, Hval. unfold ATTR_ENTRY_LEN, write_u64.
  destruct (write_slice_run (D + Z.of_nat i * 24) [1] bytes) as (b1 & R1 & L1 & S1 & F1); [lia|change (len [1]) with 1; lia|].
  rewrite (M_bind_run _ _ _ _ _ R1). change (len [1]) with 1 in *.
  assert (L8 : len (to_ne_bytes 8 (ia_value a)) = 8) by (unfold len; by rewrite to_ne_bytes_length).
  destruct (write_slice_run (D + Z.of_nat i * 24 + 8) (to_ne_bytes 8 (ia_value a)) b1) as (b2 & R2 & L2 & S2 & F2);
    [lia|lia|]. rewrite L8 in *. exists b2. split; [done|].
  assert (Kb : ∀ j v, (j < N)%nat → bitmap_bit bytes j v → bitmap_bit b2 j v).
  { intros j v Hj. apply bitmap_bit_frame; [done|]. intros x y ? ?. rewrite F2, F1 by lia. done. }
  eapply written_frame; [done..| | | | | | |]; [lia|lia|..].
  - intros x y ? ?. rewrite F2, F1 by lia. done.
  - intros x y ? ?. rewrite F2, F1 by lia. done.
  - intros x y ? ?. rewrite F2, F1 by lia. done.
  - intros j v Hj Hne Hb. by apply Kb.
  - split; [rewrite Hnull; apply Kb; [done|]; by apply (wr_clear _ _ _ Hw)|]. rewrite Hnull, Hval. unfold ATTR_ENTRY_LEN.
    split; [apply byte_at_slice; [lia|]; rewrite F2 by lia; done|]. rewrite <- S2. f_equal. lia.
Qed.

Lemma attr_source_len a : 0 <= ia_len a → len (attr_source mem a) = ia_len a.
Proof.
  intros Hl. unfold attr_source. destruct (Z.eqb_spec (ia_len a) 0) as [->|]; [done|].
  unfold read_memory, len. rewrite length_fmap, length_seqZ. lia.
Qed.

Lemma write_byref_run i pl a bytes :
  (i < N)%nat → in_attrs input !! i = Some a → written i pl bytes → 0 <= pl < 2 ^ 62 →
  P + payload_after pl a <= total →
  negb (ia_null a =? 0) = false → negb (ia_byval a =? 0) = false →
  ∃ bytes', write_attr i pl a bytes = (Ok tt, bytes') ∧ written (S i) (payload_after pl a) bytes'.
Proof.
  destruct geometry as (G1 & G2 & G3 & G4). intros Hi Ha Hw Hpl Ht Hnull Hval.
  destruct (in_attrs_bounds _ _ _ Hok Ha) as [_ Hl]. unfold is_u32 in Hl.
  pose proof (wr_len _ _ _ Hw) as Hlen. unfold write_attr. rewrite Hnull, Hval. unfold ATTR_ENTRY_LEN, write_u64.
  assert (Epl : payload_after pl a = next_multiple_of pl 8 + ia_len a).
  { unfold payload_after, is_byref. apply negb_false_iff in Hnull, Hval. by rewrite Hnull, Hval. }
  rewrite Epl in *. clear Epl. unfold DATUM_ALIGNMENT. assert (2 ^ 62 < 2 ^ 63) by done.
  destruct (next_mult8 pl) as [Hm _]; [lia|]. set (off := next_multiple_of pl 8) in *.
  pose proof (attr_source_len a) as Ls.
  destruct (write_slice_run (P + off) (attr_source mem a) bytes) as (b1 & R1 & L1 & S1 & F1); [lia|lia|].
  rewrite (M_bind_run _ _ _ _ _ R1). rewrite Ls in * by lia.
  destruct (write_slice_run (D + Z.of_nat i * 24) [2] b1) as (b2 & R2 & L2 & S2 & F2); [lia|change (len [2]) with 1; lia|].
  rewrite (M_bind_run _ _ _ _ _ R2). change (len [2]) with 1 in *.
  assert (L8 : ∀ v, len (to_ne_bytes 8 v) = 8) by (intros v; unfold len; by rewrite to_ne_bytes_length).
  destruct (write_slice_run (D + Z.of_nat i * 24 + 8) (to_ne_bytes 8 off) b2) as (b3 & R3 & L3 & S3 & F3);
    [lia|rewrite L8; lia|]. rewrite (M_bind_run _ _ _ _ _ R3).
  destruct (write_slice_run (D + Z.of_nat i * 24 + 16) (to_ne_bytes 8 (ia_len a)) b3) as (b4 & R4 & L4 & S4 & F4);
    [lia|rewrite L8; lia|]. rewrite !L8 in *. exists b4. split; [done|].
  assert (Kb : ∀ j v, (j < N)%nat → bitmap_bit bytes j v → bitmap_bit b4 j v).
  { intros j v Hj. apply bitmap_bit_frame; [done|]. intros x y ? ?. rewrite F4, F3, F2, F1 by lia. done. }
  eapply written_frame; [done..| | | | | | |]; [lia|lia|..].
  - intros x y ? ?. rewrite F4, F3, F2, F1 by lia. done.
  - intros x y ? ?. rewrite F4, F3, F2, F1 by lia. done.
  - intros x y ? ?. rewrite F4, F3, F2, F1 by lia. done.
  - intros j v Hj Hne Hb. by apply Kb.
  - split; [rewrite Hnull; apply Kb; [done|]; by apply (wr_clear _ _ _ Hw)|]. rewrite Hnull, Hval. unfold ATTR_ENTRY_LEN.
    exists off. split; [lia|]. split; [lia|].
    split; [apply byte_at_slice; [lia|]; rewrite F4, F3 by lia; done|].
    split; [rewrite F4 by lia; rewrite <- S3; f_equal; lia|].
    split; [rewrite <- S4; f_equal; lia|]. rewrite F4, F3, F2 by lia. done.
Qed.

Lemma write_attr_run i pl a bytes :
  (i < N)%nat → in_attrs input !! i = Some a → written i pl bytes → 0 <= pl < 2 ^ 62 →
  P + payload_after pl a <= total →
  ∃ bytes', write_attr i pl a bytes = (Ok tt, bytes') ∧ written (S i) (payload_after pl a) bytes'.
Proof.
  intros Hi Ha Hw Hpl Ht. destruct (negb (ia_null a =? 0)) eqn:Hnull; [|destruct (negb (ia_byval a =? 0)) eqn:Hval].
  - assert (Epl : payload_after pl a = pl).
    { unfold payload_after, is_byref. apply negb_true_iff in Hnull. by rewrite Hnull. }
    rewrite Epl in *. apply write_null_run; [done..|lia|lia|done].
  - assert (Epl : payload_after pl a = pl).
    { unfold payload_after, is_byref. apply negb_true_iff in Hval. by rewrite Hval, andb_false_r. }
    rewrite Epl in *. apply write_byval_run; [done..|lia|lia|done|done].
  - by apply write_byref_run.
Qed.

Lemma write_attrs_run : ∀ k i pl bytes,
  (i + k = N)%nat → written i pl bytes → 0 <= pl → pl + Z.of_nat k * (2 ^ 32 + 8) < 2 ^ 62 →
  P + foldl payload_after pl (drop i (in_attrs input)) <= total →
  (∀ j a, (i ≤ j)%nat → in_attrs input !! j = Some a → is_byref a = true → ¬ (ia_value a = 0 ∧ 0 < ia_len a)) →
  ∃ bytes' pl', write_attrs mem input D P (seq i k) pl bytes = (Ok tt, bytes') ∧ written N pl' bytes'.
Proof.
  assert (2 ^ 62 < 2 ^ 63) by done.
  induction k as [|k IH]; intros i pl bytes Hik Hw Hpl Hb Ht Hz.
  { exists bytes, pl. replace i with N in Hw by lia. done. }
  cbn [seq write_attrs]. cbv zeta. rewrite input_attr_ok by done.
  destruct (lookup_lt_is_Some_2 (in_attrs input) i) as [a Ha]; [rewrite in_attrs_length by done; fold N; lia|].
  rewrite Ha. destruct (in_attrs_bounds _ _ _ Hok Ha) as [_ Hl].
  rewrite (drop_S _ _ _ Ha) in Ht. simpl in Ht.
  pose proof (payload_after_bound pl a ltac:(lia) Hl) as Hpa.
  assert (Hmono : payload_after pl a <= foldl payload_after (payload_after pl a) (drop (S i) (in_attrs input))).
  { apply payload_fold_bound; [lia|apply Forall_drop, attr_lens_ok|].
    unfold len. rewrite length_drop, in_attrs_length by done. fold N. lia. }
  destruct (write_attr_run i pl a bytes) as (b1 & R1 & Hw1); [lia|done|done|lia|lia|].
  destruct (IH (S i) (payload_after pl a) b1) as (b2 & pl2 & R2 & Hw2); [lia|done|lia|lia|done| |].
  { intros j a' Hj. apply Hz. lia. }
  exists b2, pl2. split; [|done]. rewrite (M_bind_run _ _ _ a bytes) by done.
  specialize (Hz i a (le_n _) Ha).
  unfold write_attr, payload_after, is_byref, attr_source in *. destruct (ia_null a =? 0); simpl in *;
    [destruct (ia_byval a =? 0); simpl in *|].
  - assert (Ez : (ia_value a =? 0) && (0 <? ia_len a) = false).
    { apply not_true_iff_false. rewrite andb_true_iff, Z.eqb_eq, Z.ltb_lt. by apply Hz. }
    rewrite Ez. minv R1 as u1 s1 Q1. minv R1 as u2 s2 Q2. minv R1 as u3 s3 Q3.
    rewrite (M_bind_run _ _ _ _ _ Q1), (M_bind_run _ _ _ _ _ Q2), (M_bind_run _ _ _ _ _ Q3).
    rewrite (M_bind_run _ _ _ _ _ R1). exact R2.
  - minv R1 as u1 s1 Q1. rewrite (M_bind_run _ _ _ _ _ Q1). rewrite (M_bind_run _ _ _ _ _ R1). exact R2.
  - minv R1 as u1 s1 Q1. rewrite (M_bind_run _ _ _ _ _ Q1). rewrite (M_bind_run _ _ _ _ _ R1). exact R2.
Qed.

Lemma byte_at_replicate n i : 0 <= i < Z.of_nat n → byte_at (replicate n 0) i = Some 0.
Proof. intros Hi. unfold byte_at. apply lookup_replicate_2. lia. Qed.

Lemma try_into_ok max x msg : x <= max → try_into max x msg = Ok x.
Proof. intros Hx. unfold try_into, try_from. by rewrite (proj2 (Z.leb_le _ _)). Qed.

Lemma write_tuple_run buffer :
  len buffer = total → P + foldl payload_after 0 (in_attrs input) = total →
  (∀ j a, in_attrs input !! j = Some a → is_byref a = true → ¬ (ia_value a = 0 ∧ 0 < ia_len a)) →
  ∃ bytes pl, write_tuple_to_slice_known_len mem input total buffer = (Ok tt, bytes) ∧ written N pl bytes.
Proof.
  intros Hbuf Ht Hz. destruct geometry as (G1 & G2 & G3 & G4).
  pose proof (bitmap_bound (len (in_values input))) as Hbm. change (len (in_values input)) with (Z.of_nat N) in *.
  assert (E32 : 2 ^ 32 = U32_MAX + 1) by done. unfold U16_MAX in *.
  unfold write_tuple_to_slice_known_len. rewrite gets_run, Hbuf, Z.eqb_refl. cbn [negb].
  set (b0 := replicate (length buffer) 0).
  assert (L0 : len b0 = total) by (unfold b0, len; rewrite length_replicate; exact Hbuf).
  rewrite (M_bind_run _ _ buffer tt b0) by done. cbv zeta. change (len (in_values input)) with (Z.of_nat N).
  fold D. fold P.
  assert (Ln : ∀ n v, len (to_ne_bytes n v) = Z.of_nat n) by (intros n v; unfold len; by rewrite to_ne_bytes_length).
  destruct (write_slice_run 0 TUPLE_MAGIC b0) as (b1 & R1 & L1 & S1 & F1); [done|change (len TUPLE_MAGIC) with 4; lia|].
  rewrite (M_bind_run _ _ _ _ _ R1). change (len TUPLE_MAGIC) with 4 in *.
  rewrite !try_into_ok by (unfold U16_MAX, U32_MAX in *; lia). unfold write_u16, write_u32.
  rewrite (M_bind_run _ _ _ (Z.of_nat N) b1) by done.
  destruct (write_slice_run 4 (to_ne_bytes 2 (Z.of_nat N)) b1) as (b2 & R2 & L2 & S2 & F2); [done|rewrite Ln; lia|].
  rewrite (M_bind_run _ _ _ _ _ R2), (M_bind_run _ _ _ (null_bitmap_len (Z.of_nat N)) b2) by done.
  destruct (write_slice_run 6 (to_ne_bytes 2 (null_bitmap_len (Z.of_nat N))) b2) as (b3 & R3 & L3 & S3 & F3);
    [done|rewrite Ln; lia|].
  rewrite (M_bind_run _ _ _ _ _ R3), (M_bind_run _ _ _ D b3) by done.
  destruct (write_slice_run 8 (to_ne_bytes 4 D) b3) as (b4 & R4 & L4 & S4 & F4); [done|rewrite Ln; lia|].
  rewrite (M_bind_run _ _ _ _ _ R4), (M_bind_run _ _ _ P b4) by done.
  destruct (write_slice_run 12 (to_ne_bytes 4 P) b4) as (b5 & R5 & L5 & S5 & F5); [done|rewrite Ln; lia|].
  rewrite (M_bind_run _ _ _ _ _ R5). rewrite !Ln in *.
  change (0 + 4) with 4 in *. change (4 + Z.of_nat 2) with 6 in *. change (6 + Z.of_nat 2) with 8 in *.
  change (8 + Z.of_nat 4) with 12 in *. change (12 + Z.of_nat 4) with 16 in *.
  rewrite Nat2Z.id. destruct (write_attrs_run N 0 0 b5) as (b6 & pl & R6 & Hw6); [lia| |lia|lia| | |eauto].
  - split; [lia|..].
    + unfold header_written. rewrite F5, F4, F3, F2, S1 by lia. rewrite F5, F4, F3, S2 by lia.
      rewrite F5, F4, S3 by lia. rewrite F5, S4 by lia. by rewrite S5.
    + intros j a Hj. lia.
    + intros j Hj. exists 0. destruct (G4 j) as [? ?]; [lia|]. unfold TUPLE_HEADER_LEN.
      split; [|rewrite null_bit_testbit; apply Z.bits_0]. apply byte_at_slice; [lia|].
      rewrite F5, F4, F3, F2, F1 by lia. apply byte_at_slice; [lia|]. unfold b0. apply byte_at_replicate.
      unfold len in Hbuf. lia.
  - rewrite drop_0. lia.
  - intros j a _. apply Hz.
Qed.

(** ** Reading it back *)

Lemma read_u64_written bytes x v : slice_get bytes x (x + 8) = Some (to_ne_bytes 8 v) → is_u64 v → read_u64 bytes x = Some v.
Proof. intros Hs Hv. unfold read_u64. rewrite Hs. simpl. f_equal. by apply from_to_ne_bytes. Qed.

Lemma written_payload_bound pl bytes j a off :
  written N pl bytes → in_attrs input !! j = Some a →
  slice_get bytes (P + off) (P + off + ia_len a) = Some (attr_source mem a) → P + off + ia_len a <= total.
Proof.
  intros Hw _ Hs. rewrite <- (wr_len _ _ _ Hw). unfold slice_get in Hs.
  destruct (_ && _) eqn:E; [|done]. apply andb_true_iff in E as [_ E]. by apply Z.leb_le in E.
Qed.

Lemma decode_attrs_run pl bytes : written N pl bytes → ∀ k i, (i + k = N)%nat →
  decode_attrs bytes D P (seq i k) = Some (attr_datum mem <$> drop i (in_attrs input)).
Proof.
  intros Hw. destruct geometry as (G1 & G2 & G3 & G4). assert (EU : U32_MAX = 4294967295) by done.
  induction k as [|k IH]; intros i Hik; cbn [seq decode_attrs].
  { rewrite drop_ge; [done|]. rewrite in_attrs_length by done. fold N. lia. }
  destruct (lookup_lt_is_Some_2 (in_attrs input) i) as [a Ha]; [rewrite in_attrs_length by done; fold N; lia|].
  destruct (wr_done _ _ _ Hw i a) as ((b & Hb & Hbit) & Hwr); [lia|done|].
  destruct (in_attrs_bounds _ _ _ Hok Ha) as [Hv Hl]. unfold is_u32 in Hl.
  rewrite (drop_S _ _ _ Ha), IH by lia. cbn [fmap list_fmap]. cbv zeta. rewrite Hb, Hbit.
  generalize (attr_datum mem <$> drop (S i) (in_attrs input)) as rest. intros rest. unfold attr_datum.
  destruct (negb (ia_null a =? 0)); simpl in *; [by rewrite Hwr|].
  destruct (negb (ia_byval a =? 0)); simpl in *.
  - destruct Hwr as [-> Hs]. simpl. rewrite (read_u64_written _ _ (ia_value a)); [done| |done]. rewrite <- Hs. f_equal. lia.
  - destruct Hwr as (off & Ho & Ho2 & -> & H1 & H2 & H3). simpl.
    pose proof (written_payload_bound _ _ _ _ _ Hw Ha H3) as Hpb. unfold is_u64.
    rewrite (read_u64_written _ (D + Z.of_nat i * ATTR_ENTRY_LEN + 8) off); [|rewrite <- H1; f_equal; lia|mlia]. simpl.
    rewrite (read_u64_written _ (D + Z.of_nat i * ATTR_ENTRY_LEN + 16) (ia_len a)); [|rewrite <- H2; f_equal; lia|mlia]. simpl.
    unfold checked_add, USIZE_MAX. rewrite (proj2 (Z.leb_le (P + off) _)) by lia. simpl.
    rewrite (proj2 (Z.leb_le (P + off + ia_len a) _)) by lia. simpl. by rewrite H3.
Qed.

(** What the caller's arrays get for an attribute: a by-reference value as a pointer into the row. *)
Definition handed_out (base : Z) (bytes : list Z) (a : InAttr) (vn : Z * Z) : Prop :=
  if negb (ia_null a =? 0) then vn = (0, 1)
  else if negb (ia_byval a =? 0) then vn = (ia_value a, 0)
  else vn.2 = 0 ∧ slice_get bytes (vn.1 - base) (vn.1 - base + ia_len a) = Some (attr_source mem a).

Lemma copy_attrs_run base pl bytes rest : written N pl bytes → ∀ k i, (i + k ≤ N)%nat →
  ∃ vns, copy_attrs base bytes D P (seq i k) rest =
    inl {| out_values := vns.*1 ++ out_values rest; out_is_null := vns.*2 ++ out_is_null rest; out_ok := out_ok rest |} ∧
    Forall2 (handed_out base bytes) (take k (drop i (in_attrs input))) vns.
Proof.
  intros Hw. destruct geometry as (G1 & G2 & G3 & G4). assert (EU : U32_MAX = 4294967295) by done.
  induction k as [|k IH]; intros i Hik; cbn [seq copy_attrs]; [exists []; by destruct rest|].
  destruct (IH (S i)) as (vns & E & Hvns); [lia|].
  destruct (lookup_lt_is_Some_2 (in_attrs input) i) as [a Ha]; [rewrite in_attrs_length by done; fold N; lia|].
  destruct (wr_done _ _ _ Hw i a) as ((b & Hb & Hbit) & Hwr); [lia|done|].
  destruct (in_attrs_bounds _ _ _ Hok Ha) as [Hv Hl]. unfold is_u32 in Hl.
  assert (Hgo : ∀ v n, handed_out base bytes a (v, n) → ∃ vns',
    inl {| out_values := v :: vns.*1 ++ out_values rest; out_is_null := n :: vns.*2 ++ out_is_null rest;
           out_ok := out_ok rest |} =
    inl (B := unit) {| out_values := vns'.*1 ++ out_values rest; out_is_null := vns'.*2 ++ out_is_null rest;
                       out_ok := out_ok rest |} ∧
    Forall2 (handed_out base bytes) (take (S k) (drop i (in_attrs input))) vns').
  { intros v n Hh. exists ((v, n) :: vns). split; [done|]. rewrite (drop_S _ _ _ Ha). by constructor. }
  cbv zeta. rewrite E, Hb, Hbit. cbn [out_cons out_values out_is_null out_ok]. unfold handed_out in Hgo.
  destruct (negb (ia_null a =? 0)).
  { rewrite Hwr. cbn [orb]. by apply Hgo. }
  destruct (negb (ia_byval a =? 0)).
  - destruct Hwr as [-> Hs]. cbn [orb Z.eqb]. rewrite (read_u64_written _ _ (ia_value a)); [by apply Hgo| |done].
    rewrite <- Hs. f_equal. lia.
  - destruct Hwr as (off & Ho & Ho2 & -> & H1 & H2 & H3). cbn [orb Z.eqb Pos.eqb].
    pose proof (written_payload_bound _ _ _ _ _ Hw Ha H3) as Hpb.
    rewrite (read_u64_written _ (D + Z.of_nat i * ATTR_ENTRY_LEN + 8) off); [|rewrite <- H1; f_equal; lia|mlia].
    rewrite (read_u64_written _ (D + Z.of_nat i * ATTR_ENTRY_LEN + 16) (ia_len a)); [|rewrite <- H2; f_equal; lia|mlia].
    unfold checked_add, USIZE_MAX. rewrite (proj2 (Z.leb_le (P + off) _)) by lia. cbn [mbind option_bind].
    rewrite (proj2 (Z.leb_le (P + off + ia_len a) _)) by lia. cbn [mbind option_bind].
    rewrite (proj2 (Z.ltb_ge _ _)) by (rewrite (wr_len _ _ _ Hw); lia). apply Hgo. split; [done|].
    cbn [fst]. replace (base + (P + off) - base) with (P + off) by lia. done.
Qed.

(** Is the by-value attribute equal to the given one?  Missing attributes are null. *)
Definition attr_equals (a : option InAttr) (value is_null : Z) : bool :=
  match a with
  | None => negb (is_null =? 0)
  | Some a =>
    if negb (ia_null a =? 0) || negb (is_null =? 0) then eqb (negb (ia_null a =? 0)) (negb (is_null =? 0))
    else negb (ia_byval a =? 0) && (ia_value a =? value)
  end.

Lemma written_header_reads pl bytes : written N pl bytes →
  has_magic bytes = true ∧ read_u16 bytes 4 = Some (Z.of_nat N) ∧
  read_u16 bytes 6 = Some (null_bitmap_len (Z.of_nat N)) ∧ read_u32 bytes 8 = Some D ∧ read_u32 bytes 12 = Some P ∧
  P <= len bytes.
Proof.
  intros Hw. destruct geometry as (G1 & G2 & G3 & G4). destruct (wr_header _ _ _ Hw) as (H1 & H2 & H3 & H4 & H5).
  pose proof (bitmap_bound (Z.of_nat N)) as Hbm. unfold U16_MAX in *.
  assert (HP : 16 <= len bytes).
  { unfold slice_get in H5. destruct (_ && _) eqn:E; [|done]. apply andb_true_iff in E as [_ E]. by apply Z.leb_le in E. }
  split.
  { unfold has_magic, TUPLE_HEADER_LEN. rewrite (proj2 (Z.leb_le _ _)) by lia. by rewrite bool_decide_true. }
  unfold read_u16, read_u32.
  change (4 + 2) with 6. change (6 + 2) with 8. change (8 + 4) with 12. change (12 + 4) with 16.
  rewrite H2, H3, H4, H5. simpl.
  change (2 ^ 32) with 4294967296 in *.
  rewrite !from_to_ne_bytes by (change (2 ^ (8 * Z.of_nat 2)) with 65536; change (2 ^ (8 * Z.of_nat 4)) with 4294967296; lia).
  do 4 (split; [done|]). rewrite (wr_len _ _ _ Hw). exact HPt.
Qed.

Lemma layout_checked : checked_mul USIZE_MAX (Z.of_nat N) ATTR_ENTRY_LEN = Some (Z.of_nat N * ATTR_ENTRY_LEN) ∧
  checked_add USIZE_MAX D (Z.of_nat N * ATTR_ENTRY_LEN) = Some (D + Z.of_nat N * ATTR_ENTRY_LEN) ∧
  next_multiple_of (D + Z.of_nat N * ATTR_ENTRY_LEN) DATUM_ALIGNMENT = P.
Proof.
  assert (HN' : 0 <= Z.of_nat N <= U16_MAX) by (split; [lia|exact HN]).
  pose proof (dir_bound (Z.of_nat N) HN') as Hdb. change (attr_dir_offset (Z.of_nat N)) with D in Hdb.
  unfold checked_mul, checked_add, USIZE_MAX, ATTR_ENTRY_LEN, U16_MAX in *.
  rewrite (proj2 (Z.leb_le (_ * 24) _)), (proj2 (Z.leb_le (D + _) _)) by lia. split; [done|]. split; [done|].
  unfold P, payload_offset, saturating_add, saturating_mul, USIZE_MAX, ATTR_ENTRY_LEN. fold D.
  change (len (in_values input)) with (Z.of_nat N). rewrite (Z.min_r _ (_ * 24)) by lia. by rewrite Z.min_r by lia.
Qed.

Lemma attr_equals_run pl bytes attnum value is_null : written N pl bytes → 0 < attnum →
  tuple_byval_attr_equals bytes attnum value is_null =
  inl (Some (attr_equals (in_attrs input !! Z.to_nat (attnum - 1)) value is_null)).
Proof.
  intros Hw Hat. destruct (written_header_reads pl bytes Hw) as (Hm & R1 & _ & _ & _ & HPl).
  destruct geometry as (G1 & G2 & G3 & G4). destruct layout_checked as (E1 & E2 & E3).
  unfold tuple_byval_attr_equals. rewrite (proj2 (Z.eqb_neq _ _)), Hm, R1 by lia. cbn [orb negb].
  set (i := Z.to_nat (attnum - 1)). replace (attnum - 1) with (Z.of_nat i) by lia.
  destruct (Z.leb_spec (Z.of_nat N) (Z.of_nat i)).
  { rewrite lookup_ge_None_2 by (rewrite in_attrs_length by done; fold N; lia). done. }
  change (attr_dir_offset (Z.of_nat N)) with D. rewrite E1. cbn [mbind option_bind]. rewrite E2, E3.
  rewrite (proj2 (Z.ltb_ge _ _)) by lia.
  destruct (lookup_lt_is_Some_2 (in_attrs input) i) as [a Ha]; [rewrite in_attrs_length by done; fold N; lia|].
  rewrite Ha. cbn [attr_equals]. destruct (wr_done _ _ _ Hw i a) as ((b & Hb & Hbit) & Hwr); [lia|done|].
  destruct (in_attrs_bounds _ _ _ Hok Ha) as [Hv Hl].
  rewrite Hb, Hbit. destruct (negb (ia_null a =? 0)) eqn:En; [done|]. cbn [orb].
  destruct (negb (is_null =? 0)); [done|].
  assert (E4 : checked_add USIZE_MAX (D + Z.of_nat i * ATTR_ENTRY_LEN) ATTR_ENTRY_LEN
               = Some (D + Z.of_nat i * ATTR_ENTRY_LEN + ATTR_ENTRY_LEN)).
  { unfold checked_add, USIZE_MAX, ATTR_ENTRY_LEN. rewrite (proj2 (Z.leb_le _ _)); [done|]. pow2. lia. }
  rewrite E4, (proj2 (Z.ltb_ge _ _)) by (unfold ATTR_ENTRY_LEN in *; lia).
  destruct (negb (ia_byval a =? 0)).
  - destruct Hwr as [-> Hs]. cbn [Z.eqb Pos.eqb negb andb].
    rewrite (read_u64_written _ _ (ia_value a)); [done| |done]. rewrite <- Hs. f_equal. lia.
  - by destruct Hwr as (off & _ & _ & -> & _).
Qed.
End write.

(** ** Results *)

Lemma result_bind_ok {A B} (r : result A) (f : A → result B) b :
  (r ≫= f) = Ok b → ∃ a, r = Ok a ∧ f a = Ok b.
Proof. destruct r; simpl; [eauto|discriminate]. Qed.

(** What [tuple_storage_len] checks before a row is written. *)
Lemma tuple_storage_len_ok input n : input_ok input → tuple_storage_len input = Ok n →
  len (in_values input) <= U16_MAX ∧ n <= U32_MAX ∧ payload_offset (len (in_values input)) <= n ∧
  n = payload_offset (len (in_values input)) + foldl payload_after 0 (in_attrs input) ∧
  ∀ j a, in_attrs input !! j = Some a → is_byref a = true → ¬ (ia_value a = 0 ∧ 0 < ia_len a).
Proof.
  intros Hok Hn. unfold tuple_storage_len in Hn. apply result_bind_ok in Hn as (_ & _ & Hn).
  set (N := len (in_values input)) in *. apply result_bind_ok in Hn as (k & Hk & Hn).
  do 3 apply result_bind_ok in Hn as (? & _ & Hn). apply result_bind_ok in Hn as (m & El & Hn).
  assert (HN : N <= U16_MAX).
  { unfold try_into, try_from in Hk. destruct (Z.leb_spec N U16_MAX); [done|discriminate]. }
  destruct (Z.ltb_spec U32_MAX m); [discriminate|]. injection Hn as <-.
  pose proof (len_nonneg (in_values input)) as H0. fold N in H0.
  destruct (payload_offset_spec N) as [HP HP8]; [done|]. destruct (dir_bound N) as [HD1 HD2]; [done|].
  unfold TUPLE_HEADER_LEN, U16_MAX in *. assert (2 ^ 32 = 4294967296) by done.
  assert (2 ^ 62 = 4611686018427387904) by done. assert (2 ^ 63 = 9223372036854775808) by done.
  rewrite <- (Z.add_0_r (payload_offset N)) in El.
  destruct (storage_len_loop_spec input (payload_offset N)) with (k := Z.to_nat N) (i := 0%nat) (pl := 0) (n := m) as [Em Hz];
    [done..|lia|unfold N, len; lia|lia|lia|done|].
  rewrite drop_0 in Em. split; [done|]. split; [done|]. split; [|split; [done|]].
  - rewrite Em. destruct (payload_fold_bound (in_attrs input) 0) as [Hf _]; [lia|by apply attr_lens_ok| |lia].
    assert (len (in_attrs input) = N) as -> by (unfold len, N; rewrite in_attrs_length by done; done). lia.
  - intros j a. apply Hz. lia.
Qed.

(** Where [tuple_storage_len] gives a length, the row is written into any slice
    of that length, and decoding gives the values of its attributes. *)
Theorem tuple_roundtrip `{Target} (mem : Z → Z) (input : RowInput) (n : Z) (buffer : list Z) (tid : Tid) :
  input_ok input → tuple_storage_len input = Ok n → len buffer = n →
  ∃ bytes, write_tuple_to_slice_known_len mem input n buffer = (Ok tt, bytes) ∧ len bytes = n ∧
    decode_tuple tid bytes = Some {| dt_tid := tid; dt_values := attr_datum mem <$> in_attrs input |}.
Proof.
  intros Hok Hn Hb. destruct (tuple_storage_len_ok input n Hok Hn) as (HN & Hn32 & HP & En & Hz).
  destruct (write_tuple_run mem input Hok HN n Hn32 HP buffer Hb (eq_sym En) Hz) as (bytes & pl & Hr & Hw).
  exists bytes. split; [done|]. split; [apply (wr_len _ _ _ _ _ _ Hw)|].
  destruct (written_header_reads mem input HN n HP pl bytes Hw) as (Hm & R1 & R2 & R3 & R4 & R5).
  unfold decode_tuple. rewrite Hm. cbn [negb]. rewrite R1, R2, R3, R4. cbn [mbind option_bind].
  change (Z.of_nat (length (in_values input))) with (len (in_values input)).
  pose proof (decode_attrs_run mem input Hok HN n Hn32 pl bytes Hw (length (in_values input)) 0 eq_refl) as Hd.
  rewrite drop_0 in Hd. destruct (layout_checked input HN) as (E1 & E2 & E3).
  pose proof (geometry mem input HN) as (G1 & G2 & _).
  change (Z.of_nat (length (in_values input))) with (len (in_values input)) in *.
  unfold attr_dir_offset at 1. rewrite Z.eqb_refl. cbn [negb]. rewrite E1. cbn [mbind option_bind].
  rewrite E2. cbn [mbind option_bind]. rewrite E3, Z.eqb_refl.
  rewrite (proj2 (Z.ltb_ge (payload_offset _) _)), (proj2 (Z.ltb_ge _ _)) by (unfold len, ATTR_ENTRY_LEN, TUPLE_HEADER_LEN in *; lia).
  cbn [orb negb].
  rewrite len_to_nat. rewrite Hd. done.
Qed.

(** C26: The two readers that use raw pointers stay inside the row and give the
    values that were written, for any number of attributes asked for. *)
Theorem stored_row_reads `{Target} (mem : Z → Z) (input : RowInput) (n : Z) (buffer : list Z) :
  input_ok input → tuple_storage_len input = Ok n → len buffer = n →
  ∃ bytes, write_tuple_to_slice_known_len mem input n buffer = (Ok tt, bytes) ∧
    (∀ base natts, 0 <= natts → ∃ vns,
       let missing := (Z.to_nat natts - length (in_attrs input))%nat in
       copy_tuple_to_outputs base bytes false natts =
         inl ({| out_values := vns.*1 ++ replicate missing 0; out_is_null := vns.*2 ++ replicate missing 1;
                 out_ok := true |}, Some (len (in_values input))) ∧
       Forall2 (handed_out mem base bytes) (take (Z.to_nat natts) (in_attrs input)) vns) ∧
    (∀ attnum value is_null, 0 < attnum →
       tuple_byval_attr_equals bytes attnum value is_null =
       inl (Some (attr_equals (in_attrs input !! Z.to_nat (attnum - 1)) value is_null))).
Proof.
  intros Hok Hn Hb. destruct (tuple_storage_len_ok input n Hok Hn) as (HN & Hn32 & HP & En & Hz).
  destruct (write_tuple_run mem input Hok HN n Hn32 HP buffer Hb (eq_sym En) Hz) as (bytes & pl & Hr & Hw).
  exists bytes. split; [done|]. split; [|intros; by eapply attr_equals_run].
  intros base natts H0. destruct (written_header_reads mem input HN n HP pl bytes Hw) as (Hm & R1 & _ & _ & _ & R5).
  set (rest := {| out_values := replicate (Z.to_nat natts - length (in_values input)) 0;
                  out_is_null := replicate (Z.to_nat natts - length (in_values input)) 1; out_ok := true |}).
  destruct (copy_attrs_run mem input Hok HN n Hn32 base pl bytes rest Hw
              (Z.to_nat (Z.min (len (in_values input)) natts)) 0) as (vns & E & Hf); [unfold len; lia|].
  exists vns. cbv zeta. unfold copy_tuple_to_outputs. rewrite Hm, R1. cbn [negb]. rewrite andb_false_r.
  change (Z.of_nat (length (in_values input))) with (len (in_values input)) in *.
  rewrite (proj2 (Z.ltb_ge _ _)) by lia. rewrite in_attrs_length in * by done.
  replace (Z.to_nat (natts - Z.min (len (in_values input)) natts))
    with (Z.to_nat natts - length (in_values input))%nat by (unfold len; lia).
  fold rest. rewrite E. split; [done|]. rewrite drop_0 in Hf.
  replace (take (Z.to_nat natts) (in_attrs input))
    with (take (Z.to_nat (Z.min (len (in_values input)) natts)) (in_attrs input)); [done|].
  destruct (decide (natts <= len (in_values input))); [by rewrite Z.min_r by lia|].
  rewrite Z.min_l by lia. rewrite !take_ge; [done|..]; rewrite in_attrs_length by done; unfold len in *; lia.
Qed.

(** ** Reads through raw pointers

    Whatever the bytes of a row are, the two readers that use raw pointers do
    not read outside of it. *)

Lemma le_value_bound bs : Forall (λ b, 0 <= b < 256) bs → 0 <= le_value bs < 2 ^ (8 * len bs).
Proof.
  induction 1 as [|b bs Hb _ IH]; [done|]. cbn [le_value]. rewrite len_cons.
  replace (8 * (1 + len bs)) with (8 + 8 * len bs) by lia. pose proof (len_nonneg bs).
  rewrite Z.pow_add_r by lia. change (2 ^ 8) with 256. lia.
Qed.

Section raw.
Context `{Target} (bytes : list Z).
Hypothesis Hbytes : Forall (λ b, 0 <= b < 256) bytes.

Lemma raw_natts natts : read_u16 bytes 4 = Some natts → 0 <= natts <= U16_MAX.
Proof.
  unfold read_u16. destruct (slice_get bytes 4 (4 + 2)) as [s|] eqn:E; [|done]. intros [= <-].
  pose proof (slice_get_length _ _ _ _ E ltac:(lia)) as Hl. unfold slice_get in E.
  destruct (_ && _); [|done]. injection E as <-.
  assert (Hf : Forall (λ b, 0 <= b < 256) (take (Z.to_nat (4 + 2 - 4)) (drop (Z.to_nat 4) bytes)))
    by (by apply Forall_take, Forall_drop).
  set (s := take _ _) in *.
  assert (Hs : 0 <= from_ne_bytes s < 2 ^ (8 * len s)).
  { unfold from_ne_bytes. destruct little_endian; [by apply le_value_bound|].
    unfold len. rewrite <- (length_reverse s). by apply le_value_bound, Forall_reverse. }
  rewrite Hl in Hs. unfold U16_MAX. change (2 ^ (8 * (4 + 2 - 4))) with 65536 in Hs. lia.
Qed.

Lemma raw_byte i : 0 <= i < len bytes → ∃ b, byte_at bytes i = Some b.
Proof. intros Hi. apply lookup_lt_is_Some_2. unfold len in Hi. lia. Qed.

Lemma raw_u64 i : 0 <= i → i + 8 <= len bytes → ∃ v, read_u64 bytes i = Some v.
Proof.
  intros Hi Hl. unfold read_u64, slice_get. rewrite !(proj2 (Z.leb_le _ _)) by lia. cbn [andb]. eauto.
Qed.

Lemma raw_header natts : has_magic bytes = true → read_u16 bytes 4 = Some natts → payload_offset natts <= len bytes →
  ∀ i, 0 <= i < natts →
    (∃ b, byte_at bytes (TUPLE_HEADER_LEN + i / 8) = Some b) ∧
    0 <= attr_dir_offset natts + i * ATTR_ENTRY_LEN ∧
    attr_dir_offset natts + i * ATTR_ENTRY_LEN + ATTR_ENTRY_LEN <= len bytes.
Proof.
  intros _ Hn Hp i Hi. pose proof (raw_natts natts Hn) as HN.
  pose proof (payload_offset_spec natts HN) as [HP _]. pose proof (dir_bound natts HN) as HD.
  pose proof (bitmap_bound natts) as HB.
  assert (attr_dir_offset natts = TUPLE_HEADER_LEN + null_bitmap_len natts) as ED by done.
  unfold TUPLE_HEADER_LEN, ATTR_ENTRY_LEN in *. split; [|nia]. apply raw_byte.
  Z.to_euclidean_division_equations. lia.
Qed.

Lemma copy_attrs_in_bounds base natts rest :
  has_magic bytes = true → read_u16 bytes 4 = Some natts → payload_offset natts <= len bytes →
  ∀ indices, Forall (λ i, Z.of_nat i < natts) indices →
  ∃ o, copy_attrs base bytes (attr_dir_offset natts) (payload_offset natts) indices rest = inl o.
Proof.
  intros Hm Hn Hp. induction 1 as [|i indices Hi _ [o IH]]; cbn [copy_attrs]; [eauto|].
  destruct (raw_header natts Hm Hn Hp (Z.of_nat i)) as ((b & ->) & H1 & H2); [lia|].
  unfold ATTR_ENTRY_LEN in *. set (e := attr_dir_offset natts + _) in *.
  destruct (raw_byte e) as [tag ->]; [lia|]. destruct (raw_u64 (e + 8)) as [v ->]; [lia..|].
  destruct (raw_u64 (e + 16)) as [n ->]; [lia..|]. rewrite IH.
  repeat case_match; eauto.
Qed.

Lemma header_natts : has_magic bytes = true → ∃ natts, read_u16 bytes 4 = Some natts.
Proof.
  unfold has_magic. intros [Hl%Z.leb_le _]%andb_true_iff. unfold read_u16, slice_get, TUPLE_HEADER_LEN in *.
  rewrite !(proj2 (Z.leb_le _ _)) by lia. cbn [andb]. eauto.
Qed.
End raw.

(** C27: Whatever the bytes of a row are, the two readers that use raw pointers
    read none outside it. *)
Theorem raw_reads_in_bounds `{Target} (bytes : list Z) : Forall (λ b, 0 <= b < 256) bytes →
  (∀ base outputs_null natts, ∃ o, copy_tuple_to_outputs base bytes outputs_null natts = inl o) ∧
  (∀ attnum value is_null, 0 <= attnum → ∃ o, tuple_byval_attr_equals bytes attnum value is_null = inl o).
Proof.
  intros Hb. split.
  - intros base outputs_null natts. unfold copy_tuple_to_outputs.
    destruct (has_magic bytes) eqn:Em; cbn [negb]; [|eauto]. destruct (header_natts bytes Em) as [n En].
    rewrite En. destruct (_ && outputs_null); [eauto|]. destruct (Z.ltb_spec (len bytes) (payload_offset n)); [eauto|].
    edestruct (copy_attrs_in_bounds bytes Hb base n) as [o ->]; [done..| |eauto].
    apply Forall_forall. intros i [_ Hi]%elem_of_seq. pose proof (raw_natts bytes Hb n En). lia.
  - intros attnum value is_null Ha. unfold tuple_byval_attr_equals.
    destruct (Z.eqb_spec attnum 0); [simpl; eauto|]. destruct (has_magic bytes) eqn:Em; cbn [orb negb]; [|eauto].
    destruct (header_natts bytes Em) as [m En]. rewrite En. pose proof (raw_natts bytes Hb m En) as HN.
    destruct (Z.leb_spec m (attnum - 1)); [eauto|].
    assert (E : (entries ← checked_mul USIZE_MAX m ATTR_ENTRY_LEN; checked_add USIZE_MAX (attr_dir_offset m) entries)
                = Some (attr_dir_offset m + m * ATTR_ENTRY_LEN)).
    { pose proof (dir_bound m HN). unfold checked_mul, checked_add, USIZE_MAX, ATTR_ENTRY_LEN, U16_MAX in *.
      rewrite (proj2 (Z.leb_le (_ * 24) _)) by lia. cbn [mbind option_bind]. by rewrite (proj2 (Z.leb_le _ _)) by lia. }
    rewrite E. destruct (Z.ltb_spec (len bytes) (next_multiple_of (attr_dir_offset m + m * ATTR_ENTRY_LEN) DATUM_ALIGNMENT)) as [|Hp];
      [eauto|].
    assert (Ep : payload_offset m = next_multiple_of (attr_dir_offset m + m * ATTR_ENTRY_LEN) DATUM_ALIGNMENT).
    { pose proof (dir_bound m HN). unfold payload_offset, saturating_add, saturating_mul, USIZE_MAX, ATTR_ENTRY_LEN, U16_MAX in *.
      rewrite (Z.min_r _ (_ * 24)) by lia. by rewrite Z.min_r by lia. }
    rewrite <- Ep in Hp. destruct (raw_header bytes Hb m Em En Hp (attnum - 1)) as ((b & ->) & H1 & H2); [lia|].
    destruct (_ || _); [eauto|]. unfold ATTR_ENTRY_LEN in *. set (e := attr_dir_offset m + (attnum - 1) * 24) in *.
    destruct (checked_add USIZE_MAX e 24); [|eauto]. destruct (Z.ltb_spec (len bytes) z); [eauto|].
    destruct (raw_byte bytes e) as [tag ->]; [lia|]. destruct (raw_u64 bytes (e + 8)) as [v ->]; [lia..|].
    destruct (negb _); eauto.
Qed.
