(* ===== verification/EngPageProofs.v ===== *)
(** * Pages keep their rows

    A well-formed page has its rows at multiples of eight, one after the other
    below the used part, and counts their bytes by state.  The operations of
    EngPage keep that; they are described by their effect on [page_row], the
    state and the bytes of the row at an offset. *)

From Stdlib Require Import ZArith Lia.
From stdpp Require Import base tactics numbers list strings sorting.
From S2P Require Import Prelude RustStd EngTid EngTuple EngTupleProofs EngPage.

Local Open Scope Z_scope.

(** ** The invariant *)

Definition sum_of {A} (f : A → Z) (l : list A) : Z := foldr (λ a n, f a + n) 0 l.

Lemma sum_of_app {A} (f : A → Z) l k : sum_of f (l ++ k) = sum_of f l + sum_of f k.
Proof. induction l as [|a l IH]; simpl; [done|]. rewrite IH. lia. Qed.

Lemma sum_of_nonneg {A} (f : A → Z) l : Forall (λ a, 0 <= f a) l → 0 <= sum_of f l.
Proof. induction 1; simpl; lia. Qed.

Lemma sum_of_le {A} (f g : A → Z) l : Forall (λ a, f a <= g a) l → sum_of f l <= sum_of g l.
Proof. induction 1; simpl; lia. Qed.

Lemma sum_of_ext {A} (f g : A → Z) l : Forall (λ a, f a = g a) l → sum_of f l = sum_of g l.
Proof. induction 1; simpl; lia. Qed.

Lemma sum_of_insert {A} (f : A → Z) l i x y : l !! i = Some x → sum_of f (<[i := y]> l) = sum_of f l - f x + f y.
Proof.
  revert i. induction l as [|a l IH]; intros [|i] E; simpl in *; [done..|injection E as ->; lia|].
  rewrite (IH i E). lia.
Qed.

(** The bytes of a line, if it has state [s]. *)
Definition state_len (s : LinePointerState) (l : LinePointer) : Z := if decide (lp_state l = s) then lp_len l else 0.

Definition line_wf (used : Z) (l : LinePointer) : Prop :=
  0 <= lp_offset l ∧ lp_offset l mod DATUM_ALIGNMENT = 0 ∧ 0 < lp_len l <= U32_MAX ∧
  lp_offset l + lp_len l <= used.

Record page_wf (p : Page) : Prop := {
  pwf_block : is_u32 (pg_block p);
  pwf_capacity : len (pg_bytes p) <= 2 ^ 32;
  pwf_used : 0 <= pg_used p <= len (pg_bytes p);
  pwf_count : len (line_pointers p) <= MAX_CTID_OFFSET;
  pwf_lines : Forall (line_wf (pg_used p)) (line_pointers p);
  pwf_disjoint : StronglySorted (λ l k, lp_offset l + lp_len l <= lp_offset k) (line_pointers p);
  pwf_room : sum_of lp_len (line_pointers p) <= pg_used p;
  pwf_stats : ∀ s, state_bytes s p = sum_of (state_len s) (line_pointers p);
}.

(** The state and the bytes of the row at an offset. *)
Definition page_row (p : Page) (offset : Z) : option (LinePointerState * list Z) :=
  line ← page_line p offset; bytes ← line_bytes p line; Some (lp_state line, bytes).

(** What a reader gets of a row. *)
Definition shown (include_pending : bool) (row : option (LinePointerState * list Z)) : option (list Z) :=
  match row with
  | Some (LLive, bytes) => Some bytes
  | Some (LPending, bytes) => if include_pending then Some bytes else None
  | _ => None
  end.

Lemma page_tuple_slice_row p offset include_pending :
  page_tuple_slice p offset include_pending = shown include_pending (page_row p offset).
Proof.
  unfold page_tuple_slice, page_row. destruct (page_line p offset) as [l|]; simpl; [|done].
  destruct (line_bytes p l); simpl; destruct (lp_state l), include_pending; done.
Qed.

Lemma page_tuple_slice_any_row p offset : page_tuple_slice_any p offset = snd <$> page_row p offset.
Proof.
  unfold page_tuple_slice_any, page_row. destruct (page_line p offset) as [l|]; simpl; [|done].
  by destruct (line_bytes p l).
Qed.

Lemma page_line_lookup p offset l :
  page_line p offset = Some l ↔ 1 <= offset ∧ line_pointers p !! Z.to_nat (offset - 1) = Some l.
Proof.
  unfold page_line, checked_sub. destruct (Z.leb_spec 1 offset); simpl; [|split; [done|lia]]. tauto.
Qed.

Lemma page_line_bound p offset l : page_line p offset = Some l → 1 <= offset <= len (line_pointers p).
Proof.
  intros [H1 H2]%page_line_lookup. apply lookup_lt_Some in H2. unfold len. lia.
Qed.

Lemma line_wf_bytes p l : line_wf (pg_used p) l → pg_used p <= len (pg_bytes p) → len (pg_bytes p) <= 2 ^ 32 →
  ∃ bytes, line_bytes p l = Some bytes ∧ len bytes = lp_len l.
Proof.
  intros (H1 & _ & H2 & H3) Hu Hc. unfold line_bytes, checked_add, USIZE_MAX. rewrite (proj2 (Z.leb_le _ _)) by lia.
  simpl. unfold slice_get. rewrite !(proj2 (Z.leb_le _ _)) by lia. cbn [andb]. eexists. split; [done|].
  unfold len in *. rewrite length_take, length_drop. lia.
Qed.

Section wf.
Context (p : Page) (Hp : page_wf p).

Lemma page_line_wf offset l : page_line p offset = Some l → line_wf (pg_used p) l.
Proof.
  intros [_ H]%page_line_lookup. eapply Forall_lookup_1; [apply (pwf_lines _ Hp)|done].
Qed.

(** Every line has its bytes. *)
Lemma page_row_line offset l : page_line p offset = Some l →
  ∃ bytes, page_row p offset = Some (lp_state l, bytes) ∧ len bytes = lp_len l.
Proof.
  intros Hl. destruct (line_wf_bytes p l) as (bytes & E & Hlen);
    [by eapply page_line_wf|apply (pwf_used _ Hp)|apply (pwf_capacity _ Hp)|].
  exists bytes. unfold page_row. rewrite Hl. simpl. rewrite E. done.
Qed.

Lemma page_row_none offset : page_row p offset = None ↔ page_line p offset = None.
Proof.
  destruct (page_line p offset) as [l|] eqn:E.
  - destruct (page_row_line offset l E) as (b & -> & _). done.
  - unfold page_row. by rewrite E.
Qed.

Lemma page_row_some offset s bytes : page_row p offset = Some (s, bytes) →
  ∃ l, page_line p offset = Some l ∧ lp_state l = s ∧ lp_len l = len bytes.
Proof.
  intros Hr. destruct (page_line p offset) as [l|] eqn:E; [|unfold page_row in Hr; by rewrite E in Hr].
  destruct (page_row_line offset l E) as (b & Hr' & Hl). rewrite Hr in Hr'. injection Hr' as -> ->. eauto.
Qed.

Lemma state_len_nonneg s : Forall (λ l, 0 <= state_len s l) (line_pointers p).
Proof.
  eapply Forall_impl; [apply (pwf_lines _ Hp)|]. intros l (_ & _ & H & _). unfold state_len. case_decide; lia.
Qed.

Lemma state_bytes_bound s : 0 <= state_bytes s p <= 2 ^ 32.
Proof.
  rewrite (pwf_stats _ Hp). split; [apply sum_of_nonneg, state_len_nonneg|].
  etrans; [|apply (pwf_capacity _ Hp)]. etrans; [|apply (pwf_used _ Hp)]. etrans; [|apply (pwf_room _ Hp)].
  apply sum_of_le. eapply Forall_impl; [apply (pwf_lines _ Hp)|]. intros l (_ & _ & H & _). unfold state_len.
  case_decide; lia.
Qed.

Lemma aligned_used_spec : pg_used p <= aligned_used p < pg_used p + 8 ∧ aligned_used p mod DATUM_ALIGNMENT = 0.
Proof.
  pose proof (pwf_used _ Hp). pose proof (pwf_capacity _ Hp). unfold aligned_used, DATUM_ALIGNMENT.
  apply next_mult8. pow2. lia.
Qed.
End wf.

(** ** New pages *)

Lemma page_new_wf block epoch generation n : is_u32 block → 0 <= n <= 2 ^ 32 →
  page_wf (page_new block epoch generation n) ∧ n <= remaining (page_new block epoch generation n).
Proof.
  intros Hb Hn. destruct (next_power_of_two_ge n) as [H1 _]; [pow2; lia|].
  assert (H2 : next_power_of_two n <= 2 ^ 32).
  { unfold next_power_of_two. assert (Z.log2_up n <= 32).
    { change 32 with (Z.log2_up (2 ^ 32)). apply Z.log2_up_le_mono. lia. }
    assert (2 ^ Z.log2_up n <= 2 ^ 32) by (apply Z.pow_le_mono_r; lia).
    pose proof (Z.log2_up_nonneg n). assert (0 < 2 ^ Z.log2_up n) by (apply Z.pow_pos_nonneg; lia).
    rewrite wrap64_small; [done|]. mlia. }
  assert (El : len (pg_bytes (page_new block epoch generation n)) = Z.max PAGE_SIZE (next_power_of_two n)).
  { unfold page_new, len, PAGE_SIZE. cbn [pg_bytes]. rewrite length_replicate. lia. }
  split.
  - unfold PAGE_SIZE in *. split; try rewrite El; cbn [page_new pg_block pg_used line_pointers]; try done; try (pow2; lia).
    + constructor.
    + by intros [].
  - unfold remaining. rewrite El. unfold aligned_used, saturating_sub. cbn [page_new pg_used].
    change (next_multiple_of 0 DATUM_ALIGNMENT) with 0. unfold PAGE_SIZE. lia.
Qed.

Lemma page_new_row block epoch generation n offset : page_row (page_new block epoch generation n) offset = None.
Proof.
  unfold page_row, page_line. destruct (checked_sub offset 1) as [z|]; [|done]. simpl. by destruct (Z.to_nat z).
Qed.

(** ** Changing lines in place *)

(** A change of a line that leaves its place alone. *)
Definition keeps_place (f : LinePointer → LinePointer) : Prop :=
  ∀ l, lp_offset (f l) = lp_offset l ∧ lp_len (f l) = lp_len l.

Lemma page_line_update offset f p offset' : 1 <= offset →
  page_line (update_line offset f p) offset' =
  if decide (offset' = offset) then f <$> page_line p offset else page_line p offset'.
Proof.
  intros H1. unfold page_line, checked_sub, update_line. cbn [line_pointers set_line_pointers].
  case_decide as E.
  - subst. rewrite (proj2 (Z.leb_le _ _)) by lia. simpl. apply list_lookup_alter_eq.
  - destruct (Z.leb_spec 1 offset'); simpl; [|done]. rewrite list_lookup_alter_ne by lia. done.
Qed.

Lemma page_row_update offset f p offset' : keeps_place f → 1 <= offset →
  page_row (update_line offset f p) offset' =
  if decide (offset' = offset) then
    l ← page_line p offset; b ← line_bytes p l; Some (lp_state (f l), b)
  else page_row p offset'.
Proof.
  intros Hf H1. unfold page_row. rewrite page_line_update by done.
  assert (Hb : ∀ l, line_bytes (update_line offset f p) (f l) = line_bytes p l).
  { intros l. unfold line_bytes. destruct (Hf l) as [-> ->]. done. }
  case_decide; [|done]. destruct (page_line p offset) as [l|]; simpl; [|done]. by rewrite Hb.
Qed.

Lemma update_line_lines offset f p l : page_line p offset = Some l →
  line_pointers (update_line offset f p) = <[Z.to_nat (offset - 1) := f l]> (line_pointers p).
Proof.
  intros [H1 H2]%page_line_lookup. unfold update_line. cbn [line_pointers set_line_pointers].
  apply list_eq. intros i. destruct (decide (i = Z.to_nat (offset - 1))) as [->|].
  - rewrite list_lookup_alter_eq, H2. rewrite list_lookup_insert_eq; [done|]. by eapply lookup_lt_Some.
  - by rewrite list_lookup_alter_ne, list_lookup_insert_ne by done.
Qed.

Lemma sorted_places (ls ls' : list LinePointer) :
  Forall2 (λ l k, lp_offset k = lp_offset l ∧ lp_len k = lp_len l) ls ls' →
  StronglySorted (λ l k, lp_offset l + lp_len l <= lp_offset k) ls →
  StronglySorted (λ l k, lp_offset l + lp_len l <= lp_offset k) ls'.
Proof.
  induction 1 as [|l k ls ls' [E1 E2] Hf IH]; [done|]. inversion 1 as [|? ? Hs Ha]; subst.
  constructor; [by apply IH|]. apply Forall_forall. intros x [i Hx]%list_elem_of_lookup.
  destruct (Forall2_lookup_r _ _ _ _ _ Hf Hx) as (y & Hy & E3 & E4).
  pose proof (Forall_lookup_1 _ _ _ _ Ha Hy) as Hle. cbv beta in Hle. rewrite E1, E2, E3. done.
Qed.

(** Lines at the same places, with the statistics of the new states. *)
Lemma page_wf_same_places p p' :
  page_wf p → pg_block p' = pg_block p → pg_bytes p' = pg_bytes p → pg_used p' = pg_used p →
  Forall2 (λ l k, lp_offset k = lp_offset l ∧ lp_len k = lp_len l) (line_pointers p) (line_pointers p') →
  (∀ s, state_bytes s p' = sum_of (state_len s) (line_pointers p')) →
  page_wf p'.
Proof.
  intros [W1 W2 W3 W4 W5 W6 W7 _] E1 E2 E3 Hl Hs. split; rewrite ?E1, ?E2, ?E3; try done.
  - unfold len in *. by rewrite <- (Forall2_length _ _ _ Hl).
  - clear -W5 Hl. induction Hl as [|l k ls ls' [E1 E2] Hl IH]; [done|].
    inversion W5; subst. constructor; [|by apply IH]. unfold line_wf in *. by rewrite E1, E2.
  - by eapply sorted_places.
  - etrans; [|exact W7]. apply Z.eq_le_incl.
    clear -Hl. induction Hl as [|l k ls ls' [E1 E2] Hl IH]; simpl; [done|]. lia.
Qed.

Lemma places_insert (ls : list LinePointer) i l f : keeps_place f → ls !! i = Some l →
  Forall2 (λ l k, lp_offset k = lp_offset l ∧ lp_len k = lp_len l) ls (<[i := f l]> ls).
Proof.
  intros Hf Hl. rewrite <- (list_insert_id ls i l) at 1 by done. apply Forall2_insert; [|apply Hf].
  by apply Forall_Forall2_diag, Forall_true.
Qed.

(** The metadata of a line. *)
Definition keeps_row (f : LinePointer → LinePointer) : Prop := keeps_place f ∧ ∀ l, lp_state (f l) = lp_state l.

Lemma update_line_spec offset f p : page_wf p → keeps_row f → 1 <= offset →
  page_wf (update_line offset f p) ∧ ∀ offset', page_row (update_line offset f p) offset' = page_row p offset'.
Proof.
  intros Hp [Hf Hs] H1. split.
  - destruct (page_line p offset) as [l|] eqn:El.
    + apply (page_wf_same_places p); try done.
      * rewrite (update_line_lines offset f p l El). apply page_line_lookup in El as [_ El]. by apply places_insert.
      * intros s. rewrite (update_line_lines offset f p l El). apply page_line_lookup in El as [_ El].
        rewrite (sum_of_insert _ _ _ _ _ El). unfold state_len at 2 3. rewrite Hs.
        destruct (Hf l) as [_ ->]. rewrite (Z.sub_add). pose proof (pwf_stats _ Hp s) as <-. by destruct s.
    + replace (update_line offset f p) with p; [done|]. unfold update_line.
      assert (line_pointers p !! Z.to_nat (offset - 1) = None) as En.
      { unfold page_line, checked_sub in El. rewrite (proj2 (Z.leb_le _ _)) in El by lia. done. }
      replace (alter f (Z.to_nat (offset - 1)) (line_pointers p)) with (line_pointers p); [by destruct p|].
      apply list_eq. intros i. destruct (decide (i = Z.to_nat (offset - 1))) as [->|].
      * by rewrite list_lookup_alter_eq, En.
      * by rewrite list_lookup_alter_ne.
  - intros offset'. rewrite page_row_update by done. case_decide; [|done]. subst. unfold page_row.
    destruct (page_line p offset) as [l|]; simpl; [|done]. by rewrite Hs.
Qed.

(** ** States of rows *)

Lemma add_state_bytes_other s n p s' : s' ≠ s → state_bytes s' (add_state_bytes s n p) = state_bytes s' p.
Proof. by destruct s, s'. Qed.
Lemma sub_state_bytes_other s n p s' : s' ≠ s → state_bytes s' (sub_state_bytes s n p) = state_bytes s' p.
Proof. by destruct s, s'. Qed.
Lemma add_state_bytes_same s n p : state_bytes s (add_state_bytes s n p) = saturating_add USIZE_MAX (state_bytes s p) n.
Proof. by destruct s. Qed.
Lemma sub_state_bytes_same s n p : state_bytes s (sub_state_bytes s n p) = saturating_sub (state_bytes s p) n.
Proof. by destruct s. Qed.

(** The statistics are not part of what a row is. *)
Lemma add_state_bytes_page s n p :
  pg_block (add_state_bytes s n p) = pg_block p ∧ pg_bytes (add_state_bytes s n p) = pg_bytes p ∧
  pg_used (add_state_bytes s n p) = pg_used p ∧ line_pointers (add_state_bytes s n p) = line_pointers p.
Proof. by destruct s. Qed.
Lemma sub_state_bytes_page s n p :
  pg_block (sub_state_bytes s n p) = pg_block p ∧ pg_bytes (sub_state_bytes s n p) = pg_bytes p ∧
  pg_used (sub_state_bytes s n p) = pg_used p ∧ line_pointers (sub_state_bytes s n p) = line_pointers p.
Proof. by destruct s. Qed.

Lemma page_row_eq p p' : pg_bytes p' = pg_bytes p → line_pointers p' = line_pointers p → page_row p' = page_row p.
Proof. intros E1 E2. unfold page_row, page_line, line_bytes. by rewrite E1, E2. Qed.

(** A line goes from one state to another, and its bytes with it. *)
Definition move_line (offset : Z) (s s' : LinePointerState) (n : Z) (p : Page) : Page :=
  add_state_bytes s' n (sub_state_bytes s n (update_line offset (set_lp_state s') p)).

Lemma page_mark_dead_eq offset p : page_mark_dead offset p =
  match page_line p offset with
  | Some l => if decide (lp_state l = LDead) then (false, p) else (true, move_line offset (lp_state l) LDead (lp_len l) p)
  | None => (false, p)
  end.
Proof. unfold page_mark_dead. destruct (page_line p offset) as [l|]; [|done]. by destruct (lp_state l). Qed.

Lemma page_mark_live_eq offset p : page_mark_live offset p =
  match page_line p offset with
  | Some l => if decide (lp_state l = LPending) then (true, move_line offset LPending LLive (lp_len l) p) else (false, p)
  | None => (false, p)
  end.
Proof. unfold page_mark_live. destruct (page_line p offset) as [l|]; [|done]. by destruct (lp_state l). Qed.

Lemma set_lp_state_place s : keeps_place (set_lp_state s).
Proof. by intros l. Qed.

Lemma move_line_spec offset s' p l : page_wf p → page_line p offset = Some l → lp_state l ≠ s' →
  let p' := move_line offset (lp_state l) s' (lp_len l) p in
  page_wf p' ∧ pg_block p' = pg_block p ∧ pg_used p' = pg_used p ∧ pg_bytes p' = pg_bytes p ∧
  line_pointers p' = <[Z.to_nat (offset - 1) := set_lp_state s' l]> (line_pointers p) ∧
  ∀ offset', page_row p' offset' =
    if decide (offset' = offset) then (λ row, (s', row.2)) <$> page_row p offset else page_row p offset'.
Proof.
  intros Hp Hl Hne. cbv zeta. set (p' := move_line _ _ _ _ _).
  assert (Hpage : pg_block p' = pg_block p ∧ pg_used p' = pg_used p ∧ pg_bytes p' = pg_bytes p ∧
    line_pointers p' = <[Z.to_nat (offset - 1) := set_lp_state s' l]> (line_pointers p)).
  { unfold p', move_line. destruct (add_state_bytes_page s' (lp_len l)
      (sub_state_bytes (lp_state l) (lp_len l) (update_line offset (set_lp_state s') p))) as (-> & -> & -> & ->).
    destruct (sub_state_bytes_page (lp_state l) (lp_len l) (update_line offset (set_lp_state s') p)) as (-> & -> & -> & ->).
    by rewrite (update_line_lines _ _ _ _ Hl). }
  destruct Hpage as (E1 & E2 & E3 & E4).
  pose proof (page_line_wf p Hp offset l Hl) as (_ & _ & Hlen & _).
  pose proof Hl as [Ho Hl']%page_line_lookup.
  split; [|do 4 (split; [done|])].
  - apply (page_wf_same_places p); [done..| |].
    + rewrite E4. by apply places_insert.
    + intros s. rewrite E4, (sum_of_insert _ _ _ _ _ Hl'), <- (pwf_stats _ Hp s).
      pose proof (state_bytes_bound p Hp s) as Hb. unfold state_len. cbn [lp_state lp_len set_lp_state].
      assert (Hge : s = lp_state l → lp_len l <= state_bytes s p).
      { intros ->. rewrite (pwf_stats _ Hp). rewrite <- (take_drop_middle _ _ _ Hl'), sum_of_app. simpl.
        pose proof (state_len_nonneg p Hp (lp_state l)) as Hn. rewrite <- (take_drop_middle _ _ _ Hl') in Hn.
        apply Forall_app in Hn as [H1 [_ H2]%Forall_cons].
        pose proof (sum_of_nonneg _ _ H1). pose proof (sum_of_nonneg _ _ H2). unfold state_len at 2.
        rewrite decide_True by done. lia. }
      pose proof (pwf_room _ Hp). pose proof (pwf_used _ Hp). pose proof (pwf_capacity _ Hp).
      assert (lp_len l <= 2 ^ 32) by (pose proof (page_line_wf p Hp offset l Hl) as (? & _ & _ & ?); lia).
      unfold p', move_line.
      destruct (decide (s = s')) as [->|Hs'].
      * rewrite add_state_bytes_same, sub_state_bytes_other by congruence. unfold saturating_add, USIZE_MAX.
        rewrite !decide_False, !decide_True by congruence.
        assert (state_bytes s' (update_line offset (set_lp_state s') p) = state_bytes s' p) as -> by (by destruct s').
        pow2. lia.
      * rewrite add_state_bytes_other by done. destruct (decide (s = lp_state l)) as [->|Hs].
        -- rewrite sub_state_bytes_same. unfold saturating_sub. rewrite !decide_True, !decide_False by congruence.
           assert (∀ f, state_bytes (lp_state l) (update_line offset f p) = state_bytes (lp_state l) p) as ->
             by (by destruct (lp_state l)).
           specialize (Hge eq_refl). lia.
        -- rewrite sub_state_bytes_other by done. rewrite !decide_False by congruence.
           assert (∀ f, state_bytes s (update_line offset f p) = state_bytes s p) as -> by (by destruct s). lia.
  - intros offset'.
    rewrite (page_row_eq (update_line offset (set_lp_state s') p) p');
      [|by rewrite E3|by rewrite E4; symmetry; apply update_line_lines].
    rewrite page_row_update by (done || apply set_lp_state_place). case_decide; [|done]. subst. unfold page_row. rewrite Hl. simpl.
    by destruct (line_bytes p l).
Qed.

(** ** Recomputing the statistics *)

Lemma recompute_loop ls p :
  (∀ s, 0 <= state_bytes s p) → Forall (λ l, 0 <= lp_len l) ls →
  (∀ s, state_bytes s p + sum_of (state_len s) ls <= USIZE_MAX) →
  let p' := foldl (λ p line, add_state_bytes (lp_state line) (lp_len line) p) p ls in
  pg_block p' = pg_block p ∧ pg_bytes p' = pg_bytes p ∧ pg_used p' = pg_used p ∧
  line_pointers p' = line_pointers p ∧ ∀ s, state_bytes s p' = state_bytes s p + sum_of (state_len s) ls.
Proof.
  revert p. induction ls as [|l ls IH]; intros p H0 Hl Hb; cbn [foldl].
  { do 4 (split; [done|]). intros s. simpl. lia. }
  inversion Hl; subst. cbv zeta.
  assert (Hn : ∀ s, 0 <= sum_of (state_len s) ls).
  { intros s. apply sum_of_nonneg. eapply Forall_impl; [done|]. intros k ?. unfold state_len. by case_decide. }
  assert (Hadd : ∀ s, state_bytes s (add_state_bytes (lp_state l) (lp_len l) p) = state_bytes s p + state_len s l).
  { intros s. unfold state_len. specialize (Hb s). cbn [sum_of foldr] in Hb. unfold state_len at 1 in Hb.
    specialize (Hn s). unfold sum_of in Hn. case_decide.
    - subst s. rewrite add_state_bytes_same. unfold saturating_add. lia.
    - rewrite add_state_bytes_other by congruence. lia. }
  destruct (IH (add_state_bytes (lp_state l) (lp_len l) p)) as (E1 & E2 & E3 & E4 & E5); [..|done| |].
  { intros s. rewrite Hadd. specialize (H0 s). unfold state_len. case_decide; lia. }
  { intros s. rewrite Hadd. specialize (Hb s). cbn [sum_of foldr] in Hb. unfold sum_of in *. lia. }
  destruct (add_state_bytes_page (lp_state l) (lp_len l) p) as (F1 & F2 & F3 & F4).
  rewrite E1, E2, E3, E4. do 4 (split; [done|]). intros s. rewrite E5, Hadd. simpl. lia.
Qed.

Lemma recompute_tuple_bytes_spec p : Forall (λ l, 0 <= lp_len l) (line_pointers p) →
  sum_of lp_len (line_pointers p) <= USIZE_MAX →
  let p' := recompute_tuple_bytes p in
  pg_block p' = pg_block p ∧ pg_bytes p' = pg_bytes p ∧ pg_used p' = pg_used p ∧
  line_pointers p' = line_pointers p ∧ ∀ s, state_bytes s p' = sum_of (state_len s) (line_pointers p).
Proof.
  intros Hl Hs. cbv zeta. unfold recompute_tuple_bytes.
  destruct (recompute_loop (line_pointers p) (set_pg_pending_bytes 0 (set_pg_live_bytes 0 (set_pg_dead_bytes 0 p))))
    as (E1 & E2 & E3 & E4 & E5); [by intros []|done| |].
  { intros s. assert (state_bytes s (set_pg_pending_bytes 0 (set_pg_live_bytes 0 (set_pg_dead_bytes 0 p))) = 0) as ->
      by (by destruct s).
    etrans; [|exact Hs]. apply sum_of_le. eapply Forall_impl; [done|]. intros l ?. unfold state_len. by case_decide. }
  do 4 (split; [done|]). intros s. rewrite E5. by destruct s.
Qed.

(** On a well-formed page there is nothing to correct. *)
Lemma recompute_tuple_bytes_id p : page_wf p → recompute_tuple_bytes p = p.
Proof.
  intros Hp. pose proof (pwf_room _ Hp). pose proof (pwf_used _ Hp). pose proof (pwf_capacity _ Hp).
  destruct (recompute_tuple_bytes_spec p) as (E1 & E2 & E3 & E4 & E5).
  { eapply Forall_impl; [apply (pwf_lines _ Hp)|]. intros l (_ & _ & ? & _). lia. }
  { unfold USIZE_MAX. pow2. lia. }
  assert (Ee : pg_epoch (recompute_tuple_bytes p) = pg_epoch p ∧ pg_generation (recompute_tuple_bytes p) = pg_generation p).
  { unfold recompute_tuple_bytes. generalize (line_pointers p) as ls.
    assert (∀ ls q, pg_epoch (foldl (λ p line, add_state_bytes (lp_state line) (lp_len line) p) q ls) = pg_epoch q ∧
      pg_generation (foldl (λ p line, add_state_bytes (lp_state line) (lp_len line) p) q ls) = pg_generation q) as Hf.
    { induction ls as [|l ls IH]; intros q; [done|]. cbn [foldl]. destruct (IH (add_state_bytes (lp_state l) (lp_len l) q)) as [-> ->].
      by destruct (lp_state l). }
    intros ls. destruct (Hf ls (set_pg_pending_bytes 0 (set_pg_live_bytes 0 (set_pg_dead_bytes 0 p)))) as [-> ->]. done. }
  destruct Ee as [E6 E7].
  pose proof (pwf_stats _ Hp LPending) as S1. pose proof (pwf_stats _ Hp LLive) as S2. pose proof (pwf_stats _ Hp LDead) as S3.
  rewrite <- E5 in S1, S2, S3. cbn [state_bytes] in S1, S2, S3.
  destruct p as [a1 a2 a3 a4 a5 a6 a7 a8 a9], (recompute_tuple_bytes _) as [b1 b2 b3 b4 b5 b6 b7 b8 b9]. simpl in *. congruence.
Qed.

(** ** Appending *)

Definition next_tid (p : Page) : Tid := mkTid (pg_block p) (len (line_pointers p) + 1).

(** The page with a row written after the others. *)
Definition appended (tuple : list Z) (s : LinePointerState) (p : Page) : Page :=
  add_state_bytes s (len tuple)
    (set_line_pointers (line_pointers p ++ [new_line (aligned_used p) (len tuple) s])
      (set_pg_used (aligned_used p + len tuple) (set_pg_bytes (copy_into (aligned_used p) tuple (pg_bytes p)) p))).

Lemma can_fit_room p n : page_wf p → 0 < n → can_fit p n = true →
  aligned_used p + n <= len (pg_bytes p) ∧ len (line_pointers p) < MAX_CTID_OFFSET.
Proof.
  intros Hp Hn [H1%Z.leb_le H2%Z.ltb_lt]%andb_true_iff. split; [|done].
  unfold remaining, saturating_sub in H1. lia.
Qed.

Section append.
Context (p : Page) (Hp : page_wf p) (n : Z) (Hn : 0 < n <= U32_MAX) (Hfit : can_fit p n = true).

Lemma append_room : aligned_used p + n <= len (pg_bytes p) ∧ len (line_pointers p) < MAX_CTID_OFFSET.
Proof. apply can_fit_room; [done|lia|done]. Qed.

Lemma append_checks :
  (remaining p <? n) || (MAX_CTID_OFFSET <=? len (line_pointers p)) = false ∧
  checked_add USIZE_MAX (aligned_used p) n = Some (aligned_used p + n) ∧
  (len (pg_bytes p) <? aligned_used p + n) = false ∧
  try_from U32_MAX (aligned_used p) = Some (aligned_used p) ∧
  try_from U32_MAX n = Some n.
Proof.
  destruct append_room as [R1 R2]. pose proof (pwf_capacity _ Hp) as Hc. pose proof (pwf_used _ Hp) as Hu.
  destruct (aligned_used_spec p Hp) as [Ha _]. change (2 ^ 32) with 4294967296 in Hc.
  unfold checked_add, try_from, USIZE_MAX, U32_MAX, MAX_CTID_OFFSET, remaining, saturating_sub in *.
  assert (∀ x, (x <? n) = false ↔ n <= x) as Hx by (intros x; apply Z.ltb_ge).
  split; [apply orb_false_iff; split; [apply Z.ltb_ge; lia|apply Z.leb_gt; lia]|].
  split; [by rewrite (proj2 (Z.leb_le _ _)) by lia|]. split; [apply Z.ltb_ge; lia|].
  split; by rewrite (proj2 (Z.leb_le _ _)) by lia.
Qed.

Lemma appended_fields tuple s : len tuple = n →
  let p' := appended tuple s p in
  pg_block p' = pg_block p ∧ pg_bytes p' = copy_into (aligned_used p) tuple (pg_bytes p) ∧
  pg_used p' = aligned_used p + n ∧ line_pointers p' = line_pointers p ++ [new_line (aligned_used p) n s].
Proof. intros <-. by destruct s. Qed.

Lemma appended_wf tuple s : len tuple = n → page_wf (appended tuple s p).
Proof.
  intros Hl. destruct (appended_fields tuple s Hl) as (E1 & E2 & E3 & E4). destruct append_room as [R1 R2].
  destruct (aligned_used_spec p Hp) as [Ha Ha8]. pose proof (pwf_used _ Hp) as Hu.
  assert (Eb : len (pg_bytes (appended tuple s p)) = len (pg_bytes p)).
  { rewrite E2. unfold len. f_equal. apply copy_into_length; [lia|]. by rewrite Hl. }
  split; rewrite ?E1, ?Eb, ?E3, ?E4.
  - apply (pwf_block _ Hp).
  - apply (pwf_capacity _ Hp).
  - lia.
  - rewrite len_app, len_cons, len_nil. lia.
  - apply Forall_app. split.
    + eapply Forall_impl; [apply (pwf_lines _ Hp)|]. unfold line_wf. intros l. lia.
    + constructor; [|done]. unfold line_wf, new_line. cbn [lp_offset lp_len]. lia.
  - apply StronglySorted_app_2; [|apply (pwf_disjoint _ Hp)|by repeat constructor].
    intros l k Hl' Hk%list_elem_of_singleton. subst k.
    pose proof (proj1 (Forall_forall _ _) (pwf_lines _ Hp) l Hl') as (_ & _ & _ & ?).
    unfold new_line. cbn [lp_offset]. lia.
  - rewrite sum_of_app. pose proof (pwf_room _ Hp). simpl. lia.
  - intros s'. rewrite sum_of_app, <- (pwf_stats _ Hp s'). unfold appended. simpl. unfold state_len at 1.
    cbn [lp_state lp_len new_line]. pose proof (state_bytes_bound p Hp s') as Hb.
    case_decide.
    + subst s'. rewrite add_state_bytes_same, Hl. unfold saturating_add, USIZE_MAX, U32_MAX in *. pow2.
      assert (∀ v w x, state_bytes s (set_line_pointers v (set_pg_used w (set_pg_bytes x p))) = state_bytes s p) as ->
        by (by destruct s). lia.
    + rewrite add_state_bytes_other by congruence. destruct s'; cbn [state_bytes]; simpl; lia.
Qed.

Lemma appended_row tuple s offset : len tuple = n →
  page_row (appended tuple s p) offset =
  if decide (offset = len (line_pointers p) + 1) then Some (s, tuple) else page_row p offset.
Proof.
  intros Hl. destruct (appended_fields tuple s Hl) as (_ & E2 & _ & E4). destruct append_room as [R1 R2].
  destruct (aligned_used_spec p Hp) as [Ha Ha8]. pose proof (pwf_used _ Hp) as Hu. pose proof (pwf_capacity _ Hp) as Hc.
  pose proof (len_nonneg (line_pointers p)) as H0.
  assert (Hline : page_line (appended tuple s p) offset =
    if decide (offset = len (line_pointers p) + 1) then Some (new_line (aligned_used p) n s) else page_line p offset).
  { unfold page_line, checked_sub. rewrite E4. case_decide as Ho.
    - rewrite (proj2 (Z.leb_le _ _)) by lia. simpl. rewrite lookup_app_r by (unfold len in *; lia).
      replace (Z.to_nat (offset - 1) - length (line_pointers p))%nat with 0%nat by (unfold len in *; lia). done.
    - destruct (Z.leb_spec 1 offset); [|done]. simpl. unfold len in *.
      destruct (decide (Z.to_nat (offset - 1) < length (line_pointers p))%nat).
      + by rewrite lookup_app_l by done.
      + rewrite !lookup_ge_None_2; [done|lia|rewrite length_app; simpl; lia]. }
  unfold page_row. rewrite Hline. case_decide as Ho.
  - simpl. unfold line_bytes, new_line, checked_add, USIZE_MAX. cbn [lp_offset lp_len lp_state].
    change (2 ^ 32) with 4294967296 in Hc. rewrite (proj2 (Z.leb_le _ _)) by lia. simpl. rewrite E2, <- Hl.
    rewrite slice_get_copy_same by lia. done.
  - destruct (page_line p offset) as [l|] eqn:El; [|done]. simpl.
    pose proof (page_line_wf p Hp offset l El) as (L1 & L2 & L3 & L4). unfold line_bytes.
    destruct (checked_add USIZE_MAX (lp_offset l) (lp_len l)) as [stop|] eqn:Ec; [|done]. simpl. rewrite E2.
    unfold checked_add in Ec. destruct (_ <=? _); [|done]. injection Ec as <-.
    by rewrite slice_get_copy_before by lia.
Qed.
End append.

Lemma last_tid_appended tuple s p : page_wf p → can_fit p (len tuple) = true → last_tid (appended tuple s p) = Some (next_tid p).
Proof.
  intros Hp [_ H%Z.ltb_lt]%andb_true_iff. unfold last_tid, next_tid.
  assert (line_pointers (appended tuple s p) = line_pointers p ++ [new_line (aligned_used p) (len tuple) s]) as -> by (by destruct s).
  assert (pg_block (appended tuple s p) = pg_block p) as -> by (by destruct s).
  rewrite len_app, len_cons, len_nil. unfold try_from, U16_MAX, MAX_CTID_OFFSET in *. rewrite (proj2 (Z.leb_le _ _)) by lia. done.
Qed.

(** Appending fails, without effect, or gives the next identifier and the page with the row. *)
Lemma append_tuple_run tuple s p : page_wf p → 0 < len tuple <= U32_MAX →
  append_tuple_with_state tuple s p =
  if can_fit p (len tuple) then (Some (next_tid p), appended tuple s p) else (None, p).
Proof.
  intros Hp Hn. unfold append_tuple_with_state. destruct (can_fit p (len tuple)) eqn:Hf.
  - destruct (append_checks p Hp _ Hn Hf) as (-> & -> & -> & -> & ->).
    rewrite <- (last_tid_appended tuple s p Hp Hf). done.
  - assert ((remaining p <? len tuple) || (MAX_CTID_OFFSET <=? len (line_pointers p)) = true) as ->; [|done].
    unfold can_fit in Hf. apply andb_false_iff in Hf as [Hf|Hf]; apply orb_true_iff; [left|right].
    + apply Z.leb_gt in Hf. by apply Z.ltb_lt.
    + apply Z.ltb_ge in Hf. by apply Z.leb_le.
Qed.

(** The bytes hold the values of the input. *)
Definition encodes `{Target} (mem : Z → Z) (input : RowInput) (bytes : list Z) : Prop :=
  ∀ tid, decode_tuple tid bytes = Some {| dt_tid := tid; dt_values := attr_datum mem <$> in_attrs input |}.

Lemma append_input_run `{Target} mem input n s p :
  page_wf p → input_ok input → tuple_storage_len input = Ok n → 0 < n <= U32_MAX →
  if can_fit p n then
    ∃ bytes, len bytes = n ∧ encodes mem input bytes ∧
      append_input_tuple_with_state mem input n s p = (Ok (Some (next_tid p)), appended bytes s p)
  else append_input_tuple_with_state mem input n s p = (Ok None, p).
Proof.
  intros Hp Hok Hlen Hn. unfold append_input_tuple_with_state. destruct (can_fit p n) eqn:Hf.
  - destruct (append_checks p Hp _ Hn Hf) as (-> & -> & -> & -> & ->). destruct (append_room p Hp n Hn Hf) as [R1 R2].
    destruct (aligned_used_spec p Hp) as [Ha _]. pose proof (pwf_used _ Hp) as Hu.
    set (slice := take _ _).
    assert (Hs : len slice = n) by (unfold slice, len in *; rewrite length_take, length_drop; lia).
    destruct (tuple_roundtrip mem input n slice (mkTid 0 0) Hok Hlen Hs) as (bytes & Hw & Hb & _).
    exists bytes. split; [done|]. split.
    { intros tid. destruct (tuple_roundtrip mem input n slice tid Hok Hlen Hs) as (bytes' & Hw' & _ & Hd). congruence. }
    rewrite Hw. cbn [set_pg_bytes line_pointers set_pg_used]. rewrite <- Hb.
    assert (Hf' : can_fit p (len bytes) = true) by (by rewrite Hb).
    pose proof (last_tid_appended bytes s p Hp Hf') as El. unfold appended in El |- *.
    cbn [set_pg_bytes line_pointers set_pg_used] in *. by rewrite El.
  - assert ((remaining p <? n) || (MAX_CTID_OFFSET <=? len (line_pointers p)) = true) as ->; [|done].
    unfold can_fit in Hf. apply andb_false_iff in Hf as [Hf|Hf]; apply orb_true_iff; [left|right].
    + apply Z.leb_gt in Hf. by apply Z.ltb_lt.
    + apply Z.ltb_ge in Hf. by apply Z.leb_le.
Qed.

(** ** Checkpoints *)

(** New states for the lines, with recomputed statistics. *)
Lemma restate_spec p ls : page_wf p →
  Forall2 (λ l k, lp_offset k = lp_offset l ∧ lp_len k = lp_len l) (line_pointers p) ls →
  let p' := recompute_tuple_bytes (set_line_pointers ls p) in
  page_wf p' ∧ pg_block p' = pg_block p ∧ line_pointers p' = ls ∧
  ∀ offset, page_row p' offset =
    row ← page_row p offset; l ← ls !! Z.to_nat (offset - 1); Some (lp_state l, row.2).
Proof.
  intros Hp Hl. cbv zeta. pose proof (pwf_room _ Hp). pose proof (pwf_used _ Hp). pose proof (pwf_capacity _ Hp).
  assert (Hs : sum_of lp_len ls = sum_of lp_len (line_pointers p)).
  { clear -Hl. induction Hl as [|l k ls ls' [E1 E2] Hl IH]; simpl; [done|]. lia. }
  destruct (recompute_tuple_bytes_spec (set_line_pointers ls p)) as (E1 & E2 & E3 & E4 & E5).
  { pose proof (pwf_lines _ Hp) as Hw. cbn [line_pointers set_line_pointers]. clear -Hl Hw.
    induction Hl as [|l k ls ls' [E1 E2] Hl IH]; [done|]. apply Forall_cons in Hw as [(_ & _ & Hw & _) Hw'].
    constructor; [lia|by apply IH]. }
  { cbn [line_pointers set_line_pointers]. unfold USIZE_MAX. change (2 ^ 32) with 4294967296 in *. lia. }
  cbn [line_pointers set_line_pointers pg_block pg_bytes pg_used] in *.
  split; [|split; [done|]; split; [done|]].
  - apply (page_wf_same_places p); [done..|by rewrite E4|]. intros s. by rewrite E4, E5.
  - intros offset. unfold page_row, page_line, checked_sub. rewrite E4.
    destruct (Z.leb_spec 1 offset); simpl; [|done].
    destruct (line_pointers p !! Z.to_nat (offset - 1)) as [l|] eqn:El; simpl.
    + destruct (Forall2_lookup_l _ _ _ _ _ Hl El) as (k & -> & F1 & F2). simpl.
      assert (line_bytes (recompute_tuple_bytes (set_line_pointers ls p)) k = line_bytes p l) as ->
        by (unfold line_bytes; by rewrite E2, F1, F2).
      by destruct (line_bytes p l).
    + apply lookup_ge_None in El. rewrite lookup_ge_None_2; [done|]. by rewrite <- (Forall2_length _ _ _ Hl).
Qed.

Lemma same_places_refl ls : Forall2 (λ l k : LinePointer, lp_offset k = lp_offset l ∧ lp_len k = lp_len l) ls ls.
Proof. by apply Forall_Forall2_diag, Forall_true. Qed.

Lemma same_places_dead ls :
  Forall2 (λ l k : LinePointer, lp_offset k = lp_offset l ∧ lp_len k = lp_len l) ls (set_lp_state LDead <$> ls).
Proof. induction ls; simpl; constructor; done. Qed.

Lemma assign_states_places states ls :
  Forall2 (λ l k : LinePointer, lp_offset k = lp_offset l ∧ lp_len k = lp_len l) ls (assign_states states ls).
Proof.
  revert ls. induction states as [|s states IH]; intros [|l ls]; simpl; try constructor; try done.
  apply same_places_refl.
Qed.

Lemma restore_wf c p : page_wf p →
  page_wf (restore_to_preserving_tid_space c p) ∧ pg_block (restore_to_preserving_tid_space c p) = pg_block p.
Proof.
  intros Hp. unfold restore_to_preserving_tid_space. set (n := Z.to_nat _).
  set (kept := match pc_line_states c with [] => _ | _ => _ end).
  destruct (restate_spec p (kept ++ (set_lp_state LDead <$> drop n (line_pointers p))) Hp) as (H1 & H2 & _); [|done].
  rewrite <- (take_drop n (line_pointers p)) at 1. apply Forall2_app; [|apply same_places_dead].
  unfold kept. destruct (pc_line_states c); [apply same_places_refl|apply assign_states_places].
Qed.

(** Going back to a checkpoint leaves the rows of that time alone and kills the later ones. *)
Lemma restore_rows n p offset c : page_wf p → pc_line_states c = [] → pc_line_count c = n → 0 <= n →
  page_row (restore_to_preserving_tid_space c p) offset =
  if decide (offset <= n) then page_row p offset else (λ row, (LDead, row.2)) <$> page_row p offset.
Proof.
  intros Hp Hs Hn H0. unfold restore_to_preserving_tid_space. rewrite Hs, Hn. set (k := Z.to_nat _).
  destruct (restate_spec p (take k (line_pointers p) ++ (set_lp_state LDead <$> drop k (line_pointers p))) Hp)
    as (_ & _ & _ & ->).
  { rewrite <- (take_drop k (line_pointers p)) at 1. apply Forall2_app; [apply same_places_refl|apply same_places_dead]. }
  destruct (page_row p offset) as [[s b]|] eqn:Er; simpl; [|by case_decide].
  destruct (page_row_some p Hp offset s b Er) as (l & Hl & <- & _).
  pose proof (page_line_bound _ _ _ Hl) as Hb. apply page_line_lookup in Hl as [Ho Hl]. unfold len in *.
  case_decide.
  - rewrite lookup_app_l by (rewrite length_take; lia). rewrite lookup_take_lt by lia. rewrite Hl. done.
  - rewrite lookup_app_r by (rewrite length_take; lia). rewrite list_lookup_fmap, lookup_drop, length_take.
    replace (k + (Z.to_nat (offset - 1) - k `min` length (line_pointers p)))%nat with (Z.to_nat (offset - 1)) by lia.
    rewrite Hl. done.
Qed.

Lemma mark_all_dead_spec p : page_wf p →
  page_wf (mark_all_dead p) ∧ pg_block (mark_all_dead p) = pg_block p ∧
  ∀ offset, page_row (mark_all_dead p) offset = (λ row, (LDead, row.2)) <$> page_row p offset.
Proof.
  intros Hp. unfold mark_all_dead.
  destruct (restate_spec p (set_lp_state LDead <$> line_pointers p) Hp) as (H1 & H2 & _ & H3); [apply same_places_dead|].
  split; [done|]. split; [done|]. intros offset. rewrite H3.
  destruct (page_row p offset) as [[s b]|] eqn:Er; simpl; [|done].
  destruct (page_row_some p Hp offset s b Er) as (l & [Ho Hl]%page_line_lookup & <- & _).
  by rewrite list_lookup_fmap, Hl.
Qed.
