(* ===== verification/EngRelationProofs.v ===== *)
(** * Relations keep their rows and count them

    A well-formed relation has well-formed pages, each at its block, and its
    summaries (live rows, blocks, blocks with room, statistics of live and dead
    rows) agree with the pages.  The operations of EngRelation keep that; they
    are described by their effect on [rows], the state and the bytes of the row
    at an identifier.

    The counter of live rows is the number of identifiers in the set of live
    rows, and counting all rows again gives the summaries that the operations
    keep up to date. *)

From Stdlib Require Import ZArith Lia.
From stdpp Require Import base tactics numbers list gmap strings sorting.
From S2P Require Import Prelude RustStd EngTid EngTuple EngPage EngIndex EngRelation EngTupleProofs EngPageProofs.

Local Open Scope Z_scope.

(** * Relations keep their rows *)

Definition rows (r : RelationStorage) (t : Tid) : option (LinePointerState * list Z) :=
  if 0 <=? tid_block t then p ← page r (tid_block t); page_row p (tid_offset t) else None.

(** ** Sums over the pages *)

Definition state_one (s : LinePointerState) (l : LinePointer) : Z := if decide (lp_state l = s) then 1 else 0.

Definition page_total (f : LinePointer → Z) (op : option Page) : Z :=
  match op with Some p => sum_of f (line_pointers p) | None => 0 end.
Definition pages_total (f : LinePointer → Z) (ps : list (option Page)) : Z := sum_of (page_total f) ps.

Definition rel_count (s : LinePointerState) (r : RelationStorage) : Z :=
  match s with LPending => pending_tuple_count r | LLive => live_tuple_count r | LDead => dead_tuple_count r end.
Definition rel_bytes (s : LinePointerState) (r : RelationStorage) : Z :=
  match s with LPending => pending_tuple_bytes r | LLive => live_tuple_bytes r | LDead => dead_tuple_bytes r end.

Definition pages_wf (ps : list (option Page)) : Prop :=
  ∀ b p, ps !! b = Some (Some p) → pg_block p = Z.of_nat b ∧ page_wf p.

(** ** The invariant *)

Record rel_wf (r : RelationStorage) : Prop := {
  rwf_pages : pages_wf (pages r);
  rwf_next : len (pages r) <= next_block r <= U32_MAX;
  rwf_blocks : ∀ b, b ∈ physical_blocks r ↔ 0 <= b ∧ is_Some (page r b);
  rwf_appendable : ∀ b, b ∈ appendable_blocks r ↔ 0 <= b ∧ block_accepts r 1 b = true;
  rwf_hint : ∀ b, append_hint r = Some b → b ∈ appendable_blocks r;
  rwf_live : ∀ t, t ∈ live_tids r ↔ ∃ bytes, rows r t = Some (LLive, bytes);
  rwf_count : ∀ s, s ≠ LPending → rel_count s r = pages_total (state_one s) (pages r);
  rwf_bytes : ∀ s, s ≠ LPending → rel_bytes s r = pages_total (state_len s) (pages r);
}.

Lemma relation_default_wf : rel_wf relation_default.
Proof.
  split; cbn [relation_default pages physical_blocks appendable_blocks append_hint live_tids].
  - intros b p E. by rewrite lookup_nil in E.
  - done.
  - intros b. split; [set_solver|]. intros [_ [p Hp]]. unfold page in Hp. cbn [relation_default pages] in Hp.
    rewrite lookup_nil in Hp. by destruct (0 <=? b).
  - intros b. split; [set_solver|]. intros [_ Hb]. unfold block_accepts, page in Hb. cbn [relation_default pages] in Hb.
    rewrite lookup_nil in Hb. by destruct (0 <=? b).
  - done.
  - intros t. split; [set_solver|]. intros [bytes Hb]. unfold rows, page in Hb. cbn [relation_default pages] in Hb.
    rewrite lookup_nil in Hb. by destruct (0 <=? tid_block t).
  - by intros [].
  - by intros [].
Qed.

(** What the invariant and the rows depend on. *)
Definition core (r : RelationStorage) :=
  (pages r, physical_blocks r, appendable_blocks r, append_hint r, max_tuples_per_block r, next_block r, live_tids r,
   (live_tuple_count r, dead_tuple_count r, live_tuple_bytes r, dead_tuple_bytes r)).

Lemma core_wf r r' : core r' = core r → rel_wf r → rel_wf r'.
Proof.
  unfold core. intros [= E1 E2 E3 E4 E5 E6 E7 E8 E9 E10 E11] [W1 W2 W3 W4 W5 W6 W7 W8].
  assert (Ep : ∀ b, page r' b = page r b) by (intros b; unfold page; by rewrite E1).
  split; rewrite ?E1, ?E2, ?E3, ?E4, ?E6, ?E7; try done.
  - intros b. by rewrite Ep.
  - intros b. unfold block_accepts, page_can_accept_tuple in *. rewrite Ep, E5. apply W4.
  - intros t. unfold rows in *. rewrite Ep. apply W6.
  - intros s Hs. rewrite <- W7 by done. by destruct s; simpl.
  - intros s Hs. rewrite <- W8 by done. by destruct s; simpl.
Qed.

Lemma rows_pages r r' : pages r' = pages r → rows r' = rows r.
Proof. intros E. unfold rows, page. by rewrite E. Qed.

(** ** Reading *)

Lemma rel_tuple_slice_rows r t include_pending : rel_tuple_slice r t include_pending = shown include_pending (rows r t).
Proof.
  unfold rel_tuple_slice, rows. destruct (0 <=? tid_block t) eqn:E; [|unfold page; by rewrite E].
  destruct (page r (tid_block t)) as [p|]; simpl; [|done]. apply page_tuple_slice_row.
Qed.

Lemma rows_block r t row : rows r t = Some row → 0 <= tid_block t ∧ is_Some (page r (tid_block t)).
Proof.
  unfold rows. destruct (Z.leb_spec 0 (tid_block t)); [|done]. destruct (page r (tid_block t)); [|done]. eauto.
Qed.

Lemma page_lookup r b p : page r b = Some p → pages r !! Z.to_nat b = Some (Some p).
Proof. unfold page. destruct (0 <=? b); [|done]. destruct (pages r !! Z.to_nat b) as [[q|]|]; simpl; naive_solver. Qed.
Lemma page_lookup_2 r b p : 0 <= b → pages r !! Z.to_nat b = Some (Some p) → page r b = Some p.
Proof. intros Hb E. unfold page. by rewrite (proj2 (Z.leb_le _ _) Hb), E. Qed.

Lemma block_nonneg r b p : page r b = Some p → 0 <= b.
Proof. unfold page. by destruct (Z.leb_spec 0 b). Qed.
Lemma rows_page r t : rows r t = p ← page r (tid_block t); page_row p (tid_offset t).
Proof. unfold rows. destruct (0 <=? tid_block t) eqn:E; [done|]. unfold page. by rewrite E. Qed.

Lemma page_wf_of r b p : rel_wf r → 0 <= b → page r b = Some p → pg_block p = b ∧ page_wf p.
Proof.
  intros Hr Hb Hp%page_lookup. apply (rwf_pages _ Hr) in Hp as [H1 H2]. split; [lia|done].
Qed.

Lemma page_bound r b p : rel_wf r → 0 <= b → page r b = Some p → b < next_block r.
Proof.
  intros Hr Hb Hp%page_lookup. apply lookup_lt_Some in Hp. pose proof (rwf_next _ Hr). unfold len in *. lia.
Qed.

Lemma page_beyond r b : rel_wf r → next_block r <= b → page r b = None.
Proof.
  intros Hr Hb. destruct (page r b) as [p|] eqn:E; [|done].
  pose proof (rwf_next _ Hr). pose proof (len_nonneg (pages r)). pose proof (page_bound r b p Hr ltac:(lia) E). lia.
Qed.

Lemma rows_tid_wf r t row : rel_wf r → rows r t = Some row → tid_wf t ∧ 1 <= tid_offset t <= MAX_CTID_OFFSET.
Proof.
  intros Hr Hrow. unfold rows in Hrow. destruct (Z.leb_spec 0 (tid_block t)) as [Hb|]; [|done].
  destruct (page r (tid_block t)) as [p|] eqn:Ep; [|done]. simpl in Hrow.
  destruct (page_wf_of _ _ _ Hr Hb Ep) as [Eb Hp]. destruct row as [s bytes].
  destruct (page_row_some p Hp _ _ _ Hrow) as (l & Hl & _). pose proof (page_line_bound _ _ _ Hl) as Ho.
  pose proof (pwf_count _ Hp). pose proof (pwf_block _ Hp) as Hu. rewrite Eb in Hu.
  unfold tid_wf, MAX_CTID_OFFSET in *. change (2 ^ 16) with 65536. split; [split; [done|lia]|lia].
Qed.

(** ** Bounds of the statistics *)

Lemma pages_total_insert f ps b op p : ps !! b = Some op →
  pages_total f (<[b := p]> ps) = pages_total f ps - page_total f op + page_total f p.
Proof. apply sum_of_insert. Qed.

Lemma state_one_bound p s : page_wf p → 0 <= sum_of (state_one s) (line_pointers p) <= MAX_CTID_OFFSET.
Proof.
  intros Hp. pose proof (pwf_count _ Hp) as Hc. split.
  - apply sum_of_nonneg, Forall_true. intros l. unfold state_one. by case_decide.
  - etrans; [|exact Hc]. clear. induction (line_pointers p) as [|l ls IH]; [done|]. rewrite len_cons. simpl.
    unfold state_one at 1. case_decide; lia.
Qed.

Lemma pages_total_bound (f : LinePointer → Z) n ps : 0 <= n →
  (∀ b p, ps !! b = Some (Some p) → 0 <= sum_of f (line_pointers p) <= n) →
  0 <= pages_total f ps <= len ps * n.
Proof.
  intros Hn. induction ps as [|op ps IH]; intros Hps; [done|]. rewrite len_cons. unfold pages_total in *. cbn [sum_of foldr].
  fold (sum_of (page_total f) ps). assert (0 <= sum_of (page_total f) ps <= len ps * n).
  { apply IH. intros b p E. apply (Hps (S b) p E). }
  destruct op as [p|]; cbn [page_total]; [pose proof (Hps 0%nat p eq_refl)|]; lia.
Qed.

Lemma count_bound s ps : pages_wf ps → len ps <= U32_MAX → 0 <= pages_total (state_one s) ps < 2 ^ 63.
Proof.
  intros Hps Hl. destruct (pages_total_bound (state_one s) MAX_CTID_OFFSET ps) as [H1 H2]; [done|..].
  { intros b p E. apply state_one_bound. apply (Hps b p E). }
  unfold MAX_CTID_OFFSET, U32_MAX in *. split; [done|]. change (2 ^ 63) with 9223372036854775808. lia.
Qed.

Lemma bytes_bound s ps : pages_wf ps → len ps <= U32_MAX → 0 <= pages_total (state_len s) ps <= USIZE_MAX.
Proof.
  intros Hps Hl. destruct (pages_total_bound (state_len s) (2 ^ 32) ps) as [H1 H2]; [done|..].
  { intros b p E. destruct (Hps b p E) as [_ Hp]. rewrite <- (pwf_stats _ Hp s). by apply state_bytes_bound. }
  unfold U32_MAX, USIZE_MAX in *. change (2 ^ 32) with 4294967296 in *. lia.
Qed.

(** ** Changing a page *)

Lemma page_mut_page b f r b' : 0 <= b → 0 <= b' →
  page (page_mut b f r) b' = if decide (b' = b) then f <$> page r b else page r b'.
Proof.
  intros Hb Hb'. unfold page, page_mut. cbn [pages set_pages]. rewrite !(proj2 (Z.leb_le _ _)) by done. case_decide as E.
  - subst. rewrite list_lookup_alter_eq. by destruct (pages r !! Z.to_nat b) as [[p|]|].
  - by rewrite list_lookup_alter_ne by lia.
Qed.

Lemma page_mut_pages b f r p : page r b = Some p → pages (page_mut b f r) = <[Z.to_nat b := Some (f p)]> (pages r).
Proof.
  intros Hp%page_lookup. unfold page_mut. cbn [pages set_pages]. apply list_eq. intros i.
  destruct (decide (i = Z.to_nat b)) as [->|].
  - rewrite list_lookup_alter_eq, Hp. rewrite list_lookup_insert_eq; [done|]. by eapply lookup_lt_Some.
  - by rewrite list_lookup_alter_ne, list_lookup_insert_ne by done.
Qed.

Lemma page_insert r r' b p p' b' : page r b = Some p → 0 <= b → 0 <= b' →
  pages r' = <[Z.to_nat b := Some p']> (pages r) →
  page r' b' = if decide (b' = b) then Some p' else page r b'.
Proof.
  intros Hp%page_lookup Hb Hb' E. unfold page. rewrite E, (proj2 (Z.leb_le _ _)) by done. case_decide as Eb.
  - subst. rewrite list_lookup_insert_eq; [done|]. by eapply lookup_lt_Some.
  - by rewrite list_lookup_insert_ne by lia.
Qed.

Lemma rows_insert r r' b p p' t : page r b = Some p → 0 <= b →
  pages r' = <[Z.to_nat b := Some p']> (pages r) →
  rows r' t = if decide (tid_block t = b) then page_row p' (tid_offset t) else rows r t.
Proof.
  intros Hp Hb E. unfold rows. destruct (Z.leb_spec 0 (tid_block t)).
  - rewrite (page_insert r r' b p p') by done. by case_decide.
  - rewrite decide_False by lia. done.
Qed.

(** One page is replaced by another of the same block. *)
Lemma rel_wf_page r r' b p p' : rel_wf r → 0 <= b → page r b = Some p → page_wf p' → pg_block p' = b →
  pages r' = <[Z.to_nat b := Some p']> (pages r) →
  next_block r' = next_block r → physical_blocks r' = physical_blocks r →
  (∀ b, b ∈ appendable_blocks r' ↔ 0 <= b ∧ block_accepts r' 1 b = true) →
  (∀ b, append_hint r' = Some b → b ∈ appendable_blocks r') →
  (∀ t, t ∈ live_tids r' ↔ ∃ bytes, rows r' t = Some (LLive, bytes)) →
  (∀ s, s ≠ LPending → rel_count s r' =
     clamp 0 USIZE_MAX (rel_count s r - sum_of (state_one s) (line_pointers p) + sum_of (state_one s) (line_pointers p'))) →
  (∀ s, s ≠ LPending → rel_bytes s r' =
     clamp 0 USIZE_MAX (rel_bytes s r - sum_of (state_len s) (line_pointers p) + sum_of (state_len s) (line_pointers p'))) →
  rel_wf r'.
Proof.
  intros Hr Hb Hp Hp' Eb Eps En Eph Ha Hh Hl Hc Hby. pose proof Hp as Hp0%page_lookup.
  assert (Hps : pages_wf (pages r')).
  { rewrite Eps. intros b' q Hq. destruct (decide (b' = Z.to_nat b)) as [->|].
    - rewrite list_lookup_insert_eq in Hq by (by eapply lookup_lt_Some). injection Hq as <-. split; [lia|done].
    - rewrite list_lookup_insert_ne in Hq by done. by apply (rwf_pages _ Hr). }
  assert (Elen : len (pages r') = len (pages r)) by (unfold len; by rewrite Eps, length_insert).
  pose proof (rwf_next _ Hr) as Hn.
  split; [done|by rewrite Elen, En| |done..| |].
  - intros b'. rewrite Eph, (rwf_blocks _ Hr). split; intros [H0 Hs]; (split; [done|]);
      rewrite (page_insert r r' b p p') in * by done; case_decide; subst; eauto.
  - intros s Hs. rewrite Hc by done. rewrite (rwf_count _ Hr) by done.
    pose proof (count_bound s (pages r') Hps) as Hbd. rewrite Eps, (pages_total_insert _ _ _ _ _ Hp0) in *.
    cbn [page_total] in *.
    assert (len (<[Z.to_nat b:=Some p']> (pages r)) <= U32_MAX) as Hx by (unfold len in *; rewrite length_insert; lia).
    specialize (Hbd Hx). unfold clamp, USIZE_MAX. change (2 ^ 63) with 9223372036854775808 in Hbd. lia.
  - intros s Hs. rewrite Hby by done. rewrite (rwf_bytes _ Hr) by done.
    pose proof (bytes_bound s (pages r') Hps) as Hbd. rewrite Eps, (pages_total_insert _ _ _ _ _ Hp0) in *.
    cbn [page_total] in *.
    assert (len (<[Z.to_nat b:=Some p']> (pages r)) <= U32_MAX) as Hx by (unfold len in *; rewrite length_insert; lia).
    specialize (Hbd Hx). unfold clamp. lia.
Qed.

(** Blocks take rows as before if the number of lines and the used bytes stay. *)
Lemma block_accepts_same r r' b p p' : rel_wf r → 0 <= b → page r b = Some p →
  pages r' = <[Z.to_nat b := Some p']> (pages r) → max_tuples_per_block r' = max_tuples_per_block r →
  pg_used p' = pg_used p → pg_bytes p' = pg_bytes p → length (line_pointers p') = length (line_pointers p) →
  ∀ n b', 0 <= b' → block_accepts r' n b' = block_accepts r n b'.
Proof.
  intros Hr Hb Hp Eps Em Eu Eby El n b' Hb'. unfold block_accepts. rewrite (page_insert r r' b p p') by done.
  case_decide; [subst; rewrite Hp|]; [|by destruct (page r b'); unfold page_can_accept_tuple; rewrite ?Em].
  unfold page_can_accept_tuple, can_fit, remaining, aligned_used, len. by rewrite Em, Eu, Eby, El.
Qed.

(** ** Lines *)

Lemma line_pointer_page r t : line_pointer r t = p ← page r (tid_block t); page_line p (tid_offset t).
Proof.
  unfold line_pointer, page_line. destruct (checked_sub (tid_offset t) 1); simpl; [done|].
  by destruct (page r (tid_block t)).
Qed.

(** No page comes to a block that has been given out and has none. *)
Record extends (r r' : RelationStorage) : Prop := {
  ext_next : next_block r <= next_block r';
  ext_pages : ∀ b, 0 <= b < next_block r → page r b = None → page r' b = None;
}.
#[global] Instance extends_preorder : PreOrder extends.
Proof.
  split.
  - intros r. split; [lia|done].
  - intros r1 r2 r3 [H1 H2] [H3 H4]. split; [lia|]. intros b Hb E. apply H4; [lia|by apply H2].
Qed.

Lemma extends_core r r' : core r' = core r → extends r r'.
Proof.
  unfold core. intros [= E1 E2 E3 E4 E5 E6 E7 E8 E9 E10 E11]. split; [lia|]. intros b _. unfold page. by rewrite E1.
Qed.

Lemma extends_page r r' b p p' : page r b = Some p → 0 <= b → next_block r' = next_block r →
  pages r' = <[Z.to_nat b := Some p']> (pages r) → extends r r'.
Proof.
  intros Hp Hb En Eps. split; [lia|]. intros b' Hb' E. rewrite (page_insert r r' b p p') by (done || lia).
  rewrite decide_False; [done|]. intros ->. congruence.
Qed.

Lemma line_pointer_mut_spec r t f : rel_wf r → keeps_row f →
  let r' := snd (line_pointer_mut t f r) in rel_wf r' ∧ (∀ t', rows r' t' = rows r t') ∧ extends r r'.
Proof.
  intros Hr Hf. cbv zeta. unfold line_pointer_mut. rewrite line_pointer_page.
  destruct (page r (tid_block t)) as [p|] eqn:Ep; simpl; [|done]. pose proof (block_nonneg _ _ _ Ep) as Hb.
  destruct (page_line p (tid_offset t)) as [l|] eqn:El; simpl; [|done].
  destruct (page_wf_of _ _ _ Hr Hb Ep) as [Eb Hp]. pose proof (page_line_bound _ _ _ El) as Ho.
  destruct (update_line_spec (tid_offset t) f p Hp Hf ltac:(lia)) as [Hp' Hrow].
  set (r' := page_mut _ _ r). pose proof (page_mut_pages (tid_block t) (update_line (tid_offset t) f) r p Ep) as Eps. fold r' in Eps.
  assert (Erows : ∀ t', rows r' t' = rows r t').
  { intros t'. rewrite (rows_insert r r' _ _ _ _ Ep Hb Eps). case_decide as E; [|done]. rewrite Hrow. unfold rows.
    rewrite E, (proj2 (Z.leb_le _ _)), Ep by done. done. }
  pose proof (update_line_lines (tid_offset t) f p l El) as Ell. pose proof El as [_ El']%page_line_lookup.
  assert (Hsum : ∀ g : LinePointer → Z, g (f l) = g l →
    sum_of g (line_pointers (update_line (tid_offset t) f p)) = sum_of g (line_pointers p)).
  { intros g Hg. rewrite Ell, (sum_of_insert _ _ _ _ _ El'), Hg. lia. }
  destruct Hf as [Hpl Hst]. destruct (Hpl l) as [_ Hlen].
  split; [|split; [done|]]; [|by eapply extends_page].
  eapply (rel_wf_page r r' (tid_block t) p); try done.
  - intros b. change (appendable_blocks r') with (appendable_blocks r). rewrite (rwf_appendable _ Hr).
    assert (Hacc : ∀ b, 0 <= b → block_accepts r' 1 b = block_accepts r 1 b)
      by (eapply (block_accepts_same r r'); try done; by rewrite Ell, length_insert).
    split; intros [H0 Ha]; (split; [done|]); by rewrite Hacc in *.
  - apply (rwf_hint _ Hr).
  - intros t'. rewrite Erows. apply (rwf_live _ Hr).
  - intros s Hs. rewrite Hsum by (unfold state_one; by rewrite Hst).
    pose proof (count_bound s _ (rwf_pages _ Hr)) as Hc. pose proof (rwf_next _ Hr).
    rewrite <- (rwf_count _ Hr) in Hc by done. change (2 ^ 63) with 9223372036854775808 in Hc.
    change (rel_count s r') with (rel_count s r). unfold clamp, USIZE_MAX. lia.
  - intros s Hs. rewrite Hsum by (unfold state_len; by rewrite Hst, Hlen).
    pose proof (bytes_bound s _ (rwf_pages _ Hr)) as Hc. pose proof (rwf_next _ Hr).
    rewrite <- (rwf_bytes _ Hr) in Hc by done.
    change (rel_bytes s r') with (rel_bytes s r). unfold clamp. lia.
Qed.

(** ** Moving a row to another state *)

Lemma rel_move_spec r r' t p l s' : rel_wf r → 0 <= tid_block t → page r (tid_block t) = Some p →
  page_line p (tid_offset t) = Some l → lp_state l ≠ s' →
  pages r' = <[Z.to_nat (tid_block t) := Some (move_line (tid_offset t) (lp_state l) s' (lp_len l) p)]> (pages r) →
  (next_block r', physical_blocks r', appendable_blocks r', append_hint r', max_tuples_per_block r') =
    (next_block r, physical_blocks r, appendable_blocks r, append_hint r, max_tuples_per_block r) →
  live_tids r' = (if decide (s' = LLive) then {[t]} ∪ live_tids r else live_tids r ∖ {[t]}) →
  (∀ s, s ≠ LPending → rel_count s r' = clamp 0 USIZE_MAX
    (rel_count s r - (if decide (s = lp_state l) then 1 else 0) + (if decide (s = s') then 1 else 0))) →
  (∀ s, s ≠ LPending → rel_bytes s r' = clamp 0 USIZE_MAX
    (rel_bytes s r - (if decide (s = lp_state l) then lp_len l else 0) + (if decide (s = s') then lp_len l else 0))) →
  rel_wf r' ∧ extends r r' ∧
  ∀ t', rows r' t' = if decide (t' = t) then (λ row, (s', row.2)) <$> rows r t else rows r t'.
Proof.
  intros Hr Hb Ep El Hne Eps Ef Hlive Hc Hby. injection Ef as E1 E2 E3 E4 E5.
  destruct (page_wf_of _ _ _ Hr Hb Ep) as [Eb Hp].
  destruct (move_line_spec (tid_offset t) s' p l Hp El Hne) as (Hp' & F1 & F2 & F3 & F4 & Hrow).
  set (p' := move_line _ _ _ _ _) in *.
  assert (Erows : ∀ t', rows r' t' = if decide (t' = t) then (λ row, (s', row.2)) <$> rows r t else rows r t').
  { intros t'. rewrite (rows_insert r r' _ _ _ _ Ep Hb Eps). destruct t as [b o], t' as [b' o']. simpl in *.
    destruct (decide (b' = b)) as [->|].
    - rewrite Hrow. unfold rows. simpl. rewrite (proj2 (Z.leb_le _ _)), Ep by done. simpl.
      destruct (decide (o' = o)) as [->|].
      + by rewrite decide_True.
      + rewrite decide_False; [done|congruence].
    - rewrite decide_False; [done|congruence]. }
  pose proof El as [_ El']%page_line_lookup.
  assert (Hrt : ∃ bytes, rows r t = Some (lp_state l, bytes)).
  { destruct (page_row_line p Hp _ _ El) as (bytes & Hbt & _). exists bytes. unfold rows.
    rewrite (proj2 (Z.leb_le _ _)), Ep by done. done. }
  destruct Hrt as [bytes Hrt].
  split; [|split; [|done]]; [|by eapply extends_page].
  eapply (rel_wf_page r r' (tid_block t) p p'); try done; [congruence|..].
  - intros b. rewrite E3, (rwf_appendable _ Hr).
    assert (Hacc : ∀ b, 0 <= b → block_accepts r' 1 b = block_accepts r 1 b)
      by (eapply (block_accepts_same r r'); try done; by rewrite F4, length_insert).
    split; intros [H0 Ha]; (split; [done|]); by rewrite Hacc in *.
  - intros b. rewrite E4, E3. apply (rwf_hint _ Hr).
  - intros t'. rewrite Erows, Hrt. rewrite Hlive. simpl. destruct (decide (s' = LLive)) as [->|Hs].
    + rewrite elem_of_union, elem_of_singleton, (rwf_live _ Hr). case_decide; [subst; split; [eauto|by left]|].
      split; [by intros [->|?]|by right].
    + rewrite elem_of_difference, elem_of_singleton, (rwf_live _ Hr). case_decide; [|tauto].
      subst. split; [by intros [_ []]|by intros [? [= ? ?]]].
  - intros s Hs. rewrite Hc by done. rewrite F4, (sum_of_insert _ _ _ _ _ El'). unfold state_one at 3 4.
    cbn [lp_state set_lp_state]. f_equal. repeat case_decide; subst; try congruence; lia.
  - intros s Hs. rewrite Hby by done. rewrite F4, (sum_of_insert _ _ _ _ _ El'). unfold state_len at 3 4.
    cbn [lp_state lp_len set_lp_state]. f_equal. repeat case_decide; subst; try congruence; lia.
Qed.

Lemma rel_count_nonneg r s : rel_wf r → s ≠ LPending → 0 <= rel_count s r < 2 ^ 63 ∧ 0 <= rel_bytes s r <= USIZE_MAX.
Proof.
  intros Hr Hs. pose proof (rwf_next _ Hr). rewrite (rwf_count _ Hr), (rwf_bytes _ Hr) by done.
  split; [apply count_bound|apply bytes_bound]; try apply (rwf_pages _ Hr); lia.
Qed.

(** Can the row be marked dead, and live? *)
Definition undead (row : option (LinePointerState * list Z)) : bool :=
  match row with Some (LPending, _) | Some (LLive, _) => true | _ => false end.
Definition awaited (row : option (LinePointerState * list Z)) : bool :=
  match row with Some (LPending, _) => true | _ => false end.

Lemma rel_mark_dead_spec r t : rel_wf r →
  let '(dead, r') := rel_mark_dead t r in
  rel_wf r' ∧ extends r r' ∧ dead = undead (rows r t) ∧
  ∀ t', rows r' t' = if decide (t' = t) then (λ row, (LDead, row.2)) <$> rows r t else rows r t'.
Proof.
  intros Hr. unfold rel_mark_dead. pose proof (rows_page r t) as Hrt.
  assert (Hnone : rows r t = None → rel_wf r ∧ extends r r ∧ false = undead (rows r t) ∧
    ∀ t', rows r t' = if decide (t' = t) then (λ row, (LDead, row.2)) <$> rows r t else rows r t').
  { intros E. split; [done|]. split; [done|]. split; [by rewrite E|].
    intros t'. case_decide; [|done]. subst. by rewrite E. }
  destruct (page r (tid_block t)) as [p|] eqn:Ep; [|by apply Hnone]. simpl in Hrt. pose proof (block_nonneg _ _ _ Ep) as Hb.
  destruct (page_line p (tid_offset t)) as [l|] eqn:El; [|apply Hnone; rewrite Hrt; unfold page_row; by rewrite El].
  destruct (page_wf_of _ _ _ Hr Hb Ep) as [Eb Hp]. destruct (page_row_line p Hp _ _ El) as (bytes & Hrow & _).
  rewrite Hrow in Hrt. clear Hnone. rewrite page_mark_dead_eq, El.
  destruct (decide (lp_state l = LDead)) as [Ed|Ed]; simpl.
  { split; [done|]. split; [done|]. rewrite Hrt, Ed. split; [done|].
    intros t'. case_decide; [|done]. subst. by rewrite Hrt, Ed. }
  pose proof (page_mut_pages (tid_block t) (λ p, (page_mark_dead (tid_offset t) p).2) r p Ep) as Eps.
  cbv beta in Eps. rewrite page_mark_dead_eq, El, decide_False in Eps by done. cbn [snd] in Eps.
  set (r0 := page_mut _ _ _) in *.
  assert (Hd : true = undead (rows r t)) by (rewrite Hrt; by destruct (lp_state l)).
  destruct (rel_count_nonneg r LLive Hr ltac:(done)) as [C1 C2]. destruct (rel_count_nonneg r LDead Hr ltac:(done)) as [C3 C4].
  cbn [rel_count rel_bytes] in *. pose proof (page_line_wf p Hp _ _ El) as (_ & _ & Hlen & _).
  change (2 ^ 63) with 9223372036854775808 in *.
  destruct (lp_state l) eqn:Es; [| |done].
  - match goal with |- rel_wf ?x ∧ _ => set (r' := x) end.
    destruct (rel_move_spec r r' t p l LDead) as (H1 & H2 & H3);
      [done|done|done|done|by rewrite Es|by rewrite Es|done| | | |by auto].
    + rewrite decide_False by done. change (live_tids r') with (live_tids r). apply set_eq. intros t'.
      rewrite elem_of_difference, elem_of_singleton, (rwf_live _ Hr). split; [|tauto]. intros [b Hb'].
      split; [eauto|]. intros ->. congruence.
    + intros s Hs. destruct s; [done|..]; cbn [rel_count r' rel_add_stats rel_sub_stats]; unfold clamp, USIZE_MAX in *; rewrite Es; simpl.
      * change (live_tuple_count r') with (live_tuple_count r). lia.
      * change (dead_tuple_count r') with (saturating_add USIZE_MAX (dead_tuple_count r) 1). unfold saturating_add, USIZE_MAX. lia.
    + intros s Hs. destruct s; [done|..]; cbn [rel_bytes]; unfold clamp, USIZE_MAX in *; rewrite Es; simpl.
      * change (live_tuple_bytes r') with (live_tuple_bytes r). lia.
      * change (dead_tuple_bytes r') with (saturating_add USIZE_MAX (dead_tuple_bytes r) (lp_len l)). unfold saturating_add, USIZE_MAX. lia.
  - match goal with |- rel_wf ?x ∧ _ => set (r' := x) end.
    destruct (rel_move_spec r r' t p l LDead) as (H1 & H2 & H3);
      [done|done|done|done|by rewrite Es|by rewrite Es|done|done| | |by auto].
    + intros s Hs. destruct s; [done|..]; cbn [rel_count]; unfold clamp, USIZE_MAX in *; rewrite Es; simpl.
      * change (live_tuple_count r') with (saturating_sub (live_tuple_count r) 1). unfold saturating_sub. lia.
      * change (dead_tuple_count r') with (saturating_add USIZE_MAX (dead_tuple_count r) 1). unfold saturating_add, USIZE_MAX. lia.
    + intros s Hs. destruct s; [done|..]; cbn [rel_bytes]; unfold clamp, USIZE_MAX in *; rewrite Es; simpl.
      * change (live_tuple_bytes r') with (saturating_sub (live_tuple_bytes r) (lp_len l)). unfold saturating_sub. lia.
      * change (dead_tuple_bytes r') with (saturating_add USIZE_MAX (dead_tuple_bytes r) (lp_len l)). unfold saturating_add, USIZE_MAX. lia.
Qed.

Lemma rel_mark_live_spec r t : rel_wf r →
  let '(live, r') := rel_mark_live t r in
  rel_wf r' ∧ extends r r' ∧ live = awaited (rows r t) ∧
  ∀ t', rows r' t' = if decide (t' = t ∧ awaited (rows r t) = true) then (λ row, (LLive, row.2)) <$> rows r t else rows r t'.
Proof.
  intros Hr. unfold rel_mark_live. pose proof (rows_page r t) as Hrt.
  assert (Hnone : awaited (rows r t) = false → rel_wf r ∧ extends r r ∧ false = awaited (rows r t) ∧
    ∀ t', rows r t' = if decide (t' = t ∧ awaited (rows r t) = true) then (λ row, (LLive, row.2)) <$> rows r t else rows r t').
  { intros E. rewrite E. split; [done|]. split; [done|]. split; [done|].
    intros t'. by rewrite decide_False by naive_solver. }
  destruct (page r (tid_block t)) as [p|] eqn:Ep; [|apply Hnone; by rewrite Hrt]. simpl in Hrt. pose proof (block_nonneg _ _ _ Ep) as Hb.
  destruct (page_line p (tid_offset t)) as [l|] eqn:El; [|apply Hnone; rewrite Hrt; unfold page_row; by rewrite El].
  destruct (page_wf_of _ _ _ Hr Hb Ep) as [Eb Hp]. destruct (page_row_line p Hp _ _ El) as (bytes & Hrow & _).
  rewrite Hrow in Hrt. rewrite page_mark_live_eq, El.
  destruct (lp_state l) eqn:Es; [|apply Hnone; by rewrite Hrt..]. clear Hnone. simpl.
  pose proof (page_mut_pages (tid_block t) (λ p, (page_mark_live (tid_offset t) p).2) r p Ep) as Eps.
  cbv beta in Eps. rewrite page_mark_live_eq, El, decide_True in Eps by done. cbn [snd] in Eps.
  set (r0 := page_mut _ _ _) in *.
  destruct (rel_count_nonneg r LLive Hr ltac:(done)) as [C1 C2]. destruct (rel_count_nonneg r LDead Hr ltac:(done)) as [C3 C4].
  cbn [rel_count rel_bytes] in *. pose proof (page_line_wf p Hp _ _ El) as (_ & _ & Hlen & _).
  change (2 ^ 63) with 9223372036854775808 in *.
  match goal with |- rel_wf ?x ∧ _ => set (r' := x) end.
  destruct (rel_move_spec r r' t p l LLive) as (H1 & H2 & H3); [done|done|done|done|by rewrite Es|by rewrite Es|done|done|..].
  - intros s Hs. destruct s; [done|..]; cbn [rel_count]; unfold clamp, USIZE_MAX in *; rewrite Es; simpl.
    + change (live_tuple_count r') with (saturating_add USIZE_MAX (live_tuple_count r) 1). unfold saturating_add, USIZE_MAX. lia.
    + change (dead_tuple_count r') with (dead_tuple_count r). lia.
  - intros s Hs. destruct s; [done|..]; cbn [rel_bytes]; unfold clamp, USIZE_MAX in *; rewrite Es; simpl.
    + change (live_tuple_bytes r') with (saturating_add USIZE_MAX (live_tuple_bytes r) (lp_len l)). unfold saturating_add, USIZE_MAX. lia.
    + change (dead_tuple_bytes r') with (dead_tuple_bytes r). lia.
  - rewrite Hrt. simpl. split; [done|]. split; [done|]. split; [done|]. intros t'. rewrite H3, Hrt. simpl.
    destruct (decide (t' = t)) as [->|]; [by rewrite decide_True by done|]. by rewrite decide_False by tauto.
Qed.

(** ** Blocks with room *)

Lemma last_appendable_elem s b : last_appendable s = Some b → b ∈ s.
Proof.
  unfold last_appendable. intros E. apply (btree_iter_elem Z.le). apply last_Some in E as [l ->]. set_solver.
Qed.

Lemma refresh_appendable_spec r b : 0 <= b →
  (∀ b', b' ≠ b → b' ∈ appendable_blocks r ↔ 0 <= b' ∧ block_accepts r 1 b' = true) →
  let r' := refresh_appendable_block b r in
  (∀ b', b' ∈ appendable_blocks r' ↔ 0 <= b' ∧ block_accepts r' 1 b' = true) ∧
  (∀ b', append_hint r' = Some b' → b' ∈ appendable_blocks r').
Proof.
  intros Hb Hx. cbv zeta. split.
  - intros b'. change (block_accepts (refresh_appendable_block b r) 1 b') with (block_accepts r 1 b').
    unfold refresh_appendable_block. cbn [appendable_blocks set_append_hint set_appendable_blocks].
    destruct (decide (b' = b)) as [->|Hne].
    + destruct (block_accepts r 1 b) eqn:E; set_solver.
    + specialize (Hx b' Hne). destruct (block_accepts r 1 b); set_solver.
  - intros b' E. apply last_appendable_elem in E. done.
Qed.

Lemma recompute_appendable_spec r : (∀ b, b ∈ physical_blocks r ↔ 0 <= b ∧ is_Some (page r b)) →
  let r' := recompute_appendable_blocks r in
  (∀ b', b' ∈ appendable_blocks r' ↔ 0 <= b' ∧ block_accepts r' 1 b' = true) ∧
  (∀ b', append_hint r' = Some b' → b' ∈ appendable_blocks r').
Proof.
  intros Hph. cbv zeta. split; [|intros b' E; apply last_appendable_elem in E; done].
  intros b'. change (block_accepts (recompute_appendable_blocks r) 1 b') with (block_accepts r 1 b').
  unfold recompute_appendable_blocks. cbn [appendable_blocks set_append_hint set_appendable_blocks].
  assert (Hf : ∀ l (s : gset Z), b' ∈ foldl (λ (s : gset Z) block, if block_accepts r 1 block then {[block]} ∪ s else s) s l ↔
    b' ∈ s ∨ b' ∈ l ∧ block_accepts r 1 b' = true).
  { induction l as [|a l IH]; intros s; cbn [foldl]; [set_solver|]. rewrite IH, elem_of_cons.
    destruct (block_accepts r 1 a) eqn:Ea; [rewrite elem_of_union, elem_of_singleton|].
    - split; [intros [[->|?]|?]; tauto|]. intros [?|[[->|?] ?]]; tauto.
    - split; [tauto|]. intros [?|[[->|?] ?]]; [tauto|congruence|tauto]. }
  rewrite Hf, (btree_iter_elem Z.le), Hph. split; [set_solver|]. intros [H0 Ha]. right. split; [|done]. split; [done|].
  unfold block_accepts in Ha. destruct (page r b'); [eauto|done].
Qed.

(** ** New pages *)

Lemma insert_page_spec r p : rel_wf r → page_wf p → page r (pg_block p) = None → pg_block p < next_block r →
  Forall (λ l, lp_state l = LPending) (line_pointers p) →
  let r' := insert_page p r in
  rel_wf r' ∧ next_block r' = next_block r ∧
  (∀ b, 0 <= b → page r' b = if decide (b = pg_block p) then Some p else page r b) ∧
  ∀ t, rows r' t = if decide (tid_block t = pg_block p) then page_row p (tid_offset t) else rows r t.
Proof.
  intros Hr Hp Hnone Hlt Hpend. cbv zeta. set (r' := insert_page p r).
  destruct (pwf_block _ Hp) as [Hb _]. set (b := Z.to_nat (pg_block p)).
  assert (Hres : resize_to (S b) None (pages r) !! b = Some None).
  { rewrite resize_to_lookup. case_decide as Hd; [done|]. unfold page in Hnone.
    rewrite (proj2 (Z.leb_le _ _) Hb) in Hnone. fold b in Hnone.
    destruct (pages r !! b) as [[q|]|] eqn:E; [done..|]. apply lookup_ge_None in E. lia. }
  assert (Hpage : ∀ b', 0 <= b' → page r' b' = if decide (b' = pg_block p) then Some p else page r b').
  { intros b' Hb'. unfold page. change (pages r') with (<[b := Some p]> (resize_to (S b) None (pages r))).
    rewrite (proj2 (Z.leb_le _ _) Hb'). case_decide as E.
    - subst b'. fold b. rewrite list_lookup_insert_eq; [done|]. by eapply lookup_lt_Some.
    - rewrite list_lookup_insert_ne by lia. rewrite resize_to_lookup. case_decide; [|done].
      rewrite lookup_ge_None_2 by lia. done. }
  assert (Hrows : ∀ t, rows r' t = if decide (tid_block t = pg_block p) then page_row p (tid_offset t) else rows r t).
  { intros t. unfold rows. destruct (Z.leb_spec 0 (tid_block t)); [|rewrite decide_False by lia; done].
    rewrite Hpage by done. by case_decide. }
  assert (Htot : ∀ f, (∀ l, lp_state l = LPending → f l = 0) → pages_total f (pages r') = pages_total f (pages r)).
  { intros f Hf. change (pages r') with (<[b := Some p]> (resize_to (S b) None (pages r))).
    rewrite (pages_total_insert _ _ _ _ _ Hres). cbn [page_total].
    replace (sum_of f (line_pointers p)) with 0.
    - unfold resize_to. destruct (_ <? _)%nat; [|lia]. unfold pages_total. rewrite sum_of_app.
      assert (∀ n, sum_of (page_total f) (replicate n None) = 0) as -> by (induction n; simpl; lia). lia.
    - symmetry. clear -Hpend Hf. induction Hpend as [|l ls Hl _ IH]; simpl; [done|]. rewrite Hf by done. lia. }
  assert (Hacc : ∀ n b', 0 <= b' → b' ≠ pg_block p → block_accepts r' n b' = block_accepts r n b').
  { intros n b' Hb' Hne. unfold block_accepts. rewrite Hpage, decide_False by done. done. }
  split; [|done]. pose proof (rwf_next _ Hr) as Hn.
  destruct (refresh_appendable_spec (set_physical_blocks ({[pg_block p]} ∪ physical_blocks r)
    (set_pages (<[b := Some p]> (resize_to (S b) None (pages r))) r)) (pg_block p) Hb) as [A1 A2].
  { intros b' Hne. cbn [appendable_blocks set_physical_blocks set_pages]. rewrite (rwf_appendable _ Hr).
    split; intros [H0 Ha]; (split; [done|]); [rewrite <- Ha; by apply Hacc|rewrite <- Ha; symmetry; by apply Hacc]. }
  split; [..|exact A1|exact A2| | |].
  - intros b' q Hq. destruct (decide (b' = b)) as [->|Hne].
    + change (pages r') with (<[b := Some p]> (resize_to (S b) None (pages r))) in Hq.
      rewrite list_lookup_insert_eq in Hq by (by eapply lookup_lt_Some). injection Hq as <-. split; [lia|done].
    + change (pages r') with (<[b := Some p]> (resize_to (S b) None (pages r))) in Hq.
      rewrite list_lookup_insert_ne in Hq by done. rewrite resize_to_lookup in Hq. case_decide; [done|]. by apply (rwf_pages _ Hr).
  - change (next_block r') with (next_block r).
    change (pages r') with (<[b := Some p]> (resize_to (S b) None (pages r))). unfold len in *.
    rewrite length_insert, resize_to_length. lia.
  - intros b'. change (physical_blocks r') with ({[pg_block p]} ∪ physical_blocks r).
    rewrite elem_of_union, elem_of_singleton, (rwf_blocks _ Hr). split.
    + intros [->|[H0 H1]]; [split; [done|]; rewrite Hpage, decide_True by done; eauto|]. split; [done|].
      rewrite Hpage by done. case_decide; eauto.
    + intros [H0 H1]. rewrite Hpage in H1 by done. case_decide; [by left|by right].
  - intros t. change (live_tids r') with (live_tids r). rewrite (rwf_live _ Hr), Hrows. case_decide as E; [|done].
    split.
    + intros [bytes Hby]. destruct (rows_block _ _ _ Hby) as [_ [q Hq]]. rewrite E in Hq. congruence.
    + intros [bytes Hby]. destruct (page_row_some p Hp _ _ _ Hby) as (l & [_ Hl]%page_line_lookup & Es & _).
      pose proof (Forall_lookup_1 _ _ _ _ Hpend Hl) as Es'. cbv beta in Es'. congruence.
  - intros s Hs. rewrite Htot; [by apply (rwf_count _ Hr)|]. intros l El. unfold state_one. rewrite decide_False; congruence.
  - intros s Hs. rewrite Htot; [by apply (rwf_bytes _ Hr)|]. intros l El. unfold state_len. rewrite decide_False; congruence.
Qed.

(** ** Appending *)

Lemma reserve_block_spec r : rel_wf r →
  match reserve_block r with
  | (None, r') => r' = r ∧ next_block r = U32_MAX
  | (Some b, r') => b = next_block r ∧ b < U32_MAX ∧ r' = set_next_block (b + 1) r ∧ rel_wf r'
  end.
Proof.
  intros Hr. unfold reserve_block, checked_add. pose proof (rwf_next _ Hr) as Hn.
  destruct (Z.leb_spec (next_block r + 1) U32_MAX); [|split; [done|lia]].
  split; [done|]. split; [lia|]. split; [done|]. destruct Hr. split; try done.
  cbn [pages set_next_block next_block]. lia.
Qed.

Lemma append_target_block_spec r n epoch generation : rel_wf r → 0 < n <= U32_MAX →
  match append_target_block n epoch generation r with
  | (None, r') => r' = r ∧ next_block r = U32_MAX
  | (Some b, r') => rel_wf r' ∧ extends r r' ∧ (∀ t, rows r' t = rows r t) ∧ 0 <= b ∧
                    (∃ p, page r' b = Some p ∧ can_fit p n = true) ∧
                    next_block r' <= next_block r + 1
  end.
Proof.
  intros Hr Hn. unfold append_target_block.
  assert (Hacc : ∀ b, block_accepts r n b = true → ∃ p, page r b = Some p ∧ can_fit p n = true).
  { intros b. unfold block_accepts, page_can_accept_tuple. destruct (page r b) as [p|]; [|done].
    intros [Hf _]%andb_true_iff. eauto. }
  destruct (append_hint r ≫= λ block, if block_accepts r n block then Some block else None) as [b|] eqn:Eh.
  { apply bind_Some in Eh as (b' & Hb' & Ha). destruct (block_accepts r n b') eqn:E; [|done]. injection Ha as ->.
    apply (rwf_hint _ Hr), (rwf_appendable _ Hr) in Hb' as [H0 _]. split; [done|]. split; [done|].
    split; [done|]. split; [done|]. split; [by apply Hacc|lia]. }
  destruct (List.find _ _) as [b|] eqn:Ef.
  { apply find_elem in Ef as [Hin Ha]. rewrite elem_of_reverse, (btree_iter_elem Z.le) in Hin.
    pose proof Hin as [H0 _]%(rwf_appendable _ Hr).
    assert (Hr' : rel_wf (set_append_hint (Some b) r)).
    { destruct Hr. split; try done. cbn [append_hint set_append_hint appendable_blocks]. by intros b' [= <-]. }
    split; [done|]. split; [split; [done|by intros]|]. split; [done|]. split; [done|]. split; [by apply Hacc|].
    cbn [next_block set_append_hint]. lia. }
  pose proof (reserve_block_spec r Hr) as Hres. destruct (reserve_block r) as [[b|] r0]; [|done].
  destruct Hres as (Eb & Hb & -> & Hr0). pose proof (rwf_next _ Hr) as Hnx. pose proof (len_nonneg (pages r)).
  destruct (page_new_wf b epoch generation n) as [Hp Hrem]; [unfold U32_MAX in *; mlia|unfold U32_MAX in *; mlia|].
  assert (Hnone : page r b = None) by (apply page_beyond; [done|lia]).
  destruct (insert_page_spec (set_next_block (b + 1) r) (page_new b epoch generation n) Hr0 Hp) as (Hr' & Hn' & Hpg & Hrw);
    [done|cbn [next_block set_next_block page_new pg_block]; lia|constructor|].
  cbn [page_new pg_block next_block set_next_block] in Hn', Hpg, Hrw.
  split; [done|]. split.
  { split; [lia|]. intros b' Hb' E. rewrite Hpg by lia. rewrite decide_False by lia. done. }
  split.
  { intros t. rewrite Hrw. case_decide as E; [|done]. rewrite page_new_row. unfold rows. rewrite E, Hnone.
    by destruct (0 <=? b). }
  split; [lia|]. split; [|lia]. eexists. rewrite Hpg, decide_True by lia. split; [done|].
  unfold can_fit. rewrite (proj2 (Z.leb_le _ _)) by done. done.
Qed.

Lemma rel_appended_spec r b p tuple : rel_wf r → 0 <= b → page r b = Some p → 0 < len tuple <= U32_MAX →
  can_fit p (len tuple) = true →
  let r' := note_appended b (len tuple) (appended tuple LPending p) (page_mut b (λ _, appended tuple LPending p) r) in
  rel_wf r' ∧ extends r r' ∧ next_block r' = next_block r ∧
  ∀ t, rows r' t = if decide (t = next_tid p) then Some (LPending, tuple) else rows r t.
Proof.
  intros Hr Hb Ep Hn Hf. cbv zeta. set (p' := appended tuple LPending p). set (r' := note_appended _ _ _ _).
  destruct (page_wf_of _ _ _ Hr Hb Ep) as [Eb Hp].
  destruct (appended_fields p (len tuple) Hn Hf tuple LPending eq_refl) as (F1 & F2 & F3 & F4). fold p' in F1, F2, F3, F4.
  pose proof (appended_wf p Hp (len tuple) Hn Hf tuple LPending eq_refl) as Hp'. fold p' in Hp'.
  pose proof (page_mut_pages b (λ _, p') r p Ep) as Eps. cbv beta in Eps.
  change (pages (page_mut b (λ _, p') r)) with (pages r') in Eps.
  assert (Hrows : ∀ t, rows r' t = if decide (t = next_tid p) then Some (LPending, tuple) else rows r t).
  { intros t. rewrite (rows_insert r r' b p p' t Ep Hb Eps). unfold next_tid. rewrite Eb. destruct t as [tb o]. simpl.
    case_decide as E.
    - subst tb. unfold p'. rewrite (appended_row p Hp (len tuple) Hn Hf tuple LPending o eq_refl).
      unfold rows. simpl. rewrite (proj2 (Z.leb_le _ _)), Ep by done. simpl.
      destruct (decide (o = len (line_pointers p) + 1)) as [->|].
      + by rewrite decide_True.
      + rewrite decide_False; [done|congruence].
    - rewrite decide_False; [done|congruence]. }
  assert (Hlive : ∀ t bytes, rows r' t = Some (LLive, bytes) ↔ rows r t = Some (LLive, bytes)).
  { intros t bytes. rewrite Hrows. case_decide as E; [|done]. subst t. split; [done|]. intros Hx.
    exfalso. unfold rows, next_tid in Hx. simpl in Hx. rewrite Eb, (proj2 (Z.leb_le _ _)), Ep in Hx by done. simpl in Hx.
    destruct (page_row_some p Hp _ _ _ Hx) as (l & Hl & _). apply page_line_bound in Hl. lia. }
  split; [|split; [by eapply extends_page|]; split; done].
  eapply (rel_wf_page r r' b p p'); [done|done|done|done|congruence|done|done|done|..].
  - intros b'. change (appendable_blocks r') with
      (if can_fit p' 1 && below_max (max_tuples_per_block r) (len (line_pointers p')) then {[b]} ∪ appendable_blocks r
       else appendable_blocks r ∖ {[b]}).
    unfold block_accepts. destruct (decide (0 <= b')) as [H0|H0].
    + rewrite (page_insert r r' b p p') by done. unfold page_can_accept_tuple.
      change (max_tuples_per_block r') with (max_tuples_per_block r).
      pose proof (rwf_appendable _ Hr b') as Ha. unfold block_accepts, page_can_accept_tuple in Ha.
      destruct (can_fit p' 1 && _) eqn:Ec; destruct (decide (b' = b)) as [->|]; rewrite ?Ec; set_solver.
    + pose proof (rwf_appendable _ Hr b') as Ha. destruct (_ && _); set_solver by lia.
  - intros b' E. apply last_appendable_elem in E. exact E.
  - intros t. change (live_tids r') with (live_tids r). rewrite (rwf_live _ Hr). by setoid_rewrite Hlive.
  - intros s Hs. rewrite F4, sum_of_app. destruct (rel_count_nonneg r s Hr Hs) as [Hc _].
    change (2 ^ 63) with 9223372036854775808 in Hc. simpl.
    assert (state_one s (new_line (aligned_used p) (len tuple) LPending) = 0) as -> by (unfold state_one; by rewrite decide_False).
    assert (rel_count s r' = rel_count s r) as -> by (by destruct s). unfold clamp, USIZE_MAX. lia.
  - intros s Hs. rewrite F4, sum_of_app. destruct (rel_count_nonneg r s Hr Hs) as [_ Hc]. simpl.
    assert (state_len s (new_line (aligned_used p) (len tuple) LPending) = 0) as -> by (unfold state_len; by rewrite decide_False).
    assert (rel_bytes s r' = rel_bytes s r) as -> by (by destruct s). unfold clamp. lia.
Qed.

(** The identifier of an appended row was not in use. *)
Lemma next_tid_fresh r b p : rel_wf r → 0 <= b → page r b = Some p → rows r (next_tid p) = None ∧ tid_block (next_tid p) = b.
Proof.
  intros Hr Hb Ep. destruct (page_wf_of _ _ _ Hr Hb Ep) as [Eb Hp]. split; [|done].
  unfold rows, next_tid. simpl. rewrite Eb, (proj2 (Z.leb_le _ _)), Ep by done. simpl.
  apply (page_row_none p Hp). destruct (page_line p _) as [l|] eqn:El; [|done]. apply page_line_bound in El. lia.
Qed.

Lemma rel_append_tuple_run r b p tuple : rel_wf r → 0 <= b → page r b = Some p → 0 < len tuple <= U32_MAX →
  can_fit p (len tuple) = true →
  rel_append_pending_tuple b tuple r =
  (Some (next_tid p), note_appended b (len tuple) (appended tuple LPending p) (page_mut b (λ _, appended tuple LPending p) r)).
Proof.
  intros Hr Hb Ep Hn Hf. destruct (page_wf_of _ _ _ Hr Hb Ep) as [Eb Hp].
  unfold rel_append_pending_tuple. rewrite Ep, append_tuple_run, Hf by done. done.
Qed.

Lemma rel_append_input_run `{Target} mem r b p input n : rel_wf r → 0 <= b → page r b = Some p →
  input_ok input → tuple_storage_len input = Ok n → 0 < n <= U32_MAX → can_fit p n = true →
  ∃ bytes, len bytes = n ∧ encodes mem input bytes ∧
    rel_append_pending_input_tuple mem b input n r =
    (Ok (Some (next_tid p)), note_appended b n (appended bytes LPending p) (page_mut b (λ _, appended bytes LPending p) r)).
Proof.
  intros Hr Hb Ep Hok Hl Hn Hf. destruct (page_wf_of _ _ _ Hr Hb Ep) as [Eb Hp].
  pose proof (append_input_run mem input n LPending p Hp Hok Hl Hn) as Hx. rewrite Hf in Hx.
  destruct Hx as (bytes & H1 & H2 & H3). exists bytes. split; [done|]. split; [done|].
  unfold rel_append_pending_input_tuple. rewrite Ep, H3. done.
Qed.

(** ** Checkpoints *)

Lemma restore_rollback_spec c r : rel_wf r → rc_next_block c <= U32_MAX →
  let r' := restore_rollback_metadata_preserving_tid_space c r in
  rel_wf r' ∧ extends r r' ∧ (∀ t, rows r' t = rows r t) ∧ live_tids r' = live_tids r.
Proof.
  intros Hr Hc. cbv zeta. unfold restore_rollback_metadata_preserving_tid_space. set (n := Z.max _ _).
  pose proof (rwf_next _ Hr) as Hn.
  assert (Hb : next_block r <= n <= U32_MAX).
  { unfold n, try_from. destruct (Z.leb_spec (len (pages r)) U32_MAX); simpl; lia. }
  assert (Hr1 : rel_wf (set_next_block n r)).
  { destruct Hr. split; try done. cbn [pages set_next_block next_block]. lia. }
  assert (He : extends r (set_next_block n r)).
  { split; [cbn [next_block set_next_block]; lia|]. done. }
  case_bool_decide; [done|].
  match goal with |- rel_wf (recompute_appendable_blocks ?x) ∧ _ => set (r1 := x) end.
  destruct (recompute_appendable_spec r1) as [A1 A2]; [apply (rwf_blocks _ Hr)|].
  split; [|split; [|done]]; [|split; [apply He|done]]. destruct Hr1. split; done.
Qed.

Lemma recompute_appendable_wf r m : rel_wf r →
  let r' := recompute_appendable_blocks (set_max_tuples_per_block m r) in
  rel_wf r' ∧ extends r r' ∧ ∀ t, rows r' t = rows r t.
Proof.
  intros Hr. cbv zeta. destruct (recompute_appendable_spec (set_max_tuples_per_block m r)) as [A1 A2];
    [apply (rwf_blocks _ Hr)|].
  split; [|split; [|done]; split; done]. destruct Hr. split; done.
Qed.

(** * The statistics of a relation are exact *)

(** ** The live rows, listed from the pages *)

Fixpoint lines_live (b o : Z) (ls : list LinePointer) : list Tid :=
  match ls with
  | [] => []
  | l :: ls => (if decide (lp_state l = LLive) then [mkTid b o] else []) ++ lines_live b (o + 1) ls
  end.
Fixpoint pages_live (b : Z) (ps : list (option Page)) : list Tid :=
  match ps with
  | [] => []
  | op :: ps => match op with Some p => lines_live b 1 (line_pointers p) | None => [] end ++ pages_live (b + 1) ps
  end.

Lemma lines_live_length b o ls : len (lines_live b o ls) = sum_of (state_one LLive) ls.
Proof.
  revert o. induction ls as [|l ls IH]; intros o; simpl; [done|]. rewrite len_app, IH. unfold state_one at 2.
  by case_decide.
Qed.
Lemma pages_live_length b ps : len (pages_live b ps) = pages_total (state_one LLive) ps.
Proof.
  revert b. induction ps as [|op ps IH]; intros b; simpl; [done|]. rewrite len_app, IH. unfold pages_total. simpl. f_equal.
  destruct op; [apply lines_live_length|done].
Qed.

Lemma lines_live_elem b o ls t : t ∈ lines_live b o ls ↔
  tid_block t = b ∧ o <= tid_offset t ∧ ∃ l, ls !! Z.to_nat (tid_offset t - o) = Some l ∧ lp_state l = LLive.
Proof.
  revert o. induction ls as [|l ls IH]; intros o; simpl.
  { split; [set_solver|]. intros (_ & _ & l & Hl & _). by rewrite lookup_nil in Hl. }
  rewrite elem_of_app, IH. destruct t as [tb to]. simpl. split.
  - intros [Ht|(-> & Ho & k & Hk & Hs)].
    + case_decide; [|set_solver]. apply list_elem_of_singleton in Ht as [= -> ->]. split; [done|]. split; [lia|].
      exists l. by rewrite Z.sub_diag.
    + split; [done|]. split; [lia|]. exists k. replace (Z.to_nat (to - o)) with (S (Z.to_nat (to - (o + 1)))) by lia. done.
  - intros (-> & Ho & k & Hk & Hs). destruct (decide (to = o)) as [->|].
    + left. rewrite Z.sub_diag in Hk. injection Hk as ->. rewrite decide_True by done. set_solver.
    + right. split; [done|]. split; [lia|]. exists k.
      replace (Z.to_nat (to - o)) with (S (Z.to_nat (to - (o + 1)))) in Hk by lia. done.
Qed.

Lemma pages_live_elem b ps t : t ∈ pages_live b ps ↔
  b <= tid_block t ∧ ∃ p l, ps !! Z.to_nat (tid_block t - b) = Some (Some p) ∧
    page_line p (tid_offset t) = Some l ∧ lp_state l = LLive.
Proof.
  revert b. induction ps as [|op ps IH]; intros b; simpl.
  { split; [set_solver|]. intros (_ & p & l & Hl & _). by rewrite lookup_nil in Hl. }
  rewrite elem_of_app, IH. split.
  - intros [Ht|(Ho & p & l & Hp & Hl)].
    + destruct op as [p|]; [|set_solver]. apply lines_live_elem in Ht as (E & Ho & l & Hl & Hs). split; [lia|].
      exists p, l. rewrite E, Z.sub_diag. split; [done|]. split; [|done]. by apply page_line_lookup.
    + split; [lia|]. exists p, l. replace (Z.to_nat (tid_block t - b)) with (S (Z.to_nat (tid_block t - (b + 1)))) by lia. done.
  - intros (Ho & p & l & Hp & Hl & Hs). destruct (decide (tid_block t = b)) as [E|].
    + left. rewrite E, Z.sub_diag in Hp. injection Hp as ->. apply lines_live_elem. split; [done|].
      apply page_line_lookup in Hl as [H1 H2]. eauto.
    + right. split; [lia|]. exists p, l. replace (Z.to_nat (tid_block t - b)) with (S (Z.to_nat (tid_block t - (b + 1)))) in Hp by lia.
      done.
Qed.

Lemma lines_live_NoDup b o ls : NoDup (lines_live b o ls).
Proof.
  revert o. induction ls as [|l ls IH]; intros o; simpl; [constructor|]. apply NoDup_app. split.
  { case_decide; [apply NoDup_singleton|constructor]. }
  split; [|apply IH]. intros t Ht Ht'. apply lines_live_elem in Ht' as (_ & Ho & _).
  case_decide; [|set_solver]. apply list_elem_of_singleton in Ht. subst t. simpl in Ho. lia.
Qed.
Lemma pages_live_NoDup b ps : NoDup (pages_live b ps).
Proof.
  revert b. induction ps as [|op ps IH]; intros b; simpl; [constructor|]. apply NoDup_app. split.
  { destruct op; [apply lines_live_NoDup|constructor]. }
  split; [|apply IH]. intros t Ht Ht'. apply pages_live_elem in Ht' as (Ho & _).
  destruct op; [|set_solver]. apply lines_live_elem in Ht as (E & _). lia.
Qed.

Lemma pages_live_rows r t : rel_wf r → t ∈ pages_live 0 (pages r) ↔ ∃ bytes, rows r t = Some (LLive, bytes).
Proof.
  intros Hr. rewrite pages_live_elem, Z.sub_0_r. unfold rows. split.
  - intros (H0 & p & l & Hp & Hl & Hs). apply (page_lookup_2 _ _ _ H0) in Hp. rewrite (proj2 (Z.leb_le _ _)), Hp by done. simpl.
    destruct (page_wf_of _ _ _ Hr H0 Hp) as [_ Hw]. destruct (page_row_line p Hw _ _ Hl) as (bytes & -> & _). rewrite Hs. eauto.
  - intros [bytes Hb]. destruct (Z.leb_spec 0 (tid_block t)) as [H0|]; [|done].
    destruct (page r (tid_block t)) as [p|] eqn:Ep; [|done]. simpl in Hb. split; [done|].
    destruct (page_wf_of _ _ _ Hr H0 Ep) as [_ Hw]. destruct (page_row_some p Hw _ _ _ Hb) as (l & Hl & Hs & _).
    exists p, l. by apply page_lookup in Ep.
Qed.

(** The counter of live rows is the size of the set. *)
Lemma live_count_size r : rel_wf r → live_tuple_count r = Z.of_nat (size (live_tids r)).
Proof.
  intros Hr. assert (live_tids r = list_to_set (pages_live 0 (pages r))) as ->.
  { apply set_eq. intros t. by rewrite elem_of_list_to_set, (rwf_live _ Hr), pages_live_rows. }
  rewrite size_list_to_set by apply pages_live_NoDup. fold (len (pages_live 0 (pages r))).
  rewrite pages_live_length. symmetry. rewrite <- (rwf_count _ Hr LLive); done.
Qed.

(** ** Recomputing the statistics *)

Definition stats (r : RelationStorage) (s : LinePointerState) : Z * Z := (rel_count s r, rel_bytes s r).

(** A relation up to its statistics. *)
Record same_but_stats (r r' : RelationStorage) : Prop := {
  sbs_pages : pages r' = pages r;
  sbs_rest : (appendable_blocks r', append_hint r', max_tuples_per_block r', next_block r') =
             (appendable_blocks r, append_hint r, max_tuples_per_block r, next_block r);
}.

Lemma recompute_line_spec b r o l : 0 <= rel_count (lp_state l) r < 2 ^ 63 →
  0 <= rel_bytes (lp_state l) r → rel_bytes (lp_state l) r + lp_len l <= USIZE_MAX → 1 <= o <= MAX_CTID_OFFSET →
  let r' := recompute_line b r (o, l) in
  same_but_stats r r' ∧ physical_blocks r' = physical_blocks r ∧
  live_tids r' = list_to_set (if decide (lp_state l = LLive) then [mkTid b o] else []) ∪ live_tids r ∧
  ∀ s, stats r' s = (rel_count s r + state_one s l, rel_bytes s r + state_len s l).
Proof.
  intros Hc Hb0 Hb Ho. cbv zeta. unfold recompute_line. cbn [fst snd]. unfold try_from, U16_MAX, MAX_CTID_OFFSET in *.
  rewrite (proj2 (Z.leb_le o _)) by lia. change (2 ^ 63) with 9223372036854775808 in Hc.
  unfold stats, state_one, state_len.
  destruct (lp_state l) eqn:Es; cbn [rel_count rel_bytes] in *; (split; [done|]; split; [done|]; split; [set_solver|]);
    intros []; cbn [rel_count rel_bytes]; cbn [rel_add_stats]; simpl; unfold saturating_add; unfold USIZE_MAX in *; f_equal; lia.
Qed.

#[global] Instance same_but_stats_preorder : PreOrder same_but_stats.
Proof. split; [by split|]. intros r1 r2 r3 [H1 H2] [H3 H4]. split; congruence. Qed.

(** The statistics stay in range when those of some lines are added. *)
Definition in_range (r : RelationStorage) (count bytes : LinePointerState → Z) : Prop :=
  ∀ s, 0 <= rel_count s r ∧ rel_count s r + count s < 2 ^ 63 ∧ 0 <= rel_bytes s r ∧ rel_bytes s r + bytes s <= USIZE_MAX.

Lemma recompute_lines b ls : ∀ o r, 1 <= o → o + len ls <= MAX_CTID_OFFSET + 1 → Forall (λ l, 0 <= lp_len l) ls →
  in_range r (λ s, sum_of (state_one s) ls) (λ s, sum_of (state_len s) ls) →
  let r' := foldl (recompute_line b) r (imap (λ i l, (Z.of_nat i + o, l)) ls) in
  same_but_stats r r' ∧ physical_blocks r' = physical_blocks r ∧
  live_tids r' = list_to_set (lines_live b o ls) ∪ live_tids r ∧
  ∀ s, stats r' s = (rel_count s r + sum_of (state_one s) ls, rel_bytes s r + sum_of (state_len s) ls).
Proof.
  induction ls as [|l ls IH]; intros o r Ho Hlen Hpos Hr; simpl.
  { split; [done|]. split; [done|]. split; [set_solver|]. intros s. unfold stats. f_equal; lia. }
  rewrite len_cons in Hlen. pose proof (len_nonneg ls) as Hl0. apply Forall_cons in Hpos as [Hp Hpos].
  assert (Hn : ∀ s, 0 <= sum_of (state_one s) ls ∧ 0 <= sum_of (state_len s) ls ∧ 0 <= state_one s l ∧ 0 <= state_len s l).
  { intros s. assert (∀ k, 0 <= state_one s k) by (intros k; unfold state_one; by case_decide).
    split; [by apply sum_of_nonneg, Forall_true|]. split; [|unfold state_len; by case_decide].
    apply sum_of_nonneg. eapply Forall_impl; [done|]. intros k ?. unfold state_len. by case_decide. }
  pose proof (Hr (lp_state l)) as Hrl. simpl in Hrl. specialize (Hn (lp_state l)) as Hnl.
  assert (Hsl : state_len (lp_state l) l = lp_len l) by (unfold state_len; by rewrite decide_True).
  destruct (recompute_line_spec b r (Z.of_nat 0 + o) l) as (R1 & R2 & R3 & R4); [lia|lia|lia|unfold MAX_CTID_OFFSET in *; lia|].
  set (r1 := recompute_line b r (Z.of_nat 0 + o, l)) in *. replace (Z.of_nat 0 + o) with o in R3 by lia.
  assert (Ei : imap ((λ (i : nat) l, (Z.of_nat i + o, l)) ∘ S) ls = imap (λ (i : nat) l, (Z.of_nat i + (o + 1), l)) ls).
  { apply imap_ext. intros i k _. simpl. f_equal. lia. }
  rewrite Ei. destruct (IH (o + 1) r1) as (S1 & S2 & S3 & S4); [lia|lia|done| |].
  { intros s. specialize (R4 s). specialize (Hn s). specialize (Hr s). simpl in Hr. unfold stats in R4. injection R4 as -> ->. lia. }
  split; [by etrans|]. split; [congruence|]. split; [rewrite S3, R3, list_to_set_app_L; clear; set_solver|].
  intros s. rewrite S4. specialize (R4 s). unfold stats in R4. injection R4 as -> ->. f_equal; lia.
Qed.

Lemma recompute_pages ps : ∀ (b : nat) r, (∀ i p, ps !! i = Some (Some p) → pg_block p = Z.of_nat (b + i) ∧ page_wf p) →
  in_range r (λ s, pages_total (state_one s) ps) (λ s, pages_total (state_len s) ps) →
  let r' := foldl recompute_page r (omap id ps) in
  same_but_stats r r' ∧
  (∀ x, x ∈ physical_blocks r' ↔ x ∈ physical_blocks r ∨
     ∃ i p, ps !! i = Some (Some p) ∧ x = Z.of_nat (b + i)) ∧
  live_tids r' = list_to_set (pages_live (Z.of_nat b) ps) ∪ live_tids r ∧
  ∀ s, stats r' s = (rel_count s r + pages_total (state_one s) ps, rel_bytes s r + pages_total (state_len s) ps).
Proof.
  induction ps as [|op ps IH]; intros b r Hps Hr; cbv zeta.
  { split; [done|]. split; [|split; [simpl; set_solver|]].
    - intros x. split; [by left|]. intros [?|(i & p & Hi & _)]; [done|by rewrite lookup_nil in Hi].
    - intros s. unfold stats, pages_total. simpl. f_equal; lia. }
  assert (Hps' : ∀ i p, ps !! i = Some (Some p) → pg_block p = Z.of_nat (S b + i) ∧ page_wf p).
  { intros i p Hi. rewrite Nat.add_succ_comm. by apply (Hps (S i)). }
  assert (Hblocks : ∀ x, (∃ i p, (op :: ps) !! i = Some (Some p) ∧ x = Z.of_nat (b + i)) ↔
    (∃ p, op = Some p ∧ x = Z.of_nat b) ∨ ∃ i p, ps !! i = Some (Some p) ∧ x = Z.of_nat (S b + i)).
  { intros x. split.
    - intros ([|i] & p & Hi & ->); simpl in Hi; [injection Hi as ->; left; exists p; split; [done|lia]|].
      right. exists i, p. split; [done|lia].
    - intros [(p & -> & ->)|(i & p & Hi & ->)]; [exists 0%nat, p; split; [done|lia]|]. exists (S i), p. split; [done|lia]. }
  destruct op as [p|].
  - change (omap id (Some p :: ps)) with (p :: omap id ps). cbn [foldl]. destruct (Hps 0%nat p eq_refl) as [Eb Hp].
    rewrite Nat.add_0_r in Eb. set (r0 := set_physical_blocks ({[Z.of_nat b]} ∪ physical_blocks r) r).
    assert (Er : recompute_page r p = foldl (recompute_line (Z.of_nat b)) r0 (imap (λ i l, (Z.of_nat i + 1, l)) (line_pointers p)))
      by (unfold recompute_page; by rewrite Eb).
    rewrite Er. pose proof (pwf_count _ Hp) as Hcnt.
    assert (Hpos : Forall (λ l, 0 <= lp_len l) (line_pointers p)).
    { eapply Forall_impl; [apply (pwf_lines _ Hp)|]. intros l (_ & _ & ? & _). lia. }
    assert (Hnn : ∀ s, 0 <= pages_total (state_one s) ps ∧ 0 <= pages_total (state_len s) ps).
    { intros s. split; (eapply (pages_total_bound _ (2 ^ 32)); [done|]); intros i q Hi; destruct (Hps' i q Hi) as [_ Hq].
      - pose proof (state_one_bound q s Hq). unfold MAX_CTID_OFFSET in *. change (2 ^ 32) with 4294967296. lia.
      - rewrite <- (pwf_stats _ Hq s). by apply state_bytes_bound. }
    destruct (recompute_lines (Z.of_nat b) (line_pointers p) 1 r0) as (R1 & R2 & R3 & R4); [lia|lia|done| |].
    { intros s. specialize (Hr s). specialize (Hnn s). unfold pages_total in *. cbn [sum_of foldr page_total] in Hr.
      fold (sum_of (page_total (state_one s)) ps) in Hr. fold (sum_of (page_total (state_len s)) ps) in Hr.
      change (rel_count s r0) with (rel_count s r). change (rel_bytes s r0) with (rel_bytes s r). lia. }
    set (r1 := foldl (recompute_line (Z.of_nat b)) r0 _) in *.
    destruct (IH (S b) r1 Hps') as (S1 & S2 & S3 & S4).
    { intros s. specialize (R4 s). specialize (Hr s). unfold stats in R4. injection R4 as -> ->.
      pose proof (sum_of_nonneg (state_len s) (line_pointers p) (state_len_nonneg p Hp s)).
      pose proof (state_one_bound p s Hp). unfold pages_total in *. cbn [sum_of foldr page_total] in Hr.
      fold (sum_of (page_total (state_one s)) ps) in Hr. fold (sum_of (page_total (state_len s)) ps) in Hr.
      change (rel_count s r0) with (rel_count s r). change (rel_bytes s r0) with (rel_bytes s r). lia. }
    split; [etrans; [|exact S1]; etrans; [|exact R1]; by split|]. split; [|split].
    + intros x. rewrite S2, R2, Hblocks. change (physical_blocks r0) with ({[Z.of_nat b]} ∪ physical_blocks r).
      rewrite elem_of_union, elem_of_singleton. clear.
      split; [intros [[->|?]|?]; [right; left|left|right; right]; eauto|].
      intros [?|[(q & _ & ->)|?]]; [left; right|left; left|right]; done.
    + rewrite S3, R3. replace (Z.of_nat (S b)) with (Z.of_nat b + 1) by lia. change (live_tids r0) with (live_tids r).
      cbn [pages_live]. rewrite list_to_set_app_L. clear. set_solver.
    + intros s. rewrite S4. specialize (R4 s). unfold stats in R4. injection R4 as -> ->.
      change (rel_count s r0) with (rel_count s r). change (rel_bytes s r0) with (rel_bytes s r).
      unfold pages_total. simpl. f_equal; lia.
  - change (omap id (None :: ps)) with (omap id ps). destruct (IH (S b) r Hps') as (S1 & S2 & S3 & S4); [done|].
    split; [done|]. split; [|split].
    + intros x. rewrite S2, Hblocks. clear. split; [intros [?|?]; tauto|]. intros [?|[(q & [=] & _)|?]]; tauto.
    + rewrite S3. simpl. by replace (Z.of_nat (S b)) with (Z.of_nat b + 1) by lia.
    + intros s. rewrite S4. done.
Qed.

Lemma recompute_core r r0 : rel_wf r → same_but_stats r r0 → physical_blocks r0 = ∅ → live_tids r0 = ∅ →
  (∀ s, stats r0 s = (0, 0)) → core (foldl recompute_page r0 (omap id (pages r0))) = core r.
Proof.
  intros Hr [E1 E2] Hph Hli H0. injection E2 as E2 E3 E4 E5. pose proof (rwf_next _ Hr) as Hn. rewrite E1.
  assert (H0' : ∀ s, rel_count s r0 = 0 ∧ rel_bytes s r0 = 0) by (intros s; specialize (H0 s); unfold stats in H0; by injection H0).
  destruct (recompute_pages (pages r) 0 r0) as ([F1 F2] & S2 & S3 & S4).
  { intros i p Hi. by apply (rwf_pages _ Hr). }
  { intros s. destruct (H0' s) as [-> ->]. pose proof (count_bound s (pages r) (rwf_pages _ Hr) ltac:(lia)).
    pose proof (bytes_bound s (pages r) (rwf_pages _ Hr) ltac:(lia)). lia. }
  generalize dependent (foldl recompute_page r0 (omap id (pages r))). intros r' F1 F2 S2 S3 S4. injection F2 as F2 F3 F4 F5.
  assert (Hst : ∀ s, s ≠ LPending → stats r' s = stats r s).
  { intros s Hs. rewrite S4. unfold stats. rewrite (rwf_count _ Hr), (rwf_bytes _ Hr) by done. by destruct (H0' s) as [-> ->]. }
  pose proof (Hst LLive ltac:(done)) as St1. pose proof (Hst LDead ltac:(done)) as St2.
  unfold stats in St1, St2. cbn [rel_count rel_bytes] in St1, St2. injection St1 as St1 St1'. injection St2 as St2 St2'.
  assert (Eph : physical_blocks r' = physical_blocks r).
  { apply set_eq. intros x. rewrite S2, (rwf_blocks _ Hr), Hph. split.
    - intros [?%not_elem_of_empty|(i & p & Hi & ->)]; [done|]. split; [lia|]. exists p. apply page_lookup_2; [lia|]. by rewrite Nat2Z.id.
    - intros [Hx [p Hp%page_lookup]]. right. exists (Z.to_nat x), p. split; [done|lia]. }
  assert (Eli : live_tids r' = live_tids r).
  { rewrite S3, Hli. apply set_eq. intros t.
    rewrite (rwf_live _ Hr), <- (pages_live_rows r t Hr), elem_of_union, elem_of_list_to_set.
    split; [by intros [?|?%not_elem_of_empty]|by left]. }
  unfold core. congruence.
Qed.

(** What the operations keep up to date is what counting all rows again gives. *)
Lemma recompute_tuple_stats_core r : rel_wf r → core (recompute_tuple_stats r) = core r.
Proof. intros Hr. unfold recompute_tuple_stats. apply recompute_core; [done|by split|done|done|by intros []]. Qed.
