(* ===== verification/EngInv.v ===== *)
(** * What a session sees and what its calls may change

    The shortened decision for a stack of one overlay agrees with the general
    one ([single_overlay_fast_path]), with and without a command number and
    also when the relation was cleared.  Where nothing was cleared the view of
    a stack is described by the sets of inserted and invalidated rows.

    An overlay claims the rows that it inserted and the blocks of its pending
    pages.  [Inv] is the invariant for the calls of one session: the relations
    are well-formed, the rows that the top overlay claims exist and are pending,
    and claims of other overlays ([T] and [B]: those of other sessions and of
    the enclosing subtransactions, [L]) are disjoint from it.  [quiet] is what
    every call but a commit keeps: the rows claimed by others and all live and
    dead rows. *)

From Stdlib Require Import ZArith Lia.
From stdpp Require Import base tactics numbers list gmap strings sorting.
From S2P Require Import Prelude RustStd EngTid EngTuple EngPage EngIndex EngRelation EngOverlay EngState EngOps EngScan EngPageProofs EngRelationProofs.

Local Open Scope Z_scope.

(** * What a session sees *)

(** ** One overlay *)

(** The decision as it is made for stacks of more than one overlay. *)
Definition generic_visible (st : StorageState) (overlays : list TransactionOverlay) (relid : Z) (t : Tid) : option (list Z) :=
  if overlays_invalidate_tid overlays relid t then None
  else if overlays_clear_tid overlays relid t then None
  else
    let own := overlays_own_inserted_tid overlays relid t in
    match (if own then overlay_pending_tuple_slice overlays relid t else None) with
    | Some tuple => Some tuple
    | None => r ← relations st !! relid; rel_tuple_slice r t own
    end.

Definition generic_visible_at_cid (st : StorageState) (overlays : list TransactionOverlay) (relid : Z) (t : Tid) (curcid : Z) :
    option (list Z) :=
  if overlays_invalidate_tid_before overlays relid t curcid then None
  else if overlays_clear_tid overlays relid t then None
  else
    let owns_pending := overlays_own_inserted_tid overlays relid t in
    let include_pending := overlays_own_inserted_tid_before overlays relid t curcid in
    if owns_pending && negb include_pending then None
    else match (if include_pending then overlay_pending_tuple_slice overlays relid t else None) with
         | Some tuple => Some tuple
         | None => r ← relations st !! relid; rel_tuple_slice r t include_pending
         end.

Definition generic_overlay_visible (overlays : list TransactionOverlay) (relid : Z) (t : Tid) (curcid : option Z) :
    option (list Z) :=
  let hidden :=
    match curcid with
    | Some curcid =>
      overlays_invalidate_tid_before overlays relid t curcid
      || (overlays_own_inserted_tid overlays relid t
          && negb (overlays_own_inserted_tid_before overlays relid t curcid))
    | None => overlays_invalidate_tid overlays relid t
    end in
  if hidden then None
  else if overlays_clear_tid overlays relid t then None
  else overlay_pending_tuple_slice overlays relid t.

Section single.
Context (o : TransactionOverlay) (relid : Z) (t : Tid).
Abbreviation ins := (contains_inserted_tid relid t o).
Abbreviation inv := (contains_invalidated_tid relid t o).
Abbreviation clr := (relid_contains_key relid (cleared_relations o)).

Lemma single_own : overlays_own_inserted_tid [o] relid t = ins.
Proof. unfold overlays_own_inserted_tid. simpl. by destruct ins, clr. Qed.

Lemma single_clear : overlays_clear_tid [o] relid t = negb ins && clr.
Proof. unfold overlays_clear_tid. simpl. by destruct ins, clr. Qed.

Lemma single_pending : overlay_pending_tuple_slice [o] relid t = pending_tuple_slice relid t o.
Proof.
  unfold overlay_pending_tuple_slice. simpl. destruct (pending_tuple_slice relid t o); [done|]. by destruct clr.
Qed.

Lemma inserted_cid_eq : inserted_cid relid t o = if ins then Some (default 0 (inserted_cid relid t o)) else None.
Proof. unfold inserted_cid. by destruct ins. Qed.
Lemma invalidated_cid_eq : invalidated_cid relid t o = if inv then Some (default 0 (invalidated_cid relid t o)) else None.
Proof. unfold invalidated_cid. by destruct inv. Qed.

Lemma single_own_before curcid : overlays_own_inserted_tid_before [o] relid t curcid =
  ins && (default 0 (inserted_cid relid t o) <? curcid).
Proof.
  unfold overlays_own_inserted_tid_before, overlay_inserted_cid. simpl. rewrite inserted_cid_eq. by destruct ins.
Qed.

Lemma single_visibility_none : single_overlay_tid_visibility o relid t None =
  if overlays_invalidate_tid [o] relid t || overlays_clear_tid [o] relid t then None else Some ins.
Proof.
  rewrite single_clear. unfold single_overlay_tid_visibility, overlays_invalidate_tid. simpl.
  rewrite invalidated_cid_eq, inserted_cid_eq. destruct ins, inv, clr; simpl; try done;
    destruct (insert_shadows_invalidation _ _); done.
Qed.

Lemma single_visibility_cid curcid : single_overlay_tid_visibility o relid t (Some curcid) =
  if overlays_invalidate_tid_before [o] relid t curcid || overlays_clear_tid [o] relid t then None
  else if overlays_own_inserted_tid [o] relid t && negb (overlays_own_inserted_tid_before [o] relid t curcid) then None
  else Some (overlays_own_inserted_tid_before [o] relid t curcid).
Proof.
  rewrite single_clear, single_own, single_own_before. unfold single_overlay_tid_visibility, overlays_invalidate_tid_before.
  rewrite invalidated_cid_eq, inserted_cid_eq. cbn [reverse rev_append invalidate_loop].
  rewrite invalidated_cid_eq, inserted_cid_eq. unfold cid_before.
  destruct ins, inv, clr; simpl; try done;
    repeat match goal with |- context [?a <? curcid] => destruct (a <? curcid) end; simpl; try done;
    destruct (insert_shadows_invalidation _ _); done.
Qed.
End single.

Lemma fast_visible st overlays relid t :
  physical_visible_tuple_slice_in_overlays st overlays relid t = generic_visible st overlays relid t.
Proof.
  destruct overlays as [|o [|o' overlays]]; [done| |done]. unfold physical_visible_tuple_slice_in_overlays, generic_visible.
  rewrite single_visibility_none, single_own, single_pending.
  destruct (overlays_invalidate_tid [o] relid t), (overlays_clear_tid [o] relid t); done.
Qed.

Lemma fast_visible_at_cid st overlays relid t curcid :
  physical_visible_tuple_slice_in_overlays_at_cid st overlays relid t curcid = generic_visible_at_cid st overlays relid t curcid.
Proof.
  destruct overlays as [|o [|o' overlays]]; [done| |done].
  unfold physical_visible_tuple_slice_in_overlays_at_cid, generic_visible_at_cid.
  rewrite single_visibility_cid, single_pending.
  destruct (overlays_invalidate_tid_before [o] relid t curcid), (overlays_clear_tid [o] relid t); simpl; try done.
  destruct (_ && _); done.
Qed.

Lemma fast_overlay_visible overlays relid t curcid :
  (∀ o, overlays = [o] → pending_tuple_slice relid t o ≠ None → contains_inserted_tid relid t o = true) →
  overlay_visible_tuple_slice overlays relid t curcid = generic_overlay_visible overlays relid t curcid.
Proof.
  intros Hpend. destruct overlays as [|o [|o' overlays]]; [done| |done].
  unfold overlay_visible_tuple_slice, generic_overlay_visible, single_overlay_visible_pending_tuple_slice.
  assert (Hp : contains_inserted_tid relid t o = false → pending_tuple_slice relid t o = None).
  { intros E. destruct (pending_tuple_slice relid t o) eqn:Ep; [|done].
    rewrite Hpend in E by (done || by rewrite Ep). done. }
  rewrite single_pending. destruct curcid as [curcid|].
  - rewrite single_visibility_cid.
    destruct (overlays_invalidate_tid_before [o] relid t curcid), (overlays_clear_tid [o] relid t); simpl; try done.
    + destruct (_ && _); done.
    + rewrite single_own, single_own_before. destruct (contains_inserted_tid relid t o); simpl.
      * by destruct (_ <? _).
      * by rewrite Hp.
  - rewrite single_visibility_none.
    destruct (overlays_invalidate_tid [o] relid t), (overlays_clear_tid [o] relid t); simpl; try done.
    destruct (contains_inserted_tid relid t o); [done|]. by rewrite Hp.
Qed.

(** C40: The shortened decision that is made for a transaction without
    subtransactions is the general one: with and without a command number, also
    when the relation was cleared, and for rows of the transaction alone if the
    rows on its pages are rows that it inserted. *)
Theorem single_overlay_fast_path st o relid t curcid :
  physical_visible_tuple_slice_in_overlays st [o] relid t = generic_visible st [o] relid t ∧
  physical_visible_tuple_slice_in_overlays_at_cid st [o] relid t curcid = generic_visible_at_cid st [o] relid t curcid ∧
  ((pending_tuple_slice relid t o ≠ None → contains_inserted_tid relid t o = true) →
   ∀ cid, overlay_visible_tuple_slice [o] relid t cid = generic_overlay_visible [o] relid t cid).
Proof.
  split; [apply fast_visible|]. split; [apply fast_visible_at_cid|]. intros Hp cid. apply fast_overlay_visible. by intros o' [= <-].
Qed.

(** * The invariant of a session and what its calls may change *)

(** ** Maps kept as vectors *)

Section assoc_lemmas.
Context {K V : Type} `{EqDecision K}.
Implicit Types (l : list (K * V)) (k : K).

Lemma assoc_get_upsert k f l k' :
  assoc_get k' (assoc_upsert k f l) = if decide (k' = k) then Some (f (assoc_get k l)) else assoc_get k' l.
Proof.
  induction l as [|[a v] l IH]; simpl.
  - repeat case_decide; congruence.
  - destruct (decide (a = k)) as [->|]; simpl.
    + destruct (decide (k = k')) as [->|]; [by rewrite decide_True|]. by rewrite decide_False.
    + rewrite IH. destruct (decide (a = k')) as [->|]; [by rewrite decide_False|done].
Qed.

Lemma assoc_get_alter k f l k' :
  assoc_get k' (assoc_alter k f l) = if decide (k' = k) then f <$> assoc_get k l else assoc_get k' l.
Proof.
  induction l as [|[a v] l IH]; simpl; [by case_decide|].
  destruct (decide (a = k)) as [->|]; simpl.
  - destruct (decide (k = k')) as [->|]; [by rewrite decide_True|]. by rewrite decide_False.
  - rewrite IH. destruct (decide (a = k')) as [->|]; [by rewrite decide_False|done].
Qed.

Lemma assoc_get_elem k l v : assoc_get k l = Some v → (k, v) ∈ l.
Proof.
  induction l as [|[a x] l IH]; simpl; [done|]. case_decide; [intros [= ->]; subst; by left|]. intros. right. by apply IH.
Qed.

Lemma assoc_elem_get k l v : NoDup l.*1 → (k, v) ∈ l → assoc_get k l = Some v.
Proof.
  induction l as [|[a x] l IH]; simpl; [by intros _ ?%not_elem_of_nil|]. intros [Ha Hn]%NoDup_cons [[= -> ->]|Hin]%elem_of_cons.
  - by rewrite decide_True.
  - rewrite decide_False; [by apply IH|]. intros ->. apply Ha. apply list_elem_of_fmap. by exists (k, v).
Qed.

Lemma assoc_get_none k l : assoc_get k l = None ↔ k ∉ l.*1.
Proof.
  induction l as [|[a x] l IH]; simpl; [split; [by intros _ ?%not_elem_of_nil|done]|].
  rewrite not_elem_of_cons. case_decide; [naive_solver|]. rewrite IH. naive_solver.
Qed.

Lemma assoc_upsert_keys k f l x : x ∈ (assoc_upsert k f l).*1 ↔ x = k ∨ x ∈ l.*1.
Proof.
  induction l as [|[a v] l IH]; simpl; [set_solver|]. case_decide; subst; simpl; [set_solver|]. rewrite !elem_of_cons, IH. tauto.
Qed.

Lemma assoc_upsert_NoDup k f l : NoDup l.*1 → NoDup (assoc_upsert k f l).*1.
Proof.
  induction l as [|[a v] l IH]; simpl; [intros; apply NoDup_singleton|]. intros [Ha Hn]%NoDup_cons.
  case_decide; subst; simpl; [by apply NoDup_cons|]. apply NoDup_cons. split; [|by apply IH].
  rewrite assoc_upsert_keys. tauto.
Qed.

Lemma assoc_alter_keys k f l : (assoc_alter k f l).*1 = l.*1.
Proof. induction l as [|[a v] l IH]; simpl; [done|]. case_decide; subst; simpl; [done|]. by f_equal. Qed.
End assoc_lemmas.

Lemma relid_get_entry {V} k (d : V) f m k' :
  relid_get k' (relid_entry k d f m) = if decide (k' = k) then Some (f (default d (relid_get k m))) else relid_get k' m.
Proof. unfold relid_get, relid_entry. by rewrite assoc_get_upsert. Qed.
Lemma relid_get_get_mut {V} k (f : V → V) m k' :
  relid_get k' (relid_get_mut k f m) = if decide (k' = k) then f <$> relid_get k m else relid_get k' m.
Proof. unfold relid_get, relid_get_mut. by rewrite assoc_get_alter. Qed.

(** ** Pending pages *)

Definition ppages (relid : Z) (o : TransactionOverlay) : list Page := default [] (relid_get relid (pending_pages o)).

Definition ppage (ps : list Page) (b : Z) : option Page := List.find (λ p, pg_block p =? b) (reverse ps).

Lemma pending_page_ppage relid b o : pending_page relid b o = ppage (ppages relid o) b.
Proof. unfold pending_page, ppage, ppages. by destruct (relid_get relid (pending_pages o)). Qed.

Lemma ppage_elem ps b p : NoDup (pg_block <$> ps) → ppage ps b = Some p ↔ p ∈ ps ∧ pg_block p = b.
Proof.
  intros Hn. split.
  - intros [Hp Hb]%find_elem. rewrite elem_of_reverse in Hp. apply Z.eqb_eq in Hb. done.
  - intros [Hp Hb]. unfold ppage. destruct (List.find _ _) as [q|] eqn:E.
    + apply find_elem in E as [Hq Eb]. rewrite elem_of_reverse in Hq. apply Z.eqb_eq in Eb. f_equal.
      apply list_elem_of_lookup in Hp as [i Hi], Hq as [j Hj].
      assert (i = j) as ->; [|congruence]. apply (NoDup_lookup (pg_block <$> ps) i j b Hn);
        rewrite list_lookup_fmap, ?Hi, ?Hj; simpl; congruence.
    + apply find_none with (y := p) in E; [|by rewrite elem_of_reverse]. rewrite Hb, Z.eqb_refl in E. done.
Qed.

Lemma ppage_none ps b : ppage ps b = None ↔ b ∉ pg_block <$> ps.
Proof.
  unfold ppage. split.
  - intros E (p & -> & Hp)%list_elem_of_fmap. apply find_none with (y := p) in E; [|by rewrite elem_of_reverse].
    by rewrite Z.eqb_refl in E.
  - intros Hb. destruct (List.find _ _) as [p|] eqn:E; [|done]. apply find_elem in E as [Hp Eb%Z.eqb_eq].
    rewrite elem_of_reverse in Hp. exfalso. apply Hb. apply list_elem_of_fmap. eauto.
Qed.

Lemma ppage_insert ps i p p' b : NoDup (pg_block <$> ps) → ps !! i = Some p → pg_block p' = pg_block p →
  NoDup (pg_block <$> <[i := p']> ps) ∧
  ppage (<[i := p']> ps) b = if decide (b = pg_block p) then Some p' else ppage ps b.
Proof.
  intros Hn Hi Hb. assert (Hf : pg_block <$> <[i := p']> ps = pg_block <$> ps).
  { rewrite list_fmap_insert. apply list_insert_id. by rewrite list_lookup_fmap, Hi, Hb. }
  assert (Hn' : NoDup (pg_block <$> <[i := p']> ps)) by (by rewrite Hf). split; [done|].
  pose proof (lookup_lt_Some _ _ _ Hi) as Hlt. case_decide as E.
  - apply ppage_elem; [done|]. split; [|congruence]. apply list_elem_of_lookup. exists i. by apply list_lookup_insert_eq.
  - destruct (ppage ps b) as [q|] eqn:Eq.
    + apply ppage_elem in Eq as [Hq Hqb]; [|done]. apply ppage_elem; [done|]. split; [|done].
      apply list_elem_of_lookup in Hq as [j Hj]. apply list_elem_of_lookup. exists j.
      rewrite list_lookup_insert_ne; [done|]. intros ->. congruence.
    + apply ppage_none. rewrite Hf. by apply ppage_none.
Qed.

Lemma ppage_app ps p b : ppage (ps ++ [p]) b = if decide (b = pg_block p) then Some p else ppage ps b.
Proof.
  unfold ppage. rewrite reverse_app. simpl. destruct (Z.eqb_spec (pg_block p) b); [by rewrite decide_True|].
  by rewrite decide_False.
Qed.

(** The pending row at an identifier. *)
Definition prow (o : TransactionOverlay) (relid : Z) (t : Tid) : option (LinePointerState * list Z) :=
  p ← ppage (ppages relid o) (tid_block t); page_row p (tid_offset t).

Lemma pending_tuple_slice_prow relid t o : pending_tuple_slice relid t o = shown true (prow o relid t).
Proof.
  unfold pending_tuple_slice, prow. rewrite pending_page_ppage. destruct (ppage _ _); simpl; [|done].
  apply page_tuple_slice_row.
Qed.

(** ** Claims *)

Definition claims_tid (o : TransactionOverlay) (relid : Z) (t : Tid) : Prop := t ∈ tids_of relid (inserted_tids o).
Definition claims_block (o : TransactionOverlay) (relid b : Z) : Prop := b ∈ pg_block <$> ppages relid o.
Definition hides (o : TransactionOverlay) (relid : Z) (t : Tid) : Prop := t ∈ tids_of relid (invalidated_tids o).

#[global] Instance claims_tid_dec o relid t : Decision (claims_tid o relid t).
Proof. unfold claims_tid. apply _. Defined.
#[global] Instance hides_dec o relid t : Decision (hides o relid t).
Proof. unfold hides. apply _. Defined.

Lemma prow_claims o relid t row : prow o relid t = Some row → claims_block o relid (tid_block t).
Proof.
  unfold prow, claims_block. destruct (ppage (ppages relid o) (tid_block t)) as [p|] eqn:E; [|done]. intros _.
  destruct (decide (tid_block t ∈ pg_block <$> ppages relid o)) as [|Hn]; [done|]. apply ppage_none in Hn. congruence.
Qed.

Record ov_ok (st : StorageState) (o : TransactionOverlay) : Prop := {
  ok_clear : cleared_relations o = [];
  ok_pages : ∀ relid p, p ∈ ppages relid o →
    page_wf p ∧ Forall (λ l, lp_state l = LPending) (line_pointers p) ∧
    pg_block p < next_block (relation_of st relid) ∧ page (relation_of st relid) (pg_block p) = None;
  ok_blocks : ∀ relid, NoDup (pg_block <$> ppages relid o);
  ok_tids : ∀ relid t, claims_tid o relid t →
    is_Some (prow o relid t) ∨ ∃ b, rows (relation_of st relid) t = Some (LPending, b);
  ok_nodup : ∀ relid, NoDup (tids_of relid (inserted_tids o)) ∧ NoDup (tids_of relid (invalidated_tids o));
  ok_keys : NoDup (pending_pages o).*1 ∧ NoDup (inserted_tids o).*1 ∧ NoDup (invalidated_tids o).*1;
  ok_checkpoints : ∀ relid c, (relid, c) ∈ relation_checkpoints o → rc_next_block c <= U32_MAX;
}.

Lemma ov_ok_default st : ov_ok st overlay_default.
Proof.
  split; try done.
  - intros relid p Hp. by apply not_elem_of_nil in Hp.
  - intros relid. constructor.
  - intros relid t Ht. by apply not_elem_of_nil in Ht.
  - intros relid. split; constructor.
  - repeat split; constructor.
  - intros relid c Hc. by apply not_elem_of_nil in Hc.
Qed.

Lemma ok_prow st o relid t row : ov_ok st o → prow o relid t = Some row → row.1 = LPending.
Proof.
  intros Ho. unfold prow. destruct (ppage (ppages relid o) (tid_block t)) as [p|] eqn:E; [|done].
  apply ppage_elem in E as [Hp _]; [|apply (ok_blocks _ _ Ho)]. destruct (ok_pages _ _ Ho _ _ Hp) as (Hw & Hl & _). simpl.
  destruct row as [s b]. intros Hr. destruct (page_row_some p Hw _ _ _ Hr) as (l & [_ Hx]%page_line_lookup & <- & _).
  by apply (Forall_lookup_1 _ _ _ _ Hl Hx).
Qed.

(** A claimed block has no page in the relation. *)
Lemma ok_block st o relid b : ov_ok st o → claims_block o relid b →
  0 <= b < next_block (relation_of st relid) ∧ page (relation_of st relid) b = None.
Proof.
  intros Ho (p & -> & Hp)%list_elem_of_fmap. destruct (ok_pages _ _ Ho _ _ Hp) as (Hw & _ & H1 & H2).
  destruct (pwf_block _ Hw). split; [lia|done].
Qed.

(** ** Views where nothing was cleared *)

Definition owned (ovs : list TransactionOverlay) (relid : Z) (t : Tid) : Prop := Exists (λ o, claims_tid o relid t) ovs.
Definition hidden (ovs : list TransactionOverlay) (relid : Z) (t : Tid) : Prop := Exists (λ o, hides o relid t) ovs.
Definition no_clears (ovs : list TransactionOverlay) : Prop := Forall (λ o, cleared_relations o = []) ovs.

Lemma owned_elem ovs relid t : owned ovs relid t ↔ ∃ o, o ∈ ovs ∧ claims_tid o relid t.
Proof. apply Exists_exists. Qed.
Lemma hidden_elem ovs relid t : hidden ovs relid t ↔ ∃ o, o ∈ ovs ∧ hides o relid t.
Proof. apply Exists_exists. Qed.

Lemma no_clears_reverse ovs : no_clears ovs → no_clears (reverse ovs).
Proof. apply Forall_reverse. Qed.

Lemma own_loop_owned relid t rev : no_clears rev → own_inserted_loop relid t rev = bool_decide (owned rev relid t).
Proof.
  induction 1 as [|o rev Ho _ IH]; simpl; [done|]. unfold relid_contains_key. rewrite Ho. simpl. rewrite IH.
  unfold contains_inserted_tid. change (t ∈ tids_of relid (inserted_tids o)) with (claims_tid o relid t).
  destruct (decide (claims_tid o relid t)) as [E|E].
  - rewrite (bool_decide_true _ E). symmetry. apply bool_decide_eq_true. by left.
  - rewrite (bool_decide_false _ E). apply bool_decide_ext. unfold owned. rewrite Exists_cons. tauto.
Qed.

Lemma clear_loop_false relid t rev : no_clears rev → clear_tid_loop relid t rev = false.
Proof.
  induction 1 as [|o rev Ho _ IH]; simpl; [done|]. unfold relid_contains_key. rewrite Ho. simpl. rewrite IH.
  by destruct (contains_inserted_tid relid t o).
Qed.

Lemma invalidate_loop_hidden relid t rev later : no_clears rev →
  invalidate_loop None relid t rev later = bool_decide (hidden rev relid t).
Proof.
  intros Hn. revert later. induction Hn as [|o rev Ho _ IH]; intros later; simpl; [done|].
  unfold relid_contains_key. rewrite Ho. simpl. rewrite IH. unfold invalidated_cid, contains_invalidated_tid.
  change (t ∈ tids_of relid (invalidated_tids o)) with (hides o relid t).
  destruct (decide (hides o relid t)) as [E|E].
  - rewrite (bool_decide_true _ E). symmetry. apply bool_decide_eq_true. by left.
  - rewrite (bool_decide_false _ E). apply bool_decide_ext. unfold hidden. rewrite Exists_cons. tauto.
Qed.

Lemma pending_loop relid t rev : no_clears rev → pending_slice_loop relid t rev = find_map (pending_tuple_slice relid t) rev.
Proof.
  induction 1 as [|o rev Ho _ IH]; simpl; [done|]. unfold relid_contains_key. rewrite Ho. simpl. by rewrite IH.
Qed.

Lemma owned_reverse ovs relid t : owned (reverse ovs) relid t ↔ owned ovs relid t.
Proof. unfold owned. rewrite !Exists_exists. by setoid_rewrite elem_of_reverse. Qed.
Lemma hidden_reverse ovs relid t : hidden (reverse ovs) relid t ↔ hidden ovs relid t.
Proof. unfold hidden. rewrite !Exists_exists. by setoid_rewrite elem_of_reverse. Qed.

(** The row that the overlays have on their pending pages. *)
Definition pending_of (ovs : list TransactionOverlay) (relid : Z) (t : Tid) : option (list Z) :=
  find_map (pending_tuple_slice relid t) (reverse ovs).

Lemma committed_slice st relid t include_pending :
  (r ← relations st !! relid; rel_tuple_slice r t include_pending) = shown include_pending (rows (relation_of st relid) t).
Proof.
  unfold relation_of. destruct (relations st !! relid) as [r|]; simpl; [apply rel_tuple_slice_rows|].
  unfold rows, page. simpl. by destruct (0 <=? tid_block t); [destruct (Z.to_nat (tid_block t))|].
Qed.

Abbreviation view := physical_visible_tuple_slice_in_overlays.

Lemma view_eq st ovs relid t : no_clears ovs →
  view st ovs relid t =
  if decide (hidden ovs relid t) then None
  else if decide (owned ovs relid t) then
    match pending_of ovs relid t with
    | Some tuple => Some tuple
    | None => shown true (rows (relation_of st relid) t)
    end
  else shown false (rows (relation_of st relid) t).
Proof.
  intros Hn. rewrite fast_visible. unfold generic_visible, overlays_invalidate_tid, overlays_clear_tid,
    overlays_own_inserted_tid, overlay_pending_tuple_slice. pose proof (no_clears_reverse _ Hn) as Hr.
  rewrite invalidate_loop_hidden, clear_loop_false, own_loop_owned, pending_loop by done.
  rewrite (bool_decide_ext _ _ (hidden_reverse ovs relid t)), (bool_decide_ext _ _ (owned_reverse ovs relid t)).
  destruct (decide (hidden ovs relid t)); [by rewrite bool_decide_true|rewrite bool_decide_false by done].
  destruct (decide (owned ovs relid t)); [rewrite bool_decide_true by done|rewrite bool_decide_false by done].
  - fold (pending_of ovs relid t). destruct (pending_of ovs relid t); [done|]. by rewrite committed_slice.
  - by rewrite committed_slice.
Qed.

(** ** Changing one relation *)

Lemma relation_of_insert st relid r relid' :
  relation_of (set_relations (<[relid := r]> (relations st)) st) relid' =
  if decide (relid' = relid) then r else relation_of st relid'.
Proof.
  unfold relation_of. cbn [relations set_relations]. case_decide; [subst; by rewrite lookup_insert_eq|].
  by rewrite lookup_insert_ne by done.
Qed.

Lemma relation_of_get_mut st relid f relid' : f relation_default = relation_default ∨ is_Some (relations st !! relid) →
  relation_of (relation_get_mut relid f st) relid' =
  if decide (relid' = relid) then f (relation_of st relid) else relation_of st relid'.
Proof.
  intros Hf. unfold relation_of, relation_get_mut. cbn [relations set_relations]. case_decide as E.
  - subst. rewrite lookup_alter_eq. destruct (relations st !! relid) as [r|]; [done|]. simpl.
    destruct Hf as [->|[? [=]]]. done.
  - by rewrite lookup_alter_ne by done.
Qed.

(** The rows decide the counter of live rows. *)
Lemma live_count_rows r r' : rel_wf r → rel_wf r' →
  (∀ t b, rows r' t = Some (LLive, b) ↔ rows r t = Some (LLive, b)) → live_tuple_count r' = live_tuple_count r.
Proof.
  intros Hr Hr' Hrows. rewrite !live_count_size by done. do 2 f_equal. apply set_eq. intros t.
  rewrite (rwf_live _ Hr), (rwf_live _ Hr'). by setoid_rewrite Hrows.
Qed.

(** ** The session *)

Definition top (w : World) : TransactionOverlay := default overlay_default (last (w_stack w)).
Definition rel (w : World) (relid : Z) : RelationStorage := relation_of (w_storage w) relid.

Section session.
Context (L : list TransactionOverlay) (T : Z → Tid → Prop) (B : Z → Z → Prop).

Record Inv (w : World) : Prop := {
  inv_shape : w_stack w = L ++ [top w] ∨ (L = [] ∧ w_stack w = []);
  inv_rels : ∀ relid, rel_wf (rel w relid);
  inv_counts : ∀ relid, default 0 (w_row_counts w !! relid) = live_tuple_count (rel w relid);
  inv_lower : no_clears L ∧ ∀ o, o ∈ L → ∀ relid, (∀ t, claims_tid o relid t → T relid t) ∧ (∀ b, claims_block o relid b → B relid b);
  inv_top : ov_ok (w_storage w) (top w);
  inv_hides : ∀ relid t, hides (top w) relid t →
    claims_tid (top w) relid t ∨ owned L relid t ∨ ∃ s b, rows (rel w relid) t = Some (s, b) ∧ s ≠ LPending;
  inv_hidden : ∀ relid t, hidden L relid t →
    owned L relid t ∨ ∃ s b, rows (rel w relid) t = Some (s, b) ∧ s ≠ LPending;
  inv_T : ∀ relid t, T relid t → ¬ claims_tid (top w) relid t ∧
    (B relid (tid_block t) ∨ ∃ b, rows (rel w relid) t = Some (LPending, b));
  inv_B : ∀ relid b, B relid b → ¬ claims_block (top w) relid b ∧
    0 <= b < next_block (rel w relid) ∧ page (rel w relid) b = None;
}.

(** What stays of the rows of others. *)
Record quiet (w w' : World) : Prop := {
  quiet_T : ∀ relid t, T relid t → rows (rel w' relid) t = rows (rel w relid) t;
  quiet_live : ∀ relid t b, rows (rel w' relid) t = Some (LLive, b) ↔ rows (rel w relid) t = Some (LLive, b);
  quiet_dead : ∀ relid t b, rows (rel w relid) t = Some (LDead, b) → rows (rel w' relid) t = Some (LDead, b);
}.
#[local] Instance quiet_preorder : PreOrder quiet.
Proof.
  split; [by split|]. intros w1 w2 w3 [A1 A2 A3] [B1 B2 B3]. split.
  - intros relid t Ht. by rewrite B1, A1.
  - intros relid t b. by rewrite B2, A2.
  - intros relid t b Hd. by apply B3, A3.
Qed.

(** Nothing that a session sees changes. *)
Record neutral (w w' : World) : Prop := {
  neutral_rows : ∀ relid t, rows (rel w' relid) t = rows (rel w relid) t;
  neutral_prow : ∀ relid t, prow (top w') relid t = prow (top w) relid t;
  neutral_claims : ∀ relid t, claims_tid (top w') relid t ↔ claims_tid (top w) relid t;
  neutral_hides : ∀ relid t, hides (top w') relid t ↔ hides (top w) relid t;
}.
#[local] Instance neutral_preorder : PreOrder neutral.
Proof.
  split; [by split|]. intros w1 w2 w3 [A1 A2 A3 A4] [B1 B2 B3 B4]. split; intros relid t.
  - by rewrite B1, A1.
  - by rewrite B2, A2.
  - by rewrite B3, A3.
  - by rewrite B4, A4.
Qed.
Lemma neutral_quiet w w' : neutral w w' → quiet w w'.
Proof. intros [A1 _ _ _]. split; intros; rewrite ?A1; done. Qed.

(** What the session sees, by its top overlay and the others. *)
Lemma view_top w relid t : Inv w →
  view (w_storage w) (w_stack w) relid t =
  if decide (hides (top w) relid t ∨ hidden L relid t) then None
  else if decide (claims_tid (top w) relid t ∨ owned L relid t) then
    match prow (top w) relid t with
    | Some row => Some row.2
    | None => match pending_of L relid t with
              | Some tuple => Some tuple
              | None => shown true (rows (rel w relid) t)
              end
    end
  else shown false (rows (rel w relid) t).
Proof.
  intros Hw. pose proof (proj1 (inv_lower _ Hw)) as HL. pose proof (inv_top _ Hw) as Ho.
  assert (Hpr : shown true (prow (top w) relid t) = snd <$> prow (top w) relid t).
  { destruct (prow (top w) relid t) as [[s b]|] eqn:E; [|done]. pose proof (ok_prow _ _ _ _ _ Ho E) as Es. simpl in Es.
    by subst s. }
  destruct (inv_shape _ Hw) as [E|[E1 E2]].
  - rewrite E. rewrite view_eq; [|apply Forall_app; split; [done|]; constructor; [apply (ok_clear _ _ Ho)|done]].
    assert (Hh : hidden (L ++ [top w]) relid t ↔ hides (top w) relid t ∨ hidden L relid t).
    { unfold hidden. rewrite Exists_app, Exists_cons, Exists_nil. tauto. }
    assert (Hc : owned (L ++ [top w]) relid t ↔ claims_tid (top w) relid t ∨ owned L relid t).
    { unfold owned. rewrite Exists_app, Exists_cons, Exists_nil. tauto. }
    rewrite (decide_ext _ _ _ _ Hh), (decide_ext _ _ _ _ Hc). case_decide; [done|]. case_decide; [|done].
    unfold pending_of. rewrite reverse_app. simpl. rewrite pending_tuple_slice_prow, Hpr.
    by destruct (prow (top w) relid t).
  - assert (Et : top w = overlay_default) by (unfold top; by rewrite E2).
    rewrite E2, view_eq by (done || constructor). rewrite Et, E1.
    assert (N1 : ¬ hidden [] relid t) by (by intros ?%Exists_nil). assert (N2 : ¬ owned [] relid t) by (by intros ?%Exists_nil).
    assert (N3 : ¬ hides overlay_default relid t) by (by intros ?%not_elem_of_nil).
    assert (N4 : ¬ claims_tid overlay_default relid t) by (by intros ?%not_elem_of_nil).
    by rewrite !decide_False by tauto.
Qed.

Definition sees (V : Z → Tid → option (list Z)) (w : World) : Prop :=
  ∀ relid t, view (w_storage w) (w_stack w) relid t = V relid t.

Lemma neutral_sees V w w' : Inv w → Inv w' → neutral w w' → sees V w → sees V w'.
Proof.
  intros Hw Hw' [A1 A2 A3 A4] Hv relid t. rewrite <- (Hv relid t). rewrite !view_top by done.
  rewrite A1, A2.
  assert (Eh : hides (top w') relid t ∨ hidden L relid t ↔ hides (top w) relid t ∨ hidden L relid t) by (by rewrite A4).
  assert (Ec : claims_tid (top w') relid t ∨ owned L relid t ↔ claims_tid (top w) relid t ∨ owned L relid t) by (by rewrite A3).
  by rewrite (decide_ext _ _ _ _ Eh), (decide_ext _ _ _ _ Ec).
Qed.

(** ** Rules for calls *)

Definition triple {A} (P : World → Prop) (m : M World A) (Q : A → World → Prop) : Prop :=
  ∀ w, Inv w → P w → Inv (m w).2 ∧ quiet w (m w).2 ∧ ∀ a, (m w).1 = Ok a → Q a (m w).2.

Lemma triple_bind {A C} P (m : M World A) Q (k : A → M World C) S :
  triple P m Q → (∀ a, triple (Q a) (k a) S) → triple P (m ≫= k) S.
Proof.
  intros Hm Hk w Hw HP. destruct (Hm w Hw HP) as (H1 & H2 & H3). unfold mbind, M_bind.
  destruct (m w) as [[a|c e] w1] eqn:E; simpl in *; [|done].
  destruct (Hk a w1 H1 (H3 a eq_refl)) as (G1 & G2 & G3). split; [done|]. split; [by etrans|done].
Qed.

Lemma triple_conseq {A} (P P' : World → Prop) (m : M World A) (Q Q' : A → World → Prop) :
  triple P' m Q' → (∀ w, Inv w → P w → P' w) → (∀ a w, Inv w → Q' a w → Q a w) → triple P m Q.
Proof.
  intros Hm HP HQ w Hw Hp. destruct (Hm w Hw (HP w Hw Hp)) as (H1 & H2 & H3). split; [done|]. split; [done|].
  intros a Ea. apply HQ; [done|]. by apply H3.
Qed.

Lemma triple_ret {A} P (a : A) : triple P (mret a) (λ a' w, a' = a ∧ P w).
Proof. intros w Hw HP. split; [done|]. split; [done|]. by intros ? [= <-]. Qed.

Lemma triple_gets {A} P (f : World → A) : triple P (gets f) (λ a w, a = f w ∧ P w).
Proof. intros w Hw HP. split; [done|]. split; [done|]. by intros ? [= <-]. Qed.

Lemma triple_get {A} P (f : World → A) : triple P (gets f) (λ _, P).
Proof. intros w Hw HP. split; [done|]. split; [done|]. by intros ? [= <-]. Qed.

Lemma triple_done {A} (Q : A → World → Prop) a : triple (Q a) (mret a) Q.
Proof. intros w Hw HP. split; [done|]. split; [done|]. by intros ? [= <-]. Qed.

Lemma triple_lift {A} P (res : result A) : triple P (lift res) (λ a w, res = Ok a ∧ P w).
Proof. intros w Hw HP. split; [done|]. split; [done|]. by intros a Ea. Qed.

Definition calm_step (w w' : World) : Prop := Inv w → Inv w' ∧ neutral w w'.
#[local] Instance calm_step_preorder : PreOrder calm_step.
Proof.
  split; [by intros w Hw|]. intros w1 w2 w3 H1 H2 Hw. destruct (H1 Hw) as [Hw2 N1]. destruct (H2 Hw2) as [Hw3 N2].
  split; [done|by etrans].
Qed.

Abbreviation calm := (respects calm_step).

Lemma calm_triple {A} (m : M World A) V : calm m → triple (sees V) m (λ _, sees V).
Proof.
  intros Hm w Hw Hv. destruct (Hm w Hw) as [H1 H2]. split; [done|]. split; [by apply neutral_quiet|].
  intros a _. by apply (neutral_sees V w).
Qed.

(** ** Steps that change nothing a session sees *)

(** The overlay as a reader sees it. *)
Record ov_view (o o' : TransactionOverlay) : Prop := {
  os_prow : ∀ relid t, prow o' relid t = prow o relid t;
  os_claims : ∀ relid t, claims_tid o' relid t ↔ claims_tid o relid t;
  os_hides : ∀ relid t, hides o' relid t ↔ hides o relid t;
  os_blocks : ∀ relid b, claims_block o' relid b ↔ claims_block o relid b;
}.
Definition ov_same (st : StorageState) (o o' : TransactionOverlay) : Prop := ov_ok st o → ov_ok st o' ∧ ov_view o o'.

Definition ocore (o : TransactionOverlay) :=
  (pending_pages o, inserted_tids o, invalidated_tids o, cleared_relations o, relation_checkpoints o).

Lemma ov_same_core st o o' : ocore o' = ocore o → ov_same st o o'.
Proof.
  unfold ocore. intros [= E1 E2 E3 E4 E5].
  assert (Ep : ∀ relid, ppages relid o' = ppages relid o) by (intros; unfold ppages; by rewrite E1).
  intros [O1 O2 O3 O4 O5 O6 O7]. split.
  - split; unfold claims_tid, prow in *; rewrite ?E1, ?E2, ?E3, ?E4, ?E5; try done;
      intros relid; rewrite ?Ep; [apply O2|apply O3|apply O4].
  - split; intros.
    + unfold prow. by rewrite Ep.
    + unfold claims_tid. by rewrite E2.
    + unfold hides. by rewrite E3.
    + unfold claims_block. by rewrite Ep.
Qed.

Lemma set_top w o' : w_stack w = L ++ [top w] →
  let w' := on_session (last_overlay_mut (λ _, o')) w in
  w_stack w' = L ++ [o'] ∧ top w' = o' ∧ w_storage w' = w_storage w ∧ w_row_counts w' = w_row_counts w.
Proof.
  intros E. cbv zeta. assert (Es : w_stack (on_session (last_overlay_mut (λ _, o')) w) = L ++ [o']).
  { unfold w_stack, on_session, last_overlay_mut. cbn [w_session set_w_session transaction_stack set_transaction_stack].
    fold (w_stack w). rewrite E, length_app. simpl. rewrite Nat.add_sub.
    rewrite <- (Nat.add_0_r (length L)) at 1. by rewrite alter_app_r. }
  split; [done|]. split; [|done]. unfold top. by rewrite Es, last_snoc.
Qed.

(** The top overlay changes, the relations do not. *)
Lemma Inv_set_top w w' o' : Inv w → w_stack w' = L ++ [o'] → w_storage w' = w_storage w → w_row_counts w' = w_row_counts w →
  ov_ok (w_storage w) o' →
  (∀ relid t, claims_tid o' relid t → claims_tid (top w) relid t ∨ ¬ T relid t) →
  (∀ relid b, claims_block o' relid b → claims_block (top w) relid b ∨ ¬ B relid b) →
  (∀ relid t, hides o' relid t →
    claims_tid o' relid t ∨ owned L relid t ∨ ∃ s b, rows (rel w relid) t = Some (s, b) ∧ s ≠ LPending) →
  Inv w'.
Proof.
  intros Hw Es Est Ec Hok Hcl Hbl Hhi. assert (Et : top w' = o') by (unfold top; by rewrite Es, last_snoc).
  assert (Er : ∀ relid, rel w' relid = rel w relid) by (intros; unfold rel; by rewrite Est).
  destruct Hw as [W1 W2 W3 W4 W5 W6 W7 W8 W9].
  split; rewrite ?Et, ?Est, ?Ec.
  - by left.
  - intros relid. rewrite Er. apply W2.
  - intros relid. rewrite Er. apply W3.
  - done.
  - done.
  - intros relid t. rewrite Er. apply Hhi.
  - intros relid t. rewrite Er. apply W7.
  - intros relid t Ht. rewrite Er. destruct (W8 relid t Ht) as [N1 N2]. split; [|done]. intros [?|?]%Hcl; done.
  - intros relid b Hb. rewrite Er. destruct (W9 relid b Hb) as [N1 N2]. split; [|done]. intros [?|?]%Hbl; done.
Qed.

Lemma calm_overlay {A} (m : M TransactionOverlay A) : (∀ st, respects (ov_same st) m) → calm (in_overlay m).
Proof.
  intros Hm w Hw. unfold in_overlay. destruct (inv_shape _ Hw) as [E|[_ E]]; [|rewrite E; done].
  rewrite E, last_snoc. destruct (Hm (w_storage w) (top w) (inv_top _ Hw)) as [Hok Hs].
  destruct (m (top w)) as [res o']. simpl in *. destruct (set_top w o' E) as (S1 & S2 & S3 & S4). split.
  - eapply Inv_set_top; try done.
    + intros relid t Ht%(os_claims _ _ Hs). by left.
    + intros relid b Hb%(os_blocks _ _ Hs). by left.
    + intros relid t Ht%(os_hides _ _ Hs). destruct (inv_hides _ Hw relid t Ht) as [?|?]; [left; by apply (os_claims _ _ Hs)|by right].
  - split; intros relid t; rewrite ?S2.
    + unfold rel. by rewrite S3.
    + apply (os_prow _ _ Hs).
    + apply (os_claims _ _ Hs).
    + apply (os_hides _ _ Hs).
Qed.

Lemma calm_if_overlay {A} (d : A) (m : M TransactionOverlay A) : calm (in_overlay m) → calm (if_overlay d m).
Proof. intros Hm w. unfold if_overlay. destruct (last (w_stack w)); [apply Hm|]. simpl. by intros Hw. Qed.

(** A relation changes without a change of its rows. *)
Definition rel_calm (r r' : RelationStorage) : Prop :=
  rel_wf r → rel_wf r' ∧ (∀ t, rows r' t = rows r t) ∧ extends r r'.

(** Relations get rows and pages, and lose none. *)
Lemma Inv_grow w w' : Inv w → w_stack w' = w_stack w → w_row_counts w' = w_row_counts w →
  (∀ relid, rel_wf (rel w' relid) ∧ extends (rel w relid) (rel w' relid)) →
  (∀ relid t row, rows (rel w relid) t = Some row → rows (rel w' relid) t = Some row) →
  (∀ relid t b, rows (rel w' relid) t = Some (LLive, b) ↔ rows (rel w relid) t = Some (LLive, b)) →
  Inv w'.
Proof.
  intros Hw Es Ec Hrel Hold Hlive. assert (Et : top w' = top w) by (unfold top; by rewrite Es).
  destruct Hw as [W1 W2 W3 W4 W5 W6 W7 W8 W9]. split; rewrite ?Et, ?Es, ?Ec; try done.
  - intros relid. apply Hrel.
  - intros relid. rewrite W3. symmetry. apply live_count_rows; [done|apply Hrel|done].
  - destruct W5 as [O1 O2 O3 O4 O5 O6 O7]. split; try done.
    + intros relid p Hp. destruct (O2 relid p Hp) as (P1 & P2 & P3 & P4). split; [done|]. split; [done|].
      destruct (Hrel relid) as [_ [X1 X2]]. destruct (pwf_block _ P1). unfold rel in *. split; [lia|]. apply X2; [lia|done].
    + intros relid t Ht. destruct (O4 relid t Ht) as [?|[b Hb]]; [by left|]. right. exists b. by apply Hold.
  - intros relid t Ht. destruct (W6 _ _ Ht) as [?|[?|(s & b & Hb & Hs)]]; [by left|by right; left|]. right; right. eauto.
  - intros relid t Ht. destruct (W7 _ _ Ht) as [?|(s & b & Hb & Hs)]; [by left|]. right. eauto.
  - intros relid t Ht. destruct (W8 _ _ Ht) as [N1 [?|[b Hb]]]; (split; [done|]); [by left|]. right. eauto.
  - intros relid b Hb. destruct (W9 relid b Hb) as (N1 & N2 & N3). split; [done|]. destruct (Hrel relid) as [_ [X1 X2]].
    split; [lia|]. by apply X2.
Qed.

Lemma Inv_set_rel w w' relid r' : Inv w → w_stack w' = w_stack w → w_row_counts w' = w_row_counts w →
  (∀ relid', rel w' relid' = if decide (relid' = relid) then r' else rel w relid') →
  rel_calm (rel w relid) r' → Inv w' ∧ neutral w w'.
Proof.
  intros Hw Es Ec Er Hc. destruct (Hc (inv_rels _ Hw relid)) as (Hr' & Hrows & Hext).
  assert (Et : top w' = top w) by (unfold top; by rewrite Es).
  assert (Hro : ∀ relid' t, rows (rel w' relid') t = rows (rel w relid') t).
  { intros relid' t. rewrite Er. case_decide; [|done]. subst. apply Hrows. }
  split; [|by split; intros; rewrite ?Et].
  apply (Inv_grow w); try done.
  - intros relid'. rewrite Er. case_decide; [by subst|]. split; [apply (inv_rels _ Hw)|done].
  - intros relid' t row. by rewrite Hro.
  - intros relid' t b. by rewrite Hro.
Qed.
End session.
