(* ===== verification/EngAppend.v ===== *)
(** * Steps that a session sees, and appending rows

    A pending row comes to a relation or to a pending page, where nobody sees
    it; it is claimed, and its session sees it; a row that the session sees is
    hidden from it.

    Every way in which a session appends a row: to one of its pending pages, to
    a page of the relation, or to a page on a block that is reserved for it.
    The session then sees one more row, which encodes the input
    ([triple_append]); nobody else sees anything change. *)

From Stdlib Require Import ZArith Lia.
From stdpp Require Import base tactics numbers list gmap strings sorting.
From S2P Require Import Prelude RustStd EngTid EngTuple EngPage EngIndex EngRelation EngOverlay EngState EngOps EngScan EngTupleProofs EngPageProofs EngRelationProofs EngInv.

Local Open Scope Z_scope.

(** * Steps that a session sees *)

(** A view with another row at an identifier. *)
Definition upd (V : Z → Tid → option (list Z)) (relid : Z) (t : Tid) (x : option (list Z)) : Z → Tid → option (list Z) :=
  λ relid' t', if decide (relid' = relid ∧ t' = t) then x else V relid' t'.

Section steps.
Context (L : list TransactionOverlay) (T : Z → Tid → Prop) (B : Z → Z → Prop).
Abbreviation Inv := (Inv L T B).
Abbreviation triple := (triple L T B).
Abbreviation quiet := (quiet T).
Abbreviation calm := (respects (calm_step L T B)).

#[local] Existing Instance quiet_preorder.
#[local] Existing Instance calm_step_preorder.

(** A pending row that nobody claims. *)
Record free (w : World) (relid : Z) (t : Tid) (b : list Z) : Prop := {
  free_tid : tid_wf t ∧ tid_offset t ≠ 0;
  free_top : ¬ claims_tid (top w) relid t;
  free_T : ¬ T relid t;
  free_hidden : ¬ hides (top w) relid t ∧ ¬ hidden L relid t;
  free_lower : pending_of L relid t = None;
  free_row : prow (top w) relid t = Some (LPending, b) ∨
             prow (top w) relid t = None ∧ rows (rel w relid) t = Some (LPending, b);
}.

Lemma owned_T w relid t : Inv w → owned L relid t → T relid t.
Proof.
  intros Hw (o & Ho & Ht)%owned_elem. destruct (proj2 (inv_lower _ _ _ _ Hw) o Ho relid) as [H _]. by apply H.
Qed.

(** A row of an enclosing overlay is in one of its blocks. *)
Lemma pending_lower w relid t : Inv w → ¬ B relid (tid_block t) → pending_of L relid t = None.
Proof.
  intros Hw Hb. unfold pending_of. pose proof (proj2 (inv_lower _ _ _ _ Hw)) as HL.
  assert (Hl : ∀ o, o ∈ reverse L → o ∈ L) by (intros o; by rewrite elem_of_reverse).
  induction (reverse L) as [|o l IH]; [done|]. simpl. rewrite pending_tuple_slice_prow.
  destruct (prow o relid t) as [row|] eqn:E.
  - exfalso. apply Hb. destruct (HL o ltac:(apply Hl; left) relid) as [_ H]. apply H. by eapply prow_claims.
  - simpl. apply IH. intros o' Ho'. apply Hl. by right.
Qed.

(** An identifier without a row is not in use. *)
Lemma unclaimed w relid t : Inv w → rows (rel w relid) t = None → prow (top w) relid t = None → ¬ B relid (tid_block t) →
  ¬ claims_tid (top w) relid t ∧ ¬ T relid t ∧ ¬ owned L relid t ∧ ¬ hides (top w) relid t ∧ ¬ hidden L relid t.
Proof.
  intros Hw Hnone Hpr HB.
  assert (HT : ¬ T relid t).
  { intros Ht. destruct (inv_T _ _ _ _ Hw _ _ Ht) as [_ [?|[b' Hb']]]; [done|]. congruence. }
  assert (Hc : ¬ claims_tid (top w) relid t).
  { intros Ht. destruct (ok_tids _ _ (inv_top _ _ _ _ Hw) _ _ Ht) as [[x Hx]|[b' Hb']]; [congruence|].
    unfold rel in Hnone. congruence. }
  assert (Ho : ¬ owned L relid t) by (intros ?%(owned_T w); done).
  do 3 (split; [done|]). split; intros Ht.
  - destruct (inv_hides _ _ _ _ Hw _ _ Ht) as [?|[?|(s & b' & Hb' & _)]]; [done..|congruence].
  - destruct (inv_hidden _ _ _ _ Hw _ _ Ht) as [?|(s & b' & Hb' & _)]; [done|congruence].
Qed.

(** ** A pending row comes to a relation *)

Lemma Inv_add_row w w' relid r' t b : Inv w → w_stack w' = w_stack w → w_row_counts w' = w_row_counts w →
  (∀ relid', rel w' relid' = if decide (relid' = relid) then r' else rel w relid') →
  rel_wf r' → extends (rel w relid) r' → rows (rel w relid) t = None →
  (∀ t', rows r' t' = if decide (t' = t) then Some (LPending, b) else rows (rel w relid) t') →
  Inv w' ∧ quiet w w' ∧ (∀ V, sees V w → sees V w') ∧ free w' relid t b.
Proof.
  intros Hw Es Ec Er Hr' Hext Hnone Hrows. assert (Et : top w' = top w) by (unfold top; by rewrite Es).
  assert (Hold : ∀ relid' t' row, rows (rel w relid') t' = Some row → rows (rel w' relid') t' = Some row).
  { intros relid' t' row E. rewrite Er. case_decide; [|done]. subst. rewrite Hrows, decide_False; [done|congruence]. }
  assert (Hlive : ∀ relid' t' b', rows (rel w' relid') t' = Some (LLive, b') ↔ rows (rel w relid') t' = Some (LLive, b')).
  { intros relid' t' b'. rewrite Er. case_decide; [|done]. subst. rewrite Hrows. case_decide; [|done]. subst.
    rewrite Hnone. done. }
  destruct (rows_block r' t (LPending, b)) as [H0 Hpage]; [by rewrite Hrows, decide_True|].
  assert (HnB : ∀ b', 0 <= b' < next_block (rel w relid) ∧ page (rel w relid) b' = None → b' ≠ tid_block t).
  { intros b' [Hb' Hp] ->. destruct Hext as [_ X]. rewrite X in Hpage by done. by destruct Hpage. }
  assert (HB : ¬ B relid (tid_block t)).
  { intros Hb. by destruct (HnB (tid_block t)); [apply (inv_B _ _ _ _ Hw _ _ Hb)|]. }
  assert (Hpr : prow (top w) relid t = None).
  { destruct (prow (top w) relid t) eqn:E; [|done]. apply prow_claims in E.
    by destruct (HnB (tid_block t)); [apply (ok_block _ _ _ _ (inv_top _ _ _ _ Hw) E)|]. }
  destruct (unclaimed w relid t Hw Hnone Hpr HB) as (Hc & HT & Ho & Hh & Hh').
  assert (Hw' : Inv w').
  { apply (Inv_grow L T B w); try done. intros relid'. rewrite Er. case_decide; [by subst|].
    split; [apply (inv_rels _ _ _ _ Hw)|done]. }
  split; [done|]. split; [|split].
  - split; [|done|intros relid' t' b' Hd; by apply Hold].
    intros relid' t' Ht. rewrite Er. case_decide; [|done]. subst. rewrite Hrows, decide_False; [done|]. intros ->. done.
  - intros V Hv relid' t'. rewrite <- (Hv relid' t'). rewrite !(view_top L T B) by done. rewrite Et.
    repeat case_decide; try done.
    + destruct (prow (top w) relid' t'); [done|]. destruct (pending_of L relid' t'); [done|]. f_equal. rewrite Er.
      case_decide; [|done]. subst. rewrite Hrows, decide_False; [done|]. intros ->. tauto.
    + rewrite Er. case_decide; [|done]. subst. rewrite Hrows. case_decide; [|done]. subst. rewrite Hnone. done.
  - assert (Hx : rows r' t = Some (LPending, b)) by (by rewrite Hrows, decide_True).
    destruct (rows_tid_wf r' t _ Hr' Hx) as [Hwf Ho1].
    split; rewrite ?Et; try done; [split; [done|lia]|by eapply pending_lower|]. right. split; [done|].
    by rewrite Er, decide_True.
Qed.

(** ** A pending row comes to a pending page *)

(** The overlay gets a row, on a page that it claims or on a new one. *)
Record gets_row (st : StorageState) (relid : Z) (t : Tid) (b : list Z) (o o' : TransactionOverlay) : Prop := {
  gr_ok : ov_ok st o';
  gr_prow : ∀ relid' t', prow o' relid' t' = if decide (relid' = relid ∧ t' = t) then Some (LPending, b) else prow o relid' t';
  gr_fresh : prow o relid t = None;
  gr_claims : inserted_tids o' = inserted_tids o;
  gr_hides : invalidated_tids o' = invalidated_tids o;
  gr_blocks : ∀ relid' b', claims_block o' relid' b' ↔ claims_block o relid' b' ∨ relid' = relid ∧ b' = tid_block t;
}.

Lemma Inv_add_pending w w' relid t b o' : Inv w → w_stack w' = L ++ [o'] → w_storage w' = w_storage w →
  w_row_counts w' = w_row_counts w → gets_row (w_storage w) relid t b (top w) o' → ¬ B relid (tid_block t) → tid_wf t ∧ tid_offset t ≠ 0 →
  Inv w' ∧ quiet w w' ∧ (∀ V, sees V w → sees V w') ∧ free w' relid t b.
Proof.
  intros Hw Es Est Ec Hg HB Hwf. assert (Et : top w' = o') by (unfold top; by rewrite Es, last_snoc).
  assert (Er : ∀ relid, rel w' relid = rel w relid) by (intros; unfold rel; by rewrite Est).
  destruct Hg as [G1 G2 G3 G4 G5 G6].
  assert (Hcl : ∀ relid t, claims_tid o' relid t ↔ claims_tid (top w) relid t) by (intros; unfold claims_tid; by rewrite G4).
  assert (Hhi : ∀ relid t, hides o' relid t ↔ hides (top w) relid t) by (intros; unfold hides; by rewrite G5).
  assert (Hnone : rows (rel w relid) t = None).
  { destruct (rows (rel w relid) t) as [row|] eqn:E; [|done]. apply rows_block in E as [_ [p Hp]].
    destruct (ok_block _ _ relid (tid_block t) G1) as [_ N]; [apply G6; by right|]. unfold rel in Hp. congruence. }
  destruct (unclaimed w relid t Hw Hnone G3 HB) as (Hc & HT & Ho & Hh & Hh').
  assert (Hw' : Inv w').
  { eapply (Inv_set_top L T B w); try done.
    - intros relid' t' ?%Hcl. by left.
    - intros relid' b' [?|[-> ->]]%G6; [by left|by right].
    - intros relid' t' Ht%Hhi. rewrite Hcl. by apply (inv_hides _ _ _ _ Hw). }
  split; [done|]. split; [by split; intros; rewrite ?Er|]. split.
  - intros V Hv relid' t'. rewrite <- (Hv relid' t'). rewrite !(view_top L T B) by done. rewrite Et, Er, G2.
    rewrite (decide_ext (hides o' relid' t' ∨ hidden L relid' t') (hides (top w) relid' t' ∨ hidden L relid' t')) by (by rewrite Hhi).
    rewrite (decide_ext (claims_tid o' relid' t' ∨ owned L relid' t') (claims_tid (top w) relid' t' ∨ owned L relid' t')) by (by rewrite Hcl).
    repeat case_decide; try done. exfalso. destruct_and?. subst. tauto.
  - split; rewrite ?Et, ?Er, ?Hcl, ?Hhi; try done; [by eapply pending_lower|]. left. by rewrite G2, decide_True.
Qed.

(** ** A free row is claimed, a visible one hidden *)

Lemma tids_of_entry relid t (m : RelidMap (list Tid)) relid' :
  tids_of relid' (relid_entry relid [] (push_unique t) m) =
  if decide (relid' = relid) then push_unique t (tids_of relid m) else tids_of relid' m.
Proof. unfold tids_of. rewrite relid_get_entry. by case_decide. Qed.

Lemma push_unique_elem {A} `{EqDecision A} (x y : A) l : y ∈ push_unique x l ↔ y = x ∨ y ∈ l.
Proof. unfold push_unique. case_bool_decide; [naive_solver|]. rewrite elem_of_app, list_elem_of_singleton. tauto. Qed.
Lemma push_unique_NoDup {A} `{EqDecision A} (x : A) l : NoDup l → NoDup (push_unique x l).
Proof.
  intros Hn. unfold push_unique. case_bool_decide; [done|]. apply NoDup_app. split; [done|].
  split; [by intros y Hy ->%list_elem_of_singleton|apply NoDup_singleton].
Qed.

Lemma insert_tid_claims relid t o relid' t' :
  claims_tid (insert_tid relid t o) relid' t' ↔ claims_tid o relid' t' ∨ relid' = relid ∧ t' = t.
Proof.
  unfold claims_tid, insert_tid. cbn [inserted_tids set_inserted_tids]. rewrite tids_of_entry.
  case_decide; [subst; rewrite push_unique_elem|]; naive_solver.
Qed.
Lemma invalidate_hides relid t o relid' t' :
  hides (invalidate relid t o) relid' t' ↔ hides o relid' t' ∨ relid' = relid ∧ t' = t.
Proof.
  unfold hides, invalidate. cbn [invalidated_tids set_invalidated_tids]. rewrite tids_of_entry.
  case_decide; [subst; rewrite push_unique_elem|]; naive_solver.
Qed.

Lemma triple_insert_tid V relid t b :
  triple (λ w, sees V w ∧ free w relid t b) (in_overlay (modify (insert_tid relid t)))
    (λ _, sees (upd V relid t (Some b))).
Proof.
  intros w Hw [Hv Hf]. unfold in_overlay. destruct (inv_shape _ _ _ _ Hw) as [E|[_ E]]; [|rewrite E; simpl; done].
  rewrite E, last_snoc. cbn [modify]. destruct (set_top L w (insert_tid relid t (top w)) E) as (S1 & S2 & S3 & S4).
  set (w' := on_session _ w) in *. destruct Hf as [F1 F2 F3 F4 F5 F6].
  assert (Er : ∀ relid, rel w' relid = rel w relid) by (intros; unfold rel; by rewrite S3).
  assert (Hok : ov_ok (w_storage w) (insert_tid relid t (top w))).
  { destruct (inv_top _ _ _ _ Hw) as [O1 O2 O3 O4 O5 O6 O7]. split; try done.
    - intros relid' t' [Ht|[-> ->]]%insert_tid_claims; [by apply O4|]. destruct F6 as [F6|[_ F6]]; [|right; eauto].
      left. change (prow (insert_tid relid t (top w)) relid t) with (prow (top w) relid t). rewrite F6. eauto.
    - intros relid'. split; [|apply O5]. unfold insert_tid. cbn [inserted_tids set_inserted_tids]. rewrite tids_of_entry.
      case_decide; [apply push_unique_NoDup|]; apply O5.
    - destruct O6 as (K1 & K2 & K3). split; [done|]. split; [|done]. by apply assoc_upsert_NoDup. }
  assert (Hw' : Inv w').
  { eapply (Inv_set_top L T B w); try done.
    - intros relid' t' [Ht|[-> ->]]%insert_tid_claims; [by left|by right].
    - intros relid' b' Hb. by left.
    - intros relid' t' Ht. destruct (inv_hides _ _ _ _ Hw relid' t' Ht) as [?|?]; [|by right]. left. apply insert_tid_claims. by left. }
  simpl. split; [done|]. split; [by split; intros; rewrite ?Er|]. intros _ _ relid' t'.
  rewrite (view_top L T B) by done. rewrite S2, Er. specialize (Hv relid' t'). rewrite (view_top L T B) in Hv by done.
  change (prow (insert_tid relid t (top w)) relid' t') with (prow (top w) relid' t').
  change (hides (insert_tid relid t (top w)) relid' t') with (hides (top w) relid' t').
  rewrite (decide_ext (claims_tid (insert_tid relid t (top w)) relid' t' ∨ owned L relid' t')
    ((claims_tid (top w) relid' t' ∨ relid' = relid ∧ t' = t) ∨ owned L relid' t')) by (by rewrite insert_tid_claims).
  unfold upd. destruct (decide (relid' = relid ∧ t' = t)) as [[-> ->]|Hne].
  - rewrite decide_False by tauto. rewrite decide_True by tauto. rewrite F5.
    destruct F6 as [-> |[-> ->]]; done.
  - rewrite <- Hv. rewrite (decide_ext ((claims_tid (top w) relid' t' ∨ relid' = relid ∧ t' = t) ∨ owned L relid' t')
      (claims_tid (top w) relid' t' ∨ owned L relid' t')) by tauto. done.
Qed.

Lemma triple_invalidate V relid t : is_Some (V relid t) →
  triple (sees V) (in_overlay (modify (invalidate relid t))) (λ _, sees (upd V relid t None)).
Proof.
  intros HV w Hw Hv. unfold in_overlay. destruct (inv_shape _ _ _ _ Hw) as [E|[_ E]]; [|rewrite E; simpl; done].
  rewrite E, last_snoc. cbn [modify]. destruct (set_top L w (invalidate relid t (top w)) E) as (S1 & S2 & S3 & S4).
  set (w' := on_session _ w) in *.
  assert (Er : ∀ relid, rel w' relid = rel w relid) by (intros; unfold rel; by rewrite S3).
  assert (Hok : ov_ok (w_storage w) (invalidate relid t (top w))).
  { destruct (inv_top _ _ _ _ Hw) as [O1 O2 O3 O4 O5 O6 O7]. split; try done.
    - intros relid'. split; [apply O5|]. unfold invalidate. cbn [invalidated_tids set_invalidated_tids]. rewrite tids_of_entry.
      case_decide; [apply push_unique_NoDup|]; apply O5.
    - destruct O6 as (K1 & K2 & K3). split; [done|]. split; [done|]. by apply assoc_upsert_NoDup. }
  assert (Hw' : Inv w').
  { eapply (Inv_set_top L T B w); try done.
    - intros relid' t' Ht. by left.
    - intros relid' b' Hb. by left.
    - intros relid' t' [Ht|[-> ->]]%invalidate_hides; [by apply (inv_hides _ _ _ _ Hw)|].
      rewrite <- (Hv relid t), (view_top L T B) in HV by done. repeat case_decide; [by destruct HV| |].
      + change (claims_tid (invalidate relid t (top w)) relid t) with (claims_tid (top w) relid t). tauto.
      + right; right. destruct (rows (rel w relid) t) as [[[] b]|]; simpl in HV; try (by destruct HV). eauto. }
  simpl. split; [done|]. split; [by split; intros; rewrite ?Er|]. intros _ _ relid' t'.
  rewrite (view_top L T B) by done. rewrite S2, Er. specialize (Hv relid' t'). rewrite (view_top L T B) in Hv by done.
  change (prow (invalidate relid t (top w)) relid' t') with (prow (top w) relid' t').
  change (claims_tid (invalidate relid t (top w)) relid' t') with (claims_tid (top w) relid' t').
  rewrite (decide_ext (hides (invalidate relid t (top w)) relid' t' ∨ hidden L relid' t')
    ((hides (top w) relid' t' ∨ relid' = relid ∧ t' = t) ∨ hidden L relid' t')) by (by rewrite invalidate_hides).
  unfold upd. destruct (decide (relid' = relid ∧ t' = t)) as [[-> ->]|Hne].
  - by rewrite decide_True by tauto.
  - rewrite <- Hv. by rewrite (decide_ext ((hides (top w) relid' t' ∨ relid' = relid ∧ t' = t) ∨ hidden L relid' t')
      (hides (top w) relid' t' ∨ hidden L relid' t')) by tauto.
Qed.

(** ** Running steps *)

(** A free row is not yet seen. *)
Lemma free_unseen w V relid t b : Inv w → sees V w → free w relid t b → V relid t = None.
Proof.
  intros Hw Hv [[[F0 _] _] F2 F3 F4 F5 F6]. rewrite <- Hv. rewrite (view_top L T B) by done.
  rewrite decide_False by tauto. rewrite decide_False.
  - destruct F6 as [F6|[_ ->]]; [|done]. destruct (rows (rel w relid) t) as [row|] eqn:E; [|done].
    apply prow_claims in F6. apply (ok_block _ _ _ _ (inv_top _ _ _ _ Hw)) in F6 as [_ F6].
    apply rows_block in E as [_ [p Hp]]. unfold rel in Hp. congruence.
  - intros [?|?%(owned_T w)]; done.
Qed.

Lemma triple_claim V relid t b :
  triple (λ w, sees V w ∧ free w relid t b) (in_overlay (modify (insert_tid relid t));; mret t)
    (λ t' w, t' = t ∧ tid_wf t ∧ tid_offset t ≠ 0 ∧ V relid t = None ∧ sees (upd V relid t (Some b)) w).
Proof.
  intros w Hw [Hv Hf]. pose proof (free_unseen w V relid t b Hw Hv Hf) as HV. destruct (free_tid _ _ _ _ Hf) as [F1 F2].
  assert (Ht : triple (λ w, sees V w ∧ free w relid t b) (in_overlay (modify (insert_tid relid t));; mret t)
    (λ t' w, t' = t ∧ sees (upd V relid t (Some b)) w)).
  { eapply (triple_bind L T B); [apply triple_insert_tid|]. intros []. apply triple_ret. }
  destruct (Ht w Hw (conj Hv Hf)) as (H1 & H2 & H3). split; [done|]. split; [done|]. intros a Ea. destruct (H3 a Ea). done.
Qed.

(** A row written to a page of the overlay. *)
Lemma overlay_row_run {A} (m : M TransactionOverlay A) w V relid t b res o' : Inv w → sees V w →
  w_stack w = L ++ [top w] → m (top w) = (res, o') → gets_row (w_storage w) relid t b (top w) o' →
  ¬ B relid (tid_block t) → tid_wf t ∧ tid_offset t ≠ 0 →
  let w' := (in_overlay m w).2 in
  (in_overlay m w).1 = res ∧ Inv w' ∧ quiet w w' ∧ sees V w' ∧ free w' relid t b.
Proof.
  intros Hw Hv E Em Hg HB Ht. cbv zeta. unfold in_overlay. rewrite E, last_snoc, Em.
  destruct (set_top L w o' E) as (S1 & S2 & S3 & S4).
  destruct (Inv_add_pending w (on_session (last_overlay_mut (λ _, o')) w) relid t b o') as (H1 & H2 & H3 & H4); try done.
  simpl. split; [done|]. split; [done|]. split; [done|]. split; [by apply H3|done].
Qed.

Lemma overlay_nothing {A} (m : M TransactionOverlay A) w res : Inv w → m (top w) = (res, top w) →
  let w' := (in_overlay m w).2 in
  Inv w' ∧ neutral w w' ∧ (w_stack w ≠ [] → (in_overlay m w).1 = res) ∧ w_storage w' = w_storage w ∧ w_stack w' = w_stack w.
Proof.
  intros Hw Em. cbv zeta. unfold in_overlay. destruct (inv_shape _ _ _ _ Hw) as [E|[_ E]]; [|rewrite E; simpl; done].
  rewrite E, last_snoc, Em. destruct (set_top L w (top w) E) as (S1 & S2 & S3 & S4). simpl. split.
  - eapply (Inv_set_top L T B w); try done; [apply (inv_top _ _ _ _ Hw)|by left|by left|apply (inv_hides _ _ _ _ Hw)].
  - split; [|done]. split; intros; rewrite ?S2; [|done..]. unfold rel. by rewrite S3.
Qed.

Lemma in_relation_run {A} relid (m : M RelationStorage A) w :
  let '(res, w') := in_relation relid m w in
  res = (m (rel w relid)).1 ∧ w_stack w' = w_stack w ∧ w_row_counts w' = w_row_counts w ∧
  ∀ relid', rel w' relid' = if decide (relid' = relid) then (m (rel w relid)).2 else rel w relid'.
Proof.
  unfold in_relation. fold (rel w relid). destruct (m (rel w relid)) as [res r'] eqn:E. simpl.
  split; [done|]. split; [done|]. split; [done|]. intros relid'. apply relation_of_insert.
Qed.

Lemma calm_in_relation {A} relid (m : M RelationStorage A) : (∀ r, rel_calm r (m r).2) → calm (in_relation relid m).
Proof.
  intros Hm w Hw. pose proof (in_relation_run relid m w) as Hrun. destruct (in_relation relid m w) as [res w'].
  destruct Hrun as (_ & H1 & H2 & H3). simpl. eapply Inv_set_rel; done.
Qed.

(** A step on the overlay leaves the relations alone. *)
Lemma triple_overlay {A} V (F : StorageState → Prop) (m : M TransactionOverlay A) : (∀ st, respects (ov_same st) m) →
  triple (λ w, sees V w ∧ F (w_storage w)) (in_overlay m) (λ _ w, sees V w ∧ F (w_storage w)).
Proof.
  intros Hm w Hw [Hv HF]. destruct (calm_triple L T B (in_overlay m) V (calm_overlay L T B m Hm) w Hw Hv) as (H1 & H2 & H3).
  split; [done|]. split; [done|]. intros a Ea. split; [by eapply H3|]. unfold in_overlay.
  destruct (last (w_stack w)); [|done]. by destruct (m t).
Qed.
End steps.

(** * Appending rows *)

(** ** Pending pages *)

Lemma rposition_some {A} (f : A → bool) l i : rposition f l = Some i → ∃ x, l !! i = Some x ∧ f x = true.
Proof.
  unfold rposition. destruct (list_find _ (reverse l)) as [[k x]|] eqn:E; [|done]. intros [= <-].
  apply list_find_Some in E as (Hk & Hf & _). exists x. split; [|by apply Is_true_true].
  pose proof (lookup_lt_Some _ _ _ Hk) as Hlt. rewrite length_reverse in Hlt.
  rewrite reverse_lookup in Hk by done. rewrite <- Hk. f_equal. lia.
Qed.

Lemma ppages_get relid ps o : relid_get relid (pending_pages o) = Some ps → ppages relid o = ps.
Proof. unfold ppages. by intros ->. Qed.

Lemma gets_row_existing st relid o ps i p b : ov_ok st o → relid_get relid (pending_pages o) = Some ps → ps !! i = Some p →
  0 < len b <= U32_MAX → can_fit p (len b) = true →
  gets_row st relid (next_tid p) b o
    (set_pending_pages (relid_get_mut relid (λ ps, <[i := appended b LPending p]> ps) (pending_pages o)) o).
Proof.
  intros Ho Hps Hp Hn Hf. set (p' := appended b LPending p). set (o' := set_pending_pages _ o).
  pose proof (ppages_get _ _ _ Hps) as Ep.
  assert (Hin : p ∈ ppages relid o) by (rewrite Ep; by eapply list_elem_of_lookup_2).
  destruct (ok_pages _ _ Ho relid p Hin) as (Hw & Hpend & Hlt & Hnone).
  destruct (appended_fields p (len b) Hn Hf b LPending eq_refl) as (F1 & _ & _ & F4). fold p' in F1, F4.
  assert (Hpp : ∀ relid', ppages relid' o' = if decide (relid' = relid) then <[i := p']> (ppages relid o) else ppages relid' o).
  { intros relid'. unfold ppages, o'. cbn [pending_pages set_pending_pages]. rewrite relid_get_get_mut, Hps. by case_decide. }
  assert (Hblk : ∀ relid', pg_block <$> ppages relid' o' = pg_block <$> ppages relid' o).
  { intros relid'. rewrite Hpp. case_decide; [|done]. subst relid'. rewrite list_fmap_insert. apply list_insert_id.
    by rewrite list_lookup_fmap, Ep, Hp, F1. }
  assert (Hprow : ∀ relid' t', prow o' relid' t' =
    if decide (relid' = relid ∧ t' = next_tid p) then Some (LPending, b) else prow o relid' t').
  { intros relid' t'. unfold prow. rewrite Hpp. destruct (decide (relid' = relid)) as [->|]; [|by rewrite decide_False by tauto].
    rewrite Ep. destruct (ppage_insert ps i p p' (tid_block t')) as [_ ->]; [rewrite <- Ep; apply (ok_blocks _ _ Ho)|done|done|].
    assert (Hpg : ppage ps (pg_block p) = Some p).
    { apply ppage_elem; [rewrite <- Ep; apply (ok_blocks _ _ Ho)|]. by rewrite <- Ep. }
    destruct t' as [tb to]. unfold next_tid. simpl. destruct (decide (tb = pg_block p)) as [->|Hne].
    - rewrite Hpg. simpl. unfold p'. rewrite (appended_row p Hw (len b) Hn Hf b LPending to eq_refl).
      destruct (decide (to = len (line_pointers p) + 1)) as [->|]; [by rewrite decide_True|]. rewrite decide_False; [done|].
      intros [_ [= ?]]. done.
    - rewrite (decide_False (P := relid = relid ∧ _)); [done|]. by intros [_ [= ? ?]]. }
  split; [|done| |done|done|].
  - destruct Ho as [O1 O2 O3 O4 O5 O6 O7]. split; try done.
    + intros relid' q Hq. rewrite Hpp in Hq. destruct (decide (relid' = relid)) as [->|]; [|by apply O2].
      apply list_elem_of_lookup in Hq as [j Hj]. destruct (decide (j = i)) as [->|].
      * rewrite list_lookup_insert_eq in Hj by (rewrite Ep; by eapply lookup_lt_Some). injection Hj as <-.
        split; [by apply (appended_wf p Hw (len b))|]. rewrite F1, F4. split; [|done]. apply Forall_app. by split; [|constructor].
      * rewrite list_lookup_insert_ne in Hj by done. apply O2. by eapply list_elem_of_lookup_2.
    + intros relid'. rewrite Hblk. apply O3.
    + intros relid' t' Ht. destruct (O4 relid' t' Ht) as [[row Hrow]|?]; [|by right]. left. rewrite Hprow. case_decide; eauto.
    + destruct O6 as (K1 & K2 & K3). split; [|done]. unfold o', relid_get_mut. cbn [pending_pages set_pending_pages].
      by rewrite assoc_alter_keys.
  - unfold prow. rewrite Ep. simpl. assert (ppage ps (pg_block p) = Some p) as ->.
    { apply ppage_elem; [rewrite <- Ep; apply (ok_blocks _ _ Ho)|]. by rewrite <- Ep. }
    simpl. apply (page_row_none p Hw). destruct (page_line p _) as [l|] eqn:El; [|done]. apply page_line_bound in El. lia.
  - intros relid' b'. unfold claims_block. rewrite Hblk. split; [by left|]. intros [?|[-> ->]]; [done|].
    apply list_elem_of_fmap. by exists p.
Qed.

Lemma gets_row_new st relid o p b : ov_ok st o → page_wf p → line_pointers p = [] →
  pg_block p < next_block (relation_of st relid) → page (relation_of st relid) (pg_block p) = None →
  ¬ claims_block o relid (pg_block p) → 0 < len b <= U32_MAX → can_fit p (len b) = true →
  gets_row st relid (next_tid p) b o (push_pending_page relid (appended b LPending p) o).
Proof.
  intros Ho Hw Hl Hlt Hnone Hnc Hn Hf. set (p' := appended b LPending p). set (o' := push_pending_page relid p' o).
  destruct (appended_fields p (len b) Hn Hf b LPending eq_refl) as (F1 & _ & _ & F4). fold p' in F1, F4.
  assert (Hpp : ∀ relid', ppages relid' o' = if decide (relid' = relid) then ppages relid o ++ [p'] else ppages relid' o).
  { intros relid'. unfold ppages, o'. cbn [pending_pages set_pending_pages push_pending_page]. rewrite relid_get_entry.
    by case_decide. }
  assert (Hnb : ppage (ppages relid o) (pg_block p) = None) by (by apply ppage_none).
  assert (Hprow : ∀ relid' t', prow o' relid' t' =
    if decide (relid' = relid ∧ t' = next_tid p) then Some (LPending, b) else prow o relid' t').
  { intros relid' t'. unfold prow. rewrite Hpp. destruct (decide (relid' = relid)) as [->|]; [|by rewrite decide_False by tauto].
    rewrite ppage_app, F1. destruct t' as [tb to]. unfold next_tid. simpl. destruct (decide (tb = pg_block p)) as [->|Hne].
    - simpl. unfold p'. rewrite (appended_row p Hw (len b) Hn Hf b LPending to eq_refl), Hnb. simpl.
      destruct (decide (to = len (line_pointers p) + 1)) as [->|]; [by rewrite decide_True|]. rewrite decide_False; [|by intros [_ [= ?]]].
      unfold page_row, page_line. rewrite Hl. destruct (checked_sub to 1) as [k|]; [|done]. simpl. by destruct (Z.to_nat k).
    - rewrite (decide_False (P := relid = relid ∧ _)); [done|]. by intros [_ [= ? ?]]. }
  assert (Hbl : ∀ relid' b', claims_block o' relid' b' ↔ claims_block o relid' b' ∨ relid' = relid ∧ b' = pg_block p).
  { intros relid' b'. unfold claims_block. rewrite Hpp. case_decide; [|tauto]. subst.
    rewrite fmap_app, elem_of_app. change (pg_block <$> [p']) with [pg_block p']. rewrite list_elem_of_singleton, F1. tauto. }
  split; [|done| |done|done|done].
  - destruct Ho as [O1 O2 O3 O4 O5 O6 O7]. split; try done.
    + intros relid' q Hq. rewrite Hpp in Hq. destruct (decide (relid' = relid)) as [->|]; [|by apply O2].
      apply elem_of_app in Hq as [Hq| ->%list_elem_of_singleton]; [by apply O2|].
      split; [by apply (appended_wf p Hw (len b))|]. rewrite F1, F4, Hl. split; [by constructor|done].
    + intros relid'. rewrite Hpp. case_decide; [|apply O3]. subst. rewrite fmap_app. apply NoDup_app. split; [apply O3|].
      split; [|apply NoDup_singleton]. change (pg_block <$> [p']) with [pg_block p']. intros x Hx ->%list_elem_of_singleton. rewrite F1 in Hx. done.
    + intros relid' t' Ht. destruct (O4 relid' t' Ht) as [[row Hrow]|?]; [|by right]. left. rewrite Hprow. case_decide; eauto.
    + destruct O6 as (K1 & K2 & K3). split; [|done]. by apply assoc_upsert_NoDup.
  - unfold prow. simpl. rewrite Hnb. done.
Qed.

Lemma next_tid_wf p : page_wf p → len (line_pointers p) < MAX_CTID_OFFSET → tid_wf (next_tid p) ∧ tid_offset (next_tid p) ≠ 0.
Proof.
  intros Hp Hl. pose proof (len_nonneg (line_pointers p)). unfold next_tid, tid_wf, MAX_CTID_OFFSET in *. simpl.
  change (2 ^ 16) with 65536. split; [split; [apply (pwf_block _ Hp)|lia]|lia].
Qed.

Section appends.
Context `{Target} `{Catalog} (mem : Z → Z).
Context (L : list TransactionOverlay) (T : Z → Tid → Prop) (B : Z → Z → Prop).
Abbreviation Inv := (Inv L T B).
Abbreviation triple := (triple L T B).
Abbreviation quiet := (quiet T).
Abbreviation calm := (respects (calm_step L T B)).
Abbreviation free := (free L T).
#[local] Existing Instance quiet_preorder.
#[local] Existing Instance calm_step_preorder.
Implicit Types (V : Z → Tid → option (list Z)).

(** What an insertion leaves: one more row, which was not there. *)
Definition inserted V (relid : Z) (input : RowInput) (t : Tid) (w : World) : Prop :=
  tid_wf t ∧ tid_offset t ≠ 0 ∧ V relid t = None ∧ ∃ b, encodes mem input b ∧ sees (upd V relid t (Some b)) w.

(** A pending page with room gets the row; where there is none, nothing changes. *)
Lemma triple_existing_frame V (F : StorageState → list TransactionOverlay → Prop) relid input n max :
  input_ok input → tuple_storage_len input = Ok n → 0 < n <= U32_MAX →
  triple (λ w, sees V w ∧ F (w_storage w) (w_stack w)) (in_overlay (append_pending_input_tuple_to_existing_page mem relid input n max))
    (λ res w, match res with
              | Some t => sees V w ∧ ∃ b, encodes mem input b ∧ free w relid t b
              | None => sees V w ∧ F (w_storage w) (w_stack w)
              end).
Proof.
  intros Hok Hl Hn w Hw [Hv HF]. set (m := append_pending_input_tuple_to_existing_page mem relid input n max).
  destruct (ps ← relid_get relid (pending_pages (top w)); i ← rposition (page_has_room n max) ps; p ← ps !! i; Some (i, p))
    as [[i p]|] eqn:Es.
  - pose proof Es as Es'. apply bind_Some in Es' as (ps & Hps & (i' & Hi & (p' & Hp & [= -> ->])%bind_Some)%bind_Some).
    apply rposition_some in Hi as (q & Hq & Hroom). rewrite Hp in Hq. injection Hq as <-.
    apply andb_true_iff in Hroom as [Hf _].
    destruct (inv_shape _ _ _ _ Hw) as [E|[_ E]]; [|unfold top in Hps; by rewrite E in Hps].
    assert (Hin : p ∈ ppages relid (top w)) by (rewrite (ppages_get _ _ _ Hps); by eapply list_elem_of_lookup_2).
    destruct (ok_pages _ _ (inv_top _ _ _ _ Hw) _ _ Hin) as (Hpw & _ & _ & _).
    pose proof (append_input_run mem input n LPending p Hpw Hok Hl Hn) as Hrun. rewrite Hf in Hrun.
    destruct Hrun as (b & Hb & Henc & Hrun). rewrite <- Hb in Hn, Hf.
    destruct (can_fit_room p (len b) Hpw ltac:(lia) Hf) as [_ Hcnt].
    destruct (overlay_row_run L T B m w V relid (next_tid p) b (Ok (Some (next_tid p)))
      (set_pending_pages (relid_get_mut relid (λ ps, <[i := appended b LPending p]> ps) (pending_pages (top w))) (top w)))
      as (H1 & H2 & H3 & H4 & H5); try done.
    + unfold m, append_pending_input_tuple_to_existing_page. by rewrite Es, Hrun.
    + apply (gets_row_existing _ _ _ ps); [apply (inv_top _ _ _ _ Hw)|done..].
    + intros HB. destruct (inv_B _ _ _ _ Hw _ _ HB) as [Hnc _]. apply Hnc. apply list_elem_of_fmap. by exists p.
    + by apply next_tid_wf.
    + split; [done|]. split; [done|]. intros a Ea. rewrite H1 in Ea. injection Ea as <-. eauto.
  - destruct (overlay_nothing L T B m w (Ok None) Hw) as (H1 & H2 & H3 & H4 & H5).
    { unfold m, append_pending_input_tuple_to_existing_page. by rewrite Es. }
    split; [done|]. split; [by apply neutral_quiet|]. intros a Ea.
    destruct (inv_shape _ _ _ _ Hw) as [E|[_ E]].
    + rewrite H3 in Ea by (rewrite E; by destruct L). injection Ea as <-. rewrite H4, H5.
      split; [by apply (neutral_sees L T B V w)|done].
    + unfold in_overlay in Ea. by rewrite E in Ea.
Qed.

Lemma triple_existing_input V relid input n max : input_ok input → tuple_storage_len input = Ok n → 0 < n <= U32_MAX →
  triple (sees V) (in_overlay (append_pending_input_tuple_to_existing_page mem relid input n max))
    (λ res w, match res with
              | Some t => sees V w ∧ ∃ b, encodes mem input b ∧ free w relid t b
              | None => sees V w
              end).
Proof.
  intros Hok Hl Hn. eapply triple_conseq; [by apply (triple_existing_frame V (λ _ _, True))|by intros w _ ?|].
  intros [t|] w _; [done|by intros [? _]].
Qed.

(** ** New pending pages *)

(** An empty page on a block that was just given out. *)
Record fresh_page (w : World) (relid : Z) (p : Page) (n : Z) : Prop := {
  fp_wf : page_wf p;
  fp_empty : line_pointers p = [];
  fp_room : can_fit p n = true;
  fp_next : pg_block p < next_block (rel w relid);
  fp_none : page (rel w relid) (pg_block p) = None;
  fp_top : ¬ claims_block (top w) relid (pg_block p);
  fp_B : ¬ B relid (pg_block p);
}.

Lemma triple_reserve V relid n : 0 < n <= U32_MAX →
  triple (sees V) (reserve_pending_page relid n) (λ p w, sees V w ∧ fresh_page w relid p n).
Proof.
  intros Hn w Hw Hv. unfold reserve_pending_page. fold (rel w relid).
  pose proof (inv_rels _ _ _ _ Hw relid) as Hr. pose proof (reserve_block_spec _ Hr) as Hres.
  assert (Hset : ∀ r', rel_calm (rel w relid) r' →
    let w' := on_storage (set_relations (<[relid := r']> (relations (w_storage w)))) w in
    Inv w' ∧ neutral w w' ∧ ∀ relid', rel w' relid' = if decide (relid' = relid) then r' else rel w relid').
  { intros r' Hc. cbv zeta. match goal with |- Inv ?x ∧ _ => set (w' := x) end.
    assert (Er : ∀ relid', rel w' relid' = if decide (relid' = relid) then r' else rel w relid')
      by (intros; apply relation_of_insert).
    destruct (Inv_set_rel L T B w w' relid r') as [H1 H2]; done. }
  destruct (reserve_block (rel w relid)) as [[b|] r'].
  - destruct Hres as (Eb & Hlt & -> & Hr').
    set (r'' := set_pending_reserved_blocks _ _).
    destruct (Hset r'') as (H1 & H2 & H3).
    { intros _. split; [apply (core_wf _ r'') in Hr'; done|]. split; [done|]. split; [cbn; lia|done]. }
    match goal with |- Inv (_, ?x).2 ∧ _ => set (w' := x) in * end. simpl. split; [done|]. split; [by apply neutral_quiet|].
    intros p [= <-]. split; [by apply (neutral_sees L T B V w)|].
    pose proof (rwf_next _ Hr) as Hnx. pose proof (len_nonneg (pages (rel w relid))).
    destruct (page_new_wf b (st_epoch (w_storage w)) (st_generation (w_storage w)) n) as [Hp Hrem]; [unfold U32_MAX in *; mlia..|].
    split; try done.
    + unfold can_fit. by rewrite (proj2 (Z.leb_le _ _)) by done.
    + rewrite H3, decide_True by done. cbn. lia.
    + rewrite H3, decide_True by done. cbn [page_new pg_block]. change (page r'' b) with (page (rel w relid) b).
      apply page_beyond; [done|lia].
    + intros Hc. apply (ok_block (w_storage w)) in Hc as [Hc _]; [|apply (inv_top _ _ _ _ Hw)]. cbn in Hc. unfold rel in Eb. lia.
    + intros Hc. apply (inv_B _ _ _ _ Hw) in Hc as (_ & Hc & _). cbn in Hc. lia.
  - destruct Hres as [-> _]. destruct (Hset (rel w relid)) as (H1 & H2 & _); [by intros|].
    split; [done|]. split; [by apply neutral_quiet|]. done.
Qed.

Lemma triple_new_input V relid p input n : input_ok input → tuple_storage_len input = Ok n → 0 < n <= U32_MAX →
  triple (λ w, sees V w ∧ fresh_page w relid p n)
    (in_overlay (append_pending_input_tuple_to_new_page mem relid p input n))
    (λ res w, match res with
              | Some t => sees V w ∧ ∃ b, encodes mem input b ∧ free w relid t b
              | None => True
              end).
Proof.
  intros Hok Hl Hn w Hw [Hv Hf]. set (m := append_pending_input_tuple_to_new_page mem relid p input n).
  destruct Hf as [P1 P2 P3 P4 P5 P6 P7].
  pose proof (append_input_run mem input n LPending p P1 Hok Hl Hn) as Hrun. rewrite P3 in Hrun.
  destruct Hrun as (b & Hb & Henc & Hrun). rewrite <- Hb in Hn, P3.
  destruct (can_fit_room p (len b) P1 ltac:(lia) P3) as [_ Hcnt].
  destruct (inv_shape _ _ _ _ Hw) as [E|[_ E]].
  - destruct (overlay_row_run L T B m w V relid (next_tid p) b (Ok (Some (next_tid p)))
      (push_pending_page relid (appended b LPending p) (top w))) as (H1 & H2 & H3 & H4 & H5); try done.
    + unfold m, append_pending_input_tuple_to_new_page. by rewrite Hrun.
    + by apply gets_row_new; [apply (inv_top _ _ _ _ Hw)|..].
    + by apply next_tid_wf.
    + split; [done|]. split; [done|]. intros a Ea. rewrite H1 in Ea. injection Ea as <-. eauto.
  - unfold in_overlay. rewrite E. simpl. done.
Qed.

(** ** Pages of the relation *)

Lemma ov_same_checkpoint st relid r o : next_block r <= U32_MAX → ov_same st o (checkpoint_relation relid r o).
Proof.
  intros Hr [O1 O2 O3 O4 O5 O6 O7]. split; [|by split]. split; try done. intros relid' c Hc.
  unfold checkpoint_relation in Hc. cbn [relation_checkpoints set_relation_checkpoints] in Hc.
  unfold relid_entry in Hc. revert Hc. generalize (relation_checkpoints o), O7. clear -Hr. intros l.
  induction l as [|[k v] l IH]; simpl; intros O7 Hc.
  - apply list_elem_of_singleton in Hc as [= -> ->]. done.
  - case_decide; apply elem_of_cons in Hc as [[= -> ->]|Hc].
    + eapply O7. by left.
    + eapply O7. by right.
    + eapply O7. by left.
    + apply IH; [|done]. intros relid'' c' Hc'. eapply O7. by right.
Qed.

Lemma triple_target V relid n epoch generation : 0 < n <= U32_MAX →
  triple (sees V) (in_relation relid (returning (append_target_block n epoch generation)))
    (λ res w, sees V w ∧ match res with
      | Some b => 0 <= b ∧ ∃ p, page (rel w relid) b = Some p ∧ can_fit p n = true
      | None => True
      end).
Proof.
  intros Hn w Hw Hv. pose proof (in_relation_run relid (returning (append_target_block n epoch generation)) w) as Hrun.
  destruct (in_relation relid _ w) as [res w']. destruct Hrun as (-> & H1 & H2 & H3).
  pose proof (append_target_block_spec (rel w relid) n epoch generation (inv_rels _ _ _ _ Hw relid) Hn) as Hs.
  unfold returning in *. destruct (append_target_block n epoch generation (rel w relid)) as [[b|] r'] eqn:Ea; simpl in *.
  - destruct Hs as (S1 & S2 & S3 & S4 & (p & S5 & S6) & _).
    destruct (Inv_set_rel L T B w w' relid r') as [G1 G2]; [done..|by intros _|].
    split; [done|]. split; [by apply neutral_quiet|]. intros a [= <-]. split; [by apply (neutral_sees L T B V w)|].
    split; [done|]. exists p. by rewrite H3, decide_True.
  - destruct Hs as [-> _]. destruct (Inv_set_rel L T B w w' relid (rel w relid)) as [G1 G2]; [done..|by intros|].
    split; [done|]. split; [by apply neutral_quiet|]. intros a [= <-]. split; [|done]. by apply (neutral_sees L T B V w).
Qed.

Lemma triple_relation_row V relid b input n : input_ok input → tuple_storage_len input = Ok n → 0 < n <= U32_MAX → 0 <= b →
  triple (λ w, sees V w ∧ ∃ p, page (rel w relid) b = Some p ∧ can_fit p n = true)
    (in_relation relid (rel_append_pending_input_tuple mem b input n))
    (λ res w, match res with
              | Some t => sees V w ∧ ∃ bytes, encodes mem input bytes ∧ free w relid t bytes
              | None => sees V w
              end).
Proof.
  intros Hok Hl Hn Hb w Hw (Hv & p & Hp & Hf). pose proof (inv_rels _ _ _ _ Hw relid) as Hr.
  pose proof (in_relation_run relid (rel_append_pending_input_tuple mem b input n) w) as Hrun.
  destruct (in_relation relid _ w) as [res w']. destruct Hrun as (-> & H1 & H2 & H3).
  destruct (rel_append_input_run mem (rel w relid) b p input n Hr Hb Hp Hok Hl Hn Hf) as (bytes & Hlen & Henc & Hrun).
  rewrite Hrun in *. cbn [fst snd] in *. rewrite <- Hlen in Hn, Hf.
  destruct (rel_appended_spec (rel w relid) b p bytes Hr Hb Hp Hn Hf) as (S1 & S2 & _ & S3).
  destruct (next_tid_fresh (rel w relid) b p Hr Hb Hp) as [S4 _]. rewrite Hlen in *.
  destruct (Inv_add_row L T B w w' relid _ (next_tid p) bytes Hw H1 H2 H3 S1 S2 S4 S3) as (G1 & G2 & G3 & G4).
  split; [done|]. split; [done|]. intros a [= <-]. split; [by apply G3|]. eauto.
Qed.
End appends.

Section inserts.
Context `{Target} `{Catalog} (mem : Z → Z).
Context (L : list TransactionOverlay) (T : Z → Tid → Prop) (B : Z → Z → Prop).
Abbreviation Inv := (Inv L T B).
Abbreviation triple := (triple L T B).
Abbreviation quiet := (quiet T).
Abbreviation calm := (respects (calm_step L T B)).
Abbreviation free := (free L T).
#[local] Existing Instance quiet_preorder.
#[local] Existing Instance calm_step_preorder.
Implicit Types (V : Z → Tid → option (list Z)).

(** ** Appending a row, by whichever way *)

Lemma calm_ensure : calm (modify (on_session ensure_transaction)).
Proof.
  intros w Hw. simpl. destruct (inv_shape _ _ _ _ Hw) as [E|[EL E]].
  - assert (on_session ensure_transaction w = w) as ->; [|done]. unfold on_session, ensure_transaction, w_stack in *.
    rewrite E. destruct w. by destruct L.
  - set (w' := on_session ensure_transaction w).
    assert (Es : w_stack w' = [overlay_default]).
    { unfold w', on_session, ensure_transaction, w_stack in *. cbn [w_session set_w_session]. by rewrite E. }
    assert (Et : top w = overlay_default) by (unfold top; by rewrite E).
    assert (Et' : top w' = overlay_default) by (unfold top; by rewrite Es).
    split; [|split; intros; by rewrite ?Et, ?Et'].
    apply (Inv_set_top L T B w w' overlay_default); [done|by rewrite EL|done|done|..].
    + apply ov_ok_default.
    + intros relid t Ht. by apply not_elem_of_nil in Ht.
    + intros relid b Hb. by apply not_elem_of_nil in Hb.
    + intros relid t Ht. by apply not_elem_of_nil in Ht.
Qed.

(** A row that was written is claimed. *)
Lemma triple_claim_input V relid input t :
  triple (λ w, sees V w ∧ ∃ b, encodes mem input b ∧ free w relid t b)
    (in_overlay (modify (insert_tid relid t));; mret t) (λ t w, inserted mem V relid input t w).
Proof.
  intros w Hw (Hv & b & Henc & Hf). destruct (triple_claim L T B V relid t b w Hw (conj Hv Hf)) as (H1 & H2 & H3).
  split; [done|]. split; [done|]. intros a Ea. destruct (H3 a Ea) as (-> & G1 & G2 & G3 & G4). repeat split; try done; try apply G1.
  eauto.
Qed.

Lemma triple_relation_page V relid input n : input_ok input → tuple_storage_len input = Ok n → 0 < n <= U32_MAX →
  triple (sees V) (append_pending_input_tuple_to_relation_page mem relid input n)
    (λ res w, match res with Some t => inserted mem V relid input t w | None => sees V w end).
Proof.
  intros Hok Hl Hn. unfold append_pending_input_tuple_to_relation_page. destruct (negb _).
  { eapply triple_conseq; [apply triple_ret|done|]. by intros a w _ [-> ?]. }
  eapply (triple_bind L T B _ _ (λ _, sees V)).
  { apply triple_get. }
  intros st. eapply (triple_bind L T B _ _ (λ _, sees V)); [apply calm_triple, calm_in_relation; by intros r|]. intros _.
  eapply (triple_bind L T B _ _ (λ r w, next_block r <= U32_MAX ∧ sees V w)).
  { eapply triple_conseq; [apply triple_gets|done|]. intros a w Hw [-> ?]. split; [|done].
    apply (rwf_next _ (inv_rels _ _ _ _ Hw relid)). }
  intros r w Hw [Hr Hv]. revert w Hw Hv. change (triple (sees V)
    (in_overlay (modify (checkpoint_relation relid r));;
     target ← in_relation relid (returning (append_target_block n (st_epoch st) (st_generation st)));
     match target with
     | None => mret None
     | Some block =>
       r ← gets (λ w, relation_of (w_storage w) relid);
       in_overlay (modify (λ o, match page r block with Some p => checkpoint_page relid p o | None => o end));;
       res ← in_relation relid (rel_append_pending_input_tuple mem block input n);
       match res with
       | None => mret None
       | Some tid => in_overlay (modify (insert_tid relid tid));; mret (Some tid)
       end
     end) (λ res w, match res with Some t => inserted mem V relid input t w | None => sees V w end)).
  eapply (triple_bind L T B _ _ (λ _, sees V)).
  { apply calm_triple, calm_overlay. intros st' o. by apply ov_same_checkpoint. }
  intros _. eapply (triple_bind L T B); [by apply triple_target|]. intros [b|]; cycle 1.
  { eapply triple_conseq; [apply triple_ret|by intros w _ [? _]|]. intros a w _ [-> Hv]. exact Hv. }
  intros w0 Hw0 (Hv0 & Hb & Hp0). revert w0 Hw0 Hv0 Hp0.
  assert (Hrest : triple (λ w, sees V w ∧ ∃ p, page (relation_of (w_storage w) relid) b = Some p ∧ can_fit p n = true)
    (r ← gets (λ w, relation_of (w_storage w) relid);
       in_overlay (modify (λ o, match page r b with Some p => checkpoint_page relid p o | None => o end));;
       res ← in_relation relid (rel_append_pending_input_tuple mem b input n);
       match res with
       | None => mret None
       | Some tid => in_overlay (modify (insert_tid relid tid));; mret (Some tid)
       end) (λ res w, match res with Some t => inserted mem V relid input t w | None => sees V w end)).
  { eapply (triple_bind L T B _ _ (λ _ w, sees V w ∧ ∃ p, page (relation_of (w_storage w) relid) b = Some p ∧ can_fit p n = true)).
    { apply triple_get. }
    intros r'. eapply (triple_bind L T B).
    { apply (triple_overlay L T B V (λ st, ∃ p, page (relation_of st relid) b = Some p ∧ can_fit p n = true)).
      intros st' o. apply ov_same_core. simpl. destruct (page r' b); [|done]. unfold checkpoint_page. by repeat case_match. }
    intros u. eapply (triple_bind L T B); [by apply triple_relation_row|]. intros [t|]; cycle 1.
    { apply (triple_done L T B (λ res w, match res with Some t => inserted mem V relid input t w | None => sees V w end) None). }
    intros w Hw Hpre. pose proof (triple_claim_input V relid input t w Hw Hpre) as Hc. revert Hc.
    unfold mbind, M_bind. destruct (in_overlay (modify (insert_tid relid t)) w) as [[[]|c e] w']; [|simpl; intros (G1 & G2 & _); split; [done|]; split; done].
    simpl. intros (G1 & G2 & G3). split; [done|]. split; [done|]. intros a [= <-]. by apply G3. }
  intros w Hw Hv Hp. by apply Hrest.
Qed.

Lemma triple_append_with_len V relid input n : input_ok input → tuple_storage_len input = Ok n → 0 < n <= U32_MAX →
  triple (sees V) (append_pending_input_tuple_with_len mem relid input n) (λ t w, inserted mem V relid input t w).
Proof.
  intros Hok Hl Hn. unfold append_pending_input_tuple_with_len.
  eapply (triple_bind L T B _ _ (λ _, sees V)); [apply calm_triple, calm_ensure|]. intros _.
  eapply (triple_bind L T B _ _ (λ _, sees V)).
  { apply triple_get. }
  intros max. eapply (triple_bind L T B); [by apply triple_existing_input|]. intros [t|]; [apply triple_claim_input|].
  eapply (triple_bind L T B); [by apply triple_relation_page|]. intros [t|].
  { apply triple_done. }
  eapply (triple_bind L T B); [by apply triple_reserve|]. intros p.
  eapply (triple_bind L T B); [by apply triple_new_input|]. intros [t|]; [apply triple_claim_input|].
  intros w Hw _. simpl. split; [done|]. split; [done|]. done.
Qed.

Lemma storage_len_bounds input n : input_ok input → tuple_storage_len input = Ok n → 0 < n <= U32_MAX.
Proof.
  intros Hok Hn. destruct (tuple_storage_len_ok input n Hok Hn) as (HN & Hn32 & HP & _).
  pose proof (len_nonneg (in_values input)) as Hnn. destruct (payload_offset_spec _ (conj Hnn HN)) as [Hp _].
  pose proof (dir_bound _ (conj Hnn HN)). unfold TUPLE_HEADER_LEN in *. lia.
Qed.

Lemma triple_append V relid input : input_ok input →
  triple (sees V) (append_pending_input_tuple mem relid input) (λ t w, inserted mem V relid input t w).
Proof.
  intros Hok. unfold append_pending_input_tuple. eapply (triple_bind L T B); [apply triple_lift|]. intros n w Hw [Hl Hv].
  apply triple_append_with_len; [done..| |done|done]. by apply (storage_len_bounds input).
Qed.

Lemma triple_append_current V relid input : input_ok input →
  triple (sees V) (append_pending_input_tuple_current_session mem relid input) (λ t w, inserted mem V relid input t w).
Proof.
  intros Hok. unfold append_pending_input_tuple_current_session. eapply (triple_bind L T B); [apply triple_lift|].
  intros n w Hw [Hl Hv]. pose proof (storage_len_bounds input n Hok Hl) as Hn. revert w Hw Hv.
  apply (triple_bind L T B _ _ (λ _, sees V)).
  { apply triple_get. }
  intros max. eapply (triple_bind L T B _ _ (λ _, sees V)); [apply calm_triple, calm_ensure|]. intros _.
  eapply (triple_bind L T B); [by apply triple_existing_input|]. intros [t|]; [apply triple_claim_input|].
  by apply triple_append_with_len.
Qed.
End inserts.
