(* ===== verification/EngCalls.v ===== *)
(** * The calls of a session

    What insertions, updates and deletions do to what the session sees, and
    that they leave the invariant and the rows of others.  Most of their steps
    are calm: metadata, index entries, redirects and their compression change
    nothing that a session sees.  The calls of EngFfi.v that compress redirects,
    record metadata of rows and entries of indexes or bound the number of rows
    in a block are nothing but such steps. *)

From Stdlib Require Import ZArith Lia.
From stdpp Require Import base tactics numbers list gmap strings sorting.
From S2P Require Import Prelude RustStd EngTid EngTuple EngPage EngIndex EngRelation EngOverlay EngState EngOps EngScan EngFfi EngTupleProofs EngPageProofs EngRelationProofs EngInv EngAppend.

Local Open Scope Z_scope.

(** * Insertions, updates and deletions *)

(** ** Steps on the overlay that no reader notices *)

#[global] Instance ov_view_preorder : PreOrder ov_view.
Proof.
  split; [by split|]. intros o1 o2 o3 [A2 A3 A4 A5] [B2 B3 B4 B5]. split; intros.
  - by rewrite B2, A2.
  - by rewrite B3, A3.
  - by rewrite B4, A4.
  - by rewrite B5, A5.
Qed.
#[global] Instance ov_same_preorder st : PreOrder (ov_same st).
Proof.
  split; [by intros o Ho|]. intros o1 o2 o3 H1 H2 Ho. destruct (H1 Ho) as [Ho2 V1]. destruct (H2 Ho2) as [Ho3 V2].
  split; [done|by etrans].
Qed.

Lemma ov_same_modify st f : (∀ o, ocore (f o) = ocore o) → respects (ov_same st) (modify f).
Proof. intros Hf o. apply ov_same_core, Hf. Qed.

Lemma update_line_pending p offset f : keeps_row f → 1 <= offset → Forall (λ l, lp_state l = LPending) (line_pointers p) →
  Forall (λ l, lp_state l = LPending) (line_pointers (update_line offset f p)).
Proof.
  intros [_ Hs] Ho Hp. apply Forall_lookup. intros i l. unfold update_line. cbn [line_pointers set_line_pointers].
  destruct (decide (i = Z.to_nat (offset - 1))) as [->|].
  - rewrite list_lookup_alter_eq. intros (k & Hk & <-)%fmap_Some_1 || intros (k & Hk & ->)%fmap_Some_1.
    rewrite Hs. by apply (Forall_lookup_1 _ _ _ _ Hp Hk).
  - rewrite list_lookup_alter_ne by done. apply (Forall_lookup_1 _ _ _ _ Hp).
Qed.

(** A page of the overlay changes without a change of its rows. *)
Lemma ov_same_page st relid ps i p p' o : relid_get relid (pending_pages o) = Some ps → ps !! i = Some p →
  pg_block p' = pg_block p → (page_wf p → page_wf p') → (page_wf p → ∀ offset, page_row p' offset = page_row p offset) →
  (Forall (λ l, lp_state l = LPending) (line_pointers p) → Forall (λ l, lp_state l = LPending) (line_pointers p')) →
  ov_same st o (set_pending_pages (relid_get_mut relid (λ ps, <[i := p']> ps) (pending_pages o)) o).
Proof.
  intros Hps Hp Hb Hwf Hrow Hpe Ho. set (o' := set_pending_pages _ o).
  pose proof (ppages_get _ _ _ Hps) as Ep.
  assert (Hin : p ∈ ppages relid o) by (rewrite Ep; by eapply list_elem_of_lookup_2).
  destruct (ok_pages _ _ Ho relid p Hin) as (Hw & Hpend & Hlt & Hnone).
  assert (Hpp : ∀ relid', ppages relid' o' = if decide (relid' = relid) then <[i := p']> (ppages relid o) else ppages relid' o).
  { intros relid'. unfold ppages, o'. cbn [pending_pages set_pending_pages]. rewrite relid_get_get_mut, Hps. by case_decide. }
  assert (Hblk : ∀ relid', pg_block <$> ppages relid' o' = pg_block <$> ppages relid' o).
  { intros relid'. rewrite Hpp. case_decide; [|done]. subst relid'. rewrite list_fmap_insert. apply list_insert_id.
    by rewrite list_lookup_fmap, Ep, Hp, Hb. }
  assert (Hprow : ∀ relid' t, prow o' relid' t = prow o relid' t).
  { intros relid' t. unfold prow. rewrite Hpp. case_decide; [|done]. subst relid'. rewrite Ep.
    destruct (ppage_insert ps i p p' (tid_block t)) as [_ ->]; [rewrite <- Ep; apply (ok_blocks _ _ Ho)|done|done|].
    case_decide as E; [|done]. rewrite E.
    assert (ppage ps (pg_block p) = Some p) as -> by (apply ppage_elem; [rewrite <- Ep; apply (ok_blocks _ _ Ho)|by rewrite <- Ep]).
    simpl. by apply Hrow. }
  split.
  - destruct Ho as [O1 O2 O3 O4 O5 O6 O7]. split; try done.
    + intros relid' q Hq. rewrite Hpp in Hq. destruct (decide (relid' = relid)) as [->|]; [|by apply O2].
      apply list_elem_of_lookup in Hq as [j Hj]. destruct (decide (j = i)) as [->|].
      * rewrite list_lookup_insert_eq in Hj by (rewrite Ep; by eapply lookup_lt_Some). injection Hj as <-.
        rewrite Hb. split; [by apply Hwf|]. split; [by apply Hpe|done].
      * rewrite list_lookup_insert_ne in Hj by done. apply O2. by eapply list_elem_of_lookup_2.
    + intros relid'. rewrite Hblk. apply O3.
    + intros relid' t Ht. rewrite Hprow. by apply O4.
    + destruct O6 as (K1 & K2 & K3). split; [|done]. unfold o', relid_get_mut. cbn [pending_pages set_pending_pages].
      by rewrite assoc_alter_keys.
  - split; try done. intros relid' b. unfold claims_block. by rewrite Hblk.
Qed.

Lemma relid_get_mut_alter {V} relid (f g : V → V) m v : relid_get relid m = Some v → f v = g v →
  relid_get_mut relid f m = relid_get_mut relid g m.
Proof.
  unfold relid_get, relid_get_mut. induction m as [|[k x] m IH]; simpl; [done|]. case_decide.
  - intros [= ->] ->. done.
  - intros E1 E2. by rewrite IH.
Qed.

Lemma ov_same_line_mut st relid t f : keeps_row f → respects (ov_same st) (returning (pending_line_mut relid t f)).
Proof.
  intros Hf o Ho. unfold returning, pending_line_mut. destruct (pending_line relid t o) as [l|] eqn:El; [|done].
  simpl. unfold pending_page_mut.
  destruct (ps ← relid_get relid (pending_pages o); rposition (λ p, pg_block p =? tid_block t) ps) as [i|] eqn:Ei; [|done].
  apply bind_Some in Ei as (ps & Hps & Hi). apply rposition_some in Hi as (p & Hp & _).
  assert (Ho1 : 1 <= tid_offset t).
  { unfold pending_line, checked_sub in El. destruct (Z.leb_spec 1 (tid_offset t)); [done|]. by simpl in El. }
  rewrite (relid_get_mut_alter relid _ (λ ps, <[i := update_line (tid_offset t) f p]> ps) _ ps Hps).
  - revert Ho. apply (ov_same_page st relid ps i p); try done.
    + intros Hw. by apply update_line_spec.
    + intros Hw. by apply update_line_spec.
    + by apply update_line_pending.
  - apply list_eq. intros j. destruct (decide (j = i)) as [->|].
    + rewrite list_lookup_alter_eq, list_lookup_insert_eq by (by eapply lookup_lt_Some). by rewrite Hp.
    + by rewrite list_lookup_alter_ne, list_lookup_insert_ne.
Qed.

(** ** Calm steps *)

Section calm.
Context `{Target} `{Catalog}.
Context (L : list TransactionOverlay) (T : Z → Tid → Prop) (B : Z → Z → Prop).
Abbreviation Inv := (Inv L T B).
Abbreviation calm := (respects (calm_step L T B)).
#[local] Existing Instance calm_step_preorder.

Lemma calm_modify_overlay f : (∀ o, ocore (f o) = ocore o) → calm (in_overlay (modify f)).
Proof. intros Hf. apply calm_overlay. intros st. by apply ov_same_modify. Qed.

(** The session changes and its stack does not. *)
Lemma calm_session f : (∀ s, transaction_stack (f s) = transaction_stack s) → calm (modify (on_session f)).
Proof.
  intros Hf w Hw. simpl. assert (Es : w_stack (on_session f w) = w_stack w) by apply Hf.
  destruct (Inv_set_rel L T B w (on_session f w) 0 (rel w 0)) as [H1 H2]; [done|done|done| |by intros|done].
  intros relid. case_decide; by subst.
Qed.

Lemma calm_mark_scans relid : calm (modify (on_session (mark_scans_visibility_delta relid))).
Proof. by apply calm_session. Qed.

Lemma calm_relation_step w w' relid f : (∀ r, rel_calm r (f r)) → w_stack w' = w_stack w → w_row_counts w' = w_row_counts w →
  w_storage w' = relation_get_mut relid f (w_storage w) → calm_step L T B w w'.
Proof.
  intros Hf E1 E2 E3 Hw.
  apply (Inv_set_rel L T B w w' relid (match relations (w_storage w) !! relid with Some r => f r | None => relation_default end)); [done..| |].
  - intros relid'. unfold rel, relation_of. rewrite E3. cbn [relation_get_mut relations set_relations]. case_decide.
    + subst. rewrite lookup_alter_eq. by destruct (relations (w_storage w) !! relid).
    + by rewrite lookup_alter_ne by done.
  - unfold rel, relation_of. destruct (relations (w_storage w) !! relid); [apply Hf|by intros].
Qed.

Lemma calm_relation relid f : (∀ r, rel_calm r (f r)) → calm (modify (on_storage (relation_get_mut relid f))).
Proof. intros Hf w. by apply (calm_relation_step w _ relid f). Qed.

Lemma rel_calm_core r r' : core r' = core r → rel_calm r r'.
Proof.
  intros E Hr. split; [by apply (core_wf r)|]. split; [|by apply extends_core]. intros t.
  unfold core in E. injection E as E _ _ _ _ _ _ _ _ _ _. by rewrite (rows_pages r r' E).
Qed.

Lemma calm_insert_metadata relid t xid cid : calm (st_set_insert_metadata relid t xid cid).
Proof. apply calm_relation. intros r Hr. by apply line_pointer_mut_spec. Qed.
Lemma calm_row_xmax relid t xmax : calm (st_set_row_xmax relid t xmax).
Proof. apply calm_relation. intros r Hr. by apply line_pointer_mut_spec. Qed.

(** ** Compressing redirects *)

Lemma insert_hot_redirect_core old new r : core (rel_insert_hot_redirect old new r) = core r.
Proof. unfold rel_insert_hot_redirect. repeat case_match; done. Qed.

Lemma foldl_core {A} (f : RelationStorage → A → RelationStorage) l r : (∀ r a, core (f r a) = core r) → core (foldl f r l) = core r.
Proof. intros Hf. revert r. induction l as [|a l IH]; intros r; simpl; [done|]. by rewrite IH, Hf. Qed.

(** The relations change in their redirects only. *)
Definition st_calm (st st' : StorageState) : Prop :=
  ∀ relid, core (relation_of st' relid) = core (relation_of st relid).
#[local] Instance st_calm_preorder : PreOrder st_calm.
Proof. split; [by intros st relid|]. intros s1 s2 s3 H1 H2 relid. by rewrite H2, H1. Qed.

Lemma st_calm_get_mut relid f st : (∀ r, core (f r) = core r) → st_calm st (relation_get_mut relid f st).
Proof.
  intros Hf relid'. unfold relation_of, relation_get_mut. cbn [relations set_relations].
  destruct (decide (relid' = relid)) as [->|]; [|by rewrite lookup_alter_ne].
  rewrite lookup_alter_eq. destruct (relations st !! relid); [apply Hf|done].
Qed.

Lemma st_calm_compress overlays relid t st : st_calm st (resolve_tid_redirect_in_overlays_compress overlays relid t st).2.
Proof.
  unfold resolve_tid_redirect_in_overlays_compress. destruct (compress_loop _ _ _ _ _ _) as [[final visited] followed]. simpl.
  destruct (_ && _); [|reflexivity]. apply st_calm_get_mut. intros r. apply foldl_core. intros r' a.
  case_bool_decide; [done|]. apply insert_hot_redirect_core.
Qed.
Lemma st_calm_compress_update overlays relid t st :
  st_calm st (resolve_update_redirect_in_overlays_compress overlays relid t st).2.
Proof.
  unfold resolve_update_redirect_in_overlays_compress. destruct (compress_loop _ _ _ _ _ _) as [[final visited] followed]. simpl.
  destruct (_ && _); [|reflexivity]. apply st_calm_get_mut. intros r. apply foldl_core. intros r' a.
  by case_bool_decide.
Qed.

Lemma calm_st_calm w w' : w_stack w' = w_stack w → w_row_counts w' = w_row_counts w → st_calm (w_storage w) (w_storage w') →
  calm_step L T B w w'.
Proof.
  intros E1 E2 Hst Hw. assert (Hc : ∀ relid, rel_calm (rel w relid) (rel w' relid)) by (intros; apply rel_calm_core, Hst).
  assert (Et : top w' = top w) by (unfold top; by rewrite E1).
  assert (Hro : ∀ relid t, rows (rel w' relid) t = rows (rel w relid) t) by (intros relid; apply (Hc relid), (inv_rels _ _ _ _ Hw)).
  split; [|by split; intros; rewrite ?Et]. apply (Inv_grow L T B w); try done.
  - intros relid. destruct (Hc relid (inv_rels _ _ _ _ Hw relid)) as (H1 & _ & H3). done.
  - intros relid t row. by rewrite Hro.
  - intros relid t b. by rewrite Hro.
Qed.

Lemma calm_resolve_row relid t : calm (resolve_row relid t).
Proof.
  unfold resolve_row. apply respects_bind; [apply _|apply respects_gets; apply _|]. intros overlays.
  apply respects_bind; [apply _| |intros t1]; intros w; unfold returning.
  - pose proof (st_calm_compress_update overlays relid t (w_storage w)) as Hc.
    destruct (resolve_update_redirect_in_overlays_compress overlays relid t (w_storage w)). by apply calm_st_calm.
  - pose proof (st_calm_compress overlays relid t1 (w_storage w)) as Hc.
    destruct (resolve_tid_redirect_in_overlays_compress overlays relid t1 (w_storage w)). by apply calm_st_calm.
Qed.

Lemma st_calm_resolve relid overlays t : respects st_calm (resolve_compress relid overlays t).
Proof.
  intros st. unfold resolve_compress, returning. pose proof (st_calm_compress overlays relid t st) as Hc.
  by destruct (resolve_tid_redirect_in_overlays_compress overlays relid t st).
Qed.
#[local] Hint Resolve st_calm_resolve : respects.

Lemma st_calm_visible relid overlays t : respects st_calm (visible_resolved_compress relid overlays t).
Proof. unfold visible_resolved_compress. respects. Qed.
#[local] Hint Resolve st_calm_visible : respects.

Lemma st_calm_overlays overlays relid key rev : respects st_calm (primary_key_overlays_compress overlays relid key rev).
Proof. induction rev as [|o rev IH]; cbn [primary_key_overlays_compress]; respects. Qed.
#[local] Hint Resolve st_calm_overlays : respects.

Lemma st_calm_lookup s relid key : respects st_calm (primary_key_lookup s relid key).
Proof. unfold primary_key_lookup. respects. Qed.
#[local] Hint Resolve st_calm_lookup : respects.

Lemma st_calm_find s relid spec key replacing : respects st_calm (find_visible_by_index_key_excluding s relid spec key replacing).
Proof. unfold find_visible_by_index_key_excluding. respects. Qed.
#[local] Hint Resolve st_calm_find : respects.

Lemma st_calm_conflict mem fuel s relid input replacing specs :
  respects st_calm (unique_index_conflict_loop mem fuel s relid input replacing specs).
Proof. induction specs as [|spec specs IH]; cbn [unique_index_conflict_loop]; respects. Qed.

Lemma calm_conflict mem fuel relid input replacing : calm (unique_index_conflict_for_input mem fuel relid input replacing).
Proof.
  intros w. unfold unique_index_conflict_for_input.
  pose proof (st_calm_conflict mem fuel (w_session w) relid input replacing (unique_index_specs_for_relation_oid relid) (w_storage w)) as Hc.
  destruct (unique_index_conflict_loop _ _ _ _ _ _ _ (w_storage w)) as [res st]. by apply calm_st_calm.
Qed.
End calm.

(** No redirect leaves the row. *)
Definition settled (w : World) (relid : Z) (t : Tid) : Prop :=
  ∀ hot, next_redirect hot (w_storage w) (w_stack w) relid t = None.

Lemma resolve_loop_settled next fuel t : next t = None → resolve_loop next fuel t = t.
Proof. destruct fuel; [done|]. simpl. by intros ->. Qed.

Lemma compress_loop_settled f g fuel t : f t = None → g t = None → compress_loop f g fuel t [] false = (t, [], false).
Proof. destruct fuel; [done|]. simpl. by intros -> ->. Qed.

Lemma settled_overlay w relid t : settled w relid t →
  overlay_tid_redirect (w_stack w) relid t = None ∧ overlay_update_redirect (w_stack w) relid t = None ∧
  (r ← relations (w_storage w) !! relid; hot_redirects r !! t) = None ∧
  (r ← relations (w_storage w) !! relid; update_redirects r !! t) = None.
Proof.
  intros Hs. pose proof (Hs true) as H1. pose proof (Hs false) as H2. unfold next_redirect in *.
  destruct (overlay_tid_redirect _ _ _); [done|]. by destruct (overlay_update_redirect _ _ _).
Qed.

Lemma settled_resolve_row w relid t : settled w relid t → resolve_row relid t w = (Ok t, w).
Proof.
  intros (H1 & H2 & H3 & H4)%settled_overlay. unfold resolve_row, returning.
  assert (E1 : overlay_tid_redirect (delta_overlays relid w) relid t = None).
  { unfold delta_overlays. by destruct (transaction_has_visibility_deltas _ _). }
  assert (E2 : overlay_update_redirect (delta_overlays relid w) relid t = None).
  { unfold delta_overlays. by destruct (transaction_has_visibility_deltas _ _). }
  unfold mbind, M_bind, gets. unfold resolve_update_redirect_in_overlays_compress.
  rewrite compress_loop_settled by done. rewrite bool_decide_true by done. cbn [negb andb].
  unfold resolve_tid_redirect_in_overlays_compress. cbn [w_storage set_w_storage].
  rewrite compress_loop_settled by done. rewrite bool_decide_true by done. by destruct w.
Qed.

Lemma settled_session w relid t : settled w relid t → resolve_update_redirect_current_session relid t w = t.
Proof. intros (_ & H2 & _)%settled_overlay. unfold resolve_update_redirect_current_session. by apply resolve_loop_settled. Qed.

Section calls.
Context `{Target} `{Catalog} (mem : Z → Z) (fuel : nat).
Context (L : list TransactionOverlay) (T : Z → Tid → Prop) (B : Z → Z → Prop).
Abbreviation Inv := (Inv L T B).
Abbreviation triple := (triple L T B).
Abbreviation calm := (respects (calm_step L T B)).
#[local] Existing Instance calm_step_preorder.
Implicit Types (V : Z → Tid → option (list Z)).

(** ** What decides visibility *)

Lemma inv_no_clears w : Inv w → no_clears (w_stack w).
Proof.
  intros Hw. destruct (inv_shape _ _ _ _ Hw) as [->|[_ ->]]; [|constructor]. apply Forall_app. split; [apply (inv_lower _ _ _ _ Hw)|].
  constructor; [apply (ok_clear _ _ (inv_top _ _ _ _ Hw))|done].
Qed.

Lemma no_deltas ovs relid t : existsb (ov_has_visibility_deltas relid) ovs = false → ¬ hidden ovs relid t ∧ ¬ owned ovs relid t.
Proof.
  induction ovs as [|o ovs IH]; simpl; [by intros _; split; intros ?%Exists_nil|]. intros [Ho Hr]%orb_false_iff.
  destruct (IH Hr) as [I1 I2]. unfold ov_has_visibility_deltas in Ho. apply orb_false_iff in Ho as [Ho1 Ho2].
  apply negb_false_iff, bool_decide_eq_true in Ho1, Ho2. unfold hidden, owned. rewrite !Exists_cons.
  unfold hides, claims_tid. rewrite Ho1, Ho2. split; intros [?%not_elem_of_nil|?]; done.
Qed.

Lemma visible_for_session_view w relid t : Inv w →
  visible_for_session relid t w = view (w_storage w) (w_stack w) relid t.
Proof.
  intros Hw. unfold visible_for_session, physical_visible_tuple_slice_for_session, transaction_has_visibility_deltas.
  change (transaction_stack (w_session w)) with (w_stack w).
  destruct (existsb _ _) eqn:E; [done|]. rewrite view_eq by (by apply inv_no_clears).
  destruct (no_deltas _ _ t E). rewrite !decide_False by done. by apply committed_slice.
Qed.

(** ** Inserting *)

Lemma calm_line_mut relid t f : keeps_row f → calm (in_overlay (returning (pending_line_mut relid t f))).
Proof. intros Hf. apply calm_overlay. intros st. by apply ov_same_line_mut. Qed.

Lemma calm_insert_record relid t m : calm (record_current_session_insert_metadata relid t m).
Proof.
  unfold record_current_session_insert_metadata. apply calm_if_overlay, calm_overlay. intros st.
  apply respects_bind; [apply _|by apply ov_same_modify|]. intros _. by apply ov_same_line_mut.
Qed.

Lemma calm_primary_key relid input t : calm (record_current_session_primary_key_insert mem fuel relid input t).
Proof.
  unfold record_current_session_primary_key_insert. case_match; [by apply calm_modify_overlay|]. apply respects_ret, _.
Qed.

Lemma triple_calm {A} {P} (m : M World A) V : calm m → (∀ w, P w → sees V w) → triple P m (λ _, sees V).
Proof. intros Hm HP. eapply triple_conseq; [by apply calm_triple|by intros w _; apply HP|done]. Qed.

(** A step that the session does not see can follow an insertion. *)
Lemma triple_inserted {A} V relid input t (m : M World A) : calm m →
  triple (inserted mem V relid input t) m (λ _, inserted mem V relid input t).
Proof.
  intros Hm w Hw (H1 & H2 & H3 & b & Hb & Hv). destruct (calm_triple L T B m _ Hm w Hw Hv) as (G1 & G2 & G3).
  split; [done|]. split; [done|]. intros a Ea. repeat split; try done; try apply H1. eauto.
Qed.

Lemma triple_gets_post {A} P (f : World → A) (Q : A → World → Prop) : (∀ w, Inv w → P w → Q (f w) w) → triple P (gets f) Q.
Proof. intros HQ w Hw HP. split; [done|]. split; [by apply neutral_quiet|]. intros a [= <-]. by apply HQ. Qed.
Lemma triple_ret_post {A} P (a : A) (Q : A → World → Prop) : (∀ w, Inv w → P w → Q a w) → triple P (mret a) Q.
Proof. intros HQ w Hw HP. split; [done|]. split; [by apply neutral_quiet|]. intros a' [= <-]. by apply HQ. Qed.
Lemma triple_lift_post {A} P (res : result A) (Q : A → World → Prop) : (∀ a w, Inv w → res = Ok a → P w → Q a w) →
  triple P (lift res) Q.
Proof. intros HQ w Hw HP. split; [done|]. split; [by apply neutral_quiet|]. intros a Ea. by apply HQ. Qed.
Lemma triple_pre {A} (P P' : World → Prop) (m : M World A) Q : (∀ w, Inv w → P w → P' w) → triple P' m Q → triple P m Q.
Proof. intros HP Hm w Hw Hp. apply Hm; [done|]. by apply HP. Qed.

Lemma triple_assume {A} (X : Prop) P (m : M World A) Q : (∀ w, P w → X) → (X → triple P m Q) → triple P m Q.
Proof. intros HX Hm w Hw HP. apply Hm; [by apply (HX w)|done..]. Qed.

Lemma triple_assume_inv {A} (X : Prop) P (m : M World A) Q : (∀ w, Inv w → P w → X) → (X → triple P m Q) → triple P m Q.
Proof. intros HX Hm w Hw HP. apply Hm; [by apply (HX w)|done..]. Qed.

Lemma triple_insert V relid input check metadata record : input_ok input →
  triple (sees V) (relation_insert_impl mem fuel relid input check metadata record)
    (λ res w, match res with Some t => inserted mem V relid input t w | None => sees V w end).
Proof.
  intros Hok. unfold relation_insert_impl. eapply (triple_bind L T B _ _ (λ _, sees V)); [apply triple_get|].
  intros [|].
  { apply (triple_done L T B (λ res w, match res with Some t => inserted mem V relid input t w | None => sees V w end) None). }
  eapply (triple_bind L T B); [by apply triple_append_current|]. intros t.
  eapply (triple_bind L T B _ _ (λ _, inserted mem V relid input t)).
  { apply triple_inserted. destruct metadata as [m|]; [|apply respects_ret, _].
    apply respects_bind; [apply _|apply calm_insert_record|]. intros [|]; [apply respects_ret, _|by apply calm_insert_metadata]. }
  intros _. eapply (triple_bind L T B _ _ (λ _, inserted mem V relid input t)).
  { apply triple_inserted. destruct record; [apply calm_primary_key|apply respects_ret, _]. }
  intros _. apply (triple_done L T B (λ res w, match res with Some t => inserted mem V relid input t w | None => sees V w end) (Some t)).
Qed.

(** ** Updating *)

(** What an update leaves: the new version instead of the old one. *)
Definition updated V (relid : Z) (input : RowInput) (old t : Tid) (w : World) : Prop :=
  tid_wf t ∧ tid_offset t ≠ 0 ∧ V relid t = None ∧ is_Some (V relid old) ∧
  ∃ b, encodes mem input b ∧ sees (upd (upd V relid t (Some b)) relid old None) w.

Lemma triple_updated {A} V relid input old t (m : M World A) : calm m →
  triple (updated V relid input old t) m (λ _, updated V relid input old t).
Proof.
  intros Hm w Hw (H1 & H2 & H3 & H4 & b & Hb & Hv). destruct (calm_triple L T B m _ Hm w Hw Hv) as (G1 & G2 & G3).
  split; [done|]. split; [done|]. intros a Ea. repeat split; try done; try apply H1. eauto.
Qed.

Lemma in_overlay_bind {A C} (m : M TransactionOverlay A) (k : A → M TransactionOverlay C) w :
  in_overlay (m ≫= k) w = (a ← in_overlay m; in_overlay (k a)) w.
Proof.
  unfold in_overlay, mbind, M_bind. destruct (last (w_stack w)) as [o|] eqn:E; [|done].
  destruct (m o) as [[a|c e] o'] eqn:Em; [|done]. apply last_Some in E as [l E].
  assert (Es : ∀ o1, w_stack (on_session (last_overlay_mut (λ _, o1)) w) = l ++ [o1]).
  { intros o1. destruct (set_top l w o1) as [Es _]; [unfold top; by rewrite E, last_snoc|done]. }
  rewrite Es, last_snoc. destruct (k a o') as [res o'']. f_equal.
  unfold on_session, last_overlay_mut, w_stack in *. destruct w as [st rc [stk ex sc]]. cbn in *.
  unfold set_w_session, set_transaction_stack. cbn. do 2 f_equal. rewrite length_alter. generalize (length stk - 1)%nat. intros n.
  clear. revert n. induction stk as [|x stk IH]; intros [|n]; cbn; [done..|]. f_equal. apply IH.
Qed.

Lemma triple_in_overlay_bind {A C} P (m : M TransactionOverlay A) (k : A → M TransactionOverlay C) Q :
  triple P (a ← in_overlay m; in_overlay (k a)) Q → triple P (in_overlay (m ≫= k)) Q.
Proof. intros Ht w. rewrite in_overlay_bind. apply Ht. Qed.

Lemma upd_ne V relid t x relid' t' : t' ≠ t → upd V relid t x relid' t' = V relid' t'.
Proof. intros Hn. unfold upd. rewrite decide_False; [done|]. by intros [_ ?]. Qed.

Lemma triple_new_version V relid input old t hot : is_Some (V relid old) →
  triple (inserted mem V relid input t) (record_new_version relid old t hot) (λ _, updated V relid input old t).
Proof.
  intros Hold. unfold record_new_version. apply triple_in_overlay_bind.
  eapply (triple_bind L T B _ _ (λ _, updated V relid input old t)).
  - intros w Hw (H1 & H2 & H3 & b & Hb & Hv).
    assert (Hn : is_Some (upd V relid t (Some b) relid old)).
    { rewrite upd_ne; [done|]. intros ->. rewrite H3 in Hold. by destruct Hold. }
    destruct (triple_invalidate L T B _ relid old Hn w Hw Hv) as (G1 & G2 & G3).
    split; [done|]. split; [done|]. intros a Ea. repeat split; try done; try apply H1. exists b. split; [done|]. by apply (G3 a).
  - intros _. apply triple_in_overlay_bind. eapply (triple_bind L T B).
    { apply triple_updated, calm_modify_overlay. intros o. unfold ov_insert_update_redirect. by case_bool_decide. }
    intros u. apply triple_updated, calm_modify_overlay. intros o. destruct hot; [|done]. unfold ov_insert_hot_redirect.
    by case_bool_decide.
Qed.

Lemma calm_finish relid t (m : option UpdateMetadata) old own old_key new_key :
  calm (match m with
  | None => mret tt
  | Some m =>
    in_overlay (modify (set_invalidate_metadata relid old (um_delete_xid m) (um_delete_cid m)));;
    in_overlay (modify (set_insert_cid relid t (um_insert_cid m)));;
    recorded ← in_overlay (returning (set_pending_insert_metadata relid t (um_insert_xid m) (um_insert_cid m)));
    (if (recorded : bool) then mret tt
     else st_set_insert_metadata relid t (um_insert_xid m) (um_insert_cid m));;
    recorded ← in_overlay (returning (set_pending_row_xmax relid t (um_row_xmax m)));
    (if (recorded : bool) then mret tt else st_set_row_xmax relid t (um_row_xmax m))
  end;;
  match old_key with
  | Some key =>
    if bool_decide (old_key = new_key) then mret tt
    else if (own : bool) then in_overlay (modify (remove_primary_key_insert relid key))
    else in_overlay (modify (delete_primary_key relid key))
  | None => mret tt
  end;;
  match new_key with
  | Some key => in_overlay (modify (insert_primary_key relid key t))
  | None => mret tt
  end;;
  modify (on_session (mark_scans_visibility_delta relid))).
Proof.
  apply respects_bind; [apply _| |intros _].
  { destruct m as [m|]; [|apply respects_ret, _].
    repeat (apply respects_bind; [apply _|by apply calm_modify_overlay|intros _]).
    apply respects_bind; [apply _|by apply calm_line_mut|]. intros b1.
    apply respects_bind; [apply _|destruct b1; [apply respects_ret, _|by apply calm_insert_metadata]|]. intros _.
    apply respects_bind; [apply _|by apply calm_line_mut|]. intros b2.
    destruct b2; [apply respects_ret, _|by apply calm_row_xmax]. }
  apply respects_bind; [apply _| |intros _].
  { destruct old_key; [|apply respects_ret, _]. case_bool_decide; [apply respects_ret, _|].
    destruct own; apply calm_modify_overlay; intros o; [|done]. unfold remove_primary_key_insert. by repeat case_match. }
  apply respects_bind; [apply _| |intros _; apply calm_mark_scans].
  destruct new_key; [by apply calm_modify_overlay|apply respects_ret, _].
Qed.

Lemma triple_finish V relid input old t hot m own old_key new_key : is_Some (V relid old) →
  triple (inserted mem V relid input t) (finish_update relid old t hot m own old_key new_key) (λ _, updated V relid input old t).
Proof.
  intros Hold. unfold finish_update. eapply (triple_bind L T B); [by apply triple_new_version|]. intros u.
  by apply triple_updated, calm_finish.
Qed.

(** The outcome of an update: a new version, or nothing.  [X] is a reason for
    the row to be the one that was named. *)
Definition update_post (X : Prop) V relid input t0 (res : option Tid) (w : World) : Prop :=
  match res with
  | Some t => ∃ old, (X → old = t0) ∧ updated V relid input old t w
  | None => sees V w
  end.

Lemma triple_exists {A C} (x : C) P (m : M World A) (Q : C → A → World → Prop) : triple P m (Q x) → triple P m (λ a w, ∃ x, Q x a w).
Proof. intros Hm. eapply triple_conseq; [done|done|]. intros a w _ Hq. by exists x. Qed.

(** A row that the session has on its pending pages is one that it sees. *)
Lemma own_pending_seen w V relid t tuple : Inv w → sees V w →
  overlays_own_inserted_tid (w_stack w) relid t = true → overlays_invalidate_tid (w_stack w) relid t = false →
  overlay_pending_tuple_slice (w_stack w) relid t = Some tuple → V relid t = Some tuple.
Proof.
  intros Hw Hv Ho Hi Hp. rewrite <- (Hv relid t), view_eq by (by apply inv_no_clears).
  pose proof (no_clears_reverse _ (inv_no_clears _ Hw)) as Hn. unfold overlays_own_inserted_tid in Ho.
  unfold overlays_invalidate_tid in Hi. unfold overlay_pending_tuple_slice in Hp.
  rewrite own_loop_owned in Ho by done. rewrite invalidate_loop_hidden in Hi by done. rewrite pending_loop in Hp by done.
  apply bool_decide_eq_true in Ho. rewrite owned_reverse in Ho. apply bool_decide_eq_false in Hi. rewrite hidden_reverse in Hi.
  rewrite decide_False, decide_True by done. unfold pending_of. by rewrite Hp.
Qed.

Lemma calm_pending_metadata relid t (m : option UpdateMetadata) old :
  calm (match m with
        | None => mret tt
        | Some m =>
          in_overlay (modify (set_invalidate_metadata relid old (um_delete_xid m) (um_delete_cid m)));;
          in_overlay (modify (set_insert_cid relid t (um_insert_cid m)));;
          recorded ← in_overlay (returning (set_pending_insert_metadata relid t (um_insert_xid m) (um_insert_cid m)));
          if negb recorded then lift (storage_limit_error "storage2 could not record pending update metadata") else
          recorded ← in_overlay (returning (set_pending_row_xmax relid t (um_row_xmax m)));
          if negb recorded then lift (storage_limit_error "storage2 could not record pending update metadata") else
          mret tt
        end).
Proof.
  destruct m as [m|]; [|apply respects_ret, _].
  repeat (apply respects_bind; [apply _|by apply calm_modify_overlay|intros _]).
  apply respects_bind; [apply _|by apply calm_line_mut|]. intros [|]; cbn [negb]; [|by intros w].
  apply respects_bind; [apply _|by apply calm_line_mut|]. intros [|]; cbn [negb]; [apply respects_ret, _|by intros w].
Qed.

Lemma triple_claim_only V relid input t :
  triple (λ w, sees V w ∧ ∃ b, encodes mem input b ∧ free L T w relid t b)
    (in_overlay (modify (insert_tid relid t))) (λ _, inserted mem V relid input t).
Proof.
  intros w Hw (Hv & b & Henc & Hf). pose proof (free_unseen L T B w V relid t b Hw Hv Hf) as HV.
  destruct (free_tid _ _ _ _ _ _ Hf) as [F1 F2].
  destruct (triple_insert_tid L T B V relid t b w Hw (conj Hv Hf)) as (H1 & H2 & H3). split; [done|]. split; [done|].
  intros a Ea. repeat split; try done; try apply F1. exists b. split; [done|]. by apply (H3 a).
Qed.

(** ** Updating a row that is pending in the session *)

Lemma triple_if_existing V (F : StorageState → list TransactionOverlay → Prop) relid input n max :
  input_ok input → tuple_storage_len input = Ok n → 0 < n <= U32_MAX →
  triple (λ w, sees V w ∧ F (w_storage w) (w_stack w)) (if_overlay None (append_pending_input_tuple_to_existing_page mem relid input n max))
    (λ res w, match res with
              | Some t => sees V w ∧ ∃ b, encodes mem input b ∧ free L T w relid t b
              | None => sees V w ∧ F (w_storage w) (w_stack w)
              end).
Proof.
  intros Hok Hl Hn w Hw Hv. unfold if_overlay. destruct (last (w_stack w)).
  - by apply (triple_existing_frame mem L T B).
  - split; [done|]. split; [by apply neutral_quiet|]. by intros a [= <-].
Qed.

Definition pending_post (X : Prop) V relid input t0 (res : option Tid) (w : World) : Prop :=
  match res with
  | Some t => ∃ old, (X → old = t0) ∧ updated V relid input old t w
  | None => sees V w ∧ (X → settled w relid t0)
  end.

Lemma triple_pending_hot X V relid t0 input hot m : input_ok input →
  triple (λ w, sees V w ∧ (X → settled w relid t0)) (update_current_session_pending_hot mem relid t0 input hot m)
    (pending_post X V relid input t0).
Proof.
  intros Hok. unfold update_current_session_pending_hot. set (P := λ w, sees V w ∧ (X → settled w relid t0)).
  eapply (triple_bind L T B _ _ (λ old w, (X → old = t0) ∧ P w)).
  { apply triple_gets_post. intros w _ [Hv HX]. split; [|done]. intros ?%HX. by apply settled_session. }
  intros old. apply (triple_assume (X → old = t0)); [by intros w [? _]|]. intros HX.
  eapply (triple_bind L T B _ _ (λ n w, tuple_storage_len input = Ok n ∧ P w)).
  { apply triple_lift_post. by intros n w _ ? [_ ?]. }
  intros n. apply (triple_assume (tuple_storage_len input = Ok n)); [by intros w [? _]|]. intros Hl.
  pose proof (storage_len_bounds input n Hok Hl) as Hn.
  eapply (triple_bind L T B _ _ (λ _, P)); [apply triple_gets_post; by intros w _ [_ ?]|]. intros max.
  eapply (triple_bind L T B _ _ (λ stack w, stack = w_stack w ∧ P w)); [apply triple_gets|]. intros stack.
  destruct (negb _ || _ || _) eqn:Eg.
  { apply triple_ret_post. by intros w _ [_ ?]. }
  apply orb_false_iff in Eg as [[Eg1 Eg2]%orb_false_iff Eg3]. apply negb_false_iff in Eg1. apply bool_decide_eq_false in Eg3.
  apply (triple_assume_inv (is_Some (V relid old))).
  { intros w Hw (-> & Hv & _). destruct (overlay_pending_tuple_slice (w_stack w) relid old) as [tuple|] eqn:Ep; [|done].
    rewrite (own_pending_seen w V relid old tuple); by eauto. }
  intros Hold. eapply (triple_bind L T B).
  { apply (triple_pre _ P); [by intros w _ [_ ?]|].
    by apply (triple_if_existing V (λ st ovs, X → ∀ hot, next_redirect hot st ovs relid t0 = None)). }
  intros [t|]; [|by apply triple_ret_post].
  eapply (triple_bind L T B); [apply triple_claim_only|]. intros ?.
  eapply (triple_bind L T B); [by apply triple_new_version|]. intros ?.
  eapply (triple_bind L T B); [apply triple_updated, calm_pending_metadata|]. intros ?.
  eapply (triple_bind L T B); [apply triple_updated, calm_mark_scans|]. intros ?.
  apply triple_ret_post. intros w _ Hu. by exists old.
Qed.

(** ** Updating any row *)

Lemma triple_resolve X V relid t0 :
  triple (λ w, sees V w ∧ (X → settled w relid t0)) (resolve_row relid t0) (λ old w, (X → old = t0) ∧ sees V w).
Proof.
  intros w Hw [Hv HX]. destruct (calm_triple L T B _ V (calm_resolve_row L T B relid t0) w Hw Hv) as (H1 & H2 & H3).
  split; [done|]. split; [done|]. intros a Ea. split; [|by eapply H3]. intros ?%HX. rewrite settled_resolve_row in Ea by done.
  by injection Ea.
Qed.

(** The row is replaced. *)
Lemma triple_replace {C} X V relid input t0 old own hot m old_key new_key (f : Tid → C) :
  input_ok input → (X → old = t0) → is_Some (V relid old) →
  triple (sees V)
    (t ← append_pending_input_tuple mem relid input;
     finish_update relid old t hot m own old_key new_key;; mret (Some (f t)))
    (λ res w, ∃ t, res = Some (f t) ∧ update_post X V relid input t0 (Some t) w).
Proof.
  intros Hok HX Hold. eapply (triple_bind L T B); [by apply triple_append|]. intros t.
  eapply (triple_bind L T B); [by apply triple_finish|]. intros ?.
  apply triple_ret_post. intros w _ Hu. exists t. split; [done|]. by exists old.
Qed.

Lemma triple_update X V relid packed input check hot m t0 : input_ok input → unpack packed = Some t0 →
  triple (λ w, sees V w ∧ (X → settled w relid t0)) (relation_update_impl mem fuel relid packed input check hot m)
    (update_post X V relid input t0).
Proof.
  intros Hok Ht0. unfold relation_update_impl. rewrite Ht0. set (hu := hot && _).
  assert (Hrest : triple (λ w, sees V w ∧ (X → settled w relid t0))
    (old_tid ← resolve_row relid t0;
     slice ← gets (visible_for_session relid old_tid);
     match slice with
     | None => mret None
     | Some old_tuple =>
       match (if hu then Some None else decoded ← decode_tuple old_tid old_tuple; Some (primary_key_of_decoded relid decoded)) with
       | None => mret None
       | Some old_key =>
         own ← gets (λ w, negb hu && owns_inserted_tid (w_session w) relid old_tid);
         conflict ← (if bool_decide (check = Enforce) then unique_index_conflict_for_input mem fuel relid input (Some old_tid)
                     else mret None);
         if bool_decide (is_Some conflict) then mret None else
         new_tid ← append_pending_input_tuple mem relid input;
         let new_key := if hu then None else primary_key_of_input mem fuel relid input in
         finish_update relid old_tid new_tid hot m own old_key new_key;;
         mret (Some new_tid)
       end
     end) (update_post X V relid input t0)).
  { eapply (triple_bind L T B); [apply triple_resolve|]. intros old.
    apply (triple_assume (X → old = t0)); [by intros w [? _]|]. intros HX.
    eapply (triple_bind L T B _ _ (λ slice w, slice = V relid old ∧ sees V w)).
    { apply triple_gets_post. intros w Hw [_ Hv]. split; [|done]. by rewrite visible_for_session_view, Hv. }
    intros slice. apply (triple_assume (slice = V relid old)); [by intros w [? _]|]. intros Es.
    apply (triple_pre _ (sees V)); [by intros w _ [_ ?]|].
    destruct slice as [old_tuple|]; [|by apply triple_ret_post].
    destruct (if hu then _ else _) as [old_key|]; [|by apply triple_ret_post].
    eapply (triple_bind L T B _ _ (λ _, sees V)); [apply triple_get|]. intros own.
    eapply (triple_bind L T B _ _ (λ _, sees V)).
    { apply calm_triple. case_bool_decide; [apply calm_conflict|apply respects_ret, _]. }
    intros conflict. case_bool_decide; [by apply triple_ret_post|].
    eapply triple_conseq; [by apply (triple_replace X V relid input t0 old own hot m old_key _ id); [done..|rewrite <- Es]|by intros w _ ?|].
    intros res w _ (t & -> & Hp). exact Hp. }
  eapply (triple_bind L T B _ _ (pending_post X V relid input t0)).
  { destruct hu; [by apply triple_pending_hot|by apply triple_ret_post]. }
  intros [t|]; [by apply triple_ret_post|exact Hrest].
Qed.
End calls.

Section calls.
Context `{Target} `{Catalog} (mem : Z → Z) (fuel : nat).
Context (L : list TransactionOverlay) (T : Z → Tid → Prop) (B : Z → Z → Prop).
Abbreviation Inv := (Inv L T B).
Abbreviation triple := (triple L T B).
Abbreviation calm := (respects (calm_step L T B)).
Abbreviation update_post := (update_post mem).
Abbreviation pending_post := (pending_post mem).
#[local] Existing Instance calm_step_preorder.
Implicit Types (V : Z → Tid → option (list Z)).

Lemma triple_panic {A} P msg (Q : A → World → Prop) : triple P (lift (panic msg)) Q.
Proof. apply triple_lift_post. intros a w _ [=]. Qed.

Lemma triple_pending_preserved X V relid t0 input key m : input_ok input →
  triple (λ w, sees V w ∧ (X → settled w relid t0))
    (update_current_session_pending_if_single_byval_preserved mem relid t0 input key m) (pending_post X V relid input t0).
Proof.
  intros Hok. unfold update_current_session_pending_if_single_byval_preserved. set (P := λ w, sees V w ∧ (X → settled w relid t0)).
  eapply (triple_bind L T B _ _ (λ old w, (X → old = t0) ∧ P w)).
  { apply triple_gets_post. intros w _ [Hv HX]. split; [|done]. intros ?%HX. by apply settled_session. }
  intros old. apply (triple_assume L T B (X → old = t0)); [by intros w [? _]|]. intros HX.
  apply (triple_pre L T B _ P); [by intros w _ [_ ?]|].
  eapply (triple_bind L T B _ _ (λ _, P)); [apply triple_get|]. intros stack.
  destruct (negb _ || _); [by apply triple_ret_post|].
  destruct (overlay_pending_tuple_slice stack relid old) as [old_tuple|]; [|by apply triple_ret_post].
  destruct (tuple_byval_attr_equals _ _ _ _) as [preserved|]; [|apply triple_panic].
  destruct (default false preserved); [|by apply triple_ret_post].
  eapply triple_conseq; [apply (triple_pending_hot mem L T B X V relid old input true m Hok)|..].
  - intros w _ [Hv Hs]. split; [done|]. intros HX'. rewrite (HX HX'). by apply Hs.
  - intros [t|] w _.
    + intros (old' & H1 & H2). exists old'. split; [|done]. intros HX'. rewrite (H1 HX'). by apply HX.
    + intros [Hv Hs]. split; [done|]. intros HX'. rewrite <- (HX HX'). by apply Hs.
Qed.

Lemma triple_update_preserved X V relid packed input key m t0 : input_ok input → unpack packed = Some t0 →
  triple (λ w, sees V w ∧ (X → settled w relid t0))
    (relation_update_hot_if_single_byval_preserved_impl mem fuel relid packed input key m)
    (λ res, update_post X V relid input t0 (fst <$> res)).
Proof.
  intros Hok Ht0. unfold relation_update_hot_if_single_byval_preserved_impl. rewrite Ht0.
  destruct (hk_attnum key =? 0); [apply triple_ret_post; by intros w _ [? _]|].
  set (P := λ w, sees V w ∧ (X → settled w relid t0)).
  eapply (triple_bind L T B _ _ (λ old w, (X → old = t0) ∧ P w)).
  { apply triple_gets_post. intros w _ [Hv HX]. split; [|done]. intros ?%HX. by apply settled_session. }
  intros old. apply (triple_assume L T B (X → old = t0)); [by intros w [? _]|]. intros HX.
  eapply (triple_bind L T B _ _ (pending_post X V relid input old)).
  { eapply triple_pre; [|by apply triple_pending_preserved]. intros w _ (_ & Hv & Hs). split; [done|].
    intros HX'. rewrite (HX HX'). by apply Hs. }
  intros [t|].
  { apply triple_ret_post. intros w _ (old' & H1 & H2). exists old'. split; [|done]. intros HX'. rewrite (H1 HX'). by apply HX. }
  eapply (triple_bind L T B); [apply (triple_resolve L T B X V relid old)|]. intros old'.
  apply (triple_assume L T B (X → old' = old)); [by intros w [? _]|]. intros HX2.
  eapply (triple_bind L T B _ _ (λ slice w, slice = V relid old' ∧ sees V w)).
  { apply triple_gets_post. intros w Hw [_ Hv]. split; [|done]. by rewrite (visible_for_session_view L T B), Hv. }
  intros slice. apply (triple_assume L T B (slice = V relid old')); [by intros w [? _]|]. intros Es.
  apply (triple_pre L T B _ (sees V)); [by intros w _ [_ ?]|].
  destruct slice as [old_tuple|]; [|by apply triple_ret_post].
  destruct (tuple_byval_attr_equals _ _ _ _) as [preserved|]; [|apply triple_panic]. set (hot := default false preserved).
  destruct (if hot then _ else _) as [old_key|]; [|by apply triple_ret_post].
  eapply (triple_bind L T B _ _ (λ _, sees V)); [apply triple_get|]. intros own.
  eapply triple_conseq; [eapply (triple_replace mem L T B X V relid input t0 old' own hot m old_key _ (λ t, (t, hot)) Hok)|by intros w _ Hv; exact Hv|].
  - intros HX'. rewrite (HX2 HX'). by apply HX.
  - by rewrite <- Es.
  - intros res w _ (t' & -> & Hp). exact Hp.
Qed.

(** ** Deleting *)

Lemma settled_find_visible w V relid t : sees V w → settled w relid t →
  find_visible_tuple (w_storage w) (w_session w) relid t = V relid t ≫= decode_tuple t.
Proof.
  intros Hv Hs. unfold find_visible_tuple, find_visible_tuple_in_overlays, visible_tuple_slice_in_overlays.
  change (transaction_stack (w_session w)) with (w_stack w).
  assert (E : resolve_tid_redirect_in_overlays (w_storage w) (w_stack w) relid t = t).
  { apply resolve_loop_settled, Hs. }
  by rewrite !E, Hv.
Qed.

Lemma triple_delete V relid packed record t0 : unpack packed = Some t0 →
  triple (λ w, sees V w ∧ settled w relid t0) (relation_delete_impl relid packed record)
    (λ res w, res = bool_decide (is_Some (V relid t0 ≫= decode_tuple t0)) ∧
              sees (if res then upd V relid t0 None else V) w).
Proof.
  intros Ht0. unfold relation_delete_impl. rewrite Ht0.
  eapply (triple_bind L T B _ _ (λ tid w, tid = t0 ∧ sees V w ∧ settled w relid t0)).
  { intros w Hw [Hv Hs]. rewrite settled_resolve_row by done. split; [done|]. split; [by apply neutral_quiet|].
    intros a [= <-]. done. }
  intros tid. apply (triple_assume L T B (tid = t0)); [by intros w [? _]|]. intros ->.
  eapply (triple_bind L T B _ _ (λ _ w, sees V w ∧ settled w relid t0)); [apply triple_gets_post; by intros w _ [_ ?]|]. intros own.
  eapply (triple_bind L T B _ _ (λ found w, found = V relid t0 ≫= decode_tuple t0 ∧ sees V w)).
  { apply triple_gets_post. intros w Hw [Hv Hs]. split; [|done]. by apply settled_find_visible. }
  intros found. apply (triple_assume L T B (found = V relid t0 ≫= decode_tuple t0)); [by intros w [? _]|]. intros Ef.
  apply (triple_pre L T B _ (sees V)); [by intros w _ [_ ?]|]. rewrite <- Ef.
  destruct found as [tuple|]; [|by apply triple_ret_post].
  eapply (triple_bind L T B); [apply calm_triple, calm_ensure|]. intros ?.
  eapply (triple_bind L T B _ _ (λ _, sees (upd V relid t0 None))).
  { apply triple_invalidate. destruct (V relid t0); [eauto|done]. }
  intros ?. eapply (triple_bind L T B _ _ (λ _, sees (upd V relid t0 None))).
  { apply calm_triple. destruct (primary_key_of_decoded relid tuple); [|apply respects_ret, _].
    destruct record; [|apply respects_ret, _]. destruct own; apply calm_modify_overlay; intros o; [|done].
    unfold remove_primary_key_insert. by repeat case_match. }
  intros ?. eapply (triple_bind L T B _ _ (λ _, sees (upd V relid t0 None))); [apply calm_triple, calm_mark_scans|].
  intros ?. by apply triple_ret_post.
Qed.
End calls.

(** * Calls of the C interface that change nothing a session sees *)

Section calm.
Context `{Target, Catalog} (mem : Z → Z) (fuel : nat).
Context (L : list TransactionOverlay) (T : Z → Tid → Prop) (B : Z → Z → Prop).
Abbreviation calm := (respects (calm_step L T B)).
#[local] Existing Instances calm_step_preorder st_calm_preorder.

#[local] Hint Resolve calm_ensure calm_mark_scans calm_insert_metadata calm_row_xmax : respects.

Lemma calm_set_max relid max_tuples : calm (fastpg_storage2_relation_set_max_tuples_per_block relid max_tuples).
Proof. apply calm_in_relation. intros r Hr. cbn. destruct (recompute_appendable_wf r (Some (clamp 1 MAX_CTID_OFFSET max_tuples)) Hr) as (?&?&?). done. Qed.

Lemma calm_resolve_tid relid p : calm (fastpg_storage2_relation_resolve_tid relid p).
Proof.
  unfold fastpg_storage2_relation_resolve_tid, resolve_with. destruct (unpack p) as [t|]; [|respects].
  apply respects_bind; [apply _| |intros; respects]. intros w. unfold returning.
  pose proof (st_calm_compress (w_stack w) relid t (w_storage w)) as Hc.
  destruct (resolve_tid_redirect_in_overlays_compress (w_stack w) relid t (w_storage w)). by apply calm_st_calm.
Qed.
Lemma calm_resolve_update_tid relid p : calm (fastpg_storage2_relation_resolve_update_tid relid p).
Proof.
  unfold fastpg_storage2_relation_resolve_update_tid, resolve_with. destruct (unpack p) as [t|]; [|respects].
  apply respects_bind; [apply _| |intros; respects]. intros w. unfold returning.
  pose proof (st_calm_compress_update (w_stack w) relid t (w_storage w)) as Hc.
  destruct (resolve_update_redirect_in_overlays_compress (w_stack w) relid t (w_storage w)). by apply calm_st_calm.
Qed.

(** ** Metadata *)

Lemma calm_mine (f : TransactionOverlay → bool) : calm (if_overlay false (gets f)).
Proof. apply calm_if_overlay, calm_overlay. intros st. apply respects_gets, _. Qed.
#[local] Hint Resolve calm_mine : respects.

Lemma calm_at_tid p f : (∀ t, calm (f t)) → calm (at_tid p f).
Proof. intros Hf. unfold at_tid. destruct (unpack p); [|respects]. apply respects_bind; [apply _|done|intros; respects]. Qed.

Lemma calm_record_insert relid p xid cid : calm (fastpg_storage2_relation_record_insert_metadata relid p xid cid).
Proof.
  apply calm_at_tid. intros t. unfold record_insert_metadata. apply respects_bind; [apply _|respects|]. intros []; [|respects].
  apply respects_bind; [apply _|by apply calm_modify_overlay|intros _].
  apply respects_bind; [apply _|by apply calm_line_mut|]. intros []; respects.
Qed.
Lemma calm_record_invalidate relid p xid cid : calm (fastpg_storage2_relation_record_invalidate_metadata relid p xid cid).
Proof.
  apply calm_at_tid. intros t. unfold record_invalidate_metadata. apply respects_bind; [apply _|respects|]. intros []; [|respects].
  by apply calm_modify_overlay.
Qed.
Lemma calm_record_xmax relid p xmax : calm (fastpg_storage2_relation_record_row_xmax relid p xmax).
Proof.
  apply calm_at_tid. intros t. unfold record_row_xmax. apply respects_bind; [apply _|respects|]. intros []; [|respects].
  apply respects_bind; [apply _|by apply calm_line_mut|]. intros []; respects.
Qed.

(** ** Entries of indexes *)

Lemma calm_given {A C} (a : option A) (none : C) f : (∀ x, calm (f x)) → calm (given a none f).
Proof. intros Hf. destruct a; [apply Hf|apply respects_ret, _]. Qed.

Lemma calm_in_storage {A} (m : SessionStorage → M StorageState A) : (∀ s, respects st_calm (m s)) → calm (in_storage m).
Proof.
  intros Hm w. unfold in_storage. pose proof (Hm (w_session w) (w_storage w)) as Hc.
  destruct (m (w_session w) (w_storage w)). by apply calm_st_calm.
Qed.

Lemma calm_lookup relid key missing : calm missing → calm (lookup_primary_key relid key missing).
Proof.
  intros Hm. unfold lookup_primary_key, packed. apply respects_bind; [apply _|apply respects_gets, _|]. intros [t| |];
    (apply respects_bind; [apply _|first [done|apply respects_ret, _]|intros; apply respects_ret, _]).
Qed.

Lemma calm_key_lookup index values nulls : calm (fastpg_storage2_primary_key_index_lookup mem fuel index values nulls).
Proof. apply calm_given. intros [relid key]. apply calm_lookup, calm_in_storage. intros s. apply st_calm_lookup. Qed.
Lemma calm_key_lookup_single relid value null : calm (fastpg_storage2_primary_key_index_lookup_single_byval_with_spec relid value null).
Proof.
  unfold fastpg_storage2_primary_key_index_lookup_single_byval_with_spec. destruct (negb _); [apply respects_ret, _|].
  apply calm_lookup, calm_in_storage. intros s. apply st_calm_lookup.
Qed.
Lemma calm_key_lookup_spec index relid cols values nulls :
  calm (fastpg_storage2_primary_key_index_lookup_with_spec mem fuel index relid cols values nulls).
Proof.
  apply calm_given. intros [spec key]. apply calm_lookup, calm_in_storage. intros s.
  apply respects_bind; [apply _|apply st_calm_lookup|]. intros [t|]; [apply respects_ret, _|apply st_calm_find].
Qed.

(** A change of the session's entries, in a transaction that is begun for it. *)
Lemma calm_entries (f : TransactionOverlay → TransactionOverlay) : (∀ o, ocore (f o) = ocore o) →
  calm (modify (on_session ensure_transaction);; in_overlay (modify f);; mret true).
Proof.
  intros Hf. apply respects_bind; [apply _|apply calm_ensure|intros _].
  apply respects_bind; [apply _|by apply calm_modify_overlay|intros; apply respects_ret, _].
Qed.

Lemma foldl_ocore {A} (f : TransactionOverlay → A → TransactionOverlay) l o : (∀ o a, ocore (f o a) = ocore o) →
  ocore (foldl f o l) = ocore o.
Proof. intros Hf. revert o. induction l as [|a l IH]; intros o; cbn; [done|]. by rewrite IH, Hf. Qed.

Lemma calm_key_insert index relid cols values nulls p :
  calm (fastpg_storage2_primary_key_index_insert_with_spec mem fuel index relid cols values nulls p).
Proof. apply calm_given. intros [key t]. by apply calm_entries. Qed.
Lemma calm_record_key relid p : calm (fastpg_storage2_relation_record_primary_key relid p).
Proof.
  unfold fastpg_storage2_relation_record_primary_key. destruct (unpack p); [|apply respects_ret, _].
  destruct (primary_index_spec_for_relation_oid relid); [|apply respects_ret, _].
  apply respects_bind; [apply _|apply respects_gets, _|]. intros [tuple|]; [|apply respects_ret, _].
  destruct (index_key_for_decoded _ _); [by apply calm_entries|apply respects_ret, _].
Qed.
Lemma calm_rebuild_key relid spec : calm (rebuild_primary_key relid spec).
Proof.
  apply respects_bind; [apply _|apply respects_gets, _|]. intros entries. apply calm_entries. intros o. by apply foldl_ocore.
Qed.
Lemma calm_rebuild index : calm (fastpg_storage2_rebuild_primary_key_index index).
Proof. apply calm_given. intros spec. apply calm_rebuild_key. Qed.
Lemma calm_rebuild_spec index relid cols : calm (fastpg_storage2_rebuild_primary_key_index_with_spec index relid cols).
Proof. apply calm_given. intros spec. apply calm_rebuild_key. Qed.
Lemma calm_index_insert index relid cols values nulls p :
  calm (fastpg_storage2_index_insert_with_spec mem fuel index relid cols values nulls p).
Proof.
  apply calm_given. intros [spec t]. apply calm_entries. intros o. apply foldl_ocore. intros o' n. by destruct (index_key_for_key_datums _ _ _ _ _).
Qed.
End calm.
