(* ===== verification/EngOutcomes.v ===== *)
(** * Calls succeed

    As long as the row fits and the relation has a block number left, an
    insertion that meets no duplicate succeeds ([total_insert]) and an update of
    a row that the session sees is refused only for a conflict that was to be
    checked or an old row that has to be read and cannot be ([total_update]); a
    deletion never fails ([total_delete]).  What the calls do when they succeed is in EngCalls.v. *)

From Stdlib Require Import ZArith Lia.
From stdpp Require Import base tactics numbers list gmap strings sorting.
From S2P Require Import Prelude RustStd EngTid EngTuple EngTupleProofs EngPage EngPageProofs EngIndex EngRelation EngRelationProofs EngOverlay EngState EngOps EngScan EngInv EngAppend EngCalls.

Local Open Scope Z_scope.

Section outcomes.
Context `{Target} `{Catalog} (mem : Z → Z) (fuel : nat).
Context (L : list TransactionOverlay) (T : Z → Tid → Prop) (B : Z → Z → Prop).
Abbreviation Inv := (Inv L T B).
Abbreviation triple := (triple L T B).
Abbreviation calm := (respects (calm_step L T B)).
#[local] Existing Instance calm_step_preorder.

(** A transaction is open. *)
Definition open (w : World) : Prop := Inv w ∧ w_stack w ≠ [].
(** The relation has a block number left. *)
Definition ready (relid : Z) (w : World) : Prop := open w ∧ next_block (rel w relid) < U32_MAX.

Lemma in_overlay_open {A} (m : M TransactionOverlay A) w : open w →
  let w' := (in_overlay m w).2 in
  (in_overlay m w).1 = (m (top w)).1 ∧ w_stack w' ≠ [] ∧ w_storage w' = w_storage w.
Proof.
  intros [Hw Hs]. cbv zeta. unfold in_overlay. destruct (inv_shape _ _ _ _ Hw) as [E|[_ E]]; [|done].
  rewrite E, last_snoc. destruct (m (top w)) as [res o']. destruct (set_top L w o' E) as (S1 & S2 & S3 & S4). simpl.
  split; [done|]. split; [|done]. rewrite S1. by destruct L.
Qed.

Lemma in_relation_open {A} relid (m : M RelationStorage A) w : w_stack w ≠ [] →
  (in_relation relid m w).1 = (m (rel w relid)).1 ∧ w_stack (in_relation relid m w).2 ≠ [].
Proof.
  intros Hs. pose proof (in_relation_run relid m w) as Hr. destruct (in_relation relid m w) as [res w'].
  destruct Hr as (-> & E & _). by rewrite <- E in Hs.
Qed.

(** What a session sees. *)
Definition now (w : World) (relid : Z) (t : Tid) : option (list Z) := view (w_storage w) (w_stack w) relid t.

(** An operation on the overlay that cannot fail. *)
Lemma total_overlay {A} relid (m : M TransactionOverlay A) (Q : (Z → Tid → option (list Z)) → A → World → Prop) :
  (∀ V, triple (sees V) (in_overlay m) (Q V)) → (∀ w, open w → ∃ a, (m (top w)).1 = Ok a) →
  total (ready relid) (in_overlay m) (λ _, ready relid).
Proof.
  intros Hm Ha w [Ho Hr]. destruct (in_overlay_open m w Ho) as (E1 & E2 & E3). destruct (Ha w Ho) as [a Ea].
  destruct (Hm (now w) w (proj1 Ho)) as (H1 & _); [by intros ??|]. exists a, (in_overlay m w).2. split.
  - rewrite <- Ea, <- E1. by destruct (in_overlay m w).
  - split; [by split|]. unfold rel. by rewrite E3.
Qed.

Definition begun (w : World) : Prop := w_stack w ≠ [].

Lemma total_begun {A} (m : M TransactionOverlay A) : (∀ o, ∃ a, (m o).1 = Ok a) → total begun (in_overlay m) (λ _, begun).
Proof.
  intros Hm w Hs. unfold in_overlay. destruct (last (w_stack w)) as [o|] eqn:E; [|by apply last_None in E].
  destruct (Hm o) as [a Ea]. destruct (m o) as [res o']. cbn in Ea. subst res. eexists _, _. split; [done|].
  unfold begun, w_stack, on_session, last_overlay_mut in *. cbn. by destruct (transaction_stack (w_session w)) as [|x [|y l]].
Qed.
Lemma total_modify f : total begun (in_overlay (modify f)) (λ _, begun).
Proof. apply total_begun. by eexists. Qed.

Lemma total_keep {A} relid (m : M World A) : calm m → (∀ w, ready relid w → ∃ a, (m w).1 = Ok a ∧ w_stack (m w).2 = w_stack w ∧
    next_block (rel (m w).2 relid) = next_block (rel w relid)) → total (ready relid) m (λ _, ready relid).
Proof.
  intros Hm Ha w [[Hw Hs] Hr]. destruct (Ha w) as (a & E1 & E2 & E3); [by split|]. exists a, (m w).2.
  split; [rewrite <- E1; by destruct (m w)|]. split; [split; [by apply Hm|by rewrite E2]|by rewrite E3].
Qed.

Lemma existing_ok relid input n max w : input_ok input → tuple_storage_len input = Ok n → open w →
  ∃ a, (append_pending_input_tuple_to_existing_page mem relid input n max (top w)).1 = Ok a.
Proof.
  intros Hok Hl [Hw _]. pose proof (storage_len_bounds input n Hok Hl) as Hn.
  unfold append_pending_input_tuple_to_existing_page. destruct (ps ← _; i ← _; p ← _; Some (i, p)) as [[i p]|] eqn:Es; [|by eexists].
  apply bind_Some in Es as (ps & Hps & (i' & Hi & (p' & Hp & [= -> ->])%bind_Some)%bind_Some).
  assert (Hin : p ∈ ppages relid (top w)) by (rewrite (ppages_get _ _ _ Hps); by eapply list_elem_of_lookup_2).
  destruct (ok_pages _ _ (inv_top _ _ _ _ Hw) _ _ Hin) as (Hpw & _).
  pose proof (append_input_run mem input n LPending p Hpw Hok Hl Hn) as Hrun. destruct (can_fit p n).
  - destruct Hrun as (b & _ & _ & ->). by eexists.
  - rewrite Hrun. by eexists.
Qed.

Lemma total_relation_page relid input n : input_ok input → tuple_storage_len input = Ok n →
  total (ready relid) (append_pending_input_tuple_to_relation_page mem relid input n)
    (λ res w, match res with Some _ => begun w | None => ready relid w end).
Proof.
  intros Hok Hl. pose proof (storage_len_bounds input n Hok Hl) as Hn. unfold append_pending_input_tuple_to_relation_page.
  destruct (negb _); [intros w Hw; by exists None, w|].
  apply (total_bind _ _ (λ _, ready relid)); [intros w Hw; by exists (w_storage w), w|]. intros st.
  apply (total_bind _ _ (λ _, ready relid)).
  { apply total_keep; [apply calm_in_relation; by intros r|]. intros w _. exists tt. split; [done|]. split; [done|].
    unfold in_relation, rel. cbn. by rewrite relation_of_insert, decide_True. }
  intros _. apply (total_bind _ _ (λ r w, next_block r <= U32_MAX ∧ ready relid w)).
  { intros w Hw. exists (rel w relid), w. split; [done|]. split; [|done]. destruct Hw as [[Hi _] _]. apply (rwf_next _ (inv_rels _ _ _ _ Hi relid)). }
  intros r. apply (total_bind _ _ (λ _, ready relid)).
  { intros w [Hr Hw]. assert (Ht : total (ready relid) (in_overlay (modify (checkpoint_relation relid r))) (λ _, ready relid)); [|by apply Ht].
    apply (total_overlay _ _ (λ V _, sees V)); [|by eexists]. intros V. apply calm_triple, calm_overlay. intros st' o. by apply ov_same_checkpoint. }
  intros _ w [[Hw Hs] Hr].
  pose proof (in_relation_run relid (returning (append_target_block n (st_epoch st) (st_generation st))) w) as Hrun.
  pose proof (append_target_block_spec (rel w relid) n (st_epoch st) (st_generation st) (inv_rels _ _ _ _ Hw relid) Hn) as Ht.
  unfold mbind at 1, M_bind at 1. destruct (in_relation relid _ w) as [res w1]. unfold returning in Hrun.
  destruct (append_target_block _ _ _ _) as [[b|] r1]; [|destruct Ht as [_ Ht]; lia].
  destruct Hrun as (-> & E1 & E2 & E3). destruct Ht as (T1 & _ & _ & T2 & (p & Hp & Hf) & _).
  cbn [fst snd] in *. rewrite <- E1 in Hs. specialize (E3 relid). rewrite decide_True in E3 by done.
  clear w Hw Hr E1 E2. rewrite gets_run. fold (rel w1 relid). rewrite E3.
  destruct (total_modify (λ o, match page r1 b with Some p => checkpoint_page relid p o | None => o end) w1 Hs) as (u & w2 & R2 & Hs2).
  rewrite (M_bind_run _ _ _ _ _ R2).
  assert (E4 : rel w2 relid = r1).
  { rewrite <- E3. unfold rel. unfold in_overlay in R2. destruct (last (w_stack w1)); [|done]. by injection R2 as <- <-. }
  destruct (rel_append_input_run mem r1 b p input n T1 T2 Hp Hok Hl Hn Hf) as (bytes & _ & _ & Ha).
  pose proof (in_relation_run relid (rel_append_pending_input_tuple mem b input n) w2) as Hrun.
  unfold mbind at 1, M_bind at 1. destruct (in_relation relid _ w2) as [res w3]. destruct Hrun as (-> & E5 & _).
  rewrite E4, Ha. cbn [fst]. unfold begun in Hs2. rewrite <- E5 in Hs2.
  destruct (total_modify (insert_tid relid (next_tid p)) w3 Hs2) as (u' & w4 & R4 & Hs4).
  rewrite (M_bind_run _ _ _ _ _ R4). by exists (Some (next_tid p)), w4.
Qed.

(** There is a block number left for the relation. *)
Definition roomy (relid : Z) (w : World) : Prop := Inv w ∧ next_block (rel w relid) < U32_MAX.

Lemma total_ensure relid : total (roomy relid) (modify (on_session ensure_transaction)) (λ _, ready relid).
Proof.
  intros w [Hw Hr]. exists tt, (on_session ensure_transaction w). split; [done|]. split; [|done]. split; [by apply (calm_ensure L T B w)|].
  unfold w_stack, on_session, ensure_transaction. cbn. by destruct (transaction_stack (w_session w)) eqn:E; cbn; rewrite ?E.
Qed.
Lemma ready_roomy relid w : ready relid w → roomy relid w.
Proof. by intros [[? _] ?]. Qed.

Lemma total_existing relid input n max : input_ok input → tuple_storage_len input = Ok n →
  total (ready relid) (in_overlay (append_pending_input_tuple_to_existing_page mem relid input n max)) (λ _, ready relid).
Proof.
  intros Hok Hl. eapply total_overlay; [|by intros w; apply existing_ok]. intros V.
  apply triple_existing_input; [done..|by apply (storage_len_bounds input)].
Qed.

Lemma total_claim relid (t : Tid) : total begun (in_overlay (modify (insert_tid relid t));; mret t) (λ _, begun).
Proof. eapply total_bind; [apply total_modify|]. intros u w Hw. by exists t, w. Qed.

Lemma total_reserve relid n : 0 < n <= U32_MAX →
  total (ready relid) (reserve_pending_page relid n) (λ p w, begun w ∧ page_wf p ∧ can_fit p n = true).
Proof.
  intros Hn w [[Hw Hs] Hr]. destruct (triple_reserve L T B (now w) relid n Hn w Hw) as (_ & _ & Hq); [by intros ??|].
  unfold reserve_pending_page in *. fold (rel w relid) in *. pose proof (reserve_block_spec _ (inv_rels _ _ _ _ Hw relid)) as Hb.
  destruct (reserve_block (rel w relid)) as [[b|] r']; [|destruct Hb; lia]. cbn [fst snd] in *.
  destruct (Hq _ eq_refl) as [_ Hf]. eexists _, _. split; [done|]. split; [done|]. split; [apply (fp_wf _ _ _ _ _ Hf)|apply (fp_room _ _ _ _ _ Hf)].
Qed.

Lemma total_append_with_len relid input n : input_ok input → tuple_storage_len input = Ok n →
  total (roomy relid) (append_pending_input_tuple_with_len mem relid input n) (λ _, begun).
Proof.
  intros Hok Hl. pose proof (storage_len_bounds input n Hok Hl) as Hn. unfold append_pending_input_tuple_with_len.
  eapply total_bind; [apply total_ensure|]. intros u.
  eapply (total_bind _ _ (λ _, ready relid)); [intros w Hw; by eexists _, w|]. intros max.
  eapply total_bind; [by apply total_existing|]. intros [t|].
  { eapply total_conseq; [apply total_claim|by intros w [[_ ?] _]|done]. }
  eapply total_bind; [by apply total_relation_page|]. intros [t|]; [intros w Hw; by exists t, w|].
  eapply total_bind; [by apply total_reserve|]. intros p w (Hs & Hp & Hf).
  pose proof (append_input_run mem input n LPending p Hp Hok Hl Hn) as Hrun. rewrite Hf in Hrun. destruct Hrun as (b & _ & _ & Hrun).
  assert (Hin : total begun (in_overlay (append_pending_input_tuple_to_new_page mem relid p input n)) (λ res w, res = Some (next_tid p) ∧ begun w)).
  { intros w0 Hw0. destruct (total_begun (append_pending_input_tuple_to_new_page mem relid p input n)) with w0 as (a & w1 & R1 & Hw1); [|done|].
    - intros o. unfold append_pending_input_tuple_to_new_page. rewrite Hrun. by eexists.
    - exists a, w1. split; [done|]. split; [|done]. unfold in_overlay in R1. destruct (last (w_stack w0)); [|done].
      unfold append_pending_input_tuple_to_new_page in R1. rewrite Hrun in R1. by injection R1 as <- _. }
  destruct (Hin w Hs) as (res & w1 & R1 & -> & Hw1). rewrite (M_bind_run _ _ _ _ _ R1). by apply total_claim.
Qed.

Lemma total_append relid input n : input_ok input → tuple_storage_len input = Ok n →
  total (roomy relid) (append_pending_input_tuple mem relid input) (λ _, begun).
Proof.
  intros Hok Hl w Hw. unfold append_pending_input_tuple, lift. rewrite Hl. by apply (total_append_with_len relid input n).
Qed.

Lemma total_append_current relid input n : input_ok input → tuple_storage_len input = Ok n →
  total (roomy relid) (append_pending_input_tuple_current_session mem relid input) (λ _, begun).
Proof.
  intros Hok Hl w Hw. unfold append_pending_input_tuple_current_session, lift. rewrite Hl.
  rewrite (M_bind_run _ _ _ n w) by done. rewrite gets_run.
  destruct (total_ensure relid w Hw) as (u & w1 & R1 & Hw1). rewrite (M_bind_run _ _ _ _ _ R1).
  destruct (total_existing relid input n (max_tuples_of relid w) Hok Hl w1 Hw1) as (res & w2 & R2 & Hw2).
  rewrite (M_bind_run _ _ _ _ _ R2). destruct res as [t|].
  - apply total_claim. apply Hw2.
  - apply total_append_with_len; [done..|by apply ready_roomy].
Qed.

(** An insertion that meets no duplicate succeeds. *)
Lemma total_insert relid input n check metadata record : input_ok input → tuple_storage_len input = Ok n →
  ∀ w, roomy relid w → (check = Enforce → unique_index_conflict_for_input_read mem fuel (w_storage w) (w_session w) relid input None = None) →
  ∃ t w', relation_insert_impl mem fuel relid input check metadata record w = (Ok (Some t), w').
Proof.
  intros Hok Hl w Hw Hc. unfold relation_insert_impl. rewrite gets_run.
  assert (bool_decide (check = Enforce) && bool_decide (is_Some (unique_index_conflict_for_input_read mem fuel (w_storage w) (w_session w) relid input None)) = false) as ->.
  { destruct (bool_decide_reflect (check = Enforce)) as [E|]; [|done]. rewrite (Hc E). done. }
  destruct (total_append_current relid input n Hok Hl w Hw) as (t & w1 & R1 & Hw1). rewrite (M_bind_run _ _ _ _ _ R1).
  assert (Ht : total begun (
    match metadata with
    | Some m => recorded ← record_current_session_insert_metadata relid t m;
                if (recorded : bool) then mret tt else st_set_insert_metadata relid t (im_xid m) (im_cid m)
    | None => mret tt
    end;; (if record then record_current_session_primary_key_insert mem fuel relid input t else mret tt);; mret (Some t)) (λ res _, res = Some t)).
  { eapply (total_bind _ _ (λ _, begun)).
    - destruct metadata as [m|]; [|intros w2 Hw2; by exists tt, w2]. eapply (total_bind _ _ (λ _, begun)).
      + unfold record_current_session_insert_metadata, if_overlay. intros w2 Hw2. destruct (last (w_stack w2)) eqn:E; [|by apply last_None in E].
        apply total_begun; [|done]. intros o. unfold mbind, M_bind, modify, returning. destruct (set_pending_insert_metadata _ _ _ _ _). by eexists.
      + intros [|] w2 Hw2; by eexists _, _.
    - intros _. eapply (total_bind _ _ (λ _, begun)); [|intros _ w2 Hw2; by eexists _, _].
      destruct record; [|intros w2 Hw2; by exists tt, w2]. unfold record_current_session_primary_key_insert.
      destruct (spec ← _; _); [apply total_modify|intros w2 Hw2; by exists tt, w2]. }
  destruct (Ht w1 Hw1) as (res & w2 & R2 & ->). by exists t, w2.
Qed.
End outcomes.

(** ** A line of a pending page stays *)

Lemma find_alter_first {A} (P : A → bool) f l k x : (∀ a, P (f a) = P a) → list_find (λ a, Is_true (P a)) l = Some (k, x) →
  List.find P (alter f k l) = Some (f x).
Proof.
  intros Hf. revert k. induction l as [|a l IH]; intros k; [done|]. simpl. case_decide as Ha.
  - intros [= <- <-]. cbn. apply Is_true_true in Ha. by rewrite Hf, Ha.
  - destruct (list_find _ l) as [[k' x']|] eqn:E; [|done]. intros [= <- <-]. cbn. rewrite Is_true_true in Ha.
    apply not_true_is_false in Ha. rewrite Ha. by apply IH.
Qed.

Lemma reverse_alter {A} (f : A → A) i (l : list A) : (i < length l)%nat → reverse (alter f i l) = alter f (length l - 1 - i)%nat (reverse l).
Proof.
  intros Hi. apply list_eq. intros j. destruct (decide (j < length l)%nat) as [Hj|Hj].
  - rewrite reverse_lookup by (by rewrite length_alter). rewrite length_alter. destruct (decide (j = length l - 1 - i)%nat) as [->|Hn].
    + rewrite list_lookup_alter_eq, reverse_lookup by lia. replace (length l - S (length l - 1 - i))%nat with i by lia. by rewrite list_lookup_alter_eq.
    + rewrite (list_lookup_alter_ne _ (reverse l)) by done. rewrite reverse_lookup by done. apply list_lookup_alter_ne. lia.
  - rewrite !lookup_ge_None_2; [done|..]; rewrite ?length_alter, ?length_reverse, ?length_alter; lia.
Qed.

Lemma pending_page_mut_page relid b f o : (∀ p, pg_block (f p) = pg_block p) → is_Some (pending_page relid b o) →
  pending_page relid b (pending_page_mut relid b f o) = f <$> pending_page relid b o.
Proof.
  intros Hf [p Hp]. unfold pending_page_mut. rewrite Hp. unfold pending_page in Hp. apply bind_Some in Hp as (ps & Hps & Hp).
  rewrite Hps. cbn [mbind option_bind]. unfold rposition.
  assert (∃ k, list_find (λ a, Is_true (pg_block a =? b)) (reverse ps) = Some (k, p)) as [k Hk].
  { clear -Hp. induction (reverse ps) as [|q l IH]; [done|]. simpl in *. case_decide as Hq.
    - apply Is_true_true in Hq. rewrite Hq in Hp. exists 0%nat. congruence.
    - rewrite Is_true_true in Hq. apply not_true_is_false in Hq. rewrite Hq in Hp. destruct (IH Hp) as [k ->]. by exists (S k). }
  rewrite Hk. cbn [mbind option_bind fst]. unfold pending_page. cbn [pending_pages set_pending_pages].
  rewrite relid_get_get_mut, decide_True, Hps by done. cbn. pose proof Hk as (Hl & _)%list_find_Some. apply lookup_lt_Some in Hl.
  rewrite length_reverse in Hl. rewrite reverse_alter by lia. replace (length ps - 1 - (length ps - 1 - k))%nat with k by lia.
  apply find_alter_first; [|done]. intros q. by rewrite Hf.
Qed.

Lemma pending_line_pages relid t o o' : pending_pages o' = pending_pages o → pending_line relid t o' = pending_line relid t o.
Proof. intros E. unfold pending_line, pending_page. by rewrite E. Qed.

Lemma pending_line_mut_line relid t f o : is_Some (pending_line relid t o) →
  (pending_line_mut relid t f o).1 = true ∧ is_Some (pending_line relid t (pending_line_mut relid t f o).2).
Proof.
  intros [l Hl]. unfold pending_line_mut. rewrite Hl. split; [done|]. cbn [snd].
  unfold pending_line in *. apply bind_Some in Hl as (k & -> & (p & Hp & Hk)%bind_Some). cbn [mbind option_bind].
  rewrite pending_page_mut_page; [|done|by rewrite Hp]. rewrite Hp. cbn. rewrite lookup_lt_is_Some, length_alter. by eapply lookup_lt_Some.
Qed.

Lemma last_set w o o' : last (w_stack w) = Some o → last (w_stack (on_session (last_overlay_mut (λ _, o')) w)) = Some o'.
Proof.
  intros [l E]%last_Some. destruct (set_top l w o') as [-> _]; [unfold top; by rewrite E, last_snoc|]. apply last_snoc.
Qed.

(** The top overlay has a line for the row. *)
Definition lined (relid : Z) (t : Tid) (w : World) : Prop := ∃ o, last (w_stack w) = Some o ∧ is_Some (pending_line relid t o).

Lemma total_lined {A} relid t (m : M TransactionOverlay A) (Q : A → Prop) :
  (∀ o, is_Some (pending_line relid t o) → ∃ a o', m o = (Ok a, o') ∧ Q a ∧ is_Some (pending_line relid t o')) →
  total (lined relid t) (in_overlay m) (λ a w, Q a ∧ lined relid t w).
Proof.
  intros Hm w (o & Ho & Hl). unfold in_overlay. rewrite Ho. destruct (Hm o Hl) as (a & o' & -> & HQ & Hl'). eexists _, _. split; [done|].
  split; [done|]. exists o'. split; [|done]. by eapply last_set.
Qed.
Lemma total_lined_modify relid t f : (∀ o, pending_pages (f o) = pending_pages o) →
  total (lined relid t) (in_overlay (modify f)) (λ _, lined relid t).
Proof.
  intros Hf. eapply total_conseq; [apply (total_lined relid t (modify f) (λ _, True))|done|by intros ? ? [_ ?]].
  intros o Ho. exists tt, (f o). split; [done|]. split; [done|]. by rewrite (pending_line_pages _ _ o).
Qed.
Lemma total_lined_record relid t f : total (lined relid t) (in_overlay (returning (pending_line_mut relid t f))) (λ b w, b = true ∧ lined relid t w).
Proof.
  apply (total_lined relid t _ (λ b, b = true)). intros o Ho. destruct (pending_line_mut_line relid t f o Ho) as [E1 E2].
  exists true, (pending_line_mut relid t f o).2. unfold returning. destruct (pending_line_mut relid t f o). by cbn in E1; subst.
Qed.

Lemma prow_line o relid t row : prow o relid t = Some row → is_Some (pending_line relid t o).
Proof.
  unfold prow, pending_line. rewrite pending_page_ppage. intros (p & -> & Hr)%bind_Some. unfold page_row, page_line in Hr.
  apply bind_Some in Hr as (l & (k & -> & Hk)%bind_Some & _). cbn. by eexists.
Qed.

Section updates.
Context `{Target} `{Catalog} (mem : Z → Z) (fuel : nat).
Context (L : list TransactionOverlay) (T : Z → Tid → Prop) (B : Z → Z → Prop).
Abbreviation Inv := (Inv L T B).
Abbreviation triple := (triple L T B).

Definition same_storage (w w' : World) : Prop := w_storage w' = w_storage w.
#[local] Instance same_storage_preorder : PreOrder same_storage.
Proof. split; [done|]. intros w1 w2 w3 E1 E2. red in E1, E2 |- *. congruence. Qed.

Lemma storage_overlay {A} (m : M TransactionOverlay A) : respects same_storage (in_overlay m).
Proof. intros w. unfold in_overlay. destruct (last (w_stack w)) as [o|]; [|done]. by destruct (m o). Qed.
Lemma storage_if_overlay {A} (d : A) (m : M TransactionOverlay A) : respects same_storage (if_overlay d m).
Proof. intros w. unfold if_overlay. destruct (last (w_stack w)) as [o|]; [|done]. apply storage_overlay. Qed.
Lemma storage_session f : respects same_storage (modify (on_session f)).
Proof. by intros w. Qed.
#[local] Hint Resolve storage_overlay storage_if_overlay storage_session : respects.

Lemma pending_hot_storage relid t input hot m : respects same_storage (update_current_session_pending_hot mem relid t input hot m).
Proof. unfold update_current_session_pending_hot, record_new_version. respects. Qed.

(** A pending page with room takes the row, and has a line for it. *)
Lemma existing_lined relid input n max w o : input_ok input → tuple_storage_len input = Ok n → Inv w → last (w_stack w) = Some o →
  ∃ res w', in_overlay (append_pending_input_tuple_to_existing_page mem relid input n max) w = (Ok res, w') ∧
    match res with Some t => lined relid t w' | None => True end.
Proof.
  intros Hok Hl Hw Ho. pose proof (storage_len_bounds input n Hok Hl) as Hn. assert (Et : top w = o) by (unfold top; by rewrite Ho).
  pose proof (inv_top _ _ _ _ Hw) as Hov. rewrite Et in Hov. unfold in_overlay, append_pending_input_tuple_to_existing_page. rewrite Ho.
  destruct (ps ← _; i ← _; p ← _; Some (i, p)) as [[i p]|] eqn:Es; [|by eexists _, _].
  apply bind_Some in Es as (ps & Hps & (i' & Hi & (p' & Hp & [= -> ->])%bind_Some)%bind_Some).
  apply rposition_some in Hi as (q & Hq & [Hf _]%andb_true_iff). rewrite Hp in Hq. injection Hq as <-.
  assert (Hin : p ∈ ppages relid o) by (rewrite (ppages_get _ _ _ Hps); by eapply list_elem_of_lookup_2).
  destruct (ok_pages _ _ Hov _ _ Hin) as (Hpw & _).
  pose proof (append_input_run mem input n LPending p Hpw Hok Hl Hn) as Hrun. rewrite Hf in Hrun. destruct Hrun as (b & Hb & _ & ->).
  rewrite <- Hb in Hn, Hf. pose proof (gets_row_existing _ _ _ ps i p b Hov Hps Hp Hn Hf) as Hg.
  eexists _, _. split; [done|]. eexists. split; [|eapply prow_line; rewrite (gr_prow _ _ _ _ _ _ Hg), decide_True; done].
  by eapply last_set.
Qed.

Lemma total_new_version relid old t hot : total (lined relid t) (record_new_version relid old t hot) (λ _, lined relid t).
Proof.
  unfold record_new_version. eapply total_conseq; [apply (total_lined relid t _ (λ _, True))|done|by intros ? ? [_ ?]].
  intros o Ho. eexists tt, _. split; [done|]. split; [done|]. rewrite (pending_line_pages relid t o); [done|].
  unfold ov_insert_update_redirect, ov_insert_hot_redirect. by repeat case_match.
Qed.

Lemma total_pending_hot relid t0 input n hot m : input_ok input → tuple_storage_len input = Ok n →
  total Inv (update_current_session_pending_hot mem relid t0 input hot m) (λ _ _, True).
Proof.
  intros Hok Hl w Hw. unfold update_current_session_pending_hot. rewrite gets_run. unfold lift at 1. rewrite Hl.
  rewrite (M_bind_run _ _ _ n w) by done. rewrite !gets_run. destruct (negb _ || _ || _); [by eexists _, _|].
  unfold if_overlay at 1. unfold mbind at 1, M_bind at 1. destruct (last (w_stack w)) as [o|] eqn:Eo; [|by eexists _, _].
  destruct (existing_lined relid input n (max_tuples_of relid w) w o Hok Hl Hw Eo) as ([t|] & w1 & -> & Hw1); [|by eexists _, _].
  set (old := resolve_update_redirect_current_session relid t0 w). revert w1 Hw1.
  match goal with |- ∀ w1, lined relid t w1 → ∃ a s', ?m w1 = _ ∧ _ => change (total (lined relid t) m (λ _ _, True)) end.
  eapply total_bind; [by apply total_lined_modify|]. intros u. eapply total_bind; [apply total_new_version|]. intros u1.
  eapply (total_bind _ _ (λ _, lined relid t)); [|intros u2 w1 Hw1; by eexists _, _].
  destruct m as [m|]; [|intros w1 Hw1; by exists tt, w1].
  eapply total_bind; [by apply total_lined_modify|]. intros u3. eapply total_bind; [by apply total_lined_modify|]. intros u4.
  eapply total_bind; [apply total_lined_record|]. intros b w1 [-> Hw1]. revert w1 Hw1.
  match goal with |- ∀ w1, lined relid t w1 → ∃ a s', ?m w1 = _ ∧ _ => change (total (lined relid t) m (λ _, lined relid t)) end.
  eapply total_bind; [apply total_lined_record|]. intros b w1 [-> Hw1]. by exists tt, w1.
Qed.

Lemma total_finish relid old t hot m own old_key new_key :
  total begun (finish_update relid old t hot m own old_key new_key) (λ _, begun).
Proof.
  unfold finish_update. eapply total_bind.
  { unfold record_new_version. apply total_begun. intros o. by eexists. }
  intros u. eapply (total_bind _ _ (λ _, begun)).
  { destruct m as [m|]; [|intros w Hw; by exists tt, w].
    eapply total_bind; [apply total_modify|]. intros u1. eapply total_bind; [apply total_modify|]. intros u2.
    eapply total_bind; [apply total_begun; intros o; unfold returning; destruct (set_pending_insert_metadata _ _ _ _ _); by eexists|]. intros b.
    eapply (total_bind _ _ (λ _, begun)); [destruct b; intros w Hw; by eexists _, _|]. intros u3.
    eapply total_bind; [apply total_begun; intros o; unfold returning; destruct (set_pending_row_xmax _ _ _ _); by eexists|]. intros b'.
    destruct b'; intros w Hw; by eexists _, _. }
  intros u1. eapply (total_bind _ _ (λ _, begun)).
  { destruct old_key as [key|]; [|intros w Hw; by exists tt, w]. destruct (bool_decide _); [intros w Hw; by exists tt, w|].
    destruct own; apply total_modify. }
  intros u2. eapply (total_bind _ _ (λ _, begun)).
  { destruct new_key as [key|]; [apply total_modify|intros w Hw; by exists tt, w]. }
  intros u3 w Hw. by eexists _, _.
Qed.

(** Looking for a conflict never fails and leaves room where there was room. *)
Lemma any_resolve relid overlays t : total (λ _, True) (resolve_compress relid overlays t) (λ _ _, True).
Proof.
  intros st _. unfold resolve_compress, returning. destruct (resolve_tid_redirect_in_overlays_compress overlays relid t st). by eexists _, _.
Qed.
Lemma any_ret {S A} (a : A) : total (λ _ : S, True) (mret a) (λ _ _, True).
Proof. intros st _. by eexists _, _. Qed.
Lemma any_gets {S A} (f : S → A) : total (λ _ : S, True) (gets f) (λ _ _, True).
Proof. intros st _. by eexists _, _. Qed.
Lemma any_bind {S A A'} (m : M S A) (k : A → M S A') : total (λ _ : S, True) m (λ _ _, True) → (∀ a, total (λ _, True) (k a) (λ _ _, True)) →
  total (λ _, True) (m ≫= k) (λ _ _, True).
Proof. intros Hm Hk. by eapply total_bind. Qed.
Create HintDb any.
#[local] Hint Resolve any_resolve any_ret any_gets any_bind : any.

Lemma any_visible relid overlays t : total (λ _, True) (visible_resolved_compress relid overlays t) (λ _ _, True).
Proof. unfold visible_resolved_compress. auto with any. Qed.
#[local] Hint Resolve any_visible : any.
Lemma any_key_overlays overlays relid key rev : total (λ _, True) (primary_key_overlays_compress overlays relid key rev) (λ _ _, True).
Proof.
  induction rev as [|o rev IH]; cbn [primary_key_overlays_compress]; [apply any_ret|]. apply any_bind; [repeat case_match; auto with any|].
  intros [t|]; [apply any_ret|]. repeat case_match; auto with any.
Qed.
#[local] Hint Resolve any_key_overlays : any.
Lemma any_key_lookup s relid key : total (λ _, True) (primary_key_lookup s relid key) (λ _ _, True).
Proof.
  unfold primary_key_lookup. apply any_bind; [apply any_gets|]. intros st. destruct (negb _); [case_match; auto 6 with any|].
  apply any_bind; [apply any_key_overlays|]. intros [?|]; [apply any_ret|]. case_match; auto with any.
Qed.
#[local] Hint Resolve any_key_lookup : any.
Lemma any_find s relid spec key replacing : total (λ _, True) (find_visible_by_index_key_excluding s relid spec key replacing) (λ _ _, True).
Proof.
  unfold find_visible_by_index_key_excluding. apply any_bind; [case_match; auto with any|]. intros old. destruct (is_primary spec); auto with any.
Qed.
Lemma any_conflict_loop s relid input replacing specs :
  total (λ _, True) (unique_index_conflict_loop mem fuel s relid input replacing specs) (λ _ _, True).
Proof.
  induction specs as [|spec specs IH]; cbn [unique_index_conflict_loop]; [apply any_ret|]. case_match; [|done].
  apply any_bind; [apply any_find|]. intros [t|]; auto with any.
Qed.

Lemma total_conflict relid input replacing : total (roomy L T B relid) (unique_index_conflict_for_input mem fuel relid input replacing)
  (λ _, roomy L T B relid).
Proof.
  intros w [Hw Hr]. pose proof (calm_conflict L T B mem fuel relid input replacing w Hw) as [Hw' _].
  pose proof (st_calm_conflict mem fuel (w_session w) relid input replacing (unique_index_specs_for_relation_oid relid) (w_storage w) relid) as Hc.
  unfold unique_index_conflict_for_input in *.
  destruct (any_conflict_loop (w_session w) relid input replacing (unique_index_specs_for_relation_oid relid) (w_storage w) I) as (c & st & E & _).
  rewrite E in *. exists c, (set_w_storage st w). split; [done|]. split; [done|].
  unfold core in Hc. unfold rel in *. cbn in *. injection Hc as _ _ _ _ _ -> _. done.
Qed.

(** What comes of an update of a row that the session sees, by the identifier of
    its newest version: it is refused only for a conflict that was to be checked,
    or where the old row has to be read and cannot be. *)
Lemma total_update relid packed t0 input n check hot m old w : input_ok input → tuple_storage_len input = Ok n → unpack packed = Some t0 →
  roomy L T B relid w → settled w relid t0 → now w relid t0 = Some old →
  ∃ res w', relation_update_impl mem fuel relid packed input check hot m w = (Ok res, w') ∧
    let conflict := (unique_index_conflict_for_input mem fuel relid input (Some t0) w).1 in
    match res with
    | Some _ => check = Enforce → conflict = Ok None
    | None => (hot = false ∨ check = Enforce) ∧ decode_tuple t0 old = None ∨ check = Enforce ∧ ∃ index, conflict = Ok (Some index)
    end.
Proof.
  intros Hok Hl Ht0 [Hw Hr] Hs Hold. cbv zeta. unfold relation_update_impl. rewrite Ht0.
  set (hu := hot && bool_decide (check = Skip)).
  assert (Hhu : check = Enforce → hu = false) by (unfold hu; intros ->; by rewrite andb_false_r).
  assert (Hhot : hu = false → hot = false ∨ check = Enforce) by (unfold hu; destruct hot, check; auto).
  assert (Hfirst : ∃ res w1, (if hu then update_current_session_pending_hot mem relid t0 input hot m else mret None) w = (Ok res, w1) ∧
    (hu = false → w1 = w ∧ res = None) ∧
    match res with
    | Some _ => True
    | None => roomy L T B relid w1 ∧ settled w1 relid t0 ∧ now w1 relid t0 = Some old
    end).
  { destruct hu; [|by exists None, w]. destruct (total_pending_hot relid t0 input n hot m Hok Hl w Hw) as (res & w1 & R1 & _).
    exists res, w1. split; [done|]. split; [done|]. destruct res as [t|]; [done|].
    destruct (triple_pending_hot mem L T B True (now w) relid t0 input hot m Hok w Hw) as (G1 & _ & G2); [by split; [intros ??|]|].
    pose proof (pending_hot_storage relid t0 input hot m w) as E. rewrite R1 in *. cbn [fst snd] in *. red in E.
    destruct (G2 None eq_refl) as [G3 G4]. split; [split; [done|unfold rel; by rewrite E]|]. split; [by apply G4|]. unfold now in *. by rewrite G3. }
  destruct Hfirst as (res & w1 & R1 & Hsame & Hres). rewrite (M_bind_run _ _ _ _ _ R1). destruct res as [t|].
  { eexists _, _. split; [done|]. intros Hen. by destruct (Hsame (Hhu Hen)). }
  destruct Hres as (Hr1 & Hs1 & Ho1). rewrite (M_bind_run _ _ _ _ _ (settled_resolve_row w1 relid t0 Hs1)). rewrite gets_run.
  rewrite (visible_for_session_view L T B) by apply Hr1. unfold now in Ho1. rewrite Ho1.
  destruct (if hu then Some None else decoded ← decode_tuple t0 old; Some (primary_key_of_decoded relid decoded)) as [old_key|] eqn:Ek.
  2: { eexists _, _. split; [done|]. left. destruct hu; [done|]. split; [by apply Hhot|]. by destruct (decode_tuple t0 old). }
  rewrite gets_run. set (own := negb hu && _).
  assert (∃ c w2, (if bool_decide (check = Enforce) then unique_index_conflict_for_input mem fuel relid input (Some t0) else mret None) w1 = (Ok c, w2) ∧
    roomy L T B relid w2 ∧ (check = Enforce → (unique_index_conflict_for_input mem fuel relid input (Some t0) w).1 = Ok c) ∧
    (is_Some c → check = Enforce)) as (c & w2 & R2 & Hr2 & Hen & Hc).
  { case_bool_decide as He; [|exists None, w1; split_and!; [done..|by intros []]].
    destruct (total_conflict relid input (Some t0) w1 Hr1) as (c & w2 & R2 & Hr2). exists c, w2. split_and!; [done..| |done].
    intros _. destruct (Hsame (Hhu He)) as [<- _]. by rewrite R2. }
  rewrite (M_bind_run _ _ _ _ _ R2). destruct c as [index|].
  { rewrite bool_decide_eq_true_2 by done. eexists _, _. split; [done|]. right. split; [by apply Hc|]. exists index. by apply Hen, Hc. }
  rewrite bool_decide_eq_false_2 by (by intros [? ?]).
  destruct (total_append mem L T B relid input n Hok Hl w2 Hr2) as (t & w3 & R3 & Hw3). rewrite (M_bind_run _ _ _ _ _ R3).
  destruct (total_finish relid t0 t hot m own old_key (if hu then None else primary_key_of_input mem fuel relid input) w3 Hw3) as (u & w4 & R4 & _).
  rewrite (M_bind_run _ _ _ _ _ R4). by eexists _, _.
Qed.

(** A deletion never fails. *)
Lemma total_delete relid packed record w : ∃ b w', relation_delete_impl relid packed record w = (Ok b, w').
Proof.
  unfold relation_delete_impl. destruct (unpack packed) as [t|]; [|by eexists _, _].
  assert (∃ t' w1, resolve_row relid t w = (Ok t', w1)) as (t' & w1 & R1).
  { unfold resolve_row, returning, mbind, M_bind, gets. destruct (resolve_update_redirect_in_overlays_compress _ _ _ _). cbn.
    destruct (resolve_tid_redirect_in_overlays_compress _ _ _ _). by eexists _, _. }
  rewrite (M_bind_run _ _ _ _ _ R1), !gets_run. destruct (find_visible_tuple _ _ _ _) as [tuple|]; [|by eexists _, _].
  assert (Ht : total begun (in_overlay (modify (invalidate relid t'));;
      match primary_key_of_decoded relid tuple with
      | Some key => if record then if owns_inserted_tid (w_session w1) relid t' then in_overlay (modify (remove_primary_key_insert relid key))
                                   else in_overlay (modify (delete_primary_key relid key)) else mret tt
      | None => mret tt
      end;; modify (on_session (mark_scans_visibility_delta relid));; mret true) (λ _ _, True)).
  { eapply total_bind; [apply total_modify|]. intros u. eapply (total_bind _ _ (λ _, begun)).
    - destruct (primary_key_of_decoded _ _); [|intros w2 Hw2; by exists tt, w2]. destruct record; [|intros w2 Hw2; by exists tt, w2].
      destruct (owns_inserted_tid _ _ _); apply total_modify.
    - intros u1 w2 Hw2. by eexists _, _. }
  rewrite (M_bind_run _ _ _ tt (on_session ensure_transaction w1)) by done.
  destruct (Ht (on_session ensure_transaction w1)) as (b & w2 & R2 & _); [|by exists b, w2].
  unfold begun, w_stack, on_session, ensure_transaction. cbn. by destruct (transaction_stack (w_session w1)) eqn:E; cbn; rewrite ?E.
Qed.
End updates.
