(* ===== verification/EngSession.v ===== *)
(** * A session among others

    What is left of an overlay in the relations when it is rolled back: the
    rows that it claimed are dead, all others are as they were, and the cached
    row counts are right ([rollback_spec]).

    [SInv R] is the invariant of a session where [R] are the overlays of all
    other sessions: overlays are well-formed and claim nothing in common.  A
    call that keeps [Inv] for the top overlay keeps it ([Inv_SInv]), and so do
    the calls that push, merge and roll back overlays; merging changes nothing
    that is seen, rolling back leaves what the overlays below see. *)

From Stdlib Require Import ZArith Lia.
From stdpp Require Import base tactics numbers list gmap strings sorting.
From S2P Require Import Prelude RustStd EngTid EngTuple EngPage EngIndex EngRelation EngOverlay EngState EngOps EngScan EngTupleProofs EngPageProofs EngRelationProofs EngInv EngAppend EngCalls.

Local Open Scope Z_scope.

(** * Rolling an overlay back *)

(** ** Changing many relations *)

Lemma relation_get_mut_lookup relid f st relid' :
  relations (relation_get_mut relid f st) !! relid' = if decide (relid' = relid) then f <$> relations st !! relid else relations st !! relid'.
Proof.
  unfold relation_get_mut. cbn [relations set_relations]. case_decide; [subst; apply lookup_alter_eq|]. by apply lookup_alter_ne.
Qed.

Lemma for_relations_lookup {V} (f : V → RelationStorage → RelationStorage) (m : RelidMap V) st relid : NoDup m.*1 →
  relations (for_relations f m st) !! relid =
  match relid_get relid m with Some v => f v <$> relations st !! relid | None => relations st !! relid end.
Proof.
  unfold for_relations. revert st. induction m as [|[k v] m IH]; intros st Hn; [done|]. simpl in Hn.
  apply NoDup_cons in Hn as [Hk Hn]. simpl. rewrite IH by done. rewrite relation_get_mut_lookup. unfold relid_get. simpl.
  destruct (decide (k = relid)) as [->|].
  - rewrite decide_True by done. destruct (assoc_get relid m) as [v'|] eqn:E; [|done].
    apply assoc_get_elem in E. exfalso. apply Hk. apply list_elem_of_fmap. by exists (relid, v').
  - by rewrite decide_False.
Qed.

Lemma for_relations_of {V} (f : V → RelationStorage → RelationStorage) (m : RelidMap V) st relid : NoDup m.*1 →
  relation_of (for_relations f m st) relid =
  match relations st !! relid, relid_get relid m with Some r, Some v => f v r | _, _ => relation_of st relid end.
Proof.
  intros Hn. unfold relation_of. rewrite for_relations_lookup by done.
  by destruct (relations st !! relid), (relid_get relid m).
Qed.

Lemma rows_default t : rows relation_default t = None.
Proof. rewrite rows_page. unfold page. destruct (0 <=? tid_block t); [|done]. by destruct (Z.to_nat (tid_block t)). Qed.

Lemma no_relation_rows st relid t : relations st !! relid = None → rows (relation_of st relid) t = None.
Proof. intros E. unfold relation_of. rewrite E. apply rows_default. Qed.

Lemma for_relations_core {V} (f : V → RelationStorage → RelationStorage) (m : RelidMap V) st :
  (∀ v r, core (f v r) = core r) → ∀ relid, core (relation_of (for_relations f m st) relid) = core (relation_of st relid).
Proof.
  intros Hf. unfold for_relations. revert st. induction m as [|[k v] m IH]; intros st relid; [done|]. simpl. rewrite IH.
  unfold relation_of. rewrite relation_get_mut_lookup. case_decide; [|done]. subst. destruct (relations st !! k); [apply Hf|done].
Qed.

(** Rows that are no more. *)
Definition gone (row : option (LinePointerState * list Z)) : option (LinePointerState * list Z) :=
  (λ row, (LDead, row.2)) <$> row.

Lemma mark_tids_dead tids r : rel_wf r →
  let r' := foldl (λ r t, snd (rel_mark_dead t (set_pending_reserved_tids (pending_reserved_tids r ∖ {[t]}) r))) r tids in
  rel_wf r' ∧ extends r r' ∧ ∀ t, rows r' t = if decide (t ∈ tids) then gone (rows r t) else rows r t.
Proof.
  cbv zeta. revert r. induction tids as [|t tids IH]; intros r Hr; cbn [foldl].
  { split; [done|]. split; [done|]. intros t. rewrite decide_False; [done|]. apply not_elem_of_nil. }
  set (r1 := set_pending_reserved_tids _ r). assert (Hr1 : rel_wf r1) by (by apply (core_wf r)).
  pose proof (rel_mark_dead_spec r1 t Hr1) as Hd. destruct (rel_mark_dead t r1) as [d r2]. destruct Hd as (H1 & H2 & _ & H3). simpl.
  destruct (IH r2 H1) as (G1 & G2 & G3). split; [done|]. split.
  { etrans; [|done]. etrans; [|done]. by apply extends_core. }
  intros t'. rewrite G3, H3. change (rows r1) with (rows r). fold (gone (rows r t)).
  destruct (decide (t' = t)) as [->|Hne].
  - rewrite (decide_True (P := t ∈ t :: tids)) by (by left). case_decide; [|done]. by destruct (rows r t).
  - rewrite (decide_ext (t' ∈ t :: tids) (t' ∈ tids)) by (rewrite elem_of_cons; tauto). done.
Qed.

(** ** Counters of rows *)

Definition counted (w : World) : Prop :=
  ∀ relid, rel_wf (rel w relid) ∧ default 0 (w_row_counts w !! relid) = live_tuple_count (rel w relid).

Lemma refresh_count w relid relid' : default 0 (w_row_counts (refresh_cached_row_count relid w) !! relid') =
  if decide (relid' = relid) then live_tuple_count (rel w relid) else default 0 (w_row_counts w !! relid').
Proof.
  unfold refresh_cached_row_count. cbn [w_row_counts set_w_row_counts]. case_decide.
  - subst. rewrite lookup_insert_eq. simpl. unfold rel, relation_of. by destruct (relations (w_storage w) !! relid).
  - by rewrite lookup_insert_ne.
Qed.

(** ** Rolling an overlay back *)

(** The relations after: the rows that the overlay claimed are no more. *)
Record rolled (o : TransactionOverlay) (w w' : World) : Prop := {
  rolled_session : w_session w' = w_session w;
  rolled_counted : counted w';
  rolled_extends : ∀ relid, extends (rel w relid) (rel w' relid);
  rolled_rows : ∀ relid t, rows (rel w' relid) t = if decide (claims_tid o relid t) then gone (rows (rel w relid) t) else rows (rel w relid) t;
}.

(** Restoring what was recorded of relations changes no row. *)
Lemma restore_relations_spec cs w : counted w → (∀ relid c, (relid, c) ∈ cs → rc_next_block c <= U32_MAX) →
  let w' := foldl (λ w kc,
    match relations (w_storage w) !! kc.1 with
    | Some _ => refresh_cached_row_count kc.1
                  (on_storage (relation_get_mut kc.1 (restore_rollback_metadata_preserving_tid_space kc.2)) w)
    | None => w
    end) w cs in
  w_session w' = w_session w ∧ counted w' ∧
  ∀ relid, extends (rel w relid) (rel w' relid) ∧ ∀ t, rows (rel w' relid) t = rows (rel w relid) t.
Proof.
  cbv zeta. revert w. induction cs as [|[k c] cs IH]; intros w Hw Hc; simpl; [done|].
  destruct (relations (w_storage w) !! k) as [r|] eqn:Er.
  2: { apply IH; [done|]. intros relid c' Hc'. eapply Hc. by right. }
  set (w1 := refresh_cached_row_count _ _).
  assert (Erel : ∀ relid, rel w1 relid = if decide (relid = k) then restore_rollback_metadata_preserving_tid_space c r else rel w relid).
  { intros relid. unfold rel, relation_of, w1. cbn [w_storage refresh_cached_row_count set_w_row_counts on_storage set_w_storage].
    rewrite relation_get_mut_lookup. case_decide; [|done]. by rewrite Er. }
  assert (Ek : rel w k = r) by (unfold rel, relation_of; by rewrite Er).
  destruct (restore_rollback_spec c r) as (R1 & R2 & R3 & R4); [rewrite <- Ek; apply Hw|eapply Hc; by left|].
  assert (Hstep : ∀ relid, extends (rel w relid) (rel w1 relid) ∧ ∀ t, rows (rel w1 relid) t = rows (rel w relid) t).
  { intros relid. rewrite Erel. case_decide; [subst relid; by rewrite Ek|done]. }
  destruct (IH w1) as (G1 & G2 & G3).
  - intros relid. split; [rewrite Erel; case_decide; [done|apply Hw]|]. unfold w1. rewrite refresh_count.
    case_decide as E; [by subst relid|]. destruct (Hw relid) as [_ Hx]. trans (live_tuple_count (rel w relid)); [done|].
    change (live_tuple_count (rel w relid) = live_tuple_count (rel w1 relid)). by rewrite Erel, decide_False.
  - intros relid c' Hc'. eapply Hc. by right.
  - split; [done|]. split; [done|]. intros relid. destruct (G3 relid) as [G4 G5]. destruct (Hstep relid) as [S1 S2].
    split; [by etrans|]. intros t. by rewrite G5.
Qed.

Lemma rollback_spec o w : counted w → ov_ok (w_storage w) o → rolled o w (rollback_overlay_from_relations o w).
Proof.
  intros Hw Ho. unfold rollback_overlay_from_relations. rewrite (ok_clear _ _ Ho). cbn [foldl fmap list_fmap].
  set (w1 := on_storage _ w). set (w2 := on_storage _ w1). destruct (ok_keys _ _ Ho) as (K1 & K2 & K3).
  assert (H1 : ∀ relid, rel_wf (rel w1 relid) ∧ extends (rel w relid) (rel w1 relid) ∧
    ∀ t, rows (rel w1 relid) t = if decide (claims_tid o relid t) then gone (rows (rel w relid) t) else rows (rel w relid) t).
  { intros relid. unfold rel, w1. cbn [w_storage on_storage set_w_storage]. rewrite for_relations_of by done.
    destruct (relations (w_storage w) !! relid) as [r|] eqn:Er; cycle 1.
    { split; [apply Hw|]. split; [done|]. intros t. rewrite no_relation_rows by done. by case_decide. }
    assert (Ek : rel w relid = r) by (unfold rel, relation_of; by rewrite Er). fold (rel w relid).
    destruct (relid_get relid (inserted_tids o)) as [tids|] eqn:Eg.
    - rewrite Ek. destruct (mark_tids_dead tids r) as (A1 & A2 & A3); [rewrite <- Ek; apply Hw|].
      split; [done|]. split; [done|]. intros t. rewrite A3.
      by rewrite (decide_ext (t ∈ tids) (claims_tid o relid t)) by (unfold claims_tid, tids_of; by rewrite Eg).
    - split; [apply Hw|]. split; [done|]. intros t. rewrite decide_False; [done|]. unfold claims_tid, tids_of. rewrite Eg.
      apply not_elem_of_nil. }
  assert (H2 : ∀ relid, core (rel w2 relid) = core (rel w1 relid)).
  { apply for_relations_core. intros ps r. apply foldl_core. done. }
  assert (Hc2 : counted w2).
  { intros relid. split; [apply (core_wf (rel w1 relid)); [done|apply H1]|]. change (w_row_counts w2) with (w_row_counts w).
    destruct (Hw relid) as [Hr ->]. destruct (H1 relid) as (Hr1 & _ & Hrows).
    trans (live_tuple_count (rel w1 relid)).
    - apply live_count_rows; [done|done|]. intros t b. rewrite Hrows. case_decide as E; [|done].
      destruct (ok_tids _ _ Ho _ _ E) as [[row Hrow]|[b' Hb']].
      + apply prow_claims in Hrow. apply (ok_block _ _ _ _ Ho) in Hrow as [_ Hn]. rewrite rows_page.
        unfold rel in *. rewrite Hn. done.
      + unfold rel. rewrite Hb'. done.
    - specialize (H2 relid). unfold core in H2. injection H2 as _ _ _ _ _ _ _ E _ _ _. by rewrite E. }
  destruct (restore_relations_spec (relation_checkpoints o) w2 Hc2) as (G1 & G2 & G3); [apply (ok_checkpoints _ _ Ho)|].
  split; [done|done|..]; intros relid; destruct (H1 relid) as (_ & E1 & R1); destruct (G3 relid) as [E3 R3].
  - etrans; [done|]. etrans; [by apply extends_core, H2|done].
  - intros t. rewrite R3, <- R1. specialize (H2 relid). unfold core in H2. injection H2 as E _ _ _ _ _ _ _ _ _ _.
    by rewrite (rows_pages _ _ E).
Qed.

(** * A session among others *)

(** ** Overlays that have nothing in common *)

Definition apart (o o' : TransactionOverlay) : Prop :=
  (∀ relid t, claims_tid o relid t → ¬ claims_tid o' relid t) ∧ (∀ relid b, claims_block o relid b → ¬ claims_block o' relid b).
Lemma apart_sym o o' : apart o o' → apart o' o.
Proof. intros [H1 H2]. split; [intros relid t Ht Ht'; by eapply H1|intros relid b Hb Hb'; by eapply H2]. Qed.

Fixpoint all_apart (ovs : list TransactionOverlay) : Prop :=
  match ovs with [] => True | o :: ovs => Forall (apart o) ovs ∧ all_apart ovs end.

Lemma all_apart_app l k : all_apart (l ++ k) ↔ all_apart l ∧ all_apart k ∧ (∀ o o', o ∈ l → o' ∈ k → apart o o').
Proof.
  induction l as [|o l IH]; simpl.
  { split; [|tauto]. intros Hk. split; [done|]. split; [done|]. by intros o o' ?%not_elem_of_nil. }
  rewrite IH, Forall_app, !Forall_forall. split.
  - intros ([H1 H2] & H3 & H4 & H5). split; [done|]. split; [done|].
    intros a b [->|Ha]%elem_of_cons Hb; [by apply H2|by apply H5].
  - intros ([H1 H2] & H3 & H4). split; [split; [done|]|split; [done|split; [done|]]].
    + intros b Hb. apply H4; [by left|done].
    + intros a b Ha Hb. apply H4; [by right|done].
Qed.

Lemma own_inserted_owned ovs relid t : no_clears ovs → overlays_own_inserted_tid ovs relid t = bool_decide (owned ovs relid t).
Proof.
  intros Hn. unfold overlays_own_inserted_tid. rewrite own_loop_owned; [|by apply Forall_reverse]. apply bool_decide_ext, owned_reverse.
Qed.

(** ** The invariant of a session beside others *)

Definition settled_row (w : World) (relid : Z) (t : Tid) : Prop := ∃ s b, rows (rel w relid) t = Some (s, b) ∧ s ≠ LPending.

(** An overlay hides rows of its own, of those below it, and committed ones. *)
Definition hides_ok (w : World) (stack : list TransactionOverlay) : Prop :=
  ∀ k o relid t, stack !! k = Some o → hides o relid t → owned (take (S k) stack) relid t ∨ settled_row w relid t.

Record SInv (R : list TransactionOverlay) (w : World) : Prop := {
  si_counted : counted w;
  si_ok : Forall (ov_ok (w_storage w)) (w_stack w ++ R);
  si_apart : all_apart (w_stack w ++ R);
  si_hides : hides_ok w (w_stack w);
}.

(** What the overlays below the top and those of others claim. *)
Definition lower (w : World) : list TransactionOverlay := take (length (w_stack w) - 1) (w_stack w).
Definition claimed (ovs : list TransactionOverlay) (relid : Z) (t : Tid) : Prop := owned ovs relid t.
Definition held (ovs : list TransactionOverlay) (relid b : Z) : Prop := Exists (λ o, claims_block o relid b) ovs.

Lemma stack_shape w : w_stack w = lower w ++ [top w] ∨ lower w = [] ∧ w_stack w = [].
Proof.
  unfold lower, top. destruct (w_stack w) as [|o l _] using rev_ind; [by right|]. left.
  rewrite length_app, last_snoc. cbn [length default]. rewrite Nat.add_sub, take_app_length. done.
Qed.

Lemma owned_app l k relid t : owned (l ++ k) relid t ↔ owned l relid t ∨ owned k relid t.
Proof. apply Exists_app. Qed.
Lemma owned_one o relid t : owned [o] relid t ↔ claims_tid o relid t.
Proof. unfold owned. rewrite Exists_cons, Exists_nil. tauto. Qed.
Lemma hidden_app l k relid t : hidden (l ++ k) relid t ↔ hidden l relid t ∨ hidden k relid t.
Proof. apply Exists_app. Qed.
Lemma hidden_one o relid t : hidden [o] relid t ↔ hides o relid t.
Proof. unfold hidden. rewrite Exists_cons, Exists_nil. tauto. Qed.
Lemma held_app l k relid b : held (l ++ k) relid b ↔ held l relid b ∨ held k relid b.
Proof. apply Exists_app. Qed.

(** A claim is on a block of the overlays, or on a pending row. *)
Lemma claimed_row w ovs relid t : Forall (ov_ok (w_storage w)) ovs → owned ovs relid t →
  held ovs relid (tid_block t) ∨ ∃ b, rows (rel w relid) t = Some (LPending, b).
Proof.
  intros Hok (o & Ho & Ht)%owned_elem. destruct (ok_tids _ _ (proj1 (Forall_forall _ _) Hok o Ho) _ _ Ht) as [[row Hr]|[b Hb]].
  - left. apply Exists_exists. exists o. split; [done|]. by eapply prow_claims.
  - right. by exists b.
Qed.
Lemma held_page w ovs relid b : Forall (ov_ok (w_storage w)) ovs → held ovs relid b →
  0 <= b < next_block (rel w relid) ∧ page (rel w relid) b = None.
Proof.
  intros Hok (o & Ho & Hb)%Exists_exists. eapply ok_block; [|done]. by apply (proj1 (Forall_forall _ _) Hok).
Qed.

Lemma hides_ok_hidden w stack relid t : hides_ok w stack → hidden stack relid t → owned stack relid t ∨ settled_row w relid t.
Proof.
  intros Hh (o & Ho & Ht)%hidden_elem. apply list_elem_of_lookup in Ho as [k Hk]. destruct (Hh k o relid t Hk Ht) as [H|?]; [|by right].
  left. apply owned_elem in H as (o' & Ho' & Ht'). apply owned_elem. exists o'. split; [|done].
  apply elem_of_take in Ho' as (i & Hi & _). by eapply list_elem_of_lookup_2.
Qed.

Lemma hides_ok_lower w : hides_ok w (w_stack w) → hides_ok w (lower w).
Proof.
  intros Hh k o relid t Hk Ht. pose proof (lookup_lt_Some _ _ _ Hk). destruct (stack_shape w) as [E|[E _]].
  - rewrite <- (take_app_le _ [top w]) by lia. rewrite <- E. apply (Hh k o); [|done]. rewrite E. by rewrite lookup_app_l.
  - rewrite E in Hk. by rewrite lookup_nil in Hk.
Qed.

Lemma shown_live row b : shown false row = Some b ↔ row = Some (LLive, b).
Proof. destruct row as [[[] b']|]; simpl; split; congruence. Qed.

Section bridge.
Context (R : list TransactionOverlay).

Lemma SInv_Inv w : SInv R w → Inv (lower w) (claimed (lower w ++ R)) (held (lower w ++ R)) w.
Proof.
  intros [H1 H2 H3 H4].
  assert (Hlow : Forall (ov_ok (w_storage w)) (lower w ++ R)).
  { destruct (stack_shape w) as [E|[E _]]; rewrite ?E in *; [|by apply Forall_app in H2 as [_ ?]].
    rewrite !Forall_app in *. tauto. }
  assert (Htop : ov_ok (w_storage w) (top w) ∧ ∀ o, o ∈ lower w ++ R → apart o (top w)).
  { destruct (stack_shape w) as [E|[E E']].
    - rewrite E in H2, H3. rewrite !Forall_app, Forall_singleton in H2. split; [tauto|].
      rewrite !all_apart_app in H3. destruct H3 as ((_ & _ & A1) & _ & A2). intros o [Ho|Ho]%elem_of_app.
      + apply A1; [done|by left].
      + apply apart_sym, A2; [|done]. apply elem_of_app. right. by left.
    - assert (top w = overlay_default) as -> by (unfold top; by rewrite E'). split; [apply ov_ok_default|].
      intros o _. split; intros ? ? _ ?%not_elem_of_nil; done. }
  destruct Htop as [Hok Hap]. split.
  - destruct (stack_shape w) as [E|[E E']]; [by left|by right].
  - intros relid. apply H1.
  - intros relid. apply H1.
  - split.
    + apply Forall_app in Hlow as [Hlow _]. eapply Forall_impl; [done|]. intros o Ho. apply (ok_clear _ _ Ho).
    + intros o Ho relid. split; intros x Hx; apply Exists_exists; exists o; (split; [apply elem_of_app; by left|done]).
  - done.
  - intros relid t Ht. destruct (stack_shape w) as [E|[E E']].
    + destruct (H4 (length (lower w)) (top w) relid t) as [Ho|?]; [rewrite E; by rewrite lookup_app_r, Nat.sub_diag|done| |by right; right].
      rewrite E in Ho. rewrite take_ge in Ho by (rewrite length_app; simpl; lia). rewrite owned_app, owned_one in Ho. tauto.
    + unfold top in Ht. rewrite E' in Ht. by apply not_elem_of_nil in Ht.
  - intros relid t Ht. apply (hides_ok_hidden w); [|done]. by apply hides_ok_lower.
  - intros relid t Ht. split; [|by apply claimed_row].
    apply owned_elem in Ht as (o & Ho & Ht). by apply (proj1 (Hap o Ho)).
  - intros relid b Hb. pose proof (held_page w _ _ _ Hlow Hb) as Hp. split; [|done].
    apply Exists_exists in Hb as (o & Ho & Hb). by apply (proj2 (Hap o Ho)).
Qed.

(** Rows of others stay as they are for readers who claim them. *)
Lemma ov_ok_kept st st' o : ov_ok st o →
  (∀ relid b, claims_block o relid b → b < next_block (relation_of st' relid) ∧ page (relation_of st' relid) b = None) →
  (∀ relid t b, claims_tid o relid t → rows (relation_of st relid) t = Some (LPending, b) → rows (relation_of st' relid) t = Some (LPending, b)) →
  ov_ok st' o.
Proof.
  intros [O1 O2 O3 O4 O5 O6 O7] Hb Ht. split; try done.
  - intros relid p Hp. destruct (O2 relid p Hp) as (P1 & P2 & _ & _). split; [done|]. split; [done|].
    apply Hb. apply list_elem_of_fmap. by exists p.
  - intros relid t Hc. destruct (O4 relid t Hc) as [?|[b Hr]]; [by left|]. right. exists b. by apply Ht.
Qed.

Lemma settled_quiet T w w' relid t : quiet T w w' → settled_row w relid t → settled_row w' relid t.
Proof.
  intros Hq (s & b & Hr & Hs). exists s, b. split; [|done]. destruct s; [done| |].
  - by apply (quiet_live _ _ _ Hq).
  - by apply (quiet_dead _ _ _ Hq).
Qed.

Lemma hides_ok_quiet T w w' stack : quiet T w w' → hides_ok w stack → hides_ok w' stack.
Proof.
  intros Hq Hh k o relid t Hk Ht. destruct (Hh k o relid t Hk Ht) as [?|?]; [by left|]. right. by eapply settled_quiet.
Qed.

(** A call that keeps the invariant of its top overlay keeps that of the session. *)
Lemma Inv_SInv w w' : SInv R w → Inv (lower w) (claimed (lower w ++ R)) (held (lower w ++ R)) w' →
  quiet (claimed (lower w ++ R)) w w' → SInv R w'.
Proof.
  intros Hw Hi Hq. pose proof (SInv_Inv w Hw) as Hi0. destruct Hw as [H1 H2 H3 H4].
  assert (Hlow : Forall (ov_ok (w_storage w)) (lower w ++ R) ∧ all_apart (lower w ++ R)).
  { destruct (stack_shape w) as [E|[E E']]; [|rewrite E, E' in *; done]. rewrite E in H2, H3.
    rewrite !Forall_app, !all_apart_app in *. destruct H2 as [[? _] ?]. destruct H3 as ((? & _ & _) & ? & A).
    split; [done|]. split; [done|]. split; [done|]. intros o o' Ho. apply A. apply elem_of_app. by left. }
  destruct Hlow as [Hlow Hapl].
  assert (Hlow' : Forall (ov_ok (w_storage w')) (lower w ++ R)).
  { apply Forall_forall. intros o Ho. eapply (ov_ok_kept (w_storage w)); [by apply (proj1 (Forall_forall _ _) Hlow)|..].
    - intros relid b Hb. assert (Hh : held (lower w ++ R) relid b) by (apply Exists_exists; eauto).
      destruct (inv_B _ _ _ _ Hi relid b Hh) as (_ & ? & ?). unfold rel in *. split; [lia|done].
    - intros relid t b Ht Hr. assert (Hc : claimed (lower w ++ R) relid t) by (apply Exists_exists; eauto).
      fold (rel w' relid). rewrite (quiet_T _ _ _ Hq _ _ Hc). done. }
  assert (Hap' : ∀ o, o ∈ lower w ++ R → apart (top w') o).
  { intros o Ho. split.
    - intros relid t Ht Ho'. assert (Hc : claimed (lower w ++ R) relid t) by (apply Exists_exists; eauto).
      by destruct (inv_T _ _ _ _ Hi relid t Hc).
    - intros relid b Hb Ho'. assert (Hh : held (lower w ++ R) relid b) by (apply Exists_exists; eauto).
      by destruct (inv_B _ _ _ _ Hi relid b Hh). }
  assert (Hhl : hides_ok w' (lower w)).
  { apply (hides_ok_quiet _ w _ _ Hq). by apply hides_ok_lower. }
  split.
  - intros relid. split; [apply (inv_rels _ _ _ _ Hi)|apply (inv_counts _ _ _ _ Hi)].
  - destruct (inv_shape _ _ _ _ Hi) as [->|[E ->]]; [|rewrite E in Hlow'; done].
    rewrite !Forall_app in *. rewrite Forall_singleton. split; [split; [tauto|apply (inv_top _ _ _ _ Hi)]|tauto].
  - destruct (inv_shape _ _ _ _ Hi) as [->|[E ->]]; [|rewrite E in Hapl; done].
    rewrite !all_apart_app in *. destruct Hapl as (A1 & A2 & A3). split; [|split; [done|]].
    + split; [done|]. split; [done|]. intros o o' Ho ->%list_elem_of_singleton. apply apart_sym, Hap'. apply elem_of_app. by left.
    + intros o o' [Ho| ->%list_elem_of_singleton]%elem_of_app Ho'; [by apply A3|]. apply Hap'. apply elem_of_app. by right.
  - destruct (inv_shape _ _ _ _ Hi) as [->|[E ->]]; [|intros k o relid t Hk; by rewrite lookup_nil in Hk].
    intros k o relid t [Hk|[Hk Ho]]%lookup_app_Some Ht.
    + pose proof (lookup_lt_Some _ _ _ Hk). rewrite take_app_le by lia. by apply (Hhl k o).
    + apply list_lookup_singleton_Some in Ho as [Hk0 <-]. rewrite take_ge by (rewrite length_app; simpl; lia).
      rewrite owned_app, owned_one. destruct (inv_hides _ _ _ _ Hi relid t Ht) as [?|[?|?]]; tauto.
Qed.

(** ** What others see *)

Lemma view_quiet T w w' ovs relid t : quiet T w w' → no_clears ovs → (∀ relid t, owned ovs relid t → T relid t) →
  view (w_storage w') ovs relid t = view (w_storage w) ovs relid t.
Proof.
  intros Hq Hn HT. rewrite !view_eq by done. fold (rel w relid) (rel w' relid). case_decide; [done|]. case_decide as Ho.
  - by rewrite (quiet_T _ _ _ Hq _ _ (HT _ _ Ho)).
  - apply option_eq. intros b. rewrite !shown_live. apply (quiet_live _ _ _ Hq).
Qed.
End bridge.

(** ** Merging the overlay of a subtransaction *)

Lemma merge_into_get {V A} (d : V) (f : V → A → V) (m : RelidMap V) (other : RelidMap (list A)) relid : NoDup other.*1 →
  relid_get relid (merge_into d f m other) =
  match relid_get relid other with
  | Some xs => Some (foldl f (default d (relid_get relid m)) xs)
  | None => relid_get relid m
  end.
Proof.
  unfold merge_into. revert m. induction other as [|[k xs] other IH]; intros m Hn; [done|]. simpl in Hn.
  apply NoDup_cons in Hn as [Hk Hn]. cbn [foldl]. rewrite IH by done. rewrite relid_get_entry. cbn [fst snd].
  change (relid_get relid ((k, xs) :: other)) with (if decide (k = relid) then Some xs else relid_get relid other).
  destruct (decide (k = relid)) as [->|].
  - rewrite decide_True by done. destruct (relid_get relid other) as [ys|] eqn:E; [|done].
    apply assoc_get_elem in E. exfalso. apply Hk, list_elem_of_fmap. by exists (relid, ys).
  - by rewrite decide_False.
Qed.

Lemma merge_into_keys {V A} (d : V) (f : V → A → V) (m : RelidMap V) (other : RelidMap (list A)) :
  NoDup m.*1 → NoDup (merge_into d f m other).*1.
Proof.
  unfold merge_into. revert m. induction other as [|[k xs] other IH]; intros m Hn; [done|]. cbn [foldl].
  apply IH. by apply assoc_upsert_NoDup.
Qed.

Lemma push_all_elem {A} `{EqDecision A} (xs l : list A) y : y ∈ foldl (λ l t, push_unique t l) l xs ↔ y ∈ l ∨ y ∈ xs.
Proof.
  revert l. induction xs as [|x xs IH]; intros l; cbn [foldl].
  - split; [by left|]. by intros [?|?%not_elem_of_nil].
  - rewrite IH, push_unique_elem, elem_of_cons. tauto.
Qed.
Lemma push_all_NoDup {A} `{EqDecision A} (xs l : list A) : NoDup l → NoDup (foldl (λ l t, push_unique t l) l xs).
Proof. revert l. induction xs as [|x xs IH]; intros l Hl; cbn [foldl]; [done|]. by apply IH, push_unique_NoDup. Qed.

Lemma merged_tids m other relid : NoDup other.*1 →
  tids_of relid (merge_into [] (λ l t, push_unique t l) m other) =
  foldl (λ l t, push_unique t l) (tids_of relid m) (tids_of relid other).
Proof.
  intros Hn. unfold tids_of. rewrite merge_into_get by done. by destruct (relid_get relid other).
Qed.

Lemma append_pages (xs l : list Page) : foldl (λ ps p, ps ++ [p]) l xs = l ++ xs.
Proof. revert l. induction xs as [|x xs IH]; intros l; cbn [foldl]; [by rewrite app_nil_r|]. rewrite IH. by rewrite <- app_assoc. Qed.

Lemma checkpoints_merged (cs m : RelidMap RelationCheckpoint) relid c :
  (relid, c) ∈ foldl (λ m kv, relid_entry kv.1 kv.2 id m) m cs → (relid, c) ∈ m ∨ (relid, c) ∈ cs.
Proof.
  revert m. induction cs as [|[k v] cs IH]; intros m; cbn [foldl]; [by left|]. intros [Hm|?]%IH; [|right; by right].
  cbn [fst snd] in Hm. unfold relid_entry in Hm. revert Hm. clear. induction m as [|[a x] m IHm]; simpl.
  - intros [= -> ->]%list_elem_of_singleton. right. by left.
  - case_decide; intros [E|Hm]%elem_of_cons; try (injection E as -> ->).
    + left. by left.
    + left. by right.
    + left. by left.
    + destruct (IHm Hm); [left; by right|by right].
Qed.

Section merge.
Context (o l : TransactionOverlay) (st : StorageState).
Context (Ho : ov_ok st o) (Hl : ov_ok st l) (Ha : apart l o).
Abbreviation merged := (append_from o l).

Lemma merged_start : foldl merge_cleared l (cleared_relations o) = l.
Proof. by rewrite (ok_clear _ _ Ho). Qed.

Lemma merged_fields :
  inserted_tids merged = merge_into [] (λ l t, push_unique t l) (inserted_tids l) (inserted_tids o) ∧
  invalidated_tids merged = merge_into [] (λ l t, push_unique t l) (invalidated_tids l) (invalidated_tids o) ∧
  pending_pages merged = merge_into [] (λ ps p, ps ++ [p]) (pending_pages l) (pending_pages o) ∧
  cleared_relations merged = cleared_relations l ∧
  relation_checkpoints merged = foldl (λ m kv, relid_entry kv.1 kv.2 id m) (relation_checkpoints l) (relation_checkpoints o).
Proof. unfold append_from. rewrite merged_start. done. Qed.

Lemma merged_claims relid t : claims_tid merged relid t ↔ claims_tid l relid t ∨ claims_tid o relid t.
Proof.
  unfold claims_tid. rewrite (proj1 merged_fields), merged_tids by (apply (ok_keys _ _ Ho)). apply push_all_elem.
Qed.
Lemma merged_hides relid t : hides merged relid t ↔ hides l relid t ∨ hides o relid t.
Proof.
  unfold hides. destruct merged_fields as (_ & -> & _). rewrite merged_tids by (apply (ok_keys _ _ Ho)). apply push_all_elem.
Qed.
Lemma merged_pages relid : ppages relid merged = ppages relid l ++ ppages relid o.
Proof.
  unfold ppages. destruct merged_fields as (_ & _ & -> & _). rewrite merge_into_get by (apply (ok_keys _ _ Ho)).
  destruct (relid_get relid (pending_pages o)); simpl; [apply append_pages|by rewrite app_nil_r].
Qed.

Lemma merged_blocks relid b : claims_block merged relid b ↔ claims_block l relid b ∨ claims_block o relid b.
Proof. unfold claims_block. by rewrite merged_pages, fmap_app, elem_of_app. Qed.

Lemma ppage_last ps qs b : ppage (ps ++ qs) b = match ppage qs b with Some p => Some p | None => ppage ps b end.
Proof.
  induction qs as [|q qs IH] using rev_ind.
  - rewrite app_nil_r. by unfold ppage at 2.
  - rewrite app_assoc, !ppage_app, IH. by case_decide.
Qed.

Lemma merged_prow relid t : prow merged relid t = match prow o relid t with Some row => Some row | None => prow l relid t end.
Proof.
  unfold prow. rewrite merged_pages, ppage_last. destruct (ppage (ppages relid o) (tid_block t)) as [p|] eqn:E; simpl.
  - destruct (page_row p (tid_offset t)); [done|].
    assert (ppage (ppages relid l) (tid_block t) = None) as ->; [|done].
    apply ppage_none. intros Hb. apply (proj2 Ha relid _ Hb).
    destruct (decide (tid_block t ∈ pg_block <$> ppages relid o)) as [|Hn]; [done|]. apply ppage_none in Hn. congruence.
  - done.
Qed.

Lemma merged_ok : ov_ok st merged.
Proof.
  pose proof (ok_keys _ _ Ho) as (K1 & K2 & K3). pose proof (ok_keys _ _ Hl) as (K4 & K5 & K6).
  destruct merged_fields as (F1 & F2 & F3 & F4 & F5). split.
  - rewrite F4. apply (ok_clear _ _ Hl).
  - intros relid p. rewrite merged_pages, elem_of_app. intros [Hp|Hp]; [by apply (ok_pages _ _ Hl)|by apply (ok_pages _ _ Ho)].
  - intros relid. rewrite merged_pages, fmap_app. apply NoDup_app. split; [apply (ok_blocks _ _ Hl)|].
    split; [|apply (ok_blocks _ _ Ho)]. intros b Hb. by apply (proj2 Ha).
  - intros relid t. rewrite merged_claims, merged_prow. intros [Ht|Ht].
    + destruct (ok_tids _ _ Hl _ _ Ht); [|by right]. left. destruct (prow o relid t); [eauto|done].
    + destruct (ok_tids _ _ Ho _ _ Ht) as [[row ->]|]; [|by right]. left. eauto.
  - intros relid. rewrite F1, F2, !merged_tids by done.
    split; apply push_all_NoDup, (ok_nodup _ _ Hl).
  - rewrite F1, F2, F3. split; [by apply merge_into_keys|]. split; by apply merge_into_keys.
  - intros relid c. rewrite F5.
    intros [?|?]%checkpoints_merged; [by eapply (ok_checkpoints _ _ Hl)|by eapply (ok_checkpoints _ _ Ho)].
Qed.

Lemma merged_owned S relid t : owned (S ++ [merged]) relid t ↔ owned (S ++ [l; o]) relid t.
Proof. unfold owned. rewrite !Exists_app, !Exists_cons, !Exists_nil, merged_claims. tauto. Qed.
Lemma merged_hidden S relid t : hidden (S ++ [merged]) relid t ↔ hidden (S ++ [l; o]) relid t.
Proof. unfold hidden. rewrite !Exists_app, !Exists_cons, !Exists_nil, merged_hides. tauto. Qed.

Lemma shown_pending st' q relid t : ov_ok st' q → shown true (prow q relid t) = snd <$> prow q relid t.
Proof.
  intros Hq. destruct (prow q relid t) as [[s b]|] eqn:E; [|done]. pose proof (ok_prow _ _ _ _ _ Hq E) as Es. simpl in Es.
  by subst s.
Qed.

Lemma merged_pending S relid t : pending_of (S ++ [merged]) relid t = pending_of (S ++ [l; o]) relid t.
Proof.
  unfold pending_of. rewrite !reverse_app. simpl. rewrite !pending_tuple_slice_prow.
  rewrite (shown_pending st merged), (shown_pending st o), (shown_pending st l) by (done || apply merged_ok).
  rewrite merged_prow. destruct (prow o relid t); [done|]. by destruct (prow l relid t).
Qed.

Lemma merged_view S relid t : no_clears S → view st (S ++ [merged]) relid t = view st (S ++ [l; o]) relid t.
Proof.
  intros HS. rewrite !view_eq.
  - by rewrite (decide_ext _ _ _ _ (merged_hidden S relid t)), (decide_ext _ _ _ _ (merged_owned S relid t)), merged_pending.
  - apply Forall_app. split; [done|]. repeat constructor; [apply (ok_clear _ _ Hl)|apply (ok_clear _ _ Ho)].
  - apply Forall_app. split; [done|]. repeat constructor. apply (ok_clear _ _ merged_ok).
Qed.
End merge.

(** What the session sees. *)
Definition seen (w : World) (relid : Z) (t : Tid) : option (list Z) := view (w_storage w) (w_stack w) relid t.
(** What a session without a transaction sees. *)
Definition committed (w : World) (relid : Z) (t : Tid) : option (list Z) := shown false (rows (rel w relid) t).

Lemma committed_view w relid t : view (w_storage w) [] relid t = committed w relid t.
Proof. rewrite view_eq by constructor. rewrite !decide_False by (by intros ?%Exists_nil). done. Qed.

Section transactions.
Context (R : list TransactionOverlay).

Lemma SInv_no_clears w : SInv R w → no_clears (w_stack w ++ R).
Proof. intros Hw. eapply Forall_impl; [apply (si_ok _ _ Hw)|]. intros o Ho. apply (ok_clear _ _ Ho). Qed.

(** ** Beginning *)

Lemma apart_default o : apart overlay_default o ∧ apart o overlay_default.
Proof.
  assert (H1 : apart overlay_default o) by (split; intros ? ? ?%not_elem_of_nil; done). split; [done|by apply apart_sym].
Qed.

Lemma SInv_push w w' : SInv R w → w_storage w' = w_storage w → w_row_counts w' = w_row_counts w →
  w_stack w' = w_stack w ++ [overlay_default] → SInv R w' ∧ ∀ relid t, seen w' relid t = seen w relid t.
Proof.
  intros Hw E1 E2 E3. assert (Er : ∀ relid, rel w' relid = rel w relid) by (intros; unfold rel; by rewrite E1).
  pose proof (SInv_no_clears w Hw) as Hn. apply Forall_app in Hn as [Hn _].
  destruct Hw as [H1 H2 H3 H4]. split; [split|].
  - intros relid. rewrite Er, E2. apply H1.
  - rewrite E1, E3. rewrite !Forall_app in *. rewrite Forall_singleton. split; [split; [tauto|apply ov_ok_default]|tauto].
  - rewrite E3. rewrite !all_apart_app in *. destruct H3 as (A1 & A2 & A3). split; [|split; [done|]].
    + split; [done|]. split; [done|]. intros o o' _ ->%list_elem_of_singleton. apply apart_default.
    + intros o o' [Ho| ->%list_elem_of_singleton]%elem_of_app Ho'; [by apply A3|apply apart_default].
  - rewrite E3. intros k o relid t [Hk|[Hk Ho]]%lookup_app_Some Ht.
    + pose proof (lookup_lt_Some _ _ _ Hk). rewrite take_app_le by lia. unfold settled_row. rewrite Er. by apply (H4 k o).
    + apply list_lookup_singleton_Some in Ho as [_ <-]. by apply not_elem_of_nil in Ht.
  - intros relid t. unfold seen. rewrite E1, E3, !view_eq; [|done|apply Forall_app; split; [done|by repeat constructor]].
    rewrite (decide_ext (hidden (w_stack w ++ [overlay_default]) relid t) (hidden (w_stack w) relid t))
      by (rewrite hidden_app, hidden_one; split; [|by left]; by intros [?|?%not_elem_of_nil]).
    rewrite (decide_ext (owned (w_stack w ++ [overlay_default]) relid t) (owned (w_stack w) relid t))
      by (rewrite owned_app, owned_one; split; [|by left]; by intros [?|?%not_elem_of_nil]).
    unfold pending_of. by rewrite reverse_app.
Qed.

Lemma ensure_spec w : SInv R w →
  let w' := on_session ensure_transaction w in
  SInv R w' ∧ w_storage w' = w_storage w ∧ w_row_counts w' = w_row_counts w ∧ w_stack w' ≠ [] ∧
  ∀ relid t, seen w' relid t = seen w relid t.
Proof.
  intros Hw. cbv zeta. destruct (w_stack w) as [|o l] eqn:E.
  - assert (E3 : w_stack (on_session ensure_transaction w) = w_stack w ++ [overlay_default]).
    { rewrite E. unfold w_stack, on_session, ensure_transaction in *. cbn. by rewrite E. }
    destruct (SInv_push w (on_session ensure_transaction w) Hw eq_refl eq_refl E3). by rewrite E3, E.
  - assert (on_session ensure_transaction w = w) as ->; [|by rewrite E].
    unfold w_stack, on_session, ensure_transaction in *. rewrite E. by destruct w.
Qed.

(** ** The top overlay goes away *)

Lemma SInv_pop w w' S o : SInv R w → w_stack w = S ++ [o] → w_stack w' = S → counted w' →
  (∀ relid, extends (rel w relid) (rel w' relid)) → quiet (claimed (S ++ R)) w w' → SInv R w'.
Proof.
  intros [H1 H2 H3 H4] E E' Hc He Hq. rewrite E in H2, H3. split; [done|..]; rewrite ?E'.
  - assert (H2' : Forall (ov_ok (w_storage w)) (S ++ R)) by (rewrite !Forall_app in *; tauto).
    apply Forall_forall. intros o' Ho'. pose proof (proj1 (Forall_forall _ _) H2' o' Ho') as Hok.
    eapply (ov_ok_kept (w_storage w)); [done|..].
    + intros relid b Hb. destruct (ok_block _ _ _ _ Hok Hb) as [Hb1 Hb2]. destruct (He relid) as [X1 X2].
      unfold rel in *. split; [lia|by apply X2].
    + intros relid t b Ht Hr. fold (rel w' relid). rewrite (quiet_T _ _ _ Hq); [done|]. apply owned_elem. eauto.
  - rewrite !all_apart_app in *. destruct H3 as ((A1 & _ & _) & A2 & A3). split; [done|]. split; [done|].
    intros a b Ha Hb. apply A3; [apply elem_of_app; by left|done].
  - apply (hides_ok_quiet _ _ _ _ Hq). assert (El : lower w = S).
    { unfold lower. rewrite E, length_app. cbn. by rewrite Nat.add_sub, take_app_length. }
    rewrite <- El. by apply hides_ok_lower.
Qed.

Lemma rolled_quiet w w1 w' S o : SInv R w → w_stack w = S ++ [o] → w_storage w1 = w_storage w → rolled o w1 w' →
  quiet (claimed (S ++ R)) w w'.
Proof.
  intros [H1 H2 H3 H4] E E1 [_ _ _ Hrows0]. rewrite E in H2, H3.
  assert (Er : ∀ relid, rel w1 relid = rel w relid) by (intros; unfold rel; by rewrite E1).
  assert (Hrows : ∀ relid t, rows (rel w' relid) t = if decide (claims_tid o relid t) then gone (rows (rel w relid) t) else rows (rel w relid) t)
    by (intros; by rewrite Hrows0, Er). clear Hrows0.
  assert (Ho : ov_ok (w_storage w) o) by (rewrite !Forall_app, Forall_singleton in H2; tauto).
  assert (Hp : ∀ relid t, claims_tid o relid t → rows (rel w relid) t = None ∨ ∃ b, rows (rel w relid) t = Some (LPending, b)).
  { intros relid t Ht. destruct (ok_tids _ _ Ho _ _ Ht) as [[row Hr]|?]; [|by right]. left. apply prow_claims in Hr.
    apply (ok_block _ _ _ _ Ho) in Hr as [_ Hr]. rewrite rows_page. unfold rel. by rewrite Hr. }
  split.
  - intros relid t (o' & Ho' & Ht)%owned_elem. rewrite Hrows, decide_False; [done|]. intros Hc.
    rewrite !all_apart_app in H3. destruct H3 as ((_ & _ & A1) & _ & A2). apply elem_of_app in Ho' as [Ho'|Ho'].
    + by eapply (proj1 (A1 o' o Ho' ltac:(by left))).
    + by eapply (proj1 (A2 o o' ltac:(apply elem_of_app; right; by left) Ho')).
  - intros relid t b. rewrite Hrows. case_decide as Hc; [|done]. destruct (Hp _ _ Hc) as [-> |[b' ->]]; done.
  - intros relid t b Hd. rewrite Hrows. case_decide; [|done]. by rewrite Hd.
Qed.

Lemma pop_run w S o : w_stack w = S ++ [o] → pop_overlay (w_session w) = (Some o, set_transaction_stack S (w_session w)).
Proof.
  intros E. unfold pop_overlay. change (transaction_stack (w_session w)) with (w_stack w). rewrite E, last_snoc, length_app.
  cbn [length]. by rewrite Nat.add_sub, take_app_length.
Qed.

(** The top overlay is rolled back: the others see what they saw. *)
Lemma rollback_top w S o : SInv R w → w_stack w = S ++ [o] →
  let w' := rollback_overlay_from_relations o (set_w_session (set_transaction_stack S (w_session w)) w) in
  SInv R w' ∧ w_stack w' = S ∧ quiet (claimed (S ++ R)) w w' ∧ (∀ relid, extends (rel w relid) (rel w' relid)) ∧
  ∀ relid t, seen w' relid t = view (w_storage w) S relid t.
Proof.
  intros Hw E. cbv zeta. set (w1 := set_w_session _ w). set (w' := rollback_overlay_from_relations o w1).
  assert (Ho : ov_ok (w_storage w1) o).
  { pose proof (si_ok _ _ Hw) as H2. rewrite E, !Forall_app, Forall_singleton in H2. tauto. }
  assert (Hr : rolled o w1 w') by (apply rollback_spec; [apply (si_counted _ _ Hw)|done]).
  pose proof (rolled_quiet w w1 w' S o Hw E eq_refl Hr) as Hq.
  assert (Es : w_stack w' = S) by (unfold w_stack; by rewrite (rolled_session _ _ _ Hr)).
  split; [|split; [done|]; split; [done|]; split].
  - eapply SInv_pop; [done..|apply (rolled_counted _ _ _ Hr)| |done]. apply (rolled_extends _ _ _ Hr).
  - apply (rolled_extends _ _ _ Hr).
  - intros relid t. unfold seen. rewrite Es. eapply view_quiet; [done|..].
    + pose proof (SInv_no_clears w Hw) as Hn. rewrite E in Hn. unfold no_clears in *. rewrite !Forall_app in Hn. tauto.
    + intros relid' t' Ht. apply owned_app. by left.
Qed.

Lemma quiet_mono (T T' : Z → Tid → Prop) w w' : (∀ relid t, T' relid t → T relid t) → quiet T w w' → quiet T' w w'.
Proof. intros HT [H1 H2 H3]. split; [|done|done]. intros relid t Ht. by apply H1, HT. Qed.

Lemma quiet_trans T w1 w2 w3 : quiet T w1 w2 → quiet T w2 w3 → quiet T w1 w3.
Proof. intros H1 H2. pose proof (quiet_preorder T) as P. by etrans. Qed.

(** ** Rolling everything back *)
Lemma rollback_all w : SInv R w →
  let w' := rollback_all_overlays w in
  SInv R w' ∧ w_stack w' = [] ∧ quiet (claimed R) w w'.
Proof.
  cbv zeta. unfold rollback_all_overlays. remember (length (w_stack w)) as n eqn:En. revert w En.
  induction n as [|n IH]; intros w En Hw; cbn [rollback_loop].
  - symmetry in En. apply nil_length_inv in En. split; [done|]. split; [done|]. by apply neutral_quiet.
  - destruct (w_stack w) as [|o S _] eqn:E using rev_ind; [done|]. rewrite (pop_run w S o E).
    destruct (rollback_top w S o Hw E) as (G1 & G2 & G3 & _). rewrite length_app in En. cbn in En.
    destruct (IH (rollback_overlay_from_relations o (set_w_session (set_transaction_stack S (w_session w)) w)))
      as (F1 & F2 & F3); [rewrite G2; lia|done|].
    split; [done|]. split; [done|]. eapply quiet_trans; [|done]. eapply quiet_mono; [|done].
    intros relid t Ht. apply owned_app. by right.
Qed.

(** ** Merging the top overlay into the one below *)
Lemma SInv_merge w w' S l o : SInv R w → w_stack w = S ++ [l; o] → w_stack w' = S ++ [append_from o l] →
  w_storage w' = w_storage w → w_row_counts w' = w_row_counts w → SInv R w' ∧ ∀ relid t, seen w' relid t = seen w relid t.
Proof.
  intros Hw E E' E1 E2. assert (Er : ∀ relid, rel w' relid = rel w relid) by (intros; unfold rel; by rewrite E1).
  pose proof (SInv_no_clears w Hw) as Hn. destruct Hw as [H1 H2 H3 H4]. rewrite E in *.
  assert (Hok : Forall (ov_ok (w_storage w)) (S ++ R) ∧ ov_ok (w_storage w) l ∧ ov_ok (w_storage w) o).
  { rewrite !Forall_app, !Forall_cons in *. tauto. }
  destruct Hok as (HS & Hl & Ho).
  assert (Hap : apart l o ∧ all_apart (S ++ R) ∧ ∀ x, x ∈ S ++ R → apart x l ∧ apart x o).
  { rewrite !all_apart_app in H3. destruct H3 as ((A1 & (A2 & _) & A3) & A4 & A5). rewrite Forall_singleton in A2.
    split; [done|]. split.
    - apply all_apart_app. split; [done|]. split; [done|]. intros a b Ha Hb. apply A5; [apply elem_of_app; by left|done].
    - intros x [Hx|Hx]%elem_of_app; [split; apply A3; try done; [by left|right; by left]|].
      split; apply apart_sym, A5; try done; apply elem_of_app; right; [by left|right; by left]. }
  destruct Hap as (Ha & HaS & Hax). pose proof (merged_ok o l _ Ho Hl Ha) as Hm.
  assert (Hxm : ∀ x, x ∈ S ++ R → apart x (append_from o l)).
  { intros x Hx. destruct (Hax x Hx) as [[B1 B2] [B3 B4]]. split.
    - intros relid t Ht. rewrite (merged_claims o l _ Ho). intros [?|?]; [by eapply B1|by eapply B3].
    - intros relid b Hb. rewrite (merged_blocks o l _ Ho). intros [?|?]; [by eapply B2|by eapply B4]. }
  split; [split|].
  - intros relid. rewrite Er, E2. apply H1.
  - rewrite E1, E'. rewrite !Forall_app in *. rewrite Forall_singleton. tauto.
  - rewrite E'. rewrite !all_apart_app in *. destruct HaS as (A1 & A2 & A3). split; [|split; [done|]].
    + split; [done|]. split; [done|]. intros a b Hx ->%list_elem_of_singleton. apply Hxm, elem_of_app. by left.
    + intros a b [Hx| ->%list_elem_of_singleton]%elem_of_app Hb; [by apply A3|]. apply apart_sym, Hxm, elem_of_app. by right.
  - rewrite E'. intros k x relid t Hk Ht. unfold settled_row. rewrite Er.
    apply lookup_app_Some in Hk as [Hk|[Hk Hx]].
    + pose proof (lookup_lt_Some _ _ _ Hk). rewrite take_app_le by lia.
      rewrite <- (take_app_le S [l; o]) by lia. apply (H4 k x); [|done]. by rewrite lookup_app_l.
    + apply list_lookup_singleton_Some in Hx as [Hk0 <-]. rewrite take_ge by (rewrite length_app; simpl; lia).
      rewrite (merged_owned o l _ Ho). apply (merged_hides o l _ Ho) in Ht as [Ht|Ht].
      * destruct (H4 (length S) l relid t) as [Hx|Hx]; [by rewrite lookup_app_r, Nat.sub_diag by lia|done| |by right].
        left. rewrite take_app_ge in Hx by lia. replace (Datatypes.S (length S) - length S)%nat with 1%nat in Hx by lia. simpl in Hx.
        unfold owned in *. rewrite Exists_app, !Exists_cons in *. tauto.
      * destruct (H4 (Datatypes.S (length S)) o relid t) as [Hx|Hx]; [|done| |by right].
        { rewrite lookup_app_r by lia. by replace (Datatypes.S (length S) - length S)%nat with 1%nat by lia. }
        left. by rewrite take_ge in Hx by (rewrite length_app; simpl; lia).
  - intros relid t. unfold seen. rewrite E1, E', E. apply merged_view; [done..|]. unfold no_clears in *. rewrite !Forall_app in Hn. tauto.
Qed.
End transactions.
