(* ===== verification/EngCommit.v ===== *)
(** * Committing an overlay

    The pending pages of an overlay become pages of the relation, or their
    rows are appended to its pages under new identifiers.  [Placed] says what
    the relation has then: all old rows, and every pending row once, under the
    identifier that [remap_tid] gives it; [commit_all_pages_spec] shows it for
    all relations of an overlay, or that block numbers ran out.

    The claimed rows become live and the hidden ones dead, and the cached row
    counts follow ([commit_marks]).  [commit_spec]: what the session saw is
    then what everybody sees, row for row, under a renaming of the rows that
    were on pending pages; all other rows are as they were. *)

From Stdlib Require Import ZArith Lia.
From stdpp Require Import base tactics numbers list gmap strings sorting.
From S2P Require Import Prelude RustStd EngTid EngTuple EngPage EngIndex EngRelation EngOverlay EngState EngOps EngScan EngTupleProofs EngPageProofs EngRelationProofs EngInv EngAppend EngCalls EngSession.

Local Open Scope Z_scope.

(** * Pending pages at a commit *)

Lemma remap_snoc remaps t new t' : (∀ kv, kv ∈ remaps → kv.1 ≠ t) →
  remap_tid (remaps ++ [(t, new)]) t' = if decide (t' = t) then new else remap_tid remaps t'.
Proof.
  intros Hk. unfold remap_tid. induction remaps as [|[a b] remaps IH]; simpl.
  - destruct (decide (t = t')) as [->|]; [by rewrite decide_True|]. by rewrite decide_False.
  - destruct (decide (a = t')) as [->|].
    + rewrite decide_False; [done|]. apply (Hk (t', b)). by left.
    + apply IH. intros kv Hkv. apply Hk. by right.
Qed.

Lemma remap_other remaps t : (∀ kv, kv ∈ remaps → kv.1 ≠ t) → remap_tid remaps t = t.
Proof.
  intros Hk. unfold remap_tid. induction remaps as [|[a b] remaps IH]; simpl; [done|].
  rewrite decide_False by (apply (Hk (a, b)); by left). apply IH. intros kv Hkv. apply Hk. by right.
Qed.

(** ** Rows come to a relation, some under new identifiers *)

Section placing.
Context (r0 : RelationStorage).

(** [src] are the rows that came; [n] of them were appended; [D] are the blocks of pages that came as they are. *)
Record Placed (D : gset Z) (src : Tid → option (list Z)) (n : Z) (s : RelationStorage * list (Tid * Tid)) : Prop := {
  pl_wf : rel_wf s.1;
  pl_keep : ∀ t row, rows r0 t = Some row → rows s.1 t = Some row;
  pl_put : ∀ t b, src t = Some b → rows s.1 (remap_tid s.2 t) = Some (LPending, b) ∧ rows r0 (remap_tid s.2 t) = None;
  pl_inj : ∀ t t', is_Some (src t) → is_Some (src t') → remap_tid s.2 t = remap_tid s.2 t' → t = t';
  pl_only : ∀ t row, rows s.1 t = Some row → rows r0 t = Some row ∨ ∃ t', src t' = Some row.2 ∧ remap_tid s.2 t' = t;
  pl_keys : ∀ kv, kv ∈ s.2 → is_Some (src kv.1);
  pl_next : next_block r0 <= next_block s.1 <= next_block r0 + n;
  pl_pages : ∀ b, 0 <= b < next_block r0 → page r0 b = None → b ∉ D → page s.1 b = None;
}.

Lemma placed_start : rel_wf r0 → Placed ∅ (λ _, None) 0 (r0, []).
Proof.
  intros Hr. split; cbn [fst snd]; try done.
  - intros t row Hrow. by left.
  - by intros kv ?%not_elem_of_nil.
  - lia.
Qed.

Lemma placed_core D src n r r' remaps : core r' = core r → Placed D src n (r, remaps) → Placed D src n (r', remaps).
Proof.
  intros E [P1 P2 P3 P4 P5 P6 P7 P8]. cbn [fst snd] in *. pose proof E as E'. unfold core in E'.
  injection E' as E1 _ _ _ _ E2 _ _ _ _ _. pose proof (rows_pages r r' E1) as Er.
  split; cbn [fst snd]; rewrite ?Er, ?E2; try done; [by apply (core_wf r)|]. intros b. unfold page. rewrite E1. apply P8.
Qed.

(** The rows stay as they are while a relation changes otherwise. *)
Lemma placed_same D src n k r r' remaps : rel_wf r' → extends r r' → (∀ t, rows r' t = rows r t) → next_block r' <= next_block r + k →
  Placed D src n (r, remaps) → Placed D src (n + k) (r', remaps).
Proof.
  intros Hr' He Hrows Hk [P1 P2 P3 P4 P5 P6 P7 P8]. cbn [fst snd] in *. destruct He as [X1 X2].
  split; cbn [fst snd]; try done.
  - intros t row Ht. rewrite Hrows. by apply P2.
  - intros t b Ht. rewrite Hrows. by apply P3.
  - intros t row. rewrite Hrows. apply P5.
  - lia.
  - intros b Hb Hp HD. apply X2; [lia|]. by apply P8.
Qed.

(** One row is appended. *)
Lemma placed_append D src n r remaps t0 b p blk : Placed D src n (r, remaps) → src t0 = None →
  0 <= blk → page r blk = Some p → 0 < len b <= U32_MAX → can_fit p (len b) = true →
  let r' := note_appended blk (len b) (appended b LPending p) (page_mut blk (λ _, appended b LPending p) r) in
  rel_append_pending_tuple blk b r = (Some (next_tid p), r') ∧
  Placed D (λ t, if decide (t = t0) then Some b else src t) n (r', remaps ++ [(t0, next_tid p)]).
Proof.
  intros HP Ht0 Hblk Hp Hb Hf. cbv zeta. pose proof (pl_wf _ _ _ _ HP) as Hr. cbn in Hr.
  split; [by apply rel_append_tuple_run|].
  destruct (rel_appended_spec r blk p b Hr Hblk Hp Hb Hf) as (S1 & [X1 X2] & S3 & S4). set (r' := note_appended _ _ _ _) in *.
  destruct (next_tid_fresh r blk p Hr Hblk Hp) as [Hfresh _]. set (new := next_tid p) in *. destruct HP as [_ P2 P3 P4 P5 P6 P7 P8].
  cbn [fst snd] in *. clearbody new r'.
  assert (Hk : ∀ kv, kv ∈ remaps → kv.1 ≠ t0) by (intros kv Hkv E; apply P6 in Hkv as [x Hx]; congruence).
  assert (Hre : ∀ t, remap_tid (remaps ++ [(t0, new)]) t = if decide (t = t0) then new else remap_tid remaps t) by (intros; by apply remap_snoc).
  assert (Hnew : ∀ t, is_Some (src t) → remap_tid remaps t ≠ new) by (intros t [x Hx] E; apply P3 in Hx as [Hx _]; congruence).
  split; cbn [fst snd]; try done.
  - intros t row Ht. apply P2 in Ht. rewrite S4, decide_False; [done|]. congruence.
  - intros t x. rewrite Hre. case_decide as E.
    + intros [= <-]. rewrite S4, decide_True by done. split; [done|]. destruct (rows r0 new) eqn:E0; [|done]. apply P2 in E0. congruence.
    + intros Hx. rewrite S4, decide_False by (apply Hnew; eauto). by apply P3.
  - intros t t' Ht Ht'. rewrite !Hre. destruct (decide (t = t0)) as [->|], (decide (t' = t0)) as [->|]; [done|..].
    + intros E. by destruct (Hnew t' Ht').
    + intros E. by destruct (Hnew t Ht).
    + by apply P4.
  - intros t row. rewrite S4. case_decide as E.
    + intros [= <-]. right. exists t0. rewrite decide_True, Hre, decide_True by done. done.
    + intros Hrow. destruct (P5 _ _ Hrow) as [?|(t' & Ht' & Et')]; [by left|]. right. exists t'.
      assert (t' ≠ t0) by congruence. rewrite decide_False, Hre, decide_False by done. done.
  - intros kv [Hkv| ->%list_elem_of_singleton]%elem_of_app; [|by rewrite decide_True]. case_decide; [done|]. by apply P6.
  - lia.
  - intros b' Hb' Hp' HD. apply X2; [lia|]. by apply P8.
Qed.

(** A page comes as it is. *)
Lemma placed_page D src n r remaps p : Placed D src n (r, remaps) → page_wf p → page r (pg_block p) = None → pg_block p < next_block r →
  Forall (λ l, lp_state l = LPending) (line_pointers p) → (∀ t, tid_block t = pg_block p → src t = None) →
  Placed ({[pg_block p]} ∪ D) (λ t, if decide (tid_block t = pg_block p) then snd <$> page_row p (tid_offset t) else src t) n
    (insert_page p r, remaps).
Proof.
  intros [P1 P2 P3 P4 P5 P6 P7 P8] Hp Hnone Hlt Hpend Hsrc. cbn [fst snd] in *.
  destruct (insert_page_spec r p P1 Hp Hnone Hlt Hpend) as (S1 & S2 & S3 & S4). set (r' := insert_page p r) in *. clearbody r'.
  assert (Hold : ∀ t row, rows r t = Some row → tid_block t ≠ pg_block p).
  { intros t row Hrow E. apply rows_block in Hrow as [_ [q Hq]]. rewrite E in Hq. congruence. }
  assert (Hid : ∀ t, tid_block t = pg_block p → remap_tid remaps t = t).
  { intros t Ht. apply remap_other. intros kv Hkv <-. apply P6 in Hkv as [x Hx]. rewrite Hsrc in Hx by done. done. }
  assert (Hfar : ∀ t b, src t = Some b → tid_block (remap_tid remaps t) ≠ pg_block p).
  { intros t b Ht. apply P3 in Ht as [Ht _]. by apply (Hold _ _ Ht). }
  assert (Hpg : ∀ o s b, page_row p o = Some (s, b) → s = LPending).
  { intros o s b Ho. destruct (page_row_some p Hp _ _ _ Ho) as (l & [_ Hl]%page_line_lookup & <- & _).
    by apply (Forall_lookup_1 _ _ _ _ Hpend Hl). }
  split; cbn [fst snd]; try done.
  - intros t row Ht. apply P2 in Ht. rewrite S4, decide_False; [done|]. by eapply Hold.
  - intros t b. case_decide as E.
    + intros Hb. rewrite Hid, S4, decide_True by done. destruct (page_row p (tid_offset t)) as [[s b']|] eqn:Ep; [|done].
      injection Hb as <-. rewrite (Hpg _ _ _ Ep). split; [done|]. destruct (rows r0 t) eqn:E0; [|done]. apply P2 in E0. by apply Hold in E0.
    + intros Hb. rewrite S4, decide_False by (by eapply Hfar). by apply P3.
  - intros t t'. case_decide as E; case_decide as E'.
    + by rewrite !Hid.
    + intros _ [b Hb]. rewrite (Hid t) by done. intros ->. by apply Hfar in Hb.
    + intros [b Hb] _. rewrite (Hid t') by done. intros <-. by apply Hfar in Hb.
    + by apply P4.
  - intros t row. rewrite S4. case_decide as E.
    + intros Hrow. right. exists t. rewrite decide_True, Hid, Hrow by done. done.
    + intros Hrow. destruct (P5 _ _ Hrow) as [?|(t' & Ht' & Et')]; [by left|]. right. exists t'.
      rewrite decide_False; [done|]. intros E'. rewrite Hsrc in Ht'; done.
  - intros kv Hkv. pose proof (P6 _ Hkv) as Hs. case_decide as E; [|done]. destruct Hs as [x Hx]. rewrite Hsrc in Hx; done.
  - by rewrite S2.
  - intros b Hb Hb0 HD. rewrite S3 by lia. apply not_elem_of_union in HD as [HD1 HD2]. rewrite not_elem_of_singleton in HD1.
    rewrite decide_False by done. by apply P8.
Qed.
End placing.

Section pages.
Context (r0 : RelationStorage) (epoch generation : Z).
Abbreviation Placed := (Placed r0).

Lemma placed_ext D src src' n s : (∀ t, src' t = src t) → Placed D src n s → Placed D src' n s.
Proof.
  intros E [P1 P2 P3 P4 P5 P6 P7 P8]. split; try done.
  - intros t b. rewrite E. apply P3.
  - intros t t'. rewrite !E. apply P4.
  - intros t row Hrow. destruct (P5 t row Hrow) as [?|(t' & Ht' & ?)]; [by left|]. right. exists t'. by rewrite E.
  - intros kv. rewrite E. apply P6.
Qed.

Lemma placed_line_mut D src n r remaps t f : keeps_row f → Placed D src n (r, remaps) →
  Placed D src n (snd (line_pointer_mut t f r), remaps).
Proof.
  intros Hf HP. destruct (line_pointer_mut_spec r t f (pl_wf _ _ _ _ _ HP) Hf) as (M1 & M2 & M3). rewrite <- (Z.add_0_r n).
  apply (placed_same _ _ _ _ _ r); try done. unfold line_pointer_mut. destruct (line_pointer r t); cbn; lia.
Qed.

(** One line of a pending page is committed. *)
Lemma commit_line_spec D src n r remaps p offset line : Placed D src n (r, remaps) → page_wf p →
  page_line p offset = Some line → lp_state line = LPending → src (mkTid (pg_block p) offset) = None →
  match commit_line epoch generation p (offset, line) (r, remaps) with
  | (Ok _, s) => Placed D (λ t, if decide (t = mkTid (pg_block p) offset) then snd <$> page_row p offset else src t) (n + 1) s
  | (Error _ _, _) => U32_MAX <= next_block r0 + n
  end.
Proof.
  intros HP Hp Hl Hs Hsrc. unfold commit_line. cbn [fst snd]. rewrite bool_decide_false by (rewrite Hs; done).
  pose proof (page_line_bound _ _ _ Hl) as Ho. pose proof (pwf_count _ Hp) as Hc. unfold MAX_CTID_OFFSET in Hc.
  unfold try_from. rewrite (proj2 (Z.leb_le offset U16_MAX)) by (unfold U16_MAX; lia).
  destruct (page_row_line p Hp _ _ Hl) as (b & Hrow & Hlen). rewrite page_tuple_slice_row, Hrow, Hs. cbn [shown].
  destruct (page_line_wf p Hp _ _ Hl) as (_ & _ & Hb & _).
  set (t0 := mkTid (pg_block p) offset) in *. set (r1 := set_pending_reserved_tids _ r).
  assert (HP1 : Placed D src n (r1, remaps)) by (by apply (placed_core _ _ _ _ r)).
  pose proof (append_target_block_spec r1 (len b) epoch generation (pl_wf _ _ _ _ _ HP1) ltac:(lia)) as Ht.
  destruct (append_target_block (len b) epoch generation r1) as [[blk|] r2].
  - destruct Ht as (T1 & T2 & T3 & T4 & (q & T5 & T6) & T7).
    assert (HP2 : Placed D src (n + 1) (r2, remaps)) by (by apply (placed_same _ _ _ _ _ r1)).
    destruct (placed_append r0 D src (n + 1) r2 remaps t0 b q blk HP2 Hsrc T4 T5 ltac:(lia) T6) as [A1 A2]. rewrite A1.
    set (r3 := note_appended _ _ _ _) in *. clearbody r3.
    match goal with |- Placed _ _ _ (if _ then ?r5 else _, _) => assert (HP5 : Placed D (λ t, if decide (t = t0) then Some b else src t) (n + 1) (r5, remaps ++ [(t0, next_tid q)])) end.
    { by apply placed_line_mut, placed_line_mut. }
    case_bool_decide; [exact HP5|]. by eapply placed_core; [|exact HP5].
  - destruct Ht as [-> Ht]. pose proof (pl_next _ _ _ _ _ HP1) as [_ Hn]. cbn [fst] in Hn. cbn [panic]. lia.
Qed.

(** The rows of the first lines of a page, and others. *)
Definition first_lines (p : Page) (k : nat) (src : Tid → option (list Z)) (t : Tid) : option (list Z) :=
  if decide (tid_block t = pg_block p ∧ tid_offset t <= Z.of_nat k) then snd <$> page_row p (tid_offset t) else src t.

Lemma commit_lines_spec D src p remaps n r : page_wf p → Forall (λ l, lp_state l = LPending) (line_pointers p) →
  (∀ t, tid_block t = pg_block p → src t = None) → Placed D src n (r, remaps) →
  match for_each (page_lines p) (commit_line epoch generation p) (r, remaps) with
  | (Ok _, s) => Placed D (first_lines p (length (line_pointers p)) src) (n + len (line_pointers p)) s
  | (Error _ _, _) => U32_MAX <= next_block r0 + n + len (line_pointers p)
  end.
Proof.
  intros Hp Hpend Hsrc HP.
  assert (Hgen : ∀ ls k s, drop k (page_lines p) = ls → (k <= length (line_pointers p))%nat →
    Placed D (first_lines p k src) (n + Z.of_nat k) s →
    match for_each ls (commit_line epoch generation p) s with
    | (Ok _, s) => Placed D (first_lines p (length (line_pointers p)) src) (n + len (line_pointers p)) s
    | (Error _ _, _) => U32_MAX <= next_block r0 + n + len (line_pointers p)
    end).
  { induction ls as [|[offset line] ls IH]; intros k [r' rm] Ed Hk HPk; cbn [for_each].
    - assert (k = length (line_pointers p)) as ->; [|exact HPk].
      apply (f_equal length) in Ed. rewrite length_drop in Ed. unfold page_lines in Ed. rewrite length_imap in Ed. cbn in Ed. lia.
    - assert (Hlk : page_lines p !! k = Some (offset, line)).
      { rewrite <- (Nat.add_0_r k), <- lookup_drop, Ed. done. }
      unfold page_lines in Hlk. rewrite list_lookup_imap in Hlk. destruct (line_pointers p !! k) as [l|] eqn:El; [|done].
      injection Hlk as <- <-. pose proof (lookup_lt_Some _ _ _ El) as Hkl.
      assert (Hl : page_line p (Z.of_nat k + 1) = Some l).
      { apply page_line_lookup. split; [lia|]. by replace (Z.to_nat (Z.of_nat k + 1 - 1)) with k by lia. }
      pose proof (commit_line_spec D _ _ r' rm p (Z.of_nat k + 1) l HPk Hp Hl) as Hc.
      rewrite (Forall_lookup_1 _ _ _ _ Hpend El) in Hc. specialize (Hc eq_refl).
      unfold first_lines at 1 in Hc. cbn [tid_block tid_offset] in Hc. rewrite decide_False in Hc by lia. specialize (Hc (Hsrc (mkTid (pg_block p) (Z.of_nat k + 1)) eq_refl)).
      unfold mbind, M_bind. destruct (commit_line epoch generation p (Z.of_nat k + 1, l) (r', rm)) as [[[]|c e] s'].
      + apply (IH (S k)); [|lia|].
        * replace (S k) with (k + 1)%nat by lia. rewrite <- drop_drop, Ed. done.
        * replace (n + Z.of_nat (S k)) with (n + Z.of_nat k + 1) by lia. eapply placed_ext; [|exact Hc]. intros [tb to].
          unfold first_lines. cbn [tid_block tid_offset]. destruct (decide (mkTid tb to = _)) as [[= -> ->]|Hne].
          -- rewrite decide_True by lia. done.
          -- destruct (decide (tb = pg_block p)) as [->|]; [|by rewrite !decide_False by tauto].
             assert (to ≠ Z.of_nat k + 1) by congruence. repeat case_decide; try done; lia.
      + unfold len. lia. }
  apply (Hgen (page_lines p) 0%nat); [done|lia|]. rewrite Z.add_0_r. eapply placed_ext; [|exact HP].
  intros t. unfold first_lines. case_decide as E; [|done]. rewrite Hsrc by tauto. unfold page_row, page_line, checked_sub.
  rewrite (proj2 (Z.leb_gt _ _)) by lia. done.
Qed.

(** The rows of pages, and others. *)
Definition page_rows (p : Page) (src : Tid → option (list Z)) (t : Tid) : option (list Z) :=
  if decide (tid_block t = pg_block p) then snd <$> page_row p (tid_offset t) else src t.

Lemma first_lines_all p src t : page_wf p → (∀ t, tid_block t = pg_block p → src t = None) →
  first_lines p (length (line_pointers p)) src t = page_rows p src t.
Proof.
  intros Hp Hsrc. unfold first_lines, page_rows. destruct (decide (tid_block t = pg_block p)) as [E|]; [|by rewrite decide_False by tauto].
  case_decide as E'; [done|]. rewrite Hsrc by done. destruct (page_row p (tid_offset t)) as [[s b]|] eqn:Er; [|done].
  destruct (page_row_some p Hp _ _ _ Er) as (l & Hl & _). apply page_line_bound in Hl. unfold len in Hl. tauto.
Qed.

Lemma commit_page_spec D src stable p remaps n r : page_wf p → Forall (λ l, lp_state l = LPending) (line_pointers p) →
  (∀ t, tid_block t = pg_block p → src t = None) → page r (pg_block p) = None → pg_block p < next_block r →
  Placed D src n (r, remaps) →
  match commit_page epoch generation stable p (r, remaps) with
  | (Ok _, s) => ∃ D', D' ⊆ {[pg_block p]} ∪ D ∧ Placed D' (page_rows p src) (n + len (line_pointers p)) s
  | (Error _ _, _) => U32_MAX <= next_block r0 + n + len (line_pointers p)
  end.
Proof.
  intros Hp Hpend Hsrc Hnone Hlt HP. unfold commit_page. set (r1 := set_pending_reserved_blocks _ r).
  assert (HP1 : Placed D src n (r1, remaps)) by (by apply (placed_core _ _ _ _ r)).
  destruct (stable (pg_block p) || relation_is_fresh r1).
  - exists ({[pg_block p]} ∪ D). split; [done|]. set (r2 := set_pending_reserved_tids _ r1).
    assert (HP2 : Placed D src n (r2, remaps)) by (by apply (placed_core _ _ _ _ r1)).
    pose proof (placed_page r0 D src n r2 remaps p HP2 Hp Hnone Hlt Hpend Hsrc) as HP3.
    pose proof (len_nonneg (line_pointers p)). destruct HP3 as [P1 P2 P3 P4 P5 P6 P7 P8]. split; try done. lia.
  - pose proof (commit_lines_spec D src p remaps n r1 Hp Hpend Hsrc HP1) as Hc.
    destruct (for_each _ _ _) as [[u|c e] s]; [|done]. exists D. split; [clear; set_solver|].
    eapply placed_ext; [|exact Hc]. intros t. symmetry. by apply first_lines_all.
Qed.
End pages.

(** The rows of pending pages. *)
Definition src_of (ps : list Page) (t : Tid) : option (list Z) :=
  snd <$> (p ← ppage ps (tid_block t); page_row p (tid_offset t)).
Definition lines_of (ps : list Page) : Z := sum_of (λ p, len (line_pointers p)) ps.

Lemma src_of_app ps p t : src_of (ps ++ [p]) t = page_rows p (src_of ps) t.
Proof. unfold src_of, page_rows. rewrite ppage_app. by case_decide. Qed.

Lemma src_of_block ps t : tid_block t ∉ pg_block <$> ps → src_of ps t = None.
Proof. intros Hb%ppage_none. unfold src_of. by rewrite Hb. Qed.

Lemma lines_of_nonneg ps : 0 <= lines_of ps.
Proof. unfold lines_of. induction ps; simpl; [lia|]. pose proof (len_nonneg (line_pointers a)). lia. Qed.

Section rel_pages.
Context (r0 : RelationStorage) (epoch generation : Z) (stable : Z → bool).

Definition page_ready (p : Page) : Prop :=
  page_wf p ∧ Forall (λ l, lp_state l = LPending) (line_pointers p) ∧ pg_block p < next_block r0 ∧ page r0 (pg_block p) = None.

Lemma commit_pages_spec ps : rel_wf r0 → Forall page_ready ps → NoDup (pg_block <$> ps) →
  match for_each ps (commit_page epoch generation stable) (r0, []) with
  | (Ok _, s) => ∃ D, D ⊆ list_to_set (pg_block <$> ps) ∧ Placed r0 D (src_of ps) (lines_of ps) s
  | (Error _ _, _) => U32_MAX <= next_block r0 + lines_of ps
  end.
Proof.
  intros Hr Hps Hn.
  assert (Hgen : ∀ ps2 ps1 s, ps = ps1 ++ ps2 →
    (∃ D : gset Z, D ⊆ list_to_set (pg_block <$> ps1) ∧ Placed r0 D (src_of ps1) (lines_of ps1) s) →
    match for_each ps2 (commit_page epoch generation stable) s with
    | (Ok _, s) => ∃ D : gset Z, D ⊆ list_to_set (pg_block <$> ps) ∧ Placed r0 D (src_of ps) (lines_of ps) s
    | (Error _ _, _) => U32_MAX <= next_block r0 + lines_of ps
    end).
  { induction ps2 as [|p ps2 IH]; intros ps1 [r remaps] E (D & HD & HP); cbn [for_each].
    { rewrite app_nil_r in E. subst ps1. by exists D. }
    assert (Hp : page_ready p) by (eapply Forall_forall; [exact Hps|]; rewrite E; apply elem_of_app; right; by left).
    destruct Hp as (Hp & Hpend & Hlt & Hnone).
    assert (Hnew : pg_block p ∉ pg_block <$> ps1).
    { rewrite E, fmap_app in Hn. apply NoDup_app in Hn as (_ & Hn & _). intros Hb. apply (Hn _ Hb). by left. }
    assert (Hle : lines_of ps = lines_of ps1 + len (line_pointers p) + lines_of ps2).
    { rewrite E. unfold lines_of. rewrite sum_of_app. simpl. lia. }
    pose proof (lines_of_nonneg ps2). destruct (pwf_block _ Hp) as [Hb0 _].
    pose proof (commit_page_spec r0 epoch generation D (src_of ps1) stable p remaps (lines_of ps1) r Hp Hpend) as Hc.
    unfold mbind, M_bind. destruct (commit_page epoch generation stable p (r, remaps)) as [[[]|c e] s'].
    - destruct Hc as (D' & HD' & HP'); [..|done|].
      + intros t Ht. apply src_of_block. by rewrite Ht.
      + apply (pl_pages _ _ _ _ _ HP); [lia|done|]. intros Hd. apply HD in Hd. by rewrite elem_of_list_to_set in Hd.
      + pose proof (pl_next _ _ _ _ _ HP) as [Hx _]. cbn in Hx. lia.
      + apply (IH (ps1 ++ [p])); [by rewrite <- app_assoc|]. exists D'. split.
        * rewrite fmap_app, list_to_set_app. cbn. clear -HD HD'. set_solver.
        * replace (lines_of (ps1 ++ [p])) with (lines_of ps1 + len (line_pointers p)) by (unfold lines_of; rewrite sum_of_app; simpl; lia).
          eapply placed_ext; [|exact HP']. intros t. apply src_of_app.
    - assert (U32_MAX <= next_block r0 + lines_of ps1 + len (line_pointers p)); [|lia]. apply Hc; [..|done].
      + intros t Ht. apply src_of_block. by rewrite Ht.
      + apply (pl_pages _ _ _ _ _ HP); [lia|done|]. intros Hd. apply HD in Hd. by rewrite elem_of_list_to_set in Hd.
      + pose proof (pl_next _ _ _ _ _ HP) as [Hx _]. cbn in Hx. lia. }
  apply (Hgen ps []); [done|]. exists ∅. split; [done|]. by apply placed_start.
Qed.
End rel_pages.

Lemma remap_nil t : remap_tid [] t = t.
Proof. done. Qed.

Lemma tids_of_mut relid (f : Tid → Tid) (m : RelidMap (list Tid)) relid' :
  tids_of relid' (relid_get_mut relid (fmap f) m) = if decide (relid' = relid) then f <$> tids_of relid m else tids_of relid' m.
Proof.
  unfold tids_of. rewrite relid_get_get_mut. case_decide; [|done]. by destruct (relid_get relid m).
Qed.

(** The identifiers of an overlay are replaced. *)
Record remapped (rm : Z → list (Tid * Tid)) (o o' : TransactionOverlay) : Prop := {
  rm_inserted : ∀ relid, tids_of relid (inserted_tids o') = remap_tid (rm relid) <$> tids_of relid (inserted_tids o);
  rm_invalidated : ∀ relid, tids_of relid (invalidated_tids o') = remap_tid (rm relid) <$> tids_of relid (invalidated_tids o);
  rm_keys : (inserted_tids o').*1 = (inserted_tids o).*1 ∧ (invalidated_tids o').*1 = (invalidated_tids o).*1;
  rm_clear : cleared_relations o' = cleared_relations o;
}.

Lemma remap_id (l : list Tid) : remap_tid [] <$> l = l.
Proof. induction l; simpl; [done|]. by f_equal. Qed.

Lemma remap_tids_spec relid remaps o :
  remapped (λ relid', if decide (relid' = relid) then remaps else []) o (remap_tids relid remaps o).
Proof.
  assert (Hnil : ∀ o, remapped (λ _, []) o o) by (split; intros; by rewrite ?remap_id).
  destruct remaps as [|kv remaps].
  { cbn [remap_tids]. destruct (Hnil o) as [H1 H2 H3 H4]. split; try done; intros relid'; case_decide; [apply H1|apply H1|apply H2|apply H2]. }
  set (f := remap_tid (kv :: remaps)).
  assert (E1 : inserted_tids (remap_tids relid (kv :: remaps) o) = relid_get_mut relid (fmap f) (inserted_tids o)) by reflexivity.
  assert (E2 : invalidated_tids (remap_tids relid (kv :: remaps) o) = relid_get_mut relid (fmap f) (invalidated_tids o)) by reflexivity.
  assert (E3 : cleared_relations (remap_tids relid (kv :: remaps) o) = cleared_relations o) by reflexivity.
  split; [intros relid'|intros relid'| |done]; rewrite ?E1, ?E2.
  - rewrite tids_of_mut. case_decide; [by subst|by rewrite remap_id].
  - rewrite tids_of_mut. case_decide; [by subst|by rewrite remap_id].
  - unfold relid_get_mut. by rewrite !assoc_alter_keys.
Qed.

(** ** All pending pages of an overlay *)

Definition pages_at (pending : list (Z * list Page)) (relid : Z) : list Page := default [] (relid_get relid pending).

Lemma commit_all_pages_spec pending o st : NoDup pending.*1 → (∀ relid, rel_wf (relation_of st relid)) →
  (∀ relid, Forall (page_ready (relation_of st relid)) (pages_at pending relid) ∧ NoDup (pg_block <$> pages_at pending relid)) →
  match commit_all_pages o pending st with
  | (Ok o', st') => ∃ rm, remapped rm o o' ∧ ∀ relid,
      (∃ D, D ⊆ list_to_set (pg_block <$> pages_at pending relid) ∧
        Placed (relation_of st relid) D (src_of (pages_at pending relid)) (lines_of (pages_at pending relid)) (relation_of st' relid, rm relid)) ∧
      (relid_get relid pending = None → rm relid = [] ∧ relation_of st' relid = relation_of st relid)
  | (Error _ _, _) => ∃ relid, U32_MAX <= next_block (relation_of st relid) + lines_of (pages_at pending relid)
  end.
Proof.
  revert o st. induction pending as [|[k ps] pending IH]; intros o st Hn Hwf Hready.
  { cbn [commit_all_pages]. exists (λ _, []). split; [split; intros; by rewrite ?remap_id|]. intros relid. split; [|done].
    exists ∅. split; [done|]. by apply placed_start. }
  cbn [fmap list_fmap] in Hn. apply NoDup_cons in Hn as [Hk Hn]. cbn [fst] in Hk.
  assert (Hat : ∀ relid, pages_at ((k, ps) :: pending) relid = if decide (relid = k) then ps else pages_at pending relid).
  { intros relid. unfold pages_at, relid_get. cbn [assoc_get]. destruct (decide (k = relid)); [subst; by rewrite decide_True|].
    by rewrite decide_False. }
  assert (Hkn : relid_get k pending = None) by (by apply assoc_get_none).
  cbn [commit_all_pages]. unfold mbind, M_bind, commit_pages at 1.
  destruct (Hready k) as [Hrk Hnk]. rewrite Hat, decide_True in Hrk, Hnk by done.
  pose proof (commit_pages_spec (relation_of st k) (st_epoch st) (st_generation st)
    (λ block, pending_page_needs_stable_tid k block o) ps (Hwf k) Hrk Hnk) as Hc.
  destruct (for_each ps _ _) as [[u|c e] [r remaps]]; cycle 1.
  { exists k. by rewrite Hat, decide_True. }
  destruct Hc as (D & HD & HP). set (st1 := set_relations _ st).
  assert (Er : ∀ relid, relation_of st1 relid = if decide (relid = k) then r else relation_of st relid) by (intros; apply relation_of_insert).
  specialize (IH (remap_tids k remaps o) st1 Hn).
  assert (Hwf1 : ∀ relid, rel_wf (relation_of st1 relid)).
  { intros relid. rewrite Er. case_decide; [apply (pl_wf _ _ _ _ _ HP)|done]. }
  specialize (IH Hwf1).
  assert (Hready1 : ∀ relid, Forall (page_ready (relation_of st1 relid)) (pages_at pending relid) ∧ NoDup (pg_block <$> pages_at pending relid)).
  { intros relid. rewrite Er. case_decide as E.
    - subst relid. unfold pages_at. rewrite Hkn. split; constructor.
    - specialize (Hready relid). by rewrite Hat, decide_False in Hready by done. }
  specialize (IH Hready1). destruct (commit_all_pages (remap_tids k remaps o) pending st1) as [[o'|c e] st']; cycle 1.
  { destruct IH as [relid Hx]. rewrite Er in Hx. exists relid. rewrite Hat. case_decide as E; [|done]. subst relid.
    unfold pages_at in Hx. rewrite Hkn in Hx. cbn in Hx. pose proof (pl_next _ _ _ _ _ HP) as [_ Hy]. cbn in Hy. lia. }
  destruct IH as (rm & [R1 R2 R3 R4] & Hrm). destruct (remap_tids_spec k remaps o) as [S1 S2 S3 S4].
  exists (λ relid, if decide (relid = k) then remaps else rm relid). split.
  - destruct (Hrm k) as [_ Hrk0]. destruct (Hrk0 Hkn) as [Hrk1 _]. split; [..|congruence].
    + intros relid. rewrite R1, S1. case_decide; [subst relid; by rewrite Hrk1, remap_id|by rewrite remap_id].
    + intros relid. rewrite R2, S2. case_decide; [subst relid; by rewrite Hrk1, remap_id|by rewrite remap_id].
    + destruct R3, S3. split; congruence.
  - intros relid. destruct (Hrm relid) as [(D' & HD' & HP') Hno]. rewrite Hat. split.
    + destruct (decide (relid = k)) as [->|Hne].
      * destruct (Hno Hkn) as [_ E']. rewrite Er, decide_True in E' by done. exists D. by rewrite E'.
      * exists D'. split; [done|]. by rewrite Er, decide_False in HP' by done.
    + unfold relid_get. cbn [assoc_get]. destruct (decide (k = relid)) as [->|]; [done|]. rewrite decide_False by done. intros Hx.
      destruct (Hno Hx) as [H1 H2]. split; [done|]. by rewrite H2, Er, decide_False.
Qed.

(** * Committing an overlay *)

(** ** Marking rows, and counting *)

Definition delta_of (deltas : list (Z * Z)) (relid : Z) : Z := default 0 (assoc_get relid deltas).

Lemma delta_of_add relid d deltas relid' :
  delta_of (add_row_count_delta relid d deltas) relid' = delta_of deltas relid' + if decide (relid' = relid) then d else 0.
Proof.
  unfold delta_of, add_row_count_delta. rewrite assoc_get_upsert. case_decide; [subst; simpl; lia|lia].
Qed.

Definition row_t : Type := option (LinePointerState * list Z).

Section marking.
Context (g : Z → Tid → RelationStorage → bool * RelationStorage) (eff : row_t → row_t) (d : Z) (ok : row_t → Prop).
Context (Hidem : ∀ row, eff (eff row) = eff row) (Hok : ∀ row, ok row → ok (eff row)).
Context (Heff : eff None = None).
Context (Hg : ∀ relid r t, rel_wf r → ok (rows r t) →
  let '(b, r') := g relid t r in
  rel_wf r' ∧ extends r r' ∧ (∀ t', rows r' t' = if decide (t' = t) then eff (rows r t) else rows r t') ∧
  live_tuple_count r' = live_tuple_count r + if b then d else 0).

Definition mark_step (relid : Z) (acc : StorageState * list (Z * Z)) (t : Tid) : StorageState * list (Z * Z) :=
  let '(st, deltas) := acc in
  match relations st !! relid with
  | None => acc
  | Some r => let '(b, r) := g relid t r in
              (set_relations (<[relid := r]> (relations st)) st,
               if b then add_row_count_delta relid d deltas else deltas)
  end.

(** What the marks made of the relations. *)
Record Marked (tids : Z → list Tid) (s s' : StorageState * list (Z * Z)) : Prop := {
  mk_wf : ∀ relid, rel_wf (relation_of s'.1 relid);
  mk_extends : ∀ relid, extends (relation_of s.1 relid) (relation_of s'.1 relid);
  mk_rows : ∀ relid t, rows (relation_of s'.1 relid) t =
    if decide (t ∈ tids relid) then eff (rows (relation_of s.1 relid) t) else rows (relation_of s.1 relid) t;
  mk_delta : ∀ relid, delta_of s'.2 relid - delta_of s.2 relid =
    live_tuple_count (relation_of s'.1 relid) - live_tuple_count (relation_of s.1 relid);
}.

Lemma marked_nil tids s : (∀ relid, rel_wf (relation_of s.1 relid)) → (∀ relid, tids relid = []) → Marked tids s s.
Proof.
  intros Hwf Ht. split; try done; [|intros; lia]. intros relid t. rewrite decide_False; [done|]. rewrite Ht. apply not_elem_of_nil.
Qed.

Lemma marked_trans tids tids' tids'' s1 s2 s3 : Marked tids s1 s2 → Marked tids' s2 s3 →
  (∀ relid t, t ∈ tids'' relid ↔ t ∈ tids relid ∨ t ∈ tids' relid) → Marked tids'' s1 s3.
Proof.
  intros [A1 A2 A3 A4] [B1 B2 B3 B4] Ht. split; [done|..].
  - intros relid. etrans; [apply A2|apply B2].
  - intros relid t. rewrite B3, A3, (decide_ext _ _ _ _ (Ht relid t)).
    destruct (decide (t ∈ tids relid)), (decide (t ∈ tids' relid)).
    + by rewrite decide_True, Hidem by tauto.
    + by rewrite decide_True by tauto.
    + by rewrite decide_True by tauto.
    + by rewrite decide_False by tauto.
  - intros relid. specialize (A4 relid). specialize (B4 relid). lia.
Qed.

Definition at_relid (relid : Z) (tids : list Tid) (relid' : Z) : list Tid := if decide (relid' = relid) then tids else [].

Lemma at_relid_same relid tids : at_relid relid tids relid = tids.
Proof. unfold at_relid. by rewrite decide_True. Qed.
Lemma at_relid_other relid tids relid' : relid' ≠ relid → at_relid relid tids relid' = [].
Proof. intros. unfold at_relid. by rewrite decide_False. Qed.

Lemma mark_step_spec relid s t : (∀ relid, rel_wf (relation_of s.1 relid)) → ok (rows (relation_of s.1 relid) t) →
  Marked (at_relid relid [t]) s (mark_step relid s t).
Proof.
  destruct s as [st deltas]. cbn [fst]. intros Hwf Hrow. unfold mark_step.
  destruct (relations st !! relid) as [r|] eqn:Er; cycle 1.
  { split; try done; [|intros; lia]. intros relid' t'. unfold at_relid. cbn [fst].
    destruct (decide (relid' = relid)) as [->|]; [|by rewrite decide_False by apply not_elem_of_nil].
    rewrite no_relation_rows by done. by case_decide. }
  assert (Ek : relation_of st relid = r) by (unfold relation_of; by rewrite Er).
  pose proof (Hg relid r t) as Hs. rewrite <- Ek in Hs. specialize (Hs (Hwf relid) Hrow). rewrite Ek in Hs.
  destruct (g relid t r) as [b r']. destruct Hs as (S1 & S2 & S3 & S4).
  assert (Er' : ∀ relid', relation_of (set_relations (<[relid := r']> (relations st)) st) relid' =
    if decide (relid' = relid) then r' else relation_of st relid') by (intros; apply relation_of_insert).
  split; cbn [fst snd]; intros relid'; rewrite ?Er'.
  - case_decide; [done|apply Hwf].
  - case_decide; [subst relid'; by rewrite Ek|done].
  - intros t'. unfold at_relid. case_decide as E.
    + subst relid'. rewrite Ek, S3. rewrite (decide_ext (t' ∈ [t]) (t' = t)) by apply list_elem_of_singleton.
      case_decide; [by subst t'|done].
    + by rewrite decide_False by apply not_elem_of_nil.
  - destruct b; rewrite ?delta_of_add; case_decide; try subst relid'; rewrite ?Ek; lia.
Qed.

Lemma mark_fold relid tids s : (∀ relid, rel_wf (relation_of s.1 relid)) → (∀ t, t ∈ tids → ok (rows (relation_of s.1 relid) t)) →
  Marked (at_relid relid tids) s (foldl (mark_step relid) s tids).
Proof.
  revert s. induction tids as [|t tids IH]; intros s Hwf Hr; cbn [foldl].
  { apply marked_nil; [done|]. intros relid'. unfold at_relid. by case_decide. }
  pose proof (mark_step_spec relid s t Hwf (Hr t ltac:(by left))) as Hm.
  eapply marked_trans; [exact Hm|apply IH|].
  - apply (mk_wf _ _ _ Hm).
  - intros t' Ht'. rewrite (mk_rows _ _ _ Hm), at_relid_same.
    case_decide; [apply Hok|]; apply Hr; by right.
  - intros relid' t'. unfold at_relid. case_decide; [rewrite elem_of_cons, list_elem_of_singleton; tauto|]. tauto.
Qed.

Lemma mark_all (m : RelidMap (list Tid)) s : NoDup m.*1 → (∀ relid, rel_wf (relation_of s.1 relid)) →
  (∀ relid t, t ∈ tids_of relid m → ok (rows (relation_of s.1 relid) t)) →
  Marked (λ relid, tids_of relid m) s (foldl (λ acc kv, foldl (mark_step kv.1) acc kv.2) s m).
Proof.
  revert s. induction m as [|[k tids] m IH]; intros s Hn Hwf Hr; cbn [foldl fst snd].
  { by apply marked_nil. }
  cbn [fmap list_fmap] in Hn. apply NoDup_cons in Hn as [Hk Hn]. cbn [fst] in Hk.
  assert (Ht : ∀ relid, tids_of relid ((k, tids) :: m) = if decide (relid = k) then tids else tids_of relid m).
  { intros relid. unfold tids_of, relid_get. cbn [assoc_get]. destruct (decide (k = relid)); [subst; by rewrite decide_True|].
    by rewrite decide_False. }
  assert (Hkn : tids_of k m = []) by (unfold tids_of, relid_get; by rewrite (proj2 (assoc_get_none k m))).
  assert (Hm : Marked (at_relid k tids) s (foldl (mark_step k) s tids)).
  { apply mark_fold; [done|]. intros t Htt. apply Hr. by rewrite Ht, decide_True. }
  eapply marked_trans; [exact Hm|apply IH|].
  - done.
  - apply (mk_wf _ _ _ Hm).
  - intros relid t Htt. rewrite (mk_rows _ _ _ Hm). destruct (decide (relid = k)) as [->|].
    + rewrite Hkn in Htt. by apply not_elem_of_nil in Htt.
    + rewrite at_relid_other by done. rewrite decide_False by apply not_elem_of_nil. apply Hr. by rewrite Ht, decide_False.
  - intros relid t. rewrite Ht. unfold at_relid. case_decide.
    + subst. rewrite Hkn, elem_of_nil. tauto.
    + rewrite elem_of_nil. tauto.
Qed.
End marking.

(** ** The two marks *)

Definition raised (row : row_t) : row_t := if awaited row then (λ row, (LLive, row.2)) <$> row else row.

Lemma live_tids_size r r' (d : Z) : rel_wf r → rel_wf r' → Z.of_nat (size (live_tids r')) = Z.of_nat (size (live_tids r)) + d →
  live_tuple_count r' = live_tuple_count r + d.
Proof. intros Hr Hr' E. rewrite !live_count_size by done. lia. Qed.

Lemma mark_live_marks r t : rel_wf r → True →
  let '(b, r') := rel_mark_live t r in
  rel_wf r' ∧ extends r r' ∧ (∀ t', rows r' t' = if decide (t' = t) then raised (rows r t) else rows r t') ∧
  live_tuple_count r' = live_tuple_count r + if b then 1 else 0.
Proof.
  intros Hr _. pose proof (rel_mark_live_spec r t Hr) as Hs. destruct (rel_mark_live t r) as [b r'].
  destruct Hs as (S1 & S2 & -> & S3). split; [done|]. split; [done|].
  assert (Hrows : ∀ t', rows r' t' = if decide (t' = t) then raised (rows r t) else rows r t').
  { intros t'. rewrite S3. unfold raised. destruct (decide (t' = t)) as [->|].
    - destruct (awaited (rows r t)) eqn:E; [by rewrite decide_True|]. rewrite decide_False by naive_solver. done.
    - by rewrite decide_False by tauto. }
  split; [done|]. apply live_tids_size; [done..|].
  destruct (awaited (rows r t)) eqn:E.
  - assert (Hl : live_tids r' = {[t]} ∪ live_tids r).
    { apply set_eq. intros t'. rewrite elem_of_union, elem_of_singleton, (rwf_live _ S1), (rwf_live _ Hr).
      setoid_rewrite Hrows. destruct (decide (t' = t)) as [->|]; [|naive_solver].
      unfold raised. rewrite E. destruct (rows r t) as [[[] b]|]; try done. simpl. naive_solver. }
    rewrite Hl, size_union, size_singleton; [lia|]. apply disjoint_singleton_l. rewrite (rwf_live _ Hr). intros [b Hb].
    by rewrite Hb in E.
  - rewrite Z.add_0_r. do 2 f_equal. apply set_eq. intros t'. rewrite (rwf_live _ S1), (rwf_live _ Hr).
    setoid_rewrite Hrows. destruct (decide (t' = t)) as [->|]; [|done]. unfold raised. by rewrite E.
Qed.

Lemma mark_dead_marks r t : rel_wf r → awaited (rows r t) = false →
  let '(b, r') := rel_mark_dead t r in
  rel_wf r' ∧ extends r r' ∧ (∀ t', rows r' t' = if decide (t' = t) then gone (rows r t) else rows r t') ∧
  live_tuple_count r' = live_tuple_count r + if b then -1 else 0.
Proof.
  intros Hr Ha. pose proof (rel_mark_dead_spec r t Hr) as Hs. destruct (rel_mark_dead t r) as [b r'].
  destruct Hs as (S1 & S2 & -> & S3). split; [done|]. split; [done|]. split; [done|]. apply live_tids_size; [done..|].
  destruct (undead (rows r t)) eqn:E.
  - assert (Hl : live_tids r = {[t]} ∪ live_tids r').
    { apply set_eq. intros t'. rewrite elem_of_union, elem_of_singleton, (rwf_live _ S1), (rwf_live _ Hr).
      setoid_rewrite S3. destruct (decide (t' = t)) as [->|]; [|naive_solver].
      destruct (rows r t) as [[[] b]|]; try done. naive_solver. }
    rewrite Hl, size_union, size_singleton; [lia|]. apply disjoint_singleton_l. rewrite (rwf_live _ S1). intros [b Hb].
    rewrite S3, decide_True in Hb by done. by destruct (rows r t).
  - rewrite Z.add_0_r. do 2 f_equal. apply set_eq. intros t'. rewrite (rwf_live _ S1), (rwf_live _ Hr).
    setoid_rewrite S3. destruct (decide (t' = t)) as [->|]; [|done]. destruct (rows r t) as [[[] b]|]; try done; split; intros [? [=]].
Qed.

(** ** Steps that change no row *)

Lemma refresh_all deltas w relid : default 0 (w_row_counts (foldl (λ w rd, if rd.2 =? 0 then w else refresh_cached_row_count rd.1 w) w deltas) !! relid) =
  if decide (Exists (λ rd : Z * Z, rd.1 = relid ∧ rd.2 ≠ 0) deltas) then live_tuple_count (rel w relid) else default 0 (w_row_counts w !! relid).
Proof.
  revert w. induction deltas as [|[k d] deltas IH]; intros w; cbn [foldl fst snd].
  { rewrite decide_False; [done|]. by intros ?%Exists_nil. }
  rewrite IH. destruct (Z.eqb_spec d 0) as [->|Hd].
  - rewrite (decide_ext _ (Exists (λ rd : Z * Z, rd.1 = relid ∧ rd.2 ≠ 0) ((k, 0) :: deltas))); [done|].
    rewrite Exists_cons. cbn. naive_solver.
  - change (rel (refresh_cached_row_count k w) relid) with (rel w relid). rewrite refresh_count.
    destruct (decide (Exists _ deltas)) as [E|E].
    + rewrite decide_True; [done|]. by right.
    + destruct (decide (relid = k)) as [->|].
      * rewrite decide_True; [done|]. by left.
      * rewrite decide_False; [done|]. rewrite Exists_cons. cbn. naive_solver.
Qed.

Lemma refresh_session deltas w : w_session (foldl (λ w rd, if rd.2 =? 0 then w else refresh_cached_row_count rd.1 w) w deltas) = w_session w ∧
  w_storage (foldl (λ w rd, if rd.2 =? 0 then w else refresh_cached_row_count rd.1 w) w deltas) = w_storage w.
Proof.
  revert w. induction deltas as [|[k d] deltas IH]; intros w; cbn [foldl fst snd]; [done|].
  destruct (d =? 0); [apply IH|]. destruct (IH (refresh_cached_row_count k w)). done.
Qed.

Lemma commit_primary_key_core r kt : core (commit_primary_key r kt) = core r.
Proof. unfold commit_primary_key. by destruct (rel_tuple_slice r kt.2 false). Qed.

Lemma commit_index_map_core entries r : core (commit_index_map entries r) = core r.
Proof.
  unfold commit_index_map. apply foldl_core. intros r1 ie. apply foldl_core. intros r2 kt. apply foldl_core. intros r3 t.
  destruct (rel_tuple_slice r3 t false); [|done]. unfold rel_insert_index_entry. by repeat case_match.
Qed.

(** The redirects and index entries of an overlay. *)
Definition commit_entries (o : TransactionOverlay) (st : StorageState) : StorageState :=
  let st := for_relations (λ rs r, foldl (λ r tt, rel_insert_hot_redirect tt.1 tt.2 r) r rs) (hot_redirect_inserts o) st in
  let st := for_relations
              (λ rs r, set_update_redirects (foldl (λ m tt, <[tt.1 := tt.2]> m) (update_redirects r) rs) r)
              (update_redirect_inserts o) st in
  let st := for_relations
              (λ ks r, set_primary_key_index (filter (λ kv, kv.1 ∉ ks) (primary_key_index r)) r)
              (primary_key_deletes o) st in
  let st := for_relations (λ es r, foldl commit_primary_key r (map_to_list es)) (primary_key_inserts o) st in
  for_relations commit_index_map (index_inserts o) st.

Lemma commit_entries_core o st relid : core (relation_of (commit_entries o st) relid) = core (relation_of st relid).
Proof.
  unfold commit_entries. rewrite !for_relations_core; [done|..].
  - intros rs r. apply foldl_core. intros. apply insert_hot_redirect_core.
  - done.
  - done.
  - intros es r. apply foldl_core. intros. apply commit_primary_key_core.
  - intros. apply commit_index_map_core.
Qed.

(** ** What a commit does *)

Definition invalidate_mark (o : TransactionOverlay) (relid : Z) (t : Tid) (r : RelationStorage) : bool * RelationStorage :=
  let '(dead, r) := rel_mark_dead t r in
  (dead, match (es ← relid_get relid (invalidated_metadata o); assoc_get t es) with
         | Some m => set_row_delete_cids (<[t := dm_cid m]> (row_delete_cids r))
                       (set_row_delete_xids (<[t := dm_xid m]> (row_delete_xids r)) r)
         | None => r
         end).

Lemma commit_invalidated_step o relid acc t : cleared_relations o = [] →
  commit_invalidated o relid acc t = mark_step (invalidate_mark o) (-1) relid acc t.
Proof.
  intros Ho. unfold commit_invalidated, invalidate_mark, mark_step. rewrite Ho. cbn [relid_is_empty negb andb]. destruct acc as [st deltas].
  destruct (relations st !! relid); [|done]. by destruct (rel_mark_dead t r).
Qed.

Lemma invalidate_mark_marks o relid r t : rel_wf r → awaited (rows r t) = false →
  let '(b, r') := invalidate_mark o relid t r in
  rel_wf r' ∧ extends r r' ∧ (∀ t', rows r' t' = if decide (t' = t) then gone (rows r t) else rows r t') ∧
  live_tuple_count r' = live_tuple_count r + if b then -1 else 0.
Proof.
  intros Hr Ha. unfold invalidate_mark. pose proof (mark_dead_marks r t Hr Ha) as Hs.
  destruct (rel_mark_dead t r) as [b r']. destruct Hs as (S1 & [X1 X2] & S3 & S4).
  destruct (es ← _; _) as [m|]; [|done]. set (r'' := set_row_delete_cids _ _).
  split; [by apply (core_wf r')|]. split; [by split|]. done.
Qed.

Lemma foldl_ext2 {A B} (f g : A → B → A) (l : list B) s : (∀ s x, f s x = g s x) → foldl f s l = foldl g s l.
Proof. intros E. revert s. induction l as [|x l IH]; intros s; cbn [foldl]; [done|]. by rewrite E, IH. Qed.

Lemma commit_marks o st : cleared_relations o = [] → NoDup (inserted_tids o).*1 → NoDup (invalidated_tids o).*1 →
  (∀ relid, rel_wf (relation_of st relid)) →
  (∀ relid t, hides o relid t → claims_tid o relid t ∨ awaited (rows (relation_of st relid) t) = false) →
  let s := foldl (λ acc kv, foldl (commit_inserted kv.1) acc kv.2) (st, []) (inserted_tids o) in
  let s' := foldl (λ acc kv, foldl (commit_invalidated o kv.1) acc kv.2) s (invalidated_tids o) in
  (∀ relid, rel_wf (relation_of s'.1 relid) ∧ extends (relation_of st relid) (relation_of s'.1 relid) ∧
    delta_of s'.2 relid = live_tuple_count (relation_of s'.1 relid) - live_tuple_count (relation_of st relid)) ∧
  ∀ relid t, rows (relation_of s'.1 relid) t =
    (if decide (hides o relid t) then gone else id) ((if decide (claims_tid o relid t) then raised else id) (rows (relation_of st relid) t)).
Proof.
  intros Ho K1 K2 Hwf Hh. cbv zeta.
  assert (Hr : ∀ row, raised (raised row) = raised row) by (by intros [[[] b]|]).
  assert (Hg : ∀ row, gone (gone row) = gone row) by (by intros [[[] b]|]).
  assert (M1 : Marked raised (λ relid, tids_of relid (inserted_tids o)) (st, [])
    (foldl (λ acc kv, foldl (commit_inserted kv.1) acc kv.2) (st, []) (inserted_tids o))).
  { apply (mark_all (λ _ t r, rel_mark_live t r) raised 1 (λ _, True)); try done. intros relid r t Hrr _. by apply mark_live_marks. }
  set (s := foldl _ (st, []) _) in *. clearbody s.
  assert (M2 : Marked gone (λ relid, tids_of relid (invalidated_tids o)) s
    (foldl (λ acc kv, foldl (commit_invalidated o kv.1) acc kv.2) s (invalidated_tids o))).
  { rewrite (foldl_ext2 _ (λ acc kv, foldl (mark_step (invalidate_mark o) (-1) kv.1) acc kv.2)).
    2: { intros acc [k l]. apply foldl_ext2. intros. by apply commit_invalidated_step. }
    apply (mark_all (invalidate_mark o) gone (-1) (λ row, awaited row = false)); try done.
    - by intros [[[] b]|].
    - intros relid r t Hrr Hx. by apply invalidate_mark_marks.
    - apply (mk_wf _ _ _ _ M1).
    - intros relid t Ht. rewrite (mk_rows _ _ _ _ M1). cbn [fst]. fold (claims_tid o relid t). destruct (Hh relid t Ht) as [Hc|Hc].
      + rewrite decide_True by done. by destruct (rows (relation_of st relid) t) as [[[] b]|].
      + case_decide; [|done]. by destruct (rows (relation_of st relid) t) as [[[] b]|]. }
  set (s' := foldl _ s _) in *. clearbody s'. split.
  - intros relid. split; [apply (mk_wf _ _ _ _ M2)|]. split.
    + etrans; [apply (mk_extends _ _ _ _ M1)|apply (mk_extends _ _ _ _ M2)].
    + pose proof (mk_delta _ _ _ _ M1 relid) as D1. pose proof (mk_delta _ _ _ _ M2 relid) as D2. cbn [fst snd] in D1.
      change (delta_of [] relid) with 0 in D1. lia.
  - intros relid t. rewrite (mk_rows _ _ _ _ M2), (mk_rows _ _ _ _ M1). cbn [fst].
    fold (claims_tid o relid t) (hides o relid t). by repeat case_decide.
Qed.

(** ** A relation after the commit of an overlay *)

Section publish.
Context (st : StorageState) (o : TransactionOverlay) (relid : Z).
Context (Hok : ov_ok st o).
Context (Hh : ∀ t, hides o relid t → claims_tid o relid t ∨ ∃ s b, rows (relation_of st relid) t = Some (s, b) ∧ s ≠ LPending).
Abbreviation r0 := (relation_of st relid).
Abbreviation src := (src_of (ppages relid o)).

Lemma src_prow t : src t = snd <$> prow o relid t.
Proof. done. Qed.

Lemma src_rows t : is_Some (src t) → rows r0 t = None.
Proof.
  rewrite src_prow. intros [b Hb]. destruct (prow o relid t) as [row|] eqn:E; [|done]. apply prow_claims in E.
  apply (ok_block _ _ _ _ Hok) in E as [_ E]. by rewrite rows_page, E.
Qed.

(** The rows there are: those of the relation and those on pending pages. *)
Definition row_before (t : Tid) : row_t := match src t with Some b => Some (LPending, b) | None => rows r0 t end.

Lemma claims_before t : claims_tid o relid t → ∃ b, row_before t = Some (LPending, b).
Proof.
  intros Ht. unfold row_before. destruct (src t) as [b|] eqn:E; [eauto|].
  destruct (ok_tids _ _ Hok _ _ Ht) as [[row Hr]|?]; [|done]. rewrite src_prow, Hr in E. done.
Qed.
Lemma hides_before t : hides o relid t → is_Some (row_before t).
Proof.
  intros [Ht|(s & b & Hr & _)]%Hh; [apply claims_before in Ht as [b ->]; eauto|]. unfold row_before.
  destruct (src t); rewrite ?Hr; eauto.
Qed.

(** The row as the commit leaves it. *)
Definition row_after (t : Tid) : row_t :=
  (if decide (hides o relid t) then gone else id) ((if decide (claims_tid o relid t) then raised else id) (row_before t)).

Lemma view_after t : cleared_relations o = [] → view st [o] relid t = shown false (row_after t).
Proof.
  intros Hc. rewrite view_eq by (by repeat constructor). unfold row_after.
  rewrite (decide_ext _ _ _ _ (hidden_one o relid t)), (decide_ext _ _ _ _ (owned_one o relid t)).
  destruct (decide (hides o relid t)).
  { by destruct ((if decide (claims_tid o relid t) then raised else id) (row_before t)) as [[[] b]|]. }
  cbn [id]. destruct (decide (claims_tid o relid t)) as [Ht|Ht]; cbn [id].
  - unfold pending_of. cbn [reverse rev_append find_map]. unfold row_before. rewrite pending_tuple_slice_prow, (shown_pending st), src_prow by done.
    destruct (prow o relid t) as [[s b]|] eqn:E; [done|]. cbn. destruct (ok_tids _ _ Hok _ _ Ht) as [[row Hr]|[b Hb]]; [congruence|].
    by rewrite Hb.
  - unfold row_before. destruct (src t) as [b|] eqn:E; [|done]. by rewrite src_rows by eauto.
Qed.

Context (D : gset Z) (n : Z) (r1 : RelationStorage) (remaps : list (Tid * Tid)).
Context (HP : Placed r0 D src n (r1, remaps)).
Abbreviation ρ := (remap_tid remaps).

Lemma remap_same t : src t = None → ρ t = t.
Proof. intros Ht. apply remap_other. intros kv Hkv <-. apply (pl_keys _ _ _ _ _ HP) in Hkv as [b Hb]. congruence. Qed.

Lemma placed_before t : is_Some (row_before t) → rows r1 (ρ t) = row_before t.
Proof.
  unfold row_before. destruct (src t) as [b|] eqn:E.
  - intros _. apply (pl_put _ _ _ _ _ HP) in E as [E _]. done.
  - intros [row Hr]. rewrite remap_same, Hr by done. by apply (pl_keep _ _ _ _ _ HP).
Qed.

Lemma placed_inj t t' : is_Some (row_before t) → is_Some (row_before t') → ρ t = ρ t' → t = t'.
Proof.
  unfold row_before. destruct (src t) as [b|] eqn:E, (src t') as [b'|] eqn:E'; intros H1 H2 Ht.
  - by apply (pl_inj _ _ _ _ _ HP); eauto.
  - rewrite (remap_same t') in Ht by done. apply (pl_put _ _ _ _ _ HP) in E as [_ E]. cbn [fst snd] in E. rewrite Ht in E. rewrite E in H2. by destruct H2.
  - rewrite (remap_same t) in Ht by done. apply (pl_put _ _ _ _ _ HP) in E' as [_ E']. cbn [fst snd] in E'. rewrite <- Ht in E'. rewrite E' in H1. by destruct H1.
  - by rewrite !remap_same in Ht.
Qed.

Lemma placed_all t' row : rows r1 t' = Some row → ∃ t, ρ t = t' ∧ row_before t = Some row.
Proof.
  intros Hr. destruct (pl_only _ _ _ _ _ HP t' row Hr) as [H0|(t & Ht & <-)].
  - assert (E : src t' = None). { destruct (src t') eqn:E; [|done]. rewrite src_rows in H0; [done|eauto]. }
    exists t'. split; [by apply remap_same|]. unfold row_before. by rewrite E.
  - exists t. split; [done|]. unfold row_before. rewrite Ht. apply (pl_put _ _ _ _ _ HP) in Ht as [Ht _]. cbn [fst snd] in *. congruence.
Qed.

(** The identifiers of the overlay after the placement. *)
Context (o' : TransactionOverlay).
Context (Hclaims : tids_of relid (inserted_tids o') = ρ <$> tids_of relid (inserted_tids o)).
Context (Hhides : tids_of relid (invalidated_tids o') = ρ <$> tids_of relid (invalidated_tids o)).

Lemma claims_placed t : is_Some (row_before t) → claims_tid o' relid (ρ t) ↔ claims_tid o relid t.
Proof.
  intros Ht. unfold claims_tid. rewrite Hclaims, list_elem_of_fmap. split; [|by exists t].
  intros (t' & E & Ht'). rewrite (placed_inj t t'); [done|done| |done]. destruct (claims_before t' Ht') as [b ->]. eauto.
Qed.
Lemma hides_placed t : is_Some (row_before t) → hides o' relid (ρ t) ↔ hides o relid t.
Proof.
  intros Ht. unfold hides. rewrite Hhides, list_elem_of_fmap. split; [|by exists t].
  intros (t' & E & Ht'). rewrite (placed_inj t t'); [done|done| |done]. by apply hides_before.
Qed.

Context (r2 : RelationStorage).
Context (Hrows : ∀ t, rows r2 t =
  (if decide (hides o' relid t) then gone else id) ((if decide (claims_tid o' relid t) then raised else id) (rows r1 t))).

Lemma rows_published t : is_Some (row_before t) → rows r2 (ρ t) = row_after t.
Proof.
  intros Ht. rewrite Hrows, placed_before by done. unfold row_after.
  by rewrite (decide_ext _ _ _ _ (claims_placed t Ht)), (decide_ext _ _ _ _ (hides_placed t Ht)).
Qed.

Lemma rows_published_all t' row : rows r2 t' = Some row → ∃ t, ρ t = t' ∧ is_Some (row_before t) ∧ row_after t = Some row.
Proof.
  intros Hr. rewrite Hrows in Hr. destruct (rows r1 t') as [row1|] eqn:E1.
  - destruct (placed_all t' row1 E1) as (t & <- & Ht). exists t. split; [done|]. split; [eauto|].
    rewrite <- rows_published by eauto. by rewrite Hrows, E1.
  - by repeat case_decide.
Qed.

Lemma hides_not_awaited t' : hides o' relid t' → claims_tid o' relid t' ∨ awaited (rows r1 t') = false.
Proof.
  unfold hides. rewrite Hhides, list_elem_of_fmap. intros (t & -> & Ht). pose proof (hides_before t Ht) as Hb.
  destruct (Hh t Ht) as [Hc|(s & b & Hr & Hs)]; [left; by apply claims_placed|]. right.
  rewrite placed_before by done. unfold row_before. destruct (src t) eqn:E; [|rewrite Hr; by destruct s].
  rewrite src_rows in Hr by eauto. done.
Qed.
End publish.

(** [ρ] carries the rows of one view to those of another, one to one. *)
Record carries (ρ : Z → Tid → Tid) (V V' : Z → Tid → option (list Z)) : Prop := {
  ca_to : ∀ relid t b, V relid t = Some b → V' relid (ρ relid t) = Some b;
  ca_from : ∀ relid t' b, V' relid t' = Some b → ∃ t, ρ relid t = t' ∧ V relid t = Some b;
  ca_inj : ∀ relid t t', is_Some (V relid t) → is_Some (V relid t') → ρ relid t = ρ relid t' → t = t';
}.

(** The world after the commit of an overlay. *)
Record published (o : TransactionOverlay) (w w' : World) : Prop := {
  pb_session : w_session w' = w_session w;
  pb_counted : counted w';
  pb_next : ∀ relid, next_block (rel w relid) <= next_block (rel w' relid);
  pb_pages : ∀ relid b, 0 <= b < next_block (rel w relid) → page (rel w relid) b = None → ¬ claims_block o relid b →
    page (rel w' relid) b = None;
  pb_rows : ∀ relid t row, rows (rel w relid) t = Some row → ¬ claims_tid o relid t →
    rows (rel w' relid) t = Some (if decide (hides o relid t) then LDead else row.1, row.2);
  pb_view : ∃ ρ, carries ρ (view (w_storage w) [o]) (committed w') ∧
    ∀ relid t, ¬ claims_block o relid (tid_block t) → ρ relid t = t;
}.

Lemma placed_live r0 D src n s : rel_wf r0 → Placed r0 D src n s → live_tuple_count s.1 = live_tuple_count r0.
Proof.
  intros Hr HP. apply live_count_rows; [done|apply (pl_wf _ _ _ _ _ HP)|]. intros t b. split; [|by apply (pl_keep _ _ _ _ _ HP)].
  intros Ht. destruct (pl_only _ _ _ _ _ HP _ _ Ht) as [?|(t' & Ht' & E)]; [done|].
  apply (pl_put _ _ _ _ _ HP) in Ht' as [Ht' _]. rewrite E in Ht'. congruence.
Qed.

Lemma row_before_after st o relid t : is_Some (row_after st o relid t) → is_Some (row_before st o relid t).
Proof. unfold row_after. destruct (row_before st o relid t); [eauto|]. by repeat case_decide. Qed.

(** The overlay can run out of blocks. *)
Definition crowded (o : TransactionOverlay) (w : World) : Prop :=
  ∃ relid, U32_MAX <= next_block (rel w relid) + lines_of (ppages relid o).

(** The rows were placed in the relations ([st1]) and then marked ([w']). *)
Section placed_and_marked.
Context (o o' : TransactionOverlay) (w w' : World) (st1 : StorageState) (rm : Z → list (Tid * Tid)).
Context (Hok : ov_ok (w_storage w) o) (Hh : ∀ relid t, hides o relid t → claims_tid o relid t ∨ settled_row w relid t).
Context (Hrm : ∀ relid, ∃ D, D ⊆ list_to_set (pg_block <$> ppages relid o) ∧
  Placed (relation_of (w_storage w) relid) D (src_of (ppages relid o)) (lines_of (ppages relid o)) (relation_of st1 relid, rm relid)).
Context (R1 : ∀ relid, tids_of relid (inserted_tids o') = remap_tid (rm relid) <$> tids_of relid (inserted_tids o)).
Context (R2 : ∀ relid, tids_of relid (invalidated_tids o') = remap_tid (rm relid) <$> tids_of relid (invalidated_tids o)).
Context (Hrows : ∀ relid t, rows (rel w' relid) t =
  (if decide (hides o' relid t) then gone else id) ((if decide (claims_tid o' relid t) then raised else id) (rows (relation_of st1 relid) t))).
Context (Hext : ∀ relid, extends (relation_of st1 relid) (rel w' relid)).

Lemma marked_next relid : next_block (rel w relid) <= next_block (rel w' relid).
Proof.
  destruct (Hrm relid) as (D & _ & HP). pose proof (pl_next _ _ _ _ _ HP) as [Hn _]. destruct (Hext relid) as [X1 _].
  cbn in Hn. unfold rel at 1. lia.
Qed.

Lemma marked_pages relid b : 0 <= b < next_block (rel w relid) → page (rel w relid) b = None → ¬ claims_block o relid b →
  page (rel w' relid) b = None.
Proof.
  intros Hb Hpg Hc. destruct (Hrm relid) as (D & HD & HP). apply (ext_pages _ _ (Hext relid)).
  + pose proof (pl_next _ _ _ _ _ HP) as [Hn _]. cbn in Hn. unfold rel in Hb. lia.
  + apply (pl_pages _ _ _ _ _ HP); [done..|]. intros HbD. apply Hc. apply HD in HbD. by apply elem_of_list_to_set in HbD.
Qed.

Lemma marked_rows relid t row : rows (rel w relid) t = Some row → ¬ claims_tid o relid t →
  rows (rel w' relid) t = Some (if decide (hides o relid t) then LDead else row.1, row.2).
Proof.
  intros Hrow Hc. destruct (Hrm relid) as (D & HD & HP).
  assert (Es : src_of (ppages relid o) t = None).
  { destruct (src_of (ppages relid o) t) eqn:E; [|done]. unfold rel in Hrow. rewrite (src_rows _ _ _ Hok) in Hrow; [done|eauto]. }
  rewrite <- (remap_same (w_storage w) o relid D _ _ _ HP t Es) at 1.
  assert (Eb : row_before (w_storage w) o relid t = Some row) by (unfold row_before; by rewrite Es).
  rewrite (rows_published (w_storage w) o relid Hok (Hh relid) D _ _ _ HP o' (R1 relid) (R2 relid) (rel w' relid) (Hrows relid)) by eauto.
  unfold row_after. rewrite Eb, (decide_False (P := claims_tid o relid t)) by done. cbn [id].
  destruct row as [s b]. by case_decide.
Qed.

Lemma marked_view : ∃ ρ, carries ρ (view (w_storage w) [o]) (committed w') ∧
  ∀ relid t, ¬ claims_block o relid (tid_block t) → ρ relid t = t.
Proof.
  pose proof (ok_clear _ _ Hok) as Hcl. exists (λ relid, remap_tid (rm relid)). split; [split|].
  + intros relid t b Hv. destruct (Hrm relid) as (D & HD & HP). rewrite (view_after _ _ _ Hok _ Hcl) in Hv.
    assert (Hb : is_Some (row_before (w_storage w) o relid t)).
    { apply row_before_after. destruct (row_after (w_storage w) o relid t); [eauto|done]. }
    unfold committed.
    by rewrite (rows_published (w_storage w) o relid Hok (Hh relid) D _ _ _ HP o' (R1 relid) (R2 relid) (rel w' relid) (Hrows relid)).
  + intros relid t' b Hv. destruct (Hrm relid) as (D & HD & HP). unfold committed in Hv. apply shown_live in Hv.
    destruct (rows_published_all (w_storage w) o relid Hok (Hh relid) D _ _ _ HP o' (R1 relid) (R2 relid) (rel w' relid) (Hrows relid) t' _ Hv)
      as (t & Ht & _ & Ha). exists t. split; [done|]. by rewrite (view_after _ _ _ Hok _ Hcl), Ha.
  + intros relid t t' Ht Ht'. destruct (Hrm relid) as (D & HD & HP). rewrite (view_after _ _ _ Hok _ Hcl) in Ht. rewrite (view_after _ _ _ Hok _ Hcl) in Ht'.
    apply (placed_inj (w_storage w) o relid D _ _ _ HP); apply row_before_after.
    * destruct (row_after (w_storage w) o relid t); [eauto|by destruct Ht].
    * destruct (row_after (w_storage w) o relid t'); [eauto|by destruct Ht'].
  + intros relid t Hb. destruct (Hrm relid) as (D & HD & HP). apply (remap_same (w_storage w) o relid D _ _ _ HP). by apply src_of_block.
Qed.
End placed_and_marked.

Lemma commit_spec o w : counted w → ov_ok (w_storage w) o →
  (∀ relid t, hides o relid t → claims_tid o relid t ∨ settled_row w relid t) →
  match commit_overlay_to_relations o w with
  | (Ok _, w') => published o w w'
  | (Error _ _, _) => crowded o w
  end.
Proof.
  intros Hw Hok Hh. unfold commit_overlay_to_relations.
  set (o0 := set_pending_pages [] o).
  pose proof (commit_all_pages_spec (pending_pages o) o0 (w_storage w)) as Hp.
  destruct (commit_all_pages o0 (pending_pages o) (w_storage w)) as [[o'|c e] st1]; cycle 1.
  { apply Hp; [apply (ok_keys _ _ Hok)|intros; apply Hw|]. intros relid. split; [|apply (ok_blocks _ _ Hok)].
    apply Forall_forall. apply (ok_pages _ _ Hok). }
  destruct Hp as (rm & [R1 R2 R3 R4] & Hrm); [apply (ok_keys _ _ Hok)|intros; apply Hw| |].
  { intros relid. split; [|apply (ok_blocks _ _ Hok)]. apply Forall_forall. apply (ok_pages _ _ Hok). }
  change (pages_at (pending_pages o)) with (λ relid, ppages relid o) in Hrm. cbv beta in Hrm.
  assert (Hpl := λ relid, proj1 (Hrm relid)). clear Hrm.
  change (inserted_tids o0) with (inserted_tids o) in R1, R3. change (invalidated_tids o0) with (invalidated_tids o) in R2, R3.
  pose proof (commit_marks o' st1) as Hm. cbv zeta in Hm.
  destruct (foldl _ (st1, []) _) as [st2 deltas2]. destruct (foldl _ (st2, deltas2) _) as [st3 deltas]. cbn [fst snd] in Hm.
  destruct Hm as [Hm1 Hm2].
  { rewrite R4. apply (ok_clear _ _ Hok). }
  { rewrite (proj1 R3). apply (ok_keys _ _ Hok). }
  { rewrite (proj2 R3). apply (ok_keys _ _ Hok). }
  { intros relid. destruct (Hpl relid) as (D & _ & HP). apply (pl_wf _ _ _ _ _ HP). }
  { intros relid t. destruct (Hpl relid) as (D & _ & HP).
    apply (hides_not_awaited (w_storage w) o relid Hok (Hh relid) D _ _ _ HP o' (R1 relid) (R2 relid)). }
  match goal with |- published o w ?x => set (w' := x) end.
  assert (Est : w_storage w' = commit_entries o' st3) by exact (proj2 (refresh_session _ _)).
  assert (Hcore : ∀ relid, core (rel w' relid) = core (relation_of st3 relid)).
  { intros relid. unfold rel. rewrite Est. apply commit_entries_core. }
  assert (Hrows : ∀ relid t, rows (rel w' relid) t =
    (if decide (hides o' relid t) then gone else id) ((if decide (claims_tid o' relid t) then raised else id) (rows (relation_of st1 relid) t))).
  { intros relid t. rewrite <- Hm2. specialize (Hcore relid). unfold core in Hcore. injection Hcore as E _ _ _ _ _ _ _ _ _ _.
    by rewrite (rows_pages _ _ E). }
  assert (Hext : ∀ relid, extends (relation_of st1 relid) (rel w' relid)).
  { intros relid. etrans; [apply Hm1|]. apply extends_core, Hcore. }
  split.
  - exact (proj1 (refresh_session _ _)).
  - intros relid. split; [eapply core_wf; [apply Hcore|apply Hm1]|]. etrans; [apply refresh_all|].
    change (rel (set_w_storage _ w) relid) with (relation_of (commit_entries o' st3) relid). unfold rel. rewrite Est.
    case_decide as Ed; [done|]. destruct (Hpl relid) as (D & _ & HP). destruct (Hm1 relid) as (_ & _ & Hdelta).
    assert (Hd0 : delta_of deltas relid = 0).
    { unfold delta_of. destruct (assoc_get relid deltas) as [d|] eqn:E; [|done]. apply assoc_get_elem in E.
      destruct (decide (d = 0)) as [->|]; [done|]. exfalso. apply Ed. apply Exists_exists. by exists (relid, d). }
    apply placed_live in HP; [|apply Hw]. cbn [fst] in HP. trans (live_tuple_count (rel w relid)); [apply Hw|].
    specialize (Hcore relid). unfold rel in Hcore. rewrite Est in Hcore. unfold core in Hcore.
    injection Hcore as _ _ _ _ _ _ _ -> _ _ _. unfold rel. lia.
  - intros relid. by apply (marked_next o w w' st1 rm).
  - intros relid. by apply (marked_pages o w w' st1 rm).
  - intros relid. by apply (marked_rows o o' w w' st1 rm).
  - by apply (marked_view o o' w w' st1 rm).
Qed.
