(* ===== verification/EngTransactions.v ===== *)
(** * Beginning and ending transactions

    What the calls of the C interface do that begin, commit and abort
    transactions and subtransactions, for a session among others: a commit
    makes what the session saw what everybody sees ([commit_stack_spec]), an
    abort leaves nothing of it ([abort_explicit_spec]), and a subtransaction
    leaves to the enclosing one what it saw, or nothing. *)

From Stdlib Require Import ZArith Lia.
From stdpp Require Import base tactics numbers list gmap strings sorting.
From S2P Require Import Prelude RustStd EngTid EngTuple EngTupleProofs EngPage EngPageProofs EngIndex EngRelation EngRelationProofs EngOverlay EngState EngOps EngScan EngInv EngAppend EngCalls EngSession EngCommit.

Local Open Scope Z_scope.

(** What a commit leaves to others: rows that they claim, and settled rows. *)
Record minds (R : list TransactionOverlay) (w w' : World) : Prop := {
  mi_claimed : ∀ relid t, claimed R relid t → rows (rel w' relid) t = rows (rel w relid) t;
  mi_settled : ∀ relid t, settled_row w relid t → settled_row w' relid t;
}.

Lemma alter_last {A} (f : A → A) (l : list A) x : alter f (length (l ++ [x]) - 1)%nat (l ++ [x]) = l ++ [f x].
Proof. induction l as [|y l IH]; [done|]. cbn. rewrite length_app in *. cbn in *. rewrite Nat.add_sub in IH. rewrite Nat.add_1_r. cbn. by rewrite IH. Qed.

(** Rows on pages that the session has not made keep their identifiers. *)
Definition stays (stack : list TransactionOverlay) (ρ : Z → Tid → Tid) : Prop :=
  ∀ relid t, ¬ held stack relid (tid_block t) → ρ relid t = t.

Section transaction_calls.
Context (R : list TransactionOverlay).

#[local] Instance minds_preorder : PreOrder (minds R).
Proof.
  split; [by split|]. intros w1 w2 w3 [A1 A2] [B1 B2]. split.
  - intros relid t Ht. by rewrite B1, A1.
  - intros relid t Ht. by apply B2, A2.
Qed.

Lemma quiet_minds w w' : quiet (claimed R) w w' → minds R w w'.
Proof. intros Hq. split; [apply (quiet_T _ _ _ Hq)|]. intros relid t. by apply (settled_quiet (claimed R)). Qed.

(** Nothing but flags, scans and the epoch changes. *)
Lemma SInv_same w w' : SInv R w → relations (w_storage w') = relations (w_storage w) → w_row_counts w' = w_row_counts w →
  w_stack w' = w_stack w → SInv R w' ∧ quiet (claimed R) w w' ∧ (∀ relid t, seen w' relid t = seen w relid t) ∧
  ∀ relid t, committed w' relid t = committed w relid t.
Proof.
  intros Hw E1 E2 E3. pose proof (SInv_no_clears R w Hw) as Hn. apply Forall_app in Hn as [Hn _].
  assert (Er : ∀ relid, relation_of (w_storage w') relid = relation_of (w_storage w) relid) by (intros; unfold relation_of; by rewrite E1).
  assert (Er' : ∀ relid, rel w' relid = rel w relid) by apply Er. destruct Hw as [H1 H2 H3 H4]. split; [split|].
  - intros relid. rewrite Er', E2. apply H1.
  - rewrite E3. eapply Forall_impl; [exact H2|]. intros o [O1 O2 O3 O4 O5 O6 O7]. split; try done.
    + intros relid p. rewrite Er. apply O2.
    + intros relid t. rewrite Er. apply O4.
  - by rewrite E3.
  - rewrite E3. intros k o relid t Hk Ht. unfold settled_row. rewrite Er'. by apply (H4 k o).
  - split; [by split; intros; rewrite ?Er'|]. split; intros relid t.
    + unfold seen. rewrite E3, !view_eq by done. by rewrite Er.
    + unfold committed. by rewrite Er'.
Qed.

(** ** An overlay with nothing in it *)

Lemma empty_overlay o : overlay_is_empty o = true → pending_pages o = [] ∧ inserted_tids o = [] ∧ invalidated_tids o = [].
Proof.
  unfold overlay_is_empty. rewrite !andb_true_iff. intros Hx. destruct_and! Hx.
  split; [by destruct (pending_pages o)|]. split; [by destruct (inserted_tids o)|by destruct (invalidated_tids o)].
Qed.

Lemma SInv_drop_empty w w' S o : SInv R w → w_stack w = S ++ [o] → overlay_is_empty o = true → w_storage w' = w_storage w →
  w_row_counts w' = w_row_counts w → w_stack w' = S → SInv R w' ∧ quiet (claimed R) w w' ∧ ∀ relid t, seen w' relid t = seen w relid t.
Proof.
  intros Hw E (E1 & E2 & E3)%empty_overlay Est Ec Es.
  assert (Er : ∀ relid, rel w' relid = rel w relid) by (intros; unfold rel; by rewrite Est).
  assert (Hq : ∀ T, quiet T w w') by (intros T; split; intros; by rewrite ?Er).
  pose proof (SInv_no_clears R w Hw) as Hn. rewrite E in Hn. unfold no_clears in Hn. rewrite !Forall_app, Forall_singleton in Hn.
  split; [|split; [done|]].
  - eapply SInv_pop; [exact Hw|exact E|exact Es|..|apply Hq].
    + intros relid. rewrite Er, Ec. apply (si_counted _ _ Hw).
    + intros relid. by rewrite Er.
  - intros relid t. unfold seen. rewrite Est, Es, E, !view_eq; [|apply Forall_app; rewrite Forall_singleton; tauto|tauto].
    rewrite (decide_ext (hidden (S ++ [o]) relid t) (hidden S relid t)).
    2: { rewrite hidden_app, hidden_one. unfold hides. rewrite E3. split; [|by left]. by intros [?|?%not_elem_of_nil]. }
    rewrite (decide_ext (owned (S ++ [o]) relid t) (owned S relid t)).
    2: { rewrite owned_app, owned_one. unfold claims_tid. rewrite E2. split; [|by left]. by intros [?|?%not_elem_of_nil]. }
    unfold pending_of. rewrite reverse_app. cbn [reverse rev_append app find_map]. rewrite pending_tuple_slice_prow.
    unfold prow, ppages. by rewrite E1.
Qed.

(** ** The last overlay is committed *)

Lemma commit_last w w1 o : SInv R w → w_stack w = [o] → w_storage w1 = w_storage w → w_row_counts w1 = w_row_counts w →
  w_stack w1 = [] →
  match commit_overlay_to_relations o w1 with
  | (Ok _, w') => SInv R w' ∧ w_stack w' = [] ∧ minds R w w' ∧ ∃ ρ, carries ρ (seen w) (committed w') ∧ stays [o] ρ
  | (Error _ _, _) => crowded o w
  end.
Proof.
  intros Hw E E1 E2 E3. assert (Er : ∀ relid, rel w1 relid = rel w relid) by (intros; unfold rel; by rewrite E1).
  destruct Hw as [H1 H2 H3 H4]. rewrite E in H2, H3, H4. cbn in H2, H3. apply Forall_cons in H2 as [Ho HR]. destruct H3 as [Ha HaR].
  assert (Hh : ∀ relid t, hides o relid t → claims_tid o relid t ∨ settled_row w relid t).
  { intros relid t Ht. destruct (H4 0%nat o relid t eq_refl Ht) as [Hx|?]; [|by right]. left. by apply owned_one. }
  pose proof (commit_spec o w1) as Hc. rewrite E1 in Hc.
  destruct (commit_overlay_to_relations o w1) as [[u|c e] w'].
  - destruct Hc as [P1 P2 P3 P4 P5 (ρ & P6 & P7)].
    { intros relid. rewrite Er, E2. apply H1. }
    { done. }
    { unfold settled_row. setoid_rewrite Er. apply Hh. }
    setoid_rewrite Er in P3. setoid_rewrite Er in P4. setoid_rewrite Er in P5.
    assert (Hset : ∀ relid t, settled_row w relid t → settled_row w' relid t).
    { intros relid t (s & b & Hr & Hs). exists (if decide (hides o relid t) then LDead else s), b. split; [|by case_decide].
      rewrite (P5 relid t _ Hr); [done|]. intros Hc. destruct (ok_tids _ _ Ho _ _ Hc) as [[row Hp]|[b' Hb']].
      - apply prow_claims in Hp. apply (ok_block _ _ _ _ Ho) in Hp as [_ Hp]. rewrite rows_page in Hr. unfold rel in Hr. by rewrite Hp in Hr.
      - unfold rel in Hr. congruence. }
    assert (Hcl : ∀ relid t, claimed R relid t → rows (rel w' relid) t = rows (rel w relid) t).
    { intros relid t (x & Hx & Ht)%owned_elem. pose proof (proj1 (Forall_forall _ _) HR x Hx) as Hok.
      pose proof (proj1 (Forall_forall _ _) Ha x Hx) as [A1 A2].
      destruct (ok_tids _ _ Hok _ _ Ht) as [[row Hp]|[b Hb]].
      - apply prow_claims in Hp. pose proof (ok_block _ _ _ _ Hok Hp) as [Hb1 Hb2]. fold (rel w relid) in Hb1, Hb2.
        rewrite !rows_page, Hb2. rewrite P4; [done|lia|done|]. intros Hc. by eapply A2.
      - fold (rel w relid) in Hb. assert (Hnc : ¬ claims_tid o relid t) by (intros Hc; by eapply A1).
        rewrite (P5 relid t _ Hb Hnc), Hb. rewrite decide_False; [done|]. intros [?|(s & b' & Hr & Hs)]%Hh; [done|]. congruence. }
    assert (Es : w_stack w' = []) by (unfold w_stack in *; by rewrite P1).
    split; [|split; [done|]; split; [by split|]].
    + split; [done|..]; rewrite ?Es; cbn [app]; [|done|intros k x relid t Hk; by rewrite lookup_nil in Hk].
      apply Forall_forall. intros x Hx. pose proof (proj1 (Forall_forall _ _) HR x Hx) as Hok.
      pose proof (proj1 (Forall_forall _ _) Ha x Hx) as [A1 A2].
      eapply (ov_ok_kept (w_storage w)); [done|..].
      * intros relid b Hb. pose proof (ok_block _ _ _ _ Hok Hb) as [Hb1 Hb2]. fold (rel w relid) in Hb1, Hb2.
        fold (rel w' relid). specialize (P3 relid). split; [lia|]. apply P4; [lia|done|]. intros Hc. by eapply A2.
      * intros relid t b Ht Hr. fold (rel w' relid). rewrite Hcl; [done|]. apply owned_elem. eauto.
    + exists ρ. rewrite E1 in P6. unfold seen. rewrite E. split; [exact P6|]. intros relid t Ht. apply P7. intros Hc. apply Ht.
      by constructor.
  - unfold crowded in *. setoid_rewrite Er in Hc. apply Hc; [|done|unfold settled_row; setoid_rewrite Er; apply Hh].
    intros relid. rewrite Er, E2. apply H1.
Qed.

(** ** All overlays are committed *)

Definition stack_lines (stack : list TransactionOverlay) (relid : Z) : Z := sum_of (λ o, lines_of (ppages relid o)) stack.
(** Block numbers can run out. *)
Definition crowded_stack (w : World) : Prop :=
  ∃ relid, U32_MAX <= next_block (rel w relid) + stack_lines (w_stack w) relid.

Definition commit_post (w : World) (res : result unit * World) : Prop :=
  match res with
  | (Ok _, w') => SInv R w' ∧ w_stack w' = [] ∧ minds R w w' ∧ ∃ ρ, carries ρ (seen w) (committed w') ∧ stays (w_stack w) ρ
  | (Error _ _, _) => crowded_stack w
  end.

Lemma carries_eq ρ V1 V1' V2 : (∀ relid t, V1' relid t = V1 relid t) → carries ρ V1 V2 → carries ρ V1' V2.
Proof.
  intros E [C1 C2 C3]. split.
  - intros relid t b. rewrite E. apply C1.
  - intros relid t' b Hb. destruct (C2 relid t' b Hb) as (t & Ht & Hv). exists t. by rewrite E.
  - intros relid t t'. rewrite !E. apply C3.
Qed.

Lemma commit_post_start w w1 res : SInv R w → rel w1 = rel w → (∀ relid t, seen w1 relid t = seen w relid t) →
  (∀ relid b, held (w_stack w1) relid b → held (w_stack w) relid b) →
  (∀ relid, stack_lines (w_stack w1) relid = stack_lines (w_stack w) relid) → commit_post w1 res → commit_post w res.
Proof.
  intros Hw Er Es Eb El. unfold commit_post. destruct res as [[u|c e] w'].
  - intros (H1 & H2 & [M1 M2] & ρ & Hρ & Hst). split; [done|]. split; [done|]. split.
    + split; [intros relid t Ht; by rewrite M1, Er|]. intros relid t Ht. apply M2. unfold settled_row. by rewrite Er.
    + exists ρ. split; [eapply carries_eq; [|exact Hρ]; done|]. intros relid t Ht. apply Hst. intros ?%Eb. done.
  - intros (relid & Hx). exists relid. by rewrite Er, El in Hx.
Qed.

Lemma commit_stack_loop_spec n w : SInv R w → n = length (w_stack w) → commit_post w (commit_stack_loop n w).
Proof.
  revert w. induction n as [|n IH]; intros w Hw En; cbn [commit_stack_loop].
  - symmetry in En. apply nil_length_inv in En. cbn. split; [done|]. split; [done|]. split; [done|]. exists (λ _, id).
    assert (E : ∀ relid t, seen w relid t = committed w relid t) by (intros; unfold seen; rewrite En; apply committed_view).
    split; [|done]. split; [intros relid t b; by rewrite E|intros relid t b Hb; exists t; by rewrite E|done].
  - unfold mbind, M_bind, gets. destruct (w_stack w) as [|o S _] eqn:E using rev_ind; [done|].
    assert (Em : ∀ A (x y : A), match S ++ [o] with [] => x | _ :: _ => y end = y) by (by destruct S). rewrite Em.
    unfold commit_top_overlay. rewrite (pop_run w S o E). rewrite length_app in En. cbn in En.
    set (w1 := set_w_session (set_transaction_stack S (w_session w)) w).
    destruct S as [|l S _] using rev_ind.
    + cbn [transaction_stack set_transaction_stack]. pose proof (commit_last w w1 o Hw E eq_refl eq_refl eq_refl) as Hc.
      assert (n = 0%nat) as -> by (cbn in En; lia). unfold commit_post. rewrite E.
      destruct (commit_overlay_to_relations o w1) as [[u|c e] w']; [done|].
      destruct Hc as [relid Hx]. exists relid. rewrite E. unfold stack_lines. simpl. lia.
    + assert (Em' : ∀ A (x y : A), match transaction_stack (set_transaction_stack (S ++ [l]) (w_session w)) with [] => x | _ :: _ => y end = y)
        by (by destruct S). rewrite Em'. set (w2 := on_session (last_overlay_mut (append_from o)) w1).
      assert (E2 : w_stack w2 = S ++ [append_from o l]).
      { unfold w2, w1, w_stack, on_session, last_overlay_mut. cbn [w_session set_w_session transaction_stack set_transaction_stack].
        apply alter_last. }
      rewrite <- app_assoc in E. cbn [app] in E. destruct (SInv_merge R w w2 S l o Hw E E2 eq_refl eq_refl) as [G1 G2].
      assert (Ho : ov_ok (w_storage w) o).
      { pose proof (si_ok _ _ Hw) as H2. rewrite E, !Forall_app, !Forall_cons in H2. tauto. }
      apply (commit_post_start w w2); [done..| | |apply IH; [done|rewrite E2, length_app; rewrite length_app in En; cbn in *; lia]].
      { intros relid b. rewrite E2, E, !held_app. unfold held. rewrite !Exists_cons, !Exists_nil, (merged_blocks o l _ Ho). tauto. }
      intros relid. rewrite E2, E. unfold stack_lines. rewrite !sum_of_app. simpl. rewrite (merged_pages o l _ Ho). unfold lines_of. rewrite sum_of_app. lia.
Qed.

Lemma commit_stack_spec w : SInv R w → commit_post w (commit_stack w).
Proof. intros Hw. by apply commit_stack_loop_spec. Qed.

Lemma pop_all_empty w w' : SInv R w → existsb (λ o, negb (overlay_is_empty o)) (w_stack w) = false → w_storage w' = w_storage w →
  w_row_counts w' = w_row_counts w → w_stack w' = [] → SInv R w' ∧ quiet (claimed R) w w' ∧ ∀ relid t, seen w' relid t = seen w relid t.
Proof.
  intros Hw He Est Ec Es. remember (w_stack w) as S eqn:E. symmetry in E. revert w Hw E Est Ec.
  induction S as [|o S IH] using rev_ind; intros w Hw E Est Ec.
  - destruct (SInv_same w w' Hw) as (H1 & H2 & H3 & _); [by rewrite Est|done|by rewrite Es, E|]. done.
  - rewrite existsb_app in He. apply orb_false_iff in He as [He1 He2]. cbn in He2. rewrite orb_false_r in He2. apply negb_false_iff in He2.
    set (w1 := set_w_session (set_transaction_stack S (w_session w)) w).
    destruct (SInv_drop_empty w w1 S o Hw E He2 eq_refl eq_refl eq_refl) as (H1 & H2 & H3).
    destruct (IH He1 w1 H1 eq_refl Est Ec) as (G1 & G2 & G3). split; [done|]. split; [by eapply quiet_trans|].
    intros relid t. by rewrite G3.
Qed.
End transaction_calls.

Section ends.
Context (R : list TransactionOverlay).
#[local] Existing Instance minds_preorder.

(** ** Beginning a transaction *)

(** The outcome of a call that commits what there is and goes on. *)
Definition restart_post (w : World) (res : result unit * World) : Prop :=
  match res with
  | (Ok _, w') => SInv R w' ∧ minds R w w' ∧ ∃ ρ, carries ρ (seen w) (seen w')
  | (Error _ _, _) => crowded_stack w
  end.

Lemma carries_id V V' : (∀ relid t, V' relid t = V relid t) → carries (λ _, id) V V'.
Proof.
  intros E. split.
  - intros relid t b Hb. by rewrite E.
  - intros relid t b Hb. exists t. by rewrite <- E.
  - done.
Qed.

Lemma carries_post ρ V V1 V2 : (∀ relid t, V2 relid t = V1 relid t) → carries ρ V V1 → carries ρ V V2.
Proof.
  intros E [C1 C2 C3]. split; [| |done].
  - intros relid t b Hb. rewrite E. by apply C1.
  - intros relid t' b. rewrite E. apply C2.
Qed.

Lemma seen_idle w : w_stack w = [] → ∀ relid t, seen w relid t = committed w relid t.
Proof. intros E relid t. unfold seen. rewrite E. apply committed_view. Qed.

(** A step that changes only flags, scans or the epoch, after a call that ended the transaction. *)
Lemma commit_then w w1 w' : commit_post R w (Ok tt, w1) → relations (w_storage w') = relations (w_storage w1) →
  w_row_counts w' = w_row_counts w1 → w_stack w' = w_stack w1 → commit_post R w (Ok tt, w').
Proof.
  intros (H1 & H2 & H3 & ρ & Hρ & Hst) E1 E2 E3. destruct (SInv_same R w1 w' H1 E1 E2 E3) as (G1 & G2 & _ & G4).
  split; [done|]. split; [congruence|]. split; [etrans; [exact H3|by apply quiet_minds]|]. exists ρ. split; [by eapply carries_post|done].
Qed.

Lemma commit_explicit_spec w : SInv R w → commit_post R w (commit_explicit_transaction w).
Proof.
  intros Hw. unfold commit_explicit_transaction, mbind, M_bind. pose proof (commit_stack_spec R w Hw) as Hc.
  destruct (commit_stack w) as [[[]|c e] w1]; [|done]. by eapply commit_then; [exact Hc|..].
Qed.

Lemma commit_implicit_spec w : SInv R w → explicit_transaction (w_session w) = false →
  commit_post R w (commit_implicit_transaction w).
Proof.
  intros Hw He. unfold commit_implicit_transaction, mbind, M_bind, gets. rewrite He. pose proof (commit_stack_spec R w Hw) as Hc.
  destruct (commit_stack w) as [[[]|c e] w1]; [|done]. by eapply commit_then; [exact Hc|..].
Qed.

Lemma ensure_restart w : SInv R w → ∀ w1, commit_post R w (Ok tt, w1) ∨ w1 = w →
  restart_post w (Ok tt, on_session ensure_transaction w1).
Proof.
  intros Hw w1 [(H1 & H2 & H3 & ρ & Hρ & _)| ->].
  - destruct (ensure_spec R w1 H1) as (G1 & G2 & G3 & G4 & G5). split; [done|]. split.
    + etrans; [exact H3|]. apply quiet_minds. by split; intros; unfold rel; rewrite ?G2.
    + exists ρ. eapply carries_post; [|exact Hρ]. intros relid t. rewrite G5. by apply seen_idle.
  - destruct (ensure_spec R w Hw) as (G1 & G2 & G3 & G4 & G5). split; [done|]. split.
    + apply quiet_minds. by split; intros; unfold rel; rewrite ?G2.
    + exists (λ _, id). by apply carries_id.
Qed.

Lemma restart_same w w1 w' : restart_post w (Ok tt, w1) → relations (w_storage w') = relations (w_storage w1) →
  w_row_counts w' = w_row_counts w1 → w_stack w' = w_stack w1 → restart_post w (Ok tt, w').
Proof.
  intros (H1 & H2 & ρ & Hρ) E1 E2 E3. destruct (SInv_same R w1 w' H1 E1 E2 E3) as (G1 & G2 & G3 & _).
  split; [done|]. split; [etrans; [exact H2|by apply quiet_minds]|]. exists ρ. by eapply carries_post.
Qed.

Lemma drop_empty_spec w : SInv R w → (commit_empty_implicit_transaction (w_session w)).1 = true →
  let w' := set_w_session (commit_empty_implicit_transaction (w_session w)).2 w in
  SInv R w' ∧ quiet (claimed R) w w' ∧ ∀ relid t, seen w' relid t = seen w relid t.
Proof.
  intros Hw. cbv zeta. unfold commit_empty_implicit_transaction.
  destruct (explicit_transaction (w_session w)).
  { intros _. by destruct (SInv_same R w (set_w_session (w_session w) w) Hw) as (? & ? & ? & _). }
  change (transaction_stack (w_session w)) with (w_stack w). destruct (w_stack w) as [|o S _] eqn:E using rev_ind.
  { intros _. cbn [last fst snd]. destruct (SInv_same R w (set_w_session (w_session w) w) Hw) as (? & ? & ? & _); [done|done|by destruct w|]. done. }
  rewrite last_snoc. destruct (overlay_is_empty o) eqn:Ee; [|done]. intros _. rewrite (pop_run w S o E). cbn [fst snd].
  by apply (SInv_drop_empty R w _ S o).
Qed.

Lemma xact_begin_spec w : SInv R w → restart_post w (fastpg_storage2_xact_begin w).
Proof.
  intros Hw. unfold fastpg_storage2_xact_begin. destruct (explicit_transaction (w_session w)) eqn:Ee.
  { apply (ensure_restart w Hw w). by right. }
  pose proof (drop_empty_spec w Hw) as Hd. unfold commit_empty_implicit_transaction in *. rewrite Ee in *.
  destruct (last (transaction_stack (w_session w))) as [o|] eqn:El.
  - destruct (overlay_is_empty o) eqn:Eo.
    + destruct (Hd eq_refl) as (G1 & G2 & G3). cbn [fst snd] in *.
      set (w1 := set_w_session (pop_overlay (w_session w)).2 w) in *.
      destruct (ensure_restart w1 G1 w1 ltac:(by right)) as (F1 & F2 & ρ & F3).
      eapply (restart_same _ (on_session ensure_transaction w1)); [|done..]. split; [done|].
      split; [etrans; [by apply quiet_minds|done]|]. exists ρ. eapply carries_eq; [|exact F3]. intros. by rewrite G3.
    + assert (set_w_session (w_session w) w = w) as -> by (by destruct w).
      unfold begin_explicit_transaction, mbind, M_bind, gets. rewrite Ee.
      pose proof (commit_implicit_spec w Hw Ee) as Hc. destruct (commit_implicit_transaction w) as [[[]|c e] w1]; [|done].
      cbn. eapply (restart_same _ (on_session ensure_transaction w1)); [|done..]. apply (ensure_restart w Hw). by left.
  - destruct (Hd eq_refl) as (G1 & G2 & G3). cbn [fst snd] in *.
    assert (Es : set_w_session (w_session w) w = w) by (by destruct w).
    eapply (restart_same _ (on_session ensure_transaction w)); [|done..]. apply (ensure_restart w Hw). by right.
Qed.

(** ** Ending a transaction *)

Lemma commit_if_implicit_spec w : SInv R w → restart_post w (fastpg_storage2_xact_commit_if_implicit w).
Proof.
  intros Hw. unfold fastpg_storage2_xact_commit_if_implicit. pose proof (drop_empty_spec w Hw) as Hd.
  destruct (commit_empty_implicit_transaction (w_session w)) as [[|] s] eqn:Es.
  - destruct (Hd eq_refl) as (G1 & G2 & G3). split; [done|]. split; [by apply quiet_minds|]. exists (λ _, id). by apply carries_id.
  - assert (Ee : explicit_transaction (w_session w) = false ∧ s = w_session w).
    { unfold commit_empty_implicit_transaction in Es. destruct (explicit_transaction (w_session w)); [done|]. split; [done|].
      destruct (last _) as [o|]; [|done]. destruct (overlay_is_empty o); [done|]. by injection Es. }
    destruct Ee as [Ee ->]. assert (set_w_session (w_session w) w = w) as -> by (by destruct w).
    pose proof (commit_implicit_spec w Hw Ee) as Hc. destruct (commit_implicit_transaction w) as [[[]|c e] w1]; [|done].
    destruct Hc as (H1 & H2 & H3 & ρ & Hρ & _). split; [done|]. split; [done|]. exists ρ. eapply carries_post; [|exact Hρ].
    intros. by apply seen_idle.
Qed.

(** A rollback: the session sees the committed rows, and nobody else sees a change. *)
Definition abort_post (w : World) (res : result unit * World) : Prop :=
  res.1 = Ok tt ∧ SInv R res.2 ∧ w_stack res.2 = [] ∧ quiet (claimed R) w res.2.

Lemma abort_then w w1 w' : SInv R w1 → w_stack w1 = [] → quiet (claimed R) w w1 → relations (w_storage w') = relations (w_storage w1) →
  w_row_counts w' = w_row_counts w1 → w_stack w' = w_stack w1 → abort_post w (Ok tt, w').
Proof.
  intros H1 H2 H3 E1 E2 E3. destruct (SInv_same R w1 w' H1 E1 E2 E3) as (G1 & G2 & _). split; [done|]. split; [done|].
  split; [cbn; congruence|]. by eapply quiet_trans.
Qed.

Lemma abort_explicit_spec w : SInv R w → abort_post w (abort_explicit_transaction w).
Proof.
  intros Hw. destruct (rollback_all R w Hw) as (H1 & H2 & H3). unfold abort_explicit_transaction, mbind, M_bind.
  by eapply (abort_then _ (rollback_all_overlays w)).
Qed.

Lemma abort_if_implicit_spec w : SInv R w →
  let res := fastpg_storage2_xact_abort_if_implicit w in
  if explicit_transaction (w_session w) then res = (Ok tt, w) else abort_post w res.
Proof.
  intros Hw. cbv zeta. unfold fastpg_storage2_xact_abort_if_implicit, abort_empty_implicit_transaction.
  destruct (explicit_transaction (w_session w)) eqn:Ee; [by destruct w|].
  destruct (existsb _ _) eqn:Ex.
  - assert (set_w_session (w_session w) w = w) as -> by (by destruct w).
    unfold abort_implicit_transaction, mbind, M_bind, gets. rewrite Ee. destruct (rollback_all R w Hw) as (H1 & H2 & H3).
    by eapply (abort_then _ (rollback_all_overlays w)).
  - destruct (pop_all_empty R w (set_w_session (set_transaction_stack [] (w_session w)) w) Hw Ex) as (G1 & G2 & G3); [done..|]. done.
Qed.

(** ** Subtransactions *)

Lemma subxact_begin_spec w : SInv R w →
  let w' := (fastpg_storage2_subxact_begin w).2 in
  (fastpg_storage2_subxact_begin w).1 = Ok tt ∧ SInv R w' ∧ quiet (claimed R) w w' ∧
  (∃ S, S ≠ [] ∧ w_stack w' = S ++ [overlay_default]) ∧ ∀ relid t, seen w' relid t = seen w relid t.
Proof.
  intros Hw. cbv zeta. destruct (ensure_spec R w Hw) as (G1 & G2 & G3 & G4 & G5). set (w1 := on_session ensure_transaction w) in *.
  set (w' := (fastpg_storage2_subxact_begin w).2).
  destruct (SInv_push R w1 w' G1) as [F1 F2]; [done..|]. split; [done|]. split; [done|]. split; [by split|]. split.
  - by exists (w_stack w1).
  - intros relid t. by rewrite F2.
Qed.

Lemma split_stack w : (1 < length (w_stack w))%nat → ∃ S l o, w_stack w = S ++ [l; o].
Proof.
  destruct (w_stack w) as [|o S _] using rev_ind; [cbn; lia|]. destruct S as [|l S _] using rev_ind; [cbn; lia|]. intros _.
  exists S, l, o. by rewrite <- app_assoc.
Qed.

(** Committing a subtransaction: its parent sees what it saw. *)
Lemma subxact_commit_spec w : SInv R w →
  let w' := (fastpg_storage2_subxact_commit w).2 in
  (fastpg_storage2_subxact_commit w).1 = Ok tt ∧ SInv R w' ∧ quiet (claimed R) w w' ∧ ∀ relid t, seen w' relid t = seen w relid t.
Proof.
  intros Hw. cbv zeta. unfold fastpg_storage2_subxact_commit. destruct (Nat.ltb_spec 1 (length (w_stack w))) as [Hl|]; cycle 1.
  { split; [done|]. split; [done|]. split; [by split|done]. }
  destruct (split_stack w Hl) as (S & l & o & E). unfold commit_top_overlay.
  assert (E' : w_stack w = (S ++ [l]) ++ [o]) by (by rewrite <- app_assoc). rewrite (pop_run w (S ++ [l]) o E').
  assert (Em : ∀ A (x y : A), match transaction_stack (set_transaction_stack (S ++ [l]) (w_session w)) with [] => x | _ :: _ => y end = y)
    by (by destruct S). rewrite Em. cbn [fst snd].
  match goal with |- _ ∧ SInv R ?x ∧ _ => set (w' := x) end.
  assert (Es : w_stack w' = S ++ [append_from o l]).
  { unfold w', w_stack, on_session, last_overlay_mut. cbn [w_session set_w_session transaction_stack set_transaction_stack].
    apply alter_last. }
  destruct (SInv_merge R w w' S l o Hw E Es eq_refl eq_refl) as [G1 G2]. split; [done|]. split; [done|]. split; [by split|done].
Qed.

(** Aborting a subtransaction: the session sees what the overlays below it see. *)
Lemma subxact_abort_spec w : SInv R w → (1 < length (w_stack w))%nat →
  let w' := (fastpg_storage2_subxact_abort w).2 in
  (fastpg_storage2_subxact_abort w).1 = Ok tt ∧ SInv R w' ∧ quiet (claimed R) w w' ∧ w_stack w' = lower w ∧
  ∀ relid t, seen w' relid t = view (w_storage w) (lower w) relid t.
Proof.
  intros Hw Hl. cbv zeta. unfold fastpg_storage2_subxact_abort. rewrite (proj2 (Nat.ltb_lt _ _)) by done.
  destruct (stack_shape w) as [E|[_ E]]; [|by rewrite E in Hl; cbn in Hl; lia]. rewrite (pop_run w (lower w) (top w) E). cbn [fst snd].
  destruct (rollback_top R w (lower w) (top w) Hw E) as (G1 & G2 & G3 & _ & G5). split; [done|]. split; [done|]. split; [|done].
  eapply quiet_mono; [|exact G3]. intros relid t Ht. apply owned_app. by right.
Qed.
End ends.
