(* ===== verification/EngSystem.v ===== *)
(** * Sessions over one storage

    The calls of the C interface as one type ([Call], [exec]), any number of
    sessions over one storage, and the states that calls of these sessions lead
    to ([step], [reachable]), a call at a time.  Every call keeps the invariant
    of its session and minds the rows of the others ([call_keeps]), so that every
    reachable state is [good]: overlays are well-formed, no row and no block is
    claimed twice, and the row counters are right.

    Clearing and replacing a relation are not calls here: see EngFindings.v for
    what they do to other sessions. *)

From Stdlib Require Import ZArith Lia.
From stdpp Require Import base tactics numbers list gmap strings sorting.
From S2P Require Import Prelude RustStd EngTid EngTuple EngTupleProofs EngPage EngPageProofs EngIndex EngRelation EngRelationProofs EngOverlay EngState EngOps EngScan EngInv EngAppend EngFfi EngCalls EngSession EngCommit EngTransactions.

Local Open Scope Z_scope.

Section system.
Context `{Target, Catalog} (mem : Z → Z) (fuel : nat).

(** ** Calls *)

(** The calls of the C interface; a scan is known by its handle, a row by its
    packed identifier. *)
Inductive Call :=
  | CInsert (relid : Z) (input : RowInput) (check : UniqueCheck) (metadata : option InsertMetadata) (record : bool)
  | CUpdate (relid packed : Z) (input : RowInput) (check : UniqueCheck) (hot : bool) (metadata : option UpdateMetadata)
  | CUpdatePreserved (relid packed : Z) (input : RowInput) (key : SingleByvalHotKey) (metadata : option UpdateMetadata)
  | CDelete (relid packed : Z) (record : bool)
  | CFetch (relid packed natts : Z)
  | CScanBegin (relid : Z) (curcid : option Z)
  | CScanNext (handle : Z) (forward : bool) (natts : Z)
  | CScanBatch (handle : Z) (forward : bool) (natts : Z) (max_rows : nat)
  | CScanReset (handle : Z)
  | CScanPosition (handle packed : Z)
  | CScanEnd (handle : Z)
  | CSetMaxTuples (relid max_tuples : Z)
  | CResolve (relid packed : Z)
  | CResolveUpdate (relid packed : Z)
  | CRecordInsert (relid packed xid cid : Z)
  | CRecordInvalidate (relid packed xid cid : Z)
  | CRecordXmax (relid packed xmax : Z)
  | CKeyLookup (index_relid : Z) (values nulls : list Z)
  | CKeyLookupSingle (relid value null : Z)
  | CKeyLookupSpec (index_relid relid : Z) (cols : list FfiColumn) (values nulls : list Z)
  | CKeyInsert (index_relid relid : Z) (cols : list FfiColumn) (values nulls : list Z) (packed : Z)
  | CRecordKey (relid packed : Z)
  | CRebuild (index_relid : Z)
  | CRebuildSpec (index_relid relid : Z) (cols : list FfiColumn)
  | CIndexInsert (index_relid relid : Z) (cols : list FfiColumn) (values nulls : list Z) (packed : Z)
  | CBegin
  | CBeginImplicit
  | CCommit
  | CCommitIfImplicit
  | CAbort
  | CAbortIfImplicit
  | CSubBegin
  | CSubCommit
  | CSubAbort.

Definition exec (c : Call) : M World unit :=
  match c with
  | CInsert relid input check metadata record => relation_insert_impl mem fuel relid input check metadata record;; mret tt
  | CUpdate relid packed input check hot metadata => relation_update_impl mem fuel relid packed input check hot metadata;; mret tt
  | CUpdatePreserved relid packed input key metadata =>
      relation_update_hot_if_single_byval_preserved_impl mem fuel relid packed input key metadata;; mret tt
  | CDelete relid packed record => relation_delete_impl relid packed record;; mret tt
  | CFetch relid packed natts => fetch_tid_impl relid packed natts;; mret tt
  | CScanBegin relid curcid => scan_begin_impl relid curcid;; mret tt
  | CScanNext handle forward natts => scan_next_impl handle forward natts;; mret tt
  | CScanBatch handle forward natts max_rows => scan_next_batch_impl handle forward natts max_rows;; mret tt
  | CScanReset handle => fastpg_storage2_scan_reset handle
  | CScanPosition handle packed => fastpg_storage2_scan_set_position handle packed;; mret tt
  | CScanEnd handle => fastpg_storage2_scan_end handle
  | CSetMaxTuples relid max_tuples => fastpg_storage2_relation_set_max_tuples_per_block relid max_tuples;; mret tt
  | CResolve relid packed => fastpg_storage2_relation_resolve_tid relid packed;; mret tt
  | CResolveUpdate relid packed => fastpg_storage2_relation_resolve_update_tid relid packed;; mret tt
  | CRecordInsert relid packed xid cid => fastpg_storage2_relation_record_insert_metadata relid packed xid cid;; mret tt
  | CRecordInvalidate relid packed xid cid => fastpg_storage2_relation_record_invalidate_metadata relid packed xid cid;; mret tt
  | CRecordXmax relid packed xmax => fastpg_storage2_relation_record_row_xmax relid packed xmax;; mret tt
  | CKeyLookup index values nulls => fastpg_storage2_primary_key_index_lookup mem fuel index values nulls;; mret tt
  | CKeyLookupSingle relid value null => fastpg_storage2_primary_key_index_lookup_single_byval_with_spec relid value null;; mret tt
  | CKeyLookupSpec index relid cols values nulls =>
      fastpg_storage2_primary_key_index_lookup_with_spec mem fuel index relid cols values nulls;; mret tt
  | CKeyInsert index relid cols values nulls packed =>
      fastpg_storage2_primary_key_index_insert_with_spec mem fuel index relid cols values nulls packed;; mret tt
  | CRecordKey relid packed => fastpg_storage2_relation_record_primary_key relid packed;; mret tt
  | CRebuild index => fastpg_storage2_rebuild_primary_key_index index;; mret tt
  | CRebuildSpec index relid cols => fastpg_storage2_rebuild_primary_key_index_with_spec index relid cols;; mret tt
  | CIndexInsert index relid cols values nulls packed =>
      fastpg_storage2_index_insert_with_spec mem fuel index relid cols values nulls packed;; mret tt
  | CBegin => fastpg_storage2_xact_begin
  | CBeginImplicit => fastpg_storage2_xact_begin_implicit
  | CCommit => fastpg_storage2_xact_commit
  | CCommitIfImplicit => fastpg_storage2_xact_commit_if_implicit
  | CAbort => fastpg_storage2_xact_abort
  | CAbortIfImplicit => fastpg_storage2_xact_abort_if_implicit
  | CSubBegin => fastpg_storage2_subxact_begin
  | CSubCommit => fastpg_storage2_subxact_commit
  | CSubAbort => fastpg_storage2_subxact_abort
  end.

(** The calls that can publish what the session has done. *)
Definition publishes (c : Call) : bool :=
  match c with CBegin | CCommit | CCommitIfImplicit => true | _ => false end.

(** What callers promise: arrays of one length, and the deletion of a row by
    the identifier of its newest version. *)
Definition allowed (c : Call) (w : World) : Prop :=
  match c with
  | CInsert _ input _ _ _ | CUpdate _ _ input _ _ _ | CUpdatePreserved _ _ input _ _ => input_ok input
  | CDelete relid packed _ => ∀ t, unpack packed = Some t → settled w relid t
  | _ => True
  end.

(** A call of a session among others: a call that publishes must succeed. *)
Definition call_post (R : list TransactionOverlay) (c : Call) (w : World) (res : result unit * World) : Prop :=
  (publishes c = true → res.1 = Ok tt) →
  SInv R res.2 ∧ minds R w res.2 ∧ (publishes c = false → quiet (claimed R) w res.2).

Section calls.
Context (R : list TransactionOverlay).

Lemma quiet_post c w res : SInv R res.2 → quiet (claimed R) w res.2 → call_post R c w res.
Proof. intros H1 H2 _. split; [done|]. split; [by apply quiet_minds|done]. Qed.

(** A call that changes at most the top overlay. *)
Definition row_post (w w' : World) : Prop :=
  SInv R w' ∧ quiet (claimed (lower w ++ R)) w w' ∧ (lower w ≠ [] → w_stack w' = lower w ++ [top w']).

Lemma row_call_post c w res : row_post w res.2 → call_post R c w res.
Proof.
  intros (H1 & H2 & _). apply quiet_post; [done|]. eapply quiet_mono; [|exact H2]. intros relid t Ht. apply owned_app. by right.
Qed.

Lemma triple_post {A} w P (m : M World A) Q : SInv R w → P w →
  triple (lower w) (claimed (lower w ++ R)) (held (lower w ++ R)) P m Q → row_post w ((m;; mret tt) w).2.
Proof.
  intros Hw HP Hm. destruct (Hm w (SInv_Inv R w Hw) HP) as (H1 & H2 & _).
  assert (E : ((m;; mret tt) w).2 = (m w).2) by (unfold mbind, M_bind; by destruct (m w) as [[a|? ?] w']).
  rewrite E. split; [by eapply Inv_SInv|]. split; [done|]. intros Hl. by destruct (inv_shape _ _ _ _ H1) as [?|[? _]].
Qed.

(** Calls that move scans only. *)
Lemma session_post {A} w (m : M World A) : SInv R w →
  (relations (w_storage (m w).2) = relations (w_storage w) ∧ w_row_counts (m w).2 = w_row_counts w ∧ w_stack (m w).2 = w_stack w) →
  row_post w ((m;; mret tt) w).2.
Proof.
  intros Hw (E1 & E2 & E3). destruct (SInv_same R w (m w).2 Hw E1 E2 E3) as (H1 & _).
  assert (E : ((m;; mret tt) w).2 = (m w).2) by (unfold mbind, M_bind; by destruct (m w) as [[a|? ?] w']).
  rewrite E. split; [done|]. split.
  - split; intros; unfold rel, relation_of; by rewrite E1.
  - intros Hl. unfold top. rewrite E3. by destruct (stack_shape w) as [?|[? _]].
Qed.

Lemma calm_post {A} w (m : M World A) : SInv R w →
  respects (calm_step (lower w) (claimed (lower w ++ R)) (held (lower w ++ R))) m → row_post w ((m;; mret tt) w).2.
Proof. intros Hw Hm. eapply (triple_post w (sees (seen w))); [done|by intros ??|]. by apply calm_triple. Qed.

Lemma fetch_calm w relid packed natts :
  respects (calm_step (lower w) (claimed (lower w ++ R)) (held (lower w ++ R))) (fetch_tid_impl relid packed natts).
Proof.
  intros w1. unfold fetch_tid_impl. pose proof (calm_step_preorder (lower w) (claimed (lower w ++ R)) (held (lower w ++ R))).
  destruct (unpack packed) as [t|]; [|by cbn].
  pose proof (st_calm_compress (w_stack w1) relid t (w_storage w1)) as Hc.
  destruct (resolve_tid_redirect_in_overlays_compress (w_stack w1) relid t (w_storage w1)) as [t' st]. by apply calm_st_calm.
Qed.

Lemma begin_scan_world scan w : w_storage (begin_scan scan w).2 = w_storage w ∧ w_row_counts (begin_scan scan w).2 = w_row_counts w ∧
  w_stack (begin_scan scan w).2 = w_stack w.
Proof.
  unfold begin_scan. destruct (allocate_scan_handle (w_session w)) as [h s] eqn:E1. destruct (insert_scan h scan s) as [ok s'] eqn:E2.
  cbn [fst snd]. split; [done|]. split; [done|]. unfold w_stack. cbn.
  unfold allocate_scan_handle in E1. unfold insert_scan in E2. repeat case_match; simplify_eq/=; done.
Qed.

Lemma scan_begin_world relid curcid w : let w' := (scan_begin_impl relid curcid w).2 in
  w_storage w' = w_storage w ∧ w_row_counts w' = w_row_counts w ∧ w_stack w' = w_stack w.
Proof.
  cbv zeta. assert (Hgo : ∀ s w, let w' := (let '(handle, w) := begin_scan s w in (Ok (default 0 handle), w)).2 in
    w_storage w' = w_storage w ∧ w_row_counts w' = w_row_counts w ∧ w_stack w' = w_stack w).
  { intros s w1. pose proof (begin_scan_world s w1) as Hb. by destruct (begin_scan s w1). }
  assert (He : let w' := (scan_begin_committed_empty_impl relid curcid w).2 in
    w_storage w' = w_storage w ∧ w_row_counts w' = w_row_counts w ∧ w_stack w' = w_stack w).
  { unfold scan_begin_committed_empty_impl. destruct (negb _); [done|]. destruct (match relations _ !! _ with Some _ => _ | None => _ end); [done|].
    destruct (negb _); [done|]. apply begin_scan_world. }
  unfold scan_begin_impl. destruct (scan_begin_committed_empty_impl relid curcid w) as [[h|] w1]; [done|]. cbn [snd] in He.
  destruct He as (<- & <- & <-). apply Hgo.
Qed.

Lemma scan_slot_mut_stack handle f s : transaction_stack (scan_slot_mut handle f s) = transaction_stack s.
Proof. unfold scan_slot_mut. by repeat case_match. Qed.

Lemma session_modify w f : SInv R w → (∀ s, transaction_stack (f s) = transaction_stack s) →
  row_post w (modify (on_session f) w).2.
Proof. intros Hw Hf. apply (session_post w (modify (on_session f))); [done|]. split; [done|]. split; [done|]. apply Hf. Qed.
Lemma restart_call c w res : restart_post R w res → publishes c = true → call_post R c w res.
Proof.
  intros Hr Hp Hok. specialize (Hok Hp). destruct res as [[u|? ?] w']; [|done]. destruct Hr as (H1 & H2 & _). rewrite Hp. done.
Qed.
Lemma commit_call c w res : commit_post R w res → publishes c = true → call_post R c w res.
Proof.
  intros Hr Hp Hok. specialize (Hok Hp). destruct res as [[u|? ?] w']; [|done]. destruct Hr as (H1 & _ & H2 & _). rewrite Hp. done.
Qed.

(** Calls that work on rows and scans keep to the top overlay. *)
Definition row_call (c : Call) : bool :=
  match c with
  | CBegin | CBeginImplicit | CCommit | CCommitIfImplicit | CAbort | CAbortIfImplicit | CSubBegin | CSubCommit | CSubAbort => false
  | _ => true
  end.

Lemma row_call_keeps c w : row_call c = true → SInv R w → allowed c w → row_post w (exec c w).2.
Proof.
  intros Hc Hw Ha. destruct c as [relid input check m rec|relid packed input check hot m|relid packed input key m|relid packed rec
    |relid packed natts|relid curcid|handle forward natts|handle forward natts n|handle|handle packed|handle| | | | | | | | | | | | | |
    | | | | | | | | |]; try done; cbn [exec]; cbn in Ha.
  - eapply (triple_post w (sees (seen w))); [done|by intros ??|]. by apply triple_insert.
  - destruct (unpack packed) as [t|] eqn:Et.
    + eapply (triple_post w (λ w', sees (seen w) w' ∧ (False → settled w' relid t))); [done|by split|]. by apply triple_update.
    + apply session_post; [done|]. unfold relation_update_impl. by rewrite Et.
  - destruct (unpack packed) as [t|] eqn:Et.
    + eapply (triple_post w (λ w', sees (seen w) w' ∧ (False → settled w' relid t))); [done|by split|]. by apply triple_update_preserved.
    + apply session_post; [done|]. unfold relation_update_hot_if_single_byval_preserved_impl. by rewrite Et.
  - destruct (unpack packed) as [t|] eqn:Et.
    + eapply (triple_post w (λ w', sees (seen w) w' ∧ settled w' relid t)); [done|split; [by intros ??|by apply Ha]|]. by apply triple_delete.
    + apply session_post; [done|]. unfold relation_delete_impl. by rewrite Et.
  - apply calm_post; [done|apply fetch_calm].
  - apply session_post; [done|]. destruct (scan_begin_world relid curcid w) as (-> & -> & ->). done.
  - apply session_post; [done|]. unfold scan_next_impl. repeat case_match; cbn; unfold w_stack, on_session; cbn; by rewrite ?scan_slot_mut_stack.
  - apply session_post; [done|]. unfold scan_next_batch_impl. repeat case_match; cbn; unfold w_stack, on_session; cbn; by rewrite ?scan_slot_mut_stack.
  - apply session_modify; [done|]. intros s. apply scan_slot_mut_stack.
  - apply session_post; [done|]. unfold fastpg_storage2_scan_set_position. repeat case_match; cbn; unfold w_stack, on_session; cbn; by rewrite ?scan_slot_mut_stack.
  - apply session_modify; [done|]. intros s. unfold remove_scan. by repeat case_match.
  - apply calm_post; [done|apply calm_set_max].
  - apply calm_post; [done|apply calm_resolve_tid].
  - apply calm_post; [done|apply calm_resolve_update_tid].
  - apply calm_post; [done|apply calm_record_insert].
  - apply calm_post; [done|apply calm_record_invalidate].
  - apply calm_post; [done|apply calm_record_xmax].
  - apply calm_post; [done|apply calm_key_lookup].
  - apply calm_post; [done|apply calm_key_lookup_single].
  - apply calm_post; [done|apply calm_key_lookup_spec].
  - apply calm_post; [done|apply calm_key_insert].
  - apply calm_post; [done|apply calm_record_key].
  - apply calm_post; [done|apply calm_rebuild].
  - apply calm_post; [done|apply calm_rebuild_spec].
  - apply calm_post; [done|apply calm_index_insert].
Qed.

(** Every call keeps the invariant of its session and minds the others. *)
Lemma call_keeps c w : SInv R w → allowed c w → call_post R c w (exec c w).
Proof.
  intros Hw Ha. destruct (row_call c) eqn:Hc; [by apply row_call_post, row_call_keeps|].
  destruct c; try done; cbn [exec].
  - apply restart_call; [apply xact_begin_spec, Hw|done].
  - destruct (ensure_spec R w Hw) as (G1 & G2 & _). apply quiet_post; [done|]. by split.
  - apply commit_call; [apply commit_explicit_spec, Hw|done].
  - apply restart_call; [apply commit_if_implicit_spec, Hw|done].
  - destruct (abort_explicit_spec R w Hw) as (_ & G1 & _ & G2). by apply quiet_post.
  - pose proof (abort_if_implicit_spec R w Hw) as Hp. cbv zeta in Hp. destruct (explicit_transaction _).
    + rewrite Hp. by apply quiet_post.
    + destruct Hp as (_ & G1 & _ & G2). by apply quiet_post.
  - destruct (subxact_begin_spec R w Hw) as (_ & G1 & G2 & _). by apply quiet_post.
  - destruct (subxact_commit_spec R w Hw) as (_ & G1 & G2 & _). by apply quiet_post.
  - destruct (Nat.ltb_spec 1 (length (w_stack w))) as [Hl|Hl].
    + destruct (subxact_abort_spec R w Hw Hl) as (_ & G1 & G2 & _). by apply quiet_post.
    + unfold fastpg_storage2_subxact_abort. rewrite (proj2 (Nat.ltb_ge _ _)) by done. by apply quiet_post.
Qed.
End calls.

(** ** Sessions over one storage *)

Record Sys := { sy_storage : StorageState; sy_counts : gmap Z Z; sy_sessions : list SessionStorage }.

Definition world (sys : Sys) (s : SessionStorage) : World :=
  {| w_storage := sy_storage sys; w_row_counts := sy_counts sys; w_session := s |}.
Definition after (sys : Sys) (i : nat) (w : World) : Sys :=
  {| sy_storage := w_storage w; sy_counts := w_row_counts w; sy_sessions := <[i := w_session w]> (sy_sessions sys) |}.

(** A call of one session; one that publishes must not run out of blocks. *)
Inductive step : Sys → nat → Call → Sys → Prop :=
  | step_call sys i s c res w' : sy_sessions sys !! i = Some s → allowed c (world sys s) →
      exec c (world sys s) = (res, w') → (publishes c = true → res = Ok tt) → step sys i c (after sys i w').

Definition start (n : nat) : Sys :=
  {| sy_storage := storage_default; sy_counts := ∅; sy_sessions := replicate n session_default |}.

Inductive reachable : Sys → Prop :=
  | reachable_start n : reachable (start n)
  | reachable_step sys i c sys' : reachable sys → step sys i c sys' → reachable sys'.

(** ** The invariant of the system *)

Definition overlays_of (sessions : list SessionStorage) : list TransactionOverlay := sessions ≫= transaction_stack.
Definition others (sys : Sys) (i : nat) : list TransactionOverlay := overlays_of (delete i (sy_sessions sys)).

Record good (sys : Sys) : Prop := {
  g_counted : counted (world sys session_default);
  g_ok : Forall (ov_ok (sy_storage sys)) (overlays_of (sy_sessions sys));
  g_apart : all_apart (overlays_of (sy_sessions sys));
  g_hides : ∀ i s, sy_sessions sys !! i = Some s → hides_ok (world sys s) (transaction_stack s);
}.

Lemma all_apart_perm l k : l ≡ₚ k → all_apart l → all_apart k.
Proof.
  induction 1 as [|o l k Hp IH|o o' l|l k m _ IH1 _ IH2]; simpl; [done| | |tauto].
  - intros [H1 H2]. split; [|by apply IH]. by rewrite <- Hp.
  - rewrite !Forall_cons. intros ([H1 H2] & H3 & H4). split; [split; [by apply apart_sym|done]|done].
Qed.

Lemma overlays_split sessions i s : sessions !! i = Some s →
  overlays_of sessions ≡ₚ transaction_stack s ++ overlays_of (delete i sessions).
Proof. intros Hi. unfold overlays_of. by rewrite (delete_Permutation _ _ _ Hi) at 1. Qed.

Lemma good_SInv sys i s : good sys → sy_sessions sys !! i = Some s → SInv (others sys i) (world sys s).
Proof.
  intros [G1 G2 G3 G4] Hi. pose proof (overlays_split _ _ _ Hi) as Hp. split; [done|..|by eapply G4].
  - unfold others, w_stack. cbn. by rewrite <- Hp.
  - by eapply all_apart_perm.
Qed.

Lemma delete_inserted {A} (l : list A) i x : delete i (<[i := x]> l) = delete i l.
Proof. revert i. induction l as [|y l IH]; intros [|i]; [done..|]. cbn. f_equal. apply IH. Qed.

Lemma SInv_good sys i s w' : good sys → sy_sessions sys !! i = Some s → SInv (others sys i) w' →
  minds (others sys i) (world sys s) w' → good (after sys i w').
Proof.
  intros [G1 G2 G3 G4] Hi [S1 S2 S3 S4] [M1 M2].
  assert (Hp : overlays_of (sy_sessions (after sys i w')) ≡ₚ w_stack w' ++ others sys i).
  { cbn. rewrite (overlays_split _ i (w_session w')); [|apply list_lookup_insert_eq; by eapply lookup_lt_Some].
    unfold others. by rewrite delete_inserted. }
  split; [done|by rewrite Hp| |].
  - by eapply all_apart_perm.
  - cbn. intros j sj Hj. destruct (decide (j = i)) as [->|Hn].
    + rewrite list_lookup_insert_eq in Hj by (by eapply lookup_lt_Some). by simplify_eq.
    + rewrite list_lookup_insert_ne in Hj by done. intros k o relid t Hk Ht. destruct (G4 j sj Hj k o relid t Hk Ht) as [?|?]; [by left|].
      right. by apply M2.
Qed.

Lemma start_good n : good (start n).
Proof.
  assert (E : overlays_of (sy_sessions (start n)) = []).
  { cbn. unfold overlays_of. induction n as [|n IH]; [done|]. cbn. by rewrite IH. }
  split.
  - intros relid. split; [apply relation_default_wf|done].
  - by rewrite E.
  - by rewrite E.
  - intros i s Hs k o relid t Hk. cbn in Hs. apply lookup_replicate in Hs as [-> _]. done.
Qed.

Lemma step_spec sys i c sys' : good sys → step sys i c sys' → good sys' ∧
  ∃ s s', sy_sessions sys !! i = Some s ∧ sy_sessions sys' = <[i := s']> (sy_sessions sys) ∧
    minds (others sys i) (world sys s) (world sys' s') ∧
    (publishes c = false → quiet (claimed (others sys i)) (world sys s) (world sys' s')).
Proof.
  intros Hg Hs. destruct Hs as [sys i s c res w' Hi Ha He Hok].
  pose proof (call_keeps (others sys i) c (world sys s) (good_SInv sys i s Hg Hi) Ha) as Hc. rewrite He in Hc.
  destruct (Hc Hok) as (H1 & H2 & H3). split; [by eapply SInv_good|]. exists s, (w_session w').
  split; [done|]. split; [done|]. by destruct w'.
Qed.

Lemma reachable_good sys : reachable sys → good sys.
Proof. induction 1 as [n|sys i c sys' _ IH Hs]; [apply start_good|]. by eapply step_spec. Qed.
End system.
