(* ===== verification/EngScanProofs.v ===== *)
(** * What a scan returns

    The next candidate of a forward scan is the least one that is left
    ([forward_candidate]); the loop over candidates returns the row of the first
    one that stands for a row, and its bound is enough ([next_visible_spec]).
    From there a whole scan lists the rows that its session sees, in the order
    of their identifiers ([scan_lists]), if no redirects are involved, and a
    batch is as many single steps ([batch_steps]). *)

From Stdlib Require Import ZArith Lia.
From stdpp Require Import base tactics numbers list gmap strings sorting.
From S2P Require Import Prelude RustStd EngTid EngTuple EngTupleProofs EngPage EngPageProofs EngIndex EngRelation EngRelationProofs EngOverlay EngState EngOps EngScan EngInv EngAppend EngCalls EngSession.

Local Open Scope Z_scope.

(** ** The least candidate *)

Definition is_least (P : Tid → Prop) (C : gset Tid) (o : option Tid) : Prop :=
  match o with
  | Some x => x ∈ C ∧ P x ∧ ∀ y, y ∈ C → P y → tid_le x y
  | None => ∀ y, y ∈ C → ¬ P y
  end.

Lemma least_unique P C o o' : is_least P C o → is_least P C o' → o = o'.
Proof.
  destruct o as [x|], o' as [y|]; simpl; [|intros (H1 & H2 & _) H; by destruct (H x)|intros H (H1 & H2 & _); by destruct (H y)|done].
  intros (H1 & H2 & H3) (G1 & G2 & G3). f_equal. apply (anti_symm tid_le); auto.
Qed.

Lemma least_ext P C C' o : (∀ t, t ∈ C ↔ t ∈ C') → is_least P C o → is_least P C' o.
Proof.
  intros E. destruct o as [x|]; simpl.
  - intros (H1 & H2 & H3). split; [by apply E|]. split; [done|]. intros y Hy. apply H3. by apply E.
  - intros H y Hy. apply H. by apply E.
Qed.

Lemma least_merge P C C' o o' : is_least P C o → is_least P C' o' → is_least P (C ∪ C') (merge_opt tid_min o o').
Proof.
  destruct o as [x|], o' as [y|]; simpl.
  - intros (H1 & H2 & H3) (G1 & G2 & G3). unfold tid_min. destruct (tid_leb x y) eqn:E.
    + apply tid_leb_le in E. split; [set_solver|]. split; [done|]. intros z [Hz|Hz]%elem_of_union HP; [by apply H3|]. etrans; [done|by apply G3].
    + apply tid_leb_false in E as [E _]. split; [set_solver|]. split; [done|]. intros z [Hz|Hz]%elem_of_union HP; [|by apply G3]. etrans; [done|by apply H3].
  - intros (H1 & H2 & H3) G. split; [set_solver|]. split; [done|]. intros z [Hz|Hz]%elem_of_union HP; [by apply H3|by destruct (G z Hz)].
  - intros H (G1 & G2 & G3). split; [set_solver|]. split; [done|]. intros z [Hz|Hz]%elem_of_union HP; [by destruct (H z Hz)|by apply G3].
  - intros H G z [Hz|Hz]%elem_of_union; [by apply H|by apply G].
Qed.

Lemma least_one (P : Tid → Prop) t : P t → is_least P {[t]} (Some t).
Proof. intros HP. split; [set_solver|]. split; [done|]. by intros y ->%elem_of_singleton. Qed.

Lemma least_range start f (s : gset Tid) : is_least (λ t, tid_le start t ∧ f t = true) s (range_from_find start f s).
Proof.
  unfold range_from_find, tid_iter. destruct (List.find _ _) as [x|] eqn:E; simpl.
  - apply (find_sorted tid_le) in E as (H1 & [H2%tid_leb_le H3]%andb_true_iff & H4); [|apply btree_iter_sorted; apply _].
    rewrite btree_iter_elem in H1. split; [done|]. split; [done|]. intros y Hy [G1 G2].
    destruct (H4 y) as [->|?]; [by rewrite btree_iter_elem|by rewrite (proj2 (tid_leb_le _ _) G1), G2|done|done].
  - intros y Hy [G1 G2]. rewrite <- (btree_iter_elem tid_le) in Hy. apply (find_none _ _ E) in Hy.
    by rewrite (proj2 (tid_leb_le _ _) G1), G2 in Hy.
Qed.

Lemma least_fold (P : Tid → Prop) (skip : Tid → bool) (l : list Tid) C o : (∀ t, skip t = false ↔ P t) → is_least P C o →
  is_least P (C ∪ list_to_set l) (foldl (λ o t, if skip t then o else merge_opt tid_min o (Some t)) o l).
Proof.
  intros Hs. revert C o. induction l as [|t l IH]; intros C o Ho; cbn [foldl].
  { eapply least_ext; [|exact Ho]. set_solver. }
  assert (H1 : is_least P (C ∪ {[t]}) (if skip t then o else merge_opt tid_min o (Some t))).
  { destruct (skip t) eqn:E.
    - assert (Hn : ¬ P t) by (rewrite <- Hs; by rewrite E). destruct o as [x|]; simpl in *.
      + destruct Ho as (H1 & H2 & H3). split; [set_solver|]. split; [done|]. intros y [Hy| ->%elem_of_singleton]%elem_of_union HP; [by apply H3|done].
      + intros y [Hy| ->%elem_of_singleton]%elem_of_union; [by apply Ho|done].
    - apply least_merge; [done|]. apply least_one. by apply Hs. }
  specialize (IH _ _ H1). eapply least_ext; [|exact IH]. set_solver.
Qed.

(** ** The rows that are left *)

Definition ahead (high_water : list Z) (c : ScanCursor) (t : Tid) : Prop :=
  tid_le (cursor_tid c) t ∧ tid_beyond_high_water t high_water = false.
#[global] Instance ahead_dec high_water c t : Decision (ahead high_water c t) := _.

Definition todo (C : gset Tid) (high_water : list Z) (c : ScanCursor) : list Tid :=
  filter (ahead high_water c) (tid_iter C).

Lemma sorted_filter {A} (R : relation A) (P : A → Prop) `{∀ a, Decision (P a)} l : StronglySorted R l → StronglySorted R (filter P l).
Proof.
  induction 1 as [|a l Hs IH Hf]; [constructor|]. rewrite filter_cons. case_decide; [|done]. constructor; [done|].
  rewrite Forall_forall in *. intros x [_ Hx]%list_elem_of_filter. by apply Hf.
Qed.

Lemma head_least (P : Tid → Prop) `{∀ t, Decision (P t)} (C : gset Tid) : is_least P C (head (filter P (tid_iter C))).
Proof.
  unfold tid_iter. pose proof (btree_iter_sorted tid_le C) as Hs.
  assert (Hin : ∀ t, t ∈ btree_iter tid_le C ↔ t ∈ C) by apply btree_iter_elem.
  destruct (filter P (btree_iter tid_le C)) as [|x l] eqn:E; simpl.
  - intros y Hy HP. apply Hin in Hy. assert (Hf : y ∈ filter P (btree_iter tid_le C)) by (by apply list_elem_of_filter).
    rewrite E in Hf. by apply not_elem_of_nil in Hf.
  - assert (Hx : x ∈ filter P (btree_iter tid_le C)) by (rewrite E; left). apply list_elem_of_filter in Hx as [H1 H2].
    split; [by apply Hin|]. split; [done|]. intros y Hy HP.
    assert (Hf : y ∈ filter P (btree_iter tid_le C)) by (apply list_elem_of_filter; split; [done|by apply Hin]).
    assert (Hsf : StronglySorted tid_le (filter P (btree_iter tid_le C))) by (by apply sorted_filter).
    rewrite E in Hf, Hsf. apply StronglySorted_inv in Hsf as [_ Hall]. apply elem_of_cons in Hf as [->|Hf]; [done|].
    by apply (proj1 (Forall_forall _ _) Hall).
Qed.

Lemma filter_all {A} (P : A → Prop) `{∀ a, Decision (P a)} l : Forall P l → filter P l = l.
Proof. induction 1 as [|a l Ha _ IH]; [done|]. rewrite filter_cons, decide_True by done. by rewrite IH. Qed.

Lemma cursor_after_ge t : tid_wf t → tid_block t < U32_MAX → tid_le t (cursor_tid (cursor_after t)).
Proof.
  destruct t as [b o]. unfold cursor_after, checked_add, saturating_add, cursor_tid. rewrite tid_le_alt. cbn. intros _ Hb.
  destruct (o + 1 <=? U16_MAX); cbn; lia.
Qed.

(** The step of the scan over the remaining rows. *)
Lemma todo_next C high_water c t l : (∀ x, x ∈ C → tid_beyond_high_water x high_water = false → tid_wf x ∧ 0 < tid_offset x ∧ tid_block x < U32_MAX) →
  todo C high_water c = t :: l → todo C high_water (cursor_after t) = l.
Proof.
  intros Hwf E. assert (Hs : StronglySorted tid_le (t :: l)).
  { rewrite <- E. apply sorted_filter, btree_iter_sorted; apply _. }
  assert (Hn : NoDup (t :: l)) by (rewrite <- E; apply NoDup_filter, btree_iter_NoDup).
  assert (Hin : ∀ x, x ∈ t :: l → ahead high_water c x ∧ tid_wf x ∧ 0 < tid_offset x ∧ tid_block x < U32_MAX).
  { intros x. rewrite <- E. unfold todo. intros [Ha Hx]%list_elem_of_filter. split; [done|]. unfold tid_iter in Hx.
    rewrite btree_iter_elem in Hx. apply Hwf; [done|apply Ha]. }
  destruct (Hin t ltac:(by left)) as (Ht & Hw & Ho & Hb).
  assert (Hafter : ∀ x, tid_wf x → 0 < tid_offset x → tid_le (cursor_tid (cursor_after t)) x ↔ tid_le t x ∧ t ≠ x).
  { intros x Hx1 Hx2. by apply cursor_after_spec. }
  transitivity (filter (ahead high_water (cursor_after t)) (t :: l)).
  - rewrite <- E. unfold todo. symmetry. apply list_filter_filter_l. intros x [H1 H2]. split; [|done].
    etrans; [apply Ht|]. etrans; [by apply cursor_after_ge|done].
  - rewrite filter_cons, decide_False by (by intros [[_ ?]%Hafter _]). apply filter_all.
    apply StronglySorted_inv in Hs as [_ Hs]. apply NoDup_cons in Hn as [Hnt _]. rewrite Forall_forall in *. intros x Hx.
    destruct (Hin x ltac:(by right)) as (Hx1 & Hx2 & Hx3 & _). split; [|apply Hx1]. apply Hafter; [done..|].
    split; [by apply Hs|]. by intros ->.
Qed.

(** A position that a scan can be at. *)
Definition cursor_wf (c : ScanCursor) : Prop := 0 <= cur_block c ∧ 1 <= cur_offset c.

Lemma cursor_after_wf t : tid_wf t → cursor_wf (cursor_after t).
Proof.
  destruct t as [b o]. unfold cursor_wf, cursor_after, checked_add, saturating_add, tid_wf, is_u32. cbn. intros [Hb Ho]. pow2.
  destruct (o + 1 <=? U16_MAX); cbn; unfold U32_MAX; lia.
Qed.

Definition sound_candidates (C : gset Tid) (high_water : list Z) : Prop :=
  ∀ t, t ∈ C → tid_beyond_high_water t high_water = false → tid_wf t ∧ 0 < tid_offset t ∧ tid_block t < U32_MAX.

Lemma loop_spec C high_water candidate skip row fuel c : sound_candidates C high_water → cursor_wf c →
  (∀ c, cursor_wf c → candidate c = head (todo C high_water c)) → (length (todo C high_water c) < fuel)%nat →
  next_visible_loop candidate skip row true fuel c = Ok (find_map (λ t, if skip t then None else row t) (todo C high_water c)).
Proof.
  intros HC Hc Hcand. revert c Hc. induction fuel as [|fuel IH]; intros c Hc Hl; [lia|]. cbn [next_visible_loop]. rewrite Hcand by done.
  destruct (todo C high_water c) as [|t l] eqn:E; [done|]. cbn [head mbind option_bind find_map].
  assert (Ht : t ∈ todo C high_water c) by (rewrite E; by left). apply list_elem_of_filter in Ht as [[_ Hw] Ht].
  unfold tid_iter in Ht. rewrite btree_iter_elem in Ht. destruct (HC t Ht Hw) as (Hwf & _).
  assert (Hrest : next_visible_loop candidate skip row true fuel (cursor_after t) = Ok (find_map (λ t, if skip t then None else row t) l)).
  { rewrite IH; [by rewrite (todo_next C high_water c t l)|by apply cursor_after_wf|]. rewrite (todo_next C high_water c t l HC E). cbn in Hl. lia. }
  unfold advance. destruct (skip t); [done|]. by destruct (row t).
Qed.

Definition candidates (st : StorageState) (overlays : list TransactionOverlay) (relid : Z) : gset Tid :=
  match relations st !! relid with Some r => live_tids r ∪ hot_redirect_roots r | None => ∅ end
  ∪ list_to_set (overlay_candidates overlays relid).

Lemma ended_todo C high_water c : cursor_wf c → len high_water <= cur_block c → todo C high_water c = [].
Proof.
  intros [Hb _] Hl. destruct (todo C high_water c) as [|t l] eqn:E; [done|]. assert (Ht : t ∈ todo C high_water c) by (rewrite E; by left).
  apply list_elem_of_filter in Ht as [[H1 H2] _]. rewrite tid_le_alt in H1. cbn in H1.
  unfold tid_beyond_high_water in H2. rewrite lookup_ge_None_2 in H2; [done|]. unfold len in *. lia.
Qed.

Lemma forward_candidate st overlays relid high_water c : cursor_wf c →
  next_forward_candidate_tid_in_overlays st overlays relid c high_water = head (todo (candidates st overlays relid) high_water c).
Proof.
  intros Hc. unfold next_forward_candidate_tid_in_overlays, forward_ended.
  rewrite (proj2 (Z.eqb_neq _ _)) by (destruct Hc; lia). cbn [orb]. destruct (Z.leb_spec (len high_water) (cur_block c)) as [Hl|Hl].
  { by rewrite ended_todo. }
  apply (least_unique (ahead high_water c) (candidates st overlays relid)); [|apply (head_least (ahead high_water c))].
  unfold candidates. apply least_fold.
  - intros t. rewrite orb_false_iff, tid_ltb_false. done.
  - assert (Hr : ∀ s, is_least (ahead high_water c) s (range_from_find (cursor_tid c) (λ t, negb (tid_beyond_high_water t high_water)) s)).
    { intros s. pose proof (least_range (cursor_tid c) (λ t, negb (tid_beyond_high_water t high_water)) s) as Hx.
      destruct (range_from_find _ _ _); simpl in *; setoid_rewrite negb_true_iff in Hx; exact Hx. }
    destruct (relations st !! relid) as [r|]; cbn; [|done]. by apply least_merge.
Qed.

Lemma todo_length C high_water c : (length (todo C high_water c) ≤ size C)%nat.
Proof.
  unfold todo. etrans; [apply length_filter|]. unfold tid_iter, btree_iter. rewrite merge_sort_Permutation. done.
Qed.

Lemma union_size (X Y : gset Tid) : (size (X ∪ Y) ≤ size X + size Y)%nat.
Proof. rewrite size_union_alt. assert (size (Y ∖ X) ≤ size Y)%nat by (apply subseteq_size; set_solver). lia. Qed.
Lemma list_set_size (l : list Tid) : (size (list_to_set l : gset Tid) ≤ length l)%nat.
Proof.
  induction l as [|t l IH]; [done|]. cbn [list_to_set length]. pose proof (union_size {[t]} (list_to_set l)) as Hu. rewrite size_singleton in Hu.
  lia.
Qed.

(** The next row of a forward scan is that of the first candidate that stands for one. *)
Lemma next_visible_spec st overlays relid c high_water curcid : cursor_wf c → sound_candidates (candidates st overlays relid) high_water →
  next_visible_tuple_slice_in_overlays st overlays relid c high_water true curcid =
  Ok (find_map (λ t, if is_redirect_target st overlays relid t then None else candidate_row st overlays relid high_water curcid t)
    (todo (candidates st overlays relid) high_water c)).
Proof.
  intros Hc HC. unfold next_visible_tuple_slice_in_overlays. apply loop_spec; [done..|intros; by apply forward_candidate|].
  pose proof (todo_length (candidates st overlays relid) high_water c) as Hl.
  assert (size (candidates st overlays relid) < scan_fuel st overlays relid)%nat; [|lia].
  unfold candidates, scan_fuel. destruct (relations st !! relid) as [r|].
  - pose proof (union_size (live_tids r ∪ hot_redirect_roots r) (list_to_set (overlay_candidates overlays relid))).
    pose proof (union_size (live_tids r) (hot_redirect_roots r)). pose proof (list_set_size (overlay_candidates overlays relid)). lia.
  - pose proof (union_size (∅ : gset Tid) (list_to_set (overlay_candidates overlays relid))).
    pose proof (list_set_size (overlay_candidates overlays relid)). rewrite size_empty in *. lia.
Qed.

(** ** A whole scan *)

Lemma todo_split C high_water c pre t post : sound_candidates C high_water →
  todo C high_water c = pre ++ t :: post → todo C high_water (cursor_after t) = post.
Proof.
  intros HC. revert c. induction pre as [|p pre IH]; intros c E; [by apply (todo_next C high_water c)|].
  apply (IH (cursor_after p)). by apply (todo_next C high_water c).
Qed.

Lemma find_map_some {A B} (f : A → option B) l b : find_map f l = Some b →
  ∃ pre a post, l = pre ++ a :: post ∧ f a = Some b ∧ omap f l = b :: omap f post.
Proof.
  induction l as [|a l IH]; [done|]. cbn. destruct (f a) as [b'|] eqn:E.
  - intros [= ->]. by exists [], a, l.
  - intros (pre & a' & post & -> & H1 & H2)%IH. by exists (a :: pre), a', post.
Qed.
Lemma find_map_none {A B} (f : A → option B) l : find_map f l = None → omap f l = [].
Proof. induction l as [|a l IH]; [done|]. cbn. destruct (f a); [done|]. apply IH. Qed.

Lemma find_map_ext {A B} (f g : A → option B) l : (∀ a, f a = g a) → find_map f l = find_map g l.
Proof. intros E. induction l as [|a l IH]; [done|]. cbn. by rewrite E, IH. Qed.

(** The calls of a scan up to the one that finds no row, with what each hands
    out. *)
Fixpoint scan_all `{Target} (n : nat) (handle : Z) (forward : bool) (natts : Z) : M World (list (VisibleTupleSlice * Tid)) :=
  match n with
  | O => mret []
  | S n =>
    found ← scan_next_impl handle forward natts;
    match found with
    | None => mret []
    | Some step => steps ← scan_all n handle forward natts; mret (step :: steps)
    end
  end.

Lemma scan_slot_mut_slot handle f s scan : scan_slot handle s = Some scan → scan_slot handle (scan_slot_mut handle f s) = Some (f scan).
Proof.
  unfold scan_slot, scan_slot_mut. destruct (checked_sub handle 1) as [i|]; [|done]. cbn. rewrite list_lookup_alter_eq.
  destruct (scans s !! Z.to_nat i) as [[x|]|]; [|done..]. cbn. by intros [= ->].
Qed.

Lemma scan_all_spec `{Target} st overlays C g natts n handle scan w :
  sound_candidates C (high_water_offsets scan) →
  (∀ c, cursor_wf c → scan_row st overlays scan true c = Ok (find_map g (todo C (high_water_offsets scan) c))) →
  (∀ t v, g t = Some v → vs_cursor_tid v = t ∧ copies natts (vs_tuple v) = true) →
  w_storage w = st → w_stack w = overlays → scan_slot handle (w_session w) = Some scan → forward_exhausted scan = false →
  cursor_wf (forward_cursor scan) → (length (todo C (high_water_offsets scan) (forward_cursor scan)) < n)%nat →
  ∃ steps, (scan_all n handle true natts w).1 = Ok steps ∧ steps.*1 = omap g (todo C (high_water_offsets scan) (forward_cursor scan)).
Proof.
  intros HC Hrow Hg. revert scan w HC Hrow. induction n as [|n IH]; intros scan w HC Hrow E1 E2 E3 He Hc Hl; [lia|]. cbn [scan_all].
  unfold mbind, M_bind. unfold scan_next_impl at 1. rewrite E3. unfold exhausted_in, cursor_in. rewrite He, E1, E2, Hrow by done.
  destruct (find_map g _) as [v|] eqn:Ef; [|exists []; by rewrite (find_map_none _ _ Ef)].
  apply find_map_some in Ef as (pre & t & post & Et & Hv & ->). destruct (Hg t v Hv) as [Hcur Hcopy]. rewrite Hcopy.
  pose proof (todo_split _ _ _ _ _ _ HC Et) as Et'. set (w' := on_session (scan_slot_mut handle (pass_row true (vs_cursor_tid v))) w).
  assert (Hwf : tid_wf t).
  { assert (Ht : t ∈ todo C (high_water_offsets scan) (forward_cursor scan)) by (rewrite Et; apply elem_of_app; right; by left).
    apply list_elem_of_filter in Ht as [[_ Hw] Ht]. unfold tid_iter in Ht. rewrite btree_iter_elem in Ht. by apply (HC t). }
  assert (Hnext : ∃ steps, (scan_all n handle true natts w').1 = Ok steps ∧ steps.*1 = omap g post).
  { rewrite <- Et', <- Hcur. apply (IH (pass_row true (vs_cursor_tid v) scan) w'); try done.
    - unfold w', w_stack, on_session. cbn. unfold scan_slot_mut. by destruct (checked_sub handle 1).
    - by apply scan_slot_mut_slot.
    - cbn. rewrite Hcur. by apply cursor_after_wf.
    - cbn [pass_row move_cursors high_water_offsets forward_cursor]. rewrite Hcur, Et'. rewrite Et, length_app in Hl. cbn in Hl. lia. }
  destruct Hnext as (steps & Hnext & <-).
  destruct (negb (scan_has_visibility_deltas scan)); fold w'; cbn [fst]; destruct (scan_all n handle true natts w') as [res w''];
    cbn in Hnext; subst res; by eexists.
Qed.

(** ** Where a scan begins *)

Lemma begin_scan_slot scan w : ∃ handle w', begin_scan scan w = (Some handle, w') ∧ scan_slot handle (w_session w') = Some scan ∧
  w_storage w' = w_storage w ∧ w_stack w' = w_stack w.
Proof.
  unfold begin_scan, allocate_scan_handle. destruct (list_find _ (scans (w_session w))) as [[i x]|] eqn:E.
  - apply list_find_Some in E as (Hi & _). unfold insert_scan, checked_sub. rewrite (proj2 (Z.leb_le _ _)) by lia.
    replace (Z.to_nat (Z.of_nat i + 1 - 1)) with i by lia. rewrite Hi. eexists _, _. split; [done|]. split; [|done].
    unfold scan_slot, checked_sub. rewrite (proj2 (Z.leb_le _ _)) by lia. cbn. replace (Z.to_nat (Z.of_nat i + 1 - 1)) with i by lia.
    rewrite list_lookup_insert_eq by (by eapply lookup_lt_Some). done.
  - cbn [scans set_scans]. set (h := len (scans (w_session w) ++ [None])).
    assert (Hh : 1 <= h ∧ Z.to_nat (h - 1) = length (scans (w_session w))) by (unfold h, len; rewrite length_app; cbn; lia).
    destruct Hh as [H1 H2]. unfold insert_scan, checked_sub. rewrite (proj2 (Z.leb_le _ _)) by lia. cbn [scans set_scans].
    rewrite H2, lookup_app_r, Nat.sub_diag by lia. cbn. eexists _, _. split; [done|]. split; [|done].
    unfold scan_slot, checked_sub. rewrite (proj2 (Z.leb_le _ _)) by lia. cbn. rewrite H2.
    rewrite list_lookup_insert_eq; [done|]. rewrite length_app. cbn. lia.
Qed.

(** The positions covered by the offsets grow. *)
Definition covers (high_water : list Z) (t : Tid) : Prop := tid_beyond_high_water t high_water = false.

Lemma covers_alt high_water t : covers high_water t ↔ ∃ m, high_water !! Z.to_nat (tid_block t) = Some m ∧ tid_offset t <= m.
Proof.
  unfold covers, tid_beyond_high_water. destruct (high_water !! Z.to_nat (tid_block t)) as [m|]; [|by split; [|intros (? & ? & _)]].
  rewrite Z.ltb_ge. split; [by exists m|]. by intros (? & [= ->] & ?).
Qed.

Lemma covers_page_mono high_water p t : covers high_water t → covers (extend_high_water_page high_water p) t.
Proof.
  rewrite !covers_alt. intros (m & Hm & Ho). unfold extend_high_water_page. set (b := Z.to_nat (pg_block p)).
  assert (Hr : resize_to (S b) 0 high_water !! Z.to_nat (tid_block t) = Some m).
  { rewrite resize_to_lookup, decide_False; [done|]. apply lookup_lt_Some in Hm. lia. }
  destruct (try_from _ _) as [o|]; [|by exists m]. destruct (decide (b = Z.to_nat (tid_block t))) as [->|Hn].
  - rewrite list_lookup_alter_eq, Hr. cbn. eexists. split; [done|]. lia.
  - rewrite list_lookup_alter_ne by done. by exists m.
Qed.

Lemma covers_page_own high_water p t : page_wf p → pg_block p = tid_block t → tid_offset t <= len (line_pointers p) →
  covers (extend_high_water_page high_water p) t.
Proof.
  intros Hp Hb Ho. rewrite covers_alt. unfold extend_high_water_page. rewrite Hb. set (b := Z.to_nat (tid_block t)).
  pose proof (pwf_count _ Hp) as Hc. unfold try_from. rewrite (proj2 (Z.leb_le _ _)) by (unfold MAX_CTID_OFFSET, U16_MAX in *; lia).
  rewrite list_lookup_alter_eq, resize_to_lookup. destruct (decide _) as [Hd|Hd]; cbn.
  - eexists. split; [done|]. lia.
  - destruct (lookup_lt_is_Some_2 high_water b) as [m ->]; [unfold b in *; lia|]. cbn. eexists. split; [done|]. lia.
Qed.

Lemma covers_pages_mono ps high_water t : covers high_water t → covers (foldl extend_high_water_page high_water ps) t.
Proof. revert high_water. induction ps as [|p ps IH]; intros hw Hc; [done|]. cbn. by apply IH, covers_page_mono. Qed.
Lemma covers_pages_own ps high_water t p : p ∈ ps → page_wf p → pg_block p = tid_block t → tid_offset t <= len (line_pointers p) →
  covers (foldl extend_high_water_page high_water ps) t.
Proof.
  intros Hin Hp Hb Ho. revert high_water. induction Hin as [p ps|p q ps _ IH]; intros hw; cbn.
  - by apply covers_pages_mono, covers_page_own.
  - by apply IH.
Qed.

Lemma covers_stack_mono ovs relid high_water t : covers high_water t →
  covers (foldl (λ offsets o, extend_high_water_offsets relid o offsets) high_water ovs) t.
Proof. revert high_water. induction ovs as [|o ovs IH]; intros hw Hc; [done|]. cbn. apply IH. by apply covers_pages_mono. Qed.
Lemma covers_stack_own ovs relid high_water t o p : o ∈ ovs → p ∈ ppages relid o → page_wf p → pg_block p = tid_block t →
  tid_offset t <= len (line_pointers p) → covers (foldl (λ offsets o, extend_high_water_offsets relid o offsets) high_water ovs) t.
Proof.
  intros Ho Hin Hp Hb Hof. revert high_water. induction Ho as [o ovs|o o' ovs _ IH]; intros hw; cbn.
  - apply covers_stack_mono. unfold extend_high_water_offsets. by apply (covers_pages_own _ _ _ p).
  - by apply IH.
Qed.

Lemma relation_covers r t row : rel_wf r → rows r t = Some row → covers (relation_high_water r) t.
Proof.
  intros Hr Ht. rewrite rows_page in Ht. apply bind_Some in Ht as (p & Hp & Hrow). pose proof (block_nonneg _ _ _ Hp) as Hb.
  destruct (page_wf_of _ _ _ Hr Hb Hp) as [_ Hw]. destruct row as [st b]. apply (page_row_some p Hw) in Hrow as (l & Hl & _).
  apply page_line_bound in Hl. apply covers_alt. unfold relation_high_water. rewrite list_lookup_fmap, (page_lookup _ _ _ Hp). cbn.
  pose proof (pwf_count _ Hw). unfold try_from. rewrite (proj2 (Z.leb_le _ _)) by (unfold MAX_CTID_OFFSET, U16_MAX in *; lia).
  eexists. split; [done|]. cbn. lia.
Qed.

Section session_scan.
Context (R : list TransactionOverlay) (w : World) (relid : Z) (Hw : SInv R w).

(** The offsets that a scan begins with. *)
Definition start_offsets : list Z :=
  extend_by_stack (w_session w) relid (match relations (w_storage w) !! relid with Some r => relation_high_water r | None => [] end).

Lemma row_relation t row : rows (rel w relid) t = Some row → ∃ r, relations (w_storage w) !! relid = Some r ∧ rel w relid = r.
Proof.
  unfold rel, relation_of. destruct (relations (w_storage w) !! relid) as [r|]; [eauto|].
  unfold rows, page. cbn. by destruct (0 <=? tid_block t); [destruct (Z.to_nat (tid_block t))|].
Qed.

Lemma row_covered t row : rows (rel w relid) t = Some row → covers start_offsets t.
Proof.
  intros Ht. destruct (row_relation t row Ht) as (r & Hr & E). unfold start_offsets. rewrite Hr. apply covers_stack_mono.
  rewrite E in Ht. apply (relation_covers r t row); [|done]. rewrite <- E. apply (si_counted _ _ Hw).
Qed.

Lemma pending_covered o t row : o ∈ w_stack w → prow o relid t = Some row →
  covers start_offsets t ∧ tid_wf t ∧ 0 < tid_offset t ∧ tid_block t < U32_MAX.
Proof.
  intros Ho Hrow. pose proof (si_ok _ _ Hw) as Hok. apply Forall_app in Hok as [Hok _]. pose proof (proj1 (Forall_forall _ _) Hok o Ho) as Hov.
  unfold prow in Hrow. apply bind_Some in Hrow as (p & Hp & Hrow). apply ppage_elem in Hp as [Hin Hb]; [|apply (ok_blocks _ _ Hov)].
  destruct (ok_pages _ _ Hov relid p Hin) as (Hpw & _ & Hnext & _). destruct row as [s b].
  apply (page_row_some p Hpw) in Hrow as (l & Hl & _). apply page_line_bound in Hl.
  pose proof (pwf_count _ Hpw) as Hc. pose proof (pwf_block _ Hpw) as Hu. destruct (si_counted _ _ Hw relid) as [Hwf _].
  apply rwf_next in Hwf. unfold rel in Hwf. split; [|split; [|lia]].
  - apply (covers_stack_own _ _ _ _ o p); [done..|lia].
  - split; [by rewrite <- Hb|]. unfold MAX_CTID_OFFSET in Hc. pow2. lia.
Qed.

Lemma row_sound t row : rows (rel w relid) t = Some row → tid_wf t ∧ 0 < tid_offset t ∧ tid_block t < U32_MAX.
Proof.
  intros Ht. destruct (si_counted _ _ Hw relid) as [Hwf _]. destruct (rows_tid_wf _ _ _ Hwf Ht) as [H1 H2]. split; [done|]. split; [lia|].
  apply rows_block in Ht as [H3 [p Hp]]. apply (page_bound _ _ _ Hwf H3) in Hp. pose proof (rwf_next _ Hwf). lia.
Qed.

(** ** Scans of committed rows *)

Definition plain (t : Tid) (tuple : list Z) : VisibleTupleSlice := {| vs_cursor_tid := t; vs_output_tid := t; vs_tuple := tuple |}.

Lemma committed_step r c : relations (w_storage w) !! relid = Some r → cursor_wf c →
  next_committed_tuple_slice (w_storage w) relid c start_offsets true =
  find_map (λ t, plain t <$> shown false (rows r t)) (todo (live_tids r) start_offsets c).
Proof.
  intros Hr Hc. assert (E : rel w relid = r) by (unfold rel, relation_of; by rewrite Hr). destruct (si_counted _ _ Hw relid) as [Hwf _].
  rewrite E in Hwf. unfold next_committed_tuple_slice, forward_ended. rewrite Hr. cbn [mbind option_bind].
  rewrite (proj2 (Z.eqb_neq _ _)) by (destruct Hc; lia). cbn [orb]. destruct (Z.leb_spec (len start_offsets) (cur_block c)) as [Hl|Hl].
  { by rewrite ended_todo. }
  assert (Hfirst : range_from_find (mkTid (cur_block c) (cur_offset c)) (λ _, true) (live_tids r) = head (todo (live_tids r) start_offsets c)).
  { apply (least_unique (ahead start_offsets c) (live_tids r)); [|apply (head_least (ahead start_offsets c))].
    pose proof (least_range (cursor_tid c) (λ _, true) (live_tids r)) as Hx. change (mkTid (cur_block c) (cur_offset c)) with (cursor_tid c).
    assert (Hcov : ∀ t, t ∈ live_tids r → covers start_offsets t).
    { intros t [b Hb]%(rwf_live _ Hwf). eapply row_covered. by rewrite E. }
    destruct (range_from_find _ _ _) as [x|]; simpl in *.
    - destruct Hx as (H1 & [H2 _] & H3). split; [done|]. split; [split; [done|by apply Hcov]|]. intros y Hy [Hy1 _]. by apply H3.
    - intros y Hy [Hy1 _]. by apply (Hx y). }
  rewrite Hfirst. destruct (todo (live_tids r) start_offsets c) as [|t l] eqn:Et; [done|]. cbn.
  assert (Ht : t ∈ todo (live_tids r) start_offsets c) by (rewrite Et; by left). apply list_elem_of_filter in Ht as [[_ Hcov] Ht].
  unfold tid_iter in Ht. rewrite btree_iter_elem in Ht. apply (rwf_live _ Hwf) in Ht as [b Hb].
  rewrite Hcov, rel_tuple_slice_rows, Hb. done.
Qed.

Lemma live_sound r : relations (w_storage w) !! relid = Some r → sound_candidates (live_tids r) start_offsets.
Proof.
  intros Hr t Ht _. assert (E : rel w relid = r) by (unfold rel, relation_of; by rewrite Hr). destruct (si_counted _ _ Hw relid) as [Hwf _].
  rewrite E in Hwf. apply (rwf_live _ Hwf) in Ht as [b Hb]. eapply row_sound. by rewrite E.
Qed.

Lemma committed_row_step c : cursor_wf c →
  next_committed_tuple_slice (w_storage w) relid c start_offsets true =
  find_map (λ t, plain t <$> committed w relid t) (todo (live_tids (rel w relid)) start_offsets c).
Proof.
  intros Hc. unfold committed. destruct (relations (w_storage w) !! relid) as [r|] eqn:Hr.
  - rewrite (committed_step r c Hr Hc). unfold rel, relation_of. by rewrite Hr.
  - unfold next_committed_tuple_slice, rel, relation_of. rewrite Hr. cbn. unfold todo, tid_iter. by rewrite btree_iter_empty.
Qed.

Lemma committed_sound : sound_candidates (live_tids (rel w relid)) start_offsets.
Proof.
  destruct (relations (w_storage w) !! relid) as [r|] eqn:Hr; [|intros t; unfold rel, relation_of; rewrite Hr; set_solver].
  assert (rel w relid = r) as -> by (unfold rel, relation_of; by rewrite Hr). by apply live_sound.
Qed.

(** ** Scans of a transaction *)

(** No redirect leads from or to a row of the relation that the session can see. *)
Definition no_redirects : Prop :=
  hot_redirect_roots (rel w relid) = ∅ ∧
  ∀ t, t ∈ candidates (w_storage w) (w_stack w) relid → is_redirect_target (w_storage w) (w_stack w) relid t = false ∧ settled w relid t.

Lemma candidates_alt t : no_redirects → t ∈ candidates (w_storage w) (w_stack w) relid ↔ t ∈ live_tids (rel w relid) ∨ owned (w_stack w) relid t.
Proof.
  intros [Hr _]. unfold candidates, owned. rewrite elem_of_union, elem_of_list_to_set. unfold overlay_candidates.
  assert (E : t ∈ concat ((λ o, tids_of relid (inserted_tids o)) <$> w_stack w) ↔ Exists (λ o, claims_tid o relid t) (w_stack w)).
  { induction (w_stack w) as [|o l IH]; cbn; [by rewrite Exists_nil, elem_of_nil|]. rewrite elem_of_app, Exists_cons, IH. done. }
  rewrite E. unfold rel, relation_of in *. destruct (relations (w_storage w) !! relid) as [r|]; cbn in *; [|set_solver].
  rewrite Hr. set_solver.
Qed.

Lemma owned_row t : owned (w_stack w) relid t → (∃ o row, o ∈ w_stack w ∧ prow o relid t = Some row) ∨ ∃ b, rows (rel w relid) t = Some (LPending, b).
Proof.
  intros (o & Ho & Ht)%owned_elem. pose proof (si_ok _ _ Hw) as Hok. apply Forall_app in Hok as [Hok _].
  destruct (ok_tids _ _ (proj1 (Forall_forall _ _) Hok o Ho) _ _ Ht) as [[row Hr]|?]; [left|by right]. by exists o, row.
Qed.

Lemma candidate_covered t : no_redirects → t ∈ candidates (w_storage w) (w_stack w) relid →
  covers start_offsets t ∧ tid_wf t ∧ 0 < tid_offset t ∧ tid_block t < U32_MAX.
Proof.
  intros Hn [Hl|[(o & row & Ho & Hrow)|[b Hb]]%owned_row]%candidates_alt; [| | |done].
  - destruct (si_counted _ _ Hw relid) as [Hwf _]. apply (rwf_live _ Hwf) in Hl as [b Hb]. split; [by eapply row_covered|by eapply row_sound].
  - by apply (pending_covered o t row).
  - split; [by eapply row_covered|by eapply row_sound].
Qed.

(** What the session sees of the relation, as of a command if one is given. *)
Definition seen_at (curcid : option Z) (t : Tid) : option (list Z) := physical_visible (w_storage w) (w_stack w) relid t curcid.

Lemma own_before_owned curcid t : overlays_own_inserted_tid_before (w_stack w) relid t curcid = true → owned (w_stack w) relid t.
Proof.
  unfold overlays_own_inserted_tid_before, overlay_inserted_cid. destruct (find_map _ _) as [cid|] eqn:E; [|done]. intros _.
  apply find_map_some in E as (pre & o & post & Ho & Hi & _). apply owned_elem. exists o.
  split; [apply elem_of_reverse; rewrite Ho; apply elem_of_app; right; by left|].
  unfold inserted_cid, contains_inserted_tid in Hi. by case_bool_decide.
Qed.

Lemma stack_no_clears : no_clears (w_stack w).
Proof. pose proof (SInv_no_clears R w Hw) as Hn. by apply Forall_app in Hn as [Hn _]. Qed.

Lemma shown_candidate t : is_Some (shown false (rows (rel w relid) t)) → t ∈ live_tids (rel w relid).
Proof. intros [b Hb%shown_live]. destruct (si_counted _ _ Hw relid) as [Hwf _]. apply (rwf_live _ Hwf). by exists b. Qed.

Lemma seen_at_candidate curcid t : is_Some (seen_at curcid t) → t ∈ live_tids (rel w relid) ∨ owned (w_stack w) relid t.
Proof.
  pose proof stack_no_clears as Hn. destruct curcid as [cid|]; cbn [seen_at physical_visible].
  - rewrite fast_visible_at_cid. unfold generic_visible_at_cid. destruct (overlays_invalidate_tid_before _ _ _ _); [by intros [? ?]|].
    destruct (overlays_clear_tid _ _ _); [by intros [? ?]|]. rewrite own_inserted_owned by done.
    destruct (overlays_own_inserted_tid_before (w_stack w) relid t cid) eqn:E; [intros _; right; by eapply own_before_owned|].
    case_bool_decide; [by right|]. cbn [andb negb]. rewrite committed_slice. intros Ht. left. by apply shown_candidate.
  - rewrite view_eq by done. destruct (decide (hidden _ _ _)); [by intros [? ?]|]. destruct (decide (owned _ _ _)); [by right|].
    intros Ht. left. by apply shown_candidate.
Qed.
Lemma seen_candidate t : is_Some (seen w relid t) → t ∈ live_tids (rel w relid) ∨ owned (w_stack w) relid t.
Proof. apply (seen_at_candidate None). Qed.

Lemma invalidate_loop_none curcid t rev later : ¬ hidden rev relid t → invalidate_loop curcid relid t rev later = false.
Proof.
  revert later. induction rev as [|o rev IH]; intros later Hh; cbn [invalidate_loop]; [done|]. unfold hidden in *. rewrite Exists_cons in Hh.
  unfold invalidated_cid, contains_invalidated_tid. rewrite bool_decide_eq_false_2 by (intros ?; apply Hh; by left). apply IH. tauto.
Qed.

Lemma idle_seen_at curcid t : transaction_has_visibility_deltas (w_session w) relid = false → seen_at curcid t = committed w relid t.
Proof.
  intros Hd. pose proof stack_no_clears as Hn. destruct (no_deltas (w_stack w) relid t Hd) as [Hh Ho].
  destruct curcid as [cid|]; cbn [seen_at physical_visible].
  - rewrite fast_visible_at_cid. unfold generic_visible_at_cid, overlays_invalidate_tid_before, overlays_clear_tid.
    rewrite invalidate_loop_none by (by rewrite hidden_reverse). rewrite clear_loop_false by (by apply no_clears_reverse).
    rewrite own_inserted_owned, bool_decide_eq_false_2 by done. cbn [andb].
    destruct (overlays_own_inserted_tid_before _ _ _ _) eqn:E; [by apply own_before_owned in E|]. apply committed_slice.
  - rewrite view_eq by done. by rewrite !decide_False.
Qed.

Lemma session_step curcid c : no_redirects → cursor_wf c →
  next_visible_tuple_slice_in_overlays (w_storage w) (w_stack w) relid c start_offsets true curcid =
  Ok (find_map (λ t, plain t <$> seen_at curcid t) (todo (candidates (w_storage w) (w_stack w) relid) start_offsets c)).
Proof.
  intros Hn Hc. rewrite next_visible_spec; [f_equal|done|intros t Ht _; by apply candidate_covered].
  assert (Hall : ∀ t, t ∈ todo (candidates (w_storage w) (w_stack w) relid) start_offsets c → t ∈ candidates (w_storage w) (w_stack w) relid).
  { intros t [_ Ht]%list_elem_of_filter. unfold tid_iter in Ht. by rewrite btree_iter_elem in Ht. }
  induction (todo _ _ _) as [|t l IH]; [done|]. cbn [find_map]. rewrite IH by (intros x Hx; apply Hall; by right).
  destruct (proj2 Hn t (Hall t ltac:(by left))) as [-> Hs]. unfold candidate_row. fold (seen_at curcid t).
  destruct (seen_at curcid t) as [tuple|]; [done|]. cbn [fmap option_fmap option_map].
  pose proof (settled_overlay _ _ _ Hs) as (E1 & _). rewrite E1. unfold visible_update_redirect_tid_beyond_high_water. rewrite (Hs false).
  assert (Ef : match relations (w_storage w) !! relid with Some r => is_hot_redirect_root r t | None => false end = false).
  { destruct Hn as [Hr _]. unfold rel, relation_of in Hr. destruct (relations (w_storage w) !! relid); [|done]. cbn in Hr.
    unfold is_hot_redirect_root. rewrite Hr. apply bool_decide_eq_false. set_solver. }
  rewrite Ef, bool_decide_eq_false_2 by (by intros [? ?]). done.
Qed.

(** ** What a scan returns *)

(** The rows of a view, in the order of their identifiers. *)
Definition listed (V : Tid → option (list Z)) (vs : list VisibleTupleSlice) : Prop :=
  StronglySorted (λ v v', tid_ltb (vs_output_tid v) (vs_output_tid v') = true) vs ∧
  ∀ v, v ∈ vs ↔ ∃ t b, v = plain t b ∧ V t = Some b.

Lemma omap_listed (V : Tid → option (list Z)) (C : gset Tid) high_water c : 
  (∀ t, is_Some (V t) → t ∈ C ∧ ahead high_water c t) → listed V (omap (λ t, plain t <$> V t) (todo C high_water c)).
Proof.
  intros HV. assert (Hs : StronglySorted tid_le (todo C high_water c)) by (apply sorted_filter, btree_iter_sorted; apply _).
  assert (Hnd : NoDup (todo C high_water c)) by (apply NoDup_filter, btree_iter_NoDup).
  assert (Hel : ∀ (l : list Tid) v, v ∈ omap (λ t, plain t <$> V t) l ↔ ∃ t b, v = plain t b ∧ V t = Some b ∧ t ∈ l).
  { intros l v. rewrite list_elem_of_omap. split.
    - intros (t & Ht & (b & Hb & ->)%fmap_Some). eauto.
    - intros (t & b & -> & Hb & Ht). exists t. by rewrite Hb. }
  split.
  - revert Hnd. induction Hs as [|t l Hs IH Hf]; intros Hnd; cbn; [constructor|]. apply NoDup_cons in Hnd as [Hnt Hnd].
    destruct (V t) as [b|] eqn:Eb; cbn; [|by apply IH]. constructor; [by apply IH|]. apply Forall_forall. intros v (t' & b' & -> & _ & Ht')%Hel. cbn.
    apply tid_ltb_lt. split; [by apply (proj1 (Forall_forall _ _) Hf)|]. by intros ->.
  - intros v. rewrite Hel. split; [intros (t & b & H1 & H2 & _); eauto|]. intros (t & b & -> & Hb). exists t, b. split; [done|]. split; [done|].
    destruct (HV t) as [H1 H2]; [by rewrite Hb|]. apply list_elem_of_filter. split; [done|]. unfold tid_iter. by rewrite btree_iter_elem.
Qed.

Lemma start_ahead high_water t : covers high_water t → tid_wf t → 0 < tid_offset t → ahead high_water forward_start t.
Proof. intros Hc [Hb _] Ho. split; [|done]. apply tid_le_alt. destruct Hb. cbn. lia. Qed.

Lemma seen_tid t : is_Some (seen w relid t) → tid_wf t ∧ 0 < tid_offset t.
Proof.
  intros [Hl|[(o & row & Ho & Hrow)|[b Hb]]%owned_row]%seen_candidate.
  - destruct (si_counted _ _ Hw relid) as [Hwf _]. apply (rwf_live _ Hwf) in Hl as [b Hb]. by apply row_sound in Hb as (? & ? & _).
  - by destruct (pending_covered o t row Ho Hrow) as (_ & ? & ? & _).
  - by apply row_sound in Hb as (? & ? & _).
Qed.

Lemma seen_offset t : is_Some (seen w relid t) → tid_offset t <= MAX_CTID_OFFSET.
Proof.
  assert (Hrow : ∀ row, rows (rel w relid) t = Some row → tid_offset t <= MAX_CTID_OFFSET).
  { intros row Hr. destruct (si_counted _ _ Hw relid) as [Hwf _]. by apply (rows_tid_wf _ _ _ Hwf) in Hr as [_ [_ ?]]. }
  intros [Hl|[(o & [s b] & Ho & Hp)|[b Hb]]%owned_row]%seen_candidate; [|..|by eapply Hrow].
  - destruct (si_counted _ _ Hw relid) as [Hwf _]. apply (rwf_live _ Hwf) in Hl as [b Hb]. by eapply Hrow.
  - pose proof (si_ok _ _ Hw) as Hok. apply Forall_app in Hok as [Hok _]. pose proof (proj1 (Forall_forall _ _) Hok o Ho) as Hov.
    apply bind_Some in Hp as (p & Hin & Hr). apply ppage_elem in Hin as [Hin _]; [|apply (ok_blocks _ _ Hov)].
    destruct (ok_pages _ _ Hov relid p Hin) as (Hpw & _). apply (page_row_some p Hpw) in Hr as (l & Hl%page_line_bound & _).
    pose proof (pwf_count _ Hpw). lia.
Qed.

Lemma candidates_seen t : is_Some (seen w relid t) → t ∈ candidates (w_storage w) (w_stack w) relid.
Proof.
  intros [Hl|(o & Ho & Ht)%owned_elem]%seen_candidate; apply elem_of_union.
  - left. unfold rel, relation_of in Hl. destruct (relations (w_storage w) !! relid); cbn in *; set_solver.
  - right. apply elem_of_list_to_set. unfold overlay_candidates. apply list_elem_of_In, in_concat. exists (tids_of relid (inserted_tids o)).
    rewrite <- !list_elem_of_In. split; [|done]. apply list_elem_of_fmap. by exists o.
Qed.

(** What a scan has to look at: every candidate, or the live rows if the
    transaction has not changed the relation. *)
Definition scanned_tids : gset Tid :=
  if transaction_has_visibility_deltas (w_session w) relid then candidates (w_storage w) (w_stack w) relid else live_tids (rel w relid).

Lemma scanned_sound : (transaction_has_visibility_deltas (w_session w) relid = true → no_redirects) → sound_candidates scanned_tids start_offsets.
Proof.
  intros Hd. unfold scanned_tids. destruct (transaction_has_visibility_deltas _ _); [|apply committed_sound].
  intros t Ht _. by apply candidate_covered, Ht; apply Hd.
Qed.
Lemma scanned_covers curcid t : (transaction_has_visibility_deltas (w_session w) relid = true → no_redirects) → is_Some (seen_at curcid t) →
  t ∈ scanned_tids ∧ ahead start_offsets forward_start t.
Proof.
  intros Hd Ht. assert (t ∈ scanned_tids) as Hin.
  - unfold scanned_tids. destruct (transaction_has_visibility_deltas _ _) eqn:E.
    + apply candidates_alt; [by apply Hd|by eapply seen_at_candidate].
    + destruct (seen_at_candidate curcid t Ht) as [?|Ho]; [done|]. by destruct (no_deltas (w_stack w) relid t E).
  - split; [done|]. assert (Hc : covers start_offsets t ∧ tid_wf t ∧ 0 < tid_offset t ∧ tid_block t < U32_MAX).
    + unfold scanned_tids in Hin. destruct (transaction_has_visibility_deltas _ _); [by apply candidate_covered, Hin; apply Hd|].
      destruct (si_counted _ _ Hw relid) as [Hwf _]. apply (rwf_live _ Hwf) in Hin as [b Hb]. split; [by eapply row_covered|by eapply row_sound].
    + destruct Hc as (C1 & C2 & C3 & _). by apply start_ahead.
Qed.

(** A relation with a page is scanned with the committed rows. *)
Lemma begin_with_pages curcid : (transaction_has_visibility_deltas (w_session w) relid = true → physical_blocks (rel w relid) ≠ ∅) →
  ∃ only, (transaction_has_visibility_deltas (w_session w) relid = true → only = false) ∧
    scan_begin_impl relid curcid w =
      let '(handle, w) := begin_scan (new_scan relid start_offsets (transaction_has_visibility_deltas (w_session w) relid) only curcid) w in
      (Ok (default 0 handle), w).
Proof.
  intros Hp. assert (Ee : scan_begin_committed_empty_impl relid curcid w = (None, w)).
  { unfold scan_begin_committed_empty_impl. destruct (negb _); [done|].
    destruct (transaction_has_visibility_deltas _ _) eqn:E; [|by destruct (match _ with Some _ => _ | None => _ end)].
    specialize (Hp eq_refl). unfold rel, relation_of in Hp. destruct (relations (w_storage w) !! relid); [|done]. cbn in Hp.
    by rewrite bool_decide_eq_false_2. }
  unfold scan_begin_impl. rewrite Ee. fold start_offsets. eexists. split; [|done]. intros E. specialize (Hp E).
  unfold rel, relation_of in Hp. destruct (relations (w_storage w) !! relid); [|done]. cbn in Hp.
  rewrite (bool_decide_eq_false_2 _ Hp). by rewrite andb_false_r.
Qed.

Lemma scan_lists `{Target} curcid natts n : (∀ t b, seen_at curcid t = Some b → copies natts b = true) →
  (transaction_has_visibility_deltas (w_session w) relid = true → no_redirects ∧ physical_blocks (rel w relid) ≠ ∅) →
  (size (candidates (w_storage w) (w_stack w) relid) < n)%nat →
  ∃ handle w' steps, scan_begin_impl relid curcid w = (Ok handle, w') ∧ (scan_all n handle true natts w').1 = Ok steps ∧
    listed (seen_at curcid) steps.*1.
Proof.
  intros Hcopy Hd Hn. destruct (begin_with_pages curcid) as (only & Honly & ->); [by apply Hd|].
  set (deltas := transaction_has_visibility_deltas (w_session w) relid) in *.
  destruct (begin_scan_slot (new_scan relid start_offsets deltas only curcid) w) as (h & w' & -> & Hslot & E1 & E2).
  destruct (scan_all_spec (w_storage w) (w_stack w) scanned_tids (λ t, plain t <$> seen_at curcid t) natts n h
    (new_scan relid start_offsets deltas only curcid) w') as (steps & H1 & H2); try done.
  - apply scanned_sound. by apply Hd.
  - intros c Hc. unfold scan_row, scanned_tids. fold deltas.
    cbn [new_scan scan_has_visibility_deltas overlay_only scan_relid high_water_offsets snapshot_curcid].
    destruct deltas eqn:Edel; cbn [negb].
    + rewrite Honly by done. apply session_step; [by apply Hd|done].
    + rewrite committed_row_step by done. f_equal. apply find_map_ext. intros t. by rewrite idle_seen_at.
  - intros t v (b & Hb & ->)%fmap_Some. split; [done|]. by apply (Hcopy t b).
  - cbn [new_scan high_water_offsets forward_cursor]. pose proof (todo_length scanned_tids start_offsets forward_start) as Hl.
    assert (size scanned_tids ≤ size (candidates (w_storage w) (w_stack w) relid))%nat; [|lia]. unfold scanned_tids. case_match; [done|].
    apply subseteq_size. unfold candidates, rel, relation_of. destruct (relations (w_storage w) !! relid); cbn; set_solver.
  - exists h, w', steps. split; [done|]. split; [done|]. rewrite H2. apply omap_listed. intros t Ht. apply (scanned_covers curcid); [by apply Hd|done].
Qed.
End session_scan.

(** ** Batches *)

Lemma committed_found st relid c high_water forward v : next_committed_tuple_slice st relid c high_water forward = Some v →
  ∃ r t, relations st !! relid = Some r ∧ t ∈ live_tids r ∧ rel_tuple_slice r t false = Some (vs_tuple v).
Proof.
  unfold next_committed_tuple_slice. intros (r & Hr & Hv)%bind_Some.
  assert (Hf : ∀ t, (if tid_beyond_high_water t high_water then None else tuple ← rel_tuple_slice r t false;
      Some {| vs_cursor_tid := t; vs_output_tid := t; vs_tuple := tuple |}) = Some v → rel_tuple_slice r t false = Some (vs_tuple v)).
  { intros t. destruct (tid_beyond_high_water t high_water); [done|]. by intros (tuple & -> & [= <-])%bind_Some. }
  destruct forward.
  - destruct (forward_ended c high_water); [done|]. apply bind_Some in Hv as (t & Ht & Hv). exists r, t. split; [done|]. split; [|by apply Hf].
    apply find_elem in Ht as [Ht _]. unfold tid_iter in Ht. by rewrite btree_iter_elem in Ht.
  - apply bind_Some in Hv as (stop & _ & (t & Ht & Hv)%bind_Some). exists r, t. split; [done|]. split; [|by apply Hf].
    apply find_elem in Ht as [Ht _]. unfold tid_iter in Ht. by rewrite elem_of_reverse, btree_iter_elem in Ht.
Qed.

Lemma committed_scan_found st overlays scan forward c v : scan_has_visibility_deltas scan = false → scan_row st overlays scan forward c = Ok (Some v) →
  ∃ r t, relations st !! scan_relid scan = Some r ∧ t ∈ live_tids r ∧ rel_tuple_slice r t false = Some (vs_tuple v).
Proof. unfold scan_row. intros -> [= E]. by eapply committed_found. Qed.

Lemma scan_mut_ext handle f g s scan : scan_slot handle s = Some scan → f scan = g scan → scan_slot_mut handle f s = scan_slot_mut handle g s.
Proof.
  unfold scan_slot, scan_slot_mut. destruct (checked_sub handle 1) as [i|]; [|done]. cbn. intros Hs E. f_equal. apply list_eq. intros j.
  destruct (decide (j = Z.to_nat i)) as [->|Hn]; [|by rewrite !list_lookup_alter_ne].
  rewrite !list_lookup_alter_eq. destruct (scans s !! Z.to_nat i) as [[x|]|]; [|done..]. cbn in *. injection Hs as ->. by rewrite E.
Qed.
Lemma scan_mut_twice handle f g s : scan_slot_mut handle f (scan_slot_mut handle g s) = scan_slot_mut handle (λ x, f (g x)) s.
Proof.
  unfold scan_slot_mut. destruct (checked_sub handle 1) as [i|]; [|done]. destruct s as [stk ex sc]. unfold set_scans. cbn. f_equal.
  apply list_eq. intros j. destruct (decide (j = Z.to_nat i)) as [->|Hn]; [|by rewrite !list_lookup_alter_ne].
  rewrite !list_lookup_alter_eq. by destruct (sc !! Z.to_nat i) as [[x|]|].
Qed.
Lemma scan_mut_id handle f s scan : scan_slot handle s = Some scan → f scan = scan → scan_slot_mut handle f s = s.
Proof.
  intros Hs E. rewrite (scan_mut_ext handle f (λ x, x) s scan Hs E). unfold scan_slot_mut. destruct (checked_sub handle 1) as [i|]; [|done].
  destruct s as [stk ex sc]. unfold set_scans. cbn. f_equal. apply list_eq. intros j.
  destruct (decide (j = Z.to_nat i)) as [->|Hn]; [|by rewrite list_lookup_alter_ne].
  rewrite list_lookup_alter_eq. by destruct (sc !! Z.to_nat i) as [[x|]|].
Qed.

(** The identifier that a step hands out for a row besides the row's own. *)
Definition step_index (st : StorageState) (scan : ScanState) (v : VisibleTupleSlice) : Tid :=
  if scan_has_visibility_deltas scan then vs_cursor_tid v
  else default (vs_cursor_tid v) (r ← relations st !! scan_relid scan; hot_redirect_root_for_target r (vs_output_tid v)).

Lemma scan_next_step `{Target} handle forward natts w scan : scan_slot handle (w_session w) = Some scan → exhausted_in forward scan = false →
  (∀ c v, scan_row (w_storage w) (w_stack w) scan forward c = Ok (Some v) → copies natts (vs_tuple v) = true) →
  scan_next_impl handle forward natts w =
    match scan_row (w_storage w) (w_stack w) scan forward (cursor_in forward scan) with
    | Error code msg => (Error code msg, w)
    | Ok None => (Ok None, on_session (scan_slot_mut handle (exhaust forward)) w)
    | Ok (Some v) => (Ok (Some (v, step_index (w_storage w) scan v)), on_session (scan_slot_mut handle (pass_row forward (vs_cursor_tid v))) w)
    end.
Proof.
  intros Hs Ex Hc. unfold scan_next_impl. rewrite Hs, Ex. destruct (scan_row _ _ _ _ _) as [[v|]|code msg] eqn:Er; [|done..].
  rewrite (Hc _ _ Er). unfold step_index. by destruct (scan_has_visibility_deltas scan).
Qed.

(** What a run of steps and a batch have in common. *)
Definition batch_post `{Target} (handle : Z) (forward : bool) (natts : Z) (n : nat) (w : World) (scan : ScanState) : Prop :=
  match scan_all n handle forward natts w with
  | (Error code msg, _) => (scan_next_batch_impl handle forward natts n w).1 = Error code msg
  | (Ok steps, w') => scan_next_batch_impl handle forward natts n w = (Ok steps.*1, w') ∧
      Forall (λ step, step.2 = step_index (w_storage w) scan step.1) steps
  end.

Lemma batch_steps `{Target} handle forward natts n w scan : scan_slot handle (w_session w) = Some scan →
  (∀ c v, scan_row (w_storage w) (w_stack w) scan forward c = Ok (Some v) → copies natts (vs_tuple v) = true) →
  batch_post handle forward natts n w scan.
Proof.
  revert w scan. induction n as [|n IH]; intros w scan Hs Hc; unfold batch_post, scan_next_batch_impl; rewrite Hs; cbn [scan_all].
  - cbn. split; [|constructor]. destruct (exhausted_in forward scan); [done|]. f_equal. unfold on_session.
    rewrite (scan_mut_id handle _ _ scan); [by destruct w|done|]. cbn. by destruct scan, forward.
  - unfold mbind at 1, M_bind at 1. destruct (exhausted_in forward scan) eqn:Ex.
    { unfold scan_next_impl. rewrite Hs, Ex. cbn. by split. }
    rewrite (scan_next_step handle forward natts w scan Hs Ex Hc). cbn [batch_loop].
    change (if forward then forward_cursor scan else backward_cursor scan) with (cursor_in forward scan).
    destruct (scan_row (w_storage w) (w_stack w) scan forward (cursor_in forward scan)) as [[v|]|code msg] eqn:Er; [| |done].
    2: { cbn. split; [|constructor]. destruct forward; cbn; unfold on_session; do 2 f_equal; by apply (scan_mut_ext _ _ _ _ scan Hs). }
    rewrite (Hc _ _ Er). set (w' := on_session (scan_slot_mut handle (pass_row forward (vs_cursor_tid v))) w).
    set (scan' := pass_row forward (vs_cursor_tid v) scan).
    assert (Hs' : scan_slot handle (w_session w') = Some scan') by (by apply scan_slot_mut_slot).
    assert (Estk : w_stack w' = w_stack w) by (unfold w', w_stack, on_session, scan_slot_mut; cbn; by destruct (checked_sub handle 1)).
    assert (Erow : scan_row (w_storage w') (w_stack w') scan' forward = scan_row (w_storage w) (w_stack w) scan forward).
    { rewrite Estk. unfold scan', pass_row. by destruct forward. }
    assert (Ei : step_index (w_storage w') scan' = step_index (w_storage w) scan) by (unfold scan', pass_row; by destruct forward).
    assert (IHn : batch_post handle forward natts n w' scan').
    { apply (IH w' scan' Hs'). intros c u. rewrite Erow. apply Hc. }
    unfold batch_post, scan_next_batch_impl in IHn. rewrite Hs' in IHn.
    assert (exhausted_in forward scan' = false) as E' by (rewrite <- Ex; by destruct forward). rewrite E', Erow, Ei in IHn.
    assert (forward_cursor scan' = cursor_after (vs_cursor_tid v)) as Ef by (by destruct forward).
    assert (backward_cursor scan' = cursor_before (vs_cursor_tid v)) as Eb by (by destruct forward). rewrite Ef, Eb in IHn.
    unfold mbind, M_bind. destruct (scan_all n handle forward natts w') as [[steps|code msg] w''].
    + destruct (batch_loop _ forward natts n _ _) as [[[vs [fc bc]] ended]|code msg]; destruct IHn as [IH1 IH2]; [|done].
      injection IH1 as -> <-. cbn. split; [|by constructor]. f_equal. unfold w', on_session. cbn [w_session set_w_session].
      rewrite scan_mut_twice. unfold set_w_session. cbn. f_equal. apply (scan_mut_ext _ _ _ _ scan Hs). unfold scan'.
      destruct forward, ended; cbn; try done; by destruct (bool_decide (steps.*1 = [])).
    + destruct (batch_loop _ forward natts n _ _) as [[[vs [fc bc]] ended]|code' msg']; [done|]. exact IHn.
Qed.
