(* ===== verification/EngTheorems.v ===== *)
(** * What the second engine promises

    For every state that calls of any number of sessions lead to: the row
    counters, what sessions see of each other, the ends of transactions and
    subtransactions, insertion, update and deletion, and scans. *)

From Stdlib Require Import ZArith Lia.
From stdpp Require Import base tactics numbers list gmap strings sorting.
From S2P Require Import Prelude RustStd EngTid EngTuple EngTupleProofs EngPage EngPageProofs EngIndex EngRelation EngRelationProofs EngOverlay EngState EngOps EngScan EngInv EngAppend EngCalls EngOutcomes EngSession EngCommit EngTransactions EngSystem EngScanProofs.

Local Open Scope Z_scope.

Module EngTheorems.
Section theorems.
Context `{Target, Catalog} (mem : Z → Z) (fuel : nat).
Abbreviation reachable := (reachable mem fuel).
Abbreviation step := (step mem fuel).

(** What the session sees through the overlays, and what everybody sees. *)
Abbreviation sees_row st ovs := (physical_visible_tuple_slice_in_overlays st ovs).

(** ** Sessions *)

(** C10: In every state that calls of any number of sessions lead to
    ([reachable]), the row counter of a relation is the number of rows that a
    session without a transaction sees, and these are the rows of [live_tids].
    Clearing and replacing relations are not among the calls that lead to the
    state. *)
Theorem row_counters_exact sys relid : reachable sys →
  let r := relation_of (sy_storage sys) relid in
  committed_row_count_cached relid (world sys session_default) = Z.of_nat (size (live_tids r)) ∧
  ∀ t, t ∈ live_tids r ↔ is_Some (sees_row (sy_storage sys) [] relid t).
Proof.
  intros Hr%reachable_good. destruct (g_counted _ Hr relid) as [H1 H2]. split.
  - unfold committed_row_count_cached. rewrite H2. by apply live_count_size.
  - intros t. rewrite (rwf_live _ H1). change (sees_row (sy_storage sys) []) with (view (w_storage (world sys session_default)) []).
    rewrite committed_view. unfold committed. split.
    + intros [b Hb]. exists b. by apply shown_live.
    + intros [b Hb%shown_live]. by exists b.
Qed.

Lemma other_elem sys i j s o : sy_sessions sys !! j = Some s → j ≠ i → o ∈ transaction_stack s → o ∈ others sys i.
Proof.
  intros Hj Hn Ho. unfold others, overlays_of. apply list_elem_of_bind. exists s. split; [done|].
  apply list_elem_of_lookup. destruct (decide (j < i)%nat).
  - exists j. by rewrite list_lookup_delete_lt.
  - exists (j - 1)%nat. rewrite list_lookup_delete_ge by lia. by replace (S (j - 1)) with j by lia.
Qed.
Lemma other_claimed sys i j s relid t : sy_sessions sys !! j = Some s → j ≠ i → owned (transaction_stack s) relid t →
  claimed (others sys i) relid t.
Proof. intros Hj Hn (o & Ho & Ht)%owned_elem. apply owned_elem. exists o. split; [by eapply other_elem|done]. Qed.
Lemma good_no_clears sys i s : good sys → sy_sessions sys !! i = Some s → no_clears (transaction_stack s).
Proof. intros Hg Hi. pose proof (SInv_no_clears _ _ (good_SInv sys i s Hg Hi)) as Hn. by apply Forall_app in Hn as [? _]. Qed.

(** C7: In every reachable state, a row that an open transaction has inserted is
    seen by no other session, and no other transaction has inserted a row of
    this identifier. Clearing and replacing relations are not among the calls
    that lead to the state. *)
Theorem uncommitted_rows_private sys i j s s' relid t : reachable sys →
  sy_sessions sys !! i = Some s → sy_sessions sys !! j = Some s' → i ≠ j →
  overlays_own_inserted_tid (transaction_stack s) relid t = true →
  overlays_own_inserted_tid (transaction_stack s') relid t = false ∧
  sees_row (sy_storage sys) (transaction_stack s') relid t = None ∧ sees_row (sy_storage sys) [] relid t = None.
Proof.
  intros Hr%reachable_good Hi Hj Hne Ho. pose proof (good_no_clears sys j s' Hr Hj) as Hn'.
  rewrite own_inserted_owned in Ho by (by eapply good_no_clears). apply bool_decide_eq_true in Ho.
  pose proof (good_SInv sys j s' Hr Hj) as [S1 S2 S3 S4]. pose proof (other_claimed sys j i s relid t Hi Hne Ho) as Hc.
  assert (Hno : ¬ owned (transaction_stack s') relid t).
  { intros (o' & Ho' & Ht')%owned_elem. apply owned_elem in Hc as (o & Hin & Ht). apply all_apart_app in S3 as (_ & _ & S3).
    by destruct (S3 o' o Ho' Hin) as [A _]; apply (A relid t). }
  assert (Hrow : shown false (rows (relation_of (sy_storage sys) relid) t) = None).
  { apply Forall_app in S2 as [_ S2]. destruct (claimed_row (world sys s') (others sys j) relid t S2 Hc) as [Hb|[b Hb]].
    - apply (held_page _ _ _ _ S2) in Hb as [_ Hb]. unfold rel in Hb. rewrite rows_page. cbn in Hb. by rewrite Hb.
    - unfold rel in Hb. cbn in Hb. by rewrite Hb. }
  split; [rewrite own_inserted_owned by done; by apply bool_decide_eq_false|]. split.
  - rewrite view_eq by done. case_decide; [done|]. by rewrite decide_False.
  - rewrite view_eq by constructor. by rewrite !decide_False by (by intros ?%Exists_nil).
Qed.

(** C8: A call that cannot publish what its session has done changes nothing for
    any other session: the other session sees the rows that it saw, and so does
    a session without a transaction. Besides the two forms of commit, the
    beginning of a transaction can publish, since it ends an implicit one.
    Clearing and replacing relations are not calls here: they do show in other
    sessions (see [aborted_clear_loses_row]). *)
Theorem calls_isolated sys i c sys' j s : reachable sys → step sys i c sys' → publishes c = false →
  j ≠ i → sy_sessions sys !! j = Some s →
  sy_sessions sys' !! j = Some s ∧
  ∀ relid t, sees_row (sy_storage sys') (transaction_stack s) relid t = sees_row (sy_storage sys) (transaction_stack s) relid t ∧
             sees_row (sy_storage sys') [] relid t = sees_row (sy_storage sys) [] relid t.
Proof.
  intros Hr%reachable_good Hs Hp Hne Hj. destruct (step_spec mem fuel sys i c sys' Hr Hs) as (_ & si & si' & Hi & Es & _ & Hq).
  specialize (Hq Hp). split; [by rewrite Es, list_lookup_insert_ne|]. intros relid t.
  split; eapply (view_quiet _ _ _ _ _ _ Hq); [by eapply good_no_clears| |constructor|by intros ?? ?%Exists_nil].
  intros relid' t' Ht. by apply (other_claimed sys i j s).
Qed.


Lemma view_minds R w w' ovs relid t : minds R w w' → no_clears ovs → owned ovs relid t → claimed R relid t →
  view (w_storage w') ovs relid t = view (w_storage w) ovs relid t.
Proof.
  intros Hm Hn Ho Hc. rewrite !view_eq by done. fold (rel w relid) (rel w' relid). case_decide; [done|].
  rewrite !decide_True by done. by rewrite (mi_claimed _ _ _ Hm _ _ Hc).
Qed.

(** ** Ends of transactions *)

(** C5: A commit succeeds unless block numbers run out, and makes what the
    session saw what everybody sees: the rows are the same, one for one, and
    only rows on pages of the session itself can get other identifiers. What
    other sessions have inserted they see as before. Clearing and replacing
    relations are not among the calls that lead to the state. *)
Theorem commit_publishes sys i s res w' : reachable sys → sy_sessions sys !! i = Some s →
  fastpg_storage2_xact_commit (world sys s) = (res, w') →
  match res with
  | Error _ _ => crowded_stack (world sys s)
  | Ok _ =>
    w_stack w' = [] ∧
    (∃ ρ, carries ρ (sees_row (sy_storage sys) (transaction_stack s)) (sees_row (w_storage w') []) ∧ stays (transaction_stack s) ρ) ∧
    ∀ j s', j ≠ i → sy_sessions sys !! j = Some s' → ∀ relid t,
      overlays_own_inserted_tid (transaction_stack s') relid t = true →
      sees_row (w_storage w') (transaction_stack s') relid t = sees_row (sy_storage sys) (transaction_stack s') relid t
  end.
Proof.
  intros Hr%reachable_good Hi E. pose proof (commit_explicit_spec _ _ (good_SInv sys i s Hr Hi)) as Hc.
  unfold fastpg_storage2_xact_commit in E. rewrite E in Hc. destruct res as [u|c e]; [|done].
  destruct Hc as (_ & H2 & H3 & ρ & H4 & H5). split; [done|]. split.
  - exists ρ. split; [|done]. eapply carries_post; [|exact H4]. intros relid t. apply committed_view.
  - intros j s' Hne Hj relid t Ho. assert (Hn : no_clears (transaction_stack s')) by (by eapply good_no_clears).
    rewrite own_inserted_owned in Ho by done. apply bool_decide_eq_true in Ho.
    apply (view_minds _ _ _ _ _ _ H3); [done..|]. by apply (other_claimed sys i j s').
Qed.

(** C6: An abort never fails and leaves nothing of the transaction: the session
    has no overlay left and sees the committed rows that were there before.  So
    does a session without a transaction, and every other session sees, through
    its own transaction, the rows that it saw.  Clearing and replacing relations
    are not among the calls that lead to the state. *)
Theorem abort_discards sys i s : reachable sys → sy_sessions sys !! i = Some s →
  ∃ w', fastpg_storage2_xact_abort (world sys s) = (Ok tt, w') ∧ w_stack w' = [] ∧
    (∀ relid t, sees_row (w_storage w') [] relid t = sees_row (sy_storage sys) [] relid t) ∧
    ∀ j s' relid t, j ≠ i → sy_sessions sys !! j = Some s' →
      sees_row (w_storage w') (transaction_stack s') relid t = sees_row (sy_storage sys) (transaction_stack s') relid t.
Proof.
  intros Hr%reachable_good Hi. destruct (abort_explicit_spec _ _ (good_SInv sys i s Hr Hi)) as (H1 & _ & H2 & H3).
  unfold fastpg_storage2_xact_abort. destruct (abort_explicit_transaction (world sys s)) as [res w']. cbn in H1, H2, H3. subst res.
  exists w'. split; [done|]. split; [done|]. split.
  - intros relid t. apply (view_quiet _ _ _ _ _ _ H3); [constructor|]. by intros ?? ?%Exists_nil.
  - intros j s' relid t Hne Hj. apply (view_quiet _ _ _ _ _ _ H3); [by eapply good_no_clears|].
    intros relid' t' Ht. by apply (other_claimed sys i j s').
Qed.

(** ** Savepoints *)

Fixpoint exec_all (cs : list Call) (w : World) : World :=
  match cs with [] => w | c :: cs => exec_all cs (exec mem fuel c w).2 end.
Fixpoint all_allowed (cs : list Call) (w : World) : Prop :=
  match cs with [] => True | c :: cs => allowed c w ∧ all_allowed cs (exec mem fuel c w).2 end.

Lemma exec_all_top R cs w : SInv R w → lower w ≠ [] → Forall (λ c, row_call c = true) cs → all_allowed cs w →
  SInv R (exec_all cs w) ∧ lower (exec_all cs w) = lower w ∧ (1 < length (w_stack (exec_all cs w)))%nat ∧
  quiet (claimed (lower w ++ R)) w (exec_all cs w).
Proof.
  intros Hw Hl Hc Ha. revert w Hw Hl Ha. induction Hc as [|c cs Hc _ IH]; intros w Hw Hl Ha; cbn [exec_all].
  - split; [done|]. split; [done|]. split; [|by split]. destruct (stack_shape w) as [E|[E _]]; [|done]. rewrite E, length_app. cbn.
    destruct (lower w); [done|]. cbn. lia.
  - destruct Ha as [Ha1 Ha2]. destruct (row_call_keeps mem fuel R c w Hc Hw Ha1) as (H1 & H2 & H3). specialize (H3 Hl).
    set (w1 := (exec mem fuel c w).2) in *.
    assert (El : lower w1 = lower w) by (unfold lower at 1; rewrite H3, length_app; cbn [length]; by rewrite Nat.add_sub, take_app_length).
    destruct (IH w1 H1) as (G1 & G2 & G3 & G4); [by rewrite El|done|]. rewrite El in G2, G4. split; [done|]. split; [done|]. split; [done|].
    by eapply quiet_trans.
Qed.

(** C9: Whatever rows are inserted, updated, deleted and read in a
    subtransaction, aborting it gives the session back what it saw before. *)
Theorem savepoint_restores sys i s cs : reachable sys → sy_sessions sys !! i = Some s →
  let w1 := (fastpg_storage2_subxact_begin (world sys s)).2 in
  Forall (λ c, row_call c = true) cs → all_allowed cs w1 →
  ∃ w', fastpg_storage2_subxact_abort (exec_all cs w1) = (Ok tt, w') ∧
    ∀ relid t, sees_row (w_storage w') (w_stack w') relid t = sees_row (sy_storage sys) (transaction_stack s) relid t.
Proof.
  intros Hr%reachable_good Hi. cbv zeta. intros Hc Ha.
  destruct (subxact_begin_spec _ _ (good_SInv sys i s Hr Hi)) as (_ & H1 & H2 & (S & HS & E) & H3).
  set (w1 := (fastpg_storage2_subxact_begin (world sys s)).2) in *.
  assert (El : lower w1 = S) by (unfold lower; rewrite E, length_app; cbn [length]; by rewrite Nat.add_sub, take_app_length).
  destruct (exec_all_top _ cs w1 H1) as (G1 & G2 & G3 & G4); [by rewrite El|done|done|].
  destruct (subxact_abort_spec _ _ G1 G3) as (A1 & _ & _ & _ & A2).
  destruct (fastpg_storage2_subxact_abort (exec_all cs w1)) as [res w']. cbn [fst snd] in A1, A2. subst res. exists w'. split; [done|].
  intros relid t. change (sees_row (w_storage w') (w_stack w') relid t) with (seen w' relid t). rewrite A2, G2.
  assert (HnS : no_clears S).
  { pose proof (SInv_no_clears _ _ H1) as Hn. rewrite E in Hn. unfold no_clears in *. rewrite !Forall_app in Hn. tauto. }
  rewrite (view_quiet _ _ _ _ relid t G4); [|by rewrite El|intros ?? ?; apply owned_app; by left].
  change (sees_row (sy_storage sys) (transaction_stack s) relid t) with (seen (world sys s) relid t). rewrite <- H3. unfold seen. rewrite E, El.
  rewrite !view_eq; [|apply Forall_app; split; [done|by repeat constructor]|done].
  assert (Hd1 : hidden S relid t ↔ hidden (S ++ [overlay_default]) relid t).
  { rewrite hidden_app, hidden_one. split; [by left|]. by intros [?|?%not_elem_of_nil]. }
  assert (Hd2 : owned S relid t ↔ owned (S ++ [overlay_default]) relid t).
  { rewrite owned_app, owned_one. split; [by left|]. by intros [?|?%not_elem_of_nil]. }
  rewrite (decide_ext _ _ _ _ Hd1), (decide_ext _ _ _ _ Hd2). unfold pending_of. by rewrite reverse_app.
Qed.

(** ** Rows *)

(** A call described by a triple, for a session of the system. *)
Lemma session_triple {A} sys i s P (m : M World A) Q : good sys → sy_sessions sys !! i = Some s →
  (∀ L T B, triple L T B P m Q) → P (world sys s) → ∀ a w', m (world sys s) = (Ok a, w') → Q a w'.
Proof.
  intros Hg Hi Hm HP a w' E. destruct (Hm _ _ _ _ (SInv_Inv _ _ (good_SInv sys i s Hg Hi)) HP) as (_ & _ & Hq).
  rewrite E in Hq. by apply Hq.
Qed.

Lemma session_roomy sys i s relid : good sys → sy_sessions sys !! i = Some s → next_block (relation_of (sy_storage sys) relid) < U32_MAX →
  ∃ L T B, roomy L T B relid (world sys s).
Proof. intros Hg Hi Hr. do 3 eexists. split; [apply (SInv_Inv _ _ (good_SInv sys i s Hg Hi))|done]. Qed.

Lemma insert_never_none relid input check metadata record w w' :
  relation_insert_impl mem fuel relid input check metadata record w = (Ok None, w') →
  check = Enforce ∧ is_Some (unique_index_conflict_for_input_read mem fuel (w_storage w) (w_session w) relid input None) ∧ w' = w.
Proof.
  unfold relation_insert_impl. rewrite gets_run. destruct (bool_decide _ && _) eqn:E.
  - intros [= <-]. apply andb_true_iff in E as [E1%bool_decide_eq_true E2%bool_decide_eq_true]. done.
  - intros (t & w1 & _ & (u & w2 & _ & (u' & w3 & _ & [=])%M_bind_ok)%M_bind_ok)%M_bind_ok.
Qed.

Lemma insert_len_error relid input check metadata record w c e : tuple_storage_len input = Error c e →
  (relation_insert_impl mem fuel relid input check metadata record w).1 = Ok None ∨
  (relation_insert_impl mem fuel relid input check metadata record w).1 = Error c e.
Proof.
  intros El. unfold relation_insert_impl. rewrite gets_run. destruct (bool_decide _ && _); [by left|right].
  unfold append_pending_input_tuple_current_session, lift. rewrite El. done.
Qed.

(** C12: An insertion adds one row under an identifier that the session saw no
    row under, and the row's bytes hold the values given. It is refused only if
    [check] asks for it and a unique index has the key, and fails only if the
    input has no stored length (it is too long or malformed) or
    the relation has no block number left. Clearing and replacing relations are
    not among the calls that lead to the state. *)
Theorem insert_adds_row sys i s relid input check metadata record res w' : reachable sys → sy_sessions sys !! i = Some s →
  input_ok input → relation_insert_impl mem fuel relid input check metadata record (world sys s) = (res, w') →
  let before := sees_row (sy_storage sys) (transaction_stack s) in
  let after := sees_row (w_storage w') (w_stack w') in
  match res with
  | Ok (Some t) => before relid t = None ∧ ∃ bytes, encodes mem input bytes ∧
      ∀ relid' t', after relid' t' = if decide (relid' = relid ∧ t' = t) then Some bytes else before relid' t'
  | Ok None => check = Enforce ∧ is_Some (unique_index_conflict_for_input_read mem fuel (sy_storage sys) s relid input None) ∧
      ∀ relid' t', after relid' t' = before relid' t'
  | Error c e => tuple_storage_len input = Error c e ∨ next_block (relation_of (sy_storage sys) relid) = U32_MAX
  end.
Proof.
  intros Hr%reachable_good Hi Hok E before after. destruct res as [[t|]|c e].
  - destruct (session_triple sys i s (sees before) _ _ Hr Hi (λ L T B, triple_insert mem fuel L T B before relid input check metadata record Hok)
      ltac:(by intros ??) _ _ E) as (_ & _ & H1 & b & H2 & H3). split; [done|]. exists b. split; [done|]. exact H3.
  - apply insert_never_none in E as (H1 & H2 & ->). done.
  - destruct (tuple_storage_len input) as [n|c' e'] eqn:El.
    + right. destruct (g_counted _ Hr relid) as [Hw _]. apply rwf_next in Hw. unfold rel in Hw. cbn in Hw.
      destruct (Z.lt_ge_cases (next_block (relation_of (sy_storage sys) relid)) U32_MAX) as [Hlt|]; [|lia].
      destruct (session_roomy sys i s relid Hr Hi Hlt) as (L & T & B & Hroom).
      destruct (decide (check = Enforce ∧ is_Some (unique_index_conflict_for_input_read mem fuel (sy_storage sys) s relid input None))) as [[-> Hc]|Hc].
      * unfold relation_insert_impl in E. rewrite gets_run in E. cbn [w_storage w_session world] in E.
        rewrite (bool_decide_eq_true_2 _ Hc) in E. done.
      * destruct (total_insert mem fuel L T B relid input n check metadata record Hok El (world sys s) Hroom) as (t & w1 & E'); [|congruence].
        intros Hen. apply eq_None_not_Some. intros Hx. by apply Hc.
    + left. destruct (insert_len_error relid input check metadata record (world sys s) c' e' El) as [E'|E']; rewrite E in E'; [done|].
      by injection E' as -> ->.
Qed.

(** C13: An update of a row that the session sees, by the identifier of its
    newest version, never fails if the new row fits and a block number is left.
    It is refused, and then nothing that the session sees changes, only if the
    unique indexes are to be checked and one has the key for another row, or if
    the old row has to be read, for a check or because the update is not a HOT
    one, and its bytes are no row.  Otherwise the new version, whose bytes hold
    the values given, takes the place of the old one under an identifier of its
    own, and no conflict was there if one was to be looked for. *)
Theorem update_replaces_row sys i s relid packed t0 old input n check hot metadata : reachable sys → sy_sessions sys !! i = Some s →
  input_ok input → tuple_storage_len input = Ok n → unpack packed = Some t0 → settled (world sys s) relid t0 →
  next_block (relation_of (sy_storage sys) relid) < U32_MAX →
  let before := sees_row (sy_storage sys) (transaction_stack s) in
  let conflict := (unique_index_conflict_for_input mem fuel relid input (Some t0) (world sys s)).1 in
  before relid t0 = Some old →
  ∃ res w', relation_update_impl mem fuel relid packed input check hot metadata (world sys s) = (Ok res, w') ∧
    let after := sees_row (w_storage w') (w_stack w') in
    match res with
    | Some t => (check = Enforce → conflict = Ok None) ∧ before relid t = None ∧
        ∃ bytes, encodes mem input bytes ∧ ∀ relid' t', after relid' t' =
          if decide (relid' = relid ∧ t' = t0) then None else if decide (relid' = relid ∧ t' = t) then Some bytes else before relid' t'
    | None => ((hot = false ∨ check = Enforce) ∧ decode_tuple t0 old = None ∨ check = Enforce ∧ ∃ index, conflict = Ok (Some index)) ∧
        ∀ relid' t', after relid' t' = before relid' t'
    end.
Proof.
  intros Hr%reachable_good Hi Hok Hl Ht0 Hs Hn before conflict Hold. destruct (session_roomy sys i s relid Hr Hi Hn) as (L & T & B & Hroom).
  destruct (total_update mem fuel L T B relid packed t0 input n check hot metadata old (world sys s) Hok Hl Ht0 Hroom Hs Hold) as (res & w' & E & Hc).
  pose proof (session_triple sys i s _ _ _ Hr Hi
    (λ L T B, triple_update mem fuel L T B True before relid packed input check hot metadata t0 Hok Ht0) ltac:(by split; [intros ??|]) _ _ E) as Hu.
  exists res, w'. split; [done|]. destruct res as [t|]; [|by split].
  destruct Hu as (old' & Eo & _ & _ & H1 & _ & b & H2 & H3). rewrite (Eo I) in H3. split; [exact Hc|]. split; [done|]. by exists b.
Qed.

(** C14: A deletion by the identifier of the newest version never fails; it
    answers whether the session saw a row there that can be read, and then the
    session does not see the row any more. *)
Theorem delete_removes_row sys i s relid packed t0 record : reachable sys → sy_sessions sys !! i = Some s →
  unpack packed = Some t0 → settled (world sys s) relid t0 →
  let before := sees_row (sy_storage sys) (transaction_stack s) in
  ∃ found w', relation_delete_impl relid packed record (world sys s) = (Ok found, w') ∧
    found = bool_decide (is_Some (before relid t0 ≫= decode_tuple t0)) ∧
    ∀ relid' t', sees_row (w_storage w') (w_stack w') relid' t' =
      if found && bool_decide (relid' = relid ∧ t' = t0) then None else before relid' t'.
Proof.
  intros Hr%reachable_good Hi Ht0 Hs before. destruct (total_delete relid packed record (world sys s)) as (found & w' & E).
  destruct (session_triple sys i s _ _ _ Hr Hi (λ L T B, triple_delete L T B before relid packed record t0 Ht0) ltac:(by split; [intros ??|]) _ _ E)
    as [H1 H2]. exists found, w'. split; [done|]. split; [done|]. intros relid' t'. rewrite H2. destruct found; [|done]. cbn [andb].
  unfold upd. case_decide as Hx; [by rewrite (bool_decide_eq_true_2 _ Hx)|by rewrite (bool_decide_eq_false_2 _ Hx)].
Qed.

(** ** Scans *)

Lemma session_candidates sys i s relid t : reachable sys → sy_sessions sys !! i = Some s →
  is_Some (sees_row (sy_storage sys) (transaction_stack s) relid t) → t ∈ candidates (sy_storage sys) (transaction_stack s) relid.
Proof. intros Hr%reachable_good Hi Ht. by apply (candidates_seen _ (world sys s) relid (good_SInv sys i s Hr Hi)). Qed.

(** C15: A forward scan that is begun and stepped to its end returns every row
    that the session sees, as of the scan's command if it has one, once, in the
    order of the identifiers, and then ends.  The rows must be ones that can be
    copied out.  Where the transaction has inserted or deleted rows of the
    relation, the relation must have a page of its own and no redirects: else see
    [overlay_scan_misses_row]. *)
Theorem scan_returns_visible_rows sys i s relid curcid natts n : reachable sys → sy_sessions sys !! i = Some s →
  let view t := physical_visible (sy_storage sys) (transaction_stack s) relid t curcid in
  (∀ t bytes, view t = Some bytes → copies natts bytes = true) →
  (transaction_has_visibility_deltas s relid = true →
     no_redirects (world sys s) relid ∧ physical_blocks (relation_of (sy_storage sys) relid) ≠ ∅) →
  (size (candidates (sy_storage sys) (transaction_stack s) relid) < n)%nat →
  ∃ handle w' steps, scan_begin_impl relid curcid (world sys s) = (Ok handle, w') ∧ (scan_all n handle true natts w').1 = Ok steps ∧
    StronglySorted (λ v v', tid_ltb (vs_output_tid v) (vs_output_tid v') = true) steps.*1 ∧
    ∀ v, v ∈ steps.*1 ↔ ∃ t bytes, v = {| vs_cursor_tid := t; vs_output_tid := t; vs_tuple := bytes |} ∧ view t = Some bytes.
Proof.
  intros Hr%reachable_good Hi view Hc Hd Hn.
  destruct (scan_lists _ (world sys s) relid (good_SInv sys i s Hr Hi) curcid natts n Hc Hd Hn) as (h & w' & vs & H1 & H2 & H3 & H4).
  by exists h, w', vs.
Qed.

(** C39: A batch of a scan, in either direction, returns the rows that as many
    single steps return, under the same identifiers and positions, and leaves the
    session where they leave it; it does not return if one of the steps does not.
    The rows must be ones that can be copied out.  Of the second identifier that
    a step hands out, the one that indexes have for the row, this is true only
    where the transaction has changed the relation: a step of a scan of committed
    rows gives the root of the row's HOT chain if it has one, a batch the row's
    own identifier (see [batch_index_differs]). *)
Theorem batch_equals_steps handle forward natts n w scan : scan_slot handle (w_session w) = Some scan →
  (∀ c v, scan_row (w_storage w) (w_stack w) scan forward c = Ok (Some v) → copies natts (vs_tuple v) = true) →
  match scan_all n handle forward natts w with
  | (Error code msg, _) => (scan_next_batch_impl handle forward natts n w).1 = Error code msg
  | (Ok steps, w') => scan_next_batch_impl handle forward natts n w = (Ok steps.*1, w') ∧
      Forall (λ step, step.2 = if scan_has_visibility_deltas scan then vs_cursor_tid step.1
                               else default (vs_cursor_tid step.1) (r ← relations (w_storage w) !! scan_relid scan;
                                                                    hot_redirect_root_for_target r (vs_output_tid step.1))) steps
  end.
Proof. apply batch_steps. Qed.
End theorems.
End EngTheorems.
