(* ===== verification/EngFfiTheorems.v ===== *)
(** * Blocks and indexes of the second engine

    The walk over the blocks of a relation passes by no row that the session
    sees; unique indexes are validated and conflicts are found exactly; and an
    entry that was made for a row leads to the row. *)

From Stdlib Require Import ZArith Lia.
From stdpp Require Import base tactics numbers list gmap strings sorting.
From S2P Require Import Prelude RustStd EngTid EngTuple EngTupleProofs EngPage EngPageProofs EngIndex EngRelation EngRelationProofs EngOverlay EngState EngOps EngScan EngFfi EngInv EngCalls EngSession EngSystem EngScanProofs.

Local Open Scope Z_scope.

Module EngFfiTheorems.

(** ** Blocks *)

(** The block found comes no later than the entry, with an offset at least as large. *)
Definition reaches (found : option (Z * Z)) (block offset : Z) : Prop :=
  ∃ b m, found = Some (b, m) ∧ (b < block ∨ b = block ∧ offset <= m).

Lemma reaches_le found b m block offset : reaches found b m → b <= block → (b = block → offset <= m) → reaches found block offset.
Proof. intros (b' & m' & E & Hb) H1 H2. exists b', m'. split; [done|]. lia. Qed.

Lemma consider_reaches start c e block offset : reaches c block offset → reaches (consider start c e) block offset.
Proof.
  intros (b & m & -> & H). destruct e as [b' m']. unfold consider. destruct (_ || _); [by exists b, m|].
  destruct (Z.eqb_spec b' b) as [->|]; [exists b, (Z.max m m'); split; [done|lia]|].
  destruct (Z.ltb_spec b b'); [by exists b, m|]. exists b', m'. split; [done|lia].
Qed.
Lemma consider_entry start c b m : 0 < m → start <= b → reaches (consider start c (b, m)) b m.
Proof.
  intros Hm Hb. unfold consider. rewrite (proj2 (Z.eqb_neq m 0)), (proj2 (Z.ltb_ge b start)) by lia. cbn [orb].
  destruct c as [[b' m']|]; [|exists b, m; split; [done|lia]].
  destruct (Z.eqb_spec b b') as [->|]; [exists b', (Z.max m' m); split; [done|lia]|].
  destruct (Z.ltb_spec b' b); [exists b', m'|exists b, m]; (split; [done|lia]).
Qed.

Lemma considered start c l b m : (b, m) ∈ l → 0 < m → start <= b → reaches (foldl (consider start) c l) b m.
Proof.
  intros Hin Hm Hb. revert c. induction l as [|e l IH]; intros c; [by apply not_elem_of_nil in Hin|]. cbn.
  apply elem_of_cons in Hin as [<-|Hin]; [|by apply IH]. clear IH.
  assert (Hr : reaches (consider start c (b, m)) b m) by (by apply consider_entry). revert Hr.
  generalize (consider start c (b, m)). induction l as [|e' l IH]; intros c' Hr; [done|]. cbn. by apply IH, consider_reaches.
Qed.

Lemma considered_bound start c l : (∀ b m, c = Some (b, m) → start <= b) → ∀ b m, foldl (consider start) c l = Some (b, m) → start <= b.
Proof.
  revert c. induction l as [|[b' m'] l IH]; intros c Hc b m; [apply Hc|]. apply IH. clear b m. intros b m. unfold consider.
  destruct (_ || _) eqn:E; [apply Hc|]. apply orb_false_iff in E as [_ E%Z.ltb_ge].
  destruct c as [[b0 m0]|]; [|intros [= <- _]; done].
  destruct (_ =? _); [intros [= <- _]; done|]. destruct (_ <? _); [apply Hc|intros [= <- _]; done].
Qed.

Lemma page_offsets_len p : page_wf p → page_offsets p = Some (len (line_pointers p)).
Proof. intros Hp. unfold page_offsets, try_from. pose proof (pwf_count _ Hp). by rewrite (proj2 (Z.leb_le _ _)) by (unfold U16_MAX, MAX_CTID_OFFSET in *; lia). Qed.

Lemma row_page r t row : rel_wf r → rows r t = Some row → ∃ p, page r (tid_block t) = Some p ∧ page_wf p ∧
  1 <= tid_offset t <= len (line_pointers p).
Proof.
  intros Hr Hrow. unfold rows in Hrow. destruct (Z.leb_spec 0 (tid_block t)) as [Hb|]; [|done].
  destruct (page r (tid_block t)) as [p|] eqn:Ep; [|done]. cbn in Hrow. destruct (page_wf_of _ _ _ Hr Hb Ep) as [_ Hp]. exists p. split; [done|].
  split; [done|]. destruct row as [s b]. apply page_row_some in Hrow as (l & Hl & _); [|done]. by apply page_line_bound in Hl.
Qed.

(** A row of the relation is reached from the first live row. *)
Lemma live_reached r start include t : rel_wf r → t ∈ live_tids r → start <= tid_block t → 0 <= start →
  ∃ b m, (b, m) ∈ relation_scan_blocks r start include ∧ 0 < m ∧ start <= b <= tid_block t ∧ (b = tid_block t → tid_offset t <= m).
Proof.
  intros Hr Ht Hb Hs. pose proof (least_range (mkTid start 0) (λ _, true) (live_tids r)) as Hl.
  pose proof Ht as [bt Hrow]%(rwf_live _ Hr). destruct (row_page _ _ _ Hr Hrow) as (pt & Ept & Hpt & Hot).
  assert (Hst : tid_le (mkTid start 0) t) by (apply tid_le_alt; cbn; lia).
  unfold relation_scan_blocks. destruct (range_from_find _ _ (live_tids r)) as [x|]; [|by destruct (Hl t Ht)].
  destruct Hl as (Hx & [Hsx _] & Hmin). pose proof Hx as [bx Hrx]%(rwf_live _ Hr). destruct (row_page _ _ _ Hr Hrx) as (px & Epx & Hpx & Hox).
  specialize (Hmin t Ht (conj Hst eq_refl)). apply tid_le_alt in Hsx, Hmin. cbn in Hsx.
  exists (tid_block x), (len (line_pointers px)). split.
  { apply list_elem_of_omap. exists x. split; [by left|]. rewrite Epx. cbn. by rewrite page_offsets_len. }
  split; [lia|]. split; [lia|]. intros E. rewrite <- E, Epx in Ept. injection Ept as <-. lia.
Qed.

Lemma own_reached relid start o t : claims_tid o relid t → start <= tid_block t →
  (tid_block t, tid_offset t) ∈ overlay_scan_blocks relid start true o.
Proof.
  intros Ht Hb. unfold overlay_scan_blocks. apply elem_of_app. left. apply list_elem_of_fmap. exists t. split; [done|].
  apply list_elem_of_filter. done.
Qed.

Section theorems.
Context `{Target, Catalog} (mem : Z → Z) (fuel : nat).
Abbreviation reachable := (reachable mem fuel).
Abbreviation sees_row st ovs := (physical_visible_tuple_slice_in_overlays st ovs).

(** C20: Asked for the next block from [start] on, the engine gives none that
    lies before [start] and none beyond a row that the session sees there, and
    with its own block the offset of the row is covered; the row must not be one
    that the session itself has inserted, unless these are asked for
    ([include]). *)
Theorem next_scan_block_covers sys i s relid start include t : reachable sys → sy_sessions sys !! i = Some s → 0 <= start →
  is_Some (sees_row (sy_storage sys) (transaction_stack s) relid t) → start <= tid_block t →
  include = true ∨ fastpg_storage2_relation_current_session_owns_inserted_tid relid (pack t) (world sys s) = false →
  ∃ block max_offset, fastpg_storage2_relation_next_scan_block relid start include (world sys s) = Some (block, max_offset) ∧
    start <= block <= tid_block t ∧ (block = tid_block t → tid_offset t <= max_offset).
Proof.
  intros Hr%reachable_good Hi Hs0 Ht Hb Hinc. pose proof (good_SInv sys i s Hr Hi) as Hw.
  destruct (seen_tid _ _ relid Hw t Ht) as [Htw Hto].
  assert (Hreach : reaches (fastpg_storage2_relation_next_scan_block relid start include (world sys s)) (tid_block t) (tid_offset t)).
  { unfold fastpg_storage2_relation_next_scan_block. destruct (seen_candidate _ _ relid Hw t Ht) as [Hl|Ho].
    - destruct (si_counted _ _ Hw relid) as [Hwf _]. destruct (live_reached _ start include t Hwf Hl Hb Hs0) as (b & m & Hin & Hm & Hb' & Hle).
      apply (reaches_le _ b m); [|lia|done]. apply considered; [|done|lia]. apply elem_of_app. left.
      unfold rel, relation_of in Hin, Hl. destruct (relations (w_storage (world sys s)) !! relid); [done|]. cbn in Hl. set_solver.
    - pose proof Ho as (o & Hos & Hot)%owned_elem. destruct Hinc as [->|Hinc].
      + apply considered; [|lia|done]. apply elem_of_app. right. apply list_elem_of_bind. exists o. split; [by apply own_reached|done].
      + unfold fastpg_storage2_relation_current_session_owns_inserted_tid, owns_inserted_tid in Hinc. rewrite unpack_pack in Hinc by (done || lia).
        rewrite own_inserted_owned in Hinc by (pose proof (SInv_no_clears _ _ Hw) as Hn; by apply Forall_app in Hn as [? _]).
        by apply bool_decide_eq_false in Hinc. }
  destruct Hreach as (b & m & E & Hbm). exists b, m. split; [done|]. split; [|lia]. split; [|lia].
  eapply considered_bound; [|exact E]. done.
Qed.

(** ** Unique indexes *)

Lemma visible_tids_seen R w relid t : SInv R w → t ∈ visible_tids (w_storage w) (w_session w) relid ↔ is_Some (seen w relid t).
Proof.
  intros Hw. unfold visible_tids. rewrite list_elem_of_filter. split; [by intros [? _]|]. intros Ht. split; [done|].
  unfold tid_iter. rewrite btree_iter_elem, elem_of_list_to_set, elem_of_app.
  destruct (seen_candidate R w relid Hw t Ht) as [Hl|(o & Ho & Hot)%owned_elem]; [left|right].
  - unfold rel, relation_of in Hl. destruct (relations (w_storage w) !! relid); [|cbn in Hl; set_solver]. unfold tid_iter. by rewrite btree_iter_elem.
  - apply list_elem_of_In, in_concat. exists (tids_of relid (inserted_tids o)). rewrite <- !list_elem_of_In.
    split; [|done]. apply list_elem_of_fmap. by exists o.
Qed.

Lemma visible_tids_NoDup st s relid : NoDup (visible_tids st s relid).
Proof. apply NoDup_filter, btree_iter_NoDup. Qed.

(** The key of a row that the session sees. *)
Definition key_of (w : World) (relid : Z) (spec : UniqueIndexSpec) (t : Tid) : option IndexKey :=
  tuple ← find_visible_tuple (w_storage w) (w_session w) relid t; index_key_for_decoded spec (dt_values tuple).

Lemma index_entries_elem w relid spec k t : (k, t) ∈ index_entries (w_storage w) (w_session w) relid spec ↔
  t ∈ visible_tids (w_storage w) (w_session w) relid ∧ key_of w relid spec t = Some k.
Proof.
  unfold index_entries, key_of. rewrite list_elem_of_omap. split.
  - intros (t' & Ht & E). destruct (find_visible_tuple _ _ _ t') as [tuple|] eqn:Ef; [|done]. cbn in E.
    destruct (index_key_for_decoded _ _) eqn:Ek; [|done]. cbn in E. injection E as -> ->. by rewrite Ef.
  - intros [Ht E]. exists t. split; [done|]. destruct (find_visible_tuple _ _ _ t) as [tuple|]; [|done]. cbn in *. by rewrite E.
Qed.

Lemma index_entries_NoDup w relid spec : NoDup (index_entries (w_storage w) (w_session w) relid spec).*2.
Proof.
  unfold index_entries. pose proof (visible_tids_NoDup (w_storage w) (w_session w) relid) as Hn.
  induction Hn as [|t l Ht Hn IH]; [constructor|]. cbn. destruct (find_visible_tuple _ _ _ t) as [tuple|]; cbn; [|done].
  destruct (index_key_for_decoded _ _); cbn; [|done]. constructor; [|done]. intros ([k t'] & -> & Hin)%list_elem_of_fmap.
  apply list_elem_of_omap in Hin as (t2 & Ht2 & E). destruct (find_visible_tuple _ _ _ t2); [|done]. cbn in E.
  destruct (index_key_for_decoded _ _); [|done]. cbn in E. by injection E as -> ->.
Qed.

(** The loop finds a key that is in [seen] or comes twice. *)
Lemma validate_loop_spec entries found : NoDup entries.*2 →
  (∀ k t, found !! k = Some t → (k, t) ∈ entries → False) →
  match validate_loop entries found with
  | None => (∀ k t, (k, t) ∈ entries → found !! k = None) ∧ ∀ k t t', (k, t) ∈ entries → (k, t') ∈ entries → t = t'
  | Some t => ∃ k t', (k, t') ∈ entries ∧ t ≠ t' ∧ (found !! k = Some t ∨ (k, t) ∈ entries)
  end.
Proof.
  revert found. induction entries as [|[k t] l IH]; intros found Hn Hd.
  { cbn. split; [intros k t Hin|intros k t t' Hin]; by apply not_elem_of_nil in Hin. }
  cbn in Hn. apply NoDup_cons in Hn as [Ht Hn]. cbn. destruct (found !! k) as [t0|] eqn:Ek.
  { exists k, t. split; [by left|]. split; [|by left]. intros ->. apply (Hd k t); [done|by left]. }
  assert (Hk : ∀ k', (k', t) ∉ l) by (intros k' Hin; apply Ht, list_elem_of_fmap; by exists (k', t)).
  specialize (IH (<[k := t]> found) Hn). destruct (validate_loop l (<[k:=t]> found)) as [t0|].
  - destruct IH as (k' & t' & Hin & Hne & Hf).
    { intros k' t'. rewrite lookup_insert. case_decide as E; [|intros ??; apply (Hd k' t'); [done|by right]].
      intros [= <-] Hin. by apply (Hk k'). }
    exists k', t'. split; [by right|]. split; [done|]. rewrite lookup_insert in Hf. case_decide as E.
    + subst k'. right. destruct Hf as [[= <-]|?]; [by left|by right].
    + destruct Hf as [?|?]; [by left|right; by right].
  - destruct IH as [H1 H2].
    { intros k' t'. rewrite lookup_insert. case_decide as E; [|intros ??; apply (Hd k' t'); [done|by right]].
      intros [= <-] Hin. by apply (Hk k'). }
    assert (Hkl : ∀ t', (k, t') ∉ l) by (intros t' Hin; specialize (H1 k t' Hin); by rewrite lookup_insert_eq in H1).
    split.
    + intros k' t' [Hin|Hin]%elem_of_cons; [by injection Hin as -> ->|]. specialize (H1 k' t' Hin). rewrite lookup_insert in H1. by case_decide.
    + intros k' t1 t2 [Hin1|Hin1]%elem_of_cons [Hin2|Hin2]%elem_of_cons; [|injection Hin1 as -> ->|injection Hin2 as -> ->|by eapply H2].
      * congruence.
      * by apply Hkl in Hin2.
      * by apply Hkl in Hin1.
Qed.

(** C18: The validation of a unique index answers no row exactly if no two rows
    that the session sees have one key, and otherwise a row that shares its key
    with another one. *)
Theorem unique_validation_exact sys i s index relid cols nulls spec : reachable sys → sy_sessions sys !! i = Some s →
  unique_index_spec_from_ffi index relid cols false nulls = Some spec →
  let w := world sys s in
  let view := sees_row (sy_storage sys) (transaction_stack s) relid in
  match fastpg_storage2_unique_index_validate_with_spec index relid cols nulls w with
  | None => ∀ t t' k, is_Some (view t) → is_Some (view t') → key_of w relid spec t = Some k → key_of w relid spec t' = Some k → t = t'
  | Some p => ∃ t t' k, p = pack t ∧ t ≠ t' ∧ is_Some (view t) ∧ is_Some (view t') ∧
      key_of w relid spec t = Some k ∧ key_of w relid spec t' = Some k
  end.
Proof.
  intros Hr%reachable_good Hi Hspec w view. pose proof (good_SInv sys i s Hr Hi) as Hw. fold w in Hw.
  unfold fastpg_storage2_unique_index_validate_with_spec. rewrite Hspec. cbn [mbind option_bind].
  pose proof (validate_loop_spec (index_entries (w_storage w) (w_session w) relid spec) ∅ (index_entries_NoDup w relid spec)) as Hv.
  assert (He : ∀ k t, (k, t) ∈ index_entries (w_storage w) (w_session w) relid spec ↔ is_Some (view t) ∧ key_of w relid spec t = Some k).
  { intros k t. rewrite index_entries_elem, (visible_tids_seen _ _ _ _ Hw). done. }
  destruct (validate_loop _ _) as [t|]; cbn.
  - destruct Hv as (k & t' & Hin & Hne & [Hx|Hin']); [by intros|by rewrite lookup_empty in Hx|]. apply He in Hin as [? ?], Hin' as [? ?].
    by exists t, t', k.
  - destruct Hv as [_ Hv]; [by intros|]. intros t t' k ? ? ? ?. apply (Hv k); by apply He.
Qed.

(** C28: The search for a conflict in a unique index that is not the primary
    one finds a row exactly if a row that the session sees has the key and is
    not the row that is being replaced. *)
Theorem unique_conflict_exact sys i s index relid cols values isnull nulls replacing spec key : reachable sys → sy_sessions sys !! i = Some s →
  unique_index_spec_from_ffi index relid cols false nulls = Some spec →
  index_key_for_key_datums mem fuel spec values isnull = Some key →
  let w := world sys s in
  let view := sees_row (sy_storage sys) (transaction_stack s) relid in
  let replaced t := ∃ t0, unpack replacing = Some t0 ∧ t = resolve_tid_redirect_in_overlays (sy_storage sys) (transaction_stack s) relid t0 in
  match fastpg_storage2_unique_index_conflict_with_spec mem fuel index relid cols values isnull false nulls replacing w with
  | None => ∀ t, is_Some (view t) → key_of w relid spec t = Some key → replaced t
  | Some p => ∃ t, p = pack t ∧ is_Some (view t) ∧ key_of w relid spec t = Some key ∧ ¬ replaced t
  end.
Proof.
  intros Hr%reachable_good Hi Hspec Hkey w view replaced. pose proof (good_SInv sys i s Hr Hi) as Hw. fold w in Hw.
  unfold fastpg_storage2_unique_index_conflict_with_spec. rewrite Hspec. cbn [mbind option_bind]. rewrite Hkey. cbn [mbind option_bind].
  assert (Hp : is_primary spec = false).
  { unfold unique_index_spec_from_ffi in Hspec. destruct cols; [done|]. destruct (mapM _ _); [|done]. cbn in Hspec. by injection Hspec as <-. }
  unfold index_conflict, find_visible_by_index_key_excluding_read. rewrite Hp.
  assert (Er : (if replacing =? 0 then None else unpack replacing) = unpack replacing).
  { destruct (Z.eqb_spec replacing 0) as [->|]; [by vm_compute|done]. }
  rewrite Er. set (repl := resolve_tid_redirect_in_overlays _ _ _ <$> unpack replacing).
  assert (Hrepl : ∀ t, Some t = repl ↔ replaced t).
  { intros t. unfold repl, replaced. destruct (unpack replacing) as [t0|]; cbn; [|split; [done|by intros (? & ? & _)]].
    split; [intros [= ->]; by exists t0|]. by intros (? & [= <-] & ->). }
  destruct (List.find _ _) as [t|] eqn:E; cbn.
  - apply find_some in E as [Hin [H1%negb_true_iff%bool_decide_eq_false H2%bool_decide_eq_true]%andb_true_iff].
    apply list_elem_of_In, (visible_tids_seen _ _ _ _ Hw) in Hin. exists t. split; [done|]. split; [done|]. split; [done|]. by rewrite <- Hrepl.
  - intros t Ht Hk. apply Hrepl. apply (visible_tids_seen _ _ _ _ Hw) in Ht. pose proof (find_none _ _ E t Ht) as Hf.
    apply andb_false_iff in Hf as [Hf%negb_false_iff%bool_decide_eq_true|Hf%bool_decide_eq_false]; [done|]. by destruct Hf.
Qed.

(** ** Entries *)

(** What a change of the top overlay leaves behind, in a transaction that is begun for it. *)
Lemma entries_run f w : let m := modify (on_session ensure_transaction);; in_overlay (modify f);; mret true in
  ∃ w' S o, m w = (Ok true, w') ∧ w_storage w' = w_storage w ∧ w_row_counts w' = w_row_counts w ∧ w_stack w' = S ++ [f o] ∧
    (w_stack w = S ++ [o] ∨ w_stack w = [] ∧ S = [] ∧ o = overlay_default).
Proof.
  cbv zeta. set (w1 := on_session ensure_transaction w).
  assert (∃ S o, w_stack w1 = S ++ [o] ∧ (w_stack w = S ++ [o] ∨ w_stack w = [] ∧ S = [] ∧ o = overlay_default)) as (S & o & E1 & E).
  { unfold w1, w_stack, on_session, ensure_transaction. cbn. destruct (transaction_stack (w_session w)) as [|o l] eqn:E.
    - exists [], overlay_default. cbn. split; [done|]. by right.
    - destruct (exists_last (l := o :: l)) as (S & o' & E2); [done|]. exists S, o'. rewrite E2 in E |- *. split; [done|by left]. }
  exists (on_session (last_overlay_mut (λ _, f o)) w1), S, o. split; [|split; [done|split; [done|split; [|done]]]].
  - unfold mbind, M_bind. cbn -[in_overlay]. fold w1. unfold in_overlay. rewrite E1, last_snoc. done.
  - apply set_top. rewrite E1. unfold top. by rewrite E1, last_snoc.
Qed.

(** Redirects are looked up as before. *)
Definition same_redirects (f : TransactionOverlay → TransactionOverlay) : Prop :=
  ∀ o, hot_redirect_inserts (f o) = hot_redirect_inserts o ∧ update_redirect_inserts (f o) = update_redirect_inserts o.

Lemma foldl_redirects {A} (f : TransactionOverlay → A → TransactionOverlay) l : (∀ a, same_redirects (λ o, f o a)) →
  same_redirects (λ o, foldl f o l).
Proof.
  intros Hf. induction l as [|a l IH]; intros o; cbn; [done|]. destruct (IH (f o a)) as [-> ->]. apply (Hf a o).
Qed.

Lemma entries_settled f w w' S o relid t : same_redirects f → w_storage w' = w_storage w → w_stack w' = S ++ [f o] →
  (w_stack w = S ++ [o] ∨ w_stack w = [] ∧ S = [] ∧ o = overlay_default) → settled w relid t → settled w' relid t.
Proof.
  intros Hf Est E' E Hs hot. rewrite <- (Hs hot). unfold next_redirect, overlay_tid_redirect, overlay_update_redirect. rewrite Est, E', reverse_app. cbn.
  destruct (Hf o) as [E1 E2]. rewrite E1, E2. destruct E as [->|(-> & -> & ->)]; [by rewrite reverse_app|by destruct hot].
Qed.

(** The state after a change of entries: the session sees what it saw. *)
Lemma entries_after R f w : SInv R w → same_redirects f → (∀ o, ocore (f o) = ocore o) →
  let m := modify (on_session ensure_transaction);; in_overlay (modify f);; mret true in
  ∃ w' S o, m w = (Ok true, w') ∧ w_row_counts w' = w_row_counts w ∧ w_stack w' = S ++ [f o] ∧
    (w_stack w = S ++ [o] ∨ w_stack w = [] ∧ S = [] ∧ o = overlay_default) ∧
    (∀ relid t, settled w relid t → settled w' relid t) ∧ ∀ relid t, seen w' relid t = seen w relid t.
Proof.
  intros Hw Hf Hc. cbv zeta. destruct (entries_run f w) as (w' & S & o & E1 & E2 & E3 & E4 & E5). exists w', S, o.
  split; [done|]. split; [done|]. split; [done|]. split; [done|]. split; [intros relid t; by eapply entries_settled|].
  pose proof (calm_triple _ _ _ _ (seen w) (calm_entries (lower w) (claimed (lower w ++ R)) (held (lower w ++ R)) f Hc)) as Ht.
  destruct (Ht w (SInv_Inv R w Hw)) as (_ & _ & Hv); [by intros ??|]. rewrite E1 in Hv. intros relid t. by apply (Hv true).
Qed.

Lemma settled_resolve w relid t : settled w relid t →
  resolve_update_redirect_in_overlays (w_storage w) (w_stack w) relid t = t ∧
  resolve_tid_redirect_in_overlays (w_storage w) (w_stack w) relid t = t ∧
  resolve_overlay_update_redirect (w_stack w) relid t = t ∧ resolve_overlay_tid_redirect (w_stack w) relid t = t.
Proof.
  intros Hs. pose proof (settled_overlay _ _ _ Hs) as (H1 & H2 & _).
  split; [apply resolve_loop_settled, (Hs false)|]. split; [apply resolve_loop_settled, (Hs true)|].
  split; by apply resolve_loop_settled.
Qed.

Lemma collect_tids_elem visible max l out out' : collect_tids visible max l out = Some out' →
  out ⊆ out' ∧ ∀ t, t ∈ l → ∃ t', visible t = Some t' ∧ t' ∈ out'.
Proof.
  revert out. induction l as [|t l IH]; intros out; cbn.
  { intros [= <-]. split; [done|]. by intros t ?%not_elem_of_nil. }
  destruct (visible t) as [t'|] eqn:E; [|done]. cbn. destruct (_ <=? _); [|done]. intros [Hs Hl]%IH. split; [set_solver|].
  intros x [->|Hx]%elem_of_cons; [|by apply Hl]. exists t'. split; [done|]. set_solver.
Qed.

(** The index of the overlay has the row under the key. *)
Definition has_entry (relid index : Z) (key : IndexKey) (t : Tid) (o : TransactionOverlay) : Prop :=
  ∃ ms idx l, relid_get relid (index_inserts o) = Some ms ∧ ms !! index = Some idx ∧ idx !! key = Some l ∧ t ∈ l.

Lemma has_entry_new relid index key t o : has_entry relid index key t (ov_insert_index_entry relid index key t o).
Proof.
  unfold has_entry, ov_insert_index_entry. cbn [index_inserts set_index_inserts]. rewrite relid_get_entry, decide_True by done.
  eexists _, _, _. split; [done|]. split; [apply lookup_insert_eq|]. split; [apply lookup_insert_eq|].
  unfold push_unique. case_bool_decide; [done|]. apply elem_of_app. right. by left.
Qed.
Lemma has_entry_old relid index key key' t t' o : has_entry relid index key t o → has_entry relid index key t (ov_insert_index_entry relid index key' t' o).
Proof.
  intros (ms & idx & l & H1 & H2 & H3 & H4). unfold has_entry, ov_insert_index_entry. cbn [index_inserts set_index_inserts].
  rewrite relid_get_entry, decide_True, H1 by done. cbn [default]. unfold id. rewrite H2. cbn [default]. unfold id.
  eexists _, _. destruct (decide (key = key')) as [<-|].
  - eexists. split; [done|]. split; [apply lookup_insert_eq|]. split; [apply lookup_insert_eq|]. rewrite H3. cbn. unfold push_unique.
    case_bool_decide; [done|]. apply elem_of_app. by left.
  - exists l. split; [done|]. split; [apply lookup_insert_eq|]. split; [|done]. by rewrite lookup_insert_ne.
Qed.

Lemma prefix_entry relid index t (keys : nat → option IndexKey) l n key o : n ∈ l → keys n = Some key →
  has_entry relid index key t (foldl (λ o n, match keys n with Some key => ov_insert_index_entry relid index key t o | None => o end) o l).
Proof.
  intros Hn Hk. revert o. induction l as [|x l IH]; intros o; [by apply not_elem_of_nil in Hn|]. cbn.
  apply elem_of_cons in Hn as [<-|Hn]; [|by apply IH]. rewrite Hk. clear IH.
  generalize (has_entry_new relid index key t o). generalize (ov_insert_index_entry relid index key t o).
  induction l as [|x l IH]; intros o' Ho; [done|]. cbn. apply IH. destruct (keys x); [by apply has_entry_old|done].
Qed.

(** A key without nulls is the same whether or not nulls are distinct. *)
Lemma key_datums_nulls spec spec' values isnull key : columns spec' = columns spec → nulls_not_distinct spec = false →
  index_key_for_key_datums mem fuel spec values isnull = Some key → index_key_for_key_datums mem fuel spec' values isnull = Some key.
Proof.
  intros Ec Hn. unfold index_key_for_key_datums. rewrite Ec. destruct (_ || _); [done|].
  assert (Hp : ∀ c v nl p, index_key_part_for_key_datum mem fuel spec c v nl = Some p → index_key_part_for_key_datum mem fuel spec' c v nl = Some p).
  { intros c v nl p. unfold index_key_part_for_key_datum, null_part. rewrite Hn. by destruct (negb _). }
  assert (Hm : ∀ cvn ps, mapM (λ cvn, index_key_part_for_key_datum mem fuel spec cvn.1 cvn.2.1 cvn.2.2) cvn = Some ps →
    mapM (λ cvn, index_key_part_for_key_datum mem fuel spec' cvn.1 cvn.2.1 cvn.2.2) cvn = Some ps).
  { intros cvn ps. rewrite !mapM_Some. intros HF. eapply Forall2_impl; [exact HF|]. intros x y. apply Hp. }
  assert (Hg : ∀ cvn, key_of_parts <$> mapM (λ cvn, index_key_part_for_key_datum mem fuel spec cvn.1 cvn.2.1 cvn.2.2) cvn = Some key →
    key_of_parts <$> mapM (λ cvn, index_key_part_for_key_datum mem fuel spec' cvn.1 cvn.2.1 cvn.2.2) cvn = Some key).
  { intros cvn. destruct (mapM _ cvn) as [ps|] eqn:E; [|done]. by rewrite (Hm _ _ E). }
  destruct (columns spec) as [|c [|c' cs]], values as [|v vs], isnull as [|nl nls]; try apply Hg.
  cbn. destruct (index_key_part_for_key_datum mem fuel spec c v nl) as [p|] eqn:E; [|done]. by rewrite (Hp _ _ _ _ E).
Qed.

Lemma ffi_spec_columns index relid cols primary nulls spec : unique_index_spec_from_ffi index relid cols primary nulls = Some spec →
  mapM ffi_column cols = Some (columns spec) ∧ nulls_not_distinct spec = nulls.
Proof.
  unfold unique_index_spec_from_ffi. destruct cols as [|c cols]; [done|]. destruct (mapM ffi_column (c :: cols)); [|done]. cbn. by intros [= <-].
Qed.

Lemma prefix_columns index relid cols n spec0 spec1 : unique_index_spec_from_ffi index relid cols false true = Some spec0 →
  unique_index_spec_from_ffi index relid (take n cols) false false = Some spec1 → columns (with_prefix n spec0) = columns spec1.
Proof.
  intros [H1 _]%ffi_spec_columns [H2 _]%ffi_spec_columns. cbn. rewrite mapM_Some in H1, H2.
  apply (Forall2_take _ _ _ n), mapM_Some in H1. apply mapM_Some in H2. congruence.
Qed.

Lemma overlay_entry_listed relid index key t w S o : w_stack w = S ++ [o] → has_entry relid index key t o →
  t ∈ concat (overlay_index_tids (under_key key) relid index w).
Proof.
  intros E (ms & idx & l & H1 & H2 & H3 & H4). apply list_elem_of_In, in_concat. exists l. rewrite <- !list_elem_of_In. split; [|done].
  unfold overlay_index_tids. apply list_elem_of_omap. exists o. split; [rewrite E; apply elem_of_app; right; by left|].
  rewrite H1. cbn. rewrite H2. cbn. done.
Qed.

(** Whichever entries are collected, a row that no redirect leaves is among the rows. *)
Lemma prefix_matches relid index key max t w tids : settled w relid t → is_Some (seen w relid t) →
  t ∈ concat (overlay_index_tids (under_key key) relid index w) →
  own_or_all relid (collect_overlay_index_prefix_matches relid index key max w) (collect_index_prefix_matches relid index key max w) w = Some tids →
  t ∈ tids.
Proof.
  intros Hs [b Hb] Hin. destruct (settled_resolve w relid t Hs) as (E1 & E2 & E3 & E4). unfold own_or_all.
  destruct (if committed_row_count_cached relid w =? 0 then _ else _) as [l|] eqn:El.
  - intros [= <-]. destruct (_ =? 0); [|done]. unfold collect_overlay_index_prefix_matches, collect_seen in El.
    destruct (collect_tids _ _ _ _) as [out|] eqn:Ec; [|done]. cbn in El. apply collect_tids_elem in Ec as [_ Ec].
    destruct (Ec t Hin) as (t' & Ht' & Ho). unfold visible_overlay_index_candidate_tid in Ht'. rewrite E3, E4 in Ht'.
    destruct (overlay_visible_tuple_slice _ _ _ _); [|done]. cbn in Ht'. injection Ht' as <-.
    destruct (overlay_index_tids _ _ _ _); [done|]. injection El as <-. unfold tid_iter. by rewrite btree_iter_elem.
  - unfold collect_index_prefix_matches. destruct (collect_tids _ _ _ _) as [out|] eqn:Ec; [|done]. cbn. intros [= <-].
    apply collect_tids_elem in Ec as [_ Ec]. destruct (Ec t) as (t' & Ht' & Ho); [apply elem_of_app; by right|].
    unfold visible_index_candidate_tid, visible_tuple_slice_in_overlays in Ht'. rewrite E1, E2, E2 in Ht'.
    change (physical_visible_tuple_slice_in_overlays (w_storage w) (w_stack w) relid t) with (seen w relid t) in Ht'. rewrite Hb in Ht'. cbn in Ht'. injection Ht' as <-. unfold tid_iter. by rewrite btree_iter_elem.
Qed.

(** C22: An entry made in an index for a row that the session sees, by an
    identifier that no redirect leads on from, is found under every prefix of
    its key: a search for the prefix returns the row among others, or gives up. *)
Theorem index_entry_found sys i s index relid cols values isnull t n max w' tids : reachable sys → sy_sessions sys !! i = Some s →
  is_Some (sees_row (sy_storage sys) (transaction_stack s) relid t) → settled (world sys s) relid t →
  fastpg_storage2_index_insert_with_spec mem fuel index relid cols values isnull (pack t) (world sys s) = (Ok true, w') →
  (1 <= n <= length values)%nat →
  fastpg_storage2_index_prefix_lookup_with_spec mem fuel index relid (take n cols) (take n values) (take n isnull) max w' = Some tids →
  pack t ∈ tids.
Proof.
  intros Hr%reachable_good Hi Ht Hs Hins Hn. pose proof (good_SInv sys i s Hr Hi) as Hw. destruct (seen_tid _ _ relid Hw t Ht) as [Htw Hto].
  unfold fastpg_storage2_index_insert_with_spec in Hins. rewrite unpack_pack in Hins by (done || lia). cbn in Hins.
  destruct (unique_index_spec_from_ffi index relid cols false true) as [spec0|] eqn:E0; [|done]. cbn [mbind option_bind given] in Hins.
  match type of Hins with (modify _;; in_overlay (modify ?f);; _) _ = _ => destruct (entries_after _ f (world sys s) Hw) as (w1 & S & o & R1 & _ & R2 & _ & R3 & R4) end.
  { apply foldl_redirects. intros x o. by destruct (index_key_for_key_datums _ _ _ _ _). }
  { intros o. apply foldl_ocore. intros o' x. by destruct (index_key_for_key_datums _ _ _ _ _). }
  rewrite R1 in Hins. injection Hins as <-. unfold fastpg_storage2_index_prefix_lookup_with_spec. destruct (max =? 0); [done|].
  destruct (unique_index_spec_from_ffi index relid (take n cols) false false) as [spec1|] eqn:E1; [|done]. cbn [mbind option_bind].
  destruct (index_key_for_key_datums mem fuel spec1 (take n values) (take n isnull)) as [key|] eqn:Ek; [|done]. cbn [mbind option_bind].
  destruct (own_or_all _ _ _ _) as [l|] eqn:El; [|done]. cbn. intros [= <-]. apply list_elem_of_fmap. exists t. split; [done|].
  apply (prefix_matches relid index key max t w1); [by apply R3|by rewrite R4| |exact El].
  eapply (overlay_entry_listed relid index key t w1 S); [exact R2|].
  apply (prefix_entry relid index t (λ n, index_key_for_key_datums mem fuel (with_prefix n spec0) (take n values) (take n isnull)) _ n).
  - apply elem_of_seq. lia.
  - eapply (key_datums_nulls spec1); [by eapply prefix_columns|by apply ffi_spec_columns in E1 as [_ ?]|done].
Qed.

(** ** The primary index *)

Lemma overlay_visible_entries S o x relid t :
  overlay_visible_tuple_slice (S ++ [set_primary_key_inserts x o]) relid t None = overlay_visible_tuple_slice (S ++ [o]) relid t None.
Proof.
  unfold overlay_visible_tuple_slice. destruct S as [|a [|b S]]; [done|done|]. cbn [app].
  unfold overlays_invalidate_tid, overlays_clear_tid, overlay_pending_tuple_slice.
  change (a :: b :: S ++ [set_primary_key_inserts x o]) with ((a :: b :: S) ++ [set_primary_key_inserts x o]).
  change (a :: b :: S ++ [o]) with ((a :: b :: S) ++ [o]). by rewrite !reverse_app.
Qed.

Lemma seen_not_invalidated w relid t : is_Some (seen w relid t) → overlays_invalidate_tid (w_stack w) relid t = false.
Proof.
  change (seen w relid t) with (physical_visible_tuple_slice_in_overlays (w_storage w) (w_stack w) relid t). rewrite fast_visible. unfold generic_visible. destruct (overlays_invalidate_tid _ _ _); [by intros [? ?]|done].
Qed.

(** The entry of the top overlay is found. *)
Lemma top_entry_found w relid key t S o : w_stack w = S ++ [insert_primary_key relid key t o] → settled w relid t →
  is_Some (seen w relid t ≫= decode_tuple t) →
  (committed_row_count_cached relid w = 0 → is_Some (overlay_visible_tuple_slice (w_stack w) relid t None)) →
  primary_key_overlay_lookup_current_session relid key w = OFound t.
Proof.
  intros E Hs Hd Hc. destruct (settled_resolve w relid t Hs) as (_ & _ & E3 & _).
  assert (Hinv : overlays_invalidate_tid (w_stack w) relid t = false).
  { apply seen_not_invalidated. destruct (seen w relid t); [done|by destruct Hd]. }
  assert (Hl : ∀ visible, visible t = true →
    primary_key_overlays (visible_entry relid visible w) relid key (reverse (w_stack w)) = Some (Some t)).
  { intros visible Hv. rewrite E, reverse_app. cbn [reverse rev_append app primary_key_overlays].
    unfold insert_primary_key. cbn [primary_key_inserts set_primary_key_inserts]. rewrite relid_get_entry, decide_True by done. cbn [mbind option_bind].
    rewrite lookup_insert_eq. cbn [mbind option_bind]. unfold visible_entry. rewrite E3, Hv, Hinv. done. }
  assert (Hf : bool_decide (is_Some (find_visible_tuple (w_storage w) (w_session w) relid t)) = true).
  { apply bool_decide_eq_true. by rewrite (settled_find_visible w (seen w)). }
  unfold primary_key_overlay_lookup_current_session. destruct (Z.eqb_spec (committed_row_count_cached relid w) 0) as [Hz|Hz].
  - rewrite (Hl (λ t, bool_decide (is_Some (overlay_visible_tuple_slice (w_stack w) relid t None)))); [done|].
    by apply bool_decide_eq_true, Hc.
  - by rewrite (Hl (λ t, bool_decide (is_Some (find_visible_tuple (w_storage w) (w_session w) relid t)))).
Qed.

(** C19: A key of the primary index that was recorded for a readable row that
    the session sees, by an identifier that no redirect leads on from, leads to
    the row. Another row of the key is a conflict, and the row itself is none.
    While the relation has no committed row the row has to be on a page of the
    transaction. *)
Theorem primary_key_found sys i s index relid cols values isnull t w' : reachable sys → sy_sessions sys !! i = Some s →
  is_Some (sees_row (sy_storage sys) (transaction_stack s) relid t ≫= decode_tuple t) → settled (world sys s) relid t →
  (committed_row_count_cached relid (world sys s) = 0 → is_Some (overlay_visible_tuple_slice (transaction_stack s) relid t None)) →
  fastpg_storage2_primary_key_index_insert_with_spec mem fuel index relid cols values isnull (pack t) (world sys s) = (Ok true, w') →
  fastpg_storage2_primary_key_index_lookup_with_spec mem fuel index relid cols values isnull w' = (Ok (Some (pack t)), w') ∧
  fastpg_storage2_unique_index_conflict_with_spec mem fuel index relid cols values isnull true false 0 w' = Some (pack t) ∧
  fastpg_storage2_unique_index_conflict_with_spec mem fuel index relid cols values isnull true false (pack t) w' = None.
Proof.
  intros Hr%reachable_good Hi Ht Hs Hc Hins. pose proof (good_SInv sys i s Hr Hi) as Hw.
  assert (is_Some (seen (world sys s) relid t)) as Hsee.
  { change (sees_row _ _ _ _) with (seen (world sys s) relid t) in Ht. destruct (seen _ _ _); [done|by destruct Ht]. }
  destruct (seen_tid _ _ relid Hw t Hsee) as [Htw Hto]. assert (Hup : unpack (pack t) = Some t) by (apply unpack_pack; [done|lia]).
  unfold fastpg_storage2_primary_key_index_insert_with_spec in Hins. rewrite Hup in Hins. cbn [mbind option_bind] in Hins.
  destruct (unique_index_spec_from_ffi index relid cols true false) as [spec|] eqn:Espec; [|done]. cbn [mbind option_bind] in Hins.
  destruct (index_key_for_key_datums mem fuel spec values isnull) as [key|] eqn:Ek; [|done]. cbn [mbind option_bind given] in Hins.
  destruct (entries_after _ (insert_primary_key relid key t) (world sys s) Hw) as (w1 & S & o & R1 & Rc & R2 & R5 & R3 & R4); [done|done|].
  rewrite R1 in Hins. injection Hins as <-.
  assert (Hfound : primary_key_overlay_lookup_current_session relid key w1 = OFound t).
  { apply (top_entry_found w1 relid key t S o); [done|by apply R3|by rewrite R4|]. unfold committed_row_count_cached in *. rewrite Rc. intros H1%Hc.
    rewrite R2. unfold insert_primary_key. rewrite overlay_visible_entries. destruct R5 as [E|(E & _)]; unfold w_stack in E; cbn in E; rewrite E in H1; [done|].
    by destruct H1. }
  destruct (settled_resolve w1 relid t (R3 _ _ Hs)) as (_ & _ & E3 & _).
  assert (Hp : is_primary spec = true).
  { unfold unique_index_spec_from_ffi in Espec. destruct cols; [done|]. destruct (mapM _ _); [|done]. cbn in Espec. by injection Espec as <-. }
  split; [|split].
  - unfold fastpg_storage2_primary_key_index_lookup_with_spec. rewrite Espec. cbn [mbind option_bind]. rewrite Ek. cbn [mbind option_bind given].
    unfold lookup_primary_key, packed, mbind, M_bind, gets. by rewrite Hfound.
  - unfold fastpg_storage2_unique_index_conflict_with_spec. rewrite Espec. cbn [mbind option_bind]. rewrite Ek. cbn [mbind option_bind].
    unfold index_conflict, primary_key_conflict_current_session_or_empty. by rewrite Hp, Hfound.
  - unfold fastpg_storage2_unique_index_conflict_with_spec. rewrite Espec. cbn [mbind option_bind]. rewrite Ek. cbn [mbind option_bind].
    unfold index_conflict, primary_key_conflict_current_session_or_empty, resolve_replacing_tid_current_session. rewrite Hp, Hfound, Hup.
    destruct (Z.eqb_spec (pack t) 0) as [E0|]; [rewrite E0 in Hup; by vm_compute in Hup|]. cbn [fmap option_fmap option_map]. rewrite E3. by rewrite bool_decide_eq_true_2.
Qed.
End theorems.
End EngFfiTheorems.
