(* ===== verification/EngLink.v ===== *)
(** * The table access method on the second engine

    The handlers of TupleOps.v, which know the engines by the calls they make of
    them, with the calls of the second engine carried out by the engine of
    EngFfi.v.  What is left open are the first engine, the numbering of
    transactions and the reading of a row for the clean-up of toasted values. *)

From Stdlib Require Import ZArith Lia.
From stdpp Require Import base tactics numbers list gmap strings sorting.
From S2P Require Import Prelude RowIds RowState TupleOps RustStd EngTid EngTuple EngTupleProofs EngPage EngPageProofs EngIndex EngRelation EngRelationProofs EngOverlay EngState EngOps EngScan EngFfi EngInv EngAppend EngOutcomes EngCalls EngSession EngSystem EngScanProofs.

Local Open Scope Z_scope.

Module EngLink.

(** ** Identifiers *)

Definition tid_of (tid : RowIds.ItemPointerData) : Tid := mkTid (RowIds.ip_blkid tid) (RowIds.ip_posid tid).
Definition item_pointer (t : Tid) : RowIds.ItemPointerData := {| RowIds.ip_blkid := tid_block t; RowIds.ip_posid := tid_offset t |}.

Lemma item_pointer_of tid : item_pointer (tid_of tid) = tid.
Proof. by destruct tid. Qed.

Lemma packed_alike tid : RowIds.tid_wf tid → RowIds.OffsetNumberIsValid (RowIds.ip_posid tid) = true →
  RowIds.fastpg_mem_tid_to_storage2_tid tid = pack (tid_of tid) ∧ unpack (pack (tid_of tid)) = Some (tid_of tid) ∧
  RowIds.fastpg_mem_storage2_tid_to_tid (pack (tid_of tid)) = Some tid.
Proof.
  intros Hw Hv. destruct (proj1 RowIds.storage2_tid_roundtrip tid Hw Hv) as [_ Hr].
  assert (E : RowIds.fastpg_mem_tid_to_storage2_tid tid = pack (tid_of tid)).
  { unfold RowIds.fastpg_mem_tid_to_storage2_tid. rewrite Hv. cbn [negb]. unfold pack, tid_of. cbn [tid_block tid_offset].
    rewrite wrap64_small; [done|]. destruct Hw as [Hb _]. unfold is_u32, is_u64 in *. rewrite Z.shiftl_mul_pow2 by lia. pow2. lia. }
  rewrite E in Hr. split; [done|]. split; [|done]. apply unpack_pack; [done|]. cbn. intros Hz. by rewrite Hz in Hv.
Qed.

Lemma unpacked_alike v tid : is_u64 v → RowIds.fastpg_mem_storage2_tid_to_tid v = Some tid → unpack v = Some (tid_of tid).
Proof.
  intros Hv Ht. destruct (proj2 RowIds.storage2_tid_roundtrip v tid Hv Ht) as (Hw & Ho & <-).
  by destruct (packed_alike tid Hw Ho) as (-> & ? & _).
Qed.

(** ** The engine behind the handlers *)

Section link.
Context `{Target, Catalog} (mem : Z → Z) (fuel : nat) {cfg : RowState.Config} {Row : Type}.

(** A call of the engine, with what is answered if it fails. *)
Definition answer {A} (failed : A) (m : M World A) (w : World) : A * World :=
  let '(res, w) := m w in (match res with Ok a => a | Error _ _ => failed end, w).

Definition ffi_columns (keys : list RowState.key_column) : list FfiColumn :=
  (λ k, {| fc_attnum := RowState.kc_attnum k; fc_type_oid := RowState.kc_type_oid k;
           fc_typbyval := RowState.kc_typbyval k; fc_typlen := RowState.kc_typlen k |}) <$> keys.

(** [rest] has what is not of the second engine.  The implicit transaction that
    [fastpg_mem_ensure_write_xact] asks for is begun with the deletion that
    follows it. *)
Definition engine (rest : TupleOps.Engines World Row) : TupleOps.Engines World Row := {|
  TupleOps.store_meta := λ w,
    {| RowState.fastpg_rust_relation_row_xmin := RowState.fastpg_rust_relation_row_xmin (Storage := TupleOps.store_meta w);
       RowState.fastpg_rust_relation_row_cmin := RowState.fastpg_rust_relation_row_cmin (Storage := TupleOps.store_meta w);
       RowState.fastpg_rust_relation_row_delete_xid := RowState.fastpg_rust_relation_row_delete_xid (Storage := TupleOps.store_meta w);
       RowState.fastpg_rust_relation_row_delete_cid := RowState.fastpg_rust_relation_row_delete_cid (Storage := TupleOps.store_meta w);
       RowState.fastpg_storage2_relation_row_delete_xid := λ relid p, fastpg_storage2_relation_row_delete_xid relid p w;
       RowState.fastpg_storage2_relation_row_delete_cid := λ relid p, fastpg_storage2_relation_row_delete_cid relid p w;
       RowState.TransactionIdIsCurrentTransactionId := RowState.TransactionIdIsCurrentTransactionId (Storage := TupleOps.store_meta w) |};
  TupleOps.fastpg_storage2_relation_delete := λ relid p,
    answer false (fastpg_storage2_xact_begin_implicit;; fastpg_storage2_relation_delete relid p);
  TupleOps.fastpg_storage2_relation_delete_record_primary_key := λ relid p record,
    answer false (fastpg_storage2_relation_delete_record_primary_key relid p (negb (record =? 0)));
  TupleOps.fastpg_storage2_relation_record_invalidate_metadata := λ relid p xid cid,
    answer false (fastpg_storage2_relation_record_invalidate_metadata relid p xid cid);
  TupleOps.fastpg_storage2_relation_resolve_update_tid := λ relid p, answer None (fastpg_storage2_relation_resolve_update_tid relid p);
  TupleOps.fastpg_storage2_relation_current_session_owns_inserted_tid := fastpg_storage2_relation_current_session_owns_inserted_tid;
  TupleOps.fastpg_storage2_relation_record_primary_key := λ relid p, answer false (fastpg_storage2_relation_record_primary_key relid p);
  TupleOps.fastpg_storage2_primary_key_index_insert_with_spec := λ index relid keys p,
    answer false (fastpg_storage2_primary_key_index_insert_with_spec mem fuel index relid (ffi_columns keys)
      (RowState.kc_value <$> keys) (RowState.kc_isnull <$> keys) p);
  TupleOps.fastpg_storage2_relation_clear := λ relid w, (answer tt (fastpg_storage2_relation_clear relid) w).2;
  TupleOps.fastpg_rust_relation_delete := TupleOps.fastpg_rust_relation_delete;
  TupleOps.fastpg_rust_relation_delete_with_metadata := TupleOps.fastpg_rust_relation_delete_with_metadata;
  TupleOps.fastpg_rust_relation_clear := TupleOps.fastpg_rust_relation_clear;
  TupleOps.fastpg_rust_relation_clear_transactional := TupleOps.fastpg_rust_relation_clear_transactional;
  TupleOps.fastpg_mem_forget_single_byval_index_row := TupleOps.fastpg_mem_forget_single_byval_index_row;
  TupleOps.storage_last_error := TupleOps.storage_last_error;
  TupleOps.fetch_row_version := TupleOps.fetch_row_version;
  TupleOps.HeapTupleHasExternal := TupleOps.HeapTupleHasExternal (D := World);
  TupleOps.new_xid := TupleOps.new_xid;
|}.

(** ** Deleting a tuple *)

Section delete.
Context (rest : TupleOps.Engines World Row).
Abbreviation handler_state := (TupleOps.TupleState World).
Abbreviation store := (TupleOps.ts_store (D := World)).
Abbreviation session_of := (TupleOps.ts_session (D := World)).

(** The handler has changed nothing that it decides by. *)
Record undecided (s s' : handler_state) : Prop := {
  ud_store : store s' = store s;
  ud_xid : RowState.current_xid (session_of s') = RowState.current_xid (session_of s);
  ud_states : RowState.visibility_states (session_of s') = RowState.visibility_states (session_of s);
  ud_inline : RowState.touched_inline (session_of s') = RowState.touched_inline (session_of s);
  ud_hash : RowState.touched_hash (session_of s') = RowState.touched_hash (session_of s);
}.
#[local] Instance undecided_preorder : PreOrder undecided.
Proof. split; [by intros s|]. intros s1 s2 s3 [] []. split; congruence. Qed.

Lemma undecided_touched s s' relid row cid : undecided s s' →
  RowState.fastpg_mem_row_touched relid row cid (session_of s') = RowState.fastpg_mem_row_touched relid row cid (session_of s).
Proof.
  intros [_ E1 E2 E3 E4]. unfold RowState.fastpg_mem_row_touched, RowState.fastpg_mem_relation_visibility_state. by rewrite E1, E2, E3, E4.
Qed.
Lemma undecided_deleted s s' `{RowState.Storage} relid row cid storage2 : undecided s s' →
  RowState.fastpg_mem_row_deleted_by_current_xact relid row cid storage2 (session_of s') =
  RowState.fastpg_mem_row_deleted_by_current_xact relid row cid storage2 (session_of s).
Proof.
  intros [_ E1 E2 _ _]. unfold RowState.fastpg_mem_row_deleted_by_current_xact, RowState.fastpg_mem_relation_touched_by_current_xact_since,
    RowState.fastpg_mem_relation_visibility_state. by rewrite E1, E2.
Qed.

Lemma resolve_update_settled w relid t : unpack (pack t) = Some t → settled w relid t →
  answer None (fastpg_storage2_relation_resolve_update_tid relid (pack t)) w = (Some (pack t), w).
Proof.
  intros Hp Hs. unfold answer, fastpg_storage2_relation_resolve_update_tid, resolve_with. rewrite Hp.
  unfold mbind, M_bind, returning. destruct (settled_overlay _ _ _ Hs) as (_ & H2 & _ & H4).
  unfold resolve_update_redirect_in_overlays_compress. rewrite compress_loop_settled by done.
  rewrite bool_decide_true by done. cbn. by destruct w.
Qed.

Lemma resolve_handler relid t s : unpack (pack t) = Some t → settled (store s) relid t →
  TupleOps.fastpg_mem_storage2_resolve_update_row_id (eng := engine rest) relid (pack t) s = (Ok (pack t), s).
Proof.
  intros Hp Hs. unfold TupleOps.fastpg_mem_storage2_resolve_update_row_id. assert (pack t ≠ 0) by (intros E; rewrite E in Hp; by vm_compute in Hp).
  rewrite (proj2 (Z.eqb_neq _ _)) by done. unfold mbind, M_bind, TupleOps.on_store.
  change (TupleOps.fastpg_storage2_relation_resolve_update_tid (Engines := engine rest) relid (pack t))
    with (answer None (fastpg_storage2_relation_resolve_update_tid relid (pack t))).
  rewrite resolve_update_settled by done. cbn. by destruct s.
Qed.

Lemma acquire_handler relid t s : unpack (pack t) = Some t → settled (store s) relid t →
  ∃ s', TupleOps.fastpg_mem_acquire_storage2_update_row_lock (eng := engine rest) relid (pack t) s = (Ok (pack t), s') ∧ undecided s s'.
Proof.
  intros Hp Hs. unfold TupleOps.fastpg_mem_acquire_storage2_update_row_lock. assert (Hz : pack t ≠ 0) by (intros E; rewrite E in Hp; by vm_compute in Hp).
  rewrite (proj2 (Z.eqb_neq _ _)) by done. rewrite gets_run. destruct (TupleOps.fastpg_storage2_relation_current_session_owns_inserted_tid _ _ _).
  { by exists s. }
  unfold TupleOps.on_session, TupleOps.ask. unfold mbind at 1 2 3, M_bind at 1 2 3. cbn [modify gets].
  match goal with |- context [(mbind _ _) ?s1] => set (s1' := s1) end.
  assert (Hu : undecided s s1').
  { unfold s1', RowState.fastpg_mem_ensure_xact_callbacks. by destruct (RowState.xact_callbacks_registered (session_of s)). }
  rewrite (M_bind_run _ _ _ _ _ (resolve_handler relid t s1' Hp ltac:(by rewrite (ud_store _ _ Hu)))).
  rewrite (proj2 (Z.eqb_neq _ _)) by done. by exists s1'.
Qed.

(** The row that the handler goes on with, and when it does not go on. *)
Lemma target_handler rel tid cid s : RowState.fastpg_mem_use_storage2_for_relid (TupleOps.rel_id rel) = true →
  RowIds.tid_wf tid → RowIds.OffsetNumberIsValid (RowIds.ip_posid tid) = true → settled (store s) (TupleOps.rel_id rel) (tid_of tid) →
  ∃ s' tmfd, TupleOps.delete_target (eng := engine rest) rel tid cid s =
    (Ok match RowState.fastpg_mem_row_deleted_by_current_xact (storage := TupleOps.store_meta (Engines := engine rest) (store s))
                (TupleOps.rel_id rel) (pack (tid_of tid)) cid true (session_of s) with
        | Some _ => inl (TupleOps.TM_SelfModified, Some tmfd)
        | None => inr (pack (tid_of tid))
        end, s') ∧ undecided s s'.
Proof.
  intros Hu Hw Hv Hs. destruct (packed_alike tid Hw Hv) as (E1 & Hp & _). set (t := tid_of tid) in *.
  assert (Hz : pack t ≠ 0) by (intros E; rewrite E in Hp; by vm_compute in Hp).
  unfold TupleOps.delete_target. rewrite Hu, E1, (proj2 (Z.eqb_neq _ _)) by done. destruct RowState.fastpg_catalog_mode_uses_postgres eqn:Em.
  - destruct (acquire_handler (TupleOps.rel_id rel) t s Hp Hs) as (s1 & R1 & U1). rewrite (M_bind_run _ _ _ _ _ R1).
    unfold TupleOps.row_deleted. rewrite gets_run, (ud_store _ _ U1), (undecided_deleted s s1) by done.
    destruct (RowState.fastpg_mem_row_deleted_by_current_xact _ _ _ _ _) as [c|].
    + eexists s1, _. by split.
    + rewrite (M_bind_run _ _ _ _ _ (resolve_handler (TupleOps.rel_id rel) t s1 Hp ltac:(by rewrite (ud_store _ _ U1)))).
      rewrite Z.eqb_refl. exists s1, (TupleOps.fastpg_mem_fill_deleted_tmfd tid). by split.
  - unfold RowState.fastpg_mem_row_deleted_by_current_xact. rewrite Em. by exists s, (TupleOps.fastpg_mem_fill_deleted_tmfd tid).
Qed.

Lemma fetch_old_handler rel tid s : RowState.fastpg_mem_use_storage2_for_relid (TupleOps.rel_id rel) = true →
  RowIds.tid_wf tid → RowIds.OffsetNumberIsValid (RowIds.ip_posid tid) = true →
  ∃ old, TupleOps.fetch_old (eng := engine rest) rel (pack (tid_of tid)) s = (Ok old, s).
Proof.
  intros Hu Hw Hv. destruct (packed_alike tid Hw Hv) as (_ & _ & Hp). unfold TupleOps.fetch_old, TupleOps.resolved_tid. rewrite Hu, Hp.
  destruct (_ && _); by eexists.
Qed.

(** *** The engine's part *)

Abbreviation reachable := (reachable mem fuel).

Lemma after_world sys i s w : sy_sessions sys !! i = Some s →
  sy_sessions (after sys i w) !! i = Some (w_session w) ∧ world (after sys i w) (w_session w) = w ∧
  ∀ w', after (after sys i w) i w' = after sys i w'.
Proof.
  intros Hi. split; [apply list_lookup_insert_eq; by eapply lookup_lt_Some|]. split; [by destruct w|].
  intros w'. unfold after. cbn. by rewrite list_insert_insert_eq.
Qed.

Lemma reachable_call sys i s c : reachable sys → sy_sessions sys !! i = Some s → allowed c (world sys s) → publishes c = false →
  reachable (after sys i (exec mem fuel c (world sys s)).2).
Proof.
  intros Hr Hi Ha Hp. apply (reachable_step _ _ sys i c); [done|]. eapply step_call; [done|done|apply surjective_pairing|congruence].
Qed.

Lemma ensure_settled w relid t : settled w relid t → settled (on_session ensure_transaction w) relid t.
Proof.
  intros Hs. destruct (w_stack w) as [|o l] eqn:E.
  - assert (E' : w_stack (on_session ensure_transaction w) = [overlay_default]).
    { unfold w_stack, on_session, ensure_transaction in *. cbn. by rewrite E. }
    intros hot. specialize (Hs hot). unfold next_redirect in *. rewrite E', E in *. by destruct hot.
  - assert (on_session ensure_transaction w = w) as ->; [|done]. unfold w_stack, on_session, ensure_transaction in *. rewrite E. by destruct w.
Qed.

Lemma second {A B} (m : M World A) (f : A → B) w : ((a ← m; mret (f a)) w).2 = (m w).2.
Proof. unfold mbind, M_bind. by destruct (m w) as [[]]. Qed.

Lemma delete_engine sys i s relid t : reachable sys → sy_sessions sys !! i = Some s → unpack (pack t) = Some t → settled (world sys s) relid t →
  let before := seen (world sys s) in
  ∃ found w, answer false (fastpg_storage2_xact_begin_implicit;; fastpg_storage2_relation_delete relid (pack t)) (world sys s) = (found, w) ∧
    found = bool_decide (is_Some (before relid t ≫= decode_tuple t)) ∧ reachable (after sys i w) ∧
    ∀ relid' t', seen w relid' t' = if found && bool_decide (relid' = relid ∧ t' = t) then None else before relid' t'.
Proof.
  intros Hr Hi Hp Hs before. pose proof (good_SInv sys i s (reachable_good _ _ _ Hr) Hi) as Hw.
  set (w0 := on_session ensure_transaction (world sys s)). destruct (ensure_spec _ _ Hw) as (Hw0 & _ & _ & _ & Hsee). fold w0 in Hw0, Hsee.
  assert (Hr0 : reachable (after sys i w0)) by (apply (reachable_call sys i s CBeginImplicit); done).
  destruct (after_world sys i s w0 Hi) as (Hi0 & Ew & Ea).
  destruct (total_delete relid (pack t) true w0) as (found & w & E).
  destruct (triple_delete _ _ _ before relid (pack t) true t Hp w0 (SInv_Inv _ _ Hw0)) as (_ & _ & Hq).
  { split; [intros ??; by rewrite <- Hsee|by apply ensure_settled]. }
  rewrite E in Hq. destruct (Hq found eq_refl) as [Ef Hv]. exists found, w. split; [|split; [done|split]].
  - unfold answer, fastpg_storage2_xact_begin_implicit, fastpg_storage2_relation_delete. unfold mbind, M_bind. cbn [modify].
    fold w0. by rewrite E.
  - pose proof (reachable_call (after sys i w0) i (w_session w0) (CDelete relid (pack t) true) Hr0 Hi0) as Hx.
    rewrite Ew, Ea in Hx. cbn [exec] in Hx. rewrite (second _ (λ _, tt)), E in Hx. apply Hx; [|done].
    intros t' [= <-]%(eq_trans (eq_sym Hp)). by apply ensure_settled.
  - intros relid' t'. change (seen w relid' t') with (view (w_storage w) (w_stack w) relid' t'). rewrite Hv.
    destruct found; [|done]. cbn [andb]. unfold upd.
    case_decide as Hx; [by rewrite (bool_decide_eq_true_2 _ Hx)|by rewrite (bool_decide_eq_false_2 _ Hx)].
Qed.

Lemma record_engine sys i s relid p xid cid : reachable sys → sy_sessions sys !! i = Some s →
  let w := (answer false (fastpg_storage2_relation_record_invalidate_metadata relid p xid cid) (world sys s)).2 in
  reachable (after sys i w) ∧ ∀ relid' t', seen w relid' t' = seen (world sys s) relid' t'.
Proof.
  intros Hr Hi. pose proof (good_SInv sys i s (reachable_good _ _ _ Hr) Hi) as Hw. cbv zeta. set (m := fastpg_storage2_relation_record_invalidate_metadata _ _ _ _).
  assert (E : (answer false m (world sys s)).2 = (m (world sys s)).2) by (unfold answer; by destruct (m _)). rewrite E. split.
  - pose proof (reachable_call sys i s (CRecordInvalidate relid p xid cid) Hr Hi I eq_refl) as Hx. cbn [exec] in Hx.
    by rewrite (second _ (λ _, tt)) in Hx.
  - pose proof (calm_record_invalidate (lower (world sys s)) (claimed (lower (world sys s) ++ others sys i)) (held (lower (world sys s) ++ others sys i))
      relid p xid cid (world sys s) (SInv_Inv _ _ Hw)) as [Hi' Hn].
    exact (neutral_sees _ _ _ (seen (world sys s)) (world sys s) _ (SInv_Inv _ _ Hw) Hi' Hn (λ _ _, eq_refl)).
Qed.

(** *** The handler *)

(** A part of the handler that does not call the engine, and what it answers. *)
Definition apart_from_engine {A} (m : M handler_state A) (Q : A → Prop) : Prop :=
  ∀ s, ∃ a s', m s = (Ok a, s') ∧ Q a ∧ store s' = store s.

Lemma apart_bind {A B} (m : M handler_state A) (f : A → M handler_state B) Q Q' :
  apart_from_engine m Q → (∀ a, Q a → apart_from_engine (f a) Q') → apart_from_engine (m ≫= f) Q'.
Proof.
  intros Hm Hf s. destruct (Hm s) as (a & s1 & E1 & Ha & E2). destruct (Hf a Ha s1) as (b & s2 & E3 & Hb & E4). exists b, s2.
  split; [by rewrite (M_bind_run _ _ _ _ _ E1)|]. split; [done|congruence].
Qed.
Lemma apart_ret {A} (a : A) : apart_from_engine (mret a) (λ x, x = a).
Proof. intros s. by exists a, s. Qed.
Lemma apart_session f : apart_from_engine (TupleOps.on_session f) (λ _, True).
Proof. intros s. by eexists _, _. Qed.
Lemma apart_effect e : apart_from_engine (TupleOps.effectful e) (λ _, True).
Proof. intros s. by eexists _, _. Qed.
Lemma apart_if (b : bool) (m m' : M handler_state unit) : apart_from_engine m (λ _, True) → apart_from_engine m' (λ _, True) →
  apart_from_engine (if b then m else m') (λ _, True).
Proof. by destruct b. Qed.
Lemma apart_weaken {A} (m : M handler_state A) Q Q' : apart_from_engine m Q → (∀ a, Q a → Q' a) → apart_from_engine m Q'.
Proof. intros Hm HQ s. destruct (Hm s) as (a & s' & E & Ha & Es). exists a, s'. auto. Qed.

Lemma apart_xid : (∀ w, (TupleOps.new_xid (Engines := rest) w).2 = w) →
  apart_from_engine (TupleOps.GetCurrentTransactionId (eng := engine rest)) (λ _, True).
Proof.
  intros Hx s. unfold TupleOps.GetCurrentTransactionId. destruct (RowState.TransactionIdIsValid _); [by eexists _, _|].
  change (TupleOps.new_xid (Engines := engine rest) (store s)) with (TupleOps.new_xid (Engines := rest) (store s)).
  specialize (Hx (store s)). destruct (TupleOps.new_xid (Engines := rest) (store s)) as [xid d]. cbn in Hx. subst d. by eexists _, _.
Qed.

(** The end of the handler, after the row is deleted and its metadata recorded. *)
Lemma finish_handler rel row_id cid old : apart_from_engine (
    (if TupleOps.invalidate_catalog_tuple rel && bool_decide (is_Some old)
     then TupleOps.effectful (TupleOps.e_cache_invalidate_heap_tuple (TupleOps.rel_id rel)) else mret tt);;
    (if default false (TupleOps.HeapTupleHasExternal (Engines := engine rest) <$> old)
     then TupleOps.effectful (TupleOps.e_heap_toast_delete (TupleOps.rel_id rel)) else mret tt);;
    TupleOps.on_session (RowState.fastpg_mem_mark_row_touched (TupleOps.rel_id rel) row_id cid);;
    (if RowState.fastpg_catalog_mode_uses_postgres then
       TupleOps.effectful (TupleOps.e_pgstat_count_heap_delete (TupleOps.rel_id rel));;
       TupleOps.effectful (TupleOps.e_count_io_write (TupleOps.rel_id rel))
     else mret tt);;
    TupleOps.on_session (RowState.fastpg_mem_note_relation_changed (TupleOps.rel_id rel));;
    (mret (TupleOps.TM_Ok, None) : M handler_state TupleOps.outcome)) (λ res, res = (TupleOps.TM_Ok, None)).
Proof.
  assert (Hret : apart_from_engine (mret tt) (λ _, True)) by (eapply apart_weaken; [apply apart_ret|done]).
  eapply apart_bind; [apply apart_if; [apply apart_effect|done]|intros _ _].
  eapply apart_bind; [apply apart_if; [apply apart_effect|done]|intros _ _].
  eapply apart_bind; [apply apart_session|intros _ _].
  eapply apart_bind; [apply apart_if; [eapply apart_bind; [apply apart_effect|intros _ _; apply apart_effect]|done]|intros _ _].
  eapply apart_bind; [apply apart_session|intros _ _]. apply apart_ret.
Qed.

(** The metadata of the deletion. *)
Lemma record_handler sys i s st relid row_id cid : (∀ w, (TupleOps.new_xid (Engines := rest) w).2 = w) →
  reachable sys → sy_sessions sys !! i = Some s → store st = world sys s →
  ∃ st', (if RowState.fastpg_mem_use_storage2_for_relid relid && RowState.fastpg_catalog_mode_uses_postgres then
            xid ← TupleOps.GetCurrentTransactionId (eng := engine rest);
            TupleOps.on_store (TupleOps.fastpg_storage2_relation_record_invalidate_metadata (Engines := engine rest) relid row_id xid cid);;
            mret tt
          else mret tt) st = (Ok tt, st') ∧ reachable (after sys i (store st')) ∧ ∀ relid' t', seen (store st') relid' t' = seen (store st) relid' t'.
Proof.
  intros Hx Hr Hi Es. assert (Hsame : after sys i (world sys s) = sys).
  { unfold after. cbn. rewrite list_insert_id by done. by destruct sys. }
  destruct (_ && _); [|exists st; rewrite Es, Hsame; by split].
  destruct (apart_xid Hx st) as (xid & st1 & R1 & _ & E1). rewrite (M_bind_run _ _ _ _ _ R1).
  unfold TupleOps.on_store, mbind, M_bind.
  change (TupleOps.fastpg_storage2_relation_record_invalidate_metadata (Engines := engine rest) relid row_id xid cid)
    with (answer false (fastpg_storage2_relation_record_invalidate_metadata relid row_id xid cid)).
  destruct (record_engine sys i s relid row_id xid cid Hr Hi) as [H1 H2]. rewrite E1, Es.
  destruct (answer false _ (world sys s)) as [b w] eqn:E. cbn [snd] in H1, H2. eexists. split; [done|]. by split.
Qed.

(** C16: The deletion handler of the table access method over the second engine,
    for a valid TID that no redirect leads on from (else the handler works on
    the row that the redirects lead to) and a relation of this engine: a row
    that the running command or a later one has touched or deleted is reported
    as modified by the session itself; otherwise the answer is TM_Ok exactly if
    the session sees a readable row under the identifier, and then the session
    does not see it any more. Nothing else changes for the session, the handler
    does not fail, and the engine is left in a state that calls of its sessions
    lead to. Row locks are granted when asked for, and drawing a transaction
    number does not touch the engine. *)
Theorem tuple_delete_removes_row sys i s rel tid cid snapshot st : (∀ w, (TupleOps.new_xid (Engines := rest) w).2 = w) →
  reachable sys → sy_sessions sys !! i = Some s → store st = world sys s →
  RowState.fastpg_mem_use_storage2_for_relid (TupleOps.rel_id rel) = true →
  RowIds.tid_wf tid → RowIds.OffsetNumberIsValid (RowIds.ip_posid tid) = true → settled (world sys s) (TupleOps.rel_id rel) (tid_of tid) →
  let relid := TupleOps.rel_id rel in
  let t := tid_of tid in
  let before := physical_visible_tuple_slice_in_overlays (sy_storage sys) (transaction_stack s) in
  let touched := RowState.fastpg_mem_row_touched relid (pack t) cid (session_of st) in
  let deleted := RowState.fastpg_mem_row_deleted_by_current_xact (storage := TupleOps.store_meta (Engines := engine rest) (store st))
                   relid (pack t) cid true (session_of st) in
  let own := bool_decide (is_Some touched) || bool_decide (is_Some deleted) in
  let readable := bool_decide (is_Some (before relid t ≫= decode_tuple t)) in
  ∃ tmfd st', TupleOps.fastpg_mem_tuple_delete (eng := engine rest) rel tid cid snapshot st =
      (Ok (if own then TupleOps.TM_SelfModified else if readable then TupleOps.TM_Ok else TupleOps.TM_Deleted, tmfd), st') ∧
    reachable (after sys i (store st')) ∧
    ∀ relid' t', physical_visible_tuple_slice_in_overlays (w_storage (store st')) (w_stack (store st')) relid' t' =
      if negb own && readable && bool_decide (relid' = relid ∧ t' = t) then None else before relid' t'.
Proof.
  intros Hx Hr Hi Es Hu Hw Hv Hs relid t before touched deleted own readable.
  assert (Hsame : after sys i (world sys s) = sys) by (unfold after; cbn; rewrite list_insert_id by done; by destruct sys).
  destruct (packed_alike tid Hw Hv) as (_ & Hp & _). fold t in Hp.
  destruct (target_handler rel tid cid st Hu Hw Hv) as (st1 & tmfd & R1 & U1); [by rewrite Es|]. fold relid t deleted in R1.
  unfold TupleOps.fastpg_mem_tuple_delete. fold relid. rewrite (M_bind_run _ _ _ _ _ R1).
  pose proof (ud_store _ _ U1) as E1. rewrite Es in E1. unfold own. destruct deleted as [c|].
  { exists (Some tmfd), st1. rewrite orb_true_r. split; [done|]. by rewrite E1, Hsame. }
  unfold TupleOps.ask at 1. rewrite gets_run, (undecided_touched _ _ _ _ _ U1). fold touched. destruct touched as [c|].
  { eexists _, st1. split; [done|]. by rewrite E1, Hsame. }
  cbn [is_Some bool_decide]. rewrite !bool_decide_eq_false_2 by (by intros [? ?]). cbn [orb negb andb].
  destruct (fetch_old_handler rel tid st1 Hu Hw Hv) as (old & R2). fold t in R2. rewrite (M_bind_run _ _ _ _ _ R2).
  destruct (apart_session RowState.fastpg_mem_ensure_write_xact st1) as (u & st2 & R3 & _ & E2). rewrite (M_bind_run _ _ _ _ _ R3).
  destruct (delete_engine sys i s relid t Hr Hi Hp Hs) as (found & w & R4 & Ef & Hr1 & Hv1).
  assert (R5 : TupleOps.engine_delete (eng := engine rest) rel (pack t) cid snapshot st2 = (Ok found, TupleOps.set_store w st2)).
  { unfold TupleOps.engine_delete. fold relid. unfold relid at 1. rewrite Hu. unfold TupleOps.on_store. rewrite E2, E1.
    change (TupleOps.fastpg_storage2_relation_delete (Engines := engine rest) relid (pack t))
      with (answer false (fastpg_storage2_xact_begin_implicit;; fastpg_storage2_relation_delete relid (pack t))). by rewrite R4. }
  rewrite (M_bind_run _ _ _ _ _ R5). change (found = readable) in Ef. rewrite <- Ef. destruct found; cbn [negb].
  2: { eexists _, _. split; [done|]. split; [done|]. exact Hv1. }
  destruct (after_world sys i s w Hi) as (Hi1 & Ew & Ea).
  destruct (record_handler (after sys i w) i (w_session w) (TupleOps.set_store w st2) relid (pack t)
    (RowState.fastpg_mem_delete_cid_for_snapshot cid snapshot) Hx Hr1 Hi1 (eq_sym Ew)) as (st3 & R6 & Hr2 & Hv2).
  rewrite (M_bind_run _ _ _ _ _ R6). destruct (finish_handler rel (pack t) cid old st3) as (res & st4 & R7 & -> & E4).
  exists None, st4. split; [exact R7|]. rewrite E4. rewrite Ea in Hr2. split; [done|]. intros relid' t'.
  change (seen (store st3) relid' t' = if bool_decide (relid' = relid ∧ t' = t) then None else seen (world sys s) relid' t').
  rewrite Hv2. apply Hv1.
Qed.
End delete.

(** C21: The table access method and the engine mean the same rows: the
    identifier of every row that a session sees is a valid TID, which the table
    access method packs into the number that the engine gave out and unpacks
    from it; and a number that has a TID for the one is the same row for the
    other. *)
Theorem identifiers_agree sys i s relid t : reachable mem fuel sys → sy_sessions sys !! i = Some s →
  is_Some (physical_visible_tuple_slice_in_overlays (sy_storage sys) (transaction_stack s) relid t) →
  RowIds.fastpg_mem_tid_to_storage2_tid (item_pointer t) = pack t ∧ unpack (pack t) = Some t ∧
  RowIds.fastpg_mem_storage2_tid_to_tid (pack t) = Some (item_pointer t) ∧
  ∀ v tid, is_u64 v → RowIds.fastpg_mem_storage2_tid_to_tid v = Some tid → unpack v = Some (tid_of tid).
Proof.
  intros Hr%reachable_good Hi Ht. pose proof (good_SInv sys i s Hr Hi) as Hw.
  destruct (seen_tid _ _ relid Hw t Ht) as [Htw Hto]. pose proof (seen_offset _ _ relid Hw t Ht) as Hm.
  assert (Et : tid_of (item_pointer t) = t) by (by destruct t).
  destruct (packed_alike (item_pointer t) Htw) as (H1 & H2 & H3).
  { unfold RowIds.OffsetNumberIsValid, RowIds.InvalidOffsetNumber. cbn. apply andb_true_iff. split.
    - by rewrite (proj2 (Z.eqb_neq _ _)) by lia.
    - apply Z.leb_le. change RowIds.MaxOffsetNumber with 2048. unfold MAX_CTID_OFFSET in Hm. lia. }
  rewrite Et in H1, H2, H3. split; [done|]. split; [done|]. split; [done|]. apply unpacked_alike.
Qed.
End link.
End EngLink.
