(* ===== verification/EngExamples.v ===== *)
(** * Runs of the second engine

    Two sessions over two tables on concrete inputs: the theorems of
    EngTheorems.v at these states, and those of EngFfiTheorems.v and EngLink.v. *)

From Stdlib Require Import ZArith Lia Ascii.
From stdpp Require Import base tactics numbers list gmap strings sorting.
From S2P Require Import Prelude RowIds RowState TupleOps RustStd EngTid EngTuple EngPage EngIndex EngRelation EngOverlay EngState EngOps EngScan EngFfi EngTupleProofs EngPageProofs EngRelationProofs EngInv EngCalls EngSession EngCommit EngTransactions EngSystem EngScanProofs EngTheorems EngFfiTheorems EngLink.

Local Open Scope Z_scope.

(** ** A catalog with two tables *)

Module EngExamples.

#[local] Instance x86 : Target := {| little_endian := true |}.
(** Table 1 has two columns and a primary key on the first; table 2 has no index. *)
Definition pkey : IndexRecord :=
  {| ir_index_oid := 100; ir_relation_oid := 1; ir_key_attnums := [1]; ir_is_unique := true; ir_is_primary := true;
     ir_nulls_not_distinct := false; ir_is_valid := true; ir_is_ready := true; ir_is_live := true |}.
#[local] Instance two_tables : Catalog := {|
  unique_index_records_for_relation_oid := λ relid, if relid =? 1 then [pkey] else [];
  relation_column_type := λ _ attnum, if attnum =? 1 then Some 23 else Some 25;
  lookup_type := λ oid, if oid =? 23 then Some (true, 4) else Some (false, -1);
  primary_key_index_oid_for_relation_oid := λ relid, if relid =? 1 then Some 100 else None;
  relation_oid_for_index_oid := λ oid, if oid =? 100 then Some 1 else None |}.

(** The bytes at addresses, and a row of a number and [n] bytes at 4096. *)
Definition memory (a : Z) : Z := a mod 256.
Definition row (k n : Z) : RowInput :=
  {| in_values := [k; 4096]; in_is_null := [0; 0]; in_byval := [1; 0]; in_value_lens := [0; n] |}.
Lemma row_ok k n : 0 <= k < 2 ^ 64 → 0 <= n < 2 ^ 32 → input_ok (row k n).
Proof.
  intros Hk Hn. split; [done|]. split; [done|]. split; [done|]. split; repeat constructor; unfold is_u64, is_u32; lia.
Defined.

Abbreviation reachable := (reachable memory 100).
Abbreviation exec := (exec memory 100).

(** ** Two sessions *)

Definition session (sys : Sys) (i : nat) : SessionStorage := default session_default (sy_sessions sys !! i).
Definition call (i : nat) (c : Call) (sys : Sys) : Sys := after sys i (exec c (world sys (session sys i))).2.

Lemma call_step sys i s c : sy_sessions sys !! i = Some s → allowed c (world sys s) →
  (publishes c = true → (exec c (world sys s)).1 = Ok tt) → step memory 100 sys i c (call i c sys).
Proof. 
  intros Hi Ha Hp. unfold call, session. rewrite Hi. cbn [default]. eapply step_call; [done..|apply surjective_pairing|done].
Qed.

Definition sys0 : Sys := start 2.
Definition insert7 : Call := CInsert 2 (row 7 20) Skip None true.
Definition sys1 : Sys := call 0 insert7 (call 0 CBegin sys0).

Lemma sys1_reachable : reachable sys1.
Proof.
  apply (reachable_step _ _ (call 0 CBegin sys0) 0 insert7); [apply (reachable_step _ _ sys0 0 CBegin); [apply (reachable_start _ _ 2)|]|].
  - eapply call_step; [done..|]. intros _. vm_compute. reflexivity.
  - eapply call_step; [done| |done]. by apply row_ok.
Qed.
Definition tid1 : Tid := mkTid 0 1.

(** The row is committed. *)
Definition sys2 : Sys := call 0 CCommit sys1.
Lemma sys2_reachable : reachable sys2.
Proof.
  apply (reachable_step _ _ sys1 0 CCommit); [apply sys1_reachable|]. eapply call_step; [reflexivity|done|]. intros _. vm_compute. reflexivity.
Qed.

Abbreviation sees_row := physical_visible_tuple_slice_in_overlays.

Lemma row_counters_exact_witness : Z.of_nat (size (live_tids (relation_of (sy_storage sys2) 2))) = 1.
Proof. destruct (EngTheorems.row_counters_exact memory 100 sys2 2 sys2_reachable) as [E _]. rewrite <- E. vm_compute. reflexivity. Defined.

Lemma uncommitted_rows_private_witness : sees_row (sy_storage sys1) (transaction_stack (session sys1 1)) 2 tid1 = None.
Proof.
  destruct (EngTheorems.uncommitted_rows_private memory 100 sys1 0 1 (session sys1 0) (session sys1 1) 2 tid1 sys1_reachable)
    as (_ & E & _); [reflexivity|reflexivity|discriminate|vm_compute; reflexivity|exact E].
Defined.

Lemma calls_isolated_witness : let sys' := call 1 insert7 sys1 in
  sees_row (sy_storage sys') (transaction_stack (session sys1 0)) 2 tid1 =
  sees_row (sy_storage sys1) (transaction_stack (session sys1 0)) 2 tid1.
Proof.
  destruct (EngTheorems.calls_isolated memory 100 sys1 1 insert7 (call 1 insert7 sys1) 0 (session sys1 0) sys1_reachable)
    as [_ E]; [eapply call_step; [reflexivity|by apply row_ok|discriminate]|reflexivity|discriminate|reflexivity|]. exact (proj1 (E 2 tid1)).
Defined.

Lemma commit_publishes_witness : ∃ t, sees_row (w_storage (fastpg_storage2_xact_commit (world sys1 (session sys1 0))).2) [] 2 t =
  sees_row (sy_storage sys1) (transaction_stack (session sys1 0)) 2 tid1.
Proof.
  destruct (EngTheorems.commit_publishes memory 100 sys1 0 (session sys1 0) (Ok tt)
    (fastpg_storage2_xact_commit (world sys1 (session sys1 0))).2 sys1_reachable) as (_ & (ρ & [Hρ _ _] & _) & _);
    [reflexivity|vm_compute; reflexivity|]. exists (ρ 2 tid1).
  destruct (sees_row (sy_storage sys1) (transaction_stack (session sys1 0)) 2 tid1) as [b|] eqn:E; [by apply Hρ|vm_compute in E; discriminate].
Defined.

Lemma abort_discards_witness : ∃ w', fastpg_storage2_xact_abort (world sys1 (session sys1 0)) = (Ok tt, w') ∧
  sees_row (w_storage w') [] 2 tid1 = None ∧ sees_row (w_storage w') (transaction_stack (session sys1 1)) 2 tid1 = None.
Proof.
  destruct (EngTheorems.abort_discards memory 100 sys1 0 (session sys1 0) sys1_reachable eq_refl) as (w' & E & _ & Hv & Hj).
  exists w'. split; [exact E|]. split; [rewrite Hv; vm_compute; reflexivity|].
  rewrite (Hj 1%nat); [vm_compute; reflexivity|done|reflexivity].
Defined.

Lemma savepoint_restores_witness :
  let w1 := (fastpg_storage2_subxact_begin (world sys1 (session sys1 0))).2 in
  ∃ w', fastpg_storage2_subxact_abort (EngTheorems.exec_all memory 100 [insert7] w1) = (Ok tt, w') ∧
    sees_row (w_storage w') (w_stack w') 2 (mkTid 0 2) = None.
Proof.
  destruct (EngTheorems.savepoint_restores memory 100 sys1 0 (session sys1 0) [insert7] sys1_reachable eq_refl) as (w' & E & Hv).
  - repeat constructor.
  - split; [by apply row_ok|exact I].
  - exists w'. split; [exact E|]. rewrite Hv. vm_compute. reflexivity.
Defined.

Lemma insert_adds_row_witness : let w' := (relation_insert_impl memory 100 2 (row 8 30) Skip None true (world sys1 (session sys1 1))).2 in
  ∃ bytes, encodes memory (row 8 30) bytes ∧ sees_row (w_storage w') (w_stack w') 2 (mkTid 0 2) = Some bytes.
Proof.
  destruct (EngTheorems.insert_adds_row memory 100 sys1 1 (session sys1 1) 2 (row 8 30) Skip None true (Ok (Some (mkTid 0 2)))
    (relation_insert_impl memory 100 2 (row 8 30) Skip None true (world sys1 (session sys1 1))).2 sys1_reachable eq_refl)
    as (_ & bytes & H1 & H2); [by apply row_ok|vm_compute; reflexivity|].
  exists bytes. split; [exact H1|]. rewrite H2. reflexivity.
Defined.

Lemma settled_witness : settled (world sys2 (session sys2 1)) 2 tid1.
Proof. intros []; vm_compute; reflexivity. Qed.

Lemma update_replaces_row_witness : ∃ t w' bytes,
  relation_update_impl memory 100 2 (pack tid1) (row 8 30) Enforce false None (world sys2 (session sys2 1)) = (Ok (Some t), w') ∧
  encodes memory (row 8 30) bytes ∧ sees_row (w_storage w') (w_stack w') 2 tid1 = None.
Proof.
  set (old := default [] (sees_row (sy_storage sys2) (transaction_stack (session sys2 1)) 2 tid1)).
  destruct (EngTheorems.update_replaces_row memory 100 sys2 1 (session sys2 1) 2 (pack tid1) tid1 old (row 8 30)
    (match tuple_storage_len (row 8 30) with Ok n => n | Error _ _ => 0 end) Enforce false None sys2_reachable eq_refl) as (res & w' & E & Hres).
  - by apply row_ok.
  - vm_compute. reflexivity.
  - reflexivity.
  - exact settled_witness.
  - vm_compute. reflexivity.
  - vm_compute. reflexivity.
  - destruct res as [t|]; [|apply (f_equal fst) in E; vm_compute in E; discriminate]. destruct Hres as (_ & _ & bytes & H1 & H2). exists t, w', bytes.
    split; [exact E|]. split; [exact H1|]. rewrite H2. reflexivity.
Defined.

Lemma delete_removes_row_witness : ∃ w', relation_delete_impl 2 (pack tid1) true (world sys2 (session sys2 1)) = (Ok true, w') ∧
  sees_row (w_storage w') (w_stack w') 2 tid1 = None.
Proof.
  destruct (EngTheorems.delete_removes_row memory 100 sys2 1 (session sys2 1) 2 (pack tid1) tid1 true sys2_reachable eq_refl eq_refl settled_witness)
    as (found & w' & E & Ef & Hv).
  assert (found = true) as -> by (rewrite Ef; vm_compute; reflexivity). exists w'. split; [exact E|]. rewrite Hv. reflexivity.
Defined.

(** ** Scans *)

(** The other session has inserted a second row. *)
Definition sys3 : Sys := call 1 (CInsert 2 (row 8 30) Skip None true) sys2.
Lemma sys3_reachable : reachable sys3.
Proof.
  apply (reachable_step _ _ sys2 1 (CInsert 2 (row 8 30) Skip None true)); [apply sys2_reachable|].
  eapply call_step; [reflexivity|by apply row_ok|discriminate].
Qed.
Definition tid2 : Tid := mkTid 0 2.

Lemma sys3_candidates : candidates (sy_storage sys3) (transaction_stack (session sys3 1)) 2 = {[tid1; tid2]}.
Proof. vm_compute. reflexivity. Qed.

Lemma sys3_seen t bytes : physical_visible (sy_storage sys3) (transaction_stack (session sys3 1)) 2 t None = Some bytes → copies 2 bytes = true.
Proof.
  cbn [physical_visible]. intros E. pose proof (EngTheorems.session_candidates memory 100 sys3 1 (session sys3 1) 2 t sys3_reachable eq_refl (ex_intro _ bytes E)) as Ht.
  rewrite sys3_candidates in Ht. apply elem_of_union in Ht as [->%elem_of_singleton| ->%elem_of_singleton];
    vm_compute in E; injection E as <-; vm_compute; reflexivity.
Qed.

Lemma scan_returns_visible_rows_witness : ∃ handle w' steps,
  scan_begin_impl 2 None (world sys3 (session sys3 1)) = (Ok handle, w') ∧ (scan_all 3 handle true 2 w').1 = Ok steps ∧
  vs_output_tid <$> steps.*1 = [tid1; tid2].
Proof.
  destruct (EngTheorems.scan_returns_visible_rows memory 100 sys3 1 (session sys3 1) 2 None 2 3 sys3_reachable eq_refl sys3_seen)
    as (h & w' & vs & E1 & E2 & _).
  - intros _. split; [split; [vm_compute; reflexivity|]|vm_compute; discriminate].
    intros t. change (w_storage (world sys3 (session sys3 1))) with (sy_storage sys3).
    change (w_stack (world sys3 (session sys3 1))) with (transaction_stack (session sys3 1)). rewrite sys3_candidates.
    intros [->%elem_of_singleton| ->%elem_of_singleton]%elem_of_union; (split; [vm_compute; reflexivity|intros []; vm_compute; reflexivity]).
  - rewrite sys3_candidates. vm_compute. lia.
  - exists h, w', vs. split; [exact E1|]. split; [exact E2|]. vm_compute in E1. injection E1 as <- <-. vm_compute in E2. injection E2 as <-.
    vm_compute. reflexivity.
Defined.

(** A scan of the other session before it has inserted anything. *)
Definition scanning : World := (scan_begin_impl 2 None (world sys2 (session sys2 1))).2.
Definition scanner : ScanState := default (new_scan 2 [] false false None) (scan_slot 1 (w_session scanning)).

Lemma scanner_copies c v : scan_row (w_storage scanning) (w_stack scanning) scanner true c = Ok (Some v) → copies 2 (vs_tuple v) = true.
Proof.
  assert (scan_has_visibility_deltas scanner = false) as Hd by (vm_compute; reflexivity).
  intros (r & t & Hr & Ht & Hs)%(committed_scan_found _ _ _ _ _ _ Hd). revert Hr. generalize (scan_relid scanner) as relid. intros relid.
  assert (Hall : map_Forall (λ _ r, ∀ t, t ∈ live_tids r → ∃ bytes, rel_tuple_slice r t false = Some bytes ∧ copies 2 bytes = true)
    (relations (w_storage scanning))).
  { assert (relations (w_storage scanning) = {[2 := relation_of (w_storage scanning) 2]}) as -> by (vm_compute; reflexivity).
    apply map_Forall_singleton. assert (live_tids (relation_of (w_storage scanning) 2) = {[tid1]}) as -> by (vm_compute; reflexivity).
    intros x ->%elem_of_singleton. exists (default [] (rel_tuple_slice (relation_of (w_storage scanning) 2) tid1 false)).
    split; vm_compute; reflexivity. }
  intros Hr. destruct (Hall relid r Hr t Ht) as (bytes & Hb & Hc). rewrite Hs in Hb. injection Hb as ->. exact Hc.
Qed.

Lemma batch_equals_steps_witness : ∃ steps w',
  scan_all 5 1 true 2 scanning = (Ok steps, w') ∧ scan_next_batch_impl 1 true 2 5 scanning = (Ok steps.*1, w') ∧
  (λ step, (vs_output_tid step.1, step.2)) <$> steps = [(tid1, tid1)].
Proof.
  pose proof (EngTheorems.batch_equals_steps 1 true 2 5 scanning scanner ltac:(vm_compute; reflexivity) scanner_copies) as Hb.
  assert (E : match (scan_all 5 1 true 2 scanning).1 with
              | Ok steps => (λ step, (vs_output_tid step.1, step.2)) <$> steps = [(tid1, tid1)]
              | Error _ _ => False
              end) by (vm_compute; reflexivity).
  destruct (scan_all 5 1 true 2 scanning) as [[steps|code msg] w']; [|destruct E]. destruct Hb as [Hb _]. exists steps, w'.
  split; [reflexivity|]. split; [exact Hb|exact E].
Defined.

(** ** Rows *)

Lemma stored_row_reads_witness : let n := match tuple_storage_len (row 7 20) with Ok n => n | Error _ _ => 0 end in
  ∃ bytes, write_tuple_to_slice_known_len memory (row 7 20) n (replicate (Z.to_nat n) 0) = (Ok tt, bytes) ∧
    tuple_byval_attr_equals bytes 1 7 0 = inl (Some (attr_equals (in_attrs (row 7 20) !! 0%nat) 7 0)).
Proof.
  intros n. destruct (stored_row_reads memory (row 7 20) n (replicate (Z.to_nat n) 0)) as (bytes & E & _ & Hr).
  - by apply row_ok.
  - reflexivity.
  - reflexivity.
  - exists bytes. split; [exact E|]. rewrite Hr by lia. reflexivity.
Defined.

Lemma raw_reads_in_bounds_witness : ∃ o, copy_tuple_to_outputs 0 [70; 80; 50; 84; 255; 255] false 3 = inl o.
Proof. apply (raw_reads_in_bounds [70; 80; 50; 84; 255; 255]). repeat constructor; lia. Defined.
End EngExamples.

(** * Runs of the C interface *)

Module EngFfiExamples.
Import EngExamples.
#[local] Existing Instances x86 two_tables.

Abbreviation sees_row := physical_visible_tuple_slice_in_overlays.

Lemma row_seen : is_Some (sees_row (sy_storage sys2) (transaction_stack (session sys2 1)) 2 tid1).
Proof. vm_compute. eauto. Qed.

(** ** Blocks and indexes *)

Lemma next_scan_block_covers_witness : ∃ block max_offset,
  fastpg_storage2_relation_next_scan_block 2 0 false (world sys2 (session sys2 1)) = Some (block, max_offset) ∧ 0 <= block <= 0 ∧ 1 <= max_offset.
Proof.
  destruct (EngFfiTheorems.next_scan_block_covers memory 100 sys2 1 (session sys2 1) 2 0 false tid1 sys2_reachable eq_refl) as (b & m & E & Hb & Hm).
  - lia.
  - exact row_seen.
  - vm_compute. discriminate.
  - right. vm_compute. reflexivity.
  - exists b, m. split; [exact E|]. cbn in Hb, Hm. split; [exact Hb|]. apply Hm. lia.
Defined.

(** An index on the first column, and its specification. *)
Definition first_column : list FfiColumn := [{| fc_attnum := 1; fc_type_oid := 23; fc_typbyval := 1; fc_typlen := 4 |}].
Definition on_first : UniqueIndexSpec := {| index_oid := 200; relation_oid := 2; is_primary := false; nulls_not_distinct := false;
  columns := [{| column_index := 0; column_type_oid := 23; column_typbyval := true; column_typlen := 4 |}] |}.

Lemma unique_validation_exact_witness :
  fastpg_storage2_unique_index_validate_with_spec 200 2 first_column false (world sys2 (session sys2 1)) = None ∧
  ∀ t t' k, is_Some (sees_row (sy_storage sys2) (transaction_stack (session sys2 1)) 2 t) →
  is_Some (sees_row (sy_storage sys2) (transaction_stack (session sys2 1)) 2 t') →
  EngFfiTheorems.key_of (world sys2 (session sys2 1)) 2 on_first t = Some k →
  EngFfiTheorems.key_of (world sys2 (session sys2 1)) 2 on_first t' = Some k → t = t'.
Proof.
  pose proof (EngFfiTheorems.unique_validation_exact memory 100 sys2 1 (session sys2 1) 200 2 first_column false on_first sys2_reachable eq_refl eq_refl) as Hv.
  cbv zeta in Hv.
  assert (E : fastpg_storage2_unique_index_validate_with_spec 200 2 first_column false (world sys2 (session sys2 1)) = None) by (vm_compute; reflexivity).
  split; [exact E|]. rewrite E in Hv. exact Hv.
Defined.

Lemma unique_conflict_exact_witness : ∃ t, pack tid1 = pack t ∧
  is_Some (sees_row (sy_storage sys2) (transaction_stack (session sys2 1)) 2 t).
Proof.
  pose proof (EngFfiTheorems.unique_conflict_exact memory 100 sys2 1 (session sys2 1) 200 2 first_column [7] [0] false 0 on_first (KSingle (KByValue 7))
    sys2_reachable eq_refl eq_refl eq_refl) as Hv. cbv zeta in Hv.
  assert (E : fastpg_storage2_unique_index_conflict_with_spec memory 100 200 2 first_column [7] [0] false false 0 (world sys2 (session sys2 1)) = Some (pack tid1))
    by (vm_compute; reflexivity).
  rewrite E in Hv. destruct Hv as (t & Et & Ht & _). exists t. split; [exact Et|exact Ht].
Defined.

Lemma index_entry_found_witness : let w' := (fastpg_storage2_index_insert_with_spec memory 100 200 2 first_column [7] [0] (pack tid1) (world sys2 (session sys2 1))).2 in
  ∃ tids, fastpg_storage2_index_prefix_lookup_with_spec memory 100 200 2 first_column [7] [0] 10 w' = Some tids ∧ pack tid1 ∈ tids.
Proof.
  set (w' := (fastpg_storage2_index_insert_with_spec memory 100 200 2 first_column [7] [0] (pack tid1) (world sys2 (session sys2 1))).2).
  exists [pack tid1]. assert (E : fastpg_storage2_index_prefix_lookup_with_spec memory 100 200 2 first_column [7] [0] 10 w' = Some [pack tid1]) by (vm_compute; reflexivity).
  split; [exact E|].
  apply (EngFfiTheorems.index_entry_found memory 100 sys2 1 (session sys2 1) 200 2 first_column [7] [0] tid1 1 10 w' _ sys2_reachable eq_refl row_seen settled_witness).
  - vm_compute. reflexivity.
  - cbn. lia.
  - exact E.
Defined.

Lemma primary_key_found_witness : let w' := (fastpg_storage2_primary_key_index_insert_with_spec memory 100 200 2 first_column [7] [0] (pack tid1) (world sys2 (session sys2 1))).2 in
  fastpg_storage2_primary_key_index_lookup_with_spec memory 100 200 2 first_column [7] [0] w' = (Ok (Some (pack tid1)), w').
Proof.
  set (w' := (fastpg_storage2_primary_key_index_insert_with_spec memory 100 200 2 first_column [7] [0] (pack tid1) (world sys2 (session sys2 1))).2).
  apply (EngFfiTheorems.primary_key_found memory 100 sys2 1 (session sys2 1) 200 2 first_column [7] [0] tid1 w' sys2_reachable eq_refl).
  - vm_compute. eauto.
  - exact settled_witness.
  - intros E. vm_compute in E. discriminate.
  - vm_compute. reflexivity.
Defined.

(** ** The table access method *)

Lemma identifiers_agree_witness : RowIds.fastpg_mem_tid_to_storage2_tid {| RowIds.ip_blkid := 0; RowIds.ip_posid := 1 |} = pack tid1.
Proof. apply (EngLink.identifiers_agree memory 100 sys2 1 (session sys2 1) 2 tid1 sys2_reachable eq_refl row_seen). Defined.

(** The catalog of PostgreSQL, the second engine, and nothing of the first one. *)
#[local] Instance postgres : RowState.Config := {|
  RowState.fastpg_catalog_mode_uses_postgres := true; RowState.storage_engine := None;
  RowState.fastpg_rust_catalog_policy_by_relation_oid := λ _, 0 |}.
Definition nothing : TupleOps.Engines World unit := {|
  TupleOps.store_meta := λ _, {|
    RowState.fastpg_rust_relation_row_xmin := λ _ _, 0; RowState.fastpg_rust_relation_row_cmin := λ _ _, 0;
    RowState.fastpg_rust_relation_row_delete_xid := λ _ _, 0; RowState.fastpg_rust_relation_row_delete_cid := λ _ _, 0;
    RowState.fastpg_storage2_relation_row_delete_xid := λ _ _, 0; RowState.fastpg_storage2_relation_row_delete_cid := λ _ _, 0;
    RowState.TransactionIdIsCurrentTransactionId := λ xid, xid =? 10 |};
  TupleOps.fastpg_storage2_relation_delete := λ _ _ w, (false, w);
  TupleOps.fastpg_storage2_relation_delete_record_primary_key := λ _ _ _ w, (false, w);
  TupleOps.fastpg_storage2_relation_record_invalidate_metadata := λ _ _ _ _ w, (false, w);
  TupleOps.fastpg_storage2_relation_resolve_update_tid := λ _ _ w, (None, w);
  TupleOps.fastpg_storage2_relation_current_session_owns_inserted_tid := λ _ _ _, false;
  TupleOps.fastpg_storage2_relation_record_primary_key := λ _ _ w, (false, w);
  TupleOps.fastpg_storage2_primary_key_index_insert_with_spec := λ _ _ _ _ w, (false, w);
  TupleOps.fastpg_storage2_relation_clear := λ _ w, w;
  TupleOps.fastpg_rust_relation_delete := λ _ _ w, (false, w);
  TupleOps.fastpg_rust_relation_delete_with_metadata := λ _ _ _ _ w, (false, w);
  TupleOps.fastpg_rust_relation_clear := λ _ w, w;
  TupleOps.fastpg_rust_relation_clear_transactional := λ _ w, w;
  TupleOps.fastpg_mem_forget_single_byval_index_row := λ _ _ w, w;
  TupleOps.storage_last_error := λ _, None;
  TupleOps.fetch_row_version := λ _ _ _ _, None;
  TupleOps.HeapTupleHasExternal := λ _, false;
  TupleOps.new_xid := λ w, (10, w) |}.

Definition table2 : TupleOps.RelationData :=
  {| TupleOps.rel_id := 2; TupleOps.rel_is_catalog := false; TupleOps.rel_is_toast := false;
     TupleOps.rel_relkind := TupleOps.RELKIND_RELATION; TupleOps.rel_reltoastrelid := 0; TupleOps.rel_density := 100 |}.
Definition backend : RowState.Session :=
  {| RowState.current_xid := 0; RowState.touched_inline := []; RowState.touched_hash := None; RowState.row_redirects := [];
     RowState.speculative_inserts := []; RowState.storage2_lock_roots := []; RowState.visibility_states := [];
     RowState.last_index_key_valid := false; RowState.xact_callbacks_registered := false; RowState.calls := [] |}.
Definition before_delete : TupleOps.TupleState World := TupleOps.Build_TupleState backend [] [] (world sys2 (session sys2 1)) [].
Definition pointer : RowIds.ItemPointerData := {| RowIds.ip_blkid := 0; RowIds.ip_posid := 1 |}.

Lemma tuple_delete_removes_row_witness : ∃ tmfd st',
  TupleOps.fastpg_mem_tuple_delete (eng := EngLink.engine memory 100 nothing) table2 pointer 3 None before_delete = (Ok (TupleOps.TM_Ok, tmfd), st') ∧
  sees_row (w_storage (TupleOps.ts_store st')) (w_stack (TupleOps.ts_store st')) 2 tid1 = None.
Proof.
  destruct (EngLink.tuple_delete_removes_row memory 100 nothing sys2 1 (session sys2 1) table2 pointer 3 None before_delete) as (tmfd & st' & E & _ & Hv).
  - intros w. reflexivity.
  - exact sys2_reachable.
  - reflexivity.
  - reflexivity.
  - reflexivity.
  - split; vm_compute; (split; [discriminate|reflexivity]).
  - reflexivity.
  - exact settled_witness.
  - exists tmfd, st'. split; [rewrite E; vm_compute; reflexivity|]. rewrite Hv. vm_compute. reflexivity.
Defined.
End EngFfiExamples.
