(* ===== verification/EngFindings.v ===== *)
(** * Runs of the second engine that go wrong

    Runs of one or two sessions, from an empty storage, in which the engine
    loses a row, misses one or miscounts: what the theorems of EngTheorems.v
    have conditions for, and why clearing a relation is not among the calls of
    EngSystem.v. *)

From Stdlib Require Import ZArith.
From stdpp Require Import base tactics numbers list gmap strings.
From S2P Require Import Prelude RustStd EngTid EngTuple EngPage EngIndex EngRelation EngOverlay EngState EngOps EngScan EngSystem EngScanProofs EngExamples.

Local Open Scope Z_scope.

Module EngFindings.
Import EngExamples.

#[local] Existing Instances x86 two_tables.

(** ** Runs *)

(** A call of session [i] in a system of sessions. *)
Definition on {A} (i : nat) (m : M World A) : M Sys A := λ sys,
  let '(res, w) := m (world sys (session sys i)) in (res, after sys i w).

Definition begin := fastpg_storage2_xact_begin.
Definition commit := fastpg_storage2_xact_commit.
Definition abort := fastpg_storage2_xact_abort.
Definition insert (relid k n : Z) : M World (option Tid) := relation_insert_impl memory 100 relid (row k n) Enforce None true.
Definition tids (relid : Z) : M World (list Tid) := gets (λ w, visible_tids (w_storage w) (w_session w) relid).
(** The rows of ten steps of a scan. *)
Definition scanned (handle : Z) : M World (list Tid) :=
  steps ← scan_all 10 handle true 2; mret (vs_output_tid <$> steps.*1).

Definition run {A} (m : M Sys A) : result A := (m (start 2)).1.

(** ** Scans *)

(** A transaction's fourth row goes to the first page, where there is room for
    it, so that the list of its rows is not sorted; the binary search in that
    list then misses a row. *)
Theorem overlay_scan_misses_row :
  run (on 0 (begin;; insert 1 1 5000;; insert 1 2 5000;; insert 1 3 3000;; insert 1 4 2900;;
    seen ← tids 1; handle ← scan_begin_impl 1 None; found ← scanned handle; mret (seen, found))) =
  Ok ([mkTid 0 1; mkTid 0 2; mkTid 1 1; mkTid 1 2], [mkTid 0 1; mkTid 1 1; mkTid 1 2]).
Proof. vm_compute. reflexivity. Qed.

(** A row that another session commits to an early page after the scan has
    begun ends the scan: the rows of the later pages, committed before it
    began, are not returned. *)
Theorem committed_scan_stops_early :
  run (on 0 (begin;; insert 2 1 5000;; insert 2 2 5000;; insert 2 3 3000;; commit);;
    handle ← on 1 (scan_begin_impl 2 None); seen ← on 1 (tids 2);
    on 0 (begin;; insert 2 4 2900;; commit);;
    found ← on 1 (scanned handle); mret (seen, found)) =
  Ok ([mkTid 0 1; mkTid 1 1; mkTid 1 2], [mkTid 0 1]).
Proof. vm_compute. reflexivity. Qed.

(** A committed row that a HOT update has replaced: a step of a scan hands out
    the root of the chain, under which indexes have the row, a batch the row's own
    identifier, under which they do not.  The access method takes either for the
    identifier that indexes have. *)
Theorem batch_index_differs :
  run (on 0 (begin;; insert 2 1 50;; commit;; begin;;
      relation_update_impl memory 100 2 (pack (mkTid 0 1)) (row 1 60) Skip true None;; commit);;
    handle ← on 1 (scan_begin_impl 2 None); steps ← on 1 (scan_all 10 handle true 2);
    handle' ← on 1 (scan_begin_impl 2 None); vs ← on 1 (scan_next_batch_impl handle' true 2 10);
    mret ((λ step, (vs_output_tid step.1, step.2)) <$> steps, (λ v, (vs_output_tid v, vs_cursor_tid v)) <$> vs)) =
  Ok ([(mkTid 0 2, mkTid 0 1)], [(mkTid 0 2, mkTid 0 2)]).
Proof. vm_compute. reflexivity. Qed.

(** ** Clearing a relation *)

(** After clearing a relation it had inserted into, a transaction counts one row
    less than it sees. *)
Theorem count_after_clear :
  run (on 0 (begin;; insert 2 1 10;; insert 2 2 10;; commit;;
    begin;; insert 2 3 10;; clear_relation 2;; insert 2 4 10;; insert 2 5 10;;
    count ← gets (visible_row_count_cached 2); seen ← tids 2; mret (count, length seen))) = Ok (1, 2%nat).
Proof. vm_compute. reflexivity. Qed.

(** A transaction that inserts, clears the relation and aborts takes with it a
    row that another session committed in between. *)
Theorem aborted_clear_loses_row :
  run (on 0 (begin;; insert 2 1 50);;
    on 1 (begin;; insert 2 2 50;; commit);; before ← on 1 (tids 2);
    on 0 (clear_relation 2;; abort);; after ← on 1 (tids 2); mret (before, after)) =
  Ok ([mkTid 0 2], []).
Proof. vm_compute. reflexivity. Qed.

(** ** Unique keys *)

(** Two open transactions insert one primary key, checks enforced, and both
    commit. *)
Theorem duplicate_key_commits :
  run (one ← on 0 (begin;; insert 1 7 50); two ← on 1 (begin;; insert 1 7 50);
    on 1 commit;; on 0 commit;; rows ← on 1 (tids 1); mret (bool_decide (is_Some one), bool_decide (is_Some two), length rows)) =
  Ok (true, true, 2%nat).
Proof. vm_compute. reflexivity. Qed.

End EngFindings.
